(* ===== verification/_CoqProject ===== *)
-Q . S2P
Prelude.v
Stream.v
Per.v
Ber.v
Tpkt.v
Packet.v
Mcs.v
Nego.v
RingBuffer.v
BitStream.v
Mppc.v
MppcRoundtrip.v
Base64.v
BufferedBio.v
Region.v
Collections.v
HashTable.v
Unicode.v
Zgfx.v
ZgfxDecode.v
Digest.v
DigestSpec.v
Bulk.v
FastPath.v
FastPathDelivery.v
Input.v
InputDelivery.v
Color.v
Image.v
Aligned.v
Planar.v
PlanarRle.v
PlanarDecode.v
PlanarEncode.v
PlanarDraw.v
PlanarRoundtrip.v
PlanarSafe.v
RleBitmap.v
Bitmap.v
Interleaved.v
RleSpec.v
RleExact.v
RleEmit.v
BitmapRoundtrip.v
InterleavedRoundtrip.v
