(* ===== verification/Prelude.v ===== *)
(** * FreeRDP: the wire layers and the bulk compressor

    A verification of parts of FreeRDP, an implementation of the Remote Desktop Protocol:
    the byte and bit streams every protocol module reads and writes, the encodings of the
    connection sequence, the framing, the security negotiation and the domain layer on top of
    them, the queue in front of the socket, the compressors of the data channels, the fast path
    with its updates and input events, the colours, the copying of images and their planar and
    interleaved coding, the regions of the screen that changed, the containers of the platform
    layer, its digests, and the text encoding of binary data.

    ** The parts of the program and the files

    - [Prelude] (this file): machine integers as [Z] with their reduction written out, lists
      indexed by [Z], and the computations of the C code: a function that works on an object
      returns ([Ret]), returns its failure code ([Fail]), or does not return ([Crash]: a
      failed assertion, an undefined access, an endless loop).  [wp] is the weakest
      precondition of such a computation.
    - [Stream]: [wStream] of [winpr/libwinpr/utils/stream.c] and [winpr/include/winpr/stream.h]
      with the byte orders of [winpr/include/winpr/endian.h].  The record has the fields of the
      C structure; the pointer is an index into the buffer.  The allocator is the class [Alloc].
    - [Per], [Ber]: the two ASN.1 encodings, [libfreerdp/crypto/per.c] and
      [libfreerdp/crypto/ber.c], as computations on a stream.
    - [Tpkt]: packet framing, [libfreerdp/core/tpkt.c] and [libfreerdp/core/tpdu.c].
    - [Packet]: what the protocol modules share: a module and the stream it reads from as a
      pair, packets that arrive as they were sent, and streams made for one packet.
    - [Nego]: the security negotiation, [libfreerdp/core/nego.c], client and server.  The
      transport is the class [Transport]; a connection is a record of the module, the
      settings it reads and writes, and the transport.
    - [Mcs]: the domain layer, [libfreerdp/core/mcs.c]: a record for [rdpMcs], receivers that
      work on the record and the arriving stream, senders that return the bytes they hand to
      the transport.
    - [RingBuffer]: [libfreerdp/utils/ringbuffer.c].  The heap is the class [Heap].
    - [BufferedBio]: the two socket layers of [libfreerdp/core/tcp.c].  The socket of the
      operating system is the class [Socket]; the layer under the buffered one is the class
      [BIO], with its promises as [BIOLaws], which the simple layer discharges.
    - [BitStream]: [winpr/include/winpr/bitstream.h] and
      [winpr/libwinpr/utils/collections/BitStream.c].
    - [Mppc]: the compressor and decompressor of [libfreerdp/codec/mppc.c], with the bit codes
      of literals, offsets and lengths; [MppcRoundtrip]: their theorems.
    - [Zgfx]: the compressor of the graphics pipeline, [libfreerdp/codec/zgfx.c]: the decoder of
      token streams with its history ring, and the compressor, which makes plain segments;
      [ZgfxDecode]: their theorems.
    - [Bulk]: the choice among the bulk compressors, [libfreerdp/codec/bulk.c]; NCRUSH and XCRUSH
      are the class [Crush].
    - [FastPath]: the updates of [libfreerdp/core/fastpath.c] in both directions, with
      [rdp_recv_fastpath_pdu] and [rdp_decrypt] of [libfreerdp/core/rdp.c].  The ciphers and
      digests of [security.c], the transport and the readers of updates are the classes
      [Security], [Wire] and [Updates].
      [FastPathDelivery]: their theorem; what a client promises is the class [Viewer].
    - [Input]: the events of [libfreerdp/core/input.c], the input half of [fastpath.c] and
      [peer_recv_fastpath_pdu] of [libfreerdp/core/peer.c].  The callbacks of the server are
      the class [Inputs], the framing of the slow path is the class [DataPdu] with its promise
      as [Framing].  [InputDelivery]: their theorems; what a cipher promises is the class
      [SecurityLaws].
    - [Color]: pixel formats and the colours of pixels, [include/freerdp/codec/color.h] and
      [libfreerdp/codec/color.h], with [FreeRDPSplitColor] and [FreeRDPGetColor] of
      [libfreerdp/codec/color.c].
    - [Image]: the generic copy of an image and the generic conversion from YCoCg,
      [libfreerdp/primitives/prim_copy.c], [prim_YCoCg.c] and [prim_internal.h].  The destination
      is the state, the source an argument; an access outside of either is a [Crash].
    - [Aligned]: the blocks of a codec and the reallocation of [winpr/libwinpr/crt/alignment.c].
    - [Planar]: the planar codec, [libfreerdp/codec/planar.c].  The record has the fields of the C structure; a block is
      null, live or freed.  [PlanarRle]: what a run length code stands for, and that the encoder
      writes the code of a row, a plane and an image; [PlanarDecode]: codes through the decoder;
      [PlanarEncode]: images through the encoder; [PlanarDraw]: images through the decoder;
      [PlanarRoundtrip] and [PlanarSafe]: the theorems.
    - [RleBitmap]: the decoder of the interleaved codec, [libfreerdp/codec/interleaved.c] and
      [libfreerdp/codec/include/bitmap.h], which is included once per depth; what a depth is, is
      the record [depth].  [Bitmap]: the encoder, [libfreerdp/codec/bitmap.c]; what differs between
      its two functions is the record [encoding].  [Interleaved]: contexts and entry points.
      [RleSpec]: what the orders of a message mean ([render]), and what a depth promises as the
      class [DepthLaws]; [RleExact]: the decoder draws that; [RleEmit]: the orders the encoder
      writes, read back; [BitmapRoundtrip]: the invariant of the encoder; [InterleavedRoundtrip]:
      the theorems.
    - [Region]: regions as banded lists of rectangles, [libfreerdp/codec/region.c].
    - [Collections]: the modules [Queue], [Stack] and [ArrayList], one per file of
      [winpr/libwinpr/utils/collections].  An object is its address; the callbacks for
      copying, comparing and freeing objects are the record [wObject].
    - [HashTable]: [winpr/libwinpr/utils/collections/HashTable.c], chains as lists; the float
      ratios are computed in single precision.  What the table needs of its callbacks is the
      class [Keys], with pointer and string keys as instances.
    - [Unicode]: the built-in converter between UTF-8 and UTF-16,
      [winpr/libwinpr/crt/unicode_builtin.c], and the string functions of
      [winpr/libwinpr/crt/unicode.c].
    - [Digest]: the built-in MD4, MD5, HMAC-MD5 and RC4 of [winpr/libwinpr/crypto]; the code that
      the two digests share is written once over the class [Rounds].  [DigestSpec]: the
      references of the RFCs, what the rounds promise as the class [RoundsSpec], and the
      theorems.
    - [Base64]: [libfreerdp/crypto/base64.c].  What the coder needs of an alphabet is the class
      [Alphabet], with the two tables of the file as instances.

    A stream or a buffer is threaded through each operation; failure keeps what was written
    before the early return, as in the code.  Memory that comes from [malloc] has contents
    given by a parameter ([junk], [heap_junk]), about which only the length is known.

    ** What the theorems show

    - Streams: growing a stream ends, asks for the next power-of-two multiple of the capacity
      and keeps the data; values read back in both byte orders.  Two exceptions are proved as
      such: a stream of capacity zero never stops growing, and a refused allocation for a
      stream that does not own its buffer is a copy to [NULL].
    - Readers: the PER, BER, framing and domain readers never read outside the data, whatever
      the bytes, and return values in range ([per_readers_safe], [ber_readers_safe],
      [tpdu_readers_safe], [mcs_receivers_safe]).
    - Round trips: each PER and BER value reads back from a growable stream, with the exact
      ranges in which this holds; outside of them the behaviour is stated
      ([per_integer_wide_not_readable], [ber_write_integer_asserts],
      [per_numeric_string_overruns]).
    - Framing and domain: a data packet is taken apart as it was put together; attaching a
      user and joining a channel leave both ends with the same ids; a request in the name of
      another user is refused; the merge of domain parameters is characterised completely.
    - Negotiation: with a cookie and a token that fit the request, connecting ends after at most
      five attempts whatever the server and the network do ([nego_connect_returns]); with standard security switched off the server
      cannot bring it back, nor choose a disabled protocol among those the code checks
      ([nego_connect_honours_policy]); requests and answers arrive as sent; a request is read
      safely whatever its bytes.  The protocols that are not checked, the protocol left over
      from a refused attempt, the cookie that is too long and the comparison behind the
      packet are lemmas of their own.
    - Regions: after adding a rectangle a region covers exactly the points it covered and
      those of the rectangle, and is banded again; likewise for the intersection; the test
      for an intersection is exact.
    - Containers: for every sequence of requests the stack and the list do what a list of objects
      does, and the hash table what a finite map does, also while it is visited
      ([HashTable_refines_map]).  The queue does what [collections.h] promises as long as memory
      is granted; when it is refused, an object may be dropped although [TRUE] is returned
      ([enqueue_refused_says_true]).  The cases outside the contracts, such as a search of the list
      behind its end ([index_of_reads_outside]), are lemmas.
    - Text: both directions of the converter take exactly the well-formed characters, fill
      the target exactly and stop for the reason they give ([utf16_to_utf8_exact],
      [utf8_to_utf16_exact]; the latter names the malformed sequences the code lets through);
      the allocating functions are inverse to each other ([unicode_string_roundtrip]).
    - Ring buffer: it refines a queue of bytes for all sequences of requests but those that fill a
      linear window which is all of the free space ([ringbuffer_full_window_loses_data]).
    - Socket: whatever the socket takes per call, the bytes go out once, in order.
    - Compressor: for any sequence of packets, the decompressor returns them, both ends
      keeping the same history; it survives any packet, although the source of a copy is not
      checked and may lie behind the history ([mppc_decompress_reads_outside]).
    - Graphics: what the tokens of a packet mean is defined without the decoder ([packet]); the
      decoder returns exactly that ([zgfx_decompress_exact]), survives every other packet
      ([zgfx_decompress_safe]), and undoes the compressor ([zgfx_roundtrip]).
    - Fast path: updates of any length, compressed or not and cut into fragments as needed, are
      shown by the client whole, once and in order, and each packet stays in its limit
      ([fastpath_updates_delivered], which rests on the round trip of the bulk layer); the events
      of an application become the calls of the server in order, over either path
      ([input_fastpath_delivered], [input_slowpath_delivered]), and the server takes any packet of
      the fast path, also an encrypted one, without a fault ([peer_recv_fastpath_pdu_safe]), unlike one of the slow path
      ([input_recv_unknown_faults]).  The round trips are without encryption.
    - Images: a colour survives being stored in a pixel and read back, but for the greens that the
      formats of two bytes brighten ([colour_roundtrip]); an image that is copied has the colours of
      its source at the places asked for and nothing else is touched ([image_copy_exact]; upside down
      only from the first row on, and without an alpha to keep), but a
      flipped copy from below the first row reads in front of the source
      ([image_copy_flip_faults]).  An image through the planar codec is drawn as it was
      ([planar_roundtrip]); the decoder takes any message that is not empty, refuses it without a trace or draws the
      whole rectangle ([planar_decompress_safe]); an encoder keeps room for the images of its size
      whatever it was given before ([planar_encoder_invariant]); without alpha and from four pixels a
      row on its messages always fit ([planar_compress_fits]).  Messages that are cut off and a block
      that is freed twice are lemmas ([narrow_image_cut_off], [failed_reset_frees_twice]).  The
      round trip and the safety are for images in RGB that are drawn on a destination of their own
      format; the YCoCg path is modelled without theorems.
      What the orders of an interleaved message mean is defined without the decoder; the decoder
      shows exactly that, whatever the bytes, or refuses the message, when the destination is no
      larger than the image and has no alpha
      ([interleaved_decompress_exact]; [taller_destination_faults]); an image that is encoded at 16 bits and decoded is shown as
      it was ([interleaved_roundtrip]), unless it has runs that take turns between two colors.
      These runs, the color of a mix at 15 bits and the stale pixels at 24 bits are lemmas
      ([bicolor_run_swapped], [mix_of_15_bits_white], [copy_of_24_bits_stale]).
    - Digests: a message in any parts gives the digest that RFC 1320, RFC 1321 and RFC 2104 define
      on the whole of it ([winpr_MD5_exact], [winpr_MD4_exact], [hmac_md5_exact]); the state
      of the stream cipher stays a permutation, and it is its own inverse.
    - Base64: both variants read back; the encoder stays inside the block it computed; the
      decoder is safe on every string.

    ** Fuel

    [grow_fuel] (65) exceeds the number of doublings of a 64-bit capacity;
    [numeric_fuel] the octets the stream has room for, since each turn of the packing loop
    stores one;
    the loops over the fragments of an update and over the updates of a packet have one unit per
    byte, since each turn takes one;
    [decompress_fuel] (65537) the symbols that fit the history, since each stores at least
    one byte; the loop over the blocks of a
    digest has one unit per block; the loops of the compressor and of the Base64 encoder have one unit per byte of
    the source; [write_chunk] gets its fuel from the caller, and one unit per byte is enough
    for a layer that keeps its word; [nego_fuel] (5) is the length of the longest chain of
    fallbacks; the loops of the regions and containers have one unit per rectangle or cell,
    the search for the end of a cookie one per remaining byte; [prime_fuel] (60) stands for
    2^60 turns of the search for a bucket count, and [next_prime_terminates] shows that it
    ends before; [token_fuel] is the bits of a segment and the bytes of the output, since each
    token takes a bit or, behind the end of the input, fills a byte; the converters have one unit per unit of the source.
    The loops of the planar codec have one unit per row, pixel or byte of the message, those of the
    interleaved decoder one per byte of the message or pixel of an order; its encoder has one per row
    and [row_fuel] more, the turns after which [out_count] ends the loop over an image without columns.
    Running out of fuel
    is [Crash Diverges] or, in the converters, a reason that the theorems exclude, so a
    theorem that a function returns includes that the fuel is enough.

    ** What is not modelled

    Logging; the functions of streams and BER that convert text; freeing memory; the control commands of the simple socket layer and the set-up of connections;
    sending and receiving whole connect packets of the domain layer, which carry the
    conference blocks of [libfreerdp/core/gcc.c]; the functions on whole images of
    [libfreerdp/codec/color.c] and the vectorised primitives; the other compressors and codecs, the
    drawing orders, the security layers, the virtual channels, the clients and the servers.

    Next: the conference blocks and with them the connect packets; NCRUSH and XCRUSH; the state
    machine of the connection and its slow-path headers; the RLGR codec;
    the remaining containers of WinPR. *)

From stdpp Require Export base list numbers option.
From Stdlib Require Export ZArith Lia Bool.

#[global] Open Scope Z_scope.

(** ** Machine integers

    A C unsigned integer of width [w] is a [Z] in [[0, 2^w)]; each operation that
    can leave the range is followed by the reduction of its type. *)

Definition u8 (x : Z) : Z := x mod 256.
Definition u16 (x : Z) : Z := x mod 65536.
Definition u32 (x : Z) : Z := x mod 4294967296.
Definition usize (x : Z) : Z := x mod 18446744073709551616.

(** the cast to a signed 32-bit integer *)
Definition s32 (x : Z) : Z :=
  let y := x mod 4294967296 in if y <? 2147483648 then y else y - 4294967296.

Definition INT32_MAX : Z := 2147483647.
Definition UINT8_MAX : Z := 255.
Definition UINT16_MAX : Z := 65535.
Definition UINT32_MAX : Z := 4294967295.
Definition SIZE_MAX : Z := 18446744073709551615.

Definition is_byte (b : Z) : Prop := 0 <= b < 256.
Definition is_u16 (x : Z) : Prop := 0 <= x < 65536.
Definition is_u32 (x : Z) : Prop := 0 <= x < 4294967296.
Definition is_usize (x : Z) : Prop := 0 <= x < 18446744073709551616.

Abbreviation bytes := (Forall is_byte).

(** the test behind [bytes], for concrete data *)
Definition is_byteb (b : Z) : bool := (0 <=? b) && (b <? 256).

Lemma bytes_check l : forallb is_byteb l = true -> bytes l.
Proof.
  intros H. apply List.Forall_forall. intros b Hb. rewrite forallb_forall in H.
  specialize (H b Hb). unfold is_byteb, is_byte in *. lia.
Qed.

Create HintDb words.
#[export] Hint Unfold u8 u16 u32 usize is_byte is_u16 is_u32 is_usize
  UINT8_MAX UINT16_MAX UINT32_MAX SIZE_MAX : words.

(** Arithmetic goals over machine words: unfold the widths, then [lia] with the
    quotient/remainder equations of constant moduli. *)
Ltac word_lia :=
  autounfold with words in *;
  try lia; Z.div_mod_to_equations; lia.

Lemma usize_id x : 0 <= x < 2 ^ 64 -> usize x = x.
Proof. intros. word_lia. Qed.

(** Two literal lists, cell by cell. *)
Ltac list_eq := repeat first [reflexivity | apply (f_equal2 cons)].

(** Splits the boolean tests that drive the control flow of the code. *)
Ltac zcase :=
  match goal with
  | |- context [if Z.ltb ?a ?b then _ else _] => destruct (Z.ltb_spec a b)
  | |- context [if Z.leb ?a ?b then _ else _] => destruct (Z.leb_spec a b)
  | |- context [if Z.eqb ?a ?b then _ else _] => destruct (Z.eqb_spec a b)
  | |- context [if Z.gtb ?a ?b then _ else _] => rewrite (Z.gtb_ltb a b)
  | |- context [if Z.geb ?a ?b then _ else _] => rewrite (Z.geb_leb a b)
  | |- context [if ?b then _ else _] => destruct b eqn:?
  end.

(** ** Bit operations on bounded integers *)

Lemma land_low_mask (x k : Z) : 0 <= k -> Z.land x (2 ^ k - 1) = x mod 2 ^ k.
Proof.
  intros Hk. replace (2 ^ k - 1) with (Z.ones k).
  - apply Z.land_ones; lia.
  - rewrite Z.ones_equiv. lia.
Qed.

Lemma land_mask (x k m : Z) : 0 <= k -> m = 2 ^ k - 1 -> Z.land x m = x mod 2 ^ k.
Proof. intros Hk ->. by apply land_low_mask. Qed.

Lemma testbit_above (x k i : Z) : 0 <= x < 2 ^ k -> k <= i -> Z.testbit x i = false.
Proof.
  intros Hx Hi. destruct (Z.eq_dec x 0) as [->|Hne]; [apply Z.bits_0|].
  apply Z.bits_above_log2; [lia|].
  apply Z.log2_lt_pow2; [lia|].
  apply Z.lt_le_trans with (2 ^ k); [lia|]. apply Z.pow_le_mono_r; lia.
Qed.

(** Or-ing a low part into a multiple of [2^k] is addition. *)
Lemma lor_shift_add (hi lo k : Z) :
  0 <= k -> 0 <= lo < 2 ^ k -> Z.lor (hi * 2 ^ k) lo = hi * 2 ^ k + lo.
Proof.
  intros Hk Hlo. symmetry. apply Z.add_nocarry_lor.
  apply Z.bits_inj'. intros i Hi. rewrite Z.land_spec, Z.bits_0.
  destruct (Z.lt_ge_cases i k).
  - rewrite Z.mul_pow2_bits_low by lia. reflexivity.
  - rewrite (testbit_above lo k) by lia. apply andb_false_r.
Qed.

Lemma lor_shiftl_add (hi lo k : Z) :
  0 <= k -> 0 <= lo < 2 ^ k -> Z.lor (Z.shiftl hi k) lo = hi * 2 ^ k + lo.
Proof. intros. rewrite Z.shiftl_mul_pow2 by lia. apply lor_shift_add; lia. Qed.

Lemma shiftr_div (x k : Z) : 0 <= k -> Z.shiftr x k = x / 2 ^ k.
Proof. intros. apply Z.shiftr_div_pow2; lia. Qed.

(** Facts about all values of a narrow type, by evaluation. *)
Fixpoint zforall_from (n : nat) (x : Z) (f : Z -> bool) : bool :=
  match n with
  | O => true
  | S n' => if f x then zforall_from n' (x + 1) f else false
  end.

Lemma zforall_from_spec n x f :
  zforall_from n x f = true -> forall y, x <= y < x + Z.of_nat n -> f y = true.
Proof.
  revert x. induction n as [|n IH]; intros x H y Hy; [lia|]. simpl in H.
  destruct (f x) eqn:Hf; [|done].
  destruct (Z.eq_dec y x) as [->|]; [done|]. apply (IH (x + 1)); [done|lia].
Qed.

Lemma zrange_forall (n : Z) (f : Z -> bool) :
  zforall_from (Z.to_nat n) 0 f = true -> forall x, 0 <= x < n -> f x = true.
Proof. intros H x Hx. apply (zforall_from_spec _ _ _ H). lia. Qed.

Lemma land_80 b : is_byte b -> (Z.land b 0x80 =? 0) = (b <? 128).
Proof.
  intros. apply Bool.eqb_prop. revert b H.
  apply (zrange_forall 256 (fun b => Bool.eqb (Z.land b 0x80 =? 0) (b <? 128))).
  by vm_compute.
Qed.

Lemma lor_8000 v : is_u16 v -> Z.lor v 0x8000 = v mod 32768 + 32768.
Proof.
  intros. apply Z.eqb_eq. revert v H.
  apply (zrange_forall 65536 (fun v => Z.lor v 0x8000 =? v mod 32768 + 32768)).
  by vm_compute.
Qed.

Lemma land_FF (x : Z) : Z.land x 0xFF = x mod 256.
Proof. apply (land_low_mask x 8); lia. Qed.

Lemma land_FFFF (x : Z) : Z.land x 0xFFFF = x mod 65536.
Proof. apply (land_low_mask x 16); lia. Qed.

(** ** Lists indexed by [Z], as C buffers are *)

Definition zlen {A} (l : list A) : Z := Z.of_nat (length l).
Definition ztake {A} (n : Z) (l : list A) : list A := take (Z.to_nat n) l.
Definition zdrop {A} (n : Z) (l : list A) : list A := drop (Z.to_nat n) l.
Definition zrepeat {A} (n : Z) (x : A) : list A := replicate (Z.to_nat n) x.

(** [memcpy (dst + i, src, zlen src)] *)
Definition blit {A} (i : Z) (src dst : list A) : list A :=
  ztake i dst ++ src ++ zdrop (i + zlen src) dst.

(** the [n] cells from index [i] *)
Definition slice {A} (i n : Z) (l : list A) : list A := ztake n (zdrop i l).

Section ZLists.
Context {A : Type}.
Implicit Types (l k : list A) (n m i j : Z).

Lemma zlen_nonneg l : 0 <= zlen l.
Proof. unfold zlen. lia. Qed.

Lemma zlen_nil : zlen (@nil A) = 0.
Proof. reflexivity. Qed.

Lemma zlen_cons x l : zlen (x :: l) = zlen l + 1.
Proof. unfold zlen. simpl. lia. Qed.

Lemma zlen_app l k : zlen (l ++ k) = zlen l + zlen k.
Proof. unfold zlen. rewrite length_app. lia. Qed.

Lemma zlen_ztake n l : 0 <= n <= zlen l -> zlen (ztake n l) = n.
Proof. unfold zlen, ztake. intros. rewrite length_take. lia. Qed.

Lemma zlen_zdrop n l : 0 <= n <= zlen l -> zlen (zdrop n l) = zlen l - n.
Proof. unfold zlen, zdrop. intros. rewrite length_drop. lia. Qed.

Lemma zlen_insert (i : nat) (x : A) l : zlen (<[i := x]> l) = zlen l.
Proof. unfold zlen. by rewrite length_insert. Qed.

Lemma zlen_zrepeat n (x : A) : 0 <= n -> zlen (zrepeat n x) = n.
Proof. unfold zlen, zrepeat. intros. rewrite length_replicate. lia. Qed.

Lemma zlen_slice i n l : 0 <= i -> 0 <= n -> i + n <= zlen l -> zlen (slice i n l) = n.
Proof. intros. unfold slice. rewrite zlen_ztake; [done|]. rewrite zlen_zdrop; lia. Qed.

Lemma zlen_blit i l k : 0 <= i -> i + zlen l <= zlen k -> zlen (blit i l k) = zlen k.
Proof.
  intros. unfold blit. pose proof (zlen_nonneg l).
  rewrite !zlen_app, zlen_ztake, zlen_zdrop by lia. lia.
Qed.

Lemma zlen_zero_inv l : zlen l = 0 -> l = [].
Proof. destruct l; [done|]. rewrite zlen_cons. pose proof (zlen_nonneg l). lia. Qed.

Lemma zlen_length l n : zlen l = n -> length l = Z.to_nat n.
Proof. unfold zlen. lia. Qed.

Lemma ztake_0 l : ztake 0 l = [].
Proof. reflexivity. Qed.

Lemma zdrop_0 l : zdrop 0 l = l.
Proof. reflexivity. Qed.

Lemma ztake_all n l : zlen l <= n -> ztake n l = l.
Proof. unfold zlen, ztake. intros. apply take_ge. lia. Qed.

Lemma zdrop_all n l : zlen l <= n -> zdrop n l = [].
Proof. unfold zlen, zdrop. intros. apply drop_ge. lia. Qed.

Lemma ztake_app_le n l k : 0 <= n <= zlen l -> ztake n (l ++ k) = ztake n l.
Proof. unfold zlen, ztake. intros. apply take_app_le. lia. Qed.

Lemma ztake_app_ge n l k : zlen l <= n -> ztake n (l ++ k) = l ++ ztake (n - zlen l) k.
Proof.
  unfold zlen, ztake. intros. rewrite take_app_ge by lia. do 2 f_equal. lia.
Qed.

Lemma zdrop_app_le n l k : 0 <= n <= zlen l -> zdrop n (l ++ k) = zdrop n l ++ k.
Proof. unfold zlen, zdrop. intros. apply drop_app_le. lia. Qed.

Lemma zdrop_app_ge n l k : zlen l <= n -> zdrop n (l ++ k) = zdrop (n - zlen l) k.
Proof. unfold zlen, zdrop. intros. rewrite drop_app_ge by lia. f_equal. lia. Qed.

Lemma zdrop_zdrop n m l : 0 <= n -> 0 <= m -> zdrop n (zdrop m l) = zdrop (m + n) l.
Proof. unfold zdrop. intros. rewrite drop_drop. f_equal. lia. Qed.

Lemma ztake_ztake n m l : 0 <= n -> 0 <= m -> ztake n (ztake m l) = ztake (Z.min n m) l.
Proof. unfold ztake. intros. rewrite take_take. f_equal. lia. Qed.

Lemma ztake_zdrop n l : ztake n l ++ zdrop n l = l.
Proof. apply take_drop. Qed.

Lemma zdrop_ztake n m l : 0 <= n <= m -> zdrop n (ztake m l) = ztake (m - n) (zdrop n l).
Proof.
  unfold zdrop, ztake. intros. rewrite skipn_firstn_comm. f_equal. lia.
Qed.

Lemma zdrop_cons n x l : 1 <= n -> zdrop n (x :: l) = zdrop (n - 1) l.
Proof.
  unfold zdrop. intros. replace (Z.to_nat n) with (S (Z.to_nat (n - 1))) by lia. done.
Qed.

Lemma ztake_cons n x l : 1 <= n -> ztake n (x :: l) = x :: ztake (n - 1) l.
Proof.
  unfold ztake. intros. replace (Z.to_nat n) with (S (Z.to_nat (n - 1))) by lia. done.
Qed.

Lemma blit_ztake i l k :
  0 <= i -> i + zlen l <= zlen k -> ztake (i + zlen l) (blit i l k) = ztake i k ++ l.
Proof.
  intros. pose proof (zlen_nonneg l). unfold blit.
  rewrite ztake_app_ge by (rewrite zlen_ztake; lia). rewrite zlen_ztake by lia.
  rewrite ztake_app_le by lia. rewrite (ztake_all (_ - _)) by lia. done.
Qed.

Lemma blit_zdrop i l k :
  0 <= i -> i + zlen l <= zlen k -> zdrop (i + zlen l) (blit i l k) = zdrop (i + zlen l) k.
Proof.
  intros. pose proof (zlen_nonneg l). unfold blit.
  rewrite zdrop_app_ge by (rewrite zlen_ztake; lia). rewrite zlen_ztake by lia.
  rewrite zdrop_app_ge by lia. replace (i + zlen l - i - zlen l) with 0 by lia. done.
Qed.

Lemma blit_nil i k : 0 <= i <= zlen k -> blit i [] k = k.
Proof.
  intros. unfold blit. rewrite zlen_nil, Z.add_0_r. simpl. apply ztake_zdrop.
Qed.

Lemma zdrop_blit_before j i src l :
  0 <= j <= i -> i + zlen src <= zlen l ->
  zdrop j (blit i src l) = blit (i - j) src (zdrop j l).
Proof.
  intros. pose proof (zlen_nonneg src). unfold blit.
  rewrite zdrop_app_le by (rewrite zlen_ztake; lia). rewrite zdrop_ztake by lia.
  rewrite zdrop_zdrop by lia. do 3 f_equal. lia.
Qed.

Lemma zdrop_blit_after j i src l :
  0 <= i -> i + zlen src <= j -> i + zlen src <= zlen l ->
  zdrop j (blit i src l) = zdrop j l.
Proof.
  intros. pose proof (zlen_nonneg src).
  replace j with (i + zlen src + (j - (i + zlen src))) by lia.
  rewrite <- !(zdrop_zdrop (j - (i + zlen src)) (i + zlen src)) by lia.
  by rewrite blit_zdrop.
Qed.

Lemma ztake_blit_before j i src l :
  0 <= j <= i -> i + zlen src <= zlen l -> ztake j (blit i src l) = ztake j l.
Proof.
  intros. pose proof (zlen_nonneg src). unfold blit.
  rewrite ztake_app_le by (rewrite zlen_ztake; lia). rewrite ztake_ztake by lia.
  f_equal. lia.
Qed.

Lemma blit_end i src l : 0 <= i -> i + zlen src = zlen l -> blit i src l = ztake i l ++ src.
Proof.
  intros. unfold blit. rewrite (zdrop_all (i + zlen src)) by lia. by rewrite app_nil_r.
Qed.

Lemma slice_blit_extend r u src l :
  0 <= r -> 0 <= u -> r + u + zlen src <= zlen l ->
  slice r (u + zlen src) (blit (r + u) src l) = slice r u l ++ src.
Proof.
  intros. pose proof (zlen_nonneg src). unfold slice.
  rewrite zdrop_blit_before by lia. replace (r + u - r) with u by lia.
  apply blit_ztake; [lia|]. rewrite zlen_zdrop; lia.
Qed.

(** Two adjacent copies are one. *)
Lemma blit_blit i a b l :
  0 <= i -> i + zlen a + zlen b <= zlen l ->
  blit (i + zlen a) b (blit i a l) = blit i (a ++ b) l.
Proof.
  intros. pose proof (zlen_nonneg a). pose proof (zlen_nonneg b).
  unfold blit at 1. rewrite blit_ztake by lia. rewrite zdrop_blit_after by lia.
  unfold blit. rewrite zlen_app, <- !app_assoc, Z.add_assoc. done.
Qed.

Lemma blit_over i (k l mem : list A) :
  0 <= i -> zlen k <= zlen l -> i + zlen l <= zlen mem -> blit i l (blit i k mem) = blit i l mem.
Proof.
  intros. pose proof (zlen_nonneg k). unfold blit at 1 3.
  rewrite ztake_blit_before, zdrop_blit_after by lia. done.
Qed.

Lemma lookup_blit i x (a : list A) : 0 <= i < zlen a -> blit i [x] a !! Z.to_nat i = Some x.
Proof.
  intros Hi. unfold blit. pose proof (zlen_length _ _ (zlen_ztake i a ltac:(lia))) as E.
  rewrite lookup_app_r by lia. by rewrite E, Nat.sub_diag.
Qed.

Lemma ztake_slice n m l : 0 <= n -> 0 <= m -> ztake n l ++ slice n m l = ztake (n + m) l.
Proof.
  intros. unfold slice, ztake, zdrop. rewrite Z2Nat.inj_add by lia. apply take_take_drop.
Qed.

Lemma slice_0 n l : slice 0 n l = ztake n l.
Proof. done. Qed.

Lemma slice_zero r l : slice r 0 l = [].
Proof. done. Qed.

Lemma slice_to_end r l : 0 <= r <= zlen l -> slice r (zlen l - r) l = zdrop r l.
Proof. intros. unfold slice. apply ztake_all. rewrite zlen_zdrop; lia. Qed.

Lemma slice_app_l r n l k : 0 <= r -> 0 <= n -> r + n <= zlen l -> slice r n (l ++ k) = slice r n l.
Proof.
  intros. unfold slice. rewrite zdrop_app_le by lia. apply ztake_app_le.
  rewrite zlen_zdrop; lia.
Qed.

Lemma slice_ztake r n m l : 0 <= r -> 0 <= n -> r + n <= m -> slice r n (ztake m l) = slice r n l.
Proof.
  intros. unfold slice. rewrite zdrop_ztake by lia. rewrite ztake_ztake by lia. f_equal. lia.
Qed.

Lemma slice_split r n m l :
  0 <= r -> 0 <= n -> 0 <= m -> r + n + m <= zlen l ->
  slice r (n + m) l = slice r n l ++ slice (r + n) m l.
Proof.
  intros. unfold slice. rewrite <- (zdrop_zdrop n r) by lia.
  rewrite <- (ztake_zdrop n (ztake (n + m) (zdrop r l))).
  rewrite ztake_ztake, zdrop_ztake by lia. repeat f_equal; lia.
Qed.

Lemma Forall_ztake (P : A -> Prop) n l : Forall P l -> Forall P (ztake n l).
Proof. apply Forall_take. Qed.

Lemma Forall_zdrop (P : A -> Prop) n l : Forall P l -> Forall P (zdrop n l).
Proof. apply Forall_drop. Qed.

Lemma Forall_zrepeat (P : A -> Prop) n x : P x -> Forall P (zrepeat n x).
Proof. intros. unfold zrepeat. by apply Forall_replicate. Qed.

Lemma Forall_blit (P : A -> Prop) i l k : Forall P l -> Forall P k -> Forall P (blit i l k).
Proof.
  intros. unfold blit. rewrite !Forall_app.
  auto using Forall_ztake, Forall_zdrop.
Qed.

Lemma Forall_slice (P : A -> Prop) i n l : Forall P l -> Forall P (slice i n l).
Proof. intros. unfold slice. auto using Forall_ztake, Forall_zdrop. Qed.
End ZLists.

Create Rewrite HintDb zlen.
#[export] Hint Rewrite @zlen_nil @zlen_cons @zlen_app : zlen.
Create HintDb zforall.
#[export] Hint Resolve Forall_ztake Forall_zdrop Forall_zrepeat Forall_blit Forall_slice
  Forall_nil_2 Forall_cons_2 : zforall.

(** ** Computations of the C code

    A function that works on a mutable object of type [S] returns normally
    ([Ret]), returns its failure code ([Fail]: a [FALSE], a negative status; the
    object keeps whatever the code wrote to it before the early return), or does not
    return at all ([Crash]: a [WINPR_ASSERT] that does not hold, an access outside
    its object or another undefined behaviour, or a loop that never ends). *)

Inductive fault := AssertFailed | Undefined | Diverges.

Inductive outcome (S A : Type) : Type :=
| Ret (a : A) (s : S)
| Fail (s : S)
| Crash (f : fault).
Arguments Ret {S A} a s.
Arguments Fail {S A} s.
Arguments Crash {S A} f.

Definition M (S A : Type) : Type := S -> outcome S A.

#[global] Instance M_ret S : MRet (M S) := fun A a s => Ret a s.
#[global] Instance M_bind S : MBind (M S) := fun A B k m s =>
  match m s with
  | Ret a s' => k a s'
  | Fail s' => Fail s'
  | Crash f => Crash f
  end.

Section Computations.
Context {S : Type}.

Definition get : M S S := fun s => Ret s s.
Definition modify (f : S -> S) : M S unit := fun s => Ret tt (f s).
Definition failure {A} : M S A := fun s => Fail s.
Definition crash {A} (f : fault) : M S A := fun _ => Crash f.

(** [WINPR_ASSERT (b)] *)
Definition assert (b : bool) : M S unit := if b then mret tt else crash AssertFailed.

(** [if (!b) return FALSE;] *)
Definition guard (b : bool) : M S unit := if b then mret tt else failure.

(** A call whose status the caller inspects, or drops. *)
Definition attempt {A} (m : M S A) : M S (option A) := fun s =>
  match m s with
  | Ret a s' => Ret (Some a) s'
  | Fail s' => Ret None s'
  | Crash f => Crash f
  end.

(** Weakest precondition of a computation: it does not crash, and each way of
    returning establishes its own postcondition. *)
Definition wp {A} (m : M S A) (Q : A -> S -> Prop) (F : S -> Prop) (s : S) : Prop :=
  match m s with
  | Ret a s' => Q a s'
  | Fail s' => F s'
  | Crash _ => False
  end.

Context {A B : Type}.
Implicit Types (m : M S A) (k : A -> M S B) (F : S -> Prop).

Lemma wp_bind m k Q F s :
  wp m (fun a s' => wp (k a) Q F s') F s -> wp (m ≫= k) Q F s.
Proof. unfold wp, mbind, M_bind. destruct (m s); auto. Qed.

Lemma wp_mono m (Q Q' : A -> S -> Prop) F (F' : S -> Prop) s :
  wp m Q F s -> (forall a s', Q a s' -> Q' a s') -> (forall s', F s' -> F' s') -> wp m Q' F' s.
Proof. unfold wp. destruct (m s); auto. Qed.

Lemma wp_ret (a : A) (Q : A -> S -> Prop) F s : Q a s -> wp (mret a) Q F s.
Proof. auto. Qed.

Lemma wp_failure (Q : A -> S -> Prop) F s : F s -> wp failure Q F s.
Proof. auto. Qed.

Lemma wp_guard (b : bool) (Q : unit -> S -> Prop) F s :
  (b = true -> Q tt s) -> (b = false -> F s) -> wp (guard b) Q F s.
Proof. intros. destruct b; [apply H|apply H0]; done. Qed.

Lemma wp_assert (b : bool) (Q : unit -> S -> Prop) F s :
  b = true -> Q tt s -> wp (assert b) Q F s.
Proof. intros ->. auto. Qed.

Lemma wp_attempt m (Q : option A -> S -> Prop) F s :
  wp m (fun a s' => Q (Some a) s') (fun s' => Q None s') s -> wp (attempt m) Q F s.
Proof. unfold wp, attempt. by destruct (m s). Qed.

Lemma wp_elim m (Q : A -> S -> Prop) F s :
  wp m Q F s -> (exists a s', m s = Ret a s' /\ Q a s') \/ (exists s', m s = Fail s' /\ F s').
Proof. unfold wp. destruct (m s); [left; eauto|right; eauto|done]. Qed.

Lemma bind_ret_eq m k s a s' : m s = Ret a s' -> (m ≫= k) s = k a s'.
Proof. unfold mbind, M_bind. intros ->. done. Qed.

Lemma bind_fail_eq m k s s' : m s = Fail s' -> (m ≫= k) s = Fail s'.
Proof. unfold mbind, M_bind. intros ->. done. Qed.

Lemma bind_crash_eq m k s f : m s = Crash f -> (m ≫= k) s = Crash f.
Proof. unfold mbind, M_bind. intros ->. done. Qed.

Lemma assert_bind (b : bool) (h : unit -> M S B) s :
  b = true -> (assert b ≫= h) s = h tt s.
Proof. intros ->. done. Qed.

Lemma get_bind (h : S -> M S B) s : (get ≫= h) s = h s s.
Proof. done. Qed.

Lemma ret_bind (a : A) k s : (mret a ≫= k) s = k a s.
Proof. done. Qed.

Lemma modify_bind (f : S -> S) (h : unit -> M S B) s : (modify f ≫= h) s = h tt (f s).
Proof. done. Qed.

Lemma guard_bind (b : bool) (h : unit -> M S B) s :
  b = true -> (guard b ≫= h) s = h tt s.
Proof. intros ->. done. Qed.

Lemma bind_ret_inv m k s b s' :
  (m ≫= k) s = Ret b s' -> exists a s1, m s = Ret a s1 /\ k a s1 = Ret b s'.
Proof. unfold mbind, M_bind. destruct (m s); [eauto|done|done]. Qed.
End Computations.

Lemma bind_assoc {S A B C} (m : M S A) (k : A -> M S B) (h : B -> M S C) s :
  ((m ≫= k) ≫= h) s = (m ≫= (fun a => k a ≫= h)) s.
Proof. unfold mbind, M_bind. by destruct (m s). Qed.

(** Two computations that go on alike, and two ways to go on alike. *)
Lemma bind_step {S A B} (m m' : M S A) (k : A -> M S B) s s' :
  m s = m' s' -> (m ≫= k) s = (m' ≫= k) s'.
Proof. unfold mbind, M_bind. by intros ->. Qed.

Lemma bind_cong {S A B} (m : M S A) (k k' : A -> M S B) s :
  (forall a s', k a s' = k' a s') -> (m ≫= k) s = (m ≫= k') s.
Proof. unfold mbind, M_bind. destruct (m s); auto. Qed.

Lemma failure_bind {S A B} (k : A -> M S B) s : (failure ≫= k) s = Fail s.
Proof. done. Qed.

(** One step of symbolic execution of a computation under [wp]. *)
Ltac wp_step :=
  lazymatch goal with
  | |- wp (mbind _ _) _ _ _ => apply wp_bind
  | |- wp (mret _) _ _ _ => apply wp_ret
  | |- wp failure _ _ _ => apply wp_failure
  | |- wp (guard _) _ _ _ => apply wp_guard; intros
  | |- wp (if _ then _ else _) _ _ _ => zcase
  end.

(** Discharges the assertions in front of a computation. *)
Ltac asserts_hold := repeat rewrite assert_bind by lia.

(** [WINPR_ASSERTING_INT_CAST (type, v)] for a type with reduction [w]. *)
Definition asserting_cast {S} (w : Z -> Z) (v : Z) : M S Z :=
  assert (v =? w v);;
  assert (((0 <? v) && (0 <? w v)) || ((v <=? 0) && (w v <=? 0)));;
  mret (w v).

Lemma wp_asserting_cast {S} w v (Q : Z -> S -> Prop) F s :
  w v = v -> Q v s -> wp (asserting_cast w v) Q F s.
Proof.
  intros Hw HQ. unfold asserting_cast, wp. rewrite Hw. by rewrite !assert_bind by lia.
Qed.

Lemma asserting_cast_eq {S} w v (s : S) : w v = v -> asserting_cast w v s = Ret v s.
Proof. intros Hw. unfold asserting_cast. rewrite Hw. by rewrite !assert_bind by lia. Qed.

(** ** The allocator *)

(** Which requests succeed. *)
Class Alloc := malloc_ok : Z -> bool.

(** Requests below the platform's object limit succeed. *)
Class AllocOk `{Alloc} := alloc_ok : forall n, 0 <= n < 2 ^ 62 -> malloc_ok n = true.

Definition alloc_always : Alloc := fun _ => true.
Definition alloc_never : Alloc := fun _ => false.

Lemma alloc_always_ok : @AllocOk alloc_always.
Proof. by intros n Hn. Qed.

(** The heap: which requests succeed, and what fresh memory contains. *)
Class Heap := {
  heap_ok : Z -> bool;
  heap_junk : Z -> list Z;
  heap_junk_len : forall n, 0 <= n -> zlen (heap_junk n) = n
}.

Section Blocks.
Context `{Heap}.

(** [realloc (b, n)] *)
Definition resize (n : Z) (b : list Z) : list Z :=
  if n <=? zlen b then ztake n b else b ++ zdrop (zlen b) (heap_junk n).

(** [memcpy (dst + off, bs)] into the block [dst]; outside of it the copy is undefined. *)
Definition copy_to {S} (off : Z) (bs dst : list Z) : M S (list Z) :=
  if (0 <=? off) && (off + zlen bs <=? zlen dst) then mret (blit off bs dst)
  else crash Undefined.

(** [n] bytes from [off] on of the block [src]. *)
Definition copy_from {S} (off n : Z) (src : list Z) : M S (list Z) :=
  if (0 <=? off) && (0 <=? n) && (off + n <=? zlen src) then mret (slice off n src)
  else crash Undefined.

Lemma resize_len t b : 0 <= t -> zlen (resize t b) = t.
Proof.
  intros. pose proof (zlen_nonneg b). unfold resize. zcase; [apply zlen_ztake; lia|].
  rewrite zlen_app, zlen_zdrop; rewrite heap_junk_len; lia.
Qed.

Lemma resize_slice i n t b :
  0 <= i -> 0 <= n -> i + n <= t -> i + n <= zlen b -> slice i n (resize t b) = slice i n b.
Proof.
  intros. unfold resize. zcase; [apply slice_ztake; lia|apply slice_app_l; lia].
Qed.

Lemma copy_to_ok {S} off bs dst (rb : S) :
  0 <= off -> off + zlen bs <= zlen dst -> copy_to off bs dst rb = Ret (blit off bs dst) rb.
Proof. intros. unfold copy_to. zcase; [done|lia]. Qed.

Lemma copy_from_ok {S} off n src (rb : S) :
  0 <= off -> 0 <= n -> off + n <= zlen src -> copy_from off n src rb = Ret (slice off n src) rb.
Proof. intros. unfold copy_from. zcase; [done|lia]. Qed.

End Blocks.

(** A heap that grants every request with zeroed blocks. *)
Program Definition heap_always : Heap :=
  {| heap_ok := fun _ => true; heap_junk := fun n => zrepeat n 0 |}.
Next Obligation. intros. by apply zlen_zrepeat. Qed.

(** ** Circular blocks *)

(** The [u] cells of the circular block [d] from index [r] on. *)
Definition window (r u : Z) (d : list Z) : list Z :=
  if r + u <=? zlen d then slice r u d
  else zdrop r d ++ ztake (r + u - zlen d) d.

(** an index of a block of [n] cells, after at most one turn *)
Definition turn (i n : Z) : Z := if i <? n then i else i - n.

Lemma zlen_window r u d :
  0 <= r < zlen d -> 0 <= u <= zlen d -> zlen (window r u d) = u.
Proof.
  intros. unfold window. zcase; [apply zlen_slice; lia|].
  rewrite zlen_app, zlen_zdrop, zlen_ztake; lia.
Qed.

Lemma window_linear r u d : r + u <= zlen d -> window r u d = slice r u d.
Proof. intros. unfold window. zcase; [done|lia]. Qed.

(** Appending a block at the write head, in one piece or around the end. *)
Lemma window_push r u d bs w t :
  0 <= r < zlen d -> 0 <= u -> u + zlen bs < zlen d ->
  w = turn (r + u) (zlen d) -> t = Z.min (zlen d - w) (zlen bs) ->
  window r (u + zlen bs) (blit 0 (zdrop t bs) (blit w (ztake t bs) d)) = window r u d ++ bs.
Proof.
  intros Hr Hu Hn Ew Et. pose proof (zlen_nonneg bs). unfold turn in Ew.
  assert (Hw : 0 <= w < zlen d) by (subst w; zcase; lia).
  assert (Ht : 0 <= t <= zlen bs) by lia.
  assert (Lt : zlen (ztake t bs) = t) by (apply zlen_ztake; lia).
  assert (Ld : zlen (zdrop t bs) = zlen bs - t) by (apply zlen_zdrop; lia).
  assert (L1 : zlen (blit w (ztake t bs) d) = zlen d) by (apply zlen_blit; lia).
  assert (L2 : zlen (blit 0 (zdrop t bs) (blit w (ztake t bs) d)) = zlen d)
    by (rewrite zlen_blit; lia).
  unfold window. rewrite L2. destruct (Z.ltb_spec (r + u) (zlen d)).
  - subst w. rewrite (proj2 (Z.leb_le (r + u) (zlen d))) by lia. zcase.
    + replace t with (zlen bs) in * by lia.
      rewrite (zdrop_all (zlen bs)), (ztake_all (zlen bs)), blit_nil by (rewrite ?zlen_blit; lia).
      apply slice_blit_extend; lia.
    + rewrite zdrop_blit_after by lia. rewrite zdrop_blit_before by lia.
      rewrite blit_end by (rewrite ?zlen_zdrop; lia).
      replace (r + (u + zlen bs) - zlen d) with (0 + zlen (zdrop t bs)) by lia.
      rewrite blit_ztake by lia. rewrite ztake_0. simpl.
      rewrite <- app_assoc, ztake_zdrop. unfold slice. repeat f_equal; lia.
  - subst w. replace t with (zlen bs) in * by lia.
    rewrite (zdrop_all (zlen bs)), (ztake_all (zlen bs)), blit_nil by (rewrite ?zlen_blit; lia).
    zcase.
    { rewrite (zlen_zero_inv bs) by lia. rewrite blit_nil, zlen_nil, Z.add_0_r, app_nil_r by lia.
      zcase; [done|lia]. }
    rewrite zdrop_blit_after by lia.
    replace (r + (u + zlen bs) - zlen d) with (r + u - zlen d + zlen bs) by lia.
    rewrite blit_ztake by lia. rewrite app_assoc. f_equal.
    zcase; [|done]. replace (r + u - zlen d) with 0 by lia. rewrite ztake_0, app_nil_r.
    replace u with (zlen d - r) by lia. by rewrite slice_to_end by lia.
Qed.

(** Dropping bytes at the read head. *)
Lemma window_pop r u d k :
  0 <= r < zlen d -> 0 <= k <= u -> u <= zlen d ->
  window (turn (r + k) (zlen d)) (u - k) d = zdrop k (window r u d).
Proof.
  intros. unfold window, turn. repeat zcase; try lia.
  - unfold slice. rewrite zdrop_ztake, zdrop_zdrop by lia. done.
  - rewrite zdrop_app_le by (rewrite zlen_zdrop; lia). rewrite zdrop_zdrop by lia.
    do 2 f_equal. lia.
  - replace (u - k) with 0 by lia.
    rewrite (zdrop_all k); [done|]. rewrite zlen_slice; lia.
  - rewrite zdrop_app_ge by (rewrite zlen_zdrop; lia). rewrite zlen_zdrop by lia.
    unfold slice. rewrite zdrop_ztake by lia. f_equal; [lia|f_equal; lia].
Qed.

(** The first bytes of a circular block, as the two pieces a reader sees. *)
Lemma window_front r u d k :
  0 <= r < zlen d -> 0 <= k <= u -> u <= zlen d -> window r k d = ztake k (window r u d).
Proof.
  intros. unfold window. repeat zcase; try lia.
  - unfold slice. rewrite ztake_ztake by lia. f_equal. lia.
  - rewrite ztake_app_le by (rewrite zlen_zdrop; lia). done.
  - rewrite ztake_app_ge by (rewrite zlen_zdrop; lia). rewrite zlen_zdrop by lia.
    rewrite ztake_ztake by lia. do 2 f_equal. lia.
Qed.

Lemma slice_blit_front src (d : list Z) :
  zlen src <= zlen d -> slice 0 (zlen src) (blit 0 src d) = src.
Proof. intros. rewrite slice_0. apply (blit_ztake 0); lia. Qed.

Lemma turn_mod i n : 0 <= i < 2 * n -> i mod n = turn i n.
Proof.
  intros. unfold turn. zcase; [apply Z.mod_small; lia|].
  symmetry. apply (Z.mod_unique _ _ 1); lia.
Qed.

Lemma turn_turn i k n : 0 <= i -> 0 <= k -> i + k < 2 * n -> k <= n ->
  turn (turn i n + k) n = turn (i + k) n.
Proof. intros. unfold turn. repeat zcase; lia. Qed.

(** ** Sequences of requests

    An object serves requests one after the other; its specification is a relation between
    the abstract states before and after a request and the reply. *)

Section Sessions.
Context {St Req Rep Abs : Type}.
Context (step : Req -> M St Rep) (spec : Abs -> Req -> Rep -> Abs -> Prop).

Fixpoint session (os : list Req) : M St (list Rep) :=
  match os with
  | [] => mret []
  | o :: os' => a ← step o; l ← session os'; mret (a :: l)
  end.

Inductive spec_session : Abs -> list Req -> list Rep -> Abs -> Prop :=
| spec_done l : spec_session l [] [] l
| spec_step l o a l' os r l'' :
    spec l o a l' -> spec_session l' os r l'' -> spec_session l (o :: os) (a :: r) l''.

(** Forward simulation: [ok n s] is the invariant of a state that can still serve [n]
    requests, [P] what the requests satisfy. *)
Lemma session_refines (P : Req -> Prop) (ok : nat -> St -> Prop) (abs : St -> Abs) :
  (forall n o s, P o -> ok (S n) s ->
     exists a s', step o s = Ret a s' /\ ok n s' /\ spec (abs s) o a (abs s')) ->
  forall os s, Forall P os -> ok (length os) s ->
    exists l s', session os s = Ret l s' /\ ok O s' /\ spec_session (abs s) os l (abs s').
Proof.
  intros Hstep os s Hos. revert s. induction Hos as [|o os Ho Hos IH]; intros s Hs; simpl in *.
  { exists [], s. split_and!; try done. constructor. }
  destruct (Hstep _ o s Ho Hs) as (a & s1 & E1 & H1 & Hf1).
  destruct (IH s1 H1) as (l & s2 & E2 & H2 & Hf2).
  exists (a :: l), s2. rewrite (bind_ret_eq _ _ _ _ _ E1), (bind_ret_eq _ _ _ _ _ E2).
  split_and!; try done. by econstructor.
Qed.
End Sessions.
