(* ===== verification/Stream.v ===== *)
(** * The byte stream (wStream) of WinPR

    Model of [winpr/include/winpr/stream.h], [winpr/libwinpr/utils/stream.c] and the
    byte-order helpers of [winpr/include/winpr/endian.h].  Every parser and serialiser
    of the protocol stack is written on top of this object, so the file also sets up
    the two views the other components reason with: [rest], the bytes a reader still
    has in front of it, and [written], the bytes a writer has produced. *)

From S2P Require Import Prelude.

(** ** Data *)

(** The stream object.  [buffer] is the storage with one cell per byte of [capacity]
    (the pointer arithmetic of the C code becomes an offset, [pointer]); the [pool]
    field, which only the stream pool reads, is left out. *)
Record wStream := mkStream {
  buffer : list Z;
  pointer : Z;
  len : Z;
  capacity : Z;
  count : Z;
  isAllocatedStream : bool;
  isOwner : bool
}.

Definition set_pointer (p : Z) (s : wStream) : wStream :=
  mkStream (buffer s) p (len s) (capacity s) (count s) (isAllocatedStream s) (isOwner s).

Definition set_len (l : Z) (s : wStream) : wStream :=
  mkStream (buffer s) (pointer s) l (capacity s) (count s) (isAllocatedStream s) (isOwner s).

Definition set_owner (o : bool) (s : wStream) : wStream :=
  mkStream (buffer s) (pointer s) (len s) (capacity s) (count s) (isAllocatedStream s) o.

Definition set_storage (b : list Z) (c : Z) (s : wStream) : wStream :=
  mkStream b (pointer s) c c (count s) (isAllocatedStream s) (isOwner s).

Definition store_at (p : Z) (bs : list Z) (s : wStream) : wStream :=
  mkStream (blit p bs (buffer s)) (pointer s) (len s) (capacity s) (count s)
    (isAllocatedStream s) (isOwner s).

(** ** Byte order *)

Definition winpr_Data_Get_UINT8 (d : list Z) : Z := nth 0 d 0.

Definition winpr_Data_Get_UINT16 (d : list Z) : Z :=
  fold_left (fun v b => Z.lor (u16 (Z.shiftl v 8)) b) (reverse d) 0.

Definition winpr_Data_Get_UINT16_BE (d : list Z) : Z :=
  fold_left (fun v b => Z.lor (u16 (Z.shiftl v 8)) b) d 0.

Definition winpr_Data_Get_UINT32 (d : list Z) : Z :=
  fold_left (fun v b => Z.lor (u32 (Z.shiftl v 8)) b) (reverse d) 0.

Definition winpr_Data_Get_UINT32_BE (d : list Z) : Z :=
  fold_left (fun v b => Z.lor (u32 (Z.shiftl v 8)) b) d 0.

Definition winpr_Data_Get_UINT64 (d : list Z) : Z :=
  fold_left (fun v b => Z.lor (usize (Z.shiftl v 8)) b) (reverse d) 0.

Definition winpr_Data_Get_UINT64_BE (d : list Z) : Z :=
  fold_left (fun v b => Z.lor (usize (Z.shiftl v 8)) b) d 0.

(** A cast to a signed type of the same width. *)
Definition to_signed (w : Z) (v : Z) : Z := if v <? 2 ^ (w - 1) then v else v - 2 ^ w.

Definition winpr_Data_Get_INT8 (d : list Z) : Z := to_signed 8 (nth 0 d 0).
Definition winpr_Data_Get_INT16 (d : list Z) : Z := to_signed 16 (winpr_Data_Get_UINT16 d).
Definition winpr_Data_Get_INT16_BE (d : list Z) : Z :=
  to_signed 16 (winpr_Data_Get_UINT16_BE d).
Definition winpr_Data_Get_INT32 (d : list Z) : Z := to_signed 32 (winpr_Data_Get_UINT32 d).

Definition winpr_Data_Write_UINT8 (v : Z) : list Z := [u8 v].

Definition winpr_Data_Write_UINT16 (v : Z) : list Z :=
  [Z.land v 0xFF; Z.land (Z.shiftr v 8) 0xFF].

Definition winpr_Data_Write_UINT16_BE (v : Z) : list Z :=
  [Z.land (Z.shiftr v 8) 0xFF; Z.land v 0xFF].

Definition winpr_Data_Write_UINT32 (v : Z) : list Z :=
  winpr_Data_Write_UINT16 (Z.land v 0xFFFF) ++
  winpr_Data_Write_UINT16 (Z.land (Z.shiftr v 16) 0xFFFF).

Definition winpr_Data_Write_UINT32_BE (v : Z) : list Z :=
  winpr_Data_Write_UINT16_BE (Z.land (Z.shiftr v 16) 0xFFFF) ++
  winpr_Data_Write_UINT16_BE (Z.land v 0xFFFF).

Definition winpr_Data_Write_UINT64 (v : Z) : list Z :=
  winpr_Data_Write_UINT32 (Z.land v 0xFFFFFFFF) ++
  winpr_Data_Write_UINT32 (Z.land (Z.shiftr v 32) 0xFFFFFFFF).

Definition winpr_Data_Write_UINT64_BE (v : Z) : list Z :=
  winpr_Data_Write_UINT32_BE (Z.land (Z.shiftr v 32) 0xFFFFFFFF) ++
  winpr_Data_Write_UINT32_BE (Z.land v 0xFFFFFFFF).

Definition winpr_Data_Write_INT16 (v : Z) : list Z :=
  [Z.land v 0xFF; Z.land (Z.shiftr v 8) 0xFF].

(** ** Queries *)

Definition Stream_Capacity : M wStream Z := s ← get; mret (capacity s).

Definition Stream_Length : M wStream Z := s ← get; mret (len s).

Definition Stream_GetPosition : M wStream Z :=
  s ← get; assert (0 <=? pointer s);; mret (pointer s).

Definition Stream_GetRemainingCapacity : M wStream Z :=
  s ← get;
  assert (0 <=? pointer s);;
  let cur := pointer s in
  assert (cur <=? capacity s);;
  if capacity s <? cur then mret 0 else mret (capacity s - cur).

Definition Stream_GetRemainingLength : M wStream Z :=
  s ← get;
  assert (0 <=? pointer s);;
  assert (len s <=? capacity s);;
  let cur := pointer s in
  assert (cur <=? len s);;
  if len s <? cur then mret 0 else mret (len s - cur).

(** [if (!Stream_CheckAndLogRequiredLengthOfSize (s, nmemb, size)) return FALSE;] *)
Definition Stream_CheckAndLogRequiredLengthEx (nmemb size : Z) : M wStream unit :=
  assert (0 <? size);;
  r ← Stream_GetRemainingLength;
  let actual := r / size in
  guard (negb (actual <? nmemb)).

Definition Stream_CheckAndLogRequiredLength (n : Z) : M wStream unit :=
  Stream_CheckAndLogRequiredLengthEx n 1.

Definition Stream_CheckAndLogRequiredCapacityEx (nmemb size : Z) : M wStream unit :=
  assert (negb (size =? 0));;
  r ← Stream_GetRemainingCapacity;
  let actual := r / size in
  guard (negb (actual <? nmemb)).

Definition Stream_CheckAndLogRequiredCapacity (n : Z) : M wStream unit :=
  Stream_CheckAndLogRequiredCapacityEx n 1.

(** ** Moving and reading *)

Definition Stream_Seek (offset : Z) : M wStream unit :=
  r ← Stream_GetRemainingCapacity;
  assert (offset <=? r);;
  modify (fun s => set_pointer (pointer s + offset) s).

Definition Stream_Rewind (offset : Z) : M wStream unit :=
  s ← get;
  assert (0 <=? pointer s);;
  let cur := pointer s in
  assert (offset <=? cur);;
  if offset <=? cur then modify (set_pointer (pointer s - offset)) else modify (set_pointer 0).

(** A load of [n] bytes through the stream pointer. *)
Definition load (n : Z) : M wStream (list Z) := fun s =>
  if (0 <=? pointer s) && (pointer s + n <=? zlen (buffer s))
  then Ret (slice (pointer s) n (buffer s)) s
  else Crash Undefined.

(** The shape shared by the [stream_read_*] functions. *)
Definition stream_read (typesize : Z) (conv : list Z -> Z) (seek : bool) : M wStream Z :=
  r ← Stream_GetRemainingLength;
  assert (typesize <=? r);;
  d ← load typesize;
  (if seek then Stream_Seek typesize else mret tt);;
  mret (conv d).

Definition stream_read_u8 := stream_read 1 winpr_Data_Get_UINT8.
Definition stream_read_u16_le := stream_read 2 winpr_Data_Get_UINT16.
Definition stream_read_u16_be := stream_read 2 winpr_Data_Get_UINT16_BE.
Definition stream_read_i16_le := stream_read 2 winpr_Data_Get_INT16.
Definition stream_read_i16_be := stream_read 2 winpr_Data_Get_INT16_BE.
Definition stream_read_u32_le := stream_read 4 winpr_Data_Get_UINT32.
Definition stream_read_u32_be := stream_read 4 winpr_Data_Get_UINT32_BE.
Definition stream_read_i32_le := stream_read 4 winpr_Data_Get_INT32.
Definition stream_read_u64_le := stream_read 8 winpr_Data_Get_UINT64.
Definition stream_read_u64_be := stream_read 8 winpr_Data_Get_UINT64_BE.

(** Unlike its siblings, the signed 8-bit reader checks nothing before the load. *)
Definition stream_read_i8 (seek : bool) : M wStream Z :=
  d ← load 1;
  (if seek then Stream_Seek 1 else mret tt);;
  mret (winpr_Data_Get_INT8 d).

Definition Stream_Read_UINT8 : M wStream Z := stream_read_u8 true.
Definition Stream_Read_INT8 : M wStream Z := stream_read_i8 true.
Definition Stream_Read_UINT16 : M wStream Z := stream_read_u16_le true.
Definition Stream_Read_INT16 : M wStream Z := stream_read_i16_le true.
Definition Stream_Read_UINT16_BE : M wStream Z := stream_read_u16_be true.
Definition Stream_Read_UINT32 : M wStream Z := stream_read_u32_le true.
Definition Stream_Read_UINT32_BE : M wStream Z := stream_read_u32_be true.
Definition Stream_Peek_UINT8 : M wStream Z := stream_read_u8 false.
Definition Stream_Peek_UINT16 : M wStream Z := stream_read_u16_le false.

(** [Stream_Read (s, b, n)] checks the remaining capacity, not the remaining length. *)
Definition Stream_Read (n : Z) : M wStream (list Z) :=
  r ← Stream_GetRemainingCapacity;
  assert (n <=? r);;
  d ← load n;
  Stream_Seek n;;
  mret d.

Definition Stream_Peek (n : Z) : M wStream (list Z) :=
  r ← Stream_GetRemainingCapacity;
  assert (n <=? r);;
  load n.

Definition Stream_SafeSeek (size : Z) : M wStream unit :=
  Stream_CheckAndLogRequiredLengthEx size 1;;
  Stream_Seek size.

Fixpoint read_u16_loop (n : nat) : M wStream (list Z) :=
  match n with
  | O => mret []
  | S n' => c ← Stream_Read_UINT16; r ← read_u16_loop n'; mret (c :: r)
  end.

Definition Stream_Read_UTF16_String (length : Z) : M wStream (list Z) :=
  Stream_CheckAndLogRequiredLengthEx length 2;;
  read_u16_loop (Z.to_nat length).

(** ** Writing *)

(** A store of [bs] through the stream pointer. *)
Definition store (bs : list Z) : M wStream unit := fun s =>
  if (0 <=? pointer s) && (pointer s + zlen bs <=? zlen (buffer s))
  then Ret tt (store_at (pointer s) bs s)
  else Crash Undefined.

(** The shape shared by the [Stream_Write_*_unchecked] functions. *)
Definition Stream_Write_unchecked (bs : list Z) : M wStream unit :=
  r ← Stream_GetRemainingCapacity;
  assert (zlen bs <=? r);;
  store bs;;
  modify (fun s => set_pointer (pointer s + zlen bs) s).

Definition Stream_Write_UINT8 (v : Z) : M wStream unit :=
  assert (v <=? 255);; assert (0 <=? v);;
  Stream_Write_unchecked (winpr_Data_Write_UINT8 v).

Definition Stream_Write_UINT16 (v : Z) : M wStream unit :=
  assert (v <=? 65535);; assert (0 <=? v);;
  Stream_Write_unchecked (winpr_Data_Write_UINT16 v).

Definition Stream_Write_INT16 (v : Z) : M wStream unit :=
  assert (-32768 <=? v);; assert (v <=? 32767);;
  Stream_Write_unchecked (winpr_Data_Write_INT16 v).

Definition Stream_Write_UINT16_BE (v : Z) : M wStream unit :=
  assert (v <=? 65535);; assert (0 <=? v);;
  Stream_Write_unchecked (winpr_Data_Write_UINT16_BE v).

Definition Stream_Write_UINT24_BE (v : Z) : M wStream unit :=
  assert (v <=? 0xFFFFFF);; assert (0 <=? v);;
  Stream_Write_unchecked
    [Z.land (Z.shiftr v 16) 0xFF; Z.land (Z.shiftr v 8) 0xFF; Z.land v 0xFF].

Definition Stream_Write_UINT32 (v : Z) : M wStream unit :=
  assert (v <=? 4294967295);; assert (0 <=? v);;
  Stream_Write_unchecked (winpr_Data_Write_UINT32 v).

Definition Stream_Write_UINT32_BE (v : Z) : M wStream unit :=
  assert (v <=? 4294967295);; assert (0 <=? v);;
  Stream_Write_unchecked (winpr_Data_Write_UINT32_BE v).

Definition Stream_Write_UINT64 (v : Z) : M wStream unit :=
  Stream_Write_unchecked (winpr_Data_Write_UINT64 v).

Definition Stream_Write_UINT64_BE (v : Z) : M wStream unit :=
  Stream_Write_unchecked (winpr_Data_Write_UINT64_BE v).

Definition Stream_Write (b : list Z) : M wStream unit :=
  if 0 <? zlen b then
    r ← Stream_GetRemainingCapacity;
    assert (zlen b <=? r);;
    store b;;
    Stream_Seek (zlen b)
  else mret tt.

Definition Stream_Fill (v n : Z) : M wStream unit :=
  r ← Stream_GetRemainingCapacity;
  assert (n <=? r);;
  store (zrepeat n (u8 v));;
  Stream_Seek n.

Definition Stream_Zero (n : Z) : M wStream unit := Stream_Fill 0 n.

Fixpoint write_u16_loop (cs : list Z) : M wStream unit :=
  match cs with
  | [] => mret tt
  | c :: r => Stream_Write_UINT16 c;; write_u16_loop r
  end.

Definition Stream_Write_UTF16_String (src : list Z) : M wStream unit :=
  Stream_CheckAndLogRequiredCapacityEx (zlen src) 2;;
  write_u16_loop src.

(** ** Length, position, validity *)

Definition Stream_SetLength (l : Z) : M wStream unit :=
  c ← Stream_Capacity;
  if c <? l then modify (set_len 0);; failure else modify (set_len l).

Definition Stream_SetPosition (p : Z) : M wStream unit :=
  c ← Stream_Capacity;
  if c <? p then modify (set_pointer 0);; failure else modify (set_pointer p).

(** [Stream_SetPosition] where its result is not looked at. *)
Definition go_to (p : Z) : M wStream unit := attempt (Stream_SetPosition p);; mret tt.

Definition Stream_SealLength : M wStream unit :=
  s ← get;
  assert (0 <=? pointer s);;
  let cur := pointer s in
  assert (cur <=? capacity s);;
  if cur <=? capacity s then modify (set_len cur) else modify (set_len 0).

Definition Stream_EnsureValidity : M wStream unit :=
  s ← get;
  assert (0 <=? pointer s);;
  let cur := pointer s in
  assert (cur <=? capacity s);;
  assert (len s <=? capacity s).

(** ** Construction and growth *)

Definition Stream_StaticInit (b : list Z) : wStream :=
  mkStream b 0 (zlen b) (zlen b) 1 false false.

(** [Stream_New (buffer, size)]: with a buffer the stream takes it over; without one
    it allocates [size] bytes, whose contents ([junk]) are indeterminate. *)
Definition Stream_New `{Alloc} (b : option (list Z)) (junk : list Z) (size : Z) :
    option wStream :=
  match b with
  | None =>
      if size =? 0 then None
      else if malloc_ok size then Some (mkStream junk 0 size size 1 true true) else None
  | Some buf => Some (mkStream buf 0 size size 1 true true)
  end.

(** [do new_capacity *= 2; while (new_capacity < size);] with the wrap-around of
    [size_t].  [None]: still looping when the fuel is spent. *)
Fixpoint grow_capacity (fuel : nat) (new_capacity size : Z) : option Z :=
  match fuel with
  | O => None
  | S f =>
      let c := usize (new_capacity * 2) in
      if c <? size then grow_capacity f c size else Some c
  end.

(** 65 doublings: after 64 of them a [size_t] is zero and stays zero. *)
Definition grow_fuel : nat := 65.

Definition Stream_EnsureCapacity `{Alloc} (size : Z) : M wStream unit :=
  s ← get;
  if capacity s <? size then
    let old_capacity := capacity s in
    match grow_capacity grow_fuel old_capacity size with
    | None => crash Diverges
    | Some new_capacity =>
        position ← Stream_GetPosition;
        (if negb (isOwner s) then
           (* CopyMemory to the fresh block precedes the NULL test *)
           (if malloc_ok new_capacity then mret tt else crash Undefined);;
           modify (set_owner true)
         else guard (malloc_ok new_capacity));;
        modify (set_storage
          (ztake old_capacity (buffer s) ++ zrepeat (new_capacity - old_capacity) 0)
          new_capacity);;
        attempt (Stream_SetPosition position);;
        mret tt
    end
  else mret tt.

Definition Stream_EnsureRemainingCapacity `{Alloc} (size : Z) : M wStream unit :=
  p ← Stream_GetPosition;
  c ← Stream_Capacity;
  if c <? usize (p + size) then Stream_EnsureCapacity (usize (c + size)) else mret tt.

(** ** Invariants and views *)

(** The invariant of the object: the storage has [capacity] byte cells, the pointer and
    the length lie inside it, and the storage is an object the platform can have. *)
Record wf (s : wStream) : Prop := mk_wf {
  wf_storage : zlen (buffer s) = capacity s;
  wf_pointer : 0 <= pointer s <= capacity s;
  wf_len : 0 <= len s <= capacity s;
  wf_limit : capacity s < 2 ^ 62;
  wf_bytes : bytes (buffer s)
}.

(** A stream a parser may be given: well formed, the pointer not past the data. *)
Definition readable (s : wStream) : Prop := wf s /\ pointer s <= len s.

(** the data in front of the pointer *)
Definition rest (s : wStream) : list Z := slice (pointer s) (len s - pointer s) (buffer s).

(** how much of it there is *)
Definition rem (s : wStream) : Z := len s - pointer s.

(** the data behind the pointer *)
Definition written (s : wStream) : list Z := ztake (pointer s) (buffer s).

Definition advance (n : Z) (s : wStream) : wStream := set_pointer (pointer s + n) s.

(** The stream as a reader of what was written since offset [p] gets it:
    [Stream_SealLength (s); Stream_SetPosition (s, p);] *)
Definition replay (p : Z) : M wStream unit := Stream_SealLength;; Stream_SetPosition p.

(** [s'] is [s] after [bs] were written; the storage may have grown. *)
Definition appended (s : wStream) (bs : list Z) (s' : wStream) : Prop :=
  wf s' /\ written s' = written s ++ bs /\ pointer s' = pointer s + zlen bs.

(** What every reader guarantees: on any data it does not crash, it only moves the
    pointer forward inside the data, and a value it returns satisfies [P]. *)
Definition moved (s s' : wStream) : Prop :=
  exists k, 0 <= k <= rem s /\ s' = advance k s.

Definition safe_reader {A} (P : A -> Prop) (m : M wStream A) : Prop :=
  forall s, readable s -> wp m (fun a s' => P a /\ moved s s') (moved s) s.

(** ** Reader lemmas *)

Lemma advance_advance a b s : advance a (advance b s) = advance (b + a) s.
Proof. unfold advance, set_pointer. simpl. f_equal. lia. Qed.

Lemma advance_0 s : advance 0 s = s.
Proof. unfold advance, set_pointer. rewrite Z.add_0_r. by destruct s. Qed.

Lemma rem_advance n s : rem (advance n s) = rem s - n.
Proof. unfold rem, advance. simpl. lia. Qed.

Lemma pointer_advance n s : pointer (advance n s) = pointer s + n.
Proof. done. Qed.

Lemma readable_advance n s : readable s -> 0 <= n <= rem s -> readable (advance n s).
Proof.
  intros [[] Hr] Hn. unfold rem in Hn. split; simpl; [|lia].
  split; simpl; auto; lia.
Qed.

Lemma rem_nonneg s : readable s -> 0 <= rem s.
Proof. intros [_ H]. unfold rem. lia. Qed.

Lemma zlen_rest s : readable s -> zlen (rest s) = rem s.
Proof.
  intros [[] Hr]. unfold rest, rem. apply zlen_slice; lia.
Qed.

Lemma bytes_rest s : readable s -> bytes (rest s).
Proof. intros [[] _]. unfold rest. eauto with zforall. Qed.

Lemma rest_advance n s : readable s -> 0 <= n <= rem s -> rest (advance n s) = zdrop n (rest s).
Proof.
  intros [[] Hr] Hn. unfold rem in Hn. unfold rest, slice, advance. simpl.
  rewrite zdrop_ztake by lia. rewrite zdrop_zdrop by lia. f_equal. lia.
Qed.

Lemma moved_refl s : readable s -> moved s s.
Proof. intros. exists 0. rewrite advance_0. split; [|done]. pose proof (rem_nonneg s H). lia. Qed.

Lemma moved_advance k s : 0 <= k <= rem s -> moved s (advance k s).
Proof. intros. by exists k. Qed.

Lemma moved_trans s1 s2 s3 : moved s1 s2 -> moved s2 s3 -> moved s1 s3.
Proof.
  intros (a & Ha & ->) (b & Hb & ->). rewrite rem_advance in Hb.
  exists (a + b). rewrite advance_advance. split; [lia|done].
Qed.

Lemma moved_readable s s' : readable s -> moved s s' -> readable s'.
Proof. intros ? (k & ? & ->). by apply readable_advance. Qed.

Create HintDb stream.
#[export] Hint Resolve moved_refl moved_advance readable_advance : stream.

Lemma remaining_length_eq s : readable s -> Stream_GetRemainingLength s = Ret (rem s) s.
Proof.
  intros [[] Hr]. unfold Stream_GetRemainingLength, mbind, M_bind, get, assert, mret, M_ret.
  rewrite (proj2 (Z.leb_le _ _)) by lia. rewrite (proj2 (Z.leb_le _ _)) by lia.
  rewrite (proj2 (Z.leb_le _ _)) by lia. rewrite (proj2 (Z.ltb_ge _ _)) by lia. done.
Qed.

Lemma remaining_capacity_eq s :
  wf s -> Stream_GetRemainingCapacity s = Ret (capacity s - pointer s) s.
Proof.
  intros []. unfold Stream_GetRemainingCapacity, mbind, M_bind, get, assert, mret, M_ret.
  rewrite (proj2 (Z.leb_le _ _)) by lia. rewrite (proj2 (Z.leb_le _ _)) by lia.
  rewrite (proj2 (Z.ltb_ge _ _)) by lia. done.
Qed.

Lemma check_length_eq n s :
  readable s ->
  Stream_CheckAndLogRequiredLength n s = if rem s <? n then Fail s else Ret tt s.
Proof.
  intros H. unfold Stream_CheckAndLogRequiredLength, Stream_CheckAndLogRequiredLengthEx.
  rewrite (bind_ret_eq _ _ s tt s) by done.
  rewrite (bind_ret_eq _ _ s _ _ (remaining_length_eq s H)).
  rewrite Z.div_1_r. unfold guard. by zcase.
Qed.

Lemma check_length_bind {A} n (k : unit -> M wStream A) s :
  readable s ->
  (Stream_CheckAndLogRequiredLength n ≫= k) s = if rem s <? n then Fail s else k tt s.
Proof.
  intros. unfold mbind, M_bind. rewrite check_length_eq by done. by destruct (rem s <? n).
Qed.

Lemma check_length_ok n s :
  readable s -> n <= rem s -> Stream_CheckAndLogRequiredLength n s = Ret tt s.
Proof. intros. rewrite check_length_eq by done. by rewrite (proj2 (Z.ltb_ge _ _)) by lia. Qed.

Lemma wp_check_length n Q F s :
  readable s -> (n <= rem s -> Q tt s) -> (rem s < n -> F s) ->
  wp (Stream_CheckAndLogRequiredLength n) Q F s.
Proof. intros. unfold wp. rewrite check_length_eq by done. zcase; auto. Qed.

Lemma seek_eq n s :
  wf s -> n <= capacity s - pointer s -> Stream_Seek n s = Ret tt (advance n s).
Proof.
  intros H Hn. unfold Stream_Seek.
  rewrite (bind_ret_eq _ _ s _ _ (remaining_capacity_eq s H)).
  unfold assert. rewrite (proj2 (Z.leb_le _ _)) by lia. done.
Qed.

Lemma seek_readable n s : readable s -> n <= rem s -> Stream_Seek n s = Ret tt (advance n s).
Proof. intros [[] ?] Hn. unfold rem in Hn. apply seek_eq; [done|lia]. Qed.

Lemma load_eq n s :
  readable s -> 0 <= n <= rem s -> load n s = Ret (ztake n (rest s)) s.
Proof.
  intros [[] Hr] Hn. unfold rem in Hn. unfold load.
  rewrite (proj2 (Z.leb_le _ _)) by lia. rewrite (proj2 (Z.leb_le _ _)) by lia. simpl.
  unfold rest, slice. rewrite ztake_ztake by lia. do 2 f_equal. lia.
Qed.

Lemma stream_read_eq n conv seek s :
  readable s -> 0 <= n <= rem s ->
  stream_read n conv seek s =
  Ret (conv (ztake n (rest s))) (if seek then advance n s else s).
Proof.
  intros H Hn. unfold stream_read.
  rewrite (bind_ret_eq _ _ s _ _ (remaining_length_eq s H)).
  unfold assert. rewrite (proj2 (Z.leb_le _ _)) by lia.
  rewrite (bind_ret_eq _ _ s tt s) by done.
  rewrite (bind_ret_eq _ _ s _ _ (load_eq n s H Hn)).
  destruct seek; [|done].
  by rewrite (bind_ret_eq _ _ s _ _ (seek_readable n s H (proj2 Hn))).
Qed.

(** Reading one element through its byte-level decoder. *)
Lemma read_u8_rest b r s :
  readable s -> rest s = b :: r -> Stream_Read_UINT8 s = Ret b (advance 1 s).
Proof.
  intros H Hr. pose proof (zlen_rest s H) as Hl. rewrite Hr, zlen_cons in Hl.
  pose proof (zlen_nonneg r).
  unfold Stream_Read_UINT8, stream_read_u8. rewrite stream_read_eq by (auto; lia).
  by rewrite Hr.
Qed.

Lemma wp_stream_read n conv (seek : bool) (P : Z -> Prop) Q F s :
  readable s -> 0 <= n <= rem s ->
  (forall d, bytes d -> zlen d = n -> P (conv d)) ->
  (forall v, P v -> Q v (if seek then advance n s else s)) ->
  wp (stream_read n conv seek) Q F s.
Proof.
  intros H Hn HP HQ. unfold wp. rewrite stream_read_eq by done. apply HQ, HP.
  - pose proof (bytes_rest s H). eauto with zforall.
  - apply zlen_ztake. rewrite zlen_rest by done. lia.
Qed.

(** ** Byte order lemmas *)

Lemma fold_be_value W l acc :
  bytes l -> 0 <= acc -> (acc + 1) * 256 ^ zlen l <= W ->
  fold_left (fun v b => Z.lor (Z.shiftl v 8 mod W) b) l acc =
  fold_left (fun v b => v * 256 + b) l acc.
Proof.
  revert acc. induction l as [|b l IH]; intros acc Hl Hacc HW; [done|].
  apply Forall_cons_1 in Hl as [Hb Hl]. unfold is_byte in Hb.
  rewrite zlen_cons, Z.pow_add_r in HW by (pose proof (zlen_nonneg l); lia).
  assert (0 < 256 ^ zlen l) by (apply Z.pow_pos_nonneg; [lia|apply zlen_nonneg]).
  simpl. replace (Z.lor (Z.shiftl acc 8 mod W) b) with (acc * 256 + b).
  - apply IH; [done|lia|nia].
  - rewrite Z.shiftl_mul_pow2, Z.mod_small by nia.
    symmetry. apply (lor_shift_add acc b 8); lia.
Qed.

Ltac endian_value :=
  match goal with
  | |- context [fold_left _ ?l _] =>
      rewrite (fold_be_value _ l 0);
      [simpl; lia | repeat (constructor; [assumption|]); constructor | lia | vm_compute; congruence]
  end.

Lemma Get_UINT16_BE_eq a b :
  is_byte a -> is_byte b -> winpr_Data_Get_UINT16_BE [a; b] = a * 256 + b.
Proof. intros. unfold winpr_Data_Get_UINT16_BE, u16. endian_value. Qed.

Lemma Get_UINT16_eq a b :
  is_byte a -> is_byte b -> winpr_Data_Get_UINT16 [a; b] = b * 256 + a.
Proof.
  intros. unfold winpr_Data_Get_UINT16, u16.
  change (reverse [a; b]) with [b; a]. endian_value.
Qed.

Lemma Get_UINT32_BE_eq a b c d :
  is_byte a -> is_byte b -> is_byte c -> is_byte d ->
  winpr_Data_Get_UINT32_BE [a; b; c; d] = a * 16777216 + b * 65536 + c * 256 + d.
Proof. intros. unfold winpr_Data_Get_UINT32_BE, u32. endian_value. Qed.

Lemma Get_UINT32_eq a b c d :
  is_byte a -> is_byte b -> is_byte c -> is_byte d ->
  winpr_Data_Get_UINT32 [a; b; c; d] = d * 16777216 + c * 65536 + b * 256 + a.
Proof.
  intros. unfold winpr_Data_Get_UINT32, u32.
  change (reverse [a; b; c; d]) with [d; c; b; a]. endian_value.
Qed.

Lemma Get_UINT64_eq a b c d e f g h :
  is_byte a -> is_byte b -> is_byte c -> is_byte d ->
  is_byte e -> is_byte f -> is_byte g -> is_byte h ->
  winpr_Data_Get_UINT64 [a; b; c; d; e; f; g; h] =
  (h * 16777216 + g * 65536 + f * 256 + e) * 4294967296 +
  (d * 16777216 + c * 65536 + b * 256 + a).
Proof.
  intros. unfold winpr_Data_Get_UINT64, usize.
  change (reverse [a; b; c; d; e; f; g; h]) with [h; g; f; e; d; c; b; a]. endian_value.
Qed.

Lemma Write_UINT16_BE_eq v : winpr_Data_Write_UINT16_BE v = [(v / 256) mod 256; v mod 256].
Proof. unfold winpr_Data_Write_UINT16_BE. by rewrite !land_FF, shiftr_div by lia. Qed.

Lemma Write_UINT16_eq v : winpr_Data_Write_UINT16 v = [v mod 256; (v / 256) mod 256].
Proof. unfold winpr_Data_Write_UINT16. by rewrite !land_FF, shiftr_div by lia. Qed.

Lemma Write_UINT32_BE_eq v :
  winpr_Data_Write_UINT32_BE v =
  [(v / 16777216) mod 256; (v / 65536) mod 256; (v / 256) mod 256; v mod 256].
Proof.
  unfold winpr_Data_Write_UINT32_BE. rewrite !Write_UINT16_BE_eq, !land_FFFF, shiftr_div by lia.
  simpl. list_eq; word_lia.
Qed.

Lemma Write_UINT32_eq v :
  winpr_Data_Write_UINT32 v =
  [v mod 256; (v / 256) mod 256; (v / 65536) mod 256; (v / 16777216) mod 256].
Proof.
  unfold winpr_Data_Write_UINT32. rewrite !Write_UINT16_eq, !land_FFFF, shiftr_div by lia.
  simpl. list_eq; word_lia.
Qed.

Lemma zlen_Write_UINT16_BE v : zlen (winpr_Data_Write_UINT16_BE v) = 2.
Proof. done. Qed.
Lemma zlen_Write_UINT16 v : zlen (winpr_Data_Write_UINT16 v) = 2.
Proof. done. Qed.
Lemma zlen_Write_UINT32_BE v : zlen (winpr_Data_Write_UINT32_BE v) = 4.
Proof. done. Qed.
Lemma zlen_Write_UINT32 v : zlen (winpr_Data_Write_UINT32 v) = 4.
Proof. done. Qed.
#[export] Hint Rewrite zlen_Write_UINT16_BE zlen_Write_UINT16 zlen_Write_UINT32_BE
  zlen_Write_UINT32 : zlen.

Lemma is_byte_mod x : is_byte (x mod 256).
Proof. unfold is_byte. apply Z.mod_pos_bound. lia. Qed.
#[export] Hint Resolve is_byte_mod : stream zforall.

Lemma Get_Write_UINT16_BE v :
  is_u16 v -> winpr_Data_Get_UINT16_BE (winpr_Data_Write_UINT16_BE v) = v.
Proof.
  intros. rewrite Write_UINT16_BE_eq, Get_UINT16_BE_eq by apply is_byte_mod. word_lia.
Qed.

Lemma Get_Write_UINT16 v : is_u16 v -> winpr_Data_Get_UINT16 (winpr_Data_Write_UINT16 v) = v.
Proof. intros. rewrite Write_UINT16_eq, Get_UINT16_eq by apply is_byte_mod. word_lia. Qed.

Lemma Get_Write_UINT32_BE v :
  is_u32 v -> winpr_Data_Get_UINT32_BE (winpr_Data_Write_UINT32_BE v) = v.
Proof.
  intros. rewrite Write_UINT32_BE_eq, Get_UINT32_BE_eq by apply is_byte_mod. word_lia.
Qed.

Lemma Get_Write_UINT32 v : is_u32 v -> winpr_Data_Get_UINT32 (winpr_Data_Write_UINT32 v) = v.
Proof. intros. rewrite Write_UINT32_eq, Get_UINT32_eq by apply is_byte_mod. word_lia. Qed.

(** ** Writer lemmas *)

(** the stream after a store at the pointer *)
Definition put (bs : list Z) (s : wStream) : wStream :=
  advance (zlen bs) (store_at (pointer s) bs s).

Lemma wf_put bs s :
  wf s -> bytes bs -> pointer s + zlen bs <= capacity s -> wf (put bs s).
Proof.
  intros [] Hb Hc. pose proof (zlen_nonneg bs). split; simpl; auto with zforall; try lia.
  rewrite zlen_blit; lia.
Qed.

Lemma appended_put bs s :
  wf s -> bytes bs -> pointer s + zlen bs <= capacity s -> appended s bs (put bs s).
Proof.
  intros H Hb Hc. split; [by apply wf_put|]. split; [|done].
  destruct H. unfold written, put. simpl. apply blit_ztake; lia.
Qed.

Lemma capacity_put bs s : capacity (put bs s) = capacity s.
Proof. done. Qed.

Lemma write_unchecked_eq bs s :
  wf s -> pointer s + zlen bs <= capacity s ->
  Stream_Write_unchecked bs s = Ret tt (put bs s).
Proof.
  intros H Hc. unfold Stream_Write_unchecked.
  rewrite (bind_ret_eq _ _ s _ _ (remaining_capacity_eq s H)).
  unfold assert. rewrite (proj2 (Z.leb_le _ _)) by lia.
  rewrite (bind_ret_eq _ _ s tt s) by done.
  destruct H. unfold store, mbind, M_bind.
  rewrite (proj2 (Z.leb_le _ _)) by lia. rewrite (proj2 (Z.leb_le _ _)) by lia. done.
Qed.

(** Without room the assertion of the writer fails. *)
Lemma write_u8_full v s :
  wf s -> is_byte v -> capacity s <= pointer s -> Stream_Write_UINT8 v s = Crash AssertFailed.
Proof.
  intros Hs Hv Hc. unfold is_byte in Hv. unfold Stream_Write_UINT8. asserts_hold.
  unfold Stream_Write_unchecked.
  rewrite (bind_ret_eq _ _ s _ _ (remaining_capacity_eq s Hs)).
  apply bind_crash_eq. unfold assert. by rewrite (proj2 (Z.leb_gt _ _)) by (change (zlen _) with 1; lia).
Qed.

(** [m] writes [bs] when the capacity is there. *)
Definition writes (m : M wStream unit) (bs : list Z) : Prop :=
  bytes bs /\
  forall s, wf s -> pointer s + zlen bs <= capacity s -> m s = Ret tt (put bs s).

Lemma writes_u8 v : is_byte v -> writes (Stream_Write_UINT8 v) [v].
Proof.
  intros H. split; [by apply Forall_cons_2|]. unfold is_byte in H. intros s Hs Hc.
  unfold Stream_Write_UINT8. asserts_hold. rewrite <- (Z.mod_small v 256) at 2 by lia.
  rewrite write_unchecked_eq by done. done.
Qed.

Lemma bytes_Write_UINT16_BE v : bytes (winpr_Data_Write_UINT16_BE v).
Proof. rewrite Write_UINT16_BE_eq. repeat apply Forall_cons_2; try apply is_byte_mod; constructor. Qed.

Lemma bytes_Write_UINT16 v : bytes (winpr_Data_Write_UINT16 v).
Proof. rewrite Write_UINT16_eq. repeat apply Forall_cons_2; try apply is_byte_mod; constructor. Qed.

Lemma bytes_Write_UINT32_BE v : bytes (winpr_Data_Write_UINT32_BE v).
Proof. rewrite Write_UINT32_BE_eq. repeat apply Forall_cons_2; try apply is_byte_mod; constructor. Qed.

Lemma bytes_Write_UINT32 v : bytes (winpr_Data_Write_UINT32 v).
Proof. rewrite Write_UINT32_eq. repeat apply Forall_cons_2; try apply is_byte_mod; constructor. Qed.

Lemma writes_u16_be v :
  is_u16 v -> writes (Stream_Write_UINT16_BE v) (winpr_Data_Write_UINT16_BE v).
Proof.
  intros H. unfold is_u16 in H. split; [apply bytes_Write_UINT16_BE|]. intros s Hs Hc.
  unfold Stream_Write_UINT16_BE. asserts_hold. by apply write_unchecked_eq.
Qed.

Lemma writes_u16 v : is_u16 v -> writes (Stream_Write_UINT16 v) (winpr_Data_Write_UINT16 v).
Proof.
  intros H. unfold is_u16 in H. split; [apply bytes_Write_UINT16|]. intros s Hs Hc.
  unfold Stream_Write_UINT16. asserts_hold. by apply write_unchecked_eq.
Qed.

Lemma writes_u32_be v :
  is_u32 v -> writes (Stream_Write_UINT32_BE v) (winpr_Data_Write_UINT32_BE v).
Proof.
  intros H. unfold is_u32 in H. split; [apply bytes_Write_UINT32_BE|]. intros s Hs Hc.
  unfold Stream_Write_UINT32_BE. asserts_hold. by apply write_unchecked_eq.
Qed.

Lemma writes_u32 v : is_u32 v -> writes (Stream_Write_UINT32 v) (winpr_Data_Write_UINT32 v).
Proof.
  intros H. unfold is_u32 in H. split; [apply bytes_Write_UINT32|]. intros s Hs Hc.
  unfold Stream_Write_UINT32. asserts_hold. by apply write_unchecked_eq.
Qed.

(** Two stores in a row are one store. *)
Lemma put_app b1 b2 s :
  wf s -> pointer s + zlen b1 + zlen b2 <= capacity s -> put b2 (put b1 s) = put (b1 ++ b2) s.
Proof.
  intros [] Hc. pose proof (zlen_nonneg b1). pose proof (zlen_nonneg b2).
  unfold put, advance, store_at, set_pointer. simpl. f_equal; [|rewrite zlen_app; lia].
  unfold blit at 1. rewrite blit_ztake by lia.
  replace (zdrop (pointer s + zlen b1 + zlen b2) (blit (pointer s) b1 (buffer s)))
    with (zdrop (pointer s + zlen (b1 ++ b2)) (buffer s)).
  { unfold blit. by rewrite <- !app_assoc. }
  rewrite zlen_app.
  rewrite <- (zdrop_zdrop (zlen b2) (pointer s + zlen b1) (blit _ _ _)) by lia.
  rewrite blit_zdrop by lia. rewrite zdrop_zdrop by lia. f_equal. lia.
Qed.

Lemma put_nil s : wf s -> put [] s = s.
Proof.
  intros []. unfold put, advance, store_at, set_pointer. simpl.
  rewrite blit_nil by lia. rewrite zlen_nil, Z.add_0_r. by destruct s.
Qed.

Lemma writes_seq m1 m2 b1 b2 :
  writes m1 b1 -> writes m2 b2 -> writes (m1 ;; m2) (b1 ++ b2).
Proof.
  intros [Hb1 H1] [Hb2 H2]. split; [by apply Forall_app|]. intros s Hs Hc.
  rewrite zlen_app in Hc. pose proof (zlen_nonneg b1). pose proof (zlen_nonneg b2).
  rewrite (bind_ret_eq _ _ s _ _ (H1 s Hs ltac:(lia))). rewrite H2.
  - rewrite put_app by (auto; lia). done.
  - apply wf_put; auto; lia.
  - simpl. lia.
Qed.

Lemma writes_u8_seq v m bs :
  is_byte v -> writes m bs -> writes (Stream_Write_UINT8 v;; m) (v :: bs).
Proof. intros. apply (writes_seq _ _ [v] bs); [by apply writes_u8|done]. Qed.

Lemma writes_ret : writes (mret tt) [].
Proof. split; [constructor|]. intros s Hs _. by rewrite put_nil. Qed.

Lemma writes_bytes b : bytes b -> writes (Stream_Write b) b.
Proof.
  intros Hb. split; [done|]. intros s Hs Hc. unfold Stream_Write.
  destruct (Z.ltb_spec 0 (zlen b)) as [Hpos|Hz].
  - rewrite (bind_ret_eq _ _ s _ _ (remaining_capacity_eq s Hs)).
    asserts_hold. unfold store at 1. unfold mbind, M_bind. destruct (Hs).
    rewrite (proj2 (Z.leb_le _ _)) by lia. rewrite (proj2 (Z.leb_le _ _)) by lia. simpl.
    rewrite seek_eq; [done| |simpl; lia].
    split; simpl; auto with zforall; try lia. rewrite zlen_blit; lia.
  - pose proof (zlen_nonneg b). rewrite (zlen_zero_inv b) by lia. by rewrite put_nil.
Qed.

Lemma writes_zero n : 0 <= n -> writes (Stream_Zero n) (zrepeat n 0).
Proof.
  intros Hn. assert (bytes (zrepeat n 0)) as Hb by (apply Forall_zrepeat; split; lia).
  split; [done|]. intros s Hs Hc. rewrite zlen_zrepeat in Hc by lia.
  unfold Stream_Zero, Stream_Fill.
  rewrite (bind_ret_eq _ _ s _ _ (remaining_capacity_eq s Hs)).
  asserts_hold. change (u8 0) with 0. unfold store at 1. unfold mbind, M_bind.
  destruct (Hs). rewrite zlen_zrepeat by lia.
  rewrite (proj2 (Z.leb_le _ _)) by lia. rewrite (proj2 (Z.leb_le _ _)) by lia. simpl.
  unfold put. rewrite zlen_zrepeat by lia.
  rewrite seek_eq; [done| |simpl; lia].
  split; simpl; auto with zforall; try lia. rewrite zlen_blit; rewrite ?zlen_zrepeat; lia.
Qed.

(** A writer that also returns a value, such as the size of what it wrote. *)
Definition emits {A} (m : M wStream A) (bs : list Z) (v : A) : Prop :=
  bytes bs /\
  forall s, wf s -> pointer s + zlen bs <= capacity s -> m s = Ret v (put bs s).

Lemma emits_writes m bs : writes m bs <-> emits m bs tt.
Proof. done. Qed.

Lemma emits_bind {A B} (m : M wStream A) (k : A -> M wStream B) b1 b2 v w :
  emits m b1 v -> emits (k v) b2 w -> emits (m ≫= k) (b1 ++ b2) w.
Proof.
  intros [Hb1 H1] [Hb2 H2]. split; [by apply Forall_app|]. intros s Hs Hc.
  rewrite zlen_app in Hc. pose proof (zlen_nonneg b1). pose proof (zlen_nonneg b2).
  rewrite (bind_ret_eq _ _ s _ _ (H1 s Hs ltac:(lia))). rewrite H2.
  - rewrite put_app by (auto; lia). done.
  - apply wf_put; auto; lia.
  - simpl. lia.
Qed.

Lemma emits_bind_last {A B} (m : M wStream A) (k : A -> M wStream B) bs v w :
  emits m bs v -> emits (k v) [] w -> emits (m ≫= k) bs w.
Proof. intros. rewrite <- (app_nil_r bs). by eapply emits_bind. Qed.

Lemma emits_ret {A} (v : A) : emits (mret v) [] v.
Proof. split; [constructor|]. intros s Hs _. by rewrite put_nil. Qed.

(** an assertion about the room a writer is about to use *)
Lemma emits_room {A} n (m : unit -> M wStream A) bs v :
  n <= zlen bs -> emits (m tt) bs v ->
  emits (r ← Stream_GetRemainingCapacity; assert (n <=? r) ≫= m) bs v.
Proof.
  intros Hn [Hb H]. split; [done|]. intros s Hs Hc.
  rewrite (bind_ret_eq _ _ s _ _ (remaining_capacity_eq s Hs)).
  rewrite assert_bind by lia. by apply H.
Qed.

Lemma emits_check_capacity {A} n (m : unit -> M wStream A) bs v :
  n <= zlen bs -> emits (m tt) bs v ->
  emits (Stream_CheckAndLogRequiredCapacity n ≫= m) bs v.
Proof.
  intros Hn [Hb H]. split; [done|]. intros s Hs Hc.
  rewrite (bind_ret_eq _ _ s tt s); [by apply H|].
  unfold Stream_CheckAndLogRequiredCapacity, Stream_CheckAndLogRequiredCapacityEx.
  rewrite assert_bind by done.
  rewrite (bind_ret_eq _ _ s _ _ (remaining_capacity_eq s Hs)).
  rewrite Z.div_1_r. unfold guard. by rewrite (proj2 (Z.ltb_ge _ _)) by lia.
Qed.

Lemma emits_assert {A} (b : bool) (m : unit -> M wStream A) bs v :
  b = true -> emits (m tt) bs v -> emits (assert b ≫= m) bs v.
Proof. intros -> H. done. Qed.

Lemma emits_u8 {A} v (m : unit -> M wStream A) bs w :
  is_byte v -> emits (m tt) bs w -> emits (Stream_Write_UINT8 v ≫= m) (v :: bs) w.
Proof. intros. apply (emits_bind _ _ [v] bs tt); [by apply writes_u8|done]. Qed.

Lemma emits_attempt {A} (m : M wStream A) bs v :
  emits m bs v -> emits (attempt m) bs (Some v).
Proof. intros [Hb H]. split; [done|]. intros s Hs Hc. unfold attempt. by rewrite H. Qed.

(** A request for room that is there changes nothing. *)
Lemma emits_ensure `{Alloc} {A} n (m : unit -> M wStream A) bs v :
  0 <= n <= zlen bs -> emits (m tt) bs v ->
  emits (Stream_EnsureRemainingCapacity n ≫= m) bs v.
Proof.
  intros Hn [Hb Hm]. split; [done|]. intros s Hs Hc.
  rewrite (bind_ret_eq _ _ s tt s); [by apply Hm|]. destruct (Hs).
  unfold Stream_EnsureRemainingCapacity, Stream_GetPosition, Stream_Capacity.
  rewrite bind_assoc, get_bind, bind_assoc. rewrite assert_bind by lia.
  rewrite ret_bind, bind_assoc, get_bind, ret_bind. unfold usize. rewrite Z.mod_small by lia.
  by rewrite (proj2 (Z.ltb_ge _ _)) by lia.
Qed.

Create HintDb writes.
#[export] Hint Resolve writes_u8 writes_u16 writes_u16_be writes_u32 writes_u32_be
  writes_bytes writes_zero writes_ret : writes.

(** ** Growth *)

Lemma grow_capacity_spec fuel c size :
  0 < c < size -> size <= c * 2 ^ Z.of_nat fuel -> size <= 2 ^ 61 ->
  exists c', grow_capacity fuel c size = Some c' /\ size <= c' < 2 * size.
Proof.
  revert c. induction fuel as [|f IH]; intros c Hc Hf Hs; [simpl in Hf; lia|].
  rewrite Nat2Z.inj_succ, Z.pow_succ_r in Hf by lia. simpl. unfold usize.
  rewrite Z.mod_small by lia. zcase; [apply IH; nia|]. eexists. split; [done|lia].
Qed.

(** A zero capacity never grows: the doubling loop does not terminate. *)
Lemma grow_capacity_zero fuel size : 0 < size -> grow_capacity fuel 0 size = None.
Proof.
  intros Hs. induction fuel as [|f IH]; [done|]. simpl.
  change (usize (0 * 2)) with 0. by rewrite (proj2 (Z.ltb_lt 0 size)) by lia.
Qed.

(** The storage of [s] enlarged to [c], the new bytes zeroed. *)
Definition enlarge (c : Z) (s : wStream) : wStream :=
  mkStream (buffer s ++ zrepeat (c - capacity s) 0) (pointer s) c c (count s)
    (isAllocatedStream s) true.

Lemma wf_enlarge c s : wf s -> capacity s <= c < 2 ^ 62 -> wf (enlarge c s).
Proof.
  intros [] Hc. split; simpl; try lia.
  - rewrite zlen_app, zlen_zrepeat by lia. lia.
  - apply Forall_app. split; [done|]. apply Forall_zrepeat. split; lia.
Qed.

Lemma written_enlarge c s : wf s -> written (enlarge c s) = written s.
Proof. intros []. unfold written. simpl. rewrite ztake_app_le by lia. done. Qed.

Lemma position_eq s : wf s -> Stream_GetPosition s = Ret (pointer s) s.
Proof. intros []. unfold Stream_GetPosition. rewrite get_bind. by rewrite assert_bind by lia. Qed.

Lemma set_position_eq p s : p <= capacity s -> Stream_SetPosition p s = Ret tt (set_pointer p s).
Proof.
  intros Hp. unfold Stream_SetPosition, Stream_Capacity, mbind, M_bind, get, mret, M_ret.
  by rewrite (proj2 (Z.ltb_ge _ _)) by lia.
Qed.

Lemma go_to_eq p s : p <= capacity s -> go_to p s = Ret tt (set_pointer p s).
Proof.
  intros Hp. unfold go_to. rewrite (bind_ret_eq _ _ _ (Some tt) (set_pointer p s)); [done|].
  unfold attempt. by rewrite set_position_eq by lia.
Qed.

Lemma ensure_capacity_grows `{Alloc} size s :
  wf s -> 0 < capacity s < size -> size <= 2 ^ 61 ->
  exists c, size <= c < 2 * size /\
    Stream_EnsureCapacity size s =
      if malloc_ok c then Ret tt (enlarge c s)
      else if isOwner s then Fail s else Crash Undefined.
Proof.
  intros Hs Hc Hsz.
  destruct (grow_capacity_spec grow_fuel (capacity s) size) as (c & Hg & Hb); [lia| |lia|].
  { change (Z.of_nat grow_fuel) with 65. lia. }
  exists c. split; [done|]. unfold Stream_EnsureCapacity. rewrite get_bind.
  rewrite (proj2 (Z.ltb_lt _ _)) by lia. rewrite Hg.
  rewrite (bind_ret_eq _ _ s _ _ (position_eq s Hs)). destruct (Hs).
  unfold mbind, M_bind, mret, M_ret.
  destruct (isOwner s) eqn:Ho, (malloc_ok c) eqn:Hm; simpl; unfold guard; try done.
  all: unfold attempt, Stream_SetPosition, Stream_Capacity, mbind, M_bind, mret, M_ret; simpl.
  all: rewrite (proj2 (Z.ltb_ge _ _)) by lia; unfold modify, set_pointer, enlarge; simpl.
  all: rewrite ztake_all by lia; rewrite ?Ho; done.
Qed.

(** The room a writer finds after [Stream_EnsureRemainingCapacity]. *)
Lemma ensure_remaining_spec `{AllocOk} n s :
  wf s -> 0 < capacity s -> 0 <= n -> capacity s + n <= 2 ^ 61 ->
  exists s', Stream_EnsureRemainingCapacity n s = Ret tt s' /\ appended s [] s' /\
    pointer s' + n <= capacity s' /\ capacity s <= capacity s' <= 2 * (capacity s + n).
Proof.
  intros Hs Hpos Hn Hlim. destruct (Hs). unfold Stream_EnsureRemainingCapacity.
  rewrite (bind_ret_eq _ _ s _ _ (position_eq s Hs)).
  rewrite (bind_ret_eq Stream_Capacity _ s (capacity s) s) by done. unfold usize. rewrite !Z.mod_small by lia. zcase.
  - destruct (ensure_capacity_grows (capacity s + n) s Hs) as (c & Hc & ->); [lia|lia|].
    rewrite alloc_ok by lia. eexists. split; [done|].
    split; [|simpl; lia]. split; [apply wf_enlarge; [done|lia]|].
    rewrite written_enlarge by done. rewrite app_nil_r, zlen_nil. split; [done|]. simpl. lia.
  - exists s. split; [done|]. split; [|lia].
    split; [done|]. rewrite app_nil_r. split; [done|]. rewrite zlen_nil. lia.
Qed.

Lemma appended_refl s : wf s -> appended s [] s.
Proof. intros. split; [done|]. rewrite app_nil_r, zlen_nil. split; [done|lia]. Qed.

Lemma appended_trans s1 s2 s3 b1 b2 :
  appended s1 b1 s2 -> appended s2 b2 s3 -> appended s1 (b1 ++ b2) s3.
Proof.
  intros (? & E1 & P1) (? & E2 & P2). split; [done|].
  rewrite E2, E1, P2, P1, zlen_app, app_assoc. split; [done|lia].
Qed.

(** A writer that makes its own room.  The capacity stays below [2^L] with some slack;
    each request for room can double it, so a writer with [n] requests needs a budget
    of [2 * n] more bits. *)
Definition budget (L : Z) (s : wStream) : Prop :=
  0 <= L /\ 0 < capacity s /\ capacity s + 65536 <= 2 ^ L.

Definition appends (n : nat) (m : M wStream unit) (bs : list Z) : Prop :=
  forall s L, wf s -> budget L s -> L + 2 * Z.of_nat n <= 61 ->
  exists s', m s = Ret tt s' /\ appended s bs s' /\ budget (L + 2 * Z.of_nat n) s'.

Lemma budget_mono L L' s : budget L s -> L <= L' -> budget L' s.
Proof.
  intros (? & ? & ?) ?. split; [lia|]. split; [done|].
  apply Z.le_trans with (2 ^ L); [done|]. apply Z.pow_le_mono_r; lia.
Qed.

Lemma appends_ensure `{AllocOk} r m bs :
  writes m bs -> zlen bs <= r <= 65535 -> appends 1 (Stream_EnsureRemainingCapacity r;; m) bs.
Proof.
  intros [Hb Hm] Hr s L Hs (HL & Hpos & Hlim) HL'. simpl in HL'.
  pose proof (zlen_nonneg bs).
  assert (2 ^ L * 4 = 2 ^ (L + 2)) as HP by (rewrite Z.pow_add_r by lia; lia).
  assert (2 ^ (L + 2) <= 2 ^ 61) by (apply Z.pow_le_mono_r; lia).
  destruct (ensure_remaining_spec r s) as (s1 & E & App & Hroom & Hcap); [done..|lia|lia|].
  rewrite (bind_ret_eq _ _ s _ _ E). destruct App as (Hs1 & W1 & P1).
  rewrite Hm by (auto; lia). eexists. split; [done|]. split.
  - apply (appended_trans s s1 _ [] bs); [done|]. apply appended_put; auto; lia.
  - unfold budget. rewrite capacity_put. change (2 * Z.of_nat 1) with 2. lia.
Qed.

Lemma appends_seq n1 n2 m1 m2 b1 b2 :
  appends n1 m1 b1 -> appends n2 m2 b2 -> appends (n1 + n2) (m1;; m2) (b1 ++ b2).
Proof.
  intros H1 H2 s L Hs HL Hle. rewrite Nat2Z.inj_add in Hle |- *.
  destruct (H1 s L Hs HL) as (s1 & E1 & A1 & B1); [lia|].
  destruct (H2 s1 (L + 2 * Z.of_nat n1)) as (s2 & E2 & A2 & B2); [apply A1|done|lia|].
  exists s2. rewrite (bind_ret_eq _ _ s _ _ E1). split; [done|].
  split; [by eapply appended_trans|]. eapply budget_mono; [done|lia].
Qed.

Lemma appends_ret : appends 0 (mret tt) [].
Proof.
  intros s L Hs HL _. exists s. split; [done|]. split; [by apply appended_refl|].
  by rewrite Z.add_0_r.
Qed.

(** ** Reading back *)

(** A reader set on what has just been written sees exactly that. *)
Lemma replay_spec s bs s' :
  wf s -> appended s bs s' ->
  exists r, replay (pointer s) s' = Ret tt r /\ readable r /\ rest r = bs /\
    pointer r = pointer s /\ len r = pointer s'.
Proof.
  intros Hs (Hs' & W & P). destruct (Hs), (Hs'). pose proof (zlen_nonneg bs).
  exists (set_pointer (pointer s) (set_len (pointer s') s')). split.
  { unfold replay, Stream_SealLength. unfold mbind at 1, M_bind at 1. rewrite get_bind.
    asserts_hold. rewrite (proj2 (Z.leb_le _ _)) by lia.
    unfold modify, Stream_SetPosition, Stream_Capacity, mbind, M_bind, get, mret, M_ret. simpl.
    by rewrite (proj2 (Z.ltb_ge _ _)) by lia. }
  split; [split; [split|]; simpl; auto; lia|]. split; [|done].
  unfold rest, slice. simpl.
  assert (zlen (written s) = pointer s) as Hw by (unfold written; apply zlen_ztake; lia).
  rewrite <- (zdrop_ztake (pointer s) (pointer s')) by lia.
  change (ztake (pointer s') (buffer s')) with (written s').
  rewrite W, zdrop_app_ge by lia. by rewrite Hw, Z.sub_diag.
Qed.

(** A writer and a reader that undo each other: after [w], a reader placed at the
    start of what [w] wrote returns [v] and consumes all of it. *)
Definition reads_back {A} (s s' : wStream) (rd : M wStream A) (v : A) : Prop :=
  exists r r', replay (pointer s) s' = Ret tt r /\ rd r = Ret v r' /\ pointer r' = pointer s'.

(** [rd] decodes the bytes [bs], whatever follows them. *)
Definition parses {A} (rd : M wStream A) (bs : list Z) (v : A) : Prop :=
  forall s tl, readable s -> rest s = bs ++ tl -> rd s = Ret v (advance (zlen bs) s).

Lemma parses_reads_back {A} (rd : M wStream A) bs v s s' :
  parses rd bs v -> wf s -> appended s bs s' -> reads_back s s' rd v.
Proof.
  intros Hp Hs Happ. destruct (replay_spec s bs s' Hs Happ) as (r & Hr & Rd & Rest & P & L).
  exists r, (advance (zlen bs) r). split; [done|]. split.
  - apply (Hp r []); [done|]. by rewrite app_nil_r.
  - destruct Happ as (_ & _ & E). simpl. lia.
Qed.

(** A stream a serialiser may be given: some storage, and room to grow it. *)
Definition writable (s : wStream) : Prop := wf s /\ budget 40 s.

(** a reader that takes everything, followed by a check that nothing is left *)
Lemma parses_all_reads_back {A} (rd : M wStream A) (check : A -> M wStream unit) bs v s s' :
  parses rd bs v ->
  (forall r, readable r -> rem r = 0 -> check v r = Ret tt r) ->
  wf s -> appended s bs s' -> reads_back s s' (x ← rd; check x;; mret x) v.
Proof.
  intros Hp Hc Hs Happ. destruct (replay_spec s bs s' Hs Happ) as (r & Hr & Rd & Rest & P & L).
  pose proof (zlen_rest r Rd) as Hl. rewrite Rest in Hl. pose proof (zlen_nonneg bs).
  assert (readable (advance (zlen bs) r)) by (apply readable_advance; [done|lia]).
  exists r, (advance (zlen bs) r). split; [done|]. split.
  - rewrite (bind_ret_eq _ _ r v (advance (zlen bs) r)).
    + rewrite (bind_ret_eq _ _ _ tt (advance (zlen bs) r)); [done|].
      apply Hc; [done|]. rewrite rem_advance. lia.
    + apply (Hp r []); [done|]. by rewrite app_nil_r.
  - destruct Happ as (_ & _ & E). simpl. lia.
Qed.

Lemma appends_reads_back {A} n m bs (rd : M wStream A) v s :
  (n <= 10)%nat -> appends n m bs -> parses rd bs v -> writable s ->
  exists s', m s = Ret tt s' /\ appended s bs s' /\ reads_back s s' rd v.
Proof.
  intros Hn Hm Hp [Hs Hb]. destruct (Hm s 40 Hs Hb) as (s' & E & A1 & _); [lia|].
  exists s'. split; [done|]. split; [done|]. by eapply parses_reads_back.
Qed.

Lemma emits_reads_back {A B} (m : M wStream A) bs a (rd : M wStream B) v s :
  emits m bs a -> parses rd bs v -> wf s -> pointer s + zlen bs <= capacity s ->
  exists s', m s = Ret a s' /\ pointer s' = pointer s + zlen bs /\ reads_back s s' rd v.
Proof.
  intros [Hb Hm] Hp Hs Hc. exists (put bs s). split; [by apply Hm|]. split; [done|].
  eapply parses_reads_back; [done|done|]. by apply appended_put.
Qed.

Lemma parses_bind {A B} (m : M wStream A) (k : A -> M wStream B) b1 b2 v w :
  parses m b1 v -> parses (k v) b2 w -> parses (m ≫= k) (b1 ++ b2) w.
Proof.
  intros H1 H2 s tl Hs Hr. rewrite <- app_assoc in Hr.
  rewrite (bind_ret_eq _ _ s _ _ (H1 s (b2 ++ tl) Hs Hr)).
  pose proof (zlen_nonneg b1). pose proof (zlen_nonneg b2).
  assert (zlen b1 <= rem s) as Hle.
  { rewrite <- zlen_rest, Hr, zlen_app by done. pose proof (zlen_nonneg (b2 ++ tl)). lia. }
  rewrite (H2 _ tl).
  - by rewrite advance_advance, zlen_app.
  - apply readable_advance; [done|lia].
  - rewrite rest_advance, Hr, zdrop_app_ge by (auto; lia). by rewrite Z.sub_diag.
Qed.

Lemma parses_bind_last {A B} (m : M wStream A) (k : A -> M wStream B) bs v w :
  parses m bs v -> parses (k v) [] w -> parses (m ≫= k) bs w.
Proof. intros. rewrite <- (app_nil_r bs). by eapply parses_bind. Qed.

Lemma parses_assoc {A B C} (m : M wStream A) (k : A -> M wStream B) (h : B -> M wStream C) bs v :
  parses (m ≫= (fun a => k a ≫= h)) bs v -> parses ((m ≫= k) ≫= h) bs v.
Proof. intros H s tl Hs Hr. rewrite bind_assoc. by apply (H s tl). Qed.

Lemma parses_ret {A} (v : A) : parses (mret v) [] v.
Proof. intros s tl _ _. by rewrite zlen_nil, advance_0. Qed.

Lemma rem_parses s bs tl : readable s -> rest s = bs ++ tl -> zlen bs <= rem s.
Proof.
  intros Hs Hr. rewrite <- zlen_rest, Hr, zlen_app by done. pose proof (zlen_nonneg tl). lia.
Qed.

(** A length check in front of a parser of at least that many bytes is transparent. *)
Lemma parses_check {A} n (m : unit -> M wStream A) bs v :
  n <= zlen bs -> parses (m tt) bs v ->
  parses (Stream_CheckAndLogRequiredLength n ≫= m) bs v.
Proof.
  intros Hn H s tl Hs Hr. pose proof (rem_parses s bs tl Hs Hr).
  rewrite (bind_ret_eq _ _ s tt s) by (apply check_length_ok; [done|lia]).
  by apply (H s tl).
Qed.

Lemma parses_stream_read n conv bs :
  zlen bs = n -> parses (stream_read n conv true) bs (conv bs).
Proof.
  intros Hn s tl Hs Hr. pose proof (rem_parses s bs tl Hs Hr). pose proof (zlen_nonneg bs).
  rewrite stream_read_eq by (auto; lia). rewrite Hr, ztake_app_le, ztake_all by lia.
  by rewrite Hn.
Qed.

Lemma parses_u8 b : parses Stream_Read_UINT8 [b] b.
Proof. by apply (parses_stream_read 1 winpr_Data_Get_UINT8 [b]). Qed.

Lemma parses_u8_bind {A} b (k : Z -> M wStream A) b2 w :
  parses (k b) b2 w -> parses (Stream_Read_UINT8 ≫= k) (b :: b2) w.
Proof. intros. by apply (parses_bind _ _ [b] b2 b); [apply parses_u8|]. Qed.

Lemma parses_peek_bind {A} b (k : Z -> M wStream A) bs w :
  parses (k b) (b :: bs) w -> parses (Stream_Peek_UINT8 ≫= k) (b :: bs) w.
Proof.
  intros H s tl Hs Hr. pose proof (rem_parses s (b :: bs) tl Hs Hr) as Hrem.
  rewrite zlen_cons in Hrem. pose proof (zlen_nonneg bs).
  rewrite (bind_ret_eq _ _ s b s); [by apply (H s tl)|].
  unfold Stream_Peek_UINT8, stream_read_u8. rewrite stream_read_eq by (auto; lia).
  by rewrite Hr.
Qed.

Lemma parses_u16_be v :
  is_u16 v -> parses Stream_Read_UINT16_BE (winpr_Data_Write_UINT16_BE v) v.
Proof.
  intros H. rewrite <- (Get_Write_UINT16_BE v H) at 2. by apply parses_stream_read.
Qed.

Lemma parses_u16 v : is_u16 v -> parses Stream_Read_UINT16 (winpr_Data_Write_UINT16 v) v.
Proof.
  intros H. rewrite <- (Get_Write_UINT16 v H) at 2. by apply parses_stream_read.
Qed.

Lemma parses_u32_be v :
  is_u32 v -> parses Stream_Read_UINT32_BE (winpr_Data_Write_UINT32_BE v) v.
Proof.
  intros H. rewrite <- (Get_Write_UINT32_BE v H) at 2. by apply parses_stream_read.
Qed.

Lemma parses_u32 v : is_u32 v -> parses Stream_Read_UINT32 (winpr_Data_Write_UINT32 v) v.
Proof.
  intros H. rewrite <- (Get_Write_UINT32 v H) at 2. by apply parses_stream_read.
Qed.

Lemma parses_seek n bs : zlen bs = n -> parses (Stream_Seek n) bs tt.
Proof.
  intros Hn s tl Hs Hr. pose proof (rem_parses s bs tl Hs Hr).
  rewrite seek_readable by (auto; lia). by rewrite Hn.
Qed.

Lemma parses_bytes n bs : zlen bs = n -> parses (Stream_Read n) bs bs.
Proof.
  intros Hn s tl Hs Hr. pose proof (rem_parses s bs tl Hs Hr). pose proof (zlen_nonneg bs).
  destruct (Hs) as [Hw Hp]. destruct (Hw). unfold rem in *. unfold Stream_Read.
  rewrite (bind_ret_eq _ _ s _ _ (remaining_capacity_eq s Hw)).
  asserts_hold. rewrite (bind_ret_eq _ _ s (ztake n (rest s)) s).
  2: { apply load_eq; [done|unfold rem; lia]. }
  rewrite (bind_ret_eq _ _ s tt (advance n s)) by (apply seek_readable; [done|unfold rem; lia]).
  rewrite Hr, ztake_app_le, ztake_all by lia. by rewrite Hn.
Qed.
#[export] Hint Resolve parses_u8 parses_u16 parses_u16_be parses_u32 parses_u32_be
  parses_ret : writes.

(** ** Symbolic execution of readers *)

Lemma wp_u8 Q F s :
  readable s -> 1 <= rem s -> (forall b, is_byte b -> Q b (advance 1 s)) ->
  wp Stream_Read_UINT8 Q F s.
Proof.
  intros Hs Hr HQ. apply (wp_stream_read 1 _ true is_byte); [done|lia| |done].
  intros [|b [|]] Hd Hl; apply zlen_length in Hl; try done. by apply Forall_cons_1 in Hd as [Hb _].
Qed.

Lemma wp_peek_u8 Q F s :
  readable s -> 1 <= rem s -> (forall b, is_byte b -> Q b s) -> wp Stream_Peek_UINT8 Q F s.
Proof.
  intros Hs Hr HQ. apply (wp_stream_read 1 _ false is_byte); [done|lia| |done].
  intros [|b [|]] Hd Hl; apply zlen_length in Hl; try done. by apply Forall_cons_1 in Hd as [Hb _].
Qed.

Ltac bytes_inv :=
  repeat match goal with
  | H : Forall is_byte (_ :: _) |- _ => apply Forall_cons_1 in H as [? H]
  end.

Lemma wp_u16_be Q F s :
  readable s -> 2 <= rem s -> (forall b, is_u16 b -> Q b (advance 2 s)) ->
  wp Stream_Read_UINT16_BE Q F s.
Proof.
  intros Hs Hr HQ. apply (wp_stream_read 2 _ true is_u16); [done|lia| |done].
  intros [|a [|b [|]]] Hd Hl; apply zlen_length in Hl; try done. bytes_inv.
  rewrite Get_UINT16_BE_eq by done. word_lia.
Qed.

Lemma wp_u16 Q F s :
  readable s -> 2 <= rem s -> (forall b, is_u16 b -> Q b (advance 2 s)) ->
  wp Stream_Read_UINT16 Q F s.
Proof.
  intros Hs Hr HQ. apply (wp_stream_read 2 _ true is_u16); [done|lia| |done].
  intros [|a [|b [|]]] Hd Hl; apply zlen_length in Hl; try done. bytes_inv.
  rewrite Get_UINT16_eq by done. word_lia.
Qed.

Lemma wp_u32_be Q F s :
  readable s -> 4 <= rem s -> (forall b, is_u32 b -> Q b (advance 4 s)) ->
  wp Stream_Read_UINT32_BE Q F s.
Proof.
  intros Hs Hr HQ. apply (wp_stream_read 4 _ true is_u32); [done|lia| |done].
  intros [|a [|b [|c [|d [|]]]]] Hd Hl; apply zlen_length in Hl; try done. bytes_inv.
  rewrite Get_UINT32_BE_eq by done. word_lia.
Qed.

Lemma wp_u32 Q F s :
  readable s -> 4 <= rem s -> (forall b, is_u32 b -> Q b (advance 4 s)) ->
  wp Stream_Read_UINT32 Q F s.
Proof.
  intros Hs Hr HQ. apply (wp_stream_read 4 _ true is_u32); [done|lia| |done].
  intros [|a [|b [|c [|d [|]]]]] Hd Hl; apply zlen_length in Hl; try done. bytes_inv.
  rewrite Get_UINT32_eq by done. word_lia.
Qed.

Lemma wp_seek n Q F s :
  readable s -> n <= rem s -> Q tt (advance n s) -> wp (Stream_Seek n) Q F s.
Proof. intros. unfold wp. by rewrite seek_readable. Qed.

Lemma wp_safe_seek n Q F s :
  readable s -> (n <= rem s -> Q tt (advance n s)) -> (rem s < n -> F s) ->
  wp (Stream_SafeSeek n) Q F s.
Proof.
  intros Hs HQ HF. apply wp_bind. apply wp_check_length; [done| |done].
  intros. apply wp_seek; auto.
Qed.

Lemma wp_read n Q F s :
  readable s -> 0 <= n <= rem s ->
  (forall d, bytes d -> zlen d = n -> Q d (advance n s)) -> wp (Stream_Read n) Q F s.
Proof.
  intros Hs Hn HQ. unfold wp.
  assert (zlen (ztake n (rest s)) = n) as Hl by (apply zlen_ztake; rewrite zlen_rest; [lia|done]).
  rewrite (parses_bytes n (ztake n (rest s)) Hl s (zdrop n (rest s)) Hs);
    [|symmetry; apply ztake_zdrop].
  rewrite Hl. apply HQ; [|done]. pose proof (bytes_rest s Hs). eauto with zforall.
Qed.

Lemma wp_load n Q F s :
  readable s -> 0 <= n <= rem s ->
  (forall d, bytes d -> zlen d = n -> Q d s) -> wp (load n) Q F s.
Proof.
  intros Hs Hn HQ. unfold wp. rewrite load_eq by done. apply HQ.
  - pose proof (bytes_rest s Hs). eauto with zforall.
  - apply zlen_ztake. rewrite zlen_rest by done. lia.
Qed.

Lemma wp_position Q F s : readable s -> Q (pointer s) s -> wp Stream_GetPosition Q F s.
Proof. intros [Hw _] HQ. unfold wp. by rewrite position_eq. Qed.

Lemma wp_remaining Q F s : readable s -> Q (rem s) s -> wp Stream_GetRemainingLength Q F s.
Proof. intros. unfold wp. by rewrite remaining_length_eq. Qed.

Lemma wp_rewind n Q F s k :
  readable s -> 0 <= k <= rem s -> 0 <= n <= k -> Q tt (advance (k - n) s) ->
  wp (Stream_Rewind n) Q F (advance k s).
Proof.
  intros [[] ?] Hk Hn HQ. unfold wp, Stream_Rewind. rewrite get_bind. simpl.
  asserts_hold. rewrite (proj2 (Z.leb_le _ _)) by lia. unfold modify, advance, set_pointer in *.
  simpl in *. by replace (pointer s + k - n) with (pointer s + (k - n)) by lia.
Qed.

Lemma wp_call {A} P (m : M wStream A) Q F s :
  safe_reader P m -> readable s ->
  (forall a k, P a -> 0 <= k <= rem s -> Q a (advance k s)) ->
  (forall k, 0 <= k <= rem s -> F (advance k s)) -> wp m Q F s.
Proof.
  intros Hm Hs HQ HF. eapply wp_mono; [by apply Hm| |].
  - intros a s' (? & k & ? & ->). auto.
  - intros s' (k & ? & ->). auto.
Qed.

Ltac solve_readable :=
  first [assumption | apply readable_advance; [assumption | rewrite ?rem_advance in *; word_lia]].

(** Runs a reader: every primitive is discharged with the bounds the checks before it
    established; calls to readers already proved safe are looked up in [stream]. *)
Ltac reader_step :=
  cbn beta; rewrite ?advance_advance;
  lazymatch goal with
  | |- wp (Stream_CheckAndLogRequiredLength _) _ _ _ =>
      apply wp_check_length; [solve_readable|intros|intros]
  | |- wp Stream_Read_UINT8 _ _ _ =>
      apply wp_u8; [solve_readable|rewrite ?rem_advance in *; word_lia|intros]
  | |- wp Stream_Peek_UINT8 _ _ _ =>
      apply wp_peek_u8; [solve_readable|rewrite ?rem_advance in *; word_lia|intros]
  | |- wp Stream_Read_UINT16_BE _ _ _ =>
      apply wp_u16_be; [solve_readable|rewrite ?rem_advance in *; word_lia|intros]
  | |- wp Stream_Read_UINT16 _ _ _ =>
      apply wp_u16; [solve_readable|rewrite ?rem_advance in *; word_lia|intros]
  | |- wp Stream_Read_UINT32_BE _ _ _ =>
      apply wp_u32_be; [solve_readable|rewrite ?rem_advance in *; word_lia|intros]
  | |- wp Stream_Read_UINT32 _ _ _ =>
      apply wp_u32; [solve_readable|rewrite ?rem_advance in *; word_lia|intros]
  | |- wp (Stream_Seek _) _ _ _ =>
      apply wp_seek; [solve_readable|rewrite ?rem_advance in *; word_lia|]
  | |- wp (Stream_SafeSeek _) _ _ _ => apply wp_safe_seek; [solve_readable|intros|intros]
  | |- wp (Stream_Read _) _ _ _ =>
      apply wp_read; [solve_readable|rewrite ?rem_advance in *; word_lia|intros]
  | |- wp (load _) _ _ _ =>
      apply wp_load; [solve_readable|rewrite ?rem_advance in *; word_lia|intros]
  | |- wp Stream_GetPosition _ _ _ => apply wp_position; [solve_readable|]
  | |- wp Stream_GetRemainingLength _ _ _ => apply wp_remaining; [solve_readable|]
  | |- moved _ _ =>
      first [apply moved_refl; assumption
            |apply moved_advance; rewrite ?rem_advance in *; word_lia]
  | |- wp _ _ _ _ =>
      first [wp_step
            |eapply wp_call; [solve [eauto with stream]|solve_readable|intros|intros]]
  end.

Ltac reader_run := repeat reader_step.

(** The whole safety proof of a reader whose result predicate is arithmetic. *)
Ltac reader_auto :=
  repeat first [reader_step | split; [first [done | word_lia | split; word_lia]|]].

(** ** Concrete streams *)

(** an empty growable stream of [n] zero bytes *)
Definition fresh (n : Z) : wStream := mkStream (zrepeat n 0) 0 n n 1 true true.

Lemma wf_fresh n : 0 <= n < 2 ^ 62 -> wf (fresh n).
Proof.
  intros Hn. split; simpl; try lia.
  - by rewrite zlen_zrepeat by lia.
  - apply Forall_zrepeat. split; lia.
Qed.

Lemma writable_fresh n : 0 < n <= 65536 -> writable (fresh n).
Proof. intros. split; [apply wf_fresh; lia|]. split; [lia|]. simpl. lia. Qed.

(** a stream over received data *)
Lemma readable_init b : bytes b -> zlen b < 2 ^ 62 -> readable (Stream_StaticInit b).
Proof.
  intros Hb Hl. pose proof (zlen_nonneg b).
  split; [split|]; simpl; auto; lia.
Qed.

(** ** The promises of the stream *)

(** C39: [Stream_EnsureCapacity] on a stream with storage: the doubling loop ends and asks
    for less than twice the requested size; when the allocator grants it, the stream has
    the requested capacity, its old contents are intact and followed by zeros, its
    position is unchanged, and it owns the new block; when the allocator refuses, an
    owning stream is left exactly as it was and the call returns [FALSE]. *)
Theorem Stream_EnsureCapacity_spec `{Alloc} size s :
  wf s -> 0 < capacity s < size -> size <= 2 ^ 61 ->
  exists c, size <= c < 2 * size /\
    (malloc_ok c = true ->
       exists s', Stream_EnsureCapacity size s = Ret tt s' /\ wf s' /\
         capacity s' = c /\ len s' = c /\ pointer s' = pointer s /\ isOwner s' = true /\
         buffer s' = buffer s ++ zrepeat (c - capacity s) 0) /\
    (malloc_ok c = false -> isOwner s = true -> Stream_EnsureCapacity size s = Fail s).
Proof.
  intros Hs Hc Hsz. destruct (ensure_capacity_grows size s Hs Hc Hsz) as (c & Hb & ->).
  exists c. split; [done|]. split.
  - intros ->. exists (enlarge c s). split; [done|].
    split; [apply wf_enlarge; [done|lia]|]. done.
  - by intros -> ->.
Qed.

Lemma Stream_EnsureCapacity_spec_witness :
  exists c, 40 <= c < 80 /\
    (@malloc_ok alloc_always c = true ->
       exists s', @Stream_EnsureCapacity alloc_always 40 (fresh 16) = Ret tt s' /\ wf s' /\
         capacity s' = c /\ len s' = c /\ pointer s' = pointer (fresh 16) /\ isOwner s' = true /\
         buffer s' = buffer (fresh 16) ++ zrepeat (c - capacity (fresh 16)) 0) /\
    (@malloc_ok alloc_always c = false -> isOwner (fresh 16) = true ->
       @Stream_EnsureCapacity alloc_always 40 (fresh 16) = Fail (fresh 16)).
Proof.
  apply (@Stream_EnsureCapacity_spec alloc_always 40 (fresh 16)).
  - apply wf_fresh. lia.
  - simpl. lia.
  - lia.
Defined.

(** [Stream_EnsureCapacity] never returns on a stream of capacity zero (which
    [Stream_New] builds from a zero-sized buffer): its loop doubles zero whatever the
    number of rounds. *)
Theorem Stream_EnsureCapacity_zero_diverges `{Alloc} size s :
  capacity s = 0 -> 0 < size ->
  (forall fuel, grow_capacity fuel (capacity s) size = None) /\
  Stream_EnsureCapacity size s = Crash Diverges.
Proof.
  intros Hc Hs. rewrite Hc. split; [intros; by apply grow_capacity_zero|].
  unfold Stream_EnsureCapacity. rewrite get_bind, Hc.
  rewrite (proj2 (Z.ltb_lt 0 size)) by done. by rewrite grow_capacity_zero.
Qed.

Lemma Stream_EnsureCapacity_zero_diverges_witness :
  exists s, @Stream_New alloc_always (Some []) [] 0 = Some s /\
    (forall fuel, grow_capacity fuel (capacity s) 1 = None) /\
    @Stream_EnsureCapacity alloc_always 1 s = Crash Diverges.
Proof.
  eexists. split; [reflexivity|].
  apply (@Stream_EnsureCapacity_zero_diverges alloc_always 1); [reflexivity|lia].
Defined.

(** A refused allocation while growing a stream that does not own its buffer (as
    [Stream_StaticInit] makes them) is undefined behaviour: the copy to the new block
    comes before the test for [NULL]. *)
Theorem Stream_EnsureCapacity_unowned_oom `{Alloc} size s :
  wf s -> 0 < capacity s < size -> size <= 2 ^ 61 -> isOwner s = false ->
  (forall c, malloc_ok c = false) ->
  Stream_EnsureCapacity size s = Crash Undefined.
Proof.
  intros Hs Hc Hsz Ho Hm. destruct (ensure_capacity_grows size s Hs Hc Hsz) as (c & _ & ->).
  by rewrite Hm, Ho.
Qed.

Lemma Stream_EnsureCapacity_unowned_oom_witness :
  @Stream_EnsureCapacity alloc_never 9 (Stream_StaticInit [1; 2; 3]) = Crash Undefined.
Proof.
  apply (@Stream_EnsureCapacity_unowned_oom alloc_never).
  - apply readable_init; [by apply bytes_check|by vm_compute].
  - by vm_compute.
  - lia.
  - reflexivity.
  - reflexivity.
Defined.

(** Writing a 32-bit or 16-bit value and reading it back, in either byte order,
    returns the value and consumes exactly what was written, for every value of the
    type and every stream with room for it. *)
Theorem Stream_value_roundtrip v w s :
  is_u32 v -> is_u16 w -> wf s -> pointer s + 12 <= capacity s ->
  exists s',
    (Stream_Write_UINT32 v;; Stream_Write_UINT32_BE v;;
     Stream_Write_UINT16 w;; Stream_Write_UINT16_BE w) s = Ret tt s' /\
    capacity s' = capacity s /\
    reads_back s s'
      (a ← Stream_Read_UINT32; b ← Stream_Read_UINT32_BE;
       c ← Stream_Read_UINT16; d ← Stream_Read_UINT16_BE; mret (a, b, c, d))
      (v, v, w, w).
Proof.
  intros Hv Hw Hs Hc.
  assert (writes (Stream_Write_UINT32 v;; Stream_Write_UINT32_BE v;;
     Stream_Write_UINT16 w;; Stream_Write_UINT16_BE w)
    (winpr_Data_Write_UINT32 v ++ winpr_Data_Write_UINT32_BE v ++
     winpr_Data_Write_UINT16 w ++ winpr_Data_Write_UINT16_BE w)) as [Hb Hwr].
  { do 3 (apply writes_seq; [auto with writes|]). auto with writes. }
  eexists. split; [by apply Hwr|]. split; [done|].
  eapply parses_reads_back; [|done|by apply appended_put].
  rewrite <- (app_nil_r (winpr_Data_Write_UINT16_BE w)).
  do 4 (eapply parses_bind; [auto with writes|]). apply parses_ret.
Qed.

Lemma Stream_value_roundtrip_witness :
  exists s',
    (Stream_Write_UINT32 0x12345678;; Stream_Write_UINT32_BE 0x12345678;;
     Stream_Write_UINT16 0xABCD;; Stream_Write_UINT16_BE 0xABCD) (fresh 12) = Ret tt s' /\
    capacity s' = 12 /\
    reads_back (fresh 12) s'
      (a ← Stream_Read_UINT32; b ← Stream_Read_UINT32_BE;
       c ← Stream_Read_UINT16; d ← Stream_Read_UINT16_BE; mret (a, b, c, d))
      (0x12345678, 0x12345678, 0xABCD, 0xABCD).
Proof.
  apply (Stream_value_roundtrip 0x12345678 0xABCD (fresh 12)).
  - by vm_compute.
  - by vm_compute.
  - apply wf_fresh. lia.
  - by vm_compute.
Defined.
