(* ===== verification/Per.v ===== *)
(** * ASN.1 packed encoding rules

    Model of [libfreerdp/crypto/per.c], the primitives with which the MCS and GCC layers
    encode their PDUs: lengths, choices, integers, enumerations, object identifiers,
    octet and numeric strings.  A reader returns the value the C function stores through
    its result pointer; a [FALSE] is [Fail]. *)

From S2P Require Import Prelude Stream.

(** ** Lengths *)

Definition per_read_length : M wStream Z :=
  Stream_CheckAndLogRequiredLength 1;;
  byte ← Stream_Read_UINT8;
  if negb (Z.land byte 0x80 =? 0) then
    Stream_CheckAndLogRequiredLength 1;;
    let byte' := Z.land byte 0x7F in
    length ← asserting_cast u16 (Z.shiftl byte' 8);
    byte2 ← Stream_Read_UINT8;
    mret (u16 (length + byte2))
  else mret byte.

Definition per_write_length `{Alloc} (length : Z) : M wStream unit :=
  if 0x7F <? length then
    Stream_EnsureRemainingCapacity 2;;
    Stream_Write_UINT16_BE (Z.lor length 0x8000)
  else
    Stream_EnsureRemainingCapacity 1;;
    Stream_Write_UINT8 (u8 length).

(** ** Single octets *)

Definition per_read_choice : M wStream Z :=
  Stream_CheckAndLogRequiredLength 1;; Stream_Read_UINT8.

Definition per_write_choice `{Alloc} (choice : Z) : M wStream unit :=
  Stream_EnsureRemainingCapacity 1;; Stream_Write_UINT8 choice.

Definition per_read_selection : M wStream Z :=
  Stream_CheckAndLogRequiredLength 1;; Stream_Read_UINT8.

Definition per_write_selection `{Alloc} (selection : Z) : M wStream unit :=
  Stream_EnsureRemainingCapacity 1;; Stream_Write_UINT8 selection.

Definition per_read_number_of_sets : M wStream Z :=
  Stream_CheckAndLogRequiredLength 1;; Stream_Read_UINT8.

Definition per_write_number_of_sets `{Alloc} (number : Z) : M wStream unit :=
  Stream_EnsureRemainingCapacity 1;; Stream_Write_UINT8 number.

Definition per_read_padding (length : Z) : M wStream unit :=
  Stream_CheckAndLogRequiredLength length;; Stream_Seek length.

Definition per_write_padding `{Alloc} (length : Z) : M wStream unit :=
  Stream_EnsureRemainingCapacity length;; Stream_Zero length.

(** ** Integers *)

Definition per_read_integer : M wStream Z :=
  length ← per_read_length;
  Stream_CheckAndLogRequiredLength length;;
  if length =? 0 then mret 0
  else if length =? 1 then Stream_Read_UINT8
  else if length =? 2 then Stream_Read_UINT16_BE
  else failure.

Definition per_write_integer `{Alloc} (integer : Z) : M wStream unit :=
  if integer <=? UINT8_MAX then
    per_write_length 1;;
    Stream_EnsureRemainingCapacity 1;;
    v ← asserting_cast u8 integer; Stream_Write_UINT8 v
  else if integer <=? UINT16_MAX then
    per_write_length 2;;
    Stream_EnsureRemainingCapacity 2;;
    v ← asserting_cast u16 integer; Stream_Write_UINT16_BE v
  else if integer <=? UINT32_MAX then
    per_write_length 4;;
    Stream_EnsureRemainingCapacity 4;;
    Stream_Write_UINT32_BE integer
  else mret tt.

Definition per_read_integer16 (min : Z) : M wStream Z :=
  Stream_CheckAndLogRequiredLength 2;;
  integer ← Stream_Read_UINT16_BE;
  if UINT16_MAX - min <? integer then failure
  else mret (u16 (integer + min)).

Definition per_write_integer16 `{Alloc} (integer min : Z) : M wStream unit :=
  if integer <? min then failure
  else
    Stream_EnsureRemainingCapacity 2;;
    Stream_Write_UINT16_BE (integer - min).

Definition per_read_enumerated (count : Z) : M wStream Z :=
  Stream_CheckAndLogRequiredLength 1;;
  enumerated ← Stream_Read_UINT8;
  if count <? enumerated + 1 then failure else mret enumerated.

Definition per_write_enumerated `{Alloc} (enumerated count : Z) : M wStream unit :=
  Stream_EnsureRemainingCapacity 1;; Stream_Write_UINT8 enumerated.

(** ** Object identifiers and strings *)

(** [memcmp] over [length] bytes; a shorter operand is read past its end. *)
Definition per_check_oid_and_log_mismatch (got expect : list Z) (length : Z) : M wStream unit :=
  if (zlen got <? length) || (zlen expect <? length) then crash Undefined
  else guard (bool_decide (ztake length got = ztake length expect)).

Definition per_read_object_identifier (oid : list Z) : M wStream unit :=
  length ← per_read_length;
  if negb (length =? 5) then failure
  else
    Stream_CheckAndLogRequiredLength length;;
    t12 ← Stream_Read_UINT8;
    a2 ← Stream_Read_UINT8;
    a3 ← Stream_Read_UINT8;
    a4 ← Stream_Read_UINT8;
    a5 ← Stream_Read_UINT8;
    per_check_oid_and_log_mismatch [t12 / 40; t12 mod 40; a2; a3; a4; a5] oid 6.

Definition per_write_object_identifier `{Alloc} (oid : list Z) : M wStream unit :=
  let t12 := u8 (nth 0 oid 0 * 40 + nth 1 oid 0) in
  Stream_EnsureRemainingCapacity 6;;
  Stream_Write_UINT8 5;;
  Stream_Write_UINT8 t12;;
  Stream_Write_UINT8 (nth 2 oid 0);;
  Stream_Write_UINT8 (nth 3 oid 0);;
  Stream_Write_UINT8 (nth 4 oid 0);;
  Stream_Write_UINT8 (nth 5 oid 0).

Definition per_read_octet_string (oct_str : list Z) (length min : Z) : M wStream unit :=
  mlength ← per_read_length;
  if negb (mlength + min =? length) then failure
  else
    Stream_CheckAndLogRequiredLength length;;
    a_oct_str ← load length;
    Stream_Seek length;;
    per_check_oid_and_log_mismatch a_oct_str oct_str length.

(** [for (i = 0; i < length; i++) Stream_Write_UINT8 (s, oct_str[i]);] *)
Fixpoint write_octets (oct_str : list Z) (length : nat) : M wStream unit :=
  match length, oct_str with
  | O, _ => mret tt
  | S n, b :: r => Stream_Write_UINT8 b;; write_octets r n
  | S _, [] => crash Undefined
  end.

Definition per_write_octet_string `{Alloc} (oct_str : list Z) (length min : Z) :
    M wStream unit :=
  let mlength := if min <=? length then length - min else min in
  per_write_length mlength;;
  Stream_EnsureRemainingCapacity length;;
  write_octets oct_str (Z.to_nat length).

Definition per_read_numeric_string (min : Z) : M wStream unit :=
  mlength ← per_read_length;
  let length := (mlength + min + 1) / 2 in
  Stream_CheckAndLogRequiredLength length;;
  Stream_Seek length.

(** One round of the packing loop: two decimal digits into one octet. *)
Definition pack_digits (num_str : list Z) (length i : Z) : M wStream unit :=
  match num_str !! Z.to_nat i with
  | None => crash Undefined
  | Some c1 =>
      c2 ← (if i + 1 <? length then
              match num_str !! Z.to_nat (i + 1) with
              | None => crash Undefined
              | Some c => mret c
              end
            else mret 0x30);
      if (c1 <? 0x30) || (c2 <? 0x30) then failure
      else
        let d1 := (c1 - 0x30) mod 10 in
        let d2 := (c2 - 0x30) mod 10 in
        num ← asserting_cast u8 (Z.lor (Z.shiftl d1 4) d2);
        Stream_Write_UINT8 num
  end.

(** [for (UINT16 i = 0; i < length; i += 2)], with an index of 16 bits *)
Fixpoint numeric_loop (fuel : nat) (num_str : list Z) (length i : Z) : M wStream unit :=
  if i <? length then
    match fuel with
    | O => crash Diverges
    | S f => pack_digits num_str length i;; numeric_loop f num_str length (u16 (i + 2))
    end
  else mret tt.

(** Every round that goes on stores an octet, so there is one round at most for each cell
    that is left, and one that finds none. *)
Definition numeric_fuel (s : wStream) : nat := S (Z.to_nat (capacity s - pointer s)).

Definition per_write_numeric_string `{Alloc} (num_str : list Z) (length min : Z) :
    M wStream unit :=
  let mlength := if min <=? length then length - min else min in
  per_write_length mlength;;
  Stream_EnsureRemainingCapacity length;;
  s ← get;
  numeric_loop (numeric_fuel s) num_str length 0.

(** ** Safety of the readers *)

Lemma land_7F_range b : is_byte b -> 0 <= Z.land b 0x7F < 128.
Proof. intros. rewrite (land_mask b 7) by done. apply Z.mod_pos_bound. lia. Qed.

Lemma per_read_length_safe : safe_reader is_u16 per_read_length.
Proof.
  intros s Hs. unfold per_read_length. repeat reader_step.
  - apply wp_asserting_cast.
    + pose proof (land_7F_range b H0). rewrite Z.shiftl_mul_pow2 by lia. word_lia.
    + reader_run. split; [|reader_step]. word_lia.
  - split; [word_lia|reader_step].
Qed.
#[export] Hint Resolve per_read_length_safe : stream.

Lemma check_oid_wp got expect n Q F s :
  n <= zlen got -> n <= zlen expect -> Q tt s -> F s ->
  wp (per_check_oid_and_log_mismatch got expect n) Q F s.
Proof.
  intros. unfold per_check_oid_and_log_mismatch.
  rewrite (proj2 (Z.ltb_ge _ _)), (proj2 (Z.ltb_ge _ _)) by lia. simpl.
  apply wp_guard; auto.
Qed.

Lemma per_octet_readers_safe :
  safe_reader is_byte per_read_choice /\ safe_reader is_byte per_read_selection /\
  safe_reader is_byte per_read_number_of_sets.
Proof.
  repeat split; intros s Hs;
    unfold per_read_choice, per_read_selection, per_read_number_of_sets;
    reader_run; (split; [done|reader_step]).
Qed.

Lemma per_read_integer_safe : safe_reader is_u32 per_read_integer.
Proof.
  intros s Hs. unfold per_read_integer. reader_run.
  all: split; [word_lia|reader_step].
Qed.

Lemma per_read_integer16_safe min : is_u16 min -> safe_reader is_u16 (per_read_integer16 min).
Proof.
  intros Hm s Hs. unfold per_read_integer16. reader_run.
  split; [word_lia|reader_step].
Qed.

Lemma per_read_enumerated_safe count :
  safe_reader (fun e => is_byte e /\ e < count) (per_read_enumerated count).
Proof. intros s Hs. unfold per_read_enumerated. reader_run. split; [split; [done|lia]|reader_step]. Qed.

Lemma per_read_padding_safe n : 0 <= n -> safe_reader (fun _ => True) (per_read_padding n).
Proof. intros Hn s Hs. unfold per_read_padding. reader_run. split; [done|reader_step]. Qed.

Lemma per_read_oid_safe oid :
  6 <= zlen oid -> safe_reader (fun _ => True) (per_read_object_identifier oid).
Proof.
  intros Ho s Hs. unfold per_read_object_identifier. reader_run.
  apply check_oid_wp; [by vm_compute|lia| |]; try (split; [done|]); reader_step.
Qed.

Lemma per_read_octet_string_safe oct_str n min :
  0 <= n <= zlen oct_str -> safe_reader (fun _ => True) (per_read_octet_string oct_str n min).
Proof.
  intros Ho s Hs. unfold per_read_octet_string. reader_run.
  apply check_oid_wp; [lia|lia|split; [done|]|]; reader_step.
Qed.

Lemma per_read_numeric_string_safe min :
  is_u16 min -> safe_reader (fun _ => True) (per_read_numeric_string min).
Proof.
  intros Hm s Hs. unfold per_read_numeric_string. reader_run.
  split; [done|reader_step].
Qed.

(** ** What the writers produce *)

Definition per_length_bytes (v : Z) : list Z :=
  if 0x7F <? v then winpr_Data_Write_UINT16_BE (Z.lor v 0x8000) else [v].

(** the length a reader recovers from [per_length_bytes v] *)
Definition per_length_value (v : Z) : Z := if v <? 128 then v else v mod 32768.

Definition per_integer_bytes (v : Z) : list Z :=
  if v <=? UINT8_MAX then [1; v]
  else if v <=? UINT16_MAX then 2 :: winpr_Data_Write_UINT16_BE v
  else 4 :: winpr_Data_Write_UINT32_BE v.

Section Writers.
Context `{AllocOk}.

Lemma appends_per_length v : is_u16 v -> appends 1 (per_write_length v) (per_length_bytes v).
Proof.
  intros Hv. unfold per_write_length, per_length_bytes.
  assert (is_u16 (Z.lor v 0x8000)) by (rewrite lor_8000 by done; word_lia).
  zcase; apply appends_ensure; auto with writes; try by vm_compute.
  unfold u8. rewrite Z.mod_small by word_lia. apply writes_u8. word_lia.
Qed.

Lemma appends_per_integer v : is_u32 v -> appends 2 (per_write_integer v) (per_integer_bytes v).
Proof.
  intros Hv. unfold per_write_integer, per_integer_bytes.
  assert (forall w u m bs, w u = u -> writes (m u) bs ->
    writes (v ← asserting_cast w u; m v) bs) as Hcast.
  { intros w u m bs Hw [Hb Hm]. split; [done|]. intros s Hs Hc.
    rewrite (bind_ret_eq _ _ s _ _ (asserting_cast_eq w u s Hw)). by apply Hm. }
  zcase; [|zcase; [|rewrite (proj2 (Z.leb_le _ _)) by word_lia]].
  - apply (appends_seq 1 1 _ _ [1] [v]).
    + by apply (appends_per_length 1).
    + apply appends_ensure; [|by vm_compute]. apply Hcast; [word_lia|].
      apply writes_u8. word_lia.
  - apply (appends_seq 1 1 _ _ [2]); [by apply (appends_per_length 2)|].
    apply appends_ensure; [|by vm_compute]. apply Hcast; [word_lia|].
    apply writes_u16_be. word_lia.
  - apply (appends_seq 1 1 _ _ [4]); [by apply (appends_per_length 4)|].
    apply appends_ensure; [|by vm_compute]. by apply writes_u32_be.
Qed.

Lemma appends_per_integer16 v min :
  is_u16 v -> 0 <= min <= v ->
  appends 1 (per_write_integer16 v min) (winpr_Data_Write_UINT16_BE (v - min)).
Proof.
  intros Hv Hm. unfold per_write_integer16. rewrite (proj2 (Z.ltb_ge _ _)) by lia.
  apply appends_ensure; [|by vm_compute]. apply writes_u16_be. word_lia.
Qed.

Lemma writes_octets l : bytes l -> writes (write_octets l (length l)) l.
Proof.
  induction 1 as [|b l Hb Hl IH]; [apply writes_ret|]. simpl.
  apply (writes_seq _ _ [b] l); auto with writes.
Qed.

Lemma appends_per_octet_string l min :
  bytes l -> zlen l <= 65535 -> 0 <= min <= zlen l ->
  appends 2 (per_write_octet_string l (zlen l) min) (per_length_bytes (zlen l - min) ++ l).
Proof.
  intros Hl Hn Hm. unfold per_write_octet_string.
  rewrite (proj2 (Z.leb_le _ _)) by lia.
  apply (appends_seq 1 1); [apply appends_per_length; word_lia|].
  apply appends_ensure; [|lia]. unfold zlen. rewrite Nat2Z.id. by apply writes_octets.
Qed.

Definition oid_bytes (oid : list Z) : list Z :=
  [5; nth 0 oid 0 * 40 + nth 1 oid 0; nth 2 oid 0; nth 3 oid 0; nth 4 oid 0; nth 5 oid 0].

(** The identifiers the encoding can carry: six components, the first two packed. *)
Definition oid_ok (oid : list Z) : Prop :=
  bytes oid /\ zlen oid = 6 /\ nth 1 oid 0 < 40 /\ nth 0 oid 0 * 40 + nth 1 oid 0 < 256.

Lemma appends_per_oid oid :
  oid_ok oid -> appends 1 (per_write_object_identifier oid) (oid_bytes oid).
Proof.
  intros (Hb & Hl & H40 & H256). apply zlen_length in Hl.
  destruct oid as [|a [|b [|c [|d [|e [|f [|]]]]]]]; try done. bytes_inv. simpl in *.
  unfold per_write_object_identifier, oid_bytes. simpl.
  apply appends_ensure; [|by vm_compute].
  unfold u8. rewrite Z.mod_small by word_lia.
  repeat first [apply writes_u8; word_lia | apply writes_u8_seq; [word_lia|]].
Qed.
End Writers.

(** ** What the readers make of it *)

Lemma parses_per_length v :
  is_u16 v -> parses per_read_length (per_length_bytes v) (per_length_value v).
Proof.
  intros Hv. unfold per_read_length, per_length_bytes, per_length_value.
  apply parses_check; [zcase; by vm_compute|]. zcase.
  - rewrite lor_8000 by done. rewrite (proj2 (Z.ltb_ge _ _)) by lia.
    rewrite Write_UINT16_BE_eq. set (hi := _ / 256 mod 256). set (lo := _ mod 256).
    assert (128 <= hi < 256) by (unfold hi; word_lia).
    apply parses_u8_bind.
    rewrite land_80 by word_lia. rewrite (proj2 (Z.ltb_ge _ _)) by lia. simpl.
    apply parses_check; [by vm_compute|].
    rewrite (land_mask hi 7), Z.shiftl_mul_pow2 by done.
    intros s tl Hs Hr. erewrite bind_ret_eq by (apply asserting_cast_eq; word_lia).
    revert s tl Hs Hr. apply parses_u8_bind.
    replace (v mod 32768) with (u16 (hi mod 2 ^ 7 * 2 ^ 8 + lo)); [apply parses_ret|].
    unfold hi, lo. word_lia.
  - rewrite (proj2 (Z.ltb_lt _ _)) by lia.
    apply parses_u8_bind.
    rewrite land_80 by word_lia. rewrite (proj2 (Z.ltb_lt _ _)) by lia. apply parses_ret.
Qed.

Lemma parses_per_small n : 0 <= n < 128 -> parses per_read_length [n] n.
Proof.
  intros Hn. pose proof (parses_per_length n ltac:(word_lia)) as Hp.
  unfold per_length_bytes, per_length_value in Hp.
  rewrite (proj2 (Z.ltb_ge _ _)), (proj2 (Z.ltb_lt _ _)) in Hp by lia. done.
Qed.

Lemma parses_per_integer v :
  0 <= v <= UINT16_MAX -> parses per_read_integer (per_integer_bytes v) v.
Proof.
  intros Hv. unfold per_read_integer, per_integer_bytes. zcase.
  - apply (parses_bind _ _ [1] [v] 1); [by apply parses_per_small|].
    apply parses_check; [by vm_compute|]. apply parses_u8.
  - rewrite (proj2 (Z.leb_le _ _)) by lia.
    apply (parses_bind _ _ [2] _ 2); [by apply parses_per_small|].
    apply parses_check; [by vm_compute|]. apply parses_u16_be. word_lia.
Qed.

Lemma parses_per_integer16 v min :
  is_u16 v -> 0 <= min <= v ->
  parses (per_read_integer16 min) (winpr_Data_Write_UINT16_BE (v - min)) v.
Proof.
  intros Hv Hm. unfold per_read_integer16. apply parses_check; [by vm_compute|].
  rewrite <- (app_nil_r (winpr_Data_Write_UINT16_BE _)).
  apply (parses_bind _ _ _ [] (v - min)); [apply parses_u16_be; word_lia|].
  rewrite (proj2 (Z.ltb_ge _ _)) by word_lia.
  replace v with (u16 (v - min + min)) at 2 by word_lia. apply parses_ret.
Qed.

Lemma check_oid_same l n :
  n = zlen l -> parses (per_check_oid_and_log_mismatch l l n) [] tt.
Proof.
  intros -> s tl Hs Hr. unfold per_check_oid_and_log_mismatch.
  rewrite Z.ltb_irrefl. simpl. rewrite bool_decide_true by done.
  by rewrite zlen_nil, advance_0.
Qed.

Lemma parses_load {A} n bs (m : list Z -> M wStream A) v :
  zlen bs = n -> parses (m bs) bs v -> parses (load n ≫= m) bs v.
Proof.
  intros Hn H s tl Hs Hr. pose proof (rem_parses s bs tl Hs Hr). pose proof (zlen_nonneg bs).
  rewrite (bind_ret_eq _ _ s (ztake n (rest s)) s) by (apply load_eq; [done|lia]).
  rewrite Hr, ztake_app_le, ztake_all by lia. by apply (H s tl).
Qed.

Lemma parses_per_octet_string l min :
  zlen l - min < 32768 -> 0 <= min <= zlen l ->
  parses (per_read_octet_string l (zlen l) min) (per_length_bytes (zlen l - min) ++ l) tt.
Proof.
  intros Hl Hm. unfold per_read_octet_string.
  eapply (parses_bind _ _ _ l (zlen l - min)).
  - replace (zlen l - min) with (per_length_value (zlen l - min)) at 2.
    + apply parses_per_length. word_lia.
    + unfold per_length_value. zcase; [done|]. rewrite Z.mod_small; lia.
  - rewrite (proj2 (Z.eqb_eq _ _)) by lia. simpl. apply parses_check; [lia|].
    apply parses_load; [done|]. rewrite <- (app_nil_r l) at 2.
    apply (parses_bind _ _ l [] tt); [by apply parses_seek|]. by apply check_oid_same.
Qed.

Lemma parses_per_oid oid :
  oid_ok oid -> parses (per_read_object_identifier oid) (oid_bytes oid) tt.
Proof.
  intros (Hb & Hl & H40 & H256). apply zlen_length in Hl.
  destruct oid as [|a [|b [|c [|d [|e [|f [|]]]]]]]; try done. bytes_inv. simpl in *.
  unfold per_read_object_identifier, oid_bytes. simpl.
  apply (parses_bind _ _ [5] _ 5); [by apply parses_per_small|]. simpl.
  apply parses_check; [by vm_compute|].
  do 5 apply parses_u8_bind.
  replace ((a * 40 + b) / 40) with a by word_lia.
  replace ((a * 40 + b) mod 40) with b by word_lia. by apply check_oid_same.
Qed.

(** ** Numeric strings *)

(** a decimal digit as the code sees it: any octet from ['0'] on *)
Definition is_digit (c : Z) : Prop := 0x30 <= c < 256.

Fixpoint pack_bytes (l : list Z) : list Z :=
  match l with
  | [] => []
  | [a] => [(a - 0x30) mod 10 * 16]
  | a :: b :: r => ((a - 0x30) mod 10 * 16 + (b - 0x30) mod 10) :: pack_bytes r
  end.

Lemma pack_digits_eq full n i a c2 s :
  full !! Z.to_nat i = Some a -> is_digit a -> is_digit c2 ->
  (if i + 1 <? n then full !! Z.to_nat (i + 1) else Some 0x30) = Some c2 ->
  pack_digits full n i s =
  Stream_Write_UINT8 ((a - 0x30) mod 10 * 16 + (c2 - 0x30) mod 10) s.
Proof.
  intros Ha Hda Hdc Hc. unfold is_digit in *. unfold pack_digits. rewrite Ha.
  erewrite bind_ret_eq.
  2: { instantiate (1 := s). instantiate (1 := c2).
       destruct (i + 1 <? n); [by rewrite Hc|]. by injection Hc as <-. }
  rewrite (proj2 (Z.ltb_ge a _)), (proj2 (Z.ltb_ge c2 _)) by lia. simpl.
  rewrite lor_shiftl_add by word_lia.
  by erewrite bind_ret_eq by (apply asserting_cast_eq; word_lia).
Qed.

Lemma pack_digits_at full n i a c2 :
  full !! Z.to_nat i = Some a -> is_digit a -> is_digit c2 ->
  (if i + 1 <? n then full !! Z.to_nat (i + 1) else Some 0x30) = Some c2 ->
  writes (pack_digits full n i) [(a - 0x30) mod 10 * 16 + (c2 - 0x30) mod 10].
Proof.
  intros Ha Hda Hdc Hc.
  assert (is_byte ((a - 48) mod 10 * 16 + (c2 - 48) mod 10)) as Hb
    by (unfold is_digit in *; word_lia).
  split; [by apply Forall_cons_2|]. intros s Hs Hcap. erewrite pack_digits_eq by done.
  by apply writes_u8.
Qed.

Lemma numeric_loop_writes fuel full pre l i :
  full = pre ++ l -> i = zlen pre -> i mod 2 = 0 -> zlen full < 65535 -> Forall is_digit l ->
  zlen l <= 2 * Z.of_nat fuel ->
  writes (numeric_loop fuel full (zlen full) i) (pack_bytes l).
Proof.
  revert pre l i. induction fuel as [|f IH]; intros pre l i Hf Hi Hev Hlen Hd Hfuel.
  - assert (l = []) as -> by (apply zlen_zero_inv; pose proof (zlen_nonneg l); lia).
    rewrite app_nil_r in Hf. subst. simpl. rewrite Z.ltb_irrefl. apply writes_ret.
  - assert (zlen full = i + zlen l) as Hfl by (subst; apply zlen_app).
    destruct l as [|a l]; simpl.
    { rewrite zlen_nil in Hfl. rewrite (proj2 (Z.ltb_ge _ _)) by lia. apply writes_ret. }
    pose proof (zlen_nonneg pre). pose proof (zlen_nonneg l). rewrite zlen_cons in *.
    rewrite (proj2 (Z.ltb_lt _ _)) by lia. apply Forall_cons_1 in Hd as [Ha Hd].
    assert (full !! Z.to_nat i = Some a) as Hga.
    { subst. unfold zlen. rewrite Nat2Z.id. by apply list_lookup_middle. }
    destruct l as [|b r]; rewrite ?zlen_cons, ?zlen_nil in *.
    + rewrite <- (app_nil_r [_]). apply writes_seq.
      * replace ((a - 48) mod 10 * 16) with ((a - 48) mod 10 * 16 + (0x30 - 0x30) mod 10)
          by (change ((0x30 - 0x30) mod 10) with 0; lia).
        apply pack_digits_at; auto; [unfold is_digit; lia|].
        by rewrite (proj2 (Z.ltb_ge _ _)) by lia.
      * replace (u16 (i + 2)) with (i + 2) by word_lia.
        destruct f; simpl; rewrite (proj2 (Z.ltb_ge _ _)) by lia; apply writes_ret.
    + apply Forall_cons_1 in Hd as [Hb Hd]. pose proof (zlen_nonneg r).
      apply (writes_seq _ _ [_] (pack_bytes r)).
      * apply pack_digits_at; auto. rewrite (proj2 (Z.ltb_lt _ _)) by lia.
        subst. replace (pre ++ a :: b :: r) with ((pre ++ [a]) ++ b :: r)
          by (by rewrite <- app_assoc).
        apply list_lookup_middle. rewrite length_app. unfold zlen. simpl. lia.
      * replace (u16 (i + 2)) with (i + 2) by word_lia.
        apply (IH (pre ++ [a; b]) r); auto; try lia.
        -- by rewrite <- app_assoc.
        -- rewrite zlen_app, !zlen_cons, zlen_nil. lia.
        -- word_lia.
Qed.

Lemma zlen_pack_bytes l : zlen (pack_bytes l) = (zlen l + 1) / 2.
Proof.
  induction l as [l IH] using (induction_ltof1 _ (@length Z)). unfold ltof in IH.
  destruct l as [|a [|b r]]; [done|done|]. simpl. rewrite !zlen_cons, IH by (simpl; lia).
  replace (zlen r + 1 + 1 + 1) with (zlen r + 1 + 1 * 2) by lia.
  by rewrite Z.div_add by lia.
Qed.

Lemma appends_per_numeric_string `{AllocOk} l min :
  Forall is_digit l -> zlen l < 65535 -> 0 <= min <= zlen l ->
  appends 2 (per_write_numeric_string l (zlen l) min)
    (per_length_bytes (zlen l - min) ++ pack_bytes l).
Proof.
  intros Hd Hl Hm. unfold per_write_numeric_string. rewrite (proj2 (Z.leb_le _ _)) by lia.
  apply (appends_seq 1 1); [apply appends_per_length; word_lia|].
  assert (Hp := zlen_pack_bytes l). apply appends_ensure; [|rewrite Hp; word_lia].
  assert (writes (numeric_loop (Z.to_nat (zlen l)) l (zlen l) 0) (pack_bytes l)) as [Hb _]
    by (apply (numeric_loop_writes _ l [] l 0); auto; lia).
  split; [done|]. intros s Hs Hc. rewrite get_bind.
  apply (numeric_loop_writes _ l [] l 0); auto. unfold numeric_fuel. word_lia.
Qed.

Lemma parses_per_numeric_string l min :
  zlen l - min < 32768 -> 0 <= min <= zlen l ->
  parses (per_read_numeric_string min) (per_length_bytes (zlen l - min) ++ pack_bytes l) tt.
Proof.
  intros Hl Hm. unfold per_read_numeric_string.
  eapply (parses_bind _ _ _ (pack_bytes l) (zlen l - min)).
  - replace (zlen l - min) with (per_length_value (zlen l - min)) at 2.
    + apply parses_per_length. word_lia.
    + unfold per_length_value. zcase; [done|]. rewrite Z.mod_small; lia.
  - replace ((zlen l - min + min + 1) / 2) with (zlen (pack_bytes l)).
    + apply parses_check; [lia|]. by apply parses_seek.
    + rewrite zlen_pack_bytes. f_equal. lia.
Qed.

(** A digit string of 65535 characters: the 16-bit index never reaches the end, and the
    loop goes on until the stream is full. *)
Lemma numeric_loop_overruns fuel num_str i s :
  zlen num_str = 65535 -> Forall is_digit num_str -> 0 <= i < 65535 -> i mod 2 = 0 ->
  wf s -> capacity s - pointer s < Z.of_nat fuel ->
  numeric_loop fuel num_str 65535 i s = Crash AssertFailed.
Proof.
  intros Hl Hd. revert i s. induction fuel as [|n IH]; intros i s Hi Hev Hs Hf;
    [destruct Hs; lia|].
  simpl. rewrite (proj2 (Z.ltb_lt _ _)) by lia.
  assert (forall j, 0 <= j < 65535 -> exists c, num_str !! Z.to_nat j = Some c /\ is_digit c)
    as Hget.
  { intros j Hj. destruct (lookup_lt_is_Some_2 num_str (Z.to_nat j)) as [c Hc].
    - unfold zlen in Hl. lia.
    - exists c. split; [done|]. by eapply Forall_lookup_1. }
  destruct (Hget i Hi) as (a & Ha & Hda).
  assert (exists c2, (if i + 1 <? 65535 then num_str !! Z.to_nat (i + 1) else Some 0x30) = Some c2
    /\ is_digit c2) as (c2 & Hc & Hdc).
  { zcase; [apply Hget; lia|]. exists 0x30. split; [done|unfold is_digit; lia]. }
  set (v := (a - 0x30) mod 10 * 16 + (c2 - 0x30) mod 10).
  assert (is_byte v) as Hv by (unfold v, is_digit in *; word_lia).
  destruct (Z.lt_ge_cases (pointer s) (capacity s)).
  - assert (pointer s + zlen [v] <= capacity s) by (rewrite zlen_cons, zlen_nil; lia).
    erewrite bind_ret_eq by (by eapply pack_digits_at).
    apply IH; [word_lia|word_lia| |].
    + apply wf_put; [done|by apply Forall_cons_2|done].
    + rewrite capacity_put. simpl. rewrite zlen_cons, zlen_nil. lia.
  - erewrite bind_crash_eq; [done|]. erewrite pack_digits_eq by done.
    apply write_u8_full; [done|done|lia].
Qed.

(** ** The promises of the codec *)

(** Every PER reader is memory safe on arbitrary input: whatever the bytes of a
    well-formed stream, it neither fails an assertion nor reads outside the data, it
    leaves the stream positioned inside the data (also when it returns [FALSE]), and
    the value it returns is in the range of its type. *)
Theorem per_readers_safe oid oct_str n min count :
  6 <= zlen oid -> 0 <= n <= zlen oct_str -> is_u16 min ->
  safe_reader is_u16 per_read_length /\
  (safe_reader is_byte per_read_choice /\ safe_reader is_byte per_read_selection /\
   safe_reader is_byte per_read_number_of_sets) /\
  safe_reader is_u32 per_read_integer /\
  safe_reader is_u16 (per_read_integer16 min) /\
  safe_reader (fun e => is_byte e /\ e < count) (per_read_enumerated count) /\
  safe_reader (fun _ => True) (per_read_padding n) /\
  safe_reader (fun _ => True) (per_read_object_identifier oid) /\
  safe_reader (fun _ => True) (per_read_octet_string oct_str n min) /\
  safe_reader (fun _ => True) (per_read_numeric_string min).
Proof.
  intros Ho Hn Hm.
  pose proof (per_read_padding_safe n ltac:(lia)).
  auto 20 using per_read_length_safe, per_octet_readers_safe, per_read_integer_safe,
    per_read_integer16_safe, per_read_enumerated_safe, per_read_oid_safe,
    per_read_octet_string_safe, per_read_numeric_string_safe.
Qed.

Lemma per_readers_safe_witness :
  safe_reader is_u32 per_read_integer /\
  safe_reader (fun _ => True) (per_read_object_identifier [0; 0; 20; 124; 0; 1]).
Proof.
  destruct (per_readers_safe [0; 0; 20; 124; 0; 1] [0x44; 0x75] 2 1 3) as (_ & _ & H & _ & _ & _ & I & _).
  - by vm_compute.
  - by vm_compute.
  - by vm_compute.
  - exact (conj H I).
Defined.

(** A PER length written to any growable stream reads back as itself below 32768;
    from 32768 on, the length a reader recovers has lost its high bit, which the
    two-octet form uses as its marker. *)
Theorem per_length_roundtrip `{AllocOk} v s :
  is_u16 v -> writable s ->
  exists s', per_write_length v s = Ret tt s' /\
    reads_back s s' per_read_length (if v <? 32768 then v else v - 32768).
Proof.
  intros Hv Hs.
  destruct (appends_reads_back 1 _ _ per_read_length (per_length_value v) s ltac:(lia)
    (appends_per_length v Hv) (parses_per_length v Hv) Hs) as (s' & E & _ & R).
  exists s'. split; [done|].
  replace (if v <? 32768 then v else v - 32768) with (per_length_value v); [done|].
  unfold per_length_value. unfold is_u16 in Hv. repeat zcase; try lia; word_lia.
Qed.

Lemma per_length_roundtrip_witness :
  exists s', @per_write_length alloc_always 40000 (fresh 1) = Ret tt s' /\
    reads_back (fresh 1) s' per_read_length 7232.
Proof.
  apply (@per_length_roundtrip alloc_always alloc_always_ok 40000 (fresh 1)).
  - by vm_compute.
  - apply writable_fresh. lia.
Defined.

(** A PER integer up to 65535 written to any growable stream reads back as itself,
    and the reader consumes exactly the encoding. *)
Theorem per_integer_roundtrip `{AllocOk} v s :
  0 <= v <= UINT16_MAX -> writable s ->
  exists s', per_write_integer v s = Ret tt s' /\ reads_back s s' per_read_integer v.
Proof.
  intros Hv Hs.
  destruct (appends_reads_back 2 _ _ per_read_integer v s ltac:(lia)
    (appends_per_integer v ltac:(word_lia)) (parses_per_integer v Hv) Hs) as (s' & E & _ & R).
  eauto.
Qed.

Lemma per_integer_roundtrip_witness :
  exists s', @per_write_integer alloc_always 1002 (fresh 2) = Ret tt s' /\
    reads_back (fresh 2) s' per_read_integer 1002.
Proof.
  apply (@per_integer_roundtrip alloc_always alloc_always_ok 1002 (fresh 2)).
  - by vm_compute.
  - apply writable_fresh. lia.
Defined.

(** An integer above 65535 is written successfully in a four-octet form that
    [per_read_integer] refuses: the reader returns [FALSE] on it. *)
Theorem per_integer_wide_not_readable `{AllocOk} v s :
  UINT16_MAX < v <= UINT32_MAX -> writable s ->
  exists s' r r', per_write_integer v s = Ret tt s' /\
    replay (pointer s) s' = Ret tt r /\ per_read_integer r = Fail r'.
Proof.
  intros Hv [Hs Hb].
  destruct (appends_per_integer v ltac:(word_lia) s 40 Hs Hb ltac:(lia)) as (s' & E & A & _).
  destruct (replay_spec s _ s' Hs A) as (r & Hr & Rd & Rest & _ & _).
  exists s', r, (advance 1 r). split; [done|]. split; [done|].
  unfold per_integer_bytes in Rest.
  rewrite (proj2 (Z.leb_gt v UINT8_MAX)), (proj2 (Z.leb_gt v UINT16_MAX)) in Rest by word_lia.
  unfold per_read_integer.
  rewrite (bind_ret_eq _ _ r 4 (advance 1 r)) by
    (apply (parses_per_small 4 ltac:(lia) r (winpr_Data_Write_UINT32_BE v)); done).
  assert (rem r = 5) as Hrem by (rewrite <- zlen_rest, Rest by done; by vm_compute).
  rewrite (bind_ret_eq _ _ _ tt (advance 1 r)); [done|].
  apply check_length_ok; [apply readable_advance; [done|lia]|]. rewrite rem_advance. lia.
Qed.

Lemma per_integer_wide_not_readable_witness :
  exists s' r r', @per_write_integer alloc_always 65536 (fresh 8) = Ret tt s' /\
    replay 0 s' = Ret tt r /\ per_read_integer r = Fail r'.
Proof.
  apply (@per_integer_wide_not_readable alloc_always alloc_always_ok 65536 (fresh 8)).
  - by vm_compute.
  - apply writable_fresh. lia.
Defined.

(** A 16-bit PER integer with lower bound [min] reads back as itself, whatever the
    bound; a value below the bound is refused by the writer, which writes nothing. *)
Theorem per_integer16_roundtrip `{AllocOk} v min s :
  is_u16 v -> 0 <= min -> writable s ->
  if v <? min then per_write_integer16 v min s = Fail s
  else exists s', per_write_integer16 v min s = Ret tt s' /\
         reads_back s s' (per_read_integer16 min) v.
Proof.
  intros Hv Hm Hs. zcase.
  - unfold per_write_integer16. by rewrite (proj2 (Z.ltb_lt _ _)) by lia.
  - destruct (appends_reads_back 1 _ _ (per_read_integer16 min) v s ltac:(lia)
      (appends_per_integer16 v min Hv ltac:(lia)) (parses_per_integer16 v min Hv ltac:(lia)) Hs)
      as (s' & E & _ & R). eauto.
Qed.

Lemma per_integer16_roundtrip_witness :
  exists s', @per_write_integer16 alloc_always 1003 1001 (fresh 2) = Ret tt s' /\
    reads_back (fresh 2) s' (per_read_integer16 1001) 1003.
Proof.
  apply (@per_integer16_roundtrip alloc_always alloc_always_ok 1003 1001 (fresh 2)).
  - by vm_compute.
  - lia.
  - apply writable_fresh. lia.
Defined.

(** Strings and identifiers: an object identifier whose first two components fit one
    octet, and an octet string with its lower bound, are accepted by the matching reader,
    which compares them with the expected value and consumes exactly the encoding. *)
Theorem per_string_roundtrip `{AllocOk} oid l min s :
  oid_ok oid -> bytes l -> 0 <= min <= zlen l -> zlen l - min < 32768 -> zlen l <= 65535 ->
  writable s ->
  (exists s', per_write_object_identifier oid s = Ret tt s' /\
     reads_back s s' (per_read_object_identifier oid) tt) /\
  (exists s', per_write_octet_string l (zlen l) min s = Ret tt s' /\
     reads_back s s' (per_read_octet_string l (zlen l) min) tt).
Proof.
  intros Ho Hl Hm Hn Hmax Hs. split.
  - destruct (appends_reads_back 1 _ _ (per_read_object_identifier oid) tt s ltac:(lia)
      (appends_per_oid oid Ho) (parses_per_oid oid Ho) Hs) as (s' & E & _ & R). eauto.
  - destruct (appends_reads_back 2 _ _ (per_read_octet_string l (zlen l) min) tt s ltac:(lia)
      (appends_per_octet_string l min Hl Hmax Hm) (parses_per_octet_string l min Hn Hm) Hs)
      as (s' & E & _ & R). eauto.
Qed.

Lemma per_string_roundtrip_witness :
  (exists s', @per_write_object_identifier alloc_always [0; 0; 20; 124; 0; 1] (fresh 4) = Ret tt s' /\
     reads_back (fresh 4) s' (per_read_object_identifier [0; 0; 20; 124; 0; 1]) tt) /\
  (exists s', @per_write_octet_string alloc_always [0x44; 0x75; 0x63; 0x61] 4 4 (fresh 4) = Ret tt s' /\
     reads_back (fresh 4) s' (per_read_octet_string [0x44; 0x75; 0x63; 0x61] 4 4) tt).
Proof.
  apply (@per_string_roundtrip alloc_always alloc_always_ok [0; 0; 20; 124; 0; 1]
    [0x44; 0x75; 0x63; 0x61] 4 (fresh 4)).
  - split; [by apply bytes_check|]. by vm_compute.
  - by apply bytes_check.
  - by vm_compute.
  - by vm_compute.
  - by vm_compute.
  - apply writable_fresh. lia.
Defined.

(** A numeric string of up to 65534 digits is packed two digits to the octet, and
    [per_read_numeric_string] skips exactly the octets that were written. *)
Theorem per_numeric_string_roundtrip `{AllocOk} l min s :
  Forall is_digit l -> zlen l < 65535 -> 0 <= min <= zlen l -> zlen l - min < 32768 ->
  writable s ->
  exists s', per_write_numeric_string l (zlen l) min s = Ret tt s' /\
    appended s (per_length_bytes (zlen l - min) ++ pack_bytes l) s' /\
    reads_back s s' (per_read_numeric_string min) tt.
Proof.
  intros Hd Hl Hm Hn Hs.
  apply (appends_reads_back 2); [lia|by apply appends_per_numeric_string
    |by apply parses_per_numeric_string|done].
Qed.

Lemma per_numeric_string_roundtrip_witness :
  exists s', @per_write_numeric_string alloc_always [0x31] 1 1 (fresh 1) = Ret tt s' /\
    appended (fresh 1) [0; 0x10] s' /\ reads_back (fresh 1) s' (per_read_numeric_string 1) tt.
Proof.
  apply (@per_numeric_string_roundtrip alloc_always alloc_always_ok [0x31] 1 (fresh 1)).
  - apply Forall_cons_2; [by vm_compute|constructor].
  - by vm_compute.
  - by vm_compute.
  - by vm_compute.
  - apply writable_fresh. lia.
Defined.

(** [per_write_numeric_string] on a digit string of 65535 characters does not return:
    its 16-bit index steps from 65534 back to 0, and the loop goes on packing digits until
    the stream is full and the assertion of the writer stops the program, whatever room
    the stream had. *)
Theorem per_numeric_string_overruns `{AllocOk} num_str min s :
  zlen num_str = 65535 -> Forall is_digit num_str -> is_u16 min -> writable s ->
  per_write_numeric_string num_str 65535 min s = Crash AssertFailed.
Proof.
  intros Hl Hd Hm [Hs Hb]. unfold per_write_numeric_string. cbv zeta.
  rewrite (proj2 (Z.leb_le _ _)) by word_lia.
  destruct (appends_per_length (65535 - min) ltac:(word_lia) s 40 Hs Hb)
    as (s1 & E1 & (Hs1 & _) & _ & Hpos & Hcap); [lia|].
  rewrite (bind_ret_eq _ _ s _ _ E1).
  destruct (ensure_remaining_spec 65535 s1) as (s2 & E2 & (Hs2 & _) & _); [done|done|lia|lia|].
  rewrite (bind_ret_eq _ _ s1 _ _ E2).
  rewrite get_bind. apply numeric_loop_overruns; auto; [lia|].
  destruct Hs2. unfold numeric_fuel. lia.
Qed.

Lemma per_numeric_string_overruns_witness :
  @per_write_numeric_string alloc_always (zrepeat 65535 0x39) 65535 1 (fresh 4) =
  Crash AssertFailed.
Proof.
  apply (@per_numeric_string_overruns alloc_always alloc_always_ok).
  - by rewrite zlen_zrepeat.
  - apply Forall_zrepeat. by vm_compute.
  - by vm_compute.
  - apply writable_fresh. lia.
Defined.
