(* ===== verification/Ber.v ===== *)
(** * ASN.1 basic encoding rules

    Model of [libfreerdp/crypto/ber.c] and the constants of
    [include/freerdp/crypto/ber.h]: tags, definite lengths of up to two octets, integers,
    booleans, enumerations and octet strings, which the MCS Connect PDUs and CredSSP are
    built from.  The writers return the number of octets they claim to have written. *)

From S2P Require Import Prelude Stream Per.

(** ** Tag octets *)

Definition BER_CLASS_UNIV : Z := 0x00.
Definition BER_CLASS_APPL : Z := 0x40.
Definition BER_CLASS_CTXT : Z := 0x80.
Definition BER_PRIMITIVE : Z := 0x00.
Definition BER_CONSTRUCT : Z := 0x20.
Definition BER_TAG_MASK : Z := 0x1F.
Definition BER_TAG_BOOLEAN : Z := 0x01.
Definition BER_TAG_INTEGER : Z := 0x02.
Definition BER_TAG_BIT_STRING : Z := 0x03.
Definition BER_TAG_OCTET_STRING : Z := 0x04.
Definition BER_TAG_ENUMERATED : Z := 0x0A.
Definition BER_TAG_SEQUENCE : Z := 0x10.
Definition BER_TAG_SEQUENCE_OF : Z := 0x10.

Definition BER_PC (pc : bool) : Z := if pc then BER_CONSTRUCT else BER_PRIMITIVE.

(** ** Lengths *)

Definition ber_read_length : M wStream Z :=
  Stream_CheckAndLogRequiredLength 1;;
  byte ← Stream_Read_UINT8;
  if negb (Z.land byte 0x80 =? 0) then
    let byte' := Z.land byte 0x7F in
    Stream_CheckAndLogRequiredLength byte';;
    if byte' =? 1 then Stream_Read_UINT8
    else if byte' =? 2 then Stream_Read_UINT16_BE
    else failure
  else mret byte.

Definition ber_write_length (length : Z) : M wStream Z :=
  if 0xFF <? length then
    assert (length <=? UINT16_MAX);;
    r ← Stream_GetRemainingCapacity; assert (3 <=? r);;
    Stream_Write_UINT8 (Z.lxor 0x80 2);;
    Stream_Write_UINT16_BE (u16 length);;
    mret 3
  else
    assert (length <=? UINT8_MAX);;
    if 0x7F <? length then
      r ← Stream_GetRemainingCapacity; assert (2 <=? r);;
      Stream_Write_UINT8 (Z.lxor 0x80 1);;
      Stream_Write_UINT8 (u8 length);;
      mret 2
    else
      r ← Stream_GetRemainingCapacity; assert (1 <=? r);;
      Stream_Write_UINT8 (u8 length);;
      mret 1.

Definition ber_sizeof_length (length : Z) : Z :=
  if 0xFF <? length then 3 else if 0x7F <? length then 2 else 1.

(** ** Tags *)

Definition ber_read_universal_tag (tag : Z) (pc : bool) : M wStream unit :=
  let expect := u8 (Z.lor (Z.lor BER_CLASS_UNIV (BER_PC pc)) (Z.land BER_TAG_MASK tag)) in
  Stream_CheckAndLogRequiredLength 1;;
  byte ← Stream_Read_UINT8;
  if negb (byte =? expect) then failure else mret tt.

Definition ber_write_universal_tag (tag : Z) (pc : bool) : M wStream Z :=
  Stream_Write_UINT8 (Z.lor (Z.lor BER_CLASS_UNIV (BER_PC pc)) (Z.land BER_TAG_MASK tag));;
  mret 1.

Definition ber_read_application_tag (tag : Z) : M wStream Z :=
  if 30 <? tag then
    let expect := Z.lor (Z.lor BER_CLASS_APPL BER_CONSTRUCT) BER_TAG_MASK in
    Stream_CheckAndLogRequiredLength 2;;
    byte ← Stream_Read_UINT8;
    if negb (byte =? expect) then failure
    else
      byte2 ← Stream_Read_UINT8;
      if negb (byte2 =? tag) then failure else ber_read_length
  else
    let expect := Z.lor (Z.lor BER_CLASS_APPL BER_CONSTRUCT) (Z.land BER_TAG_MASK tag) in
    Stream_CheckAndLogRequiredLength 1;;
    byte ← Stream_Read_UINT8;
    if negb (byte =? expect) then failure else ber_read_length.

Definition ber_write_application_tag (tag length : Z) : M wStream unit :=
  if 30 <? tag then
    r ← Stream_GetRemainingCapacity; assert (2 <=? r);;
    Stream_Write_UINT8 (Z.lor (Z.lor BER_CLASS_APPL BER_CONSTRUCT) BER_TAG_MASK);;
    Stream_Write_UINT8 tag;;
    ber_write_length length;;
    mret tt
  else
    r ← Stream_GetRemainingCapacity; assert (1 <=? r);;
    Stream_Write_UINT8 (Z.lor (Z.lor BER_CLASS_APPL BER_CONSTRUCT) (Z.land BER_TAG_MASK tag));;
    ber_write_length length;;
    mret tt.

(** On a mismatch the octet is put back, so that the caller can try another tag. *)
Definition ber_read_contextual_tag (tag : Z) (pc : bool) : M wStream Z :=
  let expect := Z.lor (Z.lor BER_CLASS_CTXT (BER_PC pc)) (Z.land BER_TAG_MASK tag) in
  r ← Stream_GetRemainingLength;
  if r <? 1 then failure
  else
    byte ← Stream_Read_UINT8;
    if negb (byte =? expect) then Stream_Rewind 1;; failure else ber_read_length.

Definition ber_write_contextual_tag (tag length : Z) (pc : bool) : M wStream Z :=
  r ← Stream_GetRemainingCapacity; assert (1 <=? r);;
  Stream_Write_UINT8 (Z.lor (Z.lor BER_CLASS_CTXT (BER_PC pc)) (Z.land BER_TAG_MASK tag));;
  n ← ber_write_length length;
  mret (1 + n).

Definition ber_sizeof_contextual_tag (length : Z) : Z := 1 + ber_sizeof_length length.

Definition ber_read_sequence_tag : M wStream Z :=
  let expect := Z.lor (Z.lor BER_CLASS_UNIV BER_CONSTRUCT) BER_TAG_SEQUENCE_OF in
  Stream_CheckAndLogRequiredLength 1;;
  byte ← Stream_Read_UINT8;
  if negb (byte =? expect) then failure else ber_read_length.

Definition ber_write_sequence_tag (length : Z) : M wStream Z :=
  Stream_Write_UINT8
    (Z.lor (Z.lor BER_CLASS_UNIV BER_CONSTRUCT) (Z.land BER_TAG_MASK BER_TAG_SEQUENCE));;
  n ← ber_write_length length;
  mret (1 + n).

Definition ber_sizeof_sequence (length : Z) : Z := 1 + ber_sizeof_length length + length.
Definition ber_sizeof_sequence_tag (length : Z) : Z := 1 + ber_sizeof_length length.

(** ** Enumerations, bit strings, octet strings *)

Definition ber_read_enumerated (count : Z) : M wStream Z :=
  ber_read_universal_tag BER_TAG_ENUMERATED false;;
  length ← ber_read_length;
  if negb (length =? 1) then failure
  else
    Stream_CheckAndLogRequiredLength 1;;
    enumerated ← Stream_Read_UINT8;
    if count <? enumerated + 1 then failure else mret enumerated.

Definition ber_write_enumerated (enumerated count : Z) : M wStream unit :=
  ber_write_universal_tag BER_TAG_ENUMERATED false;;
  ber_write_length 1;;
  Stream_Write_UINT8 enumerated.

Definition ber_read_bit_string : M wStream (Z * Z) :=
  ber_read_universal_tag BER_TAG_BIT_STRING false;;
  length ← ber_read_length;
  Stream_CheckAndLogRequiredLength 1;;
  padding ← Stream_Read_UINT8;
  mret (length, padding).

Definition ber_read_octet_string_tag : M wStream Z :=
  ber_read_universal_tag BER_TAG_OCTET_STRING false;; ber_read_length.

Definition ber_read_octet_string `{Alloc} : M wStream (list Z) :=
  length ← ber_read_octet_string_tag;
  Stream_CheckAndLogRequiredLength length;;
  guard (malloc_ok length);;
  Stream_Read length.

Definition ber_write_octet_string (oct_str : list Z) : M wStream Z :=
  n1 ← ber_write_universal_tag BER_TAG_OCTET_STRING false;
  n2 ← ber_write_length (zlen oct_str);
  Stream_Write oct_str;;
  mret (n1 + n2 + zlen oct_str).

Definition ber_write_octet_string_tag (length : Z) : M wStream Z :=
  ber_write_universal_tag BER_TAG_OCTET_STRING false;;
  ber_write_length length;;
  mret (1 + ber_sizeof_length length).

Definition ber_sizeof_octet_string (length : Z) : Z := 1 + ber_sizeof_length length + length.

Definition ber_sizeof_contextual_octet_string (length : Z) : Z :=
  let ret := ber_sizeof_octet_string length in ber_sizeof_contextual_tag ret + ret.

Definition ber_write_contextual_octet_string (tag : Z) (oct_str : list Z) : M wStream Z :=
  let inner := ber_sizeof_octet_string (zlen oct_str) in
  ret ← ber_write_contextual_tag tag inner true;
  if ret =? 0 then mret 0
  else
    r ← ber_write_octet_string oct_str;
    if r =? 0 then mret 0 else mret (ret + r).

(** ** Booleans *)

Definition ber_read_BOOL : M wStream bool :=
  ber_read_universal_tag BER_TAG_BOOLEAN false;;
  length ← ber_read_length;
  if negb (length =? 1) then failure
  else
    Stream_CheckAndLogRequiredLength 1;;
    v ← Stream_Read_UINT8;
    mret (negb (v =? 0)).

(** [BOOL] is an [int]; only the value [TRUE] (one) is encoded as true. *)
Definition ber_write_BOOL (value : Z) : M wStream unit :=
  ber_write_universal_tag BER_TAG_BOOLEAN false;;
  ber_write_length 1;;
  Stream_Write_UINT8 (if value =? 1 then 0xFF else 0).

(** ** Integers *)

Definition ber_read_integer_length : M wStream Z :=
  ber_read_universal_tag BER_TAG_INTEGER false;; ber_read_length.

Definition ber_read_integer : M wStream Z :=
  ber_read_universal_tag BER_TAG_INTEGER false;;
  length ← ber_read_length;
  Stream_CheckAndLogRequiredLength length;;
  if length =? 1 then Stream_Read_UINT8
  else if length =? 2 then Stream_Read_UINT16_BE
  else if length =? 3 then
    byte ← Stream_Read_UINT8;
    value ← Stream_Read_UINT16_BE;
    mret (u32 (value + Z.land (Z.shiftl byte 16) 0xFF0000))
  else if length =? 4 then Stream_Read_UINT32_BE
  else failure.

(** [ber_read_integer (s, NULL)]: the value is skipped. *)
Definition ber_read_integer_null : M wStream unit :=
  ber_read_universal_tag BER_TAG_INTEGER false;;
  length ← ber_read_length;
  Stream_CheckAndLogRequiredLength length;;
  Stream_SafeSeek length.

Definition ber_write_integer (value : Z) : M wStream Z :=
  if value <? 0x80 then
    ber_write_universal_tag BER_TAG_INTEGER false;;
    ber_write_length 1;;
    v ← asserting_cast u8 value; Stream_Write_UINT8 v;;
    mret 3
  else if value <? 0x8000 then
    ber_write_universal_tag BER_TAG_INTEGER false;;
    ber_write_length 2;;
    v ← asserting_cast u16 value; Stream_Write_UINT16_BE v;;
    mret 4
  else if value <? 0x800000 then
    ber_write_universal_tag BER_TAG_INTEGER false;;
    ber_write_length 3;;
    h ← asserting_cast u8 (Z.shiftr value 16); Stream_Write_UINT8 h;;
    v ← asserting_cast u16 value; Stream_Write_UINT16_BE v;;
    mret 5
  else if value <? 0x80000000 then
    ber_write_universal_tag BER_TAG_INTEGER false;;
    ber_write_length 4;;
    Stream_Write_UINT32_BE value;;
    mret 6
  else
    ber_write_universal_tag BER_TAG_INTEGER false;;
    ber_write_length 4;;
    Stream_Write_UINT32_BE value;;
    mret 6.

Definition ber_sizeof_integer (value : Z) : Z :=
  if value <? 0x80 then 3
  else if value <? 0x8000 then 4
  else if value <? 0x800000 then 5
  else if value <? 0x80000000 then 6
  else 6.

Definition ber_sizeof_contextual_integer (value : Z) : Z :=
  let intSize := ber_sizeof_integer value in ber_sizeof_contextual_tag intSize + intSize.

(** The request for room sits inside the assertion. *)
Definition ber_write_contextual_integer `{Alloc} (tag value : Z) : M wStream Z :=
  let len := ber_sizeof_integer value in
  ok ← attempt (Stream_EnsureRemainingCapacity (len + 5));
  assert (match ok with Some _ => true | None => false end);;
  n ← ber_write_contextual_tag tag len true;
  ber_write_integer value;;
  mret (len + n).

(** ** Safety of the readers *)

Lemma ber_read_length_safe : safe_reader is_u16 ber_read_length.
Proof.
  intros s Hs. unfold ber_read_length. repeat reader_step.
  all: try (split; [word_lia|reader_step]); try reader_step.
  all: pose proof (land_7F_range b H0); reader_run; try (split; [word_lia|]); reader_step.
Qed.
#[export] Hint Resolve ber_read_length_safe : stream.

Lemma ber_read_universal_tag_safe tag pc :
  safe_reader (fun _ => True) (ber_read_universal_tag tag pc).
Proof.
  intros s Hs. unfold ber_read_universal_tag. reader_run.
  all: try (split; [done|]); reader_step.
Qed.
#[export] Hint Resolve ber_read_universal_tag_safe : stream.

Lemma ber_read_application_tag_safe tag : safe_reader is_u16 (ber_read_application_tag tag).
Proof. intros s Hs. unfold ber_read_application_tag. reader_auto. Qed.

Lemma ber_read_contextual_tag_safe tag pc : safe_reader is_u16 (ber_read_contextual_tag tag pc).
Proof.
  intros s Hs. unfold ber_read_contextual_tag. reader_auto.
  apply wp_rewind; [done|lia|lia|]. reader_auto.
Qed.

Lemma ber_read_sequence_tag_safe : safe_reader is_u16 ber_read_sequence_tag.
Proof. intros s Hs. unfold ber_read_sequence_tag. reader_auto. Qed.

Lemma ber_read_enumerated_safe count :
  safe_reader (fun e => is_byte e /\ e < count) (ber_read_enumerated count).
Proof. intros s Hs. unfold ber_read_enumerated. reader_auto. Qed.

Lemma ber_read_bit_string_safe :
  safe_reader (fun '(n, p) => is_u16 n /\ is_byte p) ber_read_bit_string.
Proof. intros s Hs. unfold ber_read_bit_string. reader_auto. Qed.

Lemma ber_read_octet_string_tag_safe : safe_reader is_u16 ber_read_octet_string_tag.
Proof. intros s Hs. unfold ber_read_octet_string_tag. reader_auto. Qed.
#[export] Hint Resolve ber_read_octet_string_tag_safe : stream.

Lemma ber_read_octet_string_safe `{Alloc} : safe_reader bytes ber_read_octet_string.
Proof. intros s Hs. unfold ber_read_octet_string. reader_auto. Qed.

Lemma ber_read_BOOL_safe : safe_reader (fun _ => True) ber_read_BOOL.
Proof. intros s Hs. unfold ber_read_BOOL. reader_auto. Qed.

Lemma ber_read_integer_safe : safe_reader is_u32 ber_read_integer.
Proof. intros s Hs. unfold ber_read_integer. reader_auto. Qed.

Lemma ber_read_integer_null_safe : safe_reader (fun _ => True) ber_read_integer_null.
Proof. intros s Hs. unfold ber_read_integer_null. reader_auto. Qed.

(** ** What the writers produce *)

Definition ber_length_bytes (n : Z) : list Z :=
  if 0xFF <? n then 0x82 :: winpr_Data_Write_UINT16_BE n
  else if 0x7F <? n then [0x81; n] else [n].

Lemma zlen_ber_length_bytes n : zlen (ber_length_bytes n) = ber_sizeof_length n.
Proof. unfold ber_length_bytes, ber_sizeof_length. repeat zcase; done. Qed.

Lemma emits_length n :
  is_u16 n -> emits (ber_write_length n) (ber_length_bytes n) (ber_sizeof_length n).
Proof.
  intros Hn. unfold ber_write_length, ber_length_bytes, ber_sizeof_length. unfold is_u16 in Hn.
  zcase; [|zcase].
  - apply emits_assert; [word_lia|]. apply emits_room; [by vm_compute|].
    apply emits_u8; [by vm_compute|]. eapply emits_bind_last; [|apply emits_ret]. unfold u16. rewrite Z.mod_small by lia.
    by apply writes_u16_be.
  - apply emits_assert; [word_lia|]. apply emits_room; [by vm_compute|].
    apply emits_u8; [by vm_compute|]. unfold u8. rewrite Z.mod_small by lia.
    apply emits_u8; [word_lia|]. apply emits_ret.
  - apply emits_assert; [word_lia|]. apply emits_room; [by vm_compute|].
    unfold u8. rewrite Z.mod_small by lia. apply emits_u8; [word_lia|]. apply emits_ret.
Qed.

(** A tag octet: any class and form over the low five bits of the tag. *)
Lemma tag_octet_byte c pc tag :
  In c [BER_CLASS_UNIV; BER_CLASS_APPL; BER_CLASS_CTXT] -> is_byte tag ->
  is_byte (Z.lor (Z.lor c (BER_PC pc)) (Z.land BER_TAG_MASK tag)).
Proof.
  intros Hc Ht. unfold is_byte in *.
  assert (forall k, In k [0; 0x20; 0x40; 0x60; 0x80; 0xA0] ->
    0 <= Z.lor k (Z.land 0x1F tag) < 256) as Hall.
  { intros k Hk. rewrite Z.land_comm, (land_mask tag 5) by done.
    pose proof (Z.mod_pos_bound tag (2 ^ 5) ltac:(lia)).
    assert (exists q, k = q * 2 ^ 5 /\ 0 <= q <= 5) as (q & -> & Hq).
    { exists (k / 32). repeat (destruct Hk as [<-|Hk]); done. }
    rewrite lor_shift_add by lia. lia. }
  destruct pc; repeat (destruct Hc as [<-|Hc]); try done; apply Hall; simpl; tauto.
Qed.

Lemma emits_universal_tag tag pc :
  is_byte tag ->
  emits (ber_write_universal_tag tag pc)
    [Z.lor (Z.lor BER_CLASS_UNIV (BER_PC pc)) (Z.land BER_TAG_MASK tag)] 1.
Proof.
  intros Ht. apply emits_u8; [apply tag_octet_byte; [simpl; tauto|done]|]. apply emits_ret.
Qed.

Definition appl_tag_bytes (tag : Z) : list Z :=
  if 30 <? tag then [Z.lor (Z.lor BER_CLASS_APPL BER_CONSTRUCT) BER_TAG_MASK; tag]
  else [Z.lor (Z.lor BER_CLASS_APPL BER_CONSTRUCT) (Z.land BER_TAG_MASK tag)].

Lemma emits_application_tag tag n :
  is_byte tag -> is_u16 n ->
  emits (ber_write_application_tag tag n) (appl_tag_bytes tag ++ ber_length_bytes n) tt.
Proof.
  intros Ht Hn. unfold ber_write_application_tag, appl_tag_bytes.
  pose proof (zlen_nonneg (ber_length_bytes n)).
  zcase; (apply emits_room; [autorewrite with zlen; lia|]).
  - apply emits_u8; [by vm_compute|]. apply emits_u8; [done|]. cbn [app].
    eapply emits_bind_last; [by apply emits_length|apply emits_ret].
  - apply emits_u8; [apply (tag_octet_byte BER_CLASS_APPL true); [simpl; tauto|done]|].
    cbn [app]. eapply emits_bind_last; [by apply emits_length|apply emits_ret].
Qed.

Lemma emits_contextual_tag tag n pc :
  is_byte tag -> is_u16 n ->
  emits (ber_write_contextual_tag tag n pc)
    (Z.lor (Z.lor BER_CLASS_CTXT (BER_PC pc)) (Z.land BER_TAG_MASK tag) :: ber_length_bytes n)
    (ber_sizeof_contextual_tag n).
Proof.
  intros Ht Hn. unfold ber_write_contextual_tag.
  pose proof (zlen_nonneg (ber_length_bytes n)).
  apply emits_room; [rewrite zlen_cons; lia|].
  apply emits_u8; [apply tag_octet_byte; [simpl; tauto|done]|].
  eapply emits_bind_last; [by apply emits_length|apply emits_ret].
Qed.

Lemma emits_sequence_tag n :
  is_u16 n ->
  emits (ber_write_sequence_tag n) (0x30 :: ber_length_bytes n) (ber_sizeof_sequence_tag n).
Proof.
  intros Hn. apply emits_u8; [by vm_compute|]. eapply emits_bind_last; [by apply emits_length|apply emits_ret].
Qed.

Lemma emits_octet_string l :
  bytes l -> zlen l <= UINT16_MAX ->
  emits (ber_write_octet_string l) ([0x04] ++ ber_length_bytes (zlen l) ++ l)
    (ber_sizeof_octet_string (zlen l)).
Proof.
  intros Hl Hn. pose proof (zlen_nonneg l).
  eapply (emits_bind _ _ [0x04]); [by apply (emits_universal_tag 4 false)|].
  eapply emits_bind; [apply emits_length; word_lia|]. eapply emits_bind_last; [by apply writes_bytes|apply emits_ret].
Qed.

Lemma emits_enumerated e count :
  is_byte e -> emits (ber_write_enumerated e count) [0x0A; 1; e] tt.
Proof.
  intros He. eapply (emits_bind _ _ [0x0A]); [by apply (emits_universal_tag 10 false)|].
  eapply (emits_bind _ _ [1]); [by apply (emits_length 1)|]. by apply writes_u8.
Qed.

Lemma emits_BOOL v : emits (ber_write_BOOL v) [0x01; 1; if v =? 1 then 0xFF else 0] tt.
Proof.
  eapply (emits_bind _ _ [0x01]); [by apply (emits_universal_tag 1 false)|].
  eapply (emits_bind _ _ [1]); [by apply (emits_length 1)|]. apply writes_u8.
  by destruct (v =? 1).
Qed.

Lemma emits_contextual_octet_string tag l :
  is_byte tag -> bytes l -> ber_sizeof_octet_string (zlen l) <= UINT16_MAX ->
  emits (ber_write_contextual_octet_string tag l)
    ((Z.lor (Z.lor BER_CLASS_CTXT BER_CONSTRUCT) (Z.land BER_TAG_MASK tag) ::
      ber_length_bytes (ber_sizeof_octet_string (zlen l))) ++
     [0x04] ++ ber_length_bytes (zlen l) ++ l)
    (ber_sizeof_contextual_octet_string (zlen l)).
Proof.
  intros Ht Hl Hn. pose proof (zlen_nonneg l).
  assert (1 <= ber_sizeof_length (zlen l)) by (unfold ber_sizeof_length; repeat zcase; lia).
  assert (zlen l <= UINT16_MAX) by (unfold ber_sizeof_octet_string in Hn; lia).
  unfold ber_write_contextual_octet_string.
  eapply emits_bind.
  { apply (emits_contextual_tag tag _ true); [done|].
    unfold ber_sizeof_octet_string in *. word_lia. }
  assert (1 <= ber_sizeof_contextual_tag (ber_sizeof_octet_string (zlen l))) as Hp1.
  { unfold ber_sizeof_contextual_tag, ber_sizeof_length. repeat zcase; lia. }
  rewrite (proj2 (Z.eqb_neq _ _)) by lia.
  eapply emits_bind_last; [by apply emits_octet_string|].
  rewrite (proj2 (Z.eqb_neq _ _)) by (unfold ber_sizeof_octet_string; lia).
  apply emits_ret.
Qed.

Definition ber_integer_bytes (v : Z) : list Z :=
  0x02 :: (if v <? 0x80 then [1; v]
           else if v <? 0x8000 then 2 :: winpr_Data_Write_UINT16_BE v
           else if v <? 0x800000 then 3 :: v / 65536 :: winpr_Data_Write_UINT16_BE v
           else 4 :: winpr_Data_Write_UINT32_BE v).

(** the values [ber_write_integer] can encode *)
Definition ber_encodable (v : Z) : Prop := 0 <= v < 0x10000 \/ 0x800000 <= v <= UINT32_MAX.

Lemma emits_cast {A} w v (m : Z -> M wStream A) bs r :
  w v = v -> emits (m v) bs r -> emits (asserting_cast w v ≫= m) bs r.
Proof.
  intros Hw [Hb Hm]. split; [done|]. intros s Hs Hc.
  rewrite (bind_ret_eq _ _ s _ _ (asserting_cast_eq w v s Hw)). by apply Hm.
Qed.

Lemma emits_integer v :
  ber_encodable v -> emits (ber_write_integer v) (ber_integer_bytes v) (ber_sizeof_integer v).
Proof.
  intros Hv. unfold ber_encodable in Hv.
  assert (forall n (k : M wStream Z) bs r, 0 <= n < 128 -> emits k bs r ->
    emits (ber_write_universal_tag BER_TAG_INTEGER false;; ber_write_length n;; k)
      (0x02 :: n :: bs) r) as Hhead.
  { intros n k bs r Hn Hk.
    eapply (emits_bind _ _ [0x02]); [by apply (emits_universal_tag 2 false)|].
    assert (ber_length_bytes n = [n]) as Hb
      by (unfold ber_length_bytes; by rewrite !(proj2 (Z.ltb_ge _ _)) by lia).
    change (n :: bs) with ([n] ++ bs). rewrite <- Hb.
    eapply emits_bind; [apply emits_length; word_lia|done]. }
  assert (forall u (k : M wStream Z) r, is_u16 u -> emits k [] r ->
    emits (Stream_Write_UINT16_BE u;; k) (winpr_Data_Write_UINT16_BE u) r) as Hw16.
  { intros u k r Hu Hk. eapply emits_bind_last; [by apply writes_u16_be|done]. }
  assert (is_u32 v -> emits (Stream_Write_UINT32_BE v;; mret 6) (winpr_Data_Write_UINT32_BE v) 6)
    as Hw32.
  { intros Hu. eapply emits_bind_last; [by apply writes_u32_be|apply emits_ret]. }
  unfold ber_write_integer, ber_integer_bytes, ber_sizeof_integer. repeat zcase; apply Hhead; try lia.
  - apply emits_cast; [word_lia|]. apply emits_u8; [word_lia|apply emits_ret].
  - apply emits_cast; [word_lia|]. apply Hw16; [word_lia|apply emits_ret].
  - rewrite shiftr_div by lia. change (2 ^ 16) with 65536.
    apply emits_cast; [word_lia|]. apply emits_u8; [word_lia|].
    apply emits_cast; [word_lia|]. apply Hw16; [word_lia|apply emits_ret].
  - apply Hw32. word_lia.
  - apply Hw32. word_lia.
Qed.

Lemma zlen_ber_integer_bytes v : zlen (ber_integer_bytes v) = ber_sizeof_integer v.
Proof. unfold ber_integer_bytes, ber_sizeof_integer. repeat zcase; done. Qed.

(** ** What the readers make of it *)

Lemma parses_ber_length n : is_u16 n -> parses ber_read_length (ber_length_bytes n) n.
Proof.
  intros Hn. unfold is_u16 in Hn. unfold ber_read_length, ber_length_bytes.
  zcase; [|zcase]; (apply parses_check; [by vm_compute|]); apply parses_u8_bind; cbn beta.
  - change (negb (Z.land 130 128 =? 0)) with true. cbv iota.
    apply parses_check; [by vm_compute|]. by apply parses_u16_be.
  - change (negb (Z.land 129 128 =? 0)) with true. cbv iota.
    apply parses_check; [by vm_compute|]. apply parses_u8.
  - rewrite land_80 by word_lia. rewrite (proj2 (Z.ltb_lt _ _)) by lia. apply parses_ret.
Qed.

Lemma parses_ber_short n : 0 <= n < 128 -> parses ber_read_length [n] n.
Proof.
  intros Hn. pose proof (parses_ber_length n ltac:(word_lia)) as Hp.
  unfold ber_length_bytes in Hp. by rewrite !(proj2 (Z.ltb_ge _ _)) in Hp by lia.
Qed.

Lemma parses_universal_tag tag pc :
  is_byte tag ->
  parses (ber_read_universal_tag tag pc)
    [Z.lor (Z.lor BER_CLASS_UNIV (BER_PC pc)) (Z.land BER_TAG_MASK tag)] tt.
Proof.
  intros Ht. unfold ber_read_universal_tag. apply parses_check; [by vm_compute|].
  apply parses_u8_bind. unfold u8.
  rewrite (Z.mod_small (Z.lor _ _)) by (apply tag_octet_byte; [simpl; tauto|done]).
  rewrite Z.eqb_refl. apply parses_ret.
Qed.

(** a universal tag and a short length in front of a body *)
Lemma parses_header {A} tag n (k : unit -> Z -> M wStream A) bs v :
  0 <= tag < 32 -> 0 <= n < 128 -> parses (k tt n) bs v ->
  parses (u ← ber_read_universal_tag tag false; l ← ber_read_length; k u l) (tag :: n :: bs) v.
Proof.
  intros Ht Hn Hk. eapply (parses_bind _ _ [tag]).
  - pose proof (parses_universal_tag tag false ltac:(word_lia)) as Hp.
    replace (Z.lor (Z.lor BER_CLASS_UNIV (BER_PC false)) (Z.land BER_TAG_MASK tag)) with tag in Hp;
      [done|]. change (Z.lor BER_CLASS_UNIV (BER_PC false)) with 0.
    rewrite Z.lor_0_l, Z.land_comm, (land_mask tag 5) by done. rewrite Z.mod_small; lia.
  - eapply (parses_bind _ _ [n]); [by apply parses_ber_short|done].
Qed.

Lemma parses_ber_integer v :
  ber_encodable v -> parses ber_read_integer (ber_integer_bytes v) v.
Proof.
  intros Hv. unfold ber_encodable in Hv. unfold ber_read_integer, ber_integer_bytes.
  repeat zcase; (apply parses_header; [lia|lia|]); (apply parses_check; [by vm_compute|]); simpl.
  - apply parses_u8.
  - apply parses_u16_be. word_lia.
  - apply parses_u8_bind. eapply parses_bind_last; [apply parses_u16_be; word_lia|].
    replace (v / 65536) with 0 by word_lia. change (Z.land (Z.shiftl 0 16) 16711680) with 0.
    replace (u32 (v + 0)) with v by word_lia. apply parses_ret.
  - apply parses_u32_be. word_lia.
Qed.

Lemma parses_octet_string `{AllocOk} l :
  zlen l <= UINT16_MAX ->
  parses ber_read_octet_string ([0x04] ++ ber_length_bytes (zlen l) ++ l) l.
Proof.
  intros Hl. pose proof (zlen_nonneg l). unfold ber_read_octet_string, ber_read_octet_string_tag.
  rewrite app_assoc. eapply parses_bind.
  - eapply (parses_bind _ _ [0x04]); [by apply (parses_universal_tag 4 false)|].
    apply parses_ber_length. word_lia.
  - apply parses_check; [lia|]. intros s tl Hs Hr.
    rewrite guard_bind by (apply alloc_ok; word_lia). by apply (parses_bytes (zlen l) l eq_refl s tl).
Qed.

Lemma parses_application_tag tag n :
  is_byte tag -> is_u16 n ->
  parses (ber_read_application_tag tag) (appl_tag_bytes tag ++ ber_length_bytes n) n.
Proof.
  intros Ht Hn. unfold ber_read_application_tag, appl_tag_bytes.
  pose proof (zlen_nonneg (ber_length_bytes n)).
  zcase; (apply parses_check; [autorewrite with zlen; lia|]); apply parses_u8_bind;
    rewrite Z.eqb_refl; cbn [negb app]; [apply parses_u8_bind; rewrite Z.eqb_refl|];
    by apply parses_ber_length.
Qed.

Lemma parses_contextual_tag tag n pc :
  is_byte tag -> is_u16 n ->
  parses (ber_read_contextual_tag tag pc)
    (Z.lor (Z.lor BER_CLASS_CTXT (BER_PC pc)) (Z.land BER_TAG_MASK tag) :: ber_length_bytes n) n.
Proof.
  intros Ht Hn s tl Hs Hr. pose proof (rem_parses s _ tl Hs Hr) as Hrem.
  pose proof (zlen_nonneg (ber_length_bytes n)). rewrite zlen_cons in Hrem.
  unfold ber_read_contextual_tag.
  rewrite (bind_ret_eq _ _ s _ _ (remaining_length_eq s Hs)).
  rewrite (proj2 (Z.ltb_ge _ _)) by lia. revert s tl Hs Hr Hrem.
  enough (parses (byte ← Stream_Read_UINT8;
      if negb (byte =? Z.lor (Z.lor BER_CLASS_CTXT (BER_PC pc)) (Z.land BER_TAG_MASK tag))
      then Stream_Rewind 1;; failure else ber_read_length)
    (Z.lor (Z.lor BER_CLASS_CTXT (BER_PC pc)) (Z.land BER_TAG_MASK tag) :: ber_length_bytes n) n)
    as Hp by (intros s tl Hs Hr _; by apply (Hp s tl)).
  apply parses_u8_bind. rewrite Z.eqb_refl. by apply parses_ber_length.
Qed.

Lemma parses_sequence_tag n : is_u16 n -> parses ber_read_sequence_tag (0x30 :: ber_length_bytes n) n.
Proof.
  intros Hn. unfold ber_read_sequence_tag. pose proof (zlen_nonneg (ber_length_bytes n)).
  apply parses_check; [rewrite zlen_cons; lia|]. apply parses_u8_bind. by apply parses_ber_length.
Qed.

Lemma parses_enumerated e count :
  0 <= e < count -> parses (ber_read_enumerated count) [0x0A; 1; e] e.
Proof.
  intros He. apply parses_header; [done|done|]. apply parses_check; [by vm_compute|].
  apply parses_u8_bind. rewrite (proj2 (Z.ltb_ge _ _)) by lia. apply parses_ret.
Qed.

Lemma parses_BOOL x : parses ber_read_BOOL [0x01; 1; x] (negb (x =? 0)).
Proof.
  apply parses_header; [done|done|]. apply parses_check; [by vm_compute|].
  apply parses_u8_bind. apply parses_ret.
Qed.

(** ** The promises of the codec *)

(** Every BER reader is memory safe on arbitrary input, ends inside the data, and
    returns values in the range of their type; lengths are at most 65535. *)
Theorem ber_readers_safe `{Alloc} tag pc count :
  safe_reader is_u16 ber_read_length /\
  safe_reader (fun _ => True) (ber_read_universal_tag tag pc) /\
  safe_reader is_u16 (ber_read_application_tag tag) /\
  safe_reader is_u16 (ber_read_contextual_tag tag pc) /\
  safe_reader is_u16 ber_read_sequence_tag /\
  safe_reader (fun e => is_byte e /\ e < count) (ber_read_enumerated count) /\
  safe_reader (fun '(n, p) => is_u16 n /\ is_byte p) ber_read_bit_string /\
  safe_reader bytes ber_read_octet_string /\
  safe_reader (fun _ => True) ber_read_BOOL /\
  safe_reader is_u32 ber_read_integer /\
  safe_reader (fun _ => True) ber_read_integer_null.
Proof.
  auto 20 using ber_read_length_safe, ber_read_universal_tag_safe, ber_read_application_tag_safe,
    ber_read_contextual_tag_safe, ber_read_sequence_tag_safe, ber_read_enumerated_safe,
    ber_read_bit_string_safe, ber_read_octet_string_safe, ber_read_BOOL_safe,
    ber_read_integer_safe, ber_read_integer_null_safe.
Qed.

(** A BER integer below 65536, or from 8388608 to the maximum of its type, is written
    in exactly [ber_sizeof_integer] octets, which is also the size the writer reports,
    and reads back as itself. *)
Theorem ber_integer_roundtrip v s :
  ber_encodable v -> wf s -> pointer s + ber_sizeof_integer v <= capacity s ->
  exists s', ber_write_integer v s = Ret (ber_sizeof_integer v) s' /\
    pointer s' = pointer s + ber_sizeof_integer v /\ reads_back s s' ber_read_integer v.
Proof.
  intros Hv Hs Hc. rewrite <- (zlen_ber_integer_bytes v) in Hc.
  destruct (emits_reads_back _ _ _ _ _ s (emits_integer v Hv) (parses_ber_integer v Hv) Hs Hc)
    as (s' & E & P & R).
  rewrite zlen_ber_integer_bytes in P. eauto.
Qed.

Lemma ber_integer_roundtrip_witness :
  exists s', ber_write_integer 0x9ABCDEF0 (fresh 6) = Ret 6 s' /\ pointer s' = 6 /\
    reads_back (fresh 6) s' ber_read_integer 0x9ABCDEF0.
Proof.
  apply (ber_integer_roundtrip 0x9ABCDEF0 (fresh 6)).
  - right. by vm_compute.
  - apply wf_fresh. lia.
  - by vm_compute.
Defined.

(** On the values in between, 65536 to 8388607, [ber_write_integer] does not return:
    its three-octet branch passes the whole value through an asserting cast to 16 bits. *)
Theorem ber_write_integer_asserts v s :
  0x10000 <= v < 0x800000 -> wf s -> pointer s + 5 <= capacity s ->
  ber_write_integer v s = Crash AssertFailed.
Proof.
  intros Hv Hs Hc. unfold ber_write_integer.
  rewrite !(proj2 (Z.ltb_ge _ _)) by lia. rewrite (proj2 (Z.ltb_lt _ _)) by lia.
  rewrite (bind_ret_eq _ _ s _ _ (proj2 (emits_universal_tag 2 false ltac:(by vm_compute)) s Hs
    ltac:(autorewrite with zlen; lia))).
  set (s1 := put _ s). assert (wf s1) as Hs1.
  { apply wf_put; [done|by apply bytes_check|autorewrite with zlen; lia]. }
  assert (pointer s1 = pointer s + 1) as Hp1 by done.
  assert (capacity s1 = capacity s) as Hc1 by done.
  rewrite (bind_ret_eq _ _ s1 _ _ (proj2 (emits_length 3 ltac:(by vm_compute)) s1 Hs1
    ltac:(rewrite zlen_ber_length_bytes; change (ber_sizeof_length 3) with 1; lia))).
  set (s2 := put _ s1). assert (wf s2) as Hs2.
  { apply wf_put; [done|by apply bytes_check|].
    rewrite zlen_ber_length_bytes. change (ber_sizeof_length 3) with 1. lia. }
  rewrite shiftr_div by lia. change (2 ^ 16) with 65536.
  rewrite (bind_ret_eq _ _ s2 _ _ (asserting_cast_eq u8 (v / 65536) s2 ltac:(word_lia))).
  rewrite (bind_ret_eq _ _ s2 _ _ (proj2 (writes_u8 (v / 65536) ltac:(word_lia)) s2 Hs2
    ltac:(autorewrite with zlen; change (pointer s2) with (pointer s1 + 1);
          change (capacity s2) with (capacity s1); lia))).
  unfold asserting_cast. rewrite (proj2 (Z.eqb_neq v (u16 v))) by word_lia. done.
Qed.

Lemma ber_write_integer_asserts_witness :
  ber_write_integer 0x10000 (fresh 8) = Crash AssertFailed.
Proof.
  apply (ber_write_integer_asserts 0x10000 (fresh 8)).
  - lia.
  - apply wf_fresh. lia.
  - by vm_compute.
Defined.

(** Application, context and sequence tags with a length of up to 65535 read back to
    the length they were written with, for every tag number, low and high. *)
Theorem ber_tag_roundtrip tag pc n s :
  is_byte tag -> is_u16 n -> wf s -> pointer s + 5 <= capacity s ->
  (exists s', ber_write_application_tag tag n s = Ret tt s' /\
     reads_back s s' (ber_read_application_tag tag) n) /\
  (exists s', ber_write_contextual_tag tag n pc s = Ret (ber_sizeof_contextual_tag n) s' /\
     pointer s' = pointer s + ber_sizeof_contextual_tag n /\
     reads_back s s' (ber_read_contextual_tag tag pc) n) /\
  (exists s', ber_write_sequence_tag n s = Ret (ber_sizeof_sequence_tag n) s' /\
     pointer s' = pointer s + ber_sizeof_sequence_tag n /\
     reads_back s s' ber_read_sequence_tag n).
Proof.
  intros Ht Hn Hs Hc.
  assert (zlen (ber_length_bytes n) = ber_sizeof_length n) as Hl by apply zlen_ber_length_bytes.
  assert (ber_sizeof_length n <= 3) as H3 by (unfold ber_sizeof_length; repeat zcase; lia).
  split; [|split].
  - destruct (emits_reads_back _ _ _ _ _ s (emits_application_tag tag n Ht Hn)
      (parses_application_tag tag n Ht Hn) Hs) as (s' & E & _ & R); [|eauto].
    unfold appl_tag_bytes. zcase; autorewrite with zlen; lia.
  - destruct (emits_reads_back _ _ _ _ _ s (emits_contextual_tag tag n pc Ht Hn)
      (parses_contextual_tag tag n pc Ht Hn) Hs) as (s' & E & P & R);
      rewrite zlen_cons in *; [lia|].
    exists s'. split; [done|]. split; [unfold ber_sizeof_contextual_tag; lia|done].
  - destruct (emits_reads_back _ _ _ _ _ s (emits_sequence_tag n Hn)
      (parses_sequence_tag n Hn) Hs) as (s' & E & P & R); rewrite zlen_cons in *; [lia|].
    exists s'. split; [done|]. split; [unfold ber_sizeof_sequence_tag; lia|done].
Qed.

Lemma ber_tag_roundtrip_witness :
  exists s', ber_write_application_tag 101 404 (fresh 5) = Ret tt s' /\
    reads_back (fresh 5) s' (ber_read_application_tag 101) 404.
Proof.
  apply (ber_tag_roundtrip 101 true 404 (fresh 5)).
  - by vm_compute.
  - by vm_compute.
  - apply wf_fresh. lia.
  - by vm_compute.
Defined.

(** An octet string under a context tag is written in exactly the number of octets
    that [ber_sizeof_contextual_octet_string] announces and the writer returns, and reading
    the tag and then the octet string gives back the inner size and the contents. *)
Theorem ber_contextual_octet_string_roundtrip `{AllocOk} tag l s :
  is_byte tag -> bytes l -> ber_sizeof_octet_string (zlen l) <= UINT16_MAX -> wf s ->
  pointer s + ber_sizeof_contextual_octet_string (zlen l) <= capacity s ->
  exists s',
    ber_write_contextual_octet_string tag l s =
      Ret (ber_sizeof_contextual_octet_string (zlen l)) s' /\
    pointer s' = pointer s + ber_sizeof_contextual_octet_string (zlen l) /\
    reads_back s s'
      (n ← ber_read_contextual_tag tag true; c ← ber_read_octet_string; mret (n, c))
      (ber_sizeof_octet_string (zlen l), l).
Proof.
  intros Ht Hl Hn Hs Hc. pose proof (zlen_nonneg l).
  assert (1 <= ber_sizeof_length (zlen l)) by (unfold ber_sizeof_length; repeat zcase; lia).
  assert (zlen l <= UINT16_MAX) by (unfold ber_sizeof_octet_string in Hn; lia).
  assert (is_u16 (ber_sizeof_octet_string (zlen l))) as Hu
    by (unfold ber_sizeof_octet_string in *; word_lia).
  pose proof (emits_contextual_octet_string tag l Ht Hl Hn) as He.
  match type of He with emits _ ?bs _ =>
    assert (zlen bs = ber_sizeof_contextual_octet_string (zlen l)) as Hz end.
  { rewrite !zlen_app, !zlen_cons, !zlen_ber_length_bytes, zlen_nil.
    unfold ber_sizeof_contextual_octet_string, ber_sizeof_contextual_tag, ber_sizeof_octet_string.
    lia. }
  destruct (emits_reads_back _ _ _
    (n ← ber_read_contextual_tag tag true; c ← ber_read_octet_string; mret (n, c))
    (ber_sizeof_octet_string (zlen l), l) s He) as (s' & E & P & R); [|done|lia|].
  - eapply parses_bind; [by apply (parses_contextual_tag tag _ true)|].
    eapply parses_bind_last; [by apply parses_octet_string|apply parses_ret].
  - rewrite Hz in P. eauto.
Qed.

Lemma ber_contextual_octet_string_roundtrip_witness :
  exists s',
    ber_write_contextual_octet_string 1 [7; 8; 9] (fresh 7) = Ret 7 s' /\ pointer s' = 7 /\
    reads_back (fresh 7) s'
      (n ← ber_read_contextual_tag 1 true; c ← @ber_read_octet_string alloc_always; mret (n, c))
      (5, [7; 8; 9]).
Proof.
  apply (@ber_contextual_octet_string_roundtrip alloc_always alloc_always_ok 1 [7; 8; 9] (fresh 7)).
  - by vm_compute.
  - by apply bytes_check.
  - by vm_compute.
  - apply wf_fresh. lia.
  - by vm_compute.
Defined.

(** [ber_read_contextual_tag] on a stream that starts with another tag, or is empty,
    returns [FALSE] and leaves the stream exactly as it found it, so a sequence of
    optional fields can be probed one after the other. *)
Theorem ber_contextual_tag_miss tag pc s :
  readable s ->
  (forall b tl, rest s = b :: tl ->
     b <> Z.lor (Z.lor BER_CLASS_CTXT (BER_PC pc)) (Z.land BER_TAG_MASK tag)) ->
  ber_read_contextual_tag tag pc s = Fail s.
Proof.
  intros Hs Hmiss. unfold ber_read_contextual_tag.
  rewrite (bind_ret_eq _ _ s _ _ (remaining_length_eq s Hs)).
  destruct (rest s) as [|b tl] eqn:Hr.
  - pose proof (zlen_rest s Hs) as Hl. rewrite Hr, zlen_nil in Hl.
    by rewrite (proj2 (Z.ltb_lt _ _)) by lia.
  - pose proof (rem_parses s [b] tl Hs Hr) as Hl. rewrite zlen_cons, zlen_nil in Hl.
    rewrite (proj2 (Z.ltb_ge _ _)) by lia.
    rewrite (bind_ret_eq _ _ s _ _ (read_u8_rest b tl s Hs Hr)).
    rewrite (proj2 (Z.eqb_neq _ _)) by (by apply (Hmiss b tl)). cbn [negb].
    pose proof (wp_rewind 1 (fun _ s' => s' = s) (fun _ => False) s 1 Hs ltac:(lia) ltac:(lia)
      ltac:(by rewrite advance_0)) as Hw.
    unfold wp in Hw. unfold mbind, M_bind. destruct (Stream_Rewind 1 (advance 1 s)); [|done..].
    by subst.
Qed.

Lemma ber_contextual_tag_miss_witness :
  ber_read_contextual_tag 0 true (Stream_StaticInit [0xA1; 1; 5]) =
  Fail (Stream_StaticInit [0xA1; 1; 5]).
Proof.
  apply (ber_contextual_tag_miss 0 true (Stream_StaticInit [0xA1; 1; 5])).
  - apply readable_init; [by apply bytes_check|by vm_compute].
  - intros b tl H. injection H as <- _. by vm_compute.
Defined.

(** Enumerations and booleans: an enumerated value below its count reads back as
    itself; a [BOOL] reads back as [TRUE] exactly when it was written as [TRUE] (one) -
    any other non-zero [int] is encoded as false. *)
Theorem ber_scalar_roundtrip e count b s :
  0 <= e < count -> count <= 256 -> wf s -> pointer s + 3 <= capacity s ->
  (exists s', ber_write_enumerated e count s = Ret tt s' /\
     reads_back s s' (ber_read_enumerated count) e) /\
  (exists s', ber_write_BOOL b s = Ret tt s' /\ reads_back s s' ber_read_BOOL (b =? 1)).
Proof.
  intros He Hcnt Hs Hc. split.
  - destruct (emits_reads_back _ _ _ _ _ s (emits_enumerated e count ltac:(word_lia))
      (parses_enumerated e count He) Hs) as (s' & E & _ & R); [done|eauto].
  - destruct (emits_reads_back _ _ _ _ _ s (emits_BOOL b) (parses_BOOL _) Hs)
      as (s' & E & _ & R); [done|]. exists s'. split; [done|].
    replace (b =? 1) with (negb ((if b =? 1 then 0xFF else 0) =? 0)) at 1; [done|].
    by destruct (b =? 1).
Qed.

Lemma ber_scalar_roundtrip_witness :
  (exists s', ber_write_enumerated 3 16 (fresh 3) = Ret tt s' /\
     reads_back (fresh 3) s' (ber_read_enumerated 16) 3) /\
  (exists s', ber_write_BOOL 2 (fresh 3) = Ret tt s' /\ reads_back (fresh 3) s' ber_read_BOOL false).
Proof.
  apply (ber_scalar_roundtrip 3 16 2 (fresh 3)).
  - lia.
  - lia.
  - apply wf_fresh. lia.
  - by vm_compute.
Defined.
