(* ===== verification/Tpkt.v ===== *)
(** * TPKT and X.224 framing

    Model of [libfreerdp/core/tpkt.c] and [libfreerdp/core/tpdu.c]: the four-octet TPKT
    header that delimits packets on the TCP stream, and the X.224 class 0 TPDU header
    inside it (connection request, connection confirm, disconnect request, data). *)

From S2P Require Import Prelude Stream Per.

Definition X224_TPDU_CONNECTION_REQUEST : Z := 0xE0.
Definition X224_TPDU_CONNECTION_CONFIRM : Z := 0xD0.
Definition X224_TPDU_DISCONNECT_REQUEST : Z := 0x80.
Definition X224_TPDU_DATA : Z := 0xF0.
Definition X224_TPDU_ERROR : Z := 0x70.

(** ** TPKT *)

(** [-1]: nothing to look at, [1]: a TPKT header, [0]: something else. *)
Definition tpkt_verify_header : M wStream Z :=
  ok ← attempt (Stream_CheckAndLogRequiredLength 1);
  match ok with
  | None => mret (-1)
  | Some _ =>
      version ← Stream_Peek_UINT8;
      if version =? 3 then mret 1 else mret 0
  end.

Definition tpkt_read_header : M wStream Z :=
  Stream_CheckAndLogRequiredLength 1;;
  version ← Stream_Peek_UINT8;
  if version =? 3 then
    Stream_CheckAndLogRequiredLength 4;;
    Stream_Seek 2;;
    len ← Stream_Read_UINT16_BE;
    if len <? 7 then failure
    else
      Stream_CheckAndLogRequiredLength (len - 4);;
      mret len
  else mret 0.

Definition tpkt_ensure_stream_consumed (length : Z) : M wStream unit :=
  if UINT16_MAX <? length then failure
  else
    rem ← Stream_GetRemainingLength;
    if 0 <? rem then failure else mret tt.

Definition tpkt_write_header (length : Z) : M wStream unit :=
  Stream_CheckAndLogRequiredCapacity 4;;
  Stream_Write_UINT8 3;;
  Stream_Write_UINT8 0;;
  assert (length <=? UINT16_MAX);;
  Stream_Write_UINT16_BE (u16 length).

(** ** X.224 *)

(** the length indicator and the code *)
Definition tpdu_read_header (tpktlength : Z) : M wStream (Z * Z) :=
  Stream_CheckAndLogRequiredLength 3;;
  li ← Stream_Read_UINT8;
  code ← Stream_Read_UINT8;
  if tpktlength <? li + 4 then failure
  else if code =? X224_TPDU_DATA then
    Stream_Seek 1;; mret (li, code)
  else
    Stream_SafeSeek 5;; mret (li, code).

Definition tpdu_write_header (length code : Z) : M wStream unit :=
  Stream_CheckAndLogRequiredCapacity 3;;
  assert (length <=? UINT8_MAX);;
  Stream_Write_UINT8 (u8 length);;
  Stream_Write_UINT8 code;;
  if code =? X224_TPDU_DATA then Stream_Write_UINT8 0x80
  else
    Stream_CheckAndLogRequiredCapacity 5;;
    Stream_Write_UINT16 0;;
    Stream_Write_UINT16 0;;
    Stream_Write_UINT8 0.

Definition tpdu_read_connection_request (tpktlength : Z) : M wStream Z :=
  '(li, code) ← tpdu_read_header tpktlength;
  if negb (code =? X224_TPDU_CONNECTION_REQUEST) then failure else mret li.

Definition tpdu_write_connection_request (length : Z) : M wStream unit :=
  tpdu_write_header length X224_TPDU_CONNECTION_REQUEST.

(** The subtraction from the length indicator is done in [size_t]. *)
Definition tpdu_read_connection_confirm (tpktlength : Z) : M wStream Z :=
  position ← Stream_GetPosition;
  '(li, code) ← tpdu_read_header tpktlength;
  if negb (code =? X224_TPDU_CONNECTION_CONFIRM) then failure
  else
    position' ← Stream_GetPosition;
    let bytes_read := usize (usize (position' - position) - 1) in
    Stream_CheckAndLogRequiredLength (usize (li - bytes_read));;
    mret li.

Definition tpdu_write_connection_confirm (length : Z) : M wStream unit :=
  tpdu_write_header length X224_TPDU_CONNECTION_CONFIRM.

Definition tpdu_write_disconnect_request (length : Z) : M wStream unit :=
  tpdu_write_header length X224_TPDU_DISCONNECT_REQUEST.

Definition tpdu_write_data : M wStream unit := tpdu_write_header 2 X224_TPDU_DATA.

Definition tpdu_read_data (tpktlength : Z) : M wStream Z :=
  '(li, code) ← tpdu_read_header tpktlength;
  if negb (code =? X224_TPDU_DATA) then failure else mret li.

(** ** Safety of the readers *)

Lemma tpkt_read_header_safe :
  safe_reader (fun len => len = 0 \/ 7 <= len <= UINT16_MAX) tpkt_read_header.
Proof. intros s Hs. unfold tpkt_read_header. reader_auto. Qed.

Lemma tpdu_read_header_safe n :
  safe_reader (fun '(li, code) => is_byte li /\ is_byte code /\ li + 4 <= n) (tpdu_read_header n).
Proof.
  intros s Hs. unfold tpdu_read_header. reader_auto.
  all: repeat split; try word_lia; reader_step.
Qed.
#[export] Hint Resolve tpkt_read_header_safe tpdu_read_header_safe : stream.

Lemma tpdu_read_connection_request_safe n :
  safe_reader is_byte (tpdu_read_connection_request n).
Proof.
  intros s Hs. unfold tpdu_read_connection_request. reader_run.
  all: destruct a as [li code], H as (? & ? & ?); reader_auto.
Qed.

Lemma tpdu_read_data_safe n : safe_reader is_byte (tpdu_read_data n).
Proof.
  intros s Hs. unfold tpdu_read_data. reader_run.
  all: destruct a as [li code], H as (? & ? & ?); reader_auto.
Qed.

Lemma tpdu_read_connection_confirm_safe n :
  safe_reader is_byte (tpdu_read_connection_confirm n).
Proof.
  intros s Hs. unfold tpdu_read_connection_confirm. reader_run.
  all: destruct a as [li code], H as (? & ? & ?); reader_auto.
Qed.

(** ** What the writers produce *)

Definition tpkt_bytes (n : Z) : list Z := [3; 0] ++ winpr_Data_Write_UINT16_BE n.

Definition tpdu_bytes (li code : Z) : list Z :=
  if code =? X224_TPDU_DATA then [li; code; 0x80] else [li; code; 0; 0; 0; 0; 0].

Lemma emits_tpkt n : is_u16 n -> emits (tpkt_write_header n) (tpkt_bytes n) tt.
Proof.
  intros Hn. unfold tpkt_write_header. apply emits_check_capacity; [by vm_compute|].
  apply emits_u8; [by vm_compute|]. apply emits_u8; [by vm_compute|].
  apply emits_assert; [word_lia|]. unfold u16. rewrite Z.mod_small by word_lia.
  by apply writes_u16_be.
Qed.

Lemma emits_tpdu li code :
  is_byte li -> is_byte code -> emits (tpdu_write_header li code) (tpdu_bytes li code) tt.
Proof.
  intros Hl Hc. unfold tpdu_write_header, tpdu_bytes.
  destruct (code =? X224_TPDU_DATA) eqn:E; (apply emits_check_capacity; [by vm_compute|]);
    (apply emits_assert; [word_lia|]); unfold u8; rewrite Z.mod_small by word_lia;
    (apply emits_u8; [done|]); (apply emits_u8; [done|]).
  - by apply writes_u8.
  - apply emits_check_capacity; [by vm_compute|].
    eapply (emits_bind _ _ [0; 0]); [by apply (writes_u16 0)|].
    eapply (emits_bind _ _ [0; 0]); [by apply (writes_u16 0)|]. by apply writes_u8.
Qed.

(** A TPKT header in front of a packet that is all there. *)
Lemma parses_tpkt_bind {A} n (k : Z -> M wStream A) body v :
  7 <= n <= UINT16_MAX -> n - 4 <= zlen body -> parses (k n) body v ->
  parses (tpkt_read_header ≫= k) (tpkt_bytes n ++ body) v.
Proof.
  intros Hn Hb Hk. pose proof (zlen_nonneg body). unfold tpkt_read_header, tpkt_bytes.
  apply parses_assoc, parses_check; [autorewrite with zlen; lia|].
  apply parses_assoc, parses_peek_bind. simpl (3 =? 3). cbv iota.
  apply parses_assoc, parses_check; [autorewrite with zlen; lia|].
  apply parses_assoc.
  eapply (parses_bind _ _ [3; 0] (winpr_Data_Write_UINT16_BE n ++ body));
    [by apply parses_seek|].
  apply parses_assoc. eapply parses_bind; [apply parses_u16_be; word_lia|].
  rewrite (proj2 (Z.ltb_ge _ _)) by lia.
  apply parses_assoc, parses_check; [lia|]. done.
Qed.

Lemma parses_tpdu li code n :
  li + 4 <= n -> parses (tpdu_read_header n) (tpdu_bytes li code) (li, code).
Proof.
  intros Hn. unfold tpdu_read_header, tpdu_bytes.
  destruct (code =? X224_TPDU_DATA) eqn:E; (apply parses_check; [by vm_compute|]);
    do 2 apply parses_u8_bind; rewrite (proj2 (Z.ltb_ge _ _)) by lia; rewrite E.
  - eapply (parses_bind _ _ [0x80] []); [by apply parses_seek|apply parses_ret].
  - eapply (parses_bind _ _ [0; 0; 0; 0; 0] []); [|apply parses_ret].
    apply parses_check; [by vm_compute|]. by apply parses_seek.
Qed.

(** ** The promises of the framing layer *)

Lemma tpkt_read_header_eq s :
  readable s ->
  tpkt_read_header s =
  match rest s with
  | [] => Fail s
  | version :: tl =>
      if version =? 3 then
        match tl with
        | _ :: hi :: lo :: body =>
            let n := hi * 256 + lo in
            if (n <? 7) || (zlen body <? n - 4) then Fail (advance 4 s)
            else Ret n (advance 4 s)
        | _ => Fail s
        end
      else Ret 0 s
  end.
Proof.
  intros Hs. pose proof (zlen_rest s Hs) as Hl. pose proof (bytes_rest s Hs) as Hb.
  unfold tpkt_read_header.
  rewrite check_length_bind, <- Hl by done.
  destruct (rest s) as [|version tl] eqn:Hr; [done|].
  pose proof (zlen_nonneg tl). rewrite zlen_cons in *. rewrite (proj2 (Z.ltb_ge _ _)) by lia.
  erewrite bind_ret_eq.
  2: { apply stream_read_eq; [done|lia]. }
  rewrite Hr. change (winpr_Data_Get_UINT8 (ztake 1 (version :: tl))) with version. destruct (version =? 3); [|done].
  rewrite check_length_bind, <- Hl by done.
  destruct tl as [|r [|hi [|lo body]]]; try done.
  pose proof (zlen_nonneg body). rewrite !zlen_cons in *.
  rewrite (proj2 (Z.ltb_ge (zlen body + 1 + 1 + 1 + 1) 4)) by lia.
  rewrite (bind_ret_eq _ _ s tt (advance 2 s)) by (apply seek_readable; [done|lia]).
  assert (readable (advance 2 s)) as Hs2 by (apply readable_advance; [done|lia]).
  erewrite bind_ret_eq.
  2: { apply stream_read_eq; [done|]. rewrite rem_advance. lia. }
  rewrite rest_advance, Hr by (auto; lia). cbv zeta.
  bytes_inv. change (ztake 2 (zdrop 2 (version :: r :: hi :: lo :: body))) with [hi; lo].
  rewrite Get_UINT16_BE_eq, advance_advance by done. change (2 + 2) with 4.
  destruct (hi * 256 + lo <? 7) eqn:E7; [done|]. simpl.
  assert (readable (advance 4 s)) as Hs4 by (apply readable_advance; [done|lia]).
  rewrite check_length_bind, rem_advance, <- Hl by done.
  replace (zlen body + 1 + 1 + 1 + 1 - 4) with (zlen body) by lia.
  by destruct (zlen body <? _).
Qed.

(** A whole packet: the header is read and the rest is there. *)
Lemma tpkt_header_there n body s :
  readable s -> rest s = tpkt_bytes n ++ body -> 7 <= n <= UINT16_MAX -> n - 4 <= zlen body ->
  tpkt_read_header s = Ret n (advance 4 s).
Proof.
  intros Hs Hr Hn Hb. rewrite tpkt_read_header_eq, Hr by done. unfold tpkt_bytes.
  rewrite Write_UINT16_BE_eq. simpl.
  replace ((n / 256) mod 256 * 256 + n mod 256) with n by word_lia.
  destruct (Z.ltb_spec n 7), (Z.ltb_spec (zlen body) (n - 4)); try lia. done.
Qed.

(** [tpkt_read_header] on any data, completely: no data, or a TPKT version octet with
    less than the four octets of the header, is refused without moving; a full header
    whose length is below seven, or announces more octets than have arrived, is refused;
    otherwise the announced length is returned, and at least that much of the packet is
    there; data that does not start with the version octet is left alone and reported as
    length zero. *)
Theorem tpkt_read_header_spec s :
  readable s ->
  tpkt_read_header s =
  match rest s with
  | [] => Fail s
  | version :: tl =>
      if version =? 3 then
        match tl with
        | _ :: hi :: lo :: body =>
            let n := hi * 256 + lo in
            if (n <? 7) || (zlen body <? n - 4) then Fail (advance 4 s)
            else Ret n (advance 4 s)
        | _ => Fail s
        end
      else Ret 0 s
  end.
Proof. apply tpkt_read_header_eq. Qed.

Lemma tpkt_read_header_spec_witness :
  let s := Stream_StaticInit [3; 0; 0; 8; 2; 0xF0; 0x80; 42] in
  tpkt_read_header s = Ret 8 (advance 4 s).
Proof.
  cbv zeta. rewrite tpkt_read_header_spec; [reflexivity|].
  apply readable_init; [by apply bytes_check|by vm_compute].
Defined.

(** The readers of the framing layer are memory safe on arbitrary data and return a
    length indicator and a code that are octets, the indicator within the packet. *)
Theorem tpdu_readers_safe n :
  safe_reader (fun len => len = 0 \/ 7 <= len <= UINT16_MAX) tpkt_read_header /\
  safe_reader (fun '(li, code) => is_byte li /\ is_byte code /\ li + 4 <= n) (tpdu_read_header n) /\
  safe_reader is_byte (tpdu_read_connection_request n) /\
  safe_reader is_byte (tpdu_read_connection_confirm n) /\
  safe_reader is_byte (tpdu_read_data n).
Proof.
  auto 10 using tpkt_read_header_safe, tpdu_read_header_safe, tpdu_read_connection_request_safe,
    tpdu_read_connection_confirm_safe, tpdu_read_data_safe.
Qed.

Lemma wp_connection_confirm n (Q : Z -> wStream -> Prop) (F : wStream -> Prop) s :
  readable s ->
  (forall li, 6 <= li <= 255 -> li + 4 <= n -> li + 1 <= rem s -> Q li (advance 7 s)) ->
  (forall k, 0 <= k <= rem s -> F (advance k s)) ->
  wp (tpdu_read_connection_confirm n) Q F s.
Proof.
  intros Hs HQ HF. unfold tpdu_read_connection_confirm, tpdu_read_header.
  pose proof (rem_nonneg s Hs). reader_run.
  all: rewrite ?rem_advance, ?pointer_advance, ?advance_advance in *.
  all: try (apply HF; lia). all: try (rewrite <- (advance_0 s); apply HF; lia).
  all: destruct (Hs) as [[] _]; unfold rem in *; change (1 + 1 + 5) with 7 in *;
    try (apply HQ; word_lia). all: subst; done.
Qed.

(** A connection confirm is only accepted with a length indicator of at least six
    that fits the packet and with the octets it announces present: the [size_t]
    subtraction in the last check underflows for smaller indicators, and the check
    refuses them. *)
Theorem tpdu_connection_confirm_complete n s li s' :
  readable s -> tpdu_read_connection_confirm n s = Ret li s' ->
  6 <= li <= 255 /\ li + 4 <= n /\ s' = advance 7 s /\ li - 6 <= rem s'.
Proof.
  intros Hs E.
  assert (wp (tpdu_read_connection_confirm n)
    (fun li s' => 6 <= li <= 255 /\ li + 4 <= n /\ s' = advance 7 s /\ li - 6 <= rem s')
    (fun _ => True) s) as Hw; [|unfold wp in Hw; by rewrite E in Hw].
  apply wp_connection_confirm; try done. intros. rewrite rem_advance. split_and!; done || lia.
Qed.

Lemma tpdu_connection_confirm_complete_witness :
  let s := Stream_StaticInit [14; 0xD0; 0; 0; 0x12; 0x34; 0; 2; 0x1F; 8; 0; 1; 0; 0; 0] in
  6 <= 14 <= 255 /\ 14 + 4 <= 19 /\ advance 7 s = advance 7 s /\ 14 - 6 <= rem (advance 7 s).
Proof.
  cbv zeta. apply (tpdu_connection_confirm_complete 19).
  - apply readable_init; [by apply bytes_check|by vm_compute].
  - reflexivity.
Defined.

(** The receiving side of a data packet: header, data TPDU, payload. *)
Definition receive_data_packet : M wStream (Z * Z * list Z) :=
  n ← tpkt_read_header; li ← tpdu_read_data n; d ← Stream_Read (n - 7); mret (n, li, d).

(** A data packet - TPKT header with the total length, X.224 data header, payload -
    is parsed back by the receiving side to its length, length indicator and payload,
    with nothing left over, for every payload that fits a packet. *)
Theorem data_packet_roundtrip p s :
  bytes p -> zlen p + 7 <= UINT16_MAX -> wf s -> pointer s + zlen p + 7 <= capacity s ->
  exists s',
    (tpkt_write_header (zlen p + 7);; tpdu_write_data;; Stream_Write p) s = Ret tt s' /\
    pointer s' = pointer s + (zlen p + 7) /\
    reads_back s s'
      (x ← receive_data_packet; tpkt_ensure_stream_consumed x.1.1;; mret x)
      (zlen p + 7, 2, p).
Proof.
  intros Hp Hn Hs Hc. pose proof (zlen_nonneg p).
  set (bs := tpkt_bytes (zlen p + 7) ++ tpdu_bytes 2 X224_TPDU_DATA ++ p).
  assert (zlen bs = zlen p + 7) as Hz.
  { unfold bs, tpkt_bytes. change (tpdu_bytes 2 X224_TPDU_DATA) with [2; 0xF0; 0x80].
    autorewrite with zlen. lia. }
  assert (emits (tpkt_write_header (zlen p + 7);; tpdu_write_data;; Stream_Write p) bs tt) as He.
  { eapply emits_bind; [apply emits_tpkt; word_lia|].
    eapply emits_bind; [by apply emits_tpdu|by apply writes_bytes]. }
  exists (put bs s). split; [apply (proj2 He); [done|rewrite Hz; lia]|].
  split; [simpl; rewrite Hz; lia|]. eapply (parses_all_reads_back receive_data_packet _ bs).
  - unfold bs. apply parses_tpkt_bind; [lia|rewrite zlen_app; change (zlen (tpdu_bytes _ _)) with 3; lia|].
    apply parses_assoc. eapply parses_bind; [apply parses_tpdu; lia|]. simpl.
    eapply (parses_bind _ _ [] p); [apply parses_ret|].
    eapply parses_bind_last; [apply parses_bytes; lia|apply parses_ret].
  - intros r Hr Hrem. unfold tpkt_ensure_stream_consumed. simpl.
    rewrite (proj2 (Z.ltb_ge _ _)) by lia.
    rewrite (bind_ret_eq _ _ _ _ _ (remaining_length_eq r Hr)). by rewrite Hrem.
  - done.
  - apply appended_put; [done|apply He|rewrite Hz; lia].
Qed.

Lemma data_packet_roundtrip_witness :
  exists s',
    (tpkt_write_header 10;; tpdu_write_data;; Stream_Write [1; 2; 3]) (fresh 10) = Ret tt s' /\
    pointer s' = 10 /\
    reads_back (fresh 10) s'
      (x ← receive_data_packet; tpkt_ensure_stream_consumed x.1.1;; mret x)
      (10, 2, [1; 2; 3]).
Proof.
  apply (data_packet_roundtrip [1; 2; 3] (fresh 10)).
  - by apply bytes_check.
  - by vm_compute.
  - apply wf_fresh. lia.
  - by vm_compute.
Defined.
