(* ===== verification/Packet.v ===== *)
(** * Modules and packets

    A protocol module keeps its own record next to the stream it reads from: receivers work
    on the pair, senders make a stream of their own and return its contents.  This file has
    what such modules share; [Mcs] and [Nego] are built on it. *)

From S2P Require Import Prelude Stream Tpkt.

(** ** Receiving *)

Section Receiving.
Context {R : Type}.

(** A function of the stream, or of the module, in the combined state. *)
Definition on_stream {A} (m : M wStream A) : M (R * wStream) A := fun x =>
  match m x.2 with
  | Ret a s' => Ret a (x.1, s')
  | Fail s' => Fail (x.1, s')
  | Crash f => Crash f
  end.

Definition set_module (f : R -> R) : M (R * wStream) unit :=
  modify (fun x => (f x.1, x.2)).

Definition get_module : M (R * wStream) R := x ← get; mret x.1.

(** [rd] accepts the packet [bs]: it consumes all of it, returns [v] and turns the module
    [m] into [m']. *)
Definition accepts {A} (rd : M (R * wStream) A) (bs : list Z) (m : R) (v : A)
    (m' : R) : Prop :=
  forall s, readable s -> rest s = bs ->
    rd (m, s) = Ret v (m', advance (zlen bs) s).

Lemma on_stream_bind {A B} (rd : M wStream A) (k : A -> M (R * wStream) B) m s a s' :
  rd s = Ret a s' -> (on_stream rd ≫= k) (m, s) = k a (m, s').
Proof. intros E. unfold on_stream, mbind, M_bind. simpl. by rewrite E. Qed.

Lemma accepts_bind {A B} (rd : M wStream A) (k : A -> M (R * wStream) B) b1 b2 a m v m' :
  parses rd b1 a -> accepts (k a) b2 m v m' -> accepts (on_stream rd ≫= k) (b1 ++ b2) m v m'.
Proof.
  intros Hp Hk s Hs Hr. rewrite (on_stream_bind _ _ _ _ _ _ (Hp s b2 Hs Hr)).
  pose proof (zlen_nonneg b1). pose proof (rem_parses s b1 b2 Hs Hr).
  rewrite Hk.
  - by rewrite advance_advance, zlen_app.
  - apply readable_advance; [done|lia].
  - rewrite rest_advance, Hr, zdrop_app_ge by (auto; lia). by rewrite Z.sub_diag.
Qed.

Lemma accepts_check {B} n (k : unit -> M (R * wStream) B) bs m v m' :
  n <= zlen bs -> accepts (k tt) bs m v m' ->
  accepts (on_stream (Stream_CheckAndLogRequiredLength n) ≫= k) bs m v m'.
Proof.
  intros Hn Hk s Hs Hr. rewrite (on_stream_bind _ _ _ _ tt s); [by apply Hk|].
  apply check_length_ok; [done|]. rewrite <- zlen_rest, Hr by done. lia.
Qed.

Lemma accepts_get {B} (k : R -> M (R * wStream) B) bs m v m' :
  accepts (k m) bs m v m' -> accepts (get_module ≫= k) bs m v m'.
Proof. intros Hk s Hs Hr. by rewrite <- (Hk s Hs Hr). Qed.

(** nothing is left of the packet *)
Lemma accepts_consumed {B} n (k : unit -> M (R * wStream) B) m v m' :
  0 <= n <= UINT16_MAX -> accepts (k tt) [] m v m' ->
  accepts (on_stream (tpkt_ensure_stream_consumed n) ≫= k) [] m v m'.
Proof.
  intros Hn Hk s Hs Hr. rewrite (on_stream_bind _ _ _ _ tt s); [by apply Hk|].
  unfold tpkt_ensure_stream_consumed. rewrite (proj2 (Z.ltb_ge _ _)) by lia.
  rewrite (bind_ret_eq _ _ _ _ _ (remaining_length_eq s Hs)).
  rewrite <- zlen_rest, Hr by done. done.
Qed.

Lemma accepts_ret {A} (v : A) m : accepts (mret v) [] m v m.
Proof. intros s _ _. by rewrite zlen_nil, advance_0. Qed.

Lemma on_stream_ret {A} (rd : M wStream A) x :
  on_stream rd x = (on_stream rd ≫= mret) x.
Proof. unfold mbind, M_bind. by destruct (on_stream rd x). Qed.

(** the packet [p] in a stream of its own *)
Definition arrives {A} (rd : M (R * wStream) A) (p : list Z) (m : R) (v : A) (m' : R) :
    Prop :=
  exists s', rd (m, Stream_StaticInit p) = Ret v (m', s') /\ rem s' = 0.

Lemma accepts_arrives {A} (rd : M (R * wStream) A) p m v m' :
  bytes p -> zlen p < 2 ^ 62 -> accepts rd p m v m' -> arrives rd p m v m'.
Proof.
  intros Hb Hl Hrd. pose proof (readable_init p Hb Hl) as Hs. pose proof (zlen_nonneg p).
  assert (Hr : rest (Stream_StaticInit p) = p).
  { unfold rest. simpl. rewrite Z.sub_0_r. unfold slice. rewrite zdrop_0. by apply ztake_all. }
  exists (advance (zlen p) (Stream_StaticInit p)). split; [by apply Hrd|].
  rewrite rem_advance, <- zlen_rest, Hr by done. lia.
Qed.

Lemma accepts_set_module {A} f (k : unit -> M (R * wStream) A) bs m v m' :
  accepts (k tt) bs (f m) v m' -> accepts (set_module f ≫= k) bs m v m'.
Proof. intros Hk s Hs Hr. by rewrite <- (Hk s Hs Hr). Qed.

Lemma accepts_done n m : 0 <= n <= UINT16_MAX ->
  accepts (on_stream (tpkt_ensure_stream_consumed n)) [] m tt m.
Proof.
  intros Hn s Hs Hr. rewrite on_stream_ret.
  by apply (accepts_consumed n mret m tt m Hn (accepts_ret tt m)).
Qed.

(** Symbolic execution of receivers. *)
Lemma wp_on_stream {A} (rd : M wStream A) Q F (m : R) s :
  wp rd (fun a s' => Q a (m, s')) (fun s' => F (m, s')) s -> wp (on_stream rd) Q F (m, s).
Proof. unfold wp, on_stream. simpl. by destruct (rd s). Qed.

Lemma wp_set_module f (Q : unit -> R * wStream -> Prop) F m s :
  Q tt (f m, s) -> wp (set_module f) Q F (m, s).
Proof. done. Qed.

Lemma wp_get_module (Q : R -> R * wStream -> Prop) F m s : Q m (m, s) -> wp get_module Q F (m, s).
Proof. done. Qed.

Lemma wp_consumed n (Q : unit -> R * wStream -> Prop) F m s :
  readable s -> (rem s = 0 -> Q tt (m, s)) -> F (m, s) ->
  wp (on_stream (tpkt_ensure_stream_consumed n)) Q F (m, s).
Proof.
  intros Hs HQ HF. apply wp_on_stream. unfold tpkt_ensure_stream_consumed. wp_step; [done|].
  wp_step. apply wp_remaining; [done|]. pose proof (rem_nonneg s Hs). wp_step; [done|].
  apply wp_ret, HQ. lia.
Qed.
End Receiving.

(** One step of a receiver: the primitives of the stream are run by [reader_step]. *)
Ltac module_step :=
  lazymatch goal with
  | |- wp (on_stream (tpkt_ensure_stream_consumed _)) _ _ _ =>
      apply wp_consumed; [solve_readable|intros|]
  | |- wp (on_stream _) _ _ _ => apply wp_on_stream; reader_step
  | |- wp (set_module _) _ _ _ => apply wp_set_module; cbn beta
  | |- wp get_module _ _ _ => apply wp_get_module; cbn beta
  | |- wp _ _ _ _ => wp_step; cbn beta
  end.

(** ** Sending *)

Section Writers.
(** what fresh memory contains *)
Context `{Alloc} (junk : Z -> list Z).

(** A stream of [size] bytes made for [m] alone, as [m] leaves it; the caller fails when
    the stream cannot be made or [m] fails. *)
Definition with_stream {S A} (size : Z) (m : M wStream A) : M S (A * wStream) := fun x =>
  match Stream_New None (junk size) size with
  | None => Fail x
  | Some t =>
      match m t with
      | Ret a t' => Ret (a, t') x
      | Fail _ => Fail x
      | Crash f => Crash f
      end
  end.

End Writers.

Section Sending.
Context `{AllocOk} (junk : Z -> list Z).
Context (junk_len : forall n, 0 <= n -> zlen (junk n) = n) (junk_bytes : forall n, bytes (junk n)).

Definition new_stream (size : Z) : wStream := mkStream (junk size) 0 size size 1 true true.

Lemma wf_new_stream size : 0 <= size < 2 ^ 62 -> wf (new_stream size).
Proof. intros. split; simpl; try lia; [|apply junk_bytes]. rewrite junk_len; lia. Qed.

(** A writer that fits a fresh stream. *)
Lemma with_stream_emits {S A} size (m : M wStream A) bs v (x : S) :
  emits m bs v -> zlen bs <= size -> 0 < size < 2 ^ 62 ->
  with_stream junk size m x = Ret (v, put bs (new_stream size)) x.
Proof.
  intros [Hb Hm] Hl Hs. unfold with_stream, Stream_New.
  rewrite (proj2 (Z.eqb_neq _ _)) by lia. rewrite alloc_ok by lia.
  fold (new_stream size). rewrite Hm; [done|apply wf_new_stream; lia|simpl; lia].
Qed.

Lemma written_new size bs : zlen bs <= size -> written (put bs (new_stream size)) = bs.
Proof.
  intros. unfold written, put. simpl. pose proof (zlen_nonneg bs).
  apply (blit_ztake 0); [lia|]. rewrite junk_len; lia.
Qed.

(** a writer that seals the length of the stream at the end *)
Definition seals (m : M wStream unit) (bs : list Z) : Prop :=
  bytes bs /\
  forall s, wf s -> pointer s + zlen bs <= capacity s ->
    m s = Ret tt (set_len (pointer s + zlen bs) (put bs s)).

Lemma seals_end : seals Stream_SealLength [].
Proof.
  split; [constructor|]. intros s Hs Hc. destruct (Hs). rewrite put_nil, zlen_nil, Z.add_0_r by done.
  unfold Stream_SealLength. rewrite get_bind. rewrite !assert_bind by lia.
  by rewrite (proj2 (Z.leb_le _ _)) by lia.
Qed.

Lemma seals_bind {A} (m : M wStream A) v k b1 b2 :
  emits m b1 v -> seals k b2 -> seals (m;; k) (b1 ++ b2).
Proof.
  intros [Hb1 H1] [Hb2 H2]. split; [by apply Forall_app|]. intros s Hs Hc.
  rewrite zlen_app in Hc. pose proof (zlen_nonneg b1). pose proof (zlen_nonneg b2).
  rewrite (bind_ret_eq _ _ s _ _ (H1 s Hs ltac:(lia))). rewrite H2.
  - rewrite put_app by (auto; lia). simpl. rewrite zlen_app, Z.add_assoc. done.
  - apply wf_put; auto; lia.
  - simpl. lia.
Qed.

(** the packet it leaves in a fresh stream *)
Lemma with_stream_sealed {S} size (m : M wStream unit) bs (x : S) :
  seals m bs -> zlen bs <= size -> 0 < size < 2 ^ 62 ->
  exists s, with_stream junk size m x = Ret (tt, s) x /\ written s = bs.
Proof.
  intros [Hb Hm] Hl Hs. pose proof (wf_new_stream size ltac:(lia)) as Hw.
  exists (set_len (0 + zlen bs) (put bs (new_stream size))). split.
  - unfold with_stream, Stream_New. rewrite (proj2 (Z.eqb_neq _ _)) by lia. rewrite alloc_ok by lia.
    fold (new_stream size). by rewrite (Hm _ Hw ltac:(simpl; lia)).
  - apply (written_new size bs Hl).
Qed.

End Sending.

(** memory that comes zeroed *)
Definition zero_junk (n : Z) : list Z := zrepeat n 0.

Lemma zero_junk_len n : 0 <= n -> zlen (zero_junk n) = n.
Proof. apply zlen_zrepeat. Qed.

Lemma zero_junk_bytes n : bytes (zero_junk n).
Proof. apply Forall_zrepeat. done. Qed.
