(* ===== verification/Mcs.v ===== *)
(** * The multipoint communication service

    Model of [libfreerdp/core/mcs.c] (T.125): the domain parameters and their negotiation,
    the static channels, and the domain PDUs by which a client erects a domain, attaches a
    user and joins channels.  A receiving function changes the MCS module and the stream;
    a sending function returns the packet it hands to the transport. *)

From S2P Require Import Prelude Stream Per Ber Tpkt Packet.

Definition MCS_Result_enum_length : Z := 16.
Definition MCS_BASE_CHANNEL_ID : Z := 1001.
Definition MCS_GLOBAL_CHANNEL_ID : Z := 1003.
Definition MCS_TYPE_CONNECT_INITIAL : Z := 0x65.
Definition MCS_TYPE_CONNECT_RESPONSE : Z := 0x66.
Definition CHANNEL_MAX_COUNT : Z := 31.
Definition CHANNEL_NAME_LEN : Z := 7.

Definition DomainMCSPDU_ErectDomainRequest : Z := 1.
Definition DomainMCSPDU_DisconnectProviderUltimatum : Z := 8.
Definition DomainMCSPDU_AttachUserRequest : Z := 10.
Definition DomainMCSPDU_AttachUserConfirm : Z := 11.
Definition DomainMCSPDU_ChannelJoinRequest : Z := 14.
Definition DomainMCSPDU_ChannelJoinConfirm : Z := 15.

Record DomainParameters := mkParams {
  maxChannelIds : Z;
  maxUserIds : Z;
  maxTokenIds : Z;
  numPriorities : Z;
  minThroughput : Z;
  maxHeight : Z;
  maxMCSPDUsize : Z;
  protocolVersion : Z
}.

Record rdpMcsChannel := mkChannel {
  Name : list Z;
  options : Z;
  ChannelId : Z;
  joined : bool
}.

Record rdpMcs := mkMcs {
  userId : Z;
  baseChannelId : Z;
  IOChannelId : Z;
  messageChannelId : Z;
  flags : Z;
  domainParameters : DomainParameters;
  targetParameters : DomainParameters;
  minimumParameters : DomainParameters;
  maximumParameters : DomainParameters;
  userChannelJoined : bool;
  globalChannelJoined : bool;
  messageChannelJoined : bool;
  channelCount : Z;
  channelMaxCount : Z;
  channels : list rdpMcsChannel
}.

(** The settings the module looks at. *)
Record CHANNEL_DEF := mkDef { def_name : list Z; def_options : Z }.

Record mcs_settings := mkSettings {
  ChannelCount : Z;
  ChannelDefArray : list CHANNEL_DEF;
  TransportDumpReplay : bool
}.

Definition set_userId (v : Z) (m : rdpMcs) : rdpMcs :=
  mkMcs v (baseChannelId m) (IOChannelId m) (messageChannelId m) (flags m) (domainParameters m)
    (targetParameters m) (minimumParameters m) (maximumParameters m) (userChannelJoined m)
    (globalChannelJoined m) (messageChannelJoined m) (channelCount m) (channelMaxCount m)
    (channels m).
Definition set_baseChannelId (v : Z) (m : rdpMcs) : rdpMcs :=
  mkMcs (userId m) v (IOChannelId m) (messageChannelId m) (flags m) (domainParameters m)
    (targetParameters m) (minimumParameters m) (maximumParameters m) (userChannelJoined m)
    (globalChannelJoined m) (messageChannelJoined m) (channelCount m) (channelMaxCount m)
    (channels m).
Definition set_channels (n : Z) (l : list rdpMcsChannel) (m : rdpMcs) : rdpMcs :=
  mkMcs (userId m) (baseChannelId m) (IOChannelId m) (messageChannelId m) (flags m)
    (domainParameters m) (targetParameters m) (minimumParameters m) (maximumParameters m)
    (userChannelJoined m) (globalChannelJoined m) (messageChannelJoined m) n
    (channelMaxCount m) l.

(** the four sets of parameters of the module *)
Inductive slot := DomainSlot | TargetSlot | MinimumSlot | MaximumSlot.

Definition params_of (w : slot) (m : rdpMcs) : DomainParameters :=
  match w with
  | DomainSlot => domainParameters m
  | TargetSlot => targetParameters m
  | MinimumSlot => minimumParameters m
  | MaximumSlot => maximumParameters m
  end.

Definition set_params (w : slot) (p : DomainParameters) (m : rdpMcs) : rdpMcs :=
  mkMcs (userId m) (baseChannelId m) (IOChannelId m) (messageChannelId m) (flags m)
    (match w with DomainSlot => p | _ => domainParameters m end)
    (match w with TargetSlot => p | _ => targetParameters m end)
    (match w with MinimumSlot => p | _ => minimumParameters m end)
    (match w with MaximumSlot => p | _ => maximumParameters m end)
    (userChannelJoined m) (globalChannelJoined m) (messageChannelJoined m) (channelCount m)
    (channelMaxCount m) (channels m).

(** ** The module and its parameters *)

Definition mcs_init_domain_parameters (channels users tokens size : Z) : DomainParameters :=
  mkParams channels users tokens 1 0 1 size 2.

Definition no_channel : rdpMcsChannel := mkChannel (zrepeat 8 0) 0 0 false.

(** Both allocations succeed or there is no module. *)
Definition mcs_new (alloc_ok : bool) : option rdpMcs :=
  if alloc_ok then
    Some (mkMcs 0 (MCS_GLOBAL_CHANNEL_ID + 1) 0 0 0
      (mcs_init_domain_parameters 0 0 0 0xFFFF)
      (mcs_init_domain_parameters 34 2 0 0xFFFF)
      (mcs_init_domain_parameters 1 1 1 0x420)
      (mcs_init_domain_parameters 0xFFFF 0xFC17 0xFFFF 0xFFFF)
      false false false 0 CHANNEL_MAX_COUNT (zrepeat CHANNEL_MAX_COUNT no_channel))
  else None.

(** the loop over the channels; [freerdp_settings_get_pointer_array] gives no entry past
    the end of the array *)
Fixpoint init_channels (n : nat) (index : Z) (settings : mcs_settings) : M rdpMcs unit :=
  match n with
  | O => mret tt
  | S n' =>
      match ChannelDefArray settings !! Z.to_nat index with
      | None => crash AssertFailed
      | Some d =>
          modify (fun m =>
            set_channels (channelCount m)
              (alter (fun cur => mkChannel (blit 0 (ztake CHANNEL_NAME_LEN (def_name d)) (Name cur))
                                   (def_options d) (ChannelId cur) (joined cur))
                 (Z.to_nat index) (channels m)) m);;
          init_channels n' (index + 1) settings
      end
  end.

Definition mcs_initialize_client_channels (settings : mcs_settings) : M rdpMcs unit :=
  m ← get;
  let count := if channelMaxCount m <? ChannelCount settings
               then channelMaxCount m else ChannelCount settings in
  modify (set_channels count (zrepeat (channelMaxCount m) no_channel));;
  init_channels (Z.to_nat count) 0 settings.

(** The state is the output structure; a failure leaves what was set before it. *)
Definition mcs_merge_domain_parameters (target minimum maximum : DomainParameters) :
    M DomainParameters unit :=
  (if 4 <=? maxChannelIds target then
     modify (fun p => mkParams (maxChannelIds target) (maxUserIds p) (maxTokenIds p)
       (numPriorities p) (minThroughput p) (maxHeight p) (maxMCSPDUsize p) (protocolVersion p))
   else if 4 <=? maxChannelIds maximum then
     modify (fun p => mkParams 4 (maxUserIds p) (maxTokenIds p)
       (numPriorities p) (minThroughput p) (maxHeight p) (maxMCSPDUsize p) (protocolVersion p))
   else failure);;
  (if 3 <=? maxUserIds target then
     modify (fun p => mkParams (maxChannelIds p) (maxUserIds target) (maxTokenIds p)
       (numPriorities p) (minThroughput p) (maxHeight p) (maxMCSPDUsize p) (protocolVersion p))
   else if 3 <=? maxUserIds maximum then
     modify (fun p => mkParams (maxChannelIds p) 3 (maxTokenIds p)
       (numPriorities p) (minThroughput p) (maxHeight p) (maxMCSPDUsize p) (protocolVersion p))
   else failure);;
  modify (fun p => mkParams (maxChannelIds p) (maxUserIds p) (maxTokenIds target)
    (numPriorities p) (minThroughput p) (maxHeight p) (maxMCSPDUsize p) (protocolVersion p));;
  (if numPriorities minimum <=? 1 then
     modify (fun p => mkParams (maxChannelIds p) (maxUserIds p) (maxTokenIds p)
       1 (minThroughput p) (maxHeight p) (maxMCSPDUsize p) (protocolVersion p))
   else failure);;
  modify (fun p => mkParams (maxChannelIds p) (maxUserIds p) (maxTokenIds p)
    (numPriorities p) (minThroughput target) (maxHeight p) (maxMCSPDUsize p) (protocolVersion p));;
  (if (maxHeight target =? 1) || (maxHeight minimum <=? 1) then
     modify (fun p => mkParams (maxChannelIds p) (maxUserIds p) (maxTokenIds p)
       (numPriorities p) (minThroughput p) 1 (maxMCSPDUsize p) (protocolVersion p))
   else failure);;
  (if 1024 <=? maxMCSPDUsize target then
     if maxMCSPDUsize target <=? 65528 then
       modify (fun p => mkParams (maxChannelIds p) (maxUserIds p) (maxTokenIds p)
         (numPriorities p) (minThroughput p) (maxHeight p) (maxMCSPDUsize target) (protocolVersion p))
     else if (124 <=? maxMCSPDUsize minimum) && (maxMCSPDUsize minimum <=? 65528) then
       modify (fun p => mkParams (maxChannelIds p) (maxUserIds p) (maxTokenIds p)
         (numPriorities p) (minThroughput p) (maxHeight p) 65528 (protocolVersion p))
     else failure
   else
     if 124 <=? maxMCSPDUsize maximum then
       modify (fun p => mkParams (maxChannelIds p) (maxUserIds p) (maxTokenIds p)
         (numPriorities p) (minThroughput p) (maxHeight p) (maxMCSPDUsize maximum) (protocolVersion p))
     else failure);;
  (if (protocolVersion target =? 2) ||
      ((protocolVersion minimum <=? 2) && (2 <=? protocolVersion maximum)) then
     modify (fun p => mkParams (maxChannelIds p) (maxUserIds p) (maxTokenIds p)
       (numPriorities p) (minThroughput p) (maxHeight p) (maxMCSPDUsize p) 2)
   else failure).

(** ** Reading *)

(** the length of the packet *)
Definition mcs_read_domain_mcspdu_header (domainMCSPDU : Z) : M wStream Z :=
  assert (negb (domainMCSPDU =? 0));;
  length ← tpkt_read_header;
  tpdu_read_data length;;
  choice ← per_read_choice;
  if negb (domainMCSPDU =? Z.shiftr choice 2) then failure else mret length.

(** [ber_read_integer (s, &params->field)] *)
Definition read_param (w : slot) (set : Z -> DomainParameters -> DomainParameters) :
    M (rdpMcs * wStream) unit :=
  v ← on_stream ber_read_integer;
  set_module (fun m => set_params w (set v (params_of w m)) m).

Definition mcs_read_domain_parameters (w : slot) : M (rdpMcs * wStream) unit :=
  on_stream ber_read_sequence_tag;;
  read_param w (fun v p => mkParams v (maxUserIds p) (maxTokenIds p) (numPriorities p)
    (minThroughput p) (maxHeight p) (maxMCSPDUsize p) (protocolVersion p));;
  read_param w (fun v p => mkParams (maxChannelIds p) v (maxTokenIds p) (numPriorities p)
    (minThroughput p) (maxHeight p) (maxMCSPDUsize p) (protocolVersion p));;
  read_param w (fun v p => mkParams (maxChannelIds p) (maxUserIds p) v (numPriorities p)
    (minThroughput p) (maxHeight p) (maxMCSPDUsize p) (protocolVersion p));;
  read_param w (fun v p => mkParams (maxChannelIds p) (maxUserIds p) (maxTokenIds p) v
    (minThroughput p) (maxHeight p) (maxMCSPDUsize p) (protocolVersion p));;
  read_param w (fun v p => mkParams (maxChannelIds p) (maxUserIds p) (maxTokenIds p)
    (numPriorities p) v (maxHeight p) (maxMCSPDUsize p) (protocolVersion p));;
  read_param w (fun v p => mkParams (maxChannelIds p) (maxUserIds p) (maxTokenIds p)
    (numPriorities p) (minThroughput p) v (maxMCSPDUsize p) (protocolVersion p));;
  read_param w (fun v p => mkParams (maxChannelIds p) (maxUserIds p) (maxTokenIds p)
    (numPriorities p) (minThroughput p) (maxHeight p) v (protocolVersion p));;
  read_param w (fun v p => mkParams (maxChannelIds p) (maxUserIds p) (maxTokenIds p)
    (numPriorities p) (minThroughput p) (maxHeight p) (maxMCSPDUsize p) v).

Definition mcs_recv_erect_domain_request : M (rdpMcs * wStream) unit :=
  length ← on_stream (mcs_read_domain_mcspdu_header DomainMCSPDU_ErectDomainRequest);
  on_stream per_read_integer;;
  on_stream per_read_integer;;
  on_stream (tpkt_ensure_stream_consumed length).

Definition mcs_recv_attach_user_request : M (rdpMcs * wStream) unit :=
  length ← on_stream (mcs_read_domain_mcspdu_header DomainMCSPDU_AttachUserRequest);
  on_stream (tpkt_ensure_stream_consumed length).

(** [per_read_integer16 (s, &(mcs->userId), min)]: the two octets are stored in the module
    before they are compared with the bound, so that a refusal leaves them there. *)
Definition read_userId (min : Z) : M (rdpMcs * wStream) unit :=
  on_stream (Stream_CheckAndLogRequiredLength 2);;
  integer ← on_stream Stream_Read_UINT16_BE;
  set_module (set_userId integer);;
  if UINT16_MAX - min <? integer then failure
  else set_module (set_userId (u16 (integer + min))).

Definition mcs_recv_attach_user_confirm : M (rdpMcs * wStream) unit :=
  length ← on_stream (mcs_read_domain_mcspdu_header DomainMCSPDU_AttachUserConfirm);
  on_stream (per_read_enumerated MCS_Result_enum_length);;
  read_userId MCS_BASE_CHANNEL_ID;;
  on_stream (tpkt_ensure_stream_consumed length).

(** the channel requested *)
Definition mcs_recv_channel_join_request (settings : mcs_settings) : M (rdpMcs * wStream) Z :=
  length ← on_stream (mcs_read_domain_mcspdu_header DomainMCSPDU_ChannelJoinRequest);
  user ← on_stream (per_read_integer16 MCS_BASE_CHANNEL_ID);
  m ← get_module;
  (if negb (user =? userId m) then
     if TransportDumpReplay settings then set_module (set_userId user) else failure
   else mret tt);;
  channelId ← on_stream (per_read_integer16 0);
  on_stream (tpkt_ensure_stream_consumed length);;
  mret channelId.

Definition mcs_recv_channel_join_confirm : M (rdpMcs * wStream) Z :=
  length ← on_stream (mcs_read_domain_mcspdu_header DomainMCSPDU_ChannelJoinConfirm);
  on_stream (per_read_enumerated MCS_Result_enum_length);;
  on_stream (per_read_integer16 MCS_BASE_CHANNEL_ID);;
  on_stream (per_read_integer16 0);;
  channelId ← on_stream (per_read_integer16 0);
  on_stream (tpkt_ensure_stream_consumed length);;
  mret channelId.

(** The choice octet has been read by the caller; the function steps back over it. *)
Definition mcs_recv_disconnect_provider_ultimatum : M (rdpMcs * wStream) Z :=
  on_stream (Stream_CheckAndLogRequiredLength 1);;
  on_stream (Stream_Rewind 1);;
  b1 ← on_stream Stream_Read_UINT8;
  b2 ← on_stream Stream_Read_UINT8;
  mret (Z.lor (Z.shiftl (Z.land b1 0x01) 1) (Z.shiftr b2 7)).

(** ** Writing *)

Section Writers.
(** what fresh memory contains *)
Context `{Alloc} (junk : Z -> list Z).

Definition mcs_write_domain_mcspdu_header (domainMCSPDU length opts : Z) : M wStream unit :=
  assert (Z.land opts (Z.lnot 0x03) =? 0);;
  assert (Z.land domainMCSPDU (Z.lnot 0x3F) =? 0);;
  tpkt_write_header length;;
  tpdu_write_data;;
  per_write_choice (u8 (Z.lor (Z.shiftl domainMCSPDU 2) opts)).

Definition mcs_write_domain_parameters (p : DomainParameters) : M wStream unit :=
  cap ← Stream_Capacity;
  '(_, tmps) ← with_stream junk cap
    (ber_write_integer (maxChannelIds p);;
     ber_write_integer (maxUserIds p);;
     ber_write_integer (maxTokenIds p);;
     ber_write_integer (numPriorities p);;
     ber_write_integer (minThroughput p);;
     ber_write_integer (maxHeight p);;
     ber_write_integer (maxMCSPDUsize p);;
     ber_write_integer (protocolVersion p));
  ber_write_sequence_tag (pointer tmps);;
  Stream_Write (written tmps).

(** [userData] is what has been written to the stream of that name. *)
Definition mcs_write_connect_initial (m : rdpMcs) (userData : list Z) : M wStream unit :=
  cap ← Stream_Capacity;
  '(_, tmps) ← with_stream junk cap
    (ber_write_octet_string [1];;
     ber_write_octet_string [1];;
     ber_write_BOOL 1;;
     mcs_write_domain_parameters (targetParameters m);;
     mcs_write_domain_parameters (minimumParameters m);;
     mcs_write_domain_parameters (maximumParameters m);;
     ber_write_octet_string userData);
  ber_write_application_tag MCS_TYPE_CONNECT_INITIAL (pointer tmps);;
  Stream_Write (written tmps).

Definition mcs_write_connect_response (m : rdpMcs) (userData : list Z) : M wStream unit :=
  cap ← Stream_Capacity;
  '(_, tmps) ← with_stream junk cap
    (ber_write_enumerated 0 MCS_Result_enum_length;;
     ber_write_integer 0;;
     mcs_write_domain_parameters (domainParameters m);;
     ber_write_octet_string userData);
  ber_write_application_tag MCS_TYPE_CONNECT_RESPONSE (pointer tmps);;
  Stream_Write (written tmps).

Definition mcs_send_erect_domain_request : M rdpMcs (list Z) :=
  '(_, s) ← with_stream junk 12
    (attempt (mcs_write_domain_mcspdu_header DomainMCSPDU_ErectDomainRequest 12 0);;
     attempt (per_write_integer 0);;
     attempt (per_write_integer 0);;
     Stream_SealLength);
  mret (written s).

Definition mcs_send_attach_user_request : M rdpMcs (list Z) :=
  '(_, s) ← with_stream junk 8
    (attempt (mcs_write_domain_mcspdu_header DomainMCSPDU_AttachUserRequest 8 0);;
     Stream_SealLength);
  mret (written s).

(** The stream is made before the user id is taken from the channel counter. *)
Definition mcs_send_attach_user_confirm : M rdpMcs (list Z) :=
  (if malloc_ok 11 then mret tt else failure);;
  modify (fun m => set_baseChannelId (u16 (baseChannelId m + 1)) (set_userId (baseChannelId m) m));;
  m ← get;
  '(_, s) ← with_stream junk 11
    (attempt (mcs_write_domain_mcspdu_header DomainMCSPDU_AttachUserConfirm 11 2);;
     attempt (per_write_enumerated 0 MCS_Result_enum_length);;
     attempt (per_write_integer16 (userId m) MCS_BASE_CHANNEL_ID);;
     Stream_SealLength);
  mret (written s).

Definition mcs_send_channel_join_request (channelId : Z) : M rdpMcs (list Z) :=
  m ← get;
  '(_, s) ← with_stream junk 12
    (attempt (mcs_write_domain_mcspdu_header DomainMCSPDU_ChannelJoinRequest 12 0);;
     attempt (per_write_integer16 (userId m) MCS_BASE_CHANNEL_ID);;
     attempt (per_write_integer16 channelId 0);;
     Stream_SealLength);
  mret (written s).

Definition mcs_send_channel_join_confirm (channelId : Z) : M rdpMcs (list Z) :=
  m ← get;
  '(_, s) ← with_stream junk 15
    (mcs_write_domain_mcspdu_header DomainMCSPDU_ChannelJoinConfirm 15 2;;
     per_write_enumerated 0 MCS_Result_enum_length;;
     per_write_integer16 (userId m) MCS_BASE_CHANNEL_ID;;
     per_write_integer16 channelId 0;;
     per_write_integer16 channelId 0;;
     Stream_SealLength);
  mret (written s).

(** The reason is the count of an enumeration with the value 0x80. *)
Definition mcs_send_disconnect_provider_ultimatum (reason : Z) : M rdpMcs (list Z) :=
  '(_, s) ← with_stream junk 9
    (mcs_write_domain_mcspdu_header DomainMCSPDU_DisconnectProviderUltimatum 9 1;;
     count ← asserting_cast u8 reason;
     per_write_enumerated 0x80 count);
  mret (written s).
End Writers.

(** ** Packets on the way out *)

Section Sending.
Context `{AllocOk} (junk : Z -> list Z).
Context (junk_len : forall n, 0 <= n -> zlen (junk n) = n) (junk_bytes : forall n, bytes (junk n)).

(** *** The bytes of the domain PDUs *)

Definition pdu_header (pdu opts n : Z) : list Z :=
  tpkt_bytes n ++ [2; 0xF0; 0x80; Z.lor (Z.shiftl pdu 2) opts].

Definition is_pdu (pdu opts : Z) : Prop := 0 < pdu < 64 /\ 0 <= opts < 4.

Lemma pdu_octet pdu opts :
  is_pdu pdu opts -> Z.lor (Z.shiftl pdu 2) opts = pdu * 4 + opts /\
    Z.land opts (Z.lnot 3) = 0 /\ Z.land pdu (Z.lnot 0x3F) = 0.
Proof.
  intros [Hp Ho]. split; [apply (lor_shiftl_add pdu opts 2); lia|].
  change (Z.lnot 3) with (Z.lnot (Z.ones 2)). change (Z.lnot 0x3F) with (Z.lnot (Z.ones 6)).
  rewrite <- !Z.ldiff_land, !Z.ldiff_ones_r, !shiftr_div by lia.
  rewrite !Z.div_small by lia. done.
Qed.

Lemma emits_pdu_header pdu opts n :
  is_pdu pdu opts -> is_u16 n ->
  emits (mcs_write_domain_mcspdu_header pdu n opts) (pdu_header pdu opts n) tt.
Proof.
  intros Hp Hn. destruct (pdu_octet pdu opts Hp) as (E & A1 & A2). destruct Hp as [Hp Ho].
  unfold mcs_write_domain_mcspdu_header, pdu_header. rewrite A1, A2.
  apply emits_assert; [done|]. apply emits_assert; [done|].
  eapply emits_bind; [by apply emits_tpkt|].
  eapply (emits_bind _ _ [2; 0xF0; 0x80]); [by apply (emits_tpdu 2 X224_TPDU_DATA)|].
  unfold u8. rewrite E, Z.mod_small by lia.
  apply emits_ensure; [by vm_compute|]. apply writes_u8. word_lia.
Qed.

Lemma emits_per_integer_0 : emits (per_write_integer 0) [1; 0] tt.
Proof.
  unfold per_write_integer. simpl. eapply (emits_bind _ _ [1] [0]).
  - apply emits_ensure; [by vm_compute|]. by apply writes_u8.
  - apply emits_ensure; [by vm_compute|]. apply emits_cast; [done|]. by apply writes_u8.
Qed.

Lemma emits_per_enumerated e count : is_byte e -> emits (per_write_enumerated e count) [e] tt.
Proof. intros. apply emits_ensure; [by vm_compute|]. by apply writes_u8. Qed.

Lemma emits_per_integer16 v min :
  is_u16 v -> 0 <= min <= v ->
  emits (per_write_integer16 v min) (winpr_Data_Write_UINT16_BE (v - min)) tt.
Proof.
  intros Hv Hm. unfold per_write_integer16. rewrite (proj2 (Z.ltb_ge _ _)) by lia.
  apply emits_ensure; [by vm_compute|]. apply writes_u16_be. word_lia.
Qed.
End Sending.

(** ** Packets on the way in *)

(** The header of a whole packet of the expected kind. *)
Lemma header_there pdu opts body n s :
  is_pdu pdu opts -> n = 8 + zlen body -> n <= UINT16_MAX ->
  readable s -> rest s = pdu_header pdu opts n ++ body ->
  mcs_read_domain_mcspdu_header pdu s = Ret n (advance 8 s) /\
  readable (advance 8 s) /\ rest (advance 8 s) = body.
Proof.
  intros Hp Hn Hmax Hs Hr. pose proof (zlen_nonneg body).
  destruct (pdu_octet pdu opts Hp) as (Eo & _ & _). destruct Hp as [Hp Ho].
  unfold pdu_header in Hr. rewrite <- app_assoc in Hr.
  pose proof (zlen_rest s Hs) as Hz. rewrite Hr, !zlen_app in Hz.
  change (zlen (tpkt_bytes n)) with 4 in Hz. rewrite !zlen_cons, zlen_nil in Hz.
  assert (readable (advance 4 s)) as Hs4 by (apply readable_advance; [done|lia]).
  assert (Hr4 : rest (advance 4 s) = [2; 0xF0; 0x80; pdu * 4 + opts] ++ body).
  { rewrite rest_advance, Hr, Eo by (auto; lia). done. }
  split_and!; [|apply readable_advance; [done|lia]|rewrite rest_advance, Hr by (auto; lia); done].
  unfold mcs_read_domain_mcspdu_header. rewrite assert_bind by (apply negb_true_iff, Z.eqb_neq; lia).
  rewrite (bind_ret_eq _ _ _ _ _ (tpkt_header_there n _ s Hs Hr ltac:(lia)
    ltac:(rewrite zlen_app, !zlen_cons, zlen_nil; lia))).
  assert (Hp1 : parses (tpdu_read_data n;; choice ← per_read_choice;
    if negb (pdu =? Z.shiftr choice 2) then failure else mret n)
    [2; 0xF0; 0x80; pdu * 4 + opts] n).
  { eapply (parses_bind _ _ [2; 0xF0; 0x80] [pdu * 4 + opts]).
    - eapply (parses_bind_last _ _ _ (2, X224_TPDU_DATA)); [apply (parses_tpdu 2 X224_TPDU_DATA); lia|].
      simpl. apply parses_ret.
    - eapply (parses_bind _ _ [pdu * 4 + opts] []).
      + apply parses_check; [by vm_compute|]. apply parses_u8.
      + rewrite shiftr_div by lia. replace ((pdu * 4 + opts) / 2 ^ 2) with pdu by (Z.div_mod_to_equations; lia).
        rewrite Z.eqb_refl. apply parses_ret. }
  rewrite (Hp1 _ body Hs4 Hr4), advance_advance. done.
Qed.

Lemma accepts_header {A} pdu opts body n (k : Z -> M (rdpMcs * wStream) A) m v m' :
  is_pdu pdu opts -> n = 8 + zlen body -> n <= UINT16_MAX ->
  accepts (k n) body m v m' ->
  accepts (on_stream (mcs_read_domain_mcspdu_header pdu) ≫= k) (pdu_header pdu opts n ++ body) m v m'.
Proof.
  intros Hp Hn Hmax Hk s Hs Hr.
  destruct (header_there pdu opts body n s Hp Hn Hmax Hs Hr) as (E & Hs8 & Hr8).
  rewrite (on_stream_bind _ _ _ _ _ _ E), Hk, advance_advance by done.
  unfold pdu_header. rewrite !zlen_app. change (zlen (tpkt_bytes n)) with 4.
  rewrite !zlen_cons, zlen_nil. repeat f_equal; lia.
Qed.

(** *** Packets and what they do to the receiver *)

Lemma bytes_pdu_header pdu opts n : is_pdu pdu opts -> bytes (pdu_header pdu opts n).
Proof.
  intros Hp. destruct (pdu_octet pdu opts Hp) as (E & _). destruct Hp. unfold pdu_header, tpkt_bytes.
  rewrite E. repeat apply Forall_app_2; try apply bytes_Write_UINT16_BE;
    repeat (apply Forall_cons_2; [word_lia|]); constructor.
Qed.

Lemma zlen_pdu_header pdu opts n : zlen (pdu_header pdu opts n) = 8.
Proof. done. Qed.

Lemma parses_per_enumerated e count :
  e < count -> parses (per_read_enumerated count) [e] e.
Proof.
  intros He. unfold per_read_enumerated. apply parses_check; [by vm_compute|].
  apply parses_u8_bind. rewrite (proj2 (Z.ltb_ge _ _)) by lia. apply parses_ret.
Qed.

(** the module as it is made *)
Definition new_mcs : rdpMcs := default (mkMcs 0 0 0 0 0 (mkParams 0 0 0 0 0 0 0 0)
  (mkParams 0 0 0 0 0 0 0 0) (mkParams 0 0 0 0 0 0 0 0) (mkParams 0 0 0 0 0 0 0 0)
  false false false 0 0 []) (mcs_new true).

Section Handshake.
Context `{AllocOk} (junk : Z -> list Z).
Context (junk_len : forall n, 0 <= n -> zlen (junk n) = n) (junk_bytes : forall n, bytes (junk n)).
Implicit Types (m cl sv : rdpMcs).

(** a packet of a fixed size: header and body *)
Lemma send_ok size pdu opts body w m :
  is_pdu pdu opts -> size = 8 + zlen body -> size < 1000 ->
  seals w (pdu_header pdu opts size ++ body) ->
  ('(_, s) ← with_stream junk size w; mret (written s)) m = Ret (pdu_header pdu opts size ++ body) m.
Proof.
  intros Hp Hz Hlt He. pose proof (zlen_nonneg body).
  destruct (with_stream_sealed junk junk_len junk_bytes size w _ m He) as (s & E & W);
    [rewrite zlen_app, zlen_pdu_header; lia|lia|].
  rewrite (bind_ret_eq _ _ _ _ _ E). simpl. by rewrite W.
Qed.

Ltac send_step :=
  lazymatch goal with
  | |- seals (attempt (mcs_write_domain_mcspdu_header _ _ _);; _) _ =>
      eapply seals_bind; [apply emits_attempt, emits_pdu_header; done|]
  | |- seals (mcs_write_domain_mcspdu_header _ _ _;; _) _ =>
      eapply seals_bind; [apply emits_pdu_header; done|]
  | |- seals (attempt (per_write_integer 0);; _) _ =>
      eapply seals_bind; [apply emits_attempt, emits_per_integer_0|]
  | |- seals (attempt (per_write_enumerated _ _);; _) _ =>
      eapply seals_bind; [apply emits_attempt, emits_per_enumerated; done|]
  | |- seals (per_write_enumerated _ _;; _) _ =>
      eapply seals_bind; [apply emits_per_enumerated; done|]
  | |- seals (attempt (per_write_integer16 _ _);; _) _ =>
      eapply seals_bind; [apply emits_attempt, emits_per_integer16; word_lia|]
  | |- seals (per_write_integer16 _ _;; _) _ =>
      eapply seals_bind; [apply emits_per_integer16; word_lia|]
  | |- seals Stream_SealLength _ => apply seals_end
  end.

Lemma erect_domain_sent m :
  mcs_send_erect_domain_request junk m =
  Ret (pdu_header DomainMCSPDU_ErectDomainRequest 0 12 ++ [1; 0; 1; 0]) m.
Proof.
  apply send_ok; try done. change [1; 0; 1; 0] with ([1; 0] ++ [1; 0] ++ []). repeat send_step.
Qed.

Lemma attach_request_sent m :
  mcs_send_attach_user_request junk m = Ret (pdu_header DomainMCSPDU_AttachUserRequest 0 8 ++ []) m.
Proof. apply send_ok; try done. repeat send_step. Qed.

Definition user_bytes (u : Z) : list Z := winpr_Data_Write_UINT16_BE (u - MCS_BASE_CHANNEL_ID).

Definition is_user (u : Z) : Prop := MCS_BASE_CHANNEL_ID <= u <= UINT16_MAX.

Lemma attach_confirm_sent m :
  is_user (baseChannelId m) ->
  mcs_send_attach_user_confirm junk m =
  Ret (pdu_header DomainMCSPDU_AttachUserConfirm 2 11 ++ [0] ++ user_bytes (baseChannelId m))
      (set_baseChannelId (u16 (baseChannelId m + 1)) (set_userId (baseChannelId m) m)).
Proof.
  intros Hu. unfold is_user, MCS_BASE_CHANNEL_ID, UINT16_MAX in Hu. unfold mcs_send_attach_user_confirm.
  rewrite alloc_ok by lia. rewrite ret_bind, modify_bind, get_bind.
  apply (send_ok 11 DomainMCSPDU_AttachUserConfirm 2 ([0] ++ user_bytes (baseChannelId m))); try done.
  rewrite <- (app_nil_r (user_bytes _)). unfold user_bytes, MCS_BASE_CHANNEL_ID. repeat send_step.
Qed.

Lemma join_request_sent c m :
  is_user (userId m) -> is_u16 c ->
  mcs_send_channel_join_request junk c m =
  Ret (pdu_header DomainMCSPDU_ChannelJoinRequest 0 12 ++ user_bytes (userId m) ++
       winpr_Data_Write_UINT16_BE (c - 0)) m.
Proof.
  intros Hu Hc. unfold is_user, MCS_BASE_CHANNEL_ID, UINT16_MAX in Hu.
  unfold mcs_send_channel_join_request. rewrite get_bind.
  apply (send_ok 12 DomainMCSPDU_ChannelJoinRequest 0); try done.
  rewrite <- (app_nil_r (winpr_Data_Write_UINT16_BE (c - 0))).
  unfold user_bytes, MCS_BASE_CHANNEL_ID. repeat send_step.
Qed.

Lemma join_confirm_sent c m :
  is_user (userId m) -> is_u16 c ->
  mcs_send_channel_join_confirm junk c m =
  Ret (pdu_header DomainMCSPDU_ChannelJoinConfirm 2 15 ++ [0] ++ user_bytes (userId m) ++
       winpr_Data_Write_UINT16_BE (c - 0) ++ winpr_Data_Write_UINT16_BE (c - 0)) m.
Proof.
  intros Hu Hc. unfold is_user, MCS_BASE_CHANNEL_ID, UINT16_MAX in Hu.
  unfold mcs_send_channel_join_confirm. rewrite get_bind.
  apply (send_ok 15 DomainMCSPDU_ChannelJoinConfirm 2); try done.
  rewrite <- (app_nil_r (winpr_Data_Write_UINT16_BE (c - 0))) at 2.
  unfold user_bytes, MCS_BASE_CHANNEL_ID. repeat send_step.
Qed.

(** *** The receiving side *)

Lemma erect_domain_accepted m :
  accepts mcs_recv_erect_domain_request
    (pdu_header DomainMCSPDU_ErectDomainRequest 0 12 ++ [1; 0; 1; 0]) m tt m.
Proof.
  apply accepts_header; try done.
  apply (accepts_bind _ _ [1; 0] [1; 0] 0); [by apply (parses_per_integer 0)|].
  apply (accepts_bind _ _ [1; 0] [] 0); [by apply (parses_per_integer 0)|]. by apply accepts_done.
Qed.

Lemma attach_request_accepted m :
  accepts mcs_recv_attach_user_request
    (pdu_header DomainMCSPDU_AttachUserRequest 0 8 ++ []) m tt m.
Proof. apply accepts_header; try done. by apply accepts_done. Qed.

(** the stream is read as by [per_read_integer16], and on success the user id is its value *)
Lemma read_userId_eq min m s :
  exists m', read_userId min (m, s) =
    match per_read_integer16 min s with
    | Ret v s' => Ret tt (set_userId v m, s')
    | Fail s' => Fail (m', s')
    | Crash f => Crash f
    end.
Proof.
  unfold per_read_integer16, read_userId, mbind, M_bind, on_stream, set_module, modify. simpl.
  destruct (Stream_CheckAndLogRequiredLength 2 s) as [? s0|s0|]; simpl; try (by exists m).
  destruct (Stream_Read_UINT16_BE s0); simpl; try (by exists m). zcase; [by eexists|by exists m].
Qed.

Lemma attach_confirm_accepted u m :
  is_user u ->
  accepts mcs_recv_attach_user_confirm
    (pdu_header DomainMCSPDU_AttachUserConfirm 2 11 ++ [0] ++ user_bytes u) m tt (set_userId u m).
Proof.
  intros Hu. unfold is_user, MCS_BASE_CHANNEL_ID in Hu. apply accepts_header; try done.
  apply (accepts_bind _ _ [0] _ 0); [by apply parses_per_enumerated|].
  assert (Hp : parses (per_read_integer16 MCS_BASE_CHANNEL_ID) (user_bytes u) u)
    by (apply parses_per_integer16; unfold MCS_BASE_CHANNEL_ID; word_lia).
  rewrite <- (app_nil_r (user_bytes u)).
  change (accepts (fun x => (read_userId MCS_BASE_CHANNEL_ID;; on_stream (tpkt_ensure_stream_consumed 11)) x)
    (user_bytes u ++ []) m tt (set_userId u m)).
  intros s Hs Hr. destruct (read_userId_eq MCS_BASE_CHANNEL_ID m s) as (? & Er).
  rewrite (Hp s [] Hs Hr) in Er. rewrite (bind_ret_eq _ _ _ _ _ Er).
  pose proof (accepts_bind _ (fun _ => on_stream (tpkt_ensure_stream_consumed 11)) _ [] u _ _ _ Hp
    (accepts_done 11 (set_userId u m) ltac:(done)) s Hs Hr) as E.
  by rewrite (on_stream_bind _ _ _ _ _ _ (Hp s [] Hs Hr)) in E.
Qed.

Lemma get_module_bind {A} (k : rdpMcs -> M (rdpMcs * wStream) A) m s : (get_module ≫= k) (m, s) = k m (m, s).
Proof. done. Qed.

Lemma join_request_accepted settings c m :
  is_user (userId m) -> is_u16 c ->
  accepts (mcs_recv_channel_join_request settings)
    (pdu_header DomainMCSPDU_ChannelJoinRequest 0 12 ++ user_bytes (userId m) ++
     winpr_Data_Write_UINT16_BE (c - 0)) m c m.
Proof.
  intros Hu Hc. unfold is_user, MCS_BASE_CHANNEL_ID in Hu. apply accepts_header; try done.
  apply (accepts_bind _ _ _ _ (userId m)).
  { apply parses_per_integer16; unfold MCS_BASE_CHANNEL_ID; word_lia. }
  intros s Hs Hr. rewrite get_module_bind, Z.eqb_refl. simpl negb. cbv iota. rewrite ret_bind.
  rewrite <- (app_nil_r (winpr_Data_Write_UINT16_BE (c - 0))) in Hr |- *.
  apply (accepts_bind _ _ _ [] c); [apply parses_per_integer16; word_lia| |done|done].
  apply accepts_consumed; [by vm_compute|apply accepts_ret].
Qed.

Lemma join_confirm_accepted u c m :
  is_user u -> is_u16 c ->
  accepts mcs_recv_channel_join_confirm
    (pdu_header DomainMCSPDU_ChannelJoinConfirm 2 15 ++ [0] ++ user_bytes u ++
     winpr_Data_Write_UINT16_BE (c - 0) ++ winpr_Data_Write_UINT16_BE (c - 0)) m c m.
Proof.
  intros Hu Hc. unfold is_user, MCS_BASE_CHANNEL_ID in Hu. apply accepts_header; try done.
  apply (accepts_bind _ _ [0] _ 0); [by apply parses_per_enumerated|].
  apply (accepts_bind _ _ _ _ u).
  { apply parses_per_integer16; unfold MCS_BASE_CHANNEL_ID; word_lia. }
  apply (accepts_bind _ _ _ _ c); [apply parses_per_integer16; word_lia|].
  rewrite <- (app_nil_r (winpr_Data_Write_UINT16_BE (c - 0))).
  apply (accepts_bind _ _ _ [] c); [apply parses_per_integer16; word_lia|].
  apply accepts_consumed; [by vm_compute|apply accepts_ret].
Qed.

Lemma bytes_user u : bytes (user_bytes u).
Proof. apply bytes_Write_UINT16_BE. Qed.

(** C26: Attaching a user: client and server end up with the same user id, the one the
    server's channel counter held, and the counter moves on.  Every packet is accepted to
    its last byte. *)
Theorem mcs_attach_user cl sv :
  is_user (baseChannelId sv) ->
  exists erect request confirm sv' cl',
    mcs_send_erect_domain_request junk cl = Ret erect cl /\
    arrives mcs_recv_erect_domain_request erect sv tt sv /\
    mcs_send_attach_user_request junk cl = Ret request cl /\
    arrives mcs_recv_attach_user_request request sv tt sv /\
    mcs_send_attach_user_confirm junk sv = Ret confirm sv' /\
    arrives mcs_recv_attach_user_confirm confirm cl tt cl' /\
    userId cl' = baseChannelId sv /\ userId sv' = userId cl' /\
    baseChannelId sv' = u16 (baseChannelId sv + 1).
Proof.
  intros Hu. eexists _, _, _, _, (set_userId (baseChannelId sv) cl).
  split_and!.
  - apply erect_domain_sent.
  - apply accepts_arrives; [apply Forall_app_2; [by apply bytes_pdu_header|by apply bytes_check]|done|].
    apply erect_domain_accepted.
  - apply attach_request_sent.
  - apply accepts_arrives; [apply Forall_app_2; [by apply bytes_pdu_header|done]|done|].
    apply attach_request_accepted.
  - by apply attach_confirm_sent.
  - apply accepts_arrives; [|done|by apply attach_confirm_accepted].
    apply Forall_app_2; [by apply bytes_pdu_header|]. apply Forall_app_2; [by apply bytes_check|apply bytes_user].
  - done.
  - done.
  - done.
Qed.

(** C27: Joining a channel, once both ends agree on the user id: the server reads the
    channel the client asked for, and the client reads it back from the confirmation. *)
Theorem mcs_join_channel settings c cl sv :
  is_user (userId cl) -> userId sv = userId cl -> is_u16 c ->
  exists request confirm,
    mcs_send_channel_join_request junk c cl = Ret request cl /\
    arrives (mcs_recv_channel_join_request settings) request sv c sv /\
    mcs_send_channel_join_confirm junk c sv = Ret confirm sv /\
    arrives mcs_recv_channel_join_confirm confirm cl c cl.
Proof.
  intros Hu E Hc. eexists _, _. split_and!.
  - by apply join_request_sent.
  - rewrite <- E. apply accepts_arrives; [|done|apply join_request_accepted; [by rewrite E|done]].
    apply Forall_app_2; [by apply bytes_pdu_header|].
    apply Forall_app_2; [apply bytes_user|apply bytes_Write_UINT16_BE].
  - apply join_confirm_sent; [by rewrite E|done].
  - apply accepts_arrives; [|done|apply join_confirm_accepted; [by rewrite E|done]].
    apply Forall_app_2; [by apply bytes_pdu_header|]. apply Forall_app_2; [by apply bytes_check|].
    apply Forall_app_2; [apply bytes_user|].
    apply Forall_app_2; apply bytes_Write_UINT16_BE.
Qed.
End Handshake.

Lemma mcs_attach_user_witness :
  exists erect request confirm sv' cl',
    @mcs_send_erect_domain_request alloc_always zero_junk new_mcs = Ret erect new_mcs /\
    arrives mcs_recv_erect_domain_request erect new_mcs tt new_mcs /\
    @mcs_send_attach_user_request alloc_always zero_junk new_mcs = Ret request new_mcs /\
    arrives mcs_recv_attach_user_request request new_mcs tt new_mcs /\
    @mcs_send_attach_user_confirm alloc_always zero_junk new_mcs = Ret confirm sv' /\
    arrives mcs_recv_attach_user_confirm confirm new_mcs tt cl' /\
    userId cl' = 1004 /\ userId sv' = userId cl' /\ baseChannelId sv' = 1005.
Proof.
  apply (@mcs_attach_user alloc_always alloc_always_ok zero_junk zero_junk_len zero_junk_bytes
    new_mcs new_mcs).
  by vm_compute.
Defined.

Lemma mcs_join_channel_witness :
  exists request confirm,
    @mcs_send_channel_join_request alloc_always zero_junk 1003 (set_userId 1004 new_mcs) =
      Ret request (set_userId 1004 new_mcs) /\
    arrives (mcs_recv_channel_join_request (mkSettings 0 [] false)) request
      (set_userId 1004 new_mcs) 1003 (set_userId 1004 new_mcs) /\
    @mcs_send_channel_join_confirm alloc_always zero_junk 1003 (set_userId 1004 new_mcs) =
      Ret confirm (set_userId 1004 new_mcs) /\
    arrives mcs_recv_channel_join_confirm confirm (set_userId 1004 new_mcs) 1003
      (set_userId 1004 new_mcs).
Proof.
  apply (@mcs_join_channel alloc_always alloc_always_ok zero_junk zero_junk_len zero_junk_bytes
    (mkSettings 0 [] false) 1003); by vm_compute.
Defined.

(** ** Arbitrary packets *)

(** [rd] is safe on any data: it does not crash, returns values in [P] and leaves the
    stream readable, somewhere further on. *)
Definition safe_recv {A} (P : A -> Prop) (rd : M (rdpMcs * wStream) A) : Prop :=
  forall m s, readable s ->
    wp rd (fun v x => P v /\ moved s x.2) (fun x => moved s x.2) (m, s).

Lemma safe_recv_stream {A} (P : A -> Prop) rd : safe_reader P rd -> safe_recv P (on_stream rd).
Proof.
  intros Hrd m s Hs. specialize (Hrd s Hs). unfold wp, on_stream in *. simpl.
  by destruct (rd s).
Qed.

Lemma safe_recv_bind {A B} (P : A -> Prop) (Q : B -> Prop) rd k :
  safe_recv P rd -> (forall a, P a -> safe_recv Q (k a)) -> safe_recv Q (rd ≫= k).
Proof.
  intros Hrd Hk m s Hs. specialize (Hrd m s Hs). unfold wp, mbind, M_bind in *.
  destruct (rd (m, s)) as [a [m' s']|[m' s']|]; [|done..]. destruct Hrd as [Ha Hm].
  specialize (Hk a Ha m' s' (moved_readable _ _ Hs Hm)). unfold wp in Hk.
  destruct (k a (m', s')) as [b x|x|]; [|by eapply moved_trans|done].
  destruct Hk. split; [done|by eapply moved_trans].
Qed.

Lemma safe_recv_ret {A} (P : A -> Prop) v : P v -> safe_recv P (mret v).
Proof. intros Hv m s Hs. split; [done|by apply moved_refl]. Qed.

Lemma safe_recv_failure {A} (P : A -> Prop) : safe_recv P (@failure _ A).
Proof. intros m s Hs. by apply moved_refl. Qed.

Lemma safe_recv_set f : safe_recv (fun _ => True) (set_module f).
Proof. intros m s Hs. split; [done|by apply moved_refl]. Qed.

Lemma safe_recv_get : safe_recv (fun _ => True) get_module.
Proof. intros m s Hs. split; [done|by apply moved_refl]. Qed.

Lemma ensure_consumed_safe n : safe_reader (fun _ => True) (tpkt_ensure_stream_consumed n).
Proof. intros s Hs. unfold tpkt_ensure_stream_consumed. reader_auto. Qed.

Lemma mcspdu_header_safe pdu : pdu <> 0 -> safe_reader is_u16 (mcs_read_domain_mcspdu_header pdu).
Proof.
  intros Hp s Hs. unfold mcs_read_domain_mcspdu_header.
  rewrite (proj2 (Z.eqb_neq _ _)) by done. simpl negb.
  apply wp_bind, wp_assert; [done|].
  apply wp_bind. eapply wp_call; [apply tpkt_read_header_safe|done| |intros; by apply moved_advance].
  intros n k Hn Hk. assert (readable (advance k s)) as Hs1 by (by apply readable_advance).
  apply wp_bind. eapply wp_call; [apply tpdu_read_data_safe|done| |].
  - intros li k' _ Hk'. rewrite rem_advance in Hk'.
    rewrite advance_advance. unfold per_read_choice. reader_auto.
  - intros k' Hk'. rewrite rem_advance in Hk'. rewrite advance_advance. apply moved_advance. lia.
Qed.

Create HintDb recv.
#[export] Hint Resolve safe_recv_stream safe_recv_set safe_recv_get safe_recv_failure
  ensure_consumed_safe per_read_integer_safe per_read_integer16_safe per_read_enumerated_safe
  ber_read_sequence_tag_safe ber_read_integer_safe : recv.

Lemma safe_recv_header {A} pdu (Q : A -> Prop) k :
  pdu <> 0 -> (forall n, is_u16 n -> safe_recv Q (k n)) ->
  safe_recv Q (on_stream (mcs_read_domain_mcspdu_header pdu) ≫= k).
Proof. intros. eapply safe_recv_bind; [by apply safe_recv_stream, mcspdu_header_safe|done]. Qed.

Lemma read_userId_safe min : is_u16 min -> safe_recv (fun _ => True) (read_userId min).
Proof.
  intros Hmin m s Hs. destruct (read_userId_eq min m s) as (m' & E).
  pose proof (per_read_integer16_safe min Hmin s Hs) as Hwp. unfold wp in *. rewrite E.
  by destruct (per_read_integer16 min s) as [? ?|?|]; [split; [|apply Hwp]| |].
Qed.

(** a step of a receiver: one field, then the rest *)
Ltac recv_step :=
  lazymatch goal with
  | |- safe_recv _ (on_stream (mcs_read_domain_mcspdu_header _) ≫= _) =>
      apply safe_recv_header; [done|intros ? ?]
  | |- safe_recv _ (_ ≫= _) => eapply safe_recv_bind; [|intros ? ?]
  | |- safe_recv _ (on_stream (per_read_integer16 _)) =>
      apply safe_recv_stream, per_read_integer16_safe; by vm_compute
  | |- safe_recv _ (read_userId _) => apply read_userId_safe; by vm_compute
  | |- safe_recv _ (on_stream _) => eauto with recv
  | |- safe_recv _ (if _ then _ else _) => zcase
  | |- safe_recv _ (mret _) => by apply safe_recv_ret
  | |- safe_recv _ _ => solve [eauto with recv]
  end.

Lemma read_param_safe w set : safe_recv (fun _ => True) (read_param w set).
Proof. unfold read_param. repeat recv_step. Qed.
#[export] Hint Resolve read_param_safe : recv.

Lemma read_domain_parameters_safe w : safe_recv (fun _ => True) (mcs_read_domain_parameters w).
Proof. unfold mcs_read_domain_parameters. repeat recv_step. Qed.

(** The receiving functions are memory safe on arbitrary data: whatever arrives, they
    return or refuse, without crashing and without reading past the end of the data; the
    channel of a join request or confirmation is a 16-bit id. *)
Theorem mcs_receivers_safe settings w :
  safe_recv (fun _ => True) mcs_recv_erect_domain_request /\
  safe_recv (fun _ => True) mcs_recv_attach_user_request /\
  safe_recv (fun _ => True) mcs_recv_attach_user_confirm /\
  safe_recv is_u16 (mcs_recv_channel_join_request settings) /\
  safe_recv is_u16 mcs_recv_channel_join_confirm /\
  safe_recv (fun _ => True) (mcs_read_domain_parameters w).
Proof.
  split_and!; [..|apply read_domain_parameters_safe].
  - unfold mcs_recv_erect_domain_request. repeat recv_step.
  - unfold mcs_recv_attach_user_request. repeat recv_step.
  - unfold mcs_recv_attach_user_confirm. repeat recv_step.
  - unfold mcs_recv_channel_join_request. repeat recv_step.
  - unfold mcs_recv_channel_join_confirm. repeat recv_step.
Qed.

(** A join request in the name of another user is refused before the channel is read
    and changes nothing, unless the transport replays a recording: then the module takes
    over the user id of the request. *)
Theorem mcs_join_other_user settings u c m s :
  readable s -> is_user u -> is_u16 c -> u <> userId m ->
  rest s = pdu_header DomainMCSPDU_ChannelJoinRequest 0 12 ++ user_bytes u ++
           winpr_Data_Write_UINT16_BE (c - 0) ->
  mcs_recv_channel_join_request settings (m, s) =
  if TransportDumpReplay settings then Ret c (set_userId u m, advance 12 s)
  else Fail (m, advance 10 s).
Proof.
  intros Hs Hu Hc Hne Hr. unfold is_user, MCS_BASE_CHANNEL_ID in Hu.
  destruct (header_there DomainMCSPDU_ChannelJoinRequest 0
    (user_bytes u ++ winpr_Data_Write_UINT16_BE (c - 0)) 12 s) as (E & Hs8 & Hr8); try done.
  unfold mcs_recv_channel_join_request. rewrite (on_stream_bind _ _ _ _ _ _ E).
  assert (Hp : parses (per_read_integer16 MCS_BASE_CHANNEL_ID) (user_bytes u) u)
    by (apply parses_per_integer16; unfold MCS_BASE_CHANNEL_ID; word_lia).
  rewrite (on_stream_bind _ _ _ _ _ _ (Hp _ _ Hs8 Hr8)), get_module_bind.
  change (zlen (user_bytes u)) with 2. rewrite advance_advance. change (8 + 2) with 10.
  rewrite (proj2 (Z.eqb_neq u (userId m))) by done. simpl negb. cbv iota.
  destruct (TransportDumpReplay settings); [|done].
  pose proof (rem_parses _ _ _ Hs8 Hr8) as Hrem. change (zlen (user_bytes u)) with 2 in Hrem.
  assert (readable (advance 10 s)) as Hs10
    by (change 10 with (8 + 2); rewrite <- advance_advance; apply readable_advance; [done|lia]).
  assert (Hr10 : rest (advance 10 s) = winpr_Data_Write_UINT16_BE (c - 0)).
  { change 10 with (8 + 2). rewrite <- advance_advance, rest_advance, Hr8 by (done || lia). done. }
  unfold set_module. rewrite modify_bind. simpl.
  rewrite <- (app_nil_r (winpr_Data_Write_UINT16_BE (c - 0))) in Hr10.
  assert (Ha : accepts (channelId ← on_stream (per_read_integer16 0);
    on_stream (tpkt_ensure_stream_consumed 12);; mret channelId)
    (winpr_Data_Write_UINT16_BE (c - 0) ++ []) (set_userId u m) c (set_userId u m)).
  { eapply accepts_bind; [apply parses_per_integer16; word_lia|].
    apply accepts_consumed; [by vm_compute|apply accepts_ret]. }
  rewrite (Ha _ Hs10 Hr10), advance_advance. done.
Qed.

Lemma mcs_join_other_user_witness :
  let s := Stream_StaticInit (pdu_header DomainMCSPDU_ChannelJoinRequest 0 12 ++ user_bytes 1005 ++
             winpr_Data_Write_UINT16_BE (1003 - 0)) in
  mcs_recv_channel_join_request (mkSettings 0 [] false) (set_userId 1004 new_mcs, s) =
  Fail (set_userId 1004 new_mcs, advance 10 s).
Proof.
  apply (mcs_join_other_user (mkSettings 0 [] false) 1005 1003 (set_userId 1004 new_mcs)).
  - apply readable_init; [by apply bytes_check|by vm_compute].
  - by vm_compute.
  - by vm_compute.
  - done.
  - by vm_compute.
Defined.

(** ** Leaving *)

(** The reason of a disconnect is lost: whatever reason the sender names, the packet
    carries the same two octets, and the receiver reads the reason 3 (user requested). *)
Theorem mcs_disconnect_reason_lost `{AllocOk} (junk : Z -> list Z) reason m m' :
  (forall n, 0 <= n -> zlen (junk n) = n) -> (forall n, bytes (junk n)) -> is_byte reason ->
  exists p, mcs_send_disconnect_provider_ultimatum junk reason m = Ret p m /\
    p = tpkt_bytes 9 ++ [2; 0xF0; 0x80; 0x21; 0x80] /\
    mcs_recv_disconnect_provider_ultimatum (m', advance 8 (Stream_StaticInit p)) =
    Ret 3 (m', advance 9 (Stream_StaticInit p)).
Proof.
  intros Hlen Hbytes Hr. unfold is_byte in Hr. eexists. split_and!; [|done|].
  - assert (He : emits (mcs_write_domain_mcspdu_header DomainMCSPDU_DisconnectProviderUltimatum 9 1;;
        count ← asserting_cast u8 reason; per_write_enumerated 0x80 count)
      (pdu_header DomainMCSPDU_DisconnectProviderUltimatum 1 9 ++ [0x80]) tt).
    { eapply emits_bind; [by apply emits_pdu_header|]. apply emits_cast; [word_lia|].
      by apply emits_per_enumerated. }
    unfold mcs_send_disconnect_provider_ultimatum.
    rewrite (bind_ret_eq _ _ _ _ _ (with_stream_emits junk Hlen Hbytes 9 _ _ tt m He
      ltac:(done) ltac:(lia))).
    cbn beta iota. rewrite (written_new junk Hlen) by done. done.
  - vm_compute. done.
Qed.

Lemma mcs_disconnect_reason_lost_witness :
  exists p, @mcs_send_disconnect_provider_ultimatum alloc_always zero_junk 1 new_mcs = Ret p new_mcs /\
    p = tpkt_bytes 9 ++ [2; 0xF0; 0x80; 0x21; 0x80] /\
    mcs_recv_disconnect_provider_ultimatum (new_mcs, advance 8 (Stream_StaticInit p)) =
    Ret 3 (new_mcs, advance 9 (Stream_StaticInit p)).
Proof.
  apply (@mcs_disconnect_reason_lost alloc_always alloc_always_ok zero_junk 1 new_mcs new_mcs
    zero_junk_len zero_junk_bytes).
  by vm_compute.
Defined.

(** ** Negotiating the domain parameters *)

(** what the merge needs *)
Definition mergeable (t mn mx : DomainParameters) : bool :=
  ((4 <=? maxChannelIds t) || (4 <=? maxChannelIds mx)) &&
  ((3 <=? maxUserIds t) || (3 <=? maxUserIds mx)) &&
  (numPriorities mn <=? 1) &&
  ((maxHeight t =? 1) || (maxHeight mn <=? 1)) &&
  (if 1024 <=? maxMCSPDUsize t
   then (maxMCSPDUsize t <=? 65528) || ((124 <=? maxMCSPDUsize mn) && (maxMCSPDUsize mn <=? 65528))
   else 124 <=? maxMCSPDUsize mx) &&
  ((protocolVersion t =? 2) || ((protocolVersion mn <=? 2) && (2 <=? protocolVersion mx))).

Ltac params_simpl :=
  cbn [andb orb maxChannelIds maxUserIds maxTokenIds numPriorities minThroughput maxHeight
    maxMCSPDUsize protocolVersion].

(** decides the first condition of a sequence of conditional updates *)
Ltac decide_update :=
  match goal with
  | |- context [((if ?b then _ else _) ≫= _) _] => destruct b eqn:?
  | |- context [(modify _ ≫= _) _] => rewrite modify_bind
  | |- context [(failure ≫= _) _] => rewrite failure_bind
  | |- context [(if ?b then modify _ else failure) _] => destruct b eqn:?
  end.

(** Merging the parameters a client offers succeeds exactly when they leave room for
    four channels, three users, one priority, height one, protocol version two and a PDU
    size; the outcome then satisfies these limits: the target's values where they are
    large enough, the least acceptable ones otherwise, and a PDU size of at most 65528
    unless the client's target was below 1024, when it is the client's maximum. *)
Theorem mcs_merge_spec t mn mx p :
  match mcs_merge_domain_parameters t mn mx p with
  | Ret _ q =>
      mergeable t mn mx = true /\
      maxChannelIds q = Z.max 4 (maxChannelIds t) /\ maxUserIds q = Z.max 3 (maxUserIds t) /\
      maxTokenIds q = maxTokenIds t /\ numPriorities q = 1 /\ minThroughput q = minThroughput t /\
      maxHeight q = 1 /\ protocolVersion q = 2 /\ 124 <= maxMCSPDUsize q /\
      maxMCSPDUsize q = (if 1024 <=? maxMCSPDUsize t then Z.min 65528 (maxMCSPDUsize t)
                         else maxMCSPDUsize mx)
  | Fail _ => mergeable t mn mx = false
  | Crash _ => False
  end.
Proof.
  unfold mcs_merge_domain_parameters, mergeable. destruct p.
  repeat (decide_update; params_simpl; try done); unfold modify, failure; params_simpl.
  all: split_and?; try done; lia.
Qed.
