(* ===== verification/Nego.v ===== *)
(** * Security negotiation

    Model of [libfreerdp/core/nego.c]: the client asks for security protocols from the
    strongest enabled one down, the server answers with the protocol it selects, and the
    security layer is connected.  The transport is the class [Transport]; the module and the
    stream it reads from are a pair as in [Packet]. *)

From S2P Require Import Prelude Stream Tpkt Packet.

(** ** Protocol constants *)

Definition PROTOCOL_RDP : Z := 0.
Definition PROTOCOL_SSL : Z := 1.
Definition PROTOCOL_HYBRID : Z := 2.
Definition PROTOCOL_RDSTLS : Z := 4.
Definition PROTOCOL_HYBRID_EX : Z := 8.
Definition PROTOCOL_RDSAAD : Z := 16.
Definition PROTOCOL_FAILED_NEGO : Z := 0x80000000.

Definition SSL_REQUIRED_BY_SERVER : Z := 1.
Definition SSL_NOT_ALLOWED_BY_SERVER : Z := 2.
Definition SSL_CERT_NOT_ON_SERVER : Z := 3.
Definition INCONSISTENT_FLAGS : Z := 4.
Definition HYBRID_REQUIRED_BY_SERVER : Z := 5.

Definition TYPE_RDP_NEG_REQ : Z := 1.
Definition TYPE_RDP_NEG_RSP : Z := 2.
Definition TYPE_RDP_NEG_FAILURE : Z := 3.
Definition TYPE_RDP_CORRELATION_INFO : Z := 6.

Definition EXTENDED_CLIENT_DATA_SUPPORTED : Z := 0x01.
Definition DYNVC_GFX_PROTOCOL_SUPPORTED : Z := 0x02.
Definition RESTRICTED_ADMIN_MODE_SUPPORTED : Z := 0x08.
Definition REDIRECTED_AUTHENTICATION_MODE_SUPPORTED : Z := 0x10.
Definition RESTRICTED_ADMIN_MODE_REQUIRED : Z := 0x01.
Definition REDIRECTED_AUTHENTICATION_MODE_REQUIRED : Z := 0x02.
Definition CORRELATION_INFO_PRESENT : Z := 0x08.

Definition PRECONNECTION_PDU_V2_MIN_SIZE : Z := 18.
Definition PRECONNECTION_PDU_V2 : Z := 2.
Definition DEFAULT_COOKIE_MAX_LENGTH : Z := 0xFF.
Definition TPDU_CONNECTION_REQUEST_LENGTH : Z := 11.
Definition TPDU_CONNECTION_CONFIRM_LENGTH : Z := 11.
Definition ENCRYPTION_METHOD_ALL : Z := Z.lor (Z.lor 0x01 0x08) (Z.lor 0x02 0x10).
Definition ENCRYPTION_LEVEL_NONE : Z := 0.
Definition ENCRYPTION_LEVEL_CLIENT_COMPATIBLE : Z := 2.

Inductive NEGO_STATE :=
| NEGO_STATE_INITIAL
| NEGO_STATE_RDSTLS
| NEGO_STATE_AAD
| NEGO_STATE_EXT
| NEGO_STATE_NLA
| NEGO_STATE_TLS
| NEGO_STATE_RDP
| NEGO_STATE_FAIL
| NEGO_STATE_FINAL.

#[global] Instance NEGO_STATE_eq_dec : EqDecision NEGO_STATE.
Proof. solve_decision. Defined.

(** ** The module

    What the settings fix before the negotiation, and what the negotiation changes.  The
    cookie is the list of the characters of the C string. *)

Record nego_config := mkConfig {
  hostname : list Z;
  port : Z;
  SendPreconnectionPdu : bool;
  PreconnectionId : Z;
  PreconnectionBlob : option (list Z);
  CookieMaxLength : Z;
  NegotiateSecurityLayer : bool;
  RestrictedAdminModeRequired : bool;
  RestrictedAdminModeSupported : bool;
  RemoteCredsGuardRequired : bool;
  RemoteCredsGuardSupported : bool;
  GatewayEnabled : bool;
  GatewayBypassLocal : bool;
  ConnectChildSession : bool
}.

Record rdpNego := mkNego {
  config : nego_config;
  flags : Z;
  cookie : option (list Z);
  RoutingToken : option (list Z);
  RoutingTokenLength : Z;
  state : NEGO_STATE;
  TcpConnected : bool;
  SecurityConnected : bool;
  sendNegoData : bool;
  SelectedProtocol : Z;
  RequestedProtocols : Z;
  EnabledProtocols : list bool;
  RemoteCredsGuardActive : bool
}.

Section Fields.
Implicit Types (n : rdpNego).

Definition set_flags (v : Z) n : rdpNego :=
  mkNego (config n) v (cookie n) (RoutingToken n) (RoutingTokenLength n) (state n) (TcpConnected n)
    (SecurityConnected n) (sendNegoData n) (SelectedProtocol n) (RequestedProtocols n)
    (EnabledProtocols n) (RemoteCredsGuardActive n).
Definition set_cookie_field (v : option (list Z)) n : rdpNego :=
  mkNego (config n) (flags n) v (RoutingToken n) (RoutingTokenLength n) (state n) (TcpConnected n)
    (SecurityConnected n) (sendNegoData n) (SelectedProtocol n) (RequestedProtocols n)
    (EnabledProtocols n) (RemoteCredsGuardActive n).
Definition set_token (v : option (list Z)) (l : Z) n : rdpNego :=
  mkNego (config n) (flags n) (cookie n) v l (state n) (TcpConnected n)
    (SecurityConnected n) (sendNegoData n) (SelectedProtocol n) (RequestedProtocols n)
    (EnabledProtocols n) (RemoteCredsGuardActive n).
Definition nego_set_state (v : NEGO_STATE) n : rdpNego :=
  mkNego (config n) (flags n) (cookie n) (RoutingToken n) (RoutingTokenLength n) v (TcpConnected n)
    (SecurityConnected n) (sendNegoData n) (SelectedProtocol n) (RequestedProtocols n)
    (EnabledProtocols n) (RemoteCredsGuardActive n).
Definition set_connected (tcp sec : bool) n : rdpNego :=
  mkNego (config n) (flags n) (cookie n) (RoutingToken n) (RoutingTokenLength n) (state n) tcp
    sec (sendNegoData n) (SelectedProtocol n) (RequestedProtocols n)
    (EnabledProtocols n) (RemoteCredsGuardActive n).
Definition set_sendNegoData (v : bool) n : rdpNego :=
  mkNego (config n) (flags n) (cookie n) (RoutingToken n) (RoutingTokenLength n) (state n)
    (TcpConnected n) (SecurityConnected n) v (SelectedProtocol n) (RequestedProtocols n)
    (EnabledProtocols n) (RemoteCredsGuardActive n).
Definition nego_set_selected_protocol (v : Z) n : rdpNego :=
  mkNego (config n) (flags n) (cookie n) (RoutingToken n) (RoutingTokenLength n) (state n)
    (TcpConnected n) (SecurityConnected n) (sendNegoData n) v (RequestedProtocols n)
    (EnabledProtocols n) (RemoteCredsGuardActive n).
Definition nego_set_requested_protocols (v : Z) n : rdpNego :=
  mkNego (config n) (flags n) (cookie n) (RoutingToken n) (RoutingTokenLength n) (state n)
    (TcpConnected n) (SecurityConnected n) (sendNegoData n) (SelectedProtocol n) v
    (EnabledProtocols n) (RemoteCredsGuardActive n).
Definition set_EnabledProtocols (v : list bool) n : rdpNego :=
  mkNego (config n) (flags n) (cookie n) (RoutingToken n) (RoutingTokenLength n) (state n)
    (TcpConnected n) (SecurityConnected n) (sendNegoData n) (SelectedProtocol n)
    (RequestedProtocols n) v (RemoteCredsGuardActive n).
Definition set_RemoteCredsGuardActive (v : bool) n : rdpNego :=
  mkNego (config n) (flags n) (cookie n) (RoutingToken n) (RoutingTokenLength n) (state n)
    (TcpConnected n) (SecurityConnected n) (sendNegoData n) (SelectedProtocol n)
    (RequestedProtocols n) (EnabledProtocols n) v.

(** [nego->EnabledProtocols[p]] *)
Definition enabled (p : Z) n : bool := nth (Z.to_nat p) (EnabledProtocols n) false.
Definition enable (p : Z) (b : bool) n : rdpNego :=
  set_EnabledProtocols (<[Z.to_nat p := b]> (EnabledProtocols n)) n.

Definition nego_enable_rdp := enable PROTOCOL_RDP.
Definition nego_enable_tls := enable PROTOCOL_SSL.
Definition nego_enable_nla := enable PROTOCOL_HYBRID.
Definition nego_enable_rdstls := enable PROTOCOL_RDSTLS.
Definition nego_enable_ext := enable PROTOCOL_HYBRID_EX.

(** [aad_is_supported ()] is a build option. *)
Definition nego_enable_aad (aad_is_supported : bool) (b : bool) n : rdpNego :=
  if aad_is_supported then enable PROTOCOL_RDSAAD b n else n.

Definition nego_disable_all_except (what : Z) n : rdpNego :=
  set_EnabledProtocols
    (imap (fun x b => if Z.of_nat x =? what then b else false) (EnabledProtocols n)) n.

Definition nego_init n : rdpNego :=
  let c := config n in
  let n := mkNego (mkConfig (hostname c) (port c) (SendPreconnectionPdu c) (PreconnectionId c)
      (PreconnectionBlob c) DEFAULT_COOKIE_MAX_LENGTH (NegotiateSecurityLayer c)
      (RestrictedAdminModeRequired c) (RestrictedAdminModeSupported c)
      (RemoteCredsGuardRequired c) (RemoteCredsGuardSupported c) (GatewayEnabled c)
      (GatewayBypassLocal c) (ConnectChildSession c))
    (flags n) (cookie n) (RoutingToken n) (RoutingTokenLength n) (state n) (TcpConnected n)
    (SecurityConnected n) (sendNegoData n) (SelectedProtocol n) (RequestedProtocols n)
    (EnabledProtocols n) (RemoteCredsGuardActive n) in
  set_flags 0 (set_sendNegoData false (nego_set_requested_protocols PROTOCOL_RDP
    (nego_set_state NEGO_STATE_INITIAL n))).
End Fields.

(** The zeroed structure. *)
Definition nego_zero : rdpNego :=
  mkNego (mkConfig [] 0 false 0 None 0 false false false false false false false false)
    0 None None 0 NEGO_STATE_INITIAL false false false 0 0 (replicate 32 false) false.

Definition nego_new (alloc_ok : bool) : option rdpNego :=
  if alloc_ok then Some (nego_init nego_zero) else None.

(** ** Reading *)

Section Readers.
Context `{Alloc}.

Definition nego_set_routing_token (tok : list Z) : M (rdpNego * wStream) unit :=
  if zlen tok =? 0 then failure
  else if malloc_ok (zlen tok) then set_module (set_token (Some tok) (zlen tok))
  else set_module (set_token None (zlen tok));; failure.

Definition nego_set_cookie (c : list Z) : M (rdpNego * wStream) unit :=
  set_module (set_cookie_field None);;
  if malloc_ok (zlen c + 1) then set_module (set_cookie_field (Some c)) else failure.

(** [memcmp (Stream_ConstPointer (s), str, n) == 0]; the comparison may look at all [n]
    bytes. *)
Definition memcmp_eq (str : list Z) : M wStream bool :=
  d ← load (zlen str); mret (bool_decide (d = str)).

(** ["Cookie: mstshash="], ["Cookie: msts="], ["tsv:"], ["mth://"] *)
Definition str_mstshash : list Z :=
  [67; 111; 111; 107; 105; 101; 58; 32; 109; 115; 116; 115; 104; 97; 115; 104; 61].
Definition str_msts : list Z := [67; 111; 111; 107; 105; 101; 58; 32; 109; 115; 116; 115; 61].
Definition str_tsv : list Z := [116; 115; 118; 58].
Definition str_mth : list Z := [109; 116; 104; 58; 47; 47].

Fixpoint find_crlf (fuel : nat) (crlf : Z) : M wStream Z :=
  r ← Stream_GetRemainingLength;
  if 2 <=? r then
    match fuel with
    | O => crash Diverges
    | S fuel' =>
        v ← Stream_Read_UINT16;
        if v =? 0x0A0D then mret v else Stream_Rewind 1;; find_crlf fuel' v
    end
  else mret crlf.

(** What starts here: a cookie ([Some false]), a token ([Some true]) or neither. *)
Definition token_kind : M wStream (option bool) :=
  b ← memcmp_eq str_mstshash;
  if (b : bool) then mret (Some false)
  else
    b ← memcmp_eq str_msts;
    if (b : bool) then mret (Some true)
    else
      b ← memcmp_eq str_tsv;
      if (b : bool) then mret (Some true)
      else
        b ← memcmp_eq str_mth;
        if (b : bool) then mret (Some true) else mret None.

(** The part from the search for the terminator on. *)
Definition read_terminated (isToken : bool) (pos : Z) : M (rdpNego * wStream) unit :=
  remain ← on_stream Stream_GetRemainingLength;
  crlf ← on_stream (find_crlf (Z.to_nat remain) 0);
  r ← attempt
    (if crlf =? 0x0A0D then
       on_stream (Stream_Rewind 2);;
       pos' ← on_stream Stream_GetPosition;
       let len := usize (pos' - pos) in
       on_stream (Stream_Write_UINT16 0);;
       x ← get;
       let str := slice pos len (buffer (snd x)) in
       if UINT32_MAX <? len then mret false
       else if forallb (fun c => negb (c =? 0)) str then
         (if isToken then nego_set_routing_token str else nego_set_cookie str);; mret true
       else failure
     else failure);
  match r with
  | Some true => mret tt
  | Some false => failure
  | None => attempt (on_stream (Stream_SetPosition pos));; failure
  end.

Definition nego_read_request_token_or_cookie : M (rdpNego * wStream) unit :=
  remain ← on_stream Stream_GetRemainingLength;
  pos ← on_stream Stream_GetPosition;
  if remain <? 15 then mret tt
  else
    kind ← on_stream token_kind;
    match kind with
    | None => mret tt
    | Some true => read_terminated true pos
    | Some false =>
        if remain <? 19 then mret tt
        else on_stream (Stream_Seek 17);; read_terminated false pos
    end.

Definition nego_process_correlation_info : M wStream unit :=
  Stream_CheckAndLogRequiredLength 36;;
  type ← Stream_Read_UINT8;
  if negb (type =? TYPE_RDP_CORRELATION_INFO) then failure
  else
    fl ← Stream_Read_UINT8;
    if negb (fl =? 0) then failure
    else
      length ← Stream_Read_UINT16;
      if negb (length =? 36) then failure
      else
        correlationId ← Stream_Read 16;
        if (nth 0 correlationId 0 =? 0x00) || (nth 0 correlationId 0 =? 0xF4) then failure
        else if existsb (fun b => b =? 0x0D) correlationId then failure
        else Stream_Seek 16.

Definition has (fl bit : Z) : bool := negb (Z.land fl bit =? 0).

Definition nego_process_negotiation_request : M (rdpNego * wStream) unit :=
  on_stream (Stream_CheckAndLogRequiredLength 7);;
  fl ← on_stream Stream_Read_UINT8;
  n ← get_module;
  let known := Z.lor (Z.lor RESTRICTED_ADMIN_MODE_REQUIRED REDIRECTED_AUTHENTICATION_MODE_REQUIRED)
                     CORRELATION_INFO_PRESENT in
  if negb (Z.land fl (Z.lnot known) =? 0) then failure
  else if has fl RESTRICTED_ADMIN_MODE_REQUIRED && negb (RestrictedAdminModeSupported (config n))
  then failure
  else
    (if has fl REDIRECTED_AUTHENTICATION_MODE_REQUIRED then
       if RemoteCredsGuardSupported (config n) then set_module (set_RemoteCredsGuardActive true)
       else if has fl RESTRICTED_ADMIN_MODE_REQUIRED then mret tt
       else failure
     else mret tt);;
    length ← on_stream Stream_Read_UINT16;
    if negb (length =? 8) then failure
    else
      p ← on_stream Stream_Read_UINT32;
      set_module (nego_set_requested_protocols p);;
      (if has fl CORRELATION_INFO_PRESENT then on_stream nego_process_correlation_info
       else mret tt);;
      set_module (nego_set_state NEGO_STATE_FINAL).

Definition nego_read_request : M (rdpNego * wStream) unit :=
  length ← on_stream tpkt_read_header;
  li ← on_stream (tpdu_read_connection_request length);
  remain ← on_stream Stream_GetRemainingLength;
  if negb (li =? remain + 6) then failure
  else
    nego_read_request_token_or_cookie;;
    remain ← on_stream Stream_GetRemainingLength;
    (if 8 <=? remain then
       type ← on_stream Stream_Read_UINT8;
       if negb (type =? TYPE_RDP_NEG_REQ) then failure else nego_process_negotiation_request
     else mret tt);;
    on_stream (tpkt_ensure_stream_consumed length).

Definition nego_process_negotiation_response : M (rdpNego * wStream) unit :=
  r ← attempt (on_stream (Stream_CheckAndLogRequiredLength 7));
  match r with
  | None => set_module (nego_set_state NEGO_STATE_FAIL);; failure
  | Some _ =>
      fl ← on_stream Stream_Read_UINT8;
      set_module (set_flags fl);;
      length ← on_stream Stream_Read_UINT16;
      if negb (length =? 8) then set_module (nego_set_state NEGO_STATE_FAIL);; failure
      else
        p ← on_stream Stream_Read_UINT32;
        set_module (nego_set_selected_protocol p);;
        set_module (nego_set_state NEGO_STATE_FINAL)
  end.

Definition nego_process_negotiation_failure : M (rdpNego * wStream) unit :=
  on_stream (Stream_CheckAndLogRequiredLength 7);;
  fl ← on_stream Stream_Read_UINT8;
  if negb (fl =? 0) then failure
  else
    length ← on_stream Stream_Read_UINT16;
    if negb (length =? 8) then failure
    else
      failureCode ← on_stream Stream_Read_UINT32;
      (if failureCode =? SSL_REQUIRED_BY_SERVER then
         set_module (nego_disable_all_except PROTOCOL_SSL)
       else if failureCode =? SSL_NOT_ALLOWED_BY_SERVER then
         set_module (nego_disable_all_except PROTOCOL_RDP);; set_module (set_sendNegoData true)
       else if failureCode =? SSL_CERT_NOT_ON_SERVER then set_module (set_sendNegoData true)
       else if failureCode =? INCONSISTENT_FLAGS then mret tt
       else if failureCode =? HYBRID_REQUIRED_BY_SERVER then
         set_module (nego_disable_all_except PROTOCOL_HYBRID)
       else mret tt);;
      set_module (nego_set_state NEGO_STATE_FAIL).

(** [if (b) nego_set_state (nego, NEGO_STATE_FAIL);] *)
Definition fail_if (b : bool) : M (rdpNego * wStream) unit :=
  if b then set_module (nego_set_state NEGO_STATE_FAIL) else mret tt.

(** A selected protocol that is not enabled is refused. *)
Definition check_selected (n : rdpNego) : M (rdpNego * wStream) unit :=
  if negb (SelectedProtocol n =? 0) then
    fail_if ((SelectedProtocol n =? PROTOCOL_RDSAAD) && negb (enabled PROTOCOL_RDSAAD n));;
    fail_if ((SelectedProtocol n =? PROTOCOL_HYBRID) && negb (enabled PROTOCOL_HYBRID n));;
    fail_if ((SelectedProtocol n =? PROTOCOL_SSL) && negb (enabled PROTOCOL_SSL n))
  else fail_if (negb (enabled PROTOCOL_RDP n)).

Definition nego_recv : M (rdpNego * wStream) unit :=
  length ← on_stream tpkt_read_header;
  li ← on_stream (tpdu_read_connection_confirm length);
  (if 6 <? li then
     type ← on_stream Stream_Read_UINT8;
     if type =? TYPE_RDP_NEG_RSP then
       nego_process_negotiation_response;;
       n ← get_module;
       check_selected n
     else if type =? TYPE_RDP_NEG_FAILURE then nego_process_negotiation_failure
     else failure
   else if li =? 6 then
     n ← get_module;
     if negb (enabled PROTOCOL_RDP n) then set_module (nego_set_state NEGO_STATE_FAIL)
     else set_module (nego_set_state NEGO_STATE_FINAL)
   else set_module (nego_set_state NEGO_STATE_FAIL));;
  on_stream (tpkt_ensure_stream_consumed length).
End Readers.

(** ** Writing *)

(** The routing token with its terminator, or the cookie; the length of the packet so far. *)
Definition write_token_or_cookie (n : rdpNego) (length : Z) : M wStream Z :=
  match RoutingToken n with
  | Some tok =>
      Stream_Write tok;;
      if (2 <? RoutingTokenLength n) &&
         (nth (Z.to_nat (RoutingTokenLength n - 2)) tok 0 =? 0x0D) &&
         (nth (Z.to_nat (RoutingTokenLength n - 1)) tok 0 =? 0x0A)
      then mret (length + RoutingTokenLength n)
      else
        Stream_Write_UINT8 0x0D;;
        Stream_Write_UINT8 0x0A;;
        mret (length + (RoutingTokenLength n + 2))
  | None =>
      match cookie n with
      | Some c =>
          let cookie_length := if CookieMaxLength (config n) <? zlen c
                               then CookieMaxLength (config n) else zlen c in
          Stream_Write str_mstshash;;
          Stream_Write (ztake cookie_length c);;
          Stream_Write_UINT8 0x0D;;
          Stream_Write_UINT8 0x0A;;
          mret (length + (cookie_length + 19))
      | None => mret length
      end
  end.

Definition request_flags (n : rdpNego) : Z :=
  let fl := if RestrictedAdminModeRequired (config n) then RESTRICTED_ADMIN_MODE_REQUIRED else 0 in
  if RemoteCredsGuardRequired (config n)
  then Z.lor fl REDIRECTED_AUTHENTICATION_MODE_REQUIRED else fl.

Definition write_neg_data (n : rdpNego) (length : Z) : M wStream Z :=
  if (PROTOCOL_RDP <? RequestedProtocols n) || sendNegoData n then
    Stream_Write_UINT8 TYPE_RDP_NEG_REQ;;
    Stream_Write_UINT8 (request_flags n);;
    Stream_Write_UINT16 8;;
    Stream_Write_UINT32 (RequestedProtocols n);;
    mret (length + 8)
  else mret length.

(** The packet of [nego_send_negotiation_request], in a stream of its own. *)
Definition write_negotiation_request (n : rdpNego) : M wStream unit :=
  bm ← Stream_GetPosition;
  Stream_Seek TPDU_CONNECTION_REQUEST_LENGTH;;
  length ← write_token_or_cookie n TPDU_CONNECTION_REQUEST_LENGTH;
  length ← write_neg_data n length;
  if UINT16_MAX <? length then failure
  else
    em ← Stream_GetPosition;
    attempt (Stream_SetPosition bm);;
    tpkt_write_header (u16 length);;
    tpdu_write_connection_request (u16 length - 5);;
    attempt (Stream_SetPosition em);;
    Stream_SealLength.

Definition response_flags (gfx : bool) (n : rdpNego) : Z :=
  let fl := EXTENDED_CLIENT_DATA_SUPPORTED in
  let fl := if gfx then Z.lor fl DYNVC_GFX_PROTOCOL_SUPPORTED else fl in
  let fl := if RestrictedAdminModeSupported (config n)
            then Z.lor fl RESTRICTED_ADMIN_MODE_SUPPORTED else fl in
  if RemoteCredsGuardSupported (config n)
  then Z.lor fl REDIRECTED_AUTHENTICATION_MODE_SUPPORTED else fl.

Definition write_neg_answer (gfx : bool) (n : rdpNego) : M wStream unit :=
  if has (SelectedProtocol n) PROTOCOL_FAILED_NEGO then
    Stream_Write_UINT8 TYPE_RDP_NEG_FAILURE;;
    Stream_Write_UINT8 0;;
    Stream_Write_UINT16 8;;
    Stream_Write_UINT32 (Z.land (SelectedProtocol n) (Z.lnot PROTOCOL_FAILED_NEGO))
  else
    Stream_Write_UINT8 TYPE_RDP_NEG_RSP;;
    Stream_Write_UINT8 (response_flags gfx n);;
    Stream_Write_UINT16 8;;
    Stream_Write_UINT32 (SelectedProtocol n).

(** The packet of [nego_send_negotiation_response]. *)
Definition write_negotiation_response (gfx : bool) (n : rdpNego) : M wStream unit :=
  bm ← Stream_GetPosition;
  Stream_Seek TPDU_CONNECTION_CONFIRM_LENGTH;;
  write_neg_answer gfx n;;
  let length := TPDU_CONNECTION_CONFIRM_LENGTH + 8 in
  em ← Stream_GetPosition;
  attempt (Stream_SetPosition bm);;
  tpkt_write_header length;;
  attempt (tpdu_write_connection_confirm (length - 5));;
  attempt (Stream_SetPosition em);;
  Stream_SealLength.

(** The packet of [nego_send_preconnection_pdu]: [wszPCB] are the octets of the converted
    blob with its terminator, [cchPCB] their number of characters. *)
Definition write_preconnection_pdu (cbSize id cchPCB : Z) (wszPCB : option (list Z)) :
    M wStream unit :=
  Stream_Write_UINT32 cbSize;;
  Stream_Write_UINT32 0;;
  Stream_Write_UINT32 PRECONNECTION_PDU_V2;;
  Stream_Write_UINT32 id;;
  Stream_Write_UINT16 cchPCB;;
  match wszPCB with Some b => Stream_Write b | None => mret tt end;;
  Stream_SealLength.

(** ** The transport and the settings *)

(** The security layers a transport can be asked for. *)
Inductive security := SecAad | SecRdstls | SecNla (ext : bool) | SecTls | SecRdp.

(** What the module asks of [libfreerdp/core/transport.c]; [T] is everything the transport
    and the network keep.  The first argument of [transport_connect] is what
    [transport_set_gateway_enabled] was told before the call, if it was called. *)
Class Transport (T : Type) := {
  transport_connect : option bool -> list Z -> Z -> T -> bool * T;
  transport_connect_childsession : T -> bool * T;
  transport_disconnect : T -> T;
  transport_write : list Z -> T -> bool * T;
  transport_read_pdu : T -> option (list Z) * T;
  transport_security : security -> T -> bool * T
}.

(** A packet that was read consists of octets and is an object of the platform. *)
Class TransportLaws (T : Type) `{Transport T} :=
  read_pdu_bytes : forall t bs t',
    transport_read_pdu t = (Some bs, t') -> bytes bs /\ zlen bs < 2 ^ 62.

(** The settings the module reads and writes. *)
Record nego_settings := mkNegoSettings {
  set_RequestedProtocols : Z;
  set_SelectedProtocol : Z;
  NegotiationFlags : Z;
  UseRdpSecurityLayer : bool;
  EncryptionMethods : Z;
  EncryptionLevel : Z;
  TlsSecurity : bool;
  NlaSecurity : bool;
  RdstlsSecurity : bool;
  RdpSecurity : bool;
  LocalConnection : bool;
  SupportGraphicsPipeline : bool;
  RdpServerRsaKey : bool
}.

Record link (T : Type) := mkLink {
  nego : rdpNego;
  settings : nego_settings;
  net : T
}.
Arguments mkLink {T} _ _ _.
Arguments nego {T} _.
Arguments settings {T} _.
Arguments net {T} _.

Section Connection.
Context {T : Type} `{Transport T} `{Alloc} (junk : Z -> list Z).
(** the conversion of the preconnection blob, which depends on the build *)
Context (ConvertUtf8ToWCharAlloc : list Z -> option (list Z)).

Definition get_nego : M (link T) rdpNego := x ← get; mret (nego x).
Definition set_nego (f : rdpNego -> rdpNego) : M (link T) unit :=
  modify (fun x => mkLink (f (nego x)) (settings x) (net x)).
Definition set_settings (f : nego_settings -> nego_settings) : M (link T) unit :=
  modify (fun x => mkLink (nego x) (f (settings x)) (net x)).

(** A call of the transport. *)
Definition ask {A} (f : T -> A * T) : M (link T) A := fun x =>
  let '(a, t) := f (net x) in Ret a (mkLink (nego x) (settings x) t).

(** The layer of the selected protocol. *)
Definition security_layer (p : Z) : option security :=
  if p =? PROTOCOL_RDSAAD then Some SecAad
  else if p =? PROTOCOL_RDSTLS then Some SecRdstls
  else if p =? PROTOCOL_HYBRID then Some (SecNla false)
  else if p =? PROTOCOL_HYBRID_EX then Some (SecNla true)
  else if p =? PROTOCOL_SSL then Some SecTls
  else if p =? PROTOCOL_RDP then Some SecRdp
  else None.

Definition nego_try_connect : M (link T) bool :=
  n ← get_nego;
  match security_layer (SelectedProtocol n) with
  | None => mret false
  | Some l =>
      b ← ask (transport_security l);
      set_nego (set_connected (TcpConnected n) b);;
      mret b
  end.

Definition nego_security_connect : M (link T) bool :=
  n ← get_nego;
  if negb (TcpConnected n) then
    set_nego (set_connected (TcpConnected n) false);; mret false
  else if negb (SecurityConnected n) then
    b ← nego_try_connect;
    if negb b then mret false else mret b
  else mret (SecurityConnected n).

(** [nego->TcpConnected = transport_connect (...);] *)
Definition tcp_attempt (f : T -> bool * T) : M (link T) unit :=
  b ← ask f;
  n ← get_nego;
  set_nego (set_connected b (SecurityConnected n)).

Definition nego_tcp_connect : M (link T) bool :=
  n ← get_nego;
  let c := config n in
  (if negb (TcpConnected n) then
     if GatewayEnabled c then
       (if GatewayBypassLocal c then tcp_attempt (transport_connect (Some false) (hostname c) (port c))
        else mret tt);;
       n' ← get_nego;
       if negb (TcpConnected n') then tcp_attempt (transport_connect (Some true) (hostname c) (port c))
       else mret tt
     else if ConnectChildSession c then tcp_attempt transport_connect_childsession
     else tcp_attempt (transport_connect None (hostname c) (port c))
   else mret tt);;
  n' ← get_nego;
  mret (TcpConnected n').

Definition nego_transport_connect : M (link T) bool :=
  b ← nego_tcp_connect;
  if negb b then mret false
  else
    n ← get_nego;
    if TcpConnected n && negb (NegotiateSecurityLayer (config n)) then nego_security_connect
    else mret (TcpConnected n).

Definition nego_transport_disconnect : M (link T) bool :=
  n ← get_nego;
  (if TcpConnected n then
     modify (fun x => mkLink (nego x) (settings x) (transport_disconnect (net x)))
   else mret tt);;
  set_nego (set_connected false false);;
  mret true.

Definition nego_disconnect : M (link T) bool :=
  set_nego (nego_set_state NEGO_STATE_INITIAL);;
  nego_transport_disconnect.

(** Size, number of characters and octets of the blob; [None] when it is too long.  When the
    conversion fails the count is one and the octets are missing. *)
Definition preconnection_content (c : nego_config) : option (Z * Z * option (list Z)) :=
  match PreconnectionBlob c with
  | None => Some (PRECONNECTION_PDU_V2_MIN_SIZE, 0, None)
  | Some blob =>
      let wszPCB := ConvertUtf8ToWCharAlloc blob in
      let len := match wszPCB with Some w => zlen w | None => 0 end in
      if UINT16_MAX - 1 <? len then None
      else Some (u32 (PRECONNECTION_PDU_V2_MIN_SIZE + (len + 1) * 2), len + 1,
                 option_map (fun w => concat (map winpr_Data_Write_UINT16 (w ++ [0]))) wszPCB)
  end.

Definition nego_send_preconnection_pdu : M (link T) bool :=
  b ← nego_tcp_connect;
  if negb b then mret false
  else
    n ← get_nego;
    match preconnection_content (config n) with
    | None => mret false
    | Some (cbSize, cchPCB, wszPCB) =>
        r ← attempt (with_stream junk cbSize
              (write_preconnection_pdu cbSize (PreconnectionId (config n)) cchPCB wszPCB));
        match r with
        | None => mret false
        | Some (_, s) => ask (transport_write (written s))
        end
    end.

Definition nego_send_negotiation_request : M (link T) bool :=
  n ← get_nego;
  r ← attempt (with_stream junk 512 (write_negotiation_request n));
  match r with
  | None => mret false
  | Some (_, s) => ask (transport_write (written s))
  end.

(** [nego_recv] on a packet that was read. *)
Definition on_packet (bs : list Z) : M (link T) bool := fun x =>
  match nego_recv (nego x, Stream_StaticInit bs) with
  | Ret _ y => Ret true (mkLink (fst y) (settings x) (net x))
  | Fail y => Ret false (mkLink (fst y) (settings x) (net x))
  | Crash f => Crash f
  end.

(** The stream that receives the packet is allocated before the packet is read. *)
Definition nego_recv_response : M (link T) bool :=
  if negb (malloc_ok 1024) then mret false
  else
    r ← ask transport_read_pdu;
    match r with
    | None => mret false
    | Some bs => on_packet bs
    end.

(** What the attempts share: ask for [protocols], wait for the answer, and go on with the
    first enabled protocol of [fallbacks] unless the answer settled it. *)
Fixpoint fall_back (n : rdpNego) (fallbacks : list (Z * NEGO_STATE)) : NEGO_STATE :=
  match fallbacks with
  | [] => NEGO_STATE_FAIL
  | (p, st) :: rest => if enabled p n then st else fall_back n rest
  end.

(** The three exchanges of an attempt; [false] when it has failed. *)
Definition nego_exchange (protocols : Z) : M (link T) bool :=
  set_nego (nego_set_requested_protocols protocols);;
  b ← nego_transport_connect;
  if negb b then set_nego (nego_set_state NEGO_STATE_FAIL);; mret false
  else
    b ← nego_send_negotiation_request;
    if negb b then set_nego (nego_set_state NEGO_STATE_FAIL);; mret false
    else
      b ← nego_recv_response;
      if negb b then set_nego (nego_set_state NEGO_STATE_FAIL);; mret false
      else mret true.

Definition nego_attempt (protocols : Z) (fallbacks : list (Z * NEGO_STATE)) : M (link T) unit :=
  b ← nego_exchange protocols;
  if negb b then mret tt
  else
    n ← get_nego;
    if negb (bool_decide (state n = NEGO_STATE_FINAL)) then
      nego_transport_disconnect;;
      n' ← get_nego;
      set_nego (nego_set_state (fall_back n' fallbacks))
    else mret tt.

Definition nego_attempt_rdstls : M (link T) unit :=
  nego_attempt (Z.lor PROTOCOL_RDSTLS PROTOCOL_SSL)
    [(PROTOCOL_HYBRID_EX, NEGO_STATE_EXT); (PROTOCOL_HYBRID, NEGO_STATE_NLA);
     (PROTOCOL_SSL, NEGO_STATE_TLS); (PROTOCOL_RDP, NEGO_STATE_RDP)].
Definition nego_attempt_rdsaad : M (link T) unit :=
  nego_attempt PROTOCOL_RDSAAD
    [(PROTOCOL_HYBRID_EX, NEGO_STATE_EXT); (PROTOCOL_HYBRID, NEGO_STATE_NLA);
     (PROTOCOL_SSL, NEGO_STATE_TLS); (PROTOCOL_RDP, NEGO_STATE_RDP)].
Definition nego_attempt_ext : M (link T) unit :=
  nego_attempt (Z.lor (Z.lor PROTOCOL_HYBRID PROTOCOL_SSL) PROTOCOL_HYBRID_EX)
    [(PROTOCOL_HYBRID, NEGO_STATE_NLA); (PROTOCOL_SSL, NEGO_STATE_TLS); (PROTOCOL_RDP, NEGO_STATE_RDP)].
Definition nego_attempt_nla : M (link T) unit :=
  nego_attempt (Z.lor PROTOCOL_HYBRID PROTOCOL_SSL)
    [(PROTOCOL_SSL, NEGO_STATE_TLS); (PROTOCOL_RDP, NEGO_STATE_RDP)].
Definition nego_attempt_tls : M (link T) unit :=
  nego_attempt PROTOCOL_SSL [(PROTOCOL_RDP, NEGO_STATE_RDP)].

(** The last attempt has nothing to fall back to. *)
Definition nego_attempt_rdp : M (link T) unit :=
  nego_exchange PROTOCOL_RDP;; mret tt.

Definition nego_send : M (link T) unit :=
  n ← get_nego;
  match state n with
  | NEGO_STATE_AAD => nego_attempt_rdsaad
  | NEGO_STATE_RDSTLS => nego_attempt_rdstls
  | NEGO_STATE_EXT => nego_attempt_ext
  | NEGO_STATE_NLA => nego_attempt_nla
  | NEGO_STATE_TLS => nego_attempt_tls
  | NEGO_STATE_RDP => nego_attempt_rdp
  | _ => mret tt
  end.

(** The loop of [nego_connect]; [false] when the negotiation failed. *)
Fixpoint nego_loop (fuel : nat) : M (link T) bool :=
  match fuel with
  | O => crash Diverges
  | S fuel' =>
      nego_send;;
      n ← get_nego;
      if bool_decide (state n = NEGO_STATE_FAIL) then
        set_nego (nego_set_state NEGO_STATE_FINAL);; mret false
      else if bool_decide (state n = NEGO_STATE_FINAL) then mret true
      else nego_loop fuel'
  end.

(** One attempt per protocol that leads to another one. *)
Definition nego_fuel : nat := 5.

(** The highest enabled protocol, with the state that attempts it. *)
Definition first_state (n : rdpNego) : NEGO_STATE :=
  if enabled PROTOCOL_RDSAAD n then NEGO_STATE_AAD
  else if enabled PROTOCOL_RDSTLS n then NEGO_STATE_RDSTLS
  else if enabled PROTOCOL_HYBRID_EX n then NEGO_STATE_EXT
  else if enabled PROTOCOL_HYBRID n then NEGO_STATE_NLA
  else if enabled PROTOCOL_SSL n then NEGO_STATE_TLS
  else if enabled PROTOCOL_RDP n then NEGO_STATE_RDP
  else NEGO_STATE_FAIL.

(** Without negotiation only the highest enabled protocol is tried. *)
Definition only_highest (n : rdpNego) : rdpNego :=
  let off := enable PROTOCOL_RDSTLS false (enable PROTOCOL_HYBRID_EX false
    (enable PROTOCOL_RDP false (enable PROTOCOL_SSL false (enable PROTOCOL_HYBRID false
    (enable PROTOCOL_RDSAAD false n))))) in
  match state n with
  | NEGO_STATE_AAD => nego_set_selected_protocol PROTOCOL_RDSAAD (enable PROTOCOL_RDSAAD true off)
  | NEGO_STATE_RDSTLS => nego_set_selected_protocol PROTOCOL_RDSTLS (enable PROTOCOL_RDSTLS true off)
  | NEGO_STATE_EXT => nego_set_selected_protocol PROTOCOL_HYBRID_EX
      (enable PROTOCOL_HYBRID true (enable PROTOCOL_HYBRID_EX true off))
  | NEGO_STATE_NLA => nego_set_selected_protocol PROTOCOL_HYBRID (enable PROTOCOL_HYBRID true off)
  | NEGO_STATE_TLS => nego_set_selected_protocol PROTOCOL_SSL (enable PROTOCOL_SSL true off)
  | _ => nego_set_selected_protocol PROTOCOL_RDP (enable PROTOCOL_RDP true off)
  end.

(** The first part of [nego_connect]: [false] when it returns early. *)
Definition nego_begin : M (link T) bool :=
  n ← get_nego;
  if bool_decide (state n = NEGO_STATE_INITIAL) then
    let st := first_state n in
    set_nego (nego_set_state st);;
    if bool_decide (st = NEGO_STATE_FAIL) then mret false
    else
      (if negb (NegotiateSecurityLayer (config n)) then set_nego only_highest else mret tt);;
      b ← nego_tcp_connect;
      if negb b then mret false
      else if SendPreconnectionPdu (config n) then
        b ← nego_send_preconnection_pdu;
        if negb b then set_nego (nego_set_state NEGO_STATE_FINAL);; mret false else mret true
      else mret true
  else mret true.

Definition nego_update_settings_from_state (n : rdpNego) (s : nego_settings) : nego_settings :=
  mkNegoSettings (RequestedProtocols n) (SelectedProtocol n) (flags n) (UseRdpSecurityLayer s)
    (EncryptionMethods s) (EncryptionLevel s) (TlsSecurity s) (NlaSecurity s) (RdstlsSecurity s)
    (RdpSecurity s) (LocalConnection s) (SupportGraphicsPipeline s) (RdpServerRsaKey s).

(** Standard RDP security: encryption by the protocol itself, with all methods unless the
    client chose some. *)
Definition use_rdp_security (s : nego_settings) : nego_settings :=
  mkNegoSettings (set_RequestedProtocols s) (set_SelectedProtocol s) (NegotiationFlags s) true
    (if EncryptionMethods s =? 0 then ENCRYPTION_METHOD_ALL else EncryptionMethods s)
    (EncryptionLevel s) (TlsSecurity s) (NlaSecurity s) (RdstlsSecurity s)
    (RdpSecurity s) (LocalConnection s) (SupportGraphicsPipeline s) (RdpServerRsaKey s).

Definition nego_connect : M (link T) bool :=
  b ← nego_begin;
  if negb b then mret false
  else
    n ← get_nego;
    b ← (if negb (NegotiateSecurityLayer (config n)) then
           set_nego (nego_set_state NEGO_STATE_FINAL);; mret true
         else nego_loop nego_fuel);
    if negb b then mret false
    else
      n ← get_nego;
      set_settings (nego_update_settings_from_state n);;
      (if SelectedProtocol n =? PROTOCOL_RDP then set_settings use_rdp_security else mret tt);;
      nego_security_connect.

(** What the server's settings become once its answer is out, and whether it can go on:
    standard security needs a key, unless the peer is local. *)
Definition server_security (p : Z) (s : nego_settings) : bool * nego_settings :=
  let set use level tls nla rdstls rdp :=
    mkNegoSettings (set_RequestedProtocols s) (set_SelectedProtocol s) (NegotiationFlags s) use
      (EncryptionMethods s) level tls nla rdstls rdp (LocalConnection s)
      (SupportGraphicsPipeline s) (RdpServerRsaKey s) in
  if p =? PROTOCOL_RDP then
    let level := if EncryptionLevel s =? ENCRYPTION_LEVEL_NONE
                 then ENCRYPTION_LEVEL_CLIENT_COMPATIBLE else EncryptionLevel s in
    if LocalConnection s then
      (true, set false ENCRYPTION_LEVEL_NONE false false (RdstlsSecurity s) true)
    else (RdpServerRsaKey s, set true level false false (RdstlsSecurity s) true)
  else if p =? PROTOCOL_SSL then (true, set false ENCRYPTION_LEVEL_NONE true false false false)
  else if p =? PROTOCOL_HYBRID then (true, set false ENCRYPTION_LEVEL_NONE true true false false)
  else if p =? PROTOCOL_RDSTLS then (true, set false ENCRYPTION_LEVEL_NONE true false true false)
  else (true, s).

Definition nego_send_negotiation_response : M (link T) bool :=
  x ← get;
  let n := nego x in
  r ← attempt (with_stream junk 512
        (write_negotiation_response (SupportGraphicsPipeline (settings x)) n));
  status ← match r with
           | None => mret false
           | Some (_, s) => ask (transport_write (written s))
           end;
  if negb status then mret false
  else
    set_settings (fun s => mkNegoSettings (RequestedProtocols n) (SelectedProtocol n)
      (NegotiationFlags s) (UseRdpSecurityLayer s) (EncryptionMethods s) (EncryptionLevel s)
      (TlsSecurity s) (NlaSecurity s) (RdstlsSecurity s) (RdpSecurity s) (LocalConnection s)
      (SupportGraphicsPipeline s) (RdpServerRsaKey s));;
    x' ← get;
    let '(ok, s) := server_security (SelectedProtocol n) (settings x') in
    set_settings (fun _ => s);;
    mret ok.
End Connection.

(** ** The answer of the server *)

(** What the negotiation never changes; protocols are only ever switched off. *)
Record frame (n n' : rdpNego) : Prop := mk_frame {
  frame_config : config n' = config n;
  frame_cookie : cookie n' = cookie n;
  frame_token : RoutingToken n' = RoutingToken n;
  frame_token_length : RoutingTokenLength n' = RoutingTokenLength n;
  frame_enabled : forall p, enabled p n' = true -> enabled p n = true
}.

Lemma frame_refl n : frame n n.
Proof. by constructor. Qed.

Lemma frame_trans n1 n2 n3 : frame n1 n2 -> frame n2 n3 -> frame n1 n3.
Proof. intros [] []. constructor; try congruence. auto. Qed.

#[export] Instance frame_preorder : PreOrder frame.
Proof. split; [exact frame_refl|exact frame_trans]. Qed.

Lemma enabled_disable_all_except what n p :
  enabled p (nego_disable_all_except what n) = true -> enabled p n = true.
Proof.
  unfold enabled, nego_disable_all_except. simpl. rewrite !nth_lookup, list_lookup_imap.
  destruct (EnabledProtocols n !! Z.to_nat p) as [b|]; simpl; [|done].
  by destruct (_ =? what).
Qed.

(** The protocols that are only accepted when they are enabled. *)
Definition policy (n : rdpNego) (p : Z) : Prop :=
  (p = PROTOCOL_RDP -> enabled PROTOCOL_RDP n = true) /\
  (p = PROTOCOL_SSL -> enabled PROTOCOL_SSL n = true) /\
  (p = PROTOCOL_HYBRID -> enabled PROTOCOL_HYBRID n = true) /\
  (p = PROTOCOL_RDSAAD -> enabled PROTOCOL_RDSAAD n = true).

Lemma policy_mono n n' p : frame n n' -> policy n' p -> policy n p.
Proof. intros [] (? & ? & ? & ?). split_and!; auto. Qed.

(** The negotiation is settled: it failed, or the selected protocol satisfies the policy, or
    the answer selected nothing and standard security is enabled. *)
Definition settled (n n' : rdpNego) : Prop :=
  state n' = NEGO_STATE_FAIL \/
  state n' = NEGO_STATE_FINAL /\
    (policy n (SelectedProtocol n') \/
     SelectedProtocol n' = SelectedProtocol n /\ enabled PROTOCOL_RDP n = true).

(** Same connection. *)
Definition same_line (n n' : rdpNego) : Prop :=
  TcpConnected n' = TcpConnected n /\ SecurityConnected n' = SecurityConnected n.

Definition answered (n : rdpNego) (s : wStream) (y : rdpNego * wStream) : Prop :=
  frame n y.1 /\ same_line n y.1 /\ moved s y.2.

Lemma answered_state n s n' s' st :
  answered n s (n', s') -> answered n s (nego_set_state st n', s').
Proof. intros ([] & [] & Hm). split_and!; [by constructor|done|done]. Qed.

Lemma wp_fail_if (b : bool) (Q : unit -> rdpNego * wStream -> Prop) F n s :
  Q tt (if b then nego_set_state NEGO_STATE_FAIL n else n, s) -> wp (fail_if b) Q F (n, s).
Proof. unfold fail_if. by destruct b. Qed.

Ltac frame_auto := split_and!; [by constructor|done|done|..].

Lemma response_wp n s k :
  readable s -> 0 <= k <= rem s ->
  wp nego_process_negotiation_response
    (fun _ y => answered n s y /\ EnabledProtocols y.1 = EnabledProtocols n /\
                state y.1 = NEGO_STATE_FINAL)
    (answered n s) (n, advance k s).
Proof.
  intros Hs Hk. assert (Hsk : readable (advance k s)) by (by apply readable_advance).
  unfold nego_process_negotiation_response. wp_step. apply wp_attempt.
  apply wp_on_stream, wp_check_length; [done|intros Hr|intros Hr]; rewrite ?rem_advance in Hr.
  - repeat module_step; unfold answered; simpl.
    all: split_and!; try done; try (by constructor); reader_step.
  - repeat module_step. unfold answered; simpl.
    split_and!; try done; try (by constructor); reader_step.
Qed.

Lemma failure_wp n s k :
  readable s -> 0 <= k <= rem s ->
  wp nego_process_negotiation_failure
    (fun _ y => answered n s y /\ state y.1 = NEGO_STATE_FAIL)
    (answered n s) (n, advance k s).
Proof.
  intros Hs Hk. assert (Hsk : readable (advance k s)) by (by apply readable_advance).
  unfold nego_process_negotiation_failure. repeat module_step; unfold answered; simpl.
  all: split_and!; try done; try reader_step.
  all: constructor; try done; intros p; apply enabled_disable_all_except.
Qed.

(** [nego_recv] on any packet: it never crashes; when it returns the negotiation is settled. *)
Lemma recv_wp n s :
  readable s ->
  wp nego_recv (fun _ y => answered n s y /\ settled n y.1) (answered n s) (n, s).
Proof.
  intros Hs. pose proof (rem_nonneg s Hs). unfold nego_recv.
  module_step. apply wp_on_stream. eapply wp_call; [apply tpkt_read_header_safe|done| |].
  2: { intros k Hk. unfold answered; simpl. split_and!; try done; try (by constructor); reader_step. }
  intros length k Hl Hk. cbn beta.
  assert (Hsk : readable (advance k s)) by (by apply readable_advance).
  module_step. apply wp_on_stream, wp_connection_confirm; [done| |].
  2: { intros j Hj. unfold answered; simpl. rewrite rem_advance, advance_advance in *.
       split_and!; try done; try (by constructor); reader_step. }
  intros li Hli Hn Hr. rewrite rem_advance, advance_advance in *.
  assert (Hs7 : readable (advance (k + 7) s)) by (apply readable_advance; [done|lia]).
  (* the check for leftovers keeps what the first part established *)
  apply wp_bind.
  apply (wp_mono _ (fun _ y => answered n s y /\ settled n y.1) _ (answered n s)); [| |done].
  2: { intros [] [n' s'] [(Hf & Hl' & j & Hj & E) Hst]. simpl in *. subst s'.
       apply wp_consumed; [by apply readable_advance| |]; unfold answered; simpl;
         intros; split_and!; try done; by exists j. }
  zcase.
  - module_step. apply wp_on_stream. apply wp_u8; [done|rewrite rem_advance; lia|].
    intros type Ht. rewrite advance_advance. zcase; [|zcase].
    + module_step.
      eapply wp_mono; [apply response_wp; [done|lia]| |done].
      intros [] [n' s'] (Ha & He & Hst). simpl in *.
      module_step. module_step. unfold check_selected.
      assert (Hen : forall p, enabled p n' = enabled p n) by (intros p; unfold enabled; by rewrite He).
      destruct (Z.eqb_spec (SelectedProtocol n') 0) as [E0|E0]; simpl.
      * apply wp_fail_if. rewrite Hen. destruct (enabled PROTOCOL_RDP n) eqn:Er; simpl;
          (split; [by try apply answered_state|]); [right|by left].
        split; [done|]. left. rewrite E0. by split_and!.
      * do 3 (try module_step; apply wp_fail_if). rewrite !Hen.
        destruct (_ && _) eqn:E1, (_ && _) eqn:E2 in |- *, (_ && _) eqn:E3 in |- *;
          (split; [by repeat apply answered_state|]); try (by left).
        right. split; [done|]. left. split_and!; intros Ep; simpl in Ep; rewrite Ep in E0, E1, E2, E3; try done.
        -- by destruct (enabled PROTOCOL_SSL n).
        -- by destruct (enabled PROTOCOL_HYBRID n).
        -- by destruct (enabled PROTOCOL_RDSAAD n).
    + eapply wp_mono; [apply failure_wp; [done|lia]| |done].
      intros [] [n' s'] [Ha Hst]. split; [done|]. by left.
    + module_step. unfold answered; simpl. split_and!; try done; try (by constructor); reader_step.
  - zcase; repeat module_step; unfold answered, settled; simpl.
    all: split; [split_and!; try done; try (by constructor); reader_step|].
    + by left.
    + right. split; [done|]. right. split; [done|]. by destruct (enabled _ n).
    + by left.
Qed.

(** ** The packets that are sent *)

Definition token_bytes (n : rdpNego) : list Z :=
  match RoutingToken n with
  | Some tok =>
      if (2 <? RoutingTokenLength n) &&
         (nth (Z.to_nat (RoutingTokenLength n - 2)) tok 0 =? 0x0D) &&
         (nth (Z.to_nat (RoutingTokenLength n - 1)) tok 0 =? 0x0A)
      then tok else tok ++ [0x0D; 0x0A]
  | None =>
      match cookie n with
      | Some c => str_mstshash ++ ztake (Z.min (CookieMaxLength (config n)) (zlen c)) c ++ [0x0D; 0x0A]
      | None => []
      end
  end.

Definition neg_data (type fl p : Z) : list Z :=
  type :: fl :: winpr_Data_Write_UINT16 8 ++ winpr_Data_Write_UINT32 p.

Definition request_data (n : rdpNego) : list Z :=
  if (PROTOCOL_RDP <? RequestedProtocols n) || sendNegoData n
  then neg_data TYPE_RDP_NEG_REQ (request_flags n) (RequestedProtocols n) else [].

(** A connection TPDU around [body]. *)
Definition connection_bytes (code : Z) (body : list Z) : list Z :=
  tpkt_bytes (11 + zlen body) ++ tpdu_bytes (6 + zlen body) code ++ body.

Definition request_bytes (n : rdpNego) : list Z :=
  connection_bytes X224_TPDU_CONNECTION_REQUEST (token_bytes n ++ request_data n).

(** The token or cookie fits the length octet of the packet. *)
Record request_fits (n : rdpNego) : Prop := mk_fits {
  fits_token : forall tok, RoutingToken n = Some tok -> bytes tok /\ RoutingTokenLength n = zlen tok;
  fits_cookie : forall c, cookie n = Some c -> bytes c;
  fits_max : 0 <= CookieMaxLength (config n);
  fits_length : zlen (token_bytes n) <= 241
}.

Lemma request_fits_frame n n' : frame n n' -> request_fits n -> request_fits n'.
Proof.
  intros [Hc Hk Ht Hl He] [Ft Fc Fm Fl].
  constructor; unfold token_bytes in *; rewrite ?Hc, ?Hk, ?Ht, ?Hl; auto.
Qed.

Lemma zlen_neg_data type fl p : zlen (neg_data type fl p) = 8.
Proof. done. Qed.

Lemma emits_neg_data type fl p :
  is_byte type -> is_byte fl -> is_u32 p ->
  emits (Stream_Write_UINT8 type;; Stream_Write_UINT8 fl;; Stream_Write_UINT16 8;;
         Stream_Write_UINT32 p) (neg_data type fl p) tt.
Proof.
  intros. unfold neg_data. apply emits_u8; [done|]. apply emits_u8; [done|].
  eapply emits_bind; [by apply writes_u16|by apply writes_u32].
Qed.

Lemma request_flags_byte n : is_byte (request_flags n).
Proof.
  unfold request_flags. by destruct (RestrictedAdminModeRequired _), (RemoteCredsGuardRequired _).
Qed.

Lemma emits_token n L :
  request_fits n -> emits (write_token_or_cookie n L) (token_bytes n) (L + zlen (token_bytes n)).
Proof.
  intros [Ft Fc Fm Fl]. unfold write_token_or_cookie, token_bytes in *.
  destruct (RoutingToken n) as [tok|].
  - destruct (Ft tok eq_refl) as [Hb Hl]. destruct (_ && _).
    + eapply emits_bind_last; [by apply writes_bytes|]. rewrite Hl. apply emits_ret.
    + eapply emits_bind; [by apply writes_bytes|].
      apply emits_u8; [done|]. apply emits_u8; [done|].
      rewrite zlen_app, <- Hl. change (zlen [0x0D; 0x0A]) with 2. apply emits_ret.
  - destruct (cookie n) as [c|]; [|rewrite zlen_nil, Z.add_0_r; apply emits_ret].
    pose proof (zlen_nonneg c).
    replace (if CookieMaxLength (config n) <? zlen c then CookieMaxLength (config n) else zlen c)
      with (Z.min (CookieMaxLength (config n)) (zlen c)) by (zcase; lia).
    eapply emits_bind; [apply writes_bytes; by apply bytes_check|].
    eapply emits_bind; [apply writes_bytes; eauto with zforall|].
    apply emits_u8; [done|]. apply emits_u8; [done|].
    rewrite !zlen_app, zlen_ztake by lia. change (zlen str_mstshash) with 17.
    change (zlen [0x0D; 0x0A]) with 2.
    replace (17 + (Z.min (CookieMaxLength (config n)) (zlen c) + 2))
      with (Z.min (CookieMaxLength (config n)) (zlen c) + 19) by lia.
    apply emits_ret.
Qed.

Lemma emits_request_data n L :
  is_u32 (RequestedProtocols n) ->
  emits (write_neg_data n L) (request_data n) (L + zlen (request_data n)).
Proof.
  intros Hp. unfold write_neg_data, request_data. destruct (_ || _).
  - rewrite zlen_neg_data. unfold neg_data.
    apply emits_u8; [done|]. apply emits_u8; [apply request_flags_byte|].
    eapply emits_bind; [by apply writes_u16|]. eapply emits_bind_last; [by apply writes_u32|].
    apply emits_ret.
  - rewrite zlen_nil, Z.add_0_r. apply emits_ret.
Qed.

Lemma set_position_ok p s :
  0 <= p <= capacity s -> attempt (Stream_SetPosition p) s = Ret (Some tt) (set_pointer p s).
Proof.
  intros. unfold attempt, Stream_SetPosition, Stream_Capacity.
  rewrite bind_assoc, get_bind, ret_bind. by rewrite (proj2 (Z.ltb_ge _ _)) by lia.
Qed.

Lemma seal_ok s : wf s -> Stream_SealLength s = Ret tt (set_len (pointer s) s).
Proof.
  intros []. unfold Stream_SealLength. rewrite get_bind, !assert_bind by lia.
  by rewrite (proj2 (Z.leb_le _ _)) by lia.
Qed.

(** The two headers are written last, in front of the body. *)
Lemma patch_headers {B} s body b1 b2 h1 (h2 : M wStream B) v :
  wf s -> pointer s = 0 -> bytes body -> 11 + zlen body <= capacity s ->
  emits h1 b1 tt -> emits h2 b2 v -> zlen b1 = 4 -> zlen b2 = 7 ->
  exists s',
    (em ← Stream_GetPosition;
     attempt (Stream_SetPosition 0);; h1;; h2;;
     attempt (Stream_SetPosition em);; Stream_SealLength) (put body (advance 11 s)) = Ret tt s' /\
    written s' = b1 ++ b2 ++ body.
Proof.
  intros Hs Hp Hb Hc [Hb1 H1] [Hb2 H2] L1 L2. pose proof (zlen_nonneg body).
  assert (Hs11 : wf (advance 11 s)) by (destruct Hs; split; simpl; try done; lia).
  assert (Hs1 : wf (put body (advance 11 s))) by (apply wf_put; [done|done|simpl; lia]).
  rewrite (bind_ret_eq _ _ _ _ _ (position_eq _ Hs1)).
  set (em := pointer (put body (advance 11 s))). assert (Hem : em = 11 + zlen body) by (subst em; simpl; lia).
  erewrite bind_ret_eq by (apply set_position_ok; simpl; lia).
  set (s2 := set_pointer 0 _).
  assert (Hs2 : wf s2) by (destruct Hs1; split; simpl in *; try done; lia).
  rewrite (bind_ret_eq _ _ _ _ _ (H1 s2 Hs2 ltac:(simpl; lia))).
  assert (Hs3 : wf (put b1 s2)) by (apply wf_put; [done|done|simpl; lia]).
  rewrite (bind_ret_eq _ _ _ _ _ (H2 _ Hs3 ltac:(simpl; lia))).
  rewrite put_app by (try done; simpl; lia).
  erewrite bind_ret_eq by (apply set_position_ok; simpl; lia).
  assert (Hs4 : wf (set_pointer em (put (b1 ++ b2) s2))).
  { assert (wf (put (b1 ++ b2) s2)) as [].
    { apply wf_put; [done|by apply Forall_app|rewrite zlen_app; simpl; lia]. }
    split; simpl in *; try done; lia. }
  rewrite seal_ok by done. eexists. split; [reflexivity|].
  unfold written; simpl. rewrite Hp, Hem, Z.add_0_l.
  pose proof (wf_storage _ Hs). assert (L12 : zlen (b1 ++ b2) = 11) by (rewrite zlen_app; lia).
  assert (E : blit 0 (b1 ++ b2) (blit 11 body (buffer s)) =
    ((b1 ++ b2) ++ body) ++ zdrop (zlen body) (zdrop 11 (buffer s))).
  { unfold blit at 1. rewrite ztake_0, Z.add_0_l, L12, zdrop_blit_before by lia.
    replace (11 - 11) with 0 by lia. unfold blit. by rewrite ztake_0, Z.add_0_l, <- !app_assoc. }
  rewrite E, ztake_app_le, ztake_all, <- app_assoc by (rewrite zlen_app; lia). done.
Qed.

Lemma seek_wf n s : wf s -> 0 <= n -> pointer s + n <= capacity s -> Stream_Seek n s = Ret tt (advance n s).
Proof. intros. by apply seek_eq; [|lia]. Qed.

(** The whole packet of the request. *)
Lemma write_request_ok n s :
  request_fits n -> is_u32 (RequestedProtocols n) -> wf s -> pointer s = 0 -> capacity s = 512 ->
  exists s', write_negotiation_request n s = Ret tt s' /\ written s' = request_bytes n.
Proof.
  intros Hf Hp Hs Hp0 Hc. unfold write_negotiation_request, request_bytes, connection_bytes.
  rewrite (bind_ret_eq _ _ _ _ _ (position_eq s Hs)), Hp0.
  rewrite (bind_ret_eq _ _ _ _ _ (seek_wf TPDU_CONNECTION_REQUEST_LENGTH s Hs ltac:(done)
    ltac:(unfold TPDU_CONNECTION_REQUEST_LENGTH; lia))).
  destruct (emits_token n TPDU_CONNECTION_REQUEST_LENGTH Hf) as [Hb1 E1].
  destruct (emits_request_data n (TPDU_CONNECTION_REQUEST_LENGTH + zlen (token_bytes n)) Hp) as [Hb2 E2].
  pose proof (fits_length n Hf). pose proof (zlen_nonneg (token_bytes n)).
  assert (L2 : 0 <= zlen (request_data n) <= 8) by (unfold request_data; by destruct (_ || _)).
  unfold TPDU_CONNECTION_REQUEST_LENGTH in *.
  assert (Hs1 : wf (advance 11 s)) by (destruct Hs; split; simpl; try done; lia).
  rewrite (bind_ret_eq _ _ _ _ _ (E1 _ Hs1 ltac:(simpl; lia))).
  assert (Hs2 : wf (put (token_bytes n) (advance 11 s))) by (apply wf_put; [done|done|simpl; lia]).
  rewrite (bind_ret_eq _ _ _ _ _ (E2 _ Hs2 ltac:(simpl; lia))).
  rewrite put_app by (try done; simpl; lia).
  set (body := token_bytes n ++ request_data n).
  assert (Lb : zlen body = zlen (token_bytes n) + zlen (request_data n)) by apply zlen_app.
  replace (11 + zlen (token_bytes n) + zlen (request_data n)) with (11 + zlen body) by lia.
  rewrite (proj2 (Z.ltb_ge UINT16_MAX (11 + zlen body))) by (unfold UINT16_MAX; lia).
  unfold u16. rewrite Z.mod_small by lia. replace (11 + zlen body - 5) with (6 + zlen body) by lia.
  eapply patch_headers; try done; try lia.
  - by apply Forall_app.
  - apply emits_tpkt. word_lia.
  - apply emits_tpdu; [word_lia|done].
Qed.

(** ** The course of the negotiation *)

Section Progress.
Context {T : Type} `{TransportLaws T} `{Alloc} (junk : Z -> list Z).
Context (junk_len : forall n, 0 <= n -> zlen (junk n) = n) (junk_bytes : forall n, bytes (junk n)).
Implicit Types (x : link T) (n : rdpNego).

Lemma wp_ask {A} (f : T -> A * T) (Q : A -> link T -> Prop) F x :
  (forall a t, f (net x) = (a, t) -> Q a (mkLink (nego x) (settings x) t)) -> wp (ask f) Q F x.
Proof. intros HQ. unfold wp, ask. destruct (f (net x)) as [a t] eqn:E. by apply HQ. Qed.

Lemma wp_get_nego (Q : rdpNego -> link T -> Prop) F x : Q (nego x) x -> wp get_nego Q F x.
Proof. done. Qed.

Lemma wp_set_nego f (Q : unit -> link T -> Prop) F x :
  Q tt (mkLink (f (nego x)) (settings x) (net x)) -> wp (set_nego f) Q F x.
Proof. done. Qed.

Lemma wp_set_settings f (Q : unit -> link T -> Prop) F x :
  Q tt (mkLink (nego x) (f (settings x)) (net x)) -> wp (set_settings f) Q F x.
Proof. done. Qed.

Ltac link_step :=
  lazymatch goal with
  | |- wp get_nego _ _ _ => apply wp_get_nego; cbn beta
  | |- wp (set_nego _) _ _ _ => apply wp_set_nego; cbn beta
  | |- wp (set_settings _) _ _ _ => apply wp_set_settings; cbn beta
  | |- wp (ask _) _ _ _ => apply wp_ask; intros ? ? ?; cbn beta
  | |- wp _ _ _ _ => wp_step; cbn beta
  end.

(** The connection may change, the negotiation does not. *)
Definition kept n n' : Prop :=
  frame n n' /\ EnabledProtocols n' = EnabledProtocols n /\ state n' = state n /\
  SelectedProtocol n' = SelectedProtocol n /\ RequestedProtocols n' = RequestedProtocols n.

Lemma kept_connected n a b : kept n (set_connected a b n).
Proof. by split_and!. Qed.

Lemma kept_refl n : kept n n.
Proof. by split_and!. Qed.

Lemma kept_trans n1 n2 n3 : kept n1 n2 -> kept n2 n3 -> kept n1 n3.
Proof.
  intros (? & ? & ? & ? & ?) (? & ? & ? & ? & ?). split_and!; try congruence. by etrans.
Qed.

(** A call that does not touch the negotiation. *)
Definition neutral {A} (m : M (link T) A) (P : A -> rdpNego -> Prop) : Prop :=
  forall x, wp m (fun a x' => kept (nego x) (nego x') /\ settings x' = settings x /\ P a (nego x'))
               (fun _ => False) x.

Lemma security_connect_neutral :
  neutral nego_security_connect (fun b n' => b = true -> TcpConnected n' = true /\ SecurityConnected n' = true).
Proof.
  intros x. unfold nego_security_connect, nego_try_connect. do 2 link_step.
  destruct (TcpConnected (nego x)) eqn:Et, (SecurityConnected (nego x)) eqn:Es; simpl;
    repeat link_step; try (destruct (security_layer _)); repeat link_step; split_and!; simpl; try done;
    by try apply kept_connected.
Qed.

Lemma tcp_connect_neutral : neutral nego_tcp_connect (fun b n' => b = TcpConnected n').
Proof.
  intros x. unfold nego_tcp_connect, tcp_attempt. do 2 link_step.
  destruct (TcpConnected (nego x)) eqn:Et; simpl; [repeat link_step; by split_and!|].
  set (c := config (nego x)).
  destruct (GatewayEnabled c), (GatewayBypassLocal c), (ConnectChildSession c); repeat link_step; simpl;
    by split_and!.
Qed.

Lemma neutral_mono {A} (m : M (link T) A) (P P' : A -> rdpNego -> Prop) :
  neutral m P -> (forall a n, P a n -> P' a n) -> neutral m P'.
Proof. intros Hm HP x. eapply wp_mono; [apply Hm| |done]. intros a x' (? & ? & ?). auto. Qed.

(** To run a neutral call. *)
Lemma wp_neutral {A} (m : M (link T) A) P (Q : A -> link T -> Prop) x :
  neutral m P ->
  (forall a x', kept (nego x) (nego x') -> settings x' = settings x -> P a (nego x') -> Q a x') ->
  wp m Q (fun _ => False) x.
Proof. intros Hm HQ. eapply wp_mono; [apply Hm| |done]. intros a x' (? & ? & ?). auto. Qed.

Lemma transport_connect_neutral : neutral nego_transport_connect (fun _ _ => True).
Proof.
  intros x. unfold nego_transport_connect. link_step.
  eapply wp_neutral; [apply tcp_connect_neutral|]. intros b x1 Hk Hs Hb. zcase; [by repeat link_step|].
  do 2 link_step. zcase; [|by repeat link_step].
  eapply wp_neutral; [apply security_connect_neutral|]. intros b' x2 Hk2 Hs2 _.
  split_and!; [by eapply kept_trans|congruence|done].
Qed.

Lemma disconnect_neutral : neutral nego_transport_disconnect (fun _ _ => True).
Proof.
  intros x. unfold nego_transport_disconnect. do 2 link_step.
  destruct (TcpConnected _); repeat link_step; unfold wp; simpl; split_and!; done.
Qed.

(** A packet of 512 bytes at most is built, or the stream for it cannot be made. *)
Lemma send_request_neutral x :
  request_fits (nego x) -> is_u32 (RequestedProtocols (nego x)) ->
  wp (nego_send_negotiation_request junk)
     (fun _ x' => nego x' = nego x /\ settings x' = settings x) (fun _ => False) x.
Proof.
  intros Hf Hp. unfold nego_send_negotiation_request. do 2 link_step. unfold attempt, with_stream, Stream_New.
  apply wp_bind. unfold wp at 1. simpl. destruct (malloc_ok 512); [|by link_step].
  destruct (write_request_ok (nego x) (new_stream junk 512) Hf Hp) as (s' & E & _);
    [apply wf_new_stream; done|done|done|].
  unfold new_stream in E. rewrite E. by link_step.
Qed.

Lemma recv_response_wp x :
  wp nego_recv_response
     (fun b x' => frame (nego x) (nego x') /\ settings x' = settings x /\
        (b = true -> settled (nego x) (nego x'))) (fun _ => False) x.
Proof.
  unfold nego_recv_response. link_step; [by link_step|]. link_step. apply wp_ask. intros r t Er.
  destruct r as [bs|]; [|by link_step].
  destruct (read_pdu_bytes _ _ _ Er) as [Hb Hl]. unfold wp, on_packet. simpl.
  pose proof (recv_wp (nego x) (Stream_StaticInit bs) (readable_init bs Hb Hl)) as Hw.
  destruct (wp_elim _ _ _ _ Hw) as [(u & [n' s'] & -> & (Hf & _) & Hs)|([n' s'] & -> & Hf & _)];
    simpl in *; by split_and!.
Qed.

Lemma settled_kept n n1 n2 : kept n n1 -> settled n1 n2 -> settled n n2.
Proof.
  intros (Hf & He & _ & Hs & _) [Hst|[Hst Hsel]]; [by left|]. right. split; [done|].
  destruct Hsel as [Hp|[Ho Hr]]; [left; by eapply policy_mono|right].
  split; [congruence|]. by apply (frame_enabled n n1 Hf).
Qed.

Lemma frame_state n st : frame n (nego_set_state st n).
Proof. by constructor. Qed.

Lemma exchange_wp protocols x :
  request_fits (nego x) -> is_u32 protocols ->
  wp (nego_exchange junk protocols)
     (fun b x' => frame (nego x) (nego x') /\ settings x' = settings x /\
        if b then settled (nego x) (nego x') else state (nego x') = NEGO_STATE_FAIL)
     (fun _ => False) x.
Proof.
  intros Hfit Hp. unfold nego_exchange. link_step. link_step. link_step.
  set (x0 := mkLink _ _ _).
  assert (Hf0 : frame (nego x) (nego x0)) by (by constructor).
  assert (Hset : forall n', settled (nego x0) n' -> settled (nego x) n') by (intros n' Hn'; exact Hn').
  assert (Hreq : RequestedProtocols (nego x0) = protocols) by done.
  assert (Hs0 : settings x0 = settings x) by done. clearbody x0.
  assert (Hgive : forall x', frame (nego x) (nego x') -> settings x' = settings x ->
    wp (set_nego (nego_set_state NEGO_STATE_FAIL);; mret false)
       (fun b x' => frame (nego x) (nego x') /\ settings x' = settings x /\
          if b then settled (nego x) (nego x') else state (nego x') = NEGO_STATE_FAIL)
       (fun _ => False) x').
  { intros x' Hf' Hs'. repeat link_step. split_and!; simpl; try done.
    etrans; [done|apply frame_state]. }
  eapply wp_neutral; [apply transport_connect_neutral|]. intros b x1 Hk1 Hs1 _.
  assert (Hf1 : frame (nego x) (nego x1)) by (etrans; [done|apply Hk1]).
  zcase; [apply Hgive; congruence|]. link_step.
  eapply wp_mono; [apply send_request_neutral; [by eapply request_fits_frame|]| |done].
  { destruct Hk1 as (_ & _ & _ & _ & ->). by rewrite Hreq. }
  intros b2 x2 [Hn2 Hs2]. zcase; [apply Hgive; congruence|]. link_step.
  eapply wp_mono; [apply recv_response_wp| |done]. intros b3 x3 (Hf3 & Hs3 & Hst3).
  assert (Hf : frame (nego x) (nego x3)) by (rewrite Hn2 in Hf3; by etrans).
  destruct b3; simpl; [|apply Hgive; congruence]. link_step. split_and!; [done|congruence|].
  apply Hset. rewrite Hn2 in Hst3. eapply settled_kept; [done|by apply Hst3].
Qed.

(** The outcome of a negotiation that started with [n0]. *)
Definition acceptable (n0 n' : rdpNego) : Prop :=
  policy n0 (SelectedProtocol n') \/ enabled PROTOCOL_RDP n0 = true.

Lemma settled_acceptable n n' :
  settled n n' -> state n' = NEGO_STATE_FAIL \/ state n' = NEGO_STATE_FINAL /\ acceptable n n'.
Proof. intros [?|[? [?|[? ?]]]]; [by left|right; split; [done|by left]|right; split; [done|by right]]. Qed.

Lemma fall_back_in n fbs : fall_back n fbs = NEGO_STATE_FAIL \/ fall_back n fbs ∈ map snd fbs.
Proof.
  induction fbs as [|[p st] fbs IH]; simpl; [by left|]. destruct (enabled p n).
  - right. by apply list_elem_of_here.
  - destruct IH as [->|IH]; [by left|right]. by apply list_elem_of_further.
Qed.

(** After an attempt the negotiation is over or goes on with one of the fallbacks. *)
Definition advanced (fbs : list (Z * NEGO_STATE)) (x x' : link T) : Prop :=
  frame (nego x) (nego x') /\ settings x' = settings x /\
  (state (nego x') = NEGO_STATE_FAIL \/
   state (nego x') = NEGO_STATE_FINAL /\ acceptable (nego x) (nego x') \/
   state (nego x') ∈ map snd fbs).

Lemma attempt_wp protocols fbs x :
  request_fits (nego x) -> is_u32 protocols ->
  wp (nego_attempt junk protocols fbs) (fun _ => advanced fbs x) (fun _ => False) x.
Proof.
  intros Hfit Hp. unfold nego_attempt. link_step.
  eapply wp_mono; [by apply exchange_wp| |done]. intros b x1 (Hf1 & Hs1 & Hb).
  destruct b; simpl; [|link_step; split_and!; auto].
  do 2 link_step. destruct (bool_decide _) eqn:Ef; simpl.
  - link_step. split_and!; try done. apply settled_acceptable in Hb. tauto.
  - link_step. eapply wp_neutral; [apply disconnect_neutral|]. intros u x2 Hk2 Hs2 _.
    do 2 link_step. link_step. split_and!; simpl.
    + etrans; [done|]. etrans; [apply Hk2|apply frame_state].
    + congruence.
    + destruct (fall_back_in (nego x2) fbs); auto.
Qed.

(** How many attempts are left at most. *)
Definition rank (st : NEGO_STATE) : nat :=
  match st with
  | NEGO_STATE_AAD | NEGO_STATE_RDSTLS => 5
  | NEGO_STATE_EXT => 4
  | NEGO_STATE_NLA => 3
  | NEGO_STATE_TLS => 2
  | NEGO_STATE_RDP => 1
  | _ => 0
  end.

Lemma send_wp x :
  request_fits (nego x) -> (0 < rank (state (nego x)))%nat ->
  wp (nego_send junk)
     (fun _ x' => frame (nego x) (nego x') /\ settings x' = settings x /\
        (state (nego x') = NEGO_STATE_FAIL \/
         state (nego x') = NEGO_STATE_FINAL /\ acceptable (nego x) (nego x') \/
         (0 < rank (state (nego x')) < rank (state (nego x)))%nat))
     (fun _ => False) x.
Proof.
  intros Hfit Hr. unfold nego_send. do 2 link_step.
  destruct (state (nego x)) eqn:Est; simpl in Hr; try lia.
  all: try (eapply wp_mono; [by apply attempt_wp| |done]; intros u x' (Hf & Hs & Hadv);
    split_and!; [done|done|]; destruct Hadv as [?|[?|Hin]]; [by left|by right; left|right; right];
    simpl in Hin; repeat (apply elem_of_cons in Hin as [->|Hin]); simpl; try lia; inversion Hin).
  unfold nego_attempt_rdp. link_step. eapply wp_mono; [by apply exchange_wp| |done].
  intros b x' (Hf & Hs & Hb). link_step. split_and!; try done. destruct b; [|by left].
  apply settled_acceptable in Hb. tauto.
Qed.

(** The loop ends after at most as many attempts as the first state allows. *)
Lemma loop_wp fuel : forall x,
  request_fits (nego x) -> (0 < rank (state (nego x)) <= fuel)%nat ->
  wp (nego_loop junk fuel)
     (fun b x' => frame (nego x) (nego x') /\ settings x' = settings x /\
        state (nego x') = NEGO_STATE_FINAL /\ (b = true -> acceptable (nego x) (nego x')))
     (fun _ => False) x.
Proof.
  induction fuel as [|fuel IH]; intros x Hfit Hr; [lia|]. simpl. link_step.
  eapply wp_mono; [apply send_wp; [done|lia]| |done]. intros [] x1 (Hf1 & Hs1 & Hst).
  do 2 link_step. destruct Hst as [Est|[[Est Hacc]|Hr1]].
  - rewrite Est. simpl. repeat link_step. split_and!; simpl; try done. etrans; [done|apply frame_state].
  - rewrite Est. simpl. by link_step.
  - destruct (bool_decide_reflect (state (nego x1) = NEGO_STATE_FAIL)) as [E|_];
      [rewrite E in Hr1; simpl in Hr1; lia|].
    destruct (bool_decide_reflect (state (nego x1) = NEGO_STATE_FINAL)) as [E|_];
      [rewrite E in Hr1; simpl in Hr1; lia|].
    eapply wp_mono; [apply IH; [by eapply request_fits_frame|lia]| |done].
    intros b x2 (Hf2 & Hs2 & Hst2 & Hacc). split_and!; [by etrans|congruence|done|].
    intros Hb. destruct (Hacc Hb) as [Hp|Hrdp]; [left; by eapply policy_mono|right].
    by apply (frame_enabled _ _ Hf1).
Qed.

(** *** The preconnection packet *)

Definition preconnection_bytes (cbSize id cchPCB : Z) (w : list Z) : list Z :=
  winpr_Data_Write_UINT32 cbSize ++ winpr_Data_Write_UINT32 0 ++
  winpr_Data_Write_UINT32 PRECONNECTION_PDU_V2 ++ winpr_Data_Write_UINT32 id ++
  winpr_Data_Write_UINT16 cchPCB ++ w ++ [].

Lemma seals_preconnection cbSize id cchPCB wszPCB :
  is_u32 cbSize -> is_u32 id -> is_u16 cchPCB -> bytes (default [] wszPCB) ->
  seals (write_preconnection_pdu cbSize id cchPCB wszPCB)
        (preconnection_bytes cbSize id cchPCB (default [] wszPCB)).
Proof.
  intros. unfold write_preconnection_pdu, preconnection_bytes.
  do 4 (eapply seals_bind; [by apply writes_u32|]). eapply seals_bind; [by apply writes_u16|].
  eapply seals_bind; [|apply seals_end]. destruct wszPCB; [by apply writes_bytes|apply writes_ret].
Qed.

Lemma bytes_utf16 (w : list Z) :
  bytes (concat (map winpr_Data_Write_UINT16 w)) /\
  zlen (concat (map winpr_Data_Write_UINT16 w)) = 2 * zlen w.
Proof.
  induction w as [|c w [IHb IHl]]; [by split|].
  change (concat (map winpr_Data_Write_UINT16 (c :: w)))
    with (winpr_Data_Write_UINT16 c ++ concat (map winpr_Data_Write_UINT16 w)).
  split; [apply Forall_app; split; [apply bytes_Write_UINT16|done]|].
  rewrite zlen_app, IHl, zlen_cons, zlen_Write_UINT16. lia.
Qed.

Context (ConvertUtf8ToWCharAlloc : list Z -> option (list Z)).

Lemma preconnection_wp x :
  is_u32 (PreconnectionId (config (nego x))) ->
  wp (nego_send_preconnection_pdu junk ConvertUtf8ToWCharAlloc)
     (fun _ x' => kept (nego x) (nego x') /\ settings x' = settings x) (fun _ => False) x.
Proof.
  intros Hid. unfold nego_send_preconnection_pdu. link_step.
  eapply wp_neutral; [apply tcp_connect_neutral|]. intros b x1 Hk1 Hs1 _.
  zcase; [by repeat link_step|]. do 2 link_step.
  assert (Hc : config (nego x1) = config (nego x)) by (destruct Hk1 as [[] _]; congruence).
  rewrite Hc. set (pdu := preconnection_content _ _).
  assert (Hpdu : match pdu with
    | None => True
    | Some (cbSize, cchPCB, wszPCB) => is_u32 cbSize /\ is_u16 cchPCB /\ bytes (default [] wszPCB) /\
        18 + zlen (default [] wszPCB) <= cbSize
    end).
  { subst pdu. unfold preconnection_content. destruct (PreconnectionBlob _) as [blob|];
      [|split_and!; try (by vm_compute); constructor].
    destruct (ConvertUtf8ToWCharAlloc blob) as [w|]; simpl;
      [|split_and!; try (by vm_compute); constructor].
    pose proof (zlen_nonneg w). unfold UINT16_MAX. zcase; [done|].
    destruct (bytes_utf16 (w ++ [0])) as [Hb Hl].
    assert (Hz : zlen (w ++ [0]) = zlen w + 1) by (by rewrite zlen_app).
    unfold PRECONNECTION_PDU_V2_MIN_SIZE. split_and!; simpl; try done; word_lia. }
  destruct pdu as [[[cbSize cchPCB] wszPCB]|]; [|by link_step].
  destruct Hpdu as (Hcb & Hcch & Hw & Hsz). pose proof (zlen_nonneg (default [] wszPCB)).
  destruct (seals_preconnection cbSize (PreconnectionId (config (nego x))) cchPCB wszPCB Hcb Hid Hcch Hw)
    as [_ Hseal].
  link_step. unfold wp at 1, attempt, with_stream, Stream_New.
  rewrite (proj2 (Z.eqb_neq cbSize 0)) by lia. destruct (malloc_ok cbSize); [|by link_step].
  change (mkStream (junk cbSize) 0 cbSize cbSize 1 true true) with (new_stream junk cbSize).
  rewrite Hseal; [|apply wf_new_stream; [done|done|unfold is_u32 in Hcb; lia]|].
  - by link_step.
  - unfold preconnection_bytes.
    rewrite app_nil_r, !zlen_app, !zlen_Write_UINT32, zlen_Write_UINT16. simpl. lia.
Qed.

(** *** The connection *)

Lemma request_fits_same n n' :
  config n' = config n -> cookie n' = cookie n -> RoutingToken n' = RoutingToken n ->
  RoutingTokenLength n' = RoutingTokenLength n -> request_fits n -> request_fits n'.
Proof.
  intros Hc Hk Ht Hl [Ft Fc Fm Fl].
  constructor; unfold token_bytes in *; rewrite ?Hc, ?Hk, ?Ht, ?Hl; auto.
Qed.

(** The protocol that is connected when nothing is negotiated. *)
Definition highest (n : rdpNego) : Z :=
  match first_state n with
  | NEGO_STATE_AAD => PROTOCOL_RDSAAD
  | NEGO_STATE_RDSTLS => PROTOCOL_RDSTLS
  | NEGO_STATE_EXT => PROTOCOL_HYBRID_EX
  | NEGO_STATE_NLA => PROTOCOL_HYBRID
  | NEGO_STATE_TLS => PROTOCOL_SSL
  | _ => PROTOCOL_RDP
  end.

(** What the first part of [nego_connect] leaves for the second. *)
Definition ready n n' : Prop :=
  config n' = config n /\ request_fits n' /\ state n' <> NEGO_STATE_INITIAL /\
  (state n = NEGO_STATE_INITIAL ->
   (0 < rank (state n') <= 5)%nat /\
   if NegotiateSecurityLayer (config n) then frame n n' else SelectedProtocol n' = highest n).

Lemma first_state_rank n : first_state n <> NEGO_STATE_FAIL -> (0 < rank (first_state n) <= 5)%nat.
Proof.
  unfold first_state. intros Hne. repeat (zcase; [simpl; lia|]). done.
Qed.

Lemma only_highest_fields n :
  config (only_highest n) = config n /\ cookie (only_highest n) = cookie n /\
  RoutingToken (only_highest n) = RoutingToken n /\
  RoutingTokenLength (only_highest n) = RoutingTokenLength n /\ state (only_highest n) = state n.
Proof. unfold only_highest. destruct (state n) eqn:E; simpl; by split_and!. Qed.

Lemma begin_wp x :
  request_fits (nego x) -> is_u32 (PreconnectionId (config (nego x))) ->
  wp (nego_begin junk ConvertUtf8ToWCharAlloc)
     (fun b x' => settings x' = settings x /\ (b = true -> ready (nego x) (nego x')))
     (fun _ => False) x.
Proof.
  intros Hfit Hid. unfold nego_begin. do 2 link_step.
  destruct (bool_decide_reflect (state (nego x) = NEGO_STATE_INITIAL)) as [Ei|Ei].
  2: { link_step. split; [done|]. intros _. by split_and!. }
  link_step. link_step. destruct (bool_decide_reflect (first_state (nego x) = NEGO_STATE_FAIL)) as [Ef|Ef].
  { by link_step. }
  set (n1 := nego_set_state (first_state (nego x)) (nego x)).
  set (n2 := if negb (NegotiateSecurityLayer (config (nego x))) then only_highest n1 else n1).
  assert (Hn2 : config n2 = config (nego x) /\ request_fits n2 /\ state n2 = first_state (nego x) /\
    if NegotiateSecurityLayer (config (nego x)) then frame (nego x) n2 else SelectedProtocol n2 = highest (nego x)).
  { subst n2. destruct (NegotiateSecurityLayer _); simpl.
    - split_and!; try done; by apply (request_fits_same (nego x)).
    - destruct (only_highest_fields n1) as (E1 & E2 & E3 & E4 & E5). rewrite E1, E5. split_and!; try done.
      + by apply (request_fits_same (nego x)).
      + unfold only_highest, highest. simpl. destruct (first_state (nego x)) eqn:E; try done.
        all: unfold first_state in E; by repeat (zcase; try done). }
  destruct Hn2 as (Hc2 & Hfit2 & Hst2 & Hsel2).
  assert (Hready : forall n', kept n2 n' -> ready (nego x) n').
  { intros n' (Hf & He & Hst & Hsel & _). pose proof (first_state_rank _ Ef) as Hr.
    split_and!; [destruct Hf; congruence|by eapply request_fits_frame| |].
    - rewrite Hst, Hst2. intros E. rewrite E in Hr. simpl in Hr. lia.
    - intros _. rewrite Hst, Hst2. split; [done|].
      destruct (NegotiateSecurityLayer _); [by etrans|congruence]. }
  assert (Hstart : wp (if negb (NegotiateSecurityLayer (config (nego x))) then set_nego only_highest else mret tt)
    (fun _ y => y = mkLink n2 (settings x) (net x)) (fun _ => False) (mkLink n1 (settings x) (net x))).
  { subst n2. by destruct (NegotiateSecurityLayer _). }
  link_step. eapply wp_mono; [exact Hstart| |done]. intros [] y ->.
  link_step. eapply wp_neutral; [apply tcp_connect_neutral|]. intros b y1 Hk1 Hs1 _. simpl in *.
  zcase; [by link_step|]. zcase; [|link_step; auto].
  link_step. eapply wp_mono; [apply preconnection_wp| |done].
  { destruct Hk1 as ([] & _). by replace (config (nego y1)) with (config (nego x)) by congruence. }
  intros b2 y2 [Hk2 Hs2]. zcase; repeat link_step; (split; [simpl; congruence|]); [done|].
  intros _. apply Hready. by eapply kept_trans.
Qed.

(** The loop from any state but the initial one. *)
Lemma loop_any fuel x :
  request_fits (nego x) -> state (nego x) <> NEGO_STATE_INITIAL -> (5 <= fuel)%nat ->
  wp (nego_loop junk fuel)
     (fun b x' => settings x' = settings x /\
        (b = true -> (0 < rank (state (nego x)))%nat -> acceptable (nego x) (nego x')))
     (fun _ => False) x.
Proof.
  intros Hfit Hne Hfuel. destruct (decide (0 < rank (state (nego x)))%nat) as [Hr|Hr].
  - eapply wp_mono; [apply loop_wp; [done|destruct (state (nego x)); simpl in *; lia]| |done].
    intros b x' (_ & Hs & _ & Hacc). auto.
  - destruct fuel; [lia|]. simpl. unfold nego_send. do 2 link_step. link_step.
    destruct (state (nego x)) eqn:E; simpl in Hr; try done; try lia.
    all: repeat (link_step; rewrite ?E; simpl); split; [done|intros; lia].
Qed.

Lemma connect_wp x :
  request_fits (nego x) -> is_u32 (PreconnectionId (config (nego x))) ->
  wp (nego_connect junk ConvertUtf8ToWCharAlloc)
     (fun b x' => b = true ->
        TcpConnected (nego x') = true /\ SecurityConnected (nego x') = true /\
        set_SelectedProtocol (settings x') = SelectedProtocol (nego x') /\
        (state (nego x) = NEGO_STATE_INITIAL ->
         if NegotiateSecurityLayer (config (nego x)) then acceptable (nego x) (nego x')
         else SelectedProtocol (nego x') = highest (nego x)))
     (fun _ => False) x.
Proof.
  intros Hfit Hid. unfold nego_connect. link_step.
  eapply wp_mono; [by apply begin_wp| |done]. intros b x1 [Hs1 Hb]. destruct b; cbn [negb]; [|by link_step].
  destruct (Hb eq_refl) as (Hc1 & Hfit1 & Hne1 & Hinit). do 2 link_step.
  assert (Hmid : wp (if negb (NegotiateSecurityLayer (config (nego x1)))
      then set_nego (nego_set_state NEGO_STATE_FINAL);; mret true else nego_loop junk nego_fuel)
    (fun b x2 => settings x2 = settings x /\
       (b = true -> state (nego x) = NEGO_STATE_INITIAL ->
        if NegotiateSecurityLayer (config (nego x)) then acceptable (nego x) (nego x2)
        else SelectedProtocol (nego x2) = highest (nego x))) (fun _ => False) x1).
  { rewrite Hc1. destruct (NegotiateSecurityLayer (config (nego x))) eqn:En; cbn [negb].
    - eapply wp_mono; [apply loop_any; [done|done|unfold nego_fuel; lia]| |done].
      intros b x2 [Hs2 Hacc]. split; [congruence|]. intros Hbt Hi. destruct (Hinit Hi) as [Hr Hf].
      destruct (Hacc Hbt ltac:(lia)) as [Hp|Hrdp]; [left; by eapply policy_mono|right].
      by apply (frame_enabled _ _ Hf).
    - repeat link_step. split; [done|]. intros _ Hi. by destruct (Hinit Hi). }
  link_step. eapply wp_mono; [exact Hmid| |done]. intros b x2 [Hs2 Hsel].
  destruct b; simpl; [|by link_step]. do 4 link_step.
  assert (Hlast : forall y, nego y = nego x2 -> set_SelectedProtocol (settings y) = SelectedProtocol (nego x2) ->
    wp nego_security_connect (fun b x' => b = true ->
        TcpConnected (nego x') = true /\ SecurityConnected (nego x') = true /\
        set_SelectedProtocol (settings x') = SelectedProtocol (nego x') /\
        (state (nego x) = NEGO_STATE_INITIAL ->
         if NegotiateSecurityLayer (config (nego x)) then acceptable (nego x) (nego x')
         else SelectedProtocol (nego x') = highest (nego x))) (fun _ => False) y).
  { intros y Hy Hsy. eapply wp_neutral; [apply security_connect_neutral|].
    intros b y' (_ & _ & _ & Hsp & _) Hs' Hconn Hbt. destruct (Hconn Hbt). rewrite Hs', Hsp, Hy.
    split_and!; try done. intros Hi. specialize (Hsel eq_refl Hi). unfold acceptable in *. by rewrite Hsp, Hy. }
  link_step. zcase; link_step; by apply Hlast.
Qed.

(** C12: Connecting always ends, for a client whose routing token or cookie takes at most 241 bytes
    of the request, keyword and line end included (a cookie of up to 222 characters; a longer one
    within the default limit of 255 fails an assertion, long_cookie_asserts) and whose preconnection
    id has 32 bits. Whatever the transport does at each step - refuse or drop the connection,
    deliver any packet or none - and whatever memory is refused, [nego_connect] returns after at
    most five attempts, without a failed assertion or an access outside a packet; and when it
    reports success, the transport and the security layer are connected. *)
Theorem nego_connect_returns x :
  request_fits (nego x) -> is_u32 (PreconnectionId (config (nego x))) ->
  exists b x', nego_connect junk ConvertUtf8ToWCharAlloc x = Ret b x' /\
    (b = true -> TcpConnected (nego x') = true /\ SecurityConnected (nego x') = true).
Proof.
  intros Hfit Hid. destruct (wp_elim _ _ _ _ (connect_wp x Hfit Hid)) as [(b & x' & E & HQ)|(? & _ & [])].
  exists b, x'. split; [done|]. intros Hb. destruct (HQ Hb) as (? & ? & _). done.
Qed.

(** C13: No downgrade to a protocol that is switched off.  If standard security is disabled, a
    negotiated connection that succeeds never has standard security, and has TLS, network
    level authentication or Azure authentication only if that protocol was enabled - whatever
    the server selects and however often the client falls back.  (The two protocols
    [PROTOCOL_HYBRID_EX] and [PROTOCOL_RDSTLS] are not covered: the code does not check
    them.) *)
Theorem nego_connect_honours_policy x x' :
  request_fits (nego x) -> is_u32 (PreconnectionId (config (nego x))) ->
  state (nego x) = NEGO_STATE_INITIAL -> NegotiateSecurityLayer (config (nego x)) = true ->
  enabled PROTOCOL_RDP (nego x) = false ->
  nego_connect junk ConvertUtf8ToWCharAlloc x = Ret true x' ->
  SelectedProtocol (nego x') <> PROTOCOL_RDP /\ policy (nego x) (SelectedProtocol (nego x')) /\
  set_SelectedProtocol (settings x') = SelectedProtocol (nego x').
Proof.
  intros Hfit Hid Hi Hneg Hrdp E. pose proof (connect_wp x Hfit Hid) as Hw. unfold wp in Hw.
  rewrite E in Hw. destruct (Hw eq_refl) as (_ & _ & Hs & Hsel). specialize (Hsel Hi).
  rewrite Hneg in Hsel. destruct Hsel as [Hp|Hr]; [|congruence].
  split_and!; try done. destruct Hp as [Hp _]. intros Hsp. specialize (Hp Hsp). congruence.
Qed.

(** Without negotiation a connection that succeeds uses the strongest enabled protocol. *)
Theorem nego_connect_highest x x' :
  request_fits (nego x) -> is_u32 (PreconnectionId (config (nego x))) ->
  state (nego x) = NEGO_STATE_INITIAL -> NegotiateSecurityLayer (config (nego x)) = false ->
  nego_connect junk ConvertUtf8ToWCharAlloc x = Ret true x' ->
  SelectedProtocol (nego x') = highest (nego x).
Proof.
  intros Hfit Hid Hi Hneg E. pose proof (connect_wp x Hfit Hid) as Hw. unfold wp in Hw.
  rewrite E in Hw. destruct (Hw eq_refl) as (_ & _ & _ & Hsel). specialize (Hsel Hi).
  by rewrite Hneg in Hsel.
Qed.
End Progress.

(** ** Requests as the server reads them *)

Lemma readable_put bs s :
  readable s -> bytes bs -> zlen bs <= rem s ->
  readable (put bs s) /\ rest (put bs s) = zdrop (zlen bs) (rest s) /\ rem (put bs s) = rem s - zlen bs.
Proof.
  intros Hs Hb Hr. pose proof (zlen_nonneg bs). destruct (Hs) as [Hw Hp]. unfold rem in *. pose proof Hw as [].
  assert (Hw' : wf (put bs s)) by (apply wf_put; [done|done|lia]).
  split_and!; [split; [done|simpl; lia]| |unfold rem; simpl; lia].
  unfold rest, slice. simpl. rewrite zdrop_blit_after by lia.
  rewrite zdrop_ztake, zdrop_zdrop by lia. f_equal. lia.
Qed.

Lemma rewind_ok k n s :
  readable s -> 0 <= k <= rem s -> 0 <= n <= k -> Stream_Rewind n (advance k s) = Ret tt (advance (k - n) s).
Proof.
  intros Hs Hk Hn.
  pose proof (wp_rewind n (fun _ s' => s' = advance (k - n) s) (fun _ => False) s k Hs Hk Hn eq_refl) as Hw.
  unfold wp in Hw. destruct (Stream_Rewind n (advance k s)) as [[] s'| |]; [by subst|done|done].
Qed.

(** The search for the terminator behind [c]. *)
Lemma find_crlf_found c : forall s tl fuel crlf,
  readable s -> rest s = c ++ 0x0D :: 0x0A :: tl -> Forall (fun b => b <> 0x0D) c ->
  zlen c < Z.of_nat fuel ->
  find_crlf fuel crlf s = Ret 0x0A0D (advance (zlen c + 2) s).
Proof.
  induction c as [|b c IH]; intros s tl fuel crlf Hs Hr Hc Hf; (destruct fuel as [|fuel]; [unfold zlen in *; simpl in *; lia|]).
  all: pose proof (zlen_rest s Hs) as Hl; pose proof (bytes_rest s Hs) as Hb; rewrite Hr in Hl, Hb.
  all: pose proof (zlen_nonneg tl); cbn [find_crlf];
    rewrite (bind_ret_eq _ _ _ _ _ (remaining_length_eq s Hs)).
  - simpl app in Hl, Hb. rewrite !zlen_cons in Hl. destruct (Z.leb_spec 2 (rem s)); [|lia].
    erewrite bind_ret_eq by (apply stream_read_eq; [done|lia]). rewrite Hr. done.
  - pose proof (zlen_nonneg c). simpl app in Hr, Hl, Hb. rewrite !zlen_cons, zlen_app, !zlen_cons in Hl.
    apply Forall_cons_1 in Hc as [Hb0 Hc].
    destruct (Z.leb_spec 2 (rem s)); [|lia].
    erewrite bind_ret_eq by (apply stream_read_eq; [done|lia]). rewrite Hr. cbv zeta.
    assert (Hnext : exists b2 r, c ++ 0x0D :: 0x0A :: tl = b2 :: r) by (destruct c; eauto).
    destruct Hnext as (b2 & r & En). rewrite En in Hr |- *. rewrite En in Hb.
    apply Forall_cons_1 in Hb as [Hbb Hb]. apply Forall_cons_1 in Hb as [Hbb2 _].
    change (ztake 2 (b :: b2 :: r)) with [b; b2]. rewrite Get_UINT16_eq by done.
    destruct (Z.eqb_spec (b2 * 256 + b) 0x0A0D) as [E|_]; [word_lia|].
    rewrite (bind_ret_eq _ _ _ _ _ (rewind_ok 2 1 s Hs ltac:(lia) ltac:(lia))).
    rewrite (IH (advance 1 s) tl).
    + rewrite advance_advance, zlen_cons. f_equal. f_equal. lia.
    + apply readable_advance; [done|lia].
    + rewrite rest_advance, Hr, zdrop_cons, zdrop_0 by (auto; lia). by rewrite En.
    + done.
    + rewrite zlen_cons in Hf. lia.
Qed.

Section ServerSide.
Context `{AllocOk}.
Implicit Types (n sv cl : rdpNego) (s : wStream).

(** The characters a cookie may have. *)
Definition is_cookie_char (b : Z) : Prop := is_byte b /\ b <> 0 /\ b <> 0x0D.

Lemma memcmp_ok str s :
  readable s -> zlen str <= rem s ->
  memcmp_eq str s = Ret (bool_decide (ztake (zlen str) (rest s) = str)) s.
Proof.
  intros Hs Hr. pose proof (zlen_nonneg str). unfold memcmp_eq.
  by rewrite (bind_ret_eq _ _ _ _ _ (load_eq (zlen str) s Hs ltac:(lia))).
Qed.

Lemma read_cookie n s c tl :
  readable s -> rest s = str_mstshash ++ c ++ 0x0D :: 0x0A :: tl -> Forall is_cookie_char c ->
  8 <= zlen tl -> zlen c < 1000 ->
  nego_read_request_token_or_cookie (n, s) =
  Ret tt (set_cookie_field (Some (str_mstshash ++ c)) n, put [0; 0] (advance (17 + zlen c) s)).
Proof.
  intros Hs Hr Hc Htl Hlen. assert (L17 : zlen str_mstshash = 17) by done. pose proof (zlen_rest s Hs) as Hl. rewrite Hr in Hl.
  rewrite !zlen_app, !zlen_cons in Hl. rewrite L17 in Hl.
  pose proof (zlen_nonneg c). unfold nego_read_request_token_or_cookie.
  rewrite (on_stream_bind _ _ _ _ _ _ (remaining_length_eq s Hs)).
  destruct (Hs) as [Hw _]. rewrite (on_stream_bind _ _ _ _ _ _ (position_eq s Hw)).
  rewrite (proj2 (Z.ltb_ge (rem s) 15)) by lia.
  assert (Ek : token_kind s = Ret (Some false) s).
  { unfold token_kind. erewrite bind_ret_eq by (apply memcmp_ok; [done|lia]).
    rewrite Hr, ztake_app_le, ztake_all by lia. by rewrite bool_decide_true. }
  rewrite (on_stream_bind _ _ _ _ _ _ Ek). rewrite (proj2 (Z.ltb_ge (rem s) 19)) by lia.
  rewrite (on_stream_bind _ _ _ _ _ _ (seek_readable 17 s Hs ltac:(lia))).
  assert (Hs17 : readable (advance 17 s)) by (apply readable_advance; [done|lia]).
  assert (Hr17 : rest (advance 17 s) = c ++ 0x0D :: 0x0A :: tl).
  { rewrite rest_advance, Hr, zdrop_app_ge by (auto; lia). by rewrite L17. }
  unfold read_terminated. rewrite (on_stream_bind _ _ _ _ _ _ (remaining_length_eq _ Hs17)).
  assert (Hc' : Forall (fun b => b <> 0x0D) c) by (eapply List.Forall_impl; [|exact Hc]; by intros b (? & ? & ?)).
  rewrite (on_stream_bind _ _ _ _ _ _
    (find_crlf_found c _ tl (Z.to_nat (rem (advance 17 s))) 0 Hs17 Hr17 Hc' ltac:(rewrite rem_advance; lia))).
  rewrite advance_advance.
  set (pos := pointer s). set (k := 17 + zlen c).
  assert (Epos : pos = pointer s) by done. assert (Ek' : k = 17 + zlen c) by done.
  assert (Hwr : (on_stream (Stream_Rewind 2);;
       pos' ← on_stream Stream_GetPosition;
       let len := usize (pos' - pos) in
       on_stream (Stream_Write_UINT16 0);;
       x ← get;
       let str := slice pos len (buffer (snd x)) in
       if UINT32_MAX <? len then mret false
       else if forallb (fun c => negb (c =? 0)) str then nego_set_cookie str;; mret true
       else failure) (n, advance (17 + (zlen c + 2)) s) =
    Ret true (set_cookie_field (Some (str_mstshash ++ c)) n, put [0; 0] (advance k s))).
  { replace (17 + (zlen c + 2)) with (k + 2) by lia.
    rewrite (on_stream_bind _ _ _ _ _ _ (rewind_ok (k + 2) 2 s Hs ltac:(lia) ltac:(lia))).
    replace (k + 2 - 2) with k by lia.
    assert (Hsk : readable (advance k s)) by (apply readable_advance; [done|lia]).
    destruct (Hsk) as [Hwk _]. rewrite (on_stream_bind _ _ _ _ _ _ (position_eq _ Hwk)).
    assert (Elen : usize (pointer (advance k s) - pos) = k).
    { subst pos. simpl. rewrite usize_id; lia. }
    cbv zeta. rewrite Elen.
    assert (Hz : bytes [0; 0]) by (by apply bytes_check).
    pose proof (wf_pointer s Hw). pose proof (wf_storage s Hw). pose proof (wf_len s Hw). unfold rem in *.
    assert (Hw16 : Stream_Write_UINT16 0 (advance k s) = Ret tt (put [0; 0] (advance k s))).
    { apply (proj2 (writes_u16 0 ltac:(by vm_compute))); [done|]. simpl. change (zlen _) with 2. lia. }
    rewrite (on_stream_bind _ _ _ _ _ _ Hw16), get_bind.
    change (buffer (n, put [0; 0] (advance k s)).2) with (buffer (put [0; 0] (advance k s))).
    assert (Estr : slice pos k (buffer (put [0; 0] (advance k s))) = str_mstshash ++ c).
    { unfold put, slice. simpl. fold pos. rewrite zdrop_blit_before by (change (zlen [0; 0]) with 2; lia).
      rewrite ztake_blit_before; [|lia|rewrite zlen_zdrop; change (zlen [0; 0]) with 2; lia].
      replace (pos + k - pos) with k by lia.
      replace (ztake k (zdrop pos (buffer s))) with (ztake k (rest s)).
      2: { unfold rest, slice. fold pos. rewrite ztake_ztake by lia. f_equal. lia. }
      rewrite Hr, app_assoc, ztake_app_le, ztake_all by (rewrite zlen_app; lia). done. }
    rewrite Estr. rewrite (proj2 (Z.ltb_ge UINT32_MAX k)) by (unfold UINT32_MAX; lia).
    assert (Enz : forallb (fun c => negb (c =? 0)) (str_mstshash ++ c) = true).
    { apply forallb_forall. intros b Hin. apply in_app_or in Hin as [Hin|Hin].
      - by repeat (destruct Hin as [<-|Hin]; [done|]).
      - rewrite List.Forall_forall in Hc. destruct (Hc b Hin) as (_ & ? & _). lia. }
    rewrite Enz. unfold nego_set_cookie. rewrite alloc_ok by (rewrite zlen_app; lia). done. }
  unfold attempt at 1. rewrite Z.eqb_refl. cbv beta iota zeta in Hwr |- *.
  erewrite bind_ret_eq by (unfold attempt; by rewrite Hwr). done.
Qed.

(** The server supports what the client requires. *)
Definition supports cl sv : Prop :=
  (RestrictedAdminModeRequired (config cl) = true -> RestrictedAdminModeSupported (config sv) = true) /\
  (RemoteCredsGuardRequired (config cl) = true ->
   RemoteCredsGuardSupported (config sv) = true \/ RestrictedAdminModeRequired (config cl) = true).

(** The server after a request for the protocols [p]. *)
Definition requested cl sv : rdpNego :=
  nego_set_state NEGO_STATE_FINAL (nego_set_requested_protocols (RequestedProtocols cl)
    (if RemoteCredsGuardRequired (config cl) && RemoteCredsGuardSupported (config sv)
     then set_RemoteCredsGuardActive true sv else sv)).

Lemma accepts_request cl sv :
  supports cl sv -> is_u32 (RequestedProtocols cl) ->
  accepts nego_process_negotiation_request
    (request_flags cl :: winpr_Data_Write_UINT16 8 ++ winpr_Data_Write_UINT32 (RequestedProtocols cl))
    sv tt (requested cl sv).
Proof.
  intros [Hra Hcg] Hp. unfold nego_process_negotiation_request, request_flags, requested.
  apply accepts_check; [by vm_compute|].
  assert (Hlast : forall fl sv1 sv2, (has fl CORRELATION_INFO_PRESENT = false) ->
    sv2 = nego_set_state NEGO_STATE_FINAL (nego_set_requested_protocols (RequestedProtocols cl) sv1) ->
    accepts (length ← on_stream Stream_Read_UINT16;
      if negb (length =? 8) then failure
      else
        p ← on_stream Stream_Read_UINT32;
        set_module (nego_set_requested_protocols p);;
        (if has fl CORRELATION_INFO_PRESENT then on_stream nego_process_correlation_info
         else mret tt);;
        set_module (nego_set_state NEGO_STATE_FINAL))
     (winpr_Data_Write_UINT16 8 ++ winpr_Data_Write_UINT32 (RequestedProtocols cl)) sv1 tt sv2).
  { intros fl sv1 sv2 Hfl ->. eapply accepts_bind; [by apply (parses_u16 8)|]. simpl.
    rewrite <- (app_nil_r (winpr_Data_Write_UINT32 _)).
    eapply accepts_bind; [by apply parses_u32|]. apply accepts_set_module. rewrite Hfl.
    intros s Hs Hr. rewrite zlen_nil, advance_0. done. }
  apply (accepts_bind _ _ [_] _ _ _ _ _ (parses_u8 _)), accepts_get.
  destruct (RestrictedAdminModeRequired (config cl)) eqn:Era, (RemoteCredsGuardRequired (config cl)) eqn:Ecg;
    simpl; rewrite ?(Hra eq_refl); simpl.
  1, 3: destruct (RemoteCredsGuardSupported (config sv)) eqn:Es; simpl.
  4: (by destruct (Hcg eq_refl)).
  all: first [apply accepts_set_module; exact (Hlast 0 _ _ eq_refl eq_refl)
             |intros s Hs Hr; rewrite ret_bind; exact (Hlast 0 _ _ eq_refl eq_refl s Hs Hr)].
Qed.

Lemma connection_there code body s :
  readable s -> rest s = connection_bytes code body -> zlen body <= 249 -> is_byte code ->
  code <> X224_TPDU_DATA ->
  tpkt_read_header s = Ret (11 + zlen body) (advance 4 s) /\
  tpdu_read_header (11 + zlen body) (advance 4 s) = Ret (6 + zlen body, code) (advance 11 s) /\
  readable (advance 11 s) /\ rest (advance 11 s) = body.
Proof.
  intros Hs Hr Hb Hcode Hne. pose proof (zlen_nonneg body). unfold connection_bytes in Hr.
  assert (Et : tpdu_bytes (6 + zlen body) code = [6 + zlen body; code; 0; 0; 0; 0; 0]).
  { unfold tpdu_bytes. by rewrite (proj2 (Z.eqb_neq _ _)). }
  assert (L4 : zlen (tpkt_bytes (11 + zlen body)) = 4) by done.
  pose proof (zlen_rest s Hs) as Hl. rewrite Hr, Et, !zlen_app, L4 in Hl.
  change (zlen [6 + zlen body; code; 0; 0; 0; 0; 0]) with 7 in Hl.
  assert (Hs4 : readable (advance 4 s)) by (apply readable_advance; [done|lia]).
  assert (Hr4 : rest (advance 4 s) = tpdu_bytes (6 + zlen body) code ++ body).
  { rewrite rest_advance, Hr, zdrop_app_ge, L4 by (auto; lia). done. }
  split_and!.
  - eapply tpkt_header_there; [done|exact Hr|unfold UINT16_MAX; lia|].
    rewrite Et, zlen_app. change (zlen [_; _; _; _; _; _; _]) with 7. lia.
  - rewrite (parses_tpdu (6 + zlen body) code (11 + zlen body) ltac:(lia) _ body Hs4 Hr4).
    rewrite Et, advance_advance. done.
  - apply readable_advance; [done|lia].
  - rewrite rest_advance, Hr, zdrop_app_ge, L4, Et by (auto; lia). done.
Qed.

(** The request of a client without a routing token: its cookie, if it has one, consists of
    proper characters and is not cut. *)
Record sends cl : Prop := mk_sends {
  sends_token : RoutingToken cl = None;
  sends_cookie : forall c, cookie cl = Some c ->
    Forall is_cookie_char c /\ zlen c <= CookieMaxLength (config cl) /\ zlen c <= 200;
  sends_max : 0 <= CookieMaxLength (config cl);
  sends_protocols : is_u32 (RequestedProtocols cl);
  sends_data : PROTOCOL_RDP < RequestedProtocols cl \/ sendNegoData cl = true
}.

(** The cookie as the server keeps it: with the keyword in front. *)
Definition received_cookie cl sv : rdpNego :=
  match cookie cl with
  | Some c => set_cookie_field (Some (str_mstshash ++ c)) sv
  | None => sv
  end.

Lemma sends_bytes cl :
  sends cl ->
  request_bytes cl = connection_bytes X224_TPDU_CONNECTION_REQUEST
    (match cookie cl with Some c => str_mstshash ++ c ++ [0x0D; 0x0A] | None => [] end ++
     neg_data TYPE_RDP_NEG_REQ (request_flags cl) (RequestedProtocols cl)).
Proof.
  intros [Ht Hc Hm Hp Hd]. unfold request_bytes, token_bytes, request_data. rewrite Ht.
  replace (_ || _) with true by (destruct Hd as [Hd| ->]; [symmetry; apply orb_true_iff; left; lia|by rewrite orb_true_r]).
  destruct (cookie cl) as [c|]; [|done]. destruct (Hc c eq_refl) as (_ & Hle & _).
  by rewrite Z.min_r, ztake_all by lia.
Qed.

(** The request data of a packet, and nothing behind it. *)
Lemma request_tail cl sv s L :
  supports cl sv -> is_u32 (RequestedProtocols cl) -> readable s ->
  rest s = neg_data TYPE_RDP_NEG_REQ (request_flags cl) (RequestedProtocols cl) -> 0 <= L <= UINT16_MAX ->
  exists s',
    (remain ← on_stream Stream_GetRemainingLength;
     (if 8 <=? remain then
        type ← on_stream Stream_Read_UINT8;
        if negb (type =? TYPE_RDP_NEG_REQ) then failure else nego_process_negotiation_request
      else mret tt);;
     on_stream (tpkt_ensure_stream_consumed L)) (sv, s) = Ret tt (requested cl sv, s').
Proof.
  intros Hsup Hp Hs Hr Hn. pose proof (zlen_rest s Hs) as Hl. rewrite Hr, zlen_neg_data in Hl.
  rewrite (on_stream_bind _ _ _ _ _ _ (remaining_length_eq s Hs)), <- Hl.
  change (8 <=? 8) with true. cbv iota. rewrite bind_assoc.
  rewrite (on_stream_bind _ _ _ _ _ _ (parses_u8 TYPE_RDP_NEG_REQ s _ Hs Hr)). simpl negb. cbv iota.
  change (zlen [TYPE_RDP_NEG_REQ]) with 1.
  assert (Hs1 : readable (advance 1 s)) by (apply readable_advance; [done|lia]).
  assert (Hr1 : rest (advance 1 s) = request_flags cl :: winpr_Data_Write_UINT16 8 ++ winpr_Data_Write_UINT32 (RequestedProtocols cl)).
  { rewrite rest_advance, Hr by (auto; lia). done. }
  rewrite (bind_ret_eq _ _ _ _ _ (accepts_request cl sv Hsup Hp _ Hs1 Hr1)), advance_advance.
  eexists. rewrite (accepts_done L (requested cl sv) Hn); [reflexivity| |].
  - apply readable_advance; [done|]. rewrite zlen_cons, zlen_app, zlen_Write_UINT16, zlen_Write_UINT32. lia.
  - rewrite rest_advance by (auto; rewrite zlen_cons, zlen_app, zlen_Write_UINT16, zlen_Write_UINT32; lia).
    apply zdrop_all. rewrite Hr, zlen_neg_data, zlen_cons, zlen_app, zlen_Write_UINT16, zlen_Write_UINT32. lia.
Qed.

Lemma read_request_ok cl sv s :
  sends cl -> supports cl sv -> readable s -> rest s = request_bytes cl ->
  exists s', nego_read_request (sv, s) = Ret tt (requested cl (received_cookie cl sv), s').
Proof.
  intros Hcl Hsup Hs Hr. rewrite (sends_bytes cl Hcl) in Hr. destruct Hcl as [Ht Hc Hm Hp Hd].
  set (nd := neg_data _ _ _) in Hr.
  assert (Lnd : zlen nd = 8) by apply zlen_neg_data.
  set (tok := match cookie cl with Some c => _ | None => _ end) in Hr.
  assert (Ltok : 0 <= zlen tok <= 219).
  { subst tok. destruct (cookie cl) as [c|]; [|done]. destruct (Hc c eq_refl) as (_ & _ & ?).
    pose proof (zlen_nonneg c). rewrite !zlen_app. change (zlen str_mstshash) with 17.
    change (zlen [0x0D; 0x0A]) with 2. lia. }
  assert (Lb : zlen (tok ++ nd) = zlen tok + 8) by (rewrite zlen_app; lia).
  destruct (connection_there _ (tok ++ nd) s Hs Hr ltac:(lia) ltac:(done) ltac:(done)) as (E1 & E2 & Hs11 & Hr11).
  unfold nego_read_request. rewrite (on_stream_bind _ _ _ _ _ _ E1).
  assert (E3 : tpdu_read_connection_request (11 + zlen (tok ++ nd)) (advance 4 s) = Ret (6 + zlen (tok ++ nd)) (advance 11 s)).
  { unfold tpdu_read_connection_request. by rewrite (bind_ret_eq _ _ _ _ _ E2). }
  rewrite (on_stream_bind _ _ _ _ _ _ E3).
  rewrite (on_stream_bind _ _ _ _ _ _ (remaining_length_eq _ Hs11)).
  pose proof (zlen_rest _ Hs11) as Hl. rewrite Hr11 in Hl.
  replace (6 + zlen (tok ++ nd) =? rem (advance 11 s) + 6) with true by (symmetry; apply Z.eqb_eq; lia).
  cbn [negb].
  assert (Htok : exists s2, nego_read_request_token_or_cookie (sv, advance 11 s) =
      Ret tt (received_cookie cl sv, s2) /\ readable s2 /\ rest s2 = nd).
  { subst tok. unfold received_cookie. destruct (cookie cl) as [c|].
    - destruct (Hc c eq_refl) as (Hcc & _ & Hcl). pose proof (zlen_nonneg c).
      assert (L17 : zlen str_mstshash = 17) by done. assert (L2 : zlen [0; 0] = 2) by done.
      assert (Hr11' : rest (advance 11 s) = str_mstshash ++ c ++ 0x0D :: 0x0A :: nd)
        by (rewrite Hr11, <- !app_assoc; done).
      eexists. split; [apply (read_cookie sv _ c nd); [done|exact Hr11'|done|lia|lia]|].
      assert (Lr : rem (advance 11 s) = 17 + zlen c + 10).
      { rewrite <- zlen_rest, Hr11', !zlen_app, !zlen_cons by done. lia. }
      assert (Hsk : readable (advance (17 + zlen c) (advance 11 s))) by (apply readable_advance; [done|lia]).
      destruct (readable_put [0; 0] _ Hsk ltac:(by apply bytes_check)) as (Hrp & Hrest & _).
      { rewrite rem_advance. lia. }
      split; [done|]. rewrite Hrest, rest_advance, Hr11' by (auto; lia).
      rewrite zdrop_zdrop, app_assoc, zdrop_app_ge, zlen_app by (rewrite ?zlen_app; lia).
      by replace (17 + zlen c + zlen [0; 0] - (zlen str_mstshash + zlen c)) with 2 by lia.
    - exists (advance 11 s). simpl app in *. unfold nego_read_request_token_or_cookie.
      rewrite (on_stream_bind _ _ _ _ _ _ (remaining_length_eq _ Hs11)).
      destruct (Hs11) as [Hw _]. rewrite (on_stream_bind _ _ _ _ _ _ (position_eq _ Hw)).
      rewrite (proj2 (Z.ltb_lt (rem (advance 11 s)) 15)) by lia. done. }
  destruct Htok as (s2 & Etok & Hs2 & Hr2).
  rewrite (bind_ret_eq _ _ _ _ _ Etok).
  apply (request_tail cl (received_cookie cl sv) s2); try done.
  - unfold supports, received_cookie in *. by destruct (cookie cl).
  - unfold UINT16_MAX. lia.
Qed.

(** C37: A negotiation request arrives as it was sent.  The packet a client writes - with its
    cookie of up to 200 proper characters, or none - is accepted by a server that supports
    the modes the client requires; the server has the requested protocols, the cookie, the
    guard mode both sides agree on, and its negotiation is final. *)
Theorem nego_request_roundtrip cl sv s :
  sends cl -> supports cl sv -> wf s -> pointer s = 0 -> capacity s = 512 ->
  exists s1 s2 sv',
    write_negotiation_request cl s = Ret tt s1 /\
    nego_read_request (sv, Stream_StaticInit (written s1)) = Ret tt (sv', s2) /\
    state sv' = NEGO_STATE_FINAL /\ RequestedProtocols sv' = RequestedProtocols cl /\
    cookie sv' = (match cookie cl with Some c => Some (str_mstshash ++ c) | None => cookie sv end) /\
    (RemoteCredsGuardRequired (config cl) = true -> RemoteCredsGuardSupported (config sv) = true ->
     RemoteCredsGuardActive sv' = true).
Proof.
  intros Hcl Hsup Hs Hp Hc.
  assert (Hbody : forall c, cookie cl = Some c -> bytes c).
  { intros c Ec. destruct (sends_cookie cl Hcl c Ec) as (Hch & _ & _).
    eapply List.Forall_impl; [|exact Hch]. by intros b (? & _). }
  assert (Hfit : request_fits cl).
  { destruct Hcl as [Ht Hck Hm Hpr Hd]. constructor; [by rewrite Ht|done|done|].
    unfold token_bytes. rewrite Ht. destruct (cookie cl) as [c|]; [|by vm_compute].
    destruct (Hck c eq_refl) as (_ & Hle & Hlen). rewrite Z.min_r, ztake_all, !zlen_app by lia.
    change (zlen str_mstshash) with 17. change (zlen [0x0D; 0x0A]) with 2. lia. }
  destruct (write_request_ok cl s Hfit (sends_protocols cl Hcl) Hs Hp Hc) as (s1 & E1 & W1).
  assert (Hbytes : bytes (request_bytes cl) /\ zlen (request_bytes cl) < 2 ^ 62).
  { destruct (emits_token cl 0 Hfit) as [Hb1 _].
    destruct (emits_request_data cl 0 (sends_protocols cl Hcl)) as [Hb2 _].
    pose proof (fits_length cl Hfit). pose proof (zlen_nonneg (token_bytes cl)).
    assert (L2 : 0 <= zlen (request_data cl) <= 8) by (unfold request_data; by destruct (_ || _)).
    unfold request_bytes, connection_bytes. set (body := _ ++ request_data cl).
    assert (Lb : zlen body = zlen (token_bytes cl) + zlen (request_data cl)) by apply zlen_app.
    destruct (emits_tpkt (11 + zlen body) ltac:(word_lia)) as [Hb3 _].
    destruct (emits_tpdu (6 + zlen body) X224_TPDU_CONNECTION_REQUEST ltac:(word_lia) ltac:(done)) as [Hb4 _].
    assert (Hb5 : bytes body) by (by apply Forall_app).
    split; [do 2 (apply Forall_app; split; [done|]); done|]. rewrite !zlen_app.
    change (zlen (tpkt_bytes _)) with 4. change (zlen (tpdu_bytes _ _)) with 7. lia. }
  destruct Hbytes as [Hb Hl].
  destruct (read_request_ok cl sv (Stream_StaticInit (request_bytes cl)) Hcl Hsup (readable_init _ Hb Hl))
    as (s2 & E2).
  { unfold rest. simpl. rewrite Z.sub_0_r, slice_0. by apply ztake_all. }
  exists s1, s2, (requested cl (received_cookie cl sv)). rewrite W1. split_and!; try done.
  - unfold requested, received_cookie. by destruct (cookie cl), (_ && _).
  - unfold requested, received_cookie. intros Hr Hg. by destruct (cookie cl); simpl; rewrite Hr, Hg.
Qed.

(** *** The answer *)

Definition answer_data (gfx : bool) sv : list Z :=
  if has (SelectedProtocol sv) PROTOCOL_FAILED_NEGO
  then neg_data TYPE_RDP_NEG_FAILURE 0 (Z.land (SelectedProtocol sv) (Z.lnot PROTOCOL_FAILED_NEGO))
  else neg_data TYPE_RDP_NEG_RSP (response_flags gfx sv) (SelectedProtocol sv).

Lemma response_flags_byte gfx sv : is_byte (response_flags gfx sv).
Proof.
  unfold response_flags. by destruct gfx, (RestrictedAdminModeSupported _), (RemoteCredsGuardSupported _).
Qed.

Lemma write_response_ok gfx sv s :
  is_u32 (SelectedProtocol sv) -> wf s -> pointer s = 0 -> capacity s = 512 ->
  exists s', write_negotiation_response gfx sv s = Ret tt s' /\
    written s' = connection_bytes X224_TPDU_CONNECTION_CONFIRM (answer_data gfx sv).
Proof.
  intros Hp Hs Hp0 Hc. unfold write_negotiation_response, connection_bytes.
  rewrite (bind_ret_eq _ _ _ _ _ (position_eq s Hs)), Hp0.
  rewrite (bind_ret_eq _ _ _ _ _ (seek_wf TPDU_CONNECTION_CONFIRM_LENGTH s Hs ltac:(done)
    ltac:(unfold TPDU_CONNECTION_CONFIRM_LENGTH; lia))).
  assert (Hcode : is_u32 (Z.land (SelectedProtocol sv) (Z.lnot PROTOCOL_FAILED_NEGO))).
  { unfold is_u32 in *. rewrite <- (Z.mod_small (SelectedProtocol sv) (2 ^ 32)) by lia.
    rewrite <- Z.land_ones, <- Z.land_assoc, (Z.land_comm (Z.ones 32)), Z.land_assoc, Z.land_ones by lia.
    apply Z.mod_pos_bound. lia. }
  assert (Hemit : emits (write_neg_answer gfx sv) (answer_data gfx sv) tt /\ zlen (answer_data gfx sv) = 8).
  { unfold write_neg_answer, answer_data. destruct (has _ _); (split; [|done]); apply emits_neg_data;
      try done; apply response_flags_byte. }
  destruct Hemit as [[Hb E1] L8]. unfold TPDU_CONNECTION_CONFIRM_LENGTH in *.
  assert (Hs1 : wf (advance 11 s)) by (destruct Hs; split; simpl; try done; lia).
  rewrite (bind_ret_eq _ _ _ _ _ (E1 _ Hs1 ltac:(simpl; lia))). cbv zeta. rewrite L8.
  eapply patch_headers; try done; try lia.
  - by apply emits_tpkt.
  - apply emits_attempt. by apply emits_tpdu.
Qed.

Lemma not_failed p : 0 <= p < 2 ^ 31 -> has p PROTOCOL_FAILED_NEGO = false.
Proof.
  intros Hp. unfold has. replace (Z.land p PROTOCOL_FAILED_NEGO) with 0; [done|].
  symmetry. change PROTOCOL_FAILED_NEGO with (2 ^ 31). apply Z.bits_inj'. intros i Hi.
  rewrite Z.land_spec, Z.bits_0. destruct (Z.eq_dec i 31) as [->|Hne].
  - by rewrite (testbit_above p 31) by lia.
  - by rewrite Z.pow2_bits_false, andb_false_r by lia.
Qed.

(** Whether the client goes along with the selected protocol. *)
Definition allowed cl (p : Z) : bool :=
  if p =? PROTOCOL_RDP then enabled PROTOCOL_RDP cl
  else if p =? PROTOCOL_SSL then enabled PROTOCOL_SSL cl
  else if p =? PROTOCOL_HYBRID then enabled PROTOCOL_HYBRID cl
  else if p =? PROTOCOL_RDSAAD then enabled PROTOCOL_RDSAAD cl
  else true.

(** The client after an answer that selects [p]. *)
Definition selected cl (fl p : Z) : rdpNego :=
  nego_set_state (if allowed cl p then NEGO_STATE_FINAL else NEGO_STATE_FAIL)
    (nego_set_selected_protocol p (set_flags fl cl)).

Lemma accepts_response cl fl p :
  is_byte fl -> is_u32 p ->
  accepts nego_process_negotiation_response (fl :: winpr_Data_Write_UINT16 8 ++ winpr_Data_Write_UINT32 p)
    cl tt (nego_set_state NEGO_STATE_FINAL (nego_set_selected_protocol p (set_flags fl cl))).
Proof.
  intros Hf Hp s Hs Hr. unfold nego_process_negotiation_response.
  assert (Hl : rem s = 7).
  { rewrite <- zlen_rest, Hr, zlen_cons, zlen_app, zlen_Write_UINT16, zlen_Write_UINT32 by done. lia. }
  erewrite bind_ret_eq.
  2: { unfold attempt, on_stream. simpl. rewrite check_length_ok by (done || lia). reflexivity. }
  assert (Hacc : accepts (fl ← on_stream Stream_Read_UINT8;
      set_module (set_flags fl);;
      length ← on_stream Stream_Read_UINT16;
      if negb (length =? 8) then set_module (nego_set_state NEGO_STATE_FAIL);; failure
      else
        p ← on_stream Stream_Read_UINT32;
        set_module (nego_set_selected_protocol p);;
        set_module (nego_set_state NEGO_STATE_FINAL))
    ([fl] ++ winpr_Data_Write_UINT16 8 ++ winpr_Data_Write_UINT32 p ++ []) cl tt
    (nego_set_state NEGO_STATE_FINAL (nego_set_selected_protocol p (set_flags fl cl)))).
  { eapply accepts_bind; [apply parses_u8|]. apply accepts_set_module.
    eapply accepts_bind; [by apply (parses_u16 8)|]. change (8 =? 8) with true. cbn [negb].
    eapply accepts_bind; [by apply parses_u32|]. apply accepts_set_module.
    intros r Hrr Hrest. by rewrite zlen_nil, advance_0. }
  rewrite app_nil_r in Hacc. by apply Hacc.
Qed.

Lemma check_selected_eq cl fl p s :
  0 <= p ->
  check_selected (nego_set_state NEGO_STATE_FINAL (nego_set_selected_protocol p (set_flags fl cl)))
    (nego_set_state NEGO_STATE_FINAL (nego_set_selected_protocol p (set_flags fl cl)), s) =
  Ret tt (selected cl fl p, s).
Proof.
  intros Hp. set (n := nego_set_state NEGO_STATE_FINAL _).
  assert (Ep : SelectedProtocol n = p) by done.
  assert (He : forall q, enabled q n = enabled q cl) by done.
  unfold check_selected, selected, allowed. rewrite Ep, !He.
  destruct (Z.eqb_spec p PROTOCOL_RDP) as [->|]; [by destruct (enabled PROTOCOL_RDP cl)|].
  destruct (Z.eqb_spec p PROTOCOL_SSL) as [->|]; [by destruct (enabled PROTOCOL_SSL cl)|].
  destruct (Z.eqb_spec p PROTOCOL_HYBRID) as [->|]; [by destruct (enabled PROTOCOL_HYBRID cl)|].
  destruct (Z.eqb_spec p 0) as [->|]; [done|].
  destruct (Z.eqb_spec p PROTOCOL_RDSAAD) as [->|]; [by destruct (enabled PROTOCOL_RDSAAD cl)|].
  done.
Qed.

(** The headers of an answer of eight bytes are read off. *)
Lemma confirm_there nd s :
  readable s -> rest s = connection_bytes X224_TPDU_CONNECTION_CONFIRM nd -> zlen nd = 8 ->
  tpkt_read_header s = Ret 19 (advance 4 s) /\
  tpdu_read_connection_confirm 19 (advance 4 s) = Ret 14 (advance 11 s) /\
  readable (advance 11 s) /\ rest (advance 11 s) = nd /\ rem (advance 11 s) = 8.
Proof.
  intros Hs Hr Ln.
  destruct (connection_there _ nd s Hs Hr ltac:(lia) ltac:(done) ltac:(done)) as (Et & Eh & Hs11 & Hr11).
  pose proof (zlen_rest _ Hs11) as Hl11. rewrite Hr11, Ln in Hl11. rewrite Ln in Et, Eh.
  split_and!; try done. unfold tpdu_read_connection_confirm.
  assert (Hs4 : readable (advance 4 s)) by (apply readable_advance; [done|rewrite rem_advance in Hl11; lia]).
  destruct (Hs4) as [Hw4 _]. rewrite (bind_ret_eq _ _ _ _ _ (position_eq _ Hw4)).
  rewrite (bind_ret_eq _ _ _ _ _ Eh). rewrite Z.eqb_refl. cbn [negb].
  destruct (Hs11) as [Hw11 _]. rewrite (bind_ret_eq _ _ _ _ _ (position_eq _ Hw11)).
  erewrite bind_ret_eq; [reflexivity|]. apply check_length_ok; [done|].
  replace (pointer (advance 11 s) - pointer (advance 4 s)) with 7 by (simpl; lia).
  rewrite <- Hl11. vm_compute. done.
Qed.

(** What the client makes of an answer that selects [p]. *)
Lemma recv_answer cl fl p s :
  is_byte fl -> is_u32 p -> readable s ->
  rest s = connection_bytes X224_TPDU_CONNECTION_CONFIRM (neg_data TYPE_RDP_NEG_RSP fl p) ->
  nego_recv (cl, s) = Ret tt (selected cl fl p, advance 19 s).
Proof.
  intros Hfl Hp Hs Hr. destruct (confirm_there _ s Hs Hr eq_refl) as (Et & Ec & Hs11 & Hr11 & Hl11).
  unfold nego_recv. rewrite (on_stream_bind _ _ _ _ _ _ Et), (on_stream_bind _ _ _ _ _ _ Ec).
  change (6 <? 14) with true. cbv iota. rewrite bind_assoc.
  rewrite (on_stream_bind _ _ _ _ _ _ (parses_u8 TYPE_RDP_NEG_RSP _ _ Hs11 Hr11)).
  change (TYPE_RDP_NEG_RSP =? TYPE_RDP_NEG_RSP) with true. cbv iota. rewrite bind_assoc.
  change (zlen [TYPE_RDP_NEG_RSP]) with 1.
  assert (Hs12 : readable (advance 1 (advance 11 s))) by (apply readable_advance; [done|lia]).
  assert (Hr12 : rest (advance 1 (advance 11 s)) = fl :: winpr_Data_Write_UINT16 8 ++ winpr_Data_Write_UINT32 p).
  { rewrite rest_advance, Hr11 by (auto; lia). done. }
  rewrite (bind_ret_eq _ _ _ _ _ (accepts_response cl fl p Hfl Hp _ Hs12 Hr12)).
  rewrite zlen_cons, zlen_app, zlen_Write_UINT16, zlen_Write_UINT32, !advance_advance.
  change (11 + 1 + (1 + (2 + 4))) with 19.
  erewrite (bind_ret_eq _ _ _ _ (selected cl fl p, advance 19 s)).
  2: { erewrite bind_ret_eq; [apply check_selected_eq; unfold is_u32 in Hp; lia|done]. }
  rewrite !rem_advance in *.
  assert (Hsz : readable (advance 19 s)) by (apply readable_advance; [done|lia]).
  rewrite (accepts_done 19 (selected cl fl p)); [by rewrite zlen_nil, advance_0| |done|].
  - unfold UINT16_MAX. lia.
  - apply zlen_zero_inv. rewrite zlen_rest, rem_advance by done. lia.
Qed.

Lemma answer_bytes fl p :
  is_byte fl -> is_u32 p ->
  bytes (connection_bytes X224_TPDU_CONNECTION_CONFIRM (neg_data TYPE_RDP_NEG_RSP fl p)).
Proof.
  intros Hfl Hp. destruct (emits_neg_data TYPE_RDP_NEG_RSP fl p ltac:(done) Hfl Hp) as [Hb1 _].
  destruct (emits_tpkt (11 + 8) ltac:(done)) as [Hb2 _].
  destruct (emits_tpdu (6 + 8) X224_TPDU_CONNECTION_CONFIRM ltac:(done) ltac:(done)) as [Hb3 _].
  do 2 (apply Forall_app; split; [done|]). done.
Qed.

(** An answer arrives as it was sent.  When the server selects a protocol, its packet
    leaves the client with that protocol and the server's flags; the negotiation is final if
    the protocol is enabled on the client (or is one of the two that are not checked), and
    has failed otherwise. *)
Theorem nego_response_roundtrip gfx cl sv s :
  0 <= SelectedProtocol sv < 2 ^ 31 -> wf s -> pointer s = 0 -> capacity s = 512 ->
  exists s1 s2,
    write_negotiation_response gfx sv s = Ret tt s1 /\
    nego_recv (cl, Stream_StaticInit (written s1)) =
      Ret tt (selected cl (response_flags gfx sv) (SelectedProtocol sv), s2).
Proof.
  intros Hp Hs Hp0 Hc. assert (Hp32 : is_u32 (SelectedProtocol sv)) by (unfold is_u32; lia).
  destruct (write_response_ok gfx sv s Hp32 Hs Hp0 Hc) as (s1 & E1 & W1).
  unfold answer_data in W1. rewrite not_failed in W1 by done.
  pose proof (response_flags_byte gfx sv) as Hfl.
  pose proof (answer_bytes _ _ Hfl Hp32) as Hb.
  exists s1. eexists. split; [done|]. rewrite W1. apply recv_answer; try done.
Qed.
End ServerSide.

(** ** Any request

    A server reads the request before it knows anything about the client. *)

Section AnyRequest.
Context `{Alloc}.
Implicit Types (n : rdpNego) (s : wStream).

(** A packet with two bytes of storage behind it. *)
Definition slack s : Prop := readable s /\ len s + 2 <= capacity s.

Lemma slack_advance k s : slack s -> 0 <= k <= rem s -> slack (advance k s).
Proof. intros [Hs Hc] Hk. split; [by apply readable_advance|done]. Qed.

Lemma wp_token_kind Q F s : slack s -> 15 <= rem s -> (forall v, Q v s) -> wp token_kind Q F s.
Proof.
  intros [[Hw Hp] Hc] Hr HQ. pose proof Hw as [].
  assert (Hm : forall str Q' F', zlen str <= 17 -> (forall v, Q' v s) -> wp (memcmp_eq str) Q' F' s).
  { intros str Q' F' Hl HQ'. unfold memcmp_eq. apply wp_bind. unfold wp at 1, load.
    rewrite wf_storage.
    unfold rem in Hr. destruct (Z.leb_spec 0 (pointer s)), (Z.leb_spec (pointer s + zlen str) (capacity s));
      try lia. apply HQ'. }
  unfold token_kind.
  repeat (wp_step; apply Hm; [by vm_compute|]; intros []; [by wp_step|]). by wp_step.
Qed.

(** The search ends behind a terminator or with what was there before. *)
Lemma wp_find_crlf fuel : forall crlf Q F s,
  readable s -> rem s <= Z.of_nat fuel ->
  (forall v k, 0 <= k <= rem s -> v = crlf \/ v <> 0x0A0D \/ 2 <= k -> Q v (advance k s)) ->
  wp (find_crlf fuel crlf) Q F s.
Proof.
  induction fuel as [|fuel IH]; intros crlf Q F s Hs Hf HQ; pose proof (rem_nonneg s Hs).
  all: cbn [find_crlf]; wp_step; apply wp_remaining; [done|]; destruct (Z.leb_spec 2 (rem s)).
  1: lia.
  1, 3: rewrite <- (advance_0 s); apply wp_ret; apply HQ; [lia|by left].
  wp_step. apply wp_u16; [done|lia|]. intros v Hv. destruct (Z.eqb_spec v 0x0A0D) as [E|E].
  - apply wp_ret, HQ; [lia|]. right. by right.
  - wp_step. apply wp_rewind; [done|lia|lia|]. apply IH.
    + apply readable_advance; [done|lia].
    + rewrite rem_advance. lia.
    + intros w k Hk Hw. rewrite rem_advance in Hk. rewrite advance_advance. apply HQ; [lia|].
      destruct Hw as [->|[Hw|Hw]]; right; [left|left|right]; [done|done|lia].
Qed.
(** What reading a request leaves alone. *)
Definition still n s n' s' : Prop :=
  config n' = config n /\ EnabledProtocols n' = EnabledProtocols n /\
  SelectedProtocol n' = SelectedProtocol n /\ readable s' /\ len s' = len s.

Lemma wp_read_terminated isToken n0 s0 n s k :
  readable s -> 0 <= k <= rem s ->
  still n0 s0 n s ->
  wp (read_terminated isToken (pointer s)) (fun _ y => still n0 s0 y.1 y.2)
     (fun y => still n0 s0 y.1 y.2) (n, advance k s).
Proof.
  intros Hs Hk (Hc & He & Hsel & _ & Hl). assert (Hsk : readable (advance k s)) by (by apply readable_advance).
  unfold read_terminated. wp_step. apply wp_on_stream, wp_remaining; [done|].
  wp_step. apply wp_on_stream, wp_find_crlf; [done|lia|]. intros v j Hj Hv. rewrite advance_advance, rem_advance in *.
  assert (Hback : forall n' s', config n' = config n0 -> EnabledProtocols n' = EnabledProtocols n0 ->
    SelectedProtocol n' = SelectedProtocol n0 -> readable s' -> len s' = len s0 -> pointer s <= len s' ->
    wp (attempt (on_stream (Stream_SetPosition (pointer s)));; failure) (fun (_ : unit) y => still n0 s0 y.1 y.2)
       (fun y => still n0 s0 y.1 y.2) (n', s')).
  { intros n' s' Hc' He' Hsel' Hr' Hl' Hp'. destruct (Hr') as [Hw' _]. pose proof Hw' as [].
    destruct (Hs) as [[] _]. wp_step. apply wp_attempt, wp_on_stream.
    unfold wp at 1. rewrite set_position_eq by lia. apply wp_failure.
    unfold still. split_and!; try done. split; [|done]. constructor; simpl; try done; lia. }
  wp_step. apply wp_attempt. destruct (Z.eqb_spec v 0x0A0D) as [Ev|Ev].
  2: { apply wp_failure. apply Hback; try done; [apply readable_advance; [done|lia]|destruct Hs; simpl; lia]. }
  destruct Hv as [Hv|[Hv|Hv]]; [lia|done|].
  wp_step. apply wp_on_stream, wp_rewind; [done|lia|lia|].
  assert (Hsj : readable (advance (k + j - 2) s)) by (apply readable_advance; [done|lia]).
  wp_step. apply wp_on_stream, wp_position; [done|].
  assert (Hz : bytes [0; 0]) by (by apply bytes_check).
  destruct (readable_put [0; 0] _ Hsj Hz) as (Hrp & _ & _); [rewrite rem_advance; change (zlen [0; 0]) with 2; lia|].
  set (t := put [0; 0] _) in Hrp.
  assert (Hw16 : Stream_Write_UINT16 0 (advance (k + j - 2) s) = Ret tt t).
  { destruct (Hsj) as [Hwj ?]. pose proof Hwj as []. unfold rem in *.
    apply (proj2 (writes_u16 0 ltac:(by vm_compute))); [done|]. simpl in *. change (zlen _) with 2. lia. }
  cbv zeta. wp_step. apply wp_on_stream. unfold wp at 1. rewrite Hw16. wp_step. unfold wp at 1. simpl.
  set (str := slice _ _ _). set (l := usize _).
  assert (Hlt : len t = len s0 /\ pointer s <= len t) by (subst t; destruct Hs; simpl; lia).
  destruct Hlt as [Hlt Hpt].
  destruct (UINT32_MAX <? l); [repeat wp_step; by unfold still|].
  destruct (forallb _ str); [|wp_step; by apply Hback].
  wp_step. unfold nego_set_routing_token, nego_set_cookie.
  destruct isToken; [zcase; [wp_step; by apply Hback|]|wp_step; apply wp_set_module].
  all: destruct (malloc_ok _); repeat first [by apply Hback|module_step]; by unfold still.
Qed.

Lemma wp_token_or_cookie n0 s0 n s :
  slack s -> still n0 s0 n s ->
  wp nego_read_request_token_or_cookie (fun _ y => still n0 s0 y.1 y.2)
     (fun y => still n0 s0 y.1 y.2) (n, s).
Proof.
  intros Hsl Hst. pose proof Hsl as [Hs _]. pose proof (rem_nonneg s Hs).
  unfold nego_read_request_token_or_cookie.
  wp_step. apply wp_on_stream, wp_remaining; [done|]. wp_step. apply wp_on_stream, wp_position; [done|].
  destruct (Z.ltb_spec (rem s) 15); [by wp_step|].
  wp_step. apply wp_on_stream, wp_token_kind; [done|done|]. intros [[]|].
  - rewrite <- (advance_0 s) at 2. apply wp_read_terminated; [done|lia|done].
  - zcase; [by wp_step|]. wp_step. apply wp_on_stream, wp_seek; [done|lia|].
    apply wp_read_terminated; [done|lia|done].
  - by wp_step.
Qed.

Lemma still_advance n0 s0 n s k :
  still n0 s0 n s -> 0 <= k <= rem s -> still n0 s0 n (advance k s).
Proof. intros (? & ? & ? & ? & ?) ?. split_and!; try done. by apply readable_advance. Qed.

Ltac still_tac :=
  simpl; rewrite ?advance_advance;
  first [assumption|apply still_advance; [assumption|rewrite ?rem_advance in *; lia]].

Lemma wp_process_request n0 s0 n s :
  still n0 s0 n s ->
  wp nego_process_negotiation_request (fun _ y => still n0 s0 y.1 y.2)
     (fun y => still n0 s0 y.1 y.2) (n, s).
Proof.
  intros Hst. pose proof Hst as (_ & _ & _ & Hs & _). unfold nego_process_negotiation_request.
  module_step. apply wp_on_stream, wp_check_length; [done|intros Hr|intros]; [|still_tac].
  wp_step. apply wp_on_stream, wp_u8; [done|lia|]. intros fl Hfl. do 2 module_step.
  destruct (negb _); [wp_step; still_tac|]. destruct (_ && _); [wp_step; still_tac|].
  assert (Hgo : forall n', still n0 s0 n' s -> wp
    (length ← on_stream Stream_Read_UINT16;
    if negb (length =? 8) then failure
    else
      p ← on_stream Stream_Read_UINT32;
      set_module (nego_set_requested_protocols p);;
      (if has fl CORRELATION_INFO_PRESENT then on_stream nego_process_correlation_info
       else mret tt);;
      set_module (nego_set_state NEGO_STATE_FINAL)) (fun _ y => still n0 s0 y.1 y.2)
     (fun y => still n0 s0 y.1 y.2) (n', advance 1 s)).
  { intros n' Hst'. assert (Hs1 : readable (advance 1 s)) by (apply readable_advance; [done|lia]).
    wp_step. apply wp_on_stream, wp_u16; [done|rewrite rem_advance; lia|]. intros v Hv.
    destruct (negb _); [wp_step; still_tac|]. rewrite advance_advance.
    assert (Hs3 : readable (advance (1 + 2) s)) by (apply readable_advance; [done|lia]).
    wp_step. apply wp_on_stream, wp_u32; [done|rewrite rem_advance; lia|]. intros p Hp.
    rewrite advance_advance. wp_step. apply wp_set_module.
    assert (Hst7 : still n0 s0 (nego_set_requested_protocols p n') (advance (1 + 2 + 4) s)) by still_tac.
    wp_step. destruct (has fl CORRELATION_INFO_PRESENT).
    - pose proof Hst7 as (_ & _ & _ & Hs7 & _). apply wp_on_stream. unfold nego_process_correlation_info. 
      reader_run; by still_tac.
    - repeat module_step. exact Hst7. }
  wp_step. destruct (has fl REDIRECTED_AUTHENTICATION_MODE_REQUIRED); [|wp_step; by apply Hgo].
  destruct (RemoteCredsGuardSupported _); [apply wp_set_module; by apply Hgo|].
  destruct (has fl RESTRICTED_ADMIN_MODE_REQUIRED); wp_step; [by apply Hgo|still_tac].
Qed.

(** C38: Reading a request is safe on every packet.  Whatever a client sends, and whether or
    not memory is refused, [nego_read_request] returns without a failed assertion or an
    access outside the storage, provided the storage goes on for two bytes behind the packet;
    a request that is accepted was read to its end; and nothing in it changes the settings,
    the enabled protocols or the selected protocol of the server. *)
Theorem nego_read_request_safe n s :
  readable s -> len s + 2 <= capacity s ->
  (exists n' s', nego_read_request (n, s) = Ret tt (n', s') /\ still n s n' s' /\ rem s' = 0) \/
  (exists n' s', nego_read_request (n, s) = Fail (n', s') /\ still n s n' s').
Proof.
  intros Hs Hc. assert (Hst : still n s n s) by done.
  cut (wp nego_read_request (fun _ y => still n s y.1 y.2 /\ rem y.2 = 0) (fun y => still n s y.1 y.2) (n, s)).
  { intros Hw. destruct (wp_elim _ _ _ _ Hw) as [([] & [n' s'] & E & H1 & H2)|([n' s'] & E & H1)]; eauto 10. }
  unfold nego_read_request. wp_step. apply wp_on_stream.
  eapply wp_call; [apply tpkt_read_header_safe|done| |intros; still_tac].
  intros length k Hl Hk. cbn beta. assert (Hsk : readable (advance k s)) by (by apply readable_advance).
  wp_step. apply wp_on_stream.
  eapply wp_call; [apply tpdu_read_connection_request_safe|done| |intros; rewrite rem_advance in *; still_tac].
  intros li j Hli Hj. rewrite rem_advance, advance_advance in *.
  assert (Hsj : slack (advance (k + j) s)) by (apply slack_advance; [done|lia]).
  destruct (Hsj) as [Hrj _]. wp_step. apply wp_on_stream, wp_remaining; [done|].
  destruct (negb _); [wp_step; still_tac|].
  wp_step. eapply wp_mono; [apply (wp_token_or_cookie n s); [done|still_tac]| |done].
  intros [] [n1 s1] Hst1. simpl in Hst1. pose proof Hst1 as (_ & _ & _ & Hs1 & _).
  wp_step. apply wp_on_stream, wp_remaining; [done|]. wp_step.
  assert (Hend : forall n2 s2, still n s n2 s2 -> wp (on_stream (tpkt_ensure_stream_consumed length))
    (fun _ y => still n s y.1 y.2 /\ rem y.2 = 0) (fun y => still n s y.1 y.2) (n2, s2)).
  { intros n2 s2 Hst2. pose proof Hst2 as (_ & _ & _ & Hs2 & _). by apply wp_consumed. }
  destruct (Z.leb_spec 8 (rem s1)); [|wp_step; by apply Hend].
  wp_step. apply wp_on_stream, wp_u8; [done|lia|]. intros type Htype.
  destruct (negb _); [wp_step; still_tac|].
  eapply wp_mono; [apply (wp_process_request n s); still_tac| |done]. intros [] [n2 s2]. apply Hend.
Qed.
End AnyRequest.


(** ** Concrete peers

    A server whose answers are fixed: [Some p] selects the protocol [p], [None] is a
    confirmation without negotiation data.  Every connection succeeds. *)

Definition script := list (option Z).

Definition script_packet (a : option Z) : list Z :=
  connection_bytes X224_TPDU_CONNECTION_CONFIRM
    match a with Some p => neg_data TYPE_RDP_NEG_RSP 0 (u32 p) | None => [] end.

#[local] Instance script_transport : Transport script := {|
  transport_connect _ _ _ t := (true, t);
  transport_connect_childsession t := (true, t);
  transport_disconnect t := t;
  transport_write _ t := (true, t);
  transport_read_pdu t :=
    match t with [] => (None, []) | a :: t' => (Some (script_packet a), t') end;
  transport_security _ t := (true, t)
|}.

#[local] Instance script_laws : TransportLaws script.
Proof.
  intros [|[p|] t] bs t' [= <- <-].
  - split; [|done]. apply answer_bytes; [done|]. by apply Z.mod_pos_bound.
  - split; [by apply bytes_check|done].
Qed.

#[local] Existing Instance alloc_always.

(** A client with the given protocols enabled; [neg] whether it negotiates. *)
Definition client (neg : bool) (enables : list Z) : rdpNego :=
  let n := nego_init nego_zero in
  let n := mkNego (mkConfig [] 3389 false 0 None 255 neg false false false false false false false)
    (flags n) (Some [97; 98]) None 0 (state n) false false false (SelectedProtocol n)
    (RequestedProtocols n) (EnabledProtocols n) false in
  foldr (fun p => enable p true) n enables.

Definition plain_settings : nego_settings :=
  mkNegoSettings 0 0 0 false 0 0 false false false false false false false.

Definition dial (neg : bool) (enables : list Z) (t : script) : link script :=
  mkLink (client neg enables) plain_settings t.

Definition connect : link script -> outcome (link script) bool :=
  nego_connect zero_junk (fun _ => None).

Lemma client_fits neg enables : request_fits (client neg enables).
Proof.
  set (c := [97; 98]).
  assert (E : forall l, RoutingToken (foldr (fun p => enable p true) (client neg []) l) = None /\
    cookie (foldr (fun p => enable p true) (client neg []) l) = Some c /\
    config (foldr (fun p => enable p true) (client neg []) l) = config (client neg [])).
  { intros l. induction l as [|p l IH]; [done|]. simpl. exact IH. }
  destruct (E enables) as (E1 & E2 & E3). fold (client neg enables) in *.
  change (foldr (fun p => enable p true) (client neg []) enables) with (client neg enables) in *.
  constructor.
  - by rewrite E1.
  - rewrite E2. intros ? [= <-]. by apply bytes_check.
  - by rewrite E3.
  - unfold token_bytes. rewrite E1, E2, E3. vm_compute. done.
Qed.

Lemma nego_connect_returns_witness :
  exists b x', connect (dial true [1; 2; 8] [None; Some 0; Some 1]) = Ret b x' /\
    (b = true -> TcpConnected (nego x') = true /\ SecurityConnected (nego x') = true).
Proof.
  apply (nego_connect_returns zero_junk zero_junk_len zero_junk_bytes (fun _ => None)).
  - apply client_fits.
  - by vm_compute.
Defined.

Lemma nego_connect_honours_policy_witness :
  exists x', connect (dial true [1; 2] [Some 0; Some 1]) = Ret true x' /\
    SelectedProtocol (nego x') <> PROTOCOL_RDP /\
    policy (client true [1; 2]) (SelectedProtocol (nego x')) /\
    set_SelectedProtocol (settings x') = SelectedProtocol (nego x').
Proof.
  eexists. split; [vm_compute; reflexivity|].
  apply (nego_connect_honours_policy zero_junk zero_junk_len zero_junk_bytes (fun _ => None)
    (dial true [1; 2] [Some 0; Some 1])); try (by vm_compute).
  apply client_fits.
Defined.

Lemma nego_connect_highest_witness :
  exists x', connect (dial false [0; 1; 2] []) = Ret true x' /\ SelectedProtocol (nego x') = 2.
Proof.
  eexists. split; [vm_compute; reflexivity|].
  apply (nego_connect_highest zero_junk zero_junk_len zero_junk_bytes (fun _ => None)
    (dial false [0; 1; 2] [])); try (by vm_compute).
  apply client_fits.
Defined.

Lemma nego_request_roundtrip_witness :
  exists s1 s2 sv',
    write_negotiation_request (nego_set_requested_protocols 3 (client true [1; 2])) (new_stream zero_junk 512) = Ret tt s1 /\
    nego_read_request (client true [], Stream_StaticInit (written s1)) = Ret tt (sv', s2) /\
    state sv' = NEGO_STATE_FINAL /\ RequestedProtocols sv' = 3 /\
    cookie sv' = Some (str_mstshash ++ [97; 98]) /\
    (false = true -> false = true -> RemoteCredsGuardActive sv' = true).
Proof.
  apply (@nego_request_roundtrip alloc_always alloc_always_ok
    (nego_set_requested_protocols 3 (client true [1; 2])) (client true []) (new_stream zero_junk 512)).
  - constructor; try done.
    + intros ? [= <-]. repeat split; repeat constructor; try lia; by vm_compute.
    + by left.
  - done.
  - by apply wf_new_stream; [apply zero_junk_len|apply zero_junk_bytes|].
  - done.
  - done.
Defined.

Lemma nego_response_roundtrip_witness :
  exists s1 s2,
    write_negotiation_response true (nego_set_selected_protocol 2 (client true [])) (new_stream zero_junk 512) =
      Ret tt s1 /\
    nego_recv (client true [1], Stream_StaticInit (written s1)) =
      Ret tt (selected (client true [1]) 3 2, s2).
Proof.
  apply (nego_response_roundtrip true (client true [1])
    (nego_set_selected_protocol 2 (client true [])) (new_stream zero_junk 512)).
  - done.
  - by apply wf_new_stream; [apply zero_junk_len|apply zero_junk_bytes|].
  - done.
  - done.
Defined.

Definition stray_request : list Z :=
  connection_bytes X224_TPDU_CONNECTION_REQUEST (ztake 15 str_mstshash).

Lemma nego_read_request_safe_witness :
  let s := mkStream (stray_request ++ [0; 0]) 0 26 28 1 true true in
  (exists n' s', nego_read_request (client true [], s) = Ret tt (n', s') /\
     still (client true []) s n' s' /\ rem s' = 0) \/
  (exists n' s', nego_read_request (client true [], s) = Fail (n', s') /\ still (client true []) s n' s').
Proof.
  apply nego_read_request_safe.
  - split; [constructor; try done; by apply bytes_check|done].
  - done.
Defined.

(** ** Where the negotiation does less than it promises *)

(** Without the two bytes the search for a cookie leaves the storage: seventeen bytes are
    compared when fifteen are there. *)
Lemma cookie_compared_outside :
  nego_read_request (client true [], Stream_StaticInit stray_request) = Crash Undefined.
Proof. by vm_compute. Qed.

(** A client that enables TLS only ends up with a server's choice of [PROTOCOL_RDSTLS] or
    [PROTOCOL_HYBRID_EX]: neither is compared with the enabled protocols. *)
Lemma unchecked_protocols p :
  p = PROTOCOL_RDSTLS \/ p = PROTOCOL_HYBRID_EX ->
  enabled p (client true [PROTOCOL_SSL]) = false /\
  exists x', connect (dial true [PROTOCOL_SSL] [Some p]) = Ret true x' /\ SelectedProtocol (nego x') = p.
Proof. by intros [->| ->]; (split; [done|]); eexists; (split; [vm_compute; reflexivity|]). Qed.

(** A refused answer leaves its protocol behind: the server first selects network level
    authentication, which is disabled, and then confirms the fallback without negotiation
    data.  The client, which asked for standard security, connects with the disabled
    protocol. *)
Lemma stale_protocol_used :
  enabled PROTOCOL_HYBRID (client true [PROTOCOL_RDP; PROTOCOL_SSL]) = false /\
  exists x', connect (dial true [PROTOCOL_RDP; PROTOCOL_SSL] [Some PROTOCOL_HYBRID; None]) = Ret true x' /\
    RequestedProtocols (nego x') = PROTOCOL_RDP /\ SelectedProtocol (nego x') = PROTOCOL_HYBRID.
Proof. split; [done|]. eexists. split; [vm_compute; reflexivity|]. done. Qed.

(** A cookie within the default limit of 255 characters that stops the process: the length
    of the request no longer fits the one byte of the X.224 header. *)
Lemma long_cookie_asserts :
  let n := set_cookie_field (Some (zrepeat 230 97)) (client true [PROTOCOL_SSL]) in
  CookieMaxLength (config n) = 255 /\
  write_negotiation_request (nego_set_requested_protocols PROTOCOL_SSL n) (new_stream zero_junk 512) =
    Crash AssertFailed.
Proof. split; [done|]. by vm_compute. Qed.
