(* ===== verification/RingBuffer.v ===== *)
(** * The ring buffer

    Model of [libfreerdp/utils/ringbuffer.c]: a circular byte buffer that grows when it
    fills up, shrinks back when it empties, and offers a linear window for receiving
    data in place.  The transport layer queues outgoing bytes in it.  The specification
    is the queue of bytes it holds ([contents]). *)

From S2P Require Import Prelude.

Record RingBuffer := mkRing {
  initialSize : Z;
  freeSize : Z;
  size : Z;
  readPtr : Z;
  writePtr : Z;
  data : list Z
}.

Section Operations.
Context `{Heap}.

Definition ringbuffer_init (n : Z) : option RingBuffer :=
  if heap_ok n then Some (mkRing n n n 0 0 (heap_junk n)) else None.

Definition ringbuffer_used (rb : RingBuffer) : Z := usize (size rb - freeSize rb).

Definition ringbuffer_capacity (rb : RingBuffer) : Z := size rb.

(** The block is freed and the pointer to it cleared; the counters stay. *)
Definition ringbuffer_destroy (rb : RingBuffer) : RingBuffer :=
  mkRing (initialSize rb) (freeSize rb) (size rb) (readPtr rb) (writePtr rb) [].

Definition set_heads (r w : Z) (b : list Z) (rb : RingBuffer) : RingBuffer :=
  mkRing (initialSize rb) (freeSize rb) (size rb) r w b.

Definition set_space (f n : Z) (rb : RingBuffer) : RingBuffer :=
  mkRing (initialSize rb) f n (readPtr rb) (writePtr rb) (data rb).

Definition ringbuffer_realloc (targetSize : Z) : M RingBuffer unit :=
  rb ← get;
  (if writePtr rb =? readPtr rb then
     guard (heap_ok targetSize);;
     modify (set_heads 0 0 (resize targetSize (data rb)))
   else if (readPtr rb <=? writePtr rb) && (writePtr rb <? targetSize) then
     guard (heap_ok targetSize);;
     modify (set_heads (readPtr rb) (writePtr rb) (resize targetSize (data rb)))
   else
     guard (heap_ok targetSize);;
     let newData := heap_junk targetSize in
     newData' ←
       (if readPtr rb <? writePtr rb then
          src ← copy_from (readPtr rb) (ringbuffer_used rb) (data rb);
          copy_to 0 src newData
        else
          tail ← copy_from (readPtr rb) (usize (size rb - readPtr rb)) (data rb);
          d ← copy_to 0 tail newData;
          if negb (writePtr rb =? 0) then
            front ← copy_from 0 (writePtr rb) (data rb);
            copy_to (usize (size rb - readPtr rb)) front d
          else mret d);
     modify (set_heads 0 (usize (size rb - freeSize rb)) newData'));;
  modify (fun rb' => set_space (usize (freeSize rb' + usize (targetSize - size rb')))
                               targetSize rb').

Definition ringbuffer_write (bs : list Z) : M RingBuffer unit :=
  let sz := zlen bs in
  rb0 ← get;
  (if freeSize rb0 <=? sz then ringbuffer_realloc (usize (size rb0 + sz)) else mret tt);;
  rb ← get;
  let toWrite := if usize (size rb - writePtr rb) <? sz
                 then usize (size rb - writePtr rb) else sz in
  d1 ← (if negb (toWrite =? 0) then copy_to (writePtr rb) (ztake toWrite bs) (data rb)
        else mret (data rb));
  let remaining := sz - toWrite in
  d2 ← (if negb (remaining =? 0) then copy_to 0 (zdrop toWrite bs) d1 else mret d1);
  if size rb =? 0 then crash Undefined
  else
    modify (set_heads (readPtr rb) (usize (writePtr rb + sz) mod size rb) d2);;
    modify (fun rb' => set_space (usize (freeSize rb' - sz)) (size rb') rb').

(** The offset of the window; [Fail] is the [NULL] pointer. *)
Definition ringbuffer_ensure_linear_write (sz : Z) : M RingBuffer Z :=
  rb0 ← get;
  (if freeSize rb0 <? sz then
     ringbuffer_realloc (usize (size rb0 + sz - freeSize rb0 + 32))
   else mret tt);;
  rb1 ← get;
  (if writePtr rb1 =? readPtr rb1 then modify (set_heads 0 0 (data rb1)) else mret tt);;
  rb ← get;
  if usize (writePtr rb + sz) <? size rb then mret (writePtr rb)
  else
    src ← copy_from (readPtr rb) (usize (writePtr rb - readPtr rb)) (data rb);
    d ← copy_to 0 src (data rb);
    modify (set_heads 0 (usize (size rb - freeSize rb)) d);;
    rb' ← get;
    mret (writePtr rb').

(** What the caller does with the window: it stores [bs] at its start. *)
Definition window_store (off : Z) (bs : list Z) : M RingBuffer unit :=
  rb ← get;
  d ← copy_to off bs (data rb);
  modify (set_heads (readPtr rb) (writePtr rb) d).

Definition ringbuffer_commit_written_bytes (sz : Z) : M RingBuffer unit :=
  rb ← get;
  if sz <? 1 then mret tt
  else if size rb <? usize (writePtr rb + sz) then failure
  else if size rb =? 0 then crash Undefined
  else
    modify (set_heads (readPtr rb) (usize (writePtr rb + sz) mod size rb) (data rb));;
    modify (fun rb' => set_space (usize (freeSize rb' - sz)) (size rb') rb').

(** The chunks as (offset, size) pairs; the status is their number. *)
Definition ringbuffer_peek (rb : RingBuffer) (sz : Z) : list (Z * Z) :=
  if sz <? 1 then []
  else
    let remaining := if usize (size rb - freeSize rb) <? sz
                     then usize (size rb - freeSize rb) else sz in
    let toRead := if size rb <? usize (readPtr rb + remaining)
                  then usize (size rb - readPtr rb) else remaining in
    (if negb (toRead =? 0) then [(readPtr rb, toRead)] else []) ++
    (if negb (remaining - toRead =? 0) then [(0, remaining - toRead)] else []).

Definition ringbuffer_commit_read_bytes (sz : Z) : M RingBuffer unit :=
  if sz <? 1 then mret tt
  else
    rb0 ← get;
    assert (sz <=? usize (size rb0 - freeSize rb0));;
    (if size rb0 =? 0 then crash Undefined else mret tt);;
    modify (set_heads (usize (readPtr rb0 + sz) mod size rb0) (writePtr rb0) (data rb0));;
    modify (fun rb' => set_space (usize (freeSize rb' + sz)) (size rb') rb');;
    rb ← get;
    if negb (size rb =? initialSize rb) && (ringbuffer_used rb <? initialSize rb / 2) then
      attempt (ringbuffer_realloc (initialSize rb));; mret tt
    else mret tt.
End Operations.

(** ** Invariant and abstraction *)

(** the number of bytes held *)
Definition used (rb : RingBuffer) : Z := size rb - freeSize rb.

(** The bytes held, oldest first. *)
Definition contents (rb : RingBuffer) : list Z := window (readPtr rb) (used rb) (data rb).

(** The invariant.  [freeSize] is strictly positive: a full buffer would have equal heads
    and be taken for an empty one. *)
Record rb_ok (rb : RingBuffer) : Prop := mk_rb_ok {
  ok_data : zlen (data rb) = size rb;
  ok_size : 0 < size rb < 2 ^ 61;
  ok_initial : 0 < initialSize rb < 2 ^ 61;
  ok_read : 0 <= readPtr rb < size rb;
  ok_free : 0 < freeSize rb <= size rb;
  ok_write : writePtr rb = turn (readPtr rb + used rb) (size rb)
}.

(** ** The operations implement a queue of bytes *)

Section Refinement.
Context `{Heap}.

Lemma used_usize rb : rb_ok rb -> usize (size rb - freeSize rb) = used rb.
Proof. intros []. unfold used. word_lia. Qed.

(** What a reallocation establishes. *)
Definition resized (t : Z) (rb rb' : RingBuffer) : Prop :=
  rb_ok rb' /\ contents rb' = contents rb /\ size rb' = t /\ used rb' = used rb /\
  initialSize rb' = initialSize rb.

(** A block of [t] cells that holds the bytes of [rb] in one piece, from [r] on. *)
Lemma resized_linear t r w d rb :
  rb_ok rb -> used rb < t < 2 ^ 61 -> zlen d = t -> 0 <= r -> w = r + used rb -> w < t ->
  slice r (used rb) d = contents rb ->
  resized t rb
    (mkRing (initialSize rb) (usize (freeSize rb + usize (t - size rb))) t r w d).
Proof.
  intros Hok Ht Hd Hr -> Hru Hc.
  replace (usize (_ + _)) with (t - used rb)
    by (destruct Hok; unfold used in *; word_lia).
  assert (Hu : 0 <= used rb) by (destruct Hok; unfold used; lia).
  set (rb' := mkRing _ _ _ _ _ _).
  assert (Hu' : used rb' = used rb) by (unfold used at 1; simpl; lia).
  split_and!; try done; [|unfold contents at 1; rewrite Hu', <- Hc; apply window_linear; simpl; lia].
  constructor; rewrite ?Hu'; simpl; try lia; [destruct Hok; lia|]. unfold turn. zcase; lia.
Qed.

(** The malloc branch for wrapped contents gathers the two pieces. *)
Lemma copy_wrapped t rb :
  rb_ok rb -> used rb < t < 2 ^ 61 -> size rb <= readPtr rb + used rb ->
  writePtr rb = readPtr rb + used rb - size rb -> zlen (contents rb) = used rb ->
  (tail ← copy_from (readPtr rb) (size rb - readPtr rb) (data rb);
   d ← copy_to 0 tail (heap_junk t);
   if negb (writePtr rb =? 0) then
     front ← copy_from 0 (writePtr rb) (data rb);
     copy_to (size rb - readPtr rb) front d
   else mret d) rb = Ret (blit 0 (contents rb) (heap_junk t)) rb.
Proof.
  intros [Hd Hs Hi Hr Hf _] Ht Hwrap Hw Hlen. pose proof (heap_junk_len t ltac:(lia)).
  unfold used in *.
  erewrite bind_ret_eq by (apply copy_from_ok; lia).
  erewrite bind_ret_eq by (apply copy_to_ok; rewrite ?zlen_slice; lia).
  replace (slice (readPtr rb) (size rb - readPtr rb) (data rb)) with (zdrop (readPtr rb) (data rb))
    by (rewrite <- Hd; symmetry; apply slice_to_end; lia).
  assert (Hz : zlen (zdrop (readPtr rb) (data rb)) = size rb - readPtr rb)
    by (rewrite zlen_zdrop; lia).
  destruct (Z.eqb_spec (writePtr rb) 0) as [E|E]; simpl.
  - unfold mret, M_ret. do 2 f_equal. unfold contents. rewrite window_linear by (unfold used; lia).
    rewrite <- slice_to_end by lia. f_equal. unfold used. lia.
  - erewrite bind_ret_eq by (apply copy_from_ok; lia). rewrite slice_0.
    rewrite copy_to_ok by (rewrite ?zlen_blit, ?zlen_ztake; lia). f_equal.
    rewrite <- Hz, <- (Z.add_0_l (zlen (zdrop _ _))), blit_blit by (rewrite ?zlen_ztake; lia).
    f_equal. unfold contents, window. zcase; [unfold used in *; lia|].
    do 2 f_equal. unfold used. lia.
Qed.

Lemma ringbuffer_realloc_ok t rb :
  rb_ok rb -> used rb < t < 2 ^ 61 ->
  if heap_ok t then exists rb', ringbuffer_realloc t rb = Ret tt rb' /\ resized t rb rb'
  else ringbuffer_realloc t rb = Fail rb.
Proof.
  intros Hok Ht. pose proof (used_usize rb Hok) as Hused.
  pose proof Hok as [Hd Hs Hi Hr Hf Hw]. unfold turn in Hw.
  assert (Hu : 0 <= used rb < size rb) by (unfold used; lia).
  pose proof (heap_junk_len t ltac:(lia)) as Hjunk.
  assert (Hlen : zlen (contents rb) = used rb) by (apply zlen_window; lia).
  unfold ringbuffer_realloc. rewrite get_bind.
  destruct (Z.eqb_spec (writePtr rb) (readPtr rb)) as [He|Hne].
  { assert (used rb = 0) by (destruct (_ <? _); lia).
    destruct (heap_ok t); [|done]. eexists. split; [reflexivity|].
    apply (resized_linear t 0 0 (resize t (data rb)) rb); try done; try lia.
    - rewrite resize_len; lia.
    - unfold contents. rewrite window_linear by lia. by replace (used rb) with 0 by lia. }
  destruct (Z.leb_spec (readPtr rb) (writePtr rb)) as [Hle|Hgt]; simpl.
  - assert (Hwr : writePtr rb = readPtr rb + used rb /\ readPtr rb + used rb < size rb)
      by (destruct (Z.ltb_spec (readPtr rb + used rb) (size rb)); lia).
    assert (Hc : contents rb = slice (readPtr rb) (used rb) (data rb))
      by (apply window_linear; lia).
    zcase; destruct (heap_ok t); try done.
    + eexists. split; [reflexivity|]. apply (resized_linear t _ _ _ rb); simpl; rewrite ?Hused; try done; try lia.
      * rewrite resize_len; lia.
      * rewrite Hc. apply resize_slice; lia.
    + rewrite bind_assoc, guard_bind, bind_assoc by done. zcase; [|lia].
      unfold ringbuffer_used. rewrite Hused, bind_assoc.
      erewrite bind_ret_eq by (apply copy_from_ok; lia). rewrite <- Hc.
      erewrite bind_ret_eq by (apply copy_to_ok; rewrite ?Hlen; lia).
      eexists. split; [reflexivity|].
      apply (resized_linear t _ _ _ rb); simpl; rewrite ?Hused; try done; try lia.
      * rewrite zlen_blit; rewrite ?Hlen; lia.
      * rewrite <- Hlen at 1. apply slice_blit_front. lia.
  - assert (Hwr : writePtr rb = readPtr rb + used rb - size rb /\ size rb <= readPtr rb + used rb)
      by (destruct (Z.ltb_spec (readPtr rb + used rb) (size rb)); lia).
    destruct (heap_ok t); [|done].
    rewrite bind_assoc, guard_bind, bind_assoc by done. zcase; [lia|].
    replace (usize (size rb - readPtr rb)) with (size rb - readPtr rb) by word_lia.
    erewrite bind_ret_eq by (apply copy_wrapped; tauto).
    eexists. split; [reflexivity|].
    apply (resized_linear t _ _ _ rb); simpl; rewrite ?Hused; try done; try lia.
    + rewrite zlen_blit; rewrite ?Hlen; lia.
    + rewrite <- Hlen at 1. apply slice_blit_front. lia.
Qed.

(** ** The operations on the queue of bytes *)

Lemma used_range rb : rb_ok rb -> 0 <= used rb < size rb.
Proof. intros []. unfold used. lia. Qed.

Lemma write_head_range rb : rb_ok rb -> 0 <= writePtr rb < size rb.
Proof.
  intros Hok. pose proof (used_range rb Hok). destruct Hok as [? ? ? ? ? ->]. unfold turn.
  zcase; lia.
Qed.

Lemma contents_len rb : rb_ok rb -> zlen (contents rb) = used rb.
Proof.
  intros Hok. pose proof (used_range rb Hok). destruct Hok. apply zlen_window; lia.
Qed.

(** Moving the write head over [k] bytes that are already in place. *)
Lemma advance_write_ok rb d k :
  rb_ok rb -> 0 <= k < freeSize rb -> zlen d = size rb ->
  let rb' := mkRing (initialSize rb) (freeSize rb - k) (size rb) (readPtr rb)
                    (turn (writePtr rb + k) (size rb)) d in
  rb_ok rb' /\ used rb' = used rb + k.
Proof.
  intros Hok Hk Hd rb'. pose proof (used_range rb Hok). destruct Hok as [_ Hs Hi Hr Hf Hw].
  assert (Hu : used rb' = used rb + k) by (unfold used; simpl; lia).
  split; [|done]. constructor; rewrite ?Hu; simpl; try lia.
  rewrite Hw. unfold used in *. rewrite turn_turn by lia. f_equal. lia.
Qed.

(** A write that needs no reallocation. *)
Lemma write_fits rb bs :
  rb_ok rb -> zlen bs < freeSize rb ->
  exists rb', ringbuffer_write bs rb = Ret tt rb' /\ rb_ok rb' /\
    contents rb' = contents rb ++ bs /\ size rb' = size rb /\ initialSize rb' = initialSize rb.
Proof.
  intros Hok Hn. pose proof (zlen_nonneg bs). pose proof (write_head_range rb Hok) as Hw.
  pose proof (used_range rb Hok) as Hu. pose proof Hok as [Hd Hs Hi Hr Hf Ew].
  set (t := Z.min (size rb - writePtr rb) (zlen bs)).
  set (d := blit 0 (zdrop t bs) (blit (writePtr rb) (ztake t bs) (data rb))).
  assert (Lt : zlen (ztake t bs) = t) by (apply zlen_ztake; lia).
  assert (Ld : zlen (zdrop t bs) = zlen bs - t) by (apply zlen_zdrop; lia).
  assert (Ldata : zlen (blit (writePtr rb) (ztake t bs) (data rb)) = size rb)
    by (rewrite zlen_blit; lia).
  exists (mkRing (initialSize rb) (freeSize rb - zlen bs) (size rb) (readPtr rb)
            (turn (writePtr rb + zlen bs) (size rb)) d).
  destruct (advance_write_ok rb d (zlen bs)) as [Hok' Hu']; [done|lia|subst d; rewrite zlen_blit; lia|].
  split_and!; try done; [|unfold contents at 1; rewrite Hu'; simpl; apply window_push; unfold used in *;
    lia || (rewrite ?Hd; done)].
  unfold ringbuffer_write. rewrite get_bind. zcase; [lia|]. rewrite ret_bind, get_bind.
  rewrite (usize_id (size rb - writePtr rb)) by lia.
  replace (if size rb - writePtr rb <? zlen bs then size rb - writePtr rb else zlen bs) with t
    by (subst t; zcase; lia).
  rewrite (bind_ret_eq _ _ _ (blit (writePtr rb) (ztake t bs) (data rb)) rb).
  2: { destruct (Z.eqb_spec t 0) as [->|]; simpl; [|apply copy_to_ok; lia].
       rewrite ztake_0, blit_nil by lia. done. }
  rewrite (bind_ret_eq _ _ _ d rb).
  2: { subst d. destruct (Z.eqb_spec (zlen bs - t) 0); simpl; [|apply copy_to_ok; lia].
       rewrite (zdrop_all t), blit_nil by lia. done. }
  zcase; [lia|]. unfold modify, mbind, M_bind, set_heads, set_space. simpl.
  rewrite !usize_id by lia. rewrite turn_mod by lia. done.
Qed.

(** the largest size the buffer has now, or goes back to *)
Definition room (rb : RingBuffer) : Z := Z.max (size rb) (initialSize rb).

Lemma write_ok rb bs :
  rb_ok rb -> room rb + zlen bs < 2 ^ 61 ->
  if (zlen bs <? freeSize rb) || heap_ok (size rb + zlen bs) then
    exists rb', ringbuffer_write bs rb = Ret tt rb' /\ rb_ok rb' /\
      contents rb' = contents rb ++ bs /\ room rb' <= room rb + zlen bs
  else ringbuffer_write bs rb = Fail rb.
Proof.
  intros Hok Hroom. pose proof (zlen_nonneg bs). pose proof (used_range rb Hok). unfold room in *.
  destruct (Z.ltb_spec (zlen bs) (freeSize rb)) as [Hfit|Hfull]; simpl.
  { destruct (write_fits rb bs Hok Hfit) as (rb' & E & Hok' & Hc & Hs & Hi).
    exists rb'. rewrite Hs, Hi. split_and!; try done. lia. }
  pose proof Hok as [Hd Hs Hi Hr Hf _].
  pose proof (ringbuffer_realloc_ok (size rb + zlen bs) rb Hok ltac:(unfold used; lia)) as Hre.
  destruct (heap_ok _).
  - destruct Hre as (rb1 & E1 & Hok1 & Hc1 & Hs1 & Hu1 & Hi1).
    destruct (write_fits rb1 bs Hok1) as (rb' & E & Hok' & Hc & Hs' & Hi');
      [unfold used in *; lia|].
    exists rb'. rewrite Hs', Hi', Hs1, Hi1, Hc, Hc1. split_and!; try done; [|lia].
    rewrite <- E. unfold ringbuffer_write. rewrite !get_bind. zcase; [|lia].
    rewrite usize_id by lia. rewrite (bind_ret_eq _ _ _ tt rb1) by done.
    zcase; [unfold used in *; lia|]. done.
  - unfold ringbuffer_write. rewrite get_bind. zcase; [|lia]. rewrite usize_id by lia.
    by rewrite (bind_fail_eq _ _ _ rb).
Qed.

Lemma peek_ok rb n :
  rb_ok rb -> is_usize n ->
  let chunks := ringbuffer_peek rb n in
  concat (map (fun '(off, k) => slice off k (data rb)) chunks) = ztake n (contents rb) /\
  (length chunks <= 2)%nat /\
  Forall (fun '(off, k) => 0 <= off /\ 0 < k /\ off + k <= size rb) chunks.
Proof.
  intros Hok Hn chunks. pose proof (used_range rb Hok) as Hu. pose proof (contents_len rb Hok).
  pose proof (used_usize rb Hok) as Eu. pose proof Hok as [Hd Hs Hi Hr Hf _]. subst chunks.
  unfold ringbuffer_peek. rewrite !Eu. destruct (Z.ltb_spec n 1).
  { replace n with 0 by word_lia. simpl. split_and!; [done|lia|done]. }
  set (m := if used rb <? n then used rb else n).
  assert (Hm : 0 <= m <= used rb) by (subst m; zcase; lia).
  rewrite (usize_id (readPtr rb + m)), (usize_id (size rb - readPtr rb)) by lia.
  replace (ztake n (contents rb)) with (window (readPtr rb) m (data rb)).
  2: { unfold contents. rewrite (window_front _ (used rb)) by lia. subst m. zcase; [|done].
       rewrite !ztake_all; [done|..]; rewrite zlen_window; lia. }
  unfold window. rewrite Hd. destruct (Z.ltb_spec (size rb) (readPtr rb + m)).
  - destruct (Z.leb_spec (readPtr rb + m) (size rb)); [lia|].
    rewrite (proj2 (Z.eqb_neq (size rb - readPtr rb) 0)) by lia.
    rewrite (proj2 (Z.eqb_neq (m - (size rb - readPtr rb)) 0)) by lia. simpl.
    split_and!; [|lia|repeat constructor; lia].
    rewrite app_nil_r, slice_0. f_equal; [rewrite <- Hd; apply slice_to_end; lia|f_equal; lia].
  - destruct (Z.leb_spec (readPtr rb + m) (size rb)); [|lia]. rewrite Z.sub_diag. simpl.
    destruct (Z.eqb_spec m 0) as [->|]; simpl; [split_and!; [done|lia|done]|].
    rewrite app_nil_r. split_and!; [done|lia|repeat constructor; lia].
Qed.

Lemma commit_read_ok rb n :
  rb_ok rb -> 0 <= n <= used rb ->
  exists rb', ringbuffer_commit_read_bytes n rb = Ret tt rb' /\ rb_ok rb' /\
    contents rb' = zdrop n (contents rb) /\ room rb' <= room rb.
Proof.
  intros Hok Hn. pose proof (used_range rb Hok) as Hu. pose proof (used_usize rb Hok) as Eu.
  pose proof Hok as [Hd Hs Hi Hr Hf Hw]. unfold ringbuffer_commit_read_bytes, room.
  destruct (Z.ltb_spec n 1).
  { exists rb. replace n with 0 by lia. rewrite zdrop_0. split_and!; try done; lia. }
  rewrite get_bind, Eu, assert_bind by lia. destruct (Z.eqb_spec (size rb) 0); [lia|].
  rewrite ret_bind, !modify_bind, get_bind.
  rewrite !usize_id, turn_mod by (simpl; unfold used in *; lia).
  set (rb1 := set_space _ _ _).
  assert (Hu1 : used rb1 = used rb - n) by (unfold used; simpl; lia).
  assert (Hok1 : rb_ok rb1).
  { constructor; rewrite ?Hu1; simpl; try lia; [unfold turn; zcase; lia|unfold used in *; lia|].
    rewrite Hw. unfold turn, used in *. repeat zcase; lia. }
  assert (Hc1 : contents rb1 = zdrop n (contents rb)).
  { unfold contents. rewrite Hu1. simpl. rewrite <- Hd. apply window_pop; lia. }
  zcase; [|exists rb1; rewrite <- Hc1; split_and!; try done; simpl; lia].
  pose proof (used_usize rb1 Hok1) as Eu1. unfold ringbuffer_used in *. rewrite Eu1 in *.
  pose proof (ringbuffer_realloc_ok (initialSize rb1) rb1 Hok1) as Hre.
  assert (Hhalf : used rb1 < initialSize rb1 / 2) by lia.
  specialize (Hre ltac:(simpl in *; Z.div_mod_to_equations; lia)).
  unfold attempt, mbind, M_bind. destruct (heap_ok _).
  - destruct Hre as (rb2 & -> & Hok2 & Hc2 & Hs2 & Hu2 & Hi2). exists rb2.
    rewrite Hc2, Hc1, Hs2, Hi2. split_and!; try done. simpl. lia.
  - rewrite Hre. exists rb1. rewrite <- Hc1. split_and!; try done; simpl; lia.
Qed.

(** The receive pattern: ask for a window of [n] bytes, store [bs] in it, commit them. *)
Definition receive (n : Z) (bs : list Z) : M RingBuffer unit :=
  off ← ringbuffer_ensure_linear_write n;
  window_store off bs;;
  ringbuffer_commit_written_bytes (zlen bs).

(** The window of [n] bytes lies after the contents, in one piece. *)
Definition windowed (n : Z) (rb rb' : RingBuffer) : Prop :=
  rb_ok rb' /\ contents rb' = contents rb /\ size rb' = size rb /\
  initialSize rb' = initialSize rb /\ freeSize rb' = freeSize rb /\
  writePtr rb' + n <= size rb'.

(** Resetting the heads of an empty buffer. *)
Lemma reset_heads_ok rb :
  rb_ok rb -> writePtr rb = readPtr rb ->
  rb_ok (set_heads 0 0 (data rb) rb) /\ contents (set_heads 0 0 (data rb) rb) = contents rb.
Proof.
  intros Hok E. pose proof (used_range rb Hok) as Hu. destruct Hok as [Hd Hs Hi Hr Hf Hw].
  assert (H0 : used rb = 0) by (unfold turn in Hw; destruct (_ <? _); lia).
  assert (H1 : used (set_heads 0 0 (data rb) rb) = 0) by done.
  split; [constructor; rewrite ?H1; simpl; try lia; unfold turn; zcase; lia|].
  unfold contents. rewrite H1, H0, !window_linear by (simpl; lia). done.
Qed.

(** The window without the reallocation. *)
Lemma window_granted rb n :
  rb_ok rb -> 0 < n <= freeSize rb ->
  exists rb', ringbuffer_ensure_linear_write n rb = Ret (writePtr rb') rb' /\ windowed n rb rb'.
Proof.
  intros Hok Hn. pose proof Hok as [Hd0 Hs0 _ _ Hf0 _].
  unfold ringbuffer_ensure_linear_write. rewrite get_bind. zcase; [lia|].
  rewrite ret_bind, get_bind.
  assert (Hreset : exists rb1,
    (if writePtr rb =? readPtr rb then modify (set_heads 0 0 (data rb)) else mret tt) rb = Ret tt rb1 /\
    rb_ok rb1 /\ contents rb1 = contents rb /\ size rb1 = size rb /\
    initialSize rb1 = initialSize rb /\ freeSize rb1 = freeSize rb /\
    (used rb1 = 0 -> readPtr rb1 = 0)).
  { destruct (Z.eqb_spec (writePtr rb) (readPtr rb)) as [E|E].
    - destruct (reset_heads_ok rb Hok E). eexists. split; [reflexivity|]. split_and!; done.
    - exists rb. split_and!; try done. pose proof Hok as [_ _ _ ? _ Hw]. intros U. exfalso.
      rewrite U in Hw. unfold turn in Hw. destruct (_ <? _) eqn:?; lia. }
  destruct Hreset as (rb1 & E1 & Hok1 & Hc1 & Hs1 & Hi1 & Hf1 & Hzero).
  rewrite (bind_ret_eq _ _ _ tt rb1), get_bind by done. clear E1.
  pose proof (write_head_range rb1 Hok1). pose proof (used_range rb1 Hok1).
  pose proof Hok1 as [Hd Hs Hi Hr Hf Hw].
  rewrite usize_id by lia.
  destruct (Z.ltb_spec (writePtr rb1 + n) (size rb1)).
  { exists rb1. split; [done|]. split_and!; try done. lia. }
  assert (Hlin : readPtr rb1 + used rb1 < size rb1 /\ writePtr rb1 = readPtr rb1 + used rb1).
  { unfold turn in Hw. destruct (Z.ltb_spec (readPtr rb1 + used rb1) (size rb1)); [lia|].
    unfold used in *. lia. }
  assert (Hc : contents rb1 = slice (readPtr rb1) (used rb1) (data rb1))
    by (apply window_linear; lia).
  pose proof (contents_len rb1 Hok1) as Hlen.
  replace (usize (writePtr rb1 - readPtr rb1)) with (used rb1) by (rewrite usize_id; lia).
  erewrite bind_ret_eq by (apply copy_from_ok; lia). rewrite <- Hc.
  erewrite bind_ret_eq by (apply copy_to_ok; lia).
  rewrite modify_bind, get_bind, used_usize by done.
  eexists. split; [reflexivity|].
  assert (Hu2 : used (set_heads 0 (used rb1) (blit 0 (contents rb1) (data rb1)) rb1) = used rb1)
    by done.
  split_and!; try done; [constructor; rewrite ?Hu2; simpl; try lia| |simpl; unfold used; lia].
  - rewrite zlen_blit; lia.
  - unfold turn. zcase; lia.
  - rewrite <- Hc1. unfold contents at 1. rewrite Hu2. simpl.
    rewrite window_linear by (rewrite zlen_blit; lia). rewrite <- Hlen. apply slice_blit_front. lia.
Qed.

Lemma window_ok rb n :
  rb_ok rb -> 0 < n -> room rb + n + 32 < 2 ^ 61 ->
  if (n <=? freeSize rb) || heap_ok (size rb + n - freeSize rb + 32) then
    exists rb', ringbuffer_ensure_linear_write n rb = Ret (writePtr rb') rb' /\
      rb_ok rb' /\ contents rb' = contents rb /\ n <= freeSize rb' /\
      (freeSize rb' = freeSize rb \/ n < freeSize rb') /\
      writePtr rb' + n <= size rb' /\ room rb' <= room rb + n + 32
  else ringbuffer_ensure_linear_write n rb = Fail rb.
Proof.
  intros Hok Hn Hroom. pose proof (used_range rb Hok). unfold room in *.
  destruct (Z.leb_spec n (freeSize rb)); simpl.
  { destruct (window_granted rb n) as (rb' & E & Hok' & Hc & Hs & Hi & Hf & Hw); [done|lia|].
    exists rb'. split_and!; try done; lia. }
  pose proof Hok as [Hd Hs Hi Hr Hf _].
  pose proof (ringbuffer_realloc_ok (size rb + n - freeSize rb + 32) rb Hok
                ltac:(unfold used; lia)) as Hre.
  destruct (heap_ok _).
  - destruct Hre as (rb1 & E1 & Hok1 & Hc1 & Hs1 & Hu1 & Hi1).
    assert (Hf1 : n < freeSize rb1) by (unfold used in *; lia).
    destruct (window_granted rb1 n) as (rb' & E & Hok' & Hc & Hs' & Hi' & Hf' & Hw); [done|lia|].
    exists rb'. split_and!; try done; try lia; [|by rewrite Hc].
    rewrite <- E. unfold ringbuffer_ensure_linear_write. rewrite !get_bind. zcase; [|lia].
    rewrite usize_id by lia. rewrite (bind_ret_eq _ _ _ tt rb1) by done.
    zcase; [lia|]. done.
  - unfold ringbuffer_ensure_linear_write. rewrite get_bind. zcase; [|lia].
    rewrite usize_id by lia. by rewrite (bind_fail_eq _ _ _ rb).
Qed.

Lemma receive_ok rb n bs :
  rb_ok rb -> 0 < n -> zlen bs <= n -> zlen bs < n \/ freeSize rb <> n -> room rb + n + 32 < 2 ^ 61 ->
  if (n <=? freeSize rb) || heap_ok (size rb + n - freeSize rb + 32) then
    exists rb', receive n bs rb = Ret tt rb' /\ rb_ok rb' /\
      contents rb' = contents rb ++ bs /\ room rb' <= room rb + n + 32
  else receive n bs rb = Fail rb.
Proof.
  intros Hok Hn Hle Hfull Hroom. pose proof (zlen_nonneg bs) as Hb.
  pose proof (window_ok rb n Hok Hn Hroom) as Hwin. unfold receive.
  destruct (_ || _); [|by rewrite (bind_fail_eq _ _ _ rb)].
  destruct Hwin as (rb1 & E & Hok1 & Hc1 & Hf1 & Hleft & Hw1 & Hroom1).
  assert (zlen bs < freeSize rb1) by (destruct Hleft; lia).
  rewrite (bind_ret_eq _ _ _ _ _ E). pose proof (write_head_range rb1 Hok1).
  pose proof (used_range rb1 Hok1). pose proof Hok1 as [Hd Hs Hi Hr Hf Hw].
  unfold window_store. rewrite bind_assoc, get_bind, bind_assoc.
  rewrite (bind_ret_eq _ _ _ _ _ (copy_to_ok (writePtr rb1) bs (data rb1) rb1 ltac:(lia) ltac:(lia))).
  rewrite modify_bind. set (d := blit (writePtr rb1) bs (data rb1)).
  assert (Hlen : zlen d = size rb1) by (subst d; rewrite zlen_blit; lia).
  destruct (advance_write_ok rb1 d (zlen bs) Hok1 ltac:(lia) Hlen) as [Hok' Hu'].
  set (rb' := mkRing _ _ _ _ _ _) in Hok', Hu'. exists rb'.
  assert (Hd0 : d = blit 0 (zdrop (zlen bs) bs) (blit (writePtr rb1) (ztake (zlen bs) bs) (data rb1))).
  { rewrite (zdrop_all (zlen bs)), (ztake_all (zlen bs)), blit_nil; rewrite ?zlen_blit; done || lia. }
  split_and!; [|done| |done].
  - unfold ringbuffer_commit_written_bytes. rewrite get_bind. simpl. subst rb'.
    destruct (Z.ltb_spec (zlen bs) 1).
    + replace (zlen bs) with 0 by lia. rewrite Z.add_0_r, Z.sub_0_r. unfold turn, set_heads.
      zcase; [done|lia].
    + rewrite !usize_id by lia. zcase; [lia|]. zcase; [lia|].
      unfold modify, mbind, M_bind, set_heads, set_space. simpl.
      rewrite !usize_id by lia. rewrite turn_mod by lia. done.
  - rewrite <- Hc1. unfold contents at 1. rewrite Hu'. subst rb'. simpl. rewrite Hd0.
    apply window_push; rewrite ?Hd; try done; unfold used in *; lia.
Qed.

Lemma init_ok n rb :
  0 < n < 2 ^ 61 -> ringbuffer_init n = Some rb -> rb_ok rb /\ contents rb = [] /\ room rb = n.
Proof.
  intros Hn. unfold ringbuffer_init. destruct (heap_ok n); [|done]. intros [= <-].
  assert (Hu : used (mkRing n n n 0 0 (heap_junk n)) = 0) by (unfold used; simpl; lia).
  split_and!.
  - constructor; rewrite ?Hu; simpl; try lia; [apply heap_junk_len; lia|unfold turn; zcase; lia].
  - unfold contents. rewrite Hu. simpl. apply window_linear. rewrite heap_junk_len; lia.
  - unfold room. simpl. lia.
Qed.

(** *** Sequences of operations *)

Inductive request :=
| Write (bs : list Z)
| Receive (n : Z) (bs : list Z)
| Read (n : Z).

Inductive reply :=
| Accepted
| Refused
| Bytes (bs : list Z).

Definition answer (r : option unit) : reply :=
  match r with Some _ => Accepted | None => Refused end.

(** The bytes of the chunks of a peek. *)
Definition gather (rb : RingBuffer) (chunks : list (Z * Z)) : list Z :=
  concat (map (fun '(off, k) => slice off k (data rb)) chunks).

(** A reader peeks, copies the chunks and commits what it copied. *)
Definition ring_step (o : request) : M RingBuffer reply :=
  match o with
  | Write bs => r ← attempt (ringbuffer_write bs); mret (answer r)
  | Receive n bs => r ← attempt (receive n bs); mret (answer r)
  | Read n =>
      rb ← get;
      let bs := gather rb (ringbuffer_peek rb n) in
      ringbuffer_commit_read_bytes (zlen bs);; mret (Bytes bs)
  end.

Fixpoint ring_run (os : list request) : M RingBuffer (list reply) :=
  match os with
  | [] => mret []
  | o :: os' => a ← ring_step o; l ← ring_run os'; mret (a :: l)
  end.

(** The specification: a queue of bytes, of which the front can be taken. *)
Inductive queue_run : list Z -> list request -> list reply -> list Z -> Prop :=
| queue_done q : queue_run q [] [] q
| queue_write q bs os l q' :
    queue_run (q ++ bs) os l q' -> queue_run q (Write bs :: os) (Accepted :: l) q'
| queue_receive q n bs os l q' :
    queue_run (q ++ bs) os l q' -> queue_run q (Receive n bs :: os) (Accepted :: l) q'
| queue_write_refused q bs os l q' :
    queue_run q os l q' -> queue_run q (Write bs :: os) (Refused :: l) q'
| queue_receive_refused q n bs os l q' :
    queue_run q os l q' -> queue_run q (Receive n bs :: os) (Refused :: l) q'
| queue_read q n os l q' :
    queue_run (zdrop n q) os l q' -> queue_run q (Read n :: os) (Bytes (ztake n q) :: l) q'.

(** A receiver stores no more bytes than the window it asked for has, and does not fill a window
    that is all the free space there is. *)
Definition proper (rb : RingBuffer) (o : request) : Prop :=
  match o with
  | Write bs => True
  | Receive n bs => 0 < n /\ zlen bs <= n /\ (zlen bs < n \/ freeSize rb <> n)
  | Read n => is_usize n
  end.

(** Every request of a sequence, where it arrives. *)
Fixpoint properly (os : list request) (rb : RingBuffer) : Prop :=
  match os with
  | [] => True
  | o :: os' => proper rb o /\ forall a rb', ring_step o rb = Ret a rb' -> properly os' rb'
  end.

(** how much a request can make the block grow *)
Definition cost (o : request) : Z :=
  match o with
  | Write bs => zlen bs
  | Receive n bs => Z.max n 0 + 32
  | Read n => 0
  end.

Fixpoint costs (os : list request) : Z :=
  match os with [] => 0 | o :: os' => cost o + costs os' end.

Lemma costs_nonneg os : 0 <= costs os.
Proof.
  induction os as [|o os IH]; simpl; [lia|]. destruct o as [bs|n bs|n]; simpl in *;
    try pose proof (zlen_nonneg bs); lia.
Qed.

(** One request: its reply, the state of the queue after it, and that only the heap
    refuses one. *)
Lemma ring_step_ok o rb :
  rb_ok rb -> proper rb o -> room rb + cost o < 2 ^ 61 ->
  exists a rb', ring_step o rb = Ret a rb' /\ rb_ok rb' /\ room rb' <= room rb + cost o /\
    ((forall n, heap_ok n = true) -> a <> Refused) /\
    forall os l q', queue_run (contents rb') os l q' -> queue_run (contents rb) (o :: os) (a :: l) q'.
Proof.
  intros Hok Ho Hroom. destruct o as [bs|n bs|n]; simpl in *.
  - pose proof (zlen_nonneg bs). pose proof (write_ok rb bs Hok Hroom) as Hw. unfold attempt, mbind, M_bind.
    destruct (_ || _) eqn:Hb.
    + destruct Hw as (rb' & -> & Hok' & Hc & Hr). exists Accepted, rb'. rewrite Hc.
      split_and!; try done. by constructor.
    + rewrite Hw. exists Refused, rb. split_and!; try done; [lia| |by constructor].
      intros Hh. rewrite Hh, orb_true_r in Hb. done.
  - destruct Ho as (Hn & Hle & Hfull). pose proof (receive_ok rb n bs Hok Hn Hle Hfull ltac:(lia)) as Hw. unfold attempt, mbind, M_bind.
    destruct (_ || _) eqn:Hb.
    + destruct Hw as (rb' & -> & Hok' & Hc & Hr). exists Accepted, rb'. rewrite Hc.
      split_and!; try done; [lia|by constructor].
    + rewrite Hw. exists Refused, rb. split_and!; try done; [lia| |by constructor].
      intros Hh. rewrite Hh, orb_true_r in Hb. done.
  - destruct (peek_ok rb n Hok Ho) as (Hp & _ & _). unfold gather. rewrite get_bind, Hp.
    pose proof (contents_len rb Hok) as Hlen. pose proof (used_range rb Hok).
    assert (Hl : zlen (ztake n (contents rb)) = Z.min n (used rb)).
    { unfold zlen, ztake in *. rewrite length_take. word_lia. }
    destruct (commit_read_ok rb (zlen (ztake n (contents rb))) Hok) as (rb' & E & Hok' & Hc & Hr);
      [word_lia|].
    rewrite (bind_ret_eq _ _ _ _ _ E). eexists _, rb'. split; [reflexivity|].
    split_and!; try done; [lia|]. intros os l q'. rewrite Hc, Hl.
    replace (zdrop (Z.min n (used rb)) (contents rb)) with (zdrop n (contents rb));
      [by constructor|].
    destruct (Z.le_ge_cases n (used rb)); [by rewrite Z.min_l by lia|].
    rewrite Z.min_r by lia. rewrite !zdrop_all by lia. done.
Qed.

(** C10: The ring buffer is a queue of bytes.  For every sequence of writes, of reads (peek, copy,
    commit) and of receptions (ask for a linear window, store bytes in it, commit them), however the
    contents wrap around the block or move when it is reallocated, the replies are those of the
    queue: what is written or received is appended, reads take the oldest bytes, and only the heap
    makes a request refused.  Two conditions: a reception commits no more than the window it asked
    for, and it does not fill a window that is exactly all the free space, after which the code
    takes the full buffer for an empty one (ringbuffer_full_window_loses_data).  The sizes asked for
    stay below 2^61 in all. *)
Theorem ringbuffer_refines_queue rb os :
  rb_ok rb -> properly os rb -> room rb + costs os < 2 ^ 61 ->
  exists l rb', ring_run os rb = Ret l rb' /\ rb_ok rb' /\
    queue_run (contents rb) os l (contents rb') /\
    ((forall n, heap_ok n = true) -> Refused ∉ l).
Proof.
  revert rb. induction os as [|o os IH]; intros rb Hok Hos Hroom; simpl in *.
  { exists [], rb. split_and!; try done; [constructor|]. intros _ Hin. inversion Hin. }
  pose proof (costs_nonneg os). destruct Hos as [Ho Hos].
  destruct (ring_step_ok o rb Hok Ho ltac:(lia)) as (a & rb1 & E1 & Hok1 & Hr1 & Hh1 & Hq1).
  destruct (IH rb1 Hok1 (Hos a rb1 E1) ltac:(lia)) as (l & rb2 & E2 & Hok2 & Hq2 & Hh2).
  exists (a :: l), rb2. rewrite (bind_ret_eq _ _ _ _ _ E1), (bind_ret_eq _ _ _ _ _ E2).
  split_and!; try done; [by apply Hq1|]. intros Hh.
  apply not_elem_of_cons. split; [intros <-; by apply Hh1|auto].
Qed.
End Refinement.

#[local] Existing Instance heap_always.

Definition ring8 : RingBuffer := mkRing 8 8 8 0 0 (zrepeat 8 0).

Lemma ring8_ok : rb_ok ring8 /\ contents ring8 = [] /\ room ring8 = 8.
Proof. apply (init_ok 8); done. Qed.

(** Writes of six and four bytes around a read of five, a window that is filled, then a read of
    everything. *)
Definition requests8 : list request :=
  [Write [1; 2; 3; 4; 5; 6]; Read 5; Write [7; 8; 9; 10]; Receive 2 [11; 12]; Read 9].

Lemma ringbuffer_refines_queue_witness :
  exists l rb', ring_run requests8 ring8 = Ret l rb' /\ rb_ok rb' /\
    queue_run [] requests8 l (contents rb') /\ l = [Accepted; Bytes [1; 2; 3; 4; 5]; Accepted; Accepted;
      Bytes [6; 7; 8; 9; 10; 11; 12]].
Proof.
  destruct ring8_ok as (Hok & Hc & Hr).
  destruct (ringbuffer_refines_queue ring8 requests8) as (l & rb' & E & Hok' & Hq & _).
  - done.
  - repeat (split; [first [exact I | split_and!; [done|done|by right] | unfold proper; word_lia]|];
      intros a0 rb0 E0; vm_compute in E0; injection E0 as <- <-). exact I.
  - by vm_compute.
  - exists l, rb'. rewrite Hc in Hq. split_and!; [exact E|exact Hok'|exact Hq|].
    vm_compute in E. by injection E as <- _.
Defined.

(** The linear window can fill the buffer completely, and then its bytes are lost: the
    heads are equal as in an empty buffer.  On a fresh buffer of eight bytes, a window of
    eight is granted and filled, eight bytes are held; the next write reallocates as if
    the buffer were empty and overwrites the first byte. *)
Theorem ringbuffer_full_window_loses_data :
  exists rb1 rb2,
    ring_run [Receive 8 [1; 2; 3; 4; 5; 6; 7; 8]] ring8 = Ret [Accepted] rb1 /\
    contents rb1 = [1; 2; 3; 4; 5; 6; 7; 8] /\ freeSize rb1 = 0 /\
    ring_run [Write [9]] rb1 = Ret [Accepted] rb2 /\
    contents rb2 = [9; 2; 3; 4; 5; 6; 7; 8; 0].
Proof.
  exists (mkRing 8 0 8 0 0 [1; 2; 3; 4; 5; 6; 7; 8]), (mkRing 8 0 9 0 1 [9; 2; 3; 4; 5; 6; 7; 8; 0]).
  split_and!; vm_compute; reflexivity.
Qed.
