(* ===== verification/BitStream.v ===== *)
(** * Bit streams

    Model of [winpr/include/winpr/bitstream.h] and of the attaching code in
    [winpr/libwinpr/utils/collections/BitStream.c]: the bulk compressors read and write
    codes of a few bits through a 32-bit accumulator.  Reading is specified by the bits
    of the bytes attached, most significant first and followed by zeros; writing by the
    list of bits written so far. *)

From S2P Require Import Prelude.

(** ** The code *)

Record wBitStream := mkBits {
  buffer : list Z;
  pointer : Z;
  position : Z;
  bit_length : Z;
  capacity : Z;
  mask : Z;
  offset : Z;
  prefetch : Z;
  accumulator : Z
}.

Definition byte_at (b : list Z) (i : Z) : Z := default 0 (b !! Z.to_nat i).

Definition with_prefetch (v : Z) (bs : wBitStream) : wBitStream :=
  mkBits (buffer bs) (pointer bs) (position bs) (bit_length bs) (capacity bs) (mask bs)
    (offset bs) v (accumulator bs).
Definition with_accumulator (v : Z) (bs : wBitStream) : wBitStream :=
  mkBits (buffer bs) (pointer bs) (position bs) (bit_length bs) (capacity bs) (mask bs)
    (offset bs) (prefetch bs) v.
Definition with_buffer (b : list Z) (bs : wBitStream) : wBitStream :=
  mkBits b (pointer bs) (position bs) (bit_length bs) (capacity bs) (mask bs)
    (offset bs) (prefetch bs) (accumulator bs).
Definition with_pointer (v : Z) (bs : wBitStream) : wBitStream :=
  mkBits (buffer bs) v (position bs) (bit_length bs) (capacity bs) (mask bs)
    (offset bs) (prefetch bs) (accumulator bs).
Definition with_mask (v : Z) (bs : wBitStream) : wBitStream :=
  mkBits (buffer bs) (pointer bs) (position bs) (bit_length bs) (capacity bs) v
    (offset bs) (prefetch bs) (accumulator bs).
Definition with_offsets (p o : Z) (bs : wBitStream) : wBitStream :=
  mkBits (buffer bs) (pointer bs) p (bit_length bs) (capacity bs) (mask bs)
    o (prefetch bs) (accumulator bs).

(** [if ((diff + k) < capacity) word |= ((UINT32)pointer[k] << s);] *)
Definition or_byte (bs : wBitStream) (k s : Z) (word : Z) : Z :=
  if pointer bs + k <? capacity bs
  then Z.lor word (u32 (Z.shiftl (byte_at (buffer bs) (pointer bs + k)) s))
  else word.

Definition BitStream_Prefetch (bs : wBitStream) : wBitStream :=
  with_prefetch (or_byte bs 7 0 (or_byte bs 6 8 (or_byte bs 5 16 (or_byte bs 4 24 0)))) bs.

Definition BitStream_Fetch (bs : wBitStream) : wBitStream :=
  BitStream_Prefetch
    (with_accumulator (or_byte bs 3 0 (or_byte bs 2 8 (or_byte bs 1 16 (or_byte bs 0 24 0)))) bs).

(** [if ((diff + k) < capacity) pointer[k] = (accumulator >> s) & 0xFF;] *)
Definition put_byte (k s : Z) (bs : wBitStream) : wBitStream :=
  if pointer bs + k <? capacity bs
  then with_buffer (<[Z.to_nat (pointer bs + k) :=
                      Z.land (Z.shiftr (accumulator bs) s) 0xFF]> (buffer bs)) bs
  else bs.

Definition BitStream_Flush (bs : wBitStream) : wBitStream :=
  put_byte 3 0 (put_byte 2 8 (put_byte 1 16 (put_byte 0 24 bs))).

(** The tail of a shift: [n] bits move from the prefetched word to the accumulator. *)
Definition pull_bits (n : Z) (bs : wBitStream) : wBitStream :=
  let m := u32 (Z.shiftl 1 n - 1) in
  with_prefetch (u32 (Z.shiftl (prefetch bs) n))
    (with_accumulator (Z.lor (accumulator bs) (Z.land (Z.shiftr (prefetch bs) (32 - n)) m))
       (with_mask m bs)).

Definition BitStream_Shift (n : Z) (bs : wBitStream) : wBitStream :=
  if n =? 0 then bs
  else if (0 <? n) && (n <? 32) then
    let bs1 := with_accumulator (u32 (Z.shiftl (accumulator bs) n)) bs in
    let bs2 := with_offsets (u32 (position bs1 + n)) (u32 (offset bs1 + n)) bs1 in
    if offset bs2 <? 32 then pull_bits n bs2
    else
      let bs3 := pull_bits n bs2 in
      let bs4 := with_offsets (position bs3) (u32 (offset bs3 - 32)) bs3 in
      let bs5 := BitStream_Prefetch (with_pointer (pointer bs4 + 4) bs4) in
      if negb (offset bs5 =? 0) then pull_bits (offset bs5) bs5 else bs5
  else bs.

Definition BitStream_Shift32 (bs : wBitStream) : wBitStream :=
  BitStream_Shift 16 (BitStream_Shift 16 bs).

Definition BitStream_Write_Bits (v n : Z) (bs : wBitStream) : wBitStream :=
  let bs1 := with_offsets (u32 (position bs + n)) (u32 (offset bs + n)) bs in
  if offset bs1 <? 32 then
    with_accumulator (Z.lor (accumulator bs1) (u32 (Z.shiftl v (32 - offset bs1)))) bs1
  else
    let bs2 := with_offsets (position bs1) (u32 (offset bs1 - 32)) bs1 in
    let bs3 := with_mask (u32 (Z.shiftl 1 (n - offset bs2) - 1)) bs2 in
    let bs4 := with_accumulator
                 (Z.lor (accumulator bs3) (Z.land (Z.shiftr v (offset bs3)) (mask bs3))) bs3 in
    let bs5 := with_pointer (pointer bs4 + 4) (with_accumulator 0 (BitStream_Flush bs4)) in
    if negb (offset bs5 =? 0) then
      let bs6 := with_mask (u32 (Z.shiftl 1 (offset bs5) - 1)) bs5 in
      with_accumulator
        (Z.lor (accumulator bs6) (u32 (Z.shiftl (Z.land v (mask bs6)) (32 - offset bs6)))) bs6
    else bs5.

Definition BitStream_GetRemainingLength (bs : wBitStream) : Z :=
  u32 (bit_length bs - position bs).

(** [mask] and [prefetch] keep what an earlier use left there. *)
Definition BitStream_Attach (b : list Z) (cap : Z) (bs : wBitStream) : wBitStream :=
  mkBits b 0 0 (u32 (cap * 8)) cap (mask bs) 0 (prefetch bs) 0.

Definition BitStream_New : wBitStream := mkBits [] 0 0 0 0 0 0 0 0.

(** the loop of [ReverseBits32]; a count of zero wraps around and runs [2^32] times *)
Fixpoint ReverseBits32_loop (n : nat) (bits rbits : Z) : Z :=
  match n with
  | O => rbits
  | S n' => ReverseBits32_loop n' (Z.shiftr bits 1) (u32 (Z.shiftl (Z.lor rbits (Z.land bits 1)) 1))
  end.

Definition ReverseBits32 (bits nbits : Z) : Z :=
  let runs := if nbits =? 0 then 2 ^ 32 else nbits in
  Z.shiftr (ReverseBits32_loop (Z.to_nat runs) bits 0) 1.

(** ** Sequences of bits *)

(** The value of the [n] bits of [f] from index [p] on, most significant first. *)
Fixpoint bvn (f : Z -> bool) (p : Z) (n : nat) : Z :=
  match n with
  | O => 0
  | S n' => 2 * bvn f p n' + Z.b2z (f (p + Z.of_nat n'))
  end.

Definition bv (f : Z -> bool) (p n : Z) : Z := bvn f p (Z.to_nat n).

(** The bits of a block of bytes, followed by zeros. *)
Definition bit_of (b : list Z) (i : Z) : bool := Z.testbit (byte_at b (i / 8)) (7 - i mod 8).

Lemma bvn_app f p n m :
  bvn f p (n + m) = bvn f p n * 2 ^ Z.of_nat m + bvn f (p + Z.of_nat n) m.
Proof.
  induction m as [|m IH]; [rewrite Nat.add_0_r; simpl; lia|].
  rewrite Nat.add_succ_r. simpl bvn. rewrite IH.
  replace (p + Z.of_nat n + Z.of_nat m) with (p + Z.of_nat (n + m)) by lia.
  rewrite Nat2Z.inj_succ, Z.pow_succ_r by lia. lia.
Qed.

Lemma bv_app f p n m :
  0 <= n -> 0 <= m -> bv f p (n + m) = bv f p n * 2 ^ m + bv f (p + n) m.
Proof.
  intros. unfold bv. rewrite Z2Nat.inj_add, bvn_app by lia. by rewrite !Z2Nat.id by lia.
Qed.

Lemma bv_split f p n k :
  0 <= k <= n -> bv f p n = bv f p k * 2 ^ (n - k) + bv f (p + k) (n - k).
Proof. intros. rewrite <- bv_app by lia. f_equal. lia. Qed.

Lemma bvn_range f p n : 0 <= bvn f p n < 2 ^ Z.of_nat n.
Proof.
  induction n as [|n IH]; [simpl; lia|]. simpl bvn. rewrite Nat2Z.inj_succ, Z.pow_succ_r by lia.
  destruct (f _); simpl; lia.
Qed.

Lemma bv_range f p n : 0 <= n -> 0 <= bv f p n < 2 ^ n.
Proof. intros. pose proof (bvn_range f p (Z.to_nat n)). rewrite Z2Nat.id in * by lia. done. Qed.

Lemma bvn_ext f g p n :
  (forall i, p <= i < p + Z.of_nat n -> f i = g i) -> bvn f p n = bvn g p n.
Proof.
  induction n as [|n IH]; intros Hfg; [done|]. simpl. rewrite IH by (intros; apply Hfg; lia).
  by rewrite Hfg by lia.
Qed.

Lemma bv_ext f g p n :
  0 <= n -> (forall i, p <= i < p + n -> f i = g i) -> bv f p n = bv g p n.
Proof. intros. apply bvn_ext. intros. apply H0. lia. Qed.

Lemma bvn_false f p n : (forall i, p <= i < p + Z.of_nat n -> f i = false) -> bvn f p n = 0.
Proof.
  induction n as [|n IH]; intros Hf; [done|]. simpl. rewrite IH by (intros; apply Hf; lia).
  by rewrite Hf by lia.
Qed.

Lemma bv_false f p n : 0 <= n -> (forall i, p <= i < p + n -> f i = false) -> bv f p n = 0.
Proof. intros ? Hf. apply bvn_false. intros. apply Hf. lia. Qed.

Lemma bvn_testbit f p n i :
  0 <= i < Z.of_nat n -> Z.testbit (bvn f p n) i = f (p + Z.of_nat n - 1 - i).
Proof.
  revert i. induction n as [|n IH]; intros i Hi; [lia|]. simpl bvn.
  rewrite Z.add_comm. destruct (Z.eq_dec i 0) as [->|].
  - rewrite Z.add_b2z_double_bit0. f_equal. lia.
  - replace i with (Z.succ (i - 1)) at 1 by lia.
    rewrite <- Z.div2_bits, Z.add_b2z_double_div2, IH by lia. f_equal. lia.
Qed.

Lemma bv_testbit f p n i : 0 <= i < n -> Z.testbit (bv f p n) i = f (p + n - 1 - i).
Proof. intros. unfold bv. rewrite bvn_testbit by lia. f_equal. lia. Qed.

Lemma bv_byte b k :
  0 <= k -> is_byte (byte_at b k) -> bv (bit_of b) (8 * k) 8 = byte_at b k.
Proof.
  intros Hk Hb. unfold bv. change (Z.to_nat 8) with 8%nat. unfold bvn, bit_of. simpl Z.of_nat.
  rewrite !(Z.mul_comm 8 k), !Z.div_add_l, !(Z.add_comm (k * 8)), !Z_mod_plus_full by lia.
  rewrite !Z.div_small, !Z.add_0_r by lia.
  generalize (byte_at b k), Hb. clear. intros x Hx. apply Z.eqb_eq. revert x Hx.
  apply (zrange_forall 256). by vm_compute.
Qed.

Lemma byte_at_beyond b k : zlen b <= k -> byte_at b k = 0.
Proof.
  intros. unfold byte_at, zlen in *. rewrite lookup_ge_None_2 by lia. done.
Qed.

Lemma byte_at_range b k : bytes b -> is_byte (byte_at b k).
Proof.
  intros Hb. unfold byte_at.
  destruct (b !! Z.to_nat k) eqn:E; simpl; [|word_lia].
  by apply (Forall_lookup_1 _ _ _ _ Hb E).
Qed.

Lemma bit_of_beyond b i : 0 <= i -> 8 * zlen b <= i -> bit_of b i = false.
Proof.
  intros. unfold bit_of. rewrite byte_at_beyond; [apply Z.bits_0|].
  apply Z.div_le_lower_bound; lia.
Qed.

(** ** Reading *)

(** The four bytes from index [k] on, as the code assembles them. *)
Lemma lor_bytes a b c d :
  is_byte a -> is_byte b -> is_byte c -> is_byte d ->
  Z.lor (Z.lor (Z.lor (Z.lor 0 (u32 (Z.shiftl a 24))) (u32 (Z.shiftl b 16)))
           (u32 (Z.shiftl c 8))) (u32 (Z.shiftl d 0)) =
  a * 2 ^ 24 + b * 2 ^ 16 + c * 2 ^ 8 + d.
Proof.
  intros. unfold is_byte in *. rewrite Z.lor_0_l, !Z.shiftl_mul_pow2 by lia.
  replace (u32 (a * 2 ^ 24)) with (a * 2 ^ 24) by word_lia.
  replace (u32 (b * 2 ^ 16)) with (b * 2 ^ 16) by word_lia.
  replace (u32 (c * 2 ^ 8)) with (c * 2 ^ 8) by word_lia.
  replace (u32 (d * 2 ^ 0)) with d by word_lia.
  rewrite lor_shift_add by lia.
  replace (a * 2 ^ 24 + b * 2 ^ 16) with ((a * 2 ^ 8 + b) * 2 ^ 16) by lia.
  rewrite lor_shift_add by lia.
  replace ((a * 2 ^ 8 + b) * 2 ^ 16 + c * 2 ^ 8) with (((a * 2 ^ 8 + b) * 2 ^ 8 + c) * 2 ^ 8) by lia.
  rewrite lor_shift_add by lia. lia.
Qed.

(** [or_byte] with the capacity test replaced by the zeros that follow the data *)
Lemma or_byte_zeros bs k s w :
  capacity bs = zlen (buffer bs) ->
  or_byte bs k s w = Z.lor w (u32 (Z.shiftl (byte_at (buffer bs) (pointer bs + k)) s)).
Proof.
  intros Hc. unfold or_byte. zcase; [done|]. rewrite byte_at_beyond by lia.
  rewrite Z.shiftl_0_l. unfold u32. rewrite Z.mod_0_l by lia. by rewrite Z.lor_0_r.
Qed.

Lemma bv_word b k :
  bytes b -> 0 <= k ->
  bv (bit_of b) (8 * k) 32 =
  byte_at b k * 2 ^ 24 + byte_at b (k + 1) * 2 ^ 16 + byte_at b (k + 2) * 2 ^ 8 + byte_at b (k + 3).
Proof.
  intros Hb Hk. rewrite (bv_split _ _ 32 8), (bv_split _ (8 * k + 8) 24 8),
    (bv_split _ (8 * k + 8 + 8) 16 8) by lia. simpl (_ - _).
  replace (8 * k + 8) with (8 * (k + 1)) by lia.
  replace (8 * (k + 1) + 8) with (8 * (k + 2)) by lia.
  replace (8 * (k + 2) + 8) with (8 * (k + 3)) by lia.
  rewrite !bv_byte by (lia || by apply byte_at_range). lia.
Qed.

(** The reader stands at bit [p] of the bytes [b]. *)
Record reads_at (b : list Z) (p : Z) (bs : wBitStream) : Prop := mk_reads_at {
  ra_buffer : buffer bs = b;
  ra_capacity : capacity bs = zlen b;
  ra_length : bit_length bs = 8 * zlen b;
  ra_pointer : 0 <= pointer bs;
  ra_offset : 0 <= offset bs < 32;
  ra_place : p = 8 * pointer bs + offset bs;
  ra_position : position bs = p;
  ra_accumulator : accumulator bs = bv (bit_of b) p 32;
  ra_prefetch : prefetch bs = bv (bit_of b) (p + 32) (32 - offset bs) * 2 ^ offset bs
}.

Lemma Prefetch_word bs :
  capacity bs = zlen (buffer bs) -> bytes (buffer bs) -> 0 <= pointer bs ->
  BitStream_Prefetch bs = with_prefetch (bv (bit_of (buffer bs)) (8 * pointer bs + 32) 32) bs.
Proof.
  intros Hc Hb Hp. unfold BitStream_Prefetch. f_equal. rewrite !or_byte_zeros by done.
  rewrite lor_bytes by (by apply byte_at_range).
  replace (8 * pointer bs + 32) with (8 * (pointer bs + 4)) by lia.
  rewrite bv_word by (done || lia).
  rewrite <- !Z.add_assoc. done.
Qed.

(** Attaching and fetching puts the reader at the first bit. *)
Lemma Attach_Fetch_reads b bs :
  bytes b -> zlen b < 2 ^ 29 -> reads_at b 0 (BitStream_Fetch (BitStream_Attach b (zlen b) bs)).
Proof.
  intros Hb Hl. pose proof (zlen_nonneg b). unfold BitStream_Fetch.
  rewrite Prefetch_word by (simpl; done || lia).
  constructor; simpl; try lia; try done; [word_lia| |by rewrite Z.mul_1_r].
  rewrite !or_byte_zeros by done. rewrite lor_bytes by (by apply byte_at_range).
  symmetry. apply (bv_word b 0); done || lia.
Qed.

(** Quotients and remainders of a number given by its high and low parts. *)
Lemma high_part a c s : 0 <= s -> 0 <= c < 2 ^ s -> (a * 2 ^ s + c) / 2 ^ s = a.
Proof. intros. rewrite Z.div_add_l, Z.div_small; lia. Qed.

Lemma low_part a c s : 0 <= c < 2 ^ s -> (a * 2 ^ s + c) mod 2 ^ s = c.
Proof. intros. rewrite Z.add_comm, Z_mod_plus_full. by apply Z.mod_small. Qed.

Lemma low_part_0 a s : (a * 2 ^ s) mod 2 ^ s = 0.
Proof. apply Z_mod_mult. Qed.

Lemma mul_pow_lt x a b c :
  0 <= a -> 0 <= b -> a + b = c -> 0 <= x < 2 ^ a -> 0 <= x * 2 ^ b < 2 ^ c.
Proof. intros ? ? <- ?. rewrite Z.pow_add_r by lia. split; [|apply Zmult_lt_compat_r]; nia. Qed.

Lemma mask_ones n : 0 < n < 32 -> u32 (Z.shiftl 1 n - 1) = 2 ^ n - 1.
Proof.
  intros. rewrite Z.shiftl_1_l. unfold u32. apply Z.mod_small.
  assert (2 ^ n < 2 ^ 32) by (apply Z.pow_lt_mono_r; lia). lia.
Qed.

Lemma u32_pow x : u32 x = x mod 2 ^ 32.
Proof. reflexivity. Qed.

(** Moving [n] bits of the prefetched word, which holds [k] bits from [q] on, into the
    accumulator, which lacks as many. *)
Lemma pull_bits_enough f x n q k bs :
  0 < n <= k -> k <= 32 -> n < 32 ->
  accumulator bs = x * 2 ^ n -> prefetch bs = bv f q k * 2 ^ (32 - k) ->
  accumulator (pull_bits n bs) = x * 2 ^ n + bv f q n /\
  prefetch (pull_bits n bs) = bv f (q + n) (k - n) * 2 ^ (32 - k + n).
Proof.
  intros Hn Hk Hn' Ha Hp. unfold pull_bits. rewrite mask_ones, Ha, Hp by lia. cbn.
  pose proof (bv_range f q n ltac:(lia)) as Rn.
  pose proof (bv_range f (q + n) (k - n) ltac:(lia)) as Rr.
  assert (Hlow : 0 <= bv f (q + n) (k - n) * 2 ^ (32 - k) < 2 ^ (32 - n))
    by (apply (mul_pow_lt _ (k - n)); lia).
  assert (Hpre : bv f q k * 2 ^ (32 - k) =
    bv f q n * 2 ^ (32 - n) + bv f (q + n) (k - n) * 2 ^ (32 - k)).
  { rewrite (bv_split f q k n), Z.mul_add_distr_r, <- Z.mul_assoc, <- Z.pow_add_r by lia.
    do 3 f_equal. lia. }
  rewrite Hpre. split.
  - rewrite land_low_mask, shiftr_div by lia. rewrite high_part by lia.
    rewrite Z.mod_small by lia. apply lor_shift_add; lia.
  - rewrite Z.shiftl_mul_pow2, u32_pow, Z.mul_add_distr_r, <- Z.mul_assoc, <- Z.pow_add_r by lia.
    replace (32 - n + n) with 32 by lia.
    rewrite <- Z.mul_assoc, <- Z.pow_add_r by lia. apply low_part.
    apply (mul_pow_lt _ (k - n)); lia.
Qed.

Lemma pull_bits_short f x n q k bs :
  0 <= k < n -> n < 32 ->
  accumulator bs = x * 2 ^ n -> prefetch bs = bv f q k * 2 ^ (32 - k) ->
  accumulator (pull_bits n bs) = (x * 2 ^ k + bv f q k) * 2 ^ (n - k).
Proof.
  intros Hk Hn Ha Hp. unfold pull_bits. rewrite mask_ones, Ha, Hp by lia. cbn.
  pose proof (bv_range f q k ltac:(lia)) as Rk.
  replace (32 - k) with (n - k + (32 - n)) by lia.
  rewrite Z.pow_add_r, Z.mul_assoc, shiftr_div, Z.div_mul by (try apply Z.pow_nonzero; lia).
  assert (0 <= bv f q k * 2 ^ (n - k) < 2 ^ n)
    by (apply (mul_pow_lt _ k); lia).
  rewrite land_low_mask, Z.mod_small, lor_shift_add by lia.
  rewrite Z.mul_add_distr_r, <- Z.mul_assoc, <- Z.pow_add_r by lia. do 3 f_equal. lia.
Qed.

(** the word at [p + n]: the rest of the word at [p], and [n] bits of the one after it *)
Lemma bv_join f p n : 0 < n < 32 -> bv f (p + n) (32 - n) * 2 ^ n + bv f (p + 32) n = bv f (p + n) 32.
Proof.
  intros. rewrite (bv_split f (p + n) 32 (32 - n)) by lia.
  replace (32 - (32 - n)) with n by lia. by replace (p + n + (32 - n)) with (p + 32) by lia.
Qed.

(** When the prefetched word runs out, the accumulator still lacks the last bits. *)
Lemma pull_bits_across f p n o bs :
  0 < n < 32 -> 0 <= o < 32 -> 32 <= o + n ->
  accumulator bs = bv f (p + n) (32 - n) * 2 ^ n ->
  prefetch bs = bv f (p + 32) (32 - o) * 2 ^ (32 - (32 - o)) ->
  accumulator (pull_bits n bs) = bv f (p + n) (32 - (o + n - 32)) * 2 ^ (o + n - 32).
Proof.
  intros Hn Ho Hge Ha Hp. destruct (Z.eq_dec (o + n) 32) as [E|].
  - rewrite (proj1 (pull_bits_enough f _ n (p + 32) (32 - o) bs ltac:(lia) ltac:(lia) ltac:(lia) Ha Hp)).
    rewrite E, bv_join by lia. simpl (_ - _). by rewrite Z.mul_1_r.
  - rewrite (pull_bits_short f _ n (p + 32) (32 - o) bs ltac:(lia) ltac:(lia) Ha Hp).
    rewrite (bv_split f (p + n) (32 - (o + n - 32)) (32 - n)) by lia.
    replace (32 - (o + n - 32) - (32 - n)) with (32 - o) by lia.
    replace (p + n + (32 - n)) with (p + 32) by lia. do 2 f_equal. lia.
Qed.

(** Prefetching the next word and taking the missing [o] bits from it. *)
Lemma refill_reads b p bs :
  bytes b -> buffer bs = b -> capacity bs = zlen b -> bit_length bs = 8 * zlen b ->
  0 <= pointer bs -> 0 <= offset bs < 32 -> p = 8 * pointer bs + offset bs -> position bs = p ->
  accumulator bs = bv (bit_of b) p (32 - offset bs) * 2 ^ offset bs ->
  let bs' := BitStream_Prefetch bs in
  reads_at b p (if negb (offset bs' =? 0) then pull_bits (offset bs') bs' else bs').
Proof.
  intros Hb Eb Ec El Hp Ho Epl Epos Ea. rewrite Prefetch_word by (rewrite ?Eb; done).
  cbv zeta. rewrite Eb. set (bs' := with_prefetch _ bs). change (offset bs') with (offset bs).
  assert (Q : prefetch bs' = bv (bit_of b) (8 * pointer bs + 32) 32 * 2 ^ (32 - 32))
    by (cbn -[bv]; lia).
  destruct (Z.eqb_spec (offset bs) 0) as [E|E]; simpl negb; cbv iota.
  - constructor; try done; change (offset bs') with (offset bs).
    + change (accumulator bs') with (accumulator bs). rewrite Ea, E. apply Z.mul_1_r.
    + rewrite Q, E, Epl, E. do 2 f_equal. lia.
  - destruct (pull_bits_enough (bit_of b) _ (offset bs) _ 32 bs'
                ltac:(lia) ltac:(lia) ltac:(lia) Ea Q) as [A R].
    constructor; try done; change (offset (pull_bits (offset bs) bs')) with (offset bs).
    + rewrite A, (bv_split _ p 32 (32 - offset bs)) by lia.
      replace (32 - (32 - offset bs)) with (offset bs) by lia. do 2 f_equal. lia.
    + rewrite R. by replace (p + 32) with (8 * pointer bs + 32 + offset bs) by lia.
Qed.

(** [BitStream_Shift] consumes [n] bits. *)
Lemma Shift_reads b p n bs :
  bytes b -> reads_at b p bs -> 0 < n < 32 -> p + n < 2 ^ 32 -> reads_at b (p + n) (BitStream_Shift n bs).
Proof.
  intros Hb [Eb Ec El Hp Ho Epl Epos Ea Epre] Hn Hlt.
  unfold BitStream_Shift. destruct (Z.eqb_spec n 0); [lia|].
  destruct (Z.ltb_spec 0 n); [|lia]. destruct (Z.ltb_spec n 32); [|lia]. simpl andb. cbv iota.
  set (bs1 := with_accumulator _ bs). set (bs2 := with_offsets _ _ bs1).
  assert (A2 : accumulator bs2 = bv (bit_of b) (p + n) (32 - n) * 2 ^ n).
  { subst bs2 bs1. cbn. rewrite Ea, (bv_split _ p 32 n), Z.shiftl_mul_pow2 by lia.
    rewrite Z.mul_add_distr_r, <- Z.mul_assoc, <- Z.pow_add_r by lia.
    replace (32 - n + n) with 32 by lia. apply low_part.
    apply (mul_pow_lt _ (32 - n)); [lia..|apply bv_range; lia]. }
  assert (O2 : offset bs2 = offset bs + n) by (subst bs2 bs1; cbn; word_lia).
  assert (P2 : position bs2 = p + n) by (subst bs2 bs1; cbn; rewrite Epos; word_lia).
  assert (Q2 : prefetch bs2 = bv (bit_of b) (p + 32) (32 - offset bs) * 2 ^ (32 - (32 - offset bs)))
    by (subst bs2 bs1; cbn; rewrite Epre; do 2 f_equal; lia).
  zcase.
  - destruct (pull_bits_enough (bit_of b) _ n (p + 32) (32 - offset bs) bs2
                ltac:(lia) ltac:(lia) ltac:(lia) A2 Q2) as [A3 Q3].
    constructor; try done; change (offset (pull_bits n bs2)) with (offset bs2);
      change (pointer (pull_bits n bs2)) with (pointer bs); [lia|lia|by rewrite A3, bv_join|].
    rewrite Q3, O2. replace (p + n + 32) with (p + 32 + n) by lia.
    replace (32 - (offset bs + n)) with (32 - offset bs - n) by lia. do 2 f_equal. lia.
  - cbv zeta. apply refill_reads; try done; cbn [pointer offset position with_pointer with_offsets
      accumulator]; change (offset (pull_bits n bs2)) with (offset bs2);
      change (pointer (pull_bits n bs2)) with (pointer bs);
      replace (u32 (offset bs2 - 32)) with (offset bs + n - 32) by (rewrite O2; word_lia); try lia.
    apply (pull_bits_across _ p n (offset bs)); done || lia.
Qed.

(** ** Writing *)

(** the bits of [v], [n] of them, most significant first *)
Fixpoint zbitsn (n : nat) (v : Z) : list bool :=
  match n with
  | O => []
  | S n' => zbitsn n' (v / 2) ++ [Z.odd v]
  end.

Definition zbits (n v : Z) : list bool := zbitsn (Z.to_nat n) v.

(** the bit at an index of a list of bits that zeros follow *)
Definition bit_in (w : list bool) (i : Z) : bool := default false (w !! Z.to_nat i).

Lemma zlen_zbits n v : 0 <= n -> zlen (zbits n v) = n.
Proof.
  intros Hn. unfold zbits, zlen.
  assert (Hk : forall k v, length (zbitsn k v) = k).
  { induction k as [|k IH]; intros x; simpl; [done|]. rewrite length_app, IH. simpl. lia. }
  rewrite Hk. lia.
Qed.

Lemma bit_in_app_l w k i : 0 <= i < zlen w -> bit_in (w ++ k) i = bit_in w i.
Proof. intros. unfold bit_in, zlen in *. rewrite lookup_app_l by lia. done. Qed.

Lemma bit_in_app_r w k i : zlen w <= i -> bit_in (w ++ k) i = bit_in k (i - zlen w).
Proof.
  intros. unfold bit_in, zlen in *. rewrite lookup_app_r by lia. do 2 f_equal. lia.
Qed.

Lemma bit_in_beyond w i : zlen w <= i -> bit_in w i = false.
Proof. intros. unfold bit_in, zlen in *. by rewrite lookup_ge_None_2 by lia. Qed.

Lemma bv_app_l w k p n :
  0 <= p -> 0 <= n -> p + n <= zlen w -> bv (bit_in (w ++ k)) p n = bv (bit_in w) p n.
Proof. intros. apply bv_ext; [lia|]. intros. apply bit_in_app_l. lia. Qed.

Lemma bv_zbitsn w n v :
  0 <= v < 2 ^ Z.of_nat n -> bvn (bit_in (w ++ zbitsn n v)) (zlen w) n = v.
Proof.
  revert v. induction n as [|n IH]; intros v Hv; [simpl in *; lia|].
  rewrite Nat2Z.inj_succ, Z.pow_succ_r in Hv by lia. simpl zbitsn. simpl bvn. rewrite app_assoc.
  assert (Hl : zlen (w ++ zbitsn n (v / 2)) = zlen w + Z.of_nat n).
  { rewrite zlen_app. pose proof (zlen_zbits (Z.of_nat n) (v / 2) ltac:(lia)) as E.
    unfold zbits in E. rewrite Nat2Z.id in E. lia. }
  rewrite (bvn_ext _ (bit_in (w ++ zbitsn n (v / 2)))).
  2: { intros i Hi. pose proof (zlen_nonneg w). apply bit_in_app_l. lia. }
  rewrite IH by (Z.div_mod_to_equations; lia).
  rewrite bit_in_app_r, Hl by lia. replace (_ - _) with 0 by lia. simpl bit_in.
  change (bit_in [Z.odd v] 0) with (Z.odd v). rewrite (Z.div_mod v 2) at 3 by lia.
  rewrite Zmod_odd. destruct (Z.odd v); done.
Qed.

(** The code of [v] on [n] bits, read back where it was appended. *)
Lemma bv_appended w n v k :
  0 <= n -> 0 <= v < 2 ^ n -> bv (bit_in ((w ++ zbits n v) ++ k)) (zlen w) n = v.
Proof.
  intros Hn Hv. pose proof (zlen_nonneg w).
  rewrite bv_app_l by (rewrite ?zlen_app, ?zlen_zbits; lia).
  unfold bv, zbits. apply bv_zbitsn. by rewrite Z2Nat.id.
Qed.

(** The writer has written the bits [w]. *)
Record writes_at (cap : Z) (w : list bool) (bs : wBitStream) : Prop := mk_writes_at {
  wa_buffer : cap <= zlen (buffer bs);
  wa_capacity : capacity bs = cap;
  wa_pointer : 0 <= pointer bs;
  wa_offset : 0 <= offset bs < 32;
  wa_place : zlen w = 8 * pointer bs + offset bs;
  wa_position : position bs = zlen w;
  wa_bits : zlen w <= 8 * cap;
  wa_accumulator : accumulator bs = bv (bit_in w) (8 * pointer bs) (offset bs) * 2 ^ (32 - offset bs);
  wa_written : forall k, 0 <= k < pointer bs -> byte_at (buffer bs) k = bv (bit_in w) (8 * k) 8
}.

Lemma Attach_writes b cap bs :
  0 <= cap <= zlen b -> writes_at cap [] (BitStream_Attach b cap bs).
Proof. intros. constructor; simpl; rewrite ?zlen_nil; try done; lia. Qed.

Lemma byte_at_insert b i v k :
  0 <= i < zlen b -> 0 <= k ->
  byte_at (<[Z.to_nat i := v]> b) k = if i =? k then v else byte_at b k.
Proof.
  intros Hi Hk. unfold byte_at, zlen in *. zcase.
  - subst. rewrite list_lookup_insert_eq by lia. done.
  - rewrite list_lookup_insert_ne by lia. done.
Qed.

Lemma put_byte_frame k s bs :
  pointer (put_byte k s bs) = pointer bs /\ capacity (put_byte k s bs) = capacity bs /\
  accumulator (put_byte k s bs) = accumulator bs /\ offset (put_byte k s bs) = offset bs /\
  position (put_byte k s bs) = position bs /\
  zlen (buffer (put_byte k s bs)) = zlen (buffer bs).
Proof.
  unfold put_byte. zcase; [|done]. split_and!; try done. simpl. unfold zlen. by rewrite length_insert.
Qed.

Lemma put_byte_at k s bs i :
  0 <= pointer bs -> 0 <= k -> 0 <= s -> capacity bs <= zlen (buffer bs) -> 0 <= i < capacity bs ->
  byte_at (buffer (put_byte k s bs)) i =
  if pointer bs + k =? i then (accumulator bs / 2 ^ s) mod 256 else byte_at (buffer bs) i.
Proof.
  intros. unfold put_byte. rewrite land_FF, shiftr_div by lia.
  destruct (Z.ltb_spec (pointer bs + k) (capacity bs)).
  - simpl. apply byte_at_insert; lia.
  - destruct (Z.eqb_spec (pointer bs + k) i); [lia|done].
Qed.

(** Flushing writes the four bytes of the accumulator, as far as they fit. *)
Lemma Flush_bytes bs :
  0 <= pointer bs -> capacity bs <= zlen (buffer bs) -> 0 <= accumulator bs < 2 ^ 32 ->
  let bs' := BitStream_Flush bs in
  (pointer bs' = pointer bs /\ capacity bs' = capacity bs /\ accumulator bs' = accumulator bs /\
   offset bs' = offset bs /\ position bs' = position bs /\ zlen (buffer bs') = zlen (buffer bs)) /\
  (forall i, 0 <= i < pointer bs -> i < capacity bs -> byte_at (buffer bs') i = byte_at (buffer bs) i) /\
  (forall j, 0 <= j < 4 -> pointer bs + j < capacity bs ->
     byte_at (buffer bs') (pointer bs + j) = (accumulator bs / 2 ^ (24 - 8 * j)) mod 256).
Proof.
  intros Hp Hc Ha bs'.
  set (b1 := put_byte 0 24 bs). set (b2 := put_byte 1 16 b1). set (b3 := put_byte 2 8 b2).
  destruct (put_byte_frame 0 24 bs) as (P1 & C1 & A1 & O1 & S1 & L1). fold b1 in P1, C1, A1, O1, S1, L1.
  destruct (put_byte_frame 1 16 b1) as (P2 & C2 & A2 & O2 & S2 & L2). fold b2 in P2, C2, A2, O2, S2, L2.
  destruct (put_byte_frame 2 8 b2) as (P3 & C3 & A3 & O3 & S3 & L3). fold b3 in P3, C3, A3, O3, S3, L3.
  destruct (put_byte_frame 3 0 b3) as (P4 & C4 & A4 & O4 & S4 & L4). change (put_byte 3 0 b3) with bs' in *.
  assert (Hat : forall i, 0 <= i < capacity bs -> byte_at (buffer bs') i =
    if pointer bs + 3 =? i then (accumulator bs / 2 ^ 0) mod 256
    else if pointer bs + 2 =? i then (accumulator bs / 2 ^ 8) mod 256
    else if pointer bs + 1 =? i then (accumulator bs / 2 ^ 16) mod 256
    else if pointer bs + 0 =? i then (accumulator bs / 2 ^ 24) mod 256
    else byte_at (buffer bs) i).
  { intros i Hi. change bs' with (put_byte 3 0 b3). rewrite put_byte_at, P3, P2, P1, A3, A2, A1 by lia.
    unfold b3. rewrite put_byte_at, P2, P1, A2, A1 by lia.
    unfold b2. rewrite put_byte_at, P1, A1 by lia.
    unfold b1. rewrite put_byte_at by lia. done. }
  split_and!; try congruence.
  - intros i Hi Hc'. rewrite Hat by lia. repeat (zcase; [lia|]). done.
  - intros j Hj Hc'. rewrite Hat by lia.
    assert (j = 0 \/ j = 1 \/ j = 2 \/ j = 3) as [-> | [-> | [-> | ->]]] by lia; repeat (zcase; try lia); done.
Qed.

(** A byte of a 32-bit value, in terms of its bits. *)
Lemma bv_word_byte f p j :
  0 <= j < 4 -> (bv f p 32 / 2 ^ (24 - 8 * j)) mod 256 = bv f (p + 8 * j) 8.
Proof.
  intros. rewrite (bv_split f p 32 (8 * j + 8)), (bv_split f p (8 * j + 8) (8 * j)) by lia.
  replace (32 - (8 * j + 8)) with (24 - 8 * j) by lia.
  replace (8 * j + 8 - 8 * j) with 8 by lia.
  rewrite high_part by (try apply bv_range; lia).
  change 256 with (2 ^ 8). apply low_part. apply bv_range. lia.
Qed.

(** the accumulator of a writer, as a full word *)
Lemma writes_word cap w bs :
  writes_at cap w bs -> accumulator bs = bv (bit_in w) (8 * pointer bs) 32.
Proof.
  intros []. rewrite (bv_split _ _ 32 (offset bs)) by lia.
  rewrite (bv_false _ (8 * pointer bs + offset bs)); [lia|lia|].
  intros. apply bit_in_beyond. lia.
Qed.

(** Or-ing [v], on [n] bits, in below what is already there. *)
Lemma lor_below A v n s :
  0 <= s -> 0 < n -> n + s <= 32 -> 0 <= v < 2 ^ n ->
  Z.lor (A * 2 ^ (n + s)) (u32 (Z.shiftl v s)) = (A * 2 ^ n + v) * 2 ^ s.
Proof.
  intros. rewrite Z.shiftl_mul_pow2 by lia.
  assert (0 <= v * 2 ^ s < 2 ^ (n + s)) by (apply (mul_pow_lt _ n); lia).
  assert (2 ^ (n + s) <= 2 ^ 32) by (apply Z.pow_le_mono_r; lia).
  rewrite u32_pow, Z.mod_small, lor_shift_add by lia. rewrite Z.pow_add_r by lia. lia.
Qed.

(** The head of a code that does not fit the accumulator: its [k] high bits. *)
Lemma lor_head A v n k :
  0 < k < 32 -> k <= n -> 0 <= v < 2 ^ n ->
  Z.lor (A * 2 ^ k) (Z.land (Z.shiftr v (n - k)) (u32 (Z.shiftl 1 k - 1))) = A * 2 ^ k + v / 2 ^ (n - k).
Proof.
  intros. rewrite mask_ones, land_low_mask, shiftr_div by lia.
  assert (0 <= v / 2 ^ (n - k) < 2 ^ k).
  { split; [apply Z.div_pos; lia|]. apply Z.div_lt_upper_bound; [lia|].
    rewrite <- Z.pow_add_r by lia. replace (n - k + k) with n by lia. lia. }
  rewrite Z.mod_small, lor_shift_add by lia. done.
Qed.

Section WriteBits.
Context (cap : Z) (w : list bool) (bs : wBitStream) (v n : Z).
Context (Hbs : writes_at cap w bs) (Hn : 0 < n <= 30) (Hv : 0 <= v < 2 ^ n).
Context (Hfit : zlen w + n <= 8 * cap) (Hcap : 8 * cap < 2 ^ 32).

#[local] Lemma old_bits p k :
  0 <= p -> 0 <= k -> p + k <= zlen w -> bv (bit_in (w ++ zbits n v)) p k = bv (bit_in w) p k.
Proof. apply bv_app_l. Qed.

#[local] Lemma new_bits : bv (bit_in (w ++ zbits n v)) (zlen w) n = v.
Proof. rewrite <- (app_nil_r (w ++ _)). apply bv_appended; lia. Qed.

#[local] Lemma new_length : zlen (w ++ zbits n v) = zlen w + n.
Proof. rewrite zlen_app, zlen_zbits; lia. Qed.

(** the high [k] bits of the code *)
#[local] Lemma new_high k : 0 <= k <= n -> bv (bit_in (w ++ zbits n v)) (zlen w) k = v / 2 ^ (n - k).
Proof.
  intros. rewrite <- new_bits at 2. rewrite (bv_split _ (zlen w) n k) by lia.
  rewrite high_part; [done|lia|]. apply bv_range. lia.
Qed.

#[local] Lemma new_low k : 0 <= k <= n -> bv (bit_in (w ++ zbits n v)) (zlen w + k) (n - k) = v mod 2 ^ (n - k).
Proof.
  intros. rewrite <- new_bits at 2. rewrite (bv_split _ (zlen w) n k) by lia.
  rewrite low_part; [done|]. apply bv_range. lia.
Qed.

Lemma Write_Bits_within :
  offset bs + n < 32 -> writes_at cap (w ++ zbits n v) (BitStream_Write_Bits v n bs).
Proof.
  intros Hlt. destruct Hbs as [Hb Hc Hp Ho Hpl Hpos Hbits Ha Hw].
  unfold BitStream_Write_Bits. set (bs1 := with_offsets _ _ bs).
  assert (O1 : offset bs1 = offset bs + n) by (subst bs1; cbn; word_lia).
  assert (P1 : position bs1 = zlen w + n) by (subst bs1; cbn; rewrite Hpos; word_lia).
  rewrite O1. destruct (Z.ltb_spec (offset bs + n) 32); [|lia].
  set (bs2 := with_accumulator _ bs1).
  constructor; rewrite ?new_length; change (offset bs2) with (offset bs1);
    change (pointer bs2) with (pointer bs); rewrite ?O1; try done; try lia.
  - change (accumulator bs2) with
      (Z.lor (accumulator bs) (u32 (Z.shiftl v (32 - (offset bs + n))))).
    rewrite Ha. replace (32 - offset bs) with (n + (32 - (offset bs + n))) by lia.
    rewrite lor_below, bv_app, old_bits, <- Hpl, new_bits by lia. done.
  - intros k Hk. rewrite old_bits by lia. by apply Hw.
Qed.

(** the word that a code completes *)
#[local] Lemma full_word :
  32 <= offset bs + n ->
  Z.lor (accumulator bs) (Z.land (Z.shiftr v (offset bs + n - 32))
    (u32 (Z.shiftl 1 (n - (offset bs + n - 32)) - 1))) =
  bv (bit_in (w ++ zbits n v)) (8 * pointer bs) 32.
Proof.
  intros Hge. destruct Hbs as [_ _ Hp Ho Hpl _ _ Ha _]. rewrite Ha.
  replace (offset bs + n - 32) with (n - (32 - offset bs)) by lia.
  replace (n - (n - (32 - offset bs))) with (32 - offset bs) by lia.
  rewrite lor_head by lia. by rewrite (bv_split _ _ 32 (offset bs)), old_bits, <- Hpl, new_high by lia.
Qed.

(** the [o] bits of a code that go to the next word *)
#[local] Lemma next_word o :
  o = offset bs + n - 32 -> 0 < o ->
  Z.lor 0 (u32 (Z.shiftl (Z.land v (u32 (Z.shiftl 1 o - 1))) (32 - o))) =
  bv (bit_in (w ++ zbits n v)) (8 * (pointer bs + 4)) o * 2 ^ (32 - o).
Proof.
  intros Eo Hpos. destruct Hbs as [_ _ Hp Ho Hpl _ _ _ _]. rewrite mask_ones, land_low_mask by lia.
  rewrite <- (Z.mul_0_l (2 ^ (o + (32 - o)))) at 1.
  pose proof (Z.mod_pos_bound v (2 ^ o) ltac:(lia)).
  rewrite lor_below, Z.mul_0_l, Z.add_0_l by lia. f_equal.
  replace o with (n - (32 - offset bs)) by lia. rewrite <- new_low by lia. f_equal. lia.
Qed.

Lemma Write_Bits_across :
  32 <= offset bs + n -> writes_at cap (w ++ zbits n v) (BitStream_Write_Bits v n bs).
Proof.
  intros Hge. pose proof (writes_word cap w bs Hbs) as Hword.
  destruct Hbs as [Hb Hc Hp Ho Hpl Hpos Hbits Ha Hw].
  unfold BitStream_Write_Bits. set (bs1 := with_offsets _ _ bs).
  assert (O1 : offset bs1 = offset bs + n) by (subst bs1; cbn; word_lia).
  assert (P1 : position bs1 = zlen w + n) by (subst bs1; cbn; rewrite Hpos; word_lia).
  rewrite O1. destruct (Z.ltb_spec (offset bs + n) 32); [lia|].
  set (bs2 := with_offsets _ _ bs1). set (o := offset bs + n - 32).
  assert (O2 : offset bs2 = o)
    by (change (offset bs2) with (u32 (offset bs + n - 32)); subst o; word_lia).
  set (bs4 := with_accumulator _ _).
  assert (A4 : accumulator bs4 = bv (bit_in (w ++ zbits n v)) (8 * pointer bs) 32).
  { change (accumulator bs4) with (Z.lor (accumulator bs) (Z.land (Z.shiftr v (offset bs2))
      (u32 (Z.shiftl 1 (n - offset bs2) - 1)))). rewrite O2. by apply full_word. }
  pose proof (bv_range (bit_in (w ++ zbits n v)) (8 * pointer bs) 32 ltac:(lia)) as R4.
  destruct (Flush_bytes bs4) as ((FP & FC & FA & FO & FS & FL) & Fold & Fnew);
    [done|cbn; lia|rewrite A4; done|].
  set (bs5 := with_pointer _ _).
  assert (W5 : forall k, 0 <= k < pointer bs + 4 ->
    byte_at (buffer bs5) k = bv (bit_in (w ++ zbits n v)) (8 * k) 8).
  { intros k Hk. change (buffer bs5) with (buffer (BitStream_Flush bs4)).
    change (pointer bs4) with (pointer bs) in *. change (capacity bs4) with (capacity bs) in *.
    destruct (Z.lt_ge_cases k (pointer bs)).
    - rewrite Fold, old_bits by lia. apply Hw. lia.
    - replace k with (pointer bs + (k - pointer bs)) at 1 by lia. rewrite Fnew, A4 by lia.
      rewrite bv_word_byte by lia. f_equal. lia. }
  assert (P5 : pointer bs5 = pointer bs + 4) by done.
  assert (O5 : offset bs5 = o)
    by (change (offset bs5) with (offset (BitStream_Flush bs4)); rewrite FO; done).
  assert (S5 : position bs5 = zlen w + n)
    by (change (position bs5) with (position (BitStream_Flush bs4)); rewrite FS; done).
  assert (C5 : capacity bs5 = cap)
    by (change (capacity bs5) with (capacity (BitStream_Flush bs4)); rewrite FC; done).
  assert (L5 : cap <= zlen (buffer bs5))
    by (change (buffer bs5) with (buffer (BitStream_Flush bs4)); rewrite FL; done).
  rewrite O5. destruct (Z.eqb_spec o 0) as [E|E]; simpl negb; cbv iota.
  - constructor; rewrite ?new_length, ?P5, ?O5; try done; try lia.
    rewrite E. change (accumulator bs5) with 0. done.
  - set (bs7 := with_accumulator _ _). assert (O7 : offset bs7 = o) by done.
    constructor; rewrite ?new_length; change (pointer bs7) with (pointer bs5);
      rewrite ?O7, ?P5; try done; try lia.
    change (accumulator bs7) with (Z.lor 0 (u32 (Z.shiftl (Z.land v (u32 (Z.shiftl 1 o - 1))) (32 - offset bs5)))).
    rewrite O5. apply next_word; [done|lia].
Qed.

(** [BitStream_Write_Bits] appends the [n] bits of [v]. *)
Lemma Write_Bits_writes : writes_at cap (w ++ zbits n v) (BitStream_Write_Bits v n bs).
Proof.
  destruct (Z.lt_ge_cases (offset bs + n) 32); [by apply Write_Bits_within|by apply Write_Bits_across].
Qed.
End WriteBits.

(** *** What a reader of the written bytes sees *)

(** After the final flush the bytes hold the bits written, padded with zeros. *)
Lemma Flush_written cap w bs k :
  writes_at cap w bs -> 0 <= k < cap -> 8 * k < zlen w ->
  byte_at (buffer (BitStream_Flush bs)) k = bv (bit_in w) (8 * k) 8.
Proof.
  intros Hbs Hk Hw. pose proof (writes_word cap w bs Hbs) as Hword.
  destruct Hbs as [Hb Hc Hp Ho Hpl Hpos Hbits Ha Hold].
  pose proof (bv_range (bit_in w) (8 * pointer bs) 32 ltac:(lia)).
  destruct (Flush_bytes bs) as (_ & Fold & Fnew); [done|lia|lia|].
  destruct (Z.lt_ge_cases k (pointer bs)).
  - rewrite Fold by lia. apply Hold. lia.
  - replace k with (pointer bs + (k - pointer bs)) at 1 by lia.
    rewrite Fnew, Hword by lia. rewrite bv_word_byte by lia. f_equal. lia.
Qed.

(** The bytes a writer hands out: as many as hold all its bits. *)
Definition written_bytes (bs : wBitStream) : list Z :=
  ztake ((position bs + 7) / 8) (buffer (BitStream_Flush bs)).

Lemma Flush_frame bs :
  position (BitStream_Flush bs) = position bs /\
  zlen (buffer (BitStream_Flush bs)) = zlen (buffer bs).
Proof.
  unfold BitStream_Flush.
  destruct (put_byte_frame 0 24 bs) as (_ & _ & _ & _ & S1 & L1).
  destruct (put_byte_frame 1 16 (put_byte 0 24 bs)) as (_ & _ & _ & _ & S2 & L2).
  destruct (put_byte_frame 2 8 (put_byte 1 16 (put_byte 0 24 bs))) as (_ & _ & _ & _ & S3 & L3).
  destruct (put_byte_frame 3 0 (put_byte 2 8 (put_byte 1 16 (put_byte 0 24 bs))))
    as (_ & _ & _ & _ & S4 & L4).
  split; congruence.
Qed.

Lemma byte_at_ztake b n k : 0 <= k < n -> byte_at (ztake n b) k = byte_at b k.
Proof. intros. unfold byte_at, ztake. rewrite lookup_take_lt by lia. done. Qed.

Lemma byte_at_ext a b :
  zlen a = zlen b -> (forall k, 0 <= k < zlen a -> byte_at a k = byte_at b k) -> a = b.
Proof.
  intros Hl Hk. apply list_eq_same_length with (length b); [done|unfold zlen in *; lia|].
  intros i x y Hi Hx Hy. specialize (Hk (Z.of_nat i)). unfold byte_at in Hk.
  rewrite Nat2Z.id, Hx, Hy in Hk. apply Hk. unfold zlen in *. lia.
Qed.

Section Written.
Context (cap : Z) (w : list bool) (bs : wBitStream) (Hbs : writes_at cap w bs).

Lemma written_bytes_len : zlen (written_bytes bs) = (zlen w + 7) / 8.
Proof.
  destruct Hbs. destruct (Flush_frame bs) as [_ Hl]. unfold written_bytes.
  pose proof (zlen_nonneg w). rewrite wa_position0. apply zlen_ztake. rewrite Hl.
  Z.div_mod_to_equations. lia.
Qed.

Lemma written_bytes_at k :
  0 <= k < (zlen w + 7) / 8 -> byte_at (written_bytes bs) k = bv (bit_in w) (8 * k) 8.
Proof.
  intros Hk. pose proof Hbs as []. unfold written_bytes. rewrite wa_position0, byte_at_ztake by lia.
  apply (Flush_written cap); [done|..]; Z.div_mod_to_equations; lia.
Qed.

Lemma written_bytes_range : bytes (written_bytes bs).
Proof.
  apply Forall_lookup. intros i x Hx. pose proof (lookup_lt_Some _ _ _ Hx) as Hlt.
  pose proof written_bytes_len as Hl. unfold zlen in Hl at 1.
  pose proof (written_bytes_at (Z.of_nat i) ltac:(lia)) as E. unfold byte_at in E.
  rewrite Nat2Z.id, Hx in E. simpl in E. subst x. apply bv_range. lia.
Qed.

(** Reading the bytes handed out gives the bits written, followed by zeros. *)
Lemma written_bits i : 0 <= i -> bit_of (written_bytes bs) i = bit_in w i.
Proof.
  intros Hi. pose proof (Z.div_mod i 8 ltac:(lia)) as Ed.
  pose proof (Z.mod_pos_bound i 8 ltac:(lia)) as Hm. pose proof (Z.div_pos i 8 ltac:(lia) ltac:(lia)).
  destruct (Z.lt_ge_cases (i / 8) ((zlen w + 7) / 8)) as [Hin|Hout].
  - unfold bit_of. rewrite written_bytes_at, bv_testbit by lia. f_equal. lia.
  - unfold bit_of. rewrite byte_at_beyond by (rewrite written_bytes_len; lia).
    rewrite Z.bits_0, bit_in_beyond; [done|]. Z.div_mod_to_equations. lia.
Qed.

Lemma written_bv p n : 0 <= p -> 0 <= n -> bv (bit_of (written_bytes bs)) p n = bv (bit_in w) p n.
Proof. intros. apply bv_ext; [lia|]. intros. apply written_bits. lia. Qed.
End Written.

(** *** Sequences of codes, each a value and a width *)

Definition code_ok (c : Z * Z) : Prop := 0 < c.2 <= 30 /\ 0 <= c.1 < 2 ^ c.2.

Definition write_codes (codes : list (Z * Z)) (bs : wBitStream) : wBitStream :=
  foldl (fun s c => BitStream_Write_Bits c.1 c.2 s) bs codes.

Definition skip_codes (codes : list (Z * Z)) (bs : wBitStream) : wBitStream :=
  foldl (fun s c => BitStream_Shift c.2 s) bs codes.

Fixpoint codes_width (codes : list (Z * Z)) : Z :=
  match codes with [] => 0 | c :: codes' => c.2 + codes_width codes' end.

Fixpoint codes_bits (codes : list (Z * Z)) : list bool :=
  match codes with [] => [] | c :: codes' => zbits c.2 c.1 ++ codes_bits codes' end.

Lemma codes_width_nonneg codes : Forall code_ok codes -> 0 <= codes_width codes.
Proof. induction 1 as [|c codes [] _ IH]; simpl; lia. Qed.

Lemma codes_bits_len codes : Forall code_ok codes -> zlen (codes_bits codes) = codes_width codes.
Proof.
  induction 1 as [|c codes [] _ IH]; simpl; [done|]. rewrite zlen_app, zlen_zbits by lia. lia.
Qed.

Lemma codes_bits_app l k : codes_bits (l ++ k) = codes_bits l ++ codes_bits k.
Proof. induction l as [|c l IH]; simpl; [done|]. by rewrite IH, app_assoc. Qed.

Lemma write_codes_writes cap codes w bs :
  Forall code_ok codes -> writes_at cap w bs -> zlen w + codes_width codes <= 8 * cap ->
  8 * cap < 2 ^ 32 -> writes_at cap (w ++ codes_bits codes) (write_codes codes bs).
Proof.
  intros Hok. revert w bs. induction Hok as [|c codes [Hn Hv] Hok IH]; intros w bs Hw Hfit Hcap; simpl in *.
  - by rewrite app_nil_r.
  - pose proof (codes_width_nonneg codes Hok). rewrite app_assoc. apply IH; [|rewrite zlen_app, zlen_zbits; lia|done].
    apply Write_Bits_writes; try done; lia.
Qed.

Lemma skip_codes_reads b codes p bs :
  bytes b -> Forall code_ok codes -> reads_at b p bs -> p + codes_width codes < 2 ^ 32 ->
  reads_at b (p + codes_width codes) (skip_codes codes bs).
Proof.
  intros Hb Hok. revert p bs. induction Hok as [|c codes [Hn Hv] Hok IH]; intros p bs Hr Hlt; simpl in *.
  - by rewrite Z.add_0_r.
  - pose proof (codes_width_nonneg codes Hok). rewrite Z.add_assoc.
    apply IH; [|lia]. apply Shift_reads; [done|done|lia|lia].
Qed.

(** C35: What is written with [BitStream_Write_Bits] is read back, code by code: after
    writing a list of codes of one to thirty bits into a block with room for them and
    flushing, a reader attached to the bytes produced finds at the place of each code its
    value in the high bits of the accumulator, and shifting by the widths leads there. *)
Theorem bit_codes_roundtrip (before after : list (Z * Z)) (v n : Z) (b : list Z) (bs : wBitStream) :
  let codes := before ++ (v, n) :: after in
  Forall code_ok codes -> codes_width codes <= 8 * zlen b -> zlen b < 2 ^ 29 ->
  let out := written_bytes (write_codes codes (BitStream_Attach b (zlen b) bs)) in
  let here := skip_codes before (BitStream_Fetch (BitStream_Attach out (zlen out) bs)) in
  zlen out = (codes_width codes + 7) / 8 /\
  accumulator here / 2 ^ (32 - n) = v /\ position here = codes_width before.
Proof.
  intros codes Hok Hfit Hlen out here.
  pose proof (write_codes_writes (zlen b) codes [] _ Hok
    (Attach_writes b (zlen b) bs ltac:(pose proof (zlen_nonneg b); lia)) Hfit ltac:(lia)) as Hw.
  simpl in Hw. pose proof (written_bytes_len _ _ _ Hw) as Hl. fold out in Hl.
  rewrite codes_bits_len in Hl by done. pose proof (written_bytes_range _ _ _ Hw) as Hb. fold out in Hb.
  assert (Hparts := Hok). apply Forall_app in Hparts as [Hbefore Hafter].
  apply Forall_cons_1 in Hafter as [[Hn Hv] Hafter]. simpl in Hn, Hv.
  pose proof (codes_width_nonneg codes Hok). pose proof (codes_width_nonneg before Hbefore).
  assert (Hwidth : codes_width codes = codes_width before + (n + codes_width after)).
  { clear. subst codes. induction before; simpl in *; lia. }
  pose proof (codes_width_nonneg after Hafter).
  pose proof (skip_codes_reads out before 0 _ Hb Hbefore
    (Attach_Fetch_reads out bs Hb ltac:(rewrite Hl; Z.div_mod_to_equations; lia)) ltac:(lia)) as Hr.
  fold here in Hr. destruct Hr as [_ _ _ _ _ _ Hpos Hacc _]. split_and!; [done| |done].
  rewrite Hacc, (bv_split _ _ 32 n), high_part by (try apply bv_range; lia).
  unfold out. rewrite (written_bv _ _ _ Hw) by lia.
  subst codes. rewrite codes_bits_app. simpl codes_bits. rewrite app_assoc.
  rewrite Z.add_0_l, <- (codes_bits_len before Hbefore). by apply bv_appended; [lia|].
Qed.

Lemma bit_codes_roundtrip_witness :
  let codes := [(0x41, 8); (0x17F, 9); (0x3FFF7FFF, 30); (5, 3)] in
  let out := written_bytes (write_codes codes (BitStream_Attach (zrepeat 8 0) 8 BitStream_New)) in
  let here := skip_codes [(0x41, 8); (0x17F, 9)]
                (BitStream_Fetch (BitStream_Attach out (zlen out) BitStream_New)) in
  zlen out = 7 /\ accumulator here / 2 ^ 2 = 0x3FFF7FFF /\ position here = 17.
Proof.
  apply (bit_codes_roundtrip [(0x41, 8); (0x17F, 9)] [(5, 3)] 0x3FFF7FFF 30 (zrepeat 8 0) BitStream_New).
  - repeat (apply Forall_cons_2; [unfold code_ok; simpl; lia|]). constructor.
  - vm_compute. discriminate.
  - vm_compute. reflexivity.
Defined.
