(* ===== verification/Mppc.v ===== *)
(** * MPPC bulk compression

    Model of [libfreerdp/codec/mppc.c], the compressor of RDP 4 (8 KB of history) and
    RDP 5 (64 KB).  Both ends keep a history of the bytes sent; a packet is a sequence of
    literals and of references into the history.  The context is an explicit state; the
    history buffer is a list of 65536 bytes, of which [HistoryBufferSize] are in use. *)

From S2P Require Import Prelude BitStream.

Definition PACKET_COMPRESSED : Z := 0x20.
Definition PACKET_AT_FRONT : Z := 0x40.
Definition PACKET_FLUSHED : Z := 0x80.

(** [flags & bit] *)
Definition has_flag (flags bit : Z) : bool := negb (Z.land flags bit =? 0).

Record MPPC_CONTEXT := mkMppc {
  bs : wBitStream;
  Compressor : bool;
  HistoryPtr : Z;
  HistoryOffset : Z;
  HistoryBufferSize : Z;
  HistoryBuffer : list Z;
  MatchBuffer : list Z;
  CompressionLevel : Z
}.

Definition set_bs (b : wBitStream) (c : MPPC_CONTEXT) : MPPC_CONTEXT :=
  mkMppc b (Compressor c) (HistoryPtr c) (HistoryOffset c) (HistoryBufferSize c)
    (HistoryBuffer c) (MatchBuffer c) (CompressionLevel c).
Definition set_HistoryPtr (p : Z) (c : MPPC_CONTEXT) : MPPC_CONTEXT :=
  mkMppc (bs c) (Compressor c) p (HistoryOffset c) (HistoryBufferSize c)
    (HistoryBuffer c) (MatchBuffer c) (CompressionLevel c).
Definition set_HistoryOffset (o : Z) (c : MPPC_CONTEXT) : MPPC_CONTEXT :=
  mkMppc (bs c) (Compressor c) (HistoryPtr c) o (HistoryBufferSize c)
    (HistoryBuffer c) (MatchBuffer c) (CompressionLevel c).
Definition set_HistoryBuffer (h : list Z) (c : MPPC_CONTEXT) : MPPC_CONTEXT :=
  mkMppc (bs c) (Compressor c) (HistoryPtr c) (HistoryOffset c) (HistoryBufferSize c)
    h (MatchBuffer c) (CompressionLevel c).
Definition set_MatchBuffer (m : list Z) (c : MPPC_CONTEXT) : MPPC_CONTEXT :=
  mkMppc (bs c) (Compressor c) (HistoryPtr c) (HistoryOffset c) (HistoryBufferSize c)
    (HistoryBuffer c) m (CompressionLevel c).

Definition MPPC_MATCH_TABLE : list Z :=
  [0x00000000; 0x009CCF93; 0x01399F26; 0x01D66EB9; 0x02733E4C; 0x03100DDF; 0x03ACDD72; 0x0449AD05;
   0x04E67C98; 0x05834C2B; 0x06201BBE; 0x06BCEB51; 0x0759BAE4; 0x07F68A77; 0x08935A0A; 0x0930299D;
   0x09CCF930; 0x0A69C8C3; 0x0B069856; 0x0BA367E9; 0x0C40377C; 0x0CDD070F; 0x0D79D6A2; 0x0E16A635;
   0x0EB375C8; 0x0F50455B; 0x0FED14EE; 0x1089E481; 0x1126B414; 0x11C383A7; 0x1260533A; 0x12FD22CD;
   0x1399F260; 0x1436C1F3; 0x14D39186; 0x15706119; 0x160D30AC; 0x16AA003F; 0x1746CFD2; 0x17E39F65;
   0x18806EF8; 0x191D3E8B; 0x19BA0E1E; 0x1A56DDB1; 0x1AF3AD44; 0x1B907CD7; 0x1C2D4C6A; 0x1CCA1BFD;
   0x1D66EB90; 0x1E03BB23; 0x1EA08AB6; 0x1F3D5A49; 0x1FDA29DC; 0x2076F96F; 0x2113C902; 0x21B09895;
   0x224D6828; 0x22EA37BB; 0x2387074E; 0x2423D6E1; 0x24C0A674; 0x255D7607; 0x25FA459A; 0x2697152D;
   0x2733E4C0; 0x27D0B453; 0x286D83E6; 0x290A5379; 0x29A7230C; 0x2A43F29F; 0x2AE0C232; 0x2B7D91C5;
   0x2C1A6158; 0x2CB730EB; 0x2D54007E; 0x2DF0D011; 0x2E8D9FA4; 0x2F2A6F37; 0x2FC73ECA; 0x30640E5D;
   0x3100DDF0; 0x319DAD83; 0x323A7D16; 0x32D74CA9; 0x33741C3C; 0x3410EBCF; 0x34ADBB62; 0x354A8AF5;
   0x35E75A88; 0x36842A1B; 0x3720F9AE; 0x37BDC941; 0x385A98D4; 0x38F76867; 0x399437FA; 0x3A31078D;
   0x3ACDD720; 0x3B6AA6B3; 0x3C077646; 0x3CA445D9; 0x3D41156C; 0x3DDDE4FF; 0x3E7AB492; 0x3F178425;
   0x3FB453B8; 0x4051234B; 0x40EDF2DE; 0x418AC271; 0x42279204; 0x42C46197; 0x4361312A; 0x43FE00BD;
   0x449AD050; 0x45379FE3; 0x45D46F76; 0x46713F09; 0x470E0E9C; 0x47AADE2F; 0x4847ADC2; 0x48E47D55;
   0x49814CE8; 0x4A1E1C7B; 0x4ABAEC0E; 0x4B57BBA1; 0x4BF48B34; 0x4C915AC7; 0x4D2E2A5A; 0x4DCAF9ED;
   0x4E67C980; 0x4F049913; 0x4FA168A6; 0x503E3839; 0x50DB07CC; 0x5177D75F; 0x5214A6F2; 0x52B17685;
   0x534E4618; 0x53EB15AB; 0x5487E53E; 0x5524B4D1; 0x55C18464; 0x565E53F7; 0x56FB238A; 0x5797F31D;
   0x5834C2B0; 0x58D19243; 0x596E61D6; 0x5A0B3169; 0x5AA800FC; 0x5B44D08F; 0x5BE1A022; 0x5C7E6FB5;
   0x5D1B3F48; 0x5DB80EDB; 0x5E54DE6E; 0x5EF1AE01; 0x5F8E7D94; 0x602B4D27; 0x60C81CBA; 0x6164EC4D;
   0x6201BBE0; 0x629E8B73; 0x633B5B06; 0x63D82A99; 0x6474FA2C; 0x6511C9BF; 0x65AE9952; 0x664B68E5;
   0x66E83878; 0x6785080B; 0x6821D79E; 0x68BEA731; 0x695B76C4; 0x69F84657; 0x6A9515EA; 0x6B31E57D;
   0x6BCEB510; 0x6C6B84A3; 0x6D085436; 0x6DA523C9; 0x6E41F35C; 0x6EDEC2EF; 0x6F7B9282; 0x70186215;
   0x70B531A8; 0x7152013B; 0x71EED0CE; 0x728BA061; 0x73286FF4; 0x73C53F87; 0x74620F1A; 0x74FEDEAD;
   0x759BAE40; 0x76387DD3; 0x76D54D66; 0x77721CF9; 0x780EEC8C; 0x78ABBC1F; 0x79488BB2; 0x79E55B45;
   0x7A822AD8; 0x7B1EFA6B; 0x7BBBC9FE; 0x7C589991; 0x7CF56924; 0x7D9238B7; 0x7E2F084A; 0x7ECBD7DD;
   0x7F68A770; 0x80057703; 0x80A24696; 0x813F1629; 0x81DBE5BC; 0x8278B54F; 0x831584E2; 0x83B25475;
   0x844F2408; 0x84EBF39B; 0x8588C32E; 0x862592C1; 0x86C26254; 0x875F31E7; 0x87FC017A; 0x8898D10D;
   0x8935A0A0; 0x89D27033; 0x8A6F3FC6; 0x8B0C0F59; 0x8BA8DEEC; 0x8C45AE7F; 0x8CE27E12; 0x8D7F4DA5;
   0x8E1C1D38; 0x8EB8ECCB; 0x8F55BC5E; 0x8FF28BF1; 0x908F5B84; 0x912C2B17; 0x91C8FAAA; 0x9265CA3D;
   0x930299D0; 0x939F6963; 0x943C38F6; 0x94D90889; 0x9575D81C; 0x9612A7AF; 0x96AF7742; 0x974C46D5;
   0x97E91668; 0x9885E5FB; 0x9922B58E; 0x99BF8521; 0x9A5C54B4; 0x9AF92447; 0x9B95F3DA; 0x9C32C36D].

(** the macro, in 32-bit arithmetic *)
Definition MPPC_MATCH_INDEX (sym1 sym2 sym3 : Z) : Z :=
  Z.shiftr
    (Z.land
       (u32 (u32 (u32 (Z.shiftl (byte_at MPPC_MATCH_TABLE sym3) 16) +
                  u32 (Z.shiftl (byte_at MPPC_MATCH_TABLE sym2) 8)) +
             byte_at MPPC_MATCH_TABLE sym1))
       0x07FFF000)
    12.

(** ** Contexts *)

Definition mppc_set_compression_level (level : Z) (c : MPPC_CONTEXT) : MPPC_CONTEXT :=
  if level <? 1 then
    mkMppc (bs c) (Compressor c) (HistoryPtr c) (HistoryOffset c) 8192
      (HistoryBuffer c) (MatchBuffer c) 0
  else
    mkMppc (bs c) (Compressor c) (HistoryPtr c) (HistoryOffset c) 65536
      (HistoryBuffer c) (MatchBuffer c) 1.

Definition mppc_context_reset (flush : bool) (c : MPPC_CONTEXT) : MPPC_CONTEXT :=
  mkMppc (bs c) (Compressor c) 0
    (if flush then u32 (HistoryBufferSize c + 1) else 0) (HistoryBufferSize c)
    (zrepeat 65536 0) (zrepeat 32768 0) (CompressionLevel c).

(** The two allocations succeed or the context is not created. *)
Definition mppc_context_new (alloc_ok : bool) (level : Z) (compressor : bool) : option MPPC_CONTEXT :=
  if alloc_ok then
    Some (mppc_context_reset false
      (mppc_set_compression_level level
         (mkMppc BitStream_New compressor 0 0 0 (zrepeat 65536 0) (zrepeat 32768 0) 0)))
  else None.

(** ** Codes *)

(** A literal and its width, or none when the bits start a copy. *)
Definition decode_literal (acc : Z) : option (Z * Z) :=
  if Z.land acc 0x80000000 =? 0x00000000 then
    Some (u8 (Z.shiftr (Z.land acc 0x7F000000) 24), 8)
  else if Z.land acc 0xC0000000 =? 0x80000000 then
    Some (u8 (Z.shiftr (Z.land acc 0x3F800000) 23 + 0x80), 9)
  else None.

Definition decode_copy_offset (level acc : Z) : option (Z * Z) :=
  if negb (level =? 0) then
    if Z.land acc 0xF8000000 =? 0xF8000000 then Some (Z.land (Z.shiftr acc 21) 0x3F, 11)
    else if Z.land acc 0xF8000000 =? 0xF0000000 then
      Some (u32 (Z.land (Z.shiftr acc 19) 0xFF + 64), 13)
    else if Z.land acc 0xF0000000 =? 0xE0000000 then
      Some (u32 (Z.land (Z.shiftr acc 17) 0x7FF + 320), 15)
    else if Z.land acc 0xE0000000 =? 0xC0000000 then
      Some (u32 (Z.land (Z.shiftr acc 13) 0xFFFF + 2368), 19)
    else None
  else
    if Z.land acc 0xF0000000 =? 0xF0000000 then Some (Z.land (Z.shiftr acc 22) 0x3F, 10)
    else if Z.land acc 0xF0000000 =? 0xE0000000 then
      Some (u32 (Z.land (Z.shiftr acc 20) 0xFF + 64), 12)
    else if Z.land acc 0xE0000000 =? 0xC0000000 then
      Some (u32 (Z.land (Z.shiftr acc 16) 0x1FFF + 320), 16)
    else None.

Definition decode_length (level acc : Z) : option (Z * Z) :=
  if Z.land acc 0x80000000 =? 0x00000000 then Some (3, 1)
  else if Z.land acc 0xC0000000 =? 0x80000000 then
    Some (Z.land (Z.shiftr acc 28) 0x0003 + 0x0004, 4)
  else if Z.land acc 0xE0000000 =? 0xC0000000 then
    Some (Z.land (Z.shiftr acc 26) 0x0007 + 0x0008, 6)
  else if Z.land acc 0xF0000000 =? 0xE0000000 then
    Some (Z.land (Z.shiftr acc 24) 0x000F + 0x0010, 8)
  else if Z.land acc 0xF8000000 =? 0xF0000000 then
    Some (Z.land (Z.shiftr acc 22) 0x001F + 0x0020, 10)
  else if Z.land acc 0xFC000000 =? 0xF8000000 then
    Some (Z.land (Z.shiftr acc 20) 0x003F + 0x0040, 12)
  else if Z.land acc 0xFE000000 =? 0xFC000000 then
    Some (Z.land (Z.shiftr acc 18) 0x007F + 0x0080, 14)
  else if Z.land acc 0xFF000000 =? 0xFE000000 then
    Some (Z.land (Z.shiftr acc 16) 0x00FF + 0x0100, 16)
  else if Z.land acc 0xFF800000 =? 0xFF000000 then
    Some (Z.land (Z.shiftr acc 14) 0x01FF + 0x0200, 18)
  else if Z.land acc 0xFFC00000 =? 0xFF800000 then
    Some (Z.land (Z.shiftr acc 12) 0x03FF + 0x0400, 20)
  else if Z.land acc 0xFFE00000 =? 0xFFC00000 then
    Some (Z.land (Z.shiftr acc 10) 0x07FF + 0x0800, 22)
  else if Z.land acc 0xFFF00000 =? 0xFFE00000 then
    Some (Z.land (Z.shiftr acc 8) 0x0FFF + 0x1000, 24)
  else if (Z.land acc 0xFFF80000 =? 0xFFF00000) && negb (level =? 0) then
    Some (Z.land (Z.shiftr acc 6) 0x1FFF + 0x2000, 26)
  else if (Z.land acc 0xFFFC0000 =? 0xFFF80000) && negb (level =? 0) then
    Some (Z.land (Z.shiftr acc 4) 0x3FFF + 0x4000, 28)
  else if (Z.land acc 0xFFFE0000 =? 0xFFFC0000) && negb (level =? 0) then
    Some (Z.land (Z.shiftr acc 2) 0x7FFF + 0x8000, 30)
  else None.

(** The compressor's side: the bits of a code and their number; none when the code
    writes nothing. *)
Definition literal_code (sym : Z) : Z * Z :=
  if sym <? 0x80 then (sym, 8) else (Z.lor 0x100 (Z.land sym 0x7F), 9).

Definition copy_offset_code (level off : Z) : option (Z * Z) :=
  if negb (level =? 0) then
    if off <? 64 then Some (Z.lor 0x07C0 (Z.land off 0x003F), 11)
    else if (64 <=? off) && (off <? 320) then
      Some (Z.lor 0x1E00 (Z.land (u32 (off - 64)) 0x00FF), 13)
    else if (320 <=? off) && (off <? 2368) then
      Some (Z.lor 0x7000 (Z.land (u32 (off - 320)) 0x07FF), 15)
    else Some (Z.lor 0x060000 (Z.land (u32 (off - 2368)) 0xFFFF), 19)
  else
    if off <? 64 then Some (Z.lor 0x03C0 (Z.land off 0x003F), 10)
    else if (64 <=? off) && (off <? 320) then
      Some (Z.lor 0x0E00 (Z.land (u32 (off - 64)) 0x00FF), 12)
    else if (320 <=? off) && (off <? 8192) then
      Some (Z.lor 0xC000 (Z.land (u32 (off - 320)) 0x1FFF), 16)
    else None.

Definition length_code (level len : Z) : option (Z * Z) :=
  if len =? 3 then Some (0, 1)
  else if (4 <=? len) && (len <? 8) then Some (Z.lor 0x0008 (Z.land len 0x0003), 4)
  else if (8 <=? len) && (len <? 16) then Some (Z.lor 0x0030 (Z.land len 0x0007), 6)
  else if (16 <=? len) && (len <? 32) then Some (Z.lor 0x00E0 (Z.land len 0x000F), 8)
  else if (32 <=? len) && (len <? 64) then Some (Z.lor 0x03C0 (Z.land len 0x001F), 10)
  else if (64 <=? len) && (len <? 128) then Some (Z.lor 0x0F80 (Z.land len 0x003F), 12)
  else if (128 <=? len) && (len <? 256) then Some (Z.lor 0x3F00 (Z.land len 0x007F), 14)
  else if (256 <=? len) && (len <? 512) then Some (Z.lor 0xFE00 (Z.land len 0x00FF), 16)
  else if (512 <=? len) && (len <? 1024) then Some (Z.lor 0x3FC00 (Z.land len 0x01FF), 18)
  else if (1024 <=? len) && (len <? 2048) then Some (Z.lor 0xFF800 (Z.land len 0x03FF), 20)
  else if (2048 <=? len) && (len <? 4096) then Some (Z.lor 0x3FF000 (Z.land len 0x07FF), 22)
  else if (4096 <=? len) && (len <? 8192) then Some (Z.lor 0xFFE000 (Z.land len 0x0FFF), 24)
  else if (8192 <=? len) && (len <? 16384) && negb (level =? 0) then
    Some (Z.lor 0x3FFC000 (Z.land len 0x1FFF), 26)
  else if (16384 <=? len) && (len <? 32768) && negb (level =? 0) then
    Some (Z.lor 0xFFF8000 (Z.land len 0x3FFF), 28)
  else if (32768 <=? len) && (len <? 65536) && negb (level =? 0) then
    Some (Z.lor 0x3FFF0000 (Z.land len 0x7FFF), 30)
  else None.

(** ** Decompression and compression *)

Section Operations.
(** The bytes around [HistoryBuffer] in the context, which some reads reach before another
    test discards what they found. *)
Context (outside : Z -> Z).

Definition hist_get (h : list Z) (i : Z) : Z :=
  if (0 <=? i) && (i <? 65536) then byte_at h i else outside i.

(** A store outside of the history buffer is undefined. *)
Definition hist_put (i v : Z) : M MPPC_CONTEXT unit :=
  if (0 <=? i) && (i <? 65536)
  then modify (fun c => set_HistoryBuffer (<[Z.to_nat i := v]> (HistoryBuffer c)) c)
  else crash Undefined.

Definition shift (n : Z) : M MPPC_CONTEXT unit :=
  modify (fun c => set_bs (BitStream_Shift n (bs c)) c).

(** [do { *HistoryPtr++ = *SrcPtr++; } while (--LengthOfMatch);], [n] times *)
Fixpoint copy_match (n : nat) (dst src : Z) : M MPPC_CONTEXT Z :=
  match n with
  | O => mret dst
  | S n' =>
      c ← get;
      hist_put dst (hist_get (HistoryBuffer c) src);;
      copy_match n' (dst + 1) (src + 1)
  end.

(** The copy branch: a negative status, or the new history pointer. *)
Definition decompress_copy (hp : Z) : M MPPC_CONTEXT (Z + Z) :=
  c ← get;
  match decode_copy_offset (CompressionLevel c) (accumulator (bs c)) with
  | None => mret (inl (if negb (CompressionLevel c =? 0) then -1001 else -1002))
  | Some (CopyOffset, n) =>
      shift n;;
      c1 ← get;
      match decode_length (CompressionLevel c) (accumulator (bs c1)) with
      | None => mret (inl (-1003))
      | Some (LengthOfMatch, m) =>
          shift m;;
          if HistoryBufferSize c - 1 <? hp + LengthOfMatch - 1 then mret (inl (-1005))
          else
            let src := Z.land (hp - CopyOffset)
                         (if negb (CompressionLevel c =? 0) then 0xFFFF else 0x1FFF) in
            hp' ← copy_match (Z.to_nat LengthOfMatch) hp src;
            mret (inr hp')
      end
  end.

(** One turn of the loop. *)
Definition decompress_symbol (hp : Z) : M MPPC_CONTEXT (Z + Z) :=
  c ← get;
  if HistoryBufferSize c - 1 <? hp then mret (inl (-1004))
  else
    match decode_literal (accumulator (bs c)) with
    | Some (Literal, n) =>
        hist_put hp Literal;; shift n;; mret (inr (hp + 1))
    | None => decompress_copy hp
    end.

Fixpoint decompress_loop (fuel : nat) (hp : Z) : M MPPC_CONTEXT (Z + Z) :=
  c ← get;
  if 8 <=? BitStream_GetRemainingLength (bs c) then
    match fuel with
    | O => crash Diverges
    | S fuel' =>
        r ← decompress_symbol hp;
        match r with
        | inl status => mret (inl status)
        | inr hp' => decompress_loop fuel' hp'
        end
    end
  else mret (inr hp).

(** Each turn that goes on moves the history pointer up, and none starts past the end. *)
Definition decompress_fuel : nat := Z.to_nat 65537.

(** The status and, when it is positive, the data produced. *)
Definition mppc_decompress (src : list Z) (flags : Z) : M MPPC_CONTEXT (Z * list Z) :=
  modify (fun c => set_bs (BitStream_Fetch (BitStream_Attach src (zlen src) (bs c))) c);;
  (if has_flag flags PACKET_AT_FRONT
   then modify (fun c => set_HistoryPtr 0 (set_HistoryOffset 0 c)) else mret tt);;
  (if has_flag flags PACKET_FLUSHED
   then modify (fun c =>
          set_HistoryBuffer
            (blit 0 (zrepeat (HistoryBufferSize c) 0) (HistoryBuffer c))
            (set_HistoryPtr 0 (set_HistoryOffset 0 c))) else mret tt);;
  if negb (has_flag flags PACKET_COMPRESSED) then mret (1, src)
  else
    c ← get;
    r ← decompress_loop decompress_fuel (HistoryPtr c);
    match r with
    | inl status => mret (status, [])
    | inr hp =>
        c' ← get;
        modify (set_HistoryPtr hp);;
        mret (1, slice (HistoryPtr c') (hp - HistoryPtr c') (HistoryBuffer c'))
    end.

Definition put_code (code : Z * Z) : M MPPC_CONTEXT unit :=
  modify (fun c => set_bs (BitStream_Write_Bits code.1 code.2 (bs c)) c).

Definition put_code_opt (code : option (Z * Z)) : M MPPC_CONTEXT unit :=
  match code with Some v => put_code v | None => mret tt end.

(** [((bs->position / 8) + k) > (DstSize - 1)] *)
Definition no_room (k DstSize : Z) (c : MPPC_CONTEXT) : bool :=
  u32 (DstSize - 1) <? u32 (position (bs c) / 8 + k).

(** The loop that extends a match; [MatchPtr], [HistoryPtr], [pSrcPtr], [LengthOfMatch]. *)
Fixpoint extend_match (fuel : nat) (src : list Z) (mp hp i len : Z) : M MPPC_CONTEXT (Z * Z * Z) :=
  c ← get;
  if (byte_at src i =? hist_get (HistoryBuffer c) mp) && (i <? zlen src - 1) &&
     (mp <=? HistoryPtr c)
  then
    match fuel with
    | O => crash Diverges
    | S fuel' =>
        hist_put hp (byte_at src i);;
        extend_match fuel' src (mp + 1) (hp + 1) (i + 1) (len + 1)
    end
  else mret (hp, i, len).

(** One turn of the compression loop at [hp] and [i]: the new pair, or none when the
    output does not fit and the packet is to be sent as it is. *)
Definition compress_symbol (src : list Z) (DstSize hp i : Z) : M MPPC_CONTEXT (option (Z * Z)) :=
  let Sym1 := byte_at src i in
  let Sym2 := byte_at src (i + 1) in
  let Sym3 := byte_at src (i + 2) in
  hist_put hp Sym1;;
  let hp1 := hp + 1 in
  let MatchIndex := MPPC_MATCH_INDEX Sym1 Sym2 Sym3 in
  c0 ← get;
  let mp := byte_at (MatchBuffer c0) MatchIndex in
  (if negb (mp =? hp1 - 1)
   then modify (fun c => set_MatchBuffer (<[Z.to_nat MatchIndex := u16 hp1]> (MatchBuffer c)) c)
   else mret tt);;
  modify (fun c => if HistoryPtr c <? hp1 then set_HistoryPtr hp1 c else c);;
  c ← get;
  let h := HistoryBuffer c in
  if negb (Sym1 =? hist_get h (mp - 1)) || negb (Sym2 =? hist_get h mp) ||
     negb (Sym3 =? hist_get h (mp + 1)) || (HistoryPtr c <? mp + 1) || (mp =? 0) ||
     (mp =? hp1 - 1) || (mp =? hp1)
  then
    if no_room 2 DstSize c then mret None
    else put_code (literal_code Sym1);; mret (Some (hp1, i + 1))
  else
    let CopyOffset := Z.land (HistoryBufferSize c - 1) (hp1 - mp) in
    hist_put hp1 Sym2;;
    hist_put (hp1 + 1) Sym3;;
    '(hp', i', LengthOfMatch) ←
      extend_match (length src) src (mp + 2) (hp1 + 2) (i + 3) 3;
    c' ← get;
    if no_room 7 DstSize c' then mret None
    else
      put_code_opt (copy_offset_code (CompressionLevel c') CopyOffset);;
      put_code_opt (length_code (CompressionLevel c') LengthOfMatch);;
      mret (Some (hp', i')).

Fixpoint compress_loop (fuel : nat) (src : list Z) (DstSize hp i : Z) :
    M MPPC_CONTEXT (option (Z * Z)) :=
  if i <? zlen src - 1 - 2 then
    match fuel with
    | O => crash Diverges
    | S fuel' =>
        r ← compress_symbol src DstSize hp i;
        match r with
        | Some (hp', i') => compress_loop fuel' src DstSize hp' i'
        | None => mret None
        end
    end
  else mret (Some (hp, i)).

(** The trailing symbols, as literals. *)
Fixpoint compress_tail (fuel : nat) (src : list Z) (DstSize hp i : Z) : M MPPC_CONTEXT (option Z) :=
  if i <=? zlen src - 1 then
    match fuel with
    | O => crash Diverges
    | S fuel' =>
        c ← get;
        if no_room 2 DstSize c then mret None
        else
          put_code (literal_code (byte_at src i));;
          hist_put hp (byte_at src i);;
          compress_tail fuel' src DstSize (hp + 1) (i + 1)
    end
  else mret (Some hp).

(** The packet goes out uncompressed and both ends start over. *)
Definition send_raw (src : list Z) : M MPPC_CONTEXT (Z * list Z * Z) :=
  c ← get;
  modify (mppc_context_reset true);;
  mret (1, src, Z.lor PACKET_FLUSHED (CompressionLevel c)).

(** The status, the data to send and its flags, with an output buffer [dst].  An empty
    source would put [pSrcEnd] 2^32 bytes past its start. *)
Definition mppc_compress (src dst : list Z) : M MPPC_CONTEXT (Z * list Z * Z) :=
  c0 ← get;
  let SrcSize := zlen src in
  let fits := (u32 (HistoryOffset c0 + SrcSize) <? u32 (HistoryBufferSize c0 - 3)) &&
              negb (HistoryOffset c0 =? 0) in
  let PacketAtFront := negb fits in
  let PacketFlushed :=
    negb fits && (HistoryOffset c0 =? u32 (HistoryBufferSize c0 + 1)) in
  let hp0 := if fits then HistoryOffset c0 else 0 in
  let DstSize := if SrcSize <? zlen dst then SrcSize else zlen dst in
  modify (fun c => set_bs (BitStream_Attach dst DstSize (bs c)) c);;
  (if SrcSize =? 0 then crash Undefined else mret tt);;
  r ← compress_loop (length src) src DstSize hp0 0;
  match r with
  | None => send_raw src
  | Some (hp1, i1) =>
      r' ← compress_tail (length src) src DstSize hp1 i1;
      match r' with
      | None => send_raw src
      | Some hp =>
          modify (fun c => set_bs (BitStream_Flush (bs c)) c);;
          c ← get;
          let size := u32 (position (bs c) + 7) / 8 in
          modify (fun c => set_HistoryOffset (u32 hp) (set_HistoryPtr hp c));;
          mret (1, ztake size (buffer (bs c)),
                Z.lor (Z.lor (Z.lor PACKET_COMPRESSED (CompressionLevel c))
                         (if PacketAtFront then PACKET_AT_FRONT else 0))
                  (if PacketFlushed then PACKET_FLUSHED else 0))
      end
  end.
End Operations.

(** ** The codes are read back *)

Lemma test_range acc m v s :
  0 <= s <= 32 -> m = 2 ^ 32 - 2 ^ s -> v = v / 2 ^ s * 2 ^ s -> 0 <= acc < 2 ^ 32 ->
  (Z.land acc m =? v) = (v <=? acc) && (acc <? v + 2 ^ s).
Proof.
  intros Hs -> Hv Ha.
  assert (Hl : Z.land acc (2 ^ 32 - 2 ^ s) = acc / 2 ^ s * 2 ^ s).
  { replace (2 ^ 32 - 2 ^ s) with (Z.shiftl (Z.ones (32 - s)) s).
    - rewrite <- shiftr_div, <- Z.shiftl_mul_pow2 by lia.
      apply Z.bits_inj'. intros i Hi. rewrite Z.land_spec.
      destruct (Z.lt_ge_cases i s); [rewrite !Z.shiftl_spec_low by lia; apply andb_false_r|].
      rewrite !Z.shiftl_spec_high, Z.shiftr_spec by lia. replace (i - s + s) with i by lia.
      destruct (Z.lt_ge_cases i 32).
      + rewrite Z.ones_spec_low by lia. apply andb_true_r.
      + rewrite (testbit_above acc 32) by lia. done.
    - rewrite Z.shiftl_mul_pow2, Z.ones_equiv by lia.
      assert (2 ^ 32 = 2 ^ (32 - s) * 2 ^ s) as -> by (rewrite <- Z.pow_add_r by lia; f_equal; lia). lia. }
  rewrite Hl. assert (0 < 2 ^ s) by (apply Z.pow_pos_nonneg; lia).
  pose proof (Z.div_mod acc (2 ^ s) ltac:(lia)). pose proof (Z.mod_pos_bound acc (2 ^ s) ltac:(lia)).
  apply eq_true_iff_eq. rewrite andb_true_iff, Z.eqb_eq, Z.leb_le, Z.ltb_lt.
  split; [lia|]. intros [Hlo Hhi]. rewrite Hv in *. f_equal.
  apply Z.le_antisymm; apply Z.lt_succ_r; nia.
Qed.

(** Turns the tests on high bits into comparisons. *)
Ltac high_tests acc :=
  repeat match goal with
  | |- context [Z.land acc ?m =? ?v] =>
      let s := eval vm_compute in (Z.log2 (4294967296 - m)) in
      rewrite (test_range acc m v s ltac:(lia) ltac:(reflexivity) ltac:(reflexivity) ltac:(lia))
  end.

Lemma lor_prefix c x m k :
  0 <= k -> m = 2 ^ k - 1 -> c = c / 2 ^ k * 2 ^ k -> Z.lor c (Z.land x m) = c + x mod 2 ^ k.
Proof.
  intros Hk -> Hc. rewrite land_low_mask by lia. rewrite Hc at 1.
  rewrite lor_shift_add by (try apply Z.mod_pos_bound; lia). lia.
Qed.

(** Codes and their fields as sums and remainders. *)
Ltac code_arith :=
  repeat match goal with
  | |- context [Z.lor ?c (Z.land ?x ?m)] =>
      let k := eval vm_compute in (Z.log2 (m + 1)) in
      rewrite (lor_prefix c x m k ltac:(lia) ltac:(reflexivity) ltac:(reflexivity))
  | |- context [Z.shiftr (Z.land ?x ?m) ?s] =>
      let m' := eval vm_compute in (Z.shiftr m s) in
      rewrite (Z.shiftr_land x m s); change (Z.shiftr m s) with m'
  | |- context [Z.land (Z.shiftr ?x ?s) ?m] =>
      let k := eval vm_compute in (Z.log2 (m + 1)) in
      rewrite (land_mask (Z.shiftr x s) k m ltac:(lia) ltac:(reflexivity)),
        (shiftr_div x s ltac:(lia))
  end.

(** the accumulator starts with the code [(v, n)] *)
Definition starts (acc : Z) (code : Z * Z) : Prop :=
  0 <= acc < 2 ^ 32 /\ acc / 2 ^ (32 - code.2) = code.1.

Lemma starts_range acc v n :
  starts acc (v, n) -> 0 <= n <= 32 -> v * 2 ^ (32 - n) <= acc < v * 2 ^ (32 - n) + 2 ^ (32 - n).
Proof.
  intros [Ha Hc] Hn. cbn [fst snd] in *. assert (0 < 2 ^ (32 - n)) by (apply Z.pow_pos_nonneg; lia).
  pose proof (Z.div_mod acc (2 ^ (32 - n)) ltac:(lia)).
  pose proof (Z.mod_pos_bound acc (2 ^ (32 - n)) ltac:(lia)). lia.
Qed.

(** decides the comparisons of a chain of tests *)
Ltac pick :=
  repeat match goal with
  | |- context [if ?b then _ else _] =>
      first [ replace b with true by (symmetry; lia) | replace b with false by (symmetry; lia) ];
      cbv iota
  end.

(** [acc] starts with the code in [H]: its range, the tests, the branch, the fields. *)
Ltac decode_with acc H :=
  pose proof H as [? _]; apply starts_range in H; [|lia];
  try match type of H with context [?x mod ?k] => pose proof (Z.mod_pos_bound x k ltac:(lia)) end;
  high_tests acc; pick; code_arith; unfold u32, u8; do 2 f_equal; Z.div_mod_to_equations; lia.

Lemma literal_decoded sym acc :
  is_byte sym -> starts acc (literal_code sym) ->
  decode_literal acc = Some (sym, (literal_code sym).2).
Proof.
  unfold is_byte, literal_code. intros Hs. zcase; code_arith; intros Hc; unfold decode_literal.
  - decode_with acc Hc.
  - decode_with acc Hc.
Qed.

Lemma literal_code_ok sym : is_byte sym -> code_ok (literal_code sym) /\ 8 <= (literal_code sym).2 <= 9.
Proof.
  intros Hs. unfold is_byte, literal_code, code_ok in *. zcase; code_arith; cbn [fst snd];
    [lia|]. pose proof (Z.mod_pos_bound sym (2 ^ 7) ltac:(lia)). lia.
Qed.

Lemma copy_offset_decoded level off :
  0 <= off < (if level =? 0 then 8192 else 65536) ->
  exists code, copy_offset_code level off = Some code /\ code_ok code /\ 10 <= code.2 <= 19 /\
    forall acc, starts acc code -> decode_copy_offset level acc = Some (off, code.2) /\
      decode_literal acc = None.
Proof.
  intros Hoff. unfold copy_offset_code, decode_copy_offset, decode_literal, code_ok.
  destruct (level =? 0); cbn [negb]; repeat zcase; try lia; eexists; (split; [reflexivity|]);
    code_arith; cbn [fst snd]; unfold u32;
    (split; [split; [lia|Z.div_mod_to_equations; lia]|split; [lia|]]);
    intros acc Hc; (split; [pose proof Hc as Hc'; decode_with acc Hc'|]);
    decode_with acc Hc.
Qed.

Lemma length_decoded level len :
  3 <= len < (if level =? 0 then 8192 else 65536) ->
  exists code, length_code level len = Some code /\ code_ok code /\
    forall acc, starts acc code -> decode_length level acc = Some (len, code.2).
Proof.
  intros Hlen. unfold length_code, decode_length, code_ok.
  destruct (level =? 0); rewrite ?andb_false_r, ?andb_true_r; cbn [negb];
    rewrite ?andb_false_r, ?andb_true_r; repeat zcase; try lia; eexists; (split; [reflexivity|]);
    code_arith; cbn [fst snd];
    (split; [split; [lia|Z.div_mod_to_equations; lia]|]);
    intros acc Hc; decode_with acc Hc.
Qed.
