(* ===== verification/MppcRoundtrip.v ===== *)
(** * MPPC: what is compressed is decompressed

    The proof that the decompressor of [libfreerdp/codec/mppc.c] undoes its compressor,
    packet after packet.  The compressor's run is followed symbol by symbol: each turn of
    its loop appends the bits of one symbol and writes bytes into its history, and the
    decompressor, reading these bits, writes the same bytes into an equal history. *)

From stdpp Require Import relations.
From S2P Require Import Prelude BitStream Mppc.

(** ** The decompressor, symbol by symbol *)

Section Correctness.
(** the bytes around the history in the sender's and in the receiver's context *)
Context (outside outside' : Z -> Z).

Lemma starts_bits b p st v n :
  reads_at b p st -> 0 <= n <= 32 -> bv (bit_of b) p n = v -> starts (accumulator st) (v, n).
Proof.
  intros [] Hn Hv. split; rewrite ra_accumulator; [apply bv_range; lia|]. cbn [fst snd].
  rewrite (bv_split _ _ 32 n), high_part by (try apply bv_range; lia). done.
Qed.

(** A context with another bit stream and another history. *)
Definition at_point (c : MPPC_CONTEXT) (st : wBitStream) (H : list Z) : MPPC_CONTEXT :=
  set_bs st (set_HistoryBuffer H c).

(** [n] cells copied one after the other, as in the loop *)
Fixpoint copied (n : nat) (H : list Z) (dst src : Z) : list Z :=
  match n with
  | O => H
  | S n' => copied n' (<[Z.to_nat dst := hist_get outside' H src]> H) (dst + 1) (src + 1)
  end.

Lemma hist_put_ok i v c :
  0 <= i < 65536 ->
  hist_put i v c = Ret tt (set_HistoryBuffer (<[Z.to_nat i := v]> (HistoryBuffer c)) c).
Proof. intros. unfold hist_put. zcase; [done|lia]. Qed.

Lemma copy_match_copied n dst src c st H :
  0 <= dst -> dst + Z.of_nat n <= 65536 ->
  copy_match outside' n dst src (at_point c st H) =
  Ret (dst + Z.of_nat n) (at_point c st (copied n H dst src)).
Proof.
  revert dst src H. induction n as [|n IH]; intros dst src H Hd Hn.
  - simpl. rewrite Z.add_0_r. done.
  - simpl copy_match. rewrite get_bind.
    rewrite (bind_ret_eq _ _ _ _ _ (hist_put_ok dst _ _ ltac:(lia))).
    etransitivity; [apply (IH (dst + 1) (src + 1) (<[Z.to_nat dst := hist_get outside' H src]> H)); lia|].
    simpl copied. f_equal. lia.
Qed.

(** One symbol of the packet [b], decoded by a context of the given level: from bit [p],
    history [H] and position [hp] to the primed ones. *)
Definition point : Type := Z * list Z * Z.

Definition sym_step (level size : Z) (b : list Z) (x y : point) : Prop :=
  let '(p, H, hp) := x in
  let '(p', H', hp') := y in
  p + 8 <= p' /\ hp < hp' /\
  forall c st, CompressionLevel c = level -> HistoryBufferSize c = size -> reads_at b p st ->
    p' <= 8 * zlen b ->
    exists st', decompress_symbol outside' hp (at_point c st H) = Ret (inr hp') (at_point c st' H') /\
      reads_at b p' st'.

Lemma literal_step level size b p H hp sym :
  bytes b -> zlen b < 2 ^ 28 -> is_byte sym -> 0 <= hp < size -> size <= 65536 ->
  bv (bit_of b) p (literal_code sym).2 = (literal_code sym).1 ->
  sym_step level size b (p, H, hp)
    (p + (literal_code sym).2, <[Z.to_nat hp := sym]> H, hp + 1).
Proof.
  intros Hb Hl Hs Hhp Hsize Hv. destruct (literal_code_ok sym Hs) as [[Hn _] Hn8].
  split_and!; [lia|lia|]. intros c st Hlev Hsz Hr Hp.
  assert (Hst : starts (accumulator st) (literal_code sym)).
  { rewrite (surjective_pairing (literal_code sym)). apply (starts_bits b p); [done|lia|done]. }
  exists (BitStream_Shift (literal_code sym).2 st). split; [|apply Shift_reads; try done; lia].
  unfold decompress_symbol. rewrite get_bind.
  change (HistoryBufferSize (at_point c st H)) with (HistoryBufferSize c).
  change (bs (at_point c st H)) with st. rewrite Hsz. zcase; [lia|].
  rewrite (literal_decoded sym _ Hs Hst).
  rewrite (bind_ret_eq _ _ _ _ _ (hist_put_ok hp _ _ ltac:(lia))). done.
Qed.

Lemma copy_step level size b p H hp off len c1 c2 :
  bytes b -> zlen b < 2 ^ 28 -> size = (if level =? 0 then 8192 else 65536) ->
  0 <= off < size -> 3 <= len < size -> 0 <= hp -> hp + len <= size ->
  copy_offset_code level off = Some c1 -> length_code level len = Some c2 ->
  bv (bit_of b) p c1.2 = c1.1 -> bv (bit_of b) (p + c1.2) c2.2 = c2.1 ->
  sym_step level size b (p, H, hp)
    (p + c1.2 + c2.2, copied (Z.to_nat len) H hp ((hp - off) mod size), hp + len).
Proof.
  intros Hb Hl Hsize Hoff Hlen Hhp Hfit E1 E2 V1 V2.
  assert (Hsize' : size <= 65536) by (rewrite Hsize; destruct (level =? 0); lia).
  destruct (copy_offset_decoded level off ltac:(by rewrite <- Hsize)) as (k1 & E1' & [K1 _] & K1' & D1).
  destruct (length_decoded level len ltac:(by rewrite <- Hsize)) as (k2 & E2' & [K2 _] & D2).
  rewrite E1 in E1'. rewrite E2 in E2'. injection E1' as <-. injection E2' as <-.
  split_and!; [lia|lia|]. intros c st Hlev Hsz Hr Hp.
  assert (S1 : starts (accumulator st) c1).
  { rewrite (surjective_pairing c1). apply (starts_bits b p); [done|lia|done]. }
  pose proof (Shift_reads b p c1.2 st Hb Hr ltac:(lia) ltac:(lia)) as Hr1.
  set (st1 := BitStream_Shift c1.2 st) in *.
  assert (S2 : starts (accumulator st1) c2).
  { rewrite (surjective_pairing c2). apply (starts_bits b (p + c1.2)); [done|lia|done]. }
  pose proof (Shift_reads b _ c2.2 st1 Hb Hr1 ltac:(lia) ltac:(lia)) as Hr2.
  set (st2 := BitStream_Shift c2.2 st1) in *. destruct (D1 _ S1) as [D1a D1b].
  exists st2. split; [|done].
  unfold decompress_symbol. rewrite get_bind. cbn [at_point set_bs set_HistoryBuffer bs
    HistoryBufferSize CompressionLevel HistoryBuffer]. rewrite Hsz. zcase; [lia|]. rewrite D1b.
  unfold decompress_copy. rewrite get_bind. cbn [at_point set_bs set_HistoryBuffer bs
    HistoryBufferSize CompressionLevel HistoryBuffer]. rewrite Hlev, D1a. unfold shift.
  rewrite modify_bind, get_bind. cbn [at_point set_bs set_HistoryBuffer bs
    HistoryBufferSize CompressionLevel HistoryBuffer]. fold st1. rewrite (D2 _ S2), modify_bind.
  rewrite Hsz. zcase; [lia|].
  assert (Emask : Z.land (hp - off) (if negb (level =? 0) then 0xFFFF else 0x1FFF) = (hp - off) mod size).
  { rewrite Hsize. destruct (level =? 0); simpl negb; cbv iota;
      [apply (land_mask _ 13)|apply (land_mask _ 16)]; reflexivity || lia. }
  rewrite Emask.
  pose proof (copy_match_copied (Z.to_nat len) hp ((hp - off) mod size) c st2 H Hhp ltac:(lia)) as Ecopy.
  rewrite Z2Nat.id in Ecopy by lia.
  rewrite (bind_ret_eq _ _ _ _ _ Ecopy). done.
Qed.

(** The loop follows the symbols to the last one. *)
Lemma decompress_loop_steps level size b x y :
  rtc (sym_step level size b) x y ->
  forall c st fuel, CompressionLevel c = level -> HistoryBufferSize c = size ->
    reads_at b x.1.1 st -> 0 <= x.1.1 -> y.1.1 <= 8 * zlen b < y.1.1 + 8 -> zlen b < 2 ^ 28 ->
    y.2 - x.2 <= Z.of_nat fuel ->
    exists st', decompress_loop outside' fuel x.2 (at_point c st x.1.2) =
      Ret (inr y.2) (at_point c st' y.1.2).
Proof.
  induction 1 as [[[p H] hp]|[[p H] hp] [[p1 H1] hp1] [[p2 H2] hp2] Hstep Hrest IH];
    intros c st fuel Hlev Hsz Hr Hp0 Hp Hl Hf; cbn [fst snd] in *.
  - exists st. destruct Hr.
    assert (E : (8 <=? BitStream_GetRemainingLength st) = false).
    { unfold BitStream_GetRemainingLength. rewrite ra_length, ra_position. word_lia. }
    destruct fuel; cbn [decompress_loop]; rewrite get_bind; cbn [at_point set_bs bs]; by rewrite E.
  - assert (Hle : p1 <= p2 /\ hp1 <= hp2).
    { clear -Hrest. remember (p1, H1, hp1) as u. remember (p2, H2, hp2) as v.
      revert p1 H1 hp1 Hequ. induction Hrest as [|x [[p3 H3] hp3] z Hs _ IH]; intros; subst.
      - injection Hequ; intros; subst. lia.
      - destruct Hs as (? & ? & _). specialize (IH eq_refl p3 H3 hp3 eq_refl). lia. }
    destruct Hstep as (Hp1 & Hh1 & Hrun).
    destruct (Hrun c st Hlev Hsz Hr ltac:(lia)) as (st1 & E1 & Hr1).
    destruct fuel as [|fuel]; [lia|]. cbn [decompress_loop]. rewrite get_bind.
    assert (E : (8 <=? BitStream_GetRemainingLength (bs (at_point c st H))) = true).
    { cbn [at_point set_bs bs]. unfold BitStream_GetRemainingLength. destruct Hr.
      rewrite ra_length, ra_position. word_lia. }
    rewrite E. rewrite (bind_ret_eq _ _ _ _ _ E1). apply IH; try done; lia.
Qed.

(** ** History cells *)

Lemma byte_at_blit i l k x :
  0 <= i -> i + zlen l <= zlen k -> 0 <= x ->
  byte_at (blit i l k) x =
  if (i <=? x) && (x <? i + zlen l) then byte_at l (x - i) else byte_at k x.
Proof.
  intros Hi Hl Hx. pose proof (zlen_nonneg l). unfold blit, byte_at, zlen, ztake, zdrop in *.
  destruct (Z.lt_ge_cases x i).
  - rewrite lookup_app_l by (rewrite length_take; lia). rewrite lookup_take_lt by lia.
    zcase; [lia|done].
  - rewrite lookup_app_r by (rewrite length_take; lia). rewrite length_take.
    destruct (Z.lt_ge_cases x (i + Z.of_nat (length l))).
    + rewrite lookup_app_l by lia. zcase; [|lia]. do 2 f_equal. lia.
    + rewrite lookup_app_r by lia. rewrite lookup_drop. zcase; [lia|]. do 2 f_equal. lia.
Qed.

Lemma byte_at_slice i n l x : 0 <= i -> 0 <= x < n -> byte_at (slice i n l) x = byte_at l (i + x).
Proof.
  intros. unfold slice. rewrite byte_at_ztake by lia. unfold byte_at, zdrop.
  rewrite lookup_drop. do 2 f_equal. lia.
Qed.

(** Writing the next byte of the source extends the copy in the history. *)
Lemma insert_next src H hp i j :
  0 <= i -> 0 <= j -> i + j < zlen src -> 0 <= hp -> hp + j < zlen H ->
  <[Z.to_nat (hp + j) := byte_at src (i + j)]> (blit hp (slice i j src) H) =
  blit hp (slice i (j + 1) src) H.
Proof.
  intros. assert (L1 : zlen (slice i j src) = j) by (apply zlen_slice; lia).
  assert (L2 : zlen (slice i (j + 1) src) = j + 1) by (apply zlen_slice; lia).
  apply byte_at_ext.
  - rewrite zlen_insert, !zlen_blit; lia.
  - rewrite zlen_insert, zlen_blit by lia. intros k Hk.
    rewrite byte_at_insert by (rewrite ?zlen_blit; lia). rewrite !byte_at_blit, L1, L2 by lia.
    destruct (Z.eqb_spec (hp + j) k).
    + subst. zcase; [|lia]. rewrite byte_at_slice by lia. f_equal. lia.
    + zcase; zcase; try lia. rewrite !byte_at_slice by lia. done.
Qed.

Lemma blit_nothing (src H : list Z) hp i : 0 <= hp <= zlen H -> blit hp (slice i 0 src) H = H.
Proof. apply blit_nil. Qed.

Lemma insert_first src H hp i :
  0 <= i < zlen src -> 0 <= hp < zlen H ->
  <[Z.to_nat hp := byte_at src i]> H = blit hp (slice i 1 src) H.
Proof.
  intros. pose proof (insert_next src H hp i 0) as E. rewrite !Z.add_0_r, Z.add_0_l in E.
  rewrite blit_nothing in E by lia. apply E; lia.
Qed.

(** The source from [i] on repeats the history from [s] on, where the history takes in the
    bytes copied so far. *)
Definition matches (src H : list Z) (hp i s len : Z) : Prop :=
  forall j, 0 <= j < len -> 0 <= s + j < 65536 /\
    byte_at src (i + j) = byte_at (blit hp (slice i j src) H) (s + j).

Lemma hist_get_in (out : Z -> Z) H i : 0 <= i < 65536 -> hist_get out H i = byte_at H i.
Proof. intros. unfold hist_get. zcase; [done|lia]. Qed.

Lemma copied_matches n src H hp i s j :
  0 <= i -> 0 <= j -> 0 <= hp -> i + j + Z.of_nat n <= zlen src -> hp + j + Z.of_nat n <= zlen H ->
  matches src H hp i s (j + Z.of_nat n) ->
  copied n (blit hp (slice i j src) H) (hp + j) (s + j) =
  blit hp (slice i (j + Z.of_nat n) src) H.
Proof.
  revert j. induction n as [|n IH]; intros j Hi Hj Hhp Hs HH Hm.
  - by rewrite Z.add_0_r.
  - simpl copied. destruct (Hm j ltac:(lia)) as [Hj' Ej].
    rewrite hist_get_in, <- Ej by lia. rewrite insert_next by lia.
    replace (hp + j + 1) with (hp + (j + 1)) by lia. replace (s + j + 1) with (s + (j + 1)) by lia.
    rewrite IH; [f_equal; f_equal; lia|lia..|]. replace (j + 1 + Z.of_nat n) with (j + Z.of_nat (S n)) by lia.
    done.
Qed.

(** ** The compressor, symbol by symbol *)

Lemma match_index_range a b c : 0 <= MPPC_MATCH_INDEX a b c < 32768.
Proof.
  unfold MPPC_MATCH_INDEX. set (x := u32 (_ + _)). rewrite Z.shiftr_land.
  change (Z.shiftr 0x07FFF000 12) with 0x7FFF. rewrite (land_mask _ 15) by (lia || reflexivity).
  apply Z.mod_pos_bound. lia.
Qed.

Context (level size : Z) (src : list Z) (D : Z).
Context (Hsize : size = if level =? 0 then 8192 else 65536) (Hsrc : bytes src).
Context (HD : 0 < D <= zlen src) (Hlen : zlen src < 65536).

Record enc_ok (c : MPPC_CONTEXT) : Prop := mk_enc_ok {
  enc_level : CompressionLevel c = level;
  enc_size : HistoryBufferSize c = size;
  enc_history : zlen (HistoryBuffer c) = 65536;
  enc_matches : Forall (fun m => 0 <= m <= size - 4) (MatchBuffer c);
  enc_ptr : 0 <= HistoryPtr c <= size - 4
}.

(** the first bits of [b] are those of [w] *)
Definition agrees (b : list Z) (w : list bool) : Prop :=
  forall i, 0 <= i < zlen w -> bit_of b i = bit_in w i.

Lemma size_range : 8192 <= size <= 65536.
Proof. rewrite Hsize. destruct (level =? 0); lia. Qed.

Lemma no_room_false k w c :
  0 <= k <= 7 -> writes_at D w (bs c) -> no_room k D c = false -> zlen w + 8 * k - 7 <= 8 * (D - 1).
Proof.
  intros Hk [] Hr. unfold no_room in Hr. rewrite wa_position in Hr. pose proof (zlen_nonneg w).
  assert (zlen w / 8 <= D) by (Z.div_mod_to_equations; lia). pose proof (Z.div_pos (zlen w) 8).
  unfold u32 in Hr. rewrite !Z.mod_small in Hr by lia. Z.div_mod_to_equations. lia.
Qed.

Lemma extend_match_ok fuel c H hp i s j :
  0 <= i -> 0 <= j -> 0 <= hp -> 0 <= s -> i + j <= zlen src - 1 -> hp + (zlen src - i) <= size - 4 ->
  zlen H = 65536 -> 0 <= HistoryPtr c <= size - 4 ->
  HistoryBuffer c = blit hp (slice i j src) H -> matches src H hp i s j ->
  zlen src - 1 - (i + j) <= Z.of_nat fuel ->
  exists len, extend_match outside fuel src (s + j) (hp + j) (i + j) j c =
      Ret (hp + len, i + len, len) (set_HistoryBuffer (blit hp (slice i len src) H) c) /\
    j <= len /\ i + len <= zlen src - 1 /\ matches src H hp i s len.
Proof.
  revert c j. induction fuel as [|fuel IH]; intros c j Hi Hj Hhp Hs Hij Hfit HH Hptr Hc Hm Hf;
    pose proof size_range.
  - exists j. cbn [extend_match]. rewrite get_bind.
    replace ((_ =? _) && _ && _) with false by (symmetry; lia).
    rewrite <- Hc. split_and!; try done; try lia. destruct c; done.
  - cbn [extend_match]. rewrite get_bind. rewrite Hc.
    destruct ((_ =? _) && _ && _) eqn:E.
    + apply andb_prop in E as [E E3]. apply andb_prop in E as [E1 E2].
      rewrite (bind_ret_eq _ _ _ _ _ (hist_put_ok (hp + j) _ c ltac:(lia))).
      rewrite Hc, insert_next by lia.
      destruct (IH (set_HistoryBuffer (blit hp (slice i (j + 1) src) H) c) (j + 1))
        as (len & Er & Hl & Hend & Hm'); try done; try lia.
      { intros k Hk. destruct (Z.eq_dec k j) as [->|]; [|apply Hm; lia].
        rewrite hist_get_in in E1 by lia. lia. }
      exists len. rewrite !Z.add_assoc in Er. rewrite Er. split_and!; try done; lia.
    + exists j. rewrite <- Hc. split_and!; try done; try lia. destruct c; done.
Qed.

(** The bits of a code where the packet agrees with what was written. *)
Lemma agrees_code b w v n k :
  0 <= n -> 0 <= v < 2 ^ n -> agrees b ((w ++ zbits n v) ++ k) -> bv (bit_of b) (zlen w) n = v.
Proof.
  intros Hn Hv Hb. pose proof (zlen_nonneg w). pose proof (zlen_nonneg k).
  transitivity (bv (bit_in ((w ++ zbits n v) ++ k)) (zlen w) n); [|apply bv_appended; lia].
  apply bv_ext; [done|]. intros i Hi. apply Hb. rewrite !zlen_app, zlen_zbits; lia.
Qed.

(** What one turn of the loop, from [hp] and [i], does to context and output. *)
Definition turn_ok (w : list bool) (c : MPPC_CONTEXT) (hp i : Z)
    (c' : MPPC_CONTEXT) (hp' i' : Z) : Prop :=
  i < i' <= zlen src /\ hp' - hp = i' - i /\ enc_ok c' /\
  HistoryBuffer c' = blit hp (slice i (i' - i) src) (HistoryBuffer c) /\
  exists w', writes_at D (w ++ w') (bs c') /\
    forall b, bytes b -> zlen b < 2 ^ 28 -> agrees b (w ++ w') ->
      sym_step level size b (zlen w, HistoryBuffer c, hp) (zlen (w ++ w'), HistoryBuffer c', hp').

(** A literal: [c1] is the context with the byte written, [c2] the one with the bits. *)
Lemma literal_turn w c c1 hp i :
  enc_ok c1 -> bs c1 = bs c -> writes_at D w (bs c) -> no_room 2 D c1 = false ->
  0 <= i < zlen src -> 0 <= hp < size -> zlen (HistoryBuffer c) = 65536 ->
  HistoryBuffer c1 = blit hp (slice i 1 src) (HistoryBuffer c) ->
  let code := literal_code (byte_at src i) in
  turn_ok w c hp i (set_bs (BitStream_Write_Bits code.1 code.2 (bs c1)) c1) (hp + 1) (i + 1).
Proof.
  intros Hok Hbs Hw Hroom Hi Hhp Hh Hh1 code. pose proof size_range.
  assert (Hbyte : is_byte (byte_at src i)) by (by apply byte_at_range).
  destruct (literal_code_ok _ Hbyte) as [Hcode Hn]. fold code in Hcode, Hn. destruct Hcode as [Hn' Hv].
  rewrite <- Hbs in Hw. pose proof (no_room_false 2 w c1 ltac:(lia) Hw Hroom).
  split_and!; [lia|lia|lia| | |].
  - destruct Hok. constructor; done.
  - cbn [set_bs HistoryBuffer]. rewrite Hh1. do 2 f_equal. lia.
  - exists (zbits code.2 code.1). split.
    + cbn [set_bs bs]. apply Write_Bits_writes; try done; lia.
    + intros b Hb Hlb Hag. rewrite zlen_app, zlen_zbits by lia. cbn [set_bs HistoryBuffer].
      rewrite Hh1, <- insert_first by lia.
      apply literal_step; try done; try lia.
      fold code. apply (agrees_code b w code.1 code.2 []); [lia|done|by rewrite app_nil_r].
Qed.

(** A copy of [len] bytes from index [s] of the history, [CopyOffset] back. *)
Lemma copy_turn w c c1 hp i s len :
  enc_ok c1 -> bs c1 = bs c -> writes_at D w (bs c) -> no_room 7 D c1 = false ->
  0 <= i -> i + len <= zlen src -> 0 <= hp -> hp + len <= size - 4 ->
  zlen (HistoryBuffer c) = 65536 -> 0 <= s < size -> 3 <= len ->
  HistoryBuffer c1 = blit hp (slice i len src) (HistoryBuffer c) ->
  matches src (HistoryBuffer c) hp i s len ->
  let off := Z.land (size - 1) (hp - s) in
  exists c2, (put_code_opt (copy_offset_code level off);;
              put_code_opt (length_code level len);;
              mret (Some (hp + len, i + len))) c1 = Ret (Some (hp + len, i + len)) c2 /\
    turn_ok w c hp i c2 (hp + len) (i + len).
Proof.
  intros Hok Hbs Hw Hroom Hi Hil Hhp Hfit Hh Hs Hlen3 Hh1 Hm off. pose proof size_range.
  assert (Eoff : off = (hp - s) mod size).
  { subst off. rewrite Z.land_comm. rewrite Hsize.
    destruct (level =? 0); [apply (land_mask _ 13)|apply (land_mask _ 16)]; reflexivity || lia. }
  assert (Hoff : 0 <= off < size) by (rewrite Eoff; apply Z.mod_pos_bound; lia).
  destruct (copy_offset_decoded level off ltac:(by rewrite <- Hsize)) as (k1 & E1 & [K1 V1] & K1' & _).
  destruct (length_decoded level len ltac:(rewrite <- Hsize; lia)) as (k2 & E2 & [K2 V2] & _).
  rewrite <- Hbs in Hw. pose proof (no_room_false 7 w c1 ltac:(lia) Hw Hroom).
  rewrite E1, E2. eexists. split; [reflexivity|].
  split_and!; [lia|lia|lia| | |].
  - destruct Hok. constructor; done.
  - cbn [set_bs HistoryBuffer]. rewrite Hh1. do 2 f_equal. lia.
  - exists (zbits k1.2 k1.1 ++ zbits k2.2 k2.1). split.
    + cbn [set_bs bs]. rewrite app_assoc.
      apply Write_Bits_writes; try done; [apply Write_Bits_writes; try done; lia| |lia].
      rewrite zlen_app, zlen_zbits; lia.
    + intros b Hb Hlb Hag. rewrite !zlen_app, !zlen_zbits, Z.add_assoc by lia.
      cbn [set_bs HistoryBuffer]. rewrite Hh1.
      replace (blit hp (slice i len src) (HistoryBuffer c)) with
        (copied (Z.to_nat len) (HistoryBuffer c) hp ((hp - off) mod size)).
      * apply copy_step; try done; try lia.
        -- rewrite app_assoc in Hag. apply (agrees_code b w k1.1 k1.2 (zbits k2.2 k2.1)); [lia|done|done].
        -- replace (zlen w + k1.2) with (zlen (w ++ zbits k1.2 k1.1)) by (rewrite zlen_app, zlen_zbits; lia).
           apply (agrees_code b _ k2.1 k2.2 []); [lia|done|]. by rewrite app_nil_r, <- app_assoc.
      * rewrite Eoff, Zminus_mod_idemp_r. replace (hp - (hp - s)) with s by lia.
        rewrite (Z.mod_small s) by lia.
        pose proof (copied_matches (Z.to_nat len) src (HistoryBuffer c) hp i s 0) as Hcop.
        rewrite blit_nothing, !Z.add_0_r, Z.add_0_l, Z2Nat.id in Hcop by lia. apply Hcop; done || lia.
Qed.

(** the context after the history and match tables took in the symbol at [hp] *)
Definition noted (hp idx mp : Z) (sym : Z) (c : MPPC_CONTEXT) : MPPC_CONTEXT :=
  let c1 := set_HistoryBuffer (<[Z.to_nat hp := sym]> (HistoryBuffer c)) c in
  let c2 := if negb (mp =? hp + 1 - 1)
            then set_MatchBuffer (<[Z.to_nat idx := u16 (hp + 1)]> (MatchBuffer c1)) c1 else c1 in
  if HistoryPtr c2 <? hp + 1 then set_HistoryPtr (hp + 1) c2 else c2.

Lemma noted_ok hp idx mp i c :
  enc_ok c -> 0 <= i < zlen src -> 0 <= hp -> hp + 1 <= size - 4 ->
  let c' := noted hp idx mp (byte_at src i) c in
  enc_ok c' /\ bs c' = bs c /\ HistoryBuffer c' = blit hp (slice i 1 src) (HistoryBuffer c) /\
  hp + 1 <= HistoryPtr c'.
Proof.
  intros [El Es Eh Em Ep] Hi Hhp Hfit. pose proof size_range. cbv zeta. unfold noted. cbv zeta.
  rewrite insert_first by lia. set (H' := blit hp (slice i 1 src) (HistoryBuffer c)).
  assert (Lh : zlen H' = 65536) by (subst H'; rewrite zlen_blit; rewrite ?zlen_slice; lia).
  assert (Em' : Forall (fun m => 0 <= m <= size - 4) (<[Z.to_nat idx := u16 (hp + 1)]> (MatchBuffer c))).
  { apply Forall_insert; [done|]. unfold u16. rewrite Z.mod_small; lia. }
  destruct (negb _); cbn [set_HistoryBuffer set_MatchBuffer set_HistoryPtr HistoryPtr];
    zcase; cbn [set_HistoryBuffer set_MatchBuffer set_HistoryPtr HistoryPtr HistoryBuffer bs];
    (split_and!; [constructor; cbn; done || lia|done|done|lia]).
Qed.

Lemma compress_symbol_noted hp i c :
  0 <= hp < 65536 ->
  let s1 := byte_at src i in
  let idx := MPPC_MATCH_INDEX s1 (byte_at src (i + 1)) (byte_at src (i + 2)) in
  let mp := byte_at (MatchBuffer c) idx in
  let c' := noted hp idx mp s1 c in
  let h := HistoryBuffer c' in
  compress_symbol outside src D hp i c =
  (if negb (s1 =? hist_get outside h (mp - 1)) ||
      negb (byte_at src (i + 1) =? hist_get outside h mp) ||
      negb (byte_at src (i + 2) =? hist_get outside h (mp + 1)) || (HistoryPtr c' <? mp + 1) ||
      (mp =? 0) || (mp =? hp + 1 - 1) || (mp =? hp + 1)
   then
     if no_room 2 D c' then mret None
     else put_code (literal_code s1);; mret (Some (hp + 1, i + 1))
   else
     hist_put (hp + 1) (byte_at src (i + 1));;
     hist_put (hp + 1 + 1) (byte_at src (i + 2));;
     '(hp', i', len) ← extend_match outside (length src) src (mp + 2) (hp + 1 + 2) (i + 3) 3;
     c'' ← get;
     if no_room 7 D c'' then mret None
     else
       put_code_opt (copy_offset_code (CompressionLevel c'')
                       (Z.land (HistoryBufferSize c' - 1) (hp + 1 - mp)));;
       put_code_opt (length_code (CompressionLevel c'') len);;
       mret (Some (hp', i'))) c'.
Proof.
  intros Hhp s1 idx mp c' h. unfold compress_symbol.
  rewrite (bind_ret_eq _ _ _ _ _ (hist_put_ok hp _ c ltac:(lia))). rewrite get_bind.
  fold s1. fold idx. cbn [set_HistoryBuffer MatchBuffer]. fold mp.
  destruct (negb (mp =? hp + 1 - 1)) eqn:E; rewrite ?ret_bind, !modify_bind, get_bind;
    subst h c'; unfold noted; cbv zeta; rewrite E; done.
Qed.

(** The compressor looks at the first three bytes of a match with one of them written. *)
Lemma match_start H hp i mp :
  0 <= i < zlen src - 3 -> 0 <= hp -> hp + (zlen src - i) <= size - 4 -> zlen H = 65536 ->
  0 <= mp <= size - 4 ->
  let h := blit hp (slice i 1 src) H in
  negb (byte_at src i =? hist_get outside h (mp - 1)) = false ->
  negb (byte_at src (i + 1) =? hist_get outside h mp) = false ->
  negb (byte_at src (i + 2) =? hist_get outside h (mp + 1)) = false ->
  (mp =? 0) = false -> (mp =? hp + 1 - 1) = false -> (mp =? hp + 1) = false ->
  matches src H hp i (mp - 1) 3.
Proof.
  intros Hi Hhp Hfit HH Hmp h T1 T2 T3 T5 T6 T7. pose proof size_range.
  apply negb_false_iff, Z.eqb_eq in T1, T2, T3. rewrite hist_get_in in T1, T2, T3 by lia.
  assert (L1 : zlen (slice i 1 src) = 1) by (apply zlen_slice; lia).
  assert (L2 : zlen (slice i 2 src) = 2) by (apply zlen_slice; lia).
  intros j Hj. assert (j = 0 \/ j = 1 \/ j = 2) as [->|[->| ->]] by lia;
    (split; [lia|]).
  - rewrite blit_nothing, !Z.add_0_r by lia. rewrite T1. subst h.
    rewrite byte_at_blit, L1 by lia. zcase; [lia|done].
  - rewrite T2. replace (mp - 1 + 1) with mp by lia. done.
  - rewrite T3. subst h. replace (mp - 1 + 2) with (mp + 1) by lia.
    rewrite !byte_at_blit, L1, L2 by lia. zcase; zcase; try lia.
    rewrite !byte_at_slice by lia. done.
Qed.

(** One turn of the loop. *)
Lemma compress_symbol_ok w c hp i :
  enc_ok c -> writes_at D w (bs c) -> 0 <= i < zlen src - 3 -> 0 <= hp ->
  hp + (zlen src - i) <= size - 4 ->
  exists r c', compress_symbol outside src D hp i c = Ret r c' /\
    CompressionLevel c' = level /\ HistoryBufferSize c' = size /\
    match r with None => True | Some (hp', i') => turn_ok w c hp i c' hp' i' end.
Proof.
  intros Hok Hw Hi Hhp Hfit. pose proof size_range. rewrite compress_symbol_noted by lia.
  set (idx := MPPC_MATCH_INDEX _ _ _). set (mp := byte_at (MatchBuffer c) idx).
  destruct (noted_ok hp idx mp i c Hok) as (Hok' & Hbs' & Hh' & Hptr'); [lia..|].
  set (c' := noted _ _ _ _ _) in *. cbv zeta.
  assert (Hmp : 0 <= mp <= size - 4).
  { subst mp. destruct Hok. unfold byte_at. destruct (MatchBuffer c !! Z.to_nat idx) eqn:El; simpl; [|lia].
    by apply (Forall_lookup_1 _ _ _ _ enc_matches0 El). }
  destruct (_ || _ || _ || _ || _ || _ || _) eqn:Etest.
  - destruct (no_room 2 D c') eqn:Er.
    + exists None, c'. destruct Hok'. done.
    + eexists (Some _), _. split; [reflexivity|]. cbn [set_bs CompressionLevel HistoryBufferSize].
      destruct Hok' as [? ? ? ? ?] eqn:?. split_and!; [done|done|].
      apply literal_turn; try done; try lia. destruct Hok; done.
  - apply orb_false_elim in Etest as [Etest T7]. apply orb_false_elim in Etest as [Etest T6].
    apply orb_false_elim in Etest as [Etest T5]. apply orb_false_elim in Etest as [Etest T4].
    apply orb_false_elim in Etest as [Etest T3]. apply orb_false_elim in Etest as [T1 T2].
    assert (M3 : matches src (HistoryBuffer c) hp i (mp - 1) 3)
      by (apply match_start; try rewrite <- Hh'; destruct Hok; try done; lia).
    assert (Hh : zlen (HistoryBuffer c) = 65536) by (destruct Hok; done).
    assert (Hlev : CompressionLevel c' = level /\ HistoryBufferSize c' = size /\ 0 <= HistoryPtr c' <= size - 4)
      by (destruct Hok'; done).
    destruct Hlev as (Hlev & Hsz & Hp').
    rewrite (bind_ret_eq _ _ _ _ _ (hist_put_ok (hp + 1) _ c' ltac:(lia))).
    rewrite (bind_ret_eq _ _ _ _ _ (hist_put_ok (hp + 1 + 1) _ _ ltac:(lia))).
    cbn [set_HistoryBuffer HistoryBuffer]. rewrite Hh', insert_next by lia.
    replace (hp + 1 + 1) with (hp + (1 + 1)) by lia. rewrite insert_next by lia.
    set (c3 := set_HistoryBuffer _ _).
    destruct (extend_match_ok (length src) c3 (HistoryBuffer c) hp i (mp - 1) 3)
      as (len & Er & Hl3 & Hend & Hm); try done; try lia; [unfold zlen; lia|].
    replace (mp + 2) with (mp - 1 + 3) by lia. replace (hp + 1 + 2) with (hp + 3) by lia.
    rewrite (bind_ret_eq _ _ _ _ _ Er), get_bind. set (c4 := set_HistoryBuffer _ c3).
    assert (Hok4 : enc_ok c4).
    { destruct Hok'. constructor; try done. cbn. rewrite zlen_blit; rewrite ?zlen_slice; lia. }
    destruct (no_room 7 D c4) eqn:Eroom; [exists None, c4; by destruct Hok4|].
    change (CompressionLevel c4) with (CompressionLevel c'). rewrite Hlev, Hsz.
    replace (hp + 1 - mp) with (hp - (mp - 1)) by lia.
    destruct (copy_turn w c c4 hp i (mp - 1) len) as (c5 & E5 & T); try done; try lia.
    rewrite E5. exists (Some (hp + len, i + len)), c5. split; [done|].
    pose proof T as (_ & _ & [] & _). done.
Qed.

(** ** Whole packets *)

(** The compressor has dealt with the first [i] bytes of the source: they are in the
    history from [hp0] on, and the bits [w] lead the decompressor there. *)
Definition progress (hp0 : Z) (H0 : list Z) (w : list bool) (c : MPPC_CONTEXT) (hp i : Z) : Prop :=
  0 <= i <= zlen src /\ hp = hp0 + i /\ enc_ok c /\
  HistoryBuffer c = blit hp0 (ztake i src) H0 /\ writes_at D w (bs c) /\
  forall b, bytes b -> zlen b < 2 ^ 28 -> agrees b w ->
    rtc (sym_step level size b) (0, H0, hp0) (zlen w, HistoryBuffer c, hp).

Lemma agrees_prefix b w w' : agrees b (w ++ w') -> agrees b w.
Proof.
  intros Hb i Hi. pose proof (zlen_nonneg w'). rewrite Hb by (rewrite zlen_app; lia).
  apply bit_in_app_l. lia.
Qed.

Lemma progress_turn hp0 H0 w c hp i c' hp' i' :
  0 <= hp0 -> zlen H0 = 65536 -> hp0 + zlen src <= size - 4 ->
  progress hp0 H0 w c hp i -> turn_ok w c hp i c' hp' i' ->
  exists w', progress hp0 H0 w' c' hp' i'.
Proof.
  intros H1 H2 H3 (Hi & -> & Hok & Hh & Hw & Hrun) (Hi' & Hd & Hok' & Hh' & w' & Hw' & Hstep).
  pose proof size_range. exists (w ++ w'). split_and!; try done; try lia.
  - rewrite Hh', Hh. rewrite <- (zlen_ztake i src) at 1 by lia.
    rewrite blit_blit by (rewrite ?zlen_slice, ?zlen_ztake; lia).
    f_equal. rewrite ztake_slice by lia. f_equal. lia.
  - intros b Hb Hl Hag. eapply rtc_r; [|by apply Hstep].
    apply Hrun; try done. by apply agrees_prefix in Hag.
Qed.

Section Loops.
Context (hp0 : Z) (H0 : list Z).
Context (Hhp0 : 0 <= hp0) (HH0 : zlen H0 = 65536) (Hfit0 : hp0 + zlen src <= size - 4).

Lemma compress_loop_ok fuel w c hp i :
  progress hp0 H0 w c hp i -> zlen src - 3 - i <= Z.of_nat fuel ->
  exists r c', compress_loop outside fuel src D hp i c = Ret r c' /\
    CompressionLevel c' = level /\ HistoryBufferSize c' = size /\
    match r with
    | None => True
    | Some (hp', i') => exists w', progress hp0 H0 w' c' hp' i'
    end.
Proof.
  revert w c hp i. induction fuel as [|fuel IH]; intros w c hp i Hp Hf.
  - exists (Some (hp, i)), c. cbn [compress_loop]. zcase; [lia|].
    pose proof Hp as (_ & _ & [] & _). split_and!; try done. by exists w.
  - cbn [compress_loop]. zcase.
    + pose proof Hp as (Hi & Ehp & Hok & Hh & Hw & _).
      destruct (compress_symbol_ok w c hp i Hok Hw) as (r & c' & E & Hl & Hs & Hr); [lia..|].
      rewrite (bind_ret_eq _ _ _ _ _ E). destruct r as [[hp' i']|]; [|by exists None, c'].
      destruct (progress_turn hp0 H0 w c hp i c' hp' i') as (w' & Hp'); try done.
      apply (IH w' c' hp' i'); [done|]. destruct Hr. lia.
    + exists (Some (hp, i)), c. pose proof Hp as (_ & _ & [] & _). split_and!; try done. by exists w.
Qed.

Lemma compress_tail_ok fuel w c hp i :
  progress hp0 H0 w c hp i -> zlen src - i <= Z.of_nat fuel ->
  exists r c', compress_tail fuel src D hp i c = Ret r c' /\
    CompressionLevel c' = level /\ HistoryBufferSize c' = size /\
    match r with
    | None => True
    | Some hp' => exists w', progress hp0 H0 w' c' hp' (zlen src)
    end.
Proof.
  revert w c hp i. induction fuel as [|fuel IH]; intros w c hp i Hp Hf;
    pose proof Hp as (Hi & Ehp & Hok & Hh & Hw & _); cbn [compress_tail].
  - exists (Some hp), c. zcase; [lia|]. pose proof Hok as []. split_and!; try done.
    exists w. by replace (zlen src) with i by lia.
  - zcase.
    2: { exists (Some hp), c. pose proof Hok as []. split_and!; try done.
         exists w. by replace (zlen src) with i by lia. }
    rewrite get_bind. destruct (no_room 2 D c) eqn:Er; [exists None, c; by destruct Hok|].
    pose proof size_range. unfold put_code. rewrite modify_bind.
    rewrite (bind_ret_eq _ _ _ _ _ (hist_put_ok hp _ _ ltac:(lia))).
    set (c1 := set_HistoryBuffer (<[Z.to_nat hp := byte_at src i]> (HistoryBuffer c)) c).
    assert (Hh1 : HistoryBuffer c1 = blit hp (slice i 1 src) (HistoryBuffer c))
      by (cbn; apply insert_first; destruct Hok; lia).
    assert (Hok1 : enc_ok c1).
    { destruct Hok. constructor; try done. cbn. by rewrite zlen_insert. }
    destruct (progress_turn hp0 H0 w c hp i _ _ _ Hhp0 HH0 Hfit0 Hp
      (literal_turn w c c1 hp i Hok1 eq_refl Hw Er ltac:(lia) ltac:(lia)
         ltac:(destruct Hok; done) Hh1)) as (w' & Hp').
    apply (IH w' _ (hp + 1) (i + 1) Hp'). lia.
Qed.
End Loops.
End Correctness.

Definition history_size (level : Z) : Z := if level =? 0 then 8192 else 65536.

(** The two ends agree: same level, same history; the receiver writes where the sender
    does, unless the next packet goes to the front anyway. *)
Record synced (level : Z) (c d : MPPC_CONTEXT) : Prop := mk_synced {
  sy_known : level = 0 \/ level = 1;
  sy_c_level : CompressionLevel c = level;
  sy_d_level : CompressionLevel d = level;
  sy_c_size : HistoryBufferSize c = history_size level;
  sy_d_size : HistoryBufferSize d = history_size level;
  sy_history : HistoryBuffer d = HistoryBuffer c;
  sy_length : zlen (HistoryBuffer c) = 65536;
  sy_rest : zdrop (history_size level) (HistoryBuffer c) = zrepeat (65536 - history_size level) 0;
  sy_matches : Forall (fun m => 0 <= m <= history_size level - 4) (MatchBuffer c);
  sy_ptr : 0 <= HistoryPtr c <= history_size level - 4;
  sy_offset : HistoryOffset c = 0 \/
    (0 < HistoryOffset c <= history_size level - 4 /\ HistoryPtr d = HistoryOffset c) \/
    (HistoryOffset c = history_size level + 1 /\ HistoryBuffer c = zrepeat 65536 0)
}.

Lemma zlen_zeros : zlen (zrepeat 65536 0) = 65536.
Proof. by apply zlen_zrepeat. Qed.

Lemma zdrop_zeros n : 0 <= n <= 65536 -> zdrop n (zrepeat 65536 0) = zrepeat (65536 - n) 0.
Proof. intros. unfold zdrop, zrepeat. rewrite drop_replicate. f_equal. lia. Qed.

Lemma zeros_again n H :
  0 <= n <= 65536 -> zlen H = 65536 -> zdrop n H = zrepeat (65536 - n) 0 ->
  blit 0 (zrepeat n 0) H = zrepeat 65536 0.
Proof.
  intros Hn HH Hd. unfold blit. rewrite ztake_0, zlen_zrepeat, Z.add_0_l, Hd by lia. simpl.
  unfold zrepeat. rewrite <- replicate_add. f_equal. lia.
Qed.

Lemma history_size_range level : 8192 <= history_size level <= 65536.
Proof. unfold history_size. destruct (level =? 0); lia. Qed.

(** the flags of a compressed packet, read back *)
Lemma packet_flags level (front flushed : bool) :
  level = 0 \/ level = 1 ->
  let flags := Z.lor (Z.lor (Z.lor PACKET_COMPRESSED level) (if front then PACKET_AT_FRONT else 0))
                 (if flushed then PACKET_FLUSHED else 0) in
  has_flag flags PACKET_COMPRESSED = true /\ has_flag flags PACKET_AT_FRONT = front /\
  has_flag flags PACKET_FLUSHED = flushed.
Proof. intros [-> | ->]; destruct front, flushed; vm_compute; done. Qed.

Lemma raw_flags level :
  level = 0 \/ level = 1 ->
  let flags := Z.lor PACKET_FLUSHED level in
  has_flag flags PACKET_COMPRESSED = false /\ has_flag flags PACKET_AT_FRONT = false /\
  has_flag flags PACKET_FLUSHED = true.
Proof. intros [-> | ->]; vm_compute; done. Qed.

Section Packets.
Context (outside outside' : Z -> Z) (level : Z).
Implicit Types (c d : MPPC_CONTEXT) (src dst : list Z).

(** A packet that is sent as it is resets both ends. *)
Lemma send_raw_ok src c d :
  CompressionLevel c = level -> HistoryBufferSize c = history_size level ->
  CompressionLevel d = level -> HistoryBufferSize d = history_size level ->
  level = 0 \/ level = 1 -> zlen (HistoryBuffer d) = 65536 ->
  zdrop (history_size level) (HistoryBuffer d) = zrepeat (65536 - history_size level) 0 ->
  exists c' d', send_raw src c = Ret (1, src, Z.lor PACKET_FLUSHED level) c' /\
    mppc_decompress outside' src (Z.lor PACKET_FLUSHED level) d = Ret (1, src) d' /\ synced level c' d'.
Proof.
  intros Hcl Hcs Hdl Hds Hlev Hlen Hrest. pose proof (history_size_range level).
  destruct (raw_flags level Hlev) as (F1 & F2 & F3).
  exists (mppc_context_reset true c). eexists. split_and!.
  - unfold send_raw. rewrite get_bind, modify_bind, Hcl. done.
  - unfold mppc_decompress. rewrite modify_bind, F1, F2, F3. rewrite ret_bind, modify_bind. reflexivity.
  - constructor; try done; cbn.
    + rewrite Hds. apply zeros_again; done || lia.
    + apply zdrop_zeros. lia.
    + apply Forall_zrepeat. lia.
    + lia.
    + right. right. rewrite Hcs. split; [|done]. unfold u32. rewrite Z.mod_small; lia.
Qed.

(** The decompressor on the bits of a whole packet. *)
Lemma decompress_packet src D w st hp0 H0 H' d (front flushed : bool) :
  bytes src -> writes_at D w st -> D < 2 ^ 28 -> 0 <= hp0 -> level = 0 \/ level = 1 ->
  zlen H0 = 65536 -> hp0 + zlen src <= 65536 -> H' = blit hp0 src H0 ->
  (forall b, bytes b -> zlen b < 2 ^ 28 -> agrees b w ->
     rtc (sym_step outside' level (history_size level) b) (0, H0, hp0) (zlen w, H', hp0 + zlen src)) ->
  CompressionLevel d = level -> HistoryBufferSize d = history_size level ->
  (if flushed then blit 0 (zrepeat (HistoryBufferSize d) 0) (HistoryBuffer d) else HistoryBuffer d) = H0 ->
  (if front || flushed then 0 else HistoryPtr d) = hp0 ->
  let flags := Z.lor (Z.lor (Z.lor PACKET_COMPRESSED level) (if front then PACKET_AT_FRONT else 0))
                 (if flushed then PACKET_FLUSHED else 0) in
  exists d', mppc_decompress outside' (written_bytes st) flags d = Ret (1, src) d' /\
    HistoryPtr d' = hp0 + zlen src /\ HistoryBuffer d' = H' /\
    CompressionLevel d' = level /\ HistoryBufferSize d' = history_size level.
Proof.
  intros Hsrc Hw HD Hhp Hlev HH Hfit EH' Hrun Hdl Hds Hflush Hfront flags.
  destruct (packet_flags level front flushed Hlev) as (F1 & F2 & F3). fold flags in F1, F2, F3.
  pose proof (written_bytes_range _ _ _ Hw) as Hb. pose proof (written_bytes_len _ _ _ Hw) as Hl.
  set (out := written_bytes st) in *. pose proof (zlen_nonneg w). pose proof (zlen_nonneg src).
  assert (Hbits : zlen w <= 8 * D) by (destruct Hw; done).
  assert (Hlb : zlen out < 2 ^ 28) by (rewrite Hl; Z.div_mod_to_equations; lia).
  assert (Hag : agrees out w) by (intros i Hi; apply (written_bits D); [done|lia]).
  pose proof (Hrun out Hb Hlb Hag) as Hsteps.
  set (st0 := BitStream_Fetch (BitStream_Attach out (zlen out) (bs d))).
  set (o := if front || flushed then 0 else HistoryOffset d).
  set (d0 := set_HistoryOffset o (set_HistoryPtr hp0 d)).
  assert (Eflags : mppc_decompress outside' out flags d =
    (c ← get; r ← decompress_loop outside' decompress_fuel (HistoryPtr c);
     match r with
     | inl status => mret (status, [])
     | inr hp =>
         c' ← get; modify (set_HistoryPtr hp);;
         mret (1, slice (HistoryPtr c') (hp - HistoryPtr c') (HistoryBuffer c'))
     end) (at_point d0 st0 H0)).
  { unfold mppc_decompress. rewrite modify_bind, F1, F2, F3.
    subst d0 o. rewrite <- Hflush, <- Hfront. destruct front, flushed; done. }
  rewrite Eflags, get_bind. clear Eflags.
  destruct (decompress_loop_steps outside outside' level (history_size level) out _ _ Hsteps d0 st0 decompress_fuel)
    as (st' & Eloop); cbn [fst snd]; try done; try lia.
  { apply Attach_Fetch_reads; [done|lia]. }
  { rewrite Hl. Z.div_mod_to_equations. lia. }
  { unfold decompress_fuel. lia. }
  cbn [fst snd] in Eloop. change (HistoryPtr (at_point d0 st0 H0)) with hp0.
  rewrite (bind_ret_eq _ _ _ _ _ Eloop), get_bind, modify_bind. eexists. split.
  - unfold mret, M_ret. cbn. do 2 f_equal. replace (hp0 + zlen src - hp0) with (zlen src) by lia.
    rewrite EH'. unfold slice. rewrite zdrop_blit_before by lia.
    rewrite Z.sub_diag. apply (blit_ztake 0); [lia|]. rewrite zlen_zdrop; lia.
  - done.
Qed.

(** The flags of a packet: a byte with the level in its lower half, the upper one not empty. *)
Definition flags_ok (level flags : Z) : Prop :=
  0 < flags < 256 /\ Z.land flags 0x0F = level /\ Z.land flags 0xE0 <> 0.

(** a compressed packet that arrives as it was sent, is never longer on the way, and leaves
    both ends in agreement *)
Definition delivers (src : list Z) (d : MPPC_CONTEXT) (r : outcome MPPC_CONTEXT (Z * list Z * Z)) : Prop :=
  exists data flags c' d', r = Ret (1, data, flags) c' /\
    mppc_decompress outside' data flags d = Ret (1, src) d' /\ synced level c' d' /\
    zlen data <= zlen src /\ bytes data /\ flags_ok level flags.

Lemma raw_delivers src c d c' :
  bytes src -> synced level c d -> CompressionLevel c' = level -> HistoryBufferSize c' = history_size level ->
  delivers src d (send_raw src c').
Proof.
  intros Hb [Hlev _ Hdl _ Hds Hh HH Hrest _ _ _] El Es.
  destruct (send_raw_ok src c' d El Es Hdl Hds Hlev) as (c'' & d' & E1 & E2 & Hs);
    [by rewrite Hh|by rewrite Hh|]. exists src, (Z.lor PACKET_FLUSHED level), c'', d'.
  split_and!; try done; try lia; by destruct Hlev as [-> | ->].
Qed.

(** where a packet starts: behind the last one if it fits, else at the front *)
Lemma packet_start src c d :
  synced level c d -> 0 < zlen src <= history_size level - 4 ->
  let fits := (u32 (HistoryOffset c + zlen src) <? u32 (history_size level - 3)) &&
              negb (HistoryOffset c =? 0) in
  let flushed := negb fits && (HistoryOffset c =? u32 (history_size level + 1)) in
  let hp0 := if fits then HistoryOffset c else 0 in
  0 <= hp0 /\ hp0 + zlen src <= history_size level - 4 /\
  (fits = true -> HistoryPtr d = hp0) /\ (flushed = true -> HistoryBuffer c = zrepeat 65536 0).
Proof.
  intros [_ _ _ _ _ _ _ _ _ _ Ho] Hlen. pose proof (history_size_range level) as Hsz.
  set (size := history_size level) in *. unfold u32. rewrite !Z.mod_small by lia.
  destruct (Z.ltb_spec (HistoryOffset c + zlen src) (size - 3)), (Z.eqb_spec (HistoryOffset c) 0);
    simpl; (split_and!; [lia|lia|intros; done || lia|intros; destruct Ho as [|[|[]]]; done || lia]).
Qed.

(** One packet. *)
Lemma packet_ok src dst c d :
  synced level c d -> bytes src -> 0 < zlen src <= history_size level - 4 -> 0 < zlen dst ->
  delivers src d (mppc_compress outside src dst c).
Proof.
  intros Hsync Hsrc Hlen Hdst. pose proof (packet_start src c d Hsync Hlen) as Hhp0.
  pose proof (history_size_range level) as Hsz. pose proof Hsync as [Hlev Hcl Hdl Hcs Hds Hh HH Hrest Hm Hp Ho].
  unfold mppc_compress. rewrite get_bind. rewrite Hcs.
  set (size := history_size level) in *. set (H0 := HistoryBuffer c) in *.
  set (fits := _ && _). set (flushed := negb fits && _).
  set (hp0 := if fits then HistoryOffset c else 0).
  set (D := if zlen src <? zlen dst then zlen src else zlen dst).
  assert (HD : 0 < D <= zlen src /\ D <= zlen dst) by (subst D; zcase; lia).
  change (0 <= hp0 /\ hp0 + zlen src <= size - 4 /\ (fits = true -> HistoryPtr d = hp0) /\
    (flushed = true -> H0 = zrepeat 65536 0)) in Hhp0.
  destruct Hhp0 as (Hhp0 & Hfit & Hptr & Hflush).
  rewrite modify_bind. destruct (Z.eqb_spec (zlen src) 0); [lia|]. rewrite ret_bind.
  set (c1 := set_bs (BitStream_Attach dst D (bs c)) c).
  assert (Hok1 : enc_ok level size c1) by (constructor; done).
  assert (Hprog : progress outside' level size src D hp0 H0 [] c1 hp0 0).
  { split_and!; try done; try lia.
    - by rewrite ztake_0, blit_nil by lia.
    - apply Attach_writes. lia. }
  destruct (compress_loop_ok outside outside' level size src D eq_refl Hsrc ltac:(lia) ltac:(lia)
    hp0 H0 Hhp0 HH Hfit (length src) [] c1 hp0 0 Hprog ltac:(unfold zlen; lia))
    as (r & c2 & E2 & L2 & S2 & Hr2).
  rewrite (bind_ret_eq _ _ _ _ _ E2). destruct r as [[hp1 i1]|]; [|by apply (raw_delivers src c)].
  destruct Hr2 as (w2 & P2).
  destruct (compress_tail_ok outside outside' level size src D eq_refl Hsrc ltac:(lia) ltac:(lia)
    hp0 H0 Hhp0 HH Hfit (length src) w2 c2 hp1 i1 P2 ltac:(destruct P2; unfold zlen in *; lia))
    as (r & c3 & E3 & L3 & S3 & Hr3).
  rewrite (bind_ret_eq _ _ _ _ _ E3). destruct r as [hp|]; [|by apply (raw_delivers src c)].
  destruct Hr3 as (w & _ & -> & Hok3 & Hh3 & Hw3 & Hrun). rewrite ztake_all in Hh3 by lia.
  rewrite modify_bind, get_bind, modify_bind. cbn [set_bs bs CompressionLevel].
  destruct (Flush_frame (bs c3)) as [Epos _].
  pose proof Hw3 as [_ _ _ _ _ Hpos Hbits _ _]. pose proof (zlen_nonneg w).
  replace (u32 (position (BitStream_Flush (bs c3)) + 7)) with (position (bs c3) + 7)
    by (rewrite Epos, Hpos; unfold u32; rewrite Z.mod_small; lia).
  fold (written_bytes (bs c3)). rewrite L3.
  destruct (decompress_packet src D w (bs c3) hp0 H0 (HistoryBuffer c3) d
    (negb fits) flushed) as (d' & Ed & Pd & Hd' & Ld & Sd); try done; try lia.
  { destruct flushed; [|done]. rewrite Hds, Hh, Hflush by done. apply zeros_again; [lia|apply zlen_zeros|].
    apply zdrop_zeros. lia. }
  { destruct fits; simpl; [apply Hptr; done|done]. }
  eexists _, _, _, d'. split; [reflexivity|]. split; [exact Ed|].
  pose proof Hok3 as [? ? ? ? ?]. split.
  - constructor; cbn; try done; try lia.
    + rewrite Hh3. rewrite zdrop_blit_after by lia. done.
    + right. left. unfold u32. rewrite Z.mod_small by lia. rewrite Pd. lia.
  - split; [rewrite (written_bytes_len _ _ _ Hw3); Z.div_mod_to_equations; lia|].
    split; [by apply (written_bytes_range _ _ _ Hw3)|].
    by destruct Hlev as [-> | ->], fits, flushed.
Qed.

(** *** Sequences of packets *)

(** The packets [ps] sent from [c] to [d] through output buffers of [room] bytes, and what
    arrives; none when one end fails. *)
Fixpoint session (room : Z) (ps : list (list Z)) (c d : MPPC_CONTEXT) : option (list (list Z)) :=
  match ps with
  | [] => Some []
  | p :: ps' =>
      match mppc_compress outside p (zrepeat room 0) c with
      | Ret (1, data, flags) c' =>
          match mppc_decompress outside' data flags d with
          | Ret (1, out) d' => option_map (cons out) (session room ps' c' d')
          | _ => None
          end
      | _ => None
      end
  end.

(** C1: Whatever packets are compressed, one after the other, the decompressor at the other
    end recovers them all, for both levels: also when a packet does not compress, is sent
    as it is and flushes the histories, when the history is full and starts over at the
    front, and when a match overlaps the bytes it produces.  The packets are not empty
    and shorter than the history by four bytes; what memory next to the history contains does not
    matter. *)
Theorem mppc_session_roundtrip room ps c d :
  synced level c d -> 0 < room ->
  Forall (fun p => bytes p /\ 0 < zlen p <= history_size level - 4) ps ->
  session room ps c d = Some ps.
Proof.
  intros Hs Hr Hps. revert c d Hs. induction Hps as [|p ps [Hb Hp] Hps IH]; intros c d Hs; [done|].
  destruct (packet_ok p (zrepeat room 0) c d Hs Hb Hp) as (data & flags & c' & d' & E1 & E2 & Hs' & _);
    [rewrite zlen_zrepeat; lia|].
  cbn [session]. rewrite E1, E2, (IH c' d' Hs'). done.
Qed.
End Packets.

(** Two fresh contexts agree. *)
Lemma new_synced level c d :
  level = 0 \/ level = 1 -> mppc_context_new true level true = Some c ->
  mppc_context_new true level false = Some d -> synced level c d.
Proof.
  intros Hlev [= <-] [= <-]. unfold mppc_set_compression_level.
  destruct Hlev as [-> | ->]; cbn [Z.ltb Z.compare Pos.compare]; constructor;
    cbn; try done; try lia; auto; apply Forall_zrepeat; cbn; lia.
Qed.

(** Three packets: one with matches, one that does not compress, one after the flush. *)
Definition packets3 : list (list Z) :=
  [[1; 2; 3; 4; 1; 2; 3; 4; 1; 2; 3; 4; 200; 201; 202; 200; 201; 202; 200]; [255; 254; 253; 252; 251];
   [7; 7; 7; 7; 7; 7; 7; 7; 7; 7; 7; 7; 7; 7; 7]].

Lemma mppc_session_roundtrip_witness :
  exists c d, mppc_context_new true 1 true = Some c /\ mppc_context_new true 1 false = Some d /\
    session (fun _ => 255) (fun _ => 17) 64 packets3 c d = Some packets3.
Proof.
  eexists _, _. split; [reflexivity|]. split; [reflexivity|].
  apply (mppc_session_roundtrip (fun _ => 255) (fun _ => 17) 1).
  - apply new_synced; [by right|reflexivity|reflexivity].
  - lia.
  - repeat (apply Forall_cons_2; [split; [by apply bytes_check|by vm_compute]|]). constructor.
Defined.

(** ** The decompressor on arbitrary packets *)

(** A context the decompressor accepts. *)
Record recv_ok (c : MPPC_CONTEXT) : Prop := mk_recv_ok {
  recv_size : HistoryBufferSize c = history_size (CompressionLevel c);
  recv_history : zlen (HistoryBuffer c) = 65536;
  recv_ptr : 0 <= HistoryPtr c <= 65536
}.

Definition mppc_status (s : Z) : Prop := s = 1 \/ -1005 <= s <= -1001.

Section Arbitrary.
Context (outside : Z -> Z).
Implicit Types (c : MPPC_CONTEXT).

Lemma decode_length_min level acc len n : decode_length level acc = Some (len, n) -> 3 <= len.
Proof.
  unfold decode_length. intros Hd.
  repeat match type of Hd with
  | (if ?b then _ else _) = _ => destruct b
  end; try discriminate Hd; injection Hd as <- _; [lia|..];
  match goal with |- _ <= Z.land ?x ?m + _ =>
    assert (0 <= Z.land x m) by (apply Z.land_nonneg; right; lia); lia end.
Qed.

(** what the loop does not touch *)
Definition same_frame c c' : Prop :=
  CompressionLevel c' = CompressionLevel c /\ HistoryBufferSize c' = HistoryBufferSize c /\
  HistoryPtr c' = HistoryPtr c /\ zlen (HistoryBuffer c') = zlen (HistoryBuffer c).

Lemma same_frame_trans c1 c2 c3 : same_frame c1 c2 -> same_frame c2 c3 -> same_frame c1 c3.
Proof. unfold same_frame. intros (?&?&?&?) (?&?&?&?). split_and!; congruence. Qed.

Lemma copied_len n H dst src : zlen (copied outside n H dst src) = zlen H.
Proof.
  revert H dst src. induction n as [|n IH]; intros; [done|]. simpl. by rewrite IH, zlen_insert.
Qed.

(** One turn from a position inside the buffer ends with a status or moves up inside it. *)
Lemma decompress_symbol_total hp c :
  recv_ok c -> 0 <= hp ->
  exists r c', decompress_symbol outside hp c = Ret r c' /\ same_frame c c' /\
    match r with
    | inl s => mppc_status s
    | inr hp' => hp < hp' <= HistoryBufferSize c
    end.
Proof.
  intros [Hs Hh Hp] Hhp. pose proof (history_size_range (CompressionLevel c)).
  unfold decompress_symbol. rewrite get_bind. zcase.
  { exists (inl (-1004)), c. split_and!; try done. right. lia. }
  destruct (decode_literal _) as [[lit n]|].
  { rewrite (bind_ret_eq _ _ _ _ _ (hist_put_ok hp _ c ltac:(lia))). unfold shift. rewrite modify_bind.
    eexists (inr (hp + 1)), _. split; [reflexivity|]. split; [|lia].
    unfold same_frame. cbn. by rewrite zlen_insert. }
  unfold decompress_copy. rewrite get_bind. destruct (decode_copy_offset _ _) as [[off n]|].
  2: { eexists (inl _), c. split; [reflexivity|]. split; [done|]. right. destruct (negb _); lia. }
  unfold shift. rewrite modify_bind, get_bind. destruct (decode_length _ _) as [[len m]|] eqn:El.
  2: { eexists (inl (-1003)), _. split; [reflexivity|]. split; [done|]. right. lia. }
  apply decode_length_min in El. rewrite modify_bind. zcase.
  { eexists (inl (-1005)), _. split; [reflexivity|]. split; [done|]. right. lia. }
  set (c1 := set_bs _ _).
  pose proof (copy_match_copied outside (Z.to_nat len) hp
    (Z.land (hp - off) (if negb (CompressionLevel c =? 0) then 0xFFFF else 0x1FFF))
    c1 (bs c1) (HistoryBuffer c1) Hhp ltac:(lia)) as Ecopy.
  change (at_point c1 (bs c1) (HistoryBuffer c1)) with c1 in Ecopy.
  rewrite (bind_ret_eq _ _ _ _ _ Ecopy). eexists (inr _), _. split; [reflexivity|].
  split; [|lia]. unfold same_frame. cbn [at_point set_bs set_HistoryBuffer HistoryBuffer
    CompressionLevel HistoryBufferSize HistoryPtr]. by rewrite copied_len.
Qed.

Lemma decompress_loop_total fuel hp c :
  recv_ok c -> 0 <= hp -> 65537 - hp <= Z.of_nat fuel -> hp <= 65536 ->
  exists r c', decompress_loop outside fuel hp c = Ret r c' /\ same_frame c c' /\
    match r with
    | inl s => mppc_status s
    | inr hp' => hp <= hp' <= Z.max hp (HistoryBufferSize c)
    end.
Proof.
  revert hp c. induction fuel as [|fuel IH]; intros hp c Hok Hhp Hf Hle; [lia|].
  cbn [decompress_loop]. rewrite get_bind. zcase; [|exists (inr hp), c; split_and!; done || lia].
  destruct (decompress_symbol_total hp c Hok Hhp) as (r & c1 & E & F1 & Hr).
  rewrite (bind_ret_eq _ _ _ _ _ E). destruct r as [s|hp1]; [by exists (inl s), c1|].
  pose proof F1 as (El & Es & Ep & Eh). pose proof Hok as [Hs Hh Hp].
  pose proof (history_size_range (CompressionLevel c)).
  destruct (IH hp1 c1) as (r & c2 & E2 & F2 & Hr2); [constructor; congruence || lia|lia..|].
  exists r, c2. split; [done|]. split; [by apply (same_frame_trans c c1)|].
  destruct r; [done|]. lia.
Qed.

(** C32: The decompressor survives any packet: for every list of bytes and every flags it
    comes back with 1 or one of its five error codes, never writes outside the history
    buffer, and leaves a context fit for the next packet; the loop ends although a code cut
    off by the end of the packet makes the count of remaining bits wrap around. *)
Theorem mppc_decompress_total src flags c :
  recv_ok c ->
  exists status data c', mppc_decompress outside src flags c = Ret (status, data) c' /\
    mppc_status status /\ recv_ok c' /\
    (has_flag flags PACKET_COMPRESSED = true -> zlen data <= HistoryBufferSize c).
Proof.
  intros [Hs Hh Hp]. pose proof (history_size_range (CompressionLevel c)).
  unfold mppc_decompress. rewrite modify_bind.
  set (c1 := set_bs _ c).
  assert (Hrun : forall m, recv_ok m -> HistoryBufferSize m = HistoryBufferSize c ->
    exists status data c',
    (if negb (has_flag flags PACKET_COMPRESSED) then mret (1, src)
     else
       c ← get; r ← decompress_loop outside decompress_fuel (HistoryPtr c);
       match r with
       | inl status => mret (status, [])
       | inr hp =>
           c' ← get; modify (set_HistoryPtr hp);;
           mret (1, slice (HistoryPtr c') (hp - HistoryPtr c') (HistoryBuffer c'))
       end) m = Ret (status, data) c' /\ mppc_status status /\ recv_ok c' /\
    (has_flag flags PACKET_COMPRESSED = true -> zlen data <= HistoryBufferSize c)).
  { intros m Hm Em. destruct (has_flag flags PACKET_COMPRESSED); cbn [negb].
    2: { exists 1, src, m. split_and!; try done. by left. }
    rewrite get_bind. pose proof Hm as [Ms Mh Mp].
    destruct (decompress_loop_total decompress_fuel (HistoryPtr m) m Hm) as (r & c' & E & (El & Es & Ep & Eh) & Hr);
      [lia|unfold decompress_fuel; lia|lia|].
    rewrite (bind_ret_eq _ _ _ _ _ E). destruct r as [s|hp].
    - exists s, [], c'. split_and!; try done; [constructor; congruence || lia|]. intros _. rewrite zlen_nil. lia.
    - rewrite get_bind, modify_bind. eexists 1, _, _. split; [reflexivity|]. split_and!; [by left| |].
      + constructor; cbn; congruence || lia.
      + intros _. destruct (Z.le_gt_cases hp (HistoryBufferSize c)).
        * rewrite zlen_slice; lia.
        * replace (hp - HistoryPtr c') with 0 by lia. rewrite slice_zero, zlen_nil. lia. }
  destruct (has_flag flags PACKET_AT_FRONT), (has_flag flags PACKET_FLUSHED);
    rewrite ?ret_bind, ?modify_bind, ?ret_bind, ?modify_bind; apply Hrun; try done;
    constructor; subst c1; cbn [set_bs set_HistoryPtr set_HistoryOffset set_HistoryBuffer HistoryBuffer
      HistoryPtr HistoryBufferSize CompressionLevel]; try done; try lia;
    rewrite zlen_blit; rewrite ?zlen_zrepeat; lia.
Qed.

(** The source of a copy is not checked.  A packet of two bytes with a copy of three
    bytes from one before the front of a 64 KB history reads the last byte of the history
    and the two bytes that follow the buffer in memory, and delivers them. *)
Theorem mppc_decompress_reads_outside c :
  mppc_context_new true 1 false = Some c ->
  exists c', mppc_decompress outside [0xF8; 0x20] (Z.lor PACKET_COMPRESSED PACKET_AT_FRONT) c =
    Ret (1, [0; outside 65536; outside 65537]) c'.
Proof.
  intros [= <-]. set (o := mppc_decompress _ _ _ _).
  assert (E : match o with Ret a _ => Some a | _ => None end = Some (1, [0; outside 65536; outside 65537]))
    by (vm_compute; reflexivity).
  clearbody o. destruct o as [a c'|c'|f]; [|discriminate E..]. exists c'. congruence.
Qed.
End Arbitrary.

(** a fresh receiver of level 1 *)
Definition receiver : MPPC_CONTEXT :=
  mppc_context_reset false (mppc_set_compression_level 1
    (mkMppc BitStream_New false 0 0 0 (zrepeat 65536 0) (zrepeat 32768 0) 0)).

Lemma receiver_new : mppc_context_new true 1 false = Some receiver.
Proof. reflexivity. Qed.

Lemma receiver_ok : recv_ok receiver.
Proof. constructor; [reflexivity|apply zlen_zeros|cbn; lia]. Qed.

Lemma mppc_decompress_total_witness :
  exists status data c',
    mppc_decompress (fun _ => 0) [0xFF; 0xFF; 0x80] PACKET_COMPRESSED receiver = Ret (status, data) c' /\
    mppc_status status /\ recv_ok c' /\
    (has_flag PACKET_COMPRESSED PACKET_COMPRESSED = true -> zlen data <= HistoryBufferSize receiver).
Proof. exact (mppc_decompress_total (fun _ => 0) _ _ _ receiver_ok). Defined.

Lemma mppc_decompress_reads_outside_witness :
  exists c', mppc_decompress (fun i => i mod 7) [0xF8; 0x20]
      (Z.lor PACKET_COMPRESSED PACKET_AT_FRONT) receiver =
    Ret (1, [0; 65536 mod 7; 65537 mod 7]) c'.
Proof. exact (mppc_decompress_reads_outside (fun i => i mod 7) receiver receiver_new). Defined.
