(* ===== verification/Base64.v ===== *)
(** * Base64

    Model of [libfreerdp/crypto/base64.c]: the encoder with its padding and its line
    breaks, the decoder, and the two alphabets.  A block from [malloc] is the state of the
    computation that fills it, a list of bytes; a store outside of it is undefined, and so
    is a read outside of the caller's data or of a table. *)

From Stdlib Require Import Ascii String.
From S2P Require Import Prelude Stream.
#[local] Open Scope list_scope.
#[local] Open Scope Z_scope.

(** the characters of a C string literal, without the terminator *)
Definition chars (s : string) : list Z :=
  map (fun a => Z.of_nat (nat_of_ascii a)) (list_ascii_of_string s).

Definition enc_base64 : list Z :=
  chars "ABCDEFGHIJKLMNOPQRSTUVWXYZabcdefghijklmnopqrstuvwxyz0123456789+/" ++ [0].
Definition enc_base64url : list Z :=
  chars "ABCDEFGHIJKLMNOPQRSTUVWXYZabcdefghijklmnopqrstuvwxyz0123456789-_" ++ [0].

Definition dec_base64url : list Z :=
  [-1; -1; -1; -1; -1; -1; -1; -1; -1; -1; -1; -1; -1; -1; -1; -1;
   -1; -1; -1; -1; -1; -1; -1; -1; -1; -1; -1; -1; -1; -1; -1; -1;
   -1; -1; -1; -1; -1; -1; -1; -1; -1; -1; -1; -1; -1; 62; -1; -1;
   52; 53; 54; 55; 56; 57; 58; 59; 60; 61; -1; -1; -1; -1; -1; -1;
   -1; 0; 1; 2; 3; 4; 5; 6; 7; 8; 9; 10; 11; 12; 13; 14;
   15; 16; 17; 18; 19; 20; 21; 22; 23; 24; 25; -1; -1; -1; -1; 63;
   -1; 26; 27; 28; 29; 30; 31; 32; 33; 34; 35; 36; 37; 38; 39; 40;
   41; 42; 43; 44; 45; 46; 47; 48; 49; 50; 51; -1; -1; -1; -1; -1].

Definition dec_base64 : list Z :=
  [-1; -1; -1; -1; -1; -1; -1; -1; -1; -1; -1; -1; -1; -1; -1; -1;
   -1; -1; -1; -1; -1; -1; -1; -1; -1; -1; -1; -1; -1; -1; -1; -1;
   -1; -1; -1; -1; -1; -1; -1; -1; -1; -1; -1; 62; -1; -1; -1; 63;
   52; 53; 54; 55; 56; 57; 58; 59; 60; 61; -1; -1; -1; -1; -1; -1;
   -1; 0; 1; 2; 3; 4; 5; 6; 7; 8; 9; 10; 11; 12; 13; 14;
   15; 16; 17; 18; 19; 20; 21; 22; 23; 24; 25; -1; -1; -1; -1; -1;
   -1; 26; 27; 28; 29; 30; 31; 32; 33; 34; 35; 36; 37; 38; 39; 40;
   41; 42; 43; 44; 45; 46; 47; 48; 49; 50; 51; -1; -1; -1; -1; -1].

(** ** Memory *)

(** [a[i]] *)
Definition cell {S} (a : list Z) (i : Z) : M S Z :=
  if i <? 0 then crash Undefined
  else match a !! Z.to_nat i with Some x => mret x | None => crash Undefined end.

(** [a[i] = x] in the block being filled *)
Definition poke (i x : Z) : M (list Z) unit := fun a =>
  if (0 <=? i) && (i <? zlen a) then Ret tt (blit i [x] a) else Crash Undefined.

(** [*p++ = x] for each of the characters *)
Fixpoint puts (p : Z) (l : list Z) : M (list Z) Z :=
  match l with
  | [] => mret p
  | x :: r => poke p x;; puts (p + 1) r
  end.

Definition CR : Z := 13.
Definition LF : Z := 10.
Definition PAD : Z := 61.

Section Coding.
Context `{Alloc} (junk : Z -> list Z).

(** [malloc (size)], and a computation that fills the block: without memory, or when the
    computation gives up, there is no result *)
Definition with_memory {A} (size : Z) (m : M (list Z) A) : M unit (A * list Z) := fun u =>
  if malloc_ok size then
    match m (junk size) with
    | Ret a b => Ret (a, b) u
    | Fail _ => Fail u
    | Crash f => Crash f
    end
  else Fail u.

(** ** Encoding *)

Section Encoder.
Context (alphabet data : list Z) (pad crLf : bool) (lineSize : Z).

Fixpoint encode_blocks (fuel : nat) (i blocks outCounter p : Z) : M (list Z) Z :=
  match fuel with
  | O => crash Diverges
  | S fuel =>
      if i <? blocks then
        q0 ← cell data i; q1 ← cell data (i + 1); q2 ← cell data (i + 2);
        let c := Z.shiftl q0 16 + Z.shiftl q1 8 + q2 in
        c1 ← cell alphabet (Z.shiftr (Z.land c 0x00FC0000) 18);
        c2 ← cell alphabet (Z.shiftr (Z.land c 0x0003F000) 12);
        c3 ← cell alphabet (Z.shiftr (Z.land c 0x00000FC0) 6);
        c4 ← cell alphabet (Z.land c 0x0000003F);
        p ← puts p [c1; c2; c3; c4];
        let outCounter := outCounter + 4 in
        p ← (if crLf && (outCounter mod lineSize =? 0) then puts p [CR; LF] else mret p);
        encode_blocks fuel (i + 3) blocks outCounter p
      else mret p
  end.

(** what is left after the blocks of three: [q] is where it starts *)
Definition encode_remainder (remainder q p : Z) : M (list Z) Z :=
  if remainder =? 1 then
    q0 ← cell data q;
    let c := Z.shiftl q0 16 in
    c1 ← cell alphabet (Z.shiftr (Z.land c 0x00FC0000) 18);
    c2 ← cell alphabet (Z.shiftr (Z.land c 0x0003F000) 12);
    p ← puts p [c1; c2];
    if pad then puts p [PAD; PAD] else mret p
  else if remainder =? 2 then
    q0 ← cell data q; q1 ← cell data (q + 1);
    let c := Z.shiftl q0 16 + Z.shiftl q1 8 in
    c1 ← cell alphabet (Z.shiftr (Z.land c 0x00FC0000) 18);
    c2 ← cell alphabet (Z.shiftr (Z.land c 0x0003F000) 12);
    c3 ← cell alphabet (Z.shiftr (Z.land c 0x00000FC0) 6);
    p ← puts p [c1; c2; c3];
    if pad then puts p [PAD] else mret p
  else mret p.

Definition base64_encode_ex (length : Z) : M unit (list Z) :=
  let outLen := usize (usize (length + 3) * 4) / 3 in
  if crLf && (lineSize =? 0) then crash Undefined else
  let extra := if crLf then usize (usize (outLen + lineSize - 1) / lineSize * 2) else 0 in
  '(_, ret) ← with_memory (usize (outLen + extra + 1))
    (let blocks := length - length mod 3 in
     p ← encode_blocks (S (Z.to_nat blocks)) 0 blocks 0 0;
     p ← encode_remainder (length mod 3) blocks p;
     p ← (if crLf && negb (length mod 3 =? 0) then puts p [CR; LF] else mret p);
     poke p 0);
  mret ret.
End Encoder.

Definition base64_encode (alphabet data : list Z) (length : Z) (pad : bool) : M unit (list Z) :=
  base64_encode_ex alphabet data pad false 64 length.

(** ** Decoding *)

Section Decoder.
Context (alphabet s : list Z).

Definition base64_decode_char {S} (c : Z) : M S Z :=
  let c := to_signed 8 c in
  if c <=? 0 then mret (-1) else cell alphabet c.

(** [base64_decode_char (alphabet, *s++)] at the [i]-th character *)
Definition next_char {S} (i : Z) : M S Z := c ← cell s i; base64_decode_char c.

(** [n] blocks of four characters from position [i] on *)
Fixpoint decode_blocks (n : nat) (i q outputLen : Z) : M (list Z) (Z * Z * Z) :=
  match n with
  | O => mret (i, q, outputLen)
  | S n =>
      n0 ← next_char i; n1 ← next_char (i + 1); n2 ← next_char (i + 2); n3 ← next_char (i + 3);
      guard (negb ((n0 =? -1) || (n1 =? -1) || (n2 =? -1) || (n3 =? -1)));;
      poke q (u8 (Z.shiftl n0 2 + Z.shiftr n1 4));;
      poke (q + 1) (u8 (Z.shiftl (Z.land n1 15) 4 + Z.shiftr n2 2));;
      poke (q + 2) (u8 (Z.shiftl (Z.land n2 3) 6 + n3));;
      decode_blocks n (i + 4) (q + 3) (outputLen + 3)
  end.

Definition decode_last (remainder i q outputLen : Z) : M (list Z) Z :=
  n0 ← next_char i; n1 ← next_char (i + 1);
  guard (negb ((n0 =? -1) || (n1 =? -1)));;
  n2 ← (if remainder =? 2 then mret (-1) else next_char (i + 2));
  n3 ← (if 2 <=? remainder then mret (-1) else next_char (i + 3));
  poke q (u8 (Z.shiftl n0 2 + Z.shiftr n1 4));;
  if n2 =? -1 then
    guard (n3 =? -1);;
    poke (q + 1) (u8 (Z.shiftl (Z.land n1 15) 4));;
    mret (outputLen + 1)
  else if n3 =? -1 then
    poke (q + 1) (u8 (Z.shiftl (Z.land n1 15) 4 + Z.shiftr n2 2));;
    poke (q + 2) (u8 (Z.shiftl (Z.land n2 3) 6));;
    mret (outputLen + 2)
  else
    poke q (u8 (Z.shiftl n0 2 + Z.shiftr n1 4));;
    poke (q + 1) (u8 (Z.shiftl (Z.land n1 15) 4 + Z.shiftr n2 2));;
    poke (q + 2) (u8 (Z.shiftl (Z.land n2 3) 6 + n3));;
    mret (outputLen + 3).

(** the value of [*data_len], and the block that is returned *)
Definition base64_decode (length : Z) (pad : bool) : M unit (Z * list Z) :=
  let remainder := length mod 4 in
  if (pad && (0 <? remainder)) || (remainder =? 1) then failure else
  let length := if negb pad && negb (remainder =? 0) then usize (length + (4 - remainder)) else length in
  with_memory (usize (length / 4 * 3 + 1))
    (let nBlocks := length / 4 in
     guard (negb (nBlocks <? 1));;
     '(i, q, outputLen) ← decode_blocks (Z.to_nat (nBlocks - 1)) 0 0 0;
     outputLen ← decode_last remainder i q outputLen;
     poke outputLen 0;;
     mret outputLen).
End Decoder.

(** ** What the rest of the program calls *)

Definition crypto_base64_encode_ex (data : list Z) (length : Z) (withCrLf : bool) : M unit (list Z) :=
  base64_encode_ex enc_base64 data true withCrLf 64 length.

Definition crypto_base64_encode (data : list Z) (length : Z) : M unit (list Z) :=
  base64_encode enc_base64 data length true.

Definition crypto_base64_decode (enc_data : list Z) (length : Z) : M unit (Z * list Z) :=
  base64_decode dec_base64 enc_data length true.

Definition crypto_base64url_encode (data : list Z) (length : Z) : M unit (list Z) :=
  base64_encode enc_base64url data length false.

Definition crypto_base64url_decode (enc_data : list Z) (length : Z) : M unit (Z * list Z) :=
  base64_decode dec_base64url enc_data length false.
End Coding.

(** ** The alphabets *)

Definition letter (enc : list Z) (i : Z) : Z := nth (Z.to_nat i) enc 0.

(** What the coder relies on: 64 letters that the decoding table takes back, and a table for
    all of ASCII in which the padding stands for nothing. *)
Class Alphabet (enc dec : list Z) := {
  letter_there : forall i, 0 <= i < 64 -> enc !! Z.to_nat i = Some (letter enc i);
  letter_ascii : forall i, 0 <= i < 64 -> 32 < letter enc i < 128;
  letter_back : forall i, 0 <= i < 64 -> dec !! Z.to_nat (letter enc i) = Some i;
  pad_back : dec !! Z.to_nat PAD = Some (-1);
  dec_size : zlen dec = 128;
  dec_range : Forall (fun v => -1 <= v < 64) dec
}.

(** the laws as one computation *)
Definition alphabet_ok (enc dec : list Z) : bool :=
  zforall_from 64 0 (fun i =>
    bool_decide (enc !! Z.to_nat i = Some (letter enc i)) &&
    (32 <? letter enc i) && (letter enc i <? 128) &&
    bool_decide (dec !! Z.to_nat (letter enc i) = Some i)) &&
  bool_decide (dec !! Z.to_nat PAD = Some (-1)) && (zlen dec =? 128) &&
  forallb (fun v => (-1 <=? v) && (v <? 64)) dec.

Lemma alphabet_checked enc dec : alphabet_ok enc dec = true -> Alphabet enc dec.
Proof.
  unfold alphabet_ok. intros H.
  repeat match goal with H : _ && _ = true |- _ => apply andb_true_iff in H as [? ?] end.
  assert (forall i, 0 <= i < 64 -> enc !! Z.to_nat i = Some (letter enc i) /\
    32 < letter enc i < 128 /\ dec !! Z.to_nat (letter enc i) = Some i) as Hl.
  { intros i Hi. pose proof (zrange_forall 64 _ H i Hi) as Hf. cbn beta in Hf.
    repeat match goal with H : _ && _ = true |- _ => apply andb_true_iff in H as [? ?] end.
    repeat match goal with H : bool_decide _ = true |- _ => apply bool_decide_eq_true in H end.
    split_and!; [done|lia|lia|done]. }
  split.
  - apply Hl.
  - apply Hl.
  - apply Hl.
  - by eapply bool_decide_eq_true_1.
  - lia.
  - apply List.Forall_forall. intros v Hv.
    match goal with H : forallb _ _ = true |- _ => rewrite forallb_forall in H; specialize (H v Hv) end.
    lia.
Qed.

#[export] Instance alphabet_base64 : Alphabet enc_base64 dec_base64.
Proof. apply alphabet_checked. by vm_compute. Qed.
#[export] Instance alphabet_base64url : Alphabet enc_base64url dec_base64url.
Proof. apply alphabet_checked. by vm_compute. Qed.

(** ** Memory lemmas *)

Lemma cell_eq {S} a i x (s : S) : 0 <= i -> a !! Z.to_nat i = Some x -> cell a i s = Ret x s.
Proof. intros Hi Hx. unfold cell. zcase; [lia|]. by rewrite Hx. Qed.

(** the cells from [i] on *)
Lemma cell_app {S} pre l i j x (s : S) :
  zlen pre = i -> 0 <= j -> l !! Z.to_nat j = Some x -> cell (pre ++ l) (i + j) s = Ret x s.
Proof.
  intros <- Hj Hx. pose proof (zlen_nonneg pre). apply cell_eq; [lia|].
  rewrite lookup_app_r by (unfold zlen; lia).
  by replace (Z.to_nat (zlen pre + j) - length pre)%nat with (Z.to_nat j) by (unfold zlen; lia).
Qed.

Lemma cell_range {S} a i (s : S) :
  0 <= i < zlen a -> exists x, a !! Z.to_nat i = Some x /\ cell a i s = Ret x s.
Proof.
  intros Hi. destruct (lookup_lt_is_Some_2 a (Z.to_nat i)) as [x Hx]; [unfold zlen in Hi; lia|].
  exists x. split; [done|]. apply cell_eq; [lia|done].
Qed.

Lemma poke_eq i x a : 0 <= i < zlen a -> poke i x a = Ret tt (blit i [x] a).
Proof. intros. unfold poke. by rewrite (proj2 (andb_true_iff _ _)) by lia. Qed.

Lemma puts_eq l p a :
  0 <= p -> p + zlen l <= zlen a -> puts p l a = Ret (p + zlen l) (blit p l a).
Proof.
  revert p a. induction l as [|x l IH]; intros p a Hp Hf; simpl.
  - rewrite zlen_nil in *. rewrite blit_nil by lia. by rewrite Z.add_0_r.
  - rewrite zlen_cons in *. pose proof (zlen_nonneg l).
    rewrite (bind_ret_eq _ _ _ _ _ (poke_eq p x a ltac:(lia))).
    rewrite IH by (rewrite ?zlen_blit; change (zlen [x]) with 1; lia).
    change (p + 1) with (p + zlen [x]). rewrite blit_blit by (change (zlen [x]) with 1; lia).
    f_equal. change (zlen [x]) with 1. lia.
Qed.

Lemma puts_app l k p a : puts p (l ++ k) a = (p ← puts p l; puts p k) a.
Proof.
  revert p a. induction l as [|x l IH]; intros p a; [done|].
  cbn [app puts]. rewrite bind_assoc. unfold mbind, M_bind.
  destruct (poke p x a); [apply IH|done|done].
Qed.

(** three stores in a row *)
Lemma poke3 {B} q x y z (k : unit -> M (list Z) B) a :
  0 <= q -> q + 3 <= zlen a ->
  (poke q x;; poke (q + 1) y;; (poke (q + 2) z ≫= k)) a = k tt (blit q [x; y; z] a).
Proof.
  intros Hq Hf. pose proof (puts_eq [x; y; z] q a Hq Hf) as H. cbn [puts] in H.
  replace (q + 1 + 1) with (q + 2) in H by lia. revert H.
  unfold mbind, M_bind, poke, mret, M_ret. simpl.
  repeat (zcase; [|done]). by intros [= _ ->].
Qed.

(** ** The encoding *)

(** the number of a block of three bytes, and its four digits *)
Lemma sextets a b c :
  is_byte a -> is_byte b -> is_byte c ->
  let n := Z.shiftl a 16 + Z.shiftl b 8 + c in
  Z.shiftr (Z.land n 0x00FC0000) 18 = a / 4 /\
  Z.shiftr (Z.land n 0x0003F000) 12 = a mod 4 * 16 + b / 16 /\
  Z.shiftr (Z.land n 0x00000FC0) 6 = b mod 16 * 4 + c / 64 /\
  Z.land n 0x0000003F = c mod 64.
Proof.
  intros Ha Hb Hc n. unfold is_byte in *.
  rewrite !Z.shiftr_land. change (Z.shiftr 0x00FC0000 18) with 63.
  change (Z.shiftr 0x0003F000 12) with 63. change (Z.shiftr 0x00000FC0 6) with 63.
  rewrite !(land_mask _ 6 63) by lia. unfold n. rewrite !Z.shiftl_mul_pow2, !shiftr_div by lia.
  change (2 ^ 16) with 65536. change (2 ^ 8) with 256. change (2 ^ 18) with 262144.
  change (2 ^ 12) with 4096. change (2 ^ 6) with 64.
  split_and!; Z.div_mod_to_equations; lia.
Qed.

Section Encoding.
Context (enc dec : list Z) `{!Alphabet enc dec} (pad crLf : bool) (lineSize : Z).

Definition line_end (b : bool) : list Z := if crLf && b then [CR; LF] else [].
Definition padding (n : Z) : list Z := if pad then zrepeat n PAD else [].

(** the characters of some data; [n] characters have been written before *)
Fixpoint text (n : Z) (l : list Z) : list Z :=
  match l with
  | a :: b :: c :: r =>
      [letter enc (a / 4); letter enc (a mod 4 * 16 + b / 16);
       letter enc (b mod 16 * 4 + c / 64); letter enc (c mod 64)] ++
      line_end ((n + 4) mod lineSize =? 0) ++ text (n + 4) r
  | [a; b] =>
      [letter enc (a / 4); letter enc (a mod 4 * 16 + b / 16); letter enc (b mod 16 * 4)] ++
      padding 1 ++ line_end true
  | [a] => [letter enc (a / 4); letter enc (a mod 4 * 16)] ++ padding 2 ++ line_end true
  | [] => []
  end.

(** induction in blocks of three *)
Lemma blocks_ind (P : list Z -> Prop) :
  P [] -> (forall a, P [a]) -> (forall a b, P [a; b]) ->
  (forall a b c r, P r -> P (a :: b :: c :: r)) -> forall l, P l.
Proof.
  intros H0 H1 H2 H3 l.
  cut (P l /\ (forall a, P (a :: l)) /\ (forall a b, P (a :: b :: l))); [tauto|].
  induction l as [|x l (IH0 & IH1 & IH2)]; auto.
Qed.

Lemma letter_cell {S} i (s : S) : 0 <= i < 64 -> cell enc i s = Ret (letter enc i) s.
Proof. intros. apply cell_eq; [lia|by apply letter_there]. Qed.

(** one turn of the loop over the blocks *)
Lemma encode_block pre a b c r f i blocks n p mem :
  zlen pre = i -> is_byte a -> is_byte b -> is_byte c -> i < blocks ->
  encode_blocks enc (pre ++ a :: b :: c :: r) crLf lineSize (S f) i blocks n p mem =
  (p ← puts p ([letter enc (a / 4); letter enc (a mod 4 * 16 + b / 16);
       letter enc (b mod 16 * 4 + c / 64); letter enc (c mod 64)] ++
      line_end ((n + 4) mod lineSize =? 0));
   encode_blocks enc (pre ++ a :: b :: c :: r) crLf lineSize f (i + 3) blocks (n + 4) p) mem.
Proof.
  intros Hi Ha Hb Hc Hlt. set (data := pre ++ a :: b :: c :: r). cbn [encode_blocks]. zcase; [|lia].
  assert (cell data i mem = Ret a mem) as Ea by (rewrite <- (Z.add_0_r i); by apply cell_app).
  assert (cell data (i + 1) mem = Ret b mem) as Eb by (by apply cell_app).
  assert (cell data (i + 2) mem = Ret c mem) as Ec by (by apply cell_app).
  rewrite (bind_ret_eq _ _ _ _ _ Ea), (bind_ret_eq _ _ _ _ _ Eb), (bind_ret_eq _ _ _ _ _ Ec).
  cbv zeta. destruct (sextets a b c Ha Hb Hc) as (-> & -> & -> & ->). unfold is_byte in *.
  do 4 erewrite bind_ret_eq by (apply letter_cell; Z.div_mod_to_equations; lia).
  rewrite (bind_step (puts p (_ ++ _)) _ _ mem mem (puts_app _ _ p mem)), bind_assoc.
  unfold line_end. unfold mbind, M_bind. destruct (puts p _ mem); [|done|done].
  by destruct (crLf && _).
Qed.

(** the last one or two bytes *)
Lemma encode_remainder_eq pre l q n p mem :
  zlen pre = q -> bytes l -> zlen l < 3 ->
  (p ← encode_remainder enc (pre ++ l) pad (zlen l) q p;
   if crLf && negb (zlen l =? 0) then puts p [CR; LF] else mret p) mem =
  puts p (text n l) mem.
Proof.
  intros Hq Hb Hl. unfold encode_remainder. destruct l as [|a [|b [|c l]]].
  - change (zlen []) with 0. cbn [Z.eqb negb text]. rewrite ret_bind, andb_false_r. done.
  - apply Forall_inv in Hb as Ha. change (zlen [a]) with 1. cbn [text Z.eqb Pos.eqb negb].
    destruct (sextets a 0 0 Ha) as (E1 & E2 & _); [done|done|].
    rewrite Z.shiftl_0_l, !Z.add_0_r in E1, E2. rewrite andb_true_r.
    assert (cell (pre ++ [a]) q mem = Ret a mem) as Ea
      by (rewrite <- (Z.add_0_r q); by apply cell_app).
    unfold mbind, M_bind. rewrite Ea, E1, letter_cell by word_lia.
    rewrite E2, Z.add_0_r, letter_cell by word_lia. unfold padding, line_end.
    rewrite puts_app. unfold mbind, M_bind. destruct (puts p _ mem); [|done|done].
    rewrite puts_app. unfold mbind, M_bind. by destruct pad, crLf.
  - apply Forall_cons_1 in Hb as [Ha Hb]. apply Forall_inv in Hb. change (zlen [a; b]) with 2.
    cbn [text Z.eqb Pos.eqb negb].
    destruct (sextets a b 0 Ha Hb) as (E1 & E2 & E3 & _); [done|].
    rewrite !Z.add_0_r in E1, E2, E3. rewrite andb_true_r.
    assert (cell (pre ++ [a; b]) q mem = Ret a mem) as Ea
      by (rewrite <- (Z.add_0_r q); by apply cell_app).
    assert (cell (pre ++ [a; b]) (q + 1) mem = Ret b mem) as Eb by (by apply cell_app).
    unfold mbind, M_bind. rewrite Ea, Eb, E1, letter_cell by word_lia.
    rewrite E2, letter_cell, E3, Z.add_0_r, letter_cell by word_lia. unfold padding, line_end.
    rewrite puts_app. unfold mbind, M_bind. destruct (puts p _ mem); [|done|done].
    rewrite puts_app. unfold mbind, M_bind. by destruct pad, crLf.
  - rewrite !zlen_cons in Hl. pose proof (zlen_nonneg l). lia.
Qed.

(** The encoder stores the text of the data. *)
Lemma encode_text l : forall pre f n p mem,
  zlen pre mod 3 = 0 -> bytes l -> (length l < 3 * f)%nat ->
  let data := pre ++ l in let L := zlen data in
  (p ← encode_blocks enc data crLf lineSize f (zlen pre) (L - L mod 3) n p;
   p ← encode_remainder enc data pad (L mod 3) (L - L mod 3) p;
   if crLf && negb (L mod 3 =? 0) then puts p [CR; LF] else mret p) mem =
  puts p (text n l) mem.
Proof.
  assert (forall pre l f n p mem,
    zlen pre mod 3 = 0 -> bytes l -> (length l < 3 * f)%nat -> zlen l < 3 ->
    let data := pre ++ l in let L := zlen data in
    (p ← encode_blocks enc data crLf lineSize f (zlen pre) (L - L mod 3) n p;
     p ← encode_remainder enc data pad (L mod 3) (L - L mod 3) p;
     if crLf && negb (L mod 3 =? 0) then puts p [CR; LF] else mret p) mem =
    puts p (text n l) mem) as Hend.
  { intros pre k f n p mem H3 Hb Hf Hk data L. destruct f as [|f]; [lia|].
    pose proof (zlen_nonneg k).
    assert (L mod 3 = zlen k) as -> by (unfold L, data; rewrite zlen_app; Z.div_mod_to_equations; lia).
    assert (L - zlen k = zlen pre) as -> by (unfold L, data; rewrite zlen_app; lia).
    cbn [encode_blocks]. zcase; [lia|]. rewrite ret_bind.
    by apply encode_remainder_eq. }
  induction l as [|a|a b|a b c r IH] using blocks_ind; intros pre f n p mem H3 Hb Hf;
    try (by apply Hend). clear Hend.
  apply Forall_cons_1 in Hb as [Ha Hb]. apply Forall_cons_1 in Hb as [Hb' Hb].
  apply Forall_cons_1 in Hb as [Hc Hb]. destruct f as [|f]; [lia|]. cbv zeta.
  pose proof (zlen_nonneg r).
  erewrite bind_step by (apply encode_block; try done; rewrite zlen_app, !zlen_cons in *;
    Z.div_mod_to_equations; lia).
  rewrite bind_assoc. cbn [text]. rewrite app_assoc, puts_app. apply bind_cong. intros p' mem'.
  specialize (IH (pre ++ [a; b; c]) f (n + 4) p' mem'). cbv zeta in IH.
  rewrite <- app_assoc in IH. change ([a; b; c] ++ r) with (a :: b :: c :: r) in IH.
  replace (zlen (pre ++ [a; b; c])) with (zlen pre + 3) in IH by (rewrite zlen_app; done).
  apply IH; [Z.div_mod_to_equations; lia|done|simpl in Hf; lia].
Qed.
End Encoding.

(** the C string at the start of a block *)
Fixpoint c_string (l : list Z) : list Z :=
  match l with
  | [] => []
  | x :: r => if x =? 0 then [] else x :: c_string r
  end.

Lemma c_string_app l r : Forall (fun x => x <> 0) l -> c_string (l ++ 0 :: r) = l.
Proof.
  induction 1 as [|x l Hx Hl IH]; [done|]. cbn [app c_string].
  by rewrite (proj2 (Z.eqb_neq x 0) Hx), IH.
Qed.

Section EncodedText.
Context (enc dec : list Z) `{!Alphabet enc dec} (pad crLf : bool).

(** a property of all letters, the padding and the line ends is one of the text *)
Lemma text_forall (P : Z -> Prop) lineSize n l :
  (forall i, 0 <= i < 64 -> P (letter enc i)) -> P PAD -> (crLf = true -> P CR /\ P LF) ->
  bytes l -> Forall P (text enc pad crLf lineSize n l).
Proof.
  intros HL HP HE.
  assert (forall b, Forall P (line_end crLf b)) as He.
  { intros b. unfold line_end. destruct crLf, b; try done. destruct (HE eq_refl). by repeat apply Forall_cons_2. }
  assert (forall k, Forall P (padding pad k)) as Hpad.
  { intros k. unfold padding. destruct pad; auto with zforall. }
  revert n. induction l as [|a|a b|a b c r IH] using blocks_ind; intros n Hb; cbn [text].
  - done.
  - apply Forall_inv in Hb. rewrite !Forall_app.
    split_and!; auto; repeat (apply Forall_cons_2; [apply HL; word_lia|]); done.
  - apply Forall_cons_1 in Hb as [Ha Hb]. apply Forall_inv in Hb. rewrite !Forall_app.
    split_and!; auto; repeat (apply Forall_cons_2; [apply HL; word_lia|]); done.
  - apply Forall_cons_1 in Hb as [Ha Hb]. apply Forall_cons_1 in Hb as [Hb' Hb].
    apply Forall_cons_1 in Hb as [Hc Hb]. rewrite !Forall_app.
    split_and!; auto; repeat (apply Forall_cons_2; [apply HL; word_lia|]); done.
Qed.

Lemma zlen_padding k : 0 <= k -> zlen (padding pad k) = if pad then k else 0.
Proof. intros. unfold padding. destruct pad; [by apply zlen_zrepeat|done]. Qed.

Lemma zlen_line_end b : zlen (line_end crLf b) = if crLf && b then 2 else 0.
Proof. unfold line_end. by destruct (crLf && b). Qed.

(** the room that lines of 64 characters take *)
Lemma zlen_text_64 l : forall n, 0 <= n ->
  zlen (text enc pad crLf 64 n l) <=
  4 * ((zlen l + 2) / 3) +
  (if crLf then 2 * ((n + 4 * (zlen l / 3)) / 64 - n / 64 + (zlen l mod 3 + 1) / 2) else 0).
Proof.
  induction l as [|a|a b|a b c r IH] using blocks_ind; intros n Hn; cbn [text];
    repeat rewrite ?zlen_app, ?zlen_cons, ?zlen_nil, ?zlen_padding, ?zlen_line_end by lia.
  - destruct crLf; Z.div_mod_to_equations; lia.
  - destruct pad, crLf; cbn [andb]; Z.div_mod_to_equations; lia.
  - destruct pad, crLf; cbn [andb]; Z.div_mod_to_equations; lia.
  - specialize (IH (n + 4) ltac:(lia)). pose proof (zlen_nonneg r).
    destruct crLf; cbn [andb]; [|Z.div_mod_to_equations; lia].
    zcase; Z.div_mod_to_equations; lia.
Qed.

Context `{AllocOk} (junk : Z -> list Z).
Context (junk_len : forall n, 0 <= n -> zlen (junk n) = n).

(** The encoder stays inside its block, and the block starts with the text. *)
Lemma encode_ex_eq data :
  bytes data -> zlen data < 2 ^ 60 ->
  exists mem, base64_encode_ex junk enc data pad crLf 64 (zlen data) tt = Ret mem tt /\
    c_string mem = text enc pad crLf 64 0 data.
Proof.
  intros Hb Hl. pose proof (zlen_nonneg data). unfold base64_encode_ex.
  set (t := text enc pad crLf 64 0 data).
  set (outLen := usize (usize (zlen data + 3) * 4) / 3).
  set (extra := if crLf then usize (usize (outLen + 64 - 1) / 64 * 2) else 0).
  assert (outLen = (zlen data + 3) * 4 / 3) as EL
    by (unfold outLen, usize; rewrite (Z.mod_small (zlen data + 3)), Z.mod_small by lia; done).
  assert (0 <= outLen + extra + 1 < 2 ^ 62 /\ zlen t + 1 <= outLen + extra + 1) as [Hsz Hfit].
  { pose proof (zlen_text_64 data 0 ltac:(lia)) as Ht. fold t in Ht. unfold extra. rewrite EL.
    destruct crLf; [|Z.div_mod_to_equations; lia]. clear EL outLen extra.
    assert (exists X, (zlen data + 3) * 4 / 3 = X /\ 0 <= X < 2 ^ 61 /\ 4 * (zlen data) + 10 <= 3 * X)
      as (X & -> & HX & HX') by (eexists; split; [done|]; Z.div_mod_to_equations; lia).
    replace (usize (X + 64 - 1)) with (X + 63) by (unfold usize; rewrite Z.mod_small; lia).
    replace (usize ((X + 63) / 64 * 2)) with ((X + 63) / 64 * 2)
      by (unfold usize; rewrite Z.mod_small; Z.div_mod_to_equations; lia).
    Z.div_mod_to_equations; lia. }
  rewrite andb_false_r. unfold usize at 1. rewrite (Z.mod_small (outLen + extra + 1)) by lia.
  set (size := outLen + extra + 1) in *. assert (zlen (junk size) = size) as Hj by (apply junk_len; lia).
  pose proof (zlen_nonneg t).
  assert (0 < 3 * S (Z.to_nat (zlen data - zlen data mod 3)) - length data)%nat as Hfuel
    by (unfold zlen; Z.div_mod_to_equations; lia).
  pose proof (encode_text enc dec pad crLf 64 data [] (S (Z.to_nat (zlen data - zlen data mod 3)))
    0 0 (junk size) eq_refl Hb ltac:(lia)) as E. cbn [app] in E. fold t in E.
  rewrite puts_eq in E by lia. cbv zeta in E.
  exists (blit 0 (t ++ [0]) (junk size)). split.
  - rewrite (bind_ret_eq _ _ tt (tt, blit 0 (t ++ [0]) (junk size)) tt); [done|]. unfold with_memory. rewrite alloc_ok by lia.
    change (zlen []) with 0 in E. cbv zeta.
    assert (forall {B} (m : M (list Z) Z) (m1 : Z -> M (list Z) Z) (m2 : Z -> M (list Z) Z)
        (k : Z -> M (list Z) B) s, (p ← m; p ← m1 p; p ← m2 p; k p) s =
        (p ← (p ← m; p ← m1 p; m2 p); k p) s) as Hassoc.
    { intros. rewrite bind_assoc. apply bind_cong. intros. by rewrite bind_assoc. }
    rewrite Hassoc, (bind_ret_eq _ _ _ _ _ E), poke_eq by (rewrite zlen_blit; lia).
    rewrite blit_blit by (change (zlen [0]) with 1; lia). done.
  - unfold blit. rewrite ztake_0. cbn [app]. rewrite <- app_assoc. apply c_string_app.
    apply text_forall; [|done|done|done]. intros i Hi. pose proof (letter_ascii (dec := dec) i Hi). lia.
Qed.
End EncodedText.

(** ** The decoding *)

(** the three bytes that four digits stand for *)
Lemma octets a b c :
  is_byte a -> is_byte b -> is_byte c ->
  let n1 := a mod 4 * 16 + b / 16 in let n2 := b mod 16 * 4 + c / 64 in
  u8 (Z.shiftl (a / 4) 2 + Z.shiftr n1 4) = a /\
  u8 (Z.shiftl (Z.land n1 15) 4 + Z.shiftr n2 2) = b /\
  u8 (Z.shiftl (Z.land n2 3) 6 + c mod 64) = c.
Proof.
  intros Ha Hb Hc n1 n2. unfold is_byte, u8 in *.
  rewrite (land_mask n1 4 15), (land_mask n2 2 3) by lia.
  rewrite !Z.shiftl_mul_pow2, !shiftr_div by lia.
  change (2 ^ 2) with 4. change (2 ^ 4) with 16. change (2 ^ 6) with 64.
  unfold n1, n2. split_and!; Z.div_mod_to_equations; lia.
Qed.

Section Decoding.
Context (enc dec : list Z) `{!Alphabet enc dec} (pad : bool).
Abbreviation plain := (text enc pad false 64).

Lemma next_letter {S} j pre l i v (s : S) :
  i = zlen pre + j -> 0 <= j -> l !! Z.to_nat j = Some (letter enc v) -> 0 <= v < 64 ->
  next_char dec (pre ++ l) i s = Ret v s.
Proof.
  intros -> Hj Hl Hv. unfold next_char.
  rewrite (bind_ret_eq _ _ _ _ _ (cell_app pre l _ j _ s eq_refl Hj Hl)).
  pose proof (letter_ascii (dec := dec) v Hv). unfold base64_decode_char, to_signed.
  change (2 ^ (8 - 1)) with 128. zcase; [|lia]. zcase; [lia|].
  apply cell_eq; [lia|]. by apply letter_back.
Qed.

Lemma next_pad {S} j pre l i (s : S) :
  i = zlen pre + j -> 0 <= j -> l !! Z.to_nat j = Some PAD ->
  next_char dec (pre ++ l) i s = Ret (-1) s.
Proof.
  intros -> Hj Hl. unfold next_char.
  rewrite (bind_ret_eq _ _ _ _ _ (cell_app pre l _ j _ s eq_refl Hj Hl)).
  apply cell_eq; [done|]. apply pad_back.
Qed.

(** a block in front of others *)
Lemma decode_block pre a b c r n q o mem :
  is_byte a -> is_byte b -> is_byte c -> 0 <= q -> q + 3 <= zlen mem ->
  let s := pre ++ [letter enc (a / 4); letter enc (a mod 4 * 16 + b / 16);
                   letter enc (b mod 16 * 4 + c / 64); letter enc (c mod 64)] ++ r in
  decode_blocks dec s (S n) (zlen pre) q o mem =
  decode_blocks dec s n (zlen pre + 4) (q + 3) (o + 3) (blit q [a; b; c] mem).
Proof.
  intros Ha Hb Hc Hq Hm s. cbn [decode_blocks].
  destruct (octets a b c Ha Hb Hc) as (E1 & E2 & E3).
  erewrite bind_ret_eq by (apply (next_letter 0 pre); [lia|lia|reflexivity|word_lia]).
  erewrite bind_ret_eq by (apply (next_letter 1 pre); [lia|lia|reflexivity|word_lia]).
  erewrite bind_ret_eq by (apply (next_letter 2 pre); [lia|lia|reflexivity|word_lia]).
  erewrite bind_ret_eq by (apply (next_letter 3 pre); [lia|lia|reflexivity|word_lia]).
  rewrite guard_bind by word_lia. rewrite E1, E2, E3. by apply poke3.
Qed.

(** the bytes in front of [q] stay, and [l] follows them *)
Definition decoded (q : Z) (l mem mem' : list Z) : Prop :=
  zlen mem' = zlen mem /\ ztake (q + zlen l) mem' = ztake q mem ++ l.

Lemma decoded_blit q l mem :
  0 <= q -> q + zlen l <= zlen mem -> decoded q l mem (blit q l mem).
Proof. intros. split; [by apply zlen_blit|by apply blit_ztake]. Qed.

(** a store behind them does no harm *)
Lemma decoded_beyond q l mem mem' x :
  0 <= q -> q + zlen l < zlen mem -> decoded q l mem mem' ->
  decoded q l mem (blit (q + zlen l) [x] mem').
Proof.
  intros Hq Hf [Hl Ht]. pose proof (zlen_nonneg l). change (zlen [x]) with 1 in *. split.
  - rewrite zlen_blit; change (zlen [x]) with 1; lia.
  - by rewrite ztake_blit_before by (change (zlen [x]) with 1; lia).
Qed.

Lemma decoded_app q l k mem mem' mem'' :
  decoded q l mem mem' -> decoded (q + zlen l) k mem' mem'' -> decoded q (l ++ k) mem mem''.
Proof.
  intros [H1 T1] [H2 T2]. split; [congruence|].
  by rewrite zlen_app, Z.add_assoc, T2, T1, app_assoc.
Qed.

(** The last block, by what its four reads give: [n2] and [n3] are read or taken to be
    padding. *)
Lemma decode_last_run s r i q o mem n0 n1 n2 n3 :
  next_char dec s i mem = Ret n0 mem -> next_char dec s (i + 1) mem = Ret n1 mem ->
  (if r =? 2 then mret (-1) else next_char dec s (i + 2)) mem = Ret n2 mem ->
  (if 2 <=? r then mret (-1) else next_char dec s (i + 3)) mem = Ret n3 mem ->
  n0 <> -1 -> n1 <> -1 -> (n2 = -1 -> n3 = -1) -> 0 <= q -> q + 3 <= zlen mem ->
  let x0 := u8 (Z.shiftl n0 2 + Z.shiftr n1 4) in
  let x1 := u8 (Z.shiftl (Z.land n1 15) 4 + Z.shiftr n2 2) in
  let x2 := u8 (Z.shiftl (Z.land n2 3) 6 + n3) in
  forall l, l = (if n2 =? -1 then [x0] else if n3 =? -1 then [x0; x1] else [x0; x1; x2]) ->
  exists mem', decode_last dec s r i q o mem = Ret (o + zlen l) mem' /\ decoded q l mem mem'.
Proof.
  intros R0 R1 R2 R3 H0 H1 H23 Hq Hm x0 x1 x2 l El. unfold decode_last.
  rewrite (bind_ret_eq _ _ _ _ _ R0), (bind_ret_eq _ _ _ _ _ R1), guard_bind by lia.
  rewrite (bind_ret_eq _ _ _ _ _ R2), (bind_ret_eq _ _ _ _ _ R3).
  pose proof (decoded_blit q l mem Hq) as Hl.
  rewrite (bind_ret_eq _ _ _ _ _ (poke_eq q x0 mem ltac:(lia))).
  assert (forall x, zlen (blit q [x] mem) = zlen mem) as Hz
    by (intros; apply zlen_blit; change (zlen [x]) with 1; lia).
  rewrite El in *. clear El. zcase; [|zcase].
  - rewrite guard_bind by lia. change (zlen [x0]) with 1 in *.
    rewrite (bind_ret_eq _ _ _ _ _ (poke_eq (q + 1) _ _ ltac:(rewrite Hz; lia))).
    eexists. split; [done|]. apply (decoded_beyond q [x0]); auto with lia.
    change (zlen [x0]) with 1. lia.
  - change (zlen [x0; x1]) with 2 in *.
    rewrite (bind_ret_eq _ _ _ _ _ (poke_eq (q + 1) _ _ ltac:(rewrite Hz; lia))).
    rewrite (blit_blit q [x0] [x1]) by (change (zlen [_]) with 1; lia). cbn [app].
    assert (zlen (blit q [x0; x1] mem) = zlen mem) as Hz2
      by (apply zlen_blit; change (zlen [x0; x1]) with 2; lia).
    rewrite (bind_ret_eq _ _ _ _ _ (poke_eq (q + 2) _ _ ltac:(rewrite Hz2; lia))).
    eexists. split; [done|]. apply (decoded_beyond q [x0; x1]); auto with lia.
    change (zlen [x0; x1]) with 2. lia.
  - change (zlen [x0; x1; x2]) with 3 in *. fold x0 x1 x2.
    rewrite poke3 by (rewrite ?Hz; lia). eexists. split; [done|].
    rewrite (blit_over q [x0] [x0; x1; x2]) by (autorewrite with zlen; lia). auto.
Qed.

(** the last block, of one, two or three bytes *)
Lemma decode_last_eq pre l n q o mem :
  bytes l -> 0 < zlen l <= 3 -> 0 <= q -> q + 3 <= zlen mem ->
  exists mem', decode_last dec (pre ++ plain n l) (zlen (plain n l) mod 4) (zlen pre) q o mem =
    Ret (o + zlen l) mem' /\ decoded q l mem mem'.
Proof.
  intros Hb Hl Hq Hm. destruct l as [|a [|b [|c [|d l]]]].
  - by destruct Hl.
  - apply Forall_inv in Hb as Ha. destruct (octets a 0 0 Ha) as (E1 & _ & _); [done|done|].
    change (0 / 16) with 0 in E1. rewrite Z.add_0_r in E1.
    apply (decode_last_run _ _ _ _ _ _ (a / 4) (a mod 4 * 16) (-1) (-1)); try done; try word_lia.
    all: cbn [text]; unfold padding, line_end.
    + apply (next_letter 0); [lia|lia|done|word_lia].
    + apply (next_letter 1); [lia|lia|done|word_lia].
    + destruct pad; [|done]. by apply (next_pad 2); [lia|lia|].
    + destruct pad; [|done]. by apply (next_pad 3); [lia|lia|].
    + by rewrite E1.
  - apply Forall_cons_1 in Hb as [Ha Hb]. apply Forall_inv in Hb.
    destruct (octets a b 0 Ha Hb) as (E1 & E2 & _); [done|].
    change (0 / 64) with 0 in E2. rewrite Z.add_0_r in E2.
    apply (decode_last_run _ _ _ _ _ _ (a / 4) (a mod 4 * 16 + b / 16) (b mod 16 * 4) (-1));
      try done; try word_lia.
    all: cbn [text]; unfold padding, line_end.
    + apply (next_letter 0); [lia|lia|done|word_lia].
    + apply (next_letter 1); [lia|lia|done|word_lia].
    + destruct pad; apply (next_letter 2); try lia; try done; word_lia.
    + destruct pad; [|done]. by apply (next_pad 3); [lia|lia|].
    + rewrite E1, E2, (proj2 (Z.eqb_neq _ _)) by word_lia. done.
  - apply Forall_cons_1 in Hb as [Ha Hb]. apply Forall_cons_1 in Hb as [Hb' Hb]. apply Forall_inv in Hb.
    destruct (octets a b c Ha Hb' Hb) as (E1 & E2 & E3).
    apply (decode_last_run _ _ _ _ _ _ (a / 4) (a mod 4 * 16 + b / 16) (b mod 16 * 4 + c / 64) (c mod 64));
      try done; try word_lia.
    all: cbn [text]; unfold padding, line_end.
    + apply (next_letter 0); [lia|lia|done|word_lia].
    + apply (next_letter 1); [lia|lia|done|word_lia].
    + apply (next_letter 2); try lia; try done; word_lia.
    + apply (next_letter 3); try lia; try done; word_lia.
    + rewrite E1, E2, E3, !(proj2 (Z.eqb_neq _ _)) by word_lia. done.
  - rewrite !zlen_cons in Hl. pose proof (zlen_nonneg l). lia.
Qed.

Lemma zlen_plain l : forall n,
  zlen (plain n l) = if pad then 4 * ((zlen l + 2) / 3) else (4 * zlen l + 2) / 3.
Proof.
  induction l as [|a|a b|a b c r IH] using blocks_ind; intros n; cbn [text];
    repeat rewrite ?zlen_app, ?zlen_cons, ?zlen_nil, ?zlen_padding, ?zlen_line_end by lia;
    cbn [andb]; [by destruct pad..|].
  rewrite IH. destruct pad; Z.div_mod_to_equations; lia.
Qed.

(** The decoder takes the text of some data back to the data. *)
Lemma decode_text l : forall pre n q mem,
  0 < zlen l -> bytes l -> 0 <= q -> q + 3 * ((zlen l + 2) / 3) <= zlen mem ->
  exists mem', (x ← decode_blocks dec (pre ++ plain n l) (Z.to_nat ((zlen l + 2) / 3 - 1)) (zlen pre) q q;
    decode_last dec (pre ++ plain n l) (zlen (plain n l) mod 4) x.1.1 x.1.2 x.2) mem =
    Ret (q + zlen l) mem' /\ decoded q l mem mem'.
Proof.
  assert (forall pre l n q mem, 0 < zlen l <= 3 -> bytes l -> 0 <= q ->
    q + 3 * ((zlen l + 2) / 3) <= zlen mem ->
    exists mem', (x ← decode_blocks dec (pre ++ plain n l) (Z.to_nat ((zlen l + 2) / 3 - 1)) (zlen pre) q q;
      decode_last dec (pre ++ plain n l) (zlen (plain n l) mod 4) x.1.1 x.1.2 x.2) mem =
      Ret (q + zlen l) mem' /\ decoded q l mem mem') as Hlast.
  { intros pre k n q mem Hl Hb Hq Hm. assert ((zlen k + 2) / 3 = 1) as E by (Z.div_mod_to_equations; lia).
    rewrite E in *. change (Z.to_nat (1 - 1)) with O. cbn [decode_blocks].
    rewrite ret_bind. apply decode_last_eq; [done|done|done|lia]. }
  induction l as [|a|a b|a b c r IH] using blocks_ind; intros pre n q mem Hl Hb Hq Hm;
    try (apply Hlast; done).
  destruct (decide (r = [])) as [->|Hr]; [by apply Hlast|]. clear Hlast.
  assert (0 < zlen r) as Hpos.
  { pose proof (zlen_nonneg r). destruct (Z.eq_dec (zlen r) 0); [|lia]. by destruct Hr; apply zlen_zero_inv. }
  apply Forall_cons_1 in Hb as [Ha Hb]. apply Forall_cons_1 in Hb as [Hb' Hb].
  apply Forall_cons_1 in Hb as [Hc Hb]. rewrite !zlen_cons in *.
  replace (zlen r + 1 + 1 + 1) with (zlen r + 3) in * by lia.
  replace ((zlen r + 3 + 2) / 3) with ((zlen r + 2) / 3 + 1) in * by (Z.div_mod_to_equations; lia).
  assert (1 <= (zlen r + 2) / 3) by (Z.div_mod_to_equations; lia).
  replace (Z.to_nat ((zlen r + 2) / 3 + 1 - 1)) with (S (Z.to_nat ((zlen r + 2) / 3 - 1))) by lia.
  cbn [text]. unfold line_end. cbn [andb].
  set (w := [letter enc (a / 4); letter enc (a mod 4 * 16 + b / 16);
             letter enc (b mod 16 * 4 + c / 64); letter enc (c mod 64)]).
  rewrite (bind_step _ _ _ _ _ (decode_block pre a b c _ _ q q mem Ha Hb' Hc Hq ltac:(lia))).
  assert (zlen (blit q [a; b; c] mem) = zlen mem) as Hz by (apply zlen_blit; change (zlen [a; b; c]) with 3; lia).
  destruct (IH (pre ++ w) (n + 4) (q + 3) (blit q [a; b; c] mem)) as (mem' & E & D);
    [done|done|lia|lia|].
  exists mem'. split; [|apply (decoded_app q [a; b; c] r _ (blit q [a; b; c] mem)); [|done];
    apply decoded_blit; change (zlen [a; b; c]) with 3; lia].
  rewrite <- app_assoc in E. replace (zlen (pre ++ w)) with (zlen pre + 4) in E by (rewrite zlen_app; done).
  fold w. rewrite app_nil_l, zlen_app. change (zlen w) with 4.
  replace ((4 + zlen (plain (n + 4) r)) mod 4) with (zlen (plain (n + 4) r) mod 4)
    by (Z.div_mod_to_equations; lia).
  rewrite E. f_equal. lia.
Qed.
End Decoding.

(** ** The coder and its callers *)

(** Encoding data and decoding the string gives the data back; without data the string is
    empty, and the decoder has nothing to return. *)
Definition codes_back (encode : list Z -> Z -> M unit (list Z))
    (decode : list Z -> Z -> M unit (Z * list Z)) (data : list Z) : Prop :=
  exists mem, encode data (zlen data) tt = Ret mem tt /\
    let t := c_string mem in
    match data with
    | [] => decode t (zlen t) tt = Fail tt
    | _ => exists mem', decode t (zlen t) tt = Ret (zlen data, mem') tt /\
             ztake (zlen data) mem' = data
    end.

Lemma decode_nil `{Alloc} junk dec pad : base64_decode junk dec [] 0 pad tt = Fail tt.
Proof.
  unfold base64_decode. change (0 mod 4) with 0. cbn [Z.ltb Z.compare Z.eqb negb].
  rewrite !andb_false_r. unfold with_memory. by destruct (malloc_ok _).
Qed.

Section Coder.
Context `{AllocOk} (junk : Z -> list Z) (junk_len : forall n, 0 <= n -> zlen (junk n) = n).

Lemma base64_codes_back enc dec `{!Alphabet enc dec} pad data :
  bytes data -> zlen data < 2 ^ 60 ->
  codes_back (fun d n => base64_encode junk enc d n pad)
    (fun t n => base64_decode junk dec t n pad) data.
Proof.
  intros Hb Hl. destruct (encode_ex_eq enc dec pad false junk junk_len data Hb Hl) as (mem & E & Ht).
  exists mem. split; [done|]. cbv zeta. rewrite Ht. clear E Ht mem.
  destruct data as [|x data]; [apply decode_nil|]. set (d := x :: data) in *.
  assert (0 < zlen d) as Hpos by (unfold d; rewrite zlen_cons; pose proof (zlen_nonneg data); lia).
  pose proof (zlen_plain enc pad d 0) as HT. set (t := text enc pad false 64 0 d) in *.
  set (B := (zlen d + 2) / 3). assert (1 <= B < 2 ^ 60) as HB by (unfold B; Z.div_mod_to_equations; lia).
  unfold base64_decode.
  assert ((pad && (0 <? zlen t mod 4)) || (zlen t mod 4 =? 1) = false) as ->.
  { rewrite HT. clear HT HB. clearbody d. apply orb_false_iff. split.
    - destruct pad; [|done]. apply Z.ltb_ge. cbv iota. Z.div_mod_to_equations; lia.
    - apply Z.eqb_neq. destruct pad; cbv iota; Z.div_mod_to_equations; lia. }
  set (len := if negb pad && negb (zlen t mod 4 =? 0) then usize (zlen t + (4 - zlen t mod 4)) else zlen t).
  assert (len = 4 * B) as ->.
  { unfold len, B. rewrite HT. clear HT. clearbody d. destruct pad; cbn [negb andb]; [done|].
    set (X := (4 * zlen d + 2) / 3). assert (HX : X = (4 * zlen d + 2) / 3) by done. clearbody X.
    destruct (Z.eqb_spec (X mod 4) 0); cbn [negb]; [Z.div_mod_to_equations; lia|].
    unfold usize. rewrite (Z.mod_small (X + _)); Z.div_mod_to_equations; lia. }
  rewrite (Z.mul_comm 4 B), Z.div_mul by lia. unfold usize at 1. rewrite Z.mod_small by lia.
  unfold with_memory. rewrite alloc_ok, guard_bind by lia.
  destruct (decode_text enc dec pad d [] 0 0 (junk (B * 3 + 1))) as (mem' & E & Hz & Htk);
    [done|done|done|rewrite junk_len by lia; fold B; lia|].
  cbn [app] in E. fold t in E. change (zlen []) with 0 in E. fold B in E. rewrite Z.add_0_l in *.
  assert (forall {C} (m : M (list Z) (Z * Z * Z)) (f : Z -> Z -> Z -> M (list Z) Z) (k : Z -> M (list Z) C) a,
    (* the last block is read where the others end *)
    (m ≫= fun '(i, q, o) => f i q o ≫= k) a = ((m ≫= fun x => f x.1.1 x.1.2 x.2) ≫= k) a) as Hassoc.
  { intros. rewrite bind_assoc. apply bind_cong. by intros [[? ?] ?]. }
  rewrite Hassoc, (bind_ret_eq _ _ _ _ _ E).
  assert (zlen d < zlen mem') as Hend.
  { rewrite Hz, junk_len by lia. unfold B. Z.div_mod_to_equations; lia. }
  rewrite (bind_ret_eq _ _ _ _ _ (poke_eq (zlen d) 0 mem' ltac:(lia))).
  eexists. split; [done|]. rewrite ztake_blit_before by (change (zlen [0]) with 1; lia). done.
Qed.

End Coder.

(** ** Line breaks *)

Lemma filter_all {A} (f : A -> bool) l : Forall (fun x => f x = true) l -> List.filter f l = l.
Proof. induction 1 as [|x l Hx _ IH]; [done|]. simpl. by rewrite Hx, IH. Qed.

Definition not_line_end (c : Z) : bool := negb ((c =? CR) || (c =? LF)).

Lemma filter_line_end crLf b : List.filter not_line_end (line_end crLf b) = [].
Proof. unfold line_end. by destruct (crLf && b). Qed.

(** line ends apart, the text does not depend on the lines *)
Lemma text_filter_lines enc pad data n m :
  List.filter not_line_end (text enc pad true 64 n data) =
  List.filter not_line_end (text enc pad false 64 m data).
Proof.
  revert n m. induction data as [|a|a b|a b c r IH] using blocks_ind; intros n m; cbn [text];
    rewrite ?List.filter_app, ?filter_line_end; [done..|].
  by rewrite (IH (n + 4) (m + 4)).
Qed.

Lemma text_filter enc dec `{!Alphabet enc dec} pad data n :
  bytes data ->
  List.filter not_line_end (text enc pad true 64 n data) = text enc pad false 64 0 data.
Proof.
  intros Hb. rewrite (text_filter_lines _ _ _ n 0). apply filter_all.
  apply (text_forall enc pad false); try done. intros i Hi.
  pose proof (letter_ascii (dec := dec) i Hi). unfold not_line_end, CR, LF. lia.
Qed.

(** ** Arbitrary strings *)

(** what a decoding result may be *)
Definition decode_ok (t : list Z) (r : outcome unit (Z * list Z)) : Prop :=
  match r with
  | Ret (n, mem) _ => 0 < n <= 3 * ((zlen t + 3) / 4) /\ mem !! Z.to_nat n = Some 0
  | Fail _ => True
  | Crash _ => False
  end.

Section Safety.
Context (enc dec : list Z) `{!Alphabet enc dec} (t : list Z) (t_bytes : bytes t).

Lemma next_char_wp {S} i (s : S) (Q : Z -> S -> Prop) F :
  0 <= i < zlen t -> (forall v, -1 <= v < 64 -> Q v s) -> wp (next_char dec t i) Q F s.
Proof.
  intros Hi HQ. unfold next_char. destruct (cell_range t i s Hi) as (c & Hc & E).
  unfold wp. rewrite (bind_ret_eq _ _ _ _ _ E).
  assert (is_byte c) as Hcb by (by eapply (Forall_lookup_1 _ t)). unfold is_byte in Hcb.
  unfold base64_decode_char, to_signed. change (2 ^ (8 - 1)) with 128. change (2 ^ 8) with 256.
  pose proof (dec_size (dec := dec)) as Hd.
  zcase; (zcase; [apply HQ; lia|]); [|lia].
  destruct (cell_range dec c s ltac:(lia)) as (v & Hv & ->). apply HQ.
  exact (Forall_lookup_1 _ _ _ _ (dec_range (dec := dec)) Hv).
Qed.

Lemma poke_wp i x mem (Q : unit -> list Z -> Prop) F :
  0 <= i < zlen mem -> (forall mem', zlen mem' = zlen mem -> Q tt mem') -> wp (poke i x) Q F mem.
Proof.
  intros Hi HQ. unfold wp. rewrite poke_eq by done. apply HQ. apply zlen_blit;
  change (zlen [x]) with 1; lia.
Qed.

Ltac decode_step :=
  first [wp_step | apply next_char_wp; [lia|intros ? ?] | apply poke_wp; [lia|intros ? ?] | done].

Lemma decode_blocks_wp n : forall i q o mem (Q : Z * Z * Z -> list Z -> Prop),
  0 <= i -> i + 4 * Z.of_nat n <= zlen t -> 0 <= q -> q + 3 * Z.of_nat n <= zlen mem ->
  (forall mem', zlen mem' = zlen mem ->
    Q (i + 4 * Z.of_nat n, q + 3 * Z.of_nat n, o + 3 * Z.of_nat n) mem') ->
  wp (decode_blocks dec t n i q o) Q (fun _ => True) mem.
Proof.
  induction n as [|n IH]; intros i q o mem Q Hi Ht Hq Hm HQ; cbn [decode_blocks].
  - apply wp_ret. specialize (HQ mem eq_refl). by rewrite !Z.add_0_r in HQ.
  - repeat decode_step. apply IH; try lia. intros mem2 Hz.
    replace (i + 4 + 4 * Z.of_nat n) with (i + 4 * Z.of_nat (S n)) by lia.
    replace (q + 3 + 3 * Z.of_nat n) with (q + 3 * Z.of_nat (S n)) by lia.
    replace (o + 3 + 3 * Z.of_nat n) with (o + 3 * Z.of_nat (S n)) by lia.
    apply HQ. lia.
Qed.

Lemma decode_last_wp r i q o mem (Q : Z -> list Z -> Prop) :
  0 <= i -> 0 <= r < 4 -> r <> 1 -> i + (if r =? 0 then 4 else r) <= zlen t ->
  0 <= q -> q + 3 <= zlen mem ->
  (forall n mem', zlen mem' = zlen mem -> o < n <= o + 3 -> Q n mem') ->
  wp (decode_last dec t r i q o) Q (fun _ => True) mem.
Proof.
  intros Hi Hr Hr1 Ht Hq Hm HQ.
  unfold decode_last. destruct (Z.eqb_spec r 0); repeat decode_step; apply HQ; lia.
Qed.

Context `{AllocOk} (junk : Z -> list Z) (junk_len : forall n, 0 <= n -> zlen (junk n) = n).

Lemma decode_is_ok pad :
  zlen t < 2 ^ 60 -> decode_ok t (base64_decode junk dec t (zlen t) pad tt).
Proof.
  intros Hl. unfold base64_decode. pose proof (zlen_nonneg t).
  destruct ((pad && (0 <? zlen t mod 4)) || (zlen t mod 4 =? 1)) eqn:Er; [done|].
  set (len := if negb pad && negb (zlen t mod 4 =? 0) then usize (zlen t + (4 - zlen t mod 4)) else zlen t).
  set (B := (zlen t + 3) / 4).
  assert (len = 4 * B /\ 0 <= B < 2 ^ 60 /\ 4 * B = zlen t + (if zlen t mod 4 =? 0 then 0 else 4 - zlen t mod 4))
    as (-> & HB & HB4).
  { unfold len, B. clear len B. assert (0 <= zlen t mod 4 < 4) by (apply Z.mod_pos_bound; lia).
    destruct (Z.eqb_spec (zlen t mod 4) 0), pad; cbn [negb andb] in *;
      [split_and!; Z.div_mod_to_equations; lia..|lia|].
    unfold usize. rewrite (Z.mod_small (zlen t + _)) by lia. split_and!; Z.div_mod_to_equations; lia. }
  rewrite (Z.mul_comm 4 B), Z.div_mul by lia. unfold usize at 1. rewrite Z.mod_small by lia.
  unfold with_memory. rewrite alloc_ok by lia.
  assert (wp (guard (negb (B <? 1));;
     '(i, q, outputLen) ← decode_blocks dec t (Z.to_nat (B - 1)) 0 0 0;
     outputLen ← decode_last dec t (zlen t mod 4) i q outputLen;
     poke outputLen 0;;
     mret outputLen) (fun n mem => 0 < n <= 3 * B /\ mem !! Z.to_nat n = Some 0) (fun _ => True)
     (junk (B * 3 + 1))) as Hwp.
  { assert (zlen (junk (B * 3 + 1)) = B * 3 + 1) as Hj by (apply junk_len; lia).
    assert (0 <= zlen t mod 4 < 4) by (apply Z.mod_pos_bound; lia).
    apply wp_bind, wp_guard; [intros HB1|done]. apply wp_bind, decode_blocks_wp; try lia.
    { revert HB4. zcase; lia. }
    intros mem Hmem. apply wp_bind, decode_last_wp; try lia.
    { revert HB4. zcase; lia. }
    intros n mem' Hmem' Hn. apply wp_bind. unfold wp. rewrite poke_eq by lia. split; [lia|]. apply lookup_blit. lia. }
  unfold wp in Hwp. match goal with |- context [match ?m with _ => _ end] => destruct m end; done.
Qed.
End Safety.

Section Callers.
Context `{AllocOk} (junk : Z -> list Z) (junk_len : forall n, 0 <= n -> zlen (junk n) = n).

(** C36: Base64 as the program uses it, padded with the standard alphabet and unpadded with
    the URL alphabet: encoding any data and decoding the string returns the data and its
    length.  Without data the string is empty, and decoding it fails. *)
Theorem base64_roundtrip data :
  bytes data -> zlen data < 2 ^ 60 ->
  codes_back (crypto_base64_encode junk) (crypto_base64_decode junk) data /\
  codes_back (crypto_base64url_encode junk) (crypto_base64url_decode junk) data.
Proof.
  intros Hb Hl. split.
  - by apply (base64_codes_back junk junk_len enc_base64 dec_base64 true data).
  - by apply (base64_codes_back junk junk_len enc_base64url dec_base64url false data).
Qed.

(** Encoding with line breaks stays inside the block that was computed for it, for all
    lengths, and the string is the plain encoding with carriage returns and line feeds put
    in. *)
Theorem base64_lines data :
  bytes data -> zlen data < 2 ^ 60 ->
  exists mem mem',
    crypto_base64_encode_ex junk data (zlen data) true tt = Ret mem tt /\
    crypto_base64_encode junk data (zlen data) tt = Ret mem' tt /\
    List.filter not_line_end (c_string mem) = c_string mem'.
Proof.
  intros Hb Hl.
  destruct (encode_ex_eq enc_base64 dec_base64 true true junk junk_len data Hb Hl) as (mem & E & Ht).
  destruct (encode_ex_eq enc_base64 dec_base64 true false junk junk_len data Hb Hl) as (mem' & E' & Ht').
  exists mem, mem'. split_and!; [done|done|]. rewrite Ht, Ht'. by apply (text_filter _ dec_base64).
Qed.

(** Decoding is safe for every string, whatever its characters: it reads nothing
    outside the string or the table, stores nothing outside its block, and what it returns
    is a length of at most three bytes per four characters and a block that holds a zero
    byte there. *)
Theorem base64_decode_safe t :
  bytes t -> zlen t < 2 ^ 60 ->
  decode_ok t (crypto_base64_decode junk t (zlen t) tt) /\
  decode_ok t (crypto_base64url_decode junk t (zlen t) tt).
Proof.
  intros Hb Hl. split.
  - by apply (decode_is_ok enc_base64 dec_base64).
  - by apply (decode_is_ok enc_base64url dec_base64url).
Qed.
End Callers.

Lemma base64_roundtrip_witness :
  codes_back (@crypto_base64_encode alloc_always (fun n => zrepeat n 0))
    (@crypto_base64_decode alloc_always (fun n => zrepeat n 0)) [1; 2; 3; 255] /\
  codes_back (@crypto_base64url_encode alloc_always (fun n => zrepeat n 0))
    (@crypto_base64url_decode alloc_always (fun n => zrepeat n 0)) [1; 2; 3; 255].
Proof.
  apply (@base64_roundtrip alloc_always alloc_always_ok (fun n => zrepeat n 0) (fun n => zlen_zrepeat n 0)).
  - by apply bytes_check.
  - by vm_compute.
Defined.

Lemma base64_lines_witness :
  exists mem mem',
    @crypto_base64_encode_ex alloc_always (fun n => zrepeat n 0) (zrepeat 50 7) 50 true tt = Ret mem tt /\
    @crypto_base64_encode alloc_always (fun n => zrepeat n 0) (zrepeat 50 7) 50 tt = Ret mem' tt /\
    List.filter not_line_end (c_string mem) = c_string mem'.
Proof.
  apply (@base64_lines alloc_always alloc_always_ok (fun n => zrepeat n 0) (fun n => zlen_zrepeat n 0)
    (zrepeat 50 7)).
  - by apply bytes_check.
  - by vm_compute.
Defined.

Lemma base64_decode_safe_witness :
  decode_ok [81; 81; 61; 33] (@crypto_base64_decode alloc_always (fun n => zrepeat n 0) [81; 81; 61; 33] 4 tt) /\
  decode_ok [81; 81; 61; 33] (@crypto_base64url_decode alloc_always (fun n => zrepeat n 0) [81; 81; 61; 33] 4 tt).
Proof.
  apply (@base64_decode_safe alloc_always alloc_always_ok (fun n => zrepeat n 0) (fun n => zlen_zrepeat n 0)
    [81; 81; 61; 33]).
  - by apply bytes_check.
  - by vm_compute.
Defined.
