(* ===== verification/BufferedBio.v ===== *)
(** * The buffered socket of the transport

    Model of the two BIO layers of [libfreerdp/core/tcp.c].  The simple layer hands bytes to
    a non-blocking socket and turns its errors into the flags of the BIO; the buffered layer
    queues outgoing bytes in a ring buffer and passes on as many as the layer below takes.
    The socket and the dispatch of the BIO calls belong to the operating system and to
    OpenSSL: the socket is a parameter ([Socket]), and the layer below the buffered one is an
    interface ([BIO]) that the simple layer implements. *)

From S2P Require Import Prelude RingBuffer.

Definition INT32_MAX : Z := 2147483647.
Definition LONG_MAX : Z := 9223372036854775807.

(** the flags of a BIO that the layers use *)
Record bio_flags := mkFlags {
  FLAGS_READ : bool;
  FLAGS_WRITE : bool;
  FLAGS_SHOULD_RETRY : bool
}.

Definition flag_read (b : bool) (f : bio_flags) : bio_flags :=
  mkFlags b (FLAGS_WRITE f) (FLAGS_SHOULD_RETRY f).
Definition flag_write (b : bool) (f : bio_flags) : bio_flags :=
  mkFlags (FLAGS_READ f) b (FLAGS_SHOULD_RETRY f).
Definition flag_retry (b : bool) (f : bio_flags) : bio_flags :=
  mkFlags (FLAGS_READ f) (FLAGS_WRITE f) b.

(** ** Interfaces *)

(** A layer below: what its calls return, and its flags afterwards. *)
Class BIO (B : Type) := {
  BIO_write : list Z -> B -> Z * B;
  BIO_read : Z -> B -> Z * list Z * B;
  BIO_should_retry : B -> bool;
  BIO_should_write : B -> bool;
  BIO_should_read : B -> bool
}.

(** A layer keeps its word: it takes at most what it is given, it delivers what it takes, in
    order, and when it takes nothing for now it says that it waits to write. *)
Class BIOLaws (B : Type) `{BIO B} := {
  delivered : B -> list Z;
  write_takes : forall bs b, (BIO_write bs b).1 <= zlen bs;
  write_delivers : forall bs b,
    delivered (BIO_write bs b).2 = delivered b ++ ztake (BIO_write bs b).1 bs;
  write_waits : forall bs b, (BIO_write bs b).1 <= 0 ->
    BIO_should_retry (BIO_write bs b).2 = true -> BIO_should_write (BIO_write bs b).2 = true
}.

(** The socket: [send] and [recv] return their status; after a failed call [error_retryable]
    tells whether the last error is one of [WSAEWOULDBLOCK], [WSAEINTR], [WSAEINPROGRESS]
    and [WSAEALREADY]. *)
Class Socket (K : Type) := {
  send : list Z -> K -> Z * K;
  recv : Z -> K -> Z * list Z * K;
  error_retryable : K -> bool
}.

Class SocketLaws (K : Type) `{Socket K} := {
  transmitted : K -> list Z;
  send_takes : forall bs k, (send bs k).1 <= zlen bs;
  send_transmits : forall bs k, transmitted (send bs k).2 = transmitted k ++ ztake (send bs k).1 bs
}.

(** ** The simple layer *)

Section Simple.
Context {K : Type} `{Socket K}.

Record WINPR_BIO_SIMPLE_SOCKET := mkSimple {
  socket : K;
  simple_flags : bio_flags
}.

Definition transport_bio_simple_write (buf : option (list Z)) (b : WINPR_BIO_SIMPLE_SOCKET) :
    Z * WINPR_BIO_SIMPLE_SOCKET :=
  match buf with
  | None => (0, b)
  | Some bs =>
      let flags := flag_write false (simple_flags b) in
      let '(status, k) := send bs (socket b) in
      if status <=? 0 then
        if error_retryable k then (status, mkSimple k (flag_retry true (flag_write true flags)))
        else (status, mkSimple k (flag_retry false flags))
      else (status, mkSimple k flags)
  end.

(** the status, and the bytes that were stored in the caller's buffer *)
Definition transport_bio_simple_read (buf : bool) (size : Z) (b : WINPR_BIO_SIMPLE_SOCKET) :
    Z * list Z * WINPR_BIO_SIMPLE_SOCKET :=
  if negb buf then (0, [], b) else
  let flags := flag_read false (simple_flags b) in
  let '(status, bs, k) := recv size (socket b) in
  if 0 <? status then (status, bs, mkSimple k flags)
  else if status =? 0 then (0, bs, mkSimple k (flag_retry false flags))
  else if error_retryable k then (-1, bs, mkSimple k (flag_retry true (flag_read true flags)))
  else (-1, bs, mkSimple k (flag_retry false flags)).

#[export] Instance simple_BIO : BIO WINPR_BIO_SIMPLE_SOCKET := {|
  BIO_write bs := transport_bio_simple_write (Some bs);
  BIO_read := transport_bio_simple_read true;
  BIO_should_retry b := FLAGS_SHOULD_RETRY (simple_flags b);
  BIO_should_write b := FLAGS_WRITE (simple_flags b);
  BIO_should_read b := FLAGS_READ (simple_flags b)
|}.
End Simple.
Arguments WINPR_BIO_SIMPLE_SOCKET K : clear implicits.

(** ** The buffered layer *)

Section Buffered.
Context {B : Type} `{BIO B} `{Heap}.

Record WINPR_BIO_BUFFERED_SOCKET := mkBuffered {
  readBlocked : bool;
  writeBlocked : bool;
  xmitBuffer : RingBuffer;
  buffered_flags : bio_flags;
  next_bio : B
}.

Abbreviation bio := WINPR_BIO_BUFFERED_SOCKET.

Definition set_readBlocked (v : bool) (f : bio_flags -> bio_flags) (b : bio) : bio :=
  mkBuffered v (writeBlocked b) (xmitBuffer b) (f (buffered_flags b)) (next_bio b).
Definition set_writeBlocked (v : bool) (f : bio_flags -> bio_flags) (b : bio) : bio :=
  mkBuffered (readBlocked b) v (xmitBuffer b) (f (buffered_flags b)) (next_bio b).
Definition set_flags (f : bio_flags -> bio_flags) (b : bio) : bio :=
  mkBuffered (readBlocked b) (writeBlocked b) (xmitBuffer b) (f (buffered_flags b)) (next_bio b).
Definition set_xmitBuffer (rb : RingBuffer) (b : bio) : bio :=
  mkBuffered (readBlocked b) (writeBlocked b) rb (buffered_flags b) (next_bio b).
Definition set_next (n : B) (b : bio) : bio :=
  mkBuffered (readBlocked b) (writeBlocked b) (xmitBuffer b) (buffered_flags b) n.

(** a call on the transmit buffer *)
Definition on_ring {A} (m : M RingBuffer A) : M bio A := fun b =>
  match m (xmitBuffer b) with
  | Ret a rb => Ret a (set_xmitBuffer rb b)
  | Fail rb => Fail (set_xmitBuffer rb b)
  | Crash f => Crash f
  end.

(** how the loop over the chunks ends *)
Inductive progress := Sent | Fatal | Blocked.

(** [fuel] bounds the number of calls on the layer below for one chunk: a layer that takes
    nothing, may be tried again and does not wait to write keeps the loop going. *)
Fixpoint write_chunk (fuel : nat) (off size committedBytes : Z) : M bio (progress * Z) :=
  if size =? 0 then mret (Sent, committedBytes) else
  match fuel with
  | O => crash Diverges
  | S fuel =>
      b ← get;
      let wr := Z.min INT32_MAX size in
      let '(status, n) := BIO_write (slice off wr (data (xmitBuffer b))) (next_bio b) in
      modify (set_next n);;
      if status <=? 0 then
        if negb (BIO_should_retry n) then
          modify (set_flags (flag_retry false));;
          mret (Fatal, committedBytes)
        else if BIO_should_write n then
          modify (set_writeBlocked true (flag_write true));;
          mret (Blocked, committedBytes)
        else write_chunk fuel off size committedBytes
      else write_chunk fuel (off + status) (usize (size - status)) (usize (committedBytes + status))
  end.

Fixpoint write_chunks (fuel : nat) (chunks : list (Z * Z)) (committedBytes : Z) : M bio (progress * Z) :=
  match chunks with
  | [] => mret (Sent, committedBytes)
  | (off, size) :: chunks =>
      '(p, committedBytes) ← write_chunk fuel off size committedBytes;
      match p with
      | Sent => write_chunks fuel chunks committedBytes
      | _ => mret (p, committedBytes)
      end
  end.

Definition transport_bio_buffered_write (fuel : nat) (buf : option (list Z)) (num : Z) : M bio Z :=
  if num <? 0 then mret num else
  modify (set_writeBlocked false (flag_write false));;
  stored ← (match buf with
            | Some l => if 0 <? num then attempt (on_ring (ringbuffer_write (ztake num l)))
                        else mret (Some tt)
            | None => mret (Some tt)
            end);
  match stored with
  | None => mret (-1)
  | Some _ =>
      b ← get;
      let chunks := ringbuffer_peek (xmitBuffer b) (ringbuffer_used (xmitBuffer b)) in
      '(p, committedBytes) ← write_chunks fuel chunks 0;
      on_ring (ringbuffer_commit_read_bytes committedBytes);;
      mret (match p with Fatal => -1 | _ => num end)
  end.

Definition transport_bio_buffered_read (size : Z) : M bio (Z * list Z) :=
  modify (set_readBlocked false (flag_read false));;
  b ← get;
  let '(status, bs, n) := BIO_read size (next_bio b) in
  modify (set_next n);;
  if status <=? 0 then
    if negb (BIO_should_retry n) then
      modify (set_flags (flag_retry false));; mret (status, bs)
    else
      modify (set_flags (flag_retry true));;
      if BIO_should_read n then modify (set_readBlocked true (flag_read true));; mret (status, bs)
      else mret (status, bs)
  else mret (status, bs).

Definition transport_bio_buffered_puts : Z := 1.
Definition transport_bio_buffered_gets : Z := 1.

(** the commands of the buffered layer; the others go to the [BIO_ctrl] of the layer below *)
Inductive ctrl :=
| CTRL_FLUSH | CTRL_WPENDING | CTRL_PENDING | C_READ_BLOCKED | C_WRITE_BLOCKED
| CTRL_OTHER (cmd arg1 : Z).

Definition transport_bio_buffered_ctrl (BIO_ctrl : Z -> Z -> B -> Z * B) (fuel : nat) (cmd : ctrl) :
    M bio Z :=
  b ← get;
  match cmd with
  | CTRL_FLUSH =>
      if ringbuffer_used (xmitBuffer b) =? 0 then mret 1
      else
        status ← transport_bio_buffered_write fuel None 0;
        mret (if 0 <=? status then 1 else -1)
  | CTRL_WPENDING =>
      assert (ringbuffer_used (xmitBuffer b) <=? LONG_MAX);;
      mret (ringbuffer_used (xmitBuffer b))
  | CTRL_PENDING => mret 0
  | C_READ_BLOCKED => mret (Z.b2z (readBlocked b))
  | C_WRITE_BLOCKED => mret (Z.b2z (writeBlocked b))
  | CTRL_OTHER cmd arg1 =>
      let '(status, n) := BIO_ctrl cmd arg1 (next_bio b) in
      modify (set_next n);; mret status
  end.

(** [calloc_ok] tells whether the structure itself can be allocated; [flags] are the ones
    the BIO had before *)
Definition transport_bio_buffered_new (calloc_ok : bool) (flags : bio_flags) (next : B) : option bio :=
  if calloc_ok then
    match ringbuffer_init 0x10000 with
    | Some rb => Some (mkBuffered false false rb (flag_retry true flags) next)
    | None => None
    end
  else None.

(** [NULL] data are left alone *)
Definition transport_bio_buffered_free (b : option bio) : Z * option bio :=
  match b with
  | None => (0, None)
  | Some b => (1, Some (set_xmitBuffer (ringbuffer_destroy (xmitBuffer b)) b))
  end.
End Buffered.
Arguments WINPR_BIO_BUFFERED_SOCKET B : clear implicits.

(** ** The simple layer keeps its word *)

#[export] Program Instance simple_laws {K} `{SocketLaws K} : BIOLaws (WINPR_BIO_SIMPLE_SOCKET K) :=
  {| delivered b := transmitted (socket b) |}.
Next Obligation.
  intros K ? ? bs b. simpl. pose proof (send_takes bs (socket b)).
  destruct (send bs (socket b)) as [status k]. simpl in *. by repeat zcase.
Qed.
Next Obligation.
  intros K ? ? bs b. simpl. pose proof (send_transmits bs (socket b)).
  destruct (send bs (socket b)) as [status k]. simpl in *. by repeat zcase.
Qed.
Next Obligation.
  intros K ? ? bs b. simpl. destruct (send bs (socket b)) as [status k].
  repeat zcase; simpl; [done|done|lia].
Qed.

(** ** The buffered layer delivers in order *)

Section Delivery.
Context {B : Type} `{BIOLaws B} `{Heap}.
Abbreviation bio := (WINPR_BIO_BUFFERED_SOCKET B).
Implicit Types b : bio.

(** A part of the sending: [k] bytes of [l] were delivered and are still in the buffer; it
    stopped early only if the layer below is blocked or broken. *)
Definition sent (l : list Z) (b b' : bio) (p : progress) (k : Z) : Prop :=
  xmitBuffer b' = xmitBuffer b /\ 0 <= k <= zlen l /\
  delivered (next_bio b') = delivered (next_bio b) ++ ztake k l /\
  (p = Sent -> k = zlen l) /\
  writeBlocked b' = (match p with Blocked => true | _ => writeBlocked b end).

Lemma sent_nil b : sent [] b b Sent 0.
Proof. repeat split; try done. by rewrite app_nil_r. Qed.

(** sending one part after another *)
Lemma sent_app l1 l2 b b1 b2 p k :
  sent l1 b b1 Sent (zlen l1) -> sent l2 b1 b2 p k -> sent (l1 ++ l2) b b2 p (zlen l1 + k).
Proof.
  intros (X1 & K1 & D1 & _ & W1) (X2 & K2 & D2 & E2 & W2). pose proof (zlen_nonneg l1).
  split_and!; [congruence|lia|rewrite zlen_app; lia| | |rewrite W2; by destruct p; rewrite ?W1].
  - rewrite D2, D1, ztake_app_ge, <- app_assoc by lia. rewrite (ztake_all (zlen l1)) by lia.
    do 3 f_equal. lia.
  - intros Hp. rewrite zlen_app, (E2 Hp). done.
Qed.

Lemma sent_stop l1 l2 b b1 p k : p <> Sent -> sent l1 b b1 p k -> sent (l1 ++ l2) b b1 p k.
Proof.
  intros Hp (X1 & K1 & D1 & _ & W1). pose proof (zlen_nonneg l2).
  split_and!; [done|lia|rewrite zlen_app; lia|by rewrite D1, ztake_app_le by lia|done|done].
Qed.

Lemma write_chunk_ok fuel : forall off sz c b,
  0 <= off -> 0 <= sz -> off + sz <= zlen (data (xmitBuffer b)) -> 0 <= c -> c + sz < 2 ^ 64 ->
  (Z.to_nat sz < fuel)%nat ->
  exists p k b', write_chunk fuel off sz c b = Ret (p, c + k) b' /\
    sent (slice off sz (data (xmitBuffer b))) b b' p k.
Proof.
  induction fuel as [|fuel IH]; intros off sz c b Hoff Hsz Hin Hc Hlim Hfuel; [lia|].
  cbn [write_chunk]. destruct (Z.eqb_spec sz 0) as [->|Hne].
  { exists Sent, 0, b. split; [by rewrite Z.add_0_r|]. apply sent_nil. }
  rewrite get_bind. cbv zeta. set (wr := Z.min INT32_MAX sz).
  set (d := data (xmitBuffer b)) in *. set (x := slice off wr d).
  assert (0 < wr <= sz) as Hwr by (unfold wr, INT32_MAX; lia).
  assert (zlen x = wr) as Hx by (apply zlen_slice; lia).
  pose proof (write_takes x (next_bio b)) as Ht. pose proof (write_delivers x (next_bio b)) as Hd.
  pose proof (write_waits x (next_bio b)) as Hw.
  destruct (BIO_write x (next_bio b)) as [status n]. cbn [fst snd] in *.
  rewrite modify_bind. destruct (Z.leb_spec status 0) as [Hs|Hs].
  - assert (ztake status x = []) as E0 by (unfold ztake; by replace (Z.to_nat status) with O by lia).
    rewrite E0, app_nil_r in Hd.
    destruct (BIO_should_retry n) eqn:Hr; cbn [negb].
    + rewrite Hw by done. eexists Blocked, 0, _. rewrite Z.add_0_r. split; [done|].
      repeat split; try done; [pose proof (zlen_nonneg (slice off sz d)); lia|].
      simpl. by rewrite Hd, app_nil_r.
    + eexists Fatal, 0, _. rewrite Z.add_0_r. split; [done|].
      repeat split; try done; [pose proof (zlen_nonneg (slice off sz d)); lia|].
      simpl. by rewrite Hd, app_nil_r.
  - rewrite !usize_id by lia.
    destruct (IH (off + status) (sz - status) (c + status) (set_next n b)) as (p & k & b' & E & S).
    { lia. } { lia. } { simpl. fold d. lia. } { lia. } { lia. } { lia. }
    exists p, (status + k), b'. rewrite E. split; [f_equal; f_equal; lia|].
    cbn [xmitBuffer set_next] in S. fold d in S.
    replace sz with (status + (sz - status)) at 1 by lia. rewrite slice_split by lia.
    assert (zlen (slice off status d) = status) as Hl by (apply zlen_slice; lia).
    rewrite <- Hl at 4. apply (sent_app _ _ _ (set_next n b)); [|done]. rewrite Hl.
    repeat split; try done; try lia. simpl. rewrite Hd, (ztake_all status (slice _ _ _)) by lia.
    f_equal. unfold x, slice. rewrite ztake_ztake by lia. f_equal. lia.
Qed.

Lemma write_chunks_ok fuel chunks : forall c b,
  Forall (fun '(off, k) => 0 <= off /\ 0 < k /\ off + k <= zlen (data (xmitBuffer b)) /\
    (Z.to_nat k < fuel)%nat) chunks ->
  let l := concat (map (fun '(off, k) => slice off k (data (xmitBuffer b))) chunks) in
  0 <= c -> c + zlen l < 2 ^ 64 ->
  exists p k b', write_chunks fuel chunks c b = Ret (p, c + k) b' /\ sent l b b' p k.
Proof.
  induction chunks as [|[off sz] chunks IH]; intros c b Hch l Hc Hlim; cbn [write_chunks].
  { exists Sent, 0, b. rewrite Z.add_0_r. split; [done|apply sent_nil]. }
  apply Forall_cons_1 in Hch as [(Hoff & Hsz & Hin & Hf) Hch]. unfold l in *. clear l.
  cbn [map concat] in *. set (d := data (xmitBuffer b)) in *. rewrite zlen_app in Hlim.
  assert (zlen (slice off sz d) = sz) as Hl by (apply zlen_slice; lia). rewrite Hl in Hlim.
  pose proof (zlen_nonneg (concat (map (fun '(off, k) => slice off k d) chunks))).
  destruct (write_chunk_ok fuel off sz c b) as (p & k & b1 & E & S); try done; try lia.
  fold d in S. rewrite (bind_ret_eq _ _ _ _ _ E). destruct p.
  - pose proof S as (X1 & _ & _ & Hk & _). specialize (Hk eq_refl). subst k.
    destruct (IH (c + zlen (slice off sz d)) b1) as (p & k & b2 & E2 & S2).
    { by rewrite X1. } { lia. } { rewrite X1. fold d. lia. }
    rewrite X1 in S2. fold d in S2. exists p, (zlen (slice off sz d) + k), b2. rewrite E2.
    split; [f_equal; f_equal; lia|by apply (sent_app _ _ _ b1)].
  - exists Fatal, k, b1. split; [done|by apply sent_stop].
  - exists Blocked, k, b1. split; [done|by apply sent_stop].
Qed.

(** [k] bytes have left the buffer, in order *)
Definition moved_on (l : list Z) (b b' : bio) (k : Z) : Prop :=
  0 <= k <= zlen (contents (xmitBuffer b) ++ l) /\
  delivered (next_bio b') = delivered (next_bio b) ++ ztake k (contents (xmitBuffer b) ++ l) /\
  contents (xmitBuffer b') = zdrop k (contents (xmitBuffer b) ++ l) /\
  rb_ok (xmitBuffer b') /\ room (xmitBuffer b') <= room (xmitBuffer b) + zlen l.

(** no chunk is longer than all of them *)
Lemma chunks_bounded (d : list Z) chunks :
  Forall (fun '(off, k) => 0 <= off /\ 0 < k /\ off + k <= zlen d) chunks ->
  Forall (fun '(off, k) => k <= zlen (concat (map (fun '(off, k) => slice off k d) chunks))) chunks.
Proof.
  induction 1 as [|[off k] chunks Hk Hch IH]; [done|]. cbn [map concat].
  set (l := concat _) in *. pose proof (zlen_nonneg l).
  apply Forall_cons_2.
  - rewrite zlen_app, zlen_slice by lia. lia.
  - eapply Forall_impl; [|exact IH]. intros [off' k'] Hle. rewrite zlen_app.
    pose proof (zlen_nonneg (slice off k d)). lia.
Qed.

(** The second half of a write: passing on what the buffer holds. *)
Lemma drain_ok fuel num b :
  rb_ok (xmitBuffer b) -> (Z.to_nat (zlen (contents (xmitBuffer b))) < fuel)%nat ->
  writeBlocked b = false -> 0 <= num ->
  exists r b' k,
    ('(p, committedBytes) ← write_chunks fuel
        (ringbuffer_peek (xmitBuffer b) (ringbuffer_used (xmitBuffer b))) 0;
     on_ring (ringbuffer_commit_read_bytes committedBytes);;
     mret (match p with Fatal => -1 | _ => num end)) b = Ret r b' /\
    moved_on [] b b' k /\ (r = num \/ r = -1) /\
    (0 <= r -> writeBlocked b' = false -> contents (xmitBuffer b') = []).
Proof.
  intros Hok Hfuel HwB Hnum. set (rb := xmitBuffer b) in *.
  pose proof (used_usize rb Hok) as Eu. pose proof (used_range rb Hok) as Hu.
  pose proof (contents_len rb Hok) as Hlen. pose proof (ok_size rb Hok) as Hsz.
  change (ringbuffer_used rb) with (usize (size rb - freeSize rb)). rewrite Eu.
  destruct (peek_ok rb (used rb) Hok) as (Ec & _ & Hch); [unfold is_usize; lia|].
  rewrite (ztake_all (used rb)) in Ec by lia.
  destruct (write_chunks_ok fuel (ringbuffer_peek rb (used rb)) 0 b) as (p & k & b1 & E & S).
  { fold rb. pose proof (chunks_bounded (data rb) (ringbuffer_peek rb (used rb))) as Hb.
    rewrite (ok_data rb Hok), Ec in Hb. specialize (Hb Hch). rewrite (ok_data rb Hok).
    eapply Forall_impl; [|apply (List.Forall_and Hch Hb)].
    intros [off n] [? ?]. lia. }
  { lia. } { fold rb. rewrite Ec. lia. }
  fold rb in S. rewrite Ec in S. destruct S as (X1 & K1 & D1 & Hk & W1).
  rewrite (bind_ret_eq _ _ _ _ _ E). rewrite Z.add_0_l.
  destruct (commit_read_ok rb k Hok ltac:(lia)) as (rb' & Ecm & Hok' & Hc' & Hr').
  assert (on_ring (ringbuffer_commit_read_bytes k) b1 = Ret tt (set_xmitBuffer rb' b1)) as Eo
    by (unfold on_ring; rewrite X1; fold rb; by rewrite Ecm).
  rewrite (bind_ret_eq _ _ _ _ _ Eo).
  eexists _, _, k. split; [done|]. unfold moved_on. simpl. rewrite app_nil_r. fold rb. split_and!; try done.
  - lia.
  - lia.
  - change (zlen []) with 0. lia.
  - destruct p; auto.
  - intros Hr HwB'. rewrite Hc'. destruct p; [|lia|by rewrite W1 in HwB'].
    rewrite (Hk eq_refl). by apply zdrop_all.
Qed.

(** Storing the bytes in the buffer, the first half of a write. *)
Lemma store_ok buf b :
  rb_ok (xmitBuffer b) -> room (xmitBuffer b) + zlen (default [] buf) < 2 ^ 61 ->
  let num := zlen (default [] buf) in
  exists a rb', (match buf with
     | Some l => if 0 <? num then attempt (on_ring (ringbuffer_write (ztake num l)))
                 else mret (Some tt)
     | None => mret (Some tt)
     end) b = Ret a (set_xmitBuffer rb' b) /\ rb_ok rb' /\
    match a with
    | Some _ => contents rb' = contents (xmitBuffer b) ++ default [] buf /\
        room rb' <= room (xmitBuffer b) + num
    | None => rb' = xmitBuffer b /\ exists n, heap_ok n = false
    end.
Proof.
  intros Hok Hroom num.
  assert (b = set_xmitBuffer (xmitBuffer b) b) as Eb by (by destruct b).
  destruct buf as [l|]; simpl in num.
  - destruct (Z.ltb_spec 0 num) as [Hpos|Hz].
    + unfold num. rewrite (ztake_all (zlen l)) by lia. unfold attempt, on_ring.
      pose proof (write_ok (xmitBuffer b) l Hok Hroom) as Hw.
      destruct ((zlen l <? freeSize (xmitBuffer b)) || heap_ok (size (xmitBuffer b) + zlen l)) eqn:Eh.
      * destruct Hw as (rb' & -> & Hok' & Hc & Hr). by exists (Some tt), rb'.
      * rewrite Hw. exists None, (xmitBuffer b). split_and!; try done. exists (size (xmitBuffer b) + zlen l).
        by apply orb_false_iff in Eh as [_ ?].
    + exists (Some tt), (xmitBuffer b). rewrite <- Eb. split_and!; try done.
      * simpl. by rewrite (zlen_zero_inv l), app_nil_r by (unfold num in Hz; pose proof (zlen_nonneg l); lia).
      * pose proof (zlen_nonneg l). unfold num. lia.
  - exists (Some tt), (xmitBuffer b). rewrite <- Eb. split_and!; try done.
    + by rewrite app_nil_r.
    + change num with 0. lia.
Qed.

Lemma write_step fuel buf b :
  let l := default [] buf in
  rb_ok (xmitBuffer b) -> room (xmitBuffer b) + zlen l < 2 ^ 61 ->
  (Z.to_nat (zlen (contents (xmitBuffer b)) + zlen l) < fuel)%nat ->
  exists r b', transport_bio_buffered_write fuel buf (zlen l) b = Ret r b' /\
    ((exists k, moved_on l b b' k /\ (r = zlen l \/ r = -1) /\
       (0 <= r -> writeBlocked b' = false -> contents (xmitBuffer b') = [])) \/
     (r = -1 /\ next_bio b' = next_bio b /\ xmitBuffer b' = xmitBuffer b /\
      exists n, heap_ok n = false)).
Proof.
  intros l Hok Hroom Hfuel. pose proof (zlen_nonneg l). unfold transport_bio_buffered_write.
  zcase; [lia|]. rewrite modify_bind. set (b1 := set_writeBlocked false _ b).
  destruct (store_ok buf b1) as (a & rb' & E & Hok' & Ha); [done|done|].
  fold l in E, Ha. rewrite (bind_ret_eq _ _ _ _ _ E). destruct a as [u|].
  - destruct Ha as (Hc & Hr). change (xmitBuffer b1) with (xmitBuffer b) in *.
    rewrite get_bind. cbv zeta.
    destruct (drain_ok fuel (zlen l) (set_xmitBuffer rb' b1)) as (r & b' & k & -> & Hm & Hres & Hdone).
    { done. } { simpl. rewrite Hc, zlen_app. fold l. done. } { done. } { lia. }
    exists r, b'. split; [done|]. left. exists k. split; [|done].
    destruct Hm as (Hk & Hd & Hct & Hok2 & Hr2). cbn [xmitBuffer next_bio set_xmitBuffer] in *.
    rewrite app_nil_r, Hc in *. fold l in Hk, Hd, Hct. split_and!; try done; try lia.
    change (zlen []) with 0 in Hr2. lia.
  - destruct Ha as (-> & Hn). exists (-1), (set_xmitBuffer (xmitBuffer b1) b1).
    split; [done|]. right. done.
Qed.

(** everything that was handed to the layer: what has left it, and what still waits *)
Definition accepted (b : bio) : list Z := delivered (next_bio b) ++ contents (xmitBuffer b).

Lemma moved_accepted l b b' k : moved_on l b b' k -> accepted b' = accepted b ++ l.
Proof.
  intros (_ & Hd & Hc & _). unfold accepted. rewrite Hd, Hc, <- app_assoc, ztake_zdrop.
  by rewrite app_assoc.
Qed.

Lemma moved_contents l b b' k :
  moved_on l b b' k -> zlen (contents (xmitBuffer b')) <= zlen (contents (xmitBuffer b)) + zlen l.
Proof. intros (Hk & _ & -> & _). rewrite zlen_zdrop, zlen_app by lia. lia. Qed.

(** Writing to the buffered socket, on top of any layer that keeps its word: the call
    returns; nothing is lost, duplicated or reordered, what has been delivered and what is
    buffered together grow by exactly the new bytes; if the call reports success and the
    layer below is not blocked, nothing is left in the buffer.  Only without memory for the
    buffer is the write refused, and then nothing changes. *)
Theorem buffered_write_delivers fuel buf b :
  let l := default [] buf in
  rb_ok (xmitBuffer b) -> room (xmitBuffer b) + zlen l < 2 ^ 61 ->
  (Z.to_nat (zlen (contents (xmitBuffer b)) + zlen l) < fuel)%nat ->
  exists r b', transport_bio_buffered_write fuel buf (zlen l) b = Ret r b' /\
    rb_ok (xmitBuffer b') /\
    ((accepted b' = accepted b ++ l /\ delivered (next_bio b) `prefix_of` delivered (next_bio b') /\
      (r = zlen l \/ r = -1) /\
      (0 <= r -> writeBlocked b' = false -> contents (xmitBuffer b') = [])) \/
     (r = -1 /\ accepted b' = accepted b /\ exists n, heap_ok n = false)).
Proof.
  intros l Hok Hroom Hfuel.
  destruct (write_step fuel buf b Hok Hroom Hfuel) as (r & b' & E & [(k & Hm & Hr & Hd)|(Hr & Hn & Hx & Hh)]);
    exists r, b'; (split; [done|]).
  - split; [apply Hm|]. left. split; [by eapply moved_accepted|]. split; [|done].
    destruct Hm as (_ & -> & _). by eexists.
  - unfold accepted. rewrite Hn, Hx. split; [done|]. by right.
Qed.

(** ** Sessions *)

(** what the transport does with the socket: it submits packets and flushes *)
Inductive call := Submit (bs : list Z) | Flush.

Definition submitted (c : call) : list Z := match c with Submit bs => bs | Flush => [] end.

Definition bio_call (ctrl : Z -> Z -> B -> Z * B) (fuel : nat) (c : call) : M bio Z :=
  match c with
  | Submit bs => transport_bio_buffered_write fuel (Some bs) (zlen bs)
  | Flush => transport_bio_buffered_ctrl ctrl fuel CTRL_FLUSH
  end.

Fixpoint bio_run (ctrl : Z -> Z -> B -> Z * B) (fuel : nat) (cs : list call) : M bio (list Z) :=
  match cs with
  | [] => mret []
  | c :: cs => r ← bio_call ctrl fuel c; rs ← bio_run ctrl fuel cs; mret (r :: rs)
  end.

Context (heap_full : forall n, heap_ok n = true).

Lemma call_ok ctrl fuel c b :
  let l := submitted c in
  rb_ok (xmitBuffer b) -> room (xmitBuffer b) + zlen l < 2 ^ 61 ->
  (Z.to_nat (zlen (contents (xmitBuffer b)) + zlen l) < fuel)%nat ->
  exists r b', bio_call ctrl fuel c b = Ret r b' /\ rb_ok (xmitBuffer b') /\
    accepted b' = accepted b ++ l /\
    zlen (contents (xmitBuffer b')) <= zlen (contents (xmitBuffer b)) + zlen l /\
    room (xmitBuffer b') <= room (xmitBuffer b) + zlen l /\
    (0 <= r -> writeBlocked b' = false -> contents (xmitBuffer b') = []).
Proof.
  intros l Hok Hroom Hfuel. destruct c as [bs|]; simpl in l.
  - destruct (write_step fuel (Some bs) b Hok Hroom Hfuel) as (r & b' & E & [(k & Hm & Hr & Hd)|(_ & _ & _ & n & Hn)]);
      [|by rewrite heap_full in Hn].
    exists r, b'. split; [done|]. split; [apply Hm|]. split; [by eapply moved_accepted|].
    split; [by eapply moved_contents|]. split; [apply Hm|done].
  - simpl. unfold transport_bio_buffered_ctrl. rewrite get_bind.
    change (ringbuffer_used (xmitBuffer b)) with (usize (size (xmitBuffer b) - freeSize (xmitBuffer b))).
    rewrite used_usize by done. pose proof (contents_len _ Hok) as Hl. unfold l in *.
    change (zlen []) with 0 in *. destruct (Z.eqb_spec (used (xmitBuffer b)) 0) as [E0|E0].
    + exists 1, b. rewrite app_nil_r. split_and!; try done; try lia. intros _ _. apply zlen_zero_inv. lia.
    + destruct (write_step fuel None b Hok Hroom Hfuel) as (r & b' & E & [(k & Hm & Hr & Hd)|(_ & _ & _ & n & Hn)]);
        [|by rewrite heap_full in Hn].
      simpl in E. change (zlen []) with 0 in E. rewrite (bind_ret_eq _ _ _ _ _ E).
      eexists _, b'. split; [done|]. split; [apply Hm|]. split; [by eapply (moved_accepted [])|].
      split; [by eapply (moved_contents [])|]. split; [apply Hm|].
      destruct (Z.leb_spec 0 r); [auto|lia].
Qed.

Lemma run_ok ctrl fuel cs : forall b,
  let l := concat (map submitted cs) in
  rb_ok (xmitBuffer b) -> room (xmitBuffer b) + zlen l < 2 ^ 61 ->
  (Z.to_nat (zlen (contents (xmitBuffer b)) + zlen l) < fuel)%nat ->
  exists rs b', bio_run ctrl fuel cs b = Ret rs b' /\ rb_ok (xmitBuffer b') /\
    accepted b' = accepted b ++ l /\
    (cs <> [] -> Forall (fun r => 0 <= r) rs -> writeBlocked b' = false -> contents (xmitBuffer b') = []).
Proof.
  induction cs as [|c cs IH]; intros b l Hok Hroom Hfuel.
  { exists [], b. unfold l. simpl. by rewrite app_nil_r. }
  unfold l in *. clear l. cbn [map concat] in *. rewrite zlen_app in *.
  pose proof (zlen_nonneg (submitted c)). pose proof (zlen_nonneg (concat (map submitted cs))).
  destruct (call_ok ctrl fuel c b) as (r & b1 & E & Hok1 & Ha & Hc & Hr & Hd); [done|lia|lia|].
  destruct (IH b1) as (rs & b' & E' & Hok' & Ha' & Hd'); [done|lia|lia|].
  exists (r :: rs), b'. cbn [bio_run]. rewrite (bind_ret_eq _ _ _ _ _ E), (bind_ret_eq _ _ _ _ _ E').
  split; [done|]. split; [done|]. split; [by rewrite Ha', Ha, app_assoc|].
  intros _ Hrs Hw. apply Forall_cons_1 in Hrs as [Hr0 Hrs]. destruct cs as [|c' cs]; [|by apply Hd'].
  injection E' as <- <-. auto.
Qed.
End Delivery.

(** C11: A session over a socket: after any sequence of packets and flushes, what went out
    on the wire followed by what the buffer still holds is exactly the packets one after the
    other; and when every call succeeded and the socket does not block, all of it is on the
    wire.  [fuel] bounds the attempts to send; one per byte is enough.  Memory for the
    buffer is not refused. *)
Theorem buffered_session_in_order {K} `{SocketLaws K} `{Heap} ctrl fuel cs
    (b : WINPR_BIO_BUFFERED_SOCKET (WINPR_BIO_SIMPLE_SOCKET K)) :
  (forall n, heap_ok n = true) ->
  rb_ok (xmitBuffer b) -> contents (xmitBuffer b) = [] ->
  room (xmitBuffer b) + zlen (concat (map submitted cs)) < 2 ^ 61 ->
  (Z.to_nat (zlen (concat (map submitted cs))) < fuel)%nat ->
  exists rs b', bio_run ctrl fuel cs b = Ret rs b' /\
    transmitted (socket (next_bio b')) ++ contents (xmitBuffer b') =
      transmitted (socket (next_bio b)) ++ concat (map submitted cs) /\
    (cs <> [] -> Forall (fun r => 0 <= r) rs -> writeBlocked b' = false ->
      contents (xmitBuffer b') = []).
Proof.
  intros Hheap Hok Hempty Hroom Hfuel.
  destruct (run_ok Hheap ctrl fuel cs b) as (rs & b' & E & _ & Ha & Hd).
  { done. } { done. } { by rewrite Hempty. }
  exists rs, b'. split; [done|]. split; [|done]. unfold accepted in Ha. rewrite Hempty, app_nil_r in Ha.
  exact Ha.
Qed.

(** ** A concrete socket *)

(** It takes as many bytes per call as its schedule says, would block where the schedule
    says zero, and takes everything once the schedule is over. *)
Record scheduled := mkScheduled { wire : list Z; schedule : list Z }.

#[local] Instance scheduled_socket : Socket scheduled := {|
  send bs k :=
    match schedule k with
    | [] => (zlen bs, mkScheduled (wire k ++ bs) [])
    | n :: q => if n <=? 0 then (-1, mkScheduled (wire k) q)
                else (Z.min n (zlen bs), mkScheduled (wire k ++ ztake (Z.min n (zlen bs)) bs) q)
    end;
  recv _ k := (0, [], k);
  error_retryable _ := true
|}.

#[local] Program Instance scheduled_laws : SocketLaws scheduled := {| transmitted := wire |}.
Next Obligation.
  intros bs [w [|n q]]; simpl; [lia|]. pose proof (zlen_nonneg bs). zcase; simpl; lia.
Qed.
Next Obligation.
  intros bs [w [|n q]]; simpl; [by rewrite ztake_all|]. zcase; simpl; [by rewrite app_nil_r|done].
Qed.

#[local] Program Instance zero_heap : Heap :=
  {| heap_ok := fun _ => true; heap_junk := fun n => zrepeat n 0 |}.
Next Obligation. intros. by apply zlen_zrepeat. Qed.

Definition ring16 : RingBuffer := mkRing 16 16 16 0 0 (zrepeat 16 0).

Lemma ring16_ok : rb_ok ring16 /\ contents ring16 = [] /\ room ring16 = 16.
Proof. apply (init_ok 16); done. Qed.

Definition bio16 (q : list Z) : WINPR_BIO_BUFFERED_SOCKET (WINPR_BIO_SIMPLE_SOCKET scheduled) :=
  mkBuffered false false ring16 (mkFlags false false true)
    (mkSimple (mkScheduled [] q) (mkFlags false false true)).

Lemma buffered_write_delivers_witness :
  exists r b', transport_bio_buffered_write 9 (Some [1; 2; 3; 4; 5]) 5 (bio16 [2; 0]) = Ret r b' /\
    rb_ok (xmitBuffer b') /\ r = 5 /\ wire (socket (next_bio b')) = [1; 2] /\
    contents (xmitBuffer b') = [3; 4; 5].
Proof.
  destruct ring16_ok as (Hok & Hc & Hr).
  destruct (buffered_write_delivers 9 (Some [1; 2; 3; 4; 5]) (bio16 [2; 0])) as (r & b' & E & Hok' & _).
  - exact Hok.
  - simpl. rewrite Hr. by vm_compute.
  - simpl. rewrite Hc. vm_compute. lia.
  - exists r, b'. split; [exact E|]. split; [exact Hok'|].
    vm_compute in E. injection E as <- <-. by vm_compute.
Defined.

Lemma buffered_session_in_order_witness :
  exists rs b', bio_run (fun _ _ n => (0, n)) 9 [Submit [1; 2; 3]; Submit [4; 5]; Flush] (bio16 [2; 0; 1; 0]) =
      Ret rs b' /\
    wire (socket (next_bio b')) ++ contents (xmitBuffer b') = [1; 2; 3; 4; 5] /\
    contents (xmitBuffer b') = [].
Proof.
  destruct ring16_ok as (Hok & Hc & Hr).
  destruct (buffered_session_in_order (fun _ _ n => (0, n)) 9 [Submit [1; 2; 3]; Submit [4; 5]; Flush]
    (bio16 [2; 0; 1; 0])) as (rs & b' & E & Ha & Hd).
  - done.
  - exact Hok.
  - exact Hc.
  - simpl. rewrite Hr. by vm_compute.
  - vm_compute. lia.
  - exists rs, b'. split; [exact E|]. split; [exact Ha|].
    vm_compute in E. injection E as <- <-. by vm_compute.
Defined.
