(* ===== verification/Region.v ===== *)
(** * Regions

    Model of [libfreerdp/codec/region.c]: a set of pixels of the screen, kept as a list of
    disjoint rectangles in bands from top to bottom, and the smallest rectangle around
    them.  The shadow server and the graphics pipeline collect damage in such regions.  The
    specification is the set of pixels ([covers]): the union of a region with a rectangle
    covers exactly the pixels of both, the intersection exactly the common ones, and both
    keep the bands. *)

From Stdlib Require Import Sorting.Sorted.
From S2P Require Import Prelude.

(** ** The code *)

Record RECTANGLE_16 := mkRect { rleft : Z; rtop : Z; rright : Z; rbottom : Z }.

Definition rect_zero : RECTANGLE_16 := mkRect 0 0 0 0.

(** [data] is [NULL] or an array of [nbRects] rectangles. *)
Record REGION16 := mkRegion { extents : RECTANGLE_16; data : option (list RECTANGLE_16) }.

#[global] Instance RECTANGLE_16_eq_dec : EqDecision RECTANGLE_16.
Proof. solve_decision. Defined.

Definition sizeof_RECTANGLE_16 : Z := 8.
Definition sizeof_REGION16_DATA : Z := 16.

Definition region16_init : REGION16 := mkRegion rect_zero None.

(** the rectangles, none without data *)
Definition region16_rects (region : REGION16) : list RECTANGLE_16 := default [] (data region).

Definition region16_n_rects {S} (region : REGION16) : M S Z :=
  match data region with
  | None => mret 0
  | Some rects => asserting_cast s32 (zlen rects)
  end.

Definition rectangle_is_empty (rect : RECTANGLE_16) : bool :=
  (rright rect <=? rleft rect) || (rbottom rect <=? rtop rect).

Definition region16_is_empty (region : REGION16) : bool :=
  match data region with
  | None => true
  | Some rects => zlen rects =? 0
  end.

Definition rectangles_equal (r1 r2 : RECTANGLE_16) : bool :=
  (rleft r1 =? rleft r2) && (rtop r1 =? rtop r2) && (rright r1 =? rright r2) &&
  (rbottom r1 =? rbottom r2).

(** what is stored through [dst] and the result *)
Definition rectangles_intersection (r1 r2 : RECTANGLE_16) : RECTANGLE_16 * bool :=
  let dst := mkRect (Z.max (rleft r1) (rleft r2)) (Z.max (rtop r1) (rtop r2))
               (Z.min (rright r1) (rright r2)) (Z.min (rbottom r1) (rbottom r2)) in
  (dst, (rleft dst <? rright dst) && (rtop dst <? rbottom dst)).

Definition rectangles_intersects (r1 r2 : RECTANGLE_16) : bool :=
  (rectangles_intersection r1 r2).2.

Definition set_data (d : option (list RECTANGLE_16)) (region : REGION16) : REGION16 :=
  mkRegion (extents region) d.
Definition set_extents (e : RECTANGLE_16) (region : REGION16) : REGION16 :=
  mkRegion e (data region).

Definition region16_clear (region : REGION16) : REGION16 := mkRegion rect_zero None.

(** Freeing the data is all there is to release. *)
Definition region16_uninit (region : REGION16) : REGION16 := set_data None region.

(** A region under construction: the array with its [nbRects] cells, and the number of
    cells that are in use ([usedRects]). *)
Record builder := mkBuilder { newItems : list RECTANGLE_16; usedRects : Z }.

Section Operations.
Context `{Alloc}.

(** The array of a new region, or none. *)
Definition allocateRegion (nbItems : Z) : option (list RECTANGLE_16) :=
  if malloc_ok sizeof_REGION16_DATA then
    if 0 <? nbItems then
      if malloc_ok (nbItems * sizeof_RECTANGLE_16) then Some (zrepeat nbItems rect_zero)
      else None
    else Some []
  else None.

(** [RECTANGLE_16* dst = nextRect (region, ( *dstCounter)++); if (!dst) return FALSE;
    *dst = r;]: the array grows by one cell when the index is its end. *)
Definition nextRect (r : RECTANGLE_16) : M builder unit :=
  b ← get;
  let index := usedRects b in
  (if zlen (newItems b) <? index + 1 then
     guard (malloc_ok ((index + 1) * sizeof_RECTANGLE_16));;
     modify (fun b => mkBuilder (newItems b ++ zrepeat (index + 1 - zlen (newItems b)) rect_zero)
                        (usedRects b))
   else mret tt);;
  modify (fun b => mkBuilder (<[Z.to_nat index := r]> (newItems b)) (index + 1)).

Definition resizeRegion (nbItems : Z) : M REGION16 unit :=
  if nbItems =? 0 then modify (set_data None)
  else
    region ← get;
    match data region with
    | None =>
        match allocateRegion nbItems with
        | None => modify (set_data None);; failure
        | Some rects => modify (set_data (Some rects))
        end
    | Some rects =>
        if malloc_ok (nbItems * sizeof_RECTANGLE_16) then
          modify (set_data (Some (ztake nbItems rects ++
                                  zrepeat (nbItems - zlen rects) rect_zero)))
        else modify (set_data (Some []));; failure
    end.

Definition region16_copy_data (src : REGION16) : M REGION16 unit :=
  modify (set_data None);;
  match data src with
  | Some rects =>
      if 0 <? zlen rects then
        match allocateRegion (zlen rects) with
        | None => failure
        | Some _ => modify (set_data (Some rects))
        end
      else mret tt
  | None => mret tt
  end.

(** The two regions are distinct objects; copying one to itself does nothing. *)
Definition region16_copy (src : REGION16) : M REGION16 unit :=
  modify (set_extents (extents src));; region16_copy_data src.

(** ** Bands

    A pointer into the rectangles of the source and the end of the array are the list of
    the rectangles between them. *)

Definition same_band (refY : Z) (r : RECTANGLE_16) : bool := rtop r =? refY.

Definition stretch (newTop newBottom : Z) (r : RECTANGLE_16) : RECTANGLE_16 :=
  mkRect (rleft r) newTop (rright r) newBottom.

(** items before [unionRect] *)
Fixpoint copy_before (refY newTop newBottom uleft : Z) (src : list RECTANGLE_16) :
    M builder (list RECTANGLE_16) :=
  match src with
  | r :: tl =>
      if same_band refY r && (rright r <? uleft) then
        nextRect (stretch newTop newBottom r);; copy_before refY newTop newBottom uleft tl
      else mret src
  | [] => mret []
  end.

Fixpoint skip_overlap (refY uright : Z) (src : list RECTANGLE_16) : list RECTANGLE_16 :=
  match src with
  | r :: tl =>
      if same_band refY r && (rright r <? uright) then skip_overlap refY uright tl else src
  | [] => []
  end.

(** remaining items on the same band *)
Fixpoint copy_rest (refY newTop newBottom : Z) (src : list RECTANGLE_16) :
    M builder (list RECTANGLE_16) :=
  match src with
  | r :: tl =>
      if same_band refY r then
        nextRect (stretch newTop newBottom r);; copy_rest refY newTop newBottom tl
      else mret src
  | [] => mret []
  end.

(** The result is what is stored through [srcPtr]: the start of the next band. *)
Definition region16_copy_band_with_union (src : list RECTANGLE_16) (newTop newBottom : Z)
    (unionRect : option RECTANGLE_16) : M builder (list RECTANGLE_16) :=
  match src with
  | [] => crash Undefined
  | first :: _ =>
      let refY := rtop first in
      src' ←
        match unionRect with
        | None => mret src
        | Some u =>
            src1 ← copy_before refY newTop newBottom (rleft u) src;
            let startOverlap :=
              match src1 with
              | r :: _ => if same_band refY r && (rleft r <? rleft u) then r else u
              | [] => u
              end in
            let src2 := skip_overlap refY (rright u) src1 in
            let '(endOverlap, src3) :=
              match src2 with
              | r :: tl => if same_band refY r && (rleft r <? rright u) then (r, tl) else (u, src2)
              | [] => (u, src2)
              end in
            nextRect (mkRect (rleft startOverlap) newTop (rright endOverlap) newBottom);;
            mret src3
        end;
      copy_rest refY newTop newBottom src'
  end.

(** the items of the first band and what follows them *)
Fixpoint next_band (refY : Z) (band1 : list RECTANGLE_16) : list RECTANGLE_16 * list RECTANGLE_16 :=
  match band1 with
  | r :: tl =>
      if same_band refY r then let '(items, rest) := next_band refY tl in (r :: items, rest)
      else ([], band1)
  | [] => ([], [])
  end.

(** [band1] ends where [band2] starts. *)
Fixpoint band_match (refBand2 : Z) (band1 band2 : list RECTANGLE_16) : bool :=
  match band1, band2 with
  | [], [] => true
  | [], r2 :: _ => negb (rtop r2 =? refBand2)
  | _ :: _, [] => false
  | r1 :: tl1, r2 :: tl2 =>
      if rtop r2 =? refBand2 then
        if negb (rleft r1 =? rleft r2) || negb (rright r1 =? rright r2) then false
        else band_match refBand2 tl1 tl2
      else false
  end.

Fixpoint contained_loop (refY : Z) (band : list RECTANGLE_16) (rect : RECTANGLE_16) : bool :=
  match band with
  | r :: tl =>
      if same_band refY r && (rleft r <=? rleft rect) then
        if rright rect <=? rright r then true else contained_loop refY tl rect
      else false
  | [] => false
  end.

Definition rectangle_contained_in_band (band : list RECTANGLE_16) (rect : RECTANGLE_16) : bool :=
  match band with
  | first :: _ =>
      if (rtop rect <? rtop first) || (rbottom first <? rbottom rect) then false
      else contained_loop (rtop first) band rect
  | [] => false
  end.

(** The loop that merges bands in place: what lies before [band1] is settled, [cur] is
    the array from [band1] to its end. *)
Fixpoint simplify_loop (fuel : nat) (cur : list RECTANGLE_16) : M REGION16 (list RECTANGLE_16) :=
  match fuel with
  | O => crash Diverges
  | S fuel' =>
      match cur with
      | [] => crash Undefined
      | first :: _ =>
          let '(band1, band2) := next_band (rtop first) cur in
          match band2 with
          | [] => mret cur
          | first2 :: _ =>
              if (rbottom first =? rtop first2) && band_match (rtop first2) band1 band2 then
                simplify_loop fuel'
                  (map (fun r => mkRect (rleft r) (rtop r) (rright r) (rbottom first2)) band1 ++
                   zdrop (zlen band1) band2)
              else
                rest ← simplify_loop fuel' band2;
                mret (band1 ++ rest)
          end
      end
  end.

Definition region16_simplify_bands : M REGION16 unit :=
  region ← get;
  nbRects ← region16_n_rects region;
  if nbRects <? 2 then mret tt
  else
    rects ← simplify_loop (length (region16_rects region)) (region16_rects region);
    let finalNbRects := zlen rects in
    if negb (finalNbRects =? nbRects) then
      modify (set_data (Some rects));;
      n ← asserting_cast usize finalNbRects;
      resizeRegion n
    else modify (set_data (Some rects)).

(** ** Union and intersection with a rectangle *)

(** One band of the source, [currentBand] to the end of the array, against [rect]: the
    start of the next band and [topInterBand]. *)
Definition union_band (rect : RECTANGLE_16) (currentBand : list RECTANGLE_16) :
    M builder (list RECTANGLE_16 * Z) :=
  match currentBand with
  | [] => crash Undefined
  | first :: _ =>
      if (rbottom first <=? rtop rect) || (rbottom rect <=? rtop first) ||
         rectangle_contained_in_band currentBand rect
      then
        nextBand ← region16_copy_band_with_union currentBand (rtop first) (rbottom first) None;
        mret (nextBand, rtop rect)
      else
        mergeTop ←
          (if rtop first <? rtop rect then
             region16_copy_band_with_union currentBand (rtop first) (rtop rect) None;;
             mret (rtop rect)
           else mret (rtop first));
        let mergeBottom := if rbottom rect <? rbottom first then rbottom rect else rbottom first in
        nextBand ← region16_copy_band_with_union currentBand mergeTop mergeBottom (Some rect);
        nextBand' ←
          (if rbottom rect <? rbottom first then
             region16_copy_band_with_union currentBand mergeBottom (rbottom first) None
           else mret nextBand);
        mret (nextBand', rbottom first)
  end.

(** A piece of [rect] between two bands that do not touch. *)
Definition union_gap (rect : RECTANGLE_16) (currentBottom topInterBand : Z)
    (nextBand : list RECTANGLE_16) : M builder unit :=
  match nextBand with
  | next :: _ =>
      if negb (rtop next =? currentBottom) && (currentBottom <? rbottom rect) &&
         (rtop rect <? rtop next)
      then nextRect (mkRect (rleft rect) topInterBand (rright rect)
                       (Z.min (rtop next) (rbottom rect)))
      else mret tt
  | [] => mret tt
  end.

Fixpoint union_loop (fuel : nat) (rect : RECTANGLE_16) (currentBand : list RECTANGLE_16) :
    M builder unit :=
  match currentBand with
  | [] => mret tt
  | first :: _ =>
      match fuel with
      | O => crash Diverges
      | S fuel' =>
          '(nextBand, topInterBand) ← union_band rect currentBand;
          union_gap rect (rbottom first) topInterBand nextBand;;
          union_loop fuel' rect nextBand
      end
  end.

(** Everything between the allocation of the new array and its installation. *)
Definition union_items (srcExtents : RECTANGLE_16) (rects : list RECTANGLE_16)
    (rect : RECTANGLE_16) : M builder unit :=
  (if rtop rect <? rtop srcExtents then
     nextRect (mkRect (rleft rect) (rtop rect) (rright rect)
                 (Z.min (rtop srcExtents) (rbottom rect)))
   else mret tt);;
  union_loop (length rects) rect rects;;
  (if rbottom srcExtents <? rbottom rect then
     nextRect (mkRect (rleft rect) (Z.max (rbottom srcExtents) (rtop rect)) (rright rect)
                 (rbottom rect))
   else mret tt).

Definition rectangles_hull (r1 r2 : RECTANGLE_16) : RECTANGLE_16 :=
  mkRect (Z.min (rleft r1) (rleft r2)) (Z.min (rtop r1) (rtop r2))
    (Z.max (rright r1) (rright r2)) (Z.max (rbottom r1) (rbottom r2)).

(** The state is [dst]; [src] may be the same object, since nothing of it is read after
    [dst] is written. *)
Definition region16_union_rect (src : REGION16) (rect : RECTANGLE_16) : M REGION16 unit :=
  nrSrcRects ← region16_n_rects src;
  if nrSrcRects =? 0 then
    modify (set_extents rect);;
    resizeRegion 1;;
    dst ← get;
    match data dst with
    | None => crash AssertFailed
    | Some _ => modify (set_data (Some [rect]))
    end
  else
    if INT32_MAX <? nrSrcRects + 1 then crash Undefined
    else
      match allocateRegion (nrSrcRects + 1) with
      | None => failure
      | Some items =>
          match union_items (extents src) (region16_rects src) rect (mkBuilder items 0) with
          | Crash f => crash f
          | Fail _ => failure
          | Ret _ b =>
              modify (fun _ => mkRegion (rectangles_hull rect (extents src))
                                 (Some (ztake (usedRects b) (newItems b))));;
              region16_simplify_bands
          end
      end.

Fixpoint intersects_loop (rects : list RECTANGLE_16) (arg2 : RECTANGLE_16) : bool :=
  match rects with
  | rect :: tl =>
      if rtop rect <? rbottom arg2 then
        if rectangles_intersects rect arg2 then true else intersects_loop tl arg2
      else false
  | [] => false
  end.

Definition region16_intersects_rect (src : REGION16) (arg2 : RECTANGLE_16) : bool :=
  match data src with
  | None => false
  | Some rects =>
      if zlen rects =? 0 then false
      else if zlen rects =? 1 then rectangles_intersects (extents src) arg2
      else if negb (rectangles_intersects (extents src) arg2) then false
      else intersects_loop rects arg2
  end.

(** The common rectangles and the extents accumulated so far; none when more rectangles
    are in use than were allocated. *)
Fixpoint intersect_loop (nbRects used : Z) (src : list RECTANGLE_16)
    (rect newExtents : RECTANGLE_16) : option (list RECTANGLE_16 * RECTANGLE_16) :=
  match src with
  | r :: tl =>
      if rtop r <? rbottom rect then
        if nbRects <? used then None
        else
          let '(common, meets) := rectangles_intersection r rect in
          if meets then
            let newExtents' := if rectangle_is_empty newExtents then common
                               else rectangles_hull common newExtents in
            '(items, e) ← intersect_loop nbRects (used + 1) tl rect newExtents';
            Some (common :: items, e)
          else intersect_loop nbRects used tl rect newExtents
      else Some ([], newExtents)
  | [] => Some ([], newExtents)
  end.

Definition region16_intersect_rect (src : REGION16) (rect : RECTANGLE_16) : M REGION16 unit :=
  let rects := region16_rects src in
  nbRects ← match data src with None => mret 0 | Some l => asserting_cast u32 (zlen l) end;
  if nbRects =? 0 then modify region16_clear
  else if nbRects =? 1 then
    let '(common, intersects) := rectangles_intersection (extents src) rect in
    modify region16_clear;;
    if intersects then dst ← get; region16_union_rect dst common else mret tt
  else
    match allocateRegion nbRects with
    | None => failure
    | Some _ =>
        match intersect_loop nbRects 0 rects rect rect_zero with
        | None => failure
        | Some (items, newExtents) =>
            modify (fun _ => mkRegion newExtents (Some items));;
            region16_simplify_bands
        end
    end.
End Operations.

(** ** Pixels, bands and the invariant *)

Definition in_rect (x y : Z) (r : RECTANGLE_16) : Prop :=
  rleft r <= x < rright r /\ rtop r <= y < rbottom r.

Definition covers (l : list RECTANGLE_16) (x y : Z) : Prop := Exists (in_rect x y) l.

#[global] Instance pixel_in_rect : ElemOf (Z * Z) RECTANGLE_16 := fun p r => in_rect p.1 p.2 r.
#[global] Instance pixel_in_region : ElemOf (Z * Z) REGION16 :=
  fun p region => covers (region16_rects region) p.1 p.2.

(** a rectangle with pixels in it *)
Definition rect_ok (r : RECTANGLE_16) : Prop :=
  0 <= rleft r < rright r /\ rright r <= UINT16_MAX /\
  0 <= rtop r < rbottom r /\ rbottom r <= UINT16_MAX.

(** The order of the rectangles: in one band, side by side; or in two bands, one above the
    other. *)
Definition precedes (r1 r2 : RECTANGLE_16) : Prop :=
  (rtop r1 = rtop r2 /\ rbottom r1 = rbottom r2 /\ rright r1 <= rleft r2) \/
  rbottom r1 <= rtop r2.

Definition banded (l : list RECTANGLE_16) : Prop :=
  Forall rect_ok l /\ StronglySorted precedes l.

(** [e] is the smallest rectangle around the pixels of [l]. *)
Definition tight (e : RECTANGLE_16) (l : list RECTANGLE_16) : Prop :=
  (forall x y, covers l x y -> in_rect x y e) /\
  (exists y, covers l (rleft e) y) /\ (exists y, covers l (rright e - 1) y) /\
  (exists x, covers l x (rtop e)) /\ (exists x, covers l x (rbottom e - 1)).

(** The invariant of a region. *)
Definition region_ok (region : REGION16) : Prop :=
  banded (region16_rects region) /\
  (region16_rects region = [] \/ tight (extents region) (region16_rects region)).

(** One band: rectangles of the same height, side by side. *)
Definition beside (r1 r2 : RECTANGLE_16) : Prop := rright r1 <= rleft r2.

Definition in_band (t b : Z) (r : RECTANGLE_16) : Prop :=
  rtop r = t /\ rbottom r = b /\ rect_ok r.

Definition band (t b : Z) (l : list RECTANGLE_16) : Prop :=
  Forall (in_band t b) l /\ StronglySorted beside l.

Definition xcovers (l : list RECTANGLE_16) (x : Z) : Prop :=
  Exists (fun r => rleft r <= x < rright r) l.

(** ** Lists of rectangles *)

Lemma ssorted_app {A} (R : A -> A -> Prop) l1 l2 :
  StronglySorted R (l1 ++ l2) <->
  StronglySorted R l1 /\ StronglySorted R l2 /\ Forall (fun a => Forall (R a) l2) l1.
Proof.
  induction l1 as [|a l1 IH]; simpl.
  - split; [intros; repeat split; auto; constructor|tauto].
  - split.
    + intros [Hs Hf]%StronglySorted_inv. apply IH in Hs as (H1 & H2 & H3).
      apply list.Forall_app in Hf as [Hf1 Hf2]. repeat split; auto; constructor; auto.
    + intros (H1 & H2 & H3). apply StronglySorted_inv in H1 as [H1 Hf].
      apply list.Forall_cons in H3 as [H3 H4]. constructor; [apply IH; auto|]. by apply list.Forall_app.
Qed.

Lemma ssorted_mono {A} (R R' : A -> A -> Prop) l :
  (forall a b, a ∈ l -> b ∈ l -> R a b -> R' a b) -> StronglySorted R l -> StronglySorted R' l.
Proof.
  intros Hm. induction 1 as [|a l Hs IH Hf]; [constructor|].
  constructor; [apply IH; intros; apply Hm; auto using list_elem_of_further|].
  apply list.Forall_forall. intros b Hb. rewrite list.Forall_forall in Hf.
  apply Hm; auto using list_elem_of_here, list_elem_of_further.
Qed.

Lemma ssorted_map {A} (R : A -> A -> Prop) (f : A -> A) l :
  (forall a b, R a b -> R (f a) (f b)) -> StronglySorted R l -> StronglySorted R (map f l).
Proof.
  intros Hf. induction 1 as [|a l Hs IH Ha]; simpl; constructor; auto.
  apply Forall_map. eapply list.Forall_impl; [exact Ha|]. auto.
Qed.

Lemma covers_app l1 l2 x y : covers (l1 ++ l2) x y <-> covers l1 x y \/ covers l2 x y.
Proof. apply list.Exists_app. Qed.

Lemma covers_cons r l x y : covers (r :: l) x y <-> in_rect x y r \/ covers l x y.
Proof. apply Exists_cons. Qed.

Lemma covers_nil x y : covers [] x y <-> False.
Proof. unfold covers. split; [|done]. intros H. inversion H. Qed.

Lemma xcovers_app l1 l2 x : xcovers (l1 ++ l2) x <-> xcovers l1 x \/ xcovers l2 x.
Proof. apply list.Exists_app. Qed.

Lemma xcovers_cons r l x : xcovers (r :: l) x <-> (rleft r <= x < rright r) \/ xcovers l x.
Proof. apply Exists_cons. Qed.

Lemma xcovers_nil x : xcovers [] x <-> False.
Proof. unfold xcovers. split; [|done]. intros H. inversion H. Qed.

Lemma xcovers_stretch t b l x : xcovers (map (stretch t b) l) x <-> xcovers l x.
Proof. unfold xcovers. rewrite Exists_map. done. Qed.

Lemma covers_band t b l x y :
  band t b l -> covers l x y <-> xcovers l x /\ t <= y < b.
Proof.
  intros [Hf _]. unfold covers, xcovers. rewrite !list.Exists_exists.
  rewrite list.Forall_forall in Hf. unfold in_rect. split.
  - intros (r & Hr & Hx & Hy). destruct (Hf r Hr) as (<- & <- & _). eauto.
  - intros ((r & Hr & Hx) & Hy). destruct (Hf r Hr) as (<- & <- & _). eauto.
Qed.

Lemma band_nil t b : band t b [].
Proof. split; constructor. Qed.

Lemma band_app t b l1 l2 :
  band t b (l1 ++ l2) <->
  band t b l1 /\ band t b l2 /\ Forall (fun a => Forall (beside a) l2) l1.
Proof. unfold band. rewrite list.Forall_app, ssorted_app. tauto. Qed.

Lemma band_cons t b r l :
  band t b (r :: l) <-> in_band t b r /\ Forall (beside r) l /\ band t b l.
Proof.
  unfold band. rewrite list.Forall_cons. split.
  - intros [[Hr Hl] Hs]. apply StronglySorted_inv in Hs as [Hs Hf]. auto.
  - intros (Hr & Hf & Hl & Hs). split; [done|by constructor].
Qed.

(** the same items with another height *)
Lemma band_stretch t b t' b' l :
  band t b l -> 0 <= t' < b' -> b' <= UINT16_MAX -> band t' b' (map (stretch t' b') l).
Proof.
  intros [Hf Hs] Ht Hb. split.
  - apply Forall_map. eapply list.Forall_impl; [exact Hf|]. intros r (_ & _ & Hr).
    unfold in_band, rect_ok in *. simpl. lia.
  - apply ssorted_map; auto.
Qed.

Lemma band_banded t b l : band t b l -> banded l.
Proof.
  intros [Hf Hs]. split; [eapply list.Forall_impl; [exact Hf|by intros r (_ & _ & ?)]|].
  eapply ssorted_mono; [|exact Hs]. intros r1 r2 H1 H2 Hb. rewrite list.Forall_forall in Hf.
  destruct (Hf r1 H1) as (? & ? & _), (Hf r2 H2) as (? & ? & _).
  unfold beside, precedes in *. lia.
Qed.

(** everything of [l] lies above [y], or below it *)
Definition above (y : Z) : list RECTANGLE_16 -> Prop := Forall (fun r => rbottom r <= y).
Definition below (y : Z) : list RECTANGLE_16 -> Prop := Forall (fun r => y <= rtop r).

Lemma banded_app l1 l2 y :
  banded l1 -> banded l2 -> above y l1 -> below y l2 -> banded (l1 ++ l2).
Proof.
  intros [H1 S1] [H2 S2] Ha Hb. split; [by apply list.Forall_app|]. apply ssorted_app.
  repeat split; auto. eapply list.Forall_impl; [exact Ha|]. intros r1 Hr1.
  eapply list.Forall_impl; [exact Hb|]. intros r2 Hr2. simpl in *. right. lia.
Qed.

Lemma banded_nil : banded [].
Proof. split; constructor. Qed.

Lemma banded_single r : rect_ok r -> banded [r].
Proof. intros. split; repeat constructor; apply H. Qed.

Lemma band_above t b l y : band t b l -> b <= y -> above y l.
Proof.
  intros [Hf _] Hy. eapply list.Forall_impl; [exact Hf|]. intros r (_ & <- & _). done.
Qed.

Lemma band_below t b l y : band t b l -> y <= t -> below y l.
Proof.
  intros [Hf _] Hy. eapply list.Forall_impl; [exact Hf|]. intros r (<- & _ & _). done.
Qed.

Lemma above_app y l1 l2 : above y (l1 ++ l2) <-> above y l1 /\ above y l2.
Proof. apply list.Forall_app. Qed.

Lemma above_mono y y' l : y <= y' -> above y l -> above y' l.
Proof. intros Hy Hl. eapply list.Forall_impl; [exact Hl|]. simpl. lia. Qed.

(** ** Taking the first band off *)

(** The first rectangle after a run is not in it. *)
Definition stops (f : RECTANGLE_16 -> bool) (l : list RECTANGLE_16) : Prop :=
  match l with [] => True | r :: _ => f r = false end.

Lemma span_stops (f : RECTANGLE_16 -> bool) l :
  exists l1 l2, l = l1 ++ l2 /\ Forall (fun r => f r = true) l1 /\ stops f l2.
Proof.
  induction l as [|r l (l1 & l2 & -> & H1 & H2)]; [exists [], []; repeat constructor|].
  destruct (f r) eqn:E; [exists (r :: l1), l2|exists [], (r :: l1 ++ l2)]; repeat split; auto.
Qed.

(** A banded list is its first band and a banded list below it. *)
Lemma first_band r l :
  banded (r :: l) ->
  exists b rest, r :: l = (r :: b) ++ rest /\ band (rtop r) (rbottom r) (r :: b) /\
    banded rest /\ below (rbottom r) rest /\ stops (same_band (rtop r)) rest.
Proof.
  intros [Hf Hs]. destruct (span_stops (same_band (rtop r)) l) as (b & rest & -> & Hb & Hst).
  exists b, rest. split; [done|].
  apply StronglySorted_inv in Hs as [Hs Hr]. apply ssorted_app in Hs as (Sb & Sr & _).
  apply list.Forall_cons in Hf as [Hrk Hf]. apply list.Forall_app in Hf as [Fb Fr].
  apply list.Forall_app in Hr as [Rb Rr].
  assert (Forall (in_band (rtop r) (rbottom r)) b /\ Forall (beside r) b) as [Ib Bb].
  { rewrite <- list.Forall_and. apply list.Forall_forall. intros a Ha. rewrite list.Forall_forall in Rb, Fb, Hb.
    specialize (Rb a Ha). specialize (Fb a Ha). specialize (Hb a Ha).
    unfold same_band, precedes, in_band, beside, rect_ok in *. lia. }
  assert (below (rbottom r) rest) as Hbl.
  { destruct rest as [|q rest]; [constructor|]. simpl in Hst.
    apply list.Forall_cons in Rr as [Rq Rr]. apply list.Forall_cons in Fr as [Fq Fr].
    apply StronglySorted_inv in Sr as [Sr Qr].
    assert (rbottom r <= rtop q) by (unfold same_band, precedes in *; lia).
    constructor; [done|]. eapply list.Forall_impl; [exact Qr|]. intros a Ha.
    unfold precedes, rect_ok in *. lia. }
  split_and!; auto; [|by split]. split; [by constructor|].
  constructor; [|done]. eapply ssorted_mono; [|exact Sb].
  intros a c Ha Hc. rewrite list.Forall_forall in Ib.
  destruct (Ib a Ha) as (? & ? & ?), (Ib c Hc) as (? & ? & ?).
  unfold precedes, beside, rect_ok in *. lia.
Qed.

(** ** What the copying loops emit *)

Section Emission.
Context `{AllocOk}.

(** the rectangles in use are [l] *)
Definition built (b : builder) (l : list RECTANGLE_16) : Prop :=
  usedRects b = zlen l /\ zlen l <= zlen (newItems b) /\ ztake (zlen l) (newItems b) = l.

Definition adds {A} (m : M builder A) (bs : list RECTANGLE_16) (v : A) : Prop :=
  forall b l, built b l -> zlen l + zlen bs < 2 ^ 40 ->
  exists b', m b = Ret v b' /\ built b' (l ++ bs).

Lemma adds_ret {A} (v : A) : adds (mret v) [] v.
Proof. intros b l Hb _. exists b. split; [done|]. by rewrite app_nil_r. Qed.

Lemma adds_bind {A B} (m : M builder A) (k : A -> M builder B) b1 b2 v w :
  adds m b1 v -> adds (k v) b2 w -> adds (m ≫= k) (b1 ++ b2) w.
Proof.
  intros H1 H2 b l Hb Hl. rewrite zlen_app in Hl. pose proof (zlen_nonneg b2).
  destruct (H1 b l Hb) as (b' & E & Hb'); [lia|].
  destruct (H2 b' _ Hb') as (b'' & E' & Hb''); [rewrite zlen_app; lia|].
  exists b''. rewrite (bind_ret_eq _ _ _ _ _ E). split; [done|]. by rewrite app_assoc.
Qed.

Lemma nextRect_adds r : adds (nextRect r) [r] tt.
Proof.
  intros [items used] l (Hu & Hc & Ht) Hl. simpl in *. subst used.
  rewrite zlen_cons, zlen_nil in Hl. pose proof (zlen_nonneg l).
  assert (forall its, zlen l < zlen its -> ztake (zlen l) its = l ->
    built (mkBuilder (<[Z.to_nat (zlen l) := r]> its) (zlen l + 1)) (l ++ [r])) as Hput.
  { intros its Hlt E. unfold built. simpl. unfold zlen. rewrite length_app, length_insert. simpl.
    unfold zlen in Hlt. split_and!; [lia|lia|].
    unfold ztake. replace (Z.to_nat _) with (S (length l)) by lia.
    rewrite (take_S_r _ _ r) by (rewrite Nat2Z.id, list_lookup_insert_eq; [done|lia]).
    rewrite Nat2Z.id, take_insert_ge by lia. f_equal.
    rewrite <- E at 2. unfold ztake, zlen. by rewrite Nat2Z.id. }
  unfold nextRect. rewrite get_bind. simpl. zcase.
  - unfold guard. rewrite alloc_ok by (unfold sizeof_RECTANGLE_16; lia).
    eexists. split; [reflexivity|]. simpl. apply Hput.
    + rewrite zlen_app, zlen_zrepeat; lia.
    + by rewrite ztake_app_le by lia.
  - eexists. split; [reflexivity|]. simpl. apply Hput; [lia|done].
Qed.

Lemma adds_next {A} r (k : unit -> M builder A) bs v :
  adds (k tt) bs v -> adds (nextRect r ≫= k) (r :: bs) v.
Proof. apply (adds_bind _ _ [r]). apply nextRect_adds. Qed.

Lemma copy_rest_adds t t' b' band rest :
  Forall (fun r => rtop r = t) band -> stops (same_band t) rest ->
  adds (copy_rest t t' b' (band ++ rest)) (map (stretch t' b') band) rest.
Proof.
  intros Hb Hs. induction Hb as [|r band Hr Hb IH]; simpl.
  - destruct rest as [|q rest]; simpl in *; [apply adds_ret|]. rewrite Hs. apply adds_ret.
  - unfold same_band at 1. rewrite Hr, Z.eqb_refl. by apply adds_next.
Qed.

Lemma copy_before_adds t t' b' u pre post :
  Forall (fun r => rtop r = t) pre -> Forall (fun r => rright r < u) pre ->
  stops (fun r => same_band t r && (rright r <? u)) post ->
  adds (copy_before t t' b' u (pre ++ post)) (map (stretch t' b') pre) post.
Proof.
  intros Hb Hu Hs. induction pre as [|r pre IH]; simpl.
  - destruct post as [|q post]; simpl in *; [apply adds_ret|]. rewrite Hs. apply adds_ret.
  - apply list.Forall_cons in Hb as [Hr Hb]. apply list.Forall_cons in Hu as [Hru Hu].
    unfold same_band at 1. rewrite Hr, Z.eqb_refl, (proj2 (Z.ltb_lt _ _)) by done. simpl.
    apply adds_next. auto.
Qed.

Lemma skip_overlap_eq t u pre post :
  Forall (fun r => rtop r = t) pre -> Forall (fun r => rright r < u) pre ->
  stops (fun r => same_band t r && (rright r <? u)) post ->
  skip_overlap t u (pre ++ post) = post.
Proof.
  intros Hb Hu Hs. induction pre as [|r pre IH]; simpl.
  - destruct post as [|q post]; simpl in *; [done|]. by rewrite Hs.
  - apply list.Forall_cons in Hb as [Hr Hb]. apply list.Forall_cons in Hu as [Hru Hu].
    unfold same_band at 1. rewrite Hr, Z.eqb_refl, (proj2 (Z.ltb_lt _ _)) by done. simpl. auto.
Qed.

(** A copied band. *)
Lemma copy_band_adds t b t' b' r l rest :
  band t b (r :: l) -> stops (same_band t) rest ->
  adds (region16_copy_band_with_union ((r :: l) ++ rest) t' b' None)
    (map (stretch t' b') (r :: l)) rest.
Proof.
  intros [Hf _] Hs. simpl. apply list.Forall_cons in Hf as [(Ht & _) Hf]. rewrite Ht.
  eapply (adds_bind _ _ []); [apply adds_ret|].
  change (r :: l ++ rest) with ((r :: l) ++ rest). apply copy_rest_adds; [|done].
  constructor; [done|]. eapply list.Forall_impl; [exact Hf|]. by intros q (? & _).
Qed.

(** The items of a band around one place: those before it, and the rest. *)
Lemma band_split t b l u :
  band t b l ->
  exists pre post, l = pre ++ post /\ Forall (fun r => rtop r = t) pre /\
    Forall (fun r => rright r < u) pre /\ stops (fun r => rright r <? u) post.
Proof.
  intros [Hf _]. destruct (span_stops (fun r => rright r <? u) l) as (pre & post & -> & Hp & Hs).
  apply list.Forall_app in Hf as [Hf _].
  exists pre, post. split_and!; auto.
  - eapply list.Forall_impl; [exact Hf|]. by intros r (? & _).
  - eapply list.Forall_impl; [exact Hp|]. intros r. apply Z.ltb_lt.
Qed.

(** A rectangle set into a band that has room for it. *)
Lemma band_insert t b pre r post :
  band t b pre -> band t b post -> in_band t b r ->
  Forall (fun a => Forall (beside a) post) pre ->
  Forall (fun a => rright a <= rleft r) pre -> Forall (fun a => rright r <= rleft a) post ->
  band t b (pre ++ r :: post).
Proof.
  intros Hp Hq Hr Hpq Hpr Hrq. apply band_app. split_and!; auto.
  - apply band_cons. auto.
  - apply list.Forall_forall. intros a Ha. rewrite list.Forall_forall in Hpq, Hpr.
    constructor; [apply (Hpr a Ha)|apply (Hpq a Ha)].
Qed.

Lemma Forall_beside_trans t b r (post : list RECTANGLE_16) e :
  band t b (r :: post) -> e <= rright r -> Forall (fun a => e <= rleft a) post.
Proof.
  intros (_ & Hb & _)%band_cons He. eapply list.Forall_impl; [exact Hb|].
  unfold beside. intros a Ha. simpl in *. lia.
Qed.

Lemma Forall_beside_left t b r (post : list RECTANGLE_16) e :
  band t b (r :: post) -> e <= rleft r -> Forall (fun a => e <= rleft a) (r :: post).
Proof.
  intros Hb He. constructor; [done|]. apply band_cons in Hb as ((_ & _ & Hr) & Hf & _).
  eapply list.Forall_impl; [exact Hf|]. unfold beside, rect_ok in *. intros a Ha. simpl in *. lia.
Qed.

(** the left end of the merged rectangle: the first item reached, or the rectangle itself *)
Definition merge_left (u : RECTANGLE_16) (l : list RECTANGLE_16) : Z :=
  match l with
  | q :: _ => if rleft q <? rleft u then rleft q else rleft u
  | [] => rleft u
  end.

(** the item that the right end of the rectangle falls into, and what is left *)
Definition merge_right (u : RECTANGLE_16) (l : list RECTANGLE_16) :
    RECTANGLE_16 * list RECTANGLE_16 :=
  match l with
  | r :: tl => if rleft r <? rright u then (r, tl) else (u, l)
  | [] => (u, l)
  end.

(** Where a run of items that end before [v] is followed by the last one that is reached:
    the end of the merged rectangle and what is left. *)
Lemma merge_end t b mid post s u :
  band t b (mid ++ post) -> Forall (fun r => rright r < rright u) mid ->
  stops (fun r => rright r <? rright u) post ->
  Forall (fun r => s <= rleft r) (mid ++ post) -> s <= rleft u < rright u ->
  let '(endOverlap, rest) := merge_right u post in
  band t b rest /\ rright u <= rright endOverlap /\
  (rright endOverlap = rright u \/ rright endOverlap <= UINT16_MAX) /\
  Forall (fun a => rright endOverlap <= rleft a) rest /\
  forall x, rleft u <= x -> (x < rright endOverlap \/ xcovers rest x) <->
    (xcovers (mid ++ post) x \/ x < rright u).
Proof.
  intros Hb Hm Hs Hl Hu. apply band_app in Hb as (_ & Hp & _). apply list.Forall_app in Hl as [_ Hl].
  assert (forall x, xcovers mid x -> x < rright u) as Hmx.
  { intros x Hx. unfold xcovers in Hx. apply list.Exists_exists in Hx as (r & Hr & Hx).
    rewrite list.Forall_forall in Hm. specialize (Hm r Hr). simpl in Hm. lia. }
  unfold merge_right. destruct post as [|r post].
  { split; [done|]. split; [lia|]. split; [lia|]. split; [constructor|].
    intros x Hx. rewrite xcovers_app, !xcovers_nil.
    specialize (Hmx x). tauto. }
  simpl in Hs. apply Z.ltb_ge in Hs. destruct (Z.ltb_spec (rleft r) (rright u)).
  - pose proof Hp as ((_ & _ & Hr) & _ & Hpost)%band_cons. unfold rect_ok in Hr.
    split; [done|]. split; [lia|]. split; [lia|].
    split; [eapply Forall_beside_trans; [done|lia]|].
    intros x Hx. rewrite xcovers_app, xcovers_cons. specialize (Hmx x).
    destruct (Z.lt_ge_cases x (rright u)); [split; intros; [by right|left; lia]|].
    split; [intros [?|?]; left; right; [left; lia|by right]|].
    intros [[?%Hmx|[?|?]]|?]; [lia|left; lia|by right|lia].
  - split; [done|]. split; [lia|]. split; [lia|].
    split; [eapply Forall_beside_left; [done|lia]|].
    intros x Hx. rewrite xcovers_app. specialize (Hmx x). split; [intros [?|?]; auto|].
    intros [[?|?]|?]; auto.
Qed.

Lemma stops_app t (f : RECTANGLE_16 -> bool) l rest :
  stops f l -> stops (same_band t) rest -> stops (fun r => same_band t r && f r) (l ++ rest).
Proof.
  destruct l as [|r l]; simpl; [|intros ->; by rewrite andb_false_r].
  destruct rest as [|q rest]; simpl; [done|]. by intros _ ->.
Qed.

Lemma start_overlap t u l rest :
  Forall (fun r => rtop r = t) l -> stops (same_band t) rest ->
  rleft (match l ++ rest with
         | r :: _ => if same_band t r && (rleft r <? rleft u) then r else u
         | [] => u
         end) = merge_left u l.
Proof.
  destruct l as [|r l]; simpl; [destruct rest; [done|]; simpl; by intros _ ->|].
  intros [<- _]%list.Forall_cons _. unfold same_band. rewrite Z.eqb_refl. simpl. by zcase.
Qed.

Lemma end_overlap t u l rest :
  Forall (fun r => rtop r = t) l -> stops (same_band t) rest ->
  match l ++ rest with
  | r :: tl => if same_band t r && (rleft r <? rright u) then (r, tl) else (u, l ++ rest)
  | [] => (u, l ++ rest)
  end = ((merge_right u l).1, (merge_right u l).2 ++ rest).
Proof.
  destruct l as [|r l]; simpl; [destruct rest; [done|]; simpl; by intros _ ->|].
  intros [<- _]%list.Forall_cons _. unfold same_band. rewrite Z.eqb_refl. simpl. by zcase.
Qed.

Lemma merge_copy_adds t t' b' pre mid post rest u :
  Forall (fun r => rtop r = t) (pre ++ mid ++ post) -> pre ++ mid ++ post <> [] ->
  stops (same_band t) rest -> Forall (fun r => rright r < rleft u) pre ->
  stops (fun r => rright r <? rleft u) (mid ++ post) ->
  Forall (fun r => rright r < rright u) mid -> stops (fun r => rright r <? rright u) post ->
  adds (region16_copy_band_with_union ((pre ++ mid ++ post) ++ rest) t' b' (Some u))
    (map (stretch t' b') pre ++
     mkRect (merge_left u (mid ++ post)) t' (rright (merge_right u post).1) b' ::
     map (stretch t' b') (merge_right u post).2) rest.
Proof.
  intros Ht Hne Hst Upre Spost Umid Spost2.
  destruct ((pre ++ mid ++ post) ++ rest) as [|first tl] eqn:E.
  { by destruct (pre ++ mid ++ post). }
  assert (rtop first = t) as Eft.
  { destruct (pre ++ mid ++ post); [done|]. injection E as -> _.
    by apply list.Forall_cons in Ht as [? _]. }
  unfold region16_copy_band_with_union. cbv iota zeta. rewrite Eft, <- E, <- app_assoc.
  apply list.Forall_app in Ht as [Tpre Tpost]. pose proof Tpost as [Tmid Tp]%list.Forall_app.
  rewrite cons_middle, (app_assoc (map _ pre)).
  apply (adds_bind _ _ _ _ ((merge_right u post).2 ++ rest)).
  - eapply adds_bind; [apply copy_before_adds; [done|done|by apply stops_app]|].
    rewrite <- app_assoc, skip_overlap_eq; [|done|done|by apply stops_app].
    rewrite (end_overlap t), app_assoc, (start_overlap t) by done. apply adds_next, adds_ret.
  - apply copy_rest_adds; [|done]. unfold merge_right.
    destruct post as [|q post]; [done|].
    destruct (rleft q <? rright u); [by apply list.Forall_cons in Tp as [_ ?]|done].
Qed.

(** The columns covered after a merge. *)
Lemma merge_columns t b pre post s u endO rest :
  band t b (pre ++ post) -> stops (fun r => rright r <? rleft u) post ->
  s = merge_left u post -> rect_ok u -> rright u <= rright endO ->
  Forall (fun a => rright endO <= rleft a) rest ->
  (forall x, rleft u <= x -> (x < rright endO \/ xcovers rest x) <->
    (xcovers post x \/ x < rright u)) ->
  forall x, (xcovers pre x \/ s <= x < rright endO \/ xcovers rest x) <->
    (xcovers (pre ++ post) x \/ rleft u <= x < rright u).
Proof.
  intros Hb Hs -> Hu He Hr Hx x. rewrite xcovers_app.
  assert (merge_left u post <= rleft u) by (destruct post; simpl; [lia|zcase; lia]).
  destruct (Z.le_gt_cases (rleft u) x) as [Hge|Hlt].
  { specialize (Hx x Hge). assert (merge_left u post <= x) by lia. intuition lia. }
  assert (~ xcovers rest x) as Hnr.
  { unfold xcovers. rewrite list.Exists_exists. intros (r & Hin & Hrx).
    rewrite list.Forall_forall in Hr. specialize (Hr r Hin). unfold rect_ok in Hu. simpl in Hr. lia. }
  assert (merge_left u post <= x <-> xcovers post x) as Hm.
  { destruct post as [|q post]; simpl; [rewrite xcovers_nil; lia|]. simpl in Hs.
    apply Z.ltb_ge in Hs. apply band_app in Hb as (_ & Hq & _).
    rewrite xcovers_cons. pose proof (Forall_beside_left _ _ _ _ _ Hq (Z.le_refl _)) as Hl.
    apply list.Forall_cons in Hl as [_ Hl].
    assert (xcovers post x -> rleft q <= x) as Hpx.
    { unfold xcovers. rewrite list.Exists_exists. intros (r & Hin & Hrx).
      rewrite list.Forall_forall in Hl. specialize (Hl r Hin). simpl in Hl. lia. }
    zcase; intuition lia. }
  unfold rect_ok in Hu. intuition lia.
Qed.

Lemma merge_right_suffix u l : exists k, l = k ++ (merge_right u l).2.
Proof.
  destruct l as [|r l]; [by exists []|]. simpl. destruct (rleft r <? rright u); simpl;
    [by exists [r]|by exists []].
Qed.

(** The rectangles emitted by a merge are a band. *)
Lemma merge_band_ok t b t' b' pre post u e rest2 k :
  band t b (pre ++ post) -> post = k ++ rest2 -> rect_ok u ->
  Forall (fun r => rright r < rleft u) pre -> 0 <= t' < b' -> b' <= UINT16_MAX ->
  rright u <= e <= UINT16_MAX -> Forall (fun a => e <= rleft a) rest2 ->
  band t' b' (map (stretch t' b') pre ++
              mkRect (merge_left u post) t' e b' :: map (stretch t' b') rest2).
Proof.
  intros Hb Ek Hu Hp Ht Hb' He Hr. pose proof Hb as (Bpre & Bpost & Hpp)%band_app.
  assert (band t b rest2) as Br by (rewrite Ek in Bpost; apply band_app in Bpost; tauto).
  apply band_insert; try (by eapply band_stretch).
  - unfold in_band, rect_ok in *. simpl. split_and!; try lia.
    + destruct post as [|q qs]; simpl; [lia|]. zcase; [|lia].
      apply band_cons in Bpost as ((_ & _ & Hq) & _). unfold rect_ok in Hq. lia.
    + destruct post as [|q qs]; simpl; [lia|]. zcase; lia.
  - apply Forall_map. eapply list.Forall_impl; [exact Hpp|]. intros a Ha. apply Forall_map.
    rewrite Ek in Ha. apply list.Forall_app in Ha as [_ Ha]. done.
  - apply Forall_map. simpl. rewrite list.Forall_forall in *. intros a Ha.
    specialize (Hp a Ha). specialize (Hpp a Ha). simpl in Hp.
    destruct post as [|q qs]; simpl; [lia|]. apply list.Forall_cons in Hpp as [Hq _].
    unfold beside in Hq. zcase; lia.
  - by apply Forall_map.
Qed.

(** What the merge of a band with a rectangle emits: a band again, that covers the columns
    of both. *)
Lemma merge_band_adds t b t' b' r l rest u :
  band t b (r :: l) -> stops (same_band t) rest -> rect_ok u ->
  0 <= t' < b' -> b' <= UINT16_MAX ->
  exists out,
    adds (region16_copy_band_with_union ((r :: l) ++ rest) t' b' (Some u)) out rest /\
    band t' b' out /\ zlen out <= zlen (r :: l) + 1 /\
    forall x, xcovers out x <-> xcovers (r :: l) x \/ rleft u <= x < rright u.
Proof.
  intros Hb Hst Hu Ht Hb'.
  destruct (band_split _ _ _ (rleft u) Hb) as (pre & post & El & Tpre & Upre & Spost).
  assert (band t b post) as Hpost by (rewrite El in Hb; apply band_app in Hb; tauto).
  destruct (band_split _ _ _ (rright u) Hpost) as (mid & post2 & -> & Tmid & Umid & Spost2).
  set (s := merge_left u (mid ++ post2)).
  assert (s <= rleft u /\ Forall (fun q => s <= rleft q) (mid ++ post2)) as [Hsu Hsl].
  { unfold s, merge_left. destruct (mid ++ post2) as [|q qs]; [split; [lia|constructor]|].
    split; [zcase; lia|]. eapply Forall_beside_left; [done|]. zcase; lia. }
  pose proof (merge_end t b mid post2 s u Hpost Umid Spost2 Hsl) as Hend.
  pose proof (merge_copy_adds t t' b' pre mid post2 rest u) as Hcopy.
  destruct (merge_right_suffix u post2) as [k Ek].
  pose proof Hb as Hb2. rewrite El in Hb2.
  destruct (merge_right u post2) as [endO rest2] eqn:Er.
  destruct Hend as (Br & Hue & Hemax & Fr & Xr); [unfold rect_ok in Hu; lia|].
  eexists. split_and!.
  - rewrite El. apply Hcopy; auto; [|by rewrite <- El].
    destruct Hb2 as [Hf _]. eapply list.Forall_impl; [exact Hf|]. by intros ? (? & _).
  - eapply (merge_band_ok t b _ _ pre _ _ _ _ (mid ++ k)); eauto.
    + by rewrite Ek at 1; rewrite app_assoc.
    + unfold rect_ok in Hu. simpl. lia.
  - rewrite El, Ek, zlen_app, zlen_cons, !zlen_app. simpl. unfold zlen. rewrite !length_map. lia.
  - intros x. rewrite xcovers_app, xcovers_cons, !xcovers_stretch, El. simpl.
    eapply merge_columns; eauto.
Qed.
End Emission.

Lemma contained_loop_spec t band rest rect :
  stops (same_band t) rest -> contained_loop t (band ++ rest) rect = true ->
  Exists (fun q => rleft q <= rleft rect /\ rright rect <= rright q) band.
Proof.
  intros Hst. induction band as [|q band IH]; simpl.
  - destruct rest as [|p rest]; simpl; [done|]. simpl in Hst. by rewrite Hst.
  - destruct (same_band t q); simpl; [|done]. zcase; [|done]. zcase; [by left|]. right. auto.
Qed.

Section Union.
Context `{AllocOk}.

(** A band copied as it is. *)
Lemma keep_band_adds t b r l rest :
  band t b (r :: l) -> stops (same_band t) rest ->
  adds (region16_copy_band_with_union ((r :: l) ++ rest) t b None) (r :: l) rest.
Proof.
  intros Hb Hst. pose proof (copy_band_adds t b t b r l rest Hb Hst) as Hc.
  replace (map (stretch t b) (r :: l)) with (r :: l) in Hc; [done|].
  rewrite <- (map_id (r :: l)) at 1. apply map_ext_Forall. destruct Hb as [Hf _].
  eapply list.Forall_impl; [exact Hf|]. intros [] (? & ? & _). simpl in *. by subst.
Qed.

(** What one band contributes to the union: a list of bands between its top and its bottom
    that covers its own pixels and those of the rectangle at its height. *)
Definition band_union (t b : Z) (rect : RECTANGLE_16) (src out : list RECTANGLE_16) : Prop :=
  banded out /\ above b out /\ below t out /\
  forall x y, covers out x y <-> covers src x y \/ (in_rect x y rect /\ t <= y < b).

Lemma band_union_keep t b rect src :
  band t b src -> (forall x y, in_rect x y rect -> t <= y < b -> covers src x y) ->
  band_union t b rect src src.
Proof.
  intros Hb Hc. split_and!; [by eapply band_banded|by eapply band_above|by eapply band_below|].
  intros x y. specialize (Hc x y). tauto.
Qed.

(** A band cut to the rows from [t'] to [b'], nothing when there are none. *)
Definition strip (t' b' : Z) (src : list RECTANGLE_16) : list RECTANGLE_16 :=
  if t' <? b' then map (stretch t' b') src else [].

Lemma strip_band t b t' b' src :
  band t b src -> t <= t' -> b' <= b ->
  banded (strip t' b' src) /\ above b' (strip t' b' src) /\ below t' (strip t' b' src) /\
  forall x y, covers (strip t' b' src) x y <-> xcovers src x /\ t' <= y < b'.
Proof.
  intros Hb Ht Hb'. unfold strip. zcase.
  - assert (band t' b' (map (stretch t' b') src)) as Hs.
    { destruct src as [|q src]; [apply band_nil|].
      pose proof Hb as ((<- & <- & Hq) & _)%band_cons. unfold rect_ok in Hq.
      eapply band_stretch; [done|lia|lia]. }
    split_and!; [by eapply band_banded|by eapply band_above|by eapply band_below|].
    intros. rewrite (covers_band _ _ _ _ _ Hs), xcovers_stretch. done.
  - split_and!; [apply banded_nil|constructor|constructor|]. intros. rewrite covers_nil. lia.
Qed.

Lemma band_union_nil t b rect :
  (forall x y, in_rect x y rect -> t <= y < b -> False) -> band_union t b rect [] [].
Proof.
  intros Hc. split; [apply banded_nil|]. split; [constructor|]. split; [constructor|].
  intros x y. rewrite covers_nil. specialize (Hc x y). tauto.
Qed.

(** The pieces of a band that is cut at the top and at the bottom of the rectangle. *)
Lemma band_union_merge t b rect src out mt mb :
  band t b src -> rect_ok rect -> rtop rect < b -> t < rbottom rect -> t < b ->
  mt = Z.max t (rtop rect) -> mb = Z.min b (rbottom rect) -> band mt mb out ->
  (forall x, xcovers out x <-> xcovers src x \/ rleft rect <= x < rright rect) ->
  band_union t b rect src (strip t mt src ++ out ++ strip mb b src).
Proof.
  intros Hb Hr H1 H2 Htb Emt Emb Hout Hx. unfold rect_ok in Hr.
  destruct (strip_band t b t mt src Hb) as (B1 & A1 & L1 & C1); [lia|lia|].
  destruct (strip_band t b mb b src Hb) as (B3 & A3 & L3 & C3); [lia|lia|].
  split_and!.
  - apply (banded_app _ _ mt); auto.
    + apply (banded_app _ _ mb); auto; [by eapply band_banded|by eapply band_above].
    + apply list.Forall_app. split; [by eapply band_below|].
      eapply list.Forall_impl; [exact L3|]. simpl. lia.
  - rewrite !above_app. split_and!; [eapply above_mono; [|done]; lia| |done].
    eapply band_above; [done|lia].
  - apply list.Forall_app. split; [done|]. apply list.Forall_app. split.
    + eapply band_below; [done|lia].
    + eapply list.Forall_impl; [exact L3|]. simpl. lia.
  - intros x y. rewrite !covers_app, C1, C3, (covers_band _ _ _ _ _ Hout), Hx,
      (covers_band _ _ _ _ _ Hb). unfold in_rect.
    destruct (Z.lt_ge_cases y mt), (Z.lt_ge_cases y mb); intuition lia.
Qed.

(** The three copies of a band that the rectangle meets. *)
Lemma merge_pieces_adds t b r l rest rect out :
  let src := (r :: l) ++ rest in
  let mt := Z.max t (rtop rect) in
  let mb := Z.min b (rbottom rect) in
  band t b (r :: l) -> stops (same_band t) rest ->
  adds (region16_copy_band_with_union src mt mb (Some rect)) out rest ->
  adds
    (mergeTop ←
       (if t <? rtop rect then
          region16_copy_band_with_union src t (rtop rect) None;; mret (rtop rect)
        else mret t);
     let mergeBottom := if rbottom rect <? b then rbottom rect else b in
     nextBand ← region16_copy_band_with_union src mergeTop mergeBottom (Some rect);
     nextBand' ←
       (if rbottom rect <? b then region16_copy_band_with_union src mergeBottom b None
        else mret nextBand);
     mret (nextBand', b))
    (strip t mt (r :: l) ++ out ++ strip mb b (r :: l)) (rest, b).
Proof.
  intros src mt mb Hb Hst Hm. apply (adds_bind _ _ _ _ mt).
  { unfold strip, mt. destruct (Z.ltb_spec t (rtop rect)).
    - replace (Z.max t (rtop rect)) with (rtop rect) by lia.
      rewrite (proj2 (Z.ltb_lt _ _)), <- (app_nil_r (map _ _)) by lia.
      eapply adds_bind; [by eapply copy_band_adds|apply adds_ret].
    - replace (Z.max t (rtop rect)) with t by lia. rewrite Z.ltb_irrefl. apply adds_ret. }
  replace (if rbottom rect <? b then rbottom rect else b) with mb by (unfold mb; zcase; lia).
  cbv zeta. eapply adds_bind; [done|]. rewrite <- (app_nil_r (strip _ _ _)).
  apply (adds_bind _ _ _ _ rest); [|apply adds_ret].
  unfold strip, mb. destruct (Z.ltb_spec (rbottom rect) b).
  - rewrite (proj2 (Z.ltb_lt _ _)) by lia. by eapply copy_band_adds.
  - replace (Z.min b (rbottom rect)) with b by lia. rewrite Z.ltb_irrefl. apply adds_ret.
Qed.

Lemma union_band_adds t b r l rest rect :
  band t b (r :: l) -> stops (same_band t) rest -> rect_ok rect ->
  exists out top, adds (union_band rect ((r :: l) ++ rest)) out (rest, top) /\
    band_union t b rect (r :: l) out /\ zlen out <= 3 * zlen (r :: l) + 1 /\
    (b < rbottom rect -> top = Z.max b (rtop rect)).
Proof.
  intros Hb Hst Hr. pose proof Hb as ((Et & Eb & Hrk) & _)%band_cons.
  pose proof (zlen_nonneg (r :: l)). unfold rect_ok in *.
  set (src := (r :: l) ++ rest).
  assert (forall A (f : RECTANGLE_16 -> M builder A), match src with
    | [] => crash Undefined | first :: _ => f first end = f r) as Hsrc by done.
  unfold union_band. rewrite Hsrc, Et, Eb.
  destruct ((b <=? rtop rect) || (rbottom rect <=? t) || rectangle_contained_in_band src rect)
    eqn:Econd.
  - exists (r :: l), (rtop rect). split_and!.
    + rewrite <- (app_nil_r (r :: l)). eapply adds_bind; [by apply keep_band_adds|apply adds_ret].
    + apply band_union_keep; [done|]. intros x y Hin Hy. unfold in_rect in Hin.
      rewrite (covers_band _ _ _ _ _ Hb). split; [|done].
      destruct (Z.leb_spec b (rtop rect)), (Z.leb_spec (rbottom rect) t); simpl in Econd; try lia.
      unfold rectangle_contained_in_band in Econd. simpl in Econd.
      destruct (_ || _); [done|]. rewrite Et in Econd.
      apply (contained_loop_spec t (r :: l)) in Econd; [|done].
      eapply list.Exists_impl; [exact Econd|]. simpl. lia.
    + lia.
    + intros. destruct (Z.leb_spec b (rtop rect)); [lia|].
      destruct (Z.leb_spec (rbottom rect) t); [lia|]. simpl in Econd.
      unfold rectangle_contained_in_band in Econd. simpl in Econd.
      rewrite Eb, (proj2 (Z.ltb_lt b (rbottom rect))), orb_true_r in Econd by lia. done.
  - apply orb_false_iff in Econd as [Econd _]. apply orb_false_iff in Econd as [E1 E2].
    apply Z.leb_gt in E1, E2.
    set (mt := Z.max t (rtop rect)). set (mb := Z.min b (rbottom rect)).
    destruct (merge_band_adds t b mt mb r l rest rect) as (out & Hm & Hout & Hlen & Hx);
      [done|done|done|lia|lia|].
    exists (strip t mt (r :: l) ++ out ++ strip mb b (r :: l)), b. split_and!.
    + by apply merge_pieces_adds.
    + eapply band_union_merge; eauto; lia.
    + unfold strip. rewrite !zlen_app. unfold zlen in *.
      repeat zcase; rewrite ?length_map; simpl length in *; lia.
    + lia.
Qed.

(** the row where the rest of the bands starts, [y] when there are none *)
Definition start_row (y : Z) (l : list RECTANGLE_16) : Z :=
  match l with r :: _ => rtop r | [] => y end.

(** The rows of a rectangle between [t] and [b], as a list of at most one rectangle. *)
Lemma piece_union t b rect (c : bool) t' b' :
  rect_ok rect ->
  (c = true -> t' = Z.max t (rtop rect) /\ b' = Z.min b (rbottom rect) /\ t' < b') ->
  (c = false -> b <= rtop rect \/ rbottom rect <= t \/ b <= t) ->
  band_union t b rect [] (if c then [mkRect (rleft rect) t' (rright rect) b'] else []).
Proof.
  intros Hr Ht Hf. unfold rect_ok in Hr. destruct c.
  - destruct Ht as (Et & Eb & Hlt); [done|].
    assert (band t' b' [mkRect (rleft rect) t' (rright rect) b']) as Hb.
    { apply band_cons. split_and!; [|constructor|apply band_nil].
      unfold in_band, rect_ok. simpl. lia. }
    split; [by eapply band_banded|]. split; [eapply band_above; [done|lia]|].
    split; [eapply band_below; [done|lia]|]. intros x y.
    rewrite covers_cons, covers_nil. unfold in_rect. simpl. lia.
  - apply band_union_nil. unfold in_rect. specialize (Hf eq_refl). lia.
Qed.

Lemma adds_piece (c : bool) r : adds (if c then nextRect r else mret tt) (if c then [r] else []) tt.
Proof. destruct c; [apply nextRect_adds|apply adds_ret]. Qed.

Lemma zlen_piece (c : bool) (r : RECTANGLE_16) : zlen (if c then [r] else []) <= 1.
Proof. by destruct c. Qed.

Lemma union_gap_adds rect b top rest :
  rect_ok rect -> below b rest -> (b < rbottom rect -> top = Z.max b (rtop rect)) ->
  exists out, adds (union_gap rect b top rest) out tt /\ zlen out <= 1 /\
    band_union b (start_row b rest) rect [] out.
Proof.
  intros Hr Hbl Htop. destruct rest as [|q rest]; simpl.
  { exists []. split_and!; [apply adds_ret|done|]. apply band_union_nil. lia. }
  apply list.Forall_cons in Hbl as [Hq _]. eexists.
  split; [apply adds_piece|]. split; [apply zlen_piece|].
  unfold rect_ok in Hr. apply piece_union; [done|lia|lia].
Qed.

(** Contributions of adjacent stretches of rows add up. *)
Lemma band_union_app t m b rect s1 s2 o1 o2 :
  t <= m <= b -> band_union t m rect s1 o1 -> band_union m b rect s2 o2 ->
  band_union t b rect (s1 ++ s2) (o1 ++ o2).
Proof.
  intros Hm (B1 & A1 & L1 & C1) (B2 & A2 & L2 & C2). split_and!.
  - by apply (banded_app _ _ m).
  - apply above_app. split; [|done]. eapply above_mono; [|done]. lia.
  - apply list.Forall_app. split; [done|]. eapply list.Forall_impl; [exact L2|]. simpl. lia.
  - intros x y. rewrite !covers_app, C1, C2. destruct (Z.lt_ge_cases y m); intuition lia.
Qed.

(** the last row of the bands *)
Definition ends_at (e : Z) (l : list RECTANGLE_16) : Prop :=
  above e l /\ (l = [] \/ Exists (fun r => rbottom r = e) l).

Lemma ends_at_rest e t b r l rest :
  band t b (r :: l) -> banded rest -> below b rest -> ends_at e ((r :: l) ++ rest) ->
  ends_at e rest /\ start_row b rest = start_row e rest /\ b <= start_row e rest <= e.
Proof.
  intros [Hb _] [Hf _] Hbl [[Ha1 Ha2]%above_app He].
  assert (Exists (fun q => rbottom q = e) (r :: l) -> b = e) as Hbe.
  { intros (q & Hq & <-)%list.Exists_exists. rewrite list.Forall_forall in Hb.
    by destruct (Hb q Hq) as (_ & <- & _). }
  assert (b <= e) as Hle.
  { apply list.Forall_cons in Hb as [(_ & <- & _) _]. by apply list.Forall_cons in Ha1 as [? _]. }
  destruct He as [?|[He|He]%list.Exists_app]; [done| |].
  - apply Hbe in He as ->. destruct rest as [|q rest].
    + split_and!; [split; [constructor|by left]|done|simpl; lia|simpl; lia].
    + exfalso. apply list.Forall_cons in Hbl as [? _], Ha2 as [? _], Hf as [Hq _].
      unfold rect_ok in Hq. lia.
  - split; [split; [done|by right]|]. destruct rest as [|q rest]; [by inversion He|].
    apply list.Forall_cons in Hbl as [? _], Ha2 as [? _], Hf as [Hq _].
    unfold rect_ok in Hq. simpl. lia.
Qed.

Lemma union_loop_adds fuel cur rect e :
  banded cur -> rect_ok rect -> ends_at e cur -> (length cur <= fuel)%nat ->
  exists out, adds (union_loop fuel rect cur) out tt /\ zlen out <= 5 * zlen cur /\
    band_union (start_row e cur) e rect cur out.
Proof.
  revert cur. induction fuel as [|fuel IH]; intros [|r l0] Hc Hr He Hf; try (simpl in Hf; lia).
  1, 2: exists []; split_and!; [apply adds_ret|done|]; apply band_union_nil; simpl; lia.
  destruct (first_band r l0 Hc) as (l & rest & El & Hb & Hrest & Hbl & Hst).
  rewrite El in *.
  destruct (ends_at_rest _ _ _ _ _ _ Hb Hrest Hbl He) as (Hend & Estart & Hstart).
  destruct (union_band_adds _ _ r l rest rect Hb Hst Hr) as (o1 & top & A1 & U1 & Z1 & T1).
  destruct (union_gap_adds rect (rbottom r) top rest Hr Hbl T1) as (o2 & A2 & Z2 & U2).
  destruct (IH rest Hrest Hr Hend) as (o3 & A3 & Z3 & U3).
  { rewrite length_app in Hf. simpl in Hf. lia. }
  exists (o1 ++ o2 ++ o3). split_and!.
  - simpl. eapply adds_bind; [exact A1|]. eapply adds_bind; [exact A2|exact A3].
  - rewrite !zlen_app, zlen_cons in *. pose proof (zlen_nonneg l). lia.
  - rewrite Estart in U2. apply (band_union_app _ (rbottom r)).
    + destruct (Hb) as [Hf' _]. apply list.Forall_cons in Hf' as [(_ & _ & Hk) _].
      unfold rect_ok in Hk. simpl. lia.
    + exact U1.
    + by apply (band_union_app _ (start_row e rest) _ _ []).
Qed.

Lemma covers_corner l r : rect_ok r -> r ∈ l ->
  covers l (rleft r) (rtop r) /\ covers l (rright r - 1) (rbottom r - 1).
Proof.
  intros Hr Hin. unfold rect_ok in Hr.
  split; apply list.Exists_exists; exists r; (split; [done|]); unfold in_rect; lia.
Qed.

(** Where the extents of a region come from. *)
Lemma tight_rows ext r l :
  banded (r :: l) -> tight ext (r :: l) ->
  ends_at (rbottom ext) (r :: l) /\ rtop r = rtop ext /\ rtop ext < rbottom ext.
Proof.
  intros [Hf Hs] (Hin & _ & _ & (x1 & Ht) & (x2 & Hb)).
  assert (forall q, q ∈ r :: l -> rtop ext <= rtop q /\ rbottom q <= rbottom ext) as Hq.
  { intros q Hq. rewrite list.Forall_forall in Hf.
    destruct (covers_corner _ q (Hf q Hq) Hq) as [H1%Hin H2%Hin]. unfold in_rect in *. lia. }
  assert (above (rbottom ext) (r :: l)) as Ha.
  { apply list.Forall_forall. intros q ?%Hq. lia. }
  split_and!.
  - split; [done|right]. unfold covers in Hb. rewrite list.Exists_exists in *.
    destruct Hb as (q & Hqin & Hqx). exists q. split; [done|]. specialize (Hq q Hqin).
    unfold in_rect in Hqx. lia.
  - apply list.Exists_exists in Ht as (q & Hqin & Hqx). pose proof (Hq q Hqin).
    pose proof (Hq r (list_elem_of_here _ _)). unfold in_rect in Hqx.
    apply elem_of_cons in Hqin as [->|Hqin]; [lia|].
    apply StronglySorted_inv in Hs as [_ Hs]. rewrite list.Forall_forall in Hs, Hf.
    specialize (Hs q Hqin). specialize (Hf r (list_elem_of_here _ _)).
    unfold precedes, rect_ok in *. lia.
  - apply Hin in Ht. unfold in_rect in Ht. lia.
Qed.

(** The whole construction, between the top and the bottom of both. *)
Lemma union_items_adds ext rects rect :
  banded rects -> rects <> [] -> rect_ok rect -> tight ext rects ->
  exists out, adds (union_items ext rects rect) out tt /\ zlen out <= 5 * zlen rects + 2 /\
    banded out /\ forall x y, covers out x y <-> covers rects x y \/ in_rect x y rect.
Proof.
  intros Hb Hne Hr Ht. destruct rects as [|r l]; [done|].
  destruct (tight_rows ext r l Hb Ht) as (He & Es & Hext).
  destruct (union_loop_adds (length (r :: l)) (r :: l) rect (rbottom ext) Hb Hr He)
    as (o2 & A2 & Z2 & U2); [lia|]. simpl start_row in U2. rewrite Es in U2.
  remember (Z.min (rtop ext) (rtop rect)) as lo eqn:Elo.
  remember (Z.max (rbottom ext) (rbottom rect)) as hi eqn:Ehi. unfold rect_ok in Hr.
  pose proof (piece_union lo (rtop ext) rect (rtop rect <? rtop ext) (rtop rect)
    (Z.min (rtop ext) (rbottom rect)) ltac:(done) ltac:(lia) ltac:(lia)) as U1.
  pose proof (piece_union (rbottom ext) hi rect (rbottom ext <? rbottom rect)
    (Z.max (rbottom ext) (rtop rect)) (rbottom rect) ltac:(done) ltac:(lia) ltac:(lia)) as U3.
  destruct (band_union_app lo (rtop ext) hi rect [] ((r :: l) ++ []) _ _ ltac:(lia) U1
    (band_union_app (rtop ext) (rbottom ext) hi rect (r :: l) [] _ _ ltac:(lia) U2 U3)) as (B & _ & _ & C).
  eexists. split_and!.
  - unfold union_items. eapply adds_bind; [apply adds_piece|].
    eapply adds_bind; [exact A2|apply adds_piece].
  - rewrite !zlen_app.
    pose proof (zlen_piece (rtop rect <? rtop ext)
      (mkRect (rleft rect) (rtop rect) (rright rect) (Z.min (rtop ext) (rbottom rect)))).
    pose proof (zlen_piece (rbottom ext <? rbottom rect)
      (mkRect (rleft rect) (Z.max (rbottom ext) (rtop rect)) (rright rect) (rbottom rect))). lia.
  - exact B.
  - intros x y. rewrite C. rewrite app_nil_r. simpl. unfold in_rect. intuition lia.
Qed.
End Union.

(** ** Simplifying the bands *)

Lemma next_band_eq t band rest :
  Forall (fun r => rtop r = t) band -> stops (same_band t) rest ->
  next_band t (band ++ rest) = (band, rest).
Proof.
  intros Hb Hs. induction Hb as [|r band Hr Hb IH]; simpl.
  - destruct rest as [|q rest]; [done|]. simpl in *. by rewrite Hs.
  - unfold same_band at 1. by rewrite Hr, Z.eqb_refl, IH.
Qed.

Lemma band_tops t b l : band t b l -> Forall (fun r => rtop r = t) l.
Proof. intros [Hf _]. eapply list.Forall_impl; [exact Hf|]. by intros r (? & _). Qed.

(** [next_band] splits a banded list. *)
Lemma next_band_split r l :
  banded (r :: l) ->
  exists b rest, r :: l = (r :: b) ++ rest /\ next_band (rtop r) (r :: l) = (r :: b, rest) /\
    band (rtop r) (rbottom r) (r :: b) /\ banded rest /\ below (rbottom r) rest.
Proof.
  intros Hb. destruct (first_band r l Hb) as (b & rest & El & Hband & Hrest & Hbl & Hst).
  exists b, rest. split_and!; auto. rewrite El. apply next_band_eq; [by eapply band_tops|done].
Qed.

(** the same columns *)
Definition aligned : list RECTANGLE_16 -> list RECTANGLE_16 -> Prop :=
  Forall2 (fun r1 r2 => rleft r1 = rleft r2 /\ rright r1 = rright r2).

Lemma band_match_spec t b1 b2 rest :
  Forall (fun r => rtop r = t) b2 -> stops (same_band t) rest ->
  band_match t b1 (b2 ++ rest) = true -> aligned b1 b2.
Proof.
  intros Ht Hs. revert b1. induction Ht as [|r2 b2 Hr2 Ht IH]; intros b1; simpl.
  - destruct b1 as [|r1 b1]; [constructor|]. destruct rest as [|q rest]; simpl; [done|].
    simpl in Hs. unfold same_band in Hs. by rewrite Hs.
  - destruct b1 as [|r1 b1]; simpl; rewrite Hr2, Z.eqb_refl; [done|].
    destruct (Z.eqb_spec (rleft r1) (rleft r2)), (Z.eqb_spec (rright r1) (rright r2)); simpl; try done.
    intros Hm. constructor; [done|]. by apply IH.
Qed.

Lemma aligned_xcovers b1 b2 x : aligned b1 b2 -> xcovers b1 x <-> xcovers b2 x.
Proof.
  induction 1 as [|r1 r2 b1 b2 [El Er] Ha IH]; [done|]. by rewrite !xcovers_cons, El, Er, IH.
Qed.

Lemma below_mono y y' l : y' <= y -> below y l -> below y' l.
Proof. intros Hy Hl. eapply list.Forall_impl; [exact Hl|]. simpl. lia. Qed.

(** A banded list from its first band on. *)
Lemma banded_band t b l rest : band t b l -> banded rest -> below b rest -> banded (l ++ rest).
Proof.
  intros Hl Hr Hb. apply (banded_app _ _ b); auto; [by eapply band_banded|by eapply band_above].
Qed.

(** Two bands that touch and are aligned make one. *)
Lemma merge_bands t b b' r1 l1 r2 l2 :
  band t b (r1 :: l1) -> band b b' (r2 :: l2) -> aligned (r1 :: l1) (r2 :: l2) ->
  let l := map (fun r => mkRect (rleft r) (rtop r) (rright r) b') (r1 :: l1) in
  band t b' l /\ forall x y, covers l x y <-> covers ((r1 :: l1) ++ (r2 :: l2)) x y.
Proof.
  intros H1 H2 Ha l. pose proof H1 as ((Et & Eb & Hk) & _)%band_cons.
  pose proof H2 as ((Et' & Eb' & Hk') & _)%band_cons. unfold rect_ok in Hk, Hk'.
  assert (l = map (stretch t b') (r1 :: l1)) as El.
  { apply map_ext_Forall. destruct H1 as [Hf _]. eapply list.Forall_impl; [exact Hf|].
    intros r (<- & _). done. }
  assert (band t b' l) as Hl by (rewrite El; eapply band_stretch; [done|lia|lia]).
  split; [done|]. intros x y.
  rewrite covers_app, (covers_band _ _ _ _ _ Hl), (covers_band _ _ _ _ _ H1),
    (covers_band _ _ _ _ _ H2), El, xcovers_stretch, (aligned_xcovers _ _ x Ha).
  destruct (Z.lt_ge_cases y b); intuition lia.
Qed.

Lemma simplify_loop_spec fuel r l s :
  banded (r :: l) -> (length (r :: l) <= fuel)%nat ->
  exists out, simplify_loop fuel (r :: l) s = Ret out s /\ banded out /\ out <> [] /\
    zlen out <= zlen (r :: l) /\ below (rtop r) out /\
    forall x y, covers out x y <-> covers (r :: l) x y.
Proof.
  revert r l. induction fuel as [|fuel IH]; intros r l Hb Hf; [simpl in Hf; lia|].
  destruct (next_band_split r l Hb) as (b & rest & El & En & Hband & Hrest & Hbl).
  assert (below (rtop r) (r :: b)) as Hbr by (by eapply band_below).
  simpl. change (if same_band (rtop r) r then _ else _) with (next_band (rtop r) (r :: l)).
  rewrite En, El.
  destruct rest as [|q rest].
  { exists ((r :: b) ++ []). rewrite <- El. split_and!; auto; [lia|].
    rewrite El, app_nil_r. done. }
  pose proof (first_band q rest Hrest) as (b2 & rest2 & E2 & Hband2 & Hrest2 & Hbl2 & Hst2).
  destruct ((rbottom r =? rtop q) && band_match (rtop q) (r :: b) (q :: rest)) eqn:Em.
  - apply andb_true_iff in Em as [Eb Em]. apply Z.eqb_eq in Eb. rewrite E2 in Em.
    apply band_match_spec in Em; [|by eapply band_tops|done].
    assert (zlen (r :: b) = zlen (q :: b2)) as Elen
      by (unfold zlen; f_equal; eapply Forall2_length; exact Em).
    rewrite E2, Elen, zdrop_app_ge, Z.sub_diag, zdrop_0 by lia.
    rewrite Eb in Hband. destruct (merge_bands _ _ _ _ _ _ _ Hband Hband2 Em) as [Hm Cm].
    set (l1 := map _ (r :: b)) in *. unfold l1 at 1. simpl.
    destruct (IH _ (tail l1 ++ rest2) (banded_band _ _ _ _ Hm Hrest2 Hbl2)) as
      (out & E & Hout & Hne & Hlen & Hbelow & C).
    { rewrite El, E2 in Hf. unfold l1. simpl in *. rewrite !length_app in *. simpl in *.
      rewrite length_app, length_map in *. lia. }
    exists out. split_and!; auto.
    + etrans; [exact Hlen|]. change (zlen (l1 ++ rest2) <= zlen ((r :: b) ++ (q :: b2) ++ rest2)).
      rewrite !zlen_app. unfold l1, zlen. rewrite length_map. lia.
    + intros x y. rewrite C.
      change (covers (l1 ++ rest2) x y <-> covers ((r :: b) ++ (q :: b2) ++ rest2) x y).
      by rewrite app_assoc, !(covers_app _ rest2), Cm.
  - destruct (IH q rest Hrest) as (out & E & Hout & Hne & Hlen & Hbelow & C).
    { rewrite El in Hf. rewrite length_app in Hf. simpl in *. lia. }
    exists ((r :: b) ++ out).
    pose proof Hbl as [Hrq _]%list.Forall_cons. pose proof Hband as ((_ & _ & Hk) & _)%band_cons.
    unfold rect_ok in Hk. split_and!; auto.
    + by rewrite (bind_ret_eq _ _ _ _ _ E).
    + eapply banded_band; [done|done|]. by eapply below_mono.
    + rewrite !zlen_app. lia.
    + apply list.Forall_app. split; [done|]. eapply below_mono; [|done]. lia.
    + intros x y. rewrite !covers_app, C. done.
Qed.

Lemma tight_ext e l l' : (forall x y, covers l x y <-> covers l' x y) -> tight e l -> tight e l'.
Proof.
  intros Hc (H1 & (y1 & H2) & (y2 & H3) & (x1 & H4) & (x2 & H5)).
  split; [intros x y; rewrite <- Hc; auto|].
  split_and!; [exists y1|exists y2|exists x1|exists x2]; by apply Hc.
Qed.

Lemma tight_single rect : rect_ok rect -> tight rect [rect].
Proof.
  intros Hr. unfold rect_ok in Hr. split.
  - intros x y. rewrite covers_cons, covers_nil. tauto.
  - split_and!; [exists (rtop rect)|exists (rtop rect)|exists (rleft rect)|exists (rleft rect)];
      apply covers_cons; left; unfold in_rect; lia.
Qed.

(** The hull of two rectangles fits the union of what they fit. *)
Lemma tight_hull e1 e2 l1 l2 l :
  tight e1 l1 -> tight e2 l2 ->
  (forall x y, covers l x y <-> covers l2 x y \/ covers l1 x y) -> tight (rectangles_hull e1 e2) l.
Proof.
  intros (H1 & (y1 & H2) & (y2 & H3) & (x1 & H4) & (x2 & H5))
         (G1 & (z1 & G2) & (z2 & G3) & (w1 & G4) & (w2 & G5)) Hc. unfold rectangles_hull.
  split.
  { intros x y [Hxy%G1|Hxy%H1]%Hc; unfold in_rect in *; simpl; lia. }
  simpl. split_and!.
  - destruct (Z.le_gt_cases (rleft e1) (rleft e2)); [exists y1|exists z1]; apply Hc;
      [right; by rewrite Z.min_l|left; by rewrite Z.min_r by lia].
  - destruct (Z.le_gt_cases (rright e1) (rright e2)); [exists z2|exists y2]; apply Hc;
      [left; by rewrite Z.max_r|right; by rewrite Z.max_l by lia].
  - destruct (Z.le_gt_cases (rtop e1) (rtop e2)); [exists x1|exists w1]; apply Hc;
      [right; by rewrite Z.min_l|left; by rewrite Z.min_r by lia].
  - destruct (Z.le_gt_cases (rbottom e1) (rbottom e2)); [exists w2|exists x2]; apply Hc;
      [left; by rewrite Z.max_r|right; by rewrite Z.max_l by lia].
Qed.

(** ** Intersections *)

Lemma intersection_in_rect r1 r2 x y :
  in_rect x y (rectangles_intersection r1 r2).1 <-> in_rect x y r1 /\ in_rect x y r2.
Proof. unfold in_rect. simpl. lia. Qed.

Lemma intersects_spec r1 r2 :
  rectangles_intersects r1 r2 = true <-> exists x y, in_rect x y r1 /\ in_rect x y r2.
Proof.
  unfold rectangles_intersects, rectangles_intersection. simpl. split.
  - intros E. exists (Z.max (rleft r1) (rleft r2)), (Z.max (rtop r1) (rtop r2)).
    unfold in_rect. lia.
  - intros (x & y & H1 & H2). unfold in_rect in *. lia.
Qed.

Lemma intersects_false r1 r2 x y :
  rectangles_intersects r1 r2 = false -> in_rect x y r1 -> in_rect x y r2 -> False.
Proof. intros E H1 H2. by rewrite (proj2 (intersects_spec r1 r2)) in E by eauto. Qed.

Lemma banded_cons r l : banded (r :: l) -> rect_ok r /\ banded l /\ below (rtop r) l.
Proof.
  intros [[Hr Hf]%list.Forall_cons [Hs Hp]%StronglySorted_inv]. split_and!; [done|done|].
  eapply list.Forall_impl; [exact Hp|]. unfold precedes, rect_ok in *. simpl. lia.
Qed.

(** Bands that start below a rectangle do not meet it. *)
Lemma below_misses y0 l rect x y :
  below y0 l -> rbottom rect <= y0 -> covers l x y -> in_rect x y rect -> False.
Proof.
  intros Hb Hy (r & Hr & Hin)%list.Exists_exists Hrect. unfold below in Hb.
  rewrite list.Forall_forall in Hb. specialize (Hb r Hr). unfold in_rect in *. lia.
Qed.

Lemma intersects_loop_spec rects arg2 :
  banded rects ->
  intersects_loop rects arg2 = true <-> exists x y, covers rects x y /\ in_rect x y arg2.
Proof.
  induction rects as [|r l IH]; intros Hb; simpl.
  { split; [done|]. intros (x & y & []%covers_nil & _). }
  destruct (banded_cons r l Hb) as (Hr & Hl & Hbl). specialize (IH Hl).
  destruct (Z.ltb_spec (rtop r) (rbottom arg2)).
  - destruct (rectangles_intersects r arg2) eqn:E.
    + split; [intros _|done]. apply intersects_spec in E as (x & y & H1 & H2).
      exists x, y. rewrite covers_cons. auto.
    + rewrite IH. split; intros (x & y & H1 & H2); exists x, y; rewrite covers_cons in *; [auto|].
      destruct H1 as [H1|H1]; [|auto]. exfalso. eauto using intersects_false.
  - split; [done|]. intros (x & y & Hc & Hin). exfalso.
    eapply (below_misses (rtop r) (r :: l)); eauto. constructor; [lia|done].
Qed.

Lemma tight_single_inv e r : rect_ok r -> tight e [r] -> e = r.
Proof.
  intros Hr (H1 & (y1 & H2) & (y2 & H3) & (x1 & H4) & (x2 & H5)).
  destruct (covers_corner [r] r Hr (list_elem_of_here _ _)) as [C1%H1 C2%H1].
  rewrite covers_cons, covers_nil in H2, H3, H4, H5. unfold in_rect in *.
  destruct e, r. simpl in *. f_equal; lia.
Qed.

Lemma intersects_rect_correct src arg2 :
  region_ok src ->
  region16_intersects_rect src arg2 = true <-> exists p, p ∈ src /\ p ∈ arg2.
Proof.
  intros [Hb Ht].
  assert ((exists p, p ∈ src /\ p ∈ arg2) <->
    exists x y, covers (region16_rects src) x y /\ in_rect x y arg2) as ->.
  { split; [intros ([x y] & H1 & H2); by exists x, y|intros (x & y & H1 & H2); by exists (x, y)]. }
  unfold region16_intersects_rect, region16_rects in *.
  destruct (data src) as [[|r [|r2 l]]|]; cbn [default from_option id] in *.
  - split; [done|]. intros (x & y & []%covers_nil & _).
  - destruct Ht as [?|Ht]; [done|]. destruct (banded_cons r [] Hb) as (Hr & _).
    rewrite (tight_single_inv _ _ Hr Ht).
    change (rectangles_intersects r arg2 = true <-> exists x y, covers [r] x y /\ in_rect x y arg2).
    rewrite intersects_spec.
    split; intros (x & y & H1 & H2); exists x, y; rewrite covers_cons, covers_nil in *; tauto.
  - rewrite !zlen_cons. pose proof (zlen_nonneg l). do 2 (rewrite (proj2 (Z.eqb_neq _ _)) by lia).
    destruct (rectangles_intersects (extents src) arg2) eqn:E; cbn [negb];
      [by apply intersects_loop_spec|].
    split; [done|]. intros (x & y & Hc & Hin). destruct Ht as [?|[Ht _]]; [done|].
    exfalso. eauto using intersects_false.
  - split; [done|]. intros (x & y & []%covers_nil & _).
Qed.

(** The intersection of two rectangles keeps the order of the bands. *)
Lemma intersection_precedes r1 r2 rect :
  precedes r1 r2 ->
  precedes (rectangles_intersection r1 rect).1 (rectangles_intersection r2 rect).1.
Proof. unfold precedes. simpl. lia. Qed.

Lemma intersection_ok r rect :
  rect_ok r -> rectangles_intersects r rect = true -> rect_ok (rectangles_intersection r rect).1.
Proof. unfold rect_ok, rectangles_intersects, rectangles_intersection. simpl. lia. Qed.

(** extents that fit the list, or empty ones for an empty list *)
Definition fits (e : RECTANGLE_16) (l : list RECTANGLE_16) : Prop :=
  (l = [] /\ rectangle_is_empty e = true) \/ tight e l.

Lemma fits_snoc e l r :
  fits e l -> rect_ok r ->
  fits (if rectangle_is_empty e then r else rectangles_hull r e) (l ++ [r]).
Proof.
  intros [[-> ->]|Ht] Hr; right; [by apply tight_single|].
  assert (rectangle_is_empty e = false) as ->.
  { destruct Ht as (H1 & (y1 & H2%H1) & _). unfold in_rect, rectangle_is_empty in *. lia. }
  apply (tight_hull _ _ [r] l); [by apply tight_single|done|]. intros. by rewrite covers_app.
Qed.

(** every item of [items] is a piece of a rectangle of [src] *)
Definition pieces (rect : RECTANGLE_16) (src items : list RECTANGLE_16) : Prop :=
  Forall (fun q => exists r, r ∈ src /\ q = (rectangles_intersection r rect).1) items.

Lemma pieces_further rect r src items : pieces rect src items -> pieces rect (r :: src) items.
Proof.
  intros Hp. eapply list.Forall_impl; [exact Hp|]. intros q (a & Ha & ->).
  exists a. split; [by apply list_elem_of_further|done].
Qed.

Lemma pieces_banded rect r src items :
  banded (r :: src) -> rectangles_intersects r rect = true -> pieces rect src items ->
  banded items -> banded ((rectangles_intersection r rect).1 :: items).
Proof.
  intros Hb E Hp [Hf Hs]. destruct (banded_cons r src Hb) as (Hr & _).
  split; [constructor; [by apply intersection_ok|done]|]. constructor; [done|].
  destruct Hb as [_ [_ Hpre]%StronglySorted_inv].
  eapply list.Forall_impl; [exact Hp|]. intros q (a & Ha & ->).
  rewrite list.Forall_forall in Hpre. by apply intersection_precedes, Hpre.
Qed.

Lemma intersect_loop_spec n used src rect e l0 :
  banded src -> used + zlen src <= n -> fits e l0 ->
  exists items e', intersect_loop n used src rect e = Some (items, e') /\
    zlen items <= zlen src /\ banded items /\ fits e' (l0 ++ items) /\
    pieces rect src items /\ forall x y, covers items x y <-> covers src x y /\ in_rect x y rect.
Proof.
  revert used e l0. induction src as [|r src IH]; intros used e l0 Hb Hn Hf;
    cbn [intersect_loop].
  { exists [], e. rewrite app_nil_r.
    split_and!; [done|lia|apply banded_nil|done|constructor|]. intros. rewrite covers_nil. tauto. }
  destruct (banded_cons r src Hb) as (Hr & Hsrc & Hbl). rewrite zlen_cons in *.
  pose proof (zlen_nonneg src).
  destruct (Z.ltb_spec (rtop r) (rbottom rect)) as [Hrow|Hrow]; cycle 1.
  { exists [], e. rewrite app_nil_r.
    split_and!; [done|rewrite zlen_nil; lia|apply banded_nil|done|constructor|].
    intros x y. rewrite covers_nil. split; [done|]. intros [Hc Hin].
    eapply (below_misses (rtop r) (r :: src)); eauto. constructor; [lia|done]. }
  rewrite (proj2 (Z.ltb_ge _ _)) by lia.
  rewrite (surjective_pairing (rectangles_intersection r rect)).
  change (rectangles_intersection r rect).2 with (rectangles_intersects r rect).
  destruct (rectangles_intersects r rect) eqn:E.
  - pose proof (intersection_ok r rect Hr E) as Hck.
    set (common := (rectangles_intersection r rect).1) in *.
    destruct (IH (used + 1) _ (l0 ++ [common]) Hsrc ltac:(lia) (fits_snoc e l0 common Hf Hck))
      as (items & e' & -> & Hz & Hi & Hfit & Hsub & C).
    exists (common :: items), e'. rewrite <- app_assoc in Hfit. split_and!; [done| | |done| |].
    + rewrite !zlen_cons. lia.
    + by apply (pieces_banded rect r src).
    + constructor; [exists r; split; [apply list_elem_of_here|done]|]. by apply pieces_further.
    + intros x y. rewrite !covers_cons, C. unfold common. rewrite intersection_in_rect. tauto.
  - destruct (IH used e l0 Hsrc ltac:(lia) Hf) as (items & e' & -> & Hz & Hi & Hfit & Hsub & C).
    exists items, e'. split_and!; [done|lia|done|done|by apply pieces_further|].
    intros x y. rewrite C, covers_cons. pose proof (intersects_false r rect x y E). tauto.
Qed.

Section Results.
Context `{AllocOk}.

Lemma n_rects_eq {S} region (s : S) :
  zlen (region16_rects region) <= INT32_MAX ->
  region16_n_rects region s = Ret (zlen (region16_rects region)) s.
Proof.
  intros Hl. unfold region16_n_rects, region16_rects in *. destruct (data region) as [l|]; [|done].
  pose proof (zlen_nonneg l). apply asserting_cast_eq. unfold s32, INT32_MAX in *. simpl in *.
  rewrite Z.mod_small by lia. zcase; lia.
Qed.

Lemma simplify_bands_spec e rects :
  banded rects -> zlen rects <= INT32_MAX ->
  exists rects', region16_simplify_bands (mkRegion e (Some rects)) = Ret tt (mkRegion e (Some rects')) /\
    banded rects' /\ forall x y, covers rects' x y <-> covers rects x y.
Proof.
  intros Hb Hl. unfold region16_simplify_bands. rewrite get_bind.
  rewrite (bind_ret_eq _ _ _ _ _ (n_rects_eq (mkRegion e (Some rects)) _ Hl)). simpl region16_rects. zcase.
  { by exists rects. }
  destruct rects as [|r l]; [done|].
  destruct (simplify_loop_spec (length (r :: l)) r l (mkRegion e (Some (r :: l))) Hb)
    as (out & E & Hout & Hne & Hlen & _ & C); [lia|].
  exists out. split; [|done]. change (region16_rects _) with (r :: l).
  rewrite (bind_ret_eq _ _ _ _ _ E). pose proof (zlen_nonneg out).
  destruct (zlen out =? zlen (r :: l)); simpl; [done|].
  rewrite modify_bind. unfold INT32_MAX in Hl.
  erewrite bind_ret_eq by (apply asserting_cast_eq; unfold usize; apply Z.mod_small; lia).
  unfold resizeRegion. destruct (Z.eqb_spec (zlen out) 0) as [E0|]; [by apply zlen_zero_inv in E0|].
  rewrite get_bind. simpl. rewrite alloc_ok by (unfold sizeof_RECTANGLE_16; lia).
  unfold modify. rewrite ztake_all, Z.sub_diag by lia. unfold zrepeat. simpl. by rewrite app_nil_r.
Qed.

(** Installing a new list of rectangles and simplifying it. *)
Lemma install_spec e items dst (P : Z -> Z -> Prop) :
  banded items -> zlen items <= INT32_MAX -> (items = [] \/ tight e items) ->
  (forall x y, covers items x y <-> P x y) ->
  exists dst', (modify (fun _ => mkRegion e (Some items));; region16_simplify_bands) dst = Ret tt dst' /\
    region_ok dst' /\ forall p, p ∈ dst' <-> P p.1 p.2.
Proof.
  intros Hb Hl Ht HP. destruct (simplify_bands_spec e items Hb Hl) as (rects' & E & Hb' & C).
  eexists. rewrite modify_bind. split; [exact E|]. split.
  - split; [done|]. simpl. destruct Ht as [->|Ht].
    + left. destruct rects' as [|q rects']; [done|]. exfalso.
      destruct Hb' as [[Hq _]%list.Forall_cons _].
      destruct (covers_corner (q :: rects') q Hq (list_elem_of_here _ _)) as [Hc _].
      apply C, covers_nil in Hc. done.
    + right. eapply tight_ext; [|exact Ht]. intros. by rewrite C.
  - intros [x y]. rewrite <- HP, <- C. done.
Qed.

Lemma union_rect_correct src rect dst :
  region_ok src -> rect_ok rect -> zlen (region16_rects src) < 2 ^ 28 ->
  exists dst', region16_union_rect src rect dst = Ret tt dst' /\ region_ok dst' /\
    forall p, p ∈ dst' <-> p ∈ src \/ p ∈ rect.
Proof.
  intros [Hb Ht] Hr Hl. pose proof (zlen_nonneg (region16_rects src)).
  unfold region16_union_rect.
  erewrite bind_ret_eq by (apply n_rects_eq; unfold INT32_MAX; lia).
  destruct (Z.eqb_spec (zlen (region16_rects src)) 0) as [E0%zlen_zero_inv|Hn].
  - exists (mkRegion rect (Some [rect])). split_and!.
    + rewrite modify_bind. unfold resizeRegion. simpl. rewrite bind_assoc, get_bind. simpl.
      destruct (data dst) as [l|].
      * rewrite alloc_ok by (by vm_compute). done.
      * unfold allocateRegion. rewrite !alloc_ok by (by vm_compute). done.
    + split; [by apply banded_single|right]. by apply tight_single.
    + intros [x y].
      change (covers [rect] x y <-> covers (region16_rects src) x y \/ in_rect x y rect).
      rewrite E0, covers_cons, !covers_nil. tauto.
  - rewrite (proj2 (Z.ltb_ge _ _)) by (unfold INT32_MAX; lia).
    unfold allocateRegion. rewrite alloc_ok by (by vm_compute).
    rewrite (proj2 (Z.ltb_lt _ _)) by lia. rewrite alloc_ok by (unfold sizeof_RECTANGLE_16; lia).
    destruct Ht as [E0|Ht]; [by rewrite E0 in Hn|].
    destruct (union_items_adds (extents src) (region16_rects src) rect Hb) as
      (out & Ha & Hlen & Hout & C); [by intros E0; rewrite E0 in Hn|done|done|].
    destruct (Ha (mkBuilder (zrepeat (zlen (region16_rects src) + 1) rect_zero) 0) []) as
      (b & E & Hu & _ & Hz); [|change (zlen (@nil RECTANGLE_16)) with 0; lia|].
    { split_and!; [done| |done]. simpl. rewrite zlen_zrepeat, zlen_nil by lia. lia. }
    rewrite E, Hu, Hz. apply (install_spec _ _ dst (fun x y => covers (region16_rects src) x y \/
      in_rect x y rect)); [done|unfold INT32_MAX; simpl; lia|right|done].
    apply (tight_hull _ _ [rect] (region16_rects src)); [by apply tight_single|done|].
    intros. rewrite covers_cons, covers_nil. simpl. rewrite C. tauto.
Qed.

Lemma intersect_rect_correct src rect dst :
  region_ok src -> zlen (region16_rects src) < 2 ^ 28 ->
  exists dst', region16_intersect_rect src rect dst = Ret tt dst' /\ region_ok dst' /\
    forall p, p ∈ dst' <-> p ∈ src /\ p ∈ rect.
Proof.
  intros [Hb Ht] Hl. pose proof (zlen_nonneg (region16_rects src)).
  unfold region16_intersect_rect.
  erewrite bind_ret_eq.
  2: { instantiate (1 := dst). instantiate (1 := zlen (region16_rects src)).
       unfold region16_rects in *. destruct (data src) as [l|]; [|done]. simpl in *.
       apply asserting_cast_eq. word_lia. }
  destruct (Z.eqb_spec (zlen (region16_rects src)) 0) as [E0%zlen_zero_inv|Hn].
  { eexists. split_and!; [reflexivity|split; [apply banded_nil|by left]|]. intros [x y].
    change (covers [] x y <-> covers (region16_rects src) x y /\ in_rect x y rect).
    rewrite E0, covers_nil. tauto. }
  destruct Ht as [E0|Ht]; [by rewrite E0 in Hn|].
  destruct (Z.eqb_spec (zlen (region16_rects src)) 1) as [E1|Hn1].
  - destruct (region16_rects src) as [|r [|? l]] eqn:Er; try done; cycle 1.
    { rewrite !zlen_cons in E1. pose proof (zlen_nonneg l). lia. }
    destruct (banded_cons r [] Hb) as (Hr & _). rewrite (tight_single_inv _ _ Hr Ht).
    rewrite (surjective_pairing (rectangles_intersection r rect)). rewrite modify_bind.
    change (rectangles_intersection r rect).2 with (rectangles_intersects r rect).
    assert (forall p, p ∈ src <-> p ∈ r) as Hsrc.
    { intros [x y]. change (covers (region16_rects src) x y <-> in_rect x y r).
      rewrite Er, covers_cons, covers_nil. tauto. }
    destruct (rectangles_intersects r rect) eqn:E.
    + rewrite get_bind.
      destruct (union_rect_correct (region16_clear dst) (rectangles_intersection r rect).1
        (region16_clear dst)) as (dst' & E' & Hok & Hp);
        [split; [apply banded_nil|by left]|by apply intersection_ok|done|].
      exists dst'. split_and!; auto. intros [x y]. rewrite Hp, Hsrc.
      change (covers [] x y \/ in_rect x y (rectangles_intersection r rect).1 <->
        in_rect x y r /\ in_rect x y rect). rewrite covers_nil, intersection_in_rect. tauto.
    + eexists. split_and!; [reflexivity|split; [apply banded_nil|by left]|].
      intros [x y]. rewrite Hsrc. pose proof (intersects_false r rect x y E) as Hno.
      change (covers [] x y <-> in_rect x y r /\ in_rect x y rect). rewrite covers_nil. tauto.
  - unfold allocateRegion. rewrite alloc_ok by (by vm_compute).
    rewrite (proj2 (Z.ltb_lt _ _)) by lia. rewrite alloc_ok by (unfold sizeof_RECTANGLE_16; lia).
    destruct (intersect_loop_spec (zlen (region16_rects src)) 0 _ rect rect_zero [] Hb ltac:(lia))
      as (items & e & -> & Hz & Hi & Hfit & _ & C); [by left|].
    apply (install_spec _ _ dst (fun x y => covers (region16_rects src) x y /\ in_rect x y rect));
      [done|unfold INT32_MAX; lia| |done].
    destruct Hfit as [[? _]|?]; auto.
Qed.
End Results.

(** ** The promises of the region algebra *)

(** a test of the invariant, for concrete regions *)
Definition rect_okb (r : RECTANGLE_16) : bool :=
  (0 <=? rleft r) && (rleft r <? rright r) && (rright r <=? UINT16_MAX) &&
  (0 <=? rtop r) && (rtop r <? rbottom r) && (rbottom r <=? UINT16_MAX).

Lemma rect_okb_ok r : rect_okb r = true -> rect_ok r.
Proof. unfold rect_okb, rect_ok. lia. Qed.

(** an upper bar and below it, to the right, a lower one *)
Definition two_bars : REGION16 :=
  mkRegion (mkRect 0 0 30 20) (Some [mkRect 0 0 20 10; mkRect 10 10 30 20]).

Lemma two_bars_ok : region_ok two_bars.
Proof.
  split; [split|right].
  - repeat constructor; by apply rect_okb_ok.
  - repeat constructor; simpl; lia.
  - unfold tight. simpl. setoid_rewrite covers_cons. setoid_rewrite covers_cons.
    setoid_rewrite covers_nil. unfold in_rect. simpl.
    split_and!; [lia|exists 0; lia|exists 10; lia|exists 0; lia|exists 10; lia].
Qed.

(** C17: [region16_union_rect] computes the union: for a well-formed region and a rectangle
    with pixels in it, whatever the target region held before, the result covers exactly the
    pixels of the region and of the rectangle.  Its rectangles are again non-empty,
    disjoint and in bands from top to bottom, and its extents are the smallest rectangle
    around them. *)
Theorem region16_union_rect_spec `{AllocOk} src rect dst :
  region_ok src -> rect_ok rect -> zlen (region16_rects src) < 2 ^ 28 ->
  exists dst', region16_union_rect src rect dst = Ret tt dst' /\ region_ok dst' /\
    forall p, p ∈ dst' <-> p ∈ src \/ p ∈ rect.
Proof. apply union_rect_correct. Qed.

Lemma region16_union_rect_spec_witness :
  exists dst', @region16_union_rect alloc_always two_bars (mkRect 5 5 15 15) two_bars = Ret tt dst' /\
    region_ok dst' /\ forall p, p ∈ dst' <-> p ∈ two_bars \/ p ∈ mkRect 5 5 15 15.
Proof.
  apply (@region16_union_rect_spec alloc_always alloc_always_ok).
  - apply two_bars_ok.
  - by apply rect_okb_ok.
  - by vm_compute.
Defined.

(** [region16_intersect_rect] computes the intersection: for a well-formed region and any
    rectangle, an empty one included, the result is a well-formed region that covers
    exactly the pixels in both. *)
Theorem region16_intersect_rect_spec `{AllocOk} src rect dst :
  region_ok src -> zlen (region16_rects src) < 2 ^ 28 ->
  exists dst', region16_intersect_rect src rect dst = Ret tt dst' /\ region_ok dst' /\
    forall p, p ∈ dst' <-> p ∈ src /\ p ∈ rect.
Proof. apply intersect_rect_correct. Qed.

Lemma region16_intersect_rect_spec_witness :
  exists dst', @region16_intersect_rect alloc_always two_bars (mkRect 15 5 40 12) two_bars = Ret tt dst' /\
    region_ok dst' /\ forall p, p ∈ dst' <-> p ∈ two_bars /\ p ∈ mkRect 15 5 40 12.
Proof.
  apply (@region16_intersect_rect_spec alloc_always alloc_always_ok).
  - apply two_bars_ok.
  - by vm_compute.
Defined.

(** [region16_intersects_rect], which looks at the extents first and stops at the first
    band below the rectangle, decides exactly whether the region and the rectangle have a
    pixel in common. *)
Theorem region16_intersects_rect_spec src arg2 :
  region_ok src ->
  region16_intersects_rect src arg2 = true <-> exists p, p ∈ src /\ p ∈ arg2.
Proof. apply intersects_rect_correct. Qed.

Lemma region16_intersects_rect_spec_witness :
  region16_intersects_rect two_bars (mkRect 25 0 30 10) = true <->
  exists p, p ∈ two_bars /\ p ∈ mkRect 25 0 30 10.
Proof. apply region16_intersects_rect_spec. apply two_bars_ok. Defined.

(** The merge takes an item that ends where the rectangle starts, but not one that starts
    where the rectangle ends: the result has two rectangles in one band that touch. *)
Lemma region16_union_rect_touching :
  @region16_union_rect alloc_always (mkRegion (mkRect 20 0 30 10) (Some [mkRect 20 0 30 10]))
    (mkRect 10 0 20 10) region16_init =
  Ret tt (mkRegion (mkRect 10 0 30 10) (Some [mkRect 10 0 20 10; mkRect 20 0 30 10])) /\
  @region16_union_rect alloc_always (mkRegion (mkRect 10 0 20 10) (Some [mkRect 10 0 20 10]))
    (mkRect 20 0 30 10) region16_init =
  Ret tt (mkRegion (mkRect 10 0 30 10) (Some [mkRect 10 0 30 10])).
Proof. split; reflexivity. Qed.
