(* ===== verification/Collections.v ===== *)
(** * The containers of WinPR

    Models of [winpr/libwinpr/utils/collections/Queue.c], [Stack.c] and [ArrayList.c].  Each
    keeps its objects in a block of pointers that [realloc] enlarges; a pointer is a number
    and [NULL] is 0.  The locks have no effect on a single thread and are left out.  The
    callbacks of [wObject] are the record of that name, a parameter of the operations; the
    operations that call [fnObjectFree] return the objects they hand to it. *)

From S2P Require Import Prelude.

(** ** Callbacks *)

Record wObject := mkObject {
  fnObjectNew : option (Z -> Z);
  fnObjectEquals : Z -> Z -> bool;
  fnObjectFree : bool
}.

(** What the containers are set up with: objects are compared by address and not owned. *)
Definition default_object : wObject := mkObject None Z.eqb false.

(** The pointer that is stored for [obj]. *)
Definition stored (ob : wObject) (obj : Z) : Z :=
  match fnObjectNew ob with Some f => f obj | None => obj end.

(** The objects of [l] that [fnObjectFree] gets, if it is set. *)
Definition released (ob : wObject) (l : list Z) : list Z := if fnObjectFree ob then l else [].

Lemma released_app ob l k : released ob (l ++ k) = released ob l ++ released ob k.
Proof. unfold released. by destruct (fnObjectFree ob). Qed.

(** ** Cells of a block *)

Definition read_cell {S} (i : Z) (b : list Z) : M S Z :=
  if (0 <=? i) && (i <? zlen b) then mret (nth (Z.to_nat i) b 0) else crash Undefined.

(** [ZeroMemory] of the [n] cells from [off] on *)
Definition zero_cells {S} (off n : Z) (b : list Z) : M S (list Z) :=
  if (0 <=? off) && (off + n <=? zlen b) then mret (blit off (zrepeat n 0) b)
  else crash Undefined.

(** the cells of a block of [sizeof (void* ) * n] bytes *)
Definition cells (n : Z) : Z := usize (8 * n) / 8.

Lemma cells_id n : 0 <= n < 2 ^ 60 -> cells n = n.
Proof. intros. unfold cells. word_lia. Qed.

Lemma read_cell_ok {S} i b (s : S) :
  0 <= i < zlen b -> read_cell i b s = Ret (nth (Z.to_nat i) b 0) s.
Proof. intros. unfold read_cell. zcase; [done|lia]. Qed.

Lemma slice_cons i n (b : list Z) :
  0 <= i < zlen b -> 0 < n -> slice i n b = nth (Z.to_nat i) b 0 :: slice (i + 1) (n - 1) b.
Proof.
  intros Hi Hn. unfold slice, zdrop.
  assert (Hl : (Z.to_nat i < length b)%nat) by (unfold zlen in *; lia).
  rewrite (drop_S b (nth (Z.to_nat i) b 0) (Z.to_nat i)).
  - rewrite ztake_cons by lia. do 3 f_equal. lia.
  - destruct (nth_lookup_or_length b (Z.to_nat i) 0) as [->|]; [done|lia].
Qed.

(** The [n] cells of a block from [i] on, one after the other. *)
Lemma window_cons r u b :
  0 <= r < zlen b -> 0 < u <= zlen b ->
  window r u b = nth (Z.to_nat r) b 0 :: window (turn (r + 1) (zlen b)) (u - 1) b.
Proof.
  intros Hr Hu. rewrite (window_pop r u b 1) by lia.
  assert (H1 : window r 1 b = [nth (Z.to_nat r) b 0]).
  { rewrite window_linear, slice_cons by lia. done. }
  rewrite (window_front r u b 1) in H1 by lia.
  rewrite <- (ztake_zdrop 1 (window r u b)) at 1. by rewrite H1.
Qed.

(** One more cell at the write head. *)
Lemma window_snoc r u b x :
  0 <= r < zlen b -> 0 <= u -> u + 1 < zlen b ->
  window r (u + 1) (blit (turn (r + u) (zlen b)) [x] b) = window r u b ++ [x].
Proof.
  intros Hr Hu Hn. assert (L1 : zlen [x] = 1) by done.
  assert (Hw : 0 <= turn (r + u) (zlen b) < zlen b) by (unfold turn; zcase; lia).
  rewrite <- (window_push r u b [x] _ 1 Hr Hu Hn eq_refl) by lia.
  change (zdrop 1 [x]) with (@nil Z). change (ztake 1 [x]) with [x].
  rewrite blit_nil; [done|]. rewrite zlen_blit; lia.
Qed.

(** Overwriting a cell behind the window does not change it. *)
Lemma window_blit_outside r u k b x :
  0 <= r < zlen b -> 0 <= u <= k -> k < zlen b ->
  window r u (blit (turn (r + k) (zlen b)) [x] b) = window r u b.
Proof.
  intros Hr Hu Hk. assert (L1 : zlen [x] = 1) by done.
  assert (Hi : 0 <= turn (r + k) (zlen b) < zlen b) by (unfold turn; zcase; lia).
  unfold window. rewrite zlen_blit by lia. unfold turn in *.
  destruct (Z.ltb_spec (r + k) (zlen b)).
  - rewrite (proj2 (Z.leb_le (r + u) (zlen b))) by lia. unfold slice.
    rewrite zdrop_blit_before by lia.
    apply ztake_blit_before; [lia|]. rewrite zlen_zdrop; lia.
  - unfold slice. zcase; rewrite zdrop_blit_after, ?ztake_blit_before; done || lia.
Qed.

(** The cell in front of the window. *)
Lemma window_blit_front r u b x :
  0 <= r < zlen b -> 0 <= u < zlen b ->
  window (turn (r + 1) (zlen b)) u (blit r [x] b) = window (turn (r + 1) (zlen b)) u b.
Proof.
  intros Hr Hu.
  assert (H1 : 0 <= turn (r + 1) (zlen b) < zlen b) by (unfold turn; zcase; lia).
  rewrite <- (window_blit_outside (turn (r + 1) (zlen b)) u (zlen b - 1) b x) by lia.
  do 2 f_equal. unfold turn in *. repeat zcase; lia.
Qed.

(** A block that grew, with its new cells zeroed. *)
Lemma zero_cells_resize {S} `{Heap} n (b : list Z) (s : S) :
  zlen b <= n ->
  zero_cells (zlen b) (n - zlen b) (resize n b) s = Ret (b ++ zrepeat (n - zlen b) 0) s.
Proof.
  intros Hn. pose proof (zlen_nonneg b). unfold zero_cells.
  rewrite resize_len by lia. zcase; [|lia]. unfold mret, M_ret. f_equal.
  rewrite blit_end by (rewrite ?zlen_zrepeat, ?resize_len; lia). f_equal.
  unfold resize. zcase; [rewrite (ztake_all n) by lia; apply ztake_all; lia|].
  rewrite ztake_app_le by lia. apply ztake_all. lia.
Qed.

(** * Queue *)

Module Queue.

Record wQueue := mkQueue {
  capacity : Z;
  growthFactor : Z;
  head : Z;
  tail : Z;
  size : Z;
  array : list Z;
  event : bool
}.

Definition set_block (c : Z) (b : list Z) (q : wQueue) : wQueue :=
  mkQueue c (growthFactor q) (head q) (tail q) (size q) b (event q).
Definition set_heads (h t n : Z) (q : wQueue) : wQueue :=
  mkQueue (capacity q) (growthFactor q) h t n (array q) (event q).
Definition set_array (b : list Z) (q : wQueue) : wQueue := set_block (capacity q) b q.
Definition set_event (e : bool) (q : wQueue) : wQueue :=
  mkQueue (capacity q) (growthFactor q) (head q) (tail q) (size q) (array q) e.

Definition Queue_Count : M wQueue Z := q ← get; mret (size q).

(** [array[i] = obj] *)
Definition store (i obj : Z) : M wQueue unit :=
  q ← get; b ← copy_to i [obj] (array q); modify (set_array b).

(** The loop of [Queue_Clear]; the fuel is the capacity. *)
Fixpoint clear_loop (ob : wObject) (fuel : nat) (index : Z) : M wQueue (list Z) :=
  q ← get;
  if index =? tail q then mret []
  else match fuel with
  | O => crash Diverges
  | S fuel' =>
      obj ← read_cell index (array q);
      store index 0;;
      (if capacity q =? 0 then crash Undefined else mret tt);;
      l ← clear_loop ob fuel' (usize (index + 1) mod capacity q);
      mret (released ob [obj] ++ l)
  end.

Definition Queue_Clear (ob : wObject) : M wQueue (list Z) :=
  q ← get;
  l ← clear_loop ob (Z.to_nat (capacity q)) (head q);
  modify (set_heads 0 0 0);;
  modify (set_event false);;
  mret l.

Fixpoint contains_loop (ob : wObject) (fuel : nat) (index obj : Z) : M wQueue bool :=
  q ← get;
  if index <? tail q then
    match fuel with
    | O => crash Diverges
    | S fuel' =>
        x ← read_cell index (array q);
        if fnObjectEquals ob x obj then mret true else contains_loop ob fuel' (index + 1) obj
    end
  else mret false.

Definition Queue_Contains (ob : wObject) (obj : Z) : M wQueue bool :=
  q ← get; contains_loop ob (Z.to_nat (tail q)) 0 obj.

Section Operations.
Context `{Heap}.

Definition Queue_EnsureCapacity (count : Z) : M wQueue unit :=
  q ← get;
  if capacity q <=? usize (size q + count) then
    let old_capacity := capacity q in
    let new_capacity := usize (capacity q * growthFactor q) in
    let new_capacity := if new_capacity <? usize (size q + count)
                        then usize (size q + count) else new_capacity in
    guard (heap_ok (usize (8 * new_capacity)));;
    let newArray := resize (cells new_capacity) (array q) in
    zeroed ← zero_cells old_capacity (cells (new_capacity - old_capacity)) newArray;
    modify (set_block new_capacity zeroed);;
    if tail q <=? head q then
      front ← copy_from 0 (tail q) zeroed;
      b ← copy_to old_capacity front zeroed;
      modify (set_block new_capacity b);;
      modify (set_heads (head q) (usize (tail q + old_capacity)) (size q))
    else mret tt
  else mret tt.

Definition Queue_Enqueue (ob : wObject) (obj : Z) : M wQueue bool :=
  r ← attempt (Queue_EnsureCapacity 1);
  match r with
  | None => mret true
  | Some _ =>
      q ← get;
      store (tail q) (stored ob obj);;
      (if capacity q =? 0 then crash Undefined else mret tt);;
      modify (set_heads (head q) (usize (tail q + 1) mod capacity q) (size q));;
      let signalSet := size q =? 0 in
      modify (fun q => set_heads (head q) (tail q) (usize (size q + 1)) q);;
      (if signalSet then modify (set_event true) else mret tt);;
      mret true
  end.

Definition Queue_Dequeue : M wQueue Z :=
  q ← get;
  obj ← (if 0 <? size q then
           x ← read_cell (head q) (array q);
           store (head q) 0;;
           (if capacity q =? 0 then crash Undefined else mret tt);;
           modify (set_heads (usize (head q + 1) mod capacity q) (tail q) (usize (size q - 1)));;
           mret x
         else mret 0);
  q' ← get;
  (if size q' <? 1 then modify (set_event false) else mret tt);;
  mret obj.

Definition Queue_Peek : M wQueue Z :=
  q ← get; if 0 <? size q then read_cell (head q) (array q) else mret 0.

(** The object handed to [fnObjectFree], if it is set. *)
Definition Queue_Discard (ob : wObject) : M wQueue (list Z) :=
  obj ← Queue_Dequeue; mret (released ob [obj]).

(** The answers of the operating system are the parameters [lock_ok] and [event_ok]; [Fail]
    is the [NULL] result. *)
Definition Queue_New (lock_ok event_ok : bool) (cap growth : Z) : outcome wQueue unit :=
  let growthFactor := if 0 <? growth then growth else 2 in
  let cap := if cap <=? 0 then 32 else cap in
  (guard lock_ok;; Queue_EnsureCapacity cap;; guard event_ok)
    (mkQueue 0 growthFactor 0 0 0 [] false).
End Operations.

(** ** Invariant and abstraction *)

(** The objects held, oldest first. *)
Definition contents (q : wQueue) : list Z := window (head q) (size q) (array q).

(** One cell stays free, so that equal heads mean an empty queue; the event is set exactly
    when the queue holds something. *)
Record queue_ok (q : wQueue) : Prop := mk_queue_ok {
  ok_array : zlen (array q) = capacity q;
  ok_capacity : 2 <= capacity q < 2 ^ 60;
  ok_growth : 2 <= growthFactor q < 2 ^ 60;
  ok_head : 0 <= head q < capacity q;
  ok_size : 0 <= size q < capacity q;
  ok_tail : tail q = turn (head q + size q) (capacity q);
  ok_event : event q = (0 <? size q)
}.

(** ** The operations *)

Section Refinement.
Context `{Heap}.

Lemma queue_len q : queue_ok q -> zlen (contents q) = size q.
Proof. intros []. apply zlen_window; lia. Qed.

Lemma tail_range q : queue_ok q -> 0 <= tail q < capacity q.
Proof. intros [? ? ? ? ? -> ?]. unfold turn. zcase; lia. Qed.

Lemma store_cell_ok q i x :
  0 <= i < zlen (array q) -> store i x q = Ret tt (set_array (blit i [x] (array q)) q).
Proof.
  intros. unfold store. rewrite get_bind.
  by rewrite (bind_ret_eq _ _ _ _ _ (copy_to_ok i [x] (array q) q ltac:(lia) ltac:(rewrite zlen_cons, zlen_nil; lia))).
Qed.

(** Wrapped contents, moved behind the old end of the block. *)
Lemma unwrap_contents r u b k :
  0 <= r < zlen b -> 0 <= u < zlen b -> zlen b <= r + u -> zlen b <= zlen k ->
  window r u (blit (zlen b) (ztake (r + u - zlen b) b) (b ++ k)) = window r u b.
Proof.
  intros Hr Hu Hw Hk.
  assert (Lt : zlen (ztake (r + u - zlen b) b) = r + u - zlen b) by (apply zlen_ztake; lia).
  assert (E : blit (zlen b) (ztake (r + u - zlen b) b) (b ++ k) =
    (b ++ ztake (r + u - zlen b) b) ++ zdrop (r + u - zlen b) k).
  { unfold blit. rewrite Lt, ztake_app_le, ztake_all, zdrop_app_ge, app_assoc by lia.
    do 2 f_equal. lia. }
  rewrite E, window_linear by (rewrite !zlen_app, Lt, zlen_zdrop; lia).
  rewrite slice_app_l by (rewrite ?zlen_app; lia). unfold window, slice. zcase.
  - replace (r + u - zlen b) with 0 by lia. by rewrite ztake_0, app_nil_r.
  - rewrite zdrop_app_le by lia. apply ztake_all. rewrite zlen_app, zlen_zdrop, Lt; lia.
Qed.

Definition grown (q q' : wQueue) : Prop :=
  queue_ok q' /\ contents q' = contents q /\ size q' = size q /\
  growthFactor q' = growthFactor q /\ size q + 1 < capacity q'.

Lemma ensure_ok q :
  queue_ok q -> (size q + 1) * growthFactor q < 2 ^ 60 ->
  (Queue_EnsureCapacity 1 q = Fail q /\ exists n, heap_ok n = false) \/
  exists q', Queue_EnsureCapacity 1 q = Ret tt q' /\ grown q q'.
Proof.
  intros Hok Hb. pose proof Hok as [Ha Hc Hg Hh Hs Ht He]. unfold Queue_EnsureCapacity.
  rewrite get_bind, !usize_id by lia. destruct (Z.leb_spec (capacity q) (size q + 1)).
  2: { right. exists q. split; [done|]. unfold grown; split_and!; done || lia. }
  assert (Hcap : capacity q = size q + 1) by lia.
  assert (Hn : 2 * capacity q <= capacity q * growthFactor q) by nia.
  rewrite (usize_id (capacity q * growthFactor q)) by nia. rewrite (proj2 (Z.ltb_ge (capacity q * growthFactor q) (size q + 1))) by lia.
  set (n := capacity q * growthFactor q) in *. assert (n < 2 ^ 60) by (subst n; lia).
  destruct (heap_ok _) eqn:Hheap; [right|left; eauto].
  rewrite guard_bind, !cells_id by (done || lia).
  rewrite <- Ha.
  rewrite (bind_ret_eq _ _ _ _ _ (zero_cells_resize n (array q) q ltac:(lia))), modify_bind.
  set (z := zrepeat (n - zlen (array q)) 0).
  assert (Lz : zlen z = n - zlen (array q)) by (apply zlen_zrepeat; lia).
  unfold turn in Ht. zcase.
  - assert (Hw : capacity q <= head q + size q /\ tail q = head q + size q - capacity q).
    { destruct (Z.ltb_spec (head q + size q) (capacity q)); lia. }
    erewrite bind_ret_eq by (apply copy_from_ok; rewrite ?zlen_app; lia).
    rewrite slice_0, ztake_app_le by lia.
    erewrite bind_ret_eq by (apply copy_to_ok; rewrite ?zlen_app, ?zlen_ztake; lia).
    eexists. split; [reflexivity|].
    rewrite usize_id by lia. unfold grown, contents, set_block, set_heads; simpl.
    replace (tail q) with (head q + size q - zlen (array q)) by lia.
    replace (capacity q) with (zlen (array q)) in * by lia.
    split_and!; try done; try lia; [constructor; simpl; try done; try lia|].
    + rewrite zlen_blit; rewrite ?zlen_app, ?zlen_ztake; lia.
    + unfold turn. zcase; lia.
    + rewrite unwrap_contents; lia || done.
  - assert (Hw : head q + size q < capacity q /\ tail q = head q + size q).
    { destruct (Z.ltb_spec (head q + size q) (capacity q)); lia. }
    eexists. split; [reflexivity|].
    unfold grown, contents, set_block; simpl.
    split_and!; try done; try lia; [constructor; simpl; try done; try lia|].
    + rewrite zlen_app; lia.
    + unfold turn. zcase; lia.
    + rewrite !window_linear by (rewrite ?zlen_app; lia). rewrite slice_app_l; lia || done.
Qed.

(** The object that needs a larger block, when there is none: it is dropped, and nobody is told. *)
Lemma enqueue_refused_says_true ob obj q :
  queue_ok q -> size q + 1 = capacity q -> (forall n, heap_ok n = false) ->
  Queue_Enqueue ob obj q = Ret true q.
Proof.
  intros [Ha Hc Hg Hh Hs Ht He] Hfull Hheap. unfold Queue_Enqueue. rewrite (bind_ret_eq _ _ _ None q); [done|].
  unfold attempt, Queue_EnsureCapacity. rewrite get_bind, usize_id by lia. destruct (Z.leb_spec (capacity q) (size q + 1)); [|lia].
  by rewrite Hheap.
Qed.

Lemma enqueue_ok ob obj q :
  queue_ok q -> (size q + 1) * growthFactor q < 2 ^ 60 ->
  exists q', Queue_Enqueue ob obj q = Ret true q' /\ queue_ok q' /\
    growthFactor q' = growthFactor q /\
    (contents q' = contents q ++ [stored ob obj] \/
     q' = q /\ exists n, heap_ok n = false).
Proof.
  intros Hok Hb. destruct (ensure_ok q Hok Hb) as [[E Hn]|(q1 & E & Hok1 & Hc1 & Hs1 & Hg1 & Hr)].
  { exists q. unfold Queue_Enqueue. erewrite bind_ret_eq by (unfold attempt; by rewrite E).
    split_and!; try done. by right. }
  unfold Queue_Enqueue. erewrite bind_ret_eq by (unfold attempt; by rewrite E).
  pose proof (tail_range q1 Hok1). pose proof Hok1 as [Ha Hc Hg Hh Hs Ht He].
  rewrite get_bind. erewrite bind_ret_eq by (apply store_cell_ok; lia).
  destruct (Z.eqb_spec (capacity q1) 0); [lia|]. rewrite ret_bind, !modify_bind. unfold set_heads, set_array, set_block; simpl.
  rewrite !usize_id, turn_mod by lia.
  assert (Hcont : window (head q1) (size q1 + 1) (blit (tail q1) [stored ob obj] (array q1))
                  = contents q1 ++ [stored ob obj]).
  { rewrite Ht, <- Ha. apply window_snoc; lia. }
  exists (mkQueue (capacity q1) (growthFactor q1) (head q1) (turn (tail q1 + 1) (capacity q1))
            (size q1 + 1) (blit (tail q1) [stored ob obj] (array q1)) true).
  unfold contents at 1; simpl. rewrite Hcont, Hc1. split_and!; [|constructor; simpl; try done; try lia|done|by left].
  - destruct (Z.eqb_spec (size q1) 0); [done|].
    replace true with (event q1) at 2 by (rewrite He; lia). done.
  - rewrite zlen_blit; rewrite ?zlen_cons, ?zlen_nil; lia.
  - rewrite Ht, turn_turn by lia. f_equal. lia.
Qed.

Lemma dequeue_ok q :
  queue_ok q ->
  exists q', Queue_Dequeue q = Ret (List.hd 0 (contents q)) q' /\ queue_ok q' /\
    growthFactor q' = growthFactor q /\ contents q' = tl (contents q).
Proof.
  intros Hok. pose proof (queue_len q Hok) as Hl. pose proof Hok as [Ha Hc Hg Hh Hs Ht He].
  unfold Queue_Dequeue. rewrite get_bind. destruct (Z.ltb_spec 0 (size q)) as [Hp|Hz].
  - erewrite bind_ret_eq.
    2: { erewrite bind_ret_eq by (apply read_cell_ok; lia).
         erewrite bind_ret_eq by (apply store_cell_ok; lia).
         zcase; [lia|]. rewrite ret_bind, modify_bind. reflexivity. }
    rewrite get_bind. unfold set_heads, set_array, set_block; simpl. rewrite !usize_id by lia.
    unfold contents. rewrite (window_cons _ _ (array q)) by lia. simpl.
    rewrite turn_mod, Ha by lia.
    assert (Hwin : window (turn (head q + 1) (capacity q)) (size q - 1) (blit (head q) [0] (array q))
                   = window (turn (head q + 1) (capacity q)) (size q - 1) (array q)).
    { rewrite <- Ha. apply window_blit_front; lia. }
    exists (mkQueue (capacity q) (growthFactor q) (turn (head q + 1) (capacity q)) (tail q)
              (size q - 1) (blit (head q) [0] (array q)) (0 <? size q - 1)).
    simpl. rewrite Hwin. split_and!; [|constructor; simpl; try done; try lia|done|done].
    + destruct (Z.ltb_spec (size q - 1) 1).
      * by replace (0 <? size q - 1) with false by lia.
      * replace (0 <? size q - 1) with (event q) by (rewrite He; lia). done.
    + rewrite zlen_blit; rewrite ?zlen_cons, ?zlen_nil; lia.
    + unfold turn; zcase; lia.
    + rewrite Ht, turn_turn by lia. f_equal. lia.
  - rewrite ret_bind, get_bind. zcase; [|lia]. eexists. split; [|].
    + rewrite (zlen_zero_inv (contents q)) by lia. reflexivity.
    + rewrite (zlen_zero_inv (contents q)) by lia. split_and!; [|done|].
      * constructor; simpl; try done; try lia.
      * apply zlen_zero_inv. unfold contents, set_event; simpl. rewrite zlen_window; lia.
Qed.

Lemma queue_peek_ok q : queue_ok q -> Queue_Peek q = Ret (List.hd 0 (contents q)) q.
Proof.
  intros Hok. pose proof (queue_len q Hok) as Hl. pose proof Hok as [Ha Hc Hg Hh Hs Ht He].
  unfold Queue_Peek. rewrite get_bind. zcase.
  - rewrite read_cell_ok by lia. unfold contents. by rewrite window_cons by lia.
  - by rewrite (zlen_zero_inv (contents q)) by lia.
Qed.

(** The loop of [Queue_Clear] from [i] on, with [k] objects left. *)
Lemma clear_loop_ok ob fuel : forall q i k,
  zlen (array q) = capacity q -> capacity q < 2 ^ 60 -> 0 <= i < capacity q ->
  0 <= k < capacity q -> k <= Z.of_nat fuel -> tail q = turn (i + k) (capacity q) ->
  exists q', clear_loop ob fuel i q = Ret (released ob (window i k (array q))) q' /\
    zlen (array q') = capacity q' /\ capacity q' = capacity q /\ growthFactor q' = growthFactor q.
Proof.
  induction fuel as [|fuel IH]; intros q i k Ha Hcap Hi Hk Hf Ht; simpl; rewrite get_bind.
  - assert (k = 0) by lia. subst k. unfold turn in Ht.
    replace (i + 0) with i in Ht by lia. destruct (Z.ltb_spec i (capacity q)); [|lia].
    rewrite Ht, Z.eqb_refl. exists q. split_and!; try done.
    rewrite window_linear, slice_zero by lia. unfold released. by destruct (fnObjectFree ob).
  - destruct (Z.eqb_spec i (tail q)) as [E|E].
    + assert (k = 0) by (unfold turn in Ht; destruct (_ <? _) eqn:?; lia). subst k.
      exists q. split_and!; try done.
      rewrite window_linear, slice_zero by lia. unfold released. by destruct (fnObjectFree ob).
    + assert (0 < k).
      { destruct (Z.eq_dec k 0) as [->|]; [|lia]. unfold turn in Ht.
        destruct (Z.ltb_spec (i + 0) (capacity q)); lia. }
      erewrite bind_ret_eq by (apply read_cell_ok; lia).
      erewrite bind_ret_eq by (apply store_cell_ok; lia).
      zcase; [lia|]. rewrite ret_bind, usize_id, turn_mod by lia.
      set (q1 := set_array _ q).
      assert (Ha1 : zlen (array q1) = capacity q).
      { simpl. rewrite zlen_blit; rewrite ?zlen_cons, ?zlen_nil; lia. }
      destruct (IH q1 (turn (i + 1) (capacity q)) (k - 1)) as (q' & E' & Hr);
        [done|done|simpl; unfold turn; zcase; lia|simpl; lia|lia| |].
      { simpl. rewrite Ht, turn_turn by lia. f_equal. lia. }
      rewrite (bind_ret_eq _ _ _ _ _ E'). exists q'. split; [|done].
      unfold mret, M_ret. f_equal. rewrite <- released_app. f_equal.
      rewrite (window_cons i k), Ha by lia. simpl. f_equal.
      rewrite <- Ha. apply window_blit_front; lia.
Qed.

Lemma clear_ok ob q :
  queue_ok q ->
  exists q', Queue_Clear ob q = Ret (released ob (contents q)) q' /\ queue_ok q' /\
    growthFactor q' = growthFactor q /\ contents q' = [].
Proof.
  intros [Ha Hc Hg Hh Hs Ht He]. unfold Queue_Clear. rewrite get_bind.
  destruct (clear_loop_ok ob (Z.to_nat (capacity q)) q (head q) (size q)) as (q' & E & Ha' & Hc' & Hg');
    try done; try lia.
  rewrite (bind_ret_eq _ _ _ _ _ E). eexists. split; [reflexivity|].
  split_and!; [constructor; simpl; try done; try lia; unfold turn; zcase; lia|done|].
  unfold contents. simpl. rewrite window_linear by lia. done.
Qed.

(** A new queue, unless it is made for one object or told not to grow. *)
Lemma new_ok lock_ok event_ok cap growth q :
  cap <= 0 \/ 2 <= cap < 2 ^ 60 -> growth <= 0 \/ 2 <= growth < 2 ^ 60 ->
  Queue_New lock_ok event_ok cap growth = Ret tt q ->
  queue_ok q /\ contents q = [] /\ growthFactor q = if 0 <? growth then growth else 2.
Proof.
  intros Hcap Hgrow. unfold Queue_New.
  set (g := if 0 <? growth then growth else 2). set (c := if cap <=? 0 then 32 else cap).
  assert (Hg : 2 <= g < 2 ^ 60) by (subst g; zcase; lia).
  assert (Hc : 2 <= c < 2 ^ 60) by (subst c; zcase; lia). clearbody g c.
  destruct lock_ok; [|done]. rewrite guard_bind by done.
  unfold Queue_EnsureCapacity. rewrite bind_assoc, get_bind. simpl.
  rewrite Z.mul_0_l, Z.add_0_l, (usize_id c), (usize_id 0) by lia.
  rewrite (proj2 (Z.leb_le 0 c)) by lia. rewrite (proj2 (Z.ltb_lt 0 c)) by lia.
  rewrite bind_assoc. destruct (heap_ok _); [|done].
  rewrite guard_bind, bind_assoc, Z.sub_0_r, !cells_id by (done || lia).
  pose proof (zero_cells_resize c [] (mkQueue 0 g 0 0 0 [] false)) as E.
  rewrite zlen_nil, Z.sub_0_r in E. simpl app in E. rewrite (bind_ret_eq _ _ _ _ _ (E ltac:(lia))).
  assert (L : zlen (zrepeat c 0) = c) by (apply zlen_zrepeat; lia).
  rewrite bind_assoc, modify_bind, bind_assoc.
  erewrite bind_ret_eq by (apply copy_from_ok; lia). rewrite slice_zero, bind_assoc.
  erewrite bind_ret_eq by (apply copy_to_ok; [done|rewrite L; change (0 <= c); lia]).
  rewrite blit_nil by lia.
  destruct event_ok; [|done]. intros [= <-]. unfold set_block, set_heads, contents; simpl.
  split_and!; [constructor; simpl; try done; try lia|rewrite window_linear; [done|lia]|done].
  unfold turn. zcase; [done|lia].
Qed.

(** *** Sequences of operations *)

Inductive request :=
| Enqueue (obj : Z)
| Dequeue
| Peek
| Discard
| Clear
| Count.

Inductive reply :=
| Status (b : bool)
| Object (obj : Z)
| Freed (l : list Z)
| Number (n : Z).

Definition queue_step (ob : wObject) (o : request) : M wQueue reply :=
  match o with
  | Enqueue obj => b ← Queue_Enqueue ob obj; mret (Status b)
  | Dequeue => x ← Queue_Dequeue; mret (Object x)
  | Peek => x ← Queue_Peek; mret (Object x)
  | Discard => l ← Queue_Discard ob; mret (Freed l)
  | Clear => l ← Queue_Clear ob; mret (Freed l)
  | Count => n ← Queue_Count; mret (Number n)
  end.

Definition queue_run (ob : wObject) := session (queue_step ob).

(** The contract of [collections.h]: first in, first out, and the status of [Queue_Enqueue] tells
    whether the object was taken. *)
Inductive fifo (ob : wObject) : list Z -> request -> reply -> list Z -> Prop :=
| fifo_enqueue l obj : fifo ob l (Enqueue obj) (Status true) (l ++ [stored ob obj])
| fifo_refused l obj n : heap_ok n = false -> fifo ob l (Enqueue obj) (Status false) l
| fifo_dequeue l : fifo ob l Dequeue (Object (List.hd 0 l)) (tl l)
| fifo_peek l : fifo ob l Peek (Object (List.hd 0 l)) l
| fifo_discard l : fifo ob l Discard (Freed (released ob [List.hd 0 l])) (tl l)
| fifo_clear l : fifo ob l Clear (Freed (released ob l)) []
| fifo_count l : fifo ob l Count (Number (zlen l)) l.

Definition fifo_run (ob : wObject) := spec_session (fifo ob).

(** What the code does beside its contract: an object for which the heap refuses the larger block
    is dropped, and the status is the one of success. *)
Inductive fifo_or_loss (ob : wObject) : list Z -> request -> reply -> list Z -> Prop :=
| kept_to l o a l' : fifo ob l o a l' -> fifo_or_loss ob l o a l'
| lost_object l obj n : heap_ok n = false -> fifo_or_loss ob l (Enqueue obj) (Status true) l.

Lemma no_loss ob l os rs l' :
  (forall n, heap_ok n = true) -> spec_session (fifo_or_loss ob) l os rs l' -> fifo_run ob l os rs l'.
Proof.
  intros Hh. induction 1 as [|l o a l1 os rs l' Hf Hs IH]; [constructor|]. econstructor; [|exact IH].
  destruct Hf as [|? ? n Hn]; [done|]. by rewrite Hh in Hn.
Qed.

Lemma queue_step_ok ob o q :
  queue_ok q -> (size q + 1) * growthFactor q < 2 ^ 60 ->
  exists a q', queue_step ob o q = Ret a q' /\ queue_ok q' /\
    growthFactor q' = growthFactor q /\ size q' <= size q + 1 /\
    fifo_or_loss ob (contents q) o a (contents q').
Proof.
  intros Hok Hb. pose proof (queue_len q Hok) as Hl.
  assert (Htl : zlen (tl (contents q)) <= zlen (contents q)).
  { destruct (contents q); [done|]. rewrite zlen_cons. simpl. lia. }
  assert (Hbound : forall q', queue_ok q' -> zlen (contents q') <= size q + 1 -> size q' <= size q + 1).
  { intros q' Hok' Hz. by rewrite (queue_len q') in Hz. }
  destruct o; simpl.
  - destruct (enqueue_ok ob obj q Hok Hb) as (q' & E & Hok' & Hg & Hc).
    rewrite (bind_ret_eq _ _ _ _ _ E). exists (Status true), q'. split_and!; try done.
    + destruct Hc as [Hc|[-> _]]; [|lia]. apply Hbound; [done|].
      rewrite Hc, zlen_app, zlen_cons, zlen_nil. lia.
    + destruct Hc as [->|[-> [n Hn]]]; [do 2 constructor|by apply (lost_object ob _ _ n)].
  - destruct (dequeue_ok q Hok) as (q' & E & Hok' & Hg & Hc).
    rewrite (bind_ret_eq _ _ _ _ _ E). eexists _, q'. split; [reflexivity|].
    split_and!; try done; [apply Hbound; [done|rewrite Hc; lia]|rewrite Hc; do 2 constructor].
  - rewrite (bind_ret_eq _ _ _ _ _ (queue_peek_ok q Hok)). eexists _, q. split; [reflexivity|].
    split_and!; try done; [lia|do 2 constructor].
  - destruct (dequeue_ok q Hok) as (q' & E & Hok' & Hg & Hc). unfold Queue_Discard.
    rewrite bind_assoc, (bind_ret_eq _ _ _ _ _ E). eexists _, q'. split; [reflexivity|].
    split_and!; try done; [apply Hbound; [done|rewrite Hc; lia]|rewrite Hc; do 2 constructor].
  - destruct (clear_ok ob q Hok) as (q' & E & Hok' & Hg & Hc).
    rewrite (bind_ret_eq _ _ _ _ _ E). eexists _, q'. split; [reflexivity|].
    split_and!; try done; [|rewrite Hc; do 2 constructor].
    apply Hbound; [done|]. rewrite Hc, zlen_nil. destruct Hok; lia.
  - eexists _, q. split; [reflexivity|]. split_and!; try done; [lia|].
    rewrite <- Hl. do 2 constructor.
Qed.

Lemma queue_run_ok ob os q :
  queue_ok q -> (size q + zlen os + 1) * growthFactor q < 2 ^ 60 ->
  exists l q', queue_run ob os q = Ret l q' /\ queue_ok q' /\
    spec_session (fifo_or_loss ob) (contents q) os l (contents q').
Proof.
  intros Hok Hb.
  destruct (session_refines (queue_step ob) (fifo_or_loss ob) (fun _ => True)
    (fun n q => queue_ok q /\ (size q + Z.of_nat n + 1) * growthFactor q < 2 ^ 60) contents)
    with (os := os) (s := q) as (l & q' & E & [Hok' _] & Hf); [|by apply Forall_true|done|by eauto].
  clear q Hok Hb. intros n o q _ [Hok Hb]. pose proof Hok as [_ _ Hg _ Hs _ _].
  destruct (queue_step_ok ob o q Hok ltac:(nia)) as (a & q1 & E1 & Hok1 & Hg1 & Hs1 & Hf1).
  exists a, q1. split_and!; try done. rewrite Hg1. nia.
Qed.

End Refinement.

#[local] Existing Instance heap_always.

(** Three cells: the fourth object is stored in a larger block. *)
Definition requests3 : list request :=
  [Enqueue 11; Dequeue; Enqueue 12; Enqueue 13; Peek; Enqueue 14; Enqueue 15; Dequeue; Count;
   Discard; Clear; Dequeue].


(** A queue made for one object loses the first one: growing the empty block counts as
    rearranging wrapped entries. *)
Lemma queue_of_one_loses_object :
  exists q q', Queue_New true true 1 2 = Ret tt q /\
    queue_run default_object [Enqueue 7; Dequeue] q = Ret [Status true; Object 0] q'.
Proof. do 2 eexists. split; [vm_compute; reflexivity|]. vm_compute. reflexivity. Qed.

(** A queue with growth factor one takes a nearly full block for a wrapped one, moves the
    tail behind its end and stores there. *)
Lemma queue_without_growth_overruns :
  exists q, Queue_New true true 2 1 = Ret tt q /\
    queue_run default_object [Enqueue 7; Dequeue; Enqueue 8; Enqueue 9] q = Crash Undefined.
Proof. eexists. split; [vm_compute; reflexivity|]. vm_compute. reflexivity. Qed.

(** [Queue_Contains] looks at the cells in front of the tail only, and misses an object that
    is held behind it. *)
Lemma queue_contains_misses_wrapped :
  exists q l q', Queue_New true true 3 2 = Ret tt q /\
    queue_run default_object [Enqueue 11; Enqueue 12; Dequeue; Enqueue 13; Peek] q = Ret l q' /\
    contents q' = [12; 13] /\ Queue_Contains default_object 13 q' = Ret false q'.
Proof. do 3 eexists. do 3 (split; [vm_compute; reflexivity|]). vm_compute. reflexivity. Qed.
End Queue.

(** * Stack *)

(** Looks for [obj] among the first [n] cells. *)
Fixpoint scan {S} (ob : wObject) (b : list Z) (obj : Z) (fuel : nat) (index n : Z) : M S (option Z) :=
  if index <? n then
    match fuel with
    | O => crash Diverges
    | S fuel' =>
        x ← read_cell index b;
        if fnObjectEquals ob x obj then mret (Some index)
        else scan ob b obj fuel' (index + 1) n
    end
  else mret None.

(** The first object of a list that equals [obj]. *)
Fixpoint find_index (ob : wObject) (obj : Z) (i : Z) (l : list Z) : option Z :=
  match l with
  | [] => None
  | x :: l' => if fnObjectEquals ob x obj then Some i else find_index ob obj (i + 1) l'
  end.

Lemma scan_ok {S} ob b obj fuel (s : S) : forall index n,
  0 <= index -> n <= zlen b -> n - index <= Z.of_nat fuel ->
  scan ob b obj fuel index n s = Ret (find_index ob obj index (slice index (n - index) b)) s.
Proof.
  induction fuel as [|fuel IH]; intros index n Hi Hn Hf; simpl;
    destruct (Z.ltb_spec index n); try lia.
  - unfold slice, ztake. by rewrite Z2Nat.nonpos by lia.
  - erewrite bind_ret_eq by (apply read_cell_ok; lia).
    rewrite slice_cons by lia. simpl. zcase; [done|].
    rewrite IH by lia. do 3 f_equal. lia.
  - unfold slice, ztake. by rewrite Z2Nat.nonpos by lia.
Qed.

Lemma find_index_range ob obj l : forall i j,
  find_index ob obj i l = Some j -> i <= j < i + zlen l.
Proof.
  induction l as [|x l IH]; intros i j; simpl; [done|]. rewrite zlen_cons.
  pose proof (zlen_nonneg l). destruct (fnObjectEquals _ _ _).
  - intros [= <-]. lia.
  - intros Hj%IH. lia.
Qed.

Lemma find_index_existsb ob obj l : forall i,
  match find_index ob obj i l with Some _ => true | None => false end =
  existsb (fun x => fnObjectEquals ob x obj) l.
Proof.
  induction l as [|x l IH]; intros i; simpl; [done|].
  destruct (fnObjectEquals _ _ _); [done|apply IH].
Qed.

Lemma find_index_spec ob obj l : forall i,
  match find_index ob obj i l with
  | Some j => exists k x m, l = k ++ x :: m /\ j = i + zlen k /\ fnObjectEquals ob x obj = true /\
                Forall (fun y => fnObjectEquals ob y obj = false) k
  | None => Forall (fun y => fnObjectEquals ob y obj = false) l
  end.
Proof.
  induction l as [|x l IH]; intros i; simpl; [constructor|].
  destruct (fnObjectEquals ob x obj) eqn:E.
  - exists [], x, l. split_and!; try done. rewrite zlen_nil. lia.
  - specialize (IH (i + 1)). destruct (find_index _ _ _ _).
    + destruct IH as (k & y & m & -> & -> & Hy & Hk). exists (x :: k), y, m.
      split_and!; try done; [rewrite zlen_cons; lia|by constructor].
    + by constructor.
Qed.

Lemma existsb_rev {A} (f : A -> bool) l : existsb f (rev l) = existsb f l.
Proof.
  induction l as [|x l IH]; simpl; [done|].
  rewrite existsb_app, IH. simpl. rewrite orb_false_r. apply orb_comm.
Qed.

(** Writes [NULL] to the first [n] cells and returns what was there. *)
Fixpoint wipe {S} (ob : wObject) (fuel : nat) (index n : Z) (b : list Z) : M S (list Z * list Z) :=
  if index <? n then
    match fuel with
    | O => crash Diverges
    | S fuel' =>
        obj ← read_cell index b;
        b' ← copy_to index [0] b;
        r ← wipe ob fuel' (index + 1) n b';
        mret (released ob [obj] ++ fst r, snd r)
    end
  else mret ([], b).

Lemma wipe_ok {S} ob fuel (s : S) : forall index n b,
  0 <= index -> n <= zlen b -> n - index <= Z.of_nat fuel ->
  exists b', wipe ob fuel index n b s = Ret (released ob (slice index (n - index) b), b') s /\
    zlen b' = zlen b.
Proof.
  induction fuel as [|fuel IH]; intros index n b Hi Hn Hf; simpl;
    destruct (Z.ltb_spec index n); try lia.
  1, 3: exists b; unfold slice, ztake; rewrite Z2Nat.nonpos by lia; unfold released;
    by destruct (fnObjectFree ob).
  assert (L1 : zlen [0] = 1) by done.
  erewrite bind_ret_eq by (apply read_cell_ok; lia).
  erewrite bind_ret_eq by (apply copy_to_ok; lia).
  destruct (IH (index + 1) n (blit index [0] b)) as (b' & E & L); [lia|rewrite zlen_blit; lia|lia|].
  rewrite (bind_ret_eq _ _ _ _ _ E). exists b'. rewrite L, zlen_blit by lia. split; [|done].
  unfold mret, M_ret. simpl. rewrite <- released_app. do 3 f_equal.
  rewrite (slice_cons index) by lia. simpl. f_equal.
  unfold slice. rewrite zdrop_blit_after by lia. f_equal. lia.
Qed.

Module Stack.

Record wStack := mkStack {
  size : Z;
  capacity : Z;
  array : list Z
}.

Definition Stack_Count : M wStack Z := st ← get; mret (size st).

Definition Stack_Clear (ob : wObject) : M wStack (list Z) :=
  st ← get;
  r ← wipe ob (Z.to_nat (size st)) 0 (size st) (array st);
  modify (fun st => mkStack 0 (capacity st) (snd r));;
  mret (fst r).

Definition Stack_Contains (ob : wObject) (obj : Z) : M wStack bool :=
  st ← get;
  r ← scan ob (array st) obj (Z.to_nat (size st)) 0 (size st);
  mret (match r with Some _ => true | None => false end).

Section Operations.
Context `{Heap}.

(** A refused allocation drops the object. *)
Definition Stack_Push (obj : Z) : M wStack unit :=
  st ← get;
  r ← attempt
    (if capacity st <=? usize (size st + 1) then
       let new_cap := usize (capacity st * 2) in
       guard (heap_ok (usize (8 * new_cap)));;
       modify (fun st => mkStack (size st) new_cap (resize (cells new_cap) (array st)))
     else mret tt);
  match r with
  | None => mret tt
  | Some _ =>
      st' ← get;
      b ← copy_to (size st') [obj] (array st');
      modify (fun st => mkStack (usize (size st + 1)) (capacity st) b)
  end.

Definition Stack_Pop : M wStack Z :=
  st ← get;
  if 0 <? size st then
    modify (fun st => mkStack (usize (size st - 1)) (capacity st) (array st));;
    st' ← get;
    read_cell (size st') (array st')
  else mret 0.

Definition Stack_Peek : M wStack Z :=
  st ← get;
  if 0 <? size st then read_cell (usize (size st - 1)) (array st) else mret 0.

Definition Stack_New (lock_ok : bool) : outcome wStack unit :=
  (guard (heap_ok (8 * 32));; modify (fun _ => mkStack 0 32 (zrepeat 32 0));; guard lock_ok)
    (mkStack 0 32 []).
End Operations.

Record stack_ok (st : wStack) : Prop := mk_stack_ok {
  ok_array : zlen (array st) = capacity st;
  ok_capacity : 2 <= capacity st < 2 ^ 60;
  ok_size : 0 <= size st < capacity st
}.

(** The objects held, in the order in which they were pushed. *)
Definition contents (st : wStack) : list Z := ztake (size st) (array st).

Section Refinement.
Context `{Heap}.

Lemma stack_len st : stack_ok st -> zlen (contents st) = size st.
Proof. intros []. apply zlen_ztake; lia. Qed.

(** The top of the stack and what is under it. *)
Lemma contents_top st :
  stack_ok st -> 0 < size st ->
  contents st = ztake (size st - 1) (array st) ++ [nth (Z.to_nat (size st - 1)) (array st) 0].
Proof.
  intros [Ha Hc Hs] Hp. unfold contents.
  replace (size st) with (size st - 1 + 1) at 1 by lia.
  rewrite <- ztake_slice by lia. f_equal. rewrite slice_cons by lia. done.
Qed.

(** Room for one more object, or none. *)
Lemma push_ok obj st :
  stack_ok st -> size st < 2 ^ 58 ->
  exists st', Stack_Push obj st = Ret tt st' /\ stack_ok st' /\ size st' <= size st + 1 /\
    (contents st' = contents st ++ [obj] \/ st' = st /\ exists n, heap_ok n = false).
Proof.
  intros Hok Hb. pose proof Hok as [Ha Hc Hs]. unfold Stack_Push. rewrite get_bind.
  rewrite usize_id by lia. assert (L1 : zlen [obj] = 1) by done.
  assert (Hstore : forall c b, zlen b = c -> size st + 1 < c < 2 ^ 60 ->
    slice 0 (size st) b = contents st ->
    exists st', (st' ← get; b ← copy_to (size st') [obj] (array st');
                 modify (fun st => mkStack (usize (size st + 1)) (capacity st) b))
                  (mkStack (size st) c b) = Ret tt st' /\
      stack_ok st' /\ size st' <= size st + 1 /\ contents st' = contents st ++ [obj]).
  { intros c b Hb' Hc' Hb0. rewrite get_bind. simpl.
    erewrite bind_ret_eq by (apply copy_to_ok; lia). eexists. split; [reflexivity|].
    simpl. rewrite usize_id by lia. split_and!; [constructor; simpl; try lia; rewrite zlen_blit; lia|lia|].
    unfold contents at 1. simpl. rewrite <- L1, blit_ztake by lia. f_equal. exact Hb0. }
  destruct (Z.leb_spec (capacity st) (size st + 1)).
  - destruct (heap_ok _) eqn:Hheap.
    + erewrite bind_ret_eq by reflexivity. simpl.
      rewrite usize_id, cells_id by lia.
      destruct (Hstore (capacity st * 2) (resize (capacity st * 2) (array st)))
        as (st' & -> & Hok' & Hs' & Hc'); [apply resize_len; lia|lia|apply resize_slice; lia|].
      exists st'. split_and!; try done. by left.
    + erewrite bind_ret_eq by reflexivity. exists st. split_and!; try done; [lia|].
      right. split; [done|]. eauto.
  - erewrite bind_ret_eq by reflexivity. simpl.
    destruct (Hstore (capacity st) (array st)) as (st' & E & Hok' & Hs' & Hc'); [done|lia|done|].
    exists st'. split_and!; try done; [by destruct st|by left].
Qed.

(** *** Sequences of operations *)

Inductive request :=
| Push (obj : Z)
| Pop
| Peek
| Contains (obj : Z)
| Clear
| Count.

Inductive reply :=
| Done
| Object (obj : Z)
| Found (b : bool)
| Freed (l : list Z)
| Number (n : Z).

Definition stack_step (ob : wObject) (o : request) : M wStack reply :=
  match o with
  | Push obj => Stack_Push obj;; mret Done
  | Pop => x ← Stack_Pop; mret (Object x)
  | Peek => x ← Stack_Peek; mret (Object x)
  | Contains obj => b ← Stack_Contains ob obj; mret (Found b)
  | Clear => l ← Stack_Clear ob; mret (Freed l)
  | Count => n ← Stack_Count; mret (Number n)
  end.

(** The specification: last in, first out, the top of the stack at the head of the list. *)
Inductive lifo (ob : wObject) : list Z -> request -> reply -> list Z -> Prop :=
| lifo_push l obj : lifo ob l (Push obj) Done (obj :: l)
| lifo_refused l obj n : heap_ok n = false -> lifo ob l (Push obj) Done l
| lifo_pop l : lifo ob l Pop (Object (List.hd 0 l)) (tl l)
| lifo_peek l : lifo ob l Peek (Object (List.hd 0 l)) l
| lifo_contains l obj :
    lifo ob l (Contains obj) (Found (existsb (fun x => fnObjectEquals ob x obj) l)) l
| lifo_clear l : lifo ob l Clear (Freed (released ob (rev l))) []
| lifo_count l : lifo ob l Count (Number (zlen l)) l.

Lemma pop_ok st :
  stack_ok st ->
  exists st', Stack_Pop st = Ret (List.hd 0 (rev (contents st))) st' /\ stack_ok st' /\
    size st' <= size st /\ rev (contents st') = tl (rev (contents st)).
Proof.
  intros Hok. pose proof (stack_len st Hok) as Hl. pose proof Hok as [Ha Hc Hs].
  unfold Stack_Pop. rewrite get_bind. zcase.
  - rewrite modify_bind, get_bind. simpl. rewrite usize_id by lia.
    rewrite read_cell_ok by lia. rewrite contents_top, rev_app_distr by done. simpl.
    eexists. split; [reflexivity|]. split_and!; simpl; [constructor; simpl; lia|lia|done].
  - exists st. rewrite (zlen_zero_inv (contents st)) by lia. split_and!; try done.
Qed.

Lemma stack_peek_ok st : stack_ok st -> Stack_Peek st = Ret (List.hd 0 (rev (contents st))) st.
Proof.
  intros Hok. pose proof (stack_len st Hok) as Hl. pose proof Hok as [Ha Hc Hs].
  unfold Stack_Peek. rewrite get_bind. zcase.
  - rewrite usize_id by lia. rewrite read_cell_ok, contents_top, rev_app_distr by (done || lia).
    done.
  - by rewrite (zlen_zero_inv (contents st)) by lia.
Qed.

Lemma stack_step_ok ob o st :
  stack_ok st -> size st < 2 ^ 58 ->
  exists a st', stack_step ob o st = Ret a st' /\ stack_ok st' /\ size st' <= size st + 1 /\
    lifo ob (rev (contents st)) o a (rev (contents st')).
Proof.
  intros Hok Hb. pose proof (stack_len st Hok) as Hl. pose proof Hok as [Ha Hc Hs].
  destruct o; simpl.
  - destruct (push_ok obj st Hok Hb) as (st' & E & Hok' & Hs' & Hc').
    rewrite (bind_ret_eq _ _ _ _ _ E). exists Done, st'. split_and!; try done.
    destruct Hc' as [->|[-> [n Hn]]]; [|by apply (lifo_refused ob _ _ n)].
    rewrite rev_app_distr. constructor.
  - destruct (pop_ok st Hok) as (st' & E & Hok' & Hs' & Hc').
    rewrite (bind_ret_eq _ _ _ _ _ E). eexists _, st'. split; [reflexivity|].
    split_and!; [done|lia|rewrite Hc'; constructor].
  - rewrite (bind_ret_eq _ _ _ _ _ (stack_peek_ok st Hok)). eexists _, st.
    split; [reflexivity|]. split_and!; [done|lia|constructor].
  - unfold Stack_Contains. rewrite bind_assoc, get_bind, bind_assoc.
    rewrite (bind_ret_eq _ _ _ _ _ (scan_ok ob (array st) obj (Z.to_nat (size st)) st 0 (size st) ltac:(lia) ltac:(lia) ltac:(lia))).
    eexists _, st. split; [reflexivity|]. split_and!; [done|lia|].
    rewrite find_index_existsb, Z.sub_0_r, slice_0, <- existsb_rev. constructor.
  - unfold Stack_Clear. rewrite bind_assoc, get_bind, bind_assoc.
    destruct (wipe_ok ob (Z.to_nat (size st)) st 0 (size st) (array st)) as (b' & E & L); try lia.
    rewrite (bind_ret_eq _ _ _ _ _ E). eexists _, _. split; [reflexivity|]. simpl.
    split_and!; [constructor; simpl; lia|lia|].
    rewrite Z.sub_0_r, slice_0, <- (rev_involutive (ztake _ _)). constructor.
  - eexists _, st. split; [reflexivity|]. split_and!; try done; [lia|].
    replace (size st) with (zlen (rev (contents st))); [constructor|].
    rewrite <- Hl. unfold zlen. by rewrite length_rev.
Qed.

(** The stack is last in, first out: every sequence of requests is answered as by the
    list of the objects with the top at its head, whichever requests for memory fail. *)
Theorem Stack_refines_lifo lock_ok ob os st :
  Stack_New lock_ok = Ret tt st -> zlen os < 2 ^ 58 ->
  exists l st' objs, session (stack_step ob) os st = Ret l st' /\
    spec_session (lifo ob) [] os l objs /\ Stack_Count st' = Ret (zlen objs) st'.
Proof.
  unfold Stack_New. destruct (heap_ok _); [|done]. destruct lock_ok; [|done].
  intros [= <-] Hos.
  destruct (session_refines (stack_step ob) (lifo ob) (fun _ => True)
    (fun n st => stack_ok st /\ size st + Z.of_nat n < 2 ^ 58) (fun st => rev (contents st)))
    with (os := os) (s := mkStack 0 32 (zrepeat 32 0)) as (l & st' & E & [Hok' _] & Hf).
  - intros n o st _ [Hok Hb]. pose proof Hok as [_ _ Hs].
    destruct (stack_step_ok ob o st Hok ltac:(lia)) as (a & st1 & E1 & Hok1 & Hs1 & Hf1).
    exists a, st1. split_and!; try done. lia.
  - by apply Forall_true.
  - split; [constructor; simpl; done|done].
  - exists l, st', (rev (contents st')). split_and!; try done.
    unfold zlen. rewrite length_rev. unfold Stack_Count. rewrite get_bind.
    by rewrite <- (stack_len st' Hok').
Qed.
End Refinement.

#[local] Existing Instance heap_always.

Definition requests40 : list request := map Push (seqZ 1 40) ++ [Contains 7; Pop; Peek; Count; Clear; Pop].

Lemma Stack_refines_lifo_witness :
  exists st l st' objs, Stack_New true = Ret tt st /\
    session (stack_step default_object) requests40 st = Ret l st' /\
    spec_session (lifo default_object) [] requests40 l objs /\
    drop 40 l = [Found true; Object 40; Object 39; Number 39; Freed []; Object 0].
Proof.
  eexists. destruct (Stack_refines_lifo true default_object requests40
    (mkStack 0 32 (zrepeat 32 0))) as (l & st' & objs & E & Hf & _); [reflexivity|by vm_compute|].
  exists l, st', objs. split; [reflexivity|]. split; [exact E|]. split; [exact Hf|].
  vm_compute in E. by injection E as <- _.
Defined.
End Stack.

(** * ArrayList *)

Module ArrayList.

Record wArrayList := mkArrayList {
  capacity : Z;
  growthFactor : Z;
  size : Z;
  array : list Z
}.

Definition set_size (n : Z) (a : wArrayList) : wArrayList :=
  mkArrayList (capacity a) (growthFactor a) n (array a).
Definition set_array (b : list Z) (a : wArrayList) : wArrayList :=
  mkArrayList (capacity a) (growthFactor a) (size a) b.

Definition ArrayList_Count : M wArrayList Z := a ← get; mret (size a).

Definition ArrayList_GetItem (index : Z) : M wArrayList Z :=
  a ← get; if index <? size a then read_cell index (array a) else mret 0.

Definition ArrayList_SetItem (ob : wObject) (index obj : Z) : M wArrayList unit :=
  a ← get;
  if size a <=? index then failure
  else
    b ← copy_to index [stored ob obj] (array a);
    modify (set_array b);;
    match fnObjectNew ob with
    | Some _ => guard (negb (negb (obj =? 0) && (stored ob obj =? 0)))
    | None => mret tt
    end.

Definition ArrayList_Clear (ob : wObject) : M wArrayList (list Z) :=
  a ← get;
  r ← wipe ob (Z.to_nat (size a)) 0 (size a) (array a);
  modify (set_array (snd r));;
  modify (set_size 0);;
  mret (fst r).

Definition ArrayList_Contains (ob : wObject) (obj : Z) : M wArrayList bool :=
  a ← get;
  r ← scan ob (array a) obj (Z.to_nat (size a)) 0 (size a);
  mret (match r with Some _ => true | None => false end).

(** [sindex] and [cindex] are signed; the scan is not limited to the objects held. *)
Definition ArrayList_IndexOf (ob : wObject) (obj startIndex count : Z) : M wArrayList Z :=
  a ← get;
  let sindex := if startIndex <? 0 then 0 else startIndex in
  if (count <? 0) && (2 ^ 63 - 1 <? size a) then mret (-1)
  else
    let cindex := if count <? 0 then size a else count in
    r ← scan ob (array a) obj (Z.to_nat cindex) sindex (sindex + cindex);
    mret (match r with Some i => i | None => -1 end).

Fixpoint last_loop {S} (ob : wObject) (b : list Z) (obj : Z) (fuel : nat) (index sindex : Z) : M S Z :=
  if sindex <? index then
    match fuel with
    | O => crash Diverges
    | S fuel' =>
        x ← read_cell (index - 1) b;
        if fnObjectEquals ob x obj then mret index else last_loop ob b obj fuel' (index - 1) sindex
    end
  else mret (-1).

Definition ArrayList_LastIndexOf (ob : wObject) (obj startIndex count : Z) : M wArrayList Z :=
  a ← get;
  let sindex := if startIndex <? 0 then 0 else startIndex in
  (if count <? 0 then assert (size a <=? 2 ^ 63 - 1) else mret tt);;
  let cindex := if count <? 0 then size a else count in
  last_loop ob (array a) obj (Z.to_nat cindex) (sindex + cindex) sindex.

(** The callback sees the object and its index; it stops the iteration with [FALSE]. *)
Fixpoint foreach_loop (fkt : Z -> Z -> bool) (fuel : nat) (index count : Z) : M wArrayList unit :=
  if index <? count then
    match fuel with
    | O => crash Diverges
    | S fuel' =>
        obj ← ArrayList_GetItem index;
        guard (fkt obj index);;
        foreach_loop fkt fuel' (index + 1) count
    end
  else mret tt.

Definition ArrayList_ForEachAP (fkt : Z -> Z -> bool) : M wArrayList unit :=
  a ← get; foreach_loop fkt (Z.to_nat (size a)) 0 (size a).

Section Operations.
Context `{Heap}.

Definition ArrayList_EnsureCapacity (count : Z) : M wArrayList unit :=
  assert (0 <? count);;
  a ← get;
  if capacity a <? usize (size a + count) then
    let newCapacity := usize (capacity a * growthFactor a) in
    let newCapacity := if newCapacity <? usize (size a + count)
                       then usize (size a + count) else newCapacity in
    guard (heap_ok (usize (8 * newCapacity)));;
    modify (fun a => mkArrayList newCapacity (growthFactor a) (size a)
                       (resize (cells newCapacity) (array a)))
  else mret tt.

Definition ArrayList_Shift (index count : Z) : M wArrayList unit :=
  if 0 <? count then
    ArrayList_EnsureCapacity count;;
    a ← get;
    src ← copy_from index (usize (size a - index)) (array a);
    b ← copy_to (usize (index + count)) src (array a);
    modify (set_array b);;
    modify (set_size (usize (size a + count)))
  else if count <? 0 then
    a ← get;
    scount ← asserting_cast usize (- count);
    let off := usize (index + scount) in
    (if off <? size a then
       src ← copy_from off (usize (size a - off)) (array a);
       b ← copy_to index src (array a);
       modify (set_array b)
     else mret tt);;
    modify (set_size (usize (size a - scount)))
  else mret tt.

Definition ArrayList_Append (ob : wObject) (obj : Z) : M wArrayList unit :=
  ArrayList_EnsureCapacity 1;;
  a ← get;
  modify (set_size (usize (size a + 1)));;
  ArrayList_SetItem ob (size a) obj.

(** The status of the assignment is dropped. *)
Definition ArrayList_Insert (ob : wObject) (index obj : Z) : M wArrayList unit :=
  a ← get;
  if index <? size a then
    ArrayList_Shift index 1;;
    attempt (ArrayList_SetItem ob index obj);;
    mret tt
  else mret tt.

(** [ret = ArrayList_Shift (arrayList, index, -1)] after the object has been freed. *)
Definition close_gap (ob : wObject) (index : Z) : M wArrayList (bool * list Z) :=
  a ← get;
  x ← read_cell index (array a);
  r ← attempt (ArrayList_Shift index (-1));
  mret (match r with Some _ => true | None => false end, released ob [x]).

(** The status, and the objects that were freed. *)
Definition ArrayList_RemoveAt (ob : wObject) (index : Z) : M wArrayList (bool * list Z) :=
  a ← get;
  if index <? size a then close_gap ob index else mret (true, []).

Definition ArrayList_Remove (ob : wObject) (obj : Z) : M wArrayList (bool * list Z) :=
  a ← get;
  r ← scan ob (array a) obj (Z.to_nat (size a)) 0 (size a);
  match r with
  | Some index => close_gap ob index
  | None => mret (true, [])
  end.

Definition ArrayList_New : outcome wArrayList unit :=
  ArrayList_EnsureCapacity 32 (mkArrayList 0 2 0 []).
End Operations.

(** ** Invariant and specification *)

Record list_ok (a : wArrayList) : Prop := mk_list_ok {
  ok_array : zlen (array a) = capacity a;
  ok_capacity : 0 <= capacity a < 2 ^ 60;
  ok_growth : growthFactor a = 2;
  ok_size : 0 <= size a <= capacity a
}.

Definition contents (a : wArrayList) : list Z := ztake (size a) (array a).

Inductive request :=
| Append (obj : Z)
| Insert (index obj : Z)
| SetItem (index obj : Z)
| GetItem (index : Z)
| RemoveAt (index : Z)
| Remove (obj : Z)
| Contains (obj : Z)
| IndexOf (obj : Z)
| ForEach (fkt : Z -> Z -> bool)
| Clear
| Count.

Inductive reply :=
| Status (b : bool)
| Object (obj : Z)
| Freed (l : list Z)
| Removed (b : bool) (l : list Z)
| Number (n : Z).

Definition status (r : option unit) : reply :=
  Status (match r with Some _ => true | None => false end).

Definition list_step `{Heap} (ob : wObject) (o : request) : M wArrayList reply :=
  match o with
  | Append obj => r ← attempt (ArrayList_Append ob obj); mret (status r)
  | Insert i obj => r ← attempt (ArrayList_Insert ob i obj); mret (status r)
  | SetItem i obj => r ← attempt (ArrayList_SetItem ob i obj); mret (status r)
  | GetItem i => x ← ArrayList_GetItem i; mret (Object x)
  | RemoveAt i => '(b, l) ← ArrayList_RemoveAt ob i; mret (Removed b l)
  | Remove obj => '(b, l) ← ArrayList_Remove ob obj; mret (Removed b l)
  | Contains obj => b ← ArrayList_Contains ob obj; mret (Status b)
  | IndexOf obj => n ← ArrayList_IndexOf ob obj (-1) (-1); mret (Number n)
  | ForEach fkt => r ← attempt (ArrayList_ForEachAP fkt); mret (status r)
  | Clear => l ← ArrayList_Clear ob; mret (Freed l)
  | Count => n ← ArrayList_Count; mret (Number n)
  end.

(** Whether the callback made an object. *)
Definition made (ob : wObject) (obj : Z) : bool :=
  match fnObjectNew ob with
  | Some f => (obj =? 0) || negb (f obj =? 0)
  | None => true
  end.

(** [fkt] holds of every object and its index. *)
Fixpoint forall_indexed (fkt : Z -> Z -> bool) (i : Z) (l : list Z) : bool :=
  match l with
  | [] => true
  | x :: l' => fkt x i && forall_indexed fkt (i + 1) l'
  end.

(** The specification: a list that grows at its end.  The statuses are those of the code, also where
    they say TRUE although nothing was inserted or removed. *)
Inductive listing `{Heap} (ob : wObject) : list Z -> request -> reply -> list Z -> Prop :=
| ls_append l obj : listing ob l (Append obj) (Status (made ob obj)) (l ++ [stored ob obj])
| ls_append_refused l obj n : heap_ok n = false -> listing ob l (Append obj) (Status false) l
| ls_insert l i obj : i < zlen l ->
    listing ob l (Insert i obj) (Status true) (ztake i l ++ stored ob obj :: zdrop i l)
| ls_insert_refused l i obj n : heap_ok n = false -> listing ob l (Insert i obj) (Status false) l
| ls_insert_outside l i obj : zlen l <= i -> listing ob l (Insert i obj) (Status true) l
| ls_set l i obj : i < zlen l ->
    listing ob l (SetItem i obj) (Status (made ob obj)) (ztake i l ++ stored ob obj :: zdrop (i + 1) l)
| ls_set_outside l i obj : zlen l <= i -> listing ob l (SetItem i obj) (Status false) l
| ls_get l i : listing ob l (GetItem i) (Object (nth (Z.to_nat i) l 0)) l
| ls_remove_at l i : i < zlen l ->
    listing ob l (RemoveAt i) (Removed true (released ob [nth (Z.to_nat i) l 0])) (ztake i l ++ zdrop (i + 1) l)
| ls_remove_at_outside l i : zlen l <= i -> listing ob l (RemoveAt i) (Removed true []) l
| ls_remove l k x m obj :
    l = k ++ x :: m -> fnObjectEquals ob x obj = true ->
    Forall (fun y => fnObjectEquals ob y obj = false) k ->
    listing ob l (Remove obj) (Removed true (released ob [x])) (k ++ m)
| ls_remove_none l obj : Forall (fun y => fnObjectEquals ob y obj = false) l ->
    listing ob l (Remove obj) (Removed true []) l
| ls_contains l obj :
    listing ob l (Contains obj) (Status (existsb (fun x => fnObjectEquals ob x obj) l)) l
| ls_index_of l k x m obj :
    l = k ++ x :: m -> fnObjectEquals ob x obj = true ->
    Forall (fun y => fnObjectEquals ob y obj = false) k ->
    listing ob l (IndexOf obj) (Number (zlen k)) l
| ls_index_of_none l obj : Forall (fun y => fnObjectEquals ob y obj = false) l ->
    listing ob l (IndexOf obj) (Number (-1)) l
| ls_for_each l fkt : listing ob l (ForEach fkt) (Status (forall_indexed fkt 0 l)) l
| ls_clear l : listing ob l Clear (Freed (released ob l)) []
| ls_count l : listing ob l Count (Number (zlen l)) l.

(** Indices are unsigned. *)
Definition index_ok (o : request) : Prop :=
  match o with
  | Insert i _ | SetItem i _ | GetItem i | RemoveAt i => is_usize i
  | _ => True
  end.

(** ** The operations *)

Section Refinement.
Context `{Heap}.

Lemma list_len a : list_ok a -> zlen (contents a) = size a.
Proof. intros []. apply zlen_ztake; lia. Qed.

Lemma nth_contents a i :
  list_ok a -> 0 <= i < size a -> nth (Z.to_nat i) (array a) 0 = nth (Z.to_nat i) (contents a) 0.
Proof.
  intros [Ha _ _ Hs] Hi. unfold contents. rewrite <- (ztake_zdrop (size a) (array a)) at 1.
  apply app_nth1. apply Nat2Z.inj_lt. change (Z.of_nat (Z.to_nat i) < zlen (ztake (size a) (array a))).
  rewrite zlen_ztake; lia.
Qed.

Lemma ensure_capacity_ok count a :
  list_ok a -> 0 < count -> size a + count < 2 ^ 58 ->
  (ArrayList_EnsureCapacity count a = Fail a /\ exists n, heap_ok n = false) \/
  exists a', ArrayList_EnsureCapacity count a = Ret tt a' /\ list_ok a' /\
    contents a' = contents a /\ size a' = size a /\ size a + count <= capacity a'.
Proof.
  intros Hok Hc Hb. pose proof Hok as [Ha Hcap Hg Hs]. unfold ArrayList_EnsureCapacity.
  rewrite assert_bind, get_bind, (usize_id (size a + count)) by lia.
  destruct (Z.ltb_spec (capacity a) (size a + count)).
  2: { right. exists a. split_and!; done || lia. }
  rewrite Hg, (usize_id (capacity a * 2)) by lia.
  set (n := if capacity a * 2 <? size a + count then size a + count else capacity a * 2).
  assert (Hn : capacity a <= n /\ size a + count <= n < 2 ^ 60) by (subst n; zcase; lia).
  clearbody n. destruct (heap_ok _) eqn:Hheap; [right|left; eauto].
  rewrite guard_bind, cells_id by (done || lia). eexists. split; [reflexivity|]. simpl.
  split_and!; [constructor; simpl; try lia; apply resize_len; lia| |done|lia].
  unfold contents. simpl. rewrite <- !slice_0. apply resize_slice; lia.
Qed.

(** Writing the cell [i] of the objects held. *)
Lemma set_item_ok ob i obj a :
  list_ok a -> is_usize i ->
  if i <? size a then
    exists a', ArrayList_SetItem ob i obj a = (if made ob obj then Ret tt a' else Fail a') /\
      list_ok a' /\ size a' = size a /\
      contents a' = ztake i (contents a) ++ stored ob obj :: zdrop (i + 1) (contents a)
  else ArrayList_SetItem ob i obj a = Fail a.
Proof.
  intros Hok Hi. pose proof Hok as [Ha Hcap Hg Hs]. unfold ArrayList_SetItem.
  assert (L1 : zlen [stored ob obj] = 1) by done.
  rewrite get_bind. destruct (Z.ltb_spec i (size a)).
  2: { destruct (Z.leb_spec (size a) i); [done|lia]. }
  destruct (Z.leb_spec (size a) i); [lia|]. autounfold with words in Hi.
  erewrite bind_ret_eq by (apply copy_to_ok; lia). rewrite modify_bind.
  exists (set_array (blit i [stored ob obj] (array a)) a). split_and!.
  - unfold made, stored. destruct (fnObjectNew ob); [|done].
    destruct (obj =? 0), (_ =? 0); done.
  - constructor; simpl; try done. rewrite zlen_blit; lia.
  - done.
  - unfold contents, set_array; simpl.
    replace (size a) with (i + 1 + (size a - (i + 1))) at 1 by lia.
    rewrite <- ztake_slice by lia. rewrite <- L1 at 1. rewrite blit_ztake by lia.
    rewrite <- app_assoc. simpl. rewrite ztake_ztake, Z.min_l, zdrop_ztake by lia.
    do 2 f_equal. unfold slice. by rewrite zdrop_blit_after by lia.
Qed.

(** Opening a gap of one cell. *)
Lemma shift_up_ok i a :
  list_ok a -> 0 <= i < size a -> size a + 1 < 2 ^ 58 ->
  (ArrayList_Shift i 1 a = Fail a /\ exists n, heap_ok n = false) \/
  exists a' x, ArrayList_Shift i 1 a = Ret tt a' /\ list_ok a' /\ size a' = size a + 1 /\
    contents a' = ztake i (contents a) ++ x :: zdrop i (contents a).
Proof.
  intros Hok Hi Hb. unfold ArrayList_Shift. simpl.
  destruct (ensure_capacity_ok 1 a Hok ltac:(lia) ltac:(lia)) as [[E Hn]|(a1 & E & Hok1 & Hc1 & Hs1 & Hcap1)].
  { left. split; [|done]. by rewrite (bind_fail_eq _ _ _ a). }
  right. rewrite (bind_ret_eq _ _ _ _ _ E), get_bind. pose proof Hok1 as [Ha Hcap Hg Hs].
  rewrite !usize_id by lia. set (m := slice i (size a1 - i) (array a1)).
  assert (Lm : zlen m = size a1 - i) by (apply zlen_slice; lia).
  erewrite bind_ret_eq by (apply copy_from_ok; lia).
  erewrite bind_ret_eq by (apply copy_to_ok; fold m; lia). fold m.
  rewrite modify_bind. eexists _, (nth (Z.to_nat i) (array a1) 0). split; [reflexivity|].
  split_and!; [constructor; simpl; try done; try lia; rewrite zlen_blit; lia|simpl; lia|].
  rewrite <- Hc1. unfold contents, set_size, set_array; simpl.
  replace (size a1 + 1) with (i + 1 + zlen m) by lia. rewrite blit_ztake by lia.
  rewrite ztake_ztake, Z.min_l, zdrop_ztake by lia.
  rewrite <- ztake_slice, slice_cons, slice_zero, <- app_assoc by lia. done.
Qed.

(** Closing the gap of one cell. *)
Lemma shift_down_ok i a :
  list_ok a -> 0 <= i < size a ->
  exists a', ArrayList_Shift i (-1) a = Ret tt a' /\ list_ok a' /\ size a' = size a - 1 /\
    contents a' = ztake i (contents a) ++ zdrop (i + 1) (contents a).
Proof.
  intros Hok Hi. pose proof Hok as [Ha Hcap Hg Hs]. unfold ArrayList_Shift. simpl.
  rewrite get_bind. erewrite bind_ret_eq by (apply (asserting_cast_eq usize 1); done).
  rewrite !usize_id by lia. destruct (Z.ltb_spec (i + 1) (size a)).
  - rewrite bind_assoc. set (m := slice (i + 1) (size a - (i + 1)) (array a)).
    assert (Lm : zlen m = size a - (i + 1)) by (apply zlen_slice; lia).
    erewrite bind_ret_eq by (apply copy_from_ok; lia). rewrite bind_assoc.
    erewrite bind_ret_eq by (apply copy_to_ok; fold m; lia). fold m. rewrite modify_bind.
    eexists. split; [reflexivity|].
    split_and!; [constructor; simpl; try done; try lia; rewrite zlen_blit; lia|simpl; lia|].
    unfold contents, set_size, set_array; simpl.
    replace (size a - 1) with (i + zlen m) by lia. rewrite blit_ztake by lia.
    rewrite ztake_ztake, Z.min_l, zdrop_ztake by lia. done.
  - eexists. split; [reflexivity|].
    split_and!; [constructor; simpl; try done; lia|simpl; lia|].
    unfold contents, set_size; simpl.
    rewrite ztake_ztake, Z.min_l, (zdrop_all (i + 1)), app_nil_r by (rewrite ?zlen_ztake; lia).
    f_equal. lia.
Qed.

Lemma append_ok ob obj a :
  list_ok a -> size a + 1 < 2 ^ 58 ->
  (ArrayList_Append ob obj a = Fail a /\ exists n, heap_ok n = false) \/
  exists a', ArrayList_Append ob obj a = (if made ob obj then Ret tt a' else Fail a') /\
    list_ok a' /\ size a' = size a + 1 /\ contents a' = contents a ++ [stored ob obj].
Proof.
  intros Hok Hb. unfold ArrayList_Append. pose proof Hok as [_ _ _ Hs0].
  destruct (ensure_capacity_ok 1 a Hok ltac:(lia) ltac:(lia)) as [[E Hn]|(a1 & E & Hok1 & Hc1 & Hs1 & Hcap1)].
  { left. split; [|done]. by rewrite (bind_fail_eq _ _ _ a). }
  right. rewrite (bind_ret_eq _ _ _ _ _ E), get_bind, modify_bind. pose proof Hok1 as [Ha Hcap Hg Hs].
  rewrite usize_id by lia.
  assert (Hok2 : list_ok (set_size (size a1 + 1) a1)) by (constructor; simpl; try done; lia).
  pose proof (set_item_ok ob (size a1) obj _ Hok2 ltac:(word_lia)) as Hset. simpl in Hset.
  destruct (Z.ltb_spec (size a1) (size a1 + 1)); [|lia].
  destruct Hset as (a' & E' & Hok' & Hs' & Hc'). exists a'. split_and!; try done; [lia|].
  rewrite Hc', <- Hc1. unfold contents, set_size; simpl.
  rewrite ztake_ztake, Z.min_l, (zdrop_all (size a1 + 1)) by (rewrite ?zlen_ztake; lia). done.
Qed.

Lemma nth_middle (k m : list Z) x : nth (length k) (k ++ x :: m) 0 = x.
Proof. rewrite app_nth2 by lia. by rewrite Nat.sub_diag. Qed.

Lemma close_gap_ok ob i a :
  list_ok a -> 0 <= i < size a ->
  exists a', close_gap ob i a = Ret (true, released ob [nth (Z.to_nat i) (contents a) 0]) a' /\ list_ok a' /\
    size a' = size a - 1 /\ contents a' = ztake i (contents a) ++ zdrop (i + 1) (contents a).
Proof.
  intros Hok Hi. pose proof Hok as [Ha Hcap Hg Hs]. unfold close_gap. rewrite get_bind.
  erewrite bind_ret_eq by (apply read_cell_ok; lia).
  destruct (shift_down_ok i a Hok Hi) as (a' & E & Hr).
  rewrite (bind_ret_eq _ _ _ (Some tt) a') by (unfold attempt; by rewrite E).
  rewrite nth_contents by done. by exists a'.
Qed.

Lemma remove_ok ob obj a :
  list_ok a ->
  exists l a', ArrayList_Remove ob obj a = Ret (true, l) a' /\ list_ok a' /\ size a' <= size a /\
    listing ob (contents a) (Remove obj) (Removed true l) (contents a').
Proof.
  intros Hok. pose proof (list_len a Hok) as Hl. pose proof Hok as [Ha Hcap Hg Hs].
  unfold ArrayList_Remove. rewrite get_bind.
  rewrite (bind_ret_eq _ _ _ _ _ (scan_ok ob (array a) obj (Z.to_nat (size a)) a 0 (size a) ltac:(lia) ltac:(lia) ltac:(lia))).
  rewrite Z.sub_0_r, slice_0. fold (contents a).
  pose proof (find_index_spec ob obj (contents a) 0) as Hf. destruct (find_index _ _ _ _) as [j|].
  - destruct Hf as (k & x & m & Ec & -> & Hx & Hk).
    assert (Hj : 0 <= 0 + zlen k < size a).
    { rewrite <- Hl, Ec, zlen_app, zlen_cons. pose proof (zlen_nonneg k). pose proof (zlen_nonneg m). lia. }
    destruct (close_gap_ok ob (0 + zlen k) a Hok Hj) as (a' & E & Hok' & Hs' & Hc').
    eexists _, a'. split; [exact E|].
    split_and!; [done|lia|]. rewrite Hc', Ec. replace (Z.to_nat (0 + zlen k)) with (length k) by (unfold zlen; lia).
    rewrite nth_middle, Z.add_0_l, ztake_app_le, ztake_all by lia.
    rewrite zdrop_app_ge, zdrop_cons by lia. replace (zlen k + 1 - zlen k - 1) with 0 by lia.
    rewrite zdrop_0. by apply (ls_remove ob _ k x m).
  - exists [], a. split_and!; try done. by apply ls_remove_none.
Qed.

Lemma index_of_ok ob obj a :
  list_ok a ->
  exists n, ArrayList_IndexOf ob obj (-1) (-1) a = Ret n a /\
    listing ob (contents a) (IndexOf obj) (Number n) (contents a).
Proof.
  intros Hok. pose proof (list_len a Hok) as Hl. pose proof Hok as [Ha Hcap Hg Hs].
  unfold ArrayList_IndexOf. rewrite get_bind. simpl. destruct (Z.ltb_spec (2 ^ 63 - 1) (size a)); [lia|].
  rewrite (bind_ret_eq _ _ _ _ _ (scan_ok ob (array a) obj (Z.to_nat (size a)) a 0 (0 + size a) ltac:(lia) ltac:(lia) ltac:(lia))).
  rewrite Z.add_0_l, Z.sub_0_r, slice_0. fold (contents a).
  pose proof (find_index_spec ob obj (contents a) 0) as Hf. destruct (find_index _ _ _ _) as [j|];
    (eexists; split; [reflexivity|]).
  - destruct Hf as (k & x & m & Ec & -> & Hx & Hk). rewrite Ec. by apply (ls_index_of ob _ k x m).
  - by constructor.
Qed.

Lemma foreach_ok fkt a fuel : forall i,
  list_ok a -> 0 <= i <= size a -> size a - i <= Z.of_nat fuel ->
  foreach_loop fkt fuel i (size a) a =
    if forall_indexed fkt i (zdrop i (contents a)) then Ret tt a else Fail a.
Proof.
  induction fuel as [|fuel IH]; intros i Hok Hi Hf; pose proof (list_len a Hok) as Hl;
    pose proof Hok as [Ha Hcap Hg Hs]; simpl; destruct (Z.ltb_spec i (size a)); try lia;
    try (by rewrite (zdrop_all i) by lia).
  assert (E : ArrayList_GetItem i a = Ret (nth (Z.to_nat i) (contents a) 0) a).
  { unfold ArrayList_GetItem. rewrite get_bind. zcase; [|lia].
    rewrite read_cell_ok by lia. by rewrite nth_contents by (done || lia). }
  rewrite (bind_ret_eq _ _ _ _ _ E).
  assert (Ed : zdrop i (contents a) = nth (Z.to_nat i) (contents a) 0 :: zdrop (i + 1) (contents a)).
  { rewrite <- (slice_to_end i), slice_cons by lia. f_equal.
    rewrite <- (slice_to_end (i + 1)) by lia. f_equal. lia. }
  rewrite Ed. simpl. destruct (fkt _ i); [|done]. rewrite guard_bind by done. apply IH; [done|lia|lia].
Qed.

Lemma insert_ok ob i obj a :
  list_ok a -> is_usize i -> size a + 1 < 2 ^ 58 ->
  exists r a', attempt (ArrayList_Insert ob i obj) a = Ret r a' /\ list_ok a' /\
    size a' <= size a + 1 /\ listing ob (contents a) (Insert i obj) (status r) (contents a').
Proof.
  intros Hok Hi Hb. pose proof (list_len a Hok) as Hl. pose proof Hok as [Ha Hcap Hg Hs].
  unfold attempt, ArrayList_Insert. rewrite get_bind. destruct (Z.ltb_spec i (size a)).
  2: { exists (Some tt), a. split_and!; try done; [lia|]. apply ls_insert_outside. lia. }
  autounfold with words in Hi.
  destruct (shift_up_ok i a Hok ltac:(lia) Hb) as [[E [n Hn]]|(a1 & x & E & Hok1 & Hs1 & Hc1)].
  { rewrite (bind_fail_eq _ _ _ _ E). exists None, a. split_and!; try done; [lia|].
    by apply (ls_insert_refused ob _ _ _ n). }
  rewrite (bind_ret_eq _ _ _ _ _ E).
  pose proof (set_item_ok ob i obj a1 Hok1 ltac:(word_lia)) as Hset.
  destruct (Z.ltb_spec i (size a1)); [|lia]. destruct Hset as (a' & E' & Hok' & Hs' & Hc').
  exists (Some tt), a'. unfold attempt, mbind, M_bind. rewrite E'.
  assert (Lt : zlen (ztake i (contents a)) = i) by (apply zlen_ztake; lia).
  split_and!; [by destruct (made ob obj)|done|lia|].
  rewrite Hc', Hc1, ztake_app_le, ztake_all, zdrop_app_ge, Lt, zdrop_cons by lia.
  replace (i + 1 - i - 1) with 0 by lia. rewrite zdrop_0. apply ls_insert. lia.
Qed.

Lemma list_step_ok ob o a :
  list_ok a -> index_ok o -> size a + 1 < 2 ^ 58 ->
  exists r a', list_step ob o a = Ret r a' /\ list_ok a' /\ size a' <= size a + 1 /\
    listing ob (contents a) o r (contents a').
Proof.
  intros Hok Ho Hb. pose proof (list_len a Hok) as Hl. pose proof Hok as [Ha Hcap Hg Hs].
  destruct o as [obj|i obj|i obj|i|i|obj|obj|obj|fkt| |]; simpl in *.
  - destruct (append_ok ob obj a Hok Hb) as [[E [n Hn]]|(a' & E & Hok' & Hs' & Hc')];
      unfold attempt, mbind, M_bind; rewrite E.
    + exists (Status false), a. split_and!; try done; [lia|]. by apply (ls_append_refused ob _ _ n).
    + exists (Status (made ob obj)), a'. rewrite Hc'.
      split_and!; [by destruct (made ob obj)|done|lia|constructor].
  - destruct (insert_ok ob i obj a Hok Ho Hb) as (r & a' & E & Hok' & Hs' & Hls).
    rewrite (bind_ret_eq _ _ _ _ _ E). by exists (status r), a'.
  - pose proof (set_item_ok ob i obj a Hok Ho) as Hset. unfold attempt, mbind, M_bind.
    destruct (Z.ltb_spec i (size a)).
    + destruct Hset as (a' & -> & Hok' & Hs' & Hc'). exists (Status (made ob obj)), a'. rewrite Hc'.
      split_and!; [by destruct (made ob obj)|done|lia|constructor; lia].
    + rewrite Hset. exists (Status false), a. split_and!; try done; [lia|constructor; lia].
  - exists (Object (nth (Z.to_nat i) (contents a) 0)), a. autounfold with words in Ho.
    split_and!; [|done|lia|constructor]. unfold ArrayList_GetItem. rewrite bind_assoc, get_bind. zcase.
    + erewrite bind_ret_eq by (apply read_cell_ok; lia). by rewrite nth_contents by (done || lia).
    + rewrite nth_overflow; [done|]. unfold zlen in Hl. lia.
  - unfold ArrayList_RemoveAt. rewrite bind_assoc, get_bind. autounfold with words in Ho.
    destruct (Z.ltb_spec i (size a)).
    + destruct (close_gap_ok ob i a Hok ltac:(lia)) as (a' & E & Hok' & Hs' & Hc').
      rewrite (bind_ret_eq _ _ _ _ _ E). eexists _, a'. split; [reflexivity|]. rewrite Hc'. split_and!; [done|lia|constructor; lia].
    + eexists _, a. split; [reflexivity|]. split_and!; [done|lia|constructor; lia].
  - destruct (remove_ok ob obj a Hok) as (l & a' & E & Hok' & Hs' & Hls).
    rewrite (bind_ret_eq _ _ _ _ _ E). exists (Removed true l), a'. split_and!; try done. lia.
  - unfold ArrayList_Contains. rewrite bind_assoc, get_bind, bind_assoc.
    rewrite (bind_ret_eq _ _ _ _ _ (scan_ok ob (array a) obj (Z.to_nat (size a)) a 0 (size a) ltac:(lia) ltac:(lia) ltac:(lia))).
    eexists _, a. split; [reflexivity|]. split_and!; [done|lia|].
    rewrite find_index_existsb, Z.sub_0_r, slice_0. constructor.
  - destruct (index_of_ok ob obj a Hok) as (n & E & Hls). rewrite (bind_ret_eq _ _ _ _ _ E).
    exists (Number n), a. split_and!; try done. lia.
  - exists (Status (forall_indexed fkt 0 (contents a))), a. split_and!; [|done|lia|constructor].
    unfold attempt, ArrayList_ForEachAP, mbind at 1, M_bind at 1. rewrite get_bind.
    rewrite foreach_ok, zdrop_0 by (done || lia). by destruct (forall_indexed _ _ _).
  - unfold ArrayList_Clear. rewrite bind_assoc, get_bind, bind_assoc.
    destruct (wipe_ok ob (Z.to_nat (size a)) a 0 (size a) (array a)) as (b' & E & L); try lia.
    rewrite (bind_ret_eq _ _ _ _ _ E). eexists _, _. split; [reflexivity|]. simpl.
    split_and!; [constructor; simpl; done || lia|lia|].
    rewrite Z.sub_0_r, slice_0. constructor.
  - eexists _, a. split; [reflexivity|]. split_and!; try done; [lia|].
    rewrite <- Hl at 1. constructor.
Qed.

(** C34: The array list is a list.  Every sequence of requests on a new one, with any indices in
    the range of their type, is answered as by the list of its objects, whichever requests for
    memory fail: nothing is read or written outside the block, an index behind the end changes
    nothing, and removing an object closes its gap.  The statuses are those of the code:
    [ArrayList_Insert], [ArrayList_RemoveAt] and [ArrayList_Remove] answer TRUE also when there was
    nothing to do.  [ArrayList_IndexOf] is asked for the whole list (start and count -1): with
    other ranges it reads behind the list (index_of_reads_outside); [ArrayList_LastIndexOf] is not
    among the requests (last_index_of_off_by_one). *)
Theorem ArrayList_refines_list ob os a :
  ArrayList_New = Ret tt a -> Forall index_ok os -> zlen os < 2 ^ 57 ->
  exists l a' objs, session (list_step ob) os a = Ret l a' /\
    spec_session (listing ob) [] os l objs /\ ArrayList_Count a' = Ret (zlen objs) a' /\
    zlen objs <= capacity a'.
Proof.
  intros Hnew Hos Hlen. unfold ArrayList_New in Hnew.
  assert (Hok : list_ok (mkArrayList 0 2 0 [])) by (constructor; simpl; done || lia).
  destruct (ensure_capacity_ok 32 _ Hok ltac:(lia) ltac:(simpl; lia)) as [[E _]|(a0 & E & Hok0 & Hc0 & Hs0 & _)];
    rewrite E in Hnew; [done|]. injection Hnew as ->.
  destruct (session_refines (list_step ob) (listing ob) index_ok
    (fun n a => list_ok a /\ size a + Z.of_nat n < 2 ^ 58 - 1) contents)
    with (os := os) (s := a) as (l & a' & E' & [Hok' _] & Hf); [|done| |].
  - intros n o a1 Ho [Hok1 Hb]. pose proof Hok1 as [_ _ _ Hs].
    destruct (list_step_ok ob o a1 Hok1 Ho ltac:(lia)) as (r & a2 & E1 & Hok2 & Hs2 & Hf2).
    exists r, a2. split_and!; try done. lia.
  - split; [done|]. simpl in Hs0. unfold zlen in Hlen. lia.
  - rewrite Hc0 in Hf. exists l, a', (contents a'). rewrite (list_len a' Hok').
    split_and!; try done. destruct Hok'; lia.
Qed.
End Refinement.

#[local] Existing Instance heap_always.

Definition requests_list : list request :=
  [Append 11; Append 12; Insert 1 13; Insert 9 14; SetItem 0 15; IndexOf 12; Remove 13; Contains 13;
   GetItem 1; RemoveAt 7; RemoveAt 0; ForEach (fun obj index => 0 <? obj); Count; Clear].

Lemma ArrayList_refines_list_witness :
  exists a l a' objs, ArrayList_New = Ret tt a /\
    session (list_step default_object) requests_list a = Ret l a' /\
    spec_session (listing default_object) [] requests_list l objs /\
    l = [Status true; Status true; Status true; Status true; Status true; Number 2; Removed true [];
         Status false; Object 12; Removed true []; Removed true []; Status true; Number 1; Freed []].
Proof.
  exists (mkArrayList 32 2 0 (zrepeat 32 0)). destruct (ArrayList_refines_list default_object requests_list
    (mkArrayList 32 2 0 (zrepeat 32 0))) as (l & a' & objs & E & Hf & _).
  - vm_compute. reflexivity.
  - repeat (apply Forall_cons_2; [first [exact I | unfold index_ok; word_lia]|]). constructor.
  - by vm_compute.
  - exists l, a', objs. split; [vm_compute; reflexivity|]. split; [exact E|]. split; [exact Hf|].
    vm_compute in E. by injection E as <- _.
Defined.

(** A search that starts behind the first object and is not given a length looks at cells
    behind the objects, and outside the block when it is full. *)
Lemma index_of_reads_outside :
  exists a l a', ArrayList_New = Ret tt a /\
    session (list_step default_object) (map Append (seqZ 1 32)) a = Ret l a' /\
    ArrayList_IndexOf default_object 33 1 (-1) a' = Crash Undefined.
Proof. do 3 eexists. do 2 (split; [vm_compute; reflexivity|]). vm_compute. reflexivity. Qed.

(** [ArrayList_LastIndexOf] returns one more than the index of the object. *)
Lemma last_index_of_off_by_one :
  exists a l a', ArrayList_New = Ret tt a /\
    session (list_step default_object) [Append 11; Append 12] a = Ret l a' /\
    ArrayList_LastIndexOf default_object 11 (-1) (-1) a' = Ret 1 a' /\
    ArrayList_IndexOf default_object 11 (-1) (-1) a' = Ret 0 a'.
Proof. do 3 eexists. do 3 (split; [vm_compute; reflexivity|]). vm_compute. reflexivity. Qed.
End ArrayList.
