(* ===== verification/HashTable.v ===== *)
(** * The hash table of WinPR

    Model of [winpr/libwinpr/utils/collections/HashTable.c]: chains of pairs in an array of
    buckets that is rebuilt when the chains get long.  Keys and values are addresses; the
    callbacks are those of [Collections].  The ratios that decide when to rebuild are single
    precision floats, computed with the arithmetic of [SpecFloat]. *)

From Stdlib Require Import SpecFloat.
From stdpp Require Import gmap sorting.
From S2P Require Import Prelude Collections.

Open Scope Z_scope.

(** ** Single precision *)

Definition float := spec_float.

(** [(float)n], [x / y], [x > y] *)
Definition float_of (n : Z) : float := binary_normalize 24 128 n 0 false.
Definition float_div : float -> float -> float := SFdiv 24 128.
Definition float_gt (x y : float) : bool := SFltb y x.

(** [(size_t)x]: the fraction is dropped; undefined for what [size_t] cannot hold. *)
Definition size_of_float {S} (x : float) : M S Z :=
  match x with
  | S754_zero _ => mret 0
  | S754_finite false m e =>
      let n := Z.shiftl (Zpos m) e in
      if n <? 2 ^ 64 then mret n else crash Undefined
  | _ => crash Undefined
  end.

(** ** Data *)

(** [next] is the following element of the list; the address tells pairs apart. *)
Record wKeyValuePair := mkPair {
  addr : Z;
  key : Z;
  value : Z;
  markedForRemove : bool
}.

(** [heap] is the address the next pair gets; [disposed] the objects handed to the
    [fnObjectFree] callbacks so far. *)
Record wHashTable := mkTable {
  numOfBuckets : Z;
  numOfElements : Z;
  idealRatio : float;
  lowerRehashThreshold : float;
  upperRehashThreshold : float;
  bucketArray : list (list wKeyValuePair);
  foreachRecursionLevel : Z;
  pendingRemoves : Z;
  heap : Z;
  disposed : list Z
}.

(** [table->hash], [table->key] and [table->value] *)
Record callbacks := mkCallbacks {
  hash : Z -> Z;
  keyObject : wObject;
  valueObject : wObject
}.

Section Fields.
Implicit Types (t : wHashTable).

Definition set_buckets (n : Z) (b : list (list wKeyValuePair)) t : wHashTable :=
  mkTable n (numOfElements t) (idealRatio t) (lowerRehashThreshold t) (upperRehashThreshold t)
    b (foreachRecursionLevel t) (pendingRemoves t) (heap t) (disposed t).
Definition set_counts (elements pending : Z) t : wHashTable :=
  mkTable (numOfBuckets t) elements (idealRatio t) (lowerRehashThreshold t)
    (upperRehashThreshold t) (bucketArray t) (foreachRecursionLevel t) pending (heap t)
    (disposed t).
Definition set_level (l : Z) t : wHashTable :=
  mkTable (numOfBuckets t) (numOfElements t) (idealRatio t) (lowerRehashThreshold t)
    (upperRehashThreshold t) (bucketArray t) l (pendingRemoves t) (heap t) (disposed t).
Definition set_heap (h : Z) t : wHashTable :=
  mkTable (numOfBuckets t) (numOfElements t) (idealRatio t) (lowerRehashThreshold t)
    (upperRehashThreshold t) (bucketArray t) (foreachRecursionLevel t) (pendingRemoves t) h
    (disposed t).
Definition dispose (l : list Z) t : wHashTable :=
  mkTable (numOfBuckets t) (numOfElements t) (idealRatio t) (lowerRehashThreshold t)
    (upperRehashThreshold t) (bucketArray t) (foreachRecursionLevel t) (pendingRemoves t)
    (heap t) (disposed t ++ l).
End Fields.

Definition set_mark (b : bool) (p : wKeyValuePair) : wKeyValuePair :=
  mkPair (addr p) (key p) (value p) b.

(** ** Hash functions and comparisons

    [mem] gives the characters of the string at an address. *)

Definition HashTable_PointerCompare (p q : Z) : bool := p =? q.
Definition HashTable_PointerHash (p : Z) : Z := Z.shiftr (u32 p) 4.

Definition HashTable_StringCompare (mem : Z -> list Z) (p q : Z) : bool :=
  if (p =? 0) || (q =? 0) then p =? q else bool_decide (mem p = mem q).

Definition HashTable_StringHash (mem : Z -> list Z) (p : Z) : Z :=
  foldl (fun h c => u32 (u32 (h * 33) + c)) 5381 (mem p).

Definition HashTable_SetupForStringData (mem : Z -> list Z) (clone : Z -> Z) (stringValues : bool)
    (cb : callbacks) : callbacks :=
  let str := mkObject (Some clone) (HashTable_StringCompare mem) true in
  mkCallbacks (HashTable_StringHash mem) str (if stringValues then str else valueObject cb).

(** ** Bucket counts *)

Fixpoint probable_prime (tests : list Z) (oddNumber : Z) : bool :=
  match tests with
  | [] => true
  | i :: rest =>
      if oddNumber =? i then true
      else if oddNumber mod i =? 0 then false else probable_prime rest oddNumber
  end.

(** the odd numbers from 3 to 49 *)
Definition odd_tests : list Z := map (fun i => 2 * Z.of_nat i + 3) (seq 0 24).

Definition HashTable_IsProbablePrime : Z -> bool := probable_prime odd_tests.

(** [2 ^ fuel] turns of [while (!IsProbablePrime (n)) n += 2], or the number that stops it. *)
Fixpoint next_prime (fuel : nat) (n : Z) : Z + Z :=
  match fuel with
  | O => if HashTable_IsProbablePrime n then inl n else inr (usize (n + 2))
  | S fuel' =>
      match next_prime fuel' n with
      | inl m => inl m
      | inr m => next_prime fuel' m
      end
  end.

Definition prime_fuel : nat := 60.

Definition HashTable_CalculateIdealNumOfBuckets : M wHashTable Z :=
  t ← get;
  n ← size_of_float (float_div (float_of (numOfElements t)) (idealRatio t));
  let n := if n <? 5 then 5 else Z.lor n 1 in
  match next_prime prime_fuel n with inl m => mret m | inr _ => crash Diverges end.

(** ** Operations *)

Section Operations.
Context `{Alloc} (cb : callbacks).
Implicit Types (b : list wKeyValuePair) (p : wKeyValuePair).

(** The null checks of the callers discharge the assertions. *)
Definition HashTable_Equals p (k : Z) : bool := fnObjectEquals (keyObject cb) k (key p).

(** The search in a chain: the pairs in front of the one that is found, and the chain from it
    on. *)
Fixpoint locate (k : Z) b : list wKeyValuePair * list wKeyValuePair :=
  match b with
  | [] => ([], [])
  | p :: r => if HashTable_Equals p k then ([], b) else let '(x, y) := locate k r in (p :: x, y)
  end.

(** [hash (key) % numOfBuckets] and the chain there. *)
Definition bucket (k : Z) : M wHashTable (Z * list wKeyValuePair) :=
  t ← get;
  if numOfBuckets t =? 0 then crash Undefined
  else
    let i := hash cb k mod numOfBuckets t in
    match bucketArray t !! Z.to_nat i with
    | Some b => mret (i, b)
    | None => crash Undefined
    end.

Definition set_bucket (i : Z) b : M wHashTable unit :=
  modify (fun t => set_buckets (numOfBuckets t) (<[Z.to_nat i := b]> (bucketArray t)) t).

(** A pair moves to the front of its new chain. *)
Definition move_pair (n : Z) (bs : list (list wKeyValuePair)) p : list (list wKeyValuePair) :=
  alter (cons p) (Z.to_nat (hash cb (key p) mod n)) bs.

Definition HashTable_Rehash (n : Z) : M wHashTable unit :=
  n ← (if n =? 0 then HashTable_CalculateIdealNumOfBuckets else mret n);
  t ← get;
  if n =? numOfBuckets t then mret tt
  else if negb (malloc_ok (8 * n)) then mret tt
  else
    modify (fun t => set_buckets n
      (foldl (move_pair n) (replicate (Z.to_nat n) []) (concat (bucketArray t))) t).

Definition HashTable_Get (k : Z) : M wHashTable (option wKeyValuePair) :=
  if k =? 0 then mret None
  else '(_, b) ← bucket k; mret (head (locate k b).2).

Definition disposeKey (k : Z) : M wHashTable unit := modify (dispose (released (keyObject cb) [k])).
Definition disposeValue (v : Z) : M wHashTable unit :=
  modify (dispose (released (valueObject cb) [v])).
Definition disposePair p : M wHashTable unit := disposeKey (key p);; disposeValue (value p).

Definition setKey p (k : Z) : M wHashTable wKeyValuePair :=
  disposeKey (key p);;
  mret (mkPair (addr p) (stored (keyObject cb) k) (value p) (markedForRemove p)).
Definition setValue p (v : Z) : M wHashTable wKeyValuePair :=
  disposeValue (value p);;
  mret (mkPair (addr p) (key p) (stored (valueObject cb) v) (markedForRemove p)).

Definition HashTable_Count : M wHashTable Z := t ← get; mret (numOfElements t).

(** [numOfElements / numOfBuckets] *)
Definition load_factor (t : wHashTable) : float :=
  float_div (float_of (numOfElements t)) (float_of (numOfBuckets t)).

Definition HashTable_Insert (k v : Z) : M wHashTable bool :=
  if (k =? 0) || (v =? 0) then mret false
  else
    '(i, b) ← bucket k;
    match locate k b with
    | (pre, p :: rest) =>
        p ← (if markedForRemove p then
               modify (fun t => set_counts (usize (numOfElements t + 1)) (u32 (pendingRemoves t - 1)) t);;
               mret (set_mark false p)
             else mret p);
        p ← (if key p =? k then mret p else setKey p k);
        p ← (if value p =? v then mret p else setValue p v);
        set_bucket i (pre ++ p :: rest);;
        mret true
    | (_, []) =>
        if negb (malloc_ok 32) then mret false
        else
          t ← get;
          modify (set_heap (heap t + 1));;
          p ← setKey (mkPair (heap t) 0 0 false) k;
          p ← setValue p v;
          set_bucket i (p :: b);;
          modify (fun t => set_counts (usize (numOfElements t + 1)) (pendingRemoves t) t);;
          t ← get;
          (if (foreachRecursionLevel t =? 0) && float_gt (upperRehashThreshold t) (idealRatio t) then
             if float_gt (load_factor t) (upperRehashThreshold t) then HashTable_Rehash 0 else mret tt
           else mret tt);;
          mret true
    end.

Definition HashTable_Remove (k : Z) : M wHashTable bool :=
  if k =? 0 then mret false
  else
    '(i, b) ← bucket k;
    match locate k b with
    | (_, []) => mret false
    | (pre, p :: rest) =>
        t ← get;
        if negb (foreachRecursionLevel t =? 0) then
          set_bucket i (pre ++ set_mark true p :: rest);;
          modify (fun t => set_counts (usize (numOfElements t - 1)) (u32 (pendingRemoves t + 1)) t);;
          mret true
        else
          set_bucket i (pre ++ rest);;
          disposePair p;;
          modify (fun t => set_counts (usize (numOfElements t - 1)) (pendingRemoves t) t);;
          t ← get;
          (if (foreachRecursionLevel t =? 0) && float_gt (lowerRehashThreshold t) (float_of 0) then
             if float_gt (lowerRehashThreshold t) (load_factor t) then HashTable_Rehash 0 else mret tt
           else mret tt);;
          mret true
    end.

Definition HashTable_GetItemValue (k : Z) : M wHashTable Z :=
  r ← HashTable_Get k;
  match r with
  | Some p => mret (if markedForRemove p then 0 else value p)
  | None => mret 0
  end.

Definition HashTable_SetItemValue (k v : Z) : M wHashTable bool :=
  if k =? 0 then mret false
  else
    '(i, b) ← bucket k;
    match locate k b with
    | (_, []) => mret false
    | (pre, p :: rest) =>
        if markedForRemove p then mret false
        else
          p ← setValue p v;
          set_bucket i (pre ++ p :: rest);;
          mret true
    end.

(** The chain loop of [HashTable_Clear]: inside a [HashTable_Foreach] it does not move on
    from a pair. *)
Fixpoint clear_chain (level : Z) b : M wHashTable unit :=
  match b with
  | [] => mret tt
  | p :: r => if negb (level =? 0) then crash Diverges else disposePair p;; clear_chain level r
  end.

Fixpoint clear_buckets (level i : Z) (bs : list (list wKeyValuePair)) : M wHashTable unit :=
  match bs with
  | [] => mret tt
  | b :: r => clear_chain level b;; set_bucket i [];; clear_buckets level (i + 1) r
  end.

Definition HashTable_Clear : M wHashTable unit :=
  t ← get;
  clear_buckets (foreachRecursionLevel t) 0 (bucketArray t);;
  modify (fun t => set_counts 0 (pendingRemoves t) t);;
  if foreachRecursionLevel t =? 0 then HashTable_Rehash 5 else mret tt.

Definition unmarked p : bool := negb (markedForRemove p).

(** The number of keys, and their array when there is one. *)
Definition HashTable_GetKeys : M wHashTable (Z * option (list Z)) :=
  t ← get;
  let count := numOfElements t in
  if count <? 1 then mret (0, None)
  else if negb (malloc_ok (8 * count)) then mret (0, None)
  else
    let keys := map key (List.filter unmarked (concat (bucketArray t))) in
    if count <? zlen keys then crash Undefined
    else mret (count, Some (keys ++ zrepeat (count - zlen keys) 0)).

Section Foreach.
(** the callback, which may use the table *)
Context (fn : Z -> Z -> M wHashTable bool).

(** The chain from the pair at address [a] on. *)
Fixpoint chain_from (a : Z) b : list wKeyValuePair :=
  match b with
  | [] => []
  | p :: r => if addr p =? a then b else chain_from a r
  end.

Definition chain_at (i : nat) (a : Z) (t : wHashTable) : list wKeyValuePair :=
  chain_from a (default [] (bucketArray t !! i)).

Fixpoint visit_chain (fuel : nat) (i : nat) (cur : option Z) : M wHashTable bool :=
  match cur with
  | None => mret true
  | Some a =>
      match fuel with
      | O => crash Diverges
      | S fuel' =>
          t ← get;
          match chain_at i a t with
          | [] => crash Undefined
          | p :: _ =>
              go ← (if markedForRemove p then mret true else fn (key p) (value p));
              if negb go then mret false
              else
                t' ← get;
                match chain_at i a t' with
                | [] => crash Undefined
                | _ :: r => visit_chain fuel' i (addr <$> head r)
                end
          end
      end
  end.

Fixpoint visit_buckets (fuel : nat) (i : nat) : M wHashTable bool :=
  t ← get;
  if Z.of_nat i <? numOfBuckets t then
    match fuel, bucketArray t !! i with
    | S fuel', Some b =>
        ok ← visit_chain (length b) i (addr <$> head b);
        if negb ok then mret false else visit_buckets fuel' (S i)
    | O, _ => crash Diverges
    | _, None => crash Undefined
    end
  else mret true.

Fixpoint clean_chain b : M wHashTable (list wKeyValuePair) :=
  match b with
  | [] => mret []
  | p :: r =>
      if markedForRemove p then disposePair p;; clean_chain r
      else r' ← clean_chain r; mret (p :: r')
  end.

Fixpoint clean_buckets (bs : list (list wKeyValuePair)) : M wHashTable (list (list wKeyValuePair)) :=
  match bs with
  | [] => mret []
  | b :: r => b' ← clean_chain b; r' ← clean_buckets r; mret (b' :: r')
  end.

Definition HashTable_Foreach : M wHashTable bool :=
  modify (fun t => set_level (u32 (foreachRecursionLevel t + 1)) t);;
  t ← get;
  ok ← visit_buckets (length (bucketArray t)) 0;
  if negb ok then mret false
  else
    modify (fun t => set_level (u32 (foreachRecursionLevel t - 1)) t);;
    t ← get;
    (if (foreachRecursionLevel t =? 0) && negb (pendingRemoves t =? 0) then
       bs ← clean_buckets (bucketArray t);
       modify (fun t => set_buckets (numOfBuckets t) bs t);;
       modify (fun t => set_counts (numOfElements t) 0 t)
     else mret tt);;
    mret true.
End Foreach.

Definition HashTable_Contains (k : Z) : M wHashTable bool :=
  r ← HashTable_Get k;
  mret (match r with Some p => unmarked p | None => false end).

Definition HashTable_ContainsKey : Z -> M wHashTable bool := HashTable_Contains.

(** The values are compared with the keys. *)
Definition HashTable_ContainsValue (v : Z) : M wHashTable bool :=
  if v =? 0 then mret false
  else
    t ← get;
    mret (existsb (fun p => unmarked p && HashTable_Equals p v) (concat (bucketArray t))).

(** [Fail] is the [NULL] result. *)
Definition HashTable_New : outcome wHashTable unit :=
  (guard (malloc_ok 152);; guard (malloc_ok (8 * 64)))
    (mkTable 64 0 (float_of 3) (float_of 0) (float_of 15) (replicate 64 []) 0 0 1 []).

(** What is handed to the callbacks when the table goes. *)
Fixpoint dispose_all b : M wHashTable unit :=
  match b with
  | [] => mret tt
  | p :: r => disposePair p;; dispose_all r
  end.

Definition HashTable_Free : M wHashTable unit := t ← get; dispose_all (concat (bucketArray t)).
End Operations.

Definition default_callbacks : callbacks :=
  mkCallbacks HashTable_PointerHash default_object default_object.

(** ** The number of buckets is defined

    The ratio of a table of fewer than [2 ^ 32] elements is a finite number that fits
    [size_t], and the search for a number without small divisors ends. *)

Lemma digits_bounds m : 0 < m -> 2 ^ (Zdigits2 m - 1) <= m < 2 ^ Zdigits2 m /\ 0 < Zdigits2 m.
Proof.
  destruct m as [|p|]; try done. intros _. simpl. split; [|done].
  induction p as [p IH|p IH|]; simpl; [| |done].
  all: rewrite Pos2Z.inj_succ; replace (Z.succ (Zpos (digits2_pos p)) - 1) with (Zpos (digits2_pos p)) by lia.
  all: rewrite Z.pow_succ_r by lia; replace (Zpos (digits2_pos p)) with (Z.succ (Zpos (digits2_pos p) - 1)) at 1 by lia;
    rewrite Z.pow_succ_r by lia; lia.
Qed.

Lemma digits_le m d : 0 <= d -> m < 2 ^ d -> Zdigits2 m <= d \/ m < 0.
Proof.
  intros Hd Hm. destruct m as [|p|p]; [left; simpl; lia| |by right]. left.
  destruct (digits_bounds (Zpos p) ltac:(done)) as [[Hl _] Hp].
  destruct (Z.le_gt_cases (Zdigits2 (Zpos p)) d); [done|].
  pose proof (Z.pow_le_mono_r 2 d (Zdigits2 (Zpos p) - 1) ltac:(lia) ltac:(lia)). lia.
Qed.

Lemma shr_1_half r : 0 <= shr_m r -> shr_m (shr_1 r) = shr_m r / 2.
Proof.
  destruct r as [m r s]. simpl. intros Hm. destruct m as [|[p|p|]|]; simpl; try done; try lia.
  - change (Zpos p~1) with (2 * Zpos p + 1). word_lia.
  - change (Zpos p~0) with (2 * Zpos p). word_lia.
Qed.

Lemma shr_iter (p : positive) : forall r, 0 <= shr_m r -> shr_m (SpecFloat.iter_pos shr_1 p r) = shr_m r / 2 ^ Zpos p.
Proof.
  assert (Hpos : forall r k, 0 <= shr_m r -> 0 <= shr_m r / 2 ^ k).
  { intros r k Hr. destruct (Z.le_gt_cases 0 k) as [Hk|Hk].
    - apply Z.div_pos; [done|]. by apply Z.pow_pos_nonneg.
    - rewrite Z.pow_neg_r by done. by rewrite Z.div_0_r. }
  induction p as [p IH|p IH|]; intros r Hr; simpl.
  - pose proof (shr_1_half r Hr) as H1. assert (0 <= shr_m (shr_1 r)) by (rewrite H1; word_lia).
    rewrite !IH by (rewrite ?IH; auto). rewrite H1, !Z.div_div by (try apply Z.pow_pos_nonneg; lia).
    rewrite (Pos2Z.inj_xI p), Z.pow_add_r, Z.pow_mul_r by lia. f_equal.
    replace (2 ^ 2) with (2 * 2) by lia. rewrite Z.pow_mul_l. lia.
  - rewrite !IH by (rewrite ?IH; auto). rewrite Z.div_div by (try apply Z.pow_pos_nonneg; lia).
    rewrite (Pos2Z.inj_xO p), Z.pow_mul_r by lia. replace (2 ^ 2) with (2 * 2) by lia.
    by rewrite Z.pow_mul_l.
  - by apply shr_1_half.
Qed.

(** What a shift to the precision does to the size of a number. *)
Lemma shr_fexp_bound m e l d r e' :
  0 <= m -> Zdigits2 m + e <= d -> e <= d -> 0 <= d -> shr_fexp 24 128 m e l = (r, e') ->
  0 <= shr_m r /\ Zdigits2 (shr_m r) + e' <= d /\ e' <= Z.max e (d - 24) /\ e <= e'.
Proof.
  intros Hm Hd He H0 E. unfold shr_fexp, shr, fexp, emin in E.
  assert (Er : shr_m (shr_record_of_loc m l) = m) by (by destruct l as [|[]]).
  destruct (Z.max (Zdigits2 m + e - 24) (3 - 128 - 24) - e) as [|k|k] eqn:Ek.
  - injection E as <- <-. rewrite Er. lia.
  - injection E as <- <-. rewrite shr_iter by (by rewrite Er). rewrite Er.
    assert (Hk : 0 < 2 ^ Zpos k) by (by apply Z.pow_pos_nonneg).
    assert (Hq : 0 <= m / 2 ^ Zpos k) by (by apply Z.div_pos).
    split_and!; try lia.
    destruct (Z.eq_dec m 0) as [->|Hne]; [rewrite Z.div_0_l by lia; simpl in *; lia|].
    destruct (digits_bounds m ltac:(lia)) as [[_ Hu] Hdp].
    destruct (Z.le_gt_cases (Zdigits2 m) (Zpos k)) as [Hle|Hgt].
    + rewrite Z.div_small; [simpl; lia|]. split; [done|].
      pose proof (Z.pow_le_mono_r 2 (Zdigits2 m) (Zpos k) ltac:(lia) Hle). lia.
    + destruct (digits_le (m / 2 ^ Zpos k) (Zdigits2 m - Zpos k)) as [Hx|Hx]; [lia| |lia|lia].
      apply Z.div_lt_upper_bound; [done|]. rewrite <- Z.pow_add_r by lia.
      by replace (Zpos k + (Zdigits2 m - Zpos k)) with (Zdigits2 m) by lia.
  - injection E as <- <-. rewrite Er. lia.
Qed.

(** A float that is zero or positive and below [2 ^ d]. *)
Definition float_below (d : Z) (x : float) : Prop :=
  match x with
  | S754_zero _ => True
  | S754_finite false m e => Zdigits2 (Zpos m) + e <= d /\ e <= d
  | _ => False
  end.

Lemma round_below m e l d :
  0 <= m -> Zdigits2 m + e <= d -> e <= d -> 0 <= d <= 100 ->
  float_below (d + 1) (binary_round_aux 24 128 false m e l).
Proof.
  intros Hm Hd He H0. unfold binary_round_aux.
  destruct (shr_fexp 24 128 m e l) as [r1 e1] eqn:E1.
  destruct (shr_fexp_bound _ _ _ d _ _ Hm Hd He ltac:(lia) E1) as (Hm1 & Hd1 & He1 & _).
  set (mm := round_nearest_even _ _).
  assert (Hmm : shr_m r1 <= mm <= shr_m r1 + 1).
  { unfold mm, round_nearest_even. destruct (loc_of_shr_record r1) as [|[]]; try lia.
    destruct (Z.even (shr_m r1)); lia. }
  assert (Hdm : Zdigits2 mm + e1 <= d + 1).
  { destruct (Z.eq_dec (shr_m r1) 0) as [E0|E0].
    - destruct (digits_le mm 1) as [|]; lia.
    - destruct (digits_bounds (shr_m r1) ltac:(lia)) as [[_ Hu] Hp].
      destruct (digits_le mm (Zdigits2 (shr_m r1) + 1)) as [|]; [lia| |lia|lia].
      rewrite Z.pow_add_r by lia. lia. }
  destruct (shr_fexp 24 128 mm e1 loc_Exact) as [r2 e2] eqn:E2.
  destruct (shr_fexp_bound mm e1 loc_Exact (d + 1) _ _ ltac:(lia) Hdm ltac:(lia) ltac:(lia) E2)
    as (Hm2 & Hd2 & He2 & _).
  destruct (shr_m r2) as [|p|p]; [done| |lia].
  rewrite (proj2 (Z.leb_le _ _)) by lia. simpl in *. lia.
Qed.

Lemma digits_shift (p : positive) k : Zdigits2 (Zpos (Pos.iter xO p k)) = Zdigits2 (Zpos p) + Zpos k.
Proof.
  revert p. induction k as [|k IH] using Pos.peano_ind; intros p; [simpl; lia|].
  rewrite Pos.iter_succ. specialize (IH p). simpl in *. lia.
Qed.

Lemma float_of_below n d : 0 <= n < 2 ^ d -> 0 <= d <= 100 -> float_below (d + 1) (float_of n).
Proof.
  intros Hn Hd. unfold float_of, binary_normalize. destruct n as [|p|p]; [done| |lia].
  destruct (digits_le (Zpos p) d) as [Hp|]; [lia|lia| |lia].
  unfold binary_round, shl_align, fexp, emin.
  destruct (Z.max _ _ - 0) as [|k|k] eqn:Ek.
  all: apply round_below; rewrite ?digits_shift; simpl in *; lia.
Qed.

Lemma div3_below x d : float_below d x -> 24 <= d <= 90 -> float_below d (float_div x (float_of 3)).
Proof.
  intros Hx Hd. change (float_of 3) with (S754_finite false 12582912 (-22)).
  destruct x as [s|s| |[] m e]; try done. destruct Hx as [Hm He].
  unfold float_div, SFdiv. change (xorb false false) with false.
  destruct (SFdiv_core_binary 24 128 (Zpos m) e 12582912 (-22)) as [[q ez] lz] eqn:E.
  unfold SFdiv_core_binary in E. change (Zdigits2 12582912) with 24 in E.
  set (D := Zdigits2 (Zpos m)) in *.
  set (e' := Z.min (fexp 24 128 (D + e - (24 + -22))) (e - -22)) in *.
  assert (He' : e' <= d - 1 /\ e' <= e + 22) by (subst e'; unfold fexp, emin; lia).
  set (m' := match e - -22 - e' with Z0 => Zpos m | Zpos _ => Z.shiftl (Zpos m) (e - -22 - e') | Zneg _ => 0 end) in *.
  assert (Hm' : m' = Zpos m * 2 ^ (e + 22 - e')).
  { subst m'. replace (e - -22 - e') with (e + 22 - e') by lia.
    destruct (e + 22 - e') as [|k|k] eqn:Es; [lia|by rewrite Z.shiftl_mul_pow2|lia]. }
  pose proof (Z_div_mod m' 12582912 ltac:(lia)) as Hdiv. destruct (Z.div_eucl m' 12582912) as [q' r].
  injection E as <- <- <-. destruct Hdiv as [Hq Hr].
  destruct (digits_bounds (Zpos m) ltac:(done)) as [[_ Hu] HD]. fold D in Hu, HD.
  assert (Hq0 : 0 <= q').
  { assert (0 <= m') by (rewrite Hm'; apply Z.mul_nonneg_nonneg; [done|apply Z.pow_nonneg; lia]). nia. }
  replace d with (d - 1 + 1) by lia. apply round_below; [done| |lia|lia].
  destruct (Z.le_gt_cases (D + (e + 22 - e') - 23) 0) as [Hsmall|Hbig].
  - (* the quotient is zero *)
    assert (m' < 2 ^ 23).
    { rewrite Hm'. apply Z.lt_le_trans with (2 ^ D * 2 ^ (e + 22 - e')).
      - apply Z.mul_lt_mono_pos_r; [apply Z.pow_pos_nonneg; lia|done].
      - rewrite <- Z.pow_add_r by lia. apply Z.pow_le_mono_r; lia. }
    assert (q' = 0) as -> by lia. simpl. lia.
  - destruct (digits_le q' (D + (e + 22 - e') - 23)) as [|]; [lia| |lia|lia].
    assert (m' < 2 ^ (D + (e + 22 - e') - 23) * 2 ^ 23).
    { rewrite <- Z.pow_add_r by lia. replace (D + (e + 22 - e') - 23 + 23) with (D + (e + 22 - e')) by lia.
      rewrite Hm', Z.pow_add_r by lia. apply Z.mul_lt_mono_pos_r; [apply Z.pow_pos_nonneg; lia|done]. }
    nia.
Qed.

Lemma size_of_float_below {S} x d (s : S) :
  float_below d x -> 0 <= d <= 63 -> exists n, size_of_float x s = Ret n s /\ 0 <= n < 2 ^ d.
Proof.
  intros Hx Hd. destruct x as [z|z| |[] m e]; try done.
  { exists 0. split; [done|]. split; [done|]. apply Z.pow_pos_nonneg; lia. }
  destruct Hx as [Hm He]. destruct (digits_bounds (Zpos m) ltac:(done)) as [[_ Hu] HD].
  assert (Hn : 0 <= Z.shiftl (Zpos m) e < 2 ^ d).
  { split; [by apply Z.shiftl_nonneg|].
    destruct (Z.le_gt_cases 0 e) as [H0|H0].
    - rewrite Z.shiftl_mul_pow2 by done. apply Z.lt_le_trans with (2 ^ Zdigits2 (Zpos m) * 2 ^ e).
      + apply Z.mul_lt_mono_pos_r; [apply Z.pow_pos_nonneg; lia|done].
      + rewrite <- Z.pow_add_r by lia. apply Z.pow_le_mono_r; lia.
    - replace e with (- (- e)) by lia. rewrite Z.shiftl_opp_r, Z.shiftr_div_pow2 by lia.
      apply Z.div_lt_upper_bound; [apply Z.pow_pos_nonneg; lia|]. rewrite <- Z.pow_add_r by lia.
      apply Z.lt_le_trans with (2 ^ Zdigits2 (Zpos m)); [done|]. apply Z.pow_le_mono_r; lia. }
  exists (Z.shiftl (Zpos m) e). split; [|done]. unfold size_of_float.
  pose proof (Z.pow_lt_mono_r 2 d 64 ltac:(lia) ltac:(lia) ltac:(lia)).
  by rewrite (proj2 (Z.ltb_lt _ _)) by lia.
Qed.

(** The product of the odd primes up to 47: a number that leaves remainder 1 passes. *)
Definition primorial : Z := 307444891294245705.

Lemma probable_prime_true tests n :
  Forall (fun i => n mod i <> 0) tests -> probable_prime tests n = true.
Proof.
  induction 1 as [|i l Hi Hl IH]; simpl; [done|]. zcase; [done|].
  by rewrite (proj2 (Z.eqb_neq _ _) Hi).
Qed.

Lemma probable_prime_at n : n mod primorial = 1 -> HashTable_IsProbablePrime n = true.
Proof.
  intros Hn. apply probable_prime_true. apply List.Forall_forall. intros i Hi E.
  assert (Hg : forallb (fun i => 1 <? Z.gcd i primorial) odd_tests = true) by (by vm_compute).
  rewrite forallb_forall in Hg. specialize (Hg i Hi). apply Z.ltb_lt in Hg.
  set (q := Z.gcd i primorial) in *.
  assert (Hq : (q | 1)).
  { assert (H1 : (q | n)).
    { apply Z.divide_trans with i; [apply Z.gcd_divide_l|]. apply Z.mod_divide; [|done].
      intros ->. by rewrite Z.mod_0_r in E; subst n. }
    replace 1 with (n - primorial * (n / primorial)) by (rewrite <- Hn, Z.mod_eq by done; lia).
    apply Z.divide_sub_r; [done|]. apply Z.divide_mul_l. apply Z.gcd_divide_r. }
  apply Z.divide_1_r_nonneg in Hq; lia.
Qed.

(** The turns of the loop, counted. *)
Lemma next_prime_spec fuel : forall n,
  0 <= n -> n + 2 * 2 ^ Z.of_nat fuel < 2 ^ 64 ->
  match next_prime fuel n with
  | inl m => exists j, 0 <= j < 2 ^ Z.of_nat fuel /\ m = n + 2 * j /\ HashTable_IsProbablePrime m = true
  | inr m => m = n + 2 * 2 ^ Z.of_nat fuel /\
             forall j, 0 <= j < 2 ^ Z.of_nat fuel -> HashTable_IsProbablePrime (n + 2 * j) = false
  end.
Proof.
  induction fuel as [|fuel IH]; intros n Hn Hb; cbn [next_prime].
  - change (2 ^ Z.of_nat 0) with 1 in *. destruct (HashTable_IsProbablePrime n) eqn:E.
    + exists 0. rewrite Z.mul_0_r, Z.add_0_r. split_and!; try done; lia.
    + rewrite usize_id by lia. split; [lia|]. intros j Hj.
      by replace (n + 2 * j) with n by lia.
  - rewrite Nat2Z.inj_succ, Z.pow_succ_r in * by lia.
    set (k := 2 ^ Z.of_nat fuel) in *. assert (0 < k) by (apply Z.pow_pos_nonneg; lia).
    pose proof (IH n Hn ltac:(lia)) as H1. destruct (next_prime fuel n) as [m|m].
    { destruct H1 as (j & Hj & -> & Hp). exists j. split_and!; try done; lia. }
    destruct H1 as [-> Hno]. pose proof (IH (n + 2 * k) ltac:(lia) ltac:(lia)) as H2.
    destruct (next_prime fuel (n + 2 * k)) as [m|m].
    + destruct H2 as (j & Hj & -> & Hp). exists (k + j). split_and!; try done; lia.
    + destruct H2 as [-> Hno2]. split; [lia|]. intros j Hj.
      destruct (Z.lt_ge_cases j k) as [Hlt|Hge]; [apply Hno; lia|].
      replace (n + 2 * j) with (n + 2 * k + 2 * (j - k)) by lia. apply Hno2. lia.
Qed.

(** The search for the number of buckets ends: from every starting point it finds a number
    without a divisor among the tests, and returns it, before [size_t] wraps around. *)
Lemma next_prime_terminates n :
  0 <= n < 2 ^ 62 ->
  exists m, next_prime prime_fuel n = inl m /\ n <= m < 2 ^ 63 /\ HashTable_IsProbablePrime m = true.
Proof.
  intros Hn. unfold prime_fuel. pose proof (next_prime_spec 60 n ltac:(lia)) as Hs.
  change (2 ^ Z.of_nat 60) with (2 ^ 60) in Hs. specialize (Hs ltac:(lia)).
  destruct (next_prime 60 n) as [m|m].
  { destruct Hs as (j & Hj & -> & Hp). exists (n + 2 * j). split_and!; try done; lia. }
  exfalso. destruct Hs as [_ Hno]. set (r := (1 - n) mod primorial).
  assert (Hr : 0 <= r < primorial) by (by apply Z.mod_pos_bound).
  assert (Hmod : forall k, (n + (r + k * primorial)) mod primorial = 1).
  { intros k. rewrite Z.add_assoc, Z.mod_add by done. unfold r.
    rewrite Zplus_mod_idemp_r. by replace (n + (1 - n)) with 1 by lia. }
  assert (exists j, 0 <= j < 2 ^ 60 /\ (n + 2 * j) mod primorial = 1) as (j & Hj & Hm).
  { destruct (Z.Even_or_Odd r) as [[h Hh]|[h Hh]].
    - exists h. unfold primorial in Hr. split; [lia|]. rewrite <- (Hmod 0). f_equal. lia.
    - exists (h + primorial / 2 + 1). change (primorial / 2) with 153722445647122852.
      unfold primorial in Hr. split; [lia|].
      etrans; [|apply (Hmod 1)]. f_equal. unfold primorial. lia. }
  specialize (Hno j Hj). by rewrite probable_prime_at in Hno.
Qed.

Lemma lor_1 n : 0 <= n -> n <= Z.lor n 1 <= n + 1.
Proof.
  destruct n as [|[p|p|]|p]; [done| | |done|lia].
  - change (Z.lor (Zpos p~1) 1) with (Zpos p~1). lia.
  - change (Z.lor (Zpos p~0) 1) with (Zpos p~1). lia.
Qed.

Lemma ideal_ok t :
  idealRatio t = float_of 3 -> 0 <= numOfElements t < 2 ^ 32 ->
  exists m, HashTable_CalculateIdealNumOfBuckets t = Ret m t /\ 5 <= m < 2 ^ 63.
Proof.
  intros Hi Hn. unfold HashTable_CalculateIdealNumOfBuckets. rewrite get_bind, Hi.
  destruct (size_of_float_below (float_div (float_of (numOfElements t)) (float_of 3)) 33 t) as (n & E & Hb).
  { apply div3_below; [by apply (float_of_below _ 32)|lia]. }
  { lia. }
  rewrite (bind_ret_eq _ _ _ _ _ E). set (n' := if n <? 5 then 5 else Z.lor n 1).
  assert (Hn' : 5 <= n' < 2 ^ 62).
  { subst n'. pose proof (lor_1 n ltac:(lia)). zcase; lia. }
  destruct (next_prime_terminates n' ltac:(lia)) as (m & Em & Hm & _). rewrite Em.
  exists m. split; [done|lia].
Qed.

(** ** The table as a finite map

    Keys that compare equal form a class, [cls]; values are seen through [vcls].  For
    addresses both are the identity, for strings the contents of the string. *)

Class Keys {K V : Type} (cb : callbacks) (cls : Z -> K) (vcls : Z -> V) `{EqDecision K} := {
  equals_cls : forall a b, a <> 0 -> fnObjectEquals (keyObject cb) a b = bool_decide (cls a = cls b);
  hash_cls : forall a b, cls a = cls b -> hash cb a = hash cb b;
  hash_range : forall a, 0 <= hash cb a;
  stored_cls : forall a, a <> 0 -> cls (stored (keyObject cb) a) = cls a;
  stored_nonnull : forall a, a <> 0 -> stored (keyObject cb) a <> 0;
  stored_vcls : forall v, v <> 0 -> vcls (stored (valueObject cb) v) = vcls v
}.

Lemma filter_perm {A} (f : A -> bool) l l' : l ≡ₚ l' -> List.filter f l ≡ₚ List.filter f l'.
Proof.
  induction 1 as [|x l l' _ IH|x y l|l l' l'' _ IH1 _ IH2]; simpl; try done.
  - destruct (f x); by rewrite ?IH.
  - destruct (f x), (f y); try done. by constructor.
  - by etrans.
Qed.

Lemma concat_insert {A} (bs : list (list A)) i b :
  bs !! i = Some b ->
  exists rest, concat bs ≡ₚ b ++ rest /\ forall b', concat (<[i := b']> bs) ≡ₚ b' ++ rest.
Proof.
  intros Hi. pose proof (lookup_lt_Some _ _ _ Hi) as Hl.
  exists (concat (take i bs) ++ concat (drop (S i) bs)). split.
  - rewrite <- (take_drop_middle bs i b Hi) at 1. rewrite concat_app. simpl.
    by rewrite !app_assoc, (Permutation_app_comm (concat (take i bs)) b).
  - intros b'. rewrite insert_take_drop, concat_app by done. simpl.
    by rewrite !app_assoc, (Permutation_app_comm (concat (take i bs)) b').
Qed.

Section Map.
Context `{Alloc} {cb : callbacks} {K V : Type} {cls : Z -> K} {vcls : Z -> V}.
Context `{EqDecision K, !Countable K, HK : !Keys cb cls vcls}.
Implicit Types (t : wHashTable) (p : wKeyValuePair) (b : list wKeyValuePair).

Definition class_of p : K := cls (key p).
Definition entry p : K * V := (cls (key p), vcls (value p)).

(** The map a list of pairs stands for, and when it stands for one. *)
Definition cont l : gmap K V := list_to_map (map entry (List.filter unmarked l)).

Record pairs_ok (h : Z) l : Prop := mk_pairs_ok {
  pairs_classes : NoDup (map class_of l);
  pairs_addrs : NoDup (map addr l);
  pairs_old : Forall (fun p => addr p < h) l;
  pairs_keys : Forall (fun p => key p <> 0) l
}.

#[local] Instance pairs_ok_perm h : Proper (Permutation ==> iff) (pairs_ok h).
Proof.
  assert (Hp : forall l l', l ≡ₚ l' -> pairs_ok h l -> pairs_ok h l').
  { intros l l' E []. constructor; [by rewrite <- (Permutation_map class_of E)|
      by rewrite <- (Permutation_map addr E)|by eapply Permutation_Forall|by eapply Permutation_Forall]. }
  intros l l' E. split; apply Hp; [done|by symmetry].
Qed.

Lemma live_classes l : NoDup (map class_of l) -> NoDup (map entry (List.filter unmarked l)).*1.
Proof.
  intros Hn. replace (map entry (List.filter unmarked l)).*1 with (map class_of (List.filter unmarked l)).
  - eapply sublist_NoDup; [exact Hn|]. clear. induction l as [|p l IH]; simpl; [constructor|].
    destruct (unmarked p); simpl; by constructor.
  - clear. induction l as [|p l IH]; simpl; [done|]. destruct (unmarked p); simpl; by rewrite ?IH.
Qed.

Lemma cont_perm l l' : NoDup (map class_of l) -> l ≡ₚ l' -> cont l = cont l'.
Proof.
  intros Hn E. apply list_to_map_proper; [by apply live_classes|].
  by apply Permutation_map, filter_perm.
Qed.

Lemma cont_cons p l :
  cont (p :: l) = if markedForRemove p then cont l else <[class_of p := vcls (value p)]> (cont l).
Proof. unfold cont. simpl. unfold unmarked at 1. by destruct (markedForRemove p). Qed.

Lemma cont_none c l : c ∉ map class_of l -> cont l !! c = None.
Proof.
  intros Hc. apply not_elem_of_list_to_map_1. intros Hin. apply Hc. clear Hc.
  induction l as [|p l IH]; simpl in *; [done|]. destruct (unmarked p); simpl in *.
  - apply elem_of_cons in Hin as [->|Hin]; apply elem_of_cons; [by left|right; auto].
  - apply elem_of_cons. right. auto.
Qed.

Lemma cont_size l : NoDup (map class_of l) -> Z.of_nat (size (cont l)) = zlen (List.filter unmarked l).
Proof.
  intros Hn. unfold cont. rewrite map_size_list_to_map by (by apply live_classes).
  by rewrite length_map.
Qed.

(** Every pair is in the chain its key hashes to. *)
Definition placed (n : Z) (bs : list (list wKeyValuePair)) : Prop :=
  forall i b p, bs !! i = Some b -> p ∈ b -> Z.of_nat i = hash cb (key p) mod n.

Definition pairs t : list wKeyValuePair := concat (bucketArray t).

Record table_ok t : Prop := mk_table_ok {
  ok_buckets : zlen (bucketArray t) = numOfBuckets t;
  ok_positive : 0 < numOfBuckets t < 2 ^ 63;
  ok_placed : placed (numOfBuckets t) (bucketArray t);
  ok_pairs : pairs_ok (heap t) (pairs t);
  ok_count : numOfElements t = zlen (List.filter unmarked (pairs t));
  ok_pending : pendingRemoves t = zlen (List.filter markedForRemove (pairs t));
  ok_marks : foreachRecursionLevel t = 0 -> Forall (fun p => markedForRemove p = false) (pairs t);
  ok_ratio : idealRatio t = float_of 3
}.

Definition contents t : gmap K V := cont (pairs t).

Lemma locate_spec k b :
  k <> 0 ->
  match locate cb k b with
  | (pre, p :: post) => b = pre ++ p :: post /\ class_of p = cls k
  | (_, []) => cls k ∉ map class_of b
  end.
Proof.
  intros Hk. induction b as [|p b IH]; simpl; [apply not_elem_of_nil|].
  unfold HashTable_Equals. rewrite (equals_cls k (key p) Hk).
  destruct (bool_decide_reflect (cls k = cls (key p))) as [E|E]; [by split|].
  destruct (locate cb k b) as [x [|q y]].
  - intros [E'|E']%elem_of_cons; [by apply E|done].
  - destruct IH as [-> ?]. by split.
Qed.

Lemma elem_of_pairs q t :
  q ∈ pairs t -> exists i b, bucketArray t !! i = Some b /\ q ∈ b.
Proof.
  unfold pairs. intros Hq. apply list_elem_of_In, in_concat in Hq as (b & Hb & Hq).
  apply list_elem_of_In, list_elem_of_lookup in Hb as [i Hi]. exists i, b. split; [done|].
  by apply list_elem_of_In.
Qed.

(** The search for a key: its chain, what else there is, and the pair if there is one. *)
Lemma search_ok k t :
  table_ok t -> k <> 0 ->
  let i := hash cb k mod numOfBuckets t in
  exists b rest, bucket cb k t = Ret (i, b) t /\ bucketArray t !! Z.to_nat i = Some b /\
    pairs t ≡ₚ b ++ rest /\ (forall b', concat (<[Z.to_nat i := b']> (bucketArray t)) ≡ₚ b' ++ rest) /\
    match locate cb k b with
    | (pre, p :: post) => b = pre ++ p :: post /\ class_of p = cls k
    | (_, []) => cls k ∉ map class_of (pairs t)
    end.
Proof.
  intros [Hb Hn Hp _ _ _ _ _] Hk i. assert (Hi : 0 <= i < numOfBuckets t) by (apply Z.mod_pos_bound; lia).
  destruct (lookup_lt_is_Some_2 (bucketArray t) (Z.to_nat i)) as [b Eb]; [unfold zlen in Hb; lia|].
  destruct (concat_insert _ _ _ Eb) as (rest & Hr & Hr'). exists b, rest. split_and!; try done.
  { unfold bucket. rewrite get_bind. rewrite (proj2 (Z.eqb_neq _ _)) by lia. fold i. by rewrite Eb. }
  pose proof (locate_spec k b Hk) as Hl. destruct (locate cb k b) as [pre [|p post]]; [|done].
  intros Hin. apply Hl. apply list_elem_of_fmap in Hin as (q & Eq & Hq).
  destruct (elem_of_pairs q t Hq) as (j & c & Ec & Hqc).
  assert (j = Z.to_nat i) as ->.
  { pose proof (Hp j c q Ec Hqc) as Hj. rewrite (hash_cls (key q) k) in Hj by done. fold i in Hj. lia. }
  rewrite Eb in Ec. injection Ec as ->. rewrite Eq. by apply list_elem_of_fmap_2.
Qed.

Lemma placed_insert n bs i b b' :
  placed n bs -> bs !! i = Some b -> Forall (fun p => Z.of_nat i = hash cb (key p) mod n) b' ->
  placed n (<[i := b']> bs).
Proof.
  intros Hp Hi Hb j c p Hj Hc. apply list_lookup_insert_Some in Hj as [(-> & -> & _)|[_ Hj]].
  - rewrite Forall_forall in Hb. apply Hb. by apply list_elem_of_In.
  - by eapply Hp.
Qed.

Lemma placed_chain t i b : table_ok t -> bucketArray t !! i = Some b ->
  Forall (fun p => Z.of_nat i = hash cb (key p) mod numOfBuckets t) b.
Proof.
  intros Hok Hi. apply Forall_forall. intros p Hp. eapply (ok_placed t Hok); [done|]. by apply list_elem_of_In.
Qed.

(** A table with one chain replaced. *)
Lemma replaced_ok t t' i b b' :
  table_ok t -> bucketArray t !! i = Some b ->
  bucketArray t' = <[i := b']> (bucketArray t) -> numOfBuckets t' = numOfBuckets t ->
  idealRatio t' = idealRatio t ->
  Forall (fun p => Z.of_nat i = hash cb (key p) mod numOfBuckets t) b' ->
  pairs_ok (heap t') (pairs t') ->
  numOfElements t' = zlen (List.filter unmarked (pairs t')) ->
  pendingRemoves t' = zlen (List.filter markedForRemove (pairs t')) ->
  (foreachRecursionLevel t' = 0 -> Forall (fun p => markedForRemove p = false) (pairs t')) ->
  table_ok t'.
Proof.
  intros [] Hi E En Er Hb Hp Hc Hpe Hm. constructor; try done; rewrite ?E, ?En, ?Er; try done.
  - by rewrite <- ok_buckets0; unfold zlen; rewrite length_insert.
  - by eapply placed_insert.
Qed.

Lemma dispose_nil t : dispose [] t = t.
Proof. destruct t. unfold dispose. simpl. by rewrite app_nil_r. Qed.

Lemma dispose_app (l1 l2 : list Z) t : dispose l2 (dispose l1 t) = dispose (l1 ++ l2) t.
Proof. unfold dispose. simpl. by rewrite app_assoc. Qed.

Lemma setKey_ok p k t :
  k <> 0 -> class_of p = cls k \/ key p <> k ->
  exists p' (l : list Z), (if key p =? k then mret p else setKey cb p k) t = Ret p' (dispose l t) /\
    addr p' = addr p /\ markedForRemove p' = markedForRemove p /\ key p' <> 0 /\
    class_of p' = cls k.
Proof.
  intros Hk Hp. destruct (Z.eqb_spec (key p) k) as [E|E].
  - exists p, []. rewrite dispose_nil. split_and!; try done; [congruence|by destruct Hp].
  - eexists _, _. split; [reflexivity|]. split_and!; try done; [by apply stored_nonnull|by apply stored_cls].
Qed.

Lemma setValue_ok p v t :
  v <> 0 ->
  exists p' (l : list Z), (if value p =? v then mret p else setValue cb p v) t = Ret p' (dispose l t) /\
    addr p' = addr p /\ markedForRemove p' = markedForRemove p /\ key p' = key p /\
    vcls (value p') = vcls v.
Proof.
  intros Hv. destruct (Z.eqb_spec (value p) v) as [E|E].
  - exists p, []. rewrite dispose_nil. split_and!; try done. by rewrite E.
  - eexists _, _. split; [reflexivity|]. split_and!; try done. by apply stored_vcls.
Qed.

Lemma alter_as_insert {A} (f : A -> A) i (l : list A) x :
  l !! i = Some x -> alter f i l = <[i := f x]> l.
Proof.
  revert i. induction l as [|y l IH]; intros [|i] Hi; try done.
  - by injection Hi as ->.
  - simpl in *. f_equal. by apply IH.
Qed.

(** Moving pairs to an array of [n] chains. *)
Lemma move_pairs_ok n l : forall bs,
  0 < n -> zlen bs = n -> placed n bs ->
  let bs' := foldl (move_pair cb n) bs l in
  zlen bs' = n /\ placed n bs' /\ concat bs' ≡ₚ l ++ concat bs.
Proof.
  induction l as [|p l IH]; intros bs Hn Hl Hp; simpl; [done|].
  set (i := Z.to_nat (hash cb (key p) mod n)).
  assert (Hi : 0 <= hash cb (key p) mod n < n) by (by apply Z.mod_pos_bound).
  destruct (lookup_lt_is_Some_2 bs i) as [b Eb]; [unfold zlen in Hl; lia|].
  assert (Em : move_pair cb n bs p = <[i := p :: b]> bs) by (by apply alter_as_insert).
  rewrite Em. destruct (concat_insert _ _ _ Eb) as (rest & Hr & Hr').
  destruct (IH (<[i := p :: b]> bs)) as (H1 & H2 & H3); try done.
  - unfold zlen. by rewrite length_insert.
  - eapply placed_insert; [done|done|]. constructor; [lia|].
    apply Forall_forall. intros q Hq. eapply Hp; [done|]. by apply list_elem_of_In.
  - split_and!; try done. rewrite H3, Hr', Hr. simpl. by rewrite <- Permutation_middle.
Qed.

Lemma rehash_ok n t :
  table_ok t -> zlen (pairs t) < 2 ^ 32 -> n = 0 \/ 0 < n < 2 ^ 63 ->
  exists t', HashTable_Rehash cb n t = Ret tt t' /\ table_ok t' /\ contents t' = contents t /\
    pairs t' ≡ₚ pairs t /\ foreachRecursionLevel t' = foreachRecursionLevel t.
Proof.
  intros Hok Hsz Hn. pose proof Hok as [Hb Hpos Hpl Hpa Hc Hpe Hm Hr].
  assert (Hcount : 0 <= numOfElements t < 2 ^ 32).
  { rewrite Hc. split; [apply zlen_nonneg|]. apply Z.le_lt_trans with (zlen (pairs t)); [|done].
    unfold zlen. pose proof (filter_length_le unmarked (pairs t)). lia. }
  assert (exists m, (if n =? 0 then HashTable_CalculateIdealNumOfBuckets else mret n) t = Ret m t /\
    0 < m < 2 ^ 63) as (m & Em & Hm').
  { destruct (Z.eqb_spec n 0) as [->|Hne]; [|exists n; split; [done|lia]].
    destruct (ideal_ok t Hr Hcount) as (m & E & ?). exists m. split; [done|lia]. }
  unfold HashTable_Rehash. rewrite (bind_ret_eq _ _ _ _ _ Em), get_bind.
  zcase; [exists t; by split_and!|]. zcase; [exists t; by split_and!|].
  eexists. split; [reflexivity|]. fold (pairs t).
  destruct (move_pairs_ok m (pairs t) (replicate (Z.to_nat m) [])) as (H1 & H2 & H3); [lia| | |].
  { unfold zlen. rewrite length_replicate. lia. }
  { intros i b p Hi Hp. apply lookup_replicate in Hi as [-> _]. by apply not_elem_of_nil in Hp. }
  assert (Hnil : concat (replicate (Z.to_nat m) (@nil wKeyValuePair)) = []) by (clear; induction (Z.to_nat m); simpl; auto).
  rewrite Hnil, app_nil_r in H3. set (bs := foldl _ _ _) in *.
  assert (Hperm : pairs (set_buckets m bs t) ≡ₚ pairs t) by done.
  split_and!; try done.
  - constructor; try done; simpl.
    + by rewrite Hperm.
    + rewrite Hc. unfold zlen. by rewrite (filter_perm _ _ _ Hperm).
    + rewrite Hpe. unfold zlen. by rewrite (filter_perm _ _ _ Hperm).
    + intros Hl. eapply Permutation_Forall; [by symmetry|auto].
  - apply cont_perm; [|done]. rewrite (Permutation_map class_of Hperm). by destruct Hpa.
Qed.

(** The chains keep their pairs, in order; pairs may be put in front. *)
Definition grows t t' : Prop :=
  numOfBuckets t' = numOfBuckets t /\
  Forall2 (fun b b' => exists new, map addr b' = new ++ map addr b) (bucketArray t) (bucketArray t').

Lemma grows_refl t : grows t t.
Proof. split; [done|]. apply Forall_Forall2_diag, List.Forall_forall. intros b _. by exists []. Qed.

Lemma grows_trans t1 t2 t3 : grows t1 t2 -> grows t2 t3 -> grows t1 t3.
Proof.
  intros [E1 H1] [E2 H2]. split; [congruence|]. revert H2. generalize (bucketArray t3).
  induction H1 as [|b1 b2 l1 l2 [n1 Eb] H1 IH]; intros l3 H3; inversion H3 as [|? b3 ? ? [n2 Eb']]; subst.
  - constructor.
  - constructor; [|auto]. exists (n2 ++ n1). by rewrite Eb', Eb, app_assoc.
Qed.

Lemma grows_insert t t' i b b' new :
  bucketArray t !! i = Some b -> bucketArray t' = <[i := b']> (bucketArray t) ->
  numOfBuckets t' = numOfBuckets t -> map addr b' = new ++ map addr b -> grows t t'.
Proof.
  intros Hi E En Hb. split; [done|]. rewrite E, <- (list_insert_id _ _ _ Hi) at 1.
  apply Forall2_insert; [|by exists new]. apply Forall_Forall2_diag, List.Forall_forall.
  intros c _. by exists [].
Qed.

Definition count (f : wKeyValuePair -> bool) p : Z := if f p then 1 else 0.

Lemma count_cons f p L l : l ≡ₚ p :: L -> zlen (List.filter f l) = count f p + zlen (List.filter f L).
Proof.
  intros E. unfold zlen at 1. rewrite (filter_perm f _ _ E). simpl. unfold count.
  destruct (f p); [rewrite length_cons|]; unfold zlen; lia.
Qed.

Lemma zlen_perm {A} (l l' : list A) : l ≡ₚ l' -> zlen l = zlen l'.
Proof. intros E. unfold zlen. by rewrite E. Qed.

(** Replacing a pair by one with the same key: the map is updated at the key. *)
Lemma swap_ok t t' i pre p post p' L :
  table_ok t -> bucketArray t !! i = Some (pre ++ p :: post) -> pairs t ≡ₚ p :: L ->
  pairs t' ≡ₚ p' :: L -> bucketArray t' = <[i := pre ++ p' :: post]> (bucketArray t) ->
  numOfBuckets t' = numOfBuckets t -> idealRatio t' = idealRatio t -> heap t' = heap t ->
  foreachRecursionLevel t' = foreachRecursionLevel t ->
  addr p' = addr p -> class_of p' = class_of p -> key p' <> 0 ->
  numOfElements t' = numOfElements t - count unmarked p + count unmarked p' ->
  pendingRemoves t' = pendingRemoves t - count markedForRemove p + count markedForRemove p' ->
  (foreachRecursionLevel t = 0 -> markedForRemove p' = false) ->
  table_ok t' /\ grows t t' /\ zlen (pairs t') = zlen (pairs t) /\
  contents t' = if markedForRemove p' then delete (class_of p) (contents t)
                else <[class_of p := vcls (value p')]> (contents t).
Proof.
  intros Hok Hi HL HL' E En Er Eh El Ea Ec Ek Ee Ep Hm. pose proof Hok as [_ _ _ Hpa Hc Hpe Hm0 _].
  assert (HpL : pairs_ok (heap t) (p :: L)) by (by rewrite <- HL).
  assert (HpL' : pairs_ok (heap t') (p' :: L)).
  { destruct HpL as [H1 H2 H3 H4]. rewrite Eh. constructor; simpl in *; rewrite ?Ec, ?Ea; try done.
    - apply Forall_cons_1 in H3 as [? ?]. by constructor; [rewrite Ea|].
    - apply Forall_cons_1 in H4 as [? ?]. by constructor. }
  assert (Hnone : cont L !! class_of p = None).
  { apply cont_none. destruct HpL as [H1 _ _ _]. by apply NoDup_cons_1_1 in H1. }
  split_and!.
  - pose proof (placed_chain t i _ Hok Hi) as Hpc. apply List.Forall_app in Hpc as [Hpc1 Hpc2].
    apply Forall_cons_1 in Hpc2 as [Hpc2 Hpc3].
    eapply replaced_ok; [exact Hok|exact Hi|done|done|done| |by rewrite HL'| | |].
    + apply List.Forall_app. split; [done|]. constructor; [|done]. by rewrite (hash_cls (key p') (key p)).
    + rewrite Ee, Hc, (count_cons _ _ _ _ HL), (count_cons _ _ _ _ HL'). lia.
    + rewrite Ep, Hpe, (count_cons _ _ _ _ HL), (count_cons _ _ _ _ HL'). lia.
    + rewrite El. intros Hl. eapply Permutation_Forall; [by symmetry|]. constructor; [auto|].
      assert (HmL : Forall (fun p => markedForRemove p = false) (p :: L)) by (eapply Permutation_Forall; [exact HL|auto]).
      by apply Forall_cons_1 in HmL as [_ ?].
  - eapply (grows_insert _ _ _ _ _ []); [exact Hi|exact E|done|]. rewrite !map_app. simpl. by rewrite Ea.
  - rewrite (zlen_perm _ _ HL), (zlen_perm _ _ HL'), !zlen_cons. done.
  - unfold contents. rewrite (cont_perm (pairs t') (p' :: L)); [| |done].
    2: { rewrite (Permutation_map class_of HL'). by destruct HpL'. }
    rewrite (cont_perm (pairs t) (p :: L)); [|by destruct Hpa|done].
    rewrite !cont_cons, Ec. destruct (markedForRemove p'), (markedForRemove p).
    + by rewrite delete_id.
    + by rewrite delete_insert_id.
    + done.
    + by rewrite insert_insert_eq.
Qed.

Lemma cont_lookup t p L :
  table_ok t -> pairs t ≡ₚ p :: L ->
  contents t !! class_of p = if markedForRemove p then None else Some (vcls (value p)).
Proof.
  intros Hok HL. pose proof (ok_pairs t Hok) as [Hn _ _ _]. unfold contents.
  rewrite (cont_perm _ _ Hn HL), cont_cons. destruct (markedForRemove p).
  - apply cont_none. rewrite (Permutation_map class_of HL) in Hn. by apply NoDup_cons_1_1 in Hn.
  - by rewrite lookup_insert_eq.
Qed.

Lemma key_nonnull t p : table_ok t -> p ∈ pairs t -> key p <> 0.
Proof.
  intros Hok Hp. destruct (ok_pairs t Hok) as [_ _ _ Hks]. rewrite Forall_forall in Hks.
  by apply Hks, list_elem_of_In.
Qed.

(** The new pair in front of its chain. *)
Lemma table_push_ok t t' k b rest p :
  let i := Z.to_nat (hash cb k mod numOfBuckets t) in
  table_ok t -> bucketArray t !! i = Some b -> pairs t ≡ₚ b ++ rest ->
  cls k ∉ map class_of (pairs t) -> class_of p = cls k -> key p <> 0 -> markedForRemove p = false ->
  addr p = heap t -> pairs t' ≡ₚ p :: pairs t ->
  bucketArray t' = <[i := p :: b]> (bucketArray t) ->
  numOfBuckets t' = numOfBuckets t -> idealRatio t' = idealRatio t -> heap t' = heap t + 1 ->
  foreachRecursionLevel t' = foreachRecursionLevel t ->
  numOfElements t' = numOfElements t + 1 -> pendingRemoves t' = pendingRemoves t ->
  table_ok t' /\ grows t t' /\ contents t' = <[cls k := vcls (value p)]> (contents t).
Proof.
  intros i Hok Hi Hr Hk Hc Hkp Hm Ha HL E En Er Eh El Ee Ep.
  pose proof Hok as [_ Hpos _ Hpa Hco Hpe Hm0 _].
  assert (Hp' : pairs_ok (heap t') (p :: pairs t)).
  { destruct Hpa as [H1 H2 H3 H4]. rewrite Eh. constructor; simpl; [| | |by constructor].
    - apply NoDup_cons_2; [by rewrite Hc|done].
    - apply NoDup_cons_2; [|done]. intros (q & Eq & Hq)%list_elem_of_fmap.
      rewrite Forall_forall in H3. apply list_elem_of_In in Hq. specialize (H3 q Hq). lia.
    - constructor; [lia|]. eapply List.Forall_impl; [|exact H3]. intros q. simpl. lia. }
  split_and!.
  - eapply replaced_ok; [exact Hok|exact Hi|done|done|done| |by rewrite HL| | |].
    + constructor; [|by apply (placed_chain t i b Hok Hi)].
      rewrite (hash_cls (key p) k) by done. subst i.
      pose proof (Z.mod_pos_bound (hash cb k) (numOfBuckets t) ltac:(lia)). lia.
    + rewrite Ee, Hco, (count_cons _ _ _ _ HL). unfold count, unmarked. rewrite Hm. simpl. lia.
    + rewrite Ep, Hpe, (count_cons _ _ _ _ HL). unfold count. rewrite Hm. lia.
    + rewrite El. intros Hl. eapply Permutation_Forall; [by symmetry|]. constructor; auto.
  - by eapply (grows_insert _ _ _ _ _ [addr p]).
  - unfold contents. rewrite (cont_perm _ _ ltac:(rewrite (Permutation_map class_of HL); by destruct Hp') HL).
    by rewrite cont_cons, Hm, Hc.
Qed.

(** [busy]: a [HashTable_Foreach] is running, or one was left early. *)
Definition busy t : bool := negb (foreachRecursionLevel t =? 0).

(** What every operation but [HashTable_Clear] leaves. *)
Record served t t' : Prop := mk_served {
  served_ok : table_ok t';
  served_size : zlen (pairs t') <= zlen (pairs t) + 1;
  served_level : foreachRecursionLevel t' = foreachRecursionLevel t;
  served_grows : busy t = true -> grows t t'
}.

(** The end of an operation that may rebuild the array. *)
Lemma rehash_if (wanted due : bool) t :
  table_ok t -> zlen (pairs t) < 2 ^ 32 ->
  exists t', ((if (foreachRecursionLevel t =? 0) && wanted then
                 if due then HashTable_Rehash cb 0 else mret tt else mret tt);; mret true) t = Ret true t' /\
    table_ok t' /\ contents t' = contents t /\ zlen (pairs t') = zlen (pairs t) /\
    foreachRecursionLevel t' = foreachRecursionLevel t /\ (busy t = true -> t' = t).
Proof.
  intros Hok Hsz. destruct (foreachRecursionLevel t =? 0) eqn:El.
  2: { exists t. by split_and!. }
  assert (Hb : busy t = false) by (unfold busy; by rewrite El).
  destruct wanted; [|exists t; by split_and!]. destruct due; [|exists t; by split_and!].
  destruct (rehash_ok 0 t Hok Hsz ltac:(by left)) as (t' & E & Hok' & Hc & Hp & Hl).
  exists t'. simpl. rewrite (bind_ret_eq _ _ _ _ _ E). split_and!; try done; [by apply zlen_perm|].
  by rewrite Hb.
Qed.

Lemma table_insert_ok k v t :
  table_ok t -> zlen (pairs t) < 2 ^ 31 -> k <> 0 -> v <> 0 ->
  exists r t', HashTable_Insert cb k v t = Ret r t' /\ served t t' /\
    (r = true /\ contents t' = <[cls k := vcls v]> (contents t) \/
     r = false /\ malloc_ok 32 = false /\ contents t' = contents t).
Proof.
  intros Hok Hsz Hk Hv. pose proof Hok as [Hb Hpos _ Hpa Hc Hpe Hm0 Hra].
  assert (Hcount : numOfElements t <= zlen (pairs t) /\ 0 <= numOfElements t /\
                   pendingRemoves t <= zlen (pairs t) /\ 0 <= pendingRemoves t).
  { rewrite Hc, Hpe. unfold zlen. pose proof (filter_length_le unmarked (pairs t)).
    pose proof (filter_length_le markedForRemove (pairs t)). lia. }
  destruct (search_ok k t Hok Hk) as (b & rest & Eb & Hi & Hr & Hr' & Hloc).
  unfold HashTable_Insert. rewrite (proj2 (Z.eqb_neq k 0)), (proj2 (Z.eqb_neq v 0)) by done. simpl.
  rewrite (bind_ret_eq _ _ _ _ _ Eb).
  destruct (locate cb k b) as [pre [|p post]].
  - (* a new pair *)
    destruct (malloc_ok 32) eqn:Ema; simpl; [|by exists false, t; split_and!; [|constructor; try done; [lia|intros; apply grows_refl]|right]].
    set (i := hash cb k mod numOfBuckets t) in *.
    set (p := mkPair (heap t) (stored (keyObject cb) k) (stored (valueObject cb) v) false).
    set (t1 := set_counts (usize (numOfElements t + 1)) (pendingRemoves t)
      (set_buckets (numOfBuckets t) (<[Z.to_nat i := p :: b]> (bucketArray t))
        (dispose (released (valueObject cb) [0]) (dispose (released (keyObject cb) [0])
          (set_heap (heap t + 1) t))))).
    assert (Ht1 : table_ok t1 /\ grows t t1 /\ contents t1 = <[cls k := vcls (value p)]> (contents t)).
    { apply (table_push_ok t t1 k b rest p Hok); try done; simpl.
      - by apply stored_cls.
      - by apply stored_nonnull.
      - unfold pairs at 1. simpl. rewrite Hr', Hr. done.
      - rewrite usize_id; lia. }
    destruct Ht1 as (Hok1 & Hg1 & Hc1).
    assert (Hs1 : zlen (pairs t1) = zlen (pairs t) + 1).
    { unfold pairs at 1, t1. simpl. rewrite (zlen_perm _ _ (Hr' (p :: b))), (zlen_perm _ _ Hr).
      rewrite !zlen_app, zlen_cons. lia. }
    destruct (rehash_if (float_gt (upperRehashThreshold t1) (idealRatio t1))
      (float_gt (load_factor t1) (upperRehashThreshold t1)) t1 Hok1 ltac:(lia))
      as (t2 & E2 & Hok2 & Hc2 & Hs2 & Hl2 & Hg2).
    exists true, t2. split; [exact E2|]. split.
    + constructor; [done|lia|done|]. intros Hbusy. rewrite Hg2; done.
    + left. split; [done|]. rewrite Hc2, Hc1. simpl. by rewrite stored_vcls.
  - (* the pair is there *)
    destruct Hloc as [-> Hcp]. set (i := hash cb k mod numOfBuckets t) in *.
    assert (HL : pairs t ≡ₚ p :: (pre ++ post ++ rest)).
    { rewrite Hr, <- app_assoc. simpl. by rewrite <- Permutation_middle. }
    set (p0 := set_mark false p).
    set (t0 := if markedForRemove p
               then set_counts (usize (numOfElements t + 1)) (u32 (pendingRemoves t - 1)) t else t).
    assert (E0 : (if markedForRemove p then
                   modify (fun t => set_counts (usize (numOfElements t + 1)) (u32 (pendingRemoves t - 1)) t);;
                   mret (set_mark false p) else mret p) t = Ret p0 t0).
    { subst p0 t0. destruct p as [? ? ? []]; done. }
    rewrite (bind_ret_eq _ _ _ _ _ E0).
    destruct (setKey_ok p0 k t0 Hk ltac:(by left)) as (p1 & l1 & E1 & A1 & M1 & K1 & C1).
    rewrite (bind_ret_eq _ _ _ _ _ E1).
    destruct (setValue_ok p1 v (dispose l1 t0) Hv) as (p2 & l2 & E2 & A2 & M2 & K2 & V2).
    rewrite (bind_ret_eq _ _ _ _ _ E2). rewrite dispose_app. unfold set_bucket. rewrite modify_bind.
    set (t3 := set_buckets _ _ _). exists true, t3. split; [done|].
    assert (Hp0 : count markedForRemove p <= pendingRemoves t).
    { rewrite Hpe, (count_cons _ _ _ _ HL). pose proof (zlen_nonneg (List.filter markedForRemove (pre ++ post ++ rest))). lia. }
    destruct (swap_ok t t3 (Z.to_nat i) pre p post p2 (pre ++ post ++ rest)) as (Hok3 & Hg3 & Hs3 & Hc3); try done.
    + unfold pairs, t3. simpl. replace (bucketArray t0) with (bucketArray t) by (subst t0; by destruct (markedForRemove p)).
      rewrite Hr', <- app_assoc. simpl. by rewrite <- Permutation_middle.
    + subst t3 t0. by destruct (markedForRemove p).
    + subst t3 t0. by destruct (markedForRemove p).
    + subst t3 t0. by destruct (markedForRemove p).
    + subst t3 t0. by destruct (markedForRemove p).
    + subst t3 t0. by destruct (markedForRemove p).
    + by rewrite A2, A1.
    + unfold class_of in *. rewrite K2. congruence.
    + by rewrite K2.
    + subst t3 t0. unfold count, unmarked in *. rewrite M2, M1. simpl.
      destruct (markedForRemove p); simpl; [rewrite usize_id|]; lia.
    + subst t3 t0. unfold count in *. rewrite M2, M1. simpl.
      destruct (markedForRemove p); simpl; [unfold u32; word_lia|lia].
    + by rewrite M2, M1.
    + split; [constructor; try done; [lia|subst t3 t0; by destruct (markedForRemove p)]|].
      left. split; [done|]. rewrite Hc3, M2, M1. simpl. by rewrite Hcp, V2.
Qed.

Lemma counts_range t :
  table_ok t -> 0 <= numOfElements t <= zlen (pairs t) /\ 0 <= pendingRemoves t <= zlen (pairs t).
Proof.
  intros [_ _ _ _ Hc Hpe _ _]. rewrite Hc, Hpe. unfold zlen.
  pose proof (filter_length_le unmarked (pairs t)).
  pose proof (filter_length_le markedForRemove (pairs t)). lia.
Qed.

Lemma served_same t : table_ok t -> served t t.
Proof. intros Hok. constructor; try done; [lia|]. intros _. apply grows_refl. Qed.

(** Taking a pair out of its chain. *)
Lemma drop_ok t t' i pre p post rest :
  table_ok t -> bucketArray t !! i = Some (pre ++ p :: post) ->
  pairs t ≡ₚ p :: (pre ++ post ++ rest) -> pairs t' ≡ₚ pre ++ post ++ rest ->
  bucketArray t' = <[i := pre ++ post]> (bucketArray t) ->
  numOfBuckets t' = numOfBuckets t -> idealRatio t' = idealRatio t -> heap t' = heap t ->
  foreachRecursionLevel t = 0 -> foreachRecursionLevel t' = 0 ->
  numOfElements t' = numOfElements t - 1 -> pendingRemoves t' = pendingRemoves t ->
  table_ok t' /\ zlen (pairs t') = zlen (pairs t) - 1 /\ contents t' = delete (class_of p) (contents t).
Proof.
  intros Hok Hi HL HL' E En Er Eh El El' Ee Ep. pose proof Hok as [_ _ _ Hpa Hc Hpe Hm0 _].
  set (L := pre ++ post ++ rest) in *.
  assert (HpL : pairs_ok (heap t) (p :: L)) by (by rewrite <- HL).
  assert (HmL : Forall (fun p => markedForRemove p = false) (p :: L)) by (eapply Permutation_Forall; [exact HL|auto]).
  apply Forall_cons_1 in HmL as [Hm HmL].
  assert (HpL' : pairs_ok (heap t') L).
  { destruct HpL as [H1 H2 H3 H4]. rewrite Eh. simpl in *. apply Forall_cons_1 in H4 as [_ H4].
    apply NoDup_cons_1_2 in H1. apply NoDup_cons_1_2 in H2. apply Forall_cons_1 in H3 as [_ H3]. by constructor. }
  split_and!.
  - pose proof (placed_chain t i _ Hok Hi) as Hpc. apply List.Forall_app in Hpc as [Hpc1 Hpc2].
    apply Forall_cons_1 in Hpc2 as [Hpc2 Hpc3].
    eapply replaced_ok; [exact Hok|exact Hi|done|done|done| |by rewrite HL'| | |].
    + by apply List.Forall_app.
    + rewrite Ee, Hc, (count_cons _ _ _ _ HL). unfold zlen at 2. rewrite (filter_perm _ _ _ HL').
      unfold count, unmarked at 1. rewrite Hm. simpl. unfold zlen. lia.
    + rewrite Ep, Hpe, (count_cons _ _ _ _ HL). unfold zlen at 2. rewrite (filter_perm _ _ _ HL').
      unfold count. rewrite Hm. unfold zlen. lia.
    + intros _. eapply Permutation_Forall; [by symmetry|done].
  - rewrite (zlen_perm _ _ HL), (zlen_perm _ _ HL'), zlen_cons. lia.
  - unfold contents. rewrite (cont_perm (pairs t') L); [| |done].
    2: { rewrite (Permutation_map class_of HL'). by destruct HpL'. }
    rewrite (cont_perm (pairs t) (p :: L)); [|by destruct Hpa|done].
    rewrite cont_cons, Hm, delete_insert_id; [done|]. apply cont_none.
    destruct HpL as [H1 _ _ _]. by apply NoDup_cons_1_1 in H1.
Qed.

(** What marking a pair leaves alone. *)
Definition ident p : Z * K := (addr p, class_of p).

Lemma table_remove_ok k t :
  table_ok t -> zlen (pairs t) < 2 ^ 31 -> k <> 0 ->
  (busy t = true -> is_Some (contents t !! cls k)) ->
  exists r t', HashTable_Remove cb k t = Ret r t' /\ served t t' /\
    r = bool_decide (is_Some (contents t !! cls k)) /\ contents t' = delete (cls k) (contents t) /\
    (busy t = true -> map ident (pairs t') ≡ₚ map ident (pairs t)).
Proof.
  intros Hok Hsz Hk Hbusy. pose proof (counts_range t Hok) as Hcr.
  destruct (search_ok k t Hok Hk) as (b & rest & Eb & Hi & Hr & Hr' & Hloc).
  unfold HashTable_Remove. rewrite (proj2 (Z.eqb_neq k 0)) by done. rewrite (bind_ret_eq _ _ _ _ _ Eb).
  destruct (locate cb k b) as [pre [|p post]].
  { pose proof (cont_none _ _ Hloc) as Hnone. fold (contents t) in Hnone.
    exists false, t. split; [done|]. split; [by apply served_same|].
    rewrite Hnone. split; [done|]. by rewrite delete_id. }
  destruct Hloc as [-> Hcp]. set (i := hash cb k mod numOfBuckets t) in *.
  assert (HL : pairs t ≡ₚ p :: (pre ++ post ++ rest)).
  { rewrite Hr, <- app_assoc. simpl. by rewrite <- Permutation_middle. }
  pose proof (key_nonnull t p ltac:(done) ltac:(rewrite HL; apply list_elem_of_here)) as Hkp.
  pose proof (cont_lookup t p _ Hok HL) as Hlook. rewrite Hcp in Hlook. rewrite get_bind.
  assert (Hm : markedForRemove p = false).
  { destruct (busy t) eqn:Eb'; [destruct (Hbusy eq_refl) as [w Hw]; destruct (markedForRemove p); congruence|].
    unfold busy in Eb'. assert (foreachRecursionLevel t = 0) as Hl by lia.
    pose proof (ok_marks t Hok Hl) as Hall. rewrite Forall_forall in Hall. apply Hall.
    apply list_elem_of_In. rewrite HL. apply list_elem_of_here. }
  rewrite Hm in Hlook. rewrite Hlook.
  assert (Hcu : count unmarked p = 1) by (unfold count, unmarked; by rewrite Hm).
  assert (Hne : 1 <= numOfElements t).
  { pose proof (ok_count t Hok) as Hc. rewrite (count_cons _ _ _ _ HL), Hcu in Hc.
    pose proof (zlen_nonneg (List.filter unmarked (pre ++ post ++ rest))). lia. }
  rewrite (bool_decide_true (is_Some (Some _))) by done. fold (busy t). destruct (busy t) eqn:Ebz.
  - (* only marked *)
    unfold set_bucket. rewrite !modify_bind. set (t3 := set_counts _ _ _). exists true, t3. split; [done|].
    assert (HL' : pairs t3 ≡ₚ set_mark true p :: (pre ++ post ++ rest)).
    { unfold pairs, t3. simpl. rewrite Hr', <- app_assoc. simpl. by rewrite <- Permutation_middle. }
    destruct (swap_ok t t3 (Z.to_nat i) pre p post (set_mark true p) (pre ++ post ++ rest)) as (Hok3 & Hg3 & Hs3 & Hc3); try done.
    + subst t3. simpl. rewrite Hcu, usize_id by lia. unfold count. simpl. lia.
    + subst t3. unfold count. simpl. rewrite Hm. unfold u32. word_lia.
    + intros Hl. unfold busy in Ebz. by rewrite Hl in Ebz.
    + split; [constructor; try done; lia|]. split; [done|]. split; [rewrite Hc3; simpl; by rewrite Hcp|].
      intros _. by rewrite (Permutation_map ident HL), (Permutation_map ident HL').
  - assert (Hl : foreachRecursionLevel t = 0) by (unfold busy in Ebz; lia).
    set (t1 := set_counts (usize (numOfElements t - 1)) (pendingRemoves t)
      (dispose (released (valueObject cb) [value p]) (dispose (released (keyObject cb) [key p])
        (set_buckets (numOfBuckets t) (<[Z.to_nat i := pre ++ post]> (bucketArray t)) t)))).
    destruct (drop_ok t t1 (Z.to_nat i) pre p post rest) as (Hok1 & Hs1 & Hc1); try done.
    { unfold pairs, t1. simpl. by rewrite Hr', <- app_assoc. }
    { subst t1. simpl. rewrite usize_id; lia. }
    destruct (rehash_if (float_gt (lowerRehashThreshold t1) (float_of 0))
      (float_gt (lowerRehashThreshold t1) (load_factor t1)) t1 Hok1 ltac:(lia))
      as (t2 & E2 & Hok2 & Hc2 & Hs2 & Hl2 & _).
    exists true, t2. split; [exact E2|]. split; [constructor; try done; [lia|by rewrite Ebz]|].
    split; [done|]. split; [by rewrite Hc2, Hc1, Hcp|done].
Qed.

Lemma get_pair_ok k t :
  table_ok t ->
  exists r, HashTable_Get cb k t = Ret r t /\
    (k <> 0 -> contents t !! cls k = match r with
                          | Some p => if markedForRemove p then None else Some (vcls (value p))
                          | None => None end) /\ (k = 0 -> r = None).
Proof.
  intros Hok. unfold HashTable_Get. zcase; [by exists None; split_and!|].
  destruct (search_ok k t Hok) as (b & rest & Eb & Hi & Hr & Hr' & Hloc); [lia|].
  rewrite (bind_ret_eq _ _ _ _ _ Eb). eexists. split; [reflexivity|]. split; [|lia]. intros _.
  destruct (locate cb k b) as [pre [|p post]]; simpl.
  - by apply cont_none.
  - destruct Hloc as [-> <-]. eapply cont_lookup; [done|].
    rewrite Hr, <- app_assoc. simpl. by rewrite <- Permutation_middle.
Qed.

Lemma table_set_item_ok k v t :
  table_ok t -> k <> 0 -> v <> 0 ->
  exists r t', HashTable_SetItemValue cb k v t = Ret r t' /\ served t t' /\
    r = bool_decide (is_Some (contents t !! cls k)) /\
    contents t' = if r then <[cls k := vcls v]> (contents t) else contents t.
Proof.
  intros Hok Hk Hv. destruct (search_ok k t Hok Hk) as (b & rest & Eb & Hi & Hr & Hr' & Hloc).
  unfold HashTable_SetItemValue. rewrite (proj2 (Z.eqb_neq k 0)) by done. rewrite (bind_ret_eq _ _ _ _ _ Eb).
  destruct (locate cb k b) as [pre [|p post]].
  { pose proof (cont_none _ _ Hloc) as Hnone. fold (contents t) in Hnone.
    exists false, t. split; [done|]. split; [by apply served_same|]. by rewrite Hnone. }
  destruct Hloc as [-> Hcp]. set (i := hash cb k mod numOfBuckets t) in *.
  assert (HL : pairs t ≡ₚ p :: (pre ++ post ++ rest)).
  { rewrite Hr, <- app_assoc. simpl. by rewrite <- Permutation_middle. }
  pose proof (cont_lookup t p _ Hok HL) as Hlook. rewrite Hcp in Hlook. rewrite Hlook.
  destruct (markedForRemove p) eqn:Hm.
  { exists false, t. split; [done|]. by split; [apply served_same|]. }
  pose proof (key_nonnull t p ltac:(done) ltac:(rewrite HL; apply list_elem_of_here)) as Hkp.
  set (p' := mkPair (addr p) (key p) (stored (valueObject cb) v) (markedForRemove p)).
  set (t3 := set_buckets (numOfBuckets t) (<[Z.to_nat i := pre ++ p' :: post]> (bucketArray t))
    (dispose (released (valueObject cb) [value p]) t)).
  exists true, t3. split; [done|].
  destruct (swap_ok t t3 (Z.to_nat i) pre p post p' (pre ++ post ++ rest)) as (Hok3 & Hg3 & Hs3 & Hc3); try done.
  - unfold pairs, t3. simpl. rewrite Hr', <- app_assoc. simpl. by rewrite <- Permutation_middle.
  - simpl. unfold count, unmarked. simpl. lia.
  - simpl. unfold count. simpl. lia.
  - split; [constructor; try done; lia|]. rewrite Hc3. simpl. rewrite Hm, Hcp, stored_vcls by done. done.
Qed.

(** ** Clearing and listing *)

Lemma clear_chain_ok b : forall t, exists d, clear_chain cb 0 b t = Ret tt (dispose d t).
Proof.
  induction b as [|p b IH]; intros t; simpl; [exists []; by rewrite dispose_nil|].
  unfold disposePair, disposeKey, disposeValue. rewrite bind_assoc, !modify_bind, dispose_app.
  destruct (IH (dispose (released (keyObject cb) [key p] ++ released (valueObject cb) [value p]) t)) as [d E].
  rewrite E. eexists. by rewrite dispose_app.
Qed.

Lemma clear_buckets_ok bs : forall pre t,
  bucketArray t = pre ++ bs ->
  exists d, clear_buckets cb 0 (zlen pre) bs t =
    Ret tt (dispose d (set_buckets (numOfBuckets t) (pre ++ replicate (length bs) []) t)).
Proof.
  induction bs as [|b bs IH]; intros pre t E; simpl.
  { exists []. rewrite dispose_nil, <- E. by destruct t. }
  destruct (clear_chain_ok b t) as [d1 E1]. rewrite (bind_ret_eq _ _ _ _ _ E1).
  unfold set_bucket. rewrite modify_bind. simpl.
  destruct (IH (pre ++ [[]]) (set_buckets (numOfBuckets t) (<[Z.to_nat (zlen pre) := []]> (bucketArray t)) (dispose d1 t)))
    as [d2 E2].
  { simpl. rewrite E. replace (Z.to_nat (zlen pre)) with (length pre) by (unfold zlen; lia).
    rewrite <- (Nat.add_0_r (length pre)), insert_app_r. by rewrite <- app_assoc. }
  rewrite zlen_app in E2. change (zlen [[]]) with 1 in E2. rewrite E2. simpl.
  exists (d1 ++ d2). unfold dispose, set_buckets. simpl. by rewrite <- !app_assoc.
Qed.

Lemma concat_replicate_nil {A} n : concat (replicate n (@nil A)) = [].
Proof. induction n; simpl; auto. Qed.

Lemma none_marked l :
  Forall (fun p => markedForRemove p = false) l <-> List.filter markedForRemove l = [].
Proof.
  split.
  - induction 1 as [|p l Hp Hl IH]; simpl; [done|]. by rewrite Hp.
  - induction l as [|p l IH]; simpl; [by constructor|].
    destruct (markedForRemove p) eqn:E; [done|]. intros. constructor; auto.
Qed.

Lemma table_clear_ok t :
  table_ok t -> busy t = false ->
  exists t', HashTable_Clear cb t = Ret tt t' /\ table_ok t' /\ contents t' = ∅ /\
    zlen (pairs t') = 0 /\ foreachRecursionLevel t' = foreachRecursionLevel t.
Proof.
  intros Hok Hbz. pose proof Hok as [Hb Hpos Hpl Hpa Hc Hpe Hm Hr].
  assert (Hl : foreachRecursionLevel t = 0) by (unfold busy in Hbz; lia).
  unfold HashTable_Clear. rewrite get_bind, Hl.
  destruct (clear_buckets_ok (bucketArray t) [] t eq_refl) as [d E].
  change (zlen []) with 0 in E. rewrite (bind_ret_eq _ _ _ _ _ E), modify_bind. simpl.
  set (t1 := set_counts _ _ _).
  assert (Hp1 : pairs t1 = []) by (unfold pairs, t1; simpl; apply concat_replicate_nil).
  assert (Hok1 : table_ok t1).
  { constructor; try done; rewrite ?Hp1; try done.
    - unfold t1, zlen in *. simpl. by rewrite length_replicate.
    - intros i b p Hi Hp. apply lookup_replicate in Hi as [-> _]. by apply not_elem_of_nil in Hp.
    - constructor; simpl; constructor.
    - unfold t1. simpl. by rewrite Hpe, (proj1 (none_marked _) (Hm Hl)). }
  destruct (rehash_ok 5 t1 Hok1) as (t2 & E2 & Hok2 & Hc2 & Hp2 & Hl2); [by rewrite Hp1|by right|].
  rewrite Hp1 in Hp2. exists t2. split; [exact E2|]. split_and!; try done.
  - rewrite Hc2. unfold contents. by rewrite Hp1.
  - by rewrite (zlen_perm _ _ Hp2).
  - rewrite Hl2. exact Hl.
Qed.

Lemma keys_classes t :
  table_ok t -> map cls (map key (List.filter unmarked (pairs t))) ≡ₚ (map_to_list (contents t)).*1.
Proof.
  intros Hok. destruct (ok_pairs t Hok) as [Hn _ _ _]. unfold contents, cont.
  rewrite map_to_list_to_map by (by apply live_classes).
  match goal with |- ?x ≡ₚ ?y => assert (x = y) as ->; [|done] end. clear Hn.
  induction (pairs t) as [|p l IH]; simpl; [done|]. destruct (unmarked p); simpl; by rewrite ?IH.
Qed.

Lemma get_keys_ok t :
  table_ok t -> zlen (pairs t) < 2 ^ 32 ->
  exists r, HashTable_GetKeys t = Ret r t /\
    match r with
    | (n, Some keys) => n = Z.of_nat (size (contents t)) /\ map cls keys ≡ₚ (map_to_list (contents t)).*1
    | (n, None) => n = 0 /\ (contents t = ∅ \/ exists k, malloc_ok k = false)
    end.
Proof.
  intros Hok Hsz. pose proof (ok_count t Hok) as Hc. pose proof (cont_size (pairs t)) as Hs.
  rewrite <- Hc in Hs. specialize (Hs ltac:(by destruct (ok_pairs t Hok))). fold (contents t) in Hs.
  unfold HashTable_GetKeys. rewrite get_bind. zcase.
  { eexists. split; [reflexivity|]. split; [done|]. left. apply map_size_empty_inv. lia. }
  destruct (malloc_ok (8 * numOfElements t)) eqn:Em; simpl; [|by eexists; split; [reflexivity|split; [done|right; eauto]]].
  fold (pairs t). set (keys := map key _).
  assert (Hk : zlen keys = numOfElements t) by (rewrite Hc; unfold keys, zlen; by rewrite length_map).
  rewrite Hk, Z.ltb_irrefl, Z.sub_diag. eexists. split; [reflexivity|]. split; [done|].
  change (zrepeat 0 0) with (@nil Z). rewrite app_nil_r. by apply keys_classes.
Qed.

Lemma contains_ok k t :
  table_ok t -> k <> 0 ->
  HashTable_Contains cb k t = Ret (bool_decide (is_Some (contents t !! cls k))) t.
Proof.
  intros Hok Hk. unfold HashTable_Contains. destruct (get_pair_ok k t Hok) as (r & E & Hr & _).
  rewrite (bind_ret_eq _ _ _ _ _ E), (Hr Hk). destruct r as [p|]; [|done].
  unfold unmarked. by destruct (markedForRemove p).
Qed.

(** ** Visiting

    The rule for [HashTable_Foreach]: [P] holds of the visited addresses and the table and is
    kept by each call; pairs may be marked and put in front, but not taken out. *)

Section Visiting.
Context (fn : Z -> Z -> M wHashTable bool) (P : list Z -> wHashTable -> Prop).
Context (P_ok : forall done t, P done t -> table_ok t).
Context (P_step : forall done t p, P done t -> p ∈ pairs t ->
  exists t', (if markedForRemove p then mret true else fn (key p) (value p)) t = Ret true t' /\
    P (addr p :: done) t' /\ grows t t').

Lemma chain_from_split pre p suf :
  NoDup (map addr (pre ++ p :: suf)) -> chain_from (addr p) (pre ++ p :: suf) = p :: suf.
Proof.
  induction pre as [|q pre IH]; simpl; intros Hn.
  - by rewrite Z.eqb_refl.
  - rewrite (proj2 (Z.eqb_neq (addr q) (addr p))); [by apply IH, (NoDup_cons_1_2 _ _ Hn)|].
    intros E. apply NoDup_cons_1_1 in Hn. apply Hn. rewrite E, map_app. simpl.
    apply elem_of_app. right. apply list_elem_of_here.
Qed.

(** Addresses tell where a chain is cut. *)
Lemma cut_chain b x y : map addr b = x ++ y -> exists pre suf, b = pre ++ suf /\ map addr pre = x /\ map addr suf = y.
Proof. intros E. apply map_eq_app in E as (pre & suf & -> & <- & <-). by exists pre, suf. Qed.

Lemma chain_nodup t i b : table_ok t -> bucketArray t !! i = Some b -> NoDup (map addr b).
Proof.
  intros Hok Hi. destruct (concat_insert _ _ _ Hi) as (rest & Hr & _).
  destruct (ok_pairs t Hok) as [_ Hn _ _]. unfold pairs in Hn.
  rewrite (Permutation_map addr Hr), map_app in Hn. eapply sublist_NoDup; [exact Hn|]. by apply sublist_inserts_r.
Qed.

Lemma chain_in_pairs t i b p : bucketArray t !! i = Some b -> p ∈ b -> p ∈ pairs t.
Proof.
  intros Hi Hp. unfold pairs. apply list_elem_of_In, in_concat. exists b.
  split; apply list_elem_of_In; [|done]. by eapply list_elem_of_lookup_2.
Qed.

Lemma grows_chain t t' i b :
  grows t t' -> bucketArray t !! i = Some b ->
  exists b' new, bucketArray t' !! i = Some b' /\ map addr b' = new ++ map addr b.
Proof.
  intros [_ Hg] Hi. destruct (Forall2_lookup_l _ _ _ _ _ Hg Hi) as (b' & Hi' & new & E). eauto.
Qed.

Lemma visit_chain_ok addrs : forall fuel i t done b pre,
  P done t -> bucketArray t !! i = Some b -> map addr b = pre ++ addrs -> (length addrs <= fuel)%nat ->
  exists t', visit_chain fn fuel i (head addrs) t = Ret true t' /\ P (rev addrs ++ done) t' /\ grows t t'.
Proof.
  induction addrs as [|a addrs IH]; intros fuel i t done b pre HP Hi Hb Hf.
  { exists t. split; [by destruct fuel|]. split; [done|apply grows_refl]. }
  destruct fuel as [|fuel]; [simpl in Hf; lia|]. cbn [visit_chain head].
  destruct (cut_chain b pre (a :: addrs) Hb) as (bpre & bsuf & -> & <- & Hsuf).
  destruct bsuf as [|p bsuf]; [done|]. injection Hsuf as <- Hsuf.
  pose proof (chain_nodup t i _ (P_ok _ _ HP) Hi) as Hn. rewrite get_bind.
  unfold chain_at at 1. rewrite Hi. cbn [from_option]. unfold id. rewrite chain_from_split by done.
  destruct (P_step done t p HP) as (t1 & E1 & HP1 & Hg1).
  { eapply chain_in_pairs; [done|]. apply elem_of_app. right. apply list_elem_of_here. }
  rewrite (bind_ret_eq _ _ _ _ _ E1). cbn [negb]. rewrite get_bind.
  destruct (grows_chain t t1 i _ Hg1 Hi) as (b' & new & Hi' & Eb').
  rewrite map_app, app_assoc in Eb'. simpl in Eb'. rewrite Hsuf in Eb'.
  destruct (cut_chain b' (new ++ map addr bpre) (addr p :: addrs) Eb') as (pre' & suf' & -> & Hpre' & Hsuf').
  destruct suf' as [|p' suf']; [done|]. injection Hsuf' as Ep' Hsuf'.
  pose proof (chain_nodup t1 i _ (P_ok _ _ HP1) Hi') as Hn'.
  unfold chain_at. rewrite Hi'. cbn [from_option]. unfold id. rewrite <- Ep', chain_from_split by done.
  replace (addr <$> head suf') with (head addrs) by (rewrite <- Hsuf'; by destruct suf').
  destruct (IH fuel i t1 (addr p :: done) _ (new ++ map addr bpre ++ [addr p]) HP1 Hi') as (t2 & E2 & HP2 & Hg2).
  { rewrite map_app. simpl. rewrite Hpre', Ep', Hsuf', <- !app_assoc. done. }
  { simpl in Hf. lia. }
  exists t2. split; [done|]. split; [|by eapply grows_trans]. simpl. rewrite <- app_assoc, ?Ep'. exact HP2.
Qed.

(** Everything from a bucket on is visited. *)
Lemma visit_buckets_ok fuel : forall i t done,
  P done t -> (i + fuel = length (bucketArray t))%nat ->
  exists t' done', visit_buckets fn fuel i t = Ret true t' /\ P done' t' /\ grows t t' /\
    (forall a, a ∈ done -> a ∈ done') /\
    (forall j b p, (i <= j)%nat -> bucketArray t !! j = Some b -> p ∈ b -> addr p ∈ done').
Proof.
  induction fuel as [|fuel IH]; intros i t done HP Hi.
  - pose proof (ok_buckets t (P_ok _ _ HP)) as Hb. exists t, done. split_and!; try done.
    + simpl. rewrite get_bind, (proj2 (Z.ltb_ge _ _)) by (unfold zlen in Hb; lia). done.
    + apply grows_refl.
    + intros j b p Hj Hb' _. apply lookup_lt_Some in Hb'. lia.
  - pose proof (ok_buckets t (P_ok _ _ HP)) as Hb. cbn [visit_buckets].
    rewrite get_bind, (proj2 (Z.ltb_lt _ _)) by (unfold zlen in Hb; lia).
    destruct (lookup_lt_is_Some_2 (bucketArray t) i) as [b Eb]; [lia|]. rewrite Eb.
    destruct (visit_chain_ok (map addr b) (length b) i t done b [] HP Eb eq_refl) as (t1 & E1 & HP1 & Hg1).
    { by rewrite length_map. }
    replace (addr <$> head b) with (head (map addr b)) by (by destruct b).
    rewrite (bind_ret_eq _ _ _ _ _ E1). cbn [negb].
    destruct (IH (S i) t1 (rev (map addr b) ++ done) HP1) as (t2 & done' & E2 & HP2 & Hg2 & Hold & Hnew).
    { destruct Hg1 as [_ Hg1]. rewrite <- (Forall2_length Hg1). lia. }
    exists t2, done'. split_and!; try done; [by eapply grows_trans| |].
    + intros a Ha. apply Hold, elem_of_app. by right.
    + intros j c p Hj Ec Hp. destruct (decide (j = i)) as [->|Hne].
      * rewrite Eb in Ec. injection Ec as ->. apply Hold, elem_of_app. left.
        apply list_elem_of_In, in_rev. rewrite rev_involutive. apply list_elem_of_In. by apply list_elem_of_fmap_2.
      * destruct (grows_chain t t1 j c Hg1 Ec) as (c' & new & Ec' & Eaddr).
        assert (Ha : addr p ∈ map addr c') by (rewrite Eaddr; apply elem_of_app; right; by apply list_elem_of_fmap_2).
        apply list_elem_of_fmap in Ha as (p' & -> & Hp'). apply (Hnew j c'); [lia|done|done].
Qed.
End Visiting.

Lemma clean_chain_ok b : forall t, exists d, clean_chain cb b t = Ret (List.filter unmarked b) (dispose d t).
Proof.
  induction b as [|p b IH]; intros t; simpl; [exists []; by rewrite dispose_nil|].
  unfold unmarked at 1. destruct (markedForRemove p); simpl.
  - unfold disposePair, disposeKey, disposeValue. rewrite bind_assoc, !modify_bind, dispose_app.
    destruct (IH (dispose (released (keyObject cb) [key p] ++ released (valueObject cb) [value p]) t)) as [d E].
    rewrite E. eexists. by rewrite dispose_app.
  - destruct (IH t) as [d E]. rewrite (bind_ret_eq _ _ _ _ _ E). by exists d.
Qed.

Lemma clean_buckets_ok bs : forall t,
  exists d, clean_buckets cb bs t = Ret (map (List.filter unmarked) bs) (dispose d t).
Proof.
  induction bs as [|b bs IH]; intros t; simpl; [exists []; by rewrite dispose_nil|].
  destruct (clean_chain_ok b t) as [d1 E1]. rewrite (bind_ret_eq _ _ _ _ _ E1).
  destruct (IH (dispose d1 t)) as [d2 E2]. rewrite (bind_ret_eq _ _ _ _ _ E2).
  exists (d1 ++ d2). by rewrite dispose_app.
Qed.

Lemma filter_concat {A} (f : A -> bool) bs : concat (map (List.filter f) bs) = List.filter f (concat bs).
Proof. induction bs as [|b bs IH]; simpl; [done|]. by rewrite IH, List.filter_app. Qed.

Lemma filter_unmarked_ok h l : pairs_ok h l -> pairs_ok h (List.filter unmarked l).
Proof.
  assert (Hsub : forall {A} (g : wKeyValuePair -> A), sublist (map g (List.filter unmarked l)) (map g l)).
  { intros A g. induction l as [|p l IH]; simpl; [constructor|]. destruct (unmarked p); simpl; by constructor. }
  assert (Hall : forall (Q : wKeyValuePair -> Prop), Forall Q l -> Forall Q (List.filter unmarked l)).
  { intros Q HQ. apply Forall_forall. intros p Hp. apply filter_In in Hp as [Hp _].
    rewrite Forall_forall in HQ. auto. }
  intros [H1 H2 H3 H4]. constructor; [by eapply sublist_NoDup|by eapply sublist_NoDup| |]; auto.
Qed.

Lemma filter_filter {A} (f : A -> bool) l : List.filter f (List.filter f l) = List.filter f l.
Proof. induction l as [|x l IH]; simpl; [done|]. destruct (f x) eqn:E; simpl; by rewrite ?E, ?IH. Qed.

Lemma unmarked_filter l : Forall (fun p => markedForRemove p = false) (List.filter unmarked l).
Proof.
  apply Forall_forall. intros p Hp. apply filter_In in Hp as [_ Hp]. unfold unmarked in Hp.
  by destruct (markedForRemove p).
Qed.

(** The end of the outermost visit: the marked pairs go. *)
Lemma clean_ok t d l :
  table_ok t ->
  let t' := set_counts (numOfElements t) 0
              (set_buckets (numOfBuckets t) (map (List.filter unmarked) (bucketArray t))
                (dispose d (set_level l t))) in
  table_ok t' /\ contents t' = contents t /\ zlen (pairs t') <= zlen (pairs t).
Proof.
  intros [Hb Hpos Hpl Hpa Hc Hpe Hm Hr] t'.
  assert (Hp : pairs t' = List.filter unmarked (pairs t)) by apply filter_concat.
  split_and!.
  - constructor; try done; rewrite ?Hp.
    + unfold t', zlen in *. simpl. by rewrite length_map.
    + intros i b p Hi Hin. unfold t' in Hi. simpl in Hi. apply list_lookup_fmap_Some in Hi as (b0 & -> & Hi).
      apply list_elem_of_In, filter_In in Hin as [Hin _]. by eapply Hpl; [|apply list_elem_of_In].
    + by apply filter_unmarked_ok.
    + by rewrite filter_filter.
    + by rewrite (proj1 (none_marked _) (unmarked_filter _)).
    + intros _. apply unmarked_filter.
  - unfold contents, cont. by rewrite Hp, filter_filter.
  - rewrite Hp. unfold zlen. pose proof (filter_length_le unmarked (pairs t)). lia.
Qed.

Lemma level_ok t l :
  table_ok t -> (l = 0 -> Forall (fun p => markedForRemove p = false) (pairs t)) -> table_ok (set_level l t).
Proof. intros [] Hl. by constructor. Qed.

(** A visit that is not left early ends, keeps the map as the callbacks left it, and leaves no
    marked pair behind once it is the outermost one. *)
Lemma table_foreach_ok (fn : Z -> Z -> M wHashTable bool) (P : list Z -> wHashTable -> Prop) t :
  table_ok t -> 0 <= foreachRecursionLevel t < 2 ^ 32 - 1 ->
  (forall done t', P done t' -> table_ok t' /\ foreachRecursionLevel t' = foreachRecursionLevel t + 1) ->
  (forall done t' p, P done t' -> p ∈ pairs t' ->
     exists t2, (if markedForRemove p then mret true else fn (key p) (value p)) t' = Ret true t2 /\
       P (addr p :: done) t2 /\ grows t' t2) ->
  P [] (set_level (foreachRecursionLevel t + 1) t) ->
  exists t' t1 done, HashTable_Foreach cb fn t = Ret true t' /\ P done t1 /\
    (forall p, p ∈ pairs t -> addr p ∈ done) /\ table_ok t' /\ contents t' = contents t1 /\
    foreachRecursionLevel t' = foreachRecursionLevel t /\ zlen (pairs t') <= zlen (pairs t1).
Proof.
  intros Hok Hlv HPok HPstep HP. unfold HashTable_Foreach. rewrite modify_bind.
  replace (u32 (foreachRecursionLevel t + 1)) with (foreachRecursionLevel t + 1) by (unfold u32; word_lia).
  set (t0 := set_level (foreachRecursionLevel t + 1) t) in *. rewrite get_bind.
  destruct (visit_buckets_ok fn P (fun d t' H => proj1 (HPok d t' H)) HPstep (length (bucketArray t0)) 0 t0 [] HP eq_refl)
    as (t1 & done & E1 & HP1 & Hg1 & _ & Hall).
  rewrite (bind_ret_eq _ _ _ _ _ E1). cbn [negb]. rewrite modify_bind, get_bind.
  destruct (HPok done t1 HP1) as [Hok1 Hl1].
  replace (u32 (foreachRecursionLevel t1 - 1)) with (foreachRecursionLevel t) by (rewrite Hl1; unfold u32; word_lia).
  set (t2 := set_level (foreachRecursionLevel t) t1).
  assert (Hvis : forall p, p ∈ pairs t -> addr p ∈ done).
  { intros p Hp. destruct (elem_of_pairs p t Hp) as (i & b & Hi & Hpb). apply (Hall i b); [lia|done|done]. }
  destruct ((foreachRecursionLevel t2 =? 0) && negb (pendingRemoves t2 =? 0)) eqn:Ec.
  - destruct (clean_buckets_ok (bucketArray t2) t2) as [d E2]. rewrite bind_assoc.
    rewrite (bind_ret_eq _ _ _ _ _ E2), !bind_assoc, !modify_bind.
    destruct (clean_ok t1 d (foreachRecursionLevel t) Hok1) as (Hok3 & Hc3 & Hs3).
    eexists _, t1, done. split; [reflexivity|]. by split_and!.
  - exists t2, t1, done. split; [done|]. split_and!; try done.
    apply level_ok; [done|]. intros Hl. apply none_marked.
    assert (Hp0 : pendingRemoves t1 = 0) by (subst t2; simpl in Ec; rewrite Hl in Ec; simpl in Ec; lia).
    rewrite (ok_pending t1 Hok1) in Hp0. by apply zlen_zero_inv.
Qed.

(** A callback that removes what is not to be kept, while the table is visited. *)
Definition sweep_fn (keep : K -> V -> bool) (k v : Z) : M wHashTable bool :=
  if keep (cls k) (vcls v) then mret true else HashTable_Remove cb k;; mret true.

(** The keys in the set [ids] that were visited. *)
Definition visited (ids : list (Z * K)) (done : list Z) (c : K) : Prop :=
  exists a, (a, c) ∈ ids /\ a ∈ done.

Definition swept (keep : K -> V -> bool) t (done : list Z) t' : Prop :=
  table_ok t' /\ foreachRecursionLevel t' = foreachRecursionLevel t + 1 /\
  zlen (pairs t') = zlen (pairs t) /\ map ident (pairs t') ≡ₚ map ident (pairs t) /\
  forall c w, contents t' !! c = Some w <->
    contents t !! c = Some w /\ (visited (map ident (pairs t)) done c -> keep c w = true).

Lemma ident_unique t p c : table_ok t -> p ∈ pairs t -> (addr p, c) ∈ map ident (pairs t) -> c = class_of p.
Proof.
  intros Hok Hp Hc. apply list_elem_of_fmap in Hc as (q & [= Ea ->] & Hq).
  destruct (ok_pairs t Hok) as [_ Hn _ _]. f_equal.
  apply list_elem_of_lookup in Hp as [i Hi]. apply list_elem_of_lookup in Hq as [j Hj].
  assert (i = j) as ->; [|congruence].
  eapply (NoDup_lookup (map addr (pairs t))); [done| |]; rewrite list_lookup_fmap.
  - by rewrite Hi.
  - rewrite Hj. simpl. by rewrite Ea.
Qed.

Lemma pair_lookup t p :
  table_ok t -> p ∈ pairs t ->
  contents t !! class_of p = if markedForRemove p then None else Some (vcls (value p)).
Proof.
  intros Hok Hp. apply list_elem_of_split in Hp as (l1 & l2 & E).
  apply (cont_lookup t p (l1 ++ l2) Hok). rewrite E. by rewrite <- Permutation_middle.
Qed.

Lemma sweep_step keep t done t' p :
  0 <= foreachRecursionLevel t -> zlen (pairs t) < 2 ^ 31 -> swept keep t done t' -> p ∈ pairs t' ->
  exists t2, (if markedForRemove p then mret true else sweep_fn keep (key p) (value p)) t' = Ret true t2 /\
    swept keep t (addr p :: done) t2 /\ grows t' t2.
Proof.
  intros Hlv Hsz (Hok & Hl & Hs & Hids & Hc) Hp. pose proof (pair_lookup t' p Hok Hp) as Hlook.
  assert (Hin : (addr p, class_of p) ∈ map ident (pairs t)).
  { rewrite <- Hids. by apply (list_elem_of_fmap_2 ident). }
  assert (Hvis : forall c, visited (map ident (pairs t)) (addr p :: done) c <->
            visited (map ident (pairs t)) done c \/ c = class_of p).
  { intros c. split.
    - intros (a & Ha & [->|Hd]%elem_of_cons); [right|by left; exists a].
      apply (ident_unique t' p c Hok Hp). by rewrite Hids.
    - intros [(a & Ha & Hd)| ->]; [exists a|exists (addr p)]; (split; [done|]); apply elem_of_cons; [by right|by left]. }
  assert (Hkeep : forall w, contents t' !! class_of p = Some w -> keep (class_of p) w = true ->
    swept keep t (addr p :: done) t').
  { intros w Hw Hk. split_and!; try done. intros c w'. rewrite Hc, Hvis. split; [|intros [? Hy]; split; auto].
    intros [H0 H1]. split; [done|]. intros [Hv| ->]; [auto|]. apply Hc in Hw as [Hw _]. congruence. }
  destruct (markedForRemove p) eqn:Em.
  { exists t'. split; [done|]. split; [|apply grows_refl]. split_and!; try done.
    intros c w. rewrite Hc, Hvis. split; [|intros [? Hy]; split; auto]. intros [H0 H1]. split; [done|]. intros [Hv| ->]; [auto|].
    exfalso. assert (contents t' !! class_of p = Some w) by (by apply Hc). congruence. }
  unfold sweep_fn. fold (class_of p). destruct (keep (class_of p) (vcls (value p))) eqn:Ek.
  { exists t'. split; [done|]. split; [by eapply Hkeep|apply grows_refl]. }
  assert (Hbz : busy t' = true) by (unfold busy; rewrite Hl, (proj2 (Z.eqb_neq _ _)); [done|lia]).
  destruct (table_remove_ok (key p) t' Hok ltac:(lia) (key_nonnull t' p Hok Hp)) as (r & t2 & E & Hsv & _ & Hc2 & Hid2).
  { intros _. fold (class_of p). rewrite Hlook. eauto. }
  exists t2. rewrite (bind_ret_eq _ _ _ _ _ E). split; [done|]. destruct Hsv as [Hok2 _ Hl2 Hg2].
  split; [|auto]. split_and!; try done; [congruence| | |].
  - rewrite <- Hs. pose proof (zlen_perm _ _ (Hid2 Hbz)) as Hz. unfold zlen in *. by rewrite !length_map in Hz.
  - etrans; [by apply Hid2|done].
  - intros c w. rewrite Hc2, Hvis. fold (class_of p). destruct (decide (c = class_of p)) as [->|Hne].
    + rewrite lookup_delete_eq. split; [done|]. intros [H0 H1]. specialize (H1 ltac:(by right)).
      exfalso. assert (Hx : contents t' !! class_of p = Some w) by (apply Hc; auto). congruence.
    + rewrite lookup_delete_ne, Hc by done. split; intros [? Hy]; (split; [done|]); [intros [|]; [auto|done]|auto].
Qed.

Lemma sweep_ok keep t :
  table_ok t -> zlen (pairs t) < 2 ^ 31 -> 0 <= foreachRecursionLevel t < 2 ^ 32 - 1 ->
  exists t', HashTable_Foreach cb (sweep_fn keep) t = Ret true t' /\ table_ok t' /\
    foreachRecursionLevel t' = foreachRecursionLevel t /\ zlen (pairs t') <= zlen (pairs t) /\
    contents t' = filter (fun x => keep x.1 x.2 = true) (contents t).
Proof.
  intros Hok Hsz Hlv.
  destruct (table_foreach_ok (sweep_fn keep) (swept keep t) t Hok Hlv) as (t' & t1 & done & E & HP & Hall & Hok' & Hc' & Hl' & Hs').
  - by intros done t' (? & ? & _).
  - intros done t' p HP Hp. apply sweep_step; [lia|done|done|done].
  - split_and!; try done; [apply level_ok; [done|lia]|].
    intros c w. split; [|by intros [? _]]. intros H0. split; [done|]. by intros (a & _ & ?%not_elem_of_nil).
  - destruct HP as (Hok1 & Hl1 & Hs1 & _ & Hc1). exists t'. split_and!; try done; [lia|].
    rewrite Hc'. apply map_eq. intros c. apply option_eq. intros w.
    rewrite Hc1, map_lookup_filter_Some. simpl. split; [|by intros [? ?]]. intros [H0 H1]. split; [done|].
    apply H1. assert (Hcm : c ∈ map class_of (pairs t)).
    { destruct (decide (c ∈ map class_of (pairs t))) as [|Hno]; [done|].
      pose proof (cont_none _ _ Hno) as Hn. fold (contents t) in Hn. congruence. }
    apply list_elem_of_fmap in Hcm as (p & -> & Hp). exists (addr p). split; [|auto].
    by apply (list_elem_of_fmap_2 ident).
Qed.

(** ** Sequences of requests *)

Inductive request :=
| Insert (k v : Z)
| Remove (k : Z)
| GetItemValue (k : Z)
| SetItemValue (k v : Z)
| Contains (k : Z)
| Count
| GetKeys
| Sweep (keep : K -> V -> bool)
| Clear.

Inductive reply :=
| Status (b : bool)
| Object (p : Z)
| Number (n : Z)
| KeyList (n : Z) (keys : option (list Z))
| Done.

Definition table_step (o : request) : M wHashTable reply :=
  match o with
  | Insert k v => b ← HashTable_Insert cb k v; mret (Status b)
  | Remove k => b ← HashTable_Remove cb k; mret (Status b)
  | GetItemValue k => p ← HashTable_GetItemValue cb k; mret (Object p)
  | SetItemValue k v => b ← HashTable_SetItemValue cb k v; mret (Status b)
  | Contains k => b ← HashTable_Contains cb k; mret (Status b)
  | Count => n ← HashTable_Count; mret (Number n)
  | GetKeys => '(n, l) ← HashTable_GetKeys; mret (KeyList n l)
  | Sweep keep => b ← HashTable_Foreach cb (sweep_fn keep); mret (Status b)
  | Clear => HashTable_Clear cb;; mret Done
  end.

(** The specification: a finite map from classes of keys to classes of values. *)
Inductive finite_map : gmap K V -> request -> reply -> gmap K V -> Prop :=
| map_insert m k v : finite_map m (Insert k v) (Status true) (<[cls k := vcls v]> m)
| map_refused m k v n : malloc_ok n = false -> finite_map m (Insert k v) (Status false) m
| map_remove m k :
    finite_map m (Remove k) (Status (bool_decide (is_Some (m !! cls k)))) (delete (cls k) m)
| map_get m k (x : Z) : m !! cls k = Some (vcls x) -> finite_map m (GetItemValue k) (Object x) m
| map_get_none m k : m !! cls k = None -> finite_map m (GetItemValue k) (Object 0) m
| map_set m k v :
    is_Some (m !! cls k) -> finite_map m (SetItemValue k v) (Status true) (<[cls k := vcls v]> m)
| map_set_none m k v : m !! cls k = None -> finite_map m (SetItemValue k v) (Status false) m
| map_contains m k : finite_map m (Contains k) (Status (bool_decide (is_Some (m !! cls k)))) m
| map_count m : finite_map m Count (Number (Z.of_nat (size m))) m
| map_keys m keys :
    map cls keys ≡ₚ (map_to_list m).*1 ->
    finite_map m GetKeys (KeyList (Z.of_nat (size m)) (Some keys)) m
| map_no_keys m : m = ∅ \/ (exists n, malloc_ok n = false) -> finite_map m GetKeys (KeyList 0 None) m
| map_sweep m keep :
    finite_map m (Sweep keep) (Status true) (filter (fun x => keep x.1 x.2 = true) m)
| map_clear m : finite_map m Clear Done ∅.

(** No null keys or values. *)
Definition request_ok (o : request) : Prop :=
  match o with
  | Insert k v | SetItemValue k v => k <> 0 /\ v <> 0
  | Remove k | GetItemValue k | Contains k => k <> 0
  | _ => True
  end.

Definition table_serves (n : nat) t : Prop :=
  table_ok t /\ foreachRecursionLevel t = 0 /\ zlen (pairs t) + Z.of_nat n < 2 ^ 31.

Lemma serves_served n t t' : table_serves (S n) t -> served t t' -> table_serves n t'.
Proof. intros (_ & Hl & Hs) [Hok Hz Hl' _]. split_and!; [done|congruence|lia]. Qed.

Lemma serves_less n t : table_serves (S n) t -> table_serves n t.
Proof. intros (? & ? & ?). split_and!; try done. lia. Qed.

Lemma table_step_ok n o t :
  request_ok o -> table_serves (S n) t ->
  exists a t', table_step o t = Ret a t' /\ table_serves n t' /\ finite_map (contents t) o a (contents t').
Proof.
  intros Ho Hs. pose proof (serves_less n t Hs) as Hless. pose proof Hs as (Hok & Hl & Hsz).
  assert (Hb : busy t = false) by (unfold busy; by rewrite Hl). destruct o; simpl in *.
  - destruct Ho as [Hk Hv]. destruct (table_insert_ok k v t Hok ltac:(lia) Hk Hv) as (r & t' & E & Hsv & Hc).
    rewrite (bind_ret_eq _ _ _ _ _ E). eexists _, t'. split; [reflexivity|].
    split; [by eapply serves_served|]. destruct Hc as [[-> ->]|(-> & Hm & ->)]; [constructor|by eapply map_refused].
  - destruct (table_remove_ok k t Hok ltac:(lia) Ho ltac:(by rewrite Hb)) as (r & t' & E & Hsv & -> & Hc & _).
    rewrite (bind_ret_eq _ _ _ _ _ E). eexists _, t'. split; [reflexivity|].
    split; [by eapply serves_served|]. rewrite Hc. constructor.
  - destruct (get_pair_ok k t Hok) as (r & E & Hr & _). unfold HashTable_GetItemValue. rewrite bind_assoc.
    rewrite (bind_ret_eq _ _ _ _ _ E). specialize (Hr Ho).
    destruct r as [p|]; [destruct (markedForRemove p) eqn:Em|]; eexists _, t; (split; [reflexivity|]);
      (split; [done|]); rewrite ?Em; by constructor.
  - destruct Ho as [Hk Hv]. destruct (table_set_item_ok k v t Hok Hk Hv) as (r & t' & E & Hsv & -> & Hc).
    rewrite (bind_ret_eq _ _ _ _ _ E). eexists _, t'. split; [reflexivity|].
    split; [by eapply serves_served|]. destruct (contents t !! cls k) eqn:El; simpl in Hc; rewrite Hc; constructor; [|done].
    rewrite El. eauto.
  - rewrite (bind_ret_eq _ _ _ _ _ (contains_ok k t Hok Ho)). eexists _, t. split; [reflexivity|].
    split; [done|constructor].
  - eexists _, t. split; [reflexivity|]. split; [done|]. rewrite (ok_count t Hok).
    rewrite <- (cont_size (pairs t)) by (by destruct (ok_pairs t Hok)). constructor.
  - destruct (get_keys_ok t Hok ltac:(lia)) as ([m [keys|]] & E & Hr); rewrite (bind_ret_eq _ _ _ _ _ E);
      eexists _, t; (split; [reflexivity|]); (split; [done|]); destruct Hr as [-> Hr]; by constructor.
  - destruct (sweep_ok keep t Hok ltac:(lia)) as (t' & E & Hok' & Hl' & Hz' & Hc); [rewrite Hl; lia|].
    rewrite (bind_ret_eq _ _ _ _ _ E). eexists _, t'. split; [reflexivity|].
    split; [split_and!; [done|congruence|lia]|]. rewrite Hc. constructor.
  - pose proof (zlen_nonneg (pairs t)). destruct (table_clear_ok t Hok Hb) as (t' & E & Hok' & Hc & Hz & Hl'). rewrite (bind_ret_eq _ _ _ _ _ E).
    eexists _, t'. split; [reflexivity|]. split; [split_and!; [done|congruence|lia]|]. rewrite Hc. constructor.
Qed.

Lemma new_table_ok t : HashTable_New = Ret tt t -> table_ok t /\ foreachRecursionLevel t = 0 /\ pairs t = [] .
Proof.
  unfold HashTable_New. destruct (malloc_ok 152); [|done]. simpl. destruct (malloc_ok (8 * 64)); [|done].
  intros [= <-]. split; [|done]. constructor; try done.
  - intros i b p Hi Hp. apply (lookup_replicate 64) in Hi as [-> _]. by apply not_elem_of_nil in Hp.
  - constructor; simpl; constructor.
Qed.

End Map.

(** ** The two set-ups *)

(** Addresses, as [HashTable_New] leaves it. *)
#[export] Instance pointer_keys : Keys default_callbacks (fun p => p) (fun p => p).
Proof.
  constructor; try done.
  - intros a b _. simpl. by destruct (Z.eqb_spec a b), (bool_decide_reflect (a = b)).
  - by intros a b ->.
  - intros a. simpl. unfold HashTable_PointerHash. apply Z.shiftr_nonneg. unfold u32. word_lia.
Qed.

(** Strings, compared by their contents, provided copies of strings can be made. *)
Definition string_class (mem : Z -> list Z) (p : Z) : option (list Z) :=
  if p =? 0 then None else Some (mem p).

Lemma string_keys mem clone cb :
  (forall p, p <> 0 -> clone p <> 0 /\ mem (clone p) = mem p) ->
  Keys (HashTable_SetupForStringData mem clone true cb) (string_class mem) (string_class mem).
Proof.
  intros Hclone.
  assert (Hc : forall p, p <> 0 -> string_class mem (clone p) = string_class mem p).
  { intros p Hp. destruct (Hclone p Hp) as [Hn He]. unfold string_class. by rewrite !(proj2 (Z.eqb_neq _ _)), He. }
  constructor; simpl; auto.
  - intros a b Ha. unfold HashTable_StringCompare, string_class. rewrite (proj2 (Z.eqb_neq a 0) Ha). simpl.
    destruct (Z.eqb_spec b 0) as [->|]; [by rewrite (proj2 (Z.eqb_neq a 0) Ha)|].
    apply bool_decide_ext. split; congruence.
  - intros a b. unfold string_class, HashTable_StringHash.
    destruct (Z.eqb_spec a 0), (Z.eqb_spec b 0); congruence.
  - intros a. unfold HashTable_StringHash. assert (Hf : forall s h, 0 <= h -> 0 <= foldl (fun h c => u32 (u32 (h * 33) + c)) h s).
    { induction s as [|c s IH]; intros h Hh; [done|]. apply IH. unfold u32. by apply Z.mod_pos_bound. }
    by apply Hf.
  - intros p Hp. by apply Hclone.
Qed.

(** ** Examples *)

#[local] Existing Instance alloc_always.

Definition new_table : wHashTable :=
  mkTable 64 0 (float_of 3) (float_of 0) (float_of 15) (replicate 64 []) 0 0 1 [].

(** Enough insertions for the array to be rebuilt, then a sweep. *)
Definition requests1000 : list (@request Z Z) :=
  map (fun k => Insert (16 * k) k) (seqZ 1 1000) ++
  [Count; Contains 16000; Remove 16; GetItemValue 320; SetItemValue 320 7; GetItemValue 320;
   Sweep (fun _ v => v <? 4); Count; GetKeys; Clear; Count].


(** ** Where the table is not a map *)

(** Clearing the table from inside a visit never ends. *)
Lemma clear_in_foreach_diverges :
  exists t, HashTable_Insert default_callbacks 16 1 new_table = Ret true t /\
    HashTable_Foreach default_callbacks (fun _ _ => HashTable_Clear default_callbacks;; mret true) t =
    Crash Diverges.
Proof. eexists. split; [vm_compute; reflexivity|]. by vm_compute. Qed.

(** A visit that the callback stops leaves its level behind.  From then on removals only mark,
    so the objects are never freed, a second removal of the same key succeeds again, and the
    number of elements wraps around. *)
Lemma stopped_foreach_keeps_pairs :
  exists t, session (St := wHashTable)
    (fun m : M wHashTable bool => m)
    [HashTable_Insert default_callbacks 16 1; HashTable_Foreach default_callbacks (fun _ _ => mret false);
     HashTable_Remove default_callbacks 16; HashTable_Remove default_callbacks 16] new_table =
    Ret [true; false; true; true] t /\
  zlen (concat (bucketArray t)) = 1 /\ HashTable_Count t = Ret (2 ^ 64 - 1) t.
Proof. eexists. split; [vm_compute; reflexivity|]. by vm_compute. Qed.

(** The search for a value compares with the keys. *)
Lemma contains_value_looks_at_keys :
  exists t, HashTable_Insert default_callbacks 16 1 new_table = Ret true t /\
    HashTable_ContainsValue default_callbacks 1 t = Ret false t /\
    HashTable_ContainsValue default_callbacks 16 t = Ret true t.
Proof. eexists. split; [vm_compute; reflexivity|]. by vm_compute. Qed.
