(* ===== verification/Unicode.v ===== *)
(** * Conversion between UTF-8 and UTF-16

    Model of [winpr/libwinpr/crt/unicode_builtin.c], the converter of builds without ICU, and
    of the string functions of [winpr/libwinpr/crt/unicode.c] on top of it.  Units are numbers
    below 256 and 65536; the platform is little endian, so [setWcharFrom] is the identity.

    The internal converters return what is left of the source, how far the target pointer
    went, and the units they stored; without room ([None], a target end of [NULL]) they only
    count.  Their fuel is the length of the source. *)

From S2P Require Import Prelude.

Definition UNI_REPLACEMENT_CHAR : Z := 0xFFFD.
Definition UNI_MAX_BMP : Z := 0xFFFF.
Definition UNI_MAX_UTF16 : Z := 0x10FFFF.
Definition halfShift : Z := 10.
Definition halfBase : Z := 0x10000.
Definition halfMask : Z := 0x3FF.
Definition UNI_SUR_HIGH_START : Z := 0xD800.
Definition UNI_SUR_HIGH_END : Z := 0xDBFF.
Definition UNI_SUR_LOW_START : Z := 0xDC00.
Definition UNI_SUR_LOW_END : Z := 0xDFFF.

Inductive ConversionResult := conversionOK | sourceExhausted | targetExhausted | sourceIllegal.

#[global] Instance ConversionResult_eq_dec : EqDecision ConversionResult.
Proof. solve_decision. Defined.

Inductive ConversionFlags := strictConversion | lenientConversion.

Definition is_strict (f : ConversionFlags) : bool :=
  match f with strictConversion => true | lenientConversion => false end.

Definition trailingBytesForUTF8 : list Z :=
  replicate 192 0 ++ replicate 32 1 ++ replicate 16 2 ++ replicate 8 3 ++ replicate 4 4 ++
  replicate 4 5.

Definition offsetsFromUTF8 : list Z :=
  [0x00000000; 0x00003080; 0x000E2080; 0x03C82080; 0xFA082080; 0x82082080].

Definition firstByteMark : list Z := [0x00; 0x00; 0xC0; 0xE0; 0xF0; 0xF8; 0xFC].

Definition in_range (a b c : Z) : bool := (a <=? c) && (c <=? b).

(** Result, source that is left, offset of the target, units stored. *)
Definition converted : Type := ConversionResult * list Z * Z * list Z.

Definition stop (r : ConversionResult) (src : list Z) (target : Z) : converted := (r, src, target, []).

(** The units [us] were stored, or only counted, before [c]. *)
Definition after (room : option Z) (us : list Z) (c : converted) : converted :=
  let '(r, s, t, out) := c in (r, s, t, match room with Some _ => us ++ out | None => out end).

(** ** From UTF-16 to UTF-8 *)

(** The next character and the rest of the source, or the reason to stop. *)
Definition read_utf16 (flags : ConversionFlags) (source : list Z) : ConversionResult + Z * list Z :=
  match source with
  | [] => inl sourceExhausted
  | ch :: rest =>
      if in_range UNI_SUR_HIGH_START UNI_SUR_HIGH_END ch then
        match rest with
        | ch2 :: rest' =>
            if in_range UNI_SUR_LOW_START UNI_SUR_LOW_END ch2 then
              inr (u32 (Z.shiftl (ch - UNI_SUR_HIGH_START) halfShift + (ch2 - UNI_SUR_LOW_START) +
                        halfBase), rest')
            else if is_strict flags then inl sourceIllegal
            else inr (ch, rest)
        | [] => inl sourceExhausted
        end
      else if is_strict flags && in_range UNI_SUR_LOW_START UNI_SUR_LOW_END ch then inl sourceIllegal
      else inr (ch, rest)
  end.

(** [bytesToWrite] and the character, which may be replaced. *)
Definition bytes_to_write (ch : Z) : nat * Z :=
  if ch <? 0x80 then (1%nat, ch)
  else if ch <? 0x800 then (2%nat, ch)
  else if ch <? 0x10000 then (3%nat, ch)
  else if ch <? 0x110000 then (4%nat, ch)
  else (3%nat, UNI_REPLACEMENT_CHAR).

(** The cases that fall through: the last [k] bytes, and what is left for the first. *)
Fixpoint put_tail (k : nat) (ch : Z) (tl : list Z) : Z * list Z :=
  match k with
  | O => (ch, tl)
  | S k' => put_tail k' (Z.shiftr ch 6) (u8 (Z.land (Z.lor ch 0x80) 0xBF) :: tl)
  end.

Definition put_bytes (n : nat) (ch : Z) : list Z :=
  let '(ch, tl) := put_tail (n - 1) ch [] in u8 (Z.lor ch (nth n firstByteMark 0)) :: tl.

Definition beyond (room : option Z) (target : Z) : bool :=
  match room with Some r => r <? target | None => false end.

(** The bytes of a character, or the reason to stop, which depends on the room. *)
Definition bytes_of (room : option Z) (target ch : Z) : ConversionResult + list Z :=
  let '(n, ch) := bytes_to_write ch in
  if beyond room (target + Z.of_nat n) then inl targetExhausted else inr (put_bytes n ch).

(** The loop of both converters: [rd] takes a character from the source, [emit] makes its
    units; the source pointer is not moved past a character that stops the loop. *)
Fixpoint convert_loop (rd : list Z -> ConversionResult + Z * list Z)
    (emit : option Z -> Z -> Z -> ConversionResult + list Z) (fuel : nat) (room : option Z)
    (target : Z) (source : list Z) : converted :=
  match source, fuel with
  | [], _ => stop conversionOK [] target
  | _, O => stop sourceIllegal source target
  | _, S fuel' =>
      match rd source with
      | inl r => stop r source target
      | inr (ch, rest) =>
          match emit room target ch with
          | inl r => stop r source target
          | inr us => after room us (convert_loop rd emit fuel' room (target + zlen us) rest)
          end
      end
  end.

Definition winpr_ConvertUTF16toUTF8_Internal (fuel : nat) (flags : ConversionFlags)
    (room : option Z) (target : Z) (source : list Z) : converted :=
  convert_loop (read_utf16 flags) bytes_of fuel room target source.

(** ** From UTF-8 to UTF-16 *)

(** The checks fall through from the last byte to the first. *)
Definition isLegalUTF8 (source : list Z) (length : Z) : bool :=
  let byte i := nth (Z.to_nat i) source 0 in
  let continuation i := in_range 0x80 0xBF (byte i) in
  let second :=
    let a := byte 1 in
    (a <=? 0xBF) &&
    (if byte 0 =? 0xE0 then 0xA0 <=? a
     else if byte 0 =? 0xED then a <=? 0x9F
     else if byte 0 =? 0xF0 then 0x90 <=? a
     else if byte 0 =? 0xF4 then a <=? 0x8F
     else 0x80 <=? a) in
  let first := negb (in_range 0x80 0xC1 (byte 0)) && (byte 0 <=? 0xF4) in
  if length =? 4 then continuation 3 && continuation 2 && second && first
  else if length =? 3 then continuation 2 && second && first
  else if length =? 2 then second && first
  else if length =? 1 then first
  else false.

(** [ch += *source++; ch <<= 6;] for all but the last byte *)
Fixpoint gather (ch : Z) (bs : list Z) : Z :=
  match bs with
  | [] => ch
  | [b] => u32 (ch + b)
  | b :: rest => gather (u32 (Z.shiftl (u32 (ch + b)) 6)) rest
  end.

(** The next character and the rest of the source, or the reason to stop. *)
Definition read_utf8 (source : list Z) : ConversionResult + Z * list Z :=
  let extraBytesToRead := nth (Z.to_nat (nth 0 source 0)) trailingBytesForUTF8 0 in
  if zlen source <=? extraBytesToRead then inl sourceExhausted
  else if negb (isLegalUTF8 source (extraBytesToRead + 1)) then inl sourceIllegal
  else
    inr (u32 (gather 0 (ztake (extraBytesToRead + 1) source) -
              nth (Z.to_nat extraBytesToRead) offsetsFromUTF8 0),
         zdrop (extraBytesToRead + 1) source).

(** The units of a character, or the reason to stop, which depends on the room. *)
Definition units_of (flags : ConversionFlags) (room : option Z) (target ch : Z) :
    ConversionResult + list Z :=
  if beyond room (target + 1) then inl targetExhausted
  else if ch <=? UNI_MAX_BMP then
    if in_range UNI_SUR_HIGH_START UNI_SUR_LOW_END ch then
      if is_strict flags then inl sourceIllegal else inr [UNI_REPLACEMENT_CHAR]
    else inr [u16 ch]
  else if UNI_MAX_UTF16 <? ch then
    if is_strict flags then inl sourceIllegal else inr [UNI_REPLACEMENT_CHAR]
  else if beyond room (target + 2) then inl targetExhausted
  else
    let ch := ch - halfBase in
    inr [u16 (Z.shiftr ch halfShift + UNI_SUR_HIGH_START);
         u16 (Z.land ch halfMask + UNI_SUR_LOW_START)].

Definition winpr_ConvertUTF8toUTF16_Internal (fuel : nat) (flags : ConversionFlags)
    (room : option Z) (target : Z) (source : list Z) : converted :=
  convert_loop read_utf8 (units_of flags) fuel room target source.

(** ** The functions of the platform

    The source is a block of memory; the target, which the functions change, is a block or
    [NULL].  Reading or writing outside of a block is undefined. *)

Definition target := option (list Z).

(** The first [n] units of a block. *)
Definition units (n : Z) (src : list Z) : M target (list Z) :=
  if n <=? zlen src then mret (ztake n src) else crash Undefined.

(** The units before the first zero. *)
Fixpoint nlen (src : list Z) : Z :=
  match src with
  | [] => 0
  | c :: rest => if c =? 0 then 0 else 1 + nlen rest
  end.

(** [strlen (src)]; a string without terminator is read past its end. *)
Definition c_strlen (src : list Z) : M target Z :=
  let n := nlen src in
  if n <? zlen src then mret n else crash Undefined.

(** [strnlen (src, max)] *)
Definition c_strnlen (src : list Z) (max : Z) : M target Z :=
  let n := nlen src in
  if max <=? n then mret max
  else if n <? zlen src then mret n else crash Undefined.

(** What the converter stored goes to the start of the target. *)
Definition store_units (out : list Z) : M target unit :=
  match out with
  | [] => mret tt
  | _ =>
      d ← get;
      match d with
      | Some b => if zlen out <=? zlen b then modify (fun _ => Some (blit 0 out b)) else crash Undefined
      | None => crash Undefined
      end
  end.

(** [winpr_ConvertUTF8toUTF16] and [winpr_ConvertUTF16toUTF8] differ in the converter. *)
Definition convert_with (conv : nat -> ConversionFlags -> option Z -> Z -> list Z -> converted)
    (src : list Z) (cchSrc cchDst : Z) : M target Z :=
  cchSrc ← (if cchSrc =? -1 then n ← c_strnlen src (INT32_MAX - 1); mret (n + 1) else mret cchSrc);
  us ← units cchSrc src;
  let '(result, _, length, out) :=
    conv (length us) strictConversion (if cchDst =? 0 then None else Some cchDst) 0 us in
  store_units out;;
  match result with
  | conversionOK => asserting_cast s32 length
  | _ => mret 0
  end.

Definition winpr_ConvertUTF8toUTF16 := convert_with winpr_ConvertUTF8toUTF16_Internal.
Definition winpr_ConvertUTF16toUTF8 := convert_with winpr_ConvertUTF16toUTF8_Internal.

Definition CP_ACP : Z := 0.
Definition CP_UTF8 : Z := 65001.

Definition int_MultiByteToWideChar (CodePage : Z) (src : list Z) (cbMultiByte cchWideChar : Z) :
    M target Z :=
  if (cbMultiByte =? 0) || (cbMultiByte <? -1) then mret 0
  else if cchWideChar <? 0 then mret (-1)
  else
    n ← (if cbMultiByte <? 0 then
           len ← c_strlen src; mret (if INT32_MAX <=? len then None else Some (len + 1))
         else mret (Some cbMultiByte));
    match n with
    | None => mret 0
    | Some cbCharLen =>
        if negb ((CodePage =? CP_ACP) || (CodePage =? CP_UTF8)) then mret 0
        else winpr_ConvertUTF8toUTF16 src cbCharLen cchWideChar
    end.

Definition int_WideCharToMultiByte (src : list Z) (cchWideChar cbMultiByte : Z) : M target Z :=
  if (cchWideChar =? 0) || (cchWideChar <? -1) then mret 0
  else if cbMultiByte <? 0 then mret (-1)
  else
    n ← (if cchWideChar =? -1 then
           len ← c_strlen src; mret (if INT32_MAX <=? len then None else Some (len + 1))
         else mret (Some cchWideChar));
    match n with
    | None => mret 0
    | Some cbCharLen => winpr_ConvertUTF16toUTF8 src cbCharLen cbMultiByte
    end.

(** ** Strings

    [ConvertWCharNToUtf8] and [ConvertUtf8NToWChar] have the same body around the conversion
    [conv], which gets the length of the source and the room. *)

Definition put_zero (i : Z) : M target unit :=
  d ← get;
  match d with
  | Some b => if i <? zlen b then modify (fun _ => Some (blit i [0] b)) else crash Undefined
  | None => mret tt
  end.

Definition last_is_zero (i : Z) : M target bool :=
  d ← get;
  match d with
  | Some b => if i <? zlen b then mret (nth (Z.to_nat i) b 0 =? 0) else crash Undefined
  | None => mret true
  end.

Definition convert_n (conv : list Z -> Z -> Z -> M target Z) (src : list Z) (slen len : Z) :
    M target Z :=
  if slen =? 0 then mret 0
  else
    ilen ← c_strnlen src slen;
    if (INT32_MAX <? len) || (INT32_MAX <? slen) then mret (-1)
    else
      let isNullTerminated := ilen <? slen in
      let ilen := if isNullTerminated then ilen + 1 else ilen in
      rc ← conv src ilen len;
      if (rc <=? 0) || ((0 <? len) && (len <? rc)) then mret (-1)
      else if negb isNullTerminated then
        (if rc <? len then put_zero rc else mret tt);; mret rc
      else if rc =? len then
        z ← last_is_zero (rc - 1);
        mret (if (z : bool) then rc - 1 else rc)
      else mret (rc - 1).

Definition ConvertWCharNToUtf8 : list Z -> Z -> Z -> M target Z := convert_n int_WideCharToMultiByte.
Definition ConvertUtf8NToWChar : list Z -> Z -> Z -> M target Z :=
  convert_n (int_MultiByteToWideChar CP_UTF8).

(** The multi-string variants convert everything, zeros included. *)
Definition convert_msz (conv : list Z -> Z -> Z -> M target Z) (src : list Z) (slen len : Z) :
    M target Z :=
  if slen =? 0 then mret 0
  else if (INT32_MAX <? len) || (INT32_MAX <? slen) then mret (-1)
  else
    rc ← conv src slen len;
    mret (if (rc <=? 0) || ((0 <? len) && (len <? rc)) then -1 else rc).

Definition ConvertMszWCharNToUtf8 := convert_msz int_WideCharToMultiByte.
Definition ConvertMszUtf8NToWChar := convert_msz (int_MultiByteToWideChar CP_UTF8).

(** [None] is a [NULL] string. *)
Definition convert_string (conv_n : list Z -> Z -> Z -> M target Z) (src : option (list Z)) (len : Z) :
    M target Z :=
  match src with
  | None => (if 0 <? len then put_zero 0 else mret tt);; mret 0
  | Some s => n ← c_strlen s; conv_n s (n + 1) len
  end.

Definition ConvertWCharToUtf8 := convert_string ConvertWCharNToUtf8.
Definition ConvertUtf8ToWChar := convert_string ConvertUtf8NToWChar.

(** The allocating variants: count, allocate, convert.  The result is the block and the length
    that is reported, or [None] for [NULL]. *)
Section Allocating.
Context `{Alloc}.

Definition convert_alloc {S} (width : Z) (conv : Z -> M target Z) : M S (option (list Z * Z)) :=
  match conv 0 None with
  | Ret rc _ =>
      if rc <? 0 then mret None
      else if negb (malloc_ok (width * (rc + 1))) then mret None
      else
        match conv (rc + 1) (Some (zrepeat (rc + 1) 0)) with
        | Ret rc2 tmp =>
            if rc2 <? 0 then mret None
            else assert (rc =? rc2);; mret (option_map (fun b => (b, rc2)) tmp)
        | Fail _ => mret None
        | Crash f => crash f
        end
  | Fail _ => mret None
  | Crash f => crash f
  end.

Definition ConvertWCharToUtf8Alloc {S} (wstr : option (list Z)) : M S (option (list Z * Z)) := convert_alloc 1 (ConvertWCharToUtf8 wstr).
Definition ConvertUtf8ToWCharAlloc {S} (str : option (list Z)) : M S (option (list Z * Z)) := convert_alloc 2 (ConvertUtf8ToWChar str).
Definition ConvertWCharNToUtf8Alloc {S} (wstr : list Z) (wlen : Z) : M S (option (list Z * Z)) :=
  convert_alloc 1 (ConvertWCharNToUtf8 wstr wlen).
Definition ConvertUtf8NToWCharAlloc {S} (str : list Z) (len : Z) : M S (option (list Z * Z)) :=
  convert_alloc 2 (ConvertUtf8NToWChar str len).
Definition ConvertMszWCharNToUtf8Alloc {S} (wstr : list Z) (wlen : Z) : M S (option (list Z * Z)) :=
  convert_alloc 1 (ConvertMszWCharNToUtf8 wstr wlen).
Definition ConvertMszUtf8NToWCharAlloc {S} (str : list Z) (len : Z) : M S (option (list Z * Z)) :=
  convert_alloc 2 (ConvertMszUtf8NToWChar str len).
End Allocating.

(** ** Reference definitions

    The encodings of a Unicode scalar value. *)

Definition scalar (c : Z) : Prop := 0 <= c < 0xD800 \/ 0xE000 <= c <= 0x10FFFF.

Definition utf16 (c : Z) : list Z :=
  if c <? 0x10000 then [c]
  else [0xD800 + (c - 0x10000) / 1024; 0xDC00 + (c - 0x10000) mod 1024].

Definition utf8 (c : Z) : list Z :=
  if c <? 0x80 then [c]
  else if c <? 0x800 then [0xC0 + c / 64; 0x80 + c mod 64]
  else if c <? 0x10000 then [0xE0 + c / 4096; 0x80 + c / 64 mod 64; 0x80 + c mod 64]
  else [0xF0 + c / 262144; 0x80 + c / 4096 mod 64; 0x80 + c / 64 mod 64; 0x80 + c mod 64].

Definition utf16s (cs : list Z) : list Z := concat (map utf16 cs).
Definition utf8s (cs : list Z) : list Z := concat (map utf8 cs).

(** ** One character *)

Lemma read_utf16_scalar c rest :
  scalar c -> read_utf16 strictConversion (utf16 c ++ rest) = inr (c, rest).
Proof.
  intros Hc. unfold utf16. destruct (Z.ltb_spec c 0x10000) as [Hb|Hb]; simpl; unfold in_range,
    UNI_SUR_HIGH_START, UNI_SUR_HIGH_END, UNI_SUR_LOW_START, UNI_SUR_LOW_END.
  - destruct Hc as [Hc|Hc]; repeat (zcase; try lia); done.
  - destruct Hc as [Hc|Hc]; [lia|]. zcase; [|word_lia]. zcase; [|word_lia].
    do 2 f_equal. unfold halfShift, halfBase. rewrite Z.shiftl_mul_pow2 by lia. unfold u32. word_lia.
Qed.

Lemma read_utf16_inv src c rest :
  Forall is_u16 src -> read_utf16 strictConversion src = inr (c, rest) ->
  scalar c /\ src = utf16 c ++ rest.
Proof.
  intros Hs E. destruct src as [|w src]; [done|]. apply Forall_cons_1 in Hs as [Hw Hs].
  unfold read_utf16, in_range, UNI_SUR_HIGH_START, UNI_SUR_HIGH_END, UNI_SUR_LOW_START, UNI_SUR_LOW_END in E.
  unfold is_u16 in Hw.
  destruct (Z.leb_spec 0xD800 w), (Z.leb_spec w 0xDBFF), (Z.leb_spec 0xDC00 w), (Z.leb_spec w 0xDFFF); simpl in E; try lia; try done.
  - destruct src as [|w2 src]; [done|]. apply Forall_cons_1 in Hs as [Hw2 Hs].
    destruct (Z.leb_spec 0xDC00 w2), (Z.leb_spec w2 0xDFFF); simpl in E; try done.
    injection E as <- <-. unfold halfShift, halfBase. rewrite Z.shiftl_mul_pow2 by lia.
    replace (u32 _) with ((w - 0xD800) * 1024 + (w2 - 0xDC00) + 0x10000) by (unfold u32; word_lia).
    split; [right; lia|]. unfold utf16. rewrite (proj2 (Z.ltb_ge _ _)) by lia. simpl.
    f_equal; [word_lia|]. f_equal. word_lia.
  - injection E as <- <-. split; [right; lia|]. unfold utf16. by rewrite (proj2 (Z.ltb_lt _ _)) by lia.
  - injection E as <- <-. split; [left; lia|]. unfold utf16. by rewrite (proj2 (Z.ltb_lt _ _)) by lia.
Qed.

Lemma read_utf16_spec src c rest :
  Forall is_u16 src ->
  read_utf16 strictConversion src = inr (c, rest) <-> scalar c /\ src = utf16 c ++ rest.
Proof.
  intros Hs. split; [by apply read_utf16_inv|]. intros [Hc ->]. by apply read_utf16_scalar.
Qed.

Lemma continuation_byte ch : 0 <= ch -> u8 (Z.land (Z.lor ch 0x80) 0xBF) = 0x80 + ch mod 64.
Proof.
  intros Hch. change 0xBF with (Z.land 0xFF 0xBF) at 1.
  rewrite Z.land_assoc, Z.land_lor_distr_l, land_FF. change (Z.land 0x80 0xFF) with 0x80.
  assert (Hr : 0 <= ch mod 256 < 256) by (apply Z.mod_pos_bound; lia).
  replace (ch mod 64) with (ch mod 256 mod 64) by word_lia.
  generalize dependent (ch mod 256). intros r Hr. apply Z.eqb_eq. revert r Hr.
  apply (zrange_forall 256 (fun r => u8 (Z.land (Z.lor r 0x80) 0xBF) =? 0x80 + r mod 64)).
  by vm_compute.
Qed.

Lemma first_byte n mark bound r :
  zforall_from (Z.to_nat bound) 0 (fun r => u8 (Z.lor r mark) =? mark + r) = true ->
  nth n firstByteMark 0 = mark -> 0 <= r < bound -> u8 (Z.lor r (nth n firstByteMark 0)) = mark + r.
Proof.
  intros Hc -> Hr. apply Z.eqb_eq. revert r Hr.
  exact (zrange_forall bound (fun r => u8 (Z.lor r mark) =? mark + r) Hc).
Qed.

Lemma bytes_of_spec room t c :
  scalar c ->
  bytes_of room t c = if beyond room (t + zlen (utf8 c)) then inl targetExhausted else inr (utf8 c).
Proof.
  intros Hc. unfold bytes_of, bytes_to_write, utf8.
  assert (0 <= c < 0x110000) by (destruct Hc; lia).
  destruct (Z.ltb_spec c 0x80); [|destruct (Z.ltb_spec c 0x800); [|destruct (Z.ltb_spec c 0x10000)]];
    rewrite ?(proj2 (Z.ltb_lt c 0x110000)) by lia;
    unfold put_bytes; simpl put_tail; rewrite ?Z.shiftr_div_pow2 by lia;
    rewrite ?continuation_byte by word_lia; rewrite ?Z.div_div by lia;
    change (2 ^ 6) with 64; change (64 * (64 * 64)) with 262144; change (64 * 64) with 4096;
    cbv beta iota.
  - by rewrite (first_byte 1 0 0x80 c) by (reflexivity || lia).
  - by rewrite (first_byte 2 0xC0 32 (c / 64)) by (reflexivity || word_lia).
  - by rewrite (first_byte 3 0xE0 16 (c / 4096)) by (reflexivity || word_lia).
  - by rewrite (first_byte 4 0xF0 8 (c / 262144)) by (reflexivity || word_lia).
Qed.

Lemma units_of_spec room t c :
  scalar c ->
  units_of strictConversion room t c =
  if beyond room (t + zlen (utf16 c)) then inl targetExhausted else inr (utf16 c).
Proof.
  intros Hc. unfold units_of, utf16, in_range, UNI_MAX_BMP, UNI_MAX_UTF16, UNI_SUR_HIGH_START,
    UNI_SUR_LOW_END, UNI_SUR_LOW_START, halfBase, halfMask, halfShift.
  assert (0 <= c < 0x110000) by (destruct Hc; lia).
  destruct (Z.leb_spec c 0xFFFF), (Z.ltb_spec c 0x10000); try lia; simpl.
  - change (zlen [c]) with 1. destruct (beyond _ _); [done|].
    assert (u16 c = c) as -> by word_lia.
    destruct (Z.leb_spec 0xD800 c), (Z.leb_spec c 0xDFFF); simpl; try done. destruct Hc; lia.
  - rewrite (proj2 (Z.ltb_ge _ _)) by lia. change (zlen [_; _]) with 2.
    destruct (beyond room (t + 1)) eqn:E1.
    + destruct room as [r|]; [|done]. simpl in *. apply Z.ltb_lt in E1.
      by rewrite (proj2 (Z.ltb_lt _ _)) by lia.
    + destruct (beyond room (t + 2)); [done|].
      rewrite (land_mask _ 10) by lia. rewrite Z.shiftr_div_pow2 by lia. do 2 f_equal; [word_lia|].
      f_equal. word_lia.
Qed.

(** The sequences the decoder takes: the encoding of a scalar value, and those where
    [isLegalUTF8] does not see that the byte after 0xED or 0xF4 is not a continuation byte. *)
Inductive encodes : Z -> list Z -> Prop :=
  | encodes_utf8 c : scalar c -> encodes c (utf8 c)
  | encodes_ED a b :
      0 <= a < 0x80 -> 0x80 <= b <= 0xBF -> encodes (0xD000 + (a - 0x80) * 64 + (b - 0x80)) [0xED; a; b]
  | encodes_F4 a b d :
      0 <= a < 0x80 -> 0x80 <= b <= 0xBF -> 0x80 <= d <= 0xBF ->
      encodes (0x100000 + (a - 0x80) * 4096 + (b - 0x80) * 64 + (d - 0x80)) [0xF4; a; b; d].

Lemma encodes_scalar c seq : encodes c seq -> scalar c.
Proof. intros []; [done|left; lia|right; lia]. Qed.

(** [trailingBytesForUTF8] by ranges of the first byte *)
Definition trailing (b : Z) : Z :=
  if b <? 0xC0 then 0 else if b <? 0xE0 then 1 else if b <? 0xF0 then 2 else if b <? 0xF8 then 3
  else if b <? 0xFC then 4 else 5.

Lemma trailing_bytes b : is_byte b -> nth (Z.to_nat b) trailingBytesForUTF8 0 = trailing b.
Proof.
  intros Hb. apply Z.eqb_eq. revert b Hb.
  apply (zrange_forall 256 (fun b => nth (Z.to_nat b) trailingBytesForUTF8 0 =? trailing b)).
  by vm_compute.
Qed.

(** What is decoded from one to four bytes. *)
Lemma gather_1 a : 0 <= a < 256 -> u32 (gather 0 [a] - 0) = a.
Proof. intros. simpl. word_lia. Qed.

Lemma gather_2 a b :
  is_byte a -> is_byte b -> 0x3080 <= a * 64 + b -> u32 (gather 0 [a; b] - 0x3080) = a * 64 + b - 0x3080.
Proof.
  intros Ha Hb. simpl. rewrite !Z.shiftl_mul_pow2 by lia. unfold u32. word_lia.
Qed.

Lemma gather_3 a b c :
  is_byte a -> is_byte b -> is_byte c -> 0xE2080 <= a * 4096 + b * 64 + c ->
  u32 (gather 0 [a; b; c] - 0xE2080) = a * 4096 + b * 64 + c - 0xE2080.
Proof.
  intros Ha Hb Hc. simpl. rewrite !Z.shiftl_mul_pow2 by lia. unfold u32. word_lia.
Qed.

Lemma gather_4 a b c d :
  is_byte a -> is_byte b -> is_byte c -> is_byte d ->
  0x3C82080 <= a * 262144 + b * 4096 + c * 64 + d ->
  u32 (gather 0 [a; b; c; d] - 0x3C82080) = a * 262144 + b * 4096 + c * 64 + d - 0x3C82080.
Proof.
  intros Ha Hb Hc Hd. simpl. rewrite !Z.shiftl_mul_pow2 by lia. unfold u32. word_lia.
Qed.

(** *** [isLegalUTF8] as arithmetic *)

Definition lead (b : Z) : Prop := b < 0x80 \/ 0xC2 <= b <= 0xF4.

Definition second (b a : Z) : Prop :=
  a <= 0xBF /\
  (b = 0xE0 /\ 0xA0 <= a \/ b = 0xED /\ a <= 0x9F \/ b = 0xF0 /\ 0x90 <= a \/ b = 0xF4 /\ a <= 0x8F \/
   b <> 0xE0 /\ b <> 0xED /\ b <> 0xF0 /\ b <> 0xF4 /\ 0x80 <= a).

Definition continues (a : Z) : Prop := 0x80 <= a <= 0xBF.

Ltac legal :=
  unfold isLegalUTF8, lead, second, continues, in_range; simpl nth; simpl Z.eqb; cbv beta iota zeta;
  repeat zcase; lia.

Lemma legal_1 b src : isLegalUTF8 (b :: src) 1 = true <-> lead b.
Proof. legal. Qed.
Lemma legal_2 b a src : isLegalUTF8 (b :: a :: src) 2 = true <-> second b a /\ lead b.
Proof. legal. Qed.
Lemma legal_3 b a x src :
  isLegalUTF8 (b :: a :: x :: src) 3 = true <-> continues x /\ second b a /\ lead b.
Proof. legal. Qed.
Lemma legal_4 b a x y src :
  isLegalUTF8 (b :: a :: x :: y :: src) 4 = true <-> continues y /\ continues x /\ second b a /\ lead b.
Proof. legal. Qed.

Lemma read_utf8_take k b tl rest c :
  is_byte b -> trailing b = k -> zlen tl = k -> isLegalUTF8 ((b :: tl) ++ rest) (k + 1) = true ->
  u32 (gather 0 (b :: tl) - nth (Z.to_nat k) offsetsFromUTF8 0) = c ->
  read_utf8 ((b :: tl) ++ rest) = inr (c, rest).
Proof.
  intros Hb Hk Hn Hl <-. unfold read_utf8.
  change (nth 0 ((b :: tl) ++ rest) 0) with b. rewrite trailing_bytes, Hk by done.
  rewrite Hl, zlen_app, zlen_cons. pose proof (zlen_nonneg rest).
  rewrite (proj2 (Z.leb_gt _ _)) by lia. cbn [negb].
  rewrite ztake_app_ge, zdrop_app_ge by (rewrite zlen_cons; lia).
  rewrite zlen_cons. replace (k + 1 - (zlen tl + 1)) with 0 by lia.
  by rewrite ztake_0, zdrop_0, app_nil_r.
Qed.

#[local] Ltac class := unfold trailing, second, continues, lead, is_byte in *; repeat (zcase; try lia); lia.

Lemma read_utf8_1 b rest : 0 <= b < 0x80 -> read_utf8 (b :: rest) = inr (b, rest).
Proof.
  intros Hb. apply (read_utf8_take 0 b [] rest); [class|class|done| |by apply gather_1; lia].
  apply legal_1. class.
Qed.

Lemma read_utf8_2 b a rest :
  0xC2 <= b < 0xE0 -> second b a -> 0 <= a -> read_utf8 (b :: a :: rest) = inr (b * 64 + a - 0x3080, rest).
Proof.
  intros Hb Ha Ha0. apply (read_utf8_take 1 b [a] rest); [class|class|done| |apply gather_2; class].
  apply legal_2. split; [done|class].
Qed.

Lemma read_utf8_3 b a x rest :
  0xE0 <= b < 0xF0 -> second b a -> 0 <= a -> continues x ->
  read_utf8 (b :: a :: x :: rest) = inr (b * 4096 + a * 64 + x - 0xE2080, rest).
Proof.
  intros Hb Ha Ha0 Hx.
  apply (read_utf8_take 2 b [a; x] rest); [class|class|done| |apply gather_3; class].
  apply legal_3. do 2 (split; [done|]). class.
Qed.

Lemma read_utf8_4 b a x y rest :
  0xF0 <= b <= 0xF4 -> second b a -> 0 <= a -> continues x -> continues y ->
  read_utf8 (b :: a :: x :: y :: rest) = inr (b * 262144 + a * 4096 + x * 64 + y - 0x3C82080, rest).
Proof.
  intros Hb Ha Ha0 Hx Hy.
  apply (read_utf8_take 3 b [a; x; y] rest); [class|class|done| |apply gather_4; class].
  apply legal_4. do 3 (split; [done|]). class.
Qed.

Lemma read_utf8_accepts c seq rest : encodes c seq -> read_utf8 (seq ++ rest) = inr (c, rest).
Proof.
  intros [c' Hc|a b Ha Hb|a b d Ha Hb Hd].
  - unfold utf8. assert (0 <= c' < 0x110000) by (destruct Hc; lia).
    assert (forall x, 0 <= x -> continues (0x80 + x mod 64)) by (unfold continues; intros; word_lia).
    destruct (Z.ltb_spec c' 0x80); [|destruct (Z.ltb_spec c' 0x800); [|destruct (Z.ltb_spec c' 0x10000)]];
      simpl app.
    + apply read_utf8_1; lia.
    + rewrite read_utf8_2; [do 2 f_equal| | |]; unfold second; word_lia.
    + rewrite read_utf8_3; [do 2 f_equal; word_lia|word_lia| |word_lia|by apply H0; lia].
      unfold second. destruct Hc; word_lia.
    + rewrite read_utf8_4; [do 2 f_equal; word_lia|word_lia| |word_lia|apply H0; word_lia|by apply H0; lia].
      unfold second. word_lia.
  - simpl app. rewrite read_utf8_3 by (unfold second, continues; lia). do 2 f_equal. lia.
  - simpl app. rewrite read_utf8_4 by (unfold second, continues; lia). do 2 f_equal. lia.
Qed.

Lemma utf8_1 c : c < 0x80 -> utf8 c = [c].
Proof. intros. unfold utf8. by rewrite (proj2 (Z.ltb_lt _ _)) by lia. Qed.

Lemma utf8_2 b a : 0xC2 <= b < 0xE0 -> continues a -> utf8 (b * 64 + a - 0x3080) = [b; a].
Proof. intros ? []. unfold utf8. repeat (zcase; try lia). list_eq; word_lia. Qed.

Lemma utf8_3 b a x :
  0xE0 <= b < 0xF0 -> second b a -> continues a -> continues x ->
  utf8 (b * 4096 + a * 64 + x - 0xE2080) = [b; a; x].
Proof.
  intros ? [] [] []. unfold utf8. repeat (zcase; try lia). list_eq; word_lia.
Qed.

Lemma utf8_4 b a x y :
  0xF0 <= b <= 0xF4 -> second b a -> continues a -> continues x -> continues y ->
  utf8 (b * 262144 + a * 4096 + x * 64 + y - 0x3C82080) = [b; a; x; y].
Proof.
  intros ? [] [] [] []. unfold utf8. repeat (zcase; try lia). list_eq; word_lia.
Qed.

(** A byte after a lead byte that [isLegalUTF8] lets through is a continuation byte, but
    after 0xED and 0xF4. *)
Lemma second_continues b a : second b a -> continues a \/ (b = 0xED \/ b = 0xF4) /\ a < 0x80.
Proof. unfold second, continues. lia. Qed.

Lemma encodes_2 b a :
  0xC2 <= b < 0xE0 -> second b a -> encodes (b * 64 + a - 0x3080) [b; a].
Proof.
  intros Hb Ha. destruct (second_continues _ _ Ha) as [Hc|]; [|lia].
  rewrite <- utf8_2 by done. apply encodes_utf8. left. unfold continues in Hc. lia.
Qed.

Lemma encodes_3 b a x :
  0xE0 <= b < 0xF0 -> second b a -> 0 <= a -> continues x ->
  encodes (b * 4096 + a * 64 + x - 0xE2080) [b; a; x].
Proof.
  intros Hb Ha Ha0 Hx. destruct (second_continues _ _ Ha) as [Hc|[[->| ->] Hl]]; [| |lia].
  - rewrite <- utf8_3 by done. apply encodes_utf8. unfold scalar, second, continues in *. lia.
  - replace (_ - _) with (0xD000 + (a - 0x80) * 64 + (x - 0x80)) by lia. by apply encodes_ED.
Qed.

Lemma encodes_4 b a x y :
  0xF0 <= b <= 0xF4 -> second b a -> 0 <= a -> continues x -> continues y ->
  encodes (b * 262144 + a * 4096 + x * 64 + y - 0x3C82080) [b; a; x; y].
Proof.
  intros Hb Ha Ha0 Hx Hy. destruct (second_continues _ _ Ha) as [Hc|[[->| ->] Hl]]; [|lia|].
  - rewrite <- utf8_4 by done. apply encodes_utf8. unfold scalar, second, continues in *. lia.
  - replace (_ - _) with (0x100000 + (a - 0x80) * 4096 + (x - 0x80) * 64 + (y - 0x80)) by lia.
    by apply encodes_F4.
Qed.

Lemma read_utf8_inv src c rest :
  bytes src -> src <> [] -> read_utf8 src = inr (c, rest) -> exists seq, encodes c seq /\ src = seq ++ rest.
Proof.
  intros Hs Hne E. destruct src as [|b src]; [done|]. apply Forall_cons_1 in Hs as [Hb Hs].
  pose proof E as E'. unfold read_utf8 in E'. simpl (nth 0 _ 0) in E'.
  rewrite trailing_bytes in E' by done. unfold trailing in E'. unfold is_byte in Hb.
  destruct (Z.ltb_spec b 0xC0); [|destruct (Z.ltb_spec b 0xE0); [|destruct (Z.ltb_spec b 0xF0);
    [|destruct (Z.ltb_spec b 0xF8); [|destruct (Z.ltb_spec b 0xFC)]]]].
  all: match type of E' with context [zlen ?l <=? ?k] => destruct (Z.leb_spec (zlen l) k) as [|Hn] end;
    [discriminate|].
  all: match type of E' with context [isLegalUTF8 ?l ?k] => destruct (isLegalUTF8 l k) eqn:Hl end;
    [|discriminate]; clear E'.
  - apply legal_1 in Hl. unfold lead in Hl. rewrite read_utf8_1 in E by lia. injection E as <- <-.
    exists [b]. split; [|done]. rewrite <- utf8_1 by lia. apply encodes_utf8. left. lia.
  - destruct src as [|a src]; [unfold zlen in Hn; simpl in Hn; lia|].
    apply legal_2 in Hl as [Ha Hl]. unfold lead in Hl. apply Forall_cons_1 in Hs as [[] _].
    rewrite read_utf8_2 in E by (done || lia). injection E as <- <-.
    exists [b; a]. split; [|done]. by apply encodes_2; [lia|].
  - destruct src as [|a [|x src]]; try (unfold zlen in Hn; simpl in Hn; lia).
    apply legal_3 in Hl as (Hx & Ha & Hl). apply Forall_cons_1 in Hs as [[] _].
    rewrite read_utf8_3 in E by (done || lia). injection E as <- <-.
    exists [b; a; x]. split; [|done]. by apply encodes_3; [lia|..].
  - destruct src as [|a [|x [|y src]]]; try (unfold zlen in Hn; simpl in Hn; lia).
    apply legal_4 in Hl as (Hy & Hx & Ha & Hl). unfold lead in Hl. apply Forall_cons_1 in Hs as [[] _].
    rewrite read_utf8_4 in E by (done || lia). injection E as <- <-.
    exists [b; a; x; y]. split; [|done]. by apply encodes_4; [lia|..].
  - done.
  - done.
Qed.

Lemma read_utf8_spec src c rest :
  bytes src -> src <> [] ->
  read_utf8 src = inr (c, rest) <-> exists seq, encodes c seq /\ src = seq ++ rest.
Proof.
  intros Hs Hne. split; [by apply read_utf8_inv|]. intros (seq & Hc & ->).
  by apply read_utf8_accepts.
Qed.

(** ** The loop

    A conversion is exact: it takes whole characters from the source, as many as it can,
    stores their encodings and nothing else, never more than the room, and stops for the
    reason it gives. *)

Definition encodes16 (c : Z) (seq : list Z) : Prop := scalar c /\ seq = utf16 c.

Definition encode (out : Z -> list Z) (cs : list Z) : list Z := concat (map out cs).

Definition stopped (enc : Z -> list Z -> Prop) (out : Z -> list Z) (room : option Z) (n : Z)
    (rem : list Z) (res : ConversionResult) : Prop :=
  match res with
  | conversionOK => rem = []
  | targetExhausted =>
      exists c seq rest, enc c seq /\ rem = seq ++ rest /\ beyond room (n + zlen (out c)) = true
  | _ => rem <> [] /\ forall c seq rest, enc c seq -> rem <> seq ++ rest
  end.

Definition transcodes (enc : Z -> list Z -> Prop) (out : Z -> list Z) (room : option Z) (t : Z)
    (src : list Z) (r : converted) : Prop :=
  let '(res, rem, n, stored) := r in
  exists cs seqs,
    Forall2 enc cs seqs /\ src = concat seqs ++ rem /\ n = t + zlen (encode out cs) /\
    beyond room n = false /\
    stored = match room with Some _ => encode out cs | None => [] end /\
    stopped enc out room n rem res.

Lemma beyond_le room a b : a <= b -> beyond room b = false -> beyond room a = false.
Proof. destruct room; simpl; [|done]. rewrite !Z.ltb_ge. lia. Qed.

Section Loop.
Context (rd : list Z -> ConversionResult + Z * list Z).
Context (emit : option Z -> Z -> Z -> ConversionResult + list Z).
Context (valid : Z -> Prop) (enc : Z -> list Z -> Prop) (out : Z -> list Z).

Hypothesis rd_spec : forall src c rest, Forall valid src -> src <> [] ->
  rd src = inr (c, rest) <-> exists seq, enc c seq /\ src = seq ++ rest.
Hypothesis rd_stops : forall src r, rd src = inl r -> r = sourceExhausted \/ r = sourceIllegal.
Hypothesis enc_scalar : forall c seq, enc c seq -> scalar c.
Hypothesis enc_nonempty : forall c seq, enc c seq -> seq <> [].
Hypothesis emit_spec : forall room t c, scalar c ->
  emit room t c = if beyond room (t + zlen (out c)) then inl targetExhausted else inr (out c).

Lemma transcodes_stop room t res src :
  beyond room t = false -> stopped enc out room t src res -> transcodes enc out room t src (stop res src t).
Proof.
  intros Ht Hs. exists [], []. split; [constructor|]. split; [done|].
  change (zlen (encode out [])) with 0. split; [lia|]. split; [done|]. split; [by destruct room|done].
Qed.

Lemma transcodes_step room t c seq rest r :
  enc c seq -> transcodes enc out room (t + zlen (out c)) rest r ->
  transcodes enc out room t (seq ++ rest) (after room (out c) r).
Proof.
  intros Hc. destruct r as [[[res rem] n] stored].
  intros (cs & seqs & H2 & -> & -> & Hb & -> & Hs). exists (c :: cs), (seq :: seqs).
  split; [by constructor|]. split; [by simpl; rewrite app_assoc|].
  split; [unfold encode; simpl; rewrite zlen_app; lia|]. split; [done|]. split; [by destruct room|done].
Qed.

Lemma convert_loop_exact fuel room t src :
  (length src <= fuel)%nat -> Forall valid src -> beyond room t = false ->
  transcodes enc out room t src (convert_loop rd emit fuel room t src).
Proof.
  revert t src. induction fuel as [|fuel IH]; intros t src Hf Hv Ht.
  - destruct src; [|simpl in Hf; lia]. by apply transcodes_stop.
  - destruct src as [|u src]; [by apply transcodes_stop|]. set (s := u :: src) in *.
    assert (Hne : s <> []) by done. change (convert_loop _ _ _ _ _ s) with
      (match rd s with inl r => stop r s t | inr (ch, rest) => match emit room t ch with
       | inl r => stop r s t
       | inr us => after room us (convert_loop rd emit fuel room (t + zlen us) rest) end end).
    destruct (rd s) as [r|[c rest]] eqn:E.
    + apply transcodes_stop; [done|]. assert (Hn : forall c seq rest, enc c seq -> s <> seq ++ rest).
      { intros c seq rest Hc Es. destruct (rd_spec s c rest Hv Hne) as [_ H].
        rewrite H in E; [done|]. by exists seq. }
      by destruct (rd_stops _ _ E) as [-> | ->].
    + apply (rd_spec s c rest Hv Hne) in E as (seq & Hc & Es).
      rewrite emit_spec by eauto. destruct (beyond room (t + zlen (out c))) eqn:Hb.
      * apply transcodes_stop; [done|]. by exists c, seq, rest.
      * rewrite Es in Hf, Hv |- *. rewrite length_app in Hf. apply Forall_app in Hv as [_ Hv].
        apply transcodes_step; [done|]. apply IH; [|done|done].
        pose proof (enc_nonempty _ _ Hc). destruct seq; [done|]. simpl in Hf. lia.
Qed.

(** What is well formed and fits is converted. *)
Lemma convert_loop_complete cs seqs fuel room t :
  Forall2 enc cs seqs -> Forall valid (concat seqs) -> (length (concat seqs) <= fuel)%nat ->
  beyond room (t + zlen (encode out cs)) = false ->
  convert_loop rd emit fuel room t (concat seqs) =
  (conversionOK, [], t + zlen (encode out cs), match room with Some _ => encode out cs | None => [] end).
Proof.
  intros H2. revert fuel t. induction H2 as [|c seq cs seqs Hc H2 IH]; intros fuel t Hv Hf Hb.
  - change (zlen (encode out [])) with 0. rewrite Z.add_0_r. by destruct fuel, room.
  - assert (He : encode out (c :: cs) = out c ++ encode out cs) by done. rewrite He in Hb |- *.
    rewrite zlen_app in Hb |- *. pose proof (zlen_nonneg (encode out cs)).
    pose proof (enc_nonempty _ _ Hc) as Hne. simpl concat in Hv, Hf |- *. rewrite length_app in Hf.
    destruct fuel as [|fuel]; [destruct seq; [done|simpl in Hf; lia]|].
    assert (Hs : seq ++ concat seqs <> []) by (by destruct seq).
    assert (rd (seq ++ concat seqs) = inr (c, concat seqs)) as E by (apply rd_spec; eauto).
    destruct (seq ++ concat seqs) as [|u s] eqn:Es; [done|]. simpl. rewrite E, emit_spec by eauto.
    assert (beyond room (t + zlen (out c)) = false) as -> by (eapply beyond_le; [|exact Hb]; lia).
    rewrite <- Es in Hv. apply Forall_app in Hv as [_ Hv].
    rewrite IH; [|done|destruct seq; [done|simpl in Hf; lia]|by rewrite <- Z.add_assoc].
    rewrite Z.add_assoc. by destruct room.
Qed.

End Loop.

(** *** The instances *)

Lemma read_utf16_stops src r :
  read_utf16 strictConversion src = inl r -> r = sourceExhausted \/ r = sourceIllegal.
Proof. unfold read_utf16. destruct src as [|u [|v src]]; simpl; repeat zcase; intros [=<-]; auto. Qed.

Lemma read_utf8_stops src r : read_utf8 src = inl r -> r = sourceExhausted \/ r = sourceIllegal.
Proof. unfold read_utf8. repeat zcase; intros [=<-]; auto. Qed.

Lemma utf16_nonempty c : utf16 c <> [].
Proof. unfold utf16. by zcase. Qed.

Lemma encodes_nonempty c seq : encodes c seq -> seq <> [].
Proof. intros []; [unfold utf8; by repeat zcase|done|done]. Qed.

Lemma read_utf16_encodes src c rest :
  Forall is_u16 src -> src <> [] ->
  read_utf16 strictConversion src = inr (c, rest) <-> exists seq, encodes16 c seq /\ src = seq ++ rest.
Proof.
  intros Hs _. rewrite read_utf16_spec by done. split.
  - intros [Hc ->]. by exists (utf16 c).
  - by intros (seq & [Hc ->] & ->).
Qed.

(** C18: The conversion from UTF-16 to UTF-8 is exact, with any room or when it only counts:
    it takes the longest sequence of scalar values from the front of the source whose UTF-8
    encodings fit, stores those encodings and nothing else, and leaves the source pointer at
    the rest; it stops with success exactly at the end, with a full target exactly when the
    next scalar value does not fit, and with an illegal or exhausted source exactly when no
    encoding of a scalar value starts there. *)
Theorem utf16_to_utf8_exact room src :
  Forall is_u16 src -> beyond room 0 = false ->
  transcodes encodes16 utf8 room 0 src
    (winpr_ConvertUTF16toUTF8_Internal (length src) strictConversion room 0 src).
Proof.
  intros Hs Hr. apply (convert_loop_exact _ _ is_u16); try done.
  - exact read_utf16_encodes.
  - exact read_utf16_stops.
  - by intros c seq [].
  - intros c seq [_ ->]. apply utf16_nonempty.
  - exact bytes_of_spec.
Qed.

(** C19: The conversion from UTF-8 to UTF-16 is exact in the same sense: what it takes from
    the source are encodings of scalar values, or the sequences with a bad byte after 0xED or
    0xF4 that [isLegalUTF8] lets through; what it stores is the UTF-16 of their values. *)
Theorem utf8_to_utf16_exact room src :
  bytes src -> beyond room 0 = false ->
  transcodes encodes utf16 room 0 src
    (winpr_ConvertUTF8toUTF16_Internal (length src) strictConversion room 0 src).
Proof.
  intros Hs Hr. apply (convert_loop_exact _ _ is_byte); try done.
  - exact read_utf8_spec.
  - exact read_utf8_stops.
  - exact encodes_scalar.
  - exact encodes_nonempty.
  - exact units_of_spec.
Qed.

(** ** Strings *)

Lemma utf16_u16 c : scalar c -> Forall is_u16 (utf16 c).
Proof.
  intros Hc. unfold utf16. destruct Hc; zcase; repeat constructor; word_lia.
Qed.

Lemma utf8_bytes c : scalar c -> bytes (utf8 c).
Proof.
  intros Hc. unfold utf8. destruct Hc; repeat zcase; repeat constructor; word_lia.
Qed.

Lemma Forall_encode (P Q : Z -> Prop) out cs :
  (forall c, P c -> Forall Q (out c)) -> Forall P cs -> Forall Q (encode out cs).
Proof.
  intros H Hc. unfold encode. induction Hc; simpl; [done|]. apply Forall_app. auto.
Qed.

Lemma Forall2_map_r {A B} (P : A -> Prop) (R : A -> B -> Prop) f l :
  (forall x, P x -> R x (f x)) -> Forall P l -> Forall2 R l (map f l).
Proof. intros H. induction 1; simpl; constructor; auto. Qed.

Lemma encode_snoc out cs c : encode out (cs ++ [c]) = encode out cs ++ out c.
Proof. unfold encode. rewrite map_app, concat_app. simpl. by rewrite app_nil_r. Qed.

Lemma utf16_to_utf8_complete cs room :
  Forall scalar cs -> beyond room (zlen (utf8s cs)) = false ->
  winpr_ConvertUTF16toUTF8_Internal (length (utf16s cs)) strictConversion room 0 (utf16s cs) =
  (conversionOK, [], zlen (utf8s cs), match room with Some _ => utf8s cs | None => [] end).
Proof.
  intros Hc Hr. unfold winpr_ConvertUTF16toUTF8_Internal, utf16s.
  rewrite (convert_loop_complete _ _ is_u16 encodes16 utf8) with (cs := cs); try done.
  - exact read_utf16_encodes.
  - by intros c seq [].
  - intros c seq [_ ->]. apply utf16_nonempty.
  - exact bytes_of_spec.
  - apply (Forall2_map_r scalar); [|done]. by intros x Hx.
  - by apply (Forall_encode scalar); [exact utf16_u16|].
Qed.

Lemma utf8_to_utf16_complete cs room :
  Forall scalar cs -> beyond room (zlen (utf16s cs)) = false ->
  winpr_ConvertUTF8toUTF16_Internal (length (utf8s cs)) strictConversion room 0 (utf8s cs) =
  (conversionOK, [], zlen (utf16s cs), match room with Some _ => utf16s cs | None => [] end).
Proof.
  intros Hc Hr. unfold winpr_ConvertUTF8toUTF16_Internal, utf8s.
  rewrite (convert_loop_complete _ _ is_byte encodes utf16) with (cs := cs); try done.
  - exact read_utf8_spec.
  - exact encodes_scalar.
  - exact encodes_nonempty.
  - exact units_of_spec.
  - apply (Forall2_map_r scalar); [|done]. by intros x Hx; constructor.
  - by apply (Forall_encode scalar); [exact utf8_bytes|].
Qed.

Lemma s32_id x : 0 <= x <= INT32_MAX -> s32 x = x.
Proof. unfold INT32_MAX, s32. intros. rewrite Z.mod_small by lia. by zcase; [|lia]. Qed.

Lemma store_units_all us b : zlen b = zlen us -> store_units us (Some b) = Ret tt (Some us).
Proof.
  intros Hb. destruct us as [|u us]; [by rewrite (zlen_zero_inv b)|]. unfold store_units.
  rewrite get_bind, (proj2 (Z.leb_le _ _)) by lia. unfold modify.
  by rewrite blit_end, ztake_0 by lia.
Qed.

(** The functions on strings, for either direction: [internal] turns [encS cs] into
    [encode out cs], and [conv] is [internal] on a part of the source that is not empty. *)
Section Strings.
Context (internal : nat -> ConversionFlags -> option Z -> Z -> list Z -> converted).
Context (conv : list Z -> Z -> Z -> M target Z).
Context (enc out : Z -> list Z).

Hypothesis internal_ok : forall cs room,
  Forall scalar cs -> beyond room (zlen (encode out cs)) = false ->
  internal (length (encode enc cs)) strictConversion room 0 (encode enc cs) =
  (conversionOK, [], zlen (encode out cs), match room with Some _ => encode out cs | None => [] end).
Hypothesis conv_eq : forall src k len d,
  0 < k -> 0 <= len -> conv src k len d = convert_with internal src k len d.
Hypothesis enc_zero : enc 0 = [0].
Hypothesis out_zero : out 0 = [0].
Hypothesis enc_text : forall c, scalar c /\ c <> 0 -> Forall (fun u => u <> 0) (enc c).

Lemma conv_counts cs rest d :
  Forall scalar cs -> 0 < zlen (encode enc cs) -> zlen (encode out cs) <= INT32_MAX ->
  conv (encode enc cs ++ rest) (zlen (encode enc cs)) 0 d = Ret (zlen (encode out cs)) d.
Proof.
  intros Hc Hn Hm. rewrite conv_eq by lia. unfold convert_with.
  rewrite (proj2 (Z.eqb_neq _ (-1))), ret_bind by lia. unfold units.
  rewrite zlen_app, (proj2 (Z.leb_le _ _)), ret_bind by (pose proof (zlen_nonneg rest); lia).
  rewrite ztake_app_le, ztake_all by lia. simpl (0 =? 0). cbv iota.
  rewrite internal_ok by done. cbn [store_units]. rewrite ret_bind.
  apply asserting_cast_eq, s32_id. pose proof (zlen_nonneg (encode out cs)). lia.
Qed.

Lemma conv_stores cs rest b :
  Forall scalar cs -> 0 < zlen (encode enc cs) -> 0 < zlen (encode out cs) <= INT32_MAX ->
  zlen b = zlen (encode out cs) ->
  conv (encode enc cs ++ rest) (zlen (encode enc cs)) (zlen (encode out cs)) (Some b) =
  Ret (zlen (encode out cs)) (Some (encode out cs)).
Proof.
  intros Hc Hn Hm Hb. rewrite conv_eq by lia. unfold convert_with.
  rewrite (proj2 (Z.eqb_neq _ (-1))), ret_bind by lia. unfold units.
  rewrite zlen_app, (proj2 (Z.leb_le _ _)), ret_bind by (pose proof (zlen_nonneg rest); lia).
  rewrite ztake_app_le, ztake_all by lia. rewrite (proj2 (Z.eqb_neq _ 0)) by lia.
  rewrite internal_ok by (try done; simpl; apply Z.ltb_ge; lia).
  rewrite (bind_ret_eq _ _ _ tt (Some (encode out cs))).
  - apply asserting_cast_eq, s32_id. lia.
  - by apply store_units_all.
Qed.

Lemma nlen_text us rest : Forall (fun u => u <> 0) us -> nlen (us ++ 0 :: rest) = zlen us.
Proof.
  induction 1 as [|u us Hu _ IH]; [done|]. simpl. rewrite (proj2 (Z.eqb_neq _ _)), IH, zlen_cons by done.
  lia.
Qed.

Definition text (cs : list Z) : Prop := Forall (fun c => scalar c /\ c <> 0) cs.

Lemma text_scalar cs : text cs -> Forall scalar (cs ++ [0]).
Proof.
  intros Hc. apply Forall_app. split; [|constructor; [left; lia|done]].
  eapply Forall_impl; [|exact Hc]. by intros c [].
Qed.

Lemma string_length cs rest d :
  text cs -> c_strlen (encode enc cs ++ 0 :: rest) d = Ret (zlen (encode enc cs)) d.
Proof.
  intros Hc. unfold c_strlen. rewrite nlen_text by (by apply (Forall_encode _ _ _ _ enc_text)).
  rewrite zlen_app, zlen_cons. pose proof (zlen_nonneg rest).
  by rewrite (proj2 (Z.ltb_lt _ _)) by lia.
Qed.

Lemma convert_string_eq cs rest len d :
  text cs ->
  convert_string (convert_n conv) (Some (encode enc cs ++ 0 :: rest)) len d =
  if (INT32_MAX <? len) || (INT32_MAX <? zlen (encode enc cs) + 1) then Ret (-1) d
  else
    (rc ← conv (encode enc cs ++ 0 :: rest) (zlen (encode enc cs) + 1) len;
     if (rc <=? 0) || ((0 <? len) && (len <? rc)) then mret (-1)
     else if rc =? len then
       z ← last_is_zero (rc - 1);
       mret (if (z : bool) then rc - 1 else rc)
     else mret (rc - 1)) d.
Proof.
  intros Hc. unfold convert_string. rewrite (bind_ret_eq _ _ _ _ _ (string_length cs rest d Hc)).
  unfold convert_n. pose proof (zlen_nonneg (encode enc cs)). pose proof (zlen_nonneg rest).
  rewrite (proj2 (Z.eqb_neq _ 0)) by lia.
  assert (c_strnlen (encode enc cs ++ 0 :: rest) (zlen (encode enc cs) + 1) d =
          Ret (zlen (encode enc cs)) d) as E.
  { unfold c_strnlen. rewrite nlen_text by (by apply (Forall_encode _ _ _ _ enc_text)).
    rewrite (proj2 (Z.leb_gt _ _)), (proj2 (Z.ltb_lt _ _)) by (rewrite ?zlen_app, ?zlen_cons; lia).
    done. }
  rewrite (bind_ret_eq _ _ _ _ _ E), (proj2 (Z.ltb_lt (zlen _) (zlen _ + 1))) by lia. by zcase.
Qed.

Lemma encode_terminated cs rest :
  encode enc cs ++ 0 :: rest = encode enc (cs ++ [0]) ++ rest.
Proof. by rewrite encode_snoc, enc_zero, <- app_assoc. Qed.

Lemma zlen_terminated f cs : f 0 = [0] -> zlen (encode f (cs ++ [0])) = zlen (encode f cs) + 1.
Proof. intros Hf. by rewrite encode_snoc, Hf, zlen_app. Qed.

Lemma convert_string_counts cs rest :
  text cs -> zlen (encode enc cs) < INT32_MAX -> zlen (encode out cs) < INT32_MAX ->
  convert_string (convert_n conv) (Some (encode enc cs ++ 0 :: rest)) 0 None =
  Ret (zlen (encode out cs)) None.
Proof.
  intros Hc Hn Hm. rewrite convert_string_eq by done.
  pose proof (zlen_nonneg (encode enc cs)). pose proof (zlen_nonneg (encode out cs)).
  rewrite encode_terminated, <- !zlen_terminated by done.
  rewrite (proj2 (Z.ltb_ge INT32_MAX 0)), (proj2 (Z.ltb_ge INT32_MAX _))
    by (rewrite ?zlen_terminated by done; unfold INT32_MAX in *; lia). cbn [orb]; cbv iota.
  rewrite (bind_ret_eq _ _ _ _ _ (conv_counts (cs ++ [0]) rest None (text_scalar cs Hc)
    ltac:(rewrite zlen_terminated by done; lia) ltac:(rewrite zlen_terminated by done; lia))).
  rewrite zlen_terminated by done. cbn.
  rewrite (proj2 (Z.leb_gt _ _)), (proj2 (Z.eqb_neq _ _)) by lia. cbn. unfold mret, M_ret.
  f_equal. lia.
Qed.

Lemma convert_string_stores cs rest b :
  text cs -> zlen (encode enc cs) < INT32_MAX -> zlen (encode out cs) < INT32_MAX ->
  zlen b = zlen (encode out cs) + 1 ->
  convert_string (convert_n conv) (Some (encode enc cs ++ 0 :: rest)) (zlen (encode out cs) + 1) (Some b) =
  Ret (zlen (encode out cs)) (Some (encode out cs ++ [0])).
Proof.
  intros Hc Hn Hm Hb. rewrite convert_string_eq by done.
  pose proof (zlen_nonneg (encode enc cs)). pose proof (zlen_nonneg (encode out cs)).
  rewrite encode_terminated, <- !zlen_terminated by done.
  rewrite !(proj2 (Z.ltb_ge INT32_MAX _)) by (rewrite zlen_terminated by done; lia). cbn [orb]; cbv iota.
  rewrite (bind_ret_eq _ _ _ _ _ (conv_stores (cs ++ [0]) rest b (text_scalar cs Hc)
    ltac:(rewrite zlen_terminated by done; lia) ltac:(rewrite zlen_terminated by done; lia)
    ltac:(by rewrite zlen_terminated))).
  rewrite Z.eqb_refl, Z.ltb_irrefl, andb_false_r, orb_false_r.
  rewrite (proj2 (Z.leb_gt _ _)) by (rewrite zlen_terminated by done; lia).
  unfold last_is_zero. rewrite bind_assoc, get_bind.
  rewrite (proj2 (Z.ltb_lt _ _)) by lia. rewrite ret_bind, zlen_terminated, encode_snoc, out_zero by done.
  replace (zlen (encode out cs) + 1 - 1) with (zlen (encode out cs)) by lia.
  unfold zlen at 1. rewrite Nat2Z.id, nth_middle. done.
Qed.

Context `{AllocOk}.

Lemma convert_alloc_text {S} (s : S) width cs rest :
  text cs -> 0 <= width <= 2 ->
  zlen (encode enc cs) < INT32_MAX -> zlen (encode out cs) < INT32_MAX ->
  convert_alloc width (convert_string (convert_n conv) (Some (encode enc cs ++ 0 :: rest))) s =
  Ret (Some (encode out cs ++ [0], zlen (encode out cs))) s.
Proof.
  intros Hc Hw Hn Hm. unfold convert_alloc. rewrite convert_string_counts by done.
  pose proof (zlen_nonneg (encode out cs)).
  rewrite (proj2 (Z.ltb_ge _ 0)), alloc_ok by (unfold INT32_MAX in *; nia). cbn [negb].
  rewrite convert_string_stores by (try done; apply zlen_zrepeat; lia).
  rewrite (proj2 (Z.ltb_ge _ 0)) by lia. by rewrite Z.eqb_refl.
Qed.

End Strings.

Lemma utf16_text c : scalar c /\ c <> 0 -> Forall (fun u => u <> 0) (utf16 c).
Proof. intros [Hc H0]. unfold utf16. destruct Hc; zcase; repeat constructor; word_lia. Qed.

Lemma utf8_text c : scalar c /\ c <> 0 -> Forall (fun u => u <> 0) (utf8 c).
Proof. intros [Hc H0]. unfold utf8. destruct Hc; repeat zcase; repeat constructor; word_lia. Qed.

Lemma int_WideCharToMultiByte_eq src k len d :
  0 < k -> 0 <= len ->
  int_WideCharToMultiByte src k len d = convert_with winpr_ConvertUTF16toUTF8_Internal src k len d.
Proof. intros. unfold int_WideCharToMultiByte. repeat (zcase; try lia). by rewrite ret_bind. Qed.

Lemma int_MultiByteToWideChar_eq src k len d :
  0 < k -> 0 <= len ->
  int_MultiByteToWideChar CP_UTF8 src k len d = convert_with winpr_ConvertUTF8toUTF16_Internal src k len d.
Proof. intros. unfold int_MultiByteToWideChar. repeat (zcase; try lia). by rewrite ret_bind. Qed.

(** C16: The allocating conversions of a terminated string of scalar values give its
    encoding in the other form, terminated, with its length, and are inverse to each other. *)
Theorem unicode_string_roundtrip `{AllocOk} {S} (s : S) cs junk :
  text cs -> zlen (utf16s cs) < INT32_MAX -> zlen (utf8s cs) < INT32_MAX ->
  ConvertWCharToUtf8Alloc (Some (utf16s cs ++ 0 :: junk)) s =
    Ret (Some (utf8s cs ++ [0], zlen (utf8s cs))) s /\
  ConvertUtf8ToWCharAlloc (Some (utf8s cs ++ 0 :: junk)) s =
    Ret (Some (utf16s cs ++ [0], zlen (utf16s cs))) s.
Proof.
  intros Hc H16 H8. split.
  - apply (convert_alloc_text winpr_ConvertUTF16toUTF8_Internal int_WideCharToMultiByte utf16 utf8);
      auto using utf16_to_utf8_complete, int_WideCharToMultiByte_eq, utf16_text with lia.
  - apply (convert_alloc_text winpr_ConvertUTF8toUTF16_Internal (int_MultiByteToWideChar CP_UTF8) utf8 utf16);
      auto using utf8_to_utf16_complete, int_MultiByteToWideChar_eq, utf8_text with lia.
Qed.

(** ** Examples *)

(** "aé€" and a character of the supplementary planes *)
Definition sample : list Z := [0x61; 0xE9; 0x20AC; 0x1F600].

Lemma utf16_to_utf8_exact_witness :
  utf16s sample = [0x61; 0xE9; 0x20AC; 0xD83D; 0xDE00] /\
  transcodes encodes16 utf8 (Some 8) 0 (utf16s sample)
    (targetExhausted, [0xD83D; 0xDE00], 6, [0x61; 0xC3; 0xA9; 0xE2; 0x82; 0xAC]).
Proof.
  split; [by vm_compute|].
  apply (utf16_to_utf8_exact (Some 8) (utf16s sample)); [|done].
  unfold is_u16. vm_compute utf16s. repeat constructor; lia.
Defined.

Lemma utf8_to_utf16_exact_witness :
  transcodes encodes utf16 (Some 8) 0 (utf8s sample ++ [0xC3])
    (sourceExhausted, [0xC3], 5, utf16s sample).
Proof.
  apply (utf8_to_utf16_exact (Some 8) (utf8s sample ++ [0xC3])); [|done].
  by apply bytes_check; vm_compute.
Defined.

Lemma unicode_string_roundtrip_witness :
  text sample /\
  @ConvertUtf8ToWCharAlloc alloc_always unit (Some (utf8s sample ++ [0; 7])) tt =
    Ret (Some ([0x61; 0xE9; 0x20AC; 0xD83D; 0xDE00; 0], 5)) tt.
Proof.
  assert (Ht : text sample) by (unfold text, scalar; repeat constructor; lia).
  split; [done|].
  by apply (@unicode_string_roundtrip alloc_always alloc_always_ok unit tt sample [7]).
Defined.

(** Three bytes that are not UTF-8 become U+C040: the byte after 0xED may be below 0x80. *)
Lemma bad_second_byte_accepted :
  winpr_ConvertUTF8toUTF16_Internal 3 strictConversion (Some 4) 0 [0xED; 0x41; 0x80] =
  (conversionOK, [], 1, [0xC040]).
Proof. by vm_compute. Qed.
