(* ===== verification/Zgfx.v ===== *)
(** * The bulk compressor of the graphics pipeline

    Model of [libfreerdp/codec/zgfx.c].  A segment is a flag byte and either plain bytes or a
    sequence of tokens: literals, copies from the history of the last 2.5 million bytes, and
    runs of plain bytes.  The compressor of the file only makes plain segments.

    [input] holds the bytes from [pbInputCurrent] to [pbInputEnd]. *)

From S2P Require Import Prelude BitStream Stream Tpkt Packet.

(** ** Data *)

Record ZGFX_TOKEN := mkToken {
  prefixLength : Z;
  prefixCode : Z;
  valueBits : Z;
  tokenType : Z;
  valueBase : Z
}.

Record ZGFX_CONTEXT := mkZgfx {
  Compressor : bool;
  input : list Z;
  bits : Z;
  cBitsRemaining : Z;
  BitsCurrent : Z;
  cBitsCurrent : Z;
  OutputBuffer : list Z;
  OutputCount : Z;
  HistoryBuffer : list Z;
  HistoryIndex : Z;
  HistoryBufferSize : Z
}.

Definition ZGFX_TOKEN_TABLE : list ZGFX_TOKEN := [
  mkToken 1 0 8 0 0;
  mkToken 5 17 5 1 0;
  mkToken 5 18 7 1 32;
  mkToken 5 19 9 1 160;
  mkToken 5 20 10 1 672;
  mkToken 5 21 12 1 1696;
  mkToken 5 24 0 0 0x00;
  mkToken 5 25 0 0 0x01;
  mkToken 6 44 14 1 5792;
  mkToken 6 45 15 1 22176;
  mkToken 6 52 0 0 0x02;
  mkToken 6 53 0 0 0x03;
  mkToken 6 54 0 0 0xFF;
  mkToken 7 92 18 1 54944;
  mkToken 7 93 20 1 317088;
  mkToken 7 110 0 0 0x04;
  mkToken 7 111 0 0 0x05;
  mkToken 7 112 0 0 0x06;
  mkToken 7 113 0 0 0x07;
  mkToken 7 114 0 0 0x08;
  mkToken 7 115 0 0 0x09;
  mkToken 7 116 0 0 0x0A;
  mkToken 7 117 0 0 0x0B;
  mkToken 7 118 0 0 0x3A;
  mkToken 7 119 0 0 0x3B;
  mkToken 7 120 0 0 0x3C;
  mkToken 7 121 0 0 0x3D;
  mkToken 7 122 0 0 0x3E;
  mkToken 7 123 0 0 0x3F;
  mkToken 7 124 0 0 0x40;
  mkToken 7 125 0 0 0x80;
  mkToken 8 188 20 1 1365664;
  mkToken 8 189 21 1 2414240;
  mkToken 8 252 0 0 0x0C;
  mkToken 8 253 0 0 0x38;
  mkToken 8 254 0 0 0x39;
  mkToken 8 255 0 0 0x66;
  mkToken 9 380 22 1 4511392;
  mkToken 9 381 23 1 8705696;
  mkToken 9 382 24 1 17094304].

Definition ZGFX_SEGMENTED_SINGLE : Z := 0xE0.
Definition ZGFX_SEGMENTED_MULTIPART : Z := 0xE1.
Definition ZGFX_PACKET_COMPR_TYPE_RDP8 : Z := 0x04.
Definition ZGFX_SEGMENTED_MAXSIZE : Z := 65535.
Definition PACKET_COMPRESSED : Z := 0x20.

(** [sizeof (zgfx->OutputBuffer)] and [sizeof (zgfx->HistoryBuffer)] *)
Definition output_size : Z := 65536.
Definition history_size : Z := 2500000.

Implicit Types z : ZGFX_CONTEXT.

Definition set_bits (v : Z) (remaining current count : Z) (inp : list Z) z : ZGFX_CONTEXT :=
  mkZgfx (Compressor z) inp v remaining current count (OutputBuffer z) (OutputCount z)
    (HistoryBuffer z) (HistoryIndex z) (HistoryBufferSize z).

Definition set_input (inp : list Z) (remaining : Z) z : ZGFX_CONTEXT :=
  set_bits (bits z) remaining 0 0 inp z.

Definition set_output (b : list Z) (n : Z) z : ZGFX_CONTEXT :=
  mkZgfx (Compressor z) (input z) (bits z) (cBitsRemaining z) (BitsCurrent z) (cBitsCurrent z) b n
    (HistoryBuffer z) (HistoryIndex z) (HistoryBufferSize z).

Definition set_history (b : list Z) (i : Z) z : ZGFX_CONTEXT :=
  mkZgfx (Compressor z) (input z) (bits z) (cBitsRemaining z) (BitsCurrent z) (cBitsCurrent z)
    (OutputBuffer z) (OutputCount z) b i (HistoryBufferSize z).

(** ** Bits *)

(** The loop of [zgfx_GetBits]: whole bytes, zeros behind the end of the input. *)
Fixpoint fill_bits (fuel : nat) (nbits current count : Z) (inp : list Z) : option (Z * Z * list Z) :=
  if count <? nbits then
    match fuel with
    | O => None
    | S fuel' =>
        match inp with
        | b :: rest => fill_bits fuel' nbits (u32 (u32 (Z.shiftl current 8) + b)) (u32 (count + 8)) rest
        | [] => fill_bits fuel' nbits (u32 (Z.shiftl current 8)) (u32 (count + 8)) []
        end
    end
  else Some (current, count, inp).

Definition zgfx_GetBits (nbits : Z) : M ZGFX_CONTEXT unit :=
  z ← get;
  match fill_bits (Z.to_nat (nbits / 8 + 1)) nbits (BitsCurrent z) (cBitsCurrent z) (input z) with
  | None => crash Diverges
  | Some (current, count, inp) =>
      let count := u32 (count - nbits) in
      if 32 <=? count then crash Undefined
      else
        modify (set_bits (Z.shiftr current count) (u32 (cBitsRemaining z - nbits))
                  (Z.land current (u32 (Z.shiftl 1 count - 1))) count inp)
  end.

(** ** The history *)

(** [CopyMemory (&HistoryBuffer[i], src, ...)] *)
Definition history_put (i : Z) (src : list Z) : M ZGFX_CONTEXT unit :=
  z ← get;
  if (0 <=? i) && (i + zlen src <=? zlen (HistoryBuffer z)) then
    modify (set_history (blit i src (HistoryBuffer z)) (HistoryIndex z))
  else crash Undefined.

(** [CopyMemory (..., &HistoryBuffer[i], n)] *)
Definition history_get (i n : Z) : M ZGFX_CONTEXT (list Z) :=
  z ← get;
  if (0 <=? i) && (0 <=? n) && (i + n <=? zlen (HistoryBuffer z)) then
    mret (slice i n (HistoryBuffer z))
  else crash Undefined.

Definition move_index (i : Z) : M ZGFX_CONTEXT unit :=
  modify (fun z => set_history (HistoryBuffer z) i z).

Definition zgfx_history_buffer_ring_write (src : list Z) : M ZGFX_CONTEXT unit :=
  let count := zlen src in
  if count <=? 0 then mret tt
  else
    z ← get;
    src ← (if HistoryBufferSize z <? count then
             let residue := count - HistoryBufferSize z in
             move_index (u32 ((HistoryIndex z + residue) mod HistoryBufferSize z));;
             mret (zdrop residue src)
           else mret src);
    let count := zlen src in
    z ← get;
    if HistoryIndex z + count <=? HistoryBufferSize z then
      history_put (HistoryIndex z) src;;
      count ← asserting_cast u32 count;
      let i := u32 (HistoryIndex z + count) in
      move_index (if i =? HistoryBufferSize z then 0 else i)
    else
      let front := u32 (HistoryBufferSize z - HistoryIndex z) in
      history_put (HistoryIndex z) (ztake front src);;
      history_put 0 (zdrop front src);;
      move_index (u32 (count - front)).

(** The loop that repeats what was copied, doubling its length. *)
Fixpoint repeat_copy (fuel : nat) (out : list Z) (valid bytesLeft : Z) : M ZGFX_CONTEXT (list Z) :=
  match fuel with
  | O => crash Diverges
  | S fuel' =>
      bytes ← asserting_cast s32 valid;
      let bytes := if bytesLeft <? bytes then bytesLeft else bytes in
      let out := out ++ ztake bytes out in
      if 0 <? bytesLeft - bytes then repeat_copy fuel' out (u32 (Z.shiftl valid 1)) (bytesLeft - bytes)
      else mret out
  end.

(** The bytes that are stored from [dst] on. *)
Definition zgfx_history_buffer_ring_read (offset count : Z) : M ZGFX_CONTEXT (list Z) :=
  if (count <=? 0) || (INT32_MAX <? count) then mret []
  else
    z ← get;
    off ← asserting_cast u32 offset;
    (if HistoryBufferSize z =? 0 then crash Undefined else mret tt);;
    let index := u32 (HistoryIndex z + HistoryBufferSize z - off) mod HistoryBufferSize z in
    let bytes := Z.min count offset in
    b ← asserting_cast u32 bytes;
    out ← (if u32 (index + b) <=? HistoryBufferSize z then history_get index bytes
           else
             let front := u32 (HistoryBufferSize z - index) in
             d1 ← history_get index front;
             d2 ← history_get 0 (u32 (b - front));
             mret (d1 ++ d2));
    if count - bytes =? 0 then mret out
    else repeat_copy (Z.to_nat count) out b (count - bytes).

(** ** Segments *)

(** [CopyMemory (&OutputBuffer[OutputCount], bs, ...)] with [OutputCount] moved *)
Definition output (bs : list Z) : M ZGFX_CONTEXT unit :=
  z ← get;
  if OutputCount z + zlen bs <=? zlen (OutputBuffer z) then
    modify (set_output (blit (OutputCount z) bs (OutputBuffer z)) (u32 (OutputCount z + zlen bs)))
  else crash Undefined.

Definition get_bits (n : Z) : M ZGFX_CONTEXT Z := zgfx_GetBits n;; z ← get; mret (bits z).

Definition literal (e : ZGFX_TOKEN) : M ZGFX_CONTEXT unit :=
  v ← get_bits (valueBits e);
  let c := u8 (u32 (valueBase e + v)) in
  z ← get;
  history_put (HistoryIndex z) [c];;
  let i := u32 (HistoryIndex z + 1) in
  move_index (if i =? HistoryBufferSize z then 0 else i);;
  if output_size <=? OutputCount z then failure else output [c].

(** [while (zgfx->bits == 1) { count *= 2; extra++; zgfx_GetBits (zgfx, 1); }] *)
Fixpoint count_ones (fuel : nat) (count extra : Z) : M ZGFX_CONTEXT (Z * Z) :=
  match fuel with
  | O => crash Diverges
  | S fuel' =>
      b ← get_bits 1;
      if b =? 1 then count_ones fuel' (u32 (count * 2)) (u32 (extra + 1)) else mret (count, extra)
  end.

Definition match_length : M ZGFX_CONTEXT Z :=
  b ← get_bits 1;
  if b =? 0 then mret 3
  else
    z ← get;
    '(count, extra) ← count_ones (Z.to_nat (8 * zlen (input z) + 9)) 4 2;
    v ← get_bits extra;
    mret (u32 (count + v)).

Definition copy_history (distance : Z) : M ZGFX_CONTEXT unit :=
  count ← match_length;
  z ← get;
  if output_size - OutputCount z <? count then failure
  else
    d ← asserting_cast s32 distance;
    bs ← zgfx_history_buffer_ring_read d count;
    (if zlen bs =? count then mret tt else crash Undefined);;
    zgfx_history_buffer_ring_write bs;;
    output bs.

Definition copy_unencoded : M ZGFX_CONTEXT unit :=
  count ← get_bits 15;
  modify (fun z => set_input (input z) (u32 (cBitsRemaining z - cBitsCurrent z)) z);;
  z ← get;
  if output_size - OutputCount z <? count then failure
  else if cBitsRemaining z / 8 <? count then failure
  else if zlen (input z) <? count then failure
  else
    let bs := ztake count (input z) in
    output bs;;
    zgfx_history_buffer_ring_write bs;;
    modify (fun z => set_bits (bits z) (u32 (cBitsRemaining z - 8 * count)) (BitsCurrent z)
                       (cBitsCurrent z) (zdrop count (input z)) z).

Definition token (e : ZGFX_TOKEN) : M ZGFX_CONTEXT unit :=
  if tokenType e =? 0 then literal e
  else
    v ← get_bits (valueBits e);
    let distance := u32 (valueBase e + v) in
    if negb (distance =? 0) then copy_history distance else copy_unencoded.

(** [while (haveBits < prefixLength)]; one unit of fuel for each bit that is missing *)
Fixpoint extend_prefix (n : nat) (inPrefix : Z) : M ZGFX_CONTEXT Z :=
  match n with
  | O => mret inPrefix
  | S n' => b ← get_bits 1; extend_prefix n' (u32 (u32 (Z.shiftl inPrefix 1) + b))
  end.

(** The search for the token in the table. *)
Fixpoint find_token (table : list ZGFX_TOKEN) (haveBits inPrefix : Z) : M ZGFX_CONTEXT unit :=
  match table with
  | [] => mret tt
  | e :: rest =>
      inPrefix ← extend_prefix (Z.to_nat (prefixLength e - haveBits)) inPrefix;
      let haveBits := Z.max haveBits (prefixLength e) in
      if inPrefix =? prefixCode e then token e else find_token rest haveBits inPrefix
  end.

(** [while (zgfx->cBitsRemaining)] *)
Fixpoint decode_tokens (fuel : nat) : M ZGFX_CONTEXT unit :=
  z ← get;
  if cBitsRemaining z =? 0 then mret tt
  else
    match fuel with
    | O => crash Diverges
    | S fuel' => find_token ZGFX_TOKEN_TABLE 0 0;; decode_tokens fuel'
    end.

(** More than the tokens that can be read before the output is full. *)
Definition token_fuel (n : Z) : nat := Z.to_nat (8 * n + output_size + 1).

Definition on_context {A} (m : M ZGFX_CONTEXT A) : M (ZGFX_CONTEXT * wStream) A := fun x =>
  match m x.1 with
  | Ret a z => Ret a (z, x.2)
  | Fail z => Fail (z, x.2)
  | Crash f => Crash f
  end.

Definition zgfx_decompress_segment (segmentSize : Z) : M (ZGFX_CONTEXT * wStream) unit :=
  if segmentSize <? 2 then failure
  else
    let cbSegment := segmentSize - 1 in
    on_stream (Stream_CheckAndLogRequiredLength segmentSize);;
    (if UINT32_MAX <? segmentSize then failure else mret tt);;
    flags ← on_stream Stream_Read_UINT8;
    set_module (fun z => set_output (OutputBuffer z) 0 z);;
    seg ← on_stream (load cbSegment);
    on_stream (Stream_SafeSeek cbSegment);;
    if Z.land flags PACKET_COMPRESSED =? 0 then
      on_context (zgfx_history_buffer_ring_write seg);;
      (if output_size <? cbSegment then failure else mret tt);;
      on_context (output seg)
    else
      let inp := ztake (cbSegment - 1) seg in
      let last := nth (Z.to_nat (cbSegment - 1)) seg 0 in
      let nbits := 8 * (cbSegment - 1) in
      if UINT32_MAX <? nbits then failure
      else if nbits <? last then failure
      else
        set_module (set_input inp (u32 (nbits - last)));;
        on_context (decode_tokens (token_fuel (cbSegment - 1))).

(** ** Packets *)

Section Blocks.
Context `{Alloc}.

(** The block behind [pConcatenated] up to [used]; [realloc] gets 64 bytes more. *)
Definition zgfx_append (concatenated : list Z) (uncompressedSize : Z) :
    M (ZGFX_CONTEXT * wStream) (list Z) :=
  z ← get_module;
  let used := zlen concatenated in
  if UINT32_MAX - used <? OutputCount z then failure
  else if uncompressedSize <? used + OutputCount z then failure
  else if negb (malloc_ok (used + OutputCount z + 64)) then failure
  else
    if OutputCount z <=? zlen (OutputBuffer z) then
      mret (concatenated ++ ztake (OutputCount z) (OutputBuffer z))
    else crash Undefined.

(** [for (segmentNumber = 0; segmentNumber < segmentCount; segmentNumber++)] *)
Fixpoint decompress_segments (n : nat) (uncompressedSize : Z) (concatenated : list Z) :
    M (ZGFX_CONTEXT * wStream) (list Z) :=
  match n with
  | O => mret concatenated
  | S n' =>
      on_stream (Stream_CheckAndLogRequiredLength 4);;
      segmentSize ← on_stream Stream_Read_UINT32;
      zgfx_decompress_segment segmentSize;;
      concatenated ← zgfx_append concatenated uncompressedSize;
      decompress_segments n' uncompressedSize concatenated
  end.

Definition decompress_stream : M (ZGFX_CONTEXT * wStream) (list Z) :=
  on_stream (Stream_CheckAndLogRequiredLength 1);;
  descriptor ← on_stream Stream_Read_UINT8;
  if descriptor =? ZGFX_SEGMENTED_SINGLE then
    n ← on_stream Stream_GetRemainingLength;
    zgfx_decompress_segment n;;
    z ← get_module;
    if 0 <? OutputCount z then
      d ← zgfx_append [] (OutputCount z);
      if negb (zlen d =? OutputCount z) then failure else mret d
    else mret []
  else if descriptor =? ZGFX_SEGMENTED_MULTIPART then
    on_stream (Stream_CheckAndLogRequiredLength 6);;
    segmentCount ← on_stream Stream_Read_UINT16;
    uncompressedSize ← on_stream Stream_Read_UINT32;
    d ← decompress_segments (Z.to_nat segmentCount) uncompressedSize [];
    if negb (zlen d =? uncompressedSize) then failure else mret d
  else failure.

(** The data of [*ppDstData], whose length is [*pDstSize]; no data is [NULL]. *)
Definition zgfx_decompress (src : list Z) : M ZGFX_CONTEXT (list Z) := fun z =>
  match decompress_stream (z, Stream_StaticInit src) with
  | Ret d (z', _) => Ret d z'
  | Fail (z', _) => Fail z'
  | Crash f => Crash f
  end.

(** The flags of the caller are the state of the compressor. *)
Definition zgfx_compress_segment (src : list Z) : M (Z * wStream) unit :=
  on_stream (Stream_EnsureRemainingCapacity (u32 (zlen src + 1)));;
  set_module (fun f => Z.lor f ZGFX_PACKET_COMPR_TYPE_RDP8);;
  flags ← get_module;
  f ← asserting_cast u8 flags;
  on_stream (Stream_Write_UINT8 f);;
  on_stream (Stream_Write src).

(** The end of a fragment: the segment, with its size in front when [posDstSize], where it goes, is not zero. *)
Definition finish_fragment (posDstSize : Z) (src : list Z) : M (Z * wStream) unit :=
  posDataStart ← on_stream Stream_GetPosition;
  zgfx_compress_segment src;;
  (if negb (posDstSize =? 0) then
     p ← on_stream Stream_GetPosition;
     let DstSize := usize (p - posDataStart) in
     if UINT32_MAX <? DstSize then failure
     else
       on_stream (go_to posDstSize);;
       on_stream (Stream_Write_UINT32 DstSize);;
       on_stream (go_to (posDataStart + DstSize))
   else mret tt).

(** One fragment; the position of the segment count is that of the first one. *)
Definition compress_fragment (fragment total : Z) (src : list Z) (uncompressedSize : Z) :
    M (Z * wStream) (option Z) :=
  on_stream (Stream_EnsureRemainingCapacity 12);;
  posSegmentCount ←
    (if fragment =? 0 then
       on_stream (Stream_Write_UINT8 (if total =? 0 then ZGFX_SEGMENTED_SINGLE
                                      else ZGFX_SEGMENTED_MULTIPART));;
       if 0 <? total then
         p ← on_stream Stream_GetPosition;
         on_stream (Stream_Seek 2);;
         on_stream (Stream_Write_UINT32 uncompressedSize);;
         mret (Some p)
       else mret None
     else mret None);
  posDstSize ←
    (if (0 <? fragment) || (0 <? total) then
       p ← on_stream Stream_GetPosition; on_stream (Stream_Seek 4);; mret p
     else mret 0);
  finish_fragment posDstSize src;;
  mret posSegmentCount.

(** The loop over the fragments; the fuel is the length of the data and one. *)
Fixpoint compress_fragments (fuel : nat) (fragment : Z) (rest : list Z) (size : Z)
    (posSegmentCount : Z) : M (Z * wStream) (Z * Z) :=
  if (0 <? zlen rest) || (fragment =? 0) then
    match fuel with
    | O => crash Diverges
    | S fuel' =>
        let SrcSize := Z.min (zlen rest) ZGFX_SEGMENTED_MAXSIZE in
        p ← compress_fragment fragment (zlen rest - SrcSize) (ztake SrcSize rest) size;
        compress_fragments fuel' (fragment + 1) (zdrop SrcSize rest) size (default posSegmentCount p)
    end
  else mret (fragment, posSegmentCount).

Definition zgfx_compress_to_stream (src : list Z) : M (Z * wStream) unit :=
  '(fragment, posSegmentCount) ← compress_fragments (S (length src)) 0 src (zlen src) 0;
  on_stream Stream_SealLength;;
  if negb (posSegmentCount =? 0) then
    on_stream (go_to posSegmentCount);;
    f ← asserting_cast u16 fragment;
    on_stream (Stream_Write_UINT16 f);;
    n ← on_stream Stream_Length;
    on_stream (go_to n)
  else mret tt.

(** The flags afterwards and the data; what is handed out with a failing status is left out. *)
Definition zgfx_compress (junk : Z -> list Z) (flags : Z) (src : list Z) : outcome unit (Z * list Z) :=
  match Stream_New None (junk (zlen src)) (zlen src) with
  | None => Crash AssertFailed
  | Some s =>
      match zgfx_compress_to_stream src (flags, s) with
      | Ret _ (f, s') => if UINT32_MAX <? pointer s' then Fail tt else Ret (f, written s') tt
      | Fail _ => Fail tt
      | Crash f => Crash f
      end
  end.

Definition zgfx_context_reset : M ZGFX_CONTEXT unit := move_index 0.

Definition zgfx_context_new (compressor : bool) : option ZGFX_CONTEXT :=
  if malloc_ok (output_size + history_size + 64) then
    Some (mkZgfx compressor [] 0 0 0 0 (zrepeat output_size 0) 0 (zrepeat history_size 0) 0 history_size)
  else None.

End Blocks.
