(* ===== verification/ZgfxDecode.v ===== *)
(** * Theorems on the bulk compressor of the graphics pipeline

    The decoder of [Zgfx] against the tokens its input spells, its safety on every input, and
    the round trip with the compressor of the file. *)

From S2P Require Import Prelude BitStream Stream Tpkt Packet Zgfx.

Implicit Types z : ZGFX_CONTEXT.

(** ** Bits *)

(** The decoder of the bytes [b] is at bit [p]: whole bytes were taken, and what is left of
    them is in [BitsCurrent]. *)
Record reads (b : list Z) (p : Z) z : Prop := mk_reads {
  reads_start : 0 <= p;
  reads_remaining : is_u32 (cBitsRemaining z);
  reads_count : 0 <= cBitsCurrent z < 8;
  reads_aligned : (p + cBitsCurrent z) mod 8 = 0;
  reads_current : BitsCurrent z = bv (bit_of b) p (cBitsCurrent z);
  reads_input : input z = zdrop ((p + cBitsCurrent z) / 8) b
}.

Lemma zdrop_byte b k : 0 <= k ->
  match zdrop k b with
  | x :: rest => byte_at b k = x /\ rest = zdrop (k + 1) b
  | [] => byte_at b k = 0 /\ zdrop (k + 1) b = []
  end.
Proof.
  intros Hk. destruct (Z.lt_ge_cases k (zlen b)).
  - pose proof (ztake_zdrop k b) as Hs. destruct (zdrop k b) as [|x rest] eqn:E.
    { pose proof (zlen_zdrop k b ltac:(lia)) as Hl. rewrite E, zlen_nil in Hl. lia. }
    pose proof (zlen_ztake k b ltac:(lia)) as Ht. split.
    + unfold byte_at. rewrite <- Hs at 1. rewrite lookup_app_r by (unfold zlen in Ht; lia).
      replace (Z.to_nat k - length (ztake k b))%nat with 0%nat by (unfold zlen in Ht; lia). done.
    + rewrite <- Hs. rewrite zdrop_app_ge by lia. rewrite Ht. replace (k + 1 - k) with 1 by lia. done.
  - rewrite !zdrop_all by lia. split; [|done]. apply byte_at_beyond. lia.
Qed.

Lemma fill_bits_spec b p nbits fuel k :
  bytes b -> 0 <= p -> 0 <= k -> 0 <= 8 * k - p -> 0 <= nbits < 2 ^ 32 - 16 ->
  8 * k - p < nbits + 8 -> nbits <= 8 * k - p + 8 * Z.of_nat fuel ->
  exists k', 0 <= k' /\ nbits <= 8 * k' - p < Z.max (nbits + 8) (8 * k - p + 1) /\
    fill_bits fuel nbits (bv (bit_of b) p (8 * k - p) mod 2 ^ 32) (8 * k - p) (zdrop k b) =
    Some (bv (bit_of b) p (8 * k' - p) mod 2 ^ 32, 8 * k' - p, zdrop k' b).
Proof.
  intros Hb Hp. revert k. induction fuel as [|fuel IH]; intros k Hk Hc Hn Hu Hf.
  - exists k. split; [done|]. split; [lia|]. simpl. by rewrite (proj2 (Z.ltb_ge _ _)) by lia.
  - simpl. destruct (Z.ltb_spec (8 * k - p) nbits) as [Hlt|Hge].
    2: { exists k. split; [done|]. split; [lia|done]. }
    assert (E : bv (bit_of b) p (8 * (k + 1) - p) = bv (bit_of b) p (8 * k - p) * 2 ^ 8 + byte_at b k).
    { replace (8 * (k + 1) - p) with (8 * k - p + 8) by lia. rewrite bv_app by lia. f_equal.
      replace (p + (8 * k - p)) with (8 * k) by lia. apply bv_byte; [done|]. by apply byte_at_range. }
    assert (E32 : u32 (u32 (Z.shiftl (bv (bit_of b) p (8 * k - p) mod 2 ^ 32) 8) + byte_at b k) =
                  bv (bit_of b) p (8 * (k + 1) - p) mod 2 ^ 32).
    { rewrite E, Z.shiftl_mul_pow2 by lia. rewrite !u32_pow. rewrite Zplus_mod_idemp_l.
      rewrite Z.add_mod, Z.mul_mod_idemp_l, <- Z.add_mod by lia. done. }
    assert (Ec : u32 (8 * k - p + 8) = 8 * (k + 1) - p) by word_lia.
    pose proof (zdrop_byte b k Hk) as Hd. destruct (IH (k + 1)) as (k' & H0 & H1 & H2); [lia..|].
    exists k'. split; [done|]. split; [lia|]. rewrite <- H2, Ec.
    destruct (zdrop k b) as [|x rest]; destruct Hd as [Hx Hr].
    + rewrite <- E32, Hx, Z.add_0_r, Hr. f_equal. unfold u32. rewrite Z.mod_mod; lia.
    + by rewrite <- E32, Hx, Hr.
Qed.

(** [z'] is [z] after the bit reader moved: everything but the reader is as it was. *)
Definition same_rest z z' : Prop :=
  exists v r c n i, z' = set_bits v r c n i z.

(** [n] bits are read; up to 24 of them are seen in [bits]. *)
Lemma GetBits_reads b p z n :
  bytes b -> reads b p z -> 0 <= n < 2 ^ 32 - 16 ->
  exists v c k i, let z' := set_bits v (u32 (cBitsRemaining z - n)) c k i z in
    zgfx_GetBits n z = Ret tt z' /\ reads b (p + n) z' /\ 0 <= v < 2 ^ 32 /\
    (n <= 24 -> v = bv (bit_of b) p n).
Proof.
  intros Hb [Hp Hu Hc Ha Hcur Hi] Hn.
  set (k := (p + cBitsCurrent z) / 8) in *.
  assert (Ek : 8 * k = p + cBitsCurrent z) by (subst k; Z.div_mod_to_equations; lia).
  destruct (fill_bits_spec b p n (Z.to_nat (n / 8 + 1)) k) as (k' & Hk' & Hr & E); try lia; [done|..].
  { rewrite Z2Nat.id by (Z.div_mod_to_equations; lia). Z.div_mod_to_equations. lia. }
  replace (8 * k - p) with (cBitsCurrent z) in E, Hr by lia.
  rewrite Z.mod_small in E.
  2: { pose proof (bv_range (bit_of b) p (cBitsCurrent z) ltac:(lia)).
       assert (2 ^ cBitsCurrent z <= 2 ^ 32) by (apply Z.pow_le_mono_r; lia). lia. }
  set (r := 8 * k' - p - n). assert (0 <= r < 8) by lia.
  replace (8 * k' - p) with (n + r) in E by lia.
  assert (Hlow : bv (bit_of b) p (n + r) mod 2 ^ 32 mod 2 ^ r = bv (bit_of b) (p + n) r).
  { rewrite Z.mod_mod_divide by (exists (2 ^ (32 - r)); rewrite <- Z.pow_add_r by lia; f_equal; lia).
    rewrite bv_app by lia. apply low_part, bv_range. lia. }
  exists (Z.shiftr (bv (bit_of b) p (n + r) mod 2 ^ 32) r), (bv (bit_of b) (p + n) r), r, (zdrop k' b).
  cbv zeta. split; [|split; [|split]].
  - unfold zgfx_GetBits. rewrite get_bind, Hcur, Hi, E. cbv zeta.
    replace (u32 (n + r - n)) with r by word_lia. rewrite (proj2 (Z.leb_gt _ _)) by lia.
    unfold modify. f_equal. f_equal. rewrite <- Hlow.
    rewrite (land_mask _ r) by (try lia; rewrite Z.shiftl_mul_pow2 by lia;
      pose proof (Z.pow_pos_nonneg 2 r ltac:(lia) ltac:(lia));
      pose proof (Z.pow_lt_mono_r 2 r 8 ltac:(lia) ltac:(lia) ltac:(lia));
      word_lia). done.
  - split; simpl; try lia; try done; [word_lia|..].
    + Z.div_mod_to_equations. lia.
    + f_equal. apply Z.div_unique with 0; lia.
  - pose proof (Z.mod_pos_bound (bv (bit_of b) p (n + r)) (2 ^ 32) ltac:(lia)).
    rewrite Z.shiftr_div_pow2 by lia. split; [apply Z.div_pos; lia|].
    apply Z.div_lt_upper_bound; [lia|]. pose proof (Z.pow_pos_nonneg 2 r ltac:(lia) ltac:(lia)). nia.
  - intros. rewrite Z.shiftr_div_pow2 by lia. rewrite Z.mod_small.
    + rewrite bv_app by lia. apply high_part; [lia|]. apply bv_range. lia.
    + pose proof (bv_range (bit_of b) p (n + r) ltac:(lia)).
      assert (2 ^ (n + r) <= 2 ^ 32) by (apply Z.pow_le_mono_r; lia). lia.
Qed.

(** ** The history *)

Record zgfx_ok z : Prop := mk_zgfx_ok {
  ok_size : 65536 <= HistoryBufferSize z < 2 ^ 31;
  ok_block : zlen (HistoryBuffer z) = HistoryBufferSize z;
  ok_index : 0 <= HistoryIndex z < HistoryBufferSize z;
  ok_output : zlen (OutputBuffer z) = output_size;
  ok_count : 0 <= OutputCount z <= output_size
}.

(** The bytes of the ring, the oldest first. *)
Definition rot (i : Z) (d : list Z) : list Z := zdrop i d ++ ztake i d.
Definition history z : list Z := rot (HistoryIndex z) (HistoryBuffer z).

(** The newest bytes, as many as before. *)
Definition push (h bs : list Z) : list Z := zdrop (zlen bs) (h ++ bs).

Lemma zlen_rot i d : 0 <= i <= zlen d -> zlen (rot i d) = zlen d.
Proof. intros. unfold rot. rewrite zlen_app, zlen_zdrop, zlen_ztake; lia. Qed.

Lemma zlen_history z : zgfx_ok z -> zlen (history z) = HistoryBufferSize z.
Proof. intros []. unfold history. rewrite zlen_rot; lia. Qed.

Lemma zlen_push h bs : zlen (push h bs) = zlen h.
Proof.
  pose proof (zlen_nonneg h). pose proof (zlen_nonneg bs).
  unfold push. rewrite zlen_zdrop; rewrite zlen_app; lia.
Qed.

Lemma push_push h a b : push (push h a) b = push h (a ++ b).
Proof.
  pose proof (zlen_nonneg h). pose proof (zlen_nonneg a). pose proof (zlen_nonneg b).
  unfold push at 1 3. rewrite app_assoc, zlen_app.
  unfold push. rewrite <- (zdrop_app_le (zlen a)) by (rewrite zlen_app; lia).
  rewrite zdrop_zdrop by lia. done.
Qed.

Lemma push_nil h : push h [] = h.
Proof. unfold push. by rewrite app_nil_r, zdrop_0. Qed.

Lemma push_all h bs : zlen h <= zlen bs -> push h bs = zdrop (zlen bs - zlen h) bs.
Proof. intros. pose proof (zlen_nonneg h). unfold push. by rewrite zdrop_app_ge by lia. Qed.

Lemma rot_write_linear i src d :
  0 <= i -> i + zlen src <= zlen d -> rot (i + zlen src) (blit i src d) = push (rot i d) src.
Proof.
  intros Hi Hl. pose proof (zlen_nonneg src). unfold rot, push.
  rewrite blit_ztake, blit_zdrop by lia.
  rewrite <- !app_assoc. rewrite zdrop_app_le by (rewrite zlen_zdrop; lia).
  rewrite zdrop_zdrop by lia. done.
Qed.

Lemma rot_full d : rot (zlen d) d = rot 0 d.
Proof. unfold rot. by rewrite zdrop_all, ztake_all, zdrop_0, ztake_0, app_nil_r by lia. Qed.

Lemma rot_write_wrap i src d :
  0 <= i < zlen d -> zlen d < i + zlen src -> zlen src <= zlen d ->
  let front := zlen d - i in
  rot (zlen src - front) (blit 0 (zdrop front src) (blit i (ztake front src) d)) = push (rot i d) src.
Proof.
  intros Hi Hl Hs front. pose proof (zlen_nonneg src). unfold rot, push.
  assert (Lt : zlen (ztake front src) = front) by (apply zlen_ztake; lia).
  assert (Ld : zlen (zdrop front src) = zlen src - front) by (apply zlen_zdrop; lia).
  assert (L1 : zlen (blit i (ztake front src) d) = zlen d) by (apply zlen_blit; lia).
  rewrite zdrop_blit_after by lia. rewrite zdrop_blit_before by lia.
  rewrite blit_end by (rewrite ?zlen_zdrop; lia).
  replace (zlen src - front) with (0 + zlen (zdrop front src)) at 3 by lia.
  rewrite blit_ztake by lia. rewrite ztake_0. simpl app.
  rewrite <- !app_assoc, ztake_zdrop.
  rewrite zdrop_app_ge by (rewrite zlen_zdrop; lia). rewrite zlen_zdrop by lia.
  fold front. rewrite zdrop_app_le by (rewrite zlen_ztake; lia).
  f_equal. by rewrite zdrop_ztake by lia.
Qed.

Lemma history_put_bind {A} i src z (k : unit -> M ZGFX_CONTEXT A) :
  0 <= i -> i + zlen src <= zlen (HistoryBuffer z) ->
  (history_put i src ≫= k) z = k tt (set_history (blit i src (HistoryBuffer z)) (HistoryIndex z) z).
Proof.
  intros. unfold history_put. rewrite bind_assoc, get_bind.
  by rewrite (proj2 (Z.leb_le _ _)), (proj2 (Z.leb_le _ _)) by lia.
Qed.

(** [z'] is [z] with the bytes [bs] added to the history. *)
Definition remembers (bs : list Z) z z' : Prop :=
  exists b i, z' = set_history b i z /\ (zgfx_ok z -> zgfx_ok z') /\ history z' = push (history z) bs.

(** At most a whole ring. *)
Lemma ring_write_short src z :
  zgfx_ok z -> 0 < zlen src <= HistoryBufferSize z ->
  exists z', (if HistoryIndex z + zlen src <=? HistoryBufferSize z then
      history_put (HistoryIndex z) src;;
      count ← asserting_cast u32 (zlen src);
      let i := u32 (HistoryIndex z + count) in
      move_index (if i =? HistoryBufferSize z then 0 else i)
    else
      let front := u32 (HistoryBufferSize z - HistoryIndex z) in
      history_put (HistoryIndex z) (ztake front src);;
      history_put 0 (zdrop front src);;
      move_index (u32 (zlen src - front))) z = Ret tt z' /\ remembers src z z'.
Proof.
  intros [Hs Hb Hi Ho Hc] Hn. destruct (Z.leb_spec (HistoryIndex z + zlen src) (HistoryBufferSize z)).
  - rewrite history_put_bind by lia.
    rewrite (bind_ret_eq _ _ _ _ _ (asserting_cast_eq u32 (zlen src) _ ltac:(word_lia))). cbv zeta.
    eexists. split; [done|].
    replace (u32 (HistoryIndex z + zlen src)) with (HistoryIndex z + zlen src) by word_lia.
    eexists _, _. split; [done|].
    assert (Hl : zlen (blit (HistoryIndex z) src (HistoryBuffer z)) = HistoryBufferSize z)
      by (rewrite zlen_blit; lia).
    split; [intros _; split; simpl; try zcase; lia|].
    unfold history. simpl. rewrite <- rot_write_linear by lia.
    destruct (Z.eqb_spec (HistoryIndex z + zlen src) (HistoryBufferSize z)) as [E|]; [|done].
    rewrite E, <- Hl. by rewrite rot_full.
  - set (front := HistoryBufferSize z - HistoryIndex z).
    assert (u32 front = front) as -> by (subst front; word_lia). cbv zeta.
    assert (Lt : zlen (ztake front src) = front) by (apply zlen_ztake; lia).
    assert (Ld : zlen (zdrop front src) = zlen src - front) by (apply zlen_zdrop; lia).
    assert (L1 : zlen (blit (HistoryIndex z) (ztake front src) (HistoryBuffer z)) = HistoryBufferSize z)
      by (rewrite zlen_blit; lia).
    rewrite !history_put_bind by (simpl; lia).
    eexists. split; [done|]. replace (u32 (zlen src - front)) with (zlen src - front) by word_lia.
    eexists _, _. split; [done|]. split.
    + intros _. split; simpl; try lia. rewrite zlen_blit; lia.
    + unfold history. simpl. subst front. rewrite <- Hb. apply rot_write_wrap; lia.
Qed.

Lemma ring_write_spec src z :
  zgfx_ok z -> exists z', zgfx_history_buffer_ring_write src z = Ret tt z' /\ remembers src z z'.
Proof.
  intros Hz. pose proof (Hz) as [Hs Hb Hi Ho Hc]. unfold zgfx_history_buffer_ring_write.
  pose proof (zlen_nonneg src). destruct (Z.leb_spec (zlen src) 0).
  { exists z. split; [done|]. rewrite (zlen_zero_inv src) by lia.
    exists (HistoryBuffer z), (HistoryIndex z). destruct z. split; [done|]. split; [done|].
    by rewrite push_nil. }
  rewrite get_bind. destruct (Z.ltb_spec (HistoryBufferSize z) (zlen src)) as [Hlt|Hge].
  - set (residue := zlen src - HistoryBufferSize z).
    set (i := u32 ((HistoryIndex z + residue) mod HistoryBufferSize z)).
    assert (0 <= i < HistoryBufferSize z).
    { pose proof (Z.mod_pos_bound (HistoryIndex z + residue) (HistoryBufferSize z) ltac:(lia)).
      subst i. word_lia. }
    set (z1 := set_history (HistoryBuffer z) i z).
    assert (Hz1 : zgfx_ok z1) by (split; done).
    assert (Hl : zlen (zdrop residue src) = HistoryBufferSize z) by (rewrite zlen_zdrop; lia).
    destruct (ring_write_short (zdrop residue src) z1 Hz1) as (z' & E & b & j & -> & Hok & Hh).
    { simpl. lia. }
    exists (set_history b j z1). split; [exact E|]. exists b, j. split; [done|]. split; [auto|].
    rewrite Hh, !push_all; rewrite ?zlen_history, ?Hl by done; simpl; try lia.
    rewrite Z.sub_diag, zdrop_0. done.
  - rewrite ret_bind. destruct (ring_write_short src z Hz) as (z' & E & Hr); [lia|].
    exists z'. by split.
Qed.

(** *** Copies *)

(** The meaning of a copy: one byte after the other, each from [d] bytes back, so that a copy
    longer than its distance repeats itself. *)
Fixpoint lz_copy (n : nat) (d : Z) (h : list Z) : list Z :=
  match n with
  | O => []
  | S n' => let c := nth (Z.to_nat (zlen h - d)) h 0 in c :: lz_copy n' d (h ++ [c])
  end.

(** The first [n] bytes of [p] repeated for ever. *)
Definition cyc (p : list Z) (n : nat) : list Z :=
  map (fun j => nth (j mod length p) p 0) (seq 0 n).

Lemma zlen_cyc p n : zlen (cyc p n) = Z.of_nat n.
Proof. unfold cyc, zlen. by rewrite length_map, length_seq. Qed.

Lemma cyc_cons x p n : cyc (x :: p) (S n) = x :: cyc (p ++ [x]) n.
Proof.
  unfold cyc. cbn [seq map]. rewrite Nat.Div0.mod_0_l. f_equal.
  rewrite <- seq_shift, map_map. apply map_ext. intros j.
  rewrite length_app. simpl length. set (m := length p). replace (m + 1)%nat with (S m) by lia.
  destruct (Nat.eq_dec (j mod S m) m) as [E|Hne].
  - replace (S j mod S m)%nat with 0%nat.
    + rewrite E, app_nth2 by (subst m; lia). subst m. by rewrite Nat.sub_diag.
    + rewrite <- Nat.add_1_r, Nat.Div0.add_mod, E. destruct m; [by rewrite !Nat.mod_1_r|].
      rewrite (Nat.mod_small 1) by lia. by rewrite Nat.add_1_r, Nat.Div0.mod_same.
  - pose proof (Nat.mod_upper_bound j (S m) ltac:(lia)).
    replace (S j mod S m)%nat with (S (j mod S m)).
    + rewrite app_nth1 by (subst m; lia). done.
    + rewrite <- (Nat.add_1_r j), Nat.Div0.add_mod. destruct m; [lia|].
      rewrite (Nat.mod_small 1) by lia. rewrite (Nat.mod_small (_ + _)) by lia. lia.
Qed.

Lemma lz_copy_cyc n d h :
  0 < d <= zlen h -> lz_copy n d h = cyc (zdrop (zlen h - d) h) n.
Proof.
  revert h. induction n as [|n IH]; intros h Hd; [done|]. simpl.
  assert (Hn : nth (Z.to_nat (zlen h - d)) h 0 = nth 0 (zdrop (zlen h - d) h) 0).
  { unfold zdrop. rewrite nth_skipn. f_equal. lia. }
  pose proof (zlen_zdrop (zlen h - d) h ltac:(lia)) as Hl. rewrite Hn.
  rewrite IH by (rewrite zlen_app; change (zlen [_]) with 1; lia).
  destruct (zdrop (zlen h - d) h) as [|x p] eqn:E; [rewrite zlen_nil in Hl; lia|]. simpl nth.
  rewrite cyc_cons. do 2 f_equal. rewrite zlen_app. change (zlen [x]) with 1.
  rewrite zdrop_app_le by lia. f_equal.
  replace (zlen h + 1 - d) with (zlen h - d + 1) by lia. rewrite <- zdrop_zdrop, E by lia.
  by rewrite zdrop_cons, zdrop_0 by lia.
Qed.

Lemma cyc_app p m n : (m mod length p = 0)%nat -> cyc p (m + n) = cyc p m ++ cyc p n.
Proof.
  intros Hm. unfold cyc. rewrite seq_app, map_app. f_equal.
  rewrite Nat.add_0_l, <- (Nat.add_0_r m) at 1. rewrite <- (fmap_add_seq m 0 n).
  change (Nat.add m <$> seq 0 n) with (map (Nat.add m) (seq 0 n)). rewrite map_map.
  apply map_ext. intros j. f_equal. destruct (length p) as [|l].
  - simpl. simpl in Hm. lia.
  - rewrite Nat.Div0.add_mod, Hm, Nat.add_0_l. apply Nat.Div0.mod_mod.
Qed.

Lemma cyc_take p m n : (n <= m)%nat -> ztake (Z.of_nat n) (cyc p m) = cyc p n.
Proof.
  intros Hn. unfold cyc, ztake. rewrite Nat2Z.id, firstn_map, take_seq. by rewrite Nat.min_l by lia.
Qed.

Lemma cyc_short p n : (n <= length p)%nat -> cyc p n = ztake (Z.of_nat n) p.
Proof.
  intros Hn. apply nth_ext with 0 0.
  - unfold cyc, ztake. rewrite length_map, length_seq, length_take. lia.
  - unfold cyc. rewrite length_map, length_seq. intros j Hj.
    rewrite (nth_indep _ 0 (nth (0 mod length p)%nat p 0)) by (rewrite length_map, length_seq; lia).
    rewrite (map_nth (fun j => nth (j mod length p)%nat p 0) (seq 0 n) 0%nat j), seq_nth by lia.
    unfold ztake. rewrite nth_firstn, Nat2Z.id. rewrite (proj2 (Nat.ltb_lt _ _)) by lia.
    by rewrite Nat.mod_small by lia.
Qed.

(** The loop that doubles what was copied repeats the first [length p] bytes. *)
Lemma repeat_copy_spec p fuel k n z :
  (0 < length p)%nat -> let m := (length p * 2 ^ k)%nat in
  Z.of_nat n < 2 ^ 30 -> (m < n)%nat -> (n - m <= fuel)%nat ->
  repeat_copy fuel (cyc p m) (Z.of_nat m) (Z.of_nat n - Z.of_nat m) z = Ret (cyc p n) z.
Proof.
  intros Hp. revert k. induction fuel as [|fuel IH]; intros k m Hn Hm Hf; [lia|].
  simpl. assert (0 < m)%nat by (pose proof (Nat.pow_nonzero 2 k); subst m; nia).
  rewrite (bind_ret_eq _ _ _ (Z.of_nat m) z).
  2: { apply asserting_cast_eq. unfold s32. rewrite Z.mod_small by lia.
       by rewrite (proj2 (Z.ltb_lt _ _)) by lia. }
  assert (Hmod : (m mod length p = 0)%nat) by (subst m; rewrite Nat.mul_comm; apply Nat.Div0.mod_mul).
  assert (Eapp : forall j, (j <= m)%nat -> cyc p m ++ ztake (Z.of_nat j) (cyc p m) = cyc p (m + j)).
  { intros j Hj. by rewrite cyc_take, cyc_app by lia. }
  assert (E2 : u32 (Z.shiftl (Z.of_nat m) 1) = Z.of_nat (length p * 2 ^ S k)).
  { rewrite Z.shiftl_mul_pow2 by lia. subst m. rewrite Nat.pow_succ_r'. word_lia. }
  cbv zeta. rewrite E2. destruct (Z.ltb_spec (Z.of_nat n - Z.of_nat m) (Z.of_nat m)).
  - rewrite Z.sub_diag. rewrite (proj2 (Z.ltb_ge 0 0)) by lia.
    replace (Z.of_nat n - Z.of_nat m) with (Z.of_nat (n - m)) by lia. rewrite Eapp by lia.
    unfold mret, M_ret. do 2 f_equal. lia.
  - rewrite Eapp by lia. assert (E3 : (m + m = length p * 2 ^ S k)%nat)
      by (subst m; rewrite Nat.pow_succ_r'; lia).
    destruct (Z.ltb_spec 0 (Z.of_nat n - Z.of_nat m - Z.of_nat m)).
    + rewrite E3. replace (Z.of_nat n - Z.of_nat m - Z.of_nat m) with
        (Z.of_nat n - Z.of_nat (length p * 2 ^ S k)) by lia. apply IH; lia.
    + unfold mret, M_ret. do 2 f_equal. lia.
Qed.

Lemma rot_rot i j d :
  0 <= i < zlen d -> 0 <= j < zlen d -> rot ((i + j) mod zlen d) d = rot j (rot i d).
Proof.
  intros Hi Hj. unfold rot. destruct (Z.lt_ge_cases (i + j) (zlen d)).
  - rewrite Z.mod_small by lia.
    rewrite zdrop_app_le, ztake_app_le by (rewrite zlen_zdrop; lia).
    rewrite zdrop_zdrop, <- app_assoc by lia. f_equal. symmetry. apply ztake_slice; lia.
  - replace ((i + j) mod zlen d) with (i + j - zlen d)
      by (apply Z.mod_unique with 1; lia).
    rewrite zdrop_app_ge, ztake_app_ge by (rewrite zlen_zdrop; lia). rewrite zlen_zdrop by lia.
    replace (j - (zlen d - i)) with (i + j - zlen d) by lia.
    rewrite zdrop_ztake, ztake_ztake by lia. rewrite Z.min_l by lia. rewrite app_assoc.
    f_equal. rewrite <- (ztake_zdrop (i - (i + j - zlen d)) (zdrop (i + j - zlen d) d)) at 1.
    f_equal. rewrite zdrop_zdrop by lia. f_equal. lia.
Qed.

(** Reading on from an index, around the end. *)
Lemma ring_get_eq i n z :
  zgfx_ok z -> 0 <= i < HistoryBufferSize z -> 0 <= n <= HistoryBufferSize z ->
  (if u32 (i + n) <=? HistoryBufferSize z then history_get i n
   else
     let front := u32 (HistoryBufferSize z - i) in
     d1 ← history_get i front;
     d2 ← history_get 0 (u32 (n - front));
     mret (d1 ++ d2)) z = Ret (ztake n (rot i (HistoryBuffer z))) z.
Proof.
  intros [Hs Hb Hi _ _] H0 Hn. replace (u32 (i + n)) with (i + n) by word_lia.
  assert (G : forall j m, 0 <= j -> 0 <= m -> j + m <= HistoryBufferSize z ->
    history_get j m z = Ret (slice j m (HistoryBuffer z)) z).
  { intros. unfold history_get. rewrite get_bind. by rewrite !(proj2 (Z.leb_le _ _)) by lia. }
  unfold rot. destruct (Z.leb_spec (i + n) (HistoryBufferSize z)).
  - rewrite G by lia. by rewrite ztake_app_le by (rewrite zlen_zdrop; lia).
  - replace (u32 (HistoryBufferSize z - i)) with (HistoryBufferSize z - i) by word_lia. cbv zeta.
    replace (u32 (n - (HistoryBufferSize z - i))) with (n - (HistoryBufferSize z - i)) by word_lia.
    rewrite (bind_ret_eq _ _ _ _ _ (G i (HistoryBufferSize z - i) ltac:(lia) ltac:(lia) ltac:(lia))).
    rewrite (bind_ret_eq _ _ _ _ _ (G 0 (n - (HistoryBufferSize z - i)) ltac:(lia) ltac:(lia) ltac:(lia))).
    rewrite <- Hb, slice_to_end, slice_0 by lia.
    rewrite ztake_app_ge by (rewrite zlen_zdrop; lia). rewrite zlen_zdrop, ztake_ztake by lia.
    by rewrite Z.min_l by lia.
Qed.

(** What a copy reads: the bytes from an index on, repeated. *)
Lemma ring_read_eq d n z :
  zgfx_ok z -> 0 < d < 2 ^ 31 -> 0 < n <= 65536 ->
  let i := u32 (HistoryIndex z + HistoryBufferSize z - d) mod HistoryBufferSize z in
  zgfx_history_buffer_ring_read d n z =
  Ret (cyc (ztake (Z.min n d) (rot i (HistoryBuffer z))) (Z.to_nat n)) z.
Proof.
  intros Hz Hd Hn i. pose proof Hz as [Hs Hb Hi _ _]. unfold zgfx_history_buffer_ring_read.
  rewrite (proj2 (Z.leb_gt _ _)), (proj2 (Z.ltb_ge _ _)) by (unfold INT32_MAX; lia). cbn [orb].
  rewrite get_bind.
  rewrite (bind_ret_eq _ _ _ _ _ (asserting_cast_eq u32 d z ltac:(word_lia))).
  rewrite (proj2 (Z.eqb_neq (HistoryBufferSize z) 0)), ret_bind by lia. cbv zeta. fold i.
  assert (0 <= i < HistoryBufferSize z) by (apply Z.mod_pos_bound; lia).
  rewrite (bind_ret_eq _ _ _ _ _ (asserting_cast_eq u32 (Z.min n d) z ltac:(word_lia))).
  rewrite (bind_ret_eq _ _ _ _ _ (ring_get_eq i (Z.min n d) z Hz ltac:(lia) ltac:(lia))).
  set (p := ztake (Z.min n d) (rot i (HistoryBuffer z))).
  assert (Hp : length p = Z.to_nat (Z.min n d)).
  { apply zlen_length, zlen_ztake. rewrite zlen_rot; lia. }
  destruct (Z.eqb_spec (n - Z.min n d) 0) as [E|E].
  - unfold mret, M_ret. rewrite cyc_short by lia. f_equal. symmetry. apply ztake_all.
    unfold zlen. lia.
  - pose proof (repeat_copy_spec p (Z.to_nat n) 0 (Z.to_nat n) z ltac:(lia)) as R.
    cbv zeta in R. rewrite Nat.pow_0_r, Nat.mul_1_r in R. rewrite (cyc_short p (length p)) in R by lia.
    rewrite ztake_all in R by (unfold zlen; lia).
    replace (Z.of_nat (length p)) with (Z.min n d) in R by lia.
    rewrite Z2Nat.id in R by lia. apply R; lia.
Qed.

Lemma ring_read_copies d n z :
  zgfx_ok z -> 0 < d <= HistoryBufferSize z -> 0 < n <= 65536 ->
  zgfx_history_buffer_ring_read d n z = Ret (lz_copy (Z.to_nat n) d (history z)) z.
Proof.
  intros Hz Hd Hn. pose proof Hz as [Hs Hb Hi _ _]. rewrite ring_read_eq by (done || lia).
  f_equal. rewrite lz_copy_cyc by (rewrite zlen_history by done; lia). rewrite zlen_history by done.
  replace (u32 _) with (HistoryIndex z + (HistoryBufferSize z - d)) by word_lia.
  rewrite <- Hb at 2. rewrite rot_rot by lia. fold (history z).
  assert (Hl : zlen (zdrop (HistoryBufferSize z - d) (history z)) = d)
    by (rewrite zlen_zdrop; rewrite zlen_history by done; lia).
  unfold rot. set (q := zdrop _ _) in *. rewrite ztake_app_le by lia.
  destruct (Z.le_gt_cases d n).
  - rewrite Z.min_r, ztake_all by lia. done.
  - rewrite Z.min_l by lia. unfold zlen in Hl.
    rewrite !cyc_short; rewrite ?Z2Nat.id by lia; [|lia|].
    + rewrite ztake_all; [done|]. rewrite zlen_ztake; unfold zlen; lia.
    + unfold ztake. rewrite length_take. lia.
Qed.

(** ** One step of the decoder *)

(** [n] bits were read and nothing else happened. *)
Definition took (n : Z) z z' : Prop :=
  exists v c k i, z' = set_bits v (u32 (cBitsRemaining z - n)) c k i z.

Lemma took_trans a b z1 z2 z3 : took a z1 z2 -> took b z2 z3 -> took (a + b) z1 z3.
Proof.
  intros (v & c & k & i & ->) (v' & c' & k' & i' & ->). exists v', c', k', i'. simpl.
  unfold set_bits. simpl. f_equal. word_lia.
Qed.

Lemma took_ok n z z' : took n z z' -> zgfx_ok z -> zgfx_ok z'.
Proof. intros (v & c & k & i & ->) []. by split. Qed.

Lemma took_history n z z' : took n z z' -> history z' = history z.
Proof. by intros (v & c & k & i & ->). Qed.

Definition produced z : list Z := ztake (OutputCount z) (OutputBuffer z).

Lemma took_produced n z z' : took n z z' -> produced z' = produced z.
Proof. by intros (v & c & k & i & ->). Qed.

Lemma took_count n z z' : took n z z' -> OutputCount z' = OutputCount z.
Proof. by intros (v & c & k & i & ->). Qed.

Lemma took_size n z z' : took n z z' -> HistoryBufferSize z' = HistoryBufferSize z.
Proof. by intros (v & c & k & i & ->). Qed.

Lemma took_remaining n z z' : took n z z' -> cBitsRemaining z' = u32 (cBitsRemaining z - n).
Proof. by intros (v & c & k & i & ->). Qed.

Lemma took_0 b p z : reads b p z -> took 0 z z.
Proof.
  intros []. exists (bits z), (BitsCurrent z), (cBitsCurrent z), (input z). destruct z.
  unfold set_bits. simpl in *. f_equal. word_lia.
Qed.

Lemma output_spec bs z :
  zgfx_ok z -> OutputCount z + zlen bs <= 65536 ->
  exists o, let z' := set_output o (OutputCount z + zlen bs) z in
    output bs z = Ret tt z' /\ zgfx_ok z' /\ produced z' = produced z ++ bs.
Proof.
  intros [Hs Hb Hi Ho Hc] Hn. pose proof (zlen_nonneg bs). unfold output, output_size in *.
  exists (blit (OutputCount z) bs (OutputBuffer z)). cbv zeta. rewrite get_bind.
  rewrite (proj2 (Z.leb_le _ _)) by lia. split; [|split].
  - unfold modify. do 2 f_equal. word_lia.
  - split; simpl; unfold output_size; try lia. rewrite zlen_blit; lia.
  - unfold produced. simpl. rewrite blit_ztake by lia. done.
Qed.

(** The bytes [bs] came out: they are behind the output and in the history. *)
Definition comes_out bs z z' : Prop :=
  zgfx_ok z' /\ history z' = push (history z) bs /\ produced z' = produced z ++ bs /\
  HistoryBufferSize z' = HistoryBufferSize z /\ OutputCount z' = OutputCount z + zlen bs /\
  cBitsRemaining z' = cBitsRemaining z.

(** Both orders in which the code stores the bytes. *)
Lemma write_then_output bs z :
  zgfx_ok z -> OutputCount z + zlen bs <= 65536 ->
  exists h i o, let z' := set_output o (OutputCount z + zlen bs) (set_history h i z) in
  (zgfx_history_buffer_ring_write bs;; output bs) z = Ret tt z' /\ comes_out bs z z'.
Proof.
  intros Hz Hn. destruct (ring_write_spec bs z Hz) as (z1 & E1 & h & i & -> & Hok & Hh).
  specialize (Hok Hz). destruct (output_spec bs _ Hok Hn) as (o & E2 & Hok2 & Hp).
  exists h, i, o. cbv zeta. rewrite (bind_ret_eq _ _ _ _ _ E1). split; [exact E2|].
  split; [done|]. split; [exact Hh|]. split; [exact Hp|]. done.
Qed.

Lemma output_then_write bs z :
  zgfx_ok z -> OutputCount z + zlen bs <= 65536 ->
  exists h i o, let z' := set_history h i (set_output o (OutputCount z + zlen bs) z) in
  (output bs;; zgfx_history_buffer_ring_write bs) z = Ret tt z' /\ comes_out bs z z'.
Proof.
  intros Hz Hn. destruct (output_spec bs _ Hz Hn) as (o & E1 & Hok & Hp).
  destruct (ring_write_spec bs _ Hok) as (z2 & E2 & h & i & -> & Hok2 & Hh).
  exists h, i, o. cbv zeta. rewrite (bind_ret_eq _ _ _ _ _ E1). split; [exact E2|].
  split; [auto|]. split; [exact Hh|]. split; [exact Hp|]. done.
Qed.

Lemma reads_set_output b p o n z : reads b p z -> reads b p (set_output o n z).
Proof. by intros []. Qed.

Lemma reads_set_history b p h i z : reads b p z -> reads b p (set_history h i z).
Proof. by intros []. Qed.

(** ** The meaning of tokens *)

Inductive tok := Lit (c : Z) | Copy (d n : Z) | Plain (bs : list Z).

(** The bytes of a token after the history [h], and of a sequence of tokens. *)
Definition expand (h : list Z) (t : tok) : list Z :=
  match t with
  | Lit c => [c]
  | Copy d n => lz_copy (Z.to_nat n) d h
  | Plain bs => bs
  end.

Fixpoint expand_all (h : list Z) (ts : list tok) : list Z :=
  match ts with
  | [] => []
  | t :: ts => let o := expand h t in o ++ expand_all (push h o) ts
  end.

(** Copies reach back to what the history holds. *)
Definition in_history (n : Z) (t : tok) : Prop :=
  match t with Copy d _ => d <= n | _ => True end.

Section Decoder.
Context (b : list Z).
Hypothesis b_bytes : bytes b.
#[local] Abbreviation f := (bit_of b).

Lemma get_bits_any p z n :
  reads b p z -> 0 <= n < 2 ^ 32 - 16 ->
  exists v z', get_bits n z = Ret v z' /\ reads b (p + n) z' /\ took n z z' /\ 0 <= v < 2 ^ 32 /\
    (n <= 24 -> v = bv f p n).
Proof.
  intros Hr Hn. destruct (GetBits_reads b p z n b_bytes Hr Hn) as (v & c & k & i & E & Hr' & Hv & Hb).
  exists v. eexists. split; [unfold get_bits; rewrite (bind_ret_eq _ _ _ _ _ E); reflexivity|].
  split; [done|]. split; [by exists v, c, k, i|done].
Qed.

Lemma get_bits_eq p z n :
  reads b p z -> 0 <= n <= 24 ->
  exists z', get_bits n z = Ret (bv f p n) z' /\ reads b (p + n) z' /\ took n z z'.
Proof.
  intros Hr Hn. destruct (get_bits_any p z n Hr ltac:(lia)) as (v & z' & E & Hr' & Ht & _ & Hv).
  exists z'. rewrite <- Hv by lia. done.
Qed.

(** The bits of the prefix, one at a time. *)
Lemma extend_prefix_eq n p h z :
  reads b (p + h) z -> 0 <= h -> h + Z.of_nat n <= 24 ->
  exists z', extend_prefix n (bv f p h) z = Ret (bv f p (h + Z.of_nat n)) z' /\
    reads b (p + h + Z.of_nat n) z' /\ took (Z.of_nat n) z z'.
Proof.
  revert h z. induction n as [|n IH]; intros h z Hr Hh Hn.
  - exists z. change (Z.of_nat 0) with 0. rewrite !Z.add_0_r. split; [done|]. split; [done|].
    by eapply took_0.
  - simpl. destruct (get_bits_eq (p + h) z 1 Hr ltac:(lia)) as (z1 & E & Hr1 & Ht1).
    rewrite (bind_ret_eq _ _ _ _ _ E).
    assert (Ev : u32 (u32 (Z.shiftl (bv f p h) 1) + bv f (p + h) 1) = bv f p (h + 1)).
    { rewrite bv_app by lia. rewrite Z.shiftl_mul_pow2 by lia.
      pose proof (bv_range f p h Hh). pose proof (bv_range f (p + h) 1 ltac:(lia)).
      assert (2 ^ h <= 2 ^ 24) by (apply Z.pow_le_mono_r; lia). word_lia. }
    rewrite Ev. destruct (IH (h + 1) z1) as (z' & E' & Hr' & Ht'); [by rewrite Z.add_assoc|lia|lia|].
    exists z'. replace (h + Z.of_nat (S n)) with (h + 1 + Z.of_nat n) by lia. split; [done|].
    split; [by replace (p + h + Z.of_nat (S n)) with (p + (h + 1) + Z.of_nat n) by lia|].
    replace (Z.of_nat (S n)) with (1 + Z.of_nat n) by lia. by apply took_trans with z1.
Qed.

(** *** The table *)

(** The codes before another one are shorter and no prefix of it. *)
Definition before (e e' : ZGFX_TOKEN) : Prop :=
  0 <= prefixLength e <= prefixLength e' /\
  prefixCode e' / 2 ^ (prefixLength e' - prefixLength e) <> prefixCode e.

Definition beforeb (e e' : ZGFX_TOKEN) : bool :=
  (0 <=? prefixLength e) && (prefixLength e <=? prefixLength e') &&
  negb (prefixCode e' / 2 ^ (prefixLength e' - prefixLength e) =? prefixCode e).

Fixpoint orderedb (l : list ZGFX_TOKEN) : bool :=
  match l with
  | [] => true
  | e :: rest => forallb (beforeb e) rest && orderedb rest
  end.

Inductive ordered : list ZGFX_TOKEN -> Prop :=
  | ordered_nil : ordered []
  | ordered_cons e l : Forall (before e) l -> ordered l -> ordered (e :: l).

Lemma orderedb_spec l : orderedb l = true -> ordered l.
Proof.
  induction l as [|e l IH]; simpl; [constructor|]. intros H. apply andb_prop in H as [H1 H2].
  constructor; [|auto]. apply Forall_forall. intros e' He'.
  rewrite forallb_forall in H1. specialize (H1 e' He'). unfold beforeb, before in *. lia.
Qed.

Lemma table_ordered : ordered ZGFX_TOKEN_TABLE.
Proof. by apply orderedb_spec; vm_compute. Qed.

(** What the proofs need of the entries: lengths, widths, and distances that fit. *)
Definition entry_ok (e : ZGFX_TOKEN) : Prop :=
  1 <= prefixLength e <= 9 /\ 0 <= valueBits e <= 24 /\ 0 <= valueBase e /\
  valueBase e + 2 ^ valueBits e <= 2 ^ 26 /\
  (tokenType e = 0 \/ tokenType e = 1 /\ 5 <= prefixLength e /\ 5 <= valueBits e).

Definition entry_okb (e : ZGFX_TOKEN) : bool :=
  (1 <=? prefixLength e) && (prefixLength e <=? 9) && (0 <=? valueBits e) && (valueBits e <=? 24) &&
  (0 <=? valueBase e) && (valueBase e + 2 ^ valueBits e <=? 2 ^ 26) &&
  ((tokenType e =? 0) || ((tokenType e =? 1) && (5 <=? prefixLength e) && (5 <=? valueBits e))).

Lemma table_entries : Forall entry_ok ZGFX_TOKEN_TABLE.
Proof.
  apply Forall_forall. intros e He.
  assert (H : forallb entry_okb ZGFX_TOKEN_TABLE = true) by (by vm_compute).
  rewrite forallb_forall in H. specialize (H e He). unfold entry_okb, entry_ok in *. lia.
Qed.

Lemma table_entry e : In e ZGFX_TOKEN_TABLE -> entry_ok e.
Proof. intros. by apply (proj1 (Forall_forall _ _) table_entries). Qed.

Lemma find_token_eq l e p h z :
  ordered l -> Forall entry_ok l -> In e l -> Forall (fun e' => h <= prefixLength e') l -> 0 <= h ->
  reads b (p + h) z -> bv f p (prefixLength e) = prefixCode e ->
  exists z', find_token l h (bv f p h) z = token e z' /\
    reads b (p + prefixLength e) z' /\ took (prefixLength e - h) z z'.
Proof.
  intros Hl. revert h z. induction Hl as [|e1 l H1 Hl IH]; intros h z Hok He Hh H0 Hr Hc.
  { done. }
  apply Forall_cons_1 in Hok as [Hok1 Hok]. apply Forall_cons_1 in Hh as [Hh1 Hh].
  destruct (extend_prefix_eq (Z.to_nat (prefixLength e1 - h)) p h z Hr H0) as (z1 & E & Hr1 & Ht1).
  { unfold entry_ok in Hok1. lia. }
  rewrite Z2Nat.id in * by lia. replace (h + (prefixLength e1 - h)) with (prefixLength e1) in * by lia.
  replace (p + h + (prefixLength e1 - h)) with (p + prefixLength e1) in Hr1 by lia.
  simpl. rewrite (bind_ret_eq _ _ _ _ _ E). rewrite Z.max_r by lia.
  destruct He as [<-|He].
  - rewrite Hc, Z.eqb_refl. by exists z1.
  - pose proof (proj1 (Forall_forall _ _) H1 e He) as [Hlen Hpre].
    assert (Hd : bv f p (prefixLength e1) = prefixCode e / 2 ^ (prefixLength e - prefixLength e1)).
    { rewrite <- Hc, (bv_split f p (prefixLength e) (prefixLength e1)) by lia.
      rewrite high_part; [done|lia|]. apply bv_range. lia. }
    rewrite (proj2 (Z.eqb_neq _ _)) by congruence.
    destruct (IH (prefixLength e1) z1) as (z' & E' & Hr' & Ht'); try done.
    + eapply Forall_impl; [|exact H1]. intros e' [? _]. lia.
    + unfold entry_ok in Hok1. lia.
    + exists z'. split; [done|]. split; [done|].
      replace (prefixLength e - h) with (prefixLength e1 - h + (prefixLength e - prefixLength e1)) by lia.
      by apply took_trans with z1.
Qed.

Lemma find_token_table e p z :
  In e ZGFX_TOKEN_TABLE -> reads b p z -> bv f p (prefixLength e) = prefixCode e ->
  exists z', find_token ZGFX_TOKEN_TABLE 0 0 z = token e z' /\
    reads b (p + prefixLength e) z' /\ took (prefixLength e) z z'.
Proof.
  intros He Hr Hc. pose proof (find_token_eq ZGFX_TOKEN_TABLE e p 0 z table_ordered table_entries He)
    as H. rewrite Z.add_0_r, Z.sub_0_r in H. apply H; try done.
  eapply Forall_impl; [|exact table_entries]. unfold entry_ok. intros. lia.
Qed.

(** *** Tokens *)

(** One byte at the index of the history is what [zgfx_history_buffer_ring_write] does. *)
Lemma literal_store c z :
  zgfx_ok z ->
  exists h i, (history_put (HistoryIndex z) [c];;
    let i := u32 (HistoryIndex z + 1) in
    move_index (if i =? HistoryBufferSize z then 0 else i)) z = Ret tt (set_history h i z) /\
    zgfx_ok (set_history h i z) /\ history (set_history h i z) = push (history z) [c].
Proof.
  intros Hz. pose proof Hz as [Hs Hb Hi Ho Hc].
  destruct (ring_write_short [c] z Hz ltac:(change (zlen [c]) with 1; lia)) as (z' & E & h & i & -> & Hok & Hh).
  exists h, i. split; [|split; [auto|done]]. rewrite <- E. change (zlen [c]) with 1.
  rewrite (proj2 (Z.leb_le _ _)) by lia. done.
Qed.

Lemma literal_spec e p z :
  entry_ok e -> reads b p z -> zgfx_ok z -> OutputCount z < 65536 ->
  let c := u8 (valueBase e + bv f p (valueBits e)) in
  exists z', literal e z = Ret tt z' /\ reads b (p + valueBits e) z' /\
    exists z1, took (valueBits e) z z1 /\ comes_out [c] z1 z'.
Proof.
  intros (Hl & Hv & Hb0 & Hb & _) Hr Hz Hn c. unfold literal.
  destruct (get_bits_eq p z (valueBits e) Hr Hv) as (z1 & E & Hr1 & Ht).
  rewrite (bind_ret_eq _ _ _ _ _ E). cbv zeta. rewrite get_bind.
  pose proof (bv_range f p (valueBits e) ltac:(lia)).
  replace (u32 _) with (valueBase e + bv f p (valueBits e)) by word_lia. fold c.
  pose proof (took_ok _ _ _ Ht Hz) as Hz1. pose proof (took_count _ _ _ Ht) as Hc1.
  destruct (literal_store c z1 Hz1) as (h & i & E1 & Hok & Hh).
  rewrite <- bind_assoc, (bind_ret_eq _ _ _ _ _ E1). rewrite (proj2 (Z.leb_gt _ _)) by (unfold output_size; lia).
  destruct (output_spec [c] _ Hok) as (o & E2 & Hok2 & Hp).
  { simpl. change (zlen [c]) with 1. lia. }
  eexists. split; [exact E2|]. split; [by apply reads_set_output, reads_set_history|].
  exists z1. split; [done|]. split; [done|]. split; [exact Hh|]. split; [exact Hp|]. done.
Qed.

(** The length of a copy: three, or a power of two and as many more bits. *)
Inductive length_code : Z -> Z -> Z -> Prop :=
  | length_three p : f p = false -> length_code p 3 (p + 1)
  | length_more p k : f p = true -> 0 <= k ->
      (forall i, 0 <= i < k -> f (p + 1 + i) = true) -> f (p + 1 + k) = false ->
      length_code p (2 ^ (k + 2) + bv f (p + 2 + k) (k + 2)) (p + 2 + k + (k + 2)).

Lemma bv_1 p : bv f p 1 = Z.b2z (f p).
Proof. unfold bv. simpl. by rewrite Z.add_0_r. Qed.

Lemma count_ones_eq k fuel p n x z :
  reads b p z -> (forall i, 0 <= i < Z.of_nat k -> f (p + i) = true) -> f (p + Z.of_nat k) = false ->
  (k < fuel)%nat -> 0 <= n -> 0 <= x -> n * 2 ^ Z.of_nat k < 2 ^ 32 -> x + Z.of_nat k < 2 ^ 32 ->
  exists z', count_ones fuel n x z = Ret (n * 2 ^ Z.of_nat k, x + Z.of_nat k) z' /\
    reads b (p + Z.of_nat k + 1) z' /\ took (Z.of_nat k + 1) z z'.
Proof.
  revert fuel p n x z. induction k as [|k IH]; intros fuel p n x z Hr H1 H0 Hf Hn Hx Hb Hb2;
    (destruct fuel as [|fuel]; [lia|]); simpl count_ones;
    destruct (get_bits_eq p z 1 Hr ltac:(lia)) as (z1 & E & Hr1 & Ht1);
    rewrite (bind_ret_eq _ _ _ _ _ E), bv_1.
  - change (Z.of_nat 0) with 0 in *. rewrite Z.add_0_r in H0. rewrite H0. simpl.
    exists z1. rewrite !Z.add_0_r, Z.mul_1_r. done.
  - rewrite Nat2Z.inj_succ in *. rewrite Z.pow_succ_r in * by lia.
    assert (f p = true) as -> by (rewrite <- (Z.add_0_r p); apply H1; lia).
    simpl (Z.b2z true =? 1). cbv iota.
    pose proof (Z.pow_pos_nonneg 2 (Z.of_nat k) ltac:(lia) ltac:(lia)).
    assert (n * 2 <= n * (2 * 2 ^ Z.of_nat k)) by nia.
    replace (u32 (n * 2)) with (n * 2) by word_lia. replace (u32 (x + 1)) with (x + 1) by word_lia.
    destruct (IH fuel (p + 1) (n * 2) (x + 1) z1) as (z' & E' & Hr' & Ht'); try lia; try done.
    + intros i Hi. rewrite <- Z.add_assoc. apply H1. lia.
    + rewrite <- H0. f_equal. lia.
    + exists z'. rewrite E'. split; [do 2 f_equal; lia|].
      split; [by replace (p + Z.succ (Z.of_nat k) + 1) with (p + 1 + Z.of_nat k + 1) by lia|].
      replace (Z.succ (Z.of_nat k) + 1) with (1 + (Z.of_nat k + 1)) by lia. by apply took_trans with z1.
Qed.

(** The bits that are left in the input. *)
Lemma input_bits p z : reads b p z -> 8 * zlen b - p <= 8 * zlen (input z) + 7.
Proof.
  intros [Hp Hu Hc Ha Hcur Hi]. rewrite Hi. set (k := (p + cBitsCurrent z) / 8).
  assert (8 * k = p + cBitsCurrent z) by (subst k; Z.div_mod_to_equations; lia).
  destruct (Z.le_gt_cases k (zlen b)).
  - rewrite zlen_zdrop; lia.
  - rewrite zdrop_all by lia. change (zlen (@nil Z)) with 0. lia.
Qed.

Lemma ones_bound p k :
  0 <= p -> 0 <= k -> (forall i, 0 <= i < k -> f (p + i) = true) -> k = 0 \/ p + k <= 8 * zlen b.
Proof.
  intros Hp Hk H1. destruct (Z.eq_dec k 0); [by left|right].
  destruct (Z.lt_ge_cases (p + (k - 1)) (8 * zlen b)); [lia|].
  specialize (H1 (k - 1) ltac:(lia)). rewrite bit_of_beyond in H1 by lia. done.
Qed.

Lemma match_length_spec p n q z :
  length_code p n q -> n <= 65536 -> reads b p z ->
  exists z', match_length z = Ret n z' /\ reads b q z' /\ took (q - p) z z'.
Proof.
  intros Hc Hn Hr. unfold match_length.
  destruct (get_bits_eq p z 1 Hr ltac:(lia)) as (z1 & E & Hr1 & Ht1).
  rewrite (bind_ret_eq _ _ _ _ _ E), bv_1. destruct Hc as [p Hf|p k Hf Hk H1 H0]; rewrite Hf.
  - simpl. exists z1. replace (p + 1 - p) with 1 by lia. done.
  - simpl (Z.b2z true =? 0). cbv iota. rewrite get_bind.
    pose proof (bv_range f (p + 2 + k) (k + 2) ltac:(lia)).
    assert (Hk14 : k <= 14).
    { destruct (Z.le_gt_cases k 14); [done|]. assert (2 ^ 17 <= 2 ^ (k + 2)) by (apply Z.pow_le_mono_r; lia). lia. }
    pose proof (input_bits _ _ Hr1). pose proof (zlen_nonneg (input z1)). destruct (Hr).
    pose proof (ones_bound (p + 1) k ltac:(lia) ltac:(lia) H1).
    assert (Hp2 : 4 * 2 ^ k = 2 ^ (k + 2)) by (rewrite Z.pow_add_r by lia; lia).
    assert (2 ^ (k + 2) <= 2 ^ 16) by (apply Z.pow_le_mono_r; lia).
    destruct (count_ones_eq (Z.to_nat k) (Z.to_nat (8 * zlen (input z1) + 9)) (p + 1) 4 2 z1)
      as (z2 & E2 & Hr2 & Ht2); try (rewrite ?Z2Nat.id by lia; (done || lia)).
    rewrite Z2Nat.id in * by lia. rewrite (bind_ret_eq _ _ _ _ _ E2). cbv beta iota.
    replace (2 + k) with (k + 2) by lia.
    destruct (get_bits_eq _ z2 (k + 2) Hr2 ltac:(lia)) as (z3 & E3 & Hr3 & Ht3).
    rewrite (bind_ret_eq _ _ _ _ _ E3). exists z3. rewrite Hp2.
    replace (p + 1 + k + 1) with (p + 2 + k) in * by lia. split; [|split].
    + unfold mret, M_ret. f_equal. word_lia.
    + done.
    + replace (p + 2 + k + (k + 2) - p) with (1 + (k + 1) + (k + 2)) by lia.
      apply took_trans with z2; [by apply took_trans with z1|done].
Qed.

Lemma zlen_lz_copy n d h : zlen (lz_copy n d h) = Z.of_nat n.
Proof. revert h. induction n as [|n IH]; intros h; [done|]. simpl. rewrite zlen_cons, IH. lia. Qed.

Lemma copy_history_spec d n p q z :
  length_code p n q -> reads b p z -> zgfx_ok z -> 0 < d <= HistoryBufferSize z -> 0 < n ->
  OutputCount z + n <= 65536 ->
  exists z', copy_history d z = Ret tt z' /\ reads b q z' /\
    exists z1, took (q - p) z z1 /\ comes_out (lz_copy (Z.to_nat n) d (history z)) z1 z'.
Proof.
  intros Hc Hr Hz Hd Hn Ho. pose proof Hz as [Hs _ _ _ Ho0]. unfold output_size in Ho0.
  destruct (match_length_spec p n q z Hc ltac:(lia) Hr) as (z1 & E & Hr1 & Ht).
  pose proof (took_ok _ _ _ Ht Hz) as Hz1. pose proof (took_count _ _ _ Ht) as Hc1.
  pose proof (took_size _ _ _ Ht) as Hs1.
  unfold copy_history. rewrite (bind_ret_eq _ _ _ _ _ E), get_bind.
  rewrite (proj2 (Z.ltb_ge _ _)) by (unfold output_size; lia).
  rewrite (bind_ret_eq _ _ _ d z1).
  2: { apply asserting_cast_eq. unfold s32. rewrite Z.mod_small by lia.
       by rewrite (proj2 (Z.ltb_lt _ _)) by lia. }
  rewrite (bind_ret_eq _ _ _ _ _ (ring_read_copies d n z1 Hz1 ltac:(lia) ltac:(lia))).
  rewrite zlen_lz_copy, Z2Nat.id, Z.eqb_refl, ret_bind by lia.
  rewrite (took_history _ _ _ Ht).
  destruct (write_then_output (lz_copy (Z.to_nat n) d (history z)) z1 Hz1) as (h & i & o & E2 & Hout).
  { rewrite zlen_lz_copy. lia. }
  eexists. split; [exact E2|]. split; [by apply reads_set_output, reads_set_history|].
  by exists z1.
Qed.

(** The next byte boundary. *)
Definition align (p : Z) : Z := 8 * ((p + 7) / 8).

Lemma reads_align p z rem :
  reads b p z -> is_u32 rem ->
  p + cBitsCurrent z = align p /\ reads b (align p) (set_input (input z) rem z).
Proof.
  intros [Hp Hu Hc Ha Hcur Hi] Hrem. unfold align.
  assert (E : p + cBitsCurrent z = 8 * ((p + 7) / 8)) by (Z.div_mod_to_equations; lia).
  split; [done|]. rewrite E in Hi. split; simpl; try lia; try done.
  - Z.div_mod_to_equations; lia.
  - by rewrite Z.add_0_r.
Qed.

Lemma reads_advance p n rem z :
  reads b p z -> cBitsCurrent z = 0 -> is_u32 rem -> 0 <= n ->
  reads b (p + 8 * n) (set_bits (bits z) rem (BitsCurrent z) (cBitsCurrent z) (zdrop n (input z)) z).
Proof.
  intros [Hp Hu Hc Ha Hcur Hi] H0 Hrem Hn. rewrite H0, Z.add_0_r in *.
  split; simpl; rewrite ?H0, ?Z.add_0_r; try done; try lia.
  - Z.div_mod_to_equations. lia.
  - rewrite Hi, zdrop_zdrop by (Z.div_mod_to_equations; lia). f_equal. Z.div_mod_to_equations. lia.
Qed.

Lemma copy_unencoded_spec p z n a bs :
  n = bv f p 15 -> a = align (p + 15) -> bs = slice (a / 8) n b ->
  reads b p z -> zgfx_ok z -> OutputCount z + n <= 65536 -> a + 8 * n - p <= cBitsRemaining z ->
  a + 8 * n <= 8 * zlen b ->
  exists z', copy_unencoded z = Ret tt z' /\ reads b (a + 8 * n) z' /\
    cBitsRemaining z' = cBitsRemaining z - (a + 8 * n - p) /\
    zgfx_ok z' /\ history z' = push (history z) bs /\ produced z' = produced z ++ bs /\
    HistoryBufferSize z' = HistoryBufferSize z /\ OutputCount z' = OutputCount z + n.
Proof.
  intros En Ea0 Ebs0 Hr Hz Ho Hrem Hlen. pose proof (bv_range f p 15 ltac:(lia)) as Hn.
  rewrite <- En in Hn. pose proof Hz as [Hs _ _ _ Ho0].
  destruct (get_bits_eq p z 15 Hr ltac:(lia)) as (z1 & E & Hr1 & Ht). rewrite <- En in E.
  unfold copy_unencoded. rewrite (bind_ret_eq _ _ _ _ _ E), modify_bind, get_bind.
  pose proof (took_ok _ _ _ Ht Hz) as Hz1. pose proof (took_count _ _ _ Ht) as Hc1.
  pose proof (reads_remaining _ _ _ Hr) as Hu. pose proof (reads_start _ _ _ Hr) as Hp.
  set (r := u32 (cBitsRemaining z1 - cBitsCurrent z1)).
  destruct (reads_align (p + 15) z1 r Hr1 ltac:(subst r; word_lia)) as [Ea Hr2]. rewrite <- Ea0 in Ea, Hr2.
  pose proof (reads_count _ _ _ Hr1) as Hc.
  assert (Er : r = cBitsRemaining z - (a - p)).
  { subst r. rewrite (took_remaining _ _ _ Ht). word_lia. }
  set (z2 := set_input (input z1) r z1) in *. pose proof (reads_input _ _ _ Hr2) as Hi. simpl in Hi.
  rewrite Z.add_0_r in Hi.
  assert (Ha8 : 8 * (a / 8) = a) by (rewrite Ea0; unfold align; Z.div_mod_to_equations; lia).
  assert (Hil : zlen (input z1) = zlen b - a / 8) by (rewrite Hi, zlen_zdrop; lia).
  change (OutputCount z2) with (OutputCount z1). change (input z2) with (input z1).
  change (cBitsRemaining z2) with r.
  rewrite (proj2 (Z.ltb_ge (output_size - OutputCount z1) n)) by (unfold output_size; lia).
  rewrite (proj2 (Z.ltb_ge (r / 8) n)) by (apply Z.div_le_lower_bound; lia).
  rewrite (proj2 (Z.ltb_ge (zlen (input z1)) n)) by lia.
  assert (Hz2 : zgfx_ok z2) by (by destruct Hz1).
  assert (Ebs : ztake n (input z1) = bs) by (by rewrite Hi, Ebs0).
  assert (Hbs : zlen bs = n) by (rewrite Ebs0; apply zlen_slice; lia). rewrite Ebs.
  destruct (output_then_write bs z2 Hz2) as (h & i & o & E2 & Hout).
  { change (OutputCount z2) with (OutputCount z1). lia. }
  set (z4 := set_history h i _) in E2, Hout. cbv zeta in E2, Hout. fold z4 in E2, Hout.
  assert (Hr4 : reads b a z4) by (by apply reads_set_history, reads_set_output).
  assert (Hc4 : cBitsCurrent z4 = 0) by done. clearbody z4.
  apply bind_ret_inv in E2 as ([] & z3 & E3 & E4).
  rewrite (bind_ret_eq _ _ _ _ _ E3), (bind_ret_eq _ _ _ _ _ E4).
  destruct Hout as (Hok & Hh & Hp' & HS & HC & HR). change (cBitsRemaining z2) with r in HR.
  eexists. split; [unfold modify; reflexivity|].
  split; [apply reads_advance; try done; [word_lia|lia]|].
  split; [cbn [cBitsRemaining set_bits]; rewrite HR, Er; word_lia|].
  split; [destruct Hok; by split|].
  split; [rewrite <- (took_history _ _ _ Ht); exact Hh|].
  split; [rewrite <- (took_produced _ _ _ Ht); exact Hp'|].
  split; [rewrite <- (took_size _ _ _ Ht); exact HS|].
  rewrite <- Hc1, <- Hbs. exact HC.
Qed.

(** The bits from [p] to [q] are the token. *)
Inductive spells : Z -> tok -> Z -> Prop :=
  | spells_literal e p :
      In e ZGFX_TOKEN_TABLE -> tokenType e = 0 -> bv f p (prefixLength e) = prefixCode e ->
      spells p (Lit (u8 (valueBase e + bv f (p + prefixLength e) (valueBits e))))
        (p + prefixLength e + valueBits e)
  | spells_copy e p d n q :
      In e ZGFX_TOKEN_TABLE -> tokenType e = 1 -> bv f p (prefixLength e) = prefixCode e ->
      d = valueBase e + bv f (p + prefixLength e) (valueBits e) -> d <> 0 ->
      length_code (p + prefixLength e + valueBits e) n q -> spells p (Copy d n) q
  | spells_plain e p n a :
      In e ZGFX_TOKEN_TABLE -> tokenType e = 1 -> bv f p (prefixLength e) = prefixCode e ->
      valueBase e + bv f (p + prefixLength e) (valueBits e) = 0 ->
      n = bv f (p + prefixLength e + valueBits e) 15 ->
      a = align (p + prefixLength e + valueBits e + 15) -> a + 8 * n <= 8 * zlen b ->
      spells p (Plain (slice (a / 8) n b)) (a + 8 * n).

Inductive spell_all : Z -> list tok -> Z -> Prop :=
  | spell_nil p : spell_all p [] p
  | spell_cons p t q ts r : spells p t q -> spell_all q ts r -> spell_all p (t :: ts) r.

Lemma length_code_bounds p n q : length_code p n q -> 0 < n /\ p < q.
Proof.
  intros [p' _|p' k _ Hk _ _]; [lia|]. pose proof (bv_range f (p' + 2 + k) (k + 2) ltac:(lia)).
  pose proof (Z.pow_pos_nonneg 2 (k + 2) ltac:(lia) ltac:(lia)). lia.
Qed.

Lemma spells_forward p t q : 0 <= p -> spells p t q -> p < q.
Proof.
  intros Hp. destruct 1 as [e p He _ _|e p d n q He _ _ _ _ Hl|e p n a He _ _ _ -> -> _];
    pose proof (table_entry e He) as (? & ? & _).
  - lia.
  - apply length_code_bounds in Hl. lia.
  - pose proof (bv_range f (p + prefixLength e + valueBits e) 15 ltac:(lia)).
    unfold align. Z.div_mod_to_equations. lia.
Qed.

Lemma spell_all_forward p ts q : 0 <= p -> spell_all p ts q -> p <= q.
Proof.
  intros Hp H. revert Hp. induction H as [|p t q ts r Ht _ IH]; intros Hp; [lia|].
  pose proof (spells_forward p t q Hp Ht). lia.
Qed.

(** The decoder stands at bit [p] of [T] and has produced the bytes [o] since [z]. *)
Definition decoded (T p : Z) (o : list Z) z z' : Prop :=
  reads b p z' /\ cBitsRemaining z' = T - p /\ zgfx_ok z' /\ history z' = push (history z) o /\
  produced z' = produced z ++ o /\ HistoryBufferSize z' = HistoryBufferSize z /\
  OutputCount z' = OutputCount z + zlen o.

Lemma decoded_trans T p1 p2 o1 o2 z1 z2 z3 :
  decoded T p1 o1 z1 z2 -> decoded T p2 o2 z2 z3 -> decoded T p2 (o1 ++ o2) z1 z3.
Proof.
  intros (_ & _ & _ & H1 & P1 & S1 & C1) (R & Q & K & H2 & P2 & S2 & C2).
  split; [done|]. split; [done|]. split; [done|]. split; [by rewrite H2, H1, push_push|].
  split; [by rewrite P2, P1, app_assoc|]. split; [lia|]. rewrite zlen_app. lia.
Qed.

(** A token whose last step brings out its bytes. *)
Lemma comes_out_decoded T p q o n z z1 z' :
  reads b q z' -> took n z z1 -> comes_out o z1 z' -> cBitsRemaining z = T - p -> n = q - p ->
  0 <= q <= T -> T < 2 ^ 32 -> decoded T q o z z'.
Proof.
  intros Hr Ht (Hok & Hh & Hp & Hs & Hc & Hrem) HT -> Hq Hb.
  split; [done|]. split; [rewrite Hrem, (took_remaining _ _ _ Ht); word_lia|]. split; [done|].
  rewrite <- (took_history _ _ _ Ht), <- (took_produced _ _ _ Ht), <- (took_size _ _ _ Ht),
    <- (took_count _ _ _ Ht). done.
Qed.

Lemma token_step T p t q z :
  spells p t q -> reads b p z -> zgfx_ok z -> cBitsRemaining z = T - p -> q <= T -> T < 2 ^ 32 ->
  in_history (HistoryBufferSize z) t -> OutputCount z + zlen (expand (history z) t) <= 65536 ->
  exists z', find_token ZGFX_TOKEN_TABLE 0 0 z = Ret tt z' /\ decoded T q (expand (history z) t) z z'.
Proof.
  intros Hs Hr Hz HT Hq Hb Hd Ho. pose proof (reads_start _ _ _ Hr) as Hp.
  pose proof (spells_forward p t q Hp Hs) as Hpq.
  destruct Hs as [e p He Ht Hc|e p d n q He Ht Hc Hdv Hd0 Hl|e p n a He Ht Hc Hdv Hn Ha Hlen];
    pose proof (table_entry e He) as Hok;
    destruct (find_token_table e p z He Hr Hc) as (z1 & -> & Hr1 & Ht1);
    pose proof (took_ok _ _ _ Ht1 Hz) as Hz1; pose proof (took_count _ _ _ Ht1) as Hc1;
    pose proof (took_history _ _ _ Ht1) as Hh1; pose proof (took_size _ _ _ Ht1) as Hs1;
    unfold token; rewrite Ht.
  - simpl in Ho |- *. change (zlen [_]) with 1 in Ho.
    destruct (literal_spec e _ z1 Hok Hr1 Hz1 ltac:(lia)) as (z' & E & Hr' & z2 & Ht2 & Hout).
    exists z'. split; [exact E|].
    eapply comes_out_decoded; [done|eapply took_trans; [exact Ht1|exact Ht2]|done|exact HT|lia|lia|done].
  - destruct Hok as (Hl9 & Hv & Hb0 & Hb26 & _). simpl (1 =? 0). cbv iota.
    destruct (get_bits_eq _ z1 (valueBits e) Hr1 Hv) as (z2 & E & Hr2 & Ht2).
    rewrite (bind_ret_eq _ _ _ _ _ E). cbv zeta.
    pose proof (bv_range f (p + prefixLength e) (valueBits e) ltac:(lia)).
    replace (u32 _) with d by (rewrite Hdv; word_lia).
    rewrite (proj2 (Z.eqb_neq _ _)) by done. cbn [negb].
    pose proof (length_code_bounds _ _ _ Hl). simpl in Hd, Ho |- *. rewrite zlen_lz_copy, Z2Nat.id in Ho by lia.
    pose proof (took_history _ _ _ Ht2) as Hh2. pose proof (took_count _ _ _ Ht2) as Hc2.
    pose proof (took_size _ _ _ Ht2) as Hs2.
    destruct (copy_history_spec d n _ q z2 Hl Hr2) as (z' & E' & Hr' & z3 & Ht3 & Hout);
      [by eapply took_ok|lia|lia|lia|].
    exists z'. split; [done|]. rewrite Hh2, Hh1 in Hout.
    eapply comes_out_decoded; [done| |done|exact HT|reflexivity|lia|done].
    replace (q - p) with (prefixLength e + valueBits e + (q - (p + prefixLength e + valueBits e))) by lia.
    eapply took_trans; [eapply took_trans; [exact Ht1|exact Ht2]|exact Ht3].
  - destruct Hok as (Hl9 & Hv & Hb0 & Hb26 & _). simpl (1 =? 0). cbv iota.
    destruct (get_bits_eq _ z1 (valueBits e) Hr1 Hv) as (z2 & E & Hr2 & Ht2).
    rewrite (bind_ret_eq _ _ _ _ _ E). cbv zeta. rewrite Hdv. change (u32 0) with 0. cbn [Z.eqb negb].
    pose proof (took_history _ _ _ Ht2) as Hh2. pose proof (took_count _ _ _ Ht2) as Hc2.
    pose proof (took_size _ _ _ Ht2) as Hs2. pose proof (took_produced _ _ _ Ht2) as Hp2.
    pose proof (took_produced _ _ _ Ht1) as Hp1.
    assert (Hrem : cBitsRemaining z2 = T - (p + prefixLength e + valueBits e)).
    { rewrite (took_remaining _ _ _ (took_trans _ _ _ _ _ Ht1 Ht2)), HT.
      pose proof (bv_range f (p + prefixLength e + valueBits e) 15 ltac:(lia)).
      assert (p + prefixLength e + valueBits e <= a)
        by (rewrite Ha; unfold align; Z.div_mod_to_equations; lia). word_lia. }
    pose proof (bv_range f (p + prefixLength e + valueBits e) 15 ltac:(lia)) as Hn15. rewrite <- Hn in Hn15.
    assert (0 <= a / 8) by (apply Z.div_pos; [|lia]; rewrite Ha; unfold align; Z.div_mod_to_equations; lia).
    simpl in Ho |- *. rewrite zlen_slice in Ho by (Z.div_mod_to_equations; lia).
    destruct (copy_unencoded_spec _ z2 n a (slice (a / 8) n b) Hn Ha eq_refl Hr2)
      as (z' & E' & Hr' & Hrem' & Hok' & Hh' & Hp' & Hs' & Hc'); [by eapply took_ok|lia|lia|lia|].
    exists z'. split; [exact E'|]. split; [done|]. split; [lia|]. split; [done|].
    split; [congruence|]. split; [congruence|]. split; [lia|].
    rewrite zlen_slice by (Z.div_mod_to_equations; lia). lia.
Qed.

Lemma decode_tokens_end fuel z : cBitsRemaining z = 0 -> decode_tokens fuel z = Ret tt z.
Proof. intros E. destruct fuel; cbn [decode_tokens]; rewrite get_bind, E; done. Qed.

Lemma decode_tokens_step fuel z :
  cBitsRemaining z <> 0 ->
  decode_tokens (S fuel) z = (find_token ZGFX_TOKEN_TABLE 0 0;; decode_tokens fuel) z.
Proof.
  intros E. cbn [decode_tokens]. rewrite get_bind.
  by rewrite (proj2 (Z.eqb_neq (cBitsRemaining z) 0) E).
Qed.

Lemma decode_tokens_spec T ts fuel p z :
  spell_all p ts T -> reads b p z -> zgfx_ok z -> cBitsRemaining z = T - p -> T < 2 ^ 32 ->
  Forall (in_history (HistoryBufferSize z)) ts ->
  OutputCount z + zlen (expand_all (history z) ts) <= 65536 -> T - p <= Z.of_nat fuel ->
  exists z', decode_tokens fuel z = Ret tt z' /\ decoded T T (expand_all (history z) ts) z z'.
Proof.
  intros Hs. revert fuel z. induction Hs as [p|p t q ts r Ht Hs IH];
    intros fuel z Hr Hz HT Hb Hd Ho Hf; pose proof (reads_start _ _ _ Hr) as Hp.
  - exists z. split.
    + apply decode_tokens_end. lia.
    + split; [done|]. split; [lia|]. split; [done|]. simpl. rewrite push_nil, app_nil_r.
      change (zlen (@nil Z)) with 0. rewrite Z.add_0_r. done.
  - apply Forall_cons_1 in Hd as [Hd Hds]. simpl in Ho. rewrite zlen_app in Ho.
    pose proof (spells_forward p t q Hp Ht). pose proof (spell_all_forward q ts r ltac:(lia) Hs).
    pose proof (zlen_nonneg (expand_all (push (history z) (expand (history z) t)) ts)).
    destruct (token_step r p t q z Ht Hr Hz HT) as (z1 & E & Hdec); try done; try lia.
    pose proof Hdec as (Hr1 & HT1 & Hz1 & Hh1 & _ & Hs1 & Hc1).
    destruct fuel as [|fuel]; [lia|].
    destruct (IH fuel z1 Hr1 Hz1 HT1 Hb) as (z' & E' & Hdec'); [by rewrite Hs1|rewrite Hh1; lia|lia|].
    exists z'. split.
    + rewrite decode_tokens_step by lia. by rewrite (bind_ret_eq _ _ _ _ _ E).
    + rewrite Hh1 in Hdec'. by apply decoded_trans with q z1.
Qed.
End Decoder.

(** ** Segments and packets *)

(** A segment and its bytes, after the history [h]. *)
Inductive segment (h : list Z) : list Z -> list Z -> Prop :=
  | segment_plain flags bs :
      is_byte flags -> bytes bs -> Z.land flags PACKET_COMPRESSED = 0 -> 1 <= zlen bs <= 65536 ->
      segment h (flags :: bs) bs
  | segment_tokens flags b last ts :
      is_byte flags -> bytes b -> is_byte last -> Z.land flags PACKET_COMPRESSED <> 0 ->
      8 * zlen b < 2 ^ 32 -> last <= 8 * zlen b ->
      spell_all b 0 ts (8 * zlen b - last) -> Forall (in_history (zlen h)) ts ->
      zlen (expand_all h ts) <= 65536 ->
      segment h (flags :: b ++ [last]) (expand_all h ts).

Inductive segments : list Z -> list (list Z) -> list Z -> Prop :=
  | segments_nil h : segments h [] []
  | segments_cons h seg out segs outs :
      segment h seg out -> segments (push h out) segs outs -> segments h (seg :: segs) (out ++ outs).

Definition framed (seg : list Z) : list Z := winpr_Data_Write_UINT32 (zlen seg) ++ seg.

Inductive packet (h : list Z) : list Z -> list Z -> Prop :=
  | packet_single seg out : segment h seg out -> packet h (ZGFX_SEGMENTED_SINGLE :: seg) out
  | packet_multi segs out :
      segments h segs out -> zlen segs <= UINT16_MAX -> zlen out <= UINT32_MAX ->
      packet h (ZGFX_SEGMENTED_MULTIPART :: winpr_Data_Write_UINT16 (zlen segs) ++
                winpr_Data_Write_UINT32 (zlen out) ++ concat (map framed segs)) out.

(** A segment was decoded: the output is that of the segment alone. *)
Definition segment_done (h out : list Z) z z' : Prop :=
  zgfx_ok z' /\ history z' = push h out /\ produced z' = out /\ OutputCount z' = zlen out /\
  HistoryBufferSize z' = HistoryBufferSize z.

Lemma on_context_bind {A B} (m : M ZGFX_CONTEXT A) (k : A -> M (ZGFX_CONTEXT * wStream) B) z s a z' :
  m z = Ret a z' -> (on_context m ≫= k) (z, s) = k a (z', s).
Proof. intros E. unfold on_context, mbind, M_bind. simpl. by rewrite E. Qed.

Lemma on_context_eq {A} (m : M ZGFX_CONTEXT A) z s a z' :
  m z = Ret a z' -> on_context m (z, s) = Ret a (z', s).
Proof. intros E. unfold on_context. simpl. by rewrite E. Qed.

Lemma set_module_bind {A} g (k : unit -> M (ZGFX_CONTEXT * wStream) A) z s :
  (set_module g ≫= k) (z, s) = k tt (g z, s).
Proof. done. Qed.

Lemma reset_output_ok z :
  zgfx_ok z -> zgfx_ok (set_output (OutputBuffer z) 0 z).
Proof. intros []. split; simpl; try done. Qed.

(** What the two kinds of segments do once the bytes [body] are taken from the stream. *)
Definition segment_body (flags : Z) (seg : list Z) : M (ZGFX_CONTEXT * wStream) unit :=
  let cbSegment := zlen seg in
  if Z.land flags PACKET_COMPRESSED =? 0 then
    on_context (zgfx_history_buffer_ring_write seg);;
    (if output_size <? cbSegment then failure else mret tt);;
    on_context (output seg)
  else
    let inp := ztake (cbSegment - 1) seg in
    let last := nth (Z.to_nat (cbSegment - 1)) seg 0 in
    let nbits := 8 * (cbSegment - 1) in
    if UINT32_MAX <? nbits then failure
    else if nbits <? last then failure
    else
      set_module (set_input inp (u32 (nbits - last)));;
      on_context (decode_tokens (token_fuel (cbSegment - 1))).

Lemma decompress_segment_eq flags seg tl z s :
  readable s -> rest s = (flags :: seg) ++ tl -> 1 <= zlen seg < 2 ^ 32 - 1 ->
  zgfx_decompress_segment (zlen seg + 1) (z, s) =
  segment_body flags seg (set_output (OutputBuffer z) 0 z, advance (zlen seg + 1) s).
Proof.
  intros Hs Hr Hl. unfold zgfx_decompress_segment. rewrite (proj2 (Z.ltb_ge _ _)) by lia. cbv zeta.
  pose proof (zlen_rest s Hs) as Hrem. rewrite Hr, <- app_comm_cons, zlen_cons, zlen_app in Hrem.
  pose proof (zlen_nonneg tl).
  rewrite (on_stream_bind _ _ _ _ tt s) by (apply check_length_ok; [done|lia]).
  rewrite (proj2 (Z.ltb_ge UINT32_MAX (zlen seg + 1))), ret_bind by (unfold UINT32_MAX; lia).
  rewrite (on_stream_bind _ _ _ _ _ _ (read_u8_rest flags (seg ++ tl) s Hs Hr)).
  assert (Hs1 : readable (advance 1 s)) by (apply readable_advance; [done|lia]).
  assert (Hr1 : rest (advance 1 s) = seg ++ tl)
    by (rewrite rest_advance, Hr by (done || lia); by rewrite <- app_comm_cons, zdrop_cons, zdrop_0 by lia).
  rewrite set_module_bind.
  replace (zlen seg + 1 - 1) with (zlen seg) by lia.
  rewrite (on_stream_bind _ _ _ _ seg (advance 1 s)).
  2: { rewrite load_eq by (try done; rewrite rem_advance; lia). by rewrite Hr1, ztake_app_le, ztake_all by lia. }
  rewrite (on_stream_bind _ _ _ _ tt (advance (zlen seg) (advance 1 s))).
  2: { unfold Stream_SafeSeek. fold (Stream_CheckAndLogRequiredLength (zlen seg)).
       rewrite check_length_bind by done.
       rewrite rem_advance, (proj2 (Z.ltb_ge _ _)) by lia.
       apply seek_readable; [done|]. rewrite rem_advance. lia. }
  rewrite advance_advance. replace (1 + zlen seg) with (zlen seg + 1) by lia. done.
Qed.

Lemma segment_body_plain flags bs z s :
  Z.land flags PACKET_COMPRESSED = 0 -> zgfx_ok z -> OutputCount z = 0 -> 1 <= zlen bs <= 65536 ->
  exists z', segment_body flags bs (z, s) = Ret tt (z', s) /\ segment_done (history z) bs z z'.
Proof.
  intros Hf Hz H0 Hl. unfold segment_body. rewrite Hf. simpl (0 =? 0). cbv iota zeta.
  destruct (ring_write_spec bs z Hz) as (z1 & E1 & hb & i & -> & Hok & Hh1). specialize (Hok Hz).
  rewrite (on_context_bind _ _ _ _ _ _ E1). rewrite (proj2 (Z.ltb_ge _ _)), ret_bind by (unfold output_size; lia).
  destruct (output_spec bs _ Hok) as (o & E2 & Hok2 & Hp); [simpl; lia|].
  eexists. split; [apply (on_context_eq _ _ _ _ _ E2)|].
  split; [done|]. split; [exact Hh1|]. split; [rewrite Hp; unfold produced; simpl; by rewrite H0, ztake_0|].
  split; [simpl; lia|done].
Qed.

Lemma segment_body_tokens b flags last ts z s :
  is_byte last -> bytes b -> Z.land flags PACKET_COMPRESSED <> 0 -> 8 * zlen b < 2 ^ 32 ->
  last <= 8 * zlen b -> spell_all b 0 ts (8 * zlen b - last) ->
  Forall (in_history (zlen (history z))) ts -> zlen (expand_all (history z) ts) <= 65536 ->
  zgfx_ok z -> OutputCount z = 0 ->
  exists z', segment_body flags (b ++ [last]) (z, s) = Ret tt (z', s) /\
    segment_done (history z) (expand_all (history z) ts) z z'.
Proof.
  intros Hlast Hb Hf H8 Hll Hs Hd Ho Hz H0. unfold segment_body.
  rewrite (proj2 (Z.eqb_neq _ _)) by done. cbv zeta. rewrite zlen_app. change (zlen [last]) with 1.
  replace (zlen b + 1 - 1) with (zlen b) by lia. pose proof (zlen_nonneg b).
  rewrite ztake_app_le, ztake_all by lia.
  assert (nth (Z.to_nat (zlen b)) (b ++ [last]) 0 = last) as -> by (unfold zlen; by rewrite Nat2Z.id, nth_middle).
  rewrite (proj2 (Z.ltb_ge UINT32_MAX _)), (proj2 (Z.ltb_ge _ last)) by (unfold UINT32_MAX; lia).
  rewrite set_module_bind. unfold is_byte in Hlast.
  replace (u32 (8 * zlen b - last)) with (8 * zlen b - last) by word_lia.
  set (z1 := set_input b (8 * zlen b - last) z).
  assert (Hz1 : zgfx_ok z1) by (destruct Hz; by split).
  assert (Hr1 : reads b 0 z1) by (split; simpl; try lia; try done; word_lia).
  destruct (decode_tokens_spec b Hb (8 * zlen b - last) ts (token_fuel (zlen b)) 0 z1)
    as (z' & E & Hdec); try done; try lia.
  - simpl. lia.
  - change (HistoryBufferSize z1) with (HistoryBufferSize z). rewrite <- (zlen_history z Hz). exact Hd.
  - change (history z1) with (history z). change (OutputCount z1) with (OutputCount z). lia.
  - unfold token_fuel, output_size. lia.
  - exists z'. split; [by apply on_context_eq|]. destruct Hdec as (_ & _ & Hok & Hh & Hp & Hsz & Hc).
    change (history z1) with (history z) in *. change (OutputCount z1) with (OutputCount z) in Hc.
    split; [done|]. split; [done|]. split; [rewrite Hp; unfold produced; simpl; by rewrite H0, ztake_0|].
    split; [lia|done].
Qed.

Lemma segment_length h seg out : segment h seg out -> 2 <= zlen seg < 2 ^ 32.
Proof.
  destruct 1 as [flags bs _ _ _ Hl|flags b last ts _ _ _ _ H8 _ _ _ _].
  - rewrite zlen_cons. lia.
  - rewrite zlen_cons, zlen_app. change (zlen [last]) with 1. pose proof (zlen_nonneg b). lia.
Qed.

Lemma segment_bytes h seg out : segment h seg out -> bytes seg.
Proof.
  destruct 1 as [flags bs Hf Hb _ _|flags b last ts Hf Hb Hl _ _ _ _ _ _].
  - by constructor.
  - constructor; [done|]. apply Forall_app. split; [done|]. by constructor.
Qed.

Lemma decompress_segment_spec seg out tl z s :
  segment (history z) seg out -> zgfx_ok z -> readable s -> rest s = seg ++ tl ->
  exists z', zgfx_decompress_segment (zlen seg) (z, s) = Ret tt (z', advance (zlen seg) s) /\
    segment_done (history z) out z z'.
Proof.
  intros Hseg Hz Hs Hr. pose proof (segment_length _ _ _ Hseg) as Hl.
  pose proof (reset_output_ok z Hz) as Hz0.
  destruct Hseg as [flags bs Hf Hb Hfl Hlen|flags b last ts Hf Hb Hlast Hfl H8 Hll Hsp Hd Ho];
    rewrite zlen_cons in Hl |- *; rewrite (decompress_segment_eq flags _ tl) by (done || lia).
  - by apply (segment_body_plain flags bs _ _ Hfl Hz0).
  - by apply (segment_body_tokens b flags last ts (set_output (OutputBuffer z) 0 z) _ Hlast Hb Hfl H8 Hll Hsp Hd Ho Hz0).
Qed.

Section Packets.
Context `{AllocOk}.

Lemma append_eq z s acc out size :
  zgfx_ok z -> produced z = out -> OutputCount z = zlen out -> zlen acc + zlen out <= size ->
  size <= UINT32_MAX -> zgfx_append acc size (z, s) = Ret (acc ++ out) (z, s).
Proof.
  intros [_ _ _ Ho Hc] Hp Hn Hsz Hu. unfold zgfx_append, get_module. rewrite bind_assoc, get_bind, ret_bind.
  cbn [fst]. pose proof (zlen_nonneg acc). unfold UINT32_MAX in *.
  rewrite (proj2 (Z.ltb_ge (4294967295 - zlen acc) _)), (proj2 (Z.ltb_ge size _)) by lia.
  rewrite alloc_ok by lia. cbn [negb]. rewrite (proj2 (Z.leb_le _ _)) by lia.
  fold (produced z). by rewrite Hp.
Qed.

Lemma decompress_segments_spec segs outs size acc tl z s :
  segments (history z) segs outs -> zgfx_ok z -> readable s ->
  rest s = concat (map framed segs) ++ tl -> zlen acc + zlen outs <= size -> size <= UINT32_MAX ->
  exists z', decompress_segments (length segs) size acc (z, s) =
      Ret (acc ++ outs) (z', advance (zlen (concat (map framed segs))) s) /\
    zgfx_ok z' /\ history z' = push (history z) outs.
Proof.
  intros Hsegs. remember (history z) as h eqn:Eh. revert z s acc Eh.
  induction Hsegs as [h|h seg out segs outs Hseg Hsegs IH]; intros z s acc -> Hz Hs Hr Hsz Hu.
  - exists z. simpl. rewrite app_nil_r, push_nil. change (zlen (@nil Z)) with 0. by rewrite advance_0.
  - rewrite zlen_app in Hsz. pose proof (zlen_nonneg outs). pose proof (segment_length _ _ _ Hseg) as Hl.
    assert (Ec : concat (map framed (seg :: segs)) =
      winpr_Data_Write_UINT32 (zlen seg) ++ seg ++ concat (map framed segs))
      by (cbn [map concat]; unfold framed at 1; by rewrite <- app_assoc).
    rewrite Ec in Hr |- *. rewrite <- !app_assoc in Hr. cbn [length decompress_segments].
    pose proof (zlen_rest s Hs) as Hrem. rewrite Hr, !zlen_app, zlen_Write_UINT32 in Hrem.
    pose proof (zlen_nonneg (concat (map framed segs))). pose proof (zlen_nonneg tl).
    rewrite (on_stream_bind _ _ _ _ tt s) by (apply check_length_ok; [done|lia]).
    rewrite (on_stream_bind _ _ _ _ _ _ (parses_u32 (zlen seg) ltac:(unfold is_u32; lia) s _ Hs Hr)).
    rewrite zlen_Write_UINT32. set (s1 := advance 4 s).
    assert (Hs1 : readable s1) by (apply readable_advance; [done|lia]).
    assert (Hr1 : rest s1 = seg ++ (concat (map framed segs) ++ tl)).
    { unfold s1. rewrite rest_advance, Hr, zdrop_app_ge by (rewrite ?zlen_Write_UINT32; done || lia).
      by rewrite zlen_Write_UINT32. }
    destruct (decompress_segment_spec seg out _ z s1 Hseg Hz Hs1 Hr1) as (z1 & E1 & Hok1 & Hh1 & Hp1 & Hc1 & Hn1).
    rewrite (bind_ret_eq _ _ _ _ _ E1).
    rewrite (bind_ret_eq _ _ _ _ _ (append_eq z1 _ acc out size Hok1 Hp1 Hc1 ltac:(lia) Hu)).
    destruct (IH z1 (advance (zlen seg) s1) (acc ++ out)) as (z' & E' & Hok' & Hh'); try done.
    + apply readable_advance; [done|]. unfold s1. rewrite rem_advance. lia.
    + rewrite rest_advance, Hr1, zdrop_app_ge by (try done; try lia; unfold s1; rewrite ?rem_advance; lia).
      by rewrite Z.sub_diag, zdrop_0.
    + rewrite zlen_app. lia.
    + exists z'. rewrite E', <- app_assoc. split; [|split; [done|by rewrite Hh', push_push]].
      do 2 f_equal. unfold s1. rewrite !advance_advance. f_equal.
      rewrite !zlen_app, zlen_Write_UINT32. lia.
Qed.

Lemma segments_bytes h segs outs :
  segments h segs outs -> Forall (fun seg => bytes seg /\ zlen seg < 2 ^ 32) segs.
Proof.
  induction 1 as [|h seg out segs outs Hseg _ IH]; constructor; [|done].
  split; [by eapply segment_bytes|]. pose proof (segment_length _ _ _ Hseg). lia.
Qed.

Lemma bytes_framed segs :
  Forall (fun seg => bytes seg /\ zlen seg < 2 ^ 32) segs -> bytes (concat (map framed segs)).
Proof.
  induction 1 as [|seg segs [Hb _] _ IH]; cbn [map concat]; [constructor|].
  apply Forall_app. split; [|done]. apply Forall_app. split; [apply bytes_Write_UINT32|done].
Qed.

Lemma packet_bytes h src out : packet h src out -> bytes src.
Proof.
  destruct 1 as [seg out Hseg|segs out Hsegs _ _].
  - constructor; [done|]. by eapply segment_bytes.
  - constructor; [done|]. apply Forall_app. split; [apply bytes_Write_UINT16|].
    apply Forall_app. split; [apply bytes_Write_UINT32|]. by eapply bytes_framed, segments_bytes.
Qed.

Lemma rest_init src : bytes src -> zlen src < 2 ^ 62 -> rest (Stream_StaticInit src) = src.
Proof.
  intros Hb Hl. unfold rest. simpl. rewrite Z.sub_0_r. unfold slice. rewrite zdrop_0.
  by apply ztake_all.
Qed.

(** The parts of a stream, one after the other. *)
Lemma rest_next s b1 b2 :
  readable s -> rest s = b1 ++ b2 ->
  readable (advance (zlen b1) s) /\ rest (advance (zlen b1) s) = b2.
Proof.
  intros Hs Hr. pose proof (rem_parses s b1 b2 Hs Hr). pose proof (zlen_nonneg b1).
  split; [apply readable_advance; [done|lia]|].
  rewrite rest_advance, Hr, zdrop_app_ge by (done || lia). by rewrite Z.sub_diag, zdrop_0.
Qed.

Lemma decompress_single seg out z s :
  segment (history z) seg out -> zgfx_ok z -> readable s -> rest s = [ZGFX_SEGMENTED_SINGLE] ++ seg ->
  exists z' s', decompress_stream (z, s) = Ret out (z', s') /\ zgfx_ok z' /\ history z' = push (history z) out.
Proof.
  intros Hseg Hz Hs Hr. pose proof (segment_length _ _ _ Hseg) as Hsl. unfold decompress_stream.
  pose proof (rem_parses s _ _ Hs Hr). change (zlen [_]) with 1 in *.
  rewrite (on_stream_bind _ _ _ _ tt s) by (by apply check_length_ok).
  rewrite (on_stream_bind _ _ _ _ _ _ (read_u8_rest _ seg s Hs Hr)). simpl (_ =? _). cbv iota.
  destruct (rest_next s _ _ Hs Hr) as [Hs1 Hr1]. change (zlen [_]) with 1 in *.
  rewrite (on_stream_bind _ _ _ _ _ _ (remaining_length_eq _ Hs1)).
  replace (rem (advance 1 s)) with (zlen seg) by (by rewrite <- zlen_rest, Hr1).
  rewrite <- (app_nil_r seg) in Hr1.
  destruct (decompress_segment_spec seg out [] z _ Hseg Hz Hs1 Hr1) as (z1 & E & Hok & Hh & Hp & Hc & _).
  rewrite (bind_ret_eq _ _ _ _ _ E). unfold get_module. rewrite bind_assoc, get_bind, ret_bind. cbn [fst].
  pose proof (zlen_nonneg out). destruct (Z.ltb_spec 0 (OutputCount z1)).
  - assert (zlen out <= 65536) by (destruct Hok; unfold output_size in *; lia).
    rewrite (bind_ret_eq _ _ _ _ _ (append_eq z1 _ [] out (OutputCount z1) Hok Hp Hc
      ltac:(change (zlen (@nil Z)) with 0; lia) ltac:(unfold UINT32_MAX; lia))).
    simpl app. rewrite Hc, Z.eqb_refl. cbn [negb]. by eexists _, _.
  - assert (out = []) as -> by (apply zlen_zero_inv; lia). by eexists _, _.
Qed.

Lemma decompress_multi segs out z s :
  segments (history z) segs out -> zlen segs <= UINT16_MAX -> zlen out <= UINT32_MAX -> zgfx_ok z ->
  readable s ->
  rest s = [ZGFX_SEGMENTED_MULTIPART] ++ winpr_Data_Write_UINT16 (zlen segs) ++
           winpr_Data_Write_UINT32 (zlen out) ++ concat (map framed segs) ->
  exists z' s', decompress_stream (z, s) = Ret out (z', s') /\ zgfx_ok z' /\ history z' = push (history z) out.
Proof.
  intros Hsegs Hn Ho Hz Hs Hr. unfold decompress_stream. unfold UINT16_MAX, UINT32_MAX in *.
  pose proof (zlen_nonneg segs). pose proof (zlen_nonneg out).
  pose proof (rem_parses s _ _ Hs Hr). destruct (rest_next s _ _ Hs Hr) as [Hs1 Hr1].
  rewrite (on_stream_bind _ _ _ _ tt s) by (by apply check_length_ok).
  rewrite (on_stream_bind _ _ _ _ _ _ (read_u8_rest _ _ s Hs Hr)). simpl (_ =? _). cbv iota.
  change (zlen [_]) with 1 in *. destruct (rest_next _ _ _ Hs1 Hr1) as [Hs2 Hr2].
  destruct (rest_next _ _ _ Hs2 Hr2) as [Hs3 Hr3]. rewrite zlen_Write_UINT16, zlen_Write_UINT32 in *.
  rewrite (on_stream_bind _ _ _ _ tt (advance 1 s)).
  2: { apply check_length_ok; [done|]. rewrite <- zlen_rest, Hr1, !zlen_app, zlen_Write_UINT16,
         zlen_Write_UINT32 by done. pose proof (zlen_nonneg (concat (map framed segs))). lia. }
  rewrite (on_stream_bind _ _ _ _ _ _ (parses_u16 (zlen segs) ltac:(unfold is_u16; lia) _ _ Hs1 Hr1)).
  rewrite zlen_Write_UINT16.
  rewrite (on_stream_bind _ _ _ _ _ _ (parses_u32 (zlen out) ltac:(unfold is_u32; lia) _ _ Hs2 Hr2)).
  rewrite zlen_Write_UINT32. rewrite <- (app_nil_r (concat _)) in Hr3.
  destruct (decompress_segments_spec segs out (zlen out) [] [] z _ Hsegs Hz Hs3 Hr3) as (z1 & E & Hok & Hh).
  { change (zlen (@nil Z)) with 0. lia. }
  { unfold UINT32_MAX. lia. }
  replace (Z.to_nat (zlen segs)) with (length segs) by (unfold zlen; lia).
  rewrite (bind_ret_eq _ _ _ _ _ E). simpl app. rewrite Z.eqb_refl. cbn [negb]. by eexists _, _.
Qed.

(** The decoder on a well-formed packet. *)
Lemma packet_decoded z src out :
  zgfx_ok z -> packet (history z) src out -> zlen src < 2 ^ 62 ->
  exists z', zgfx_decompress src z = Ret out z' /\ zgfx_ok z' /\ history z' = push (history z) out.
Proof.
  intros Hz Hp Hl. pose proof (packet_bytes _ _ _ Hp) as Hb. unfold zgfx_decompress.
  pose proof (readable_init src Hb Hl) as Hs. pose proof (rest_init src Hb Hl) as Hr.
  assert (exists z' s', decompress_stream (z, Stream_StaticInit src) = Ret out (z', s') /\ zgfx_ok z' /\
    history z' = push (history z) out) as (z' & s' & -> & Hok & Hh); [|by exists z'].
  destruct Hp as [seg out Hseg|segs out Hsegs Hn Ho].
  - by apply decompress_single with seg.
  - by apply decompress_multi with segs.
Qed.
End Packets.

(** ** The compressor *)

(** The bytes written so far; the storage stays far below its limit. *)
Record view (s : wStream) (w : list Z) : Prop := mk_view {
  view_wf : wf s;
  view_capacity : 0 < capacity s <= 2 ^ 40;
  view_pointer : pointer s = zlen w;
  view_written : written s = w
}.

Section Writing.
Context `{AllocOk}.

Lemma view_ensure s w n :
  view s w -> 0 <= n -> zlen w + 2 * n <= 2 ^ 39 ->
  exists s', Stream_EnsureRemainingCapacity n s = Ret tt s' /\
    view s' w /\ zlen w + n <= capacity s'.
Proof.
  intros [Hw Hc Hp Hwr] Hn Hb. destruct (Z.le_gt_cases (zlen w + n) (capacity s)).
  - exists s. split; [|split; [done|lia]]. unfold Stream_EnsureRemainingCapacity.
    rewrite (bind_ret_eq _ _ s _ _ (position_eq s Hw)).
    rewrite (bind_ret_eq Stream_Capacity _ s (capacity s) s) by done. destruct Hw. unfold usize.
    rewrite !Z.mod_small by lia. by rewrite (proj2 (Z.ltb_ge _ _)) by lia.
  - destruct (ensure_remaining_spec n s) as (s' & E & (Hw' & Hwr' & Hp') & Hroom & Hcap); [done|lia|done|lia|].
    rewrite app_nil_r in Hwr'. rewrite zlen_nil in Hp'. exists s'. split; [done|].
    split; [split; [done|lia|lia|congruence]|lia].
Qed.

Lemma view_write s w m bs :
  view s w -> writes m bs -> zlen w + zlen bs <= capacity s ->
  exists s', m s = Ret tt s' /\ view s' (w ++ bs) /\ capacity s' = capacity s.
Proof.
  intros [Hw Hc Hp Hwr] [Hb Hm] Hl. exists (put bs s).
  split; [apply Hm; [done|lia]|].
  destruct (appended_put bs s Hw Hb ltac:(lia)) as (Hw' & Hwr' & Hp').
  split; [|done]. split; [done|done|rewrite zlen_app; lia|congruence].
Qed.

Lemma view_seek s w n :
  view s w -> 0 <= n -> zlen w + n <= capacity s ->
  exists s' x, Stream_Seek n s = Ret tt s' /\ view s' (w ++ x) /\
    zlen x = n /\ capacity s' = capacity s.
Proof.
  intros [Hw Hc Hp Hwr] Hn Hl. exists (advance n s), (slice (pointer s) n (buffer s)).
  split; [apply seek_eq; [done|lia]|]. destruct (Hw).
  assert (Hz : zlen (slice (pointer s) n (buffer s)) = n) by (apply zlen_slice; lia).
  split; [|done]. split; simpl; try lia.
  - split; simpl; try lia; done.
  - rewrite zlen_app. lia.
  - unfold written. simpl. rewrite <- Hwr. unfold written. rewrite ztake_slice by lia. done.
Qed.

Lemma view_position s w : view s w -> Stream_GetPosition s = Ret (zlen w) s.
Proof. intros [Hw _ Hp _]. rewrite <- Hp. apply position_eq, Hw. Qed.

(** A field left open is filled in later. *)
Lemma view_patch s a x c m bs :
  view s (a ++ x ++ c) -> writes m bs -> zlen x = zlen bs ->
  exists s1 s2 s', go_to (zlen a) s = Ret tt s1 /\ m s1 = Ret tt s2 /\
    go_to (zlen (a ++ x ++ c)) s2 = Ret tt s' /\
    view s' (a ++ bs ++ c) /\ len s2 = len s.
Proof.
  intros [Hw Hc Hp Hwr] [Hb Hm] Hx. destruct (Hw) as [Hst Hpt Hln Hlim Hby].
  rewrite !zlen_app in *. pose proof (zlen_nonneg a). pose proof (zlen_nonneg x). pose proof (zlen_nonneg c).
  set (s1 := set_pointer (zlen a) s).
  assert (Hw1 : wf s1) by (split; simpl; try lia; done).
  assert (Hw2 : wf (put bs s1)) by (apply wf_put; [done|done|simpl; lia]).
  exists s1, (put bs s1), (set_pointer (zlen a + (zlen x + zlen c)) (put bs s1)).
  split; [apply go_to_eq; lia|]. split; [apply Hm; [done|simpl; lia]|].
  split; [apply go_to_eq; simpl; lia|]. split; [|done].
  destruct Hw2 as [A2 B2 C2 D2 E2]. split; simpl; try lia.
  - split; simpl in *; try lia; done.
  - rewrite !zlen_app. lia.
  - unfold written in Hwr |- *. simpl. rewrite Hp in Hwr.
    rewrite <- (ztake_zdrop (zlen a + (zlen x + zlen c)) (buffer s)), Hwr. unfold blit.
    rewrite <- !app_assoc. rewrite (ztake_app_le (zlen a)), (ztake_all (zlen a) a) by lia.
    rewrite (zdrop_app_ge (zlen a + zlen bs)) by lia.
    rewrite (zdrop_app_ge (_ - zlen a)) by lia.
    replace (zlen a + zlen bs - zlen a - zlen x) with 0 by lia. rewrite zdrop_0.
    rewrite !app_assoc. rewrite ztake_app_le by (rewrite !zlen_app; lia).
    apply ztake_all. rewrite !zlen_app. lia.
Qed.

Definition marked (f : Z) : Z := Z.lor f ZGFX_PACKET_COMPR_TYPE_RDP8.

Lemma marked_byte f : is_byte f -> is_byte (marked f) /\ marked (marked f) = marked f /\
  Z.land (marked f) PACKET_COMPRESSED = Z.land f PACKET_COMPRESSED.
Proof.
  intros Hf. assert (Hb : (0 <=? marked f) && (marked f <? 256) = true).
  { revert f Hf. apply (zrange_forall 256 (fun f => (0 <=? marked f) && (marked f <? 256))). by vm_compute. }
  split; [unfold is_byte; lia|]. unfold marked. rewrite <- Z.lor_assoc, Z.lor_diag. split; [done|].
  rewrite Z.land_lor_distr_l. simpl (Z.land ZGFX_PACKET_COMPR_TYPE_RDP8 _). by rewrite Z.lor_0_r.
Qed.

Lemma compress_segment_eq f src s w :
  view s w -> is_byte f -> bytes src -> zlen src <= 65535 -> zlen w <= 2 ^ 38 ->
  exists s', zgfx_compress_segment src (f, s) = Ret tt (marked f, s') /\ view s' (w ++ marked f :: src).
Proof.
  intros Hv Hf Hb Hl Hw. unfold zgfx_compress_segment. pose proof (zlen_nonneg src).
  replace (u32 (zlen src + 1)) with (zlen src + 1) by word_lia.
  destruct (marked_byte f Hf) as (Hm & _ & _).
  destruct (view_ensure s w (zlen src + 1)) as (s1 & E1 & Hv1 & Hr1); [done|lia|lia|].
  rewrite (on_stream_bind _ _ _ _ _ _ E1). unfold set_module. rewrite modify_bind. cbn [fst snd].
  fold (marked f). unfold get_module. rewrite bind_assoc, get_bind, ret_bind. cbn [fst].
  rewrite (bind_ret_eq _ _ _ _ _ (asserting_cast_eq u8 (marked f) _ ltac:(word_lia))).
  destruct (view_write s1 w (Stream_Write_UINT8 (marked f)) [marked f]) as (s2 & E2 & Hv2 & Hc2);
    [done|by apply writes_u8|change (zlen [_]) with 1; lia|].
  rewrite (on_stream_bind _ _ _ _ _ _ E2).
  destruct (view_write s2 (w ++ [marked f]) (Stream_Write src) src) as (s3 & E3 & Hv3 & Hc3);
    [done|by apply writes_bytes|rewrite zlen_app; change (zlen [_]) with 1; lia|].
  exists s3. split; [unfold on_stream; cbn [fst snd]; by rewrite E3|]. by rewrite <- app_assoc in Hv3.
Qed.

Lemma finish_framed f src s w x :
  view s (w ++ x) -> zlen x = 4 -> is_byte f -> bytes src -> zlen src <= 65535 -> zlen w <= 2 ^ 37 ->
  0 < zlen w ->
  exists s', finish_fragment (zlen w) src (f, s) = Ret tt (marked f, s') /\
    view s' (w ++ framed (marked f :: src)).
Proof.
  intros Hv Hx Hf Hb Hl Hw Hw0. unfold finish_fragment.
  rewrite (on_stream_bind _ _ _ _ _ _ (view_position _ _ Hv)).
  destruct (compress_segment_eq f src s (w ++ x)) as (s2 & E2 & Hv2);
    [done|done|done|done|rewrite zlen_app; lia|].
  rewrite (bind_ret_eq _ _ _ _ _ E2). rewrite (proj2 (Z.eqb_neq (zlen w) 0)) by lia. cbn [negb].
  rewrite (on_stream_bind _ _ _ _ _ _ (view_position _ _ Hv2)). rewrite <- app_assoc in Hv2 |- *.
  pose proof (zlen_nonneg src).
  assert (E : usize (zlen (w ++ x ++ marked f :: src) - zlen (w ++ x)) = zlen (marked f :: src)).
  { rewrite !zlen_app, zlen_cons. unfold usize. rewrite Z.mod_small; lia. }
  rewrite E. cbv zeta. rewrite (proj2 (Z.ltb_ge UINT32_MAX _)) by (rewrite zlen_cons; unfold UINT32_MAX; lia).
  destruct (view_patch s2 w x (marked f :: src) (Stream_Write_UINT32 (zlen (marked f :: src)))
    (winpr_Data_Write_UINT32 (zlen (marked f :: src)))) as (s3 & s4 & s5 & E3 & E4 & E5 & Hv5 & _);
    [done|apply writes_u32; rewrite zlen_cons; unfold is_u32; lia|by rewrite zlen_Write_UINT32|].
  rewrite (on_stream_bind _ _ _ _ _ _ E3), (on_stream_bind _ _ _ _ _ _ E4).
  exists s5. split; [|done]. unfold on_stream. cbn [fst snd].
  replace (zlen (w ++ x) + zlen (marked f :: src)) with (zlen (w ++ x ++ marked f :: src))
    by (rewrite !zlen_app; lia). by rewrite E5.
Qed.

Lemma fragment_next f src s w n total size :
  view s w -> is_byte f -> bytes src -> zlen src <= 65535 -> 0 < zlen w <= 2 ^ 37 -> 0 < n ->
  exists s', compress_fragment n total src size (f, s) = Ret None (marked f, s') /\
    view s' (w ++ framed (marked f :: src)).
Proof.
  intros Hv Hf Hb Hl Hw Hn. unfold compress_fragment.
  destruct (view_ensure s w 12) as (s1 & E1 & Hv1 & Hr1); [done|lia|lia|].
  rewrite (on_stream_bind _ _ _ _ _ _ E1). rewrite (proj2 (Z.eqb_neq n 0)), ret_bind by lia.
  rewrite (proj2 (Z.ltb_lt 0 n)) by lia. cbn [orb]. rewrite bind_assoc.
  rewrite (on_stream_bind _ _ _ _ _ _ (view_position _ _ Hv1)). rewrite bind_assoc.
  destruct (view_seek s1 w 4 Hv1) as (s2 & x & E2 & Hv2 & Hx & Hc2); [lia|lia|].
  rewrite (on_stream_bind _ _ _ _ _ _ E2), ret_bind.
  destruct (finish_framed f src s2 w x) as (s3 & E3 & Hv3); try done; try lia.
  rewrite (bind_ret_eq _ _ _ _ _ E3). by exists s3.
Qed.

Lemma fragment_single f src s size :
  view s [] -> is_byte f -> bytes src -> zlen src <= 65535 ->
  exists s', compress_fragment 0 0 src size (f, s) = Ret None (marked f, s') /\
    view s' (ZGFX_SEGMENTED_SINGLE :: marked f :: src).
Proof.
  intros Hv Hf Hb Hl. unfold compress_fragment.
  destruct (view_ensure s [] 12) as (s1 & E1 & Hv1 & Hr1); [done|lia|rewrite zlen_nil; lia|].
  rewrite zlen_nil in Hr1. rewrite (on_stream_bind _ _ _ _ _ _ E1). simpl (0 =? 0). simpl (0 <? 0).
  cbv iota. rewrite bind_assoc.
  destruct (view_write s1 [] (Stream_Write_UINT8 ZGFX_SEGMENTED_SINGLE) [ZGFX_SEGMENTED_SINGLE])
    as (s2 & E2 & Hv2 & Hc2); [done|by apply writes_u8|change (zlen [_]) with 1; rewrite zlen_nil; lia|].
  rewrite (on_stream_bind _ _ _ _ _ _ E2). rewrite Z.ltb_irrefl, ret_bind. cbn [orb]. rewrite ret_bind.
  unfold finish_fragment. rewrite bind_assoc.
  rewrite (on_stream_bind _ _ _ _ _ _ (view_position _ _ Hv2)). rewrite bind_assoc.
  destruct (compress_segment_eq f src s2 _ Hv2 Hf Hb Hl) as (s3 & E3 & Hv3); [by vm_compute|].
  rewrite (bind_ret_eq _ _ _ _ _ E3). by exists s3.
Qed.

Lemma fragment_first f src s total size :
  view s [] -> is_byte f -> bytes src -> zlen src <= 65535 -> 0 < total -> is_u32 size ->
  exists s' x, compress_fragment 0 total src size (f, s) = Ret (Some 1) (marked f, s') /\ zlen x = 2 /\
    view s' ([ZGFX_SEGMENTED_MULTIPART] ++ x ++ winpr_Data_Write_UINT32 size ++ framed (marked f :: src)).
Proof.
  intros Hv Hf Hb Hl Ht Hsz. unfold compress_fragment.
  destruct (view_ensure s [] 12) as (s1 & E1 & Hv1 & Hr1); [done|lia|rewrite zlen_nil; lia|].
  rewrite zlen_nil in Hr1. rewrite (on_stream_bind _ _ _ _ _ _ E1). simpl (0 =? 0). simpl (0 <? 0).
  cbv iota. rewrite (proj2 (Z.eqb_neq total 0)), (proj2 (Z.ltb_lt 0 total)) by lia. cbn [orb].
  rewrite bind_assoc.
  destruct (view_write s1 [] (Stream_Write_UINT8 ZGFX_SEGMENTED_MULTIPART) [ZGFX_SEGMENTED_MULTIPART])
    as (s2 & E2 & Hv2 & Hc2); [done|by apply writes_u8|change (zlen [_]) with 1; rewrite zlen_nil; lia|].
  rewrite (on_stream_bind _ _ _ _ _ _ E2). rewrite bind_assoc.
  rewrite (on_stream_bind _ _ _ _ _ _ (view_position _ _ Hv2)). rewrite bind_assoc.
  simpl app in Hv2. change (zlen ([] ++ [_])) with 1.
  destruct (view_seek s2 _ 2 Hv2) as (s3 & x & E3 & Hv3 & Hx & Hc3); [lia|change (zlen [_]) with 1; lia|].
  rewrite (on_stream_bind _ _ _ _ _ _ E3). rewrite bind_assoc.
  destruct (view_write s3 _ (Stream_Write_UINT32 size) (winpr_Data_Write_UINT32 size) Hv3)
    as (s4 & E4 & Hv4 & Hc4); [by apply writes_u32|rewrite zlen_app, Hx, zlen_Write_UINT32; change (zlen [_]) with 1; lia|].
  rewrite (on_stream_bind _ _ _ _ _ _ E4), ret_bind. rewrite orb_true_r, bind_assoc.
  assert (Lw : zlen (([ZGFX_SEGMENTED_MULTIPART] ++ x) ++ winpr_Data_Write_UINT32 size) = 7)
    by (rewrite !zlen_app, Hx, zlen_Write_UINT32; done).
  rewrite (on_stream_bind _ _ _ _ _ _ (view_position _ _ Hv4)). rewrite bind_assoc.
  destruct (view_seek s4 _ 4 Hv4) as (s5 & y & E5 & Hv5 & Hy & Hc5); [lia|lia|].
  rewrite (on_stream_bind _ _ _ _ _ _ E5), ret_bind.
  destruct (finish_framed f src s5 _ y Hv5 Hy Hf Hb Hl) as (s6 & E6 & Hv6); [lia|lia|].
  rewrite (bind_ret_eq _ _ _ _ _ E6). exists s6, x. split; [done|]. split; [done|].
  by rewrite <- !app_assoc in Hv6.
Qed.

Definition chunk_ok (c : list Z) : Prop := bytes c /\ 1 <= zlen c <= 65535.

Definition segments_of (g : Z) (cs : list (list Z)) : list Z := concat (map framed (map (cons g) cs)).

Lemma fragments_rest g size pos fuel n rest s w :
  view s w -> is_byte g -> marked g = g -> bytes rest -> 0 < n -> (length rest < fuel)%nat ->
  0 < zlen w -> zlen w + 6 * zlen rest <= 2 ^ 37 ->
  exists s' cs, compress_fragments fuel n rest size pos (g, s) = Ret (n + zlen cs, pos) (g, s') /\
    view s' (w ++ segments_of g cs) /\ concat cs = rest /\ Forall chunk_ok cs /\
    zlen cs * 65535 <= zlen rest + 65534.
Proof.
  intros Hv Hg Hm. revert n rest s w Hv. induction fuel as [|fuel IH]; intros n rest s w Hv Hb Hn Hf Hw Hsz; [lia|].
  cbn [compress_fragments]. pose proof (zlen_nonneg rest). rewrite (proj2 (Z.eqb_neq n 0)) by lia.
  destruct (Z.ltb_spec 0 (zlen rest)); cbn [orb].
  2: { assert (rest = []) as -> by (apply zlen_zero_inv; lia).
       exists s, []. change (zlen (@nil (list Z))) with 0. rewrite Z.add_0_r. split; [done|].
       unfold segments_of. simpl. rewrite app_nil_r. split; [done|]. split; [done|]. split; [constructor|lia]. }
  cbv zeta. unfold ZGFX_SEGMENTED_MAXSIZE. set (m := Z.min (zlen rest) 65535).
  assert (Lt : zlen (ztake m rest) = m) by (apply zlen_ztake; lia).
  assert (Ld : zlen (zdrop m rest) = zlen rest - m) by (apply zlen_zdrop; lia).
  destruct (fragment_next g (ztake m rest) s w n (zlen rest - m) size) as (s1 & E1 & Hv1);
    [done|done|by apply Forall_ztake|lia|lia|lia|]. rewrite Hm in E1, Hv1.
  rewrite (bind_ret_eq _ _ _ _ _ E1). simpl default.
  assert (Lf : zlen (framed (g :: ztake m rest)) = m + 5)
    by (unfold framed; rewrite zlen_app, zlen_Write_UINT32, zlen_cons; lia).
  destruct (IH (n + 1) (zdrop m rest) s1 _ Hv1) as (s2 & cs & E2 & Hv2 & Hc & Hok & Hn2); try lia.
  - by apply Forall_zdrop.
  - unfold zlen in *. lia.
  - rewrite zlen_app. lia.
  - rewrite zlen_app, Lf, Ld. lia.
  - exists s2, (ztake m rest :: cs). rewrite E2, zlen_cons. split; [do 2 f_equal; lia|].
    split; [unfold segments_of in *; cbn [map concat]; by rewrite app_assoc|].
    split; [cbn [concat]; by rewrite Hc, ztake_zdrop|].
    split; [constructor; [split; [by apply Forall_ztake|lia]|done]|]. lia.
Qed.

Lemma plain_segments h g cs :
  is_byte g -> Z.land g PACKET_COMPRESSED = 0 -> Forall chunk_ok cs ->
  segments h (map (cons g) cs) (concat cs).
Proof.
  intros Hg Hc Hok. revert h. induction Hok as [|c cs [Hb Hl] _ IH]; intros h; cbn [map concat]; constructor.
  - apply segment_plain; try done. lia.
  - apply IH.
Qed.

(** Data whose packet, with a header of 7 bytes and 5 for each of at most 65535 segments, has a
    size of 32 bits. *)
Definition max_data : Z := UINT32_MAX - 7 - 5 * 65535.

Lemma compress_single f src s :
  view s [] -> is_byte f -> bytes src -> 1 <= zlen src <= 65535 ->
  exists s', zgfx_compress_to_stream src (f, s) = Ret tt (marked f, s') /\
    pointer s' = zlen (written s') /\ written s' = ZGFX_SEGMENTED_SINGLE :: marked f :: src.
Proof.
  intros Hv Hf Hb Hl. unfold zgfx_compress_to_stream. cbn [compress_fragments].
  rewrite orb_true_r. cbv zeta. unfold ZGFX_SEGMENTED_MAXSIZE. rewrite Z.min_l, Z.sub_diag by lia.
  rewrite ztake_all, zdrop_all by lia. rewrite bind_assoc.
  destruct (fragment_single f src s (zlen src) Hv Hf Hb ltac:(lia)) as (s1 & E1 & Hv1).
  rewrite (bind_ret_eq _ _ _ _ _ E1). simpl default.
  destruct (length src) as [|n] eqn:En; [unfold zlen in Hl; lia|]. cbn [compress_fragments].
  simpl (0 + 1). simpl (_ || _). cbv iota. rewrite ret_bind. cbv beta iota.
  destruct Hv1 as [Hw Hc Hp Hwr]. destruct (Hw).
  rewrite (on_stream_bind _ _ _ _ tt (set_len (pointer s1) s1)).
  2: { unfold Stream_SealLength. rewrite get_bind, !assert_bind by lia.
       by rewrite (proj2 (Z.leb_le _ _)) by lia. }
  eexists. split; [done|]. unfold written in *. simpl. rewrite Hwr. done.
Qed.

Lemma compress_multi f src s :
  view s [] -> is_byte f -> bytes src -> 65535 < zlen src <= max_data ->
  exists s' cs, zgfx_compress_to_stream src (f, s) = Ret tt (marked f, s') /\
    pointer s' = zlen (written s') /\ concat cs = src /\ Forall chunk_ok cs /\ zlen cs <= UINT16_MAX /\
    written s' = ZGFX_SEGMENTED_MULTIPART :: winpr_Data_Write_UINT16 (zlen cs) ++
                 winpr_Data_Write_UINT32 (zlen src) ++ segments_of (marked f) cs.
Proof.
  intros Hv Hf Hb Hl. unfold max_data, UINT32_MAX in Hl. unfold zgfx_compress_to_stream. cbn [compress_fragments].
  rewrite orb_true_r. cbv zeta. unfold ZGFX_SEGMENTED_MAXSIZE. rewrite Z.min_r by lia. rewrite bind_assoc.
  assert (Lt : zlen (ztake 65535 src) = 65535) by (apply zlen_ztake; lia).
  assert (Ld : zlen (zdrop 65535 src) = zlen src - 65535) by (apply zlen_zdrop; lia).
  destruct (marked_byte f Hf) as (Hg & Hm & _).
  destruct (fragment_first f (ztake 65535 src) s (zlen src - 65535) (zlen src) Hv Hf) as (s1 & x & E1 & Hx & Hv1);
    [by apply Forall_ztake|lia|lia|unfold is_u32; lia|].
  rewrite (bind_ret_eq _ _ _ _ _ E1). simpl default. simpl (0 + 1).
  set (w := [_] ++ x ++ _) in Hv1.
  assert (Lw : zlen w = 65547).
  { subst w. unfold framed. rewrite !zlen_app, !zlen_Write_UINT32, Hx. change (zlen [_]) with 1.
    rewrite zlen_cons, Lt. done. }
  destruct (fragments_rest (marked f) (zlen src) 1 (length src) 1 (zdrop 65535 src) s1 w)
    as (s2 & cs & E2 & Hv2 & Hc & Hok & Hn); try done; try lia.
  { by apply Forall_zdrop. }
  { unfold zlen in *. lia. }
  rewrite (bind_ret_eq _ _ _ _ _ E2). cbv beta iota.
  destruct Hv2 as [Hw2 Hc2 Hp2 Hwr2]. destruct (Hw2) as [A1 A2 A3 A4 A5].
  set (s3 := set_len (pointer s2) s2).
  rewrite (on_stream_bind _ _ _ _ tt s3).
  2: { unfold Stream_SealLength. rewrite get_bind, !assert_bind by lia.
       by rewrite (proj2 (Z.leb_le _ _)) by lia. }
  simpl (1 =? 0). cbn [negb]. pose proof (zlen_nonneg cs).
  set (c := winpr_Data_Write_UINT32 (zlen src) ++ framed (marked f :: ztake 65535 src) ++ segments_of (marked f) cs).
  assert (Hv3 : view s3 ([ZGFX_SEGMENTED_MULTIPART] ++ x ++ c)).
  { split; simpl; [split; simpl; done || lia|done| |].
    - rewrite Hp2. subst w c. by rewrite <- !app_assoc.
    - unfold written in *. simpl. rewrite Hwr2. subst w c. by rewrite <- !app_assoc. }
  destruct (view_patch s3 _ x c (Stream_Write_UINT16 (1 + zlen cs)) (winpr_Data_Write_UINT16 (1 + zlen cs)) Hv3)
    as (s4 & s5 & s6 & E4 & E5 & E6 & Hv6 & Hlen);
    [apply writes_u16; unfold is_u16; lia|by rewrite zlen_Write_UINT16|].
  rewrite (on_stream_bind _ _ _ _ _ _ E4).
  rewrite (bind_ret_eq _ _ _ _ _ (asserting_cast_eq u16 (1 + zlen cs) _ ltac:(word_lia))).
  rewrite (on_stream_bind _ _ _ _ _ _ E5).
  exists s6, (ztake 65535 src :: cs). rewrite zlen_cons. replace (zlen cs + 1) with (1 + zlen cs) by lia.
  assert (El : len s5 = zlen ([ZGFX_SEGMENTED_MULTIPART] ++ x ++ c)).
  { rewrite Hlen. rewrite <- (view_pointer _ _ Hv3). done. }
  destruct Hv6 as [_ _ Hp6 Hwr6]. rewrite Hwr6. split; [|split; [done|]].
  - rewrite (on_stream_bind _ _ _ _ (len s5) s5) by done. rewrite El.
    unfold on_stream. cbn [fst snd]. by rewrite E6.
  - split; [cbn [concat]; by rewrite Hc, ztake_zdrop|].
    split; [constructor; [split; [by apply Forall_ztake|lia]|done]|].
    split; [unfold UINT16_MAX; lia|]. subst c. unfold segments_of. cbn [map concat app]. done.
Qed.

Lemma zlen_segments_of g cs : zlen (segments_of g cs) = zlen (concat cs) + 5 * zlen cs.
Proof.
  unfold segments_of. induction cs as [|c cs IH]; [done|]. cbn [map concat].
  rewrite !zlen_app, IH, zlen_cons. unfold framed. rewrite zlen_app, zlen_Write_UINT32, zlen_cons. lia.
Qed.

(** What the compressor hands out is a packet of the data, whatever the history. *)
Lemma compress_packet (junk : Z -> list Z) f src h :
  (forall n, 0 <= n -> zlen (junk n) = n) -> (forall n, bytes (junk n)) ->
  is_byte f -> Z.land f PACKET_COMPRESSED = 0 -> bytes src -> 1 <= zlen src <= max_data ->
  exists d, zgfx_compress junk f src = Ret (marked f, d) tt /\ packet h d src /\ zlen d <= UINT32_MAX.
Proof.
  intros Hjl Hjb Hf Hc Hb Hl. destruct (marked_byte f Hf) as (Hg & _ & Hm). rewrite Hc in Hm.
  unfold max_data, UINT32_MAX in *. unfold zgfx_compress, Stream_New.
  rewrite (proj2 (Z.eqb_neq _ _)) by lia. rewrite alloc_ok by lia.
  set (s := mkStream _ _ _ _ _ _ _). assert (Hv : view s []).
  { split; [split|..]; simpl; try done; try lia. by apply Hjl; lia. }
  clearbody s. destruct (Z.le_gt_cases (zlen src) 65535).
  - destruct (compress_single f src s Hv Hf Hb ltac:(lia)) as (s' & -> & Hp & Hw).
    assert (Hz : zlen (written s') = zlen src + 2) by (rewrite Hw, !zlen_cons; lia).
    rewrite (proj2 (Z.ltb_ge _ _)) by (unfold UINT32_MAX; lia). eexists. split; [done|]. split; [|lia].
    rewrite Hw. apply packet_single. apply segment_plain; try done. lia.
  - destruct (compress_multi f src s Hv Hf Hb) as (s' & cs & -> & Hp & Hcs & Hok & Hn & Hw);
      [unfold max_data, UINT32_MAX; lia|].
    assert (Hz : zlen (written s') = 7 + (zlen src + 5 * zlen cs)).
    { rewrite Hw, zlen_cons, !zlen_app, zlen_Write_UINT16, zlen_Write_UINT32, zlen_segments_of, Hcs. lia. }
    unfold UINT16_MAX in Hn. rewrite (proj2 (Z.ltb_ge _ _)) by (unfold UINT32_MAX; lia).
    eexists. split; [done|]. split; [|lia].
    assert (E : zlen cs = zlen (map (cons (marked f)) cs)) by (unfold zlen; by rewrite length_map).
    rewrite Hw, E, <- Hcs. apply packet_multi.
    + by apply plain_segments.
    + rewrite <- E. unfold UINT16_MAX. lia.
    + rewrite Hcs. unfold UINT32_MAX. lia.
Qed.
End Writing.

(** ** Safety on every input *)

Section Safety.
Context (b : list Z).
Hypothesis b_bytes : bytes b.
Hypothesis b_short : 8 * zlen b < 2 ^ 32 - 7.
#[local] Abbreviation f := (bit_of b).

(** The decoder moved on, perhaps with more output. *)
Definition on_track (p : Z) z (_ : unit) z' : Prop :=
  zgfx_ok z' /\ OutputCount z <= OutputCount z' /\ exists q, p <= q /\ reads b q z'.

Lemma on_track_took p q n z z1 x z' :
  took n z z1 -> p <= q -> on_track q z1 x z' -> on_track p z x z'.
Proof.
  intros Ht Hq (Hok & Hc & r & Hr & Hrd). split; [done|]. rewrite <- (took_count _ _ _ Ht).
  split; [done|]. exists r. split; [lia|done].
Qed.

Lemma literal_safe e p z :
  entry_ok e -> reads b p z -> zgfx_ok z ->
  wp (literal e) (fun x z' => on_track p z x z' /\ OutputCount z < OutputCount z') zgfx_ok z.
Proof.
  intros He Hr Hz. destruct (Z.lt_ge_cases (OutputCount z) 65536) as [Hlt|Hge].
  - destruct (literal_spec b b_bytes e p z He Hr Hz Hlt) as (z' & E & Hr' & z1 & Ht & Hok & _ & _ & _ & Hc & _).
    unfold wp. rewrite E. rewrite (took_count _ _ _ Ht) in Hc. change (zlen [_]) with 1 in Hc.
    split; [|lia]. split; [done|]. split; [lia|]. eexists. split; [|exact Hr'].
    destruct He as (_ & ? & _). lia.
  - pose proof He as (_ & Hv & _).
    destruct (get_bits_eq b b_bytes p z (valueBits e) Hr Hv) as (z1 & E & Hr1 & Ht).
    unfold wp, literal. rewrite (bind_ret_eq _ _ _ _ _ E). cbv zeta. rewrite get_bind.
    destruct (literal_store (u8 (u32 (valueBase e + bv f p (valueBits e)))) z1 (took_ok _ _ _ Ht Hz))
      as (h & i & E1 & Hok & _).
    rewrite <- bind_assoc, (bind_ret_eq _ _ _ _ _ E1). rewrite (took_count _ _ _ Ht).
    by rewrite (proj2 (Z.leb_le _ _)) by (unfold output_size; lia).
Qed.

Lemma count_ones_safe fuel p n x z :
  reads b p z -> 0 <= x -> x + Z.max 0 (8 * zlen b - p) < 2 ^ 32 -> 8 * zlen b - p < Z.of_nat fuel ->
  0 < Z.of_nat fuel ->
  exists n' x' z' q, count_ones fuel n x z = Ret (n', x') z' /\ reads b q z' /\ took (q - p) z z' /\
    p < q /\ x <= x' <= x + Z.max 0 (8 * zlen b - p).
Proof.
  revert p n x z. induction fuel as [|fuel IH]; intros p n x z Hr Hx Hb Hf Hf0; [lia|].
  cbn [count_ones]. destruct (get_bits_eq b b_bytes p z 1 Hr ltac:(lia)) as (z1 & E & Hr1 & Ht).
  rewrite (bind_ret_eq _ _ _ _ _ E), bv_1. pose proof (reads_start _ _ _ Hr).
  destruct (f p) eqn:Ef; simpl (Z.b2z _ =? 1); cbv iota.
  - assert (p < 8 * zlen b).
    { destruct (Z.lt_ge_cases p (8 * zlen b)); [done|]. by rewrite bit_of_beyond in Ef by lia. }
    replace (u32 (x + 1)) with (x + 1) by word_lia.
    destruct (IH (p + 1) (u32 (n * 2)) (x + 1) z1) as (n' & x' & z' & q & E' & Hr' & Ht' & Hq & Hx'); try done; try lia.
    exists n', x', z', q. split; [done|]. split; [done|]. split; [|lia].
    replace (q - p) with (1 + (q - (p + 1))) by lia. by apply took_trans with z1.
  - exists n, x, z1, (p + 1). replace (p + 1 - p) with 1 by lia.
    split; [done|]. split; [done|]. split; [done|lia].
Qed.

Lemma match_length_safe p z :
  reads b p z -> 10 <= p ->
  exists n z' q, match_length z = Ret n z' /\ reads b q z' /\ took (q - p) z z' /\ p <= q /\ 0 <= n < 2 ^ 32.
Proof.
  intros Hr Hp. unfold match_length.
  destruct (get_bits_eq b b_bytes p z 1 Hr ltac:(lia)) as (z1 & E & Hr1 & Ht).
  rewrite (bind_ret_eq _ _ _ _ _ E), bv_1. destruct (f p); simpl (Z.b2z _ =? 0); cbv iota.
  2: { exists 3, z1, (p + 1). replace (p + 1 - p) with 1 by lia. split; [done|]. split; [done|]. split; [done|lia]. }
  rewrite get_bind. pose proof (input_bits b _ _ Hr1). pose proof (zlen_nonneg (input z1)). pose proof (zlen_nonneg b).
  destruct (count_ones_safe (Z.to_nat (8 * zlen (input z1) + 9)) (p + 1) 4 2 z1 Hr1)
    as (n' & x' & z2 & q & E2 & Hr2 & Ht2 & Hq & Hx'); try lia.
  rewrite (bind_ret_eq _ _ _ _ _ E2). cbv beta iota.
  destruct (get_bits_any b b_bytes q z2 x' Hr2 ltac:(lia)) as (v & z3 & E3 & Hr3 & Ht3 & Hv & _).
  rewrite (bind_ret_eq _ _ _ _ _ E3). exists (u32 (n' + v)), z3, (q + x').
  split; [done|]. split; [done|]. split; [|word_lia].
  replace (q + x' - p) with (1 + (q - (p + 1)) + x') by lia.
  apply took_trans with z2; [by apply took_trans with z1|done].
Qed.

Lemma copy_history_safe d p z :
  reads b p z -> zgfx_ok z -> 10 <= p -> 0 < d < 2 ^ 31 -> wp (copy_history d) (on_track p z) zgfx_ok z.
Proof.
  intros Hr Hz Hp Hd. destruct (match_length_safe p z Hr Hp) as (n & z1 & q & E & Hr1 & Ht & Hq & Hn).
  pose proof (took_ok _ _ _ Ht Hz) as Hz1. pose proof (took_count _ _ _ Ht) as Hc1. pose proof Hz1 as [_ _ _ _ Ho].
  unfold wp, copy_history. rewrite (bind_ret_eq _ _ _ _ _ E), get_bind. unfold output_size in *.
  destruct (Z.ltb_spec (65536 - OutputCount z1) n); [done|].
  rewrite (bind_ret_eq _ _ _ d z1).
  2: { apply asserting_cast_eq. unfold s32. rewrite Z.mod_small by lia.
       by rewrite (proj2 (Z.ltb_lt _ _)) by lia. }
  assert (exists bs, zgfx_history_buffer_ring_read d n z1 = Ret bs z1 /\ zlen bs = n) as (bs & E2 & Hbs).
  { destruct (Z.eq_dec n 0) as [->|]; [by exists []|]. rewrite ring_read_eq by (done || lia).
    eexists. split; [done|]. rewrite zlen_cyc. lia. }
  rewrite (bind_ret_eq _ _ _ _ _ E2), Hbs, Z.eqb_refl, ret_bind.
  destruct (write_then_output bs z1 Hz1 ltac:(lia)) as (h & i & o & E3 & Hok & _ & _ & _ & Hc & _).
  rewrite E3. apply on_track_took with q (q - p) z1; [done|done|].
  split; [done|]. split; [simpl; lia|]. exists q. split; [lia|].
  by apply reads_set_output, reads_set_history.
Qed.

Lemma copy_unencoded_safe p z :
  reads b p z -> zgfx_ok z -> wp copy_unencoded (on_track p z) zgfx_ok z.
Proof.
  intros Hr Hz. destruct (get_bits_eq b b_bytes p z 15 Hr ltac:(lia)) as (z1 & E & Hr1 & Ht).
  pose proof (bv_range f p 15 ltac:(lia)) as Hn. set (n := bv f p 15) in *. clearbody n.
  pose proof (took_ok _ _ _ Ht Hz) as Hz1. pose proof (took_count _ _ _ Ht) as Hc1.
  unfold wp, copy_unencoded. rewrite (bind_ret_eq _ _ _ _ _ E), modify_bind, get_bind.
  set (r := u32 (cBitsRemaining z1 - cBitsCurrent z1)). assert (Hu : is_u32 r) by (subst r; word_lia).
  destruct (reads_align b (p + 15) z1 r Hr1 Hu) as [Ea Hr2]. pose proof (reads_count _ _ _ Hr1).
  set (z2 := set_input (input z1) r z1) in *.
  assert (Hz2 : zgfx_ok z2) by (destruct Hz1; by split).
  assert (Hc2 : OutputCount z2 = OutputCount z1) by done. assert (Hn2 : cBitsCurrent z2 = 0) by done.
  clearbody z2 r. unfold output_size.
  destruct (Z.ltb_spec (65536 - OutputCount z2) n); [done|].
  destruct (Z.ltb_spec (cBitsRemaining z2 / 8) n); [done|].
  destruct (Z.ltb_spec (zlen (input z2)) n); [done|].
  assert (Hbs : zlen (ztake n (input z2)) = n) by (apply zlen_ztake; lia).
  set (bs := ztake n (input z2)) in *. clearbody bs.
  destruct (output_then_write bs z2 Hz2 ltac:(lia)) as (h & i & o & E2 & Hok & _ & _ & _ & Hc & _).
  set (z4 := set_history h i _) in E2, Hok, Hc. cbv zeta in E2, Hok, Hc. fold z4 in E2, Hok, Hc.
  assert (Hr4 : reads b (align (p + 15)) z4) by (by apply reads_set_history, reads_set_output).
  assert (Hc4 : cBitsCurrent z4 = 0) by done. clearbody z4.
  apply bind_ret_inv in E2 as ([] & z3 & E3 & E4).
  rewrite (bind_ret_eq _ _ _ _ _ E3), (bind_ret_eq _ _ _ _ _ E4). unfold modify.
  split; [destruct Hok; by split|]. split; [simpl; lia|].
  exists (align (p + 15) + 8 * n). split; [lia|]. apply reads_advance; try done; [word_lia|lia].
Qed.

Lemma token_safe e p z :
  entry_ok e -> 0 <= p -> reads b (p + prefixLength e) z -> zgfx_ok z ->
  wp (token e) (fun x z' => on_track (p + prefixLength e) z x z' /\
                            (tokenType e = 0 -> OutputCount z < OutputCount z')) zgfx_ok z.
Proof.
  intros He Hp Hr Hz. pose proof He as (Hl & Hv & Hb0 & Hb26 & Ht).
  unfold token. destruct (Z.eqb_spec (tokenType e) 0) as [E0|E0].
  { eapply wp_mono; [by apply (literal_safe e _ z He Hr Hz)| |done]. by intros x z' []. }
  destruct (get_bits_eq b b_bytes _ z (valueBits e) Hr Hv) as (z1 & E & Hr1 & Htk).
  pose proof (bv_range f (p + prefixLength e) (valueBits e) ltac:(lia)) as Hd.
  pose proof (took_ok _ _ _ Htk Hz) as Hz1. unfold wp. rewrite (bind_ret_eq _ _ _ _ _ E). cbv zeta.
  set (v := bv f (p + prefixLength e) (valueBits e)) in *. clearbody v.
  replace (u32 (valueBase e + v)) with (valueBase e + v) by word_lia.
  assert (Hon : forall x z', on_track (p + prefixLength e + valueBits e) z1 x z' ->
    on_track (p + prefixLength e) z x z' /\ (tokenType e = 0 -> OutputCount z < OutputCount z')).
  { intros x z' H. split; [|done]. eapply on_track_took; [exact Htk| |exact H]. lia. }
  destruct (Z.eqb_spec (valueBase e + v) 0) as [Ez|Ez]; cbn [negb].
  - eapply (wp_mono copy_unencoded); [by apply (copy_unencoded_safe _ z1 Hr1 Hz1)|exact Hon|done].
  - eapply (wp_mono (copy_history _)); [apply (copy_history_safe _ _ z1 Hr1 Hz1)|exact Hon|done]; lia.
Qed.

Lemma prefix_safe e h p z :
  entry_ok e -> 0 <= p -> 0 <= h <= 9 -> reads b (p + h) z ->
  exists z', extend_prefix (Z.to_nat (prefixLength e - h)) (bv f p h) z =
      Ret (bv f p (Z.max h (prefixLength e))) z' /\
    reads b (p + Z.max h (prefixLength e)) z' /\ took (Z.max h (prefixLength e) - h) z z'.
Proof.
  intros (Hl & _) Hp Hh Hr.
  destruct (extend_prefix_eq b b_bytes (Z.to_nat (prefixLength e - h)) p h z Hr ltac:(lia) ltac:(lia))
    as (z' & E & Hr' & Ht).
  exists z'. rewrite E.
  replace (h + Z.of_nat (Z.to_nat (prefixLength e - h))) with (Z.max h (prefixLength e)) by lia.
  replace (p + Z.max h (prefixLength e)) with (p + h + Z.of_nat (Z.to_nat (prefixLength e - h))) by lia.
  by replace (Z.max h (prefixLength e) - h) with (Z.of_nat (Z.to_nat (prefixLength e - h))) by lia.
Qed.

Lemma find_token_safe l h p z :
  Forall entry_ok l -> 0 <= p -> 0 <= h <= 9 -> reads b (p + h) z -> zgfx_ok z ->
  wp (find_token l h (bv f p h)) (on_track (p + h) z) zgfx_ok z.
Proof.
  intros Hl. revert h z. induction Hl as [|e l He Hl IH]; intros h z Hp Hh Hr Hz.
  { apply wp_ret. split; [done|]. split; [lia|]. exists (p + h). split; [lia|done]. }
  destruct (prefix_safe e h p z He Hp Hh Hr) as (z1 & E & Hr1 & Ht). cbn [find_token].
  pose proof (took_ok _ _ _ Ht Hz) as Hz1. unfold wp. rewrite (bind_ret_eq _ _ _ _ _ E). cbv zeta.
  assert (Hon : forall q x z', p + h <= q -> on_track q z1 x z' -> on_track (p + h) z x z').
  { intros q x z' Hq H. by eapply on_track_took; [exact Ht|exact Hq|]. }
  destruct (_ =? prefixCode e).
  - eapply (wp_mono (token e)).
    + apply (token_safe e (p + Z.max h (prefixLength e) - prefixLength e) z1 He); [lia| |done].
      by replace (p + Z.max h (prefixLength e) - prefixLength e + prefixLength e)
        with (p + Z.max h (prefixLength e)) by lia.
    + intros x z' [H _]. eapply Hon, H. lia.
    + done.
  - eapply (wp_mono (find_token l _ _)); [apply IH; try done; destruct He; lia| |done].
    intros x z' H. eapply Hon, H. lia.
Qed.

(** Each token is a step forward in the input or, behind its end, in the output. *)
Definition step_made (p : Z) z (x : unit) z' : Prop :=
  on_track (p + 1) z x z' /\ (8 * zlen b <= p -> OutputCount z < OutputCount z').

Lemma first_safe e l p z :
  Forall entry_ok (e :: l) -> prefixLength e = 1 -> prefixCode e = 0 -> tokenType e = 0 ->
  reads b p z -> zgfx_ok z -> wp (find_token (e :: l) 0 0) (step_made p z) zgfx_ok z.
Proof.
  intros [He Hl]%Forall_cons_1 H1 Hc H0 Hr Hz. pose proof (reads_start _ _ _ Hr) as Hp.
  rewrite <- (Z.add_0_r p) in Hr.
  destruct (prefix_safe e 0 p z He Hp ltac:(lia) Hr) as (z1 & E & Hr1 & Ht). cbn [find_token].
  rewrite H1 in E, Hr1, Ht |- *. simpl (Z.max 0 1) in *. change (bv f p 0) with 0 in E.
  unfold wp. rewrite (bind_ret_eq _ _ _ _ _ E). cbv zeta.
  pose proof (took_ok _ _ _ Ht Hz) as Hz1. pose proof (took_count _ _ _ Ht) as Hn. rewrite bv_1, Hc.
  destruct (f p) eqn:Ef; simpl (Z.b2z _ =? 0); cbv iota.
  - eapply (wp_mono (find_token l 1 _)); [|intros x z' H|done].
    + change (Z.b2z true) with 1. replace 1 with (bv f p 1) at 2 by (by rewrite bv_1, Ef).
      by apply find_token_safe.
    + split; [by eapply on_track_took; [exact Ht| |exact H]|]. intros Hb.
      by rewrite bit_of_beyond in Ef by lia.
  - eapply (wp_mono (token e)); [apply (token_safe e p z1 He Hp); [by rewrite H1|done]| |done].
    intros x z' [H Hlt]. rewrite H1 in H. split; [by eapply on_track_took; [exact Ht| |exact H]|].
    intros _. rewrite <- Hn. by apply Hlt.
Qed.

Lemma decode_tokens_safe fuel p z :
  reads b p z -> zgfx_ok z ->
  Z.max 0 (8 * zlen b - p) + (65536 - OutputCount z) < Z.of_nat fuel ->
  wp (decode_tokens fuel) (fun _ => zgfx_ok) zgfx_ok z.
Proof.
  revert p z. induction fuel as [|fuel IH]; intros p z Hr Hz Hf; pose proof Hz as [_ _ _ _ Ho];
    unfold output_size in Ho; [lia|].
  destruct (Z.eq_dec (cBitsRemaining z) 0) as [E|E].
  { unfold wp. by rewrite decode_tokens_end. }
  unfold wp. rewrite decode_tokens_step by done.
  apply (wp_bind (find_token _ _ _) (fun _ => decode_tokens fuel)).
  eapply wp_mono; [apply (first_safe _ _ p z table_entries)|intros x z' H|]; try done.
  destruct H as [(Hok & Hc & q & Hq & Hrd) Hlt]. pose proof Hok as [_ _ _ _ Ho'].
  unfold output_size in Ho'. apply (IH q z'); [done|done|]. destruct (Z.lt_ge_cases p (8 * zlen b)) as [|Hge]; [lia|].
  specialize (Hlt ltac:(lia)). lia.
Qed.
End Safety.

(** The context and the stream are fit for the next segment. *)
Definition fit (x : ZGFX_CONTEXT * wStream) : Prop := zgfx_ok x.1 /\ readable x.2.

Lemma wp_context {A} (m : M ZGFX_CONTEXT A) z s :
  readable s -> wp m (fun _ => zgfx_ok) zgfx_ok z -> wp (on_context m) (fun _ => fit) fit (z, s).
Proof. unfold wp, on_context. simpl. by destruct (m z). Qed.

Lemma reads_init (b : list Z) rem z : is_u32 rem -> reads b 0 (set_input b rem z).
Proof. by split; simpl. Qed.

Lemma segment_body_safe flags seg z s :
  zgfx_ok z -> OutputCount z = 0 -> readable s -> bytes seg -> 1 <= zlen seg < 2 ^ 32 ->
  wp (segment_body flags seg) (fun _ => fit) fit (z, s).
Proof.
  intros Hz H0 Hs Hb Hl. unfold segment_body. destruct (_ =? 0).
  - destruct (ring_write_spec seg z Hz) as (z1 & E1 & hb & i & -> & Hok & _). specialize (Hok Hz).
    unfold wp. rewrite (on_context_bind _ _ _ _ _ _ E1).
    destruct (Z.ltb_spec output_size (zlen seg)); [done|]. rewrite ret_bind.
    apply wp_context; [done|]. unfold output_size in *.
    destruct (output_spec seg _ Hok) as (o & E2 & Hok2 & _); [simpl; lia|]. unfold wp. by rewrite E2.
  - cbv zeta. destruct (Z.ltb_spec UINT32_MAX (8 * (zlen seg - 1))); [done|].
    destruct (Z.ltb_spec (8 * (zlen seg - 1)) (nth (Z.to_nat (zlen seg - 1)) seg 0)); [done|].
    unfold wp. rewrite set_module_bind. apply wp_context; [done|]. unfold UINT32_MAX in *.
    apply (decode_tokens_safe (ztake (zlen seg - 1) seg)) with 0.
    + by apply Forall_ztake.
    + rewrite zlen_ztake; lia.
    + apply reads_init. word_lia.
    + destruct Hz; by split.
    + rewrite zlen_ztake by lia. unfold token_fuel, output_size. simpl. rewrite H0. lia.
Qed.

Lemma decompress_segment_safe n z s :
  zgfx_ok z -> readable s -> wp (zgfx_decompress_segment n) (fun _ => fit) fit (z, s).
Proof.
  intros Hz Hs. unfold zgfx_decompress_segment. destruct (Z.ltb_spec n 2); [done|]. cbv zeta.
  do 2 module_step; [|done]. module_step. destruct (Z.ltb_spec UINT32_MAX n) as [|Hu]; [done|].
  unfold UINT32_MAX in Hu. do 9 module_step; [|split; [by apply reset_output_ok|solve_readable]].
  rewrite advance_advance. replace (n - 1) with (zlen d).
  apply (segment_body_safe b d); try done; [by apply reset_output_ok|solve_readable|lia].
Qed.

Section Delivery.
Context `{Alloc}.

Lemma append_safe acc size z s :
  fit (z, s) -> wp (zgfx_append acc size) (fun _ => fit) fit (z, s).
Proof.
  intros [Hz Hs]. cbn [fst snd] in *. pose proof Hz as [_ _ _ Ho Hc]. unfold zgfx_append. do 2 module_step.
  destruct (_ <? _); [done|]. destruct (_ <? _); [done|]. destruct (negb _); [done|].
  by rewrite (proj2 (Z.leb_le (OutputCount z) (zlen (OutputBuffer z)))) by lia.
Qed.

Lemma decompress_segments_safe n size acc z s :
  fit (z, s) -> wp (decompress_segments n size acc) (fun _ => fit) fit (z, s).
Proof.
  revert acc z s. induction n as [|n IH]; intros acc z s [Hz Hs]; [done|].
  cbn [decompress_segments fst snd] in *.
  do 2 module_step; [|done]. do 2 module_step.
  wp_step. eapply wp_mono; [apply decompress_segment_safe; [done|solve_readable]| |done].
  intros _ [z1 s1] Hf1. wp_step. eapply wp_mono; [by apply append_safe| |done].
  intros acc' [z2 s2] Hf2. by apply IH.
Qed.

Lemma decompress_stream_safe z s : fit (z, s) -> wp decompress_stream (fun _ => fit) fit (z, s).
Proof.
  intros [Hz Hs]. cbn [fst snd] in *. unfold decompress_stream.
  do 2 module_step; [|done]. do 2 module_step.
  assert (Hf : fit (z, advance 1 s)) by (split; [done|solve_readable]).
  destruct (_ =? ZGFX_SEGMENTED_SINGLE); [|destruct (_ =? _); [|done]].
  - do 2 module_step. wp_step. eapply wp_mono; [by apply decompress_segment_safe; apply Hf| |done].
    intros _ [z1 s1] Hf1. do 2 module_step. destruct (_ <? _); [|done].
    wp_step. eapply wp_mono; [by apply append_safe| |done]. intros d [z2 s2] Hf2. by destruct (negb _).
  - do 2 module_step; [|done]. do 4 module_step. rewrite !advance_advance.
    wp_step. eapply wp_mono; [apply decompress_segments_safe; split; [done|cbn [snd]; solve_readable]| |done].
    intros d [z2 s2] Hf2. by destruct (negb _).
Qed.
End Delivery.

(** ** A context and a packet *)

Definition new_context : ZGFX_CONTEXT :=
  mkZgfx true [] 0 0 0 0 (zrepeat output_size 0) 0 (zrepeat history_size 0) 0 history_size.

Lemma new_context_made : zgfx_context_new (H := alloc_always) true = Some new_context.
Proof. reflexivity. Qed.

Lemma new_context_ok : zgfx_ok new_context.
Proof.
  split; unfold new_context; cbn [HistoryBufferSize HistoryBuffer HistoryIndex OutputBuffer OutputCount];
    rewrite ?zlen_zrepeat; unfold output_size, history_size; lia.
Qed.

(** A literal and a copy of it that repeats it five times. *)
Definition six_a : list Z := [0xE0; 0x24; 0x20; 0xC4; 0x32; 1].

Lemma six_a_packet h : 1 <= zlen h -> packet h six_a [65; 65; 65; 65; 65; 65].
Proof.
  intros Hh. assert (E : [65; 65; 65; 65; 65; 65] = expand_all h [Lit 65; Copy 1 5]).
  { cbn [expand_all expand]. rewrite lz_copy_cyc by (rewrite zlen_push; lia).
    rewrite zlen_push. unfold push. change (zlen [65]) with 1. rewrite (zdrop_app_le 1) by lia.
    rewrite zdrop_app_ge by (rewrite zlen_zdrop; lia). rewrite zlen_zdrop by lia.
    by replace (zlen h - 1 - (zlen h - 1)) with 0 by lia. }
  rewrite E. apply packet_single. apply (segment_tokens h 0x24 [0x20; 0xC4; 0x32] 1); try done.
  - apply bytes_check. done.
  - change (8 * zlen [0x20; 0xC4; 0x32] - 1) with 23.
    apply spell_cons with 9; [|apply spell_cons with 23; [|constructor]].
    + apply (spells_literal [0x20; 0xC4; 0x32] (mkToken 1 0 8 0 0) 0); [by left|done|done].
    + apply (spells_copy [0x20; 0xC4; 0x32] (mkToken 5 17 5 1 0) 9); [by right; left|done|done|done|done|].
      apply (length_more [0x20; 0xC4; 0x32] 19 0); [done|lia|lia|done].
  - repeat constructor. done.
Qed.

(** No data at all is not compressed: the stream of no bytes is not made, and the first thing that
    is asked of it fails an assertion. *)
Lemma zgfx_compress_nothing `{Alloc} junk f : zgfx_compress junk f [] = Crash AssertFailed.
Proof. done. Qed.

(** ** Theorems *)

(** C2: the decoder is exact on every well-formed packet: the bytes it returns are those the
    tokens of the packet's segments expand to after the history, where a literal is its byte, a
    copy repeats the bytes at its distance and a plain run its bytes; the history afterwards
    is the old one with the output behind it. *)
Theorem zgfx_decompress_exact `{AllocOk} (z : ZGFX_CONTEXT) (src out : list Z) :
  zgfx_ok z -> packet (history z) src out -> zlen src < 2 ^ 32 ->
  exists z', zgfx_decompress src z = Ret out z' /\ zgfx_ok z' /\ history z' = push (history z) out.
Proof. intros Hz Hp Hl. apply packet_decoded; [done|done|lia]. Qed.

Lemma zgfx_decompress_exact_witness :
  exists z', @zgfx_decompress alloc_always six_a new_context = Ret [65; 65; 65; 65; 65; 65] z'.
Proof.
  destruct (@zgfx_decompress_exact alloc_always alloc_always_ok new_context six_a [65; 65; 65; 65; 65; 65]
    new_context_ok) as (z' & E & _).
  - apply six_a_packet. rewrite zlen_history by apply new_context_ok. destruct new_context_ok. lia.
  - done.
  - exists z'. exact E.
Defined.

(** C3: what the compressor makes of any data but none, in one segment or in many, the decoder
    turns back into the data, whatever went through both before: the caller's flags get the
    type of the compression, and the history of the receiver grows by the data.  The flags
    the caller starts from do not have PACKET_COMPRESSED. *)
Theorem zgfx_roundtrip `{AllocOk} (junk : Z -> list Z) (z : ZGFX_CONTEXT) (flags : Z) (src : list Z) :
  (forall n, 0 <= n -> zlen (junk n) = n) -> (forall n, bytes (junk n)) ->
  zgfx_ok z -> is_byte flags -> Z.land flags PACKET_COMPRESSED = 0 ->
  bytes src -> 1 <= zlen src <= max_data ->
  exists d z', zgfx_compress junk flags src = Ret (Z.lor flags ZGFX_PACKET_COMPR_TYPE_RDP8, d) tt /\
    zgfx_decompress d z = Ret src z' /\ zgfx_ok z' /\ history z' = push (history z) src.
Proof.
  intros Hjl Hjb Hz Hf Hc Hb Hl.
  destruct (compress_packet junk flags src (history z) Hjl Hjb Hf Hc Hb Hl) as (d & E & Hp & Hd).
  destruct (packet_decoded z d src Hz Hp) as (z' & E' & Hz'); [unfold UINT32_MAX in Hd; lia|].
  by exists d, z'.
Qed.

Lemma zgfx_roundtrip_witness :
  exists d z', @zgfx_compress alloc_always (fun n => zrepeat n 0) 0 [1; 2; 3] = Ret (4, d) tt /\
    @zgfx_decompress alloc_always d new_context = Ret [1; 2; 3] z'.
Proof.
  destruct (@zgfx_roundtrip alloc_always alloc_always_ok (fun n => zrepeat n 0) new_context 0 [1; 2; 3])
    as (d & z' & E & E' & _).
  - intros. by apply zlen_zrepeat.
  - intros. by apply Forall_zrepeat.
  - apply new_context_ok.
  - done.
  - done.
  - by apply bytes_check.
  - done.
  - exists d, z'. split; [exact E|exact E'].
Defined.

(** C4: whatever bytes arrive and whatever the allocator does, the decoder returns, with data or
    with an error: it reads nothing outside the packet and the history, writes nothing outside
    its buffers, no assertion fails and its loops end; the context is fit for the next
    packet. *)
Theorem zgfx_decompress_safe `{Alloc} (z : ZGFX_CONTEXT) (src : list Z) :
  zgfx_ok z -> bytes src -> zlen src < 2 ^ 32 ->
  wp (zgfx_decompress src) (fun _ => zgfx_ok) zgfx_ok z.
Proof.
  intros Hz Hb Hl. pose proof (decompress_stream_safe z (Stream_StaticInit src)) as Hs.
  unfold wp, zgfx_decompress in *. destruct (decompress_stream _) as [d [z' s']|[z' s']|].
  1, 2: by apply Hs; split; [|apply readable_init; [|lia]].
  apply Hs. split; [done|]. apply readable_init; [done|lia].
Qed.

Lemma zgfx_decompress_safe_witness :
  wp (@zgfx_decompress alloc_never [0xE0; 0x24; 0xFF; 0xFF; 0]) (fun _ => zgfx_ok) zgfx_ok new_context.
Proof.
  apply (@zgfx_decompress_safe alloc_never); [exact new_context_ok|by apply bytes_check|done].
Defined.
