(* ===== verification/Digest.v ===== *)
(** * Message digests and the stream cipher

    Model of [winpr/libwinpr/crypto/md5.c], [md4.c], [hmac_md5.c] and [rc4.c].  The two digests
    have the same context and the same code around their rounds, which is written once here,
    over the class [Rounds]; their rounds are tables with one line per [STEP] of the code.

    Words are loaded from memory as on a little-endian machine that tolerates unaligned access,
    so that the [block] of the context is not used. *)

From S2P Require Import Prelude.

(** ** Registers *)

Record regs := mkRegs { ra : Z; rb : Z; rc : Z; rd : Z }.

(** The registers of a step, in the order of its arguments. *)
Inductive order := ABCD | DABC | CDAB | BCDA.

Definition args (o : order) (r : regs) : Z * Z * Z * Z :=
  match o with
  | ABCD => (ra r, rb r, rc r, rd r)
  | DABC => (rd r, ra r, rb r, rc r)
  | CDAB => (rc r, rd r, ra r, rb r)
  | BCDA => (rb r, rc r, rd r, ra r)
  end.

(** The assignment to the first of them. *)
Definition assign (o : order) (v : Z) (r : regs) : regs :=
  match o with
  | ABCD => mkRegs v (rb r) (rc r) (rd r)
  | DABC => mkRegs (ra r) (rb r) (rc r) v
  | CDAB => mkRegs (ra r) (rb r) v (rd r)
  | BCDA => mkRegs (ra r) v (rc r) (rd r)
  end.

(** [(a << s) | ((a & 0xffffffff) >> (32 - s))] *)
Definition rotate (a s : Z) : Z :=
  Z.lor (u32 (Z.shiftl a s)) (Z.shiftr (Z.land a 0xffffffff) (32 - s)).

(** [SET] and [GET]: the word [n] of the block *)
Definition word (ptr : list Z) (n : Z) : Z :=
  fold_right (fun b v => b + 256 * v) 0 (slice (4 * n) 4 ptr).

Definition u32_not (x : Z) : Z := u32 (Z.lnot x).

(** One application of [STEP]: its function, registers, word, constant and rotation. *)
Record step (fn : Type) := mkStep { fn_of : fn; regs_of : order; word_of : Z; const_of : Z; shift_of : Z }.
Arguments mkStep {fn}.
Arguments fn_of {fn}.
Arguments regs_of {fn}.
Arguments word_of {fn}.
Arguments const_of {fn}.
Arguments shift_of {fn}.

(** ** The rounds of MD5 *)

Module Md5.

Inductive fn := F | G | H | H2 | I.

Definition basic (f : fn) (x y z : Z) : Z :=
  match f with
  | F => Z.lxor z (Z.land x (Z.lxor y z))
  | G => Z.lxor y (Z.land z (Z.lxor x y))
  | H => Z.lxor (Z.lxor x y) z
  | H2 => Z.lxor x (Z.lxor y z)
  | I => Z.lxor y (Z.lor x (u32_not z))
  end.

Definition STEP (ptr : list Z) (r : regs) (e : step fn) : regs :=
  let '(a, b, c, d) := args (regs_of e) r in
  let a := u32 (a + u32 (u32 (basic (fn_of e) b c d + word ptr (word_of e)) + const_of e)) in
  let a := rotate a (shift_of e) in
  assign (regs_of e) (u32 (a + b)) r.

Definition ROUNDS : list (step fn) := [
  mkStep F ABCD 0 0xd76aa478 7;
  mkStep F DABC 1 0xe8c7b756 12;
  mkStep F CDAB 2 0x242070db 17;
  mkStep F BCDA 3 0xc1bdceee 22;
  mkStep F ABCD 4 0xf57c0faf 7;
  mkStep F DABC 5 0x4787c62a 12;
  mkStep F CDAB 6 0xa8304613 17;
  mkStep F BCDA 7 0xfd469501 22;
  mkStep F ABCD 8 0x698098d8 7;
  mkStep F DABC 9 0x8b44f7af 12;
  mkStep F CDAB 10 0xffff5bb1 17;
  mkStep F BCDA 11 0x895cd7be 22;
  mkStep F ABCD 12 0x6b901122 7;
  mkStep F DABC 13 0xfd987193 12;
  mkStep F CDAB 14 0xa679438e 17;
  mkStep F BCDA 15 0x49b40821 22;

  mkStep G ABCD 1 0xf61e2562 5;
  mkStep G DABC 6 0xc040b340 9;
  mkStep G CDAB 11 0x265e5a51 14;
  mkStep G BCDA 0 0xe9b6c7aa 20;
  mkStep G ABCD 5 0xd62f105d 5;
  mkStep G DABC 10 0x02441453 9;
  mkStep G CDAB 15 0xd8a1e681 14;
  mkStep G BCDA 4 0xe7d3fbc8 20;
  mkStep G ABCD 9 0x21e1cde6 5;
  mkStep G DABC 14 0xc33707d6 9;
  mkStep G CDAB 3 0xf4d50d87 14;
  mkStep G BCDA 8 0x455a14ed 20;
  mkStep G ABCD 13 0xa9e3e905 5;
  mkStep G DABC 2 0xfcefa3f8 9;
  mkStep G CDAB 7 0x676f02d9 14;
  mkStep G BCDA 12 0x8d2a4c8a 20;

  mkStep H ABCD 5 0xfffa3942 4;
  mkStep H2 DABC 8 0x8771f681 11;
  mkStep H CDAB 11 0x6d9d6122 16;
  mkStep H2 BCDA 14 0xfde5380c 23;
  mkStep H ABCD 1 0xa4beea44 4;
  mkStep H2 DABC 4 0x4bdecfa9 11;
  mkStep H CDAB 7 0xf6bb4b60 16;
  mkStep H2 BCDA 10 0xbebfbc70 23;
  mkStep H ABCD 13 0x289b7ec6 4;
  mkStep H2 DABC 0 0xeaa127fa 11;
  mkStep H CDAB 3 0xd4ef3085 16;
  mkStep H2 BCDA 6 0x04881d05 23;
  mkStep H ABCD 9 0xd9d4d039 4;
  mkStep H2 DABC 12 0xe6db99e5 11;
  mkStep H CDAB 15 0x1fa27cf8 16;
  mkStep H2 BCDA 2 0xc4ac5665 23;

  mkStep I ABCD 0 0xf4292244 6;
  mkStep I DABC 7 0x432aff97 10;
  mkStep I CDAB 14 0xab9423a7 15;
  mkStep I BCDA 5 0xfc93a039 21;
  mkStep I ABCD 12 0x655b59c3 6;
  mkStep I DABC 3 0x8f0ccc92 10;
  mkStep I CDAB 10 0xffeff47d 15;
  mkStep I BCDA 1 0x85845dd1 21;
  mkStep I ABCD 8 0x6fa87e4f 6;
  mkStep I DABC 15 0xfe2ce6e0 10;
  mkStep I CDAB 6 0xa3014314 15;
  mkStep I BCDA 13 0x4e0811a1 21;
  mkStep I ABCD 4 0xf7537e82 6;
  mkStep I DABC 11 0xbd3af235 10;
  mkStep I CDAB 2 0x2ad7d2bb 15;
  mkStep I BCDA 9 0xeb86d391 21].

End Md5.

(** ** The rounds of MD4 *)

Module Md4.

Inductive fn := F | G | H.

Definition basic (f : fn) (x y z : Z) : Z :=
  match f with
  | F => Z.lxor z (Z.land x (Z.lxor y z))
  | G => Z.lor (Z.land x (Z.lor y z)) (Z.land y z)
  | H => Z.lxor (Z.lxor x y) z
  end.

Definition ac1 : Z := 0x5a827999.
Definition ac2 : Z := 0x6ed9eba1.

(** The constant is added to the word; the first round has none. *)
Definition STEP (ptr : list Z) (r : regs) (e : step fn) : regs :=
  let '(a, b, c, d) := args (regs_of e) r in
  let a := u32 (a + u32 (basic (fn_of e) b c d + u32 (word ptr (word_of e) + const_of e))) in
  assign (regs_of e) (rotate a (shift_of e)) r.

Definition ROUNDS : list (step fn) := [
  mkStep F ABCD 0 0 3;
  mkStep F DABC 1 0 7;
  mkStep F CDAB 2 0 11;
  mkStep F BCDA 3 0 19;
  mkStep F ABCD 4 0 3;
  mkStep F DABC 5 0 7;
  mkStep F CDAB 6 0 11;
  mkStep F BCDA 7 0 19;
  mkStep F ABCD 8 0 3;
  mkStep F DABC 9 0 7;
  mkStep F CDAB 10 0 11;
  mkStep F BCDA 11 0 19;
  mkStep F ABCD 12 0 3;
  mkStep F DABC 13 0 7;
  mkStep F CDAB 14 0 11;
  mkStep F BCDA 15 0 19;

  mkStep G ABCD 0 ac1 3;
  mkStep G DABC 4 ac1 5;
  mkStep G CDAB 8 ac1 9;
  mkStep G BCDA 12 ac1 13;
  mkStep G ABCD 1 ac1 3;
  mkStep G DABC 5 ac1 5;
  mkStep G CDAB 9 ac1 9;
  mkStep G BCDA 13 ac1 13;
  mkStep G ABCD 2 ac1 3;
  mkStep G DABC 6 ac1 5;
  mkStep G CDAB 10 ac1 9;
  mkStep G BCDA 14 ac1 13;
  mkStep G ABCD 3 ac1 3;
  mkStep G DABC 7 ac1 5;
  mkStep G CDAB 11 ac1 9;
  mkStep G BCDA 15 ac1 13;

  mkStep H ABCD 0 ac2 3;
  mkStep H DABC 8 ac2 9;
  mkStep H CDAB 4 ac2 11;
  mkStep H BCDA 12 ac2 15;
  mkStep H ABCD 2 ac2 3;
  mkStep H DABC 10 ac2 9;
  mkStep H CDAB 6 ac2 11;
  mkStep H BCDA 14 ac2 15;
  mkStep H ABCD 1 ac2 3;
  mkStep H DABC 9 ac2 9;
  mkStep H CDAB 5 ac2 11;
  mkStep H BCDA 13 ac2 15;
  mkStep H ABCD 3 ac2 3;
  mkStep H DABC 11 ac2 9;
  mkStep H CDAB 7 ac2 11;
  mkStep H BCDA 15 ac2 15].

End Md4.

(** ** Contexts and blocks *)

Record MD_CTX := mkMd { lo : Z; hi : Z; chain : regs; buffer : list Z }.

(** What a digest does with the registers and the 64 bytes of a block before it adds the saved
    registers. *)
Class Rounds := rounds : regs -> list Z -> regs.

Definition md5_rounds : Rounds := fun r ptr => fold_left (Md5.STEP ptr) Md5.ROUNDS r.
Definition md4_rounds : Rounds := fun r ptr => fold_left (Md4.STEP ptr) Md4.ROUNDS r.

Definition set_chain (r : regs) (x : MD_CTX) : MD_CTX := mkMd (lo x) (hi x) r (buffer x).
Definition set_buffer (b : list Z) (x : MD_CTX) : MD_CTX := mkMd (lo x) (hi x) (chain x) b.
Definition set_count (l h : Z) (x : MD_CTX) : MD_CTX := mkMd l h (chain x) (buffer x).

(** [memcpy (&ctx->buffer[i], bs, ...)] and [memset] *)
Definition buffer_put (i : Z) (bs : list Z) : M MD_CTX unit :=
  x ← get;
  if (0 <=? i) && (i + zlen bs <=? zlen (buffer x)) then modify (set_buffer (blit i bs (buffer x)))
  else crash Undefined.

Definition empty_ctx : MD_CTX := mkMd 0 0 (mkRegs 0 0 0 0) (zrepeat 64 0).

Definition mdOUT (src : Z) : list Z :=
  [u8 src; u8 (Z.shiftr src 8); u8 (Z.shiftr src 16); u8 (Z.shiftr src 24)].

Section Digest.
Context `{Rounds}.

Definition block (r : regs) (ptr : list Z) : regs :=
  let r' := rounds r ptr in
  mkRegs (u32 (ra r' + ra r)) (u32 (rb r' + rb r)) (u32 (rc r' + rc r)) (u32 (rd r' + rd r)).

(** [do ... while (size -= 64)] *)
Fixpoint blocks (fuel : nat) (r : regs) (ptr : list Z) (size : Z) : outcome unit (regs * list Z) :=
  match fuel with
  | O => Crash Diverges
  | S fuel' =>
      if zlen ptr <? 64 then Crash Undefined
      else
        let r := block r (ztake 64 ptr) in
        let size := usize (size - 64) in
        if size =? 0 then Ret (r, zdrop 64 ptr) tt else blocks fuel' r (zdrop 64 ptr) size
  end.

(** The rest of the data is returned. *)
Definition body (data : list Z) (size : Z) : M MD_CTX (list Z) :=
  x ← get;
  match blocks (S (Z.to_nat (size / 64))) (chain x) data size with
  | Ret (r, rest) _ => modify (set_chain r);; mret rest
  | Fail _ => failure
  | Crash f => crash f
  end.

Definition md_init (x : MD_CTX) : MD_CTX :=
  mkMd 0 0 (mkRegs 0x67452301 0xefcdab89 0x98badcfe 0x10325476) (buffer x).

(** What is left when the buffer holds nothing. *)
Definition absorb (data : list Z) : M MD_CTX unit :=
  rest ← (if 64 <=? zlen data then body data (Z.land (zlen data) (usize (Z.lnot 0x3f))) else mret data);
  buffer_put 0 (ztake (Z.land (zlen data) 0x3f) rest).

Definition md_update (data : list Z) : M MD_CTX unit :=
  x ← get;
  let size := zlen data in
  let saved_lo := lo x in
  let lo' := u32 (Z.land (usize (saved_lo + size)) 0x1fffffff) in
  let hi' := if lo' <? saved_lo then u32 (hi x + 1) else hi x in
  modify (set_count lo' (u32 (hi' + Z.shiftr size 29)));;
  let used := Z.land saved_lo 0x3f in
  if negb (used =? 0) then
    let available := 64 - used in
    if size <? available then buffer_put used data
    else
      buffer_put used (ztake available data);;
      x ← get;
      body (buffer x) 64;;
      absorb (zdrop available data)
  else absorb data.

Definition md_final : M MD_CTX (list Z) :=
  x ← get;
  let used := Z.land (lo x) 0x3f in
  buffer_put used [0x80];;
  let used := used + 1 in
  let available := 64 - used in
  '(used, available) ←
    (if available <? 8 then
       buffer_put used (zrepeat available 0);;
       x ← get;
       body (buffer x) 64;;
       mret (0, 64)
     else mret (used, available));
  buffer_put used (zrepeat (available - 8) 0);;
  modify (fun x => set_count (u32 (Z.shiftl (lo x) 3)) (hi x) x);;
  x ← get;
  buffer_put 56 (mdOUT (lo x));;
  buffer_put 60 (mdOUT (hi x));;
  x ← get;
  body (buffer x) 64;;
  x ← get;
  let r := chain x in
  modify (fun _ => empty_ctx);;
  mret (mdOUT (ra r) ++ mdOUT (rb r) ++ mdOUT (rc r) ++ mdOUT (rd r)).

End Digest.

Definition winpr_MD5_Init : MD_CTX -> MD_CTX := md_init.
Definition winpr_MD5_Update : list Z -> M MD_CTX unit := md_update (H := md5_rounds).
Definition winpr_MD5_Final : M MD_CTX (list Z) := md_final (H := md5_rounds).

Definition winpr_MD4_Init : MD_CTX -> MD_CTX := md_init.
Definition winpr_MD4_Update : list Z -> M MD_CTX unit := md_update (H := md4_rounds).
Definition winpr_MD4_Final : M MD_CTX (list Z) := md_final (H := md4_rounds).

(** ** Keyed digests *)

Record WINPR_HMAC_MD5_CTX := mkHmac { icontext : MD_CTX; ocontext : MD_CTX }.

Definition KEY_IOPAD_SIZE : Z := 64.

Definition on_icontext {A} (m : M MD_CTX A) : M WINPR_HMAC_MD5_CTX A := fun x =>
  match m (icontext x) with
  | Ret a i => Ret a (mkHmac i (ocontext x))
  | Fail i => Fail (mkHmac i (ocontext x))
  | Crash f => Crash f
  end.

Definition on_ocontext {A} (m : M MD_CTX A) : M WINPR_HMAC_MD5_CTX A := fun x =>
  match m (ocontext x) with
  | Ret a o => Ret a (mkHmac (icontext x) o)
  | Fail o => Fail (mkHmac (icontext x) o)
  | Crash f => Crash f
  end.

(** [lctx], a context of its own *)
Definition with_context {S A} (m : M MD_CTX A) : M S A := fun x =>
  match m empty_ctx with
  | Ret a _ => Ret a x
  | Fail _ => Fail x
  | Crash f => Crash f
  end.

(** The two pads, which are equal before they are masked. *)
Definition hmac_pad (key : list Z) : M WINPR_HMAC_MD5_CTX (list Z) :=
  if zlen key <=? KEY_IOPAD_SIZE then mret (blit 0 key (zrepeat KEY_IOPAD_SIZE 0))
  else
    d ← with_context (modify winpr_MD5_Init;; winpr_MD5_Update key;; winpr_MD5_Final);
    mret (blit 0 d (zrepeat KEY_IOPAD_SIZE 0)).

Definition hmac_md5_init (key : list Z) : M WINPR_HMAC_MD5_CTX unit :=
  modify (fun _ => mkHmac empty_ctx empty_ctx);;
  k ← hmac_pad key;
  let k_ipad := map (fun b => Z.lxor b 0x36) k in
  let k_opad := map (fun b => Z.lxor b 0x5c) k in
  on_icontext (modify winpr_MD5_Init);;
  on_icontext (winpr_MD5_Update k_ipad);;
  on_ocontext (modify winpr_MD5_Init);;
  on_ocontext (winpr_MD5_Update k_opad).

Definition hmac_md5_update (text : list Z) : M WINPR_HMAC_MD5_CTX unit :=
  on_icontext (winpr_MD5_Update text).

Definition hmac_md5_finalize : M WINPR_HMAC_MD5_CTX (list Z) :=
  hmac ← on_icontext winpr_MD5_Final;
  on_ocontext (winpr_MD5_Update (ztake 16 hmac));;
  on_ocontext winpr_MD5_Final.

(** ** RC4 *)

Definition CTX_SIZE : Z := 256.

Record winpr_int_RC4_CTX := mkRc4 { rc4_i : Z; rc4_j : Z; rc4_s : list Z; rc4_t : list Z }.

Definition rc4_at (i : Z) (l : list Z) : Z := nth (Z.to_nat i) l 0.

(** [swap (&s[i], &s[j])]; the two may be the same cell *)
Definition swap (i j : Z) (s : list Z) : list Z :=
  let t := rc4_at i s in
  <[Z.to_nat j := t]> (<[Z.to_nat i := rc4_at j s]> s).

(** The second loop of [winpr_int_rc4_new]; one unit of fuel for each index from [i] on. *)
Fixpoint key_schedule (n : nat) (i j : Z) (s t : list Z) : list Z :=
  match n with
  | O => s
  | S n' =>
      let j := (j + rc4_at i s + rc4_at i t) mod CTX_SIZE in
      key_schedule n' (i + 1) j (swap i j s) t
  end.

(** [NULL] is [Fail]. *)
Definition winpr_int_rc4_new `{Alloc} (key : list Z) : outcome unit winpr_int_RC4_CTX :=
  if negb (malloc_ok 528) then Fail tt
  else if zlen key =? 0 then Crash Undefined
  else
    let indices := map Z.of_nat (seq 0 256) in
    let t := map (fun i => rc4_at (i mod zlen key) key) indices in
    Ret (mkRc4 0 0 (key_schedule 256 0 0 indices t) t) tt.

(** The loop over the input: the state, and the bytes that were stored. *)
Fixpoint rc4_loop (input : list Z) (t1 t2 : Z) (s : list Z) : (Z * Z * list Z) * list Z :=
  match input with
  | [] => ((t1, t2, s), [])
  | c :: rest =>
      let t1 := (t1 + 1) mod CTX_SIZE in
      let t2 := (t2 + rc4_at t1 s) mod CTX_SIZE in
      let s := swap t1 t2 s in
      let idx := (rc4_at t1 s + rc4_at t2 s) mod CTX_SIZE in
      let out := Z.lxor c (rc4_at idx s) in
      let r := rc4_loop rest t1 t2 s in
      (r.1, out :: r.2)
  end.

Definition winpr_int_rc4_update (input : list Z) : M winpr_int_RC4_CTX (list Z) :=
  x ← get;
  let '((t1, t2, s), out) := rc4_loop input (rc4_i x) (rc4_j x) (rc4_s x) in
  modify (fun x => mkRc4 t1 t2 s (rc4_t x));;
  mret out.
