(* ===== verification/DigestSpec.v ===== *)
(** * Theorems on the message digests and the stream cipher

    The digests as RFC 1320 and RFC 1321 define them, on whole messages, and the proof that
    the contexts of [Digest] compute them from any sequence of parts; HMAC as in RFC 2104; the
    stream cipher as a permutation of the bytes and as its own inverse. *)

From S2P Require Import Prelude Digest.

(** ** The references *)

(** The integer of some bytes, the low one first, and the other way round. *)
Fixpoint le_value (l : list Z) : Z :=
  match l with [] => 0 | b :: l => b + 256 * le_value l end.

Fixpoint le_bytes (n : nat) (v : Z) : list Z :=
  match n with O => [] | S n => v mod 256 :: le_bytes n (v / 256) end.

(** A message with its padding: a one bit, zeros, and its length in bits. *)
Definition pad (msg : list Z) : list Z :=
  msg ++ [0x80] ++ zrepeat ((55 - zlen msg) mod 64) 0 ++ le_bytes 8 ((8 * zlen msg) mod 2 ^ 64).

(** The first [n] blocks of 64 bytes. *)
Fixpoint chunks (n : nat) (l : list Z) : list (list Z) :=
  match n with O => [] | S n => ztake 64 l :: chunks n (zdrop 64 l) end.

Definition not32 (x : Z) : Z := 2 ^ 32 - 1 - x.
Definition rotl (x s : Z) : Z := x * 2 ^ s mod 2 ^ 32 + x / 2 ^ (32 - s).

Definition word_at (p : list Z) (k : Z) : Z := le_value (slice (4 * k) 4 p).

(** The state of a digest: its four words in the order of the current step. *)
Abbreviation state4 := (Z * Z * Z * Z)%type.

Definition add4 (x y : state4) : state4 :=
  let '(a, b, c, d) := x in
  let '(a', b', c', d') := y in
  ((a + a') mod 2 ^ 32, (b + b') mod 2 ^ 32, (c + c') mod 2 ^ 32, (d + d') mod 2 ^ 32).

Definition initial : state4 := (0x67452301, 0xefcdab89, 0x98badcfe, 0x10325476).

Definition out4 (x : state4) : list Z :=
  let '(a, b, c, d) := x in le_bytes 4 a ++ le_bytes 4 b ++ le_bytes 4 c ++ le_bytes 4 d.

(** A digest from what it does with a block. *)
Definition digest (compress : state4 -> list Z -> state4) (msg : list Z) : list Z :=
  let p := pad msg in
  out4 (fold_left (fun x b => add4 (compress x b) x) (chunks (Z.to_nat (zlen p / 64)) p) initial).

(** [floor (2^32 * |sin i|)] for [i] from 1 on, with 128 fractional bits: the sine and the cosine
    of 1 by their series, the others by the addition theorems *)
Fixpoint series (n : nat) (k term : Z) : Z :=
  match n with
  | O => 0
  | S n => term - series n (k + 2) (term / (k * (k + 1)))
  end.

Fixpoint sines (n : nat) (s1 c1 s c : Z) : list Z :=
  match n with
  | O => []
  | S n =>
      let s' := (s * c1 + c * s1) / 2 ^ 128 in
      let c' := (c * c1 - s * s1) / 2 ^ 128 in
      Z.abs s' / 2 ^ 96 :: sines n s1 c1 s' c'
  end.

Definition sine_table : list Z := sines 64 (series 20 2 (2 ^ 128)) (series 20 1 (2 ^ 128)) 0 (2 ^ 128).

Definition md5_t (i : Z) : Z := nth (Z.to_nat i) sine_table 0.

(** RFC 1321, section 3.4: in step [i] the function, the word, the constant and the rotation *)
Definition md5_f (i x y z : Z) : Z :=
  if i <? 16 then Z.lor (Z.land x y) (Z.land (not32 x) z)
  else if i <? 32 then Z.lor (Z.land x z) (Z.land y (not32 z))
  else if i <? 48 then Z.lxor (Z.lxor x y) z
  else Z.lxor y (Z.lor x (not32 z)).

Definition md5_k (i : Z) : Z :=
  if i <? 16 then i
  else if i <? 32 then (1 + 5 * i) mod 16
  else if i <? 48 then (5 + 3 * i) mod 16
  else 7 * i mod 16.

Definition md5_s (i : Z) : Z :=
  nth (Z.to_nat (4 * (i / 16) + i mod 4)) [7; 12; 17; 22; 5; 9; 14; 20; 4; 11; 16; 23; 6; 10; 15; 21] 0.

Definition md5_step (p : list Z) (x : state4) (i : Z) : state4 :=
  let '(a, b, c, d) := x in
  let v := (a + md5_f i b c d + word_at p (md5_k i) + md5_t i) mod 2 ^ 32 in
  (d, (b + rotl v (md5_s i)) mod 2 ^ 32, b, c).

Definition steps_to (n : nat) : list Z := map Z.of_nat (seq 0 n).

Definition md5_compress (x : state4) (p : list Z) : state4 := fold_left (md5_step p) (steps_to 64) x.
Definition md5 : list Z -> list Z := digest md5_compress.

(** RFC 1320, section 3.4 *)
Definition md4_f (i x y z : Z) : Z :=
  if i <? 16 then Z.lor (Z.land x y) (Z.land (not32 x) z)
  else if i <? 32 then Z.lor (Z.lor (Z.land x y) (Z.land x z)) (Z.land y z)
  else Z.lxor (Z.lxor x y) z.

(** the word: in order; by columns; with the two bits of each index reversed as well *)
Definition md4_k (i : Z) : Z :=
  let reverse2 j := nth (Z.to_nat j) [0; 2; 1; 3] 0 in
  if i <? 16 then i
  else if i <? 32 then 4 * (i mod 4) + i mod 16 / 4
  else 4 * reverse2 (i mod 4) + reverse2 (i mod 16 / 4).

(** [floor (2^30 * sqrt 2)] and [floor (2^30 * sqrt 3)] *)
Definition md4_t (i : Z) : Z :=
  if i <? 16 then 0 else if i <? 32 then Z.sqrt (2 * 2 ^ 60) else Z.sqrt (3 * 2 ^ 60).

Definition md4_s (i : Z) : Z :=
  nth (Z.to_nat (4 * (i / 16) + i mod 4)) [3; 7; 11; 19; 3; 5; 9; 13; 3; 9; 11; 15] 0.

Definition md4_step (p : list Z) (x : state4) (i : Z) : state4 :=
  let '(a, b, c, d) := x in
  let v := (a + md4_f i b c d + word_at p (md4_k i) + md4_t i) mod 2 ^ 32 in
  (d, rotl v (md4_s i), b, c).

Definition md4_compress (x : state4) (p : list Z) : state4 := fold_left (md4_step p) (steps_to 48) x.
Definition md4 : list Z -> list Z := digest md4_compress.

(** RFC 2104, for keys of any length *)
Definition hmac_md5 (key text : list Z) : list Z :=
  let k := if zlen key <=? 64 then key else md5 key in
  let k := k ++ zrepeat (64 - zlen k) 0 in
  md5 (map (Z.lxor 0x5c) k ++ md5 (map (Z.lxor 0x36) k ++ text)).

(** ** A block *)

Definition regs_ok (r : regs) : Prop := is_u32 (ra r) /\ is_u32 (rb r) /\ is_u32 (rc r) /\ is_u32 (rd r).

Definition next (o : order) : order :=
  match o with ABCD => DABC | DABC => CDAB | CDAB => BCDA | BCDA => ABCD end.

Lemma le_value_range l : bytes l -> 0 <= le_value l < 256 ^ zlen l.
Proof.
  induction 1 as [|b l Hb _ IH]; [done|]. rewrite zlen_cons, Z.pow_add_r by (pose proof (zlen_nonneg l); lia).
  simpl. unfold is_byte in Hb. lia.
Qed.

Lemma word_eq p n : word p n = word_at p n.
Proof. unfold word, word_at. by induction (slice (4 * n) 4 p) as [|b l IH]; simpl; [|rewrite IH]. Qed.

Lemma word_range p n : bytes p -> is_u32 (word p n).
Proof.
  intros Hp. rewrite word_eq. unfold word_at.
  pose proof (le_value_range (slice (4 * n) 4 p) (Forall_slice _ _ _ _ Hp)) as Hr.
  assert (zlen (slice (4 * n) 4 p) <= 4) as Hl.
  { unfold slice, ztake, zlen. rewrite length_take. lia. }
  pose proof (zlen_nonneg (slice (4 * n) 4 p)).
  pose proof (Z.pow_le_mono_r 256 (zlen (slice (4 * n) 4 p)) 4 ltac:(lia) Hl) as Hp4.
  unfold is_u32. lia.
Qed.

Lemma not32_land x z : is_u32 x -> is_u32 z -> Z.land (not32 x) z = Z.land (Z.lnot x) z.
Proof.
  intros Hx Hz. apply Z.bits_inj'. intros i Hi. rewrite !Z.land_spec.
  destruct (Z.lt_ge_cases i 32).
  - f_equal. rewrite Z.lnot_spec by done. unfold not32.
    replace (2 ^ 32 - 1 - x) with ((Z.lnot x) mod 2 ^ 32) by (unfold Z.lnot; word_lia).
    by rewrite Z.mod_pow2_bits_low, Z.lnot_spec by lia.
  - by rewrite (testbit_above z 32), !andb_false_r by (unfold is_u32 in Hz; lia).
Qed.

Lemma not32_eq x : is_u32 x -> u32_not x = not32 x.
Proof. intros. unfold u32_not, not32, Z.lnot. word_lia. Qed.

Ltac bit_eq :=
  apply Z.bits_inj'; intros ? ?;
  rewrite ?Z.lxor_spec, ?Z.lor_spec, ?Z.land_spec, ?Z.lxor_spec, ?Z.lor_spec, ?Z.land_spec, ?Z.lnot_spec by done;
  repeat match goal with |- context [Z.testbit ?v ?i] => destruct (Z.testbit v i) end; done.

Lemma choice_eq x y z : is_u32 x -> is_u32 z ->
  Z.lxor z (Z.land x (Z.lxor y z)) = Z.lor (Z.land x y) (Z.land (not32 x) z).
Proof. intros. rewrite not32_land by done. bit_eq. Qed.

Lemma choice_eq' x y z : is_u32 y -> is_u32 z ->
  Z.lxor y (Z.land z (Z.lxor x y)) = Z.lor (Z.land x z) (Z.land y (not32 z)).
Proof. intros. rewrite (Z.land_comm y), not32_land by done. bit_eq. Qed.

Lemma majority_eq x y z :
  Z.lor (Z.land x (Z.lor y z)) (Z.land y z) = Z.lor (Z.lor (Z.land x y) (Z.land x z)) (Z.land y z).
Proof. bit_eq. Qed.

Lemma rotate_eq a s : is_u32 a -> 0 < s < 32 -> rotate a s = rotl a s /\ is_u32 (rotl a s).
Proof.
  intros Ha Hs. unfold rotate, rotl.
  assert (E32 : 2 ^ 32 = 2 ^ (32 - s) * 2 ^ s) by (rewrite <- Z.pow_add_r by lia; f_equal; lia).
  pose proof (Z.pow_pos_nonneg 2 s ltac:(lia) ltac:(lia)).
  pose proof (Z.pow_pos_nonneg 2 (32 - s) ltac:(lia) ltac:(lia)).
  assert (Eh : a * 2 ^ s mod 2 ^ 32 = (a mod 2 ^ (32 - s)) * 2 ^ s) by (rewrite E32; apply Z.mul_mod_distr_r; lia).
  assert (El : 0 <= a / 2 ^ (32 - s) < 2 ^ s).
  { unfold is_u32 in Ha. split; [apply Z.div_pos; lia|]. apply Z.div_lt_upper_bound; lia. }
  pose proof (Z.mod_pos_bound a (2 ^ (32 - s)) ltac:(lia)) as Hm.
  rewrite (land_mask a 32) by done. rewrite (Z.mod_small a (2 ^ 32)) by (unfold is_u32 in Ha; lia).
  rewrite Z.shiftl_mul_pow2, shiftr_div by lia. unfold u32. change 4294967296 with (2 ^ 32).
  rewrite Eh, lor_shift_add by lia. split; [done|]. unfold is_u32. change 4294967296 with (2 ^ 32). nia.
Qed.

Section Simulation.
Context {fn : Type} (code : regs -> step fn -> regs) (ref : state4 -> Z -> state4).

(** One line of the table against one step of the reference. *)
Definition line_ok (e : step fn) (i : Z) : Prop :=
  forall r, regs_ok r -> args (next (regs_of e)) (code r e) = ref (args (regs_of e) r) i /\ regs_ok (code r e).

Fixpoint phased (o : order) (l : list (step fn)) : bool :=
  match l with
  | [] => match o with ABCD => true | _ => false end
  | e :: l =>
      match o, regs_of e with
      | ABCD, ABCD | DABC, DABC | CDAB, CDAB | BCDA, BCDA => phased (next o) l
      | _, _ => false
      end
  end.

Lemma simulation l ks o r :
  Forall2 line_ok l ks -> phased o l = true -> regs_ok r ->
  args ABCD (fold_left code l r) = fold_left ref ks (args o r) /\ regs_ok (fold_left code l r).
Proof.
  intros Hl. revert o r. induction Hl as [|e i l ks He _ IH]; intros o r Ho Hr; simpl in *.
  { by destruct o. }
  assert (regs_of e = o /\ phased (next o) l = true) as [Eo Hn] by (by destruct o, (regs_of e)).
  destruct (He r Hr) as [Ea Hok]. rewrite Eo in Ea. rewrite <- Ea. by apply IH.
Qed.
End Simulation.

Lemma args_assign o v r : regs_ok r -> is_u32 v ->
  (let '(_, b, c, d) := args o r in args (next o) (assign o v r) = (d, v, b, c)) /\ regs_ok (assign o v r).
Proof. intros (? & ? & ? & ?) Hv. by destruct o. Qed.

Lemma args_ok o r : regs_ok r ->
  let '(a, b, c, d) := args o r in is_u32 a /\ is_u32 b /\ is_u32 c /\ is_u32 d.
Proof. intros (? & ? & ? & ?). by destruct o. Qed.

(** The tables against the formulas of the references. *)
Definition md5_fits (e : step Md5.fn) (i : Z) : bool :=
  (word_of e =? md5_k i) && (const_of e =? md5_t i) && (shift_of e =? md5_s i) &&
  (0 <? shift_of e) && (shift_of e <? 32) &&
  match fn_of e with
  | Md5.F => i <? 16
  | Md5.G => (16 <=? i) && (i <? 32)
  | Md5.H | Md5.H2 => (32 <=? i) && (i <? 48)
  | Md5.I => 48 <=? i
  end.

Lemma md5_basic e i b c d :
  md5_fits e i = true -> is_u32 b -> is_u32 c -> is_u32 d -> Md5.basic (fn_of e) b c d = md5_f i b c d.
Proof.
  unfold md5_fits, md5_f. intros Hf Hb Hc Hd. destruct (fn_of e); simpl; repeat zcase; try lia.
  - by apply choice_eq.
  - by apply choice_eq'.
  - by rewrite Z.lxor_assoc.
  - by rewrite not32_eq.
Qed.

Lemma md5_line p e i : bytes p -> md5_fits e i = true -> line_ok (Md5.STEP p) (md5_step p) e i.
Proof.
  intros Hp Hf r Hr. unfold Md5.STEP, md5_step. pose proof (args_ok (regs_of e) r Hr) as Ha.
  pose proof (fun v => args_assign (regs_of e) v r Hr) as Hs.
  destruct (args (regs_of e) r) as [[[a b] c] d]. destruct Ha as (Ha & Hb & Hc & Hd).
  rewrite (md5_basic e i) by done. pose proof (word_range p (word_of e) Hp) as Hw.
  unfold md5_fits in Hf. rewrite word_eq in *.
  replace (md5_k i) with (word_of e) by lia. replace (md5_s i) with (shift_of e) by lia.
  replace (md5_t i) with (const_of e) by lia.
  set (f := md5_f i b c d) in *. set (m := word_at p (word_of e)) in *. set (t := const_of e) in *.
  assert (Ev : u32 (a + u32 (u32 (f + m) + t)) = (a + f + m + t) mod 2 ^ 32)
    by (clear; unfold u32; change (2 ^ 32) with 4294967296; Z.div_mod_to_equations; lia).
  rewrite Ev. destruct (rotate_eq ((a + f + m + t) mod 2 ^ 32) (shift_of e)) as [-> Hrot]; [word_lia|lia|].
  set (v := rotl _ _) in *. replace ((b + v) mod 2 ^ 32) with (u32 (v + b)) by (unfold u32; by rewrite Z.add_comm).
  apply Hs. word_lia.
Qed.

Definition md4_fits (e : step Md4.fn) (i : Z) : bool :=
  (word_of e =? md4_k i) && (const_of e =? md4_t i) && (shift_of e =? md4_s i) &&
  (0 <? shift_of e) && (shift_of e <? 32) &&
  match fn_of e with
  | Md4.F => i <? 16
  | Md4.G => (16 <=? i) && (i <? 32)
  | Md4.H => 32 <=? i
  end.

Lemma md4_basic e i b c d :
  md4_fits e i = true -> is_u32 b -> is_u32 c -> is_u32 d -> Md4.basic (fn_of e) b c d = md4_f i b c d.
Proof.
  unfold md4_fits, md4_f. intros Hf Hb Hc Hd. destruct (fn_of e); simpl; repeat zcase; try lia.
  - by apply choice_eq.
  - apply majority_eq.
Qed.

Lemma md4_line p e i : bytes p -> md4_fits e i = true -> line_ok (Md4.STEP p) (md4_step p) e i.
Proof.
  intros Hp Hf r Hr. unfold Md4.STEP, md4_step. pose proof (args_ok (regs_of e) r Hr) as Ha.
  pose proof (fun v => args_assign (regs_of e) v r Hr) as Hs.
  destruct (args (regs_of e) r) as [[[a b] c] d]. destruct Ha as (Ha & Hb & Hc & Hd).
  rewrite (md4_basic e i) by done. pose proof (word_range p (word_of e) Hp) as Hw.
  unfold md4_fits in Hf. rewrite word_eq in *.
  replace (md4_k i) with (word_of e) by lia. replace (md4_s i) with (shift_of e) by lia.
  replace (md4_t i) with (const_of e) by lia.
  set (f := md4_f i b c d) in *. set (m := word_at p (word_of e)) in *. set (t := const_of e) in *.
  assert (Ev : u32 (a + u32 (f + u32 (m + t))) = (a + f + m + t) mod 2 ^ 32)
    by (clear; unfold u32; change (2 ^ 32) with 4294967296; Z.div_mod_to_equations; lia).
  rewrite Ev. destruct (rotate_eq ((a + f + m + t) mod 2 ^ 32) (shift_of e)) as [-> Hrot]; [word_lia|lia|].
  by apply Hs.
Qed.

(** The constants of the code are those of the reference. *)
Lemma sine_table_eq : sine_table = map const_of Md5.ROUNDS.
Proof. by vm_compute. Qed.

Lemma Forall2_check {A} (fits : A -> Z -> bool) (P : A -> Z -> Prop) l ks :
  (forall e i, fits e i = true -> P e i) -> length l = length ks ->
  forallb (fun x => fits x.1 x.2) (combine l ks) = true -> Forall2 P l ks.
Proof.
  intros HP. revert ks. induction l as [|e l IH]; intros [|i ks] Hl Hc; try done.
  simpl in *. apply andb_true_iff in Hc as [Hf Hc]. constructor; [by apply HP|]. apply IH; [lia|done].
Qed.

Lemma md5_table : forallb (fun x => md5_fits x.1 x.2) (combine Md5.ROUNDS (steps_to 64)) = true.
Proof. unfold md5_fits, md5_t. rewrite sine_table_eq. by vm_compute. Qed.

Lemma md4_table : forallb (fun x => md4_fits x.1 x.2) (combine Md4.ROUNDS (steps_to 48)) = true.
Proof. by vm_compute. Qed.

(** What the rounds of a digest promise: they compute the function of its reference. *)
Class RoundsSpec `{Rounds} := {
  compress : state4 -> list Z -> state4;
  rounds_spec r p : regs_ok r -> bytes p ->
    args ABCD (rounds r p) = compress (args ABCD r) p /\ regs_ok (rounds r p)
}.

#[export] Instance md5_rounds_spec : @RoundsSpec md5_rounds.
Proof.
  refine {| compress := md5_compress |}. intros r p Hr Hp.
  apply (simulation (Md5.STEP p) (md5_step p) Md5.ROUNDS (steps_to 64) ABCD r); [|done|done].
  apply (Forall2_check md5_fits); [|done|exact md5_table].
  intros e i. by apply md5_line.
Defined.

#[export] Instance md4_rounds_spec : @RoundsSpec md4_rounds.
Proof.
  refine {| compress := md4_compress |}. intros r p Hr Hp.
  apply (simulation (Md4.STEP p) (md4_step p) Md4.ROUNDS (steps_to 48) ABCD r); [|done|done].
  apply (Forall2_check md4_fits); [|done|exact md4_table].
  intros e i. by apply md4_line.
Defined.

(** ** Messages in parts *)

Section Messages.
Context `{Rounds}.

Definition run (n : Z) (r : regs) (l : list Z) : regs := fold_left block (chunks (Z.to_nat n) l) r.

Lemma chunks_prefix n l k : 64 * Z.of_nat n <= zlen l -> chunks n (l ++ k) = chunks n l.
Proof.
  revert l. induction n as [|n IH]; intros l Hl; [done|]. simpl.
  rewrite ztake_app_le, zdrop_app_le, IH by (try rewrite zlen_zdrop; lia). done.
Qed.

Lemma chunks_add n m l : chunks (n + m) l = chunks n l ++ chunks m (zdrop (64 * Z.of_nat n) l).
Proof.
  revert l. induction n as [|n IH]; intros l; [by rewrite zdrop_0|]. simpl. rewrite IH. do 3 f_equal.
  rewrite zdrop_zdrop by lia. f_equal. lia.
Qed.

Lemma run_prefix n r l k : 0 <= n -> 64 * n <= zlen l -> run n r (l ++ k) = run n r l.
Proof. intros. unfold run. by rewrite chunks_prefix by lia. Qed.

Lemma run_add n m r l : 0 <= n -> 0 <= m -> run (n + m) r l = run m (run n r l) (zdrop (64 * n) l).
Proof.
  intros. unfold run. rewrite Z2Nat.inj_add, chunks_add, fold_left_app by lia. by rewrite Z2Nat.id by lia.
Qed.

Lemma run_1 r l : run 1 r l = block r (ztake 64 l).
Proof. done. Qed.

(** More bytes behind whole blocks. *)
Lemma run_app n m r l k :
  0 <= n -> 0 <= m -> zlen l = 64 * n -> run (n + m) r (l ++ k) = run m (run n r l) k.
Proof.
  intros Hn Hm Hl. rewrite run_add, run_prefix by lia.
  by rewrite zdrop_app_ge, Hl, Z.sub_diag, zdrop_0 by lia.
Qed.

Lemma blocks_eq n fuel r l :
  1 <= n < 2 ^ 58 -> n <= Z.of_nat fuel -> 64 * n <= zlen l ->
  blocks fuel r l (64 * n) = Ret (run n r l, zdrop (64 * n) l) tt.
Proof.
  intros Hn Hf Hl. revert n r l Hn Hf Hl. induction fuel as [|fuel IH]; intros n r l Hn Hf Hl; [lia|].
  cbn [blocks]. rewrite (proj2 (Z.ltb_ge _ _)) by lia.
  replace (usize (64 * n - 64)) with (64 * (n - 1)) by word_lia. cbv zeta.
  destruct (Z.eqb_spec (64 * (n - 1)) 0).
  - replace n with 1 by lia. done.
  - rewrite IH by (try rewrite zlen_zdrop; lia). rewrite zdrop_zdrop by lia.
    replace (64 + 64 * (n - 1)) with (64 * n) by lia. do 2 f_equal.
    replace n with (1 + (n - 1)) at 2 by lia. by rewrite run_add, run_1 by lia.
Qed.

Lemma body_eq data n x :
  1 <= n < 2 ^ 58 -> 64 * n <= zlen data ->
  body data (64 * n) x = Ret (zdrop (64 * n) data) (set_chain (run n (chain x) data) x).
Proof.
  intros Hn Hl. unfold body. rewrite get_bind. rewrite (Z.mul_comm 64), Z.div_mul, (Z.mul_comm n) by lia.
  by rewrite blocks_eq by lia.
Qed.

(** The buffer begins with [p]. *)
Definition holds (p : list Z) (x : MD_CTX) : Prop := zlen (buffer x) = 64 /\ ztake (zlen p) (buffer x) = p.

Lemma holds_length p x : holds p x -> zlen p <= 64.
Proof.
  intros [Hb Hp]. destruct (Z.le_gt_cases (zlen p) 64); [done|].
  rewrite ztake_all in Hp by lia. rewrite <- Hp. lia.
Qed.

Lemma buffer_put_eq p bs x :
  holds p x -> zlen p + zlen bs <= 64 ->
  exists b, buffer_put (zlen p) bs x = Ret tt (set_buffer b x) /\ holds (p ++ bs) (set_buffer b x).
Proof.
  intros [Hb Hp] Hl. pose proof (zlen_nonneg p). pose proof (zlen_nonneg bs).
  exists (blit (zlen p) bs (buffer x)). unfold buffer_put. rewrite get_bind.
  rewrite (proj2 (andb_true_iff _ _)) by lia. split; [done|]. split; simpl.
  - rewrite zlen_blit; lia.
  - rewrite zlen_app, blit_ztake by lia. by rewrite Hp.
Qed.

Lemma holds_all p x : holds p x -> zlen p = 64 -> buffer x = p.
Proof. intros [Hb Hp] Hl. rewrite ztake_all in Hp by lia. done. Qed.

(** A full buffer is a block. *)
Lemma body_buffer p x : holds p x -> zlen p = 64 ->
  body (buffer x) 64 x = Ret [] (set_chain (block (chain x) p) x).
Proof.
  intros Hp Hl. rewrite (holds_all _ _ Hp Hl). change 64 with (64 * 1). rewrite body_eq by lia.
  by rewrite zdrop_all, run_1, ztake_all by lia.
Qed.

Lemma land_blocks n : 0 <= n < 2 ^ 64 -> Z.land n (usize (Z.lnot 0x3f)) = 64 * (n / 64).
Proof.
  intros Hn. change (usize (Z.lnot 0x3f)) with (Z.ldiff (Z.ones 64) (Z.ones 6)).
  rewrite Z.ldiff_land, Z.land_assoc, Z.land_ones, (Z.mod_small n) by lia.
  rewrite <- Z.ldiff_land, Z.ldiff_ones_r, Z.shiftl_mul_pow2, shiftr_div by lia. change (2 ^ 6) with 64. lia.
Qed.

Lemma land_3f n : Z.land n 0x3f = n mod 64.
Proof. by apply (land_mask n 6). Qed.

Lemma absorb_eq data x :
  zlen (buffer x) = 64 -> zlen data < 2 ^ 63 ->
  exists b, absorb data x = Ret tt (set_buffer b (set_chain (run (zlen data / 64) (chain x) data) x)) /\
    holds (zdrop (64 * (zlen data / 64)) data) (set_buffer b x).
Proof.
  intros Hb Hl. pose proof (zlen_nonneg data). set (q := zlen data / 64).
  assert (Hq : 64 * q <= zlen data < 64 * q + 64) by (subst q; Z.div_mod_to_equations; lia).
  unfold absorb. rewrite land_blocks, land_3f by lia. fold q.
  replace (zlen data mod 64) with (zlen (zdrop (64 * q) data))
    by (rewrite zlen_zdrop, Z.mod_eq by lia; done).
  set (x1 := set_chain (run q (chain x) data) x).
  rewrite (bind_ret_eq _ _ _ (zdrop (64 * q) data) x1).
  2: { destruct (Z.leb_spec 64 (zlen data)); [by apply body_eq; lia|].
       subst x1. replace q with 0 by lia. rewrite zdrop_0. by destruct x. }
  destruct (buffer_put_eq [] (zdrop (64 * q) data) x1) as (b & E & Hh).
  { split; [done|by rewrite ztake_0]. }
  { rewrite zlen_zdrop by lia. rewrite zlen_nil. lia. }
  exists b. rewrite ztake_all by lia. split; [exact E|exact Hh].
Qed.

(** ** The invariant of a context *)

Definition init_regs : regs := mkRegs 0x67452301 0xefcdab89 0x98badcfe 0x10325476.

(** The context has taken the message [msg]. *)
Record absorbed (msg : list Z) (x : MD_CTX) : Prop := mk_absorbed {
  absorbed_lo : lo x = zlen msg mod 2 ^ 29;
  absorbed_hi : hi x = zlen msg / 2 ^ 29 mod 2 ^ 32;
  absorbed_chain : chain x = run (zlen msg / 64) init_regs msg;
  absorbed_buffer : holds (zdrop (64 * (zlen msg / 64)) msg) x
}.

Lemma init_absorbed x : zlen (buffer x) = 64 -> absorbed [] (md_init x).
Proof. by intros Hb. Qed.

(** The counters of the bytes, 29 and 32 bits. *)
Lemma counter_lo m n : 0 <= m -> 0 <= n < 2 ^ 63 ->
  u32 (Z.land (usize (m mod 2 ^ 29 + n)) 0x1fffffff) = (m + n) mod 2 ^ 29.
Proof.
  intros. rewrite (land_mask _ 29) by done. rewrite usize_id by (Z.div_mod_to_equations; lia).
  rewrite Zplus_mod_idemp_l. unfold u32. apply Z.mod_small. Z.div_mod_to_equations. lia.
Qed.

Lemma counter_hi m n : 0 <= m -> 0 <= n ->
  u32 ((if (m + n) mod 2 ^ 29 <? m mod 2 ^ 29 then u32 (m / 2 ^ 29 mod 2 ^ 32 + 1) else m / 2 ^ 29 mod 2 ^ 32)
       + Z.shiftr n 29) = (m + n) / 2 ^ 29 mod 2 ^ 32.
Proof.
  intros. rewrite shiftr_div by lia. unfold u32. change 4294967296 with (2 ^ 32).
  assert (E : (m + n) / 2 ^ 29 = m / 2 ^ 29 + n / 2 ^ 29 +
    (if (m + n) mod 2 ^ 29 <? m mod 2 ^ 29 then 1 else 0)).
  { change (2 ^ 29) with 536870912.
    destruct (Z.ltb_spec ((m + n) mod 536870912) (m mod 536870912)); Z.div_mod_to_equations; lia. }
  rewrite E. clear E. destruct (_ <? _); generalize (m / 2 ^ 29), (n / 2 ^ 29); intros a b;
    change (2 ^ 32) with 4294967296; Z.div_mod_to_equations; lia.
Qed.

Lemma update_counts (m n : Z) x :
  lo x = m mod 2 ^ 29 -> hi x = m / 2 ^ 29 mod 2 ^ 32 -> 0 <= m -> 0 <= n < 2 ^ 63 ->
  set_count (u32 (Z.land (usize (lo x + n)) 0x1fffffff))
    (u32 ((if u32 (Z.land (usize (lo x + n)) 0x1fffffff) <? lo x then u32 (hi x + 1) else hi x)
          + Z.shiftr n 29)) x =
  set_count ((m + n) mod 2 ^ 29) ((m + n) / 2 ^ 29 mod 2 ^ 32) x.
Proof. intros -> -> Hm Hn. rewrite counter_lo by lia. by rewrite counter_hi by lia. Qed.

(** The message and the data up to the end of the block that the buffer is in. *)
Lemma absorbed_more msg data x b q :
  0 <= q -> zlen (msg ++ data) / 64 = q + zlen data / 64 -> zlen msg = 64 * q ->
  lo x = zlen (msg ++ data) mod 2 ^ 29 -> hi x = zlen (msg ++ data) / 2 ^ 29 mod 2 ^ 32 ->
  chain x = run q init_regs msg -> holds (zdrop (64 * (zlen data / 64)) data) (set_buffer b x) ->
  absorbed (msg ++ data) (set_buffer b (set_chain (run (zlen data / 64) (chain x) data) x)).
Proof.
  intros Hq0 Eq Hq Hlo Hhi Hc Hh. pose proof (zlen_nonneg data).
  assert (0 <= zlen data / 64) by (apply Z.div_pos; lia).
  split; [exact Hlo|exact Hhi| |].
  - rewrite Eq. simpl. by rewrite Hc, run_app by lia.
  - rewrite Eq, zdrop_app_ge by lia. by replace (64 * (q + zlen data / 64) - zlen msg) with (64 * (zlen data / 64)) by lia.
Qed.

Lemma update_spec msg data x :
  absorbed msg x -> zlen data < 2 ^ 63 ->
  exists x', md_update data x = Ret tt x' /\ absorbed (msg ++ data) x'.
Proof.
  intros [Hlo Hhi Hc Hh] Hd. pose proof (zlen_nonneg msg). pose proof (zlen_nonneg data).
  remember (zlen msg / 64) as q eqn:Eq. remember (zdrop (64 * q) msg) as tl eqn:Et.
  assert (Hq : 64 * q <= zlen msg < 64 * q + 64) by (subst q; Z.div_mod_to_equations; lia).
  assert (Ht : zlen tl = zlen msg - 64 * q) by (subst tl; apply zlen_zdrop; lia).
  unfold md_update. rewrite get_bind. cbv zeta. rewrite modify_bind.
  rewrite (update_counts (zlen msg) (zlen data) x Hlo Hhi), <- zlen_app by lia.
  assert (Eu : Z.land (lo x) 0x3f = zlen tl).
  { rewrite land_3f, Hlo, Ht, Eq, <- Z.mod_eq by lia. apply Z.mod_mod_divide. by exists 8388608. }
  rewrite Eu. set (x1 := set_count _ _ x). assert (Hh1 : holds tl x1) by exact Hh.
  destruct (Z.eqb_spec (zlen tl) 0) as [E0|E0]; cbn [negb].
  { destruct (absorb_eq data x1) as (b & E & Hb); [apply Hh|done|]. eexists. split; [exact E|].
    apply absorbed_more with q; try done; try lia. rewrite zlen_app. Z.div_mod_to_equations; lia. }
  destruct (Z.ltb_spec (zlen data) (64 - zlen tl)).
  { destruct (buffer_put_eq tl data x1 Hh1) as (b & E & Hb); [lia|]. eexists. split; [exact E|].
    assert (E1 : zlen (msg ++ data) / 64 = q) by (rewrite zlen_app; Z.div_mod_to_equations; lia).
    split; [done|done| |]; rewrite E1.
    - by rewrite run_prefix by lia.
    - by rewrite zdrop_app_le, <- Et by lia. }
  set (d1 := ztake (64 - zlen tl) data). set (d2 := zdrop (64 - zlen tl) data).
  assert (L1 : zlen d1 = 64 - zlen tl) by (apply zlen_ztake; lia).
  assert (L2 : zlen d2 = zlen data - (64 - zlen tl)) by (apply zlen_zdrop; lia).
  destruct (buffer_put_eq tl d1 x1 Hh1) as (b & E & Hb); [lia|].
  rewrite (bind_ret_eq _ _ _ _ _ E), get_bind. rewrite (bind_ret_eq _ _ _ _ _ (body_buffer _ _ Hb ltac:(rewrite zlen_app; lia))).
  set (x2 := set_chain _ _). destruct (absorb_eq d2 x2) as (b2 & E2 & Hb2); [apply Hb|lia|].
  eexists. split; [exact E2|]. replace (msg ++ data) with ((msg ++ d1) ++ d2) by (rewrite <- app_assoc; f_equal; apply ztake_zdrop).
  assert (L3 : zlen (msg ++ d1) = 64 * (q + 1)) by (rewrite zlen_app; lia).
  assert (L4 : zlen ((msg ++ d1) ++ d2) = zlen (msg ++ data)) by (rewrite !zlen_app; lia).
  apply absorbed_more with (q + 1); try done; try lia; rewrite ?L4; try done.
  - rewrite zlen_app. Z.div_mod_to_equations; lia.
  - subst x2. simpl. rewrite Hc, (run_add q 1), run_prefix, run_1, zdrop_app_le, <- Et by lia.
    rewrite ztake_all by (rewrite zlen_app; lia). done.
Qed.

(** *** The end of the message *)

Lemma mdOUT_eq v : mdOUT v = le_bytes 4 v.
Proof.
  unfold mdOUT, u8. rewrite !shiftr_div by lia. cbn [le_bytes]. rewrite !Z.div_div by lia. done.
Qed.

Lemma le_bytes_app a b w : le_bytes (a + b) w = le_bytes a w ++ le_bytes b (w / 256 ^ Z.of_nat a).
Proof.
  revert w. induction a as [|a IH]; intros w; [by rewrite Z.div_1_r|]. cbn [le_bytes app Nat.add].
  rewrite IH, Z.div_div by lia. by rewrite Nat2Z.inj_succ, Z.pow_succ_r by lia.
Qed.

Lemma le_bytes_mod a w : le_bytes a (w mod 256 ^ Z.of_nat a) = le_bytes a w.
Proof.
  revert w. induction a as [|a IH]; intros w; [done|]. cbn [le_bytes].
  rewrite Nat2Z.inj_succ, Z.pow_succ_r by lia.
  assert (0 < 256 ^ Z.of_nat a) by (apply Z.pow_pos_nonneg; lia). f_equal.
  - apply Z.mod_mod_divide. by exists (256 ^ Z.of_nat a); rewrite Z.mul_comm.
  - rewrite <- (IH (w / 256)). f_equal. rewrite Z.rem_mul_r by lia.
    rewrite (Z.mul_comm 256), Z.div_add by lia. rewrite Z.div_small by (apply Z.mod_pos_bound; lia). by rewrite Z.add_0_l.
Qed.

Lemma length_field n : 0 <= n ->
  mdOUT (u32 (Z.shiftl (n mod 2 ^ 29) 3)) ++ mdOUT (n / 2 ^ 29 mod 2 ^ 32) = le_bytes 8 ((8 * n) mod 2 ^ 64).
Proof.
  intros Hn. rewrite !mdOUT_eq. rewrite (le_bytes_app 4 4). simpl (256 ^ Z.of_nat 4). f_equal.
  - rewrite <- (le_bytes_mod 4 (_ mod 2 ^ 64)). f_equal. simpl (256 ^ Z.of_nat 4).
    rewrite Z.mod_mod_divide by (by exists (2 ^ 32)). rewrite Z.shiftl_mul_pow2 by lia. unfold u32.
    change (2 ^ 29) with 536870912. change (2 ^ 3) with 8. Z.div_mod_to_equations. lia.
  - f_equal. change (2 ^ 29) with 536870912. change (2 ^ 32) with 4294967296.
    change (2 ^ 64) with 18446744073709551616. Z.div_mod_to_equations. lia.
Qed.

(** The last block of a message. *)
Lemma run_last q msg rest :
  0 <= q -> 64 * q <= zlen msg -> zlen msg + zlen rest = 64 * (q + 1) ->
  run (q + 1) init_regs (msg ++ rest) = block (run q init_regs msg) (zdrop (64 * q) msg ++ rest).
Proof.
  intros Hq Hm Hr. pose proof (zlen_nonneg rest). rewrite run_add, run_prefix, run_1 by lia.
  destruct (Z.le_gt_cases (64 * q) (zlen msg)); [|lia].
  rewrite zdrop_app_le by lia. rewrite ztake_all; [done|]. rewrite zlen_app, zlen_zdrop by lia. lia.
Qed.

(** What [md_final] does once 56 bytes are in the buffer. *)
Definition finish : M MD_CTX (list Z) :=
  modify (fun x => set_count (u32 (Z.shiftl (lo x) 3)) (hi x) x);;
  x ← get;
  buffer_put 56 (mdOUT (lo x));;
  buffer_put 60 (mdOUT (hi x));;
  x ← get;
  body (buffer x) 64;;
  x ← get;
  let r := chain x in
  modify (fun _ => empty_ctx);;
  mret (mdOUT (ra r) ++ mdOUT (rb r) ++ mdOUT (rc r) ++ mdOUT (rd r)).

Definition out_regs (r : regs) : list Z := out4 (args ABCD r).

Lemma finish_eq p x :
  holds p x -> zlen p = 56 ->
  finish x = Ret (out_regs (block (chain x) (p ++ mdOUT (u32 (Z.shiftl (lo x) 3)) ++ mdOUT (hi x)))) empty_ctx.
Proof.
  intros Hp Hl. unfold finish. rewrite modify_bind, get_bind. cbn [lo hi set_count].
  set (L := mdOUT (u32 _)). set (x1 := set_count _ _ x).
  destruct (buffer_put_eq p L x1 Hp) as (b1 & E1 & H1); [change (zlen L) with 4; lia|]. rewrite Hl in E1.
  rewrite (bind_ret_eq _ _ _ _ _ E1).
  destruct (buffer_put_eq (p ++ L) (mdOUT (hi x)) _ H1) as (b2 & E2 & H2).
  { rewrite zlen_app. change (zlen L) with 4. change (zlen (mdOUT (hi x))) with 4. lia. }
  rewrite zlen_app, Hl in E2. change (56 + zlen L) with 60 in E2. change (hi (set_count _ _ x)) with (hi x).
  rewrite (bind_ret_eq _ _ _ _ _ E2), get_bind.
  rewrite (bind_ret_eq _ _ _ _ _ (body_buffer _ _ H2 ltac:(rewrite !zlen_app, Hl; done))).
  rewrite get_bind. cbv zeta. rewrite modify_bind. unfold out_regs, out4, args. cbn [chain set_chain].
  rewrite <- app_assoc, !mdOUT_eq. done.
Qed.

(** The bytes that [md_final] puts behind the message, in the same block or in the next one. *)
Lemma pad_short msg q :
  zlen msg = 64 * q + zlen msg mod 64 -> zlen msg mod 64 < 56 ->
  pad msg = msg ++ ([0x80] ++ zrepeat (55 - zlen msg mod 64) 0 ++ le_bytes 8 ((8 * zlen msg) mod 2 ^ 64)) /\
  zlen (pad msg) / 64 = q + 1.
Proof.
  intros Hq Hu. pose proof (Z.mod_pos_bound (zlen msg) 64 ltac:(lia)).
  assert (E : (55 - zlen msg) mod 64 = 55 - zlen msg mod 64) by (Z.div_mod_to_equations; lia).
  unfold pad. rewrite E. split; [done|]. rewrite !zlen_app, zlen_zrepeat by lia.
  change (zlen [_]) with 1. change (zlen (le_bytes 8 _)) with 8. Z.div_mod_to_equations. lia.
Qed.

Lemma pad_long msg q :
  zlen msg = 64 * q + zlen msg mod 64 -> 56 <= zlen msg mod 64 ->
  pad msg = (msg ++ ([0x80] ++ zrepeat (63 - zlen msg mod 64) 0)) ++
            (zrepeat 56 0 ++ le_bytes 8 ((8 * zlen msg) mod 2 ^ 64)) /\
  zlen (pad msg) / 64 = q + 1 + 1.
Proof.
  intros Hq Hu. pose proof (Z.mod_pos_bound (zlen msg) 64 ltac:(lia)).
  assert (E : (55 - zlen msg) mod 64 = 63 - zlen msg mod 64 + 56) by (Z.div_mod_to_equations; lia).
  unfold pad. rewrite E. split.
  - rewrite <- !app_assoc. do 2 f_equal. rewrite app_assoc. f_equal. unfold zrepeat.
    rewrite Z2Nat.inj_add by lia. apply replicate_add.
  - rewrite !zlen_app, zlen_zrepeat by lia.
    change (zlen [_]) with 1. change (zlen (le_bytes 8 _)) with 8. Z.div_mod_to_equations. lia.
Qed.

(** A block without room for the length is filled and taken. *)
Lemma spill_eq p x :
  holds p x -> zlen p <= 64 ->
  exists x', (buffer_put (zlen p) (zrepeat (64 - zlen p) 0);; y ← get; body (buffer y) 64;; mret (0, 64)) x =
      Ret (0, 64) x' /\ holds [] x' /\ lo x' = lo x /\ hi x' = hi x /\
    chain x' = block (chain x) (p ++ zrepeat (64 - zlen p) 0).
Proof.
  intros Hp Hl. assert (Lz : zlen (zrepeat (64 - zlen p) 0) = 64 - zlen p) by (apply zlen_zrepeat; lia).
  destruct (buffer_put_eq p (zrepeat (64 - zlen p) 0) x Hp) as (b & E & Hb); [lia|].
  rewrite (bind_ret_eq _ _ _ _ _ E), get_bind.
  rewrite (bind_ret_eq _ _ _ _ _ (body_buffer _ _ Hb ltac:(rewrite zlen_app; lia))).
  eexists. split; [done|]. split; [|done]. split; [apply Hb|apply ztake_0].
Qed.

Lemma final_spec msg x :
  absorbed msg x ->
  md_final x = Ret (out_regs (run (zlen (pad msg) / 64) init_regs (pad msg))) empty_ctx.
Proof.
  intros [Hlo Hhi Hc Hh]. pose proof (zlen_nonneg msg).
  remember (zlen msg / 64) as q eqn:Eq. remember (zdrop (64 * q) msg) as tl eqn:Et.
  assert (Hq : zlen msg = 64 * q + zlen msg mod 64) by (subst q; Z.div_mod_to_equations; lia).
  pose proof (Z.mod_pos_bound (zlen msg) 64 ltac:(lia)) as Hm.
  assert (Ht : zlen tl = zlen msg mod 64) by (subst tl; rewrite zlen_zdrop; lia).
  assert (Eu : Z.land (lo x) 0x3f = zlen tl).
  { rewrite land_3f, Hlo, Ht. apply Z.mod_mod_divide. by exists 8388608. }
  unfold md_final. fold finish. rewrite get_bind. cbv zeta. rewrite Eu.
  destruct (buffer_put_eq tl [0x80] x Hh) as (b1 & E1 & Hb1); [change (zlen [_]) with 1; lia|].
  rewrite (bind_ret_eq _ _ _ _ _ E1).
  assert (L1 : zlen (tl ++ [0x80]) = zlen tl + 1) by (rewrite zlen_app; done). rewrite <- L1.
  destruct (Z.ltb_spec (64 - zlen (tl ++ [0x80])) 8).
  - destruct (pad_long msg q Hq ltac:(lia)) as [Ep El]. rewrite Ep in El |- *. rewrite El.
    destruct (spill_eq _ _ Hb1) as (x2 & E2 & Hb2 & Hl2 & Hh2 & Hc2); [lia|].
    rewrite (bind_ret_eq _ _ _ _ _ E2).
    destruct (buffer_put_eq [] (zrepeat 56 0) x2 Hb2) as (b3 & E3 & Hb3); [done|].
    rewrite (bind_ret_eq _ _ _ _ _ E3), (finish_eq _ _ Hb3) by done. cbn [lo hi set_buffer chain].
    rewrite Hl2, Hh2, Hc2. cbn [lo hi set_buffer chain]. rewrite Hlo, Hhi, length_field, Hc by lia.
    do 2 f_equal. rewrite L1, Ht. replace (64 - (zlen msg mod 64 + 1)) with (63 - zlen msg mod 64) by lia.
    rewrite run_last; rewrite ?zlen_app, ?zlen_zrepeat; change (zlen [_]) with 1; change (zlen (le_bytes 8 _)) with 8; try lia.
    rewrite run_last; rewrite ?zlen_app, ?zlen_zrepeat; change (zlen [_]) with 1; try lia.
    rewrite <- Et. rewrite zdrop_all by (rewrite !zlen_app, zlen_zrepeat by lia; change (zlen [_]) with 1; lia).
    by rewrite <- app_assoc.
  - destruct (pad_short msg q Hq ltac:(lia)) as [Ep El]. rewrite Ep in El |- *. rewrite El. rewrite ret_bind.
    cbv beta iota. replace (64 - zlen (tl ++ [0x80]) - 8) with (55 - zlen msg mod 64) by lia.
    assert (Lz : zlen (zrepeat (55 - zlen msg mod 64) 0) = 55 - zlen msg mod 64) by (apply zlen_zrepeat; lia).
    destruct (buffer_put_eq _ (zrepeat (55 - zlen msg mod 64) 0) _ Hb1) as (b3 & E3 & Hb3); [lia|].
    rewrite (bind_ret_eq _ _ _ _ _ E3), (finish_eq _ _ Hb3) by (rewrite zlen_app; lia). cbn [lo hi set_buffer chain].
    rewrite Hlo, Hhi, length_field, Hc by lia. do 2 f_equal.
    rewrite run_last; rewrite ?zlen_app, ?Lz; change (zlen [_]) with 1; change (zlen (le_bytes 8 _)) with 8; try lia.
    rewrite <- Et. by rewrite <- !app_assoc.
Qed.
End Messages.

(** ** Contexts against the references *)

(** A message in parts. *)
Fixpoint in_parts {S} (update : list Z -> M S unit) (parts : list (list Z)) : M S unit :=
  match parts with [] => mret tt | d :: ds => update d;; in_parts update ds end.

Definition part_ok (d : list Z) : Prop := bytes d /\ zlen d < 2 ^ 63.

Lemma bytes_le_bytes n v : bytes (le_bytes n v).
Proof.
  revert v. induction n as [|n IH]; intros v; constructor; [|apply IH].
  apply Z.mod_pos_bound. lia.
Qed.

Lemma bytes_pad msg : bytes msg -> bytes (pad msg).
Proof.
  intros Hm. unfold pad. apply Forall_app. split; [done|]. constructor; [done|]. apply Forall_app.
  split; [by apply Forall_zrepeat|apply bytes_le_bytes].
Qed.

Lemma bytes_chunks n l : bytes l -> Forall bytes (chunks n l).
Proof.
  revert l. induction n as [|n IH]; intros l Hl; constructor; [by apply Forall_ztake|].
  by apply IH, Forall_zdrop.
Qed.

Section Exact.
Context `{RoundsSpec}.

Lemma block_spec r p : regs_ok r -> bytes p ->
  args ABCD (block r p) = add4 (compress (args ABCD r) p) (args ABCD r) /\ regs_ok (block r p).
Proof.
  intros Hr Hp. destruct (rounds_spec r p Hr Hp) as [E _]. unfold block.
  destruct (rounds r p) as [a b c d]. rewrite <- E. split; [done|]. unfold regs_ok. simpl. word_lia.
Qed.

Lemma fold_blocks bs r : regs_ok r -> Forall bytes bs ->
  args ABCD (fold_left block bs r) = fold_left (fun x b => add4 (compress x b) x) bs (args ABCD r).
Proof.
  intros Hr Hb. revert r Hr. induction Hb as [|p bs Hp _ IH]; intros r Hr; [done|]. cbn [fold_left].
  destruct (block_spec r p Hr Hp) as [E Hok]. rewrite <- E. by apply IH.
Qed.

Lemma final_digest msg x : bytes msg -> absorbed msg x -> md_final x = Ret (digest compress msg) empty_ctx.
Proof.
  intros Hb Hx. rewrite (final_spec msg x Hx). unfold out_regs, run, digest.
  rewrite fold_blocks; [done|done|]. by apply bytes_chunks, bytes_pad.
Qed.

Lemma parts_absorbed ds msg x :
  Forall part_ok ds -> absorbed msg x ->
  exists x', in_parts md_update ds x = Ret tt x' /\ absorbed (msg ++ concat ds) x'.
Proof.
  intros Hd. revert msg x. induction Hd as [|d ds [_ Hl] _ IH]; intros msg x Hx; simpl.
  { exists x. by rewrite app_nil_r. }
  destruct (update_spec msg d x Hx Hl) as (x1 & E1 & H1). destruct (IH _ _ H1) as (x2 & E2 & H2).
  exists x2. rewrite (bind_ret_eq _ _ _ _ _ E1), app_assoc. done.
Qed.

Lemma bytes_concat ds : Forall part_ok ds -> bytes (concat ds).
Proof. induction 1 as [|d ds [Hd _] _ IH]; [constructor|]. by apply Forall_app. Qed.

Lemma digest_in_parts ds x :
  Forall part_ok ds -> zlen (buffer x) = 64 ->
  (in_parts md_update ds;; md_final) (md_init x) = Ret (digest compress (concat ds)) empty_ctx.
Proof.
  intros Hd Hx. destruct (parts_absorbed ds [] _ Hd (init_absorbed x Hx)) as (x1 & E1 & H1).
  rewrite (bind_ret_eq _ _ _ _ _ E1). by apply final_digest; [apply bytes_concat|].
Qed.
End Exact.

Lemma bytes_out4 x : bytes (out4 x) /\ zlen (out4 x) = 16.
Proof.
  destruct x as [[[a b] c] d]. split; [|done]. unfold out4.
  repeat (apply Forall_app; split; [apply bytes_le_bytes|]). apply bytes_le_bytes.
Qed.

Lemma bytes_md5 msg : bytes (md5 msg) /\ zlen (md5 msg) = 16.
Proof. apply bytes_out4. Qed.

(** *** Keyed digests *)

Definition hmac_key (key : list Z) : list Z :=
  let k := if zlen key <=? 64 then key else md5 key in k ++ zrepeat (64 - zlen k) 0.

Lemma blit_pad (k : list Z) : zlen k <= 64 -> blit 0 k (zrepeat 64 0) = k ++ zrepeat (64 - zlen k) 0.
Proof.
  intros Hk. pose proof (zlen_nonneg k). unfold blit. rewrite ztake_0. simpl. f_equal.
  unfold zdrop, zrepeat. rewrite drop_replicate. f_equal. lia.
Qed.

Lemma hmac_pad_eq key x : part_ok key -> hmac_pad key x = Ret (hmac_key key) x.
Proof.
  intros [Hb Hk]. unfold hmac_pad, hmac_key, KEY_IOPAD_SIZE. destruct (Z.leb_spec (zlen key) 64).
  { by rewrite blit_pad. }
  destruct (update_spec (H := md5_rounds) [] key _ (init_absorbed empty_ctx eq_refl) Hk) as (x1 & E1 & H1).
  rewrite (bind_ret_eq _ _ _ (md5 key) x), blit_pad; [done|rewrite (proj2 (bytes_md5 key)); lia|].
  unfold with_context. rewrite modify_bind. rewrite (bind_ret_eq _ _ _ _ _ E1).
  unfold winpr_MD5_Final. by rewrite (final_digest (H := md5_rounds) key).
Qed.

Lemma zlen_hmac_key key : zlen (hmac_key key) = 64.
Proof.
  unfold hmac_key. pose proof (zlen_nonneg key). pose proof (proj2 (bytes_md5 key)).
  destruct (Z.leb_spec (zlen key) 64); rewrite zlen_app, zlen_zrepeat; lia.
Qed.

Lemma bytes_hmac_key key : bytes key -> bytes (hmac_key key).
Proof.
  intros Hk. unfold hmac_key. apply Forall_app. split; [|by apply Forall_zrepeat].
  destruct (_ <=? _); [done|apply bytes_md5].
Qed.

Lemma lxor_byte a b : is_byte a -> is_byte b -> is_byte (Z.lxor a b).
Proof.
  unfold is_byte. intros Ha Hb. assert (0 <= Z.lxor a b) by (apply Z.lxor_nonneg; lia). split; [done|].
  destruct (Z.eq_dec (Z.lxor a b) 0) as [->|]; [lia|].
  apply (Z.log2_lt_pow2 _ 8); [lia|]. pose proof (Z.log2_lxor a b ltac:(lia) ltac:(lia)).
  assert (forall v, 0 <= v < 256 -> Z.log2 v < 8) as Hlog; [|pose proof (Hlog a Ha); pose proof (Hlog b Hb); lia].
  intros v Hv. destruct (Z.eq_dec v 0) as [->|]; [done|]. apply Z.log2_lt_pow2; lia.
Qed.

Lemma masked_key m key : is_byte m -> bytes key -> part_ok (map (Z.lxor m) (hmac_key key)).
Proof.
  intros Hm Hk. split.
  - apply Forall_forall. intros b Hb. apply in_map_iff in Hb as (a & <- & Ha).
    pose proof (proj1 (List.Forall_forall _ _) (bytes_hmac_key key Hk) a Ha) as Hb.
    by apply lxor_byte.
  - unfold zlen. rewrite length_map. fold (zlen (hmac_key key)). rewrite zlen_hmac_key. lia.
Qed.

Lemma on_icontext_bind {A B} (m : M MD_CTX A) (k : A -> M WINPR_HMAC_MD5_CTX B) i o a i' :
  m i = Ret a i' -> (on_icontext m ≫= k) (mkHmac i o) = k a (mkHmac i' o).
Proof. intros E. unfold on_icontext, mbind, M_bind. simpl. by rewrite E. Qed.

Lemma on_ocontext_bind {A B} (m : M MD_CTX A) (k : A -> M WINPR_HMAC_MD5_CTX B) i o a o' :
  m o = Ret a o' -> (on_ocontext m ≫= k) (mkHmac i o) = k a (mkHmac i o').
Proof. intros E. unfold on_ocontext, mbind, M_bind. simpl. by rewrite E. Qed.

(** The inner context has taken the masked key and [msg], the outer one its masked key. *)
Definition keyed (key msg : list Z) (x : WINPR_HMAC_MD5_CTX) : Prop :=
  absorbed (H := md5_rounds) (map (Z.lxor 0x36) (hmac_key key) ++ msg) (icontext x) /\
  absorbed (H := md5_rounds) (map (Z.lxor 0x5c) (hmac_key key)) (ocontext x).

Lemma hmac_init_eq key x : part_ok key -> exists x', hmac_md5_init key x = Ret tt x' /\ keyed key [] x'.
Proof.
  intros Hk. unfold hmac_md5_init. rewrite modify_bind. rewrite (bind_ret_eq _ _ _ _ _ (hmac_pad_eq key _ Hk)).
  cbv zeta. rewrite !(map_ext (fun b => Z.lxor b _) (Z.lxor _)) by (intros; apply Z.lxor_comm).
  destruct (update_spec (H := md5_rounds) [] (map (Z.lxor 0x36) (hmac_key key)) _ (init_absorbed empty_ctx eq_refl))
    as (i & Ei & Hi); [by apply masked_key, Hk|].
  destruct (update_spec (H := md5_rounds) [] (map (Z.lxor 0x5c) (hmac_key key)) _ (init_absorbed empty_ctx eq_refl))
    as (o & Eo & Ho); [by apply masked_key, Hk|].
  rewrite (on_icontext_bind _ _ _ _ tt (md_init empty_ctx)), (on_icontext_bind _ _ _ _ tt i),
    (on_ocontext_bind _ _ _ _ tt (md_init empty_ctx)) by done.
  exists (mkHmac i o). split; [|by split; simpl; rewrite ?app_nil_r].
  unfold on_ocontext, winpr_MD5_Update. simpl. by rewrite Eo.
Qed.

Lemma hmac_parts_eq key ds msg x :
  Forall part_ok ds -> keyed key msg x ->
  exists x', in_parts hmac_md5_update ds x = Ret tt x' /\ keyed key (msg ++ concat ds) x'.
Proof.
  intros Hd. revert msg x. induction Hd as [|d ds [_ Hl] _ IH]; intros msg [i o] [Hi Ho]; simpl.
  { exists (mkHmac i o). by rewrite app_nil_r. }
  destruct (update_spec (H := md5_rounds) _ d i Hi Hl) as (i' & E & Hi'). rewrite <- app_assoc in Hi'.
  destruct (IH (msg ++ d) (mkHmac i' o)) as (x' & E' & Hx'); [by split|].
  exists x'. rewrite app_assoc. split; [|done]. unfold hmac_md5_update. by rewrite (on_icontext_bind _ _ _ _ tt i').
Qed.

(** ** The stream cipher *)

Definition all_bytes : list Z := map Z.of_nat (seq 0 256).

(** A context of the cipher: two indices and a permutation of the bytes. *)
Record rc4_wf (x : winpr_int_RC4_CTX) : Prop := mk_rc4_wf {
  rc4_wf_i : is_byte (rc4_i x);
  rc4_wf_j : is_byte (rc4_j x);
  rc4_wf_s : rc4_s x ≡ₚ all_bytes
}.

Lemma rc4_at_lookup i (s : list Z) : 0 <= i < zlen s -> s !! Z.to_nat i = Some (rc4_at i s).
Proof.
  intros. unfold rc4_at. rewrite nth_lookup.
  by destruct (lookup_lt_is_Some_2 s (Z.to_nat i)) as [x ->]; [unfold zlen in *; lia|].
Qed.

Lemma insert_permutation (l : list Z) i x : (i < length l)%nat -> <[i := x]> l ≡ₚ x :: delete i l.
Proof.
  revert i. induction l as [|y l IH]; intros [|i] Hi; simpl in *; [lia|lia|done|].
  rewrite IH by lia. apply Permutation_swap.
Qed.

Lemma swap_permutation i j s : 0 <= i < zlen s -> 0 <= j < zlen s -> swap i j s ≡ₚ s.
Proof.
  intros Hi Hj. pose proof (rc4_at_lookup i s Hi) as Ei. pose proof (rc4_at_lookup j s Hj) as Ej.
  unfold swap. set (a := rc4_at i s) in *. set (b := rc4_at j s) in *.
  assert (Z.to_nat i < length s /\ Z.to_nat j < length s)%nat as [Li Lj] by (unfold zlen in *; lia).
  destruct (decide (Z.to_nat i = Z.to_nat j)) as [E|Hne].
  { rewrite E in *. rewrite Ei in Ej. injection Ej as <-. by rewrite !(list_insert_id s). }
  set (l := <[Z.to_nat i := b]> s).
  assert (Elj : l !! Z.to_nat j = Some b) by (unfold l; by rewrite list_lookup_insert_ne).
  assert (Hl : delete (Z.to_nat j) l ≡ₚ delete (Z.to_nat i) s).
  { apply (Permutation_cons_inv (a := b)). rewrite <- (delete_Permutation l _ b Elj).
    by apply insert_permutation. }
  rewrite insert_permutation by (unfold l; by rewrite length_insert).
  rewrite Hl. symmetry. by apply delete_Permutation.
Qed.

Lemma zlen_swap i j s : zlen (swap i j s) = zlen s.
Proof. unfold swap, zlen. by rewrite !length_insert. Qed.

Lemma permutation_at i s : s ≡ₚ all_bytes -> 0 <= i < 256 -> zlen s = 256 /\ is_byte (rc4_at i s).
Proof.
  intros Hs Hi. assert (Hl : zlen s = 256) by (unfold zlen; by rewrite (Permutation_length Hs)).
  split; [done|]. pose proof (rc4_at_lookup i s ltac:(lia)) as E. apply list_elem_of_lookup_2 in E.
  remember (rc4_at i s) as v eqn:Ev. clear Ev. rewrite Hs in E. unfold all_bytes in E. apply list_elem_of_In, in_map_iff in E as (n & <- & Hn).
  apply in_seq in Hn. unfold is_byte. lia.
Qed.

Lemma key_schedule_permutation n i j s t :
  0 <= i -> i + Z.of_nat n <= 256 -> s ≡ₚ all_bytes -> key_schedule n i j s t ≡ₚ all_bytes.
Proof.
  revert i j s. induction n as [|n IH]; intros i j s Hi Hn Hs; [done|]. cbn [key_schedule].
  apply IH; [lia|lia|]. assert (Hl : zlen s = 256) by (apply (permutation_at 0 s Hs); lia).
  rewrite swap_permutation; [done|lia|]. rewrite Hl. apply Z.mod_pos_bound. done.
Qed.

(** One turn of the loop keeps the permutation. *)
Lemma rc4_loop_wf m t1 t2 s :
  is_byte t1 -> is_byte t2 -> s ≡ₚ all_bytes -> bytes m ->
  is_byte (rc4_loop m t1 t2 s).1.1.1 /\ is_byte (rc4_loop m t1 t2 s).1.1.2 /\
  (rc4_loop m t1 t2 s).1.2 ≡ₚ all_bytes /\ bytes (rc4_loop m t1 t2 s).2.
Proof.
  intros H1 H2 Hs Hm. revert t1 t2 s H1 H2 Hs. induction Hm as [|c m Hc _ IH]; intros t1 t2 s H1 H2 Hs.
  { done. }
  cbn [rc4_loop fst snd]. set (u1 := (t1 + 1) mod CTX_SIZE). set (u2 := (t2 + rc4_at u1 s) mod CTX_SIZE).
  assert (Hu1 : is_byte u1) by (apply Z.mod_pos_bound; done).
  assert (Hu2 : is_byte u2) by (apply Z.mod_pos_bound; done).
  destruct (permutation_at 0 s Hs) as [Hl _]; [lia|].
  assert (Hs' : swap u1 u2 s ≡ₚ all_bytes) by (rewrite swap_permutation; [done|unfold is_byte in *; lia..]).
  destruct (IH u1 u2 (swap u1 u2 s) Hu1 Hu2 Hs') as (A1 & A2 & A3 & A4).
  split; [done|]. split; [done|]. split; [done|]. constructor; [|done]. apply lxor_byte; [done|].
  apply permutation_at; [done|]. apply Z.mod_pos_bound. done.
Qed.

(** The stream of key bytes does not depend on the data. *)
Lemma rc4_loop_again m t1 t2 s :
  rc4_loop (rc4_loop m t1 t2 s).2 t1 t2 s = ((rc4_loop m t1 t2 s).1, m).
Proof.
  revert t1 t2 s. induction m as [|c m IH]; intros t1 t2 s; [done|]. cbn [rc4_loop fst snd].
  rewrite IH. cbn [fst snd]. by rewrite Z.lxor_assoc, Z.lxor_nilpotent, Z.lxor_0_r.
Qed.

Lemma rc4_loop_app m1 m2 t1 t2 s :
  rc4_loop (m1 ++ m2) t1 t2 s =
  let r := rc4_loop m1 t1 t2 s in
  let r' := rc4_loop m2 r.1.1.1 r.1.1.2 r.1.2 in
  (r'.1, r.2 ++ r'.2).
Proof.
  revert t1 t2 s. induction m1 as [|c m IH]; intros t1 t2 s.
  { simpl. by destruct (rc4_loop m2 t1 t2 s). }
  cbn [rc4_loop app]. rewrite IH. done.
Qed.

Lemma rc4_update_eq m x :
  winpr_int_rc4_update m x =
  let r := rc4_loop m (rc4_i x) (rc4_j x) (rc4_s x) in
  Ret r.2 (mkRc4 r.1.1.1 r.1.1.2 r.1.2 (rc4_t x)).
Proof.
  unfold winpr_int_rc4_update. rewrite get_bind.
  by destruct (rc4_loop m (rc4_i x) (rc4_j x) (rc4_s x)) as [[[t1 t2] s] out].
Qed.

(** Any number of calls is one call on all the data. *)
Lemma rc4_session_eq ms x :
  exists cs, session winpr_int_rc4_update ms x =
      Ret cs (mkRc4 (rc4_loop (concat ms) (rc4_i x) (rc4_j x) (rc4_s x)).1.1.1
                    (rc4_loop (concat ms) (rc4_i x) (rc4_j x) (rc4_s x)).1.1.2
                    (rc4_loop (concat ms) (rc4_i x) (rc4_j x) (rc4_s x)).1.2 (rc4_t x)) /\
    concat cs = (rc4_loop (concat ms) (rc4_i x) (rc4_j x) (rc4_s x)).2.
Proof.
  revert x. induction ms as [|m ms IH]; intros x.
  { exists []. by destruct x. }
  cbn [session concat]. rewrite rc4_loop_app. cbv zeta. cbn [fst snd].
  rewrite (bind_ret_eq _ _ _ _ _ (rc4_update_eq m x)).
  set (r := rc4_loop m (rc4_i x) (rc4_j x) (rc4_s x)).
  destruct (IH (mkRc4 r.1.1.1 r.1.1.2 r.1.2 (rc4_t x))) as (cs & E & Hc). cbn [rc4_i rc4_j rc4_s rc4_t] in E, Hc.
  exists (r.2 :: cs). rewrite (bind_ret_eq _ _ _ _ _ E). split; [done|]. cbn [concat]. by rewrite Hc.
Qed.

Lemma rc4_new_eq `{AllocOk} key : 0 < zlen key ->
  exists x, winpr_int_rc4_new key = Ret x tt /\ rc4_wf x.
Proof.
  intros Hk. unfold winpr_int_rc4_new. rewrite alloc_ok by lia. cbn [negb].
  rewrite (proj2 (Z.eqb_neq _ _)) by lia. eexists. split; [reflexivity|].
  split; try done. by apply key_schedule_permutation.
Qed.

Lemma zlen_rc4_loop m t1 t2 s : zlen (rc4_loop m t1 t2 s).2 = zlen m.
Proof.
  revert t1 t2 s. induction m as [|c m IH]; intros t1 t2 s; [done|]. cbn [rc4_loop snd].
  by rewrite !zlen_cons, IH.
Qed.

Lemma rc4_session_wf ms x : rc4_wf x -> Forall bytes ms ->
  exists cs x', session winpr_int_rc4_update ms x = Ret cs x' /\ rc4_wf x' /\
    Forall2 (fun m c => bytes c /\ zlen c = zlen m) ms cs.
Proof.
  intros Hx Hm. revert x Hx. induction Hm as [|m ms Hb _ IH]; intros x Hx.
  { by exists [], x. }
  cbn [session]. rewrite (bind_ret_eq _ _ _ _ _ (rc4_update_eq m x)). destruct Hx as [Hi Hj Hs].
  destruct (rc4_loop_wf m (rc4_i x) (rc4_j x) (rc4_s x) Hi Hj Hs Hb) as (A1 & A2 & A3 & A4).
  destruct (IH (mkRc4 _ _ _ (rc4_t x)) (mk_rc4_wf (mkRc4 _ _ _ (rc4_t x)) A1 A2 A3)) as (cs & x' & E & Hx' & Hc).
  eexists _, x'. rewrite (bind_ret_eq _ _ _ _ _ E). split; [done|]. split; [done|].
  constructor; [|done]. split; [done|]. apply zlen_rc4_loop.
Qed.

(** ** Theorems *)

(** C20: whatever the parts in which a message arrives, the context computes its MD5 digest as
    RFC 1321 defines it on the whole message: padding, the table of sines, the order of the
    words, the rotations, and the length field modulo 2^64; the context is empty afterwards. *)
Theorem winpr_MD5_exact (x : MD_CTX) (parts : list (list Z)) :
  zlen (buffer x) = 64 -> Forall part_ok parts ->
  (in_parts winpr_MD5_Update parts;; winpr_MD5_Final) (winpr_MD5_Init x) = Ret (md5 (concat parts)) empty_ctx.
Proof. intros Hx Hp. exact (digest_in_parts (H := md5_rounds) parts x Hp Hx). Qed.

Lemma winpr_MD5_exact_witness :
  (in_parts winpr_MD5_Update [[97; 98]; []; [99]];; winpr_MD5_Final) (winpr_MD5_Init empty_ctx) =
  Ret (md5 [97; 98; 99]) empty_ctx.
Proof.
  apply (winpr_MD5_exact empty_ctx [[97; 98]; []; [99]]); [done|].
  repeat apply Forall_cons_2; try apply Forall_nil_2; (split; [by apply bytes_check|done]).
Defined.

(** likewise for MD4 and RFC 1320. *)
Theorem winpr_MD4_exact (x : MD_CTX) (parts : list (list Z)) :
  zlen (buffer x) = 64 -> Forall part_ok parts ->
  (in_parts winpr_MD4_Update parts;; winpr_MD4_Final) (winpr_MD4_Init x) = Ret (md4 (concat parts)) empty_ctx.
Proof. intros Hx Hp. exact (digest_in_parts (H := md4_rounds) parts x Hp Hx). Qed.

Lemma winpr_MD4_exact_witness :
  (in_parts winpr_MD4_Update [[97; 98]; []; [99]];; winpr_MD4_Final) (winpr_MD4_Init empty_ctx) =
  Ret (md4 [97; 98; 99]) empty_ctx.
Proof.
  apply (winpr_MD4_exact empty_ctx [[97; 98]; []; [99]]); [done|].
  repeat apply Forall_cons_2; try apply Forall_nil_2; (split; [by apply bytes_check|done]).
Defined.

(** C21: for a key of any length and a text in any parts, the keyed digest is HMAC-MD5 as in
    RFC 2104: two digests over the key, padded with zeros or digested itself, under the two
    masks. *)
Theorem hmac_md5_exact (x : WINPR_HMAC_MD5_CTX) (key : list Z) (parts : list (list Z)) :
  part_ok key -> Forall part_ok parts ->
  (hmac_md5_init key;; in_parts hmac_md5_update parts;; hmac_md5_finalize) x =
  Ret (hmac_md5 key (concat parts)) (mkHmac empty_ctx empty_ctx).
Proof.
  intros Hk Hp. destruct (hmac_init_eq key x Hk) as (x1 & E1 & H1). rewrite (bind_ret_eq _ _ _ _ _ E1).
  destruct (hmac_parts_eq key parts [] x1 Hp H1) as ([i o] & E2 & [Hi Ho]). rewrite (bind_ret_eq _ _ _ _ _ E2).
  cbn [app icontext ocontext] in Hi, Ho. unfold hmac_md5_finalize, winpr_MD5_Final, winpr_MD5_Update.
  pose proof (masked_key 0x36 key ltac:(done) (proj1 Hk)) as [Hm1 _].
  pose proof (masked_key 0x5c key ltac:(done) (proj1 Hk)) as [Hm2 _].
  rewrite (on_icontext_bind _ _ _ _ _ _
    (final_digest (H := md5_rounds) _ i ltac:(apply Forall_app; split; [exact Hm1|by apply bytes_concat]) Hi)).
  change (digest compress) with md5. set (d := md5 _). assert (Hd : bytes d /\ zlen d = 16) by apply bytes_md5.
  rewrite ztake_all by lia.
  destruct (update_spec (H := md5_rounds) _ d o Ho ltac:(lia)) as (o' & E3 & Ho').
  rewrite (on_ocontext_bind _ _ _ _ _ _ E3). unfold on_ocontext. cbn [ocontext icontext].
  rewrite (final_digest (H := md5_rounds) _ o' ltac:(apply Forall_app; split; [exact Hm2|apply Hd]) Ho'). done.
Qed.

Lemma hmac_md5_exact_witness :
  (hmac_md5_init [1; 2; 3];; in_parts hmac_md5_update [[97; 98]; [99]];; hmac_md5_finalize)
    (mkHmac empty_ctx empty_ctx) =
  Ret (hmac_md5 [1; 2; 3] [97; 98; 99]) (mkHmac empty_ctx empty_ctx).
Proof.
  apply (hmac_md5_exact (mkHmac empty_ctx empty_ctx) [1; 2; 3] [[97; 98]; [99]]).
  - split; [by apply bytes_check|done].
  - repeat apply Forall_cons_2; try apply Forall_nil_2; (split; [by apply bytes_check|done]).
Defined.

(** C23: the type of a cipher context: from any key that is not empty the set-up makes two indices
    below 256 and a permutation of the 256 bytes, and any calls keep it so, each giving as
    many bytes as it was given. *)
Theorem rc4_permutation `{AllocOk} (key : list Z) (ms : list (list Z)) :
  0 < zlen key -> Forall bytes ms ->
  exists x cs x', winpr_int_rc4_new key = Ret x tt /\ rc4_wf x /\
    session winpr_int_rc4_update ms x = Ret cs x' /\ rc4_wf x' /\
    Forall2 (fun m c => bytes c /\ zlen c = zlen m) ms cs.
Proof.
  intros Hk Hm. destruct (rc4_new_eq key Hk) as (x & E & Hx).
  destruct (rc4_session_wf ms x Hx Hm) as (cs & x' & E' & Hx' & Hc). by exists x, cs, x'.
Qed.

Lemma rc4_permutation_witness :
  exists x cs x', @winpr_int_rc4_new alloc_always [1; 2; 3] = Ret x tt /\ rc4_wf x /\
    session winpr_int_rc4_update [[65; 66]; []] x = Ret cs x' /\ rc4_wf x' /\
    Forall2 (fun m c => bytes c /\ zlen c = zlen m) [[65; 66]; []] cs.
Proof.
  apply (@rc4_permutation alloc_always alloc_always_ok); [done|].
  repeat (apply Forall_cons_2; [by apply bytes_check|]). apply Forall_nil_2.
Defined.

(** C22: what one end encrypts the other end decrypts: with contexts from the same key the receiver
    gets the sender's bytes back, however the two cut the stream into calls. *)
Theorem rc4_roundtrip `{AllocOk} (key : list Z) (ms : list (list Z)) :
  0 < zlen key ->
  exists x cs x', winpr_int_rc4_new key = Ret x tt /\ session winpr_int_rc4_update ms x = Ret cs x' /\
    forall ds, concat ds = concat cs ->
      exists ps, session winpr_int_rc4_update ds x = Ret ps x' /\ concat ps = concat ms.
Proof.
  intros Hk. destruct (rc4_new_eq key Hk) as (x & E & _). destruct (rc4_session_eq ms x) as (cs & E1 & Hc).
  eexists x, cs, _. split; [exact E|]. split; [exact E1|]. intros ds Hd.
  destruct (rc4_session_eq ds x) as (ps & E2 & Hp). rewrite Hd, Hc, rc4_loop_again in E2, Hp.
  exists ps. split; [exact E2|exact Hp].
Qed.

Lemma rc4_roundtrip_witness :
  exists x cs x', @winpr_int_rc4_new alloc_always [1; 2; 3] = Ret x tt /\
    session winpr_int_rc4_update [[65; 66]; [67]] x = Ret cs x' /\
    forall ds, concat ds = concat cs ->
      exists ps, session winpr_int_rc4_update ds x = Ret ps x' /\ concat ps = [65; 66; 67].
Proof. by apply (@rc4_roundtrip alloc_always alloc_always_ok [1; 2; 3] [[65; 66]; [67]]). Defined.
