(* ===== verification/Bulk.v ===== *)
(** * The choice among the bulk compressors

    Model of [libfreerdp/codec/bulk.c] on top of [Mppc].  The two compressors of the later
    protocol versions, [ncrush.c] and [xcrush.c], are the class [Crush]; the statistics are left
    out.  The theorem: blocks of data that go through the two ends of a connection with MPPC
    arrive as they were sent. *)

From S2P Require Import Prelude BitStream Mppc MppcRoundtrip.

Definition BULK_COMPRESSION_FLAGS_MASK : Z := 0xE0.
Definition BULK_COMPRESSION_TYPE_MASK : Z := 0x0F.
Definition PACKET_COMPR_TYPE_8K : Z := 0x00.
Definition PACKET_COMPR_TYPE_64K : Z := 0x01.
Definition PACKET_COMPR_TYPE_RDP6 : Z := 0x02.
Definition PACKET_COMPR_TYPE_RDP61 : Z := 0x03.

(** NCRUSH and XCRUSH: a status, the data and, from a compressor, the flags. *)
Class Crush := {
  NCRUSH_CONTEXT : Type;
  XCRUSH_CONTEXT : Type;
  ncrush_compress : list Z -> M NCRUSH_CONTEXT (Z * list Z * Z);
  ncrush_decompress : list Z -> Z -> M NCRUSH_CONTEXT (Z * list Z);
  ncrush_context_reset : NCRUSH_CONTEXT -> NCRUSH_CONTEXT;
  ncrush_context_new : bool -> option NCRUSH_CONTEXT;
  xcrush_compress : list Z -> M XCRUSH_CONTEXT (Z * list Z * Z);
  xcrush_decompress : list Z -> Z -> M XCRUSH_CONTEXT (Z * list Z);
  xcrush_context_reset : XCRUSH_CONTEXT -> XCRUSH_CONTEXT;
  xcrush_context_new : bool -> option XCRUSH_CONTEXT
}.

Section Bulk.
Context `{Crush}.
(** the bytes around the histories, and [settings->CompressionLevel] *)
Context (outside : Z -> Z) (setting : Z).

(** The contexts; the 65536 bytes of [OutputBuffer] are only a place to write to, whose old
    contents are an argument of [bulk_compress]. *)

Record rdpBulk := mkBulk {
  bulk_level : Z;
  bulk_max_size : Z;
  mppcSend : MPPC_CONTEXT;
  mppcRecv : MPPC_CONTEXT;
  ncrushRecv : NCRUSH_CONTEXT;
  ncrushSend : NCRUSH_CONTEXT;
  xcrushRecv : XCRUSH_CONTEXT;
  xcrushSend : XCRUSH_CONTEXT
}.

Definition set_level (l m : Z) (b : rdpBulk) : rdpBulk :=
  mkBulk l m (mppcSend b) (mppcRecv b) (ncrushRecv b) (ncrushSend b) (xcrushRecv b) (xcrushSend b).
Definition set_mppcSend (c : MPPC_CONTEXT) (b : rdpBulk) : rdpBulk :=
  mkBulk (bulk_level b) (bulk_max_size b) c (mppcRecv b) (ncrushRecv b) (ncrushSend b)
    (xcrushRecv b) (xcrushSend b).
Definition set_mppcRecv (c : MPPC_CONTEXT) (b : rdpBulk) : rdpBulk :=
  mkBulk (bulk_level b) (bulk_max_size b) (mppcSend b) c (ncrushRecv b) (ncrushSend b)
    (xcrushRecv b) (xcrushSend b).
Definition set_ncrush (r s : NCRUSH_CONTEXT) (b : rdpBulk) : rdpBulk :=
  mkBulk (bulk_level b) (bulk_max_size b) (mppcSend b) (mppcRecv b) r s
    (xcrushRecv b) (xcrushSend b).
Definition set_xcrush (r s : XCRUSH_CONTEXT) (b : rdpBulk) : rdpBulk :=
  mkBulk (bulk_level b) (bulk_max_size b) (mppcSend b) (mppcRecv b) (ncrushRecv b) (ncrushSend b)
    r s.

(** A compressor on its context inside the record. *)
Definition on_part {C A} (part : rdpBulk -> C) (put : C -> rdpBulk -> rdpBulk) (m : M C A) : M rdpBulk A :=
  fun b =>
    match m (part b) with
    | Ret a c => Ret a (put c b)
    | Fail c => Fail (put c b)
    | Crash f => Crash f
    end.

Definition bulk_compression_level (b : rdpBulk) : rdpBulk :=
  set_level (if PACKET_COMPR_TYPE_RDP61 <=? setting then PACKET_COMPR_TYPE_RDP61 else setting)
    (bulk_max_size b) b.

Definition bulk_compression_max_size : M rdpBulk Z :=
  modify bulk_compression_level;;
  modify (fun b => set_level (bulk_level b)
                     (if bulk_level b <? PACKET_COMPR_TYPE_64K then 8192 else UINT16_MAX) b);;
  b ← get; mret (bulk_max_size b).

Definition recv_mppc (level : Z) (src : list Z) (flags : Z) : M rdpBulk (Z * list Z) :=
  on_part mppcRecv set_mppcRecv
    (modify (mppc_set_compression_level level);; mppc_decompress outside src flags).

(** The status and the data; a negative status leaves no data. *)
Definition bulk_decompress (src : list Z) (flags : Z) : M rdpBulk (Z * list Z) :=
  bulk_compression_max_size;;
  let type := Z.land flags BULK_COMPRESSION_TYPE_MASK in
  if has_flag flags BULK_COMPRESSION_FLAGS_MASK then
    if type =? PACKET_COMPR_TYPE_8K then recv_mppc 0 src flags
    else if type =? PACKET_COMPR_TYPE_64K then recv_mppc 1 src flags
    else if type =? PACKET_COMPR_TYPE_RDP6 then
      on_part ncrushRecv (fun c b => set_ncrush c (ncrushSend b) b) (ncrush_decompress src flags)
    else if type =? PACKET_COMPR_TYPE_RDP61 then
      on_part xcrushRecv (fun c b => set_xcrush c (xcrushSend b) b) (xcrush_decompress src flags)
    else mret (-1, [])
  else mret (0, src).

(** The status, the data and the flags; [pFlags] comes in as [flags]. *)
Definition bulk_compress (OutputBuffer : rdpBulk -> list Z) (src : list Z) (flags : Z) : M rdpBulk (Z * list Z * Z) :=
  if (zlen src <=? 50) || (16384 <=? zlen src) then mret (0, src, flags)
  else
    modify bulk_compression_level;;
    bulk_compression_max_size;;
    b ← get;
    if (bulk_level b =? PACKET_COMPR_TYPE_8K) || (bulk_level b =? PACKET_COMPR_TYPE_64K) then
      on_part mppcSend set_mppcSend
        (modify (mppc_set_compression_level (bulk_level b));; mppc_compress outside src (OutputBuffer b))
    else if bulk_level b =? PACKET_COMPR_TYPE_RDP6 then
      on_part ncrushSend (fun c b => set_ncrush (ncrushRecv b) c b) (ncrush_compress src)
    else if bulk_level b =? PACKET_COMPR_TYPE_RDP61 then
      on_part xcrushSend (fun c b => set_xcrush (xcrushRecv b) c b) (xcrush_compress src)
    else mret (-1, [], flags).

Definition bulk_reset (b : rdpBulk) : rdpBulk :=
  mkBulk (bulk_level b) (bulk_max_size b) (mppc_context_reset false (mppcSend b))
    (mppc_context_reset false (mppcRecv b)) (ncrush_context_reset (ncrushRecv b))
    (ncrush_context_reset (ncrushSend b)) (xcrush_context_reset (xcrushRecv b))
    (xcrush_context_reset (xcrushSend b)).

(** [ok] tells whether the allocations succeed. *)
Definition bulk_new (ok : bool) : option rdpBulk :=
  if negb ok then None
  else
    ms ← mppc_context_new ok 1 true;
    mr ← mppc_context_new ok 1 false;
    nr ← ncrush_context_new false;
    ns ← ncrush_context_new true;
    xr ← xcrush_context_new false;
    xs ← xcrush_context_new true;
    Some (mkBulk setting 0 ms mr nr ns xr xs).
End Bulk.

(** ** Two ends with MPPC *)

Section Roundtrip.
Context `{Crush} (outside outside' : Z -> Z) (output : rdpBulk -> list Z) (level : Z).
Hypothesis output_room : forall b, 0 < zlen (output b).
Hypothesis level_known : level = 0 \/ level = 1.

(** The histories agree once both contexts have the level of the connection. *)
Definition bulk_synced (a b : rdpBulk) : Prop :=
  synced level (mppc_set_compression_level level (mppcSend a)) (mppc_set_compression_level level (mppcRecv b)).

Lemma set_level_again c d :
  synced level c d -> mppc_set_compression_level level c = c /\ mppc_set_compression_level level d = d.
Proof.
  intros [Hl Hcl Hdl Hcs Hds _ _ _ _ _ _]. destruct c, d. cbn in *. subst.
  destruct Hl as [E|E]; rewrite E in *; done.
Qed.

(** What the compressor can take: it leaves short and long blocks alone. *)
Definition block_ok (p : list Z) : Prop :=
  bytes p /\ (zlen p < 16384 -> zlen p <= history_size level - 4).

Lemma max_size_eq b :
  exists b1, bulk_compression_max_size level b = Ret (bulk_max_size b1) b1 /\
    bulk_max_size b1 = (if level =? 0 then 8192 else UINT16_MAX) /\ bulk_level b1 = level /\ mppcSend b1 = mppcSend b /\ mppcRecv b1 = mppcRecv b.
Proof.
  unfold bulk_compression_max_size. rewrite !modify_bind, get_bind. eexists. split; [reflexivity|].
  by destruct level_known as [-> | ->].
Qed.

Lemma bulk_decompress_mppc data flags b p d' :
  flags_ok level flags ->
  mppc_decompress outside' data flags (mppc_set_compression_level level (mppcRecv b)) = Ret (1, p) d' ->
  exists b', bulk_decompress outside' level data flags b = Ret (1, p) b' /\
    mppcSend b' = mppcSend b /\ mppcRecv b' = d'.
Proof.
  intros (Hf & Ht & Hm) E. destruct (max_size_eq b) as (b1 & E1 & _ & _ & Es & Er).
  exists (set_mppcRecv d' b1). split; [|done]. unfold bulk_decompress. rewrite (bind_ret_eq _ _ _ _ _ E1).
  unfold has_flag, BULK_COMPRESSION_FLAGS_MASK, BULK_COMPRESSION_TYPE_MASK. rewrite (proj2 (Z.eqb_neq _ _) Hm), Ht.
  assert (E2 : recv_mppc outside' level data flags b1 = Ret (1, p) (set_mppcRecv d' b1)).
  { unfold recv_mppc, on_part. by rewrite modify_bind, Er, E. }
  destruct level_known as [El|El]; rewrite El in E2 |- *; exact E2.
Qed.

(** One block: sent with [data] and [flags], it comes out as it went in. *)
Lemma bulk_block_ok p a b :
  bulk_synced a b -> block_ok p ->
  exists status data flags a' status' b',
    bulk_compress outside level output p 0 a = Ret (status, data, flags) a' /\ 0 <= status /\
    bulk_decompress outside' level data flags b = Ret (status', p) b' /\ 0 <= status' /\
    bulk_synced a' b' /\ zlen data <= zlen p /\ bytes data /\ is_byte flags /\
    (flags = 0 -> data = p).
Proof.
  intros Hs (Hb & Hl). unfold bulk_compress.
  destruct ((zlen p <=? 50) || (16384 <=? zlen p)) eqn:Eskip.
  { eexists 0, p, 0, a, 0, _. split; [done|]. split; [done|]. split; [reflexivity|].
    split; [done|]. split; [exact Hs|]. split; [lia|]. split; [done|]. split; [unfold is_byte; lia|done]. }
  rewrite modify_bind. set (a0 := bulk_compression_level level a). assert (E0 : mppcSend a0 = mppcSend a) by done.
  clearbody a0. destruct (max_size_eq a0) as (a1 & Em & _ & El & Es & _). rewrite E0 in Es.
  rewrite (bind_ret_eq _ _ _ _ _ Em), get_bind, El.
  destruct (packet_ok outside outside' level p (output a1) _ _ Hs Hb ltac:(lia) ltac:(apply output_room))
    as (data & flags & c' & d' & E1 & E2 & Hs' & Hlen & Hbd & Hf).
  destruct (set_level_again _ _ Hs') as [Ec Ed].
  destruct (bulk_decompress_mppc data flags b p d' Hf E2) as (b' & E3 & _ & Er).
  exists 1, data, flags, (set_mppcSend c' a1), 1, b'. split.
  { rewrite (proj2 (orb_true_iff _ _)) by (destruct level_known as [-> | ->]; [by left|by right]).
    unfold on_part. by rewrite modify_bind, Es, E1. }
  split; [lia|]. split; [done|]. split; [lia|]. split; [|destruct Hf as (? & _); unfold is_byte; split_and!; done || lia].
  unfold bulk_synced. cbn [mppcSend set_mppcSend]. by rewrite Er, Ec, Ed.
Qed.

(** A sequence of blocks from one end to the other, and what arrives; none when an end fails. *)
Fixpoint bulk_session (ps : list (list Z)) (a b : rdpBulk) : option (list (list Z)) :=
  match ps with
  | [] => Some []
  | p :: ps =>
      match bulk_compress outside level output p 0 a with
      | Ret (status, data, flags) a' =>
          if status <? 0 then None
          else
            match bulk_decompress outside' level data flags b with
            | Ret (status', out) b' => if status' <? 0 then None else option_map (cons out) (bulk_session ps a' b')
            | _ => None
            end
      | _ => None
      end
  end.
End Roundtrip.

Section Theorem_bulk.
Context `{Crush}.

Lemma context_new_level level compressor c :
  level = 0 \/ level = 1 -> mppc_context_new true 1 compressor = Some c ->
  mppc_context_new true level compressor = Some (mppc_set_compression_level level c).
Proof. unfold mppc_context_new. intros [-> | ->] E; injection E as <-; reflexivity. Qed.

(** Fresh ends agree, whatever the level of the connection. *)
Lemma bulk_new_synced setting setting' level a b :
  level = 0 \/ level = 1 -> bulk_new setting true = Some a -> bulk_new setting' true = Some b ->
  bulk_synced level a b.
Proof.
  intros Hl Ha Hb. unfold bulk_new in *. cbn [negb] in *.
  repeat match goal with
  | H : (_ ≫= _) = Some _ |- _ => apply bind_Some in H as (? & ? & H)
  end.
  injection Ha as <-. injection Hb as <-. unfold bulk_synced. cbn [mppcSend mppcRecv].
  by apply (new_synced level); [|apply context_new_level..].
Qed.

(** with either MPPC level, blocks of data of any length that the levels allow, those too
    short or too long to be compressed among them, come out of the receiving end as they went
    into the sending end, in order, from two fresh ends. *)
Theorem bulk_session_roundtrip (outside outside' : Z -> Z) (output : rdpBulk -> list Z) (level : Z)
    (a b : rdpBulk) (ps : list (list Z)) :
  (forall b, 0 < zlen (output b)) -> level = 0 \/ level = 1 -> bulk_synced level a b ->
  Forall (block_ok level) ps ->
  bulk_session outside outside' output level ps a b = Some ps.
Proof.
  intros Ho Hl Hs Hps. revert a b Hs. induction Hps as [|p ps Hp _ IH]; intros a b Hs; [done|].
  destruct (bulk_block_ok outside outside' output level Ho Hl p a b Hs Hp)
    as (st & data & flags & a' & st' & b' & E1 & H1 & E2 & H2 & Hs' & _).
  cbn [bulk_session]. rewrite E1, (proj2 (Z.ltb_ge _ _)), E2, (proj2 (Z.ltb_ge _ _)), (IH a' b' Hs') by lia. done.
Qed.
End Theorem_bulk.

(** NCRUSH and XCRUSH that refuse everything, for connections that do not use them. *)
Definition no_crush : Crush := {|
  NCRUSH_CONTEXT := unit; XCRUSH_CONTEXT := unit;
  ncrush_compress := fun _ => mret (-1, [], 0); ncrush_decompress := fun _ _ => mret (-1, []);
  ncrush_context_reset := id; ncrush_context_new := fun _ => Some tt;
  xcrush_compress := fun _ => mret (-1, [], 0); xcrush_decompress := fun _ _ => mret (-1, []);
  xcrush_context_reset := id; xcrush_context_new := fun _ => Some tt
|}.

Definition fresh_bulk : @rdpBulk no_crush :=
  mkBulk (H := no_crush) 0 0
    (mppc_context_reset false (mppc_set_compression_level 1
       (mkMppc BitStream_New true 0 0 0 (zrepeat 65536 0) (zrepeat 32768 0) 0)))
    (mppc_context_reset false (mppc_set_compression_level 1
       (mkMppc BitStream_New false 0 0 0 (zrepeat 65536 0) (zrepeat 32768 0) 0)))
    tt tt tt tt.

Lemma fresh_bulk_new : bulk_new (H := no_crush) 0 true = Some fresh_bulk.
Proof. reflexivity. Qed.

(** A short block, which is not compressed, and one that is. *)
Lemma bulk_session_roundtrip_witness :
  bulk_session (H := no_crush) (fun _ => 0) (fun _ => 7) (fun _ => [0]) 0
    [[1; 2; 3]; zrepeat 60 5] fresh_bulk fresh_bulk = Some [[1; 2; 3]; zrepeat 60 5].
Proof.
  apply (bulk_session_roundtrip (H := no_crush)).
  - done.
  - by left.
  - apply (bulk_new_synced 0 0); [by left|exact fresh_bulk_new|exact fresh_bulk_new].
  - repeat (apply Forall_cons_2; [split; [by apply bytes_check|done]|]). apply Forall_nil_2.
Defined.
