(* ===== verification/FastPath.v ===== *)
(** * The fast path

    Model of [libfreerdp/core/fastpath.c] with its callers [rdp_recv_fastpath_pdu] of [rdp.c],
    [peer_recv_fastpath_pdu] of [peer.c] and the [input_send_fastpath_*] functions of [input.c].
    The server cuts an update into fragments, compresses and sends them; the client puts them
    together and hands the update over.  The client sends input events, one or several in a
    packet; the server reads them and calls back.

    [rdp_decrypt] of [rdp.c] is modelled; the ciphers and digests of [security.c] that it calls, the
    transport and the readers of updates are the classes [Security], [Wire] and [Updates].  The
    lock around the security layer is left out. *)

From S2P Require Import Prelude Bulk Stream Per Tpkt Packet.

Definition FASTPATH_MAX_PACKET_SIZE : Z := 0x3FFF.
Definition FASTPATH_FRAGMENT_SINGLE : Z := 0x0.
Definition FASTPATH_FRAGMENT_LAST : Z := 0x1.
Definition FASTPATH_FRAGMENT_FIRST : Z := 0x2.
Definition FASTPATH_FRAGMENT_NEXT : Z := 0x3.
Definition FASTPATH_OUTPUT_COMPRESSION_USED : Z := 0x2.
Definition FASTPATH_OUTPUT_SECURE_CHECKSUM : Z := 0x1.
Definition FASTPATH_OUTPUT_ENCRYPTED : Z := 0x2.
Definition SEC_SECURE_CHECKSUM : Z := 0x0800.
Definition FASTPATH_UPDATETYPE_ORDERS : Z := 0x0.
Definition FASTPATH_UPDATETYPE_BITMAP : Z := 0x1.
Definition FASTPATH_UPDATETYPE_PALETTE : Z := 0x2.
Definition FASTPATH_UPDATETYPE_SYNCHRONIZE : Z := 0x3.
Definition FASTPATH_UPDATETYPE_SURFCMDS : Z := 0x4.
Definition FASTPATH_UPDATETYPE_PTR_NULL : Z := 0x5.
Definition FASTPATH_UPDATETYPE_PTR_DEFAULT : Z := 0x6.
Definition FASTPATH_UPDATETYPE_PTR_POSITION : Z := 0x8.
Definition FASTPATH_UPDATETYPE_COLOR : Z := 0x9.
Definition FASTPATH_UPDATETYPE_CACHED : Z := 0xA.
Definition FASTPATH_UPDATETYPE_POINTER : Z := 0xB.
Definition FASTPATH_UPDATETYPE_LARGE_POINTER : Z := 0xC.
Definition UPDATE_TYPE_BITMAP : Z := 0x0001.
Definition UPDATE_TYPE_PALETTE : Z := 0x0002.
Definition SYSPTR_NULL : Z := 0x00000000.
Definition SYSPTR_DEFAULT : Z := 0x00007F00.

Definition ENCRYPTION_METHOD_NONE : Z := 0x00000000.
Definition ENCRYPTION_METHOD_FIPS : Z := 0x00000010.

(** The settings that are read here. *)
Record fpSettings := mkSettings {
  CompressionEnabled : bool;
  CompressionLevel : Z;
  FastPathOutput : bool;
  MultifragMaxRequestSize : Z;
  fpEncryptionMethods : Z
}.

Definition fips (s : fpSettings) : bool := fpEncryptionMethods s =? ENCRYPTION_METHOD_FIPS.

(** The ciphers and digests of [security.c] with the keys of the connection: signatures of eight
    bytes, and encryption and decryption of data in place.  The salted signature is told whether it
    is for sending, the last one is given the data and the signature to compare. *)
Class Security := {
  keys : Type;
  security_mac_signature : list Z -> M keys (list Z);
  security_salted_mac_signature : list Z -> bool -> M keys (list Z);
  security_hmac_signature : list Z -> M keys (list Z);
  security_encrypt : list Z -> M keys (list Z);
  security_fips_encrypt : list Z -> M keys (list Z);
  security_decrypt : list Z -> M keys (list Z);
  security_fips_decrypt : list Z -> M keys (list Z);
  security_fips_check_signature : list Z -> list Z -> M keys unit
}.

(** Where packets go; [Fail] is a negative status of [transport_write]. *)
Class Wire := { wire : Type; transport_write : list Z -> M wire unit }.

(** Runs on one field of the first half of the state. *)
Definition on_field {R C A} (part : R -> C) (put : C -> R -> R) (m : M C A) : M (R * wStream) A := fun x =>
  match m (part x.1) with
  | Ret a c => Ret a (put c x.1, x.2)
  | Fail c => Fail (put c x.1, x.2)
  | Crash f => Crash f
  end.

(** Runs on one field together with the packet. *)
Definition on_both {R C A} (part : R -> C) (put : C -> R -> R) (m : M (C * wStream) A) : M (R * wStream) A := fun x =>
  match m (part x.1, x.2) with
  | Ret a c => Ret a (put c.1 x.1, c.2)
  | Fail c => Fail (put c.1 x.1, c.2)
  | Crash f => Crash f
  end.

Definition has (flags bit : Z) : bool := negb (Z.land flags bit =? 0).

(** ** Updates, from the server *)

Record FASTPATH_UPDATE_PDU_HEADER := mkPduHeader {
  fipsInformation : list Z;
  dataSignature : list Z;
  action : Z;
  secFlags : Z;
  pdu_length : Z
}.

Record FASTPATH_UPDATE_HEADER := mkUpdateHeader {
  compressionFlags : Z;
  size : Z;
  updateCode : Z;
  fragmentation : Z;
  compression : Z
}.

Definition fastpath_write_update_header (h : FASTPATH_UPDATE_HEADER) : M wStream unit :=
  let updateHeader :=
    u8 (Z.lor (Z.lor (Z.land (updateCode h) 0x0F) (Z.shiftl (Z.land (fragmentation h) 0x03) 4))
          (Z.shiftl (Z.land (compression h) 0x03) 6)) in
  Stream_CheckAndLogRequiredCapacity 1;;
  Stream_Write_UINT8 updateHeader;;
  (if negb (compression h =? 0) then
     Stream_CheckAndLogRequiredCapacity 1;; Stream_Write_UINT8 (compressionFlags h)
   else mret tt);;
  Stream_CheckAndLogRequiredCapacity 2;;
  Stream_Write_UINT16 (size h).

Definition fastpath_get_update_header_size (h : FASTPATH_UPDATE_HEADER) : Z :=
  if negb (compression h =? 0) then 4 else 3.

Section Output.
Context `{Crush} `{Security} `{Wire}.
(** the bytes around the histories of the compressor, its output buffer, and the settings *)
Context (outside : Z -> Z) (output : rdpBulk -> list Z) (settings : fpSettings).
(** [rdp->do_crypt] and [rdp->do_secure_checksum] *)
Context (do_crypt do_secure_checksum : bool).

Definition fastpath_write_update_pdu_header (h : FASTPATH_UPDATE_PDU_HEADER) : M wStream unit :=
  Stream_CheckAndLogRequiredCapacity 3;;
  Stream_Write_UINT8 (u8 (Z.lor (Z.land (action h) 0x03) (Z.shiftl (Z.land (secFlags h) 0x03) 6)));;
  Stream_Write_UINT8 (Z.lor 0x80 (Z.shiftr (pdu_length h) 8));;
  Stream_Write_UINT8 (Z.land (pdu_length h) 0xFF);;
  if negb (secFlags h =? 0) then
    (if fips settings then
       Stream_CheckAndLogRequiredCapacity 4;; Stream_Write (fipsInformation h)
     else mret tt);;
    Stream_CheckAndLogRequiredCapacity 8;;
    Stream_Write (dataSignature h)
  else mret tt.

Definition fastpath_get_update_pdu_header_size (h : FASTPATH_UPDATE_PDU_HEADER) : Z :=
  if negb (secFlags h =? 0) then 3 + 8 + (if fips settings then 4 else 0) else 3.

(** The parts of [rdpRdp] that sending changes; the stream [fs] is the other half of the state. *)
Record fpSender := mkSender { snd_bulk : rdpBulk; snd_keys : keys; snd_wire : wire }.

Definition on_bulk {A} (m : M rdpBulk A) : M (fpSender * wStream) A :=
  on_field snd_bulk (fun b x => mkSender b (snd_keys x) (snd_wire x)) m.
Definition on_keys {A} (m : M keys A) : M (fpSender * wStream) A :=
  on_field snd_keys (fun k x => mkSender (snd_bulk x) k (snd_wire x)) m.
Definition on_wire {A} (m : M wire A) : M (fpSender * wStream) A :=
  on_field snd_wire (fun w x => mkSender (snd_bulk x) (snd_keys x) w) m.

(** The data of a fragment with its compression and flags. *)
Definition compress_fragment (skip : bool) (src : list Z) : M (fpSender * wStream) (Z * Z * list Z) :=
  if CompressionEnabled settings && negb skip then
    '(status, data, flags) ← on_bulk (bulk_compress outside (CompressionLevel settings) output src 0);
    if (0 <=? status) && negb (flags =? 0) then
      assert (flags <=? UINT8_MAX);;
      mret (FASTPATH_OUTPUT_COMPRESSION_USED, u8 flags, data)
    else mret (0, 0, src)
  else mret (0, 0, src).

(** The signature goes to [sig], the last [n] bytes of the stream are encrypted in place. *)
Definition encrypt_update (sig n pad : Z) : M (fpSender * wStream) unit :=
  x ← get;
  let s := x.2 in
  let start := pointer s - n in
  let data := slice start n (buffer s) in
  (if (0 <=? start) && (0 <=? sig) && (sig + 8 <=? zlen (buffer s)) then mret tt else crash Undefined);;
  sign ← (if fips settings then on_keys (security_hmac_signature (ztake (n - pad) data))
          else if do_secure_checksum then on_keys (security_salted_mac_signature data true)
          else on_keys (security_mac_signature data));
  on_stream (modify (store_at sig sign));;
  enc ← (if fips settings then on_keys (security_fips_encrypt data) else on_keys (security_encrypt data));
  on_stream (modify (store_at start enc)).

(** One turn of the loop of [fastpath_send_update_pdu]: [rest] is what is left of the update. *)
Definition send_fragment (code : Z) (skip : bool) (maxLength fragment : Z) (rest : list Z) :
    M (fpSender * wStream) Z :=
  let totalLength := zlen rest in
  let SrcSize := if maxLength <? totalLength then maxLength else u16 totalLength in
  let sec := Z.lor (if do_crypt then FASTPATH_OUTPUT_ENCRYPTED else 0)
               (if do_crypt && do_secure_checksum then FASTPATH_OUTPUT_SECURE_CHECKSUM else 0) in
  '(comp, cflags, data) ← compress_fragment skip (ztake SrcSize rest);
  let DstSize := zlen data in
  if UINT16_MAX <? DstSize then failure
  else
    let totalLength := totalLength - SrcSize in
    let frag :=
      if totalLength =? 0 then
        if fragment =? 0 then FASTPATH_FRAGMENT_SINGLE else FASTPATH_FRAGMENT_LAST
      else if fragment =? 0 then FASTPATH_FRAGMENT_FIRST else FASTPATH_FRAGMENT_NEXT in
    let h := mkUpdateHeader cflags DstSize code frag comp in
    let hsize := fastpath_get_update_header_size h in
    let pad := if do_crypt && fips settings then
                 let p := 8 - (DstSize + hsize) mod 8 in if p =? 8 then 0 else p
               else 0 in
    let ph := mkPduHeader [0x10; 0x00; 0x01; pad] (zrepeat 8 0) 0 sec 0 in
    let total := DstSize + (hsize + fastpath_get_update_pdu_header_size ph) + pad in
    if UINT16_MAX <? total then failure
    else
      let ph := mkPduHeader [0x10; 0x00; 0x01; pad] (zrepeat 8 0) 0 sec total in
      on_stream (go_to 0);;
      on_stream (fastpath_write_update_pdu_header ph);;
      on_stream (fastpath_write_update_header h);;
      on_stream (Stream_CheckAndLogRequiredCapacity (DstSize + pad));;
      on_stream (Stream_Write data);;
      (if negb (pad =? 0) then on_stream (Stream_Zero pad) else mret tt);;
      (if do_crypt then
         encrypt_update (if fips settings then 7 else 3) (hsize + DstSize + pad) pad
       else mret tt);;
      on_stream Stream_SealLength;;
      x ← get;
      on_wire (transport_write (ztake (len x.2) (buffer x.2)));;
      mret SrcSize.

(** The loop: [rest] is what is left, [fragment] counts. *)
Fixpoint send_fragments (fuel : nat) (code : Z) (skip : bool) (maxLength fragment : Z) (rest : list Z) :
    M (fpSender * wStream) unit :=
  match fuel with
  | O => crash Diverges
  | S f =>
      if (0 <? zlen rest) || (fragment =? 0) then
        SrcSize ← send_fragment code skip maxLength fragment rest;
        send_fragments f code skip maxLength (fragment + 1) (zdrop SrcSize rest)
      else mret tt
  end.

(** [data] is what was written to the stream of the caller. *)
Definition fastpath_send_update_pdu (code : Z) (data : list Z) (skipCompression : bool) :
    M (fpSender * wStream) unit :=
  let maxLength := FASTPATH_MAX_PACKET_SIZE - 20 in
  maxLength ← (if CompressionEnabled settings && negb skipCompression then
                 CompressionMaxSize ← on_bulk (bulk_compression_max_size (CompressionLevel settings));
                 mret (u16 ((if maxLength <? CompressionMaxSize then maxLength else CompressionMaxSize) - 20))
               else mret maxLength);
  if negb (FastPathOutput settings) then failure
  else if MultifragMaxRequestSize settings <? zlen data then failure
  else send_fragments (S (S (length data))) code skipCompression maxLength 0 data.
End Output.

(** ** Updates, at the client *)

Record rdpFastPath := mkFastPath {
  fs : wStream;
  encryptionFlags : Z;
  numberEvents : Z;
  updateData : wStream;
  fp_fragmentation : Z
}.

Definition set_header (e n : Z) (fp : rdpFastPath) : rdpFastPath :=
  mkFastPath (fs fp) e n (updateData fp) (fp_fragmentation fp).
Definition set_numberEvents (n : Z) (fp : rdpFastPath) : rdpFastPath :=
  mkFastPath (fs fp) (encryptionFlags fp) n (updateData fp) (fp_fragmentation fp).
Definition set_updateData (s : wStream) (fp : rdpFastPath) : rdpFastPath :=
  mkFastPath (fs fp) (encryptionFlags fp) (numberEvents fp) s (fp_fragmentation fp).
Definition set_fragmentation (f : Z) (fp : rdpFastPath) : rdpFastPath :=
  mkFastPath (fs fp) (encryptionFlags fp) (numberEvents fp) (updateData fp) f.

(** [ok] tells whether the record can be allocated; [junk] and [junk'] are what fresh memory
    contains. *)
Definition fastpath_new `{Alloc} (junk junk' : list Z) (ok : bool) : option rdpFastPath :=
  if negb ok then None
  else
    out ← Stream_New None junk FASTPATH_MAX_PACKET_SIZE;
    data ← Stream_New None junk' FASTPATH_MAX_PACKET_SIZE;
    Some (mkFastPath out 0 0 data (-1)).

(** [*length]: what is left of the packet. *)
Definition fastpath_read_header_rdp : M (rdpFastPath * wStream) Z :=
  on_stream (Stream_CheckAndLogRequiredLength 1);;
  header ← on_stream Stream_Read_UINT8;
  set_module (set_header (Z.shiftr (Z.land header 0xC0) 6) (Z.shiftr (Z.land header 0x3C) 2));;
  length ← on_stream per_read_length;
  pos ← on_stream Stream_GetPosition;
  if length <? pos then failure else mret (length - u16 pos).

(** *** Decryption *)

Section Decryption.
Context `{Security} (EncryptionMethods : Z).

(** A cipher on the [n] bytes at the stream pointer, in place. *)
Definition in_place (f : list Z -> M keys (list Z)) (n : Z) : M (keys * wStream) unit :=
  d ← on_stream (load n);
  d' ← on_field id (fun k _ => k) (f d);
  modify (fun x => (x.1, store_at (pointer x.2) d' x.2)).

(** A digest of the [n] bytes at the stream pointer. *)
Definition over {A} (f : list Z -> M keys A) (n : Z) : M (keys * wStream) A :=
  d ← on_stream (load n);
  on_field id (fun k _ => k) (f d).

(** The part of [rdp_decrypt] for FIPS: length, version, padding and signature in front. *)
Definition decrypt_fips (length : Z) : M (keys * wStream) Z :=
  on_stream (Stream_CheckAndLogRequiredLength 12);;
  on_stream Stream_Read_UINT16;;
  on_stream Stream_Read_UINT8;;
  pad ← on_stream Stream_Read_UINT8;
  sig ← on_stream (load 8);
  on_stream (Stream_Seek 8);;
  let length := length - 12 in
  let padLength := length - pad in
  if (length <=? 0) || (padLength <=? 0) || (UINT16_MAX <? padLength) then failure
  else
    in_place security_fips_decrypt length;;
    over (fun d => security_fips_check_signature d sig) padLength;;
    l ← on_stream Stream_Length;
    attempt (on_stream (Stream_SetLength (usize (l - pad))));;
    mret (u16 padLength).

(** The length of the packet without signature and padding.  A wrong signature is only logged,
    except for FIPS.  The lock is left out. *)
Definition rdp_decrypt (length securityFlags : Z) : M (keys * wStream) Z :=
  if EncryptionMethods =? ENCRYPTION_METHOD_NONE then mret length
  else if EncryptionMethods =? ENCRYPTION_METHOD_FIPS then decrypt_fips length
  else
    on_stream (Stream_CheckAndLogRequiredLength 8);;
    on_stream (Stream_Read 8);;
    let length := length - 8 in
    if length <=? 0 then failure
    else
      in_place security_decrypt length;;
      (if has securityFlags SEC_SECURE_CHECKSUM
       then over (fun d => security_salted_mac_signature d false) length
       else over security_mac_signature length);;
      mret (u16 length).

(** [*length] again. *)
Definition fastpath_decrypt (length : Z) : M (rdpFastPath * keys * wStream) Z :=
  x ← get_module;
  let e := encryptionFlags x.1 in
  if has e FASTPATH_OUTPUT_ENCRYPTED then
    let flags := if has e FASTPATH_OUTPUT_SECURE_CHECKSUM then SEC_SECURE_CHECKSUM else 0 in
    on_both snd (fun k x => (x.1, k)) (rdp_decrypt length flags)
  else mret length.
End Decryption.

Definition fastpath_read_update_header : M wStream (Z * Z * Z) :=
  Stream_CheckAndLogRequiredLength 1;;
  updateHeader ← Stream_Read_UINT8;
  mret (Z.land updateHeader 0x0F, Z.land (Z.shiftr updateHeader 4) 0x03,
        Z.land (Z.shiftr updateHeader 6) 0x03).

Definition fastpath_recv_update_synchronize : M wStream unit :=
  n ← Stream_GetRemainingLength;
  Stream_SafeSeek (if 2 <? n then 2 else n).

(** The readers of updates with the callbacks of the client; [Fail] is [FALSE].  A surface
    command gives a status. *)
Class Updates := {
  upd : Type;
  update_begin_paint : M upd unit;
  update_end_paint : M upd unit;
  update_recv_order : M (upd * wStream) unit;
  bitmap_update : M (upd * wStream) unit;
  palette_update : M (upd * wStream) unit;
  Synchronize : M (upd * wStream) unit;
  update_recv_surfcmds : M (upd * wStream) Z;
  PointerSystem : Z -> M (upd * wStream) unit;
  pointer_position : M (upd * wStream) unit;
  pointer_color : M (upd * wStream) unit;
  pointer_cached : M (upd * wStream) unit;
  pointer_new : M (upd * wStream) unit;
  pointer_large : M (upd * wStream) unit
}.

Section Receiver.
Context `{Crush} `{Security} `{Updates} `{Alloc}.
Context (outside : Z -> Z) (settings : fpSettings).

Fixpoint recv_orders (n : nat) : M (upd * wStream) unit :=
  match n with O => mret tt | S n => update_recv_order;; recv_orders n end.

Definition fastpath_recv_orders : M (upd * wStream) unit :=
  on_stream (Stream_CheckAndLogRequiredLength 2);;
  numberOrders ← on_stream Stream_Read_UINT16;
  recv_orders (Z.to_nat numberOrders).

Definition fastpath_recv_update_common : M (upd * wStream) unit :=
  on_stream (Stream_CheckAndLogRequiredLength 2);;
  updateType ← on_stream Stream_Read_UINT16;
  if updateType =? UPDATE_TYPE_BITMAP then bitmap_update
  else if updateType =? UPDATE_TYPE_PALETTE then palette_update
  else failure.

(** The switch of [fastpath_recv_update]. *)
Definition update_case (code : Z) : M (upd * wStream) Z :=
  let rc (m : M (upd * wStream) unit) := m;; mret 0 in
  if code =? FASTPATH_UPDATETYPE_ORDERS then rc fastpath_recv_orders
  else if (code =? FASTPATH_UPDATETYPE_BITMAP) || (code =? FASTPATH_UPDATETYPE_PALETTE)
  then rc fastpath_recv_update_common
  else if code =? FASTPATH_UPDATETYPE_SYNCHRONIZE
  then rc (on_stream fastpath_recv_update_synchronize;; Synchronize)
  else if code =? FASTPATH_UPDATETYPE_SURFCMDS
  then status ← update_recv_surfcmds; if status <? 0 then failure else mret status
  else if code =? FASTPATH_UPDATETYPE_PTR_NULL then rc (PointerSystem SYSPTR_NULL)
  else if code =? FASTPATH_UPDATETYPE_PTR_DEFAULT then rc (PointerSystem SYSPTR_DEFAULT)
  else if code =? FASTPATH_UPDATETYPE_PTR_POSITION then rc pointer_position
  else if code =? FASTPATH_UPDATETYPE_COLOR then rc pointer_color
  else if code =? FASTPATH_UPDATETYPE_CACHED then rc pointer_cached
  else if code =? FASTPATH_UPDATETYPE_POINTER then rc pointer_new
  else if code =? FASTPATH_UPDATETYPE_LARGE_POINTER then rc pointer_large
  else failure.

Definition fastpath_recv_update (code : Z) : M (upd * wStream) Z :=
  on_stream Stream_SealLength;;
  on_stream (go_to 0);;
  r ← attempt (update_case code);
  on_stream (go_to 0);;
  match r with Some status => mret status | None => failure end.

(** The parts of [rdpRdp] that receiving changes; the packet is the other half of the state. *)
Record fpReceiver := mkReceiver {
  rcv_fastpath : rdpFastPath;
  rcv_bulk : rdpBulk;
  rcv_keys : keys;
  rcv_upd : upd;
  bandwidthMeasureStarted : bool;
  bandwidthMeasureByteCount : Z
}.

Definition set_fastpath (fp : rdpFastPath) (x : fpReceiver) : fpReceiver :=
  mkReceiver fp (rcv_bulk x) (rcv_keys x) (rcv_upd x) (bandwidthMeasureStarted x) (bandwidthMeasureByteCount x).
Definition set_rcv_bulk (b : rdpBulk) (x : fpReceiver) : fpReceiver :=
  mkReceiver (rcv_fastpath x) b (rcv_keys x) (rcv_upd x) (bandwidthMeasureStarted x) (bandwidthMeasureByteCount x).
Definition set_keys (k : keys) (x : fpReceiver) : fpReceiver :=
  mkReceiver (rcv_fastpath x) (rcv_bulk x) k (rcv_upd x) (bandwidthMeasureStarted x) (bandwidthMeasureByteCount x).
Definition set_upd (u : upd) (x : fpReceiver) : fpReceiver :=
  mkReceiver (rcv_fastpath x) (rcv_bulk x) (rcv_keys x) u (bandwidthMeasureStarted x) (bandwidthMeasureByteCount x).
Definition count_bandwidth (n : Z) (x : fpReceiver) : fpReceiver :=
  if bandwidthMeasureStarted x
  then mkReceiver (rcv_fastpath x) (rcv_bulk x) (rcv_keys x) (rcv_upd x) true
         (u32 (bandwidthMeasureByteCount x + n))
  else x.

(** Runs on the update data next to the client. *)
Definition on_update {A} (m : M (upd * wStream) A) : M (fpReceiver * wStream) A :=
  on_field (fun x => (rcv_upd x, updateData (rcv_fastpath x)))
    (fun c x => set_upd c.1 (set_fastpath (set_updateData c.2 (rcv_fastpath x)) x)) m.
Definition on_data {A} (m : M wStream A) : M (fpReceiver * wStream) A := on_update (on_stream m).
Definition on_painter (m : M upd unit) : M (fpReceiver * wStream) unit := on_field rcv_upd set_upd m.

(** The test of the fragment against the fragments before it, and its effect. *)
Definition take_fragment (code frag : Z) : M (fpReceiver * wStream) Z :=
  x ← get_module;
  let before := fp_fragmentation (rcv_fastpath x) in
  let set f := set_module (fun x => set_fastpath (set_fragmentation f (rcv_fastpath x)) x) in
  let going := (before =? FASTPATH_FRAGMENT_FIRST) || (before =? FASTPATH_FRAGMENT_NEXT) in
  if frag =? FASTPATH_FRAGMENT_SINGLE then
    if negb (before =? -1) then failure else on_update (fastpath_recv_update code)
  else
    totalSize ← on_data Stream_GetPosition;
    if MultifragMaxRequestSize settings <? totalSize then failure
    else if frag =? FASTPATH_FRAGMENT_FIRST then
      if negb (before =? -1) then failure else set FASTPATH_FRAGMENT_FIRST;; mret 0
    else if frag =? FASTPATH_FRAGMENT_NEXT then
      if negb going then failure else set FASTPATH_FRAGMENT_NEXT;; mret 0
    else if frag =? FASTPATH_FRAGMENT_LAST then
      if negb going then failure else set (-1);; on_update (fastpath_recv_update code)
    else mret 0.

Definition fastpath_recv_update_data : M (fpReceiver * wStream) Z :=
  '(code, frag, comp) ← on_stream fastpath_read_update_header;
  cflags ← (if comp =? FASTPATH_OUTPUT_COMPRESSION_USED
            then on_stream (Stream_CheckAndLogRequiredLength 1);; on_stream Stream_Read_UINT8
            else mret 0);
  on_stream (Stream_CheckAndLogRequiredLength 2);;
  n ← on_stream Stream_Read_UINT16;
  on_stream (Stream_CheckAndLogRequiredLength n);;
  src ← on_stream (load n);
  r ← attempt (on_field rcv_bulk set_rcv_bulk (bulk_decompress outside (CompressionLevel settings) src cflags));
  on_stream (Stream_Seek n);;
  match r with
  | Some (status, dst) =>
      if status <? 0 then failure
      else
        on_data (Stream_EnsureRemainingCapacity (zlen dst));;
        on_data (Stream_Write dst);;
        take_fragment code frag
  | None => failure
  end.

Fixpoint recv_updates_loop (fuel : nat) : M (fpReceiver * wStream) unit :=
  match fuel with
  | O => crash Diverges
  | S f =>
      r ← on_stream Stream_GetRemainingLength;
      if 3 <=? r then fastpath_recv_update_data;; recv_updates_loop f else mret tt
  end.

(** Every turn reads three bytes at least.  The painting is ended also after a failure. *)
Definition fastpath_recv_updates : M (fpReceiver * wStream) unit :=
  r ← on_stream Stream_GetRemainingLength;
  rc ← attempt (on_painter update_begin_paint;; recv_updates_loop (S (Z.to_nat r)));
  on_painter update_end_paint;;
  match rc with Some _ => mret tt | None => failure end.

Definition rdp_recv_fastpath_pdu : M (fpReceiver * wStream) unit :=
  length ← on_both rcv_fastpath set_fastpath fastpath_read_header_rdp;
  if length =? 0 then failure
  else
    on_stream (Stream_CheckAndLogRequiredLength length);;
    set_module (count_bandwidth length);;
    on_both (fun x => (rcv_fastpath x, rcv_keys x)) (fun c x => set_keys c.2 (set_fastpath c.1 x))
      (fastpath_decrypt (fpEncryptionMethods settings) length);;
    fastpath_recv_updates.
End Receiver.
