(* ===== verification/FastPathDelivery.v ===== *)
(** * Delivery of updates over the fast path

    The packets that [fastpath_send_update_pdu] hands to the transport, when the connection does
    not encrypt, make [rdp_recv_fastpath_pdu] hand every update to its reader once, whole and in
    order: the fragments, the compression and the headers undo each other. *)

From S2P Require Import Prelude Mppc MppcRoundtrip Bulk Stream Per Tpkt Packet FastPath.

(** ** The format of a packet *)

Definition update_header_byte (comp frag code : Z) : Z :=
  u8 (Z.lor (Z.lor (Z.land code 0x0F) (Z.shiftl (Z.land frag 0x03) 4)) (Z.shiftl (Z.land comp 0x03) 6)).

Definition update_bytes (comp cflags frag code : Z) (data : list Z) : list Z :=
  update_header_byte comp frag code ::
    (if comp =? 0 then [] else [cflags]) ++ winpr_Data_Write_UINT16 (zlen data) ++ data.

Definition packet_length (body : list Z) : Z := 3 + zlen body.

Definition fp_packet (body : list Z) : list Z :=
  0 :: Z.lor 0x80 (Z.shiftr (packet_length body) 8) :: Z.land (packet_length body) 0xFF :: body.

Lemma zlen_update_bytes comp cflags frag code data :
  zlen (update_bytes comp cflags frag code data) = (if comp =? 0 then 3 else 4) + zlen data.
Proof.
  unfold update_bytes. rewrite zlen_cons, !zlen_app, zlen_Write_UINT16. destruct (comp =? 0); rewrite ?zlen_cons, zlen_nil; lia.
Qed.

Lemma header_byte_ok comp frag code : is_byte (update_header_byte comp frag code).
Proof. apply is_byte_mod. Qed.

(** The three fields of the header byte can be read back. *)
Lemma header_byte_fields comp frag code :
  0 <= comp < 4 -> 0 <= frag < 4 -> 0 <= code < 16 ->
  let b := update_header_byte comp frag code in
  (Z.land b 0x0F, Z.land (Z.shiftr b 4) 0x03, Z.land (Z.shiftr b 6) 0x03) = (code, frag, comp).
Proof.
  intros Hm Hf Hc b. subst b.
  pose proof (zrange_forall 4 (fun m => zforall_from 4 0 (fun f => zforall_from 16 0 (fun c =>
      let b := update_header_byte m f c in
      (Z.land b 0x0F =? c) && (Z.land (Z.shiftr b 4) 0x03 =? f) && (Z.land (Z.shiftr b 6) 0x03 =? m))))
      ltac:(reflexivity) comp Hm) as F.
  cbn beta in F. apply (zforall_from_spec _ _ _) with (y := frag) in F; [|lia].
  apply (zforall_from_spec _ _ _) with (y := code) in F; [|lia].
  cbn beta zeta in F. apply andb_prop in F as [F F3]. apply andb_prop in F as [F1 F2].
  apply Z.eqb_eq in F1, F2, F3. by rewrite F1, F2, F3.
Qed.

Lemma bytes_update comp cflags frag code data :
  is_byte cflags -> bytes data -> bytes (update_bytes comp cflags frag code data).
Proof.
  intros Hf Hd. apply Forall_cons_2; [apply header_byte_ok|]. apply Forall_app_2.
  - destruct (comp =? 0); [apply Forall_nil_2|]. by apply Forall_cons_2; [|apply Forall_nil_2].
  - apply Forall_app_2; [apply bytes_Write_UINT16|done].
Qed.

Lemma length_byte n : 0 <= n < 16384 -> Z.lor 0x80 (Z.shiftr n 8) = 128 + n / 256.
Proof.
  intros Hn. rewrite shiftr_div by lia. change (2 ^ 8) with 256.
  assert (0 <= n / 256 < 64) as Hq by (split; [apply Z.div_pos; lia|apply Z.div_lt_upper_bound; lia]).
  apply (lor_shift_add 1 (n / 256) 7); lia.
Qed.

Lemma bytes_packet body : bytes body -> zlen body < 16381 -> bytes (fp_packet body).
Proof.
  intros Hb Hl. unfold fp_packet. pose proof (zlen_nonneg body). unfold packet_length.
  rewrite length_byte, land_FF by lia. set (n := 3 + zlen body).
  assert (0 <= n < 16384) by (unfold n; lia). clearbody n.
  repeat (apply Forall_cons_2; [word_lia|]). done.
Qed.

(** ** Sending without encryption *)

(** A transport that takes down the packets. *)
#[local] Instance tap : Wire := {| wire := list (list Z); transport_write := fun p w => Ret tt (w ++ [p]) |}.

Lemma on_stream_emits {R A B} (m : M wStream A) bs v (k : A -> M (R * wStream) B) a s :
  emits m bs v -> wf s -> pointer s + zlen bs <= capacity s ->
  (on_stream m ≫= k) (a, s) = k v (a, put bs s).
Proof. intros [_ Hm] Hs Hc. apply on_stream_bind. by apply Hm. Qed.

Lemma go_to_start s : wf s -> go_to 0 s = Ret tt (set_pointer 0 s).
Proof. intros Hs. destruct (Hs). apply go_to_eq. lia. Qed.

Lemma wf_start s : wf s -> wf (set_pointer 0 s).
Proof. intros []. split; simpl; auto; lia. Qed.

Lemma seal_eq s : wf s -> Stream_SealLength s = Ret tt (set_len (pointer s) s).
Proof.
  intros []. unfold Stream_SealLength. rewrite get_bind. rewrite !assert_bind by lia.
  by rewrite (proj2 (Z.leb_le _ _)) by lia.
Qed.

Lemma check_capacity_ok n s :
  wf s -> pointer s + n <= capacity s -> Stream_CheckAndLogRequiredCapacity n s = Ret tt s.
Proof.
  intros Hs Hc. unfold Stream_CheckAndLogRequiredCapacity, Stream_CheckAndLogRequiredCapacityEx.
  rewrite assert_bind by done. rewrite (bind_ret_eq _ _ s _ _ (remaining_capacity_eq s Hs)).
  rewrite Z.div_1_r. unfold guard. by rewrite (proj2 (Z.ltb_ge _ _)) by lia.
Qed.

Lemma emits_update_header comp cflags frag code n :
  is_byte cflags -> is_u16 n ->
  emits (fastpath_write_update_header (mkUpdateHeader cflags n code frag comp))
    (update_header_byte comp frag code :: (if comp =? 0 then [] else [cflags]) ++ winpr_Data_Write_UINT16 n) tt.
Proof.
  intros Hf Hn. unfold fastpath_write_update_header. cbn [compression compressionFlags size updateCode fragmentation].
  apply emits_check_capacity; [rewrite zlen_cons; pose proof (zlen_nonneg ((if comp =? 0 then [] else [cflags]) ++ winpr_Data_Write_UINT16 n)); lia|].
  apply emits_u8; [apply header_byte_ok|]. apply (emits_bind _ _ _ _ tt).
  - destruct (comp =? 0); cbn [negb]; [apply emits_ret|]. apply emits_check_capacity; [by vm_compute|]. by apply writes_u8.
  - apply emits_check_capacity; [by rewrite zlen_Write_UINT16|]. by apply writes_u16.
Qed.

Lemma emits_update_pdu_header settings fi sig n :
  0 <= n < 16384 ->
  emits (fastpath_write_update_pdu_header settings (mkPduHeader fi sig 0 0 n))
    [0; Z.lor 0x80 (Z.shiftr n 8); Z.land n 0xFF] tt.
Proof.
  intros Hn. unfold fastpath_write_update_pdu_header. cbn [action secFlags pdu_length Z.eqb negb].
  apply emits_check_capacity; [by vm_compute|]. apply emits_u8; [done|].
  rewrite length_byte, land_FF by done.
  apply emits_u8; [word_lia|]. apply emits_u8; [word_lia|]. apply emits_ret.
Qed.

Section Sending.
Context `{Crush} `{Security}.
Context (outside outside' : Z -> Z) (output : rdpBulk -> list Z) (settings : fpSettings).
Hypothesis output_room : forall b, 0 < zlen (output b).

#[local] Abbreviation level := (CompressionLevel settings).
Hypothesis level_known : level = 0 \/ level = 1.

(** The kind of the fragment that takes [n] bytes of [l]. *)
Definition kind_of (fragment n : Z) (l : list Z) : Z :=
  if zlen l - n =? 0 then if fragment =? 0 then FASTPATH_FRAGMENT_SINGLE else FASTPATH_FRAGMENT_LAST
  else if fragment =? 0 then FASTPATH_FRAGMENT_FIRST else FASTPATH_FRAGMENT_NEXT.

(** What the receiver needs to know about a fragment that was sent: its format, and that the
    bulk layer gives the data back. *)
Record carries (comp cflags : Z) (data src : list Z) (b : rdpBulk) (b' : rdpBulk) : Prop := mk_carries {
  carries_comp : comp = 0 \/ comp = 2;
  carries_flags : is_byte cflags;
  carries_bytes : bytes data;
  carries_len : zlen data <= zlen src;
  carries_back : exists st, 0 <= st /\
    bulk_decompress outside' level data (if comp =? 2 then cflags else 0) b = Ret (st, src) b'
}.

Lemma decompress_plain src b :
  exists b', bulk_decompress outside' level src 0 b = Ret (0, src) b' /\ mppcRecv b' = mppcRecv b.
Proof.
  destruct (max_size_eq level level_known b) as (b1 & E & _ & _ & _ & Er). exists b1. split; [|done].
  unfold bulk_decompress. by rewrite (bind_ret_eq _ _ _ _ _ E).
Qed.

Lemma compress_fragment_ok skip src a s b :
  bulk_synced level (snd_bulk a) b -> bytes src -> 0 <= zlen src ->
  (CompressionEnabled settings && negb skip = true -> zlen src <= history_size level - 4) ->
  exists comp cflags data a1 b1,
    compress_fragment outside output settings skip src (a, s) =
      Ret (comp, cflags, data) (mkSender a1 (snd_keys a) (snd_wire a), s) /\
    carries comp cflags data src b b1 /\ bulk_synced level a1 b1.
Proof.
  intros Hs Hb Hl Hm. unfold compress_fragment.
  destruct (CompressionEnabled settings && negb skip) eqn:Ec.
  - destruct (bulk_block_ok outside outside' output level output_room level_known src (snd_bulk a) b Hs)
      as (st & data & flags & a1 & st' & b1 & E1 & H1 & E2 & H2 & Hs' & Hlen & Hbd & Hf & Hplain).
    { split; [done|]. intros _. by apply Hm. }
    unfold on_bulk, on_field. unfold mbind at 1, M_bind at 1. cbn [fst snd]. rewrite E1.
    rewrite (proj2 (Z.leb_le _ _)) by done. cbn [andb].
    destruct (flags =? 0) eqn:E0; cbn [negb].
    + apply Z.eqb_eq in E0. subst flags. rewrite (Hplain eq_refl) in *.
      exists 0, 0, src, a1, b1. split; [done|]. split; [|done]. split; [by left|done|done|lia|by exists st'].
    + unfold is_byte in Hf. rewrite assert_bind by (unfold UINT8_MAX; lia).
      exists 2, flags, data, a1, b1. split; [unfold u8; by rewrite Z.mod_small by lia|]. split; [|done].
      split; [by right|done|done|done|by exists st'].
  - destruct (decompress_plain src b) as (b' & Ed & Er).
    exists 0, 0, src, (snd_bulk a), b'. split; [by destruct a|]. split.
    + split; [by left|done|done|lia|by exists 0].
    + unfold bulk_synced. by rewrite Er.
Qed.

(** The writes of a packet and its way to the transport. *)
Lemma send_packet_ok comp cflags frag code data fi sig {B} (k : unit -> M (fpSender * wStream) B) a s :
  let body := update_bytes comp cflags frag code data in
  is_byte cflags -> bytes data -> packet_length body < 16384 -> wf s -> capacity s = FASTPATH_MAX_PACKET_SIZE ->
  (on_stream (go_to 0);;
   on_stream (fastpath_write_update_pdu_header settings (mkPduHeader fi sig 0 0 (packet_length body)));;
   on_stream (fastpath_write_update_header (mkUpdateHeader cflags (zlen data) code frag comp));;
   on_stream (Stream_CheckAndLogRequiredCapacity (zlen data + 0));;
   on_stream (Stream_Write data);;
   mret tt;;
   mret tt;;
   on_stream Stream_SealLength;;
   x ← get;
   on_wire (transport_write (ztake (len x.2) (buffer x.2))) ≫= k) (a, s) =
  k tt (mkSender (snd_bulk a) (snd_keys a) (snd_wire a ++ [fp_packet body]),
        set_len (packet_length body) (put (fp_packet body) (set_pointer 0 s))).
Proof.
  intros body Hf Hd Hlen Hw Hcap. pose proof (wf_start s Hw) as Hw0. destruct (Hw).
  pose proof (zlen_nonneg data). pose proof (zlen_nonneg body) as Hbp. unfold FASTPATH_MAX_PACKET_SIZE in Hcap.
  assert (Hbody : zlen body = (if comp =? 0 then 3 else 4) + zlen data) by apply zlen_update_bytes.
  unfold packet_length in Hlen |- *.
  pose proof (emits_update_pdu_header settings fi sig (3 + zlen body) ltac:(lia)) as E1.
  pose proof (emits_update_header comp cflags frag code (zlen data) Hf ltac:(unfold is_u16; destruct (comp =? 0); lia)) as E2.
  set (h1 := [0; _; _]) in E1. set (h2 := update_header_byte comp frag code :: _) in E2.
  assert (Ep : fp_packet body = h1 ++ h2 ++ data).
  { unfold h1, h2, fp_packet, packet_length. cbn [app]. do 3 f_equal. unfold body, update_bytes. cbn [app]. by rewrite app_assoc. }
  assert (Hh2 : zlen h2 + zlen data = zlen body). { apply (f_equal zlen) in Ep. unfold fp_packet in Ep. rewrite !zlen_cons, !zlen_app in Ep. change (zlen h1) with 3 in Ep. lia. }
  assert (Hh1 : zlen h1 = 3) by reflexivity. pose proof (zlen_nonneg h2). destruct (E1) as [B1 _], (E2) as [B2 _]. clearbody h1 h2.
  rewrite (on_stream_bind _ _ _ _ _ _ (go_to_start s Hw)).
  rewrite (on_stream_emits _ _ _ _ _ _ E1) by (done || (simpl; lia)).
  assert (Hw1 : wf (put h1 (set_pointer 0 s))) by (apply wf_put; [done|done|simpl; lia]).
  rewrite (on_stream_emits _ _ _ _ _ _ E2) by (done || (simpl; lia)).
  rewrite put_app by (done || (simpl; lia)).
  assert (Hw2 : wf (put (h1 ++ h2) (set_pointer 0 s))) by (apply wf_put; [done|by apply Forall_app_2|simpl; rewrite zlen_app; lia]).
  rewrite (on_stream_bind _ _ _ _ tt _) by (apply check_capacity_ok; [done|simpl; rewrite zlen_app; lia]).
  rewrite (on_stream_emits _ _ tt _ _ _ (writes_bytes data Hd)) by (done || (simpl; rewrite zlen_app; lia)).
  rewrite put_app by (done || (simpl; rewrite zlen_app; lia) || by apply Forall_app_2).
  rewrite <- app_assoc, <- Ep. rewrite !ret_bind.
  assert (Hzp : zlen (fp_packet body) = 3 + zlen body) by (unfold fp_packet; rewrite !zlen_cons; lia).
  assert (Hbp' : bytes (fp_packet body)) by (rewrite Ep; repeat apply Forall_app_2; done).
  pose proof (appended_put (fp_packet body) (set_pointer 0 s) Hw0 Hbp' ltac:(simpl; lia)) as (Hw3 & Hwr & Hp3).
  rewrite (on_stream_bind _ _ _ _ _ _ (seal_eq _ Hw3)), get_bind.
  rewrite Hp3. simpl (pointer (set_pointer 0 s)). rewrite Z.add_0_l, Hzp.
  unfold written in Hwr. rewrite Hp3 in Hwr. simpl (pointer (set_pointer 0 s)) in Hwr. rewrite Z.add_0_l, Hzp, ztake_0 in Hwr. cbn [app] in Hwr.
  unfold mbind at 1, M_bind at 1, on_wire, on_field. cbn [fst snd len set_len transport_write tap buffer]. by rewrite Hwr.
Qed.

(** One fragment, as it goes out. *)
Lemma send_fragment_ok code skip maxLength fragment l a s b :
  let n := Z.min maxLength (zlen l) in
  bulk_synced level (snd_bulk a) b -> bytes l -> 0 < maxLength <= 16363 -> wf s -> capacity s = FASTPATH_MAX_PACKET_SIZE ->
  (CompressionEnabled settings && negb skip = true -> maxLength <= history_size level - 4) ->
  exists comp cflags data a1 b1 s1,
    let packet := fp_packet (update_bytes comp cflags (kind_of fragment n l) code data) in
    send_fragment outside output settings false false code skip maxLength fragment l (a, s) =
      Ret n (mkSender a1 (snd_keys a) (snd_wire a ++ [packet]), s1) /\
    carries comp cflags data (ztake n l) b b1 /\ bulk_synced level a1 b1 /\
    wf s1 /\ capacity s1 = FASTPATH_MAX_PACKET_SIZE.
Proof.
  intros n Hs Hb Hm Hw Hcap Hh. pose proof (zlen_nonneg l). unfold send_fragment.
  assert (En : (if maxLength <? zlen l then maxLength else u16 (zlen l)) = n).
  { unfold n, u16. zcase; [lia|]. rewrite Z.mod_small; lia. }
  rewrite En. assert (Hn : 0 <= n <= zlen l) by (unfold n; lia). assert (Hn' : n <= maxLength) by (unfold n; lia). clearbody n.
  destruct (compress_fragment_ok skip (ztake n l) a s b Hs) as (comp & cflags & data & a1 & b1 & E & Hc & Hs').
  { by apply Forall_ztake. } { rewrite zlen_ztake; lia. } { intros Ec. specialize (Hh Ec). rewrite zlen_ztake; lia. }
  rewrite (bind_ret_eq _ _ _ _ _ E). destruct (Hc) as [Hcomp Hf Hbd Hld _]. rewrite zlen_ztake in Hld by lia.
  pose proof (zlen_nonneg data). cbn [andb negb]. rewrite (proj2 (Z.ltb_ge _ _)) by (unfold UINT16_MAX; lia).
  fold (kind_of fragment n l). set (frag := kind_of fragment n l). set (body := update_bytes comp cflags frag code data).
  assert (Hbody : zlen body = (if comp =? 0 then 3 else 4) + zlen data) by apply zlen_update_bytes.
  assert (Etot : zlen data + (fastpath_get_update_header_size (mkUpdateHeader cflags (zlen data) code frag comp) + 3) + 0 = packet_length body).
  { unfold packet_length. rewrite Hbody. unfold fastpath_get_update_header_size. cbn [compression]. destruct (comp =? 0); cbn [negb]; lia. }
  assert (Hlen : packet_length body < 16384) by (unfold packet_length; rewrite Hbody; destruct (comp =? 0); lia).
  assert (Hpos : 0 <= packet_length body) by (unfold packet_length; pose proof (zlen_nonneg body); lia).
  change (fastpath_get_update_pdu_header_size settings _) with 3. rewrite Etot. clear Etot.
  rewrite (proj2 (Z.ltb_ge _ _)) by (unfold UINT16_MAX; lia).
  exists comp, cflags, data, a1, b1, (set_len (packet_length body) (put (fp_packet body) (set_pointer 0 s))).
  split; [|split; [done|split; [done|]]].
  - rewrite (send_packet_ok comp cflags frag code data _ _ (fun _ => mret n) _ s Hf Hbd Hlen Hw Hcap). done.
  - split; [|done]. assert (wf (put (fp_packet body) (set_pointer 0 s))) as [].
    { apply wf_put; [by apply wf_start|by apply bytes_packet; [apply bytes_update|unfold packet_length in Hlen; lia]|].
      cbn [capacity pointer set_pointer]. rewrite Hcap. unfold fp_packet, packet_length, FASTPATH_MAX_PACKET_SIZE in *. rewrite !zlen_cons. lia. }
    unfold FASTPATH_MAX_PACKET_SIZE in Hcap. split; simpl in *; auto; lia.
Qed.
End Sending.

(** ** Receiving *)

(** What the client promises: the painting may begin and end, and the updates that [fit] are read
    from a stream that has exactly their data; [shown] tells which updates were read. *)
Class Viewer `{Updates} (shown : list (Z * list Z) -> upd -> Prop) (fit : Z -> list Z -> Prop) := {
  begin_shown : forall l u, shown l u -> exists u', update_begin_paint u = Ret tt u' /\ shown l u';
  end_shown : forall l u, shown l u -> exists u', update_end_paint u = Ret tt u' /\ shown l u';
  update_shown : forall code data l u s,
    shown l u -> fit code data -> readable s -> pointer s = 0 -> rest s = data ->
    exists st u' s', update_case code (u, s) = Ret st (u', s') /\ shown (l ++ [(code, data)]) u' /\
      wf s' /\ capacity s' = capacity s
}.

Lemma on_field_bind {R C A B} (part : R -> C) (put : C -> R -> R) (m : M C A) (k : A -> M (R * wStream) B) x s v c :
  m (part x) = Ret v c -> (on_field part put m ≫= k) (x, s) = k v (put c x, s).
Proof. intros E. unfold on_field, mbind, M_bind. cbn [fst snd]. by rewrite E. Qed.

Lemma parses_two_bytes n : 0 <= n < 16384 -> parses per_read_length [Z.lor 0x80 (Z.shiftr n 8); Z.land n 0xFF] n.
Proof.
  intros Hn. rewrite length_byte, land_FF by done. unfold per_read_length.
  apply parses_check; [by vm_compute|]. apply parses_u8_bind.
  rewrite land_80, (proj2 (Z.ltb_ge _ _)) by word_lia. cbn [negb].
  apply parses_check; [by vm_compute|]. rewrite (land_mask _ 7), Z.shiftl_mul_pow2 by done.
  intros s tl Hs Hr. erewrite bind_ret_eq by (apply asserting_cast_eq; word_lia).
  revert s tl Hs Hr. apply parses_u8_bind.
  replace (u16 _) with n by word_lia. apply parses_ret.
Qed.

Lemma read_header_ok fp h p body :
  p = h :: Z.lor 0x80 (Z.shiftr (packet_length body) 8) :: Z.land (packet_length body) 0xFF :: body -> bytes p -> zlen p < 16384 ->
  fastpath_read_header_rdp (fp, Stream_StaticInit p) =
    Ret (zlen body) (set_header (Z.shiftr (Z.land h 0xC0) 6) (Z.shiftr (Z.land h 0x3C) 2) fp, advance 3 (Stream_StaticInit p)).
Proof.
  intros Ep Hb Hl. pose proof (readable_init p Hb ltac:(lia)) as Hs. pose proof (zlen_nonneg body).
  assert (Hlen : zlen p = 3 + zlen body) by (rewrite Ep; rewrite !zlen_cons; lia).
  assert (Hr : rest (Stream_StaticInit p) = p).
  { unfold rest. simpl. rewrite Z.sub_0_r. unfold slice. rewrite zdrop_0. by apply ztake_all. }
  assert (Hrem : rem (Stream_StaticInit p) = zlen p) by (by rewrite <- zlen_rest, Hr).
  set (s := Stream_StaticInit p) in *. assert (Hp0 : pointer s = 0) by done. clearbody s. unfold fastpath_read_header_rdp.
  rewrite (on_stream_bind _ _ _ _ tt s) by (apply check_length_ok; [done|lia]).
  assert (E1 : Stream_Read_UINT8 s = Ret h (advance 1 s)).
  { apply (parses_u8 h s (zdrop 1 p) Hs). rewrite Hr. by rewrite Ep. }
  rewrite (on_stream_bind _ _ _ _ _ _ E1). unfold set_module. rewrite modify_bind. cbn [fst snd].
  assert (Hs1 : readable (advance 1 s)) by (apply readable_advance; [done|lia]).
  assert (E2 : per_read_length (advance 1 s) = Ret (packet_length body) (advance 3 s)).
  { replace (advance 3 s) with (advance 2 (advance 1 s)) by (by rewrite advance_advance).
    apply (parses_two_bytes (packet_length body) ltac:(unfold packet_length; lia) _ body Hs1).
    rewrite rest_advance, Hr, Ep by (done || lia). reflexivity. }
  rewrite (on_stream_bind _ _ _ _ _ _ E2). unfold packet_length.
  assert (Hs3 : readable (advance 3 s)) by (apply readable_advance; [done|lia]).
  rewrite (on_stream_bind _ _ _ _ _ _ (position_eq _ (proj1 Hs3))), pointer_advance, Hp0.
  rewrite (proj2 (Z.ltb_ge _ _)) by lia. change (u16 (0 + 3)) with 3.
  replace (3 + zlen body - 3) with (zlen body) by lia. reflexivity.
Qed.

Section Receiving.
Context `{Crush} `{Security} `{AllocOk} `{Viewer}.
Context (outside' : Z -> Z) (settings : fpSettings).

(** Between packets: the updates in [l] were shown and [acc] was put together so far. *)
Record holding (l : list (Z * list Z)) (acc : list Z) (frag : Z) (x : fpReceiver) : Prop := mk_holding {
  holding_wf : wf (updateData (rcv_fastpath x));
  holding_acc : written (updateData (rcv_fastpath x)) = acc;
  holding_cap : 0 < capacity (updateData (rcv_fastpath x)) <= 2 ^ 34;
  holding_frag : fp_fragmentation (rcv_fastpath x) = frag;
  holding_shown : shown l (rcv_upd x)
}.

Lemma ensure_room_kept n s :
  wf s -> 0 <= n -> pointer s + n <= capacity s -> Stream_EnsureRemainingCapacity n s = Ret tt s.
Proof.
  intros Hs Hn Hc. destruct (Hs). unfold Stream_EnsureRemainingCapacity.
  rewrite (bind_ret_eq _ _ s _ _ (position_eq s Hs)), (bind_ret_eq Stream_Capacity _ s (capacity s) s) by done.
  unfold usize. rewrite Z.mod_small by lia. by rewrite (proj2 (Z.ltb_ge _ _)) by lia.
Qed.

(** The storage of the update data stays within a bound. *)
Lemma ensure_bounded n s :
  wf s -> 0 < capacity s <= 2 ^ 34 -> 0 <= n -> pointer s + n <= 2 ^ 33 - 65536 -> n < 65536 ->
  exists s', Stream_EnsureRemainingCapacity n s = Ret tt s' /\ appended s [] s' /\
    pointer s' + n <= capacity s' /\ 0 < capacity s' <= 2 ^ 34.
Proof.
  intros Hs Hc Hn Hp Hn'. destruct (Z.le_gt_cases (pointer s + n) (capacity s)) as [Hle|Hgt].
  - exists s. split; [by apply ensure_room_kept|]. split; [by apply appended_refl|done].
  - destruct (ensure_remaining_spec n s Hs) as (s' & E & A & R & C); [lia..|].
    exists s'. split; [done|]. split; [done|]. lia.
Qed.

(** A change of the update data, next to the rest of the receiver. *)
Definition with_data (u : wStream) (x : fpReceiver) : fpReceiver :=
  set_upd (rcv_upd x) (set_fastpath (set_updateData u (rcv_fastpath x)) x).

Lemma on_data_bind {A B} (m : M wStream A) (k : A -> M (fpReceiver * wStream) B) x s v u :
  m (updateData (rcv_fastpath x)) = Ret v u -> (on_data m ≫= k) (x, s) = k v (with_data u x, s).
Proof.
  intros E. unfold on_data, on_update.
  rewrite (on_field_bind _ _ _ _ _ _ v (rcv_upd x, u)); [done|]. unfold on_stream. cbn [fst snd]. by rewrite E.
Qed.

Lemma store_fragment {B} (k : unit -> M (fpReceiver * wStream) B) l acc frag src x s :
  holding l acc frag x -> bytes src -> zlen acc + zlen src <= 2 ^ 33 - 65536 -> zlen src < 65536 ->
  exists x', (on_data (Stream_EnsureRemainingCapacity (zlen src));; on_data (Stream_Write src) ≫= k) (x, s) = k tt (x', s) /\
    holding l (acc ++ src) frag x' /\ rcv_bulk x' = rcv_bulk x /\
    encryptionFlags (rcv_fastpath x') = encryptionFlags (rcv_fastpath x).
Proof.
  intros [Hw Ha Hc Hf Hs] Hb Hl Hl'. pose proof (zlen_nonneg src).
  assert (Hp : pointer (updateData (rcv_fastpath x)) = zlen acc).
  { rewrite <- Ha. unfold written. destruct Hw. rewrite zlen_ztake; lia. }
  destruct (ensure_bounded (zlen src) _ Hw Hc) as (u & E & (Hwu & Hau & _) & Hr & Hcu); [lia..|].
  rewrite (on_data_bind _ _ _ _ _ _ E). destruct (writes_bytes src Hb) as [_ Ew].
  rewrite (on_data_bind _ _ _ _ tt (put src u)) by (apply Ew; done).
  destruct (appended_put src u Hwu Hb Hr) as (Hw2 & Ha2 & _).
  exists (with_data (put src u) (with_data u x)). split; [done|]. split; [|done].
  split; cbn [with_data set_upd set_fastpath set_updateData rcv_fastpath rcv_upd updateData fp_fragmentation]; [done| |done|done|done].
  by rewrite Ha2, Hau, app_nil_r, Ha.
Qed.

Lemma parses_update_header comp frag code :
  0 <= comp < 4 -> 0 <= frag < 4 -> 0 <= code < 16 ->
  parses fastpath_read_update_header [update_header_byte comp frag code] (code, frag, comp).
Proof.
  intros Hm Hf Hc. apply parses_check; [by vm_compute|]. apply parses_u8_bind.
  rewrite <- (header_byte_fields comp frag code) by done. apply parses_ret.
Qed.

Lemma readable_after s bs tl : readable s -> rest s = bs ++ tl ->
  readable (advance (zlen bs) s) /\ rest (advance (zlen bs) s) = tl.
Proof.
  intros Hs Hr. pose proof (rem_parses s bs tl Hs Hr). pose proof (zlen_nonneg bs).
  split; [by apply readable_advance|]. rewrite rest_advance, Hr, zdrop_app_ge by (done || lia). by rewrite Z.sub_diag.
Qed.

Lemma check_bind {R B} n (k : unit -> M (R * wStream) B) (x : R) s :
  readable s -> n <= zlen (rest s) -> (on_stream (Stream_CheckAndLogRequiredLength n) ≫= k) (x, s) = k tt (x, s).
Proof. intros Hs Hn. rewrite zlen_rest in Hn by done. apply on_stream_bind. by apply check_length_ok. Qed.

(** The flags of the compression, when there are any. *)
Lemma read_flags comp cflags x s tl :
  comp = 0 \/ comp = 2 -> readable s -> rest s = (if comp =? 0 then [] else [cflags]) ++ tl ->
  exists s', (if comp =? FASTPATH_OUTPUT_COMPRESSION_USED
     then on_stream (Stream_CheckAndLogRequiredLength 1);; on_stream Stream_Read_UINT8
     else mret 0) (x, s) = Ret (if comp =? 2 then cflags else 0) (x : fpReceiver, s') /\
    readable s' /\ rest s' = tl.
Proof.
  intros [-> | ->] Hs Hr; [by exists s|].
  change (rest s = [cflags] ++ tl) in Hr. destruct (readable_after s _ _ Hs Hr).
  exists (advance (zlen [cflags]) s). split; [|done]. change (2 =? FASTPATH_OUTPUT_COMPRESSION_USED) with true. cbv iota.
  rewrite check_bind by (done || (rewrite Hr; cbn [app]; rewrite zlen_cons; pose proof (zlen_nonneg tl); lia)).
  unfold on_stream. cbn [fst snd]. by rewrite (parses_u8 cflags s tl Hs Hr).
Qed.

Lemma recv_update_data_ok comp cflags frag code data src l acc frag0 b1 st x s :
  holding l acc frag0 x -> comp = 0 \/ comp = 2 -> 0 <= frag < 4 -> 0 <= code < 16 ->
  bytes src -> zlen acc + zlen src <= 2 ^ 33 - 65536 -> zlen src < 65536 -> zlen data < 65536 ->
  bulk_decompress outside' (CompressionLevel settings) data (if comp =? 2 then cflags else 0) (rcv_bulk x) = Ret (st, src) b1 ->
  0 <= st -> readable s -> rest s = update_bytes comp cflags frag code data ->
  exists x' s', fastpath_recv_update_data outside' settings (x, s) = take_fragment settings code frag (x', s') /\
    holding l (acc ++ src) frag0 x' /\ rcv_bulk x' = b1 /\ readable s' /\ rest s' = [].
Proof.
  intros Hh Hc Hf Hcode Hb Hl Hl' Hld Ed Hst Hs Hr. unfold fastpath_recv_update_data.
  assert (Hr' : rest s = [update_header_byte comp frag code] ++ ((if comp =? 0 then [] else [cflags]) ++ winpr_Data_Write_UINT16 (zlen data) ++ data)) by exact Hr.
  destruct (readable_after s _ _ Hs Hr') as [Hs1 Hr1].
  rewrite (on_stream_bind _ _ _ _ _ _ (parses_update_header comp frag code ltac:(lia) Hf Hcode s _ Hs Hr')).
  destruct (read_flags comp cflags x _ _ Hc Hs1 Hr1) as (s2 & E2 & Hs2 & Hr2).
  rewrite (bind_ret_eq _ _ _ _ _ E2). clear E2.
  rewrite check_bind by (done || (rewrite Hr2, zlen_app, zlen_Write_UINT16; pose proof (zlen_nonneg data); lia)).
  pose proof (zlen_nonneg data).
  destruct (readable_after s2 _ _ Hs2 Hr2) as [Hs3 Hr3].
  rewrite (on_stream_bind _ _ _ _ _ _ (parses_u16 (zlen data) ltac:(unfold is_u16; lia) s2 _ Hs2 Hr2)).
  set (s3 := advance _ s2) in *. clearbody s3.
  rewrite check_bind by (done || (rewrite Hr3; lia)).
  assert (Hrem : rem s3 = zlen data) by (by rewrite <- zlen_rest, Hr3).
  rewrite (on_stream_bind _ _ _ _ data s3).
  2: { rewrite load_eq by (done || lia). by rewrite Hr3, ztake_all by lia. }
  rewrite (bind_ret_eq _ _ _ (Some (st, src)) (set_rcv_bulk b1 x, s3)).
  2: { unfold attempt, on_field. cbn [fst snd]. by rewrite Ed. }
  rewrite (on_stream_bind _ _ _ _ _ _ (seek_readable (zlen data) s3 Hs3 ltac:(lia))).
  rewrite (proj2 (Z.ltb_ge _ _)) by lia.
  destruct (store_fragment (fun _ => take_fragment settings code frag) l acc frag0 src (set_rcv_bulk b1 x) (advance (zlen data) s3))
    as (x' & E4 & Hh' & Hbk & _); [by destruct Hh|done..|].
  rewrite E4. exists x', (advance (zlen data) s3). split; [done|]. split; [done|]. split; [done|].
  apply readable_after; [done|by rewrite app_nil_r].
Qed.

(** The update is complete: it is read from a stream that has exactly its data. *)
Lemma recv_update_ok code l acc frag x s :
  holding l acc frag x -> fit code acc ->
  exists st x', on_update (fastpath_recv_update code) (x, s) = Ret st (x', s) /\
    holding (l ++ [(code, acc)]) [] frag x' /\ rcv_bulk x' = rcv_bulk x.
Proof.
  intros [Hw Ha Hc Hf Hs] Hfit. set (u := updateData (rcv_fastpath x)) in *. destruct (Hw).
  assert (Hw1 : wf (set_len (pointer u) u)) by (split; simpl; auto; lia).
  set (u1 := set_pointer 0 (set_len (pointer u) u)).
  assert (Hrd : readable u1) by (split; [by apply wf_start|simpl; lia]).
  assert (Hr : rest u1 = acc).
  { unfold rest, u1. simpl. rewrite Z.sub_0_r, slice_0. exact Ha. }
  destruct (update_shown code acc l (rcv_upd x) u1 Hs Hfit Hrd eq_refl Hr) as (st & v & s' & E & Hs' & Hw' & Hc').
  assert (Eu : fastpath_recv_update code (rcv_upd x, u) = Ret st (v, set_pointer 0 s')).
  { unfold fastpath_recv_update.
    rewrite (on_stream_bind _ _ _ _ _ _ (seal_eq u Hw)), (on_stream_bind _ _ _ _ _ _ (go_to_start _ Hw1)).
    rewrite (bind_ret_eq _ _ _ (Some st) (v, s')) by (unfold attempt; fold u1; by rewrite E).
    by rewrite (on_stream_bind _ _ _ _ _ _ (go_to_start _ Hw')). }
  eexists st, _. unfold on_update, on_field. cbn [fst snd]. fold u. rewrite Eu. split; [reflexivity|]. split; [|done].
  split; cbn [set_upd set_fastpath set_updateData rcv_fastpath rcv_upd updateData fp_fragmentation fst snd]; [by apply wf_start|reflexivity| |done|done].
  cbn [capacity set_pointer]. rewrite Hc'. exact Hc.
Qed.

Lemma data_position l acc frag x {B} (k : Z -> M (fpReceiver * wStream) B) s :
  holding l acc frag x ->
  exists x', (on_data Stream_GetPosition ≫= k) (x, s) = k (zlen acc) (x', s) /\ holding l acc frag x' /\ rcv_bulk x' = rcv_bulk x.
Proof.
  intros Hh. destruct (Hh) as [Hw Ha _ _ _]. rewrite (on_data_bind _ _ _ _ _ _ (position_eq _ Hw)).
  assert (Hp : pointer (updateData (rcv_fastpath x)) = zlen acc).
  { rewrite <- Ha. unfold written. destruct Hw. rewrite zlen_ztake; lia. }
  rewrite Hp. eexists. split; [reflexivity|]. split; [|done]. by destruct Hh, x as [[]].
Qed.

(** A fragment that does not complete the update. *)
Lemma take_more code first l acc frag x s :
  holding l acc frag x -> zlen acc <= MultifragMaxRequestSize settings ->
  (if first : bool then frag = -1 else frag = FASTPATH_FRAGMENT_FIRST \/ frag = FASTPATH_FRAGMENT_NEXT) ->
  let kind := if first then FASTPATH_FRAGMENT_FIRST else FASTPATH_FRAGMENT_NEXT in
  exists x', take_fragment settings code kind (x, s) = Ret 0 (x', s) /\ holding l acc kind x' /\ rcv_bulk x' = rcv_bulk x.
Proof.
  intros Hh Hm Hf kind. unfold take_fragment. unfold get_module. rewrite bind_assoc, get_bind, ret_bind. cbn [fst].
  destruct (Hh) as [_ _ _ Ef _]. rewrite Ef.
  replace (kind =? FASTPATH_FRAGMENT_SINGLE) with false by (by destruct first).
  match goal with |- context [on_data Stream_GetPosition ≫= ?k] =>
    destruct (data_position l acc frag x k s Hh) as (x1 & E & Hh1 & Hb1) end.
  rewrite E, (proj2 (Z.ltb_ge _ _)) by done. destruct Hh1.
  exists (set_fastpath (set_fragmentation kind (rcv_fastpath x1)) x1).
  split; [|split; [by split|done]].
  destruct first; [subst frag; done|]. by destruct Hf as [-> | ->].
Qed.

(** A fragment that completes it. *)
Lemma take_end code single l acc frag x s :
  holding l acc frag x -> fit code acc ->
  (if single : bool then frag = -1 else (frag = FASTPATH_FRAGMENT_FIRST \/ frag = FASTPATH_FRAGMENT_NEXT) /\
     zlen acc <= MultifragMaxRequestSize settings) ->
  let kind := if single then FASTPATH_FRAGMENT_SINGLE else FASTPATH_FRAGMENT_LAST in
  exists st x', take_fragment settings code kind (x, s) = Ret st (x', s) /\
    holding (l ++ [(code, acc)]) [] (-1) x' /\ rcv_bulk x' = rcv_bulk x.
Proof.
  intros Hh Hfit Hf kind. unfold take_fragment. unfold get_module. rewrite bind_assoc, get_bind, ret_bind. cbn [fst].
  destruct (Hh) as [_ _ _ Ef _]. rewrite Ef. destruct single; subst kind; cbv iota.
  { subst frag. destruct (recv_update_ok code l acc (-1) x s Hh Hfit) as (st & x' & E & Hh' & Hb'). exists st, x'. split; [exact E|done]. }
  destruct Hf as [Hf Hm].
  match goal with |- context [on_data Stream_GetPosition ≫= ?k] =>
    destruct (data_position l acc frag x k s Hh) as (x1 & E & Hh1 & Hb1) end.
  change (FASTPATH_FRAGMENT_LAST =? FASTPATH_FRAGMENT_SINGLE) with false. cbv iota.
  rewrite E, (proj2 (Z.ltb_ge _ _)) by done.
  assert (Hh2 : holding l acc (-1) (set_fastpath (set_fragmentation (-1) (rcv_fastpath x1)) x1)) by (destruct Hh1; by split).
  destruct (recv_update_ok code l acc (-1) _ s Hh2 Hfit) as (st & x' & E' & Hh' & Hb').
  exists st, x'. split; [|split; [done|by rewrite Hb', <- Hb1]].
  assert (Eg : negb ((frag =? FASTPATH_FRAGMENT_FIRST) || (frag =? FASTPATH_FRAGMENT_NEXT)) = false) by (by destruct Hf as [-> | ->]).
  rewrite Eg. exact E'.
Qed.

Lemma painter_ok (m : M upd unit) l acc frag x {B} (k : unit -> M (fpReceiver * wStream) B) s :
  (forall u, shown l u -> exists u', m u = Ret tt u' /\ shown l u') -> holding l acc frag x ->
  exists x', (on_painter m ≫= k) (x, s) = k tt (x', s) /\ holding l acc frag x' /\ rcv_bulk x' = rcv_bulk x.
Proof.
  intros Hm [Hw Ha Hc Hf Hs]. destruct (Hm _ Hs) as (u' & E & Hs').
  exists (set_upd u' x). split; [|by split]. by apply on_field_bind.
Qed.

Section Packet.
Context (comp cflags frag code : Z) (data src : list Z) (l l' : list (Z * list Z)) (acc acc' : list Z) (frag0 frag' st : Z).
Context (x : fpReceiver) (b1 : rdpBulk).
Hypothesis comp_known : comp = 0 \/ comp = 2.
Hypothesis frag_range : 0 <= frag < 4.
Hypothesis code_range : 0 <= code < 16.
Hypothesis src_ok : bytes src /\ zlen acc + zlen src <= 2 ^ 33 - 65536 /\ zlen src < 65536.
Hypothesis data_ok : bytes data /\ is_byte cflags /\ zlen data < 16370.
Hypothesis back : bulk_decompress outside' (CompressionLevel settings) data (if comp =? 2 then cflags else 0) (rcv_bulk x) = Ret (st, src) b1.
Hypothesis status_ok : 0 <= st.
(** what the last step makes of the fragment *)
Hypothesis taken : forall y s, holding l (acc ++ src) frag0 y ->
  exists st y', take_fragment settings code frag (y, s) = Ret st (y', s) /\ holding l' acc' frag' y' /\ rcv_bulk y' = rcv_bulk y.

#[local] Abbreviation body := (update_bytes comp cflags frag code data).

Lemma recv_updates_ok y s :
  holding l acc frag0 y -> rcv_bulk y = rcv_bulk x -> readable s -> rest s = body ->
  exists y' s', fastpath_recv_updates outside' settings (y, s) = Ret tt (y', s') /\ holding l' acc' frag' y' /\ rcv_bulk y' = b1.
Proof.
  intros Hy Hb Hs Hr. unfold fastpath_recv_updates. rewrite (on_stream_bind _ _ _ _ _ _ (remaining_length_eq s Hs)).
  assert (Hrem : 3 <= rem s).
  { rewrite <- zlen_rest, Hr, zlen_update_bytes by done. pose proof (zlen_nonneg data). destruct (comp =? 0); lia. }
  destruct (painter_ok update_begin_paint l acc frag0 y (fun _ => recv_updates_loop outside' settings (S (Z.to_nat (rem s)))) s
    ltac:(apply begin_shown) Hy) as (y1 & E1 & Hy1 & Hb1).
  destruct src_ok as (S1 & S2 & S3), data_ok as (D1 & D2 & D3). rewrite <- Hb, <- Hb1 in back.
  destruct (recv_update_data_ok comp cflags frag code data src l acc frag0 b1 st y1 s Hy1 comp_known frag_range code_range S1 S2 S3
    ltac:(lia) back status_ok Hs Hr) as (y2 & s2 & E2 & Hy2 & Hb2 & Hs2 & Hr2).
  destruct (taken y2 s2 Hy2) as (st' & y3 & E3 & Hy3 & Hb3). rewrite E3 in E2.
  rewrite (bind_ret_eq _ _ _ (Some tt) (y3, s2)).
  - destruct (painter_ok update_end_paint l' acc' frag' y3 (fun _ => mret tt) s2 ltac:(apply end_shown) Hy3) as (y4 & E4 & Hy4 & Hb4).
    rewrite E4. exists y4, s2. by rewrite Hb4, Hb3.
  - unfold attempt. rewrite E1. cbn [recv_updates_loop].
    rewrite (on_stream_bind _ _ _ _ _ _ (remaining_length_eq s Hs)), (proj2 (Z.leb_le _ _)) by done.
    rewrite (bind_ret_eq _ _ _ _ _ E2). destruct (Z.to_nat (rem s)) as [|f] eqn:Ef; [lia|]. cbn [recv_updates_loop].
    assert (Hrem2 : rem s2 = 0) by (by rewrite <- zlen_rest, Hr2).
    by rewrite (on_stream_bind _ _ _ _ _ _ (remaining_length_eq s2 Hs2)), Hrem2.
Qed.

Lemma recv_packet_ok :
  holding l acc frag0 x ->
  exists x' s', rdp_recv_fastpath_pdu outside' settings (x, Stream_StaticInit (fp_packet body)) = Ret tt (x', s') /\
    holding l' acc' frag' x' /\ rcv_bulk x' = b1.
Proof.
  intros Hx. destruct data_ok as (D1 & D2 & D3). pose proof (zlen_nonneg data).
  assert (Hbody : zlen body = (if comp =? 0 then 3 else 4) + zlen data) by apply zlen_update_bytes.
  assert (Hb : bytes (fp_packet body)) by (apply bytes_packet; [by apply bytes_update|destruct (comp =? 0); lia]).
  assert (Hl : zlen (fp_packet body) = 3 + zlen body) by (unfold fp_packet; rewrite !zlen_cons; lia).
  assert (Hl' : zlen (fp_packet body) < 16384) by (destruct (comp =? 0); lia).
  unfold rdp_recv_fastpath_pdu.
  rewrite (bind_ret_eq _ _ _ (zlen body) (set_fastpath (set_header 0 0 (rcv_fastpath x)) x, advance 3 (Stream_StaticInit (fp_packet body)))).
  2: { unfold on_both. cbn [fst snd]. by rewrite (read_header_ok _ 0 _ body eq_refl Hb Hl'). }
  rewrite (proj2 (Z.eqb_neq _ _)) by (destruct (comp =? 0); lia).
  destruct (readable_after (Stream_StaticInit (fp_packet body)) (ztake 3 (fp_packet body)) body) as [Hs3 Hr3].
  { apply readable_init; [done|lia]. }
  { unfold rest. simpl (pointer _). simpl (len _). simpl (buffer _). by rewrite Z.sub_0_r, slice_0, ztake_all. }
  change (zlen (ztake 3 (fp_packet body))) with 3 in Hs3, Hr3. rewrite check_bind by (done || (rewrite Hr3; lia)).
  unfold set_module. rewrite modify_bind. cbn [fst snd]. set (y := count_bandwidth _ _).
  assert (Hy : holding l acc frag0 y) by (destruct Hx, x as [[] ? ? ? [] ?]; by split).
  assert (Hyb : rcv_bulk y = rcv_bulk x) by (by destruct x as [[] ? ? ? [] ?]).
  assert (Hye : encryptionFlags (rcv_fastpath y) = 0) by (by destruct x as [[] ? ? ? [] ?]).
  clearbody y. rewrite (bind_ret_eq _ _ _ (zlen body) (y, advance 3 (Stream_StaticInit (fp_packet body)))).
  - exact (recv_updates_ok y _ Hy Hyb Hs3 Hr3).
  - unfold on_both, fastpath_decrypt, get_module. cbn [fst snd]. rewrite bind_assoc, get_bind, ret_bind. cbn [fst].
    rewrite Hye. by destruct y.
Qed.
End Packet.
End Receiving.

(** ** A session *)

Section Session.
Context `{Crush} `{Security} `{AllocOk} `{Viewer}.
Context (outside outside' : Z -> Z) (output : rdpBulk -> list Z) (ss rs : fpSettings).
Hypothesis output_room : forall b, 0 < zlen (output b).
Hypothesis level_known : CompressionLevel ss = 0 \/ CompressionLevel ss = 1.
Hypothesis same_level : CompressionLevel rs = CompressionLevel ss.
Hypothesis limits : is_u32 (MultifragMaxRequestSize ss) /\ MultifragMaxRequestSize ss <= MultifragMaxRequestSize rs.
Hypothesis fast_path : FastPathOutput ss = true.

(** Updates, each with its code and whether it is to be left uncompressed. *)
Fixpoint send_all (us : list (Z * list Z * bool)) : M (fpSender * wStream) unit :=
  match us with
  | [] => mret tt
  | (code, data, skip) :: us =>
      fastpath_send_update_pdu outside output ss false false code data skip;; send_all us
  end.

(** Packets, each in a stream of its own; none when one is refused. *)
Fixpoint recv_all (ps : list (list Z)) (x : fpReceiver) : option fpReceiver :=
  match ps with
  | [] => Some x
  | p :: ps =>
      match rdp_recv_fastpath_pdu outside' rs (x, Stream_StaticInit p) with
      | Ret _ (x', _) => recv_all ps x'
      | _ => None
      end
  end.

Lemma recv_all_app ps qs x x' : recv_all ps x = Some x' -> recv_all (ps ++ qs) x = recv_all qs x'.
Proof.
  revert x. induction ps as [|p ps IH]; intros x E; cbn [recv_all app] in *; [by injection E as ->|].
  destruct (rdp_recv_fastpath_pdu outside' rs (x, Stream_StaticInit p)) as [? [? ?]| |]; [by apply IH|done..].
Qed.

(** [m] sends packets that turn a receiver in [P] into one in [Q]. *)
Definition conveys {A} (m : M (fpSender * wStream) A) (P Q : fpReceiver -> Prop) (post : A -> Prop) : Prop :=
  forall a s x, wf s -> capacity s = FASTPATH_MAX_PACKET_SIZE -> bulk_synced (CompressionLevel ss) (snd_bulk a) (rcv_bulk x) -> P x ->
  exists v a' s' ps x', m (a, s) = Ret v (a', s') /\ post v /\ snd_wire a' = snd_wire a ++ ps /\ recv_all ps x = Some x' /\
    wf s' /\ capacity s' = FASTPATH_MAX_PACKET_SIZE /\ bulk_synced (CompressionLevel ss) (snd_bulk a') (rcv_bulk x') /\ Q x' /\
    Forall (fun p => zlen p <= FASTPATH_MAX_PACKET_SIZE) ps.

Lemma conveys_bind {A B} (m : M (fpSender * wStream) A) (k : A -> M (fpSender * wStream) B) P Q R post post' :
  conveys m P Q post -> (forall v, post v -> conveys (k v) Q R post') -> conveys (m ≫= k) P R post'.
Proof.
  intros Hm Hk a s x Hs Hc Hb HP.
  destruct (Hm a s x Hs Hc Hb HP) as (v & a1 & s1 & ps & x1 & E & Hv & Hw & Hr & Hs1 & Hc1 & Hb1 & HQ & Hp).
  destruct (Hk v Hv a1 s1 x1 Hs1 Hc1 Hb1 HQ) as (w & a2 & s2 & qs & x2 & E2 & Hv2 & Hw2 & Hr2 & Hs2 & Hc2 & Hb2 & HR & Hq).
  exists w, a2, s2, (ps ++ qs), x2. rewrite (bind_ret_eq _ _ _ _ _ E). split; [done|]. split; [done|].
  split; [by rewrite Hw2, Hw, app_assoc|]. split; [by rewrite (recv_all_app _ _ _ _ Hr)|].
  split; [done|]. split; [done|]. split; [done|]. split; [done|]. by apply Forall_app_2.
Qed.

Lemma conveys_ret {A} (v : A) (P : fpReceiver -> Prop) (post : A -> Prop) : post v -> conveys (mret v) P P post.
Proof.
  intros Hv a s x Hs Hc Hb HP. exists v, a, s, [], x. rewrite app_nil_r.
  by split; [|split; [|split; [|split; [|split; [|split; [|split; [|split; [|apply Forall_nil_2]]]]]]]].
Qed.

#[local] Abbreviation held := (holding (shown := shown)).

(** The state of the receiver before the fragment with number [fragment]. *)
Definition expecting (L : list (Z * list Z)) (acc : list Z) (fragment : Z) (x : fpReceiver) : Prop :=
  exists f, held L acc f x /\
    (if fragment =? 0 then f = -1 /\ acc = [] else f = FASTPATH_FRAGMENT_FIRST \/ f = FASTPATH_FRAGMENT_NEXT).

(** The next state of the receiver, after [n] bytes of [l]. *)
Definition progressed L acc l code fragment n (x : fpReceiver) : Prop :=
  let whole := zlen l - n =? 0 in
  held (if whole then L ++ [(code, acc ++ l)] else L) (if whole then [] else acc ++ ztake n l)
    (if whole then -1 else kind_of fragment n l) x.

Lemma fragment_taken code fragment acc l n L f y s :
  fit code (acc ++ l) -> zlen acc + zlen l <= MultifragMaxRequestSize rs -> 0 <= n <= zlen l -> 0 <= fragment ->
  (if fragment =? 0 then f = -1 /\ acc = [] else f = FASTPATH_FRAGMENT_FIRST \/ f = FASTPATH_FRAGMENT_NEXT) ->
  held L (acc ++ ztake n l) f y ->
  exists st y', take_fragment rs code (kind_of fragment n l) (y, s) = Ret st (y', s) /\
    progressed L acc l code fragment n y' /\ rcv_bulk y' = rcv_bulk y.
Proof.
  intros Hfit Hl Hn Hf Hfr Hy. unfold progressed, kind_of. cbv zeta. destruct (zlen l - n =? 0) eqn:Ee.
  - apply Z.eqb_eq in Ee. rewrite ztake_all in Hy by lia.
    destruct (take_end rs code (fragment =? 0) L (acc ++ l) f y s Hy Hfit) as (st & y' & E & Hy' & Hb).
    { destruct (fragment =? 0); [by destruct Hfr|]. split; [done|]. rewrite zlen_app. lia. }
    exists st, y'. split; [|done]. by destruct (fragment =? 0).
  - destruct (take_more rs code (fragment =? 0) L (acc ++ ztake n l) f y s Hy) as (y' & E & Hy' & Hb).
    { rewrite zlen_app, zlen_ztake; lia. } { destruct (fragment =? 0); [by destruct Hfr|done]. }
    exists 0, y'. split; [by destruct (fragment =? 0)|]. by destruct (fragment =? 0).
Qed.

Lemma progressed_more L acc l code fragment n x :
  progressed L acc l code fragment n x -> n < zlen l -> 0 <= fragment -> expecting L (acc ++ ztake n l) (fragment + 1) x.
Proof.
  unfold progressed, kind_of. cbv zeta. intros Hx Hn Hf. rewrite (proj2 (Z.eqb_neq (zlen l - n) _)) in Hx by lia.
  eexists. split; [exact Hx|]. rewrite (proj2 (Z.eqb_neq _ _)) by lia. destruct (fragment =? 0); [by left|by right].
Qed.

(** One fragment through both ends. *)
Lemma fragment_conveyed code skip maxLength fragment acc l L :
  let n := Z.min maxLength (zlen l) in
  0 <= code < 16 -> bytes l -> fit code (acc ++ l) -> zlen acc + zlen l <= MultifragMaxRequestSize ss ->
  0 < maxLength <= 16363 -> 0 <= fragment -> (fragment = 0 \/ 0 < zlen l) ->
  (CompressionEnabled ss && negb skip = true -> maxLength <= history_size (CompressionLevel ss) - 4) ->
  conveys (send_fragment outside output ss false false code skip maxLength fragment l)
    (expecting L acc fragment)
    (progressed L acc l code fragment n) (eq n).
Proof.
  intros n Hcode Hb Hfit Hl Hm Hf Hne Hh a s x Hs Hc Hsync (f & Hx & Hfr).
  destruct (send_fragment_ok outside outside' output ss output_room level_known code skip maxLength fragment l a s (rcv_bulk x)
    Hsync Hb Hm Hs Hc Hh) as (comp & cflags & data & a1 & b1 & s1 & E & [C1 C2 C3 C4 (st & Hst & Eb)] & Hsync' & Hs1 & Hc1).
  fold n in E, C4, Eb. pose proof (zlen_nonneg l). assert (Hn : 0 <= n <= zlen l /\ n <= maxLength) by (unfold n; lia).
  destruct limits as [Hu Hlim]. unfold is_u32 in Hu. pose proof (zlen_nonneg acc). rewrite zlen_ztake in C4 by lia.
  rewrite <- same_level in Eb.
  set (frag := kind_of fragment n l) in E.
  assert (Hp : exists x' s', rdp_recv_fastpath_pdu outside' rs (x, Stream_StaticInit (fp_packet (update_bytes comp cflags frag code data))) = Ret tt (x', s') /\
    progressed L acc l code fragment n x' /\ rcv_bulk x' = b1).
  { assert (Hk : 0 <= frag < 4) by (unfold frag, kind_of; destruct (zlen l - n =? 0), (fragment =? 0); split; by vm_compute).
    eapply (recv_packet_ok outside' rs comp cflags frag code data (ztake n l) L _ acc _ f _ st x b1); try done.
    - split; [by apply Forall_ztake|]. rewrite zlen_ztake; lia.
    - split; [done|]. split; [done|lia].
    - intros y sy Hy. apply (fragment_taken code fragment acc l n L f y sy); (done || lia). }
  destruct Hp as (x' & s' & Er & Hx' & Hb').
  eexists n, _, s1,
    [fp_packet (update_bytes comp cflags frag code data)], x'.
  split; [exact E|]. split; [done|]. split; [done|]. split; [cbn [recv_all]; by rewrite Er|]. split; [done|]. split; [done|].
  split; [by rewrite Hb'|]. split; [done|].
  apply Forall_cons_2; [|apply Forall_nil_2]. unfold fp_packet, FASTPATH_MAX_PACKET_SIZE. rewrite !zlen_cons, zlen_update_bytes.
  destruct (comp =? 0); lia.
Qed.

(** The loop: what is left of the update arrives. *)
Lemma fragments_conveyed fuel code skip maxLength fragment acc l L :
  0 <= code < 16 -> bytes l -> fit code (acc ++ l) -> zlen acc + zlen l <= MultifragMaxRequestSize ss ->
  0 < maxLength <= 16363 -> 0 <= fragment -> (fragment = 0 \/ 0 < zlen l) ->
  (CompressionEnabled ss && negb skip = true -> maxLength <= history_size (CompressionLevel ss) - 4) ->
  (S (length l) < fuel)%nat ->
  conveys (send_fragments outside output ss false false fuel code skip maxLength fragment l)
    (expecting L acc fragment) (held (L ++ [(code, acc ++ l)]) [] (-1)) (fun _ => True).
Proof.
  revert fragment acc l. induction fuel as [|fuel IH]; intros fragment acc l Hcode Hb Hfit Hl Hm Hf Hne Hh Hfuel; [lia|].
  cbn [send_fragments]. pose proof (zlen_nonneg l).
  replace ((0 <? zlen l) || (fragment =? 0)) with true by (symmetry; lia).
  eapply conveys_bind; [by apply fragment_conveyed|]. intros n <-. set (n := Z.min maxLength (zlen l)).
  assert (Hn : 0 <= n <= zlen l) by (unfold n; lia).
  destruct (Z.eq_dec (zlen l - n) 0) as [E|E].
  - intros a s x Hw Hc Hsync Hx. unfold progressed in Hx. rewrite E in Hx. change (0 =? 0) with true in Hx. cbv zeta iota in Hx.
    rewrite zdrop_all by lia. destruct fuel as [|fuel]; [lia|]. cbn [send_fragments].
    rewrite (proj2 (Z.eqb_neq (fragment + 1) 0)) by lia. change (0 <? zlen []) with false. cbn [orb].
    by apply conveys_ret with (P := held _ _ _).
  - assert (Hn' : 0 < n) by (unfold n; lia).
    assert (Hs : acc ++ l = (acc ++ ztake n l) ++ zdrop n l) by (by rewrite <- app_assoc, ztake_zdrop).
    rewrite Hs in Hfit |- *. intros a s x Hw Hc Hsync Hx.
    apply (IH (fragment + 1) (acc ++ ztake n l) (zdrop n l)); try (done || lia).
    + by apply Forall_zdrop.
    + rewrite zlen_app, zlen_ztake, zlen_zdrop; lia.
    + right. rewrite zlen_zdrop; lia.
    + assert (zlen (zdrop n l) = zlen l - n) as Hd by (apply zlen_zdrop; lia). unfold zlen in Hd, Hn'. lia.
    + apply (progressed_more L acc l code fragment n x Hx); lia.
Qed.

Definition update_ok (u : Z * list Z * bool) : Prop :=
  0 <= u.1.1 < 16 /\ bytes u.1.2 /\ fit u.1.1 u.1.2 /\ zlen u.1.2 <= MultifragMaxRequestSize ss.

Lemma update_conveyed code data skip L :
  update_ok (code, data, skip) ->
  conveys (fastpath_send_update_pdu outside output ss false false code data skip)
    (held L [] (-1)) (held (L ++ [(code, data)]) [] (-1)) (fun _ => True).
Proof.
  intros (Hcode & Hb & Hfit & Hl) a s x Hs Hc Hsync Hx. cbn [fst snd] in *. unfold fastpath_send_update_pdu.
  assert (Hgo : forall maxLength a, bulk_synced (CompressionLevel ss) (snd_bulk a) (rcv_bulk x) -> 0 < maxLength <= 16363 ->
     (CompressionEnabled ss && negb skip = true -> maxLength <= history_size (CompressionLevel ss) - 4) ->
     exists v a' s' ps x', send_fragments outside output ss false false (S (S (length data))) code skip maxLength 0 data (a, s) = Ret v (a', s') /\
       True /\ snd_wire a' = snd_wire a ++ ps /\ recv_all ps x = Some x' /\
    wf s' /\ capacity s' = FASTPATH_MAX_PACKET_SIZE /\ bulk_synced (CompressionLevel ss) (snd_bulk a') (rcv_bulk x') /\ held (L ++ [(code, data)]) [] (-1) x' /\
    Forall (fun p => zlen p <= FASTPATH_MAX_PACKET_SIZE) ps).
  { intros maxLength a0 Hsync0 Hm Hh.
    apply (fragments_conveyed (S (S (length data))) code skip maxLength 0 [] data L); try (done || lia || by left).
    - by exists (-1). }
  rewrite fast_path. cbn [negb].
  destruct (CompressionEnabled ss && negb skip) eqn:Ec.
  - destruct (max_size_eq (CompressionLevel ss) level_known (snd_bulk a)) as (b1 & E & Em & _ & Es & _).
    rewrite bind_assoc. unfold on_bulk. rewrite (on_field_bind _ _ _ _ _ _ _ _ E), ret_bind, Em, (proj2 (Z.ltb_ge _ _)) by done.
    apply (Hgo _ (mkSender b1 (snd_keys a) (snd_wire a))); unfold bulk_synced; cbn [snd_bulk]; rewrite ?Es; [done|..];
      destruct level_known as [-> | ->]; (intros _ || split); by vm_compute.
  - rewrite ret_bind, (proj2 (Z.ltb_ge _ _)) by done. by apply (Hgo _ a).
Qed.

Lemma updates_conveyed us L :
  Forall update_ok us ->
  conveys (send_all us) (held L [] (-1)) (held (L ++ map fst us) [] (-1)) (fun _ => True).
Proof.
  revert L. induction us as [|[[code data] skip] us IH]; intros L Hus; cbn [send_all map].
  - rewrite app_nil_r. by apply conveys_ret.
  - apply Forall_cons_1 in Hus as [Hu Hus]. eapply conveys_bind; [by apply update_conveyed|]. intros _ _.
    cbn [fst]. replace (L ++ (code, data) :: map fst us) with ((L ++ [(code, data)]) ++ map fst us) by (by rewrite <- app_assoc).
    by apply IH.
Qed.

(** C5: the updates a server sends over the fast path without encryption (do_crypt off) reach a
    client that starts in step with the server: updates of any length up to the limit both ends
    agreed on, compressed with either MPPC level or not, cut into fragments as needed. Every packet
    is accepted and fits the limit, and the client has been shown exactly the updates that were
    sent, whole, once and in order. The client's readers take an update whole when they are given it
    whole (class Viewer), and memory is not refused. *)
Theorem fastpath_updates_delivered us a s x :
  wf s -> capacity s = FASTPATH_MAX_PACKET_SIZE ->
  bulk_synced (CompressionLevel ss) (snd_bulk a) (rcv_bulk x) -> held [] [] (-1) x -> Forall update_ok us ->
  exists a' s' ps x', send_all us (a, s) = Ret tt (a', s') /\ snd_wire a' = snd_wire a ++ ps /\
    Forall (fun p => zlen p <= FASTPATH_MAX_PACKET_SIZE) ps /\
    recv_all ps x = Some x' /\ shown (map fst us) (rcv_upd x').
Proof.
  intros Hs Hc Hb Hx Hus.
  destruct (updates_conveyed us [] Hus a s x Hs Hc Hb Hx) as ([] & a' & s' & ps & x' & E & _ & Hw & Hr & _ & _ & _ & [] & Hp).
  by exists a', s', ps, x'.
Qed.
End Session.

(** ** A concrete client *)

Definition no_security : Security := {|
  keys := unit; security_mac_signature := fun _ => failure; security_salted_mac_signature := fun _ _ => failure;
  security_hmac_signature := fun _ => failure; security_encrypt := fun _ => failure;
  security_fips_encrypt := fun _ => failure; security_decrypt := fun _ => failure;
  security_fips_decrypt := fun _ => failure; security_fips_check_signature := fun _ _ => failure
|}.

(** It takes down surface commands and refuses the other updates. *)
Definition recorder : Updates := {|
  upd := list (Z * list Z);
  update_begin_paint := mret tt; update_end_paint := mret tt;
  update_recv_order := failure; bitmap_update := failure; palette_update := failure; Synchronize := failure;
  update_recv_surfcmds := fun x => Ret 0 (x.1 ++ [(FASTPATH_UPDATETYPE_SURFCMDS, rest x.2)], x.2);
  PointerSystem := fun _ => failure; pointer_position := failure; pointer_color := failure;
  pointer_cached := failure; pointer_new := failure; pointer_large := failure
|}.

Lemma recorder_viewer :
  Viewer (H := recorder) (fun l u => u = l) (fun code _ => code = FASTPATH_UPDATETYPE_SURFCMDS).
Proof.
  split.
  - intros l u ->. by exists l.
  - intros l u ->. by exists l.
  - intros code data l u s -> -> [Hs _] _ Hr. exists 0, (l ++ [(FASTPATH_UPDATETYPE_SURFCMDS, data)]), s.
    split; [|done]. rewrite <- Hr. reflexivity.
Qed.

(** A fresh record is ready. *)
Lemma fastpath_new_ready `{AllocOk} junk junk' fp :
  zlen junk = FASTPATH_MAX_PACKET_SIZE -> bytes junk -> zlen junk' = FASTPATH_MAX_PACKET_SIZE -> bytes junk' ->
  fastpath_new junk junk' true = Some fp ->
  wf (fs fp) /\ capacity (fs fp) = FASTPATH_MAX_PACKET_SIZE /\
  wf (updateData fp) /\ written (updateData fp) = [] /\ capacity (updateData fp) = FASTPATH_MAX_PACKET_SIZE /\ fp_fragmentation fp = -1.
Proof.
  intros Hj Hb Hj' Hb' E. unfold fastpath_new, Stream_New in E. cbn [negb] in E.
  change (FASTPATH_MAX_PACKET_SIZE =? 0) with false in E. cbv iota in E.
  rewrite alloc_ok in E by (unfold FASTPATH_MAX_PACKET_SIZE; lia). injection E as <-. unfold FASTPATH_MAX_PACKET_SIZE in *.
  cbn [fs updateData capacity fp_fragmentation]. split; [by split; simpl; try lia|]. split; [done|]. by split; [split; simpl; try lia|].
Qed.

Definition plain_settings : fpSettings := mkSettings true 0 true 65536 ENCRYPTION_METHOD_NONE.

Definition fresh_fastpath : rdpFastPath :=
  mkFastPath (new_stream zero_junk FASTPATH_MAX_PACKET_SIZE) 0 0 (new_stream zero_junk FASTPATH_MAX_PACKET_SIZE) (-1).

(** An empty update, a short one and one of several fragments. *)
Lemma fastpath_updates_delivered_witness :
  exists a' s' ps x',
    send_all (H := no_crush) (H0 := no_security) (fun _ => 0) (fun _ => [0]) plain_settings
      [(4, [], false); (4, [1; 2; 3], true); (4, zrepeat 20000 7, false)]
      (mkSender (H := no_crush) (H0 := no_security) (H1 := tap) fresh_bulk tt [], fs fresh_fastpath) = Ret tt (a', s') /\
    snd_wire a' = [] ++ ps /\ Forall (fun p => zlen p <= FASTPATH_MAX_PACKET_SIZE) ps /\
    recv_all (H := no_crush) (H0 := no_security) (H1 := alloc_always) (H3 := recorder) (fun _ => 7) plain_settings ps
      (mkReceiver (H := no_crush) (H0 := no_security) (H1 := recorder) fresh_fastpath fresh_bulk tt [] false 0) = Some x' /\
    rcv_upd x' = [(4, []); (4, [1; 2; 3]); (4, zrepeat 20000 7)].
Proof.
  assert (Hn : wf (fs fresh_fastpath)) by (apply wf_new_stream; [apply zero_junk_len|apply zero_junk_bytes|by vm_compute]).
  refine (fastpath_updates_delivered (H := no_crush) (H0 := no_security) (H1 := alloc_always) (H2 := alloc_always_ok) (H3 := recorder)
    (H4 := recorder_viewer) (fun _ => 0) (fun _ => 7) (fun _ => [0]) plain_settings plain_settings _ _ _ _ _
    [(4, [], false); (4, [1; 2; 3], true); (4, zrepeat 20000 7, false)]
    (mkSender (H := no_crush) (H0 := no_security) (H1 := tap) fresh_bulk tt []) (fs fresh_fastpath)
    (mkReceiver (H := no_crush) (H0 := no_security) (H1 := recorder) fresh_fastpath fresh_bulk tt [] false 0) _ _ _ _ _).
  - done.
  - by left.
  - done.
  - by vm_compute.
  - done.
  - exact Hn.
  - done.
  - apply (bulk_new_synced 0 0); [by left|exact fresh_bulk_new|exact fresh_bulk_new].
  - split; [exact Hn|done|by vm_compute|done|done].
  - repeat (apply Forall_cons_2; [split; [done|split; [by apply bytes_check|split; [done|by vm_compute]]]|]). apply Forall_nil_2.
Defined.
