(* ===== verification/Input.v ===== *)
(** * Input events

    Model of [libfreerdp/core/input.c] and of the input half of [libfreerdp/core/fastpath.c], with
    [peer_recv_fastpath_pdu] of [peer.c].  A client sends events over the fast path or over the
    slow path, one packet for each call; the server reads them and calls back.

    The callbacks of the server are the class [Inputs], the framing of the slow path in [rdp.c] is
    the class [DataPdu]; the message queue of the proxy and the logging are left out. *)

From S2P Require Import Prelude Stream Per Tpkt Packet FastPath.

Definition FASTPATH_INPUT_ACTION_FASTPATH : Z := 0x0.
Definition FASTPATH_INPUT_SECURE_CHECKSUM : Z := 0x1.
Definition FASTPATH_INPUT_ENCRYPTED : Z := 0x2.
Definition FASTPATH_INPUT_EVENT_SCANCODE : Z := 0x0.
Definition FASTPATH_INPUT_EVENT_MOUSE : Z := 0x1.
Definition FASTPATH_INPUT_EVENT_MOUSEX : Z := 0x2.
Definition FASTPATH_INPUT_EVENT_SYNC : Z := 0x3.
Definition FASTPATH_INPUT_EVENT_UNICODE : Z := 0x4.
Definition TS_FP_RELPOINTER_EVENT : Z := 0x5.
Definition TS_FP_QOETIMESTAMP_EVENT : Z := 0x6.
Definition FASTPATH_INPUT_KBDFLAGS_RELEASE : Z := 0x01.
Definition FASTPATH_INPUT_KBDFLAGS_EXTENDED : Z := 0x02.
Definition FASTPATH_INPUT_KBDFLAGS_PREFIX_E1 : Z := 0x04.
Definition SEC_ENCRYPT : Z := 0x0008.
Definition KBD_FLAGS_EXTENDED : Z := 0x0100.
Definition KBD_FLAGS_EXTENDED1 : Z := 0x0200.
Definition KBD_FLAGS_DOWN : Z := 0x4000.
Definition KBD_FLAGS_RELEASE : Z := 0x8000.
Definition PTR_FLAGS_HWHEEL : Z := 0x0400.
Definition PTR_FLAGS_MOVE : Z := 0x0800.
Definition PTR_FLAGS_BUTTON1 : Z := 0x1000.
Definition PTR_FLAGS_BUTTON2 : Z := 0x2000.
Definition PTR_FLAGS_BUTTON3 : Z := 0x4000.
Definition INPUT_EVENT_SYNC : Z := 0x0000.
Definition INPUT_EVENT_SCANCODE : Z := 0x0004.
Definition INPUT_EVENT_UNICODE : Z := 0x0005.
Definition INPUT_EVENT_MOUSE : Z := 0x8001.
Definition INPUT_EVENT_MOUSEX : Z := 0x8002.
Definition INPUT_EVENT_MOUSEREL : Z := 0x8004.
Definition KBDEXT : Z := 0x0100.
Definition RDP_SCANCODE_CODE (c : Z) : Z := u8 (Z.land c 0xFF).
Definition RDP_SCANCODE_EXTENDED (c : Z) : bool := has c KBDEXT.
Definition RDP_SCANCODE_LCONTROL : Z := 0x1D.
Definition RDP_SCANCODE_NUMLOCK : Z := 0x45.

(** The settings that are read here. *)
Record inSettings := mkInSettings {
  FastPathInput : bool;
  SuspendInput : bool;
  UnicodeInput : bool;
  HasHorizontalWheel : bool;
  HasRelativeMouseEvent : bool;
  HasExtendedMouseEvent : bool;
  HasQoeEvent : bool;
  FakeMouseMotionInterval : Z;
  inEncryptionMethods : Z
}.

Definition inFips (s : inSettings) : bool := inEncryptionMethods s =? ENCRYPTION_METHOD_FIPS.

(** ** At the server *)

(** The callbacks, all of them set; [Fail] is [FALSE]. *)
Class Inputs := {
  inp : Type;
  SynchronizeEvent : Z -> M inp unit;
  KeyboardEvent : Z -> Z -> M inp unit;
  UnicodeKeyboardEvent : Z -> Z -> M inp unit;
  MouseEvent : Z -> Z -> Z -> M inp unit;
  RelMouseEvent : Z -> Z -> Z -> M inp unit;
  ExtendedMouseEvent : Z -> Z -> Z -> M inp unit;
  QoEEvent : Z -> M inp unit
}.

Section Server.
Context `{Security} `{Inputs} (settings : inSettings).

Definition call_back (m : M inp unit) : M (inp * wStream) unit := on_field id (fun u _ => u) m.

Definition fastpath_read_input_event_header : M wStream (Z * Z) :=
  Stream_CheckAndLogRequiredLength 1;;
  eventHeader ← Stream_Read_UINT8;
  mret (Z.land eventHeader 0x1F, Z.shiftr eventHeader 5).

Definition fastpath_recv_input_event_scancode (eventFlags : Z) : M (inp * wStream) unit :=
  on_stream (Stream_CheckAndLogRequiredLength 1);;
  code ← on_stream Stream_Read_UINT8;
  let flags := Z.lor (Z.lor (if has eventFlags FASTPATH_INPUT_KBDFLAGS_RELEASE then KBD_FLAGS_RELEASE else 0)
                      (if has eventFlags FASTPATH_INPUT_KBDFLAGS_EXTENDED then KBD_FLAGS_EXTENDED else 0))
                 (if has eventFlags FASTPATH_INPUT_KBDFLAGS_PREFIX_E1 then KBD_FLAGS_EXTENDED1 else 0) in
  call_back (KeyboardEvent flags code).

Definition fastpath_recv_input_event_mouse : M (inp * wStream) unit :=
  on_stream (Stream_CheckAndLogRequiredLength 6);;
  pointerFlags ← on_stream Stream_Read_UINT16;
  xPos ← on_stream Stream_Read_UINT16;
  yPos ← on_stream Stream_Read_UINT16;
  call_back (MouseEvent pointerFlags xPos yPos).

Definition fastpath_recv_input_event_relmouse : M (inp * wStream) unit :=
  on_stream (Stream_CheckAndLogRequiredLength 6);;
  pointerFlags ← on_stream Stream_Read_UINT16;
  xDelta ← on_stream Stream_Read_INT16;
  yDelta ← on_stream Stream_Read_INT16;
  if negb (HasRelativeMouseEvent settings) then failure
  else call_back (RelMouseEvent pointerFlags xDelta yDelta).

Definition fastpath_recv_input_event_qoe : M (inp * wStream) unit :=
  on_stream (Stream_CheckAndLogRequiredLength 4);;
  timestampMS ← on_stream Stream_Read_UINT32;
  if negb (HasQoeEvent settings) then failure else call_back (QoEEvent timestampMS).

Definition fastpath_recv_input_event_mousex : M (inp * wStream) unit :=
  on_stream (Stream_CheckAndLogRequiredLength 6);;
  pointerFlags ← on_stream Stream_Read_UINT16;
  xPos ← on_stream Stream_Read_UINT16;
  yPos ← on_stream Stream_Read_UINT16;
  if negb (HasExtendedMouseEvent settings) then failure
  else call_back (ExtendedMouseEvent pointerFlags xPos yPos).

Definition fastpath_recv_input_event_sync (eventFlags : Z) : M (inp * wStream) unit :=
  call_back (SynchronizeEvent eventFlags).

Definition fastpath_recv_input_event_unicode (eventFlags : Z) : M (inp * wStream) unit :=
  on_stream (Stream_CheckAndLogRequiredLength 2);;
  unicodeCode ← on_stream Stream_Read_UINT16;
  let flags := if has eventFlags FASTPATH_INPUT_KBDFLAGS_RELEASE then KBD_FLAGS_RELEASE else 0 in
  call_back (UnicodeKeyboardEvent flags unicodeCode).

(** An unknown code is passed over. *)
Definition fastpath_recv_input_event : M (inp * wStream) unit :=
  '(eventFlags, eventCode) ← on_stream fastpath_read_input_event_header;
  if eventCode =? FASTPATH_INPUT_EVENT_SCANCODE then fastpath_recv_input_event_scancode eventFlags
  else if eventCode =? FASTPATH_INPUT_EVENT_MOUSE then fastpath_recv_input_event_mouse
  else if eventCode =? FASTPATH_INPUT_EVENT_MOUSEX then fastpath_recv_input_event_mousex
  else if eventCode =? FASTPATH_INPUT_EVENT_SYNC then fastpath_recv_input_event_sync eventFlags
  else if eventCode =? FASTPATH_INPUT_EVENT_UNICODE then fastpath_recv_input_event_unicode eventFlags
  else if eventCode =? TS_FP_RELPOINTER_EVENT then fastpath_recv_input_event_relmouse
  else if eventCode =? TS_FP_QOETIMESTAMP_EVENT then fastpath_recv_input_event_qoe
  else mret tt.

Fixpoint recv_events (n : nat) (recv : M (inp * wStream) unit) : M (inp * wStream) unit :=
  match n with O => mret tt | S n => recv;; recv_events n recv end.

(** What the server changes. *)
Record inServer := mkInServer {
  srv_fastpath : rdpFastPath;
  srv_keys : keys;
  srv_inp : inp;
  inPackets : Z
}.

Definition set_srv_fastpath (fp : rdpFastPath) (x : inServer) : inServer :=
  mkInServer fp (srv_keys x) (srv_inp x) (inPackets x).
Definition set_srv_keys (k : keys) (x : inServer) : inServer :=
  mkInServer (srv_fastpath x) k (srv_inp x) (inPackets x).
Definition set_srv_inp (u : inp) (x : inServer) : inServer :=
  mkInServer (srv_fastpath x) (srv_keys x) u (inPackets x).
Definition count_packet (x : inServer) : inServer :=
  mkInServer (srv_fastpath x) (srv_keys x) (srv_inp x) (usize (inPackets x + 1)).

Definition fastpath_recv_inputs : M (inServer * wStream) unit :=
  x ← get_module;
  (if numberEvents (srv_fastpath x) =? 0 then
     on_stream (Stream_CheckAndLogRequiredLength 1);;
     n ← on_stream Stream_Read_UINT8;
     set_module (fun x => set_srv_fastpath (set_numberEvents n (srv_fastpath x)) x)
   else mret tt);;
  x ← get_module;
  on_both srv_inp set_srv_inp
    (recv_events (Z.to_nat (numberEvents (srv_fastpath x))) fastpath_recv_input_event).

Definition peer_recv_fastpath_pdu : M (inServer * wStream) unit :=
  length ← on_both srv_fastpath set_srv_fastpath fastpath_read_header_rdp;
  if length =? 0 then failure
  else
    on_stream (Stream_CheckAndLogRequiredLength length);;
    on_both (fun x => (srv_fastpath x, srv_keys x)) (fun c x => set_srv_keys c.2 (set_srv_fastpath c.1 x))
      (fastpath_decrypt (inEncryptionMethods settings) length);;
    set_module count_packet;;
    fastpath_recv_inputs.

(** The slow path. *)
Definition input_recv_sync_event : M (inp * wStream) unit :=
  on_stream (Stream_CheckAndLogRequiredLength 6);;
  on_stream (Stream_Seek 2);;
  toggleFlags ← on_stream Stream_Read_UINT32;
  call_back (SynchronizeEvent toggleFlags).

(** a key that is released is not down *)
Definition fix_flags (flags : Z) : Z :=
  if has flags KBD_FLAGS_RELEASE then Z.land flags (u16 (Z.lnot KBD_FLAGS_DOWN)) else flags.

Definition input_recv_keyboard_event : M (inp * wStream) unit :=
  on_stream (Stream_CheckAndLogRequiredLength 6);;
  keyboardFlags ← on_stream Stream_Read_UINT16;
  keyCode ← on_stream Stream_Read_UINT16;
  on_stream (Stream_Seek 2);;
  call_back (KeyboardEvent (fix_flags keyboardFlags) (Z.land keyCode 0xFF)).

Definition input_recv_unicode_keyboard_event : M (inp * wStream) unit :=
  on_stream (Stream_CheckAndLogRequiredLength 6);;
  keyboardFlags ← on_stream Stream_Read_UINT16;
  unicodeCode ← on_stream Stream_Read_UINT16;
  on_stream (Stream_Seek 2);;
  call_back (UnicodeKeyboardEvent (fix_flags keyboardFlags) unicodeCode).

Definition input_recv_mouse_event : M (inp * wStream) unit :=
  on_stream (Stream_CheckAndLogRequiredLength 6);;
  pointerFlags ← on_stream Stream_Read_UINT16;
  xPos ← on_stream Stream_Read_UINT16;
  yPos ← on_stream Stream_Read_UINT16;
  call_back (MouseEvent pointerFlags xPos yPos).

Definition input_recv_relmouse_event : M (inp * wStream) unit :=
  on_stream (Stream_CheckAndLogRequiredLength 6);;
  pointerFlags ← on_stream Stream_Read_UINT16;
  xDelta ← on_stream Stream_Read_INT16;
  yDelta ← on_stream Stream_Read_INT16;
  if negb (HasRelativeMouseEvent settings) then failure
  else call_back (RelMouseEvent pointerFlags xDelta yDelta).

Definition input_recv_extended_mouse_event : M (inp * wStream) unit :=
  on_stream (Stream_CheckAndLogRequiredLength 6);;
  pointerFlags ← on_stream Stream_Read_UINT16;
  xPos ← on_stream Stream_Read_UINT16;
  yPos ← on_stream Stream_Read_UINT16;
  if negb (HasExtendedMouseEvent settings) then failure
  else call_back (ExtendedMouseEvent pointerFlags xPos yPos).

Definition input_recv_event : M (inp * wStream) unit :=
  on_stream (Stream_CheckAndLogRequiredLength 6);;
  on_stream (Stream_Seek 4);;
  messageType ← on_stream Stream_Read_UINT16;
  if messageType =? INPUT_EVENT_SYNC then input_recv_sync_event
  else if messageType =? INPUT_EVENT_SCANCODE then input_recv_keyboard_event
  else if messageType =? INPUT_EVENT_UNICODE then input_recv_unicode_keyboard_event
  else if messageType =? INPUT_EVENT_MOUSE then input_recv_mouse_event
  else if messageType =? INPUT_EVENT_MOUSEX then input_recv_extended_mouse_event
  else if messageType =? INPUT_EVENT_MOUSEREL then input_recv_relmouse_event
  else on_stream (Stream_Seek 6).

Definition input_recv : M (inp * wStream) unit :=
  on_stream (Stream_CheckAndLogRequiredLength 4);;
  numberEvents ← on_stream Stream_Read_UINT16;
  on_stream (Stream_Seek 2);;
  on_stream (Stream_CheckAndLogRequiredLengthEx numberEvents 6);;
  recv_events (Z.to_nat numberEvents) input_recv_event.
End Server.

(** ** At the client *)

(** [rdp_data_pdu_init] and [rdp_send_data_pdu] with the type of the PDU, on the transport. *)
Class DataPdu `{Wire} := {
  rdp_data_pdu_init : M wire wStream;
  rdp_send_data_pdu : Z -> wStream -> M wire unit
}.

Definition DATA_PDU_TYPE_INPUT : Z := 0x1C.

Section Client.
Context `{Security} `{DataPdu} `{Alloc} (junk : Z -> list Z) (settings : inSettings).
(** [rdp->do_crypt], [rdp->do_secure_checksum], whether the session has not been terminated and
    whether the connection is active *)
Context (do_crypt do_secure_checksum running active : bool).

(** The keys and the transport of the connection, and [rdp_input_internal]. *)
Record inClient := mkInClient {
  cl_keys : keys;
  cl_wire : wire;
  lastInputTimestamp : Z;
  lastX : Z;
  lastY : Z
}.

Definition set_cl_keys (k : keys) (x : inClient) : inClient :=
  mkInClient k (cl_wire x) (lastInputTimestamp x) (lastX x) (lastY x).
Definition set_cl_wire (w : wire) (x : inClient) : inClient :=
  mkInClient (cl_keys x) w (lastInputTimestamp x) (lastX x) (lastY x).

#[local] Abbreviation Sending := (M (inClient * wStream)).

Definition with_keys {A} (m : M keys A) : Sending A := on_field cl_keys set_cl_keys m.
Definition with_wire {A} (m : M wire A) : Sending A := on_field cl_wire set_cl_wire m.

Definition fastpath_get_sec_bytes : Z := if do_crypt then 8 + (if inFips settings then 4 else 0) else 0.

(** A fresh stream for [m], as [transport_send_stream_init] makes it. *)
Definition in_stream {A} (size : Z) (m : Sending A) : M inClient A := fun x =>
  match Stream_New None (junk size) size with
  | None => Fail x
  | Some s =>
      match m (x, s) with
      | Ret a (x', _) => Ret a x'
      | Fail (x', _) => Fail x'
      | Crash f => Crash f
      end
  end.

(** The flags of the security header. *)
Definition fastpath_input_pdu_init_header : Sending Z :=
  on_stream (Stream_Seek 3);;
  on_stream (Stream_Seek fastpath_get_sec_bytes);;
  mret (if do_crypt then Z.lor SEC_ENCRYPT (if do_secure_checksum then SEC_SECURE_CHECKSUM else 0) else 0).

Definition fastpath_input_pdu_init (eventFlags eventCode : Z) : Sending Z :=
  sec_flags ← fastpath_input_pdu_init_header;
  assert (eventCode <? 8);;
  assert (eventFlags <? 0x20);;
  on_stream (Stream_Write_UINT8 (u8 (Z.lor eventFlags (Z.shiftl eventCode 5))));;
  mret sec_flags.

(** The events from offset [start] on, [n] bytes, are signed and encrypted in place; the pointer
    is at the place of the signature.  [length] grows by the padding. *)
Definition encrypt_events (sec_flags length : Z) : Sending Z :=
  let sec_bytes := fastpath_get_sec_bytes in
  if length <? sec_bytes + 3 then failure
  else
    x ← get;
    let start := pointer x.2 + sec_bytes in
    let n := u16 (length - 3 - sec_bytes) in
    if inFips settings then
      let pad := let p := 8 - n mod 8 in if p =? 8 then 0 else p in
      on_stream (Stream_Write_UINT16 0x10);;
      on_stream (Stream_Write_UINT8 0x1);;
      on_stream (Stream_Write_UINT8 pad);;
      on_stream (Stream_CheckAndLogRequiredCapacity 8);;
      x ← get;
      sign ← with_keys (security_hmac_signature (slice start n (buffer x.2)));
      on_stream (modify (store_at (pointer x.2) sign));;
      (if start + n + pad <=? zlen (buffer x.2) then mret tt else crash Undefined);;
      on_stream (modify (store_at (start + n) (zrepeat pad 0)));;
      x ← get;
      enc ← with_keys (security_fips_encrypt (slice start (n + pad) (buffer x.2)));
      on_stream (modify (store_at start enc));;
      mret (length + pad)
    else
      on_stream (Stream_CheckAndLogRequiredCapacity 8);;
      x ← get;
      sign ← (if has sec_flags SEC_SECURE_CHECKSUM
              then with_keys (security_salted_mac_signature (slice start n (buffer x.2)) true)
              else with_keys (security_mac_signature (slice start n (buffer x.2))));
      on_stream (modify (store_at (pointer x.2) sign));;
      x ← get;
      enc ← with_keys (security_encrypt (slice start n (buffer x.2)));
      on_stream (modify (store_at start enc));;
      mret length.

Definition fastpath_send_multiple_input_pdu (iNumEvents sec_flags : Z) : Sending unit :=
  assert (0 <? iNumEvents);;
  if negb active then failure
  else if 15 <? iNumEvents then failure
  else
    length ← on_stream Stream_GetPosition;
    if 2 * 2 ^ 14 <=? length then failure
    else
      let eventHeader :=
        u8 (Z.lor (Z.lor (Z.lor FASTPATH_INPUT_ACTION_FASTPATH (Z.shiftl iNumEvents 2))
                    (if has sec_flags SEC_ENCRYPT then Z.shiftl FASTPATH_INPUT_ENCRYPTED 6 else 0))
              (if has sec_flags SEC_SECURE_CHECKSUM then Z.shiftl FASTPATH_INPUT_SECURE_CHECKSUM 6 else 0)) in
      on_stream (go_to 0);;
      on_stream (Stream_Write_UINT8 eventHeader);;
      on_stream (Stream_Seek 2);;
      length ← (if has sec_flags SEC_ENCRYPT then encrypt_events sec_flags length else mret length);
      assert (length <? UINT16_MAX);;
      on_stream (go_to 1);;
      on_stream (Stream_Write_UINT16_BE (Z.lor 0x8000 (u16 length)));;
      on_stream (go_to length);;
      on_stream Stream_SealLength;;
      x ← get;
      with_wire (transport_write (ztake (len x.2) (buffer x.2))).

Definition fastpath_send_input_pdu (sec_flags : Z) : Sending unit := fastpath_send_multiple_input_pdu 1 sec_flags.

Definition input_ensure_client_running : M inClient unit := guard running.

Definition input_write_mouse_event (flags x y : Z) : M wStream unit :=
  Stream_Write_UINT16 flags;; Stream_Write_UINT16 x;; Stream_Write_UINT16 y.

Definition input_write_extended_mouse_event (flags x y : Z) : M wStream unit :=
  Stream_Write_UINT16 flags;; Stream_Write_UINT16 x;; Stream_Write_UINT16 y.

(** One event in a packet of its own. *)
Definition send_one (eventFlags eventCode : Z) (body : M wStream unit) : M inClient unit :=
  in_stream 256
    (sec_flags ← fastpath_input_pdu_init eventFlags eventCode;
     on_stream body;;
     fastpath_send_input_pdu sec_flags).

Definition input_send_fastpath_synchronize_event (flags : Z) : M inClient unit :=
  input_ensure_client_running;;
  send_one (u8 flags) FASTPATH_INPUT_EVENT_SYNC (mret tt).

Definition input_send_fastpath_keyboard_event (flags code : Z) : M inClient unit :=
  input_ensure_client_running;;
  let eventFlags :=
    Z.lor (Z.lor (if has flags KBD_FLAGS_RELEASE then FASTPATH_INPUT_KBDFLAGS_RELEASE else 0)
             (if has flags KBD_FLAGS_EXTENDED then FASTPATH_INPUT_KBDFLAGS_EXTENDED else 0))
      (if has flags KBD_FLAGS_EXTENDED1 then FASTPATH_INPUT_KBDFLAGS_PREFIX_E1 else 0) in
  send_one eventFlags FASTPATH_INPUT_EVENT_SCANCODE
    (assert (code <=? UINT8_MAX);; Stream_Write_UINT8 code).

Definition input_send_fastpath_unicode_keyboard_event (flags code : Z) : M inClient unit :=
  input_ensure_client_running;;
  if negb (UnicodeInput settings) then failure
  else
    send_one (if has flags KBD_FLAGS_RELEASE then FASTPATH_INPUT_KBDFLAGS_RELEASE else 0)
      FASTPATH_INPUT_EVENT_UNICODE (Stream_Write_UINT16 code).

Definition input_send_fastpath_mouse_event (flags x y : Z) : M inClient unit :=
  input_ensure_client_running;;
  if negb (HasHorizontalWheel settings) && has flags PTR_FLAGS_HWHEEL then mret tt
  else send_one 0 FASTPATH_INPUT_EVENT_MOUSE (input_write_mouse_event flags x y).

Definition input_send_fastpath_extended_mouse_event (flags x y : Z) : M inClient unit :=
  input_ensure_client_running;;
  if negb (HasExtendedMouseEvent settings) then mret tt
  else send_one 0 FASTPATH_INPUT_EVENT_MOUSEX (input_write_extended_mouse_event flags x y).

Definition input_send_fastpath_relmouse_event (flags xDelta yDelta : Z) : M inClient unit :=
  input_ensure_client_running;;
  if negb (HasRelativeMouseEvent settings) then failure
  else
    send_one 0 TS_FP_RELPOINTER_EVENT
      (Stream_Write_UINT16 flags;; Stream_Write_INT16 xDelta;; Stream_Write_INT16 yDelta).

Definition input_send_fastpath_qoe_event (timestampMS : Z) : M inClient unit :=
  input_ensure_client_running;;
  if negb (HasQoeEvent settings) then failure
  else
    send_one 0 TS_FP_QOETIMESTAMP_EVENT
      (Stream_EnsureRemainingCapacity 4;; Stream_Write_UINT32 timestampMS).

Fixpoint write_u8s (bs : list Z) : M wStream unit :=
  match bs with [] => mret tt | b :: bs => Stream_Write_UINT8 b;; write_u8s bs end.

(** Several events in one packet. *)
Definition send_several (n : Z) (bs : list Z) : M inClient unit :=
  in_stream 256
    (sec_flags ← fastpath_input_pdu_init_header;
     on_stream (write_u8s bs);;
     fastpath_send_multiple_input_pdu n sec_flags).

Definition input_send_fastpath_focus_in_event (toggleStates : Z) : M inClient unit :=
  input_ensure_client_running;;
  let release := Z.lor FASTPATH_INPUT_KBDFLAGS_RELEASE (Z.shiftl FASTPATH_INPUT_EVENT_SCANCODE 5) in
  send_several 3 [release; 0x0f; Z.lor (Z.land toggleStates 0x1F) (Z.shiftl FASTPATH_INPUT_EVENT_SYNC 5); release; 0x0f].

Definition input_send_fastpath_keyboard_pause_event : M inClient unit :=
  let keyDownEvent := Z.shiftl FASTPATH_INPUT_EVENT_SCANCODE 5 in
  let keyUpEvent := Z.lor (Z.shiftl FASTPATH_INPUT_EVENT_SCANCODE 5) FASTPATH_INPUT_KBDFLAGS_RELEASE in
  input_ensure_client_running;;
  send_several 4 [Z.lor keyDownEvent FASTPATH_INPUT_KBDFLAGS_PREFIX_E1; RDP_SCANCODE_CODE RDP_SCANCODE_LCONTROL;
    keyDownEvent; RDP_SCANCODE_CODE RDP_SCANCODE_NUMLOCK;
    Z.lor keyUpEvent FASTPATH_INPUT_KBDFLAGS_PREFIX_E1; RDP_SCANCODE_CODE RDP_SCANCODE_LCONTROL;
    keyUpEvent; RDP_SCANCODE_CODE RDP_SCANCODE_NUMLOCK].

(** The slow path. *)
Definition rdp_write_client_input_pdu_header (number : Z) : M wStream unit :=
  c ← Stream_GetRemainingCapacity; assert (4 <=? c);;
  Stream_Write_UINT16 number;;
  Stream_Write_UINT16 0.

Definition rdp_write_input_event_header (time type : Z) : M wStream unit :=
  c ← Stream_GetRemainingCapacity; assert (6 <=? c);;
  Stream_Write_UINT32 time;;
  Stream_Write_UINT16 type.

(** [rdp_client_input_pdu_init], the body of the event and [rdp_send_client_input_pdu]. *)
Definition slow_packet (type : Z) (body : M wStream unit) : Sending unit :=
  on_stream (rdp_write_client_input_pdu_header 1);;
  on_stream (rdp_write_input_event_header 0 type);;
  on_stream body;;
  y ← get;
  with_wire (rdp_send_data_pdu DATA_PDU_TYPE_INPUT y.2).

Definition send_slow (type : Z) (body : M wStream unit) : M inClient unit := fun x =>
  match rdp_data_pdu_init (cl_wire x) with
  | Ret s w =>
      match slow_packet type body (set_cl_wire w x, s) with
      | Ret _ (x', _) => Ret tt x'
      | Fail (x', _) => Fail x'
      | Crash f => Crash f
      end
  | Fail w => Fail (set_cl_wire w x)
  | Crash f => Crash f
  end.

Definition input_write_synchronize_event (flags : Z) : M wStream unit :=
  c ← Stream_GetRemainingCapacity; assert (6 <=? c);;
  Stream_Write_UINT16 0;;
  Stream_Write_UINT32 flags.

Definition input_write_keyboard_event (flags code : Z) : M wStream unit :=
  assert (code <=? UINT8_MAX);;
  Stream_Write_UINT16 flags;; Stream_Write_UINT16 code;; Stream_Write_UINT16 0.

Definition input_write_unicode_keyboard_event (flags code : Z) : M wStream unit :=
  Stream_Write_UINT16 flags;; Stream_Write_UINT16 code;; Stream_Write_UINT16 0.

Definition input_send_synchronize_event (flags : Z) : M inClient unit :=
  input_ensure_client_running;; send_slow INPUT_EVENT_SYNC (input_write_synchronize_event flags).

Definition input_send_keyboard_event (flags code : Z) : M inClient unit :=
  input_ensure_client_running;; send_slow INPUT_EVENT_SCANCODE (input_write_keyboard_event flags code).

Definition input_send_unicode_keyboard_event (flags code : Z) : M inClient unit :=
  input_ensure_client_running;;
  if negb (UnicodeInput settings) then failure
  else send_slow INPUT_EVENT_UNICODE (input_write_unicode_keyboard_event flags code).

Definition input_send_mouse_event (flags x y : Z) : M inClient unit :=
  input_ensure_client_running;;
  if negb (HasHorizontalWheel settings) && has flags PTR_FLAGS_HWHEEL then mret tt
  else send_slow INPUT_EVENT_MOUSE (input_write_mouse_event flags x y).

Definition input_send_relmouse_event (flags xDelta yDelta : Z) : M inClient unit :=
  input_ensure_client_running;;
  if negb (HasRelativeMouseEvent settings) then failure
  else
    send_slow INPUT_EVENT_MOUSEREL
      (Stream_Write_UINT16 flags;; Stream_Write_INT16 xDelta;; Stream_Write_INT16 yDelta).

Definition input_send_extended_mouse_event (flags x y : Z) : M inClient unit :=
  input_ensure_client_running;;
  if negb (HasExtendedMouseEvent settings) then mret tt
  else send_slow INPUT_EVENT_MOUSEX (input_write_extended_mouse_event flags x y).

Definition input_send_focus_in_event (toggleStates : Z) : M inClient unit :=
  input_send_keyboard_event KBD_FLAGS_RELEASE 0x0f;;
  input_send_synchronize_event (Z.land toggleStates 0x1F);;
  input_send_keyboard_event KBD_FLAGS_RELEASE 0x0f.

Definition input_send_keyboard_pause_event : M inClient unit :=
  input_send_keyboard_event KBD_FLAGS_EXTENDED1 (RDP_SCANCODE_CODE RDP_SCANCODE_LCONTROL);;
  input_send_keyboard_event 0 (RDP_SCANCODE_CODE RDP_SCANCODE_NUMLOCK);;
  input_send_keyboard_event (Z.lor KBD_FLAGS_RELEASE KBD_FLAGS_EXTENDED1) (RDP_SCANCODE_CODE RDP_SCANCODE_LCONTROL);;
  input_send_keyboard_event KBD_FLAGS_RELEASE (RDP_SCANCODE_CODE RDP_SCANCODE_NUMLOCK).

(** What the application asks for.  [input_register_client_callbacks] chooses the path; the slow
    path has no callback for the timestamps. *)
Inductive event :=
  | Synchronize (flags : Z)
  | Keyboard (flags code : Z)
  | KeyboardPause
  | UnicodeKeyboard (flags code : Z)
  | Mouse (flags x y : Z)
  | RelMouse (flags xDelta yDelta : Z)
  | ExtendedMouse (flags x y : Z)
  | FocusIn (toggleStates : Z)
  | QoE (timestampMS : Z).

Definition input_register_client_callbacks (e : event) : M inClient unit :=
  if FastPathInput settings then
    match e with
    | Synchronize f => input_send_fastpath_synchronize_event f
    | Keyboard f c => input_send_fastpath_keyboard_event f c
    | KeyboardPause => input_send_fastpath_keyboard_pause_event
    | UnicodeKeyboard f c => input_send_fastpath_unicode_keyboard_event f c
    | Mouse f x y => input_send_fastpath_mouse_event f x y
    | RelMouse f x y => input_send_fastpath_relmouse_event f x y
    | ExtendedMouse f x y => input_send_fastpath_extended_mouse_event f x y
    | FocusIn t => input_send_fastpath_focus_in_event t
    | QoE t => input_send_fastpath_qoe_event t
    end
  else
    match e with
    | Synchronize f => input_send_synchronize_event f
    | Keyboard f c => input_send_keyboard_event f c
    | KeyboardPause => input_send_keyboard_pause_event
    | UnicodeKeyboard f c => input_send_unicode_keyboard_event f c
    | Mouse f x y => input_send_mouse_event f x y
    | RelMouse f x y => input_send_relmouse_event f x y
    | ExtendedMouse f x y => input_send_extended_mouse_event f x y
    | FocusIn t => input_send_focus_in_event t
    | QoE _ => mret tt
    end.

(** [now] is the result of [time]. *)
Definition input_update_last_event (now : Z) (mouse : bool) (x y : Z) : M inClient unit :=
  if 0 <? FakeMouseMotionInterval settings then
    now ← asserting_cast (fun t => t mod 2 ^ 64) now;
    modify (fun c => mkInClient (cl_keys c) (cl_wire c) now
                       (if mouse then x else lastX c) (if mouse then y else lastY c))
  else mret tt.

(** The functions [freerdp_input_send_*]. *)
Definition freerdp_input_send (now : Z) (e : event) : M inClient unit :=
  let suspended := SuspendInput settings in
  let send := input_register_client_callbacks e in
  match e with
  | Synchronize _ | FocusIn _ | KeyboardPause => if suspended then mret tt else send
  | Keyboard _ _ | UnicodeKeyboard _ _ =>
      if suspended then mret tt else input_update_last_event now false 0 0;; send
  | Mouse flags x y =>
      if suspended then mret tt
      else
        input_update_last_event now
          (has flags (Z.lor (Z.lor (Z.lor PTR_FLAGS_MOVE PTR_FLAGS_BUTTON1) PTR_FLAGS_BUTTON2) PTR_FLAGS_BUTTON3)) x y;;
        send
  | RelMouse _ _ _ => if suspended then mret tt else send
  | ExtendedMouse _ x y =>
      if suspended then mret tt else input_update_last_event now true x y;; send
  | QoE _ => send
  end.

Definition freerdp_input_send_keyboard_event_ex (now : Z) (down repeated : bool) (rdp_scancode : Z) : M inClient unit :=
  let flags := Z.lor (if RDP_SCANCODE_EXTENDED rdp_scancode then KBD_FLAGS_EXTENDED else 0)
                 (if down && repeated then KBD_FLAGS_DOWN else if negb down then KBD_FLAGS_RELEASE else 0) in
  freerdp_input_send now (Keyboard flags (RDP_SCANCODE_CODE rdp_scancode)).
End Client.
