(* ===== verification/InputDelivery.v ===== *)
(** * Delivery of input events

    The events a client sends make the server call back with them, in order, over either path;
    and the server reads any packet of the fast path without a fault.  The slow path has a fault
    for an event of an unknown type at the end of a packet. *)

From S2P Require Import Prelude Stream Per Tpkt Packet FastPath FastPathDelivery Input.

(** ** Signed words *)

Definition is_i16 (v : Z) : Prop := -32768 <= v <= 32767.

Lemma writes_i16 v : is_i16 v -> writes (Stream_Write_INT16 v) (winpr_Data_Write_INT16 v).
Proof.
  intros Hv. unfold is_i16 in Hv. split.
  - repeat apply Forall_cons_2; try apply Forall_nil_2; rewrite land_FF; apply is_byte_mod.
  - intros s Hs Hc. unfold Stream_Write_INT16. asserts_hold. by apply write_unchecked_eq.
Qed.

Lemma parses_i16 v : is_i16 v -> parses Stream_Read_INT16 (winpr_Data_Write_INT16 v) v.
Proof.
  intros Hv. unfold is_i16 in Hv.
  assert (E : winpr_Data_Get_INT16 (winpr_Data_Write_INT16 v) = v).
  { unfold winpr_Data_Get_INT16. change (winpr_Data_Write_INT16 v) with (winpr_Data_Write_UINT16 v).
    rewrite Write_UINT16_eq, Get_UINT16_eq by apply is_byte_mod. unfold to_signed. change (2 ^ (16 - 1)) with 32768. change (2 ^ 16) with 65536.
    zcase; word_lia. }
  rewrite <- E at 2. by apply (parses_stream_read 2 winpr_Data_Get_INT16).
Qed.

(** ** Callbacks and their bytes *)

Inductive call :=
  | CSync (flags : Z)
  | CKey (flags code : Z)
  | CUnicode (flags code : Z)
  | CMouse (flags x y : Z)
  | CRel (flags x y : Z)
  | CExt (flags x y : Z)
  | CQoE (t : Z).

Section Calls.
Context `{Inputs}.

Definition run_call (c : call) : M inp unit :=
  match c with
  | CSync f => SynchronizeEvent f
  | CKey f c => KeyboardEvent f c
  | CUnicode f c => UnicodeKeyboardEvent f c
  | CMouse f x y => MouseEvent f x y
  | CRel f x y => RelMouseEvent f x y
  | CExt f x y => ExtendedMouseEvent f x y
  | CQoE t => QoEEvent t
  end.

Fixpoint run_calls (cs : list call) : M inp unit :=
  match cs with [] => mret tt | c :: cs => run_call c;; run_calls cs end.
End Calls.

(** The flags of a key on the fast path. *)
Definition key_flags (flags : Z) : Z :=
  Z.lor (Z.lor (if has flags KBD_FLAGS_RELEASE then FASTPATH_INPUT_KBDFLAGS_RELEASE else 0)
           (if has flags KBD_FLAGS_EXTENDED then FASTPATH_INPUT_KBDFLAGS_EXTENDED else 0))
    (if has flags KBD_FLAGS_EXTENDED1 then FASTPATH_INPUT_KBDFLAGS_PREFIX_E1 else 0).

Definition event_header (flags code : Z) : Z := u8 (Z.lor flags (Z.shiftl code 5)).

Definition words3 (f x y : Z) : list Z :=
  winpr_Data_Write_UINT16 f ++ winpr_Data_Write_UINT16 x ++ winpr_Data_Write_UINT16 y.

(** A callback on the fast path. *)
Definition fast_bytes (c : call) : list Z :=
  match c with
  | CSync f => [event_header f FASTPATH_INPUT_EVENT_SYNC]
  | CKey f c => [event_header (key_flags f) FASTPATH_INPUT_EVENT_SCANCODE; c]
  | CUnicode f c =>
      event_header (if has f KBD_FLAGS_RELEASE then FASTPATH_INPUT_KBDFLAGS_RELEASE else 0) FASTPATH_INPUT_EVENT_UNICODE
        :: winpr_Data_Write_UINT16 c
  | CMouse f x y => event_header 0 FASTPATH_INPUT_EVENT_MOUSE :: words3 f x y
  | CRel f x y => event_header 0 TS_FP_RELPOINTER_EVENT :: words3 f x y
  | CExt f x y => event_header 0 FASTPATH_INPUT_EVENT_MOUSEX :: words3 f x y
  | CQoE t => event_header 0 TS_FP_QOETIMESTAMP_EVENT :: winpr_Data_Write_UINT32 t
  end.

(** The flags that a key has on the fast path. *)
Definition KEY_FLAGS : Z := 0x8300.

(** What the server makes of the call that the client asked for: the fast path keeps the three
    flags of a key, the slow path takes [KBD_FLAGS_DOWN] off a key that is released. *)
Definition heard (fast : bool) (c : call) : call :=
  match c with
  | CKey f c => CKey (if fast then Z.land f KEY_FLAGS else fix_flags f) c
  | CUnicode f c => CUnicode (if fast then Z.land f KBD_FLAGS_RELEASE else fix_flags f) c
  | c => c
  end.

(** Callbacks that the fast path can carry to a server with these settings. *)
Definition fast_ok (settings : inSettings) (c : call) : Prop :=
  match c with
  | CSync f => 0 <= f < 32
  | CKey f c => is_u16 f /\ is_byte c
  | CUnicode f c => is_u16 f /\ is_u16 c
  | CMouse f x y => is_u16 f /\ is_u16 x /\ is_u16 y
  | CRel f x y => is_u16 f /\ is_i16 x /\ is_i16 y /\ HasRelativeMouseEvent settings = true
  | CExt f x y => is_u16 f /\ is_u16 x /\ is_u16 y /\ HasExtendedMouseEvent settings = true
  | CQoE t => is_u32 t /\ HasQoeEvent settings = true
  end.

Lemma event_header_fields flags code :
  0 <= flags < 32 -> 0 <= code < 8 ->
  (Z.land (event_header flags code) 0x1F, Z.shiftr (event_header flags code) 5) = (flags, code).
Proof.
  intros Hf Hc.
  pose proof (zrange_forall 32 (fun f => zforall_from 8 0 (fun c =>
    (Z.land (event_header f c) 0x1F =? f) && (Z.shiftr (event_header f c) 5 =? c))) ltac:(reflexivity) flags Hf) as F.
  cbn beta in F. apply (zforall_from_spec _ _ _) with (y := code) in F; [|lia].
  apply andb_prop in F as [F1 F2]. apply Z.eqb_eq in F1, F2. by rewrite F1, F2.
Qed.

Lemma key_flags_range f : 0 <= key_flags f < 32.
Proof. unfold key_flags. destruct (has f KBD_FLAGS_RELEASE), (has f KBD_FLAGS_EXTENDED), (has f KBD_FLAGS_EXTENDED1); split; by vm_compute. Qed.

(** A bit of the flags. *)
Lemma land_bit f k : 0 <= k -> Z.land f (2 ^ k) = if has f (2 ^ k) then 2 ^ k else 0.
Proof.
  intros Hk. assert (E : Z.land f (2 ^ k) = 0 \/ Z.land f (2 ^ k) = 2 ^ k).
  { destruct (Z.testbit f k) eqn:Eb; [right|left]; apply Z.bits_inj'; intros i Hi; rewrite Z.land_spec, Z.pow2_bits_eqb by done;
      rewrite ?Z.bits_0; destruct (Z.eqb_spec k i) as [<-|]; rewrite ?Eb, ?andb_false_r, ?andb_true_r; done. }
  unfold has. pose proof (Z.pow_pos_nonneg 2 k ltac:(lia) Hk). destruct E as [E|E]; rewrite E; [done|].
  by rewrite (proj2 (Z.eqb_neq _ _)) by lia.
Qed.

(** The flags of a key survive the fast path. *)
Lemma key_flags_back f :
  Z.lor (Z.lor (if has (key_flags f) FASTPATH_INPUT_KBDFLAGS_RELEASE then KBD_FLAGS_RELEASE else 0)
           (if has (key_flags f) FASTPATH_INPUT_KBDFLAGS_EXTENDED then KBD_FLAGS_EXTENDED else 0))
    (if has (key_flags f) FASTPATH_INPUT_KBDFLAGS_PREFIX_E1 then KBD_FLAGS_EXTENDED1 else 0) = Z.land f KEY_FLAGS.
Proof.
  unfold KEY_FLAGS. change 0x8300 with (Z.lor (Z.lor (2 ^ 15) (2 ^ 8)) (2 ^ 9)).
  rewrite !Z.land_lor_distr_r, !land_bit by done. unfold key_flags.
  change (2 ^ 15) with KBD_FLAGS_RELEASE. change (2 ^ 8) with KBD_FLAGS_EXTENDED. change (2 ^ 9) with KBD_FLAGS_EXTENDED1.
  by destruct (has f KBD_FLAGS_RELEASE), (has f KBD_FLAGS_EXTENDED), (has f KBD_FLAGS_EXTENDED1).
Qed.

(** ** Reading *)

(** [rd] reads [bs], whatever follows, and turns [u] into [u']. *)
Definition takes {R} (rd : M (R * wStream) unit) (bs : list Z) (u u' : R) : Prop :=
  forall s tl, readable s -> rest s = bs ++ tl -> rd (u, s) = Ret tt (u', advance (zlen bs) s).

Lemma takes_bind {R A} (rd : M wStream A) (k : A -> M (R * wStream) unit) b1 b2 v u u' :
  parses rd b1 v -> takes (k v) b2 u u' -> takes (on_stream rd ≫= k) (b1 ++ b2) u u'.
Proof.
  intros Hp Hk s tl Hs Hr. rewrite <- app_assoc in Hr. rewrite (on_stream_bind _ _ _ _ _ _ (Hp s _ Hs Hr)).
  destruct (readable_after s b1 (b2 ++ tl) Hs Hr) as [Hs' Hr'].
  by rewrite (Hk _ tl Hs' Hr'), advance_advance, zlen_app.
Qed.

Lemma takes_seq {R} (m : M (R * wStream) unit) (k : unit -> M (R * wStream) unit) b1 b2 u u1 u2 :
  takes m b1 u u1 -> takes (k tt) b2 u1 u2 -> takes (m ≫= k) (b1 ++ b2) u u2.
Proof.
  intros Hm Hk s tl Hs Hr. rewrite <- app_assoc in Hr. rewrite (bind_ret_eq _ _ _ _ _ (Hm s _ Hs Hr)).
  destruct (readable_after s b1 (b2 ++ tl) Hs Hr) as [Hs' Hr'].
  by rewrite (Hk _ tl Hs' Hr'), advance_advance, zlen_app.
Qed.

Lemma takes_check {R} n (k : unit -> M (R * wStream) unit) bs u u' :
  n <= zlen bs -> takes (k tt) bs u u' -> takes (on_stream (Stream_CheckAndLogRequiredLength n) ≫= k) bs u u'.
Proof.
  intros Hn Hk s tl Hs Hr. rewrite check_bind; [by apply (Hk s tl)|done|].
  rewrite Hr, zlen_app. pose proof (zlen_nonneg tl). lia.
Qed.

Lemma takes_ret {R} (u : R) : takes (mret tt) [] u u.
Proof. intros s tl _ _. by rewrite zlen_nil, advance_0. Qed.

Section Reading.
Context `{Security} `{Inputs} (settings : inSettings).

Lemma takes_call_back (m : M inp unit) u u' : m u = Ret tt u' -> takes (call_back m) [] u u'.
Proof. intros E s tl _ _. unfold call_back, on_field. cbn [fst snd id]. by rewrite E, zlen_nil, advance_0. Qed.

Lemma takes_call_back_last {A} (rd : M wStream A) (k : A -> M inp unit) bs v u u' :
  parses rd bs v -> k v u = Ret tt u' -> takes (v ← on_stream rd; call_back (k v)) bs u u'.
Proof. intros Hp E. rewrite <- (app_nil_r bs). eapply takes_bind; [exact Hp|]. by apply takes_call_back. Qed.

Lemma zlen_words3 f x y : zlen (words3 f x y) = 6.
Proof. done. Qed.

(** The three words of an event with a position. *)
Lemma takes_words3 (c : bool) (k : Z -> Z -> Z -> M inp unit) f x y u u' :
  is_u16 f -> is_u16 x -> is_u16 y -> c = true -> k f x y u = Ret tt u' ->
  takes (on_stream (Stream_CheckAndLogRequiredLength 6);;
         f ← on_stream Stream_Read_UINT16; x ← on_stream Stream_Read_UINT16; y ← on_stream Stream_Read_UINT16;
         if negb c then failure else call_back (k f x y)) (words3 f x y) u u'.
Proof.
  intros Hf Hx Hy -> E. apply takes_check; [done|]. unfold words3.
  apply (takes_bind _ _ _ _ f); [by apply parses_u16|]. apply (takes_bind _ _ _ _ x); [by apply parses_u16|].
  by apply (takes_call_back_last _ (fun y => k f x y) _ y); [apply parses_u16|].
Qed.

Lemma takes_deltas (c : bool) (k : Z -> Z -> Z -> M inp unit) f x y u u' :
  is_u16 f -> is_i16 x -> is_i16 y -> c = true -> k f x y u = Ret tt u' ->
  takes (on_stream (Stream_CheckAndLogRequiredLength 6);;
         f ← on_stream Stream_Read_UINT16; x ← on_stream Stream_Read_INT16; y ← on_stream Stream_Read_INT16;
         if negb c then failure else call_back (k f x y)) (words3 f x y) u u'.
Proof.
  intros Hf Hx Hy -> E. apply takes_check; [done|]. unfold words3.
  apply (takes_bind _ _ _ _ f); [by apply parses_u16|]. apply (takes_bind _ _ _ _ x); [by apply parses_i16|].
  by apply (takes_call_back_last _ (fun y => k f x y) _ y); [apply parses_i16|].
Qed.

Lemma parses_event_header flags code :
  0 <= flags < 32 -> 0 <= code < 8 -> parses fastpath_read_input_event_header [event_header flags code] (flags, code).
Proof.
  intros Hf Hc. apply parses_check; [by vm_compute|]. apply parses_u8_bind.
  rewrite <- (event_header_fields flags code) by done. apply parses_ret.
Qed.

(** One event of a packet: the server makes the call. *)
Lemma fast_event_taken c u u' :
  fast_ok settings c -> run_call (heard true c) u = Ret tt u' ->
  takes (fastpath_recv_input_event settings) (fast_bytes c) u u'.
Proof.
  intros Hc E. unfold fastpath_recv_input_event.
  assert (Hk := key_flags_range). destruct c as [f|f c|f c|f x y|f x y|f x y|t]; cbn [fast_ok heard run_call fast_bytes] in *.
  - apply (takes_bind _ _ [_] [] (f, FASTPATH_INPUT_EVENT_SYNC)); [by apply parses_event_header|]. by apply takes_call_back.
  - destruct Hc as (Hf & Hb).
    apply (takes_bind _ _ [_] [c] (key_flags f, FASTPATH_INPUT_EVENT_SCANCODE)); [by apply parses_event_header|].
    apply takes_check; [done|]. apply (takes_call_back_last _ (fun c => KeyboardEvent _ c) _ c); [apply parses_u8|].
    by rewrite key_flags_back.
  - destruct Hc as (Hf & Hc). set (k := if has f KBD_FLAGS_RELEASE then FASTPATH_INPUT_KBDFLAGS_RELEASE else 0).
    apply (takes_bind _ _ [_] _ (k, FASTPATH_INPUT_EVENT_UNICODE)).
    { apply parses_event_header; [unfold k; destruct (has f KBD_FLAGS_RELEASE); split; by vm_compute|done]. }
    apply takes_check; [done|]. apply (takes_call_back_last _ (fun c => UnicodeKeyboardEvent _ c) _ c); [by apply parses_u16|].
    change KBD_FLAGS_RELEASE with (2 ^ 15) in *. rewrite land_bit in E by done. unfold k. by destruct (has f (2 ^ 15)).
  - destruct Hc as (Hf & Hx & Hy).
    apply (takes_bind _ _ [_] _ (0, FASTPATH_INPUT_EVENT_MOUSE)); [by apply parses_event_header|].
    by apply (takes_words3 true MouseEvent).
  - destruct Hc as (Hf & Hx & Hy & Hs).
    apply (takes_bind _ _ [_] _ (0, TS_FP_RELPOINTER_EVENT)); [by apply parses_event_header|]. by apply takes_deltas.
  - destruct Hc as (Hf & Hx & Hy & Hs).
    apply (takes_bind _ _ [_] _ (0, FASTPATH_INPUT_EVENT_MOUSEX)); [by apply parses_event_header|]. by apply takes_words3.
  - destruct Hc as (Ht & Hs).
    apply (takes_bind _ _ [_] _ (0, TS_FP_QOETIMESTAMP_EVENT)); [by apply parses_event_header|].
    apply takes_check; [done|]. rewrite <- (app_nil_r (winpr_Data_Write_UINT32 t)).
    apply (takes_bind _ _ _ [] t); [by apply parses_u32|]. rewrite Hs. by apply takes_call_back.
Qed.

(** The events of a packet. *)
Lemma events_taken (recv : M (inp * wStream) unit) (bytes_of : call -> list Z) (ok : call -> Prop) (call_of : call -> call) cs u u' :
  (forall c u u', ok c -> run_call (call_of c) u = Ret tt u' -> takes recv (bytes_of c) u u') ->
  Forall ok cs -> run_calls (map call_of cs) u = Ret tt u' ->
  takes (recv_events (length cs) recv) (concat (map bytes_of cs)) u u'.
Proof.
  intros Hrecv Hcs. revert u. induction Hcs as [|c cs Hc _ IH]; intros u E; cbn [run_calls recv_events length map concat] in *.
  - injection E as <-. apply takes_ret.
  - apply bind_ret_inv in E as ([] & u1 & E1 & E2). eapply takes_seq; [by apply Hrecv|]. by apply IH.
Qed.
End Reading.

(** A callback on the slow path. *)
Definition slow_body (c : call) : list Z :=
  match c with
  | CSync f => winpr_Data_Write_UINT16 0 ++ winpr_Data_Write_UINT32 f
  | CKey f c | CUnicode f c => words3 f c 0
  | CMouse f x y | CRel f x y | CExt f x y => words3 f x y
  | CQoE _ => []
  end.

Definition slow_type (c : call) : Z :=
  match c with
  | CSync _ => INPUT_EVENT_SYNC
  | CKey _ _ => INPUT_EVENT_SCANCODE
  | CUnicode _ _ => INPUT_EVENT_UNICODE
  | CMouse _ _ _ => INPUT_EVENT_MOUSE
  | CRel _ _ _ => INPUT_EVENT_MOUSEREL
  | CExt _ _ _ => INPUT_EVENT_MOUSEX
  | CQoE _ => 0
  end.

Definition slow_bytes (c : call) : list Z :=
  winpr_Data_Write_UINT32 0 ++ winpr_Data_Write_UINT16 (slow_type c) ++ slow_body c.

Definition slow_ok (settings : inSettings) (c : call) : Prop :=
  match c with
  | CSync f => is_u32 f
  | CKey f c => is_u16 f /\ is_byte c
  | CUnicode f c => is_u16 f /\ is_u16 c
  | CMouse f x y => is_u16 f /\ is_u16 x /\ is_u16 y
  | CRel f x y => is_u16 f /\ is_i16 x /\ is_i16 y /\ HasRelativeMouseEvent settings = true
  | CExt f x y => is_u16 f /\ is_u16 x /\ is_u16 y /\ HasExtendedMouseEvent settings = true
  | CQoE _ => False
  end.

Section SlowReading.
Context `{Inputs} (settings : inSettings).

(** Two words and two bytes of padding. *)
Lemma takes_key (k : Z -> Z -> M inp unit) f c u u' :
  is_u16 f -> is_u16 c -> k f c u = Ret tt u' ->
  takes (on_stream (Stream_CheckAndLogRequiredLength 6);;
         f ← on_stream Stream_Read_UINT16; c ← on_stream Stream_Read_UINT16; on_stream (Stream_Seek 2);;
         call_back (k f c)) (words3 f c 0) u u'.
Proof.
  intros Hf Hc E. apply takes_check; [done|]. unfold words3.
  apply (takes_bind _ _ _ _ f); [by apply parses_u16|]. apply (takes_bind _ _ _ _ c); [by apply parses_u16|].
  apply (takes_call_back_last _ (fun _ => k f c) _ tt); [by apply parses_seek|done].
Qed.

Lemma slow_event_taken c u u' :
  slow_ok settings c -> run_call (heard false c) u = Ret tt u' -> takes (input_recv_event settings) (slow_bytes c) u u'.
Proof.
  intros Hc E. unfold input_recv_event, slow_bytes.
  assert (Ht : is_u16 (slow_type c)) by (destruct c; split; by vm_compute).
  apply takes_check; [by destruct c|]. apply (takes_bind _ _ _ _ tt); [by apply parses_seek|].
  apply (takes_bind _ _ _ _ (slow_type c)); [by apply parses_u16|].
  destruct c as [f|f c|f c|f x y|f x y|f x y|t]; cbn [slow_ok heard run_call slow_type slow_body] in *.
  - apply takes_check; [done|]. apply (takes_bind _ _ _ _ tt); [by apply parses_seek|].
    by apply (takes_call_back_last _ SynchronizeEvent _ f); [apply parses_u32|].
  - destruct Hc as (Hf & Hc). apply (takes_key (fun f c => KeyboardEvent (fix_flags f) (Z.land c 0xFF))); [done|word_lia|].
    rewrite land_FF, Z.mod_small by word_lia. done.
  - destruct Hc as (Hf & Hc). by apply (takes_key (fun f c => UnicodeKeyboardEvent (fix_flags f) c)).
  - destruct Hc as (Hf & Hx & Hy). by apply (takes_words3 true MouseEvent).
  - destruct Hc as (Hf & Hx & Hy & Hs). by apply takes_deltas.
  - destruct Hc as (Hf & Hx & Hy & Hs). by apply takes_words3.
  - done.
Qed.

(** A packet of the slow path, after its headers. *)
Definition slow_pdu (cs : list call) : list Z :=
  winpr_Data_Write_UINT16 (zlen cs) ++ winpr_Data_Write_UINT16 0 ++ concat (map slow_bytes cs).

Lemma zlen_slow_bytes c : slow_ok settings c -> zlen (slow_bytes c) = 12.
Proof. by destruct c. Qed.

Lemma zlen_slow_events cs : Forall (slow_ok settings) cs -> zlen (concat (map slow_bytes cs)) = 12 * zlen cs.
Proof.
  induction 1 as [|c cs Hc _ IH]; [done|]. cbn [map concat]. rewrite zlen_app, zlen_cons, IH, zlen_slow_bytes by done. lia.
Qed.

Lemma slow_pdu_taken cs u u' :
  Forall (slow_ok settings) cs -> zlen cs < 65536 -> run_calls (map (heard false) cs) u = Ret tt u' ->
  takes (input_recv settings) (slow_pdu cs) u u'.
Proof.
  intros Hcs Hl E. pose proof (zlen_nonneg cs). pose proof (zlen_slow_events cs Hcs) as Hz.
  assert (Hev : takes (recv_events (Z.to_nat (zlen cs)) (input_recv_event settings)) (concat (map slow_bytes cs)) u u').
  { replace (Z.to_nat (zlen cs)) with (length cs) by (unfold zlen; lia).
    apply (events_taken _ _ (slow_ok settings) (heard false)); [intros; by apply slow_event_taken|done|done]. }
  unfold input_recv, slow_pdu. apply takes_check; [rewrite !zlen_app, !zlen_Write_UINT16; lia|].
  apply (takes_bind _ _ _ _ (zlen cs)); [by apply parses_u16|]. apply (takes_bind _ _ _ _ tt); [by apply parses_seek|].
  intros s tl Hs Hr. rewrite (on_stream_bind _ _ _ _ tt s); [by apply (Hev s tl)|].
  unfold Stream_CheckAndLogRequiredLengthEx. rewrite assert_bind by done.
  rewrite (bind_ret_eq _ _ _ _ _ (remaining_length_eq s Hs)).
  pose proof (rem_parses s _ _ Hs Hr) as Hrem. rewrite Hz in Hrem.
  assert (zlen cs <= rem s / 6) by (apply Z.div_le_lower_bound; lia).
  unfold guard. by rewrite (proj2 (Z.ltb_ge _ _)) by lia.
Qed.
End SlowReading.

(** ** Packets of the fast path *)

Definition in_packet (n : Z) (body : list Z) : list Z :=
  u8 (Z.shiftl n 2) :: Z.lor 0x80 (Z.shiftr (packet_length body) 8) :: Z.land (packet_length body) 0xFF :: body.

Lemma input_header_fields n : 0 < n <= 15 ->
  is_byte (u8 (Z.shiftl n 2)) /\ Z.shiftr (Z.land (u8 (Z.shiftl n 2)) 0xC0) 6 = 0 /\ Z.shiftr (Z.land (u8 (Z.shiftl n 2)) 0x3C) 2 = n.
Proof.
  intros Hn. split; [apply is_byte_mod|].
  pose proof (zrange_forall 16 (fun n => (Z.shiftr (Z.land (u8 (Z.shiftl n 2)) 0xC0) 6 =? 0) &&
    (Z.shiftr (Z.land (u8 (Z.shiftl n 2)) 0x3C) 2 =? n)) ltac:(reflexivity) n ltac:(lia)) as F.
  apply andb_prop in F as [F1 F2]. by apply Z.eqb_eq in F1, F2.
Qed.

Lemma bytes_in_packet n body : 0 < n <= 15 -> bytes body -> zlen body < 16381 -> bytes (in_packet n body).
Proof.
  intros Hn Hb Hl. pose proof (bytes_packet body Hb Hl) as Hp. unfold in_packet, fp_packet in *.
  apply Forall_cons_1 in Hp as [_ Hp]. apply Forall_cons_2; [by apply input_header_fields|done].
Qed.

Lemma bytes_fast settings c : fast_ok settings c -> bytes (fast_bytes c).
Proof.
  assert (Hw : forall v, bytes (winpr_Data_Write_UINT16 v)) by apply bytes_Write_UINT16.
  assert (Hh : forall f c, is_byte (event_header f c)) by (intros; apply is_byte_mod).
  assert (Hw3 : forall f x y, bytes (words3 f x y)) by (intros; by repeat apply Forall_app_2).
  destruct c; cbn [fast_ok fast_bytes]; intros Hc; (apply Forall_cons_2; [apply Hh|]); try apply Hw3; try apply Hw;
    try apply bytes_Write_UINT32; try apply Forall_nil_2.
  apply Forall_cons_2; [apply Hc|apply Forall_nil_2].
Qed.

Lemma bytes_events settings cs : Forall (fast_ok settings) cs -> bytes (concat (map fast_bytes cs)).
Proof.
  induction 1 as [|c cs Hc _ IH]; [apply Forall_nil_2|]. cbn [map concat]. apply Forall_app_2; [by apply (bytes_fast settings)|done].
Qed.

Section FastPackets.
Context `{Security} `{Inputs} (settings : inSettings).

Lemma peer_recv_ok cs x u' :
  Forall (fast_ok settings) cs -> 0 < zlen cs <= 15 -> zlen (concat (map fast_bytes cs)) < 16381 ->
  run_calls (map (heard true) cs) (srv_inp x) = Ret tt u' ->
  exists x' s', peer_recv_fastpath_pdu settings (x, Stream_StaticInit (in_packet (zlen cs) (concat (map fast_bytes cs)))) = Ret tt (x', s') /\
    srv_inp x' = u' /\ rem s' = 0 /\ inPackets x' = usize (inPackets x + 1).
Proof.
  intros Hcs Hn Hl E. set (body := concat (map fast_bytes cs)) in *.
  destruct (input_header_fields (zlen cs) Hn) as (_ & He & Hne).
  assert (Hb : bytes body) by (by apply (bytes_events settings)).
  pose proof (bytes_in_packet (zlen cs) body Hn Hb Hl) as Hp. set (p := in_packet (zlen cs) body) in *.
  assert (Hlp : zlen p = 3 + zlen body) by (unfold p, in_packet; rewrite !zlen_cons; lia). pose proof (zlen_nonneg body).
  assert (Hbl : 0 < zlen body).
  { destruct cs as [|c cs']; [change (zlen []) with 0 in Hn; lia|]. unfold body. cbn [map concat]. rewrite zlen_app. pose proof (zlen_nonneg (concat (map fast_bytes cs'))).
    assert (0 < zlen (fast_bytes c)) by (destruct c; cbn [fast_bytes]; rewrite zlen_cons; apply Z.lt_succ_r, zlen_nonneg). lia. }
  unfold peer_recv_fastpath_pdu.
  rewrite (bind_ret_eq _ _ _ (zlen body) (set_srv_fastpath (set_header 0 (zlen cs) (srv_fastpath x)) x, advance 3 (Stream_StaticInit p))).
  2: { unfold on_both. cbn [fst snd]. rewrite (read_header_ok _ (u8 (Z.shiftl (zlen cs) 2)) p body eq_refl Hp ltac:(lia)). by rewrite He, Hne. }
  rewrite (proj2 (Z.eqb_neq _ _)) by lia.
  destruct (readable_after (Stream_StaticInit p) (ztake 3 p) body) as [Hs3 Hr3].
  { apply readable_init; [done|lia]. }
  { unfold rest. simpl (pointer _). simpl (len _). simpl (buffer _). by rewrite Z.sub_0_r, slice_0, ztake_all. }
  change (zlen (ztake 3 p)) with 3 in Hs3, Hr3. rewrite check_bind by (done || (rewrite Hr3; lia)).
  set (y := set_srv_fastpath _ _). set (s := advance 3 _) in *.
  rewrite (bind_ret_eq _ _ _ (zlen body) (y, s)) by done.
  unfold set_module. rewrite modify_bind. cbn [fst snd]. unfold fastpath_recv_inputs, get_module.
  rewrite !bind_assoc, get_bind, ret_bind. cbn [fst]. change (numberEvents (srv_fastpath (count_packet y))) with (zlen cs).
  rewrite (proj2 (Z.eqb_neq _ _)) by lia. rewrite ret_bind, bind_assoc, get_bind, ret_bind. cbn [fst].
  change (numberEvents (srv_fastpath (count_packet y))) with (zlen cs).
  replace (Z.to_nat (zlen cs)) with (length cs) by (unfold zlen; lia).
  assert (Ht : takes (recv_events (length cs) (fastpath_recv_input_event settings)) body (srv_inp x) u').
  { apply (events_taken _ _ (fast_ok settings) (heard true)); [intros; by apply fast_event_taken|done|done]. }
  rewrite <- (app_nil_r body) in Hr3. unfold on_both. cbn [fst snd]. change (srv_inp (count_packet y)) with (srv_inp x).
  rewrite (Ht s [] Hs3 Hr3). exists (set_srv_inp u' (count_packet y)), (advance (zlen body) s). split; [reflexivity|]. split; [done|]. split; [|done].
  rewrite rem_advance, <- zlen_rest, Hr3, app_nil_r by done. lia.
Qed.
End FastPackets.

(** ** The client *)

#[local] Existing Instance tap.

Ltac room := simpl; rewrite ?zlen_cons; try change (zlen (@nil Z)) with 0; lia.

(** The header is filled in after the events. *)
Lemma header_filled h hi lo body (mem : list Z) :
  3 + zlen body <= zlen mem ->
  ztake (3 + zlen body) (blit 1 [hi; lo] (blit 0 [h] (blit 3 body mem))) = h :: hi :: lo :: body.
Proof.
  intros Hl. pose proof (zlen_nonneg body). destruct mem as [|a [|b [|c mem]]]; rewrite ?zlen_cons, ?zlen_nil in Hl; try lia.
  unfold blit. change (ztake 3 (a :: b :: c :: mem)) with [a; b; c]. cbn [app].
  change (h :: hi :: lo :: body ++ zdrop (3 + zlen body) (a :: b :: c :: mem)) with
    ((h :: hi :: lo :: body) ++ zdrop (3 + zlen body) (a :: b :: c :: mem)).
  transitivity (ztake (3 + zlen body) ((h :: hi :: lo :: body) ++ zdrop (3 + zlen body) (a :: b :: c :: mem))); [done|].
  rewrite ztake_app_le, ztake_all; rewrite ?zlen_cons; (done || lia).
Qed.

Lemma seek_ok n s : wf s -> 0 <= n -> pointer s + n <= capacity s -> Stream_Seek n s = Ret tt (advance n s).
Proof. intros Hs Hn Hc. apply seek_eq; [done|lia]. Qed.

Lemma go_to_ok p s : wf s -> 0 <= p <= capacity s -> go_to p s = Ret tt (set_pointer p s).
Proof. intros Hs Hp. apply go_to_eq. lia. Qed.

Lemma wf_at p s : wf s -> 0 <= p <= capacity s -> wf (set_pointer p s).
Proof. intros [] Hp. by split. Qed.

Section Client.
Context `{Security} `{AllocOk} {D : @DataPdu tap} (junk : Z -> list Z) (settings : inSettings).
Hypothesis junk_len : forall n, 0 <= n -> zlen (junk n) = n.
Hypothesis junk_bytes : forall n, bytes (junk n).
Context (secure : bool).

(** The packet that leaves, once the events are in the stream. *)
Lemma send_pdu_ok n body (c : inClient) s0 :
  0 < n <= 15 -> bytes body -> wf s0 -> pointer s0 = 0 -> 3 + zlen body <= capacity s0 -> capacity s0 < 16384 ->
  exists s', fastpath_send_multiple_input_pdu settings false true n 0 (c, put body (advance 3 s0)) =
    Ret tt (set_cl_wire (cl_wire c ++ [in_packet n body]) c, s').
Proof.
  intros Hn Hb Hw Hp Hc Hcap. pose proof (zlen_nonneg body). destruct (Hw).
  assert (Hw1 : wf (advance 3 s0)) by (apply wf_at; [done|lia]).
  assert (Hw2 : wf (put body (advance 3 s0))) by (apply wf_put; [done|done|room]).
  assert (Hp2 : pointer (put body (advance 3 s0)) = 3 + zlen body) by room.
  assert (Hb2 : buffer (put body (advance 3 s0)) = blit 3 body (buffer s0)) by (simpl; by rewrite Hp).
  assert (Hc2 : capacity (put body (advance 3 s0)) = capacity s0) by done.
  set (s2 := put body (advance 3 s0)) in *. clearbody s2.
  unfold fastpath_send_multiple_input_pdu. rewrite assert_bind by lia. cbn [negb]. rewrite (proj2 (Z.ltb_ge _ _)) by lia.
  rewrite (on_stream_bind _ _ _ _ _ _ (position_eq s2 Hw2)), Hp2, (proj2 (Z.leb_gt _ _)) by lia.
  change (has 0 SEC_ENCRYPT) with false. change (has 0 SEC_SECURE_CHECKSUM) with false. cbv iota.
  rewrite !Z.lor_0_r. change (Z.lor FASTPATH_INPUT_ACTION_FASTPATH (Z.shiftl n 2)) with (Z.shiftl n 2). set (h := u8 (Z.shiftl n 2)).
  assert (Hh : is_byte h) by apply is_byte_mod.
  rewrite (on_stream_bind _ _ _ _ _ _ (go_to_ok 0 s2 Hw2 ltac:(lia))).
  assert (Hw3 : wf (set_pointer 0 s2)) by (apply wf_at; [done|lia]).
  rewrite (on_stream_emits _ [h] tt _ _ _ (writes_u8 h Hh)) by (done || room).
  assert (Hw4 : wf (put [h] (set_pointer 0 s2))) by (apply wf_put; [done|by apply Forall_cons_2; [|apply Forall_nil_2]|room]).
  rewrite (on_stream_bind _ _ _ _ _ _ (seek_ok 2 _ Hw4 ltac:(lia) ltac:(room))), ret_bind.
  rewrite assert_bind by (unfold UINT16_MAX; lia).
  assert (Hw5 : wf (advance 2 (put [h] (set_pointer 0 s2)))) by (apply wf_at; [done|room]).
  rewrite (on_stream_bind _ _ _ _ _ _ (go_to_ok 1 _ Hw5 ltac:(room))).
  set (s6 := set_pointer 1 _). assert (Hw6 : wf s6) by (apply wf_at; [done|room]).
  assert (Ev : Z.lor 0x8000 (u16 (3 + zlen body)) = 3 + zlen body + 32768).
  { unfold u16. rewrite Z.mod_small by lia. rewrite Z.lor_comm, lor_8000 by (unfold is_u16; lia). rewrite Z.mod_small; lia. }
  rewrite Ev. assert (Hv : is_u16 (3 + zlen body + 32768)) by (unfold is_u16; lia).
  rewrite (on_stream_emits _ _ tt _ _ _ (writes_u16_be _ Hv)) by (done || (rewrite zlen_Write_UINT16_BE; simpl; lia)).
  set (w := winpr_Data_Write_UINT16_BE _). assert (Hw7 : wf (put w s6)).
  { apply wf_put; [done|apply bytes_Write_UINT16_BE|unfold w; rewrite zlen_Write_UINT16_BE; simpl; lia]. }
  rewrite (on_stream_bind _ _ _ _ _ _ (go_to_ok (3 + zlen body) _ Hw7 ltac:(room))).
  assert (Hw8 : wf (set_pointer (3 + zlen body) (put w s6))) by (apply wf_at; [done|room]).
  rewrite (on_stream_bind _ _ _ _ _ _ (seal_eq _ Hw8)), get_bind. eexists.
  unfold with_wire, on_field. cbn [fst snd len set_len transport_write tap buffer].
  assert (Ep : ztake (pointer (set_pointer (3 + zlen body) (put w s6))) (buffer (set_pointer (3 + zlen body) (put w s6))) = in_packet n body).
  { simpl (pointer _). change (buffer (set_pointer (3 + zlen body) (put w s6))) with (blit 1 w (blit 0 [h] (buffer s2))). rewrite Hb2.
    unfold w. rewrite Write_UINT16_BE_eq, header_filled by lia. unfold in_packet, packet_length. fold h.
    rewrite length_byte, land_FF by lia. do 2 f_equal; [|f_equal]; word_lia. }
  by rewrite Ep.
Qed.

#[local] Abbreviation blank := (new_stream junk 256).

Lemma blank_ok : wf blank /\ pointer blank = 0 /\ capacity blank = 256.
Proof. split; [apply wf_new_stream; (done || lia)|done]. Qed.

Lemma in_blank {A} (m : M (inClient * wStream) A) c v c' s' :
  m (c, blank) = Ret v (c', s') -> in_stream junk 256 m c = Ret v c'.
Proof. intros E. unfold in_stream, Stream_New. change (256 =? 0) with false. rewrite alloc_ok by lia. fold blank. by rewrite E. Qed.

Lemma init_header_ok {B} (k : Z -> M (inClient * wStream) B) c :
  (fastpath_input_pdu_init_header settings false secure ≫= k) (c, blank) = k 0 (c, advance 3 blank).
Proof.
  destruct blank_ok as (Hw & Hp & Hc). unfold fastpath_input_pdu_init_header. rewrite !bind_assoc.
  rewrite (on_stream_bind _ _ _ _ _ _ (seek_ok 3 blank Hw ltac:(lia) ltac:(lia))), bind_assoc.
  change (fastpath_get_sec_bytes settings false) with 0.
  assert (Hw1 : wf (advance 3 blank)) by (apply wf_at; [done|lia]).
  by rewrite (on_stream_bind _ _ _ _ _ _ (seek_ok 0 _ Hw1 ltac:(lia) ltac:(simpl; lia))), advance_0, ret_bind.
Qed.

(** Events written one byte after the other. *)
Lemma writes_u8s bs : bytes bs -> writes (write_u8s bs) bs.
Proof.
  induction 1 as [|b bs Hb _ IH]; [apply writes_ret|]. cbn [write_u8s]. by apply writes_u8_seq.
Qed.

Lemma send_several_ok n bs c :
  0 < n <= 15 -> bytes bs -> zlen bs <= 253 ->
  send_several junk settings false secure true n bs c = Ret tt (set_cl_wire (cl_wire c ++ [in_packet n bs]) c).
Proof.
  intros Hn Hb Hl. destruct blank_ok as (Hw & Hp & Hc). pose proof (zlen_nonneg bs).
  destruct (send_pdu_ok n bs c blank Hn Hb Hw Hp ltac:(lia) ltac:(lia)) as (s' & E).
  apply (in_blank _ _ _ _ s'). rewrite init_header_ok.
  by rewrite (on_stream_emits _ bs tt _ _ _ (writes_u8s bs Hb)); [|apply wf_at; [done|lia]|simpl; lia].
Qed.

Lemma send_one_ok flags code body bs c :
  0 <= flags < 32 -> 0 <= code < 8 -> writes body bs -> zlen bs <= 252 ->
  send_one junk settings false secure true flags code body c =
    Ret tt (set_cl_wire (cl_wire c ++ [in_packet 1 (event_header flags code :: bs)]) c).
Proof.
  intros Hf Hcode Hbody Hl. destruct blank_ok as (Hw & Hp & Hc). pose proof (zlen_nonneg bs). destruct (Hbody) as [Hb _].
  assert (Hh : is_byte (event_header flags code)) by apply is_byte_mod.
  assert (Hb1 : bytes [event_header flags code]) by (by apply Forall_cons_2; [|apply Forall_nil_2]).
  destruct (send_pdu_ok 1 (event_header flags code :: bs) c blank ltac:(lia) ltac:(by apply Forall_cons_2) Hw Hp) as (s' & E);
    [rewrite zlen_cons; lia|lia|].
  apply (in_blank _ _ _ _ s'). unfold fastpath_input_pdu_init. rewrite bind_assoc, init_header_ok. rewrite !bind_assoc.
  rewrite !assert_bind by lia. rewrite bind_assoc, assert_bind by lia. rewrite bind_assoc.
  assert (Hw3 : wf (advance 3 blank)) by (apply wf_at; [done|lia]).
  rewrite (on_stream_emits _ [event_header flags code] tt _ _ _ (writes_u8 _ Hh)) by (done || room). rewrite ret_bind.
  assert (Hw4 : wf (put [event_header flags code] (advance 3 blank))) by (apply wf_put; [done|done|room]).
  rewrite (on_stream_emits _ bs tt _ _ _ Hbody) by (done || room). by rewrite put_app by (done || room).
Qed.
End Client.

(** ** Events *)

(** What an event makes the client send. *)
Definition asked (settings : inSettings) (e : event) : list call :=
  match e with
  | Input.Synchronize f => [CSync f]
  | Keyboard f c => [CKey f c]
  | KeyboardPause =>
      [CKey KBD_FLAGS_EXTENDED1 0x1D; CKey 0 0x45; CKey (Z.lor KBD_FLAGS_RELEASE KBD_FLAGS_EXTENDED1) 0x1D; CKey KBD_FLAGS_RELEASE 0x45]
  | UnicodeKeyboard f c => [CUnicode f c]
  | Mouse f x y => if negb (HasHorizontalWheel settings) && has f PTR_FLAGS_HWHEEL then [] else [CMouse f x y]
  | RelMouse f x y => [CRel f x y]
  | ExtendedMouse f x y => if negb (HasExtendedMouseEvent settings) then [] else [CExt f x y]
  | FocusIn t => [CKey KBD_FLAGS_RELEASE 0x0f; CSync (Z.land t 0x1F); CKey KBD_FLAGS_RELEASE 0x0f]
  | QoE t => if FastPathInput settings then [CQoE t] else []
  end.

(** Suspended input is dropped, except for the timestamps. *)
Definition passed (settings : inSettings) (e : event) : list call :=
  match e with
  | QoE _ => asked settings e
  | _ => if SuspendInput settings then [] else asked settings e
  end.

(** Events that the connection has agreed on. *)
Definition event_ok (settings : inSettings) (e : event) : Prop :=
  match e with
  | Input.Synchronize f => if FastPathInput settings then 0 <= f < 32 else is_u32 f
  | Keyboard f c => is_u16 f /\ is_byte c
  | KeyboardPause => True
  | UnicodeKeyboard f c => is_u16 f /\ is_u16 c /\ UnicodeInput settings = true
  | Mouse f x y => is_u16 f /\ is_u16 x /\ is_u16 y
  | RelMouse f x y => is_u16 f /\ is_i16 x /\ is_i16 y /\ HasRelativeMouseEvent settings = true
  | ExtendedMouse f x y => is_u16 f /\ is_u16 x /\ is_u16 y
  | FocusIn t => is_u16 t
  | QoE t => is_u32 t /\ HasQoeEvent settings = true
  end.

(** The packets of an event on the fast path. *)
Definition fast_packets (cs : list call) : list (list Z) :=
  match cs with [] => [] | _ => [in_packet (zlen cs) (concat (map fast_bytes cs))] end.

Lemma land_low5 t : 0 <= Z.land t 0x1F < 32.
Proof. rewrite (land_mask t 5) by done. apply Z.mod_pos_bound. lia. Qed.

Lemma asked_fast_ok settings e :
  FastPathInput settings = true -> event_ok settings e -> Forall (fast_ok settings) (asked settings e).
Proof.
  intros Hf He. destruct e; cbn [event_ok asked] in *; rewrite ?Hf in *.
  - by apply Forall_cons_2; [|apply Forall_nil_2].
  - by apply Forall_cons_2; [|apply Forall_nil_2].
  - repeat (apply Forall_cons_2; [split; split; by vm_compute|]). apply Forall_nil_2.
  - destruct He as (? & ? & ?). by apply Forall_cons_2; [|apply Forall_nil_2].
  - destruct (negb (HasHorizontalWheel settings) && has flags PTR_FLAGS_HWHEEL); [apply Forall_nil_2|]. by apply Forall_cons_2; [|apply Forall_nil_2].
  - by apply Forall_cons_2; [|apply Forall_nil_2].
  - destruct (HasExtendedMouseEvent settings) eqn:Ee; cbn [negb]; [|apply Forall_nil_2]. destruct He as (? & ? & ?).
    by apply Forall_cons_2; [|apply Forall_nil_2].
  - repeat (apply Forall_cons_2; [try (split; split; by vm_compute); apply land_low5|]). apply Forall_nil_2.
  - by apply Forall_cons_2; [|apply Forall_nil_2].
Qed.

Lemma passed_fast_ok settings e :
  FastPathInput settings = true -> event_ok settings e -> Forall (fast_ok settings) (passed settings e).
Proof.
  intros Hf He. pose proof (asked_fast_ok settings e Hf He). destruct e; cbn [passed]; destruct (SuspendInput settings); done || apply Forall_nil_2.
Qed.

(** An event has few calls of few bytes. *)
Lemma asked_size settings e :
  zlen (asked settings e) <= 4 /\ zlen (concat (map fast_bytes (asked settings e))) <= 8.
Proof.
  destruct e; cbn [asked]; repeat match goal with |- context [if ?b then _ else _] => destruct b end; split; by vm_compute.
Qed.

Lemma writes_words3 f x y : is_u16 f -> is_u16 x -> is_u16 y ->
  writes (Stream_Write_UINT16 f;; Stream_Write_UINT16 x;; Stream_Write_UINT16 y) (words3 f x y).
Proof. intros. apply writes_seq; [by apply writes_u16|]. apply writes_seq; by apply writes_u16. Qed.

Lemma writes_deltas f x y : is_u16 f -> is_i16 x -> is_i16 y ->
  writes (Stream_Write_UINT16 f;; Stream_Write_INT16 x;; Stream_Write_INT16 y) (words3 f x y).
Proof.
  intros. apply writes_seq; [by apply writes_u16|].
  apply (writes_seq _ _ (winpr_Data_Write_INT16 x) (winpr_Data_Write_INT16 y)); by apply writes_i16.
Qed.

Lemma last_event_ok `{Security} `{Wire} (settings : inSettings) now mouse x y (c : inClient) :
  0 <= now < 2 ^ 64 -> exists c', input_update_last_event settings now mouse x y c = Ret tt c' /\ cl_wire c' = cl_wire c.
Proof.
  intros Hn. unfold input_update_last_event. destruct (0 <? FakeMouseMotionInterval settings); [|by exists c].
  rewrite (bind_ret_eq _ _ _ now c) by (apply asserting_cast_eq, Z.mod_small; done). by eexists.
Qed.

(** Events, with the time of each. *)
Fixpoint send_events `{Security} `{DataPdu} `{Alloc} (junk : Z -> list Z) (settings : inSettings) (secure : bool)
    (es : list (Z * event)) : M inClient unit :=
  match es with
  | [] => mret tt
  | (now, e) :: es =>
      freerdp_input_send junk settings false secure true true now e;; send_events junk settings secure es
  end.

Section FastClient.
Context `{Security} `{AllocOk} {D : @DataPdu tap} (junk : Z -> list Z) (settings : inSettings).
Hypothesis junk_len : forall n, 0 <= n -> zlen (junk n) = n.
Hypothesis junk_bytes : forall n, bytes (junk n).
Context (secure : bool).
Hypothesis fast : FastPathInput settings = true.

#[local] Abbreviation send_fast := (input_register_client_callbacks junk settings false secure true true).

(** The only call of an event, with the bytes after its header. *)
Lemma one_call flags code body bs c cl :
  0 <= flags < 32 -> 0 <= code < 8 -> writes body bs -> zlen bs <= 252 -> fast_bytes cl = event_header flags code :: bs ->
  send_one junk settings false secure true flags code body c = Ret tt (set_cl_wire (cl_wire c ++ fast_packets [cl]) c).
Proof.
  intros Hf Hc Hb Hl E. rewrite (send_one_ok junk settings junk_len junk_bytes secure flags code body bs c Hf Hc Hb Hl).
  unfold fast_packets. cbn [map concat]. by rewrite app_nil_r, E.
Qed.

Lemma nothing_sent c : (mret tt : M inClient unit) c = Ret tt (set_cl_wire (cl_wire c ++ []) c).
Proof. rewrite app_nil_r. by destruct c. Qed.

Lemma sync_header k : 0 <= k < 32 -> Z.lor k (Z.shiftl FASTPATH_INPUT_EVENT_SYNC 5) = event_header k FASTPATH_INPUT_EVENT_SYNC.
Proof.
  intros Hk. apply Z.eqb_eq. revert k Hk.
  apply (zrange_forall 32 (fun k => Z.lor k (Z.shiftl FASTPATH_INPUT_EVENT_SYNC 5) =? event_header k FASTPATH_INPUT_EVENT_SYNC)). done.
Qed.

Lemma event_sent e c :
  event_ok settings e -> send_fast e c = Ret tt (set_cl_wire (cl_wire c ++ fast_packets (asked settings e)) c).
Proof.
  intros He. unfold input_register_client_callbacks. rewrite fast.
  destruct e as [f|f k| |f k|f x y|f x y|f x y|t|t]; cbn [event_ok asked] in *; rewrite ?fast in *.
  - apply (one_call _ _ _ []); [|done|apply writes_ret|done|]; unfold u8; rewrite Z.mod_small by lia; done.
  - destruct He as [Hf Hk]. apply (one_call (key_flags f) _ _ [k]); [apply key_flags_range|done| |done|done].
    apply emits_writes, emits_assert; [unfold is_byte, UINT8_MAX in *; lia|]. by apply writes_u8.
  - by apply (send_several_ok junk settings junk_len junk_bytes secure 4); [|apply bytes_check|].
  - destruct He as (Hf & Hk & Hu). unfold input_send_fastpath_unicode_keyboard_event. rewrite Hu.
    apply (one_call (if has f KBD_FLAGS_RELEASE then FASTPATH_INPUT_KBDFLAGS_RELEASE else 0) _ _ (winpr_Data_Write_UINT16 k)); [|done|by apply writes_u16|done|done].
    destruct (has f KBD_FLAGS_RELEASE); split; by vm_compute.
  - destruct He as (Hf & Hx & Hy). unfold input_send_fastpath_mouse_event. destruct (negb (HasHorizontalWheel settings) && has f PTR_FLAGS_HWHEEL); [apply nothing_sent|].
    by apply (one_call 0 _ _ (words3 f x y)); [| |apply writes_words3| |].
  - destruct He as (Hf & Hx & Hy & Hs). unfold input_send_fastpath_relmouse_event. rewrite Hs.
    by apply (one_call 0 _ _ (words3 f x y)); [| |apply writes_deltas| |].
  - destruct He as (Hf & Hx & Hy). unfold input_send_fastpath_extended_mouse_event.
    destruct (HasExtendedMouseEvent settings); cbn [negb]; [|apply nothing_sent].
    by apply (one_call 0 _ _ (words3 f x y)); [| |apply writes_words3| |].
  - unfold input_send_fastpath_focus_in_event. pose proof (land_low5 t) as Ht. set (k := Z.land t 0x1F) in *. clearbody k.
    assert (Ek : Z.lor k (Z.shiftl FASTPATH_INPUT_EVENT_SYNC 5) = event_header k FASTPATH_INPUT_EVENT_SYNC) by (by apply sync_header).
    rewrite Ek. apply (send_several_ok junk settings junk_len junk_bytes secure 3); [lia| |done].
    repeat (apply Forall_cons_2; [try apply is_byte_mod; split; by vm_compute|]). apply Forall_nil_2.
  - destruct He as (Ht & Hs). unfold input_send_fastpath_qoe_event. rewrite Hs.
    apply (one_call 0 _ _ (winpr_Data_Write_UINT32 t)); [done|done| |done|done].
    apply emits_writes, emits_ensure; [rewrite zlen_Write_UINT32; lia|]. by apply writes_u32.
Qed.

Lemma fast_event_sent now e c :
  0 <= now < 2 ^ 64 -> event_ok settings e ->
  exists c', freerdp_input_send junk settings false secure true true now e c = Ret tt c' /\
    cl_wire c' = cl_wire c ++ fast_packets (passed settings e).
Proof.
  intros Hn He. assert (Hs : forall c, exists c', send_fast e c = Ret tt c' /\ cl_wire c' = cl_wire c ++ fast_packets (asked settings e)).
  { intros c0. rewrite event_sent by done. by eexists. }
  assert (Hu : forall m x y, exists c', (input_update_last_event settings now m x y;; send_fast e) c = Ret tt c' /\
    cl_wire c' = cl_wire c ++ fast_packets (asked settings e)).
  { intros m x y. destruct (last_event_ok settings now m x y c Hn) as (c1 & E & Hw).
    rewrite (bind_ret_eq _ _ _ _ _ E), <- Hw. apply Hs. }
  assert (Hnone : exists c', (mret tt : M inClient unit) c = Ret tt c' /\ cl_wire c' = cl_wire c ++ []) by (exists c; by rewrite app_nil_r).
  unfold freerdp_input_send, passed. destruct e; destruct (SuspendInput settings); (exact Hnone || apply Hs || apply Hu).
Qed.

Lemma events_sent es c :
  Forall (fun x => 0 <= x.1 < 2 ^ 64 /\ event_ok settings x.2) es ->
  exists c', send_events junk settings secure es c = Ret tt c' /\
    cl_wire c' = cl_wire c ++ concat (map (fun x => fast_packets (passed settings x.2)) es).
Proof.
  intros Hes. revert c. induction Hes as [|[now e] es [Hn He] _ IH]; intros c; cbn [send_events map concat fst snd].
  - exists c. by rewrite app_nil_r.
  - destruct (fast_event_sent now e c Hn He) as (c1 & E & Hw). rewrite (bind_ret_eq _ _ _ _ _ E).
    destruct (IH c1) as (c2 & E2 & Hw2). exists c2. split; [done|]. by rewrite Hw2, Hw, app_assoc.
Qed.
End FastClient.

Section FastServer.
Context `{Security} `{Inputs} (settings : inSettings).

(** Packets, each in a stream of its own; none when one is refused. *)
Fixpoint serve_all (ps : list (list Z)) (x : inServer) : option inServer :=
  match ps with
  | [] => Some x
  | p :: ps =>
      match peer_recv_fastpath_pdu settings (x, Stream_StaticInit p) with
      | Ret _ (x', _) => serve_all ps x'
      | _ => None
      end
  end.

Lemma run_calls_app (cs ds : list call) u u' :
  run_calls (cs ++ ds) u = Ret tt u' -> exists u1, run_calls cs u = Ret tt u1 /\ run_calls ds u1 = Ret tt u'.
Proof.
  revert u. induction cs as [|c cs IH]; intros u E; cbn [run_calls app] in *; [by exists u|].
  apply bind_ret_inv in E as ([] & u1 & E1 & E2). destruct (IH u1 E2) as (u2 & E3 & E4). exists u2. split; [|done].
  by rewrite (bind_ret_eq _ _ _ _ _ E1).
Qed.

Lemma events_served es x u' :
  FastPathInput settings = true -> Forall (event_ok settings) es ->
  run_calls (map (heard true) (concat (map (passed settings) es))) (srv_inp x) = Ret tt u' ->
  exists x', serve_all (concat (map (fun e => fast_packets (passed settings e)) es)) x = Some x' /\ srv_inp x' = u'.
Proof.
  intros Hf Hes. revert x. induction Hes as [|e es He _ IH]; intros x E; cbn [map concat] in *.
  - injection E as <-. by exists x.
  - rewrite map_app in E. apply run_calls_app in E as (u1 & E1 & E2).
    pose proof (passed_fast_ok settings e Hf He) as Hok.
    assert (Hsz : zlen (passed settings e) <= 4 /\ zlen (concat (map fast_bytes (passed settings e))) <= 8).
    { pose proof (asked_size settings e). destruct e; cbn [passed]; destruct (SuspendInput settings); done. }
    destruct (passed settings e) as [|c cs] eqn:Ep.
    + injection E1 as <-. by apply IH.
    + cbn [fast_packets app serve_all]. rewrite zlen_cons in *. pose proof (zlen_nonneg cs).
      destruct (peer_recv_ok settings (c :: cs) x u1 Hok ltac:(rewrite zlen_cons; lia) ltac:(lia) E1) as (x1 & s1 & Er & Hu & _).
      rewrite zlen_cons in Er. rewrite Er. apply IH. by rewrite Hu.
Qed.
End FastServer.

Section Theorem_fast.
Context `{Security} `{AllocOk} {D : @DataPdu tap} `{Inputs} (junk : Z -> list Z) (settings : inSettings) (secure : bool).

(** C14: over the fast path, without encryption, the events that an application gives to a client
    are sent, the packets are accepted by a server with the same settings, and the server makes
    the calls these events stand for, in their order and no others. *)
Theorem input_fastpath_delivered (es : list (Z * event)) (c : inClient) (x : inServer) (u' : inp) :
  (forall n, 0 <= n -> zlen (junk n) = n) -> (forall n, bytes (junk n)) -> FastPathInput settings = true ->
  Forall (fun x => 0 <= x.1 < 2 ^ 64 /\ event_ok settings x.2) es ->
  run_calls (map (heard true) (concat (map (passed settings) (map snd es)))) (srv_inp x) = Ret tt u' ->
  exists c' ps x', send_events junk settings secure es c = Ret tt c' /\ cl_wire c' = cl_wire c ++ ps /\
    serve_all settings ps x = Some x' /\ srv_inp x' = u'.
Proof.
  intros Hjl Hjb Hf Hes E. destruct (events_sent junk settings Hjl Hjb secure Hf es c Hes) as (c' & Es & Hw).
  destruct (events_served settings (map snd es) x u' Hf) as (x' & Er & Hu); [|done|].
  - apply Forall_map. eapply Forall_impl; [|exact Hes]. by intros ? [_ ?].
  - rewrite map_map in Er. by exists c', (concat (map (fun e => fast_packets (passed settings e.2)) es)), x'.
Qed.
End Theorem_fast.

(** ** The slow path *)

(** What the framing of the slow path promises: [bodies] are the data of the input PDUs so far. *)
Class Framing `{DataPdu} (bodies : wire -> list (list Z)) := {
  framed : forall w, exists s w', rdp_data_pdu_init w = Ret s w' /\ wf s /\ pointer s + 16 <= capacity s /\
    forall bs s', appended s bs s' ->
      exists w'', rdp_send_data_pdu DATA_PDU_TYPE_INPUT s' w' = Ret tt w'' /\ bodies w'' = bodies w ++ [bs]
}.

Section SlowClient.
Context `{Security} `{Framing} `{Alloc} (junk : Z -> list Z) (settings : inSettings) (secure : bool).
Hypothesis slow : FastPathInput settings = false.

Lemma writes_slow type body bs :
  is_u16 type -> writes body bs ->
  writes (rdp_write_client_input_pdu_header 1;; rdp_write_input_event_header 0 type;; body)
    (winpr_Data_Write_UINT16 1 ++ winpr_Data_Write_UINT16 0 ++ winpr_Data_Write_UINT32 0 ++ winpr_Data_Write_UINT16 type ++ bs).
Proof.
  intros Ht Hb. rewrite (app_assoc _ (winpr_Data_Write_UINT16 0)). apply writes_seq.
  { apply emits_writes. unfold rdp_write_client_input_pdu_header. apply emits_room; [done|].
    apply writes_seq; by apply writes_u16. }
  rewrite (app_assoc (winpr_Data_Write_UINT32 0)). apply writes_seq; [|done].
  apply emits_writes. unfold rdp_write_input_event_header. apply emits_room; [done|].
  by apply writes_seq; [apply writes_u32|apply writes_u16].
Qed.

Lemma send_slow_ok type body bs c :
  is_u16 type -> writes body bs -> zlen bs = 6 ->
  exists c', send_slow type body c = Ret tt c' /\
    bodies (cl_wire c') = bodies (cl_wire c) ++ [winpr_Data_Write_UINT16 1 ++ winpr_Data_Write_UINT16 0 ++
      winpr_Data_Write_UINT32 0 ++ winpr_Data_Write_UINT16 type ++ bs].
Proof.
  intros Ht Hb Hl. destruct (framed (cl_wire c)) as (s & w & Ei & Hw & Hc & Hsend).
  destruct (writes_slow type body bs Ht Hb) as [Hbs Hm]. set (all := winpr_Data_Write_UINT16 1 ++ _) in *.
  assert (Hla : zlen all = 16) by (unfold all; rewrite !zlen_app, !zlen_Write_UINT16, zlen_Write_UINT32; lia). clearbody all.
  specialize (Hm s Hw ltac:(lia)). destruct (Hsend all (put all s)) as (w' & Es & Hbw).
  { apply appended_put; [done|done|lia]. }
  exists (set_cl_wire w' (set_cl_wire w c)). split; [|done]. unfold send_slow. rewrite Ei.
  assert (E : slow_packet type body (set_cl_wire w c, s) = Ret tt (set_cl_wire w' (set_cl_wire w c), put all s)); [|by rewrite E].
  apply bind_ret_inv in Hm as ([] & s1 & E1 & Hm). apply bind_ret_inv in Hm as ([] & s2 & E2 & E3).
  unfold slow_packet. rewrite (on_stream_bind _ _ _ _ _ _ E1), (on_stream_bind _ _ _ _ _ _ E2), (on_stream_bind _ _ _ _ _ _ E3), get_bind.
  cbn [fst snd]. unfold with_wire, on_field. cbn [fst snd cl_wire set_cl_wire]. by rewrite Es.
Qed.

(** A call in a PDU of its own. *)
Lemma slow_call_sent type body cl c :
  type = slow_type cl -> writes body (slow_body cl) -> zlen (slow_body cl) = 6 ->
  exists c', send_slow type body c = Ret tt c' /\ bodies (cl_wire c') = bodies (cl_wire c) ++ [slow_pdu [cl]].
Proof.
  intros -> Hb Hl. destruct (send_slow_ok (slow_type cl) body (slow_body cl) c) as (c' & E & Hw); [destruct cl; split; by vm_compute|done|done|].
  exists c'. split; [done|]. rewrite Hw. unfold slow_pdu. cbn [map concat]. by rewrite app_nil_r.
Qed.

(** [m] sends the calls [cs], each in a PDU of its own. *)
Definition sends (m : M inClient unit) (cs : list call) : Prop :=
  forall c, exists c', m c = Ret tt c' /\ bodies (cl_wire c') = bodies (cl_wire c) ++ map (fun c => slow_pdu [c]) cs.

Lemma sends_ret : sends (mret tt) [].
Proof. intros c. exists c. by rewrite app_nil_r. Qed.

Lemma sends_seq m k cs ds : sends m cs -> sends k ds -> sends (m;; k) (cs ++ ds).
Proof.
  intros Hm Hk c. destruct (Hm c) as (c1 & E1 & W1), (Hk c1) as (c2 & E2 & W2). exists c2.
  rewrite (bind_ret_eq _ _ _ _ _ E1). split; [done|]. by rewrite W2, W1, map_app, app_assoc.
Qed.

Lemma sends_key f k : is_u16 f -> is_byte k -> sends (input_send_keyboard_event true f k) [CKey f k].
Proof.
  intros Hf Hk c. apply (slow_call_sent INPUT_EVENT_SCANCODE _ (CKey f k)); [done| |done].
  apply emits_writes, emits_assert; [unfold is_byte, UINT8_MAX in *; lia|].
  apply writes_words3; [done|word_lia|done].
Qed.

Lemma sends_sync f : is_u32 f -> sends (input_send_synchronize_event true f) [CSync f].
Proof.
  intros Hf c. apply (slow_call_sent INPUT_EVENT_SYNC _ (CSync f)); [done| |done].
  apply emits_writes. unfold input_write_synchronize_event. apply emits_room; [done|].
  by apply writes_seq; [apply writes_u16|apply writes_u32].
Qed.

Lemma slow_event_sent e :
  event_ok settings e -> sends (input_register_client_callbacks junk settings false secure true true e) (asked settings e).
Proof.
  intros He. unfold input_register_client_callbacks. rewrite slow.
  destruct e as [f|f k| |f k|f x y|f x y|f x y|t|t]; cbn [event_ok asked] in *; rewrite ?slow in *.
  - by apply sends_sync.
  - destruct He. by apply sends_key.
  - do 3 (apply (sends_seq _ _ [CKey _ _]); [apply sends_key; split; by vm_compute|]). apply sends_key; split; by vm_compute.
  - destruct He as (Hf & Hk & Hu). intros c. unfold input_send_unicode_keyboard_event. rewrite Hu.
    by apply (slow_call_sent INPUT_EVENT_UNICODE _ (CUnicode f k)); [|apply writes_words3|].
  - destruct He as (Hf & Hx & Hy). unfold input_send_mouse_event.
    destruct (negb (HasHorizontalWheel settings) && has f PTR_FLAGS_HWHEEL); [apply sends_ret|]. intros c.
    by apply (slow_call_sent INPUT_EVENT_MOUSE _ (CMouse f x y)); [|apply writes_words3|].
  - destruct He as (Hf & Hx & Hy & Hs). intros c. unfold input_send_relmouse_event. rewrite Hs.
    by apply (slow_call_sent INPUT_EVENT_MOUSEREL _ (CRel f x y)); [|apply writes_deltas|].
  - destruct He as (Hf & Hx & Hy). unfold input_send_extended_mouse_event.
    destruct (HasExtendedMouseEvent settings); cbn [negb]; [|apply sends_ret]. intros c.
    by apply (slow_call_sent INPUT_EVENT_MOUSEX _ (CExt f x y)); [|apply writes_words3|].
  - pose proof (land_low5 t). apply (sends_seq _ _ [CKey _ _]); [apply sends_key; split; by vm_compute|].
    apply (sends_seq _ _ [CSync _]); [apply sends_sync; unfold is_u32; lia|]. apply sends_key; split; by vm_compute.
  - apply sends_ret.
Qed.

Lemma sends_last now m x y k cs :
  0 <= now < 2 ^ 64 -> sends k cs -> sends (input_update_last_event settings now m x y;; k) cs.
Proof.
  intros Hn Hk c. destruct (last_event_ok settings now m x y c Hn) as (c1 & E & Hw).
  rewrite (bind_ret_eq _ _ _ _ _ E), <- Hw. apply Hk.
Qed.

Lemma slow_passed now e :
  0 <= now < 2 ^ 64 -> event_ok settings e ->
  sends (freerdp_input_send junk settings false secure true true now e) (passed settings e).
Proof.
  intros Hn He. pose proof (slow_event_sent e He) as Hs.
  unfold freerdp_input_send, passed. destruct e; destruct (SuspendInput settings);
    (exact Hs || apply sends_ret || exact (sends_last now _ _ _ _ _ Hn Hs)).
Qed.

Lemma slow_events_sent es :
  Forall (fun x => 0 <= x.1 < 2 ^ 64 /\ event_ok settings x.2) es ->
  sends (send_events junk settings secure es) (concat (map (passed settings) (map snd es))).
Proof.
  induction 1 as [|[now e] es [Hn He] _ IH]; cbn [send_events map concat fst snd]; [apply sends_ret|].
  by apply sends_seq; [apply slow_passed|].
Qed.
End SlowClient.

Lemma asked_slow_ok settings e :
  FastPathInput settings = false -> event_ok settings e -> Forall (slow_ok settings) (asked settings e).
Proof.
  intros Hf He. destruct e; cbn [event_ok asked] in *; rewrite ?Hf in *.
  - by apply Forall_cons_2; [|apply Forall_nil_2].
  - by apply Forall_cons_2; [|apply Forall_nil_2].
  - repeat (apply Forall_cons_2; [split; split; by vm_compute|]). apply Forall_nil_2.
  - destruct He as (? & ? & ?). by apply Forall_cons_2; [|apply Forall_nil_2].
  - destruct (negb (HasHorizontalWheel settings) && has flags PTR_FLAGS_HWHEEL); [apply Forall_nil_2|]. by apply Forall_cons_2; [|apply Forall_nil_2].
  - by apply Forall_cons_2; [|apply Forall_nil_2].
  - destruct (HasExtendedMouseEvent settings) eqn:Ee; cbn [negb]; [|apply Forall_nil_2]. destruct He as (? & ? & ?).
    by apply Forall_cons_2; [|apply Forall_nil_2].
  - pose proof (land_low5 toggleStates). apply Forall_cons_2; [split; split; by vm_compute|].
    apply Forall_cons_2; [cbn [slow_ok]; unfold is_u32; lia|]. apply Forall_cons_2; [split; split; by vm_compute|apply Forall_nil_2].
  - apply Forall_nil_2.
Qed.

Section SlowServer.
Context `{Inputs} (settings : inSettings).

(** The data of input PDUs, each in a stream of its own. *)
Fixpoint hear_all (ps : list (list Z)) (u : inp) : option inp :=
  match ps with
  | [] => Some u
  | p :: ps =>
      match input_recv settings (u, Stream_StaticInit p) with
      | Ret _ (u', _) => hear_all ps u'
      | _ => None
      end
  end.

Lemma bytes_slow c : slow_ok settings c -> bytes (slow_bytes c).
Proof.
  intros Hc. assert (Hw : forall v, bytes (winpr_Data_Write_UINT16 v)) by apply bytes_Write_UINT16.
  assert (Hw3 : forall f x y, bytes (words3 f x y)) by (intros; by repeat apply Forall_app_2).
  unfold slow_bytes. apply Forall_app_2; [apply bytes_Write_UINT32|]. apply Forall_app_2; [done|].
  destruct c; apply Hw3 || done.
Qed.

Lemma calls_heard cs u u' :
  Forall (slow_ok settings) cs -> run_calls (map (heard false) cs) u = Ret tt u' ->
  hear_all (map (fun c => slow_pdu [c]) cs) u = Some u'.
Proof.
  intros Hcs. revert u. induction Hcs as [|c cs Hc _ IH]; intros u E; cbn [map run_calls hear_all] in *; [by injection E as ->|].
  apply bind_ret_inv in E as ([] & u1 & E1 & E2).
  assert (Hb : bytes (slow_pdu [c])).
  { unfold slow_pdu. cbn [map concat]. rewrite app_nil_r. do 2 (apply Forall_app_2; [apply bytes_Write_UINT16|]). by apply bytes_slow. }
  assert (Hl : zlen (slow_pdu [c]) = 16).
  { unfold slow_pdu. cbn [map concat]. rewrite app_nil_r, !zlen_app, !zlen_Write_UINT16, (zlen_slow_bytes settings) by done. done. }
  assert (Ht : takes (input_recv settings) (slow_pdu [c]) u u1).
  { apply slow_pdu_taken; [by apply Forall_cons_2; [|apply Forall_nil_2]|done|]. cbn [map run_calls]. by rewrite (bind_ret_eq _ _ _ _ _ E1). }
  rewrite (Ht _ []).
  - by apply IH.
  - apply readable_init; [done|lia].
  - unfold rest. simpl (pointer _). simpl (len _). simpl (buffer _). by rewrite Z.sub_0_r, slice_0, ztake_all, app_nil_r.
Qed.
End SlowServer.

Section Theorem_slow.
Context `{Security} `{Framing} `{Alloc} `{Inputs} (junk : Z -> list Z) (settings : inSettings) (secure : bool).

(** C24: over the slow path the same holds of the data of the input PDUs, for any framing that
    carries them: the server makes the calls the events stand for, in their order and no others;
    timestamps have no place on this path. *)
Theorem input_slowpath_delivered (es : list (Z * event)) (c : inClient) (u u' : inp) :
  FastPathInput settings = false ->
  Forall (fun x => 0 <= x.1 < 2 ^ 64 /\ event_ok settings x.2) es ->
  run_calls (map (heard false) (concat (map (passed settings) (map snd es)))) u = Ret tt u' ->
  exists c' ps, send_events junk settings secure es c = Ret tt c' /\
    bodies (cl_wire c') = bodies (cl_wire c) ++ ps /\ hear_all settings ps u = Some u'.
Proof.
  intros Hf Hes E. destruct (slow_events_sent junk settings secure Hf es Hes c) as (c' & Es & Hw).
  eexists c', _. split; [done|]. split; [exact Hw|]. apply calls_heard; [|done].
  clear E Es Hw c'. induction Hes as [|[now e] es [_ He] _ IH]; cbn [map concat snd] in *; [apply Forall_nil_2|].
  apply Forall_app_2; [|done]. pose proof (asked_slow_ok settings e Hf He).
  destruct e; cbn [passed]; destruct (SuspendInput settings); done || apply Forall_nil_2.
Qed.
End Theorem_slow.

(** ** Any packet *)

Lemma wp_on_both {R C A} (part : R -> C) (put : C -> R -> R) (m : M (C * wStream) A) Q F x s :
  wp m (fun a c => Q a (put c.1 x, c.2)) (fun c => F (put c.1 x, c.2)) (part x, s) -> wp (on_both part put m) Q F (x, s).
Proof. unfold wp, on_both. cbn [fst snd]. by destruct (m (part x, s)). Qed.

(** What is asked of the ciphers and digests: they return or refuse, and a cipher leaves as many
    bytes as it was given. *)
Class SecurityLaws `{Security} := {
  decrypts_in_place : forall d k, bytes d ->
    wp (security_decrypt d) (fun d' _ => bytes d' /\ zlen d' = zlen d) (fun _ => True) k;
  fips_decrypts_in_place : forall d k, bytes d ->
    wp (security_fips_decrypt d) (fun d' _ => bytes d' /\ zlen d' = zlen d) (fun _ => True) k;
  signs : forall d k, wp (security_mac_signature d) (fun _ _ => True) (fun _ => True) k;
  signs_salted : forall d sending k, wp (security_salted_mac_signature d sending) (fun _ _ => True) (fun _ => True) k;
  checks_signature : forall d sig k, wp (security_fips_check_signature d sig) (fun _ _ => True) (fun _ => True) k
}.

(** *** Decryption *)

Section Decryption.
Context `{SecurityLaws} (methods : Z).

Lemma wp_on_key {A} (m : M keys A) Q F k s :
  wp m (fun a k' => Q a (k', s)) (fun k' => F (k', s)) k -> wp (on_field id (fun k _ => k) m) Q F (k, s).
Proof. unfold wp, on_field. cbn [fst snd id]. by destruct (m k). Qed.

Lemma wp_load_packet n (Q : list Z -> keys * wStream -> Prop) F k s :
  readable s -> 0 <= n <= rem s -> (forall d, bytes d -> zlen d = n -> Q d (k, s)) -> wp (on_stream (load n)) Q F (k, s).
Proof.
  intros Hs Hn HQ. apply wp_on_stream. unfold wp. rewrite load_eq by done.
  apply HQ; [by apply Forall_ztake, bytes_rest|]. apply zlen_ztake. by rewrite zlen_rest.
Qed.

Lemma readable_store d s : readable s -> bytes d -> zlen d <= rem s -> readable (store_at (pointer s) d s).
Proof.
  intros [[Hb Hp Hl Hlim Hby] Hr] Hd Hn. unfold rem in Hn. pose proof (zlen_nonneg d).
  split; [|done]. split; simpl; try done; [rewrite zlen_blit; lia|by apply Forall_blit].
Qed.

(** The cipher stays in the packet because its length does. *)
Lemma wp_in_place f n (Q : unit -> keys * wStream -> Prop) (F : keys * wStream -> Prop) k s :
  (forall d k, bytes d -> wp (f d) (fun d' _ => bytes d' /\ zlen d' = zlen d) (fun _ => True) k) ->
  readable s -> 0 <= n <= rem s ->
  (forall k' d, readable (store_at (pointer s) d s) -> Q tt (k', store_at (pointer s) d s)) -> (forall x, F x) ->
  wp (in_place f n) Q F (k, s).
Proof.
  intros Hf Hs Hn HQ HF. unfold in_place. apply wp_bind, wp_load_packet; [done|done|]. intros d Hd Hl.
  apply wp_bind, wp_on_key. eapply wp_mono; [by apply Hf| |by intros]. intros d' k' [Hd' Hl'].
  apply HQ, readable_store; [done|done|lia].
Qed.

Lemma wp_over {A} (f : list Z -> M keys A) n (Q : A -> keys * wStream -> Prop) (F : keys * wStream -> Prop) k s :
  (forall d k, wp (f d) (fun _ _ => True) (fun _ => True) k) -> readable s -> 0 <= n <= rem s ->
  (forall a k', Q a (k', s)) -> (forall x, F x) -> wp (over f n) Q F (k, s).
Proof.
  intros Hf Hs Hn HQ HF. unfold over. apply wp_bind, wp_load_packet; [done|done|]. intros d _ _.
  apply wp_on_key. eapply wp_mono; [apply Hf| |]; intros; auto.
Qed.

Lemma decrypt_fips_safe length k s :
  readable s -> length <= rem s ->
  wp (decrypt_fips length) (fun _ x => readable x.2) (fun _ => True) (k, s).
Proof.
  intros Hs Hl. unfold decrypt_fips. apply wp_bind. module_step; [|done].
  do 2 (apply wp_bind; module_step). apply wp_bind. module_step.
  rewrite !advance_advance. change (2 + 1 + 1) with 4. rename b1 into pad.
  assert (Hs4 : readable (advance 4 s)) by (apply readable_advance; [done|lia]).
  apply wp_bind, wp_load_packet; [exact Hs4|rewrite rem_advance; lia|]. intros sig _ _.
  apply wp_bind, wp_on_stream, wp_seek; [exact Hs4|rewrite rem_advance; lia|]. rewrite advance_advance. change (4 + 8) with 12.
  assert (Hs12 : readable (advance 12 s)) by (apply readable_advance; [done|lia]).
  set (s12 := advance 12 s) in *. assert (Hr : rem s12 = rem s - 12) by apply rem_advance. clearbody s12.
  destruct (_ || _) eqn:Hc; [by apply wp_failure|]. apply wp_bind, wp_in_place; [apply fips_decrypts_in_place|done|lia| |done].
  intros k1 d Hd. set (s1 := store_at _ _ _) in *. assert (Hr1 : rem s1 = rem s12) by done. clearbody s1.
  apply wp_bind, wp_over; [intros; apply checks_signature|done|unfold is_byte in *; lia| |done]. intros _ k2.
  apply wp_bind, wp_on_stream. unfold Stream_Length. apply wp_ret. apply wp_bind, wp_attempt, wp_on_stream.
  destruct (Hd) as [[A B C D E] G]. unfold rem in *.
  assert (Hu : usize (len s1 - pad) = len s1 - pad) by (unfold is_byte in *; apply usize_id; lia).
  unfold Stream_SetLength, Stream_Capacity. rewrite Hu. unfold wp. rewrite bind_assoc, get_bind, ret_bind.
  rewrite (proj2 (Z.ltb_ge _ _)) by (unfold is_byte in *; lia). apply wp_ret.
  cbn [snd]. split; [split; simpl; try done; unfold is_byte in *; lia|]. simpl. unfold is_byte in *. lia.
Qed.
Lemma rdp_decrypt_safe length flags k s :
  readable s -> length <= rem s ->
  wp (rdp_decrypt methods length flags) (fun _ x => readable x.2) (fun _ => True) (k, s).
Proof.
  intros Hs Hl. unfold rdp_decrypt. destruct (methods =? ENCRYPTION_METHOD_NONE); [by apply wp_ret|].
  destruct (methods =? ENCRYPTION_METHOD_FIPS); [by apply decrypt_fips_safe|].
  apply wp_bind. module_step; [|done]. apply wp_bind, wp_on_stream, wp_read; [done|lia|]. intros wmac _ _.
  assert (Hs8 : readable (advance 8 s)) by (apply readable_advance; [done|lia]).
  set (s8 := advance 8 s) in *. assert (Hr : rem s8 = rem s - 8) by apply rem_advance. clearbody s8.
  destruct (Z.leb_spec (length - 8) 0); [by apply wp_failure|].
  apply wp_bind, wp_in_place; [apply decrypts_in_place|done|lia| |done].
  intros k1 d Hd. set (s1 := store_at _ _ _) in *. assert (Hr1 : rem s1 = rem s8) by done. clearbody s1.
  apply wp_bind. destruct (has _ _); apply wp_over; try done; try lia; intros; [apply signs_salted|apply signs].
Qed.
End Decryption.

Section Safety.
Context `{Security} `{Inputs} (settings : inSettings).

(** The callbacks of the application return. *)
Definition calls_safe : Prop := forall c u, wp (run_call c) (fun _ _ => True) (fun _ => True) u.

Hypothesis callbacks : calls_safe.

#[local] Abbreviation fine m := (forall u s, readable s -> wp m (fun _ x => readable x.2) (fun _ => True) (u, s)).

Lemma call_back_fine c : fine (call_back (run_call c)).
Proof.
  intros u s Hs. pose proof (callbacks c u) as Hc. unfold wp, call_back, on_field in *. cbn [fst snd id].
  by destruct (run_call c u).
Qed.

Lemma wp_i16 Q F s :
  readable s -> 2 <= rem s -> (forall v, Q v (advance 2 s)) -> wp Stream_Read_INT16 Q F s.
Proof.
  intros Hs Hr HQ. unfold Stream_Read_INT16, stream_read_i16_le, wp. rewrite stream_read_eq by (done || lia). apply HQ.
Qed.

(** The reads of an event are guarded by its check. *)
Ltac event_step :=
  first [ lazymatch goal with
          | |- wp (on_stream Stream_Read_INT16) _ _ _ =>
              rewrite ?advance_advance; apply wp_on_stream, wp_i16; [solve_readable|rewrite ?rem_advance in *; lia|intros]
          | |- wp (if ?b then _ else _) _ _ _ => destruct b
          | |- wp failure _ _ _ => apply wp_failure
          end
        | module_step ].

Ltac event_fine :=
  intros u s Hs; repeat event_step; try done;
  first [apply (call_back_fine (CSync _)) | apply (call_back_fine (CKey _ _)) | apply (call_back_fine (CUnicode _ _))
        |apply (call_back_fine (CMouse _ _ _)) | apply (call_back_fine (CRel _ _ _)) | apply (call_back_fine (CExt _ _ _))
        |apply (call_back_fine (CQoE _))]; rewrite ?advance_advance; solve_readable.

Lemma scancode_fine f : fine (fastpath_recv_input_event_scancode f).
Proof. unfold fastpath_recv_input_event_scancode. event_fine. Qed.

Lemma mouse_fine : fine fastpath_recv_input_event_mouse.
Proof. unfold fastpath_recv_input_event_mouse. event_fine. Qed.

Lemma mousex_fine : fine (fastpath_recv_input_event_mousex settings).
Proof. unfold fastpath_recv_input_event_mousex. event_fine. Qed.

Lemma sync_fine f : fine (fastpath_recv_input_event_sync f).
Proof. unfold fastpath_recv_input_event_sync. event_fine. Qed.

Lemma unicode_fine f : fine (fastpath_recv_input_event_unicode f).
Proof. unfold fastpath_recv_input_event_unicode. event_fine. Qed.

Lemma relmouse_fine : fine (fastpath_recv_input_event_relmouse settings).
Proof. unfold fastpath_recv_input_event_relmouse. event_fine. Qed.

Lemma qoe_fine : fine (fastpath_recv_input_event_qoe settings).
Proof. unfold fastpath_recv_input_event_qoe. event_fine. Qed.

Lemma input_event_fine : fine (fastpath_recv_input_event settings).
Proof.
  intros u s Hs. unfold fastpath_recv_input_event, fastpath_read_input_event_header. apply wp_bind, wp_on_stream.
  repeat reader_step; try done;
    first [apply scancode_fine | apply mouse_fine | apply mousex_fine | apply sync_fine | apply unicode_fine | apply relmouse_fine
          |apply qoe_fine | idtac]; solve_readable.
Qed.

Lemma events_fine n : fine (recv_events n (fastpath_recv_input_event settings)).
Proof.
  induction n as [|n IH]; intros u s Hs; cbn [recv_events]; [done|]. apply wp_bind.
  eapply wp_mono; [by apply input_event_fine| |done]. intros [] [u' s'] Hs'. by apply IH.
Qed.

Lemma recv_inputs_fine : fine (fastpath_recv_inputs settings).
Proof.
  intros x s Hs. unfold fastpath_recv_inputs.
  repeat (module_step; try done); apply wp_on_both; (eapply wp_mono; [apply events_fine; solve_readable| |done]); done.
Qed.

Lemma read_header_fine : fine fastpath_read_header_rdp.
Proof.
  intros fp s Hs. unfold fastpath_read_header_rdp.
  repeat (module_step; try done); solve_readable.
Qed.

Lemma decrypt_fine `{!SecurityLaws} n fp k s :
  readable s -> n <= rem s ->
  wp (fastpath_decrypt (inEncryptionMethods settings) n) (fun _ x => readable x.2) (fun _ => True) (fp, k, s).
Proof.
  intros Hs Hn. unfold fastpath_decrypt. apply wp_bind. module_step. destruct (has _ FASTPATH_OUTPUT_ENCRYPTED); [|by apply wp_ret].
  apply wp_on_both. eapply wp_mono; [by apply rdp_decrypt_safe| |]; done.
Qed.
End Safety.

Section Theorem_safe.
Context `{Security} `{Inputs} (settings : inSettings).

(** C25: whatever bytes a client sends as a packet of the fast path, encrypted or not and with any
    method, the server reads them without a fault: no assertion fails, nothing is read or decrypted
    outside the packet and the loops end.  Assumed are callbacks of the application that return, and
    ciphers and digests of security.c that return or refuse and work in place. *)
Theorem peer_recv_fastpath_pdu_safe `{!SecurityLaws} (x : inServer) (p : list Z) :
  calls_safe -> bytes p -> zlen p < 2 ^ 62 ->
  wp (peer_recv_fastpath_pdu settings) (fun _ x => readable x.2) (fun _ => True) (x, Stream_StaticInit p).
Proof.
  intros Hc Hb Hl. pose proof (readable_init p Hb Hl) as Hs. set (s := Stream_StaticInit p) in *. clearbody s.
  unfold peer_recv_fastpath_pdu. apply wp_bind, wp_on_both. eapply wp_mono; [by apply read_header_fine| |done].
  intros n [fp s1] Hs1. cbn [fst snd] in *. destruct (n =? 0); [by apply wp_failure|].
  apply wp_bind. module_step; [|done]. apply wp_bind, wp_on_both. eapply wp_mono; [by apply decrypt_fine| |done].
  intros m [[fp' k] s2] Hs2. cbn [fst snd] in *. apply wp_bind, wp_set_module. by apply recv_inputs_fine.
Qed.

(** C40: on the slow path a packet that announces one event and holds the header of an event of an
    unknown type makes the server fail an assertion, when its storage ends with the packet: the
    check in front is for six bytes an event, an event has twelve, and the last six are passed
    over without a check. *)
Theorem input_recv_unknown_faults (u : inp) (type : Z) (t1 t2 t3 t4 pad1 pad2 : Z) :
  is_u16 type -> bytes [t1; t2; t3; t4; pad1; pad2] ->
  Forall (fun t => type <> t) [INPUT_EVENT_SYNC; INPUT_EVENT_SCANCODE; INPUT_EVENT_UNICODE; INPUT_EVENT_MOUSE; INPUT_EVENT_MOUSEX; INPUT_EVENT_MOUSEREL] ->
  input_recv settings
    (u, Stream_StaticInit (winpr_Data_Write_UINT16 1 ++ [pad1; pad2] ++ [t1; t2; t3; t4] ++ winpr_Data_Write_UINT16 type)) = Crash AssertFailed.
Proof.
  intros Ht Hb Hn. set (p := winpr_Data_Write_UINT16 1 ++ _).
  assert (Hbp : bytes p).
  { unfold p. apply Forall_app_2; [apply bytes_Write_UINT16|]. apply (Forall_app_2 _ [pad1; pad2]);
      [|apply (Forall_app_2 _ [t1; t2; t3; t4]); [|apply bytes_Write_UINT16]]; bytes_inv; repeat (apply Forall_cons_2; [done|]); apply Forall_nil_2. }
  assert (Hl : zlen p = 10) by done. pose proof (readable_init p Hbp ltac:(lia)) as Hs.
  assert (Hr : rest (Stream_StaticInit p) = p) by (unfold rest; simpl (pointer _); simpl (len _); simpl (buffer _); by rewrite Z.sub_0_r, slice_0, ztake_all).
  assert (Hcap : capacity (Stream_StaticInit p) = 10) by done. assert (Hp0 : pointer (Stream_StaticInit p) = 0) by done.
  set (s := Stream_StaticInit p) in *. clearbody s.
  unfold input_recv. rewrite check_bind by (done || (rewrite Hr, Hl; lia)).
  rewrite (on_stream_bind _ _ _ _ _ _ (parses_u16 1 ltac:(done) s _ Hs Hr)).
  destruct (readable_after s _ _ Hs Hr) as [Hs1 Hr1]. change (zlen (winpr_Data_Write_UINT16 1)) with 2 in *.
  rewrite (on_stream_bind _ _ _ _ _ _ (parses_seek 2 [pad1; pad2] eq_refl _ _ Hs1 Hr1)).
  destruct (readable_after _ _ _ Hs1 Hr1) as [Hs2 Hr2]. rewrite advance_advance in *. change (2 + zlen [pad1; pad2]) with 4 in *.
  rewrite (on_stream_bind _ _ _ _ tt (advance 4 s)).
  2: { unfold Stream_CheckAndLogRequiredLengthEx. rewrite assert_bind by done.
    rewrite (bind_ret_eq _ _ _ _ _ (remaining_length_eq _ Hs2)), <- zlen_rest, Hr2 by done. done. }
  change (Z.to_nat 1) with 1%nat. cbn [recv_events]. unfold input_recv_event.
  apply bind_crash_eq. rewrite check_bind by (done || (rewrite Hr2; done)).
  rewrite (on_stream_bind _ _ _ _ _ _ (parses_seek 4 [t1; t2; t3; t4] eq_refl _ _ Hs2 Hr2)).
  destruct (readable_after _ _ _ Hs2 Hr2) as [Hs3 Hr3]. rewrite advance_advance in *. change (4 + zlen [t1; t2; t3; t4]) with 8 in *.
  rewrite <- (app_nil_r (winpr_Data_Write_UINT16 type)) in Hr3.
  rewrite (on_stream_bind _ _ _ _ _ _ (parses_u16 type Ht _ _ Hs3 Hr3)), advance_advance, zlen_Write_UINT16.
  repeat (apply Forall_cons_1 in Hn as [Hn1 Hn]; rewrite (proj2 (Z.eqb_neq _ _) Hn1); clear Hn1).
  unfold on_stream. cbn [fst snd]. unfold Stream_Seek.
  assert (Hw : wf (advance (8 + 2) s)) by (apply wf_at; [apply Hs|lia]).
  rewrite (bind_ret_eq _ _ _ _ _ (remaining_capacity_eq _ Hw)), pointer_advance, Hp0.
  change (capacity (advance (8 + 2) s)) with (capacity s). by rewrite Hcap.
Qed.
End Theorem_safe.

(** ** Concrete ends *)

(** A server that takes down the calls. *)
Definition listener : Inputs :=
  let note c : M (list call) unit := fun l => Ret tt (l ++ [c]) in {|
  inp := list call;
  SynchronizeEvent := fun f => note (CSync f);
  KeyboardEvent := fun f c => note (CKey f c);
  UnicodeKeyboardEvent := fun f c => note (CUnicode f c);
  MouseEvent := fun f x y => note (CMouse f x y);
  RelMouseEvent := fun f x y => note (CRel f x y);
  ExtendedMouseEvent := fun f x y => note (CExt f x y);
  QoEEvent := fun t => note (CQoE t)
|}.

(** A slow path without headers. *)
Definition bare_pdus : @DataPdu tap := {|
  rdp_data_pdu_init := fun w => Ret (new_stream zero_junk 64) w;
  rdp_send_data_pdu := fun _ s w => Ret tt (w ++ [written s] : @wire tap)
|}.

Lemma bare_framing : Framing (H := tap) (H0 := bare_pdus) (fun w => w).
Proof.
  split. intros w. exists (new_stream zero_junk 64), w. split; [done|].
  split; [apply wf_new_stream; [apply zero_junk_len|apply zero_junk_bytes|lia]|]. split; [by vm_compute|].
  intros bs s' (_ & Hw & _). exists (w ++ [written s']). split; [done|]. by rewrite Hw.
Qed.

Definition settings_with (methods : Z) (fast : bool) : inSettings := mkInSettings fast false true true true true true 10 methods.

Definition in_settings : bool -> inSettings := settings_with ENCRYPTION_METHOD_NONE.

Definition some_events : list (Z * event) :=
  [(5, Keyboard 0x4000 30); (6, Mouse 0x0800 100 200); (7, FocusIn 2); (8, KeyboardPause); (9, RelMouse 0x0800 (-3) 4); (10, QoE 77)].

Definition idle_client : @inClient no_security tap := mkInClient (H := no_security) (H0 := tap) tt [] 0 0 0.

Definition idle_server : @inServer no_security listener := mkInServer (H := no_security) (H0 := listener) fresh_fastpath tt [] 0.

Lemma some_events_ok fast : Forall (fun x => 0 <= x.1 < 2 ^ 64 /\ event_ok (in_settings fast) x.2) some_events.
Proof. repeat (apply Forall_cons_2; [split; [done|by destruct fast]|]). apply Forall_nil_2. Qed.

Lemma input_fastpath_delivered_witness :
  exists c' ps x', send_events (H := no_security) (H1 := bare_pdus) (H2 := alloc_always) zero_junk (in_settings true) false some_events idle_client = Ret tt c' /\
    cl_wire c' = [] ++ ps /\ serve_all (in_settings true) ps idle_server = Some x' /\
    srv_inp x' = [CKey 0 30; CMouse 0x0800 100 200; CKey 0x8000 15; CSync 2; CKey 0x8000 15;
                  CKey 0x0200 29; CKey 0 69; CKey 0x8200 29; CKey 0x8000 69; CRel 0x0800 (-3) 4; CQoE 77].
Proof.
  apply (input_fastpath_delivered (H := no_security) (H0 := alloc_always) (H1 := alloc_always_ok) (D := bare_pdus) (H2 := listener)
    zero_junk (in_settings true) false some_events idle_client idle_server).
  - apply zero_junk_len.
  - apply zero_junk_bytes.
  - done.
  - apply some_events_ok.
  - reflexivity.
Defined.

Lemma input_slowpath_delivered_witness :
  exists c' ps, send_events (H := no_security) (H1 := bare_pdus) (H2 := alloc_always) zero_junk (in_settings false) false some_events idle_client = Ret tt c' /\
    cl_wire c' = [] ++ ps /\ hear_all (H := listener) (in_settings false) ps [] =
      Some [CKey 0x4000 30; CMouse 0x0800 100 200; CKey 0x8000 15; CSync 2; CKey 0x8000 15;
            CKey 0x0200 29; CKey 0 69; CKey 0x8200 29; CKey 0x8000 69; CRel 0x0800 (-3) 4].
Proof.
  apply (input_slowpath_delivered (H := no_security) (H0 := tap) (H1 := bare_pdus) (H2 := bare_framing) (H3 := alloc_always) (H4 := listener)
    zero_junk (in_settings false) false some_events idle_client).
  - done.
  - apply some_events_ok.
  - reflexivity.
Defined.

(** A cipher that flips bits, and signatures that count. *)
Definition toy_security : Security := {|
  keys := Z; security_mac_signature := fun _ k => Ret (zrepeat 8 (u8 k)) (k + 1);
  security_salted_mac_signature := fun _ _ k => Ret (zrepeat 8 (u8 k)) (k + 1);
  security_hmac_signature := fun _ k => Ret (zrepeat 8 (u8 k)) (k + 1);
  security_encrypt := fun d k => Ret (map (fun b => Z.lxor b 0x55) d) (k + 1);
  security_fips_encrypt := fun d k => Ret (map (fun b => Z.lxor b 0x55) d) (k + 1);
  security_decrypt := fun d k => Ret (map (fun b => Z.lxor b 0x55) d) (k + 1);
  security_fips_decrypt := fun d k => Ret (map (fun b => Z.lxor b 0x55) d) (k + 1);
  security_fips_check_signature := fun _ _ k => Ret tt k
|}.

Lemma flip_in_place (d : list Z) :
  bytes d -> bytes (map (fun b => Z.lxor b 0x55) d) /\ zlen (map (fun b => Z.lxor b 0x55) d) = zlen d.
Proof.
  intros Hd. split; [|unfold zlen; by rewrite length_map]. apply Forall_map.
  revert Hd. apply Forall_impl. intros b Hb. cbn beta.
  assert (E : is_byteb (Z.lxor b 0x55) = true).
  { revert b Hb. apply (zrange_forall 256 (fun b => is_byteb (Z.lxor b 0x55))). by vm_compute. }
  unfold is_byteb in E. unfold is_byte. lia.
Qed.

Lemma toy_laws : SecurityLaws (H := toy_security).
Proof. split; intros; cbn; first [by apply flip_in_place | done]. Qed.

Definition toy_server : @inServer toy_security listener :=
  mkInServer (H := toy_security) (H0 := listener) fresh_fastpath 0 [] 0.

(** An encrypted packet with one key, after its signature. *)
Definition encrypted_packet : list Z := [0x84; 12; 1; 2; 3; 4; 5; 6; 7; 8; 0x55; 0x4B].

Lemma peer_recv_fastpath_pdu_safe_witness :
  wp (peer_recv_fastpath_pdu (H := toy_security) (H0 := listener) (settings_with 2 true)) (fun _ x => readable x.2) (fun _ => True)
    (toy_server, Stream_StaticInit encrypted_packet) /\
  exists s', peer_recv_fastpath_pdu (H := toy_security) (H0 := listener) (settings_with 2 true) (toy_server, Stream_StaticInit encrypted_packet) = Ret tt s' /\
    srv_inp s'.1 = [CKey 0 30].
Proof.
  split.
  - apply (peer_recv_fastpath_pdu_safe (H := toy_security) (H0 := listener) (H1 := toy_laws) (settings_with 2 true) toy_server encrypted_packet).
    + by intros [] u.
    + by apply bytes_check.
    + done.
  - eexists. split; [vm_compute; reflexivity|]. reflexivity.
Defined.

Lemma input_recv_unknown_faults_witness :
  input_recv (H0 := listener) (in_settings false) ([], Stream_StaticInit [1; 0; 0; 0; 0; 0; 0; 0; 0x99; 0x99]) = Crash AssertFailed.
Proof.
  apply (input_recv_unknown_faults (H0 := listener) (in_settings false) [] 0x9999 0 0 0 0 0 0).
  - split; by vm_compute.
  - by apply bytes_check.
  - repeat (apply Forall_cons_2; [done|]). apply Forall_nil_2.
Defined.
