(* ===== verification/Color.v ===== *)
(** * Pixel formats and colours

    Model of the pixel formats of [include/freerdp/codec/color.h], of reading and writing a
    pixel ([libfreerdp/codec/color.h]) and of splitting a colour into its channels and putting
    it together again ([libfreerdp/codec/color.c]).  A format is the number that names it; a
    pixel is the list of its bytes in memory. *)

From S2P Require Import Prelude.

(** ** Formats *)

Definition FREERDP_PIXEL_FORMAT (bpp type a r g b : Z) : Z :=
  Z.lor (Z.lor (Z.lor (Z.lor (Z.lor (Z.shiftl bpp 24) (Z.shiftl type 16)) (Z.shiftl a 12))
                 (Z.shiftl r 8)) (Z.shiftl g 4)) b.

Definition FREERDP_PIXEL_FORMAT_TYPE_A : Z := 0.
Definition FREERDP_PIXEL_FORMAT_TYPE_ARGB : Z := 1.
Definition FREERDP_PIXEL_FORMAT_TYPE_ABGR : Z := 2.
Definition FREERDP_PIXEL_FORMAT_TYPE_RGBA : Z := 3.
Definition FREERDP_PIXEL_FORMAT_TYPE_BGRA : Z := 4.

Definition PIXEL_FORMAT_ARGB32 : Z :=
  Eval cbv in FREERDP_PIXEL_FORMAT 32 FREERDP_PIXEL_FORMAT_TYPE_ARGB 8 8 8 8.
Definition PIXEL_FORMAT_XRGB32 : Z :=
  Eval cbv in FREERDP_PIXEL_FORMAT 32 FREERDP_PIXEL_FORMAT_TYPE_ARGB 0 8 8 8.
Definition PIXEL_FORMAT_ABGR32 : Z :=
  Eval cbv in FREERDP_PIXEL_FORMAT 32 FREERDP_PIXEL_FORMAT_TYPE_ABGR 8 8 8 8.
Definition PIXEL_FORMAT_XBGR32 : Z :=
  Eval cbv in FREERDP_PIXEL_FORMAT 32 FREERDP_PIXEL_FORMAT_TYPE_ABGR 0 8 8 8.
Definition PIXEL_FORMAT_BGRA32 : Z :=
  Eval cbv in FREERDP_PIXEL_FORMAT 32 FREERDP_PIXEL_FORMAT_TYPE_BGRA 8 8 8 8.
Definition PIXEL_FORMAT_BGRX32 : Z :=
  Eval cbv in FREERDP_PIXEL_FORMAT 32 FREERDP_PIXEL_FORMAT_TYPE_BGRA 0 8 8 8.
Definition PIXEL_FORMAT_RGBA32 : Z :=
  Eval cbv in FREERDP_PIXEL_FORMAT 32 FREERDP_PIXEL_FORMAT_TYPE_RGBA 8 8 8 8.
Definition PIXEL_FORMAT_RGBX32 : Z :=
  Eval cbv in FREERDP_PIXEL_FORMAT 32 FREERDP_PIXEL_FORMAT_TYPE_RGBA 0 8 8 8.
Definition PIXEL_FORMAT_BGRX32_DEPTH30 : Z :=
  Eval cbv in FREERDP_PIXEL_FORMAT 32 FREERDP_PIXEL_FORMAT_TYPE_BGRA 0 10 10 10.
Definition PIXEL_FORMAT_RGBX32_DEPTH30 : Z :=
  Eval cbv in FREERDP_PIXEL_FORMAT 32 FREERDP_PIXEL_FORMAT_TYPE_RGBA 0 10 10 10.
Definition PIXEL_FORMAT_RGB24 : Z :=
  Eval cbv in FREERDP_PIXEL_FORMAT 24 FREERDP_PIXEL_FORMAT_TYPE_ARGB 0 8 8 8.
Definition PIXEL_FORMAT_BGR24 : Z :=
  Eval cbv in FREERDP_PIXEL_FORMAT 24 FREERDP_PIXEL_FORMAT_TYPE_ABGR 0 8 8 8.
Definition PIXEL_FORMAT_RGB16 : Z :=
  Eval cbv in FREERDP_PIXEL_FORMAT 16 FREERDP_PIXEL_FORMAT_TYPE_ARGB 0 5 6 5.
Definition PIXEL_FORMAT_BGR16 : Z :=
  Eval cbv in FREERDP_PIXEL_FORMAT 16 FREERDP_PIXEL_FORMAT_TYPE_ABGR 0 5 6 5.
Definition PIXEL_FORMAT_ARGB15 : Z :=
  Eval cbv in FREERDP_PIXEL_FORMAT 16 FREERDP_PIXEL_FORMAT_TYPE_ARGB 1 5 5 5.
Definition PIXEL_FORMAT_RGB15 : Z :=
  Eval cbv in FREERDP_PIXEL_FORMAT 15 FREERDP_PIXEL_FORMAT_TYPE_ARGB 0 5 5 5.
Definition PIXEL_FORMAT_ABGR15 : Z :=
  Eval cbv in FREERDP_PIXEL_FORMAT 16 FREERDP_PIXEL_FORMAT_TYPE_ABGR 1 5 5 5.
Definition PIXEL_FORMAT_BGR15 : Z :=
  Eval cbv in FREERDP_PIXEL_FORMAT 15 FREERDP_PIXEL_FORMAT_TYPE_ABGR 0 5 5 5.
Definition PIXEL_FORMAT_RGB8 : Z :=
  Eval cbv in FREERDP_PIXEL_FORMAT 8 FREERDP_PIXEL_FORMAT_TYPE_A 8 0 0 0.
Definition PIXEL_FORMAT_A4 : Z :=
  Eval cbv in FREERDP_PIXEL_FORMAT 4 FREERDP_PIXEL_FORMAT_TYPE_A 4 0 0 0.
Definition PIXEL_FORMAT_MONO : Z :=
  Eval cbv in FREERDP_PIXEL_FORMAT 1 FREERDP_PIXEL_FORMAT_TYPE_A 1 0 0 0.

Definition FREERDP_FLIP_NONE : Z := 0.
Definition FREERDP_FLIP_VERTICAL : Z := 1.
Definition FREERDP_KEEP_DST_ALPHA : Z := 4.

Definition FreeRDPGetBitsPerPixel (format : Z) : Z := Z.land (Z.shiftr format 24) 0x3F.

Definition FreeRDPGetBytesPerPixel (format : Z) : Z := (FreeRDPGetBitsPerPixel format + 7) / 8.

Definition FreeRDPColorHasAlpha (format : Z) : bool :=
  negb (Z.land (Z.shiftr format 12) 0x0F =? 0).

Definition FreeRDPAreColorFormatsEqualNoAlpha (first second : Z) : bool :=
  let mask := u32 (Z.lnot (Z.shiftl 8 12)) in
  Z.land first mask =? Z.land second mask.

(** ** Pixels in memory *)

(** The bytes that are stored at [dst]; [None] for a format it refuses. *)
Definition FreeRDPWriteColor (format color : Z) : option (list Z) :=
  match FreeRDPGetBitsPerPixel format with
  | 32 => Some [u8 (Z.shiftr color 24); u8 (Z.shiftr color 16); u8 (Z.shiftr color 8); u8 color]
  | 24 => Some [u8 (Z.shiftr color 16); u8 (Z.shiftr color 8); u8 color]
  | 16 => Some [u8 color; u8 (Z.shiftr color 8)]
  | 15 =>
      let color := if negb (FreeRDPColorHasAlpha format) then Z.land color 0x7FFF else color in
      Some [u8 color; u8 (Z.shiftr color 8)]
  | 8 => Some [u8 color]
  | _ => None
  end.

(** [src] holds the bytes from the pixel on; [None] when it is read behind its end. *)
Definition FreeRDPReadColor (src : list Z) (format : Z) : option Z :=
  match FreeRDPGetBitsPerPixel format with
  | 32 =>
      match src with
      | b0 :: b1 :: b2 :: b3 :: _ =>
          Some (Z.lor (Z.lor (Z.lor (Z.shiftl b0 24) (Z.shiftl b1 16)) (Z.shiftl b2 8)) b3)
      | _ => None
      end
  | 24 =>
      match src with
      | b0 :: b1 :: b2 :: _ => Some (Z.lor (Z.lor (Z.shiftl b0 16) (Z.shiftl b1 8)) b2)
      | _ => None
      end
  | 16 =>
      match src with
      | b0 :: b1 :: _ => Some (Z.lor (Z.shiftl b1 8) b0)
      | _ => None
      end
  | 15 =>
      match src with
      | b0 :: b1 :: _ =>
          let color := Z.lor (Z.shiftl b1 8) b0 in
          Some (if negb (FreeRDPColorHasAlpha format) then Z.land color 0x7FFF else color)
      | _ => None
      end
  | 8 | 4 | 1 => match src with b0 :: _ => Some b0 | _ => None end
  | _ => Some 0
  end.

(** [dst] holds the bytes that are stored at the pixel. *)
Definition FreeRDPWriteColorIgnoreAlpha (dst : list Z) (format color : Z) : option (list Z) :=
  if (format =? PIXEL_FORMAT_XBGR32) || (format =? PIXEL_FORMAT_XRGB32)
     || (format =? PIXEL_FORMAT_ABGR32) || (format =? PIXEL_FORMAT_ARGB32) then
    FreeRDPWriteColor format (Z.lor (Z.shiftl (nth 0 dst 0) 24) (Z.land color 0x00FFFFFF))
  else if (format =? PIXEL_FORMAT_BGRX32) || (format =? PIXEL_FORMAT_RGBX32)
          || (format =? PIXEL_FORMAT_BGRA32) || (format =? PIXEL_FORMAT_RGBA32) then
    FreeRDPWriteColor format (Z.lor (nth 3 dst 0) (Z.land color 0xFFFFFF00))
  else FreeRDPWriteColor format color.

(** ** Channels *)

Record rgba := mkRgba { c_r : Z; c_g : Z; c_b : Z; c_a : Z }.

Record gdiPalette := mkPalette { palette_format : Z; palette_entries : list Z }.

(** [val > 255 ? 255 : val] of a channel of five or six bits *)
Definition channel5 (c : Z) : Z :=
  let val := Z.shiftl c 3 + c / 4 in u8 (if 255 <? val then 255 else val).

Definition channel6 (c : Z) : Z :=
  let val := Z.shiftl c 2 + c / 4 / 2 in u8 (if 255 <? val then 255 else val).

Definition field (color shift mask : Z) : Z := Z.land (Z.shiftr color shift) mask.

Definition grey (v : Z) : rgba := mkRgba v v v v.

(** The formats of two bytes, and those without colours. *)
Definition split_high (color format : Z) : rgba :=
  let f5 k := channel5 (field color k 0x1F) in
  let f6 k := channel6 (field color k 0x3F) in
  let a1 := if Z.land color 0x8000 =? 0 then 0x00 else 0xFF in
  if format =? PIXEL_FORMAT_RGB16 then mkRgba (f5 11) (f6 5) (f5 0) 0xFF
  else if format =? PIXEL_FORMAT_BGR16 then mkRgba (f5 0) (f6 5) (f5 11) 0xFF
  else if format =? PIXEL_FORMAT_ARGB15 then mkRgba (f5 10) (f5 5) (f5 0) a1
  else if format =? PIXEL_FORMAT_ABGR15 then mkRgba (f5 0) (f5 5) (f5 10) a1
  else if format =? PIXEL_FORMAT_RGB15 then mkRgba (f5 10) (f5 5) (f5 0) 0xFF
  else if format =? PIXEL_FORMAT_BGR15 then mkRgba (f5 0) (f5 5) (f5 10) 0xFF
  else if format =? PIXEL_FORMAT_MONO then grey (if color =? 0 then 0x00 else 0xFF)
  else grey 0x00.

(** [FreeRDPSplitColor] but for the palette. *)
Definition split_direct (color format : Z) : rgba :=
  let at_ k := u8 (Z.shiftr color k) in
  if format =? PIXEL_FORMAT_ARGB32 then mkRgba (at_ 16) (at_ 8) (at_ 0) (at_ 24)
  else if format =? PIXEL_FORMAT_XRGB32 then mkRgba (at_ 16) (at_ 8) (at_ 0) 0xFF
  else if format =? PIXEL_FORMAT_ABGR32 then mkRgba (at_ 0) (at_ 8) (at_ 16) (at_ 24)
  else if format =? PIXEL_FORMAT_XBGR32 then mkRgba (at_ 0) (at_ 8) (at_ 16) 0xFF
  else if format =? PIXEL_FORMAT_RGBA32 then mkRgba (at_ 24) (at_ 16) (at_ 8) (at_ 0)
  else if format =? PIXEL_FORMAT_RGBX32 then mkRgba (at_ 24) (at_ 16) (at_ 8) 0xFF
  else if format =? PIXEL_FORMAT_BGRA32 then mkRgba (at_ 8) (at_ 16) (at_ 24) (at_ 0)
  else if format =? PIXEL_FORMAT_BGRX32 then mkRgba (at_ 8) (at_ 16) (at_ 24) 0xFF
  else if format =? PIXEL_FORMAT_RGB24 then mkRgba (at_ 16) (at_ 8) (at_ 0) 0xFF
  else if format =? PIXEL_FORMAT_BGR24 then mkRgba (at_ 0) (at_ 8) (at_ 16) 0xFF
  else split_high color format.

(** The channels that are stored; [None] when a palette is missing that is needed. *)
Definition FreeRDPSplitColor (color format : Z) (palette : option gdiPalette) : option rgba :=
  if format =? PIXEL_FORMAT_RGB8 then
    if color <=? 0xFF then
      match palette with
      | Some p =>
          match palette_entries p !! Z.to_nat color with
          | Some tmp =>
              if palette_format p =? PIXEL_FORMAT_RGB8 then
                (if tmp <=? 0xFF then None else Some (grey 0x00))
              else Some (split_direct tmp (palette_format p))
          | None => None
          end
      | None => None
      end
    else Some (grey 0x00)
  else Some (split_direct color format).

Definition FreeRDPGetColor (format : Z) (c : rgba) : Z :=
  let r := c_r c in let g := c_g c in let b := c_b c in let a := c_a c in
  let four w x y z := Z.lor (Z.lor (Z.lor (Z.shiftl w 24) (Z.shiftl x 16)) (Z.shiftl y 8)) z in
  let three x y z := Z.lor (Z.lor (Z.shiftl x 16) (Z.shiftl y 8)) z in
  let swapped t :=
    Z.lor (Z.lor (Z.lor (Z.shiftl (Z.land t 0xff) 24) (Z.shiftl (Z.land (Z.shiftr t 8) 0xff) 16))
             (Z.shiftl (Z.land (Z.shiftr t 16) 0xff) 8)) (Z.shiftr t 24) in
  let five v := field v 3 0x1F in
  let six v := field v 2 0x3F in
  let c565 x y z := Z.lor (Z.lor (Z.shiftl (five x) 11) (Z.shiftl (six y) 5)) (five z) in
  let c555 x y z := Z.lor (Z.lor (Z.shiftl (five x) 10) (Z.shiftl (five y) 5)) (five z) in
  let a15 := if a =? 0 then 0x0000 else 0x8000 in
  if format =? PIXEL_FORMAT_ARGB32 then four a r g b
  else if format =? PIXEL_FORMAT_XRGB32 then three r g b
  else if format =? PIXEL_FORMAT_ABGR32 then four a b g r
  else if format =? PIXEL_FORMAT_XBGR32 then three b g r
  else if format =? PIXEL_FORMAT_RGBA32 then four r g b a
  else if format =? PIXEL_FORMAT_RGBX32 then four r g b a
  else if format =? PIXEL_FORMAT_BGRA32 then four b g r a
  else if format =? PIXEL_FORMAT_BGRX32 then four b g r a
  else if (format =? PIXEL_FORMAT_RGBX32_DEPTH30) || (format =? PIXEL_FORMAT_BGRX32_DEPTH30) then
    swapped (Z.lor (Z.lor (Z.shiftl r 22) (Z.shiftl g 12)) (Z.shiftl b 2))
  else if format =? PIXEL_FORMAT_RGB24 then three r g b
  else if format =? PIXEL_FORMAT_BGR24 then three b g r
  else if format =? PIXEL_FORMAT_RGB16 then c565 r g b
  else if format =? PIXEL_FORMAT_BGR16 then c565 b g r
  else if format =? PIXEL_FORMAT_ARGB15 then Z.lor (c555 r g b) a15
  else if format =? PIXEL_FORMAT_ABGR15 then Z.lor (c555 b g r) a15
  else if format =? PIXEL_FORMAT_RGB15 then c555 r g b
  else if format =? PIXEL_FORMAT_BGR15 then c555 b g r
  else 0.

Definition FreeRDPConvertColor (color srcFormat dstFormat : Z) (palette : option gdiPalette) : option Z :=
  option_map (FreeRDPGetColor dstFormat) (FreeRDPSplitColor color srcFormat palette).

(** ** Colours come back *)

Definition true_colour : list Z :=
  [PIXEL_FORMAT_ARGB32; PIXEL_FORMAT_XRGB32; PIXEL_FORMAT_ABGR32; PIXEL_FORMAT_XBGR32;
   PIXEL_FORMAT_RGBA32; PIXEL_FORMAT_RGBX32; PIXEL_FORMAT_BGRA32; PIXEL_FORMAT_BGRX32;
   PIXEL_FORMAT_RGB24; PIXEL_FORMAT_BGR24].

Definition high_colour : list Z :=
  [PIXEL_FORMAT_RGB16; PIXEL_FORMAT_BGR16; PIXEL_FORMAT_ARGB15; PIXEL_FORMAT_ABGR15;
   PIXEL_FORMAT_RGB15; PIXEL_FORMAT_BGR15].

(** The colour without the channel the format does not store. *)
Definition stored (format : Z) (c : rgba) : rgba :=
  if FreeRDPColorHasAlpha format then c else mkRgba (c_r c) (c_g c) (c_b c) 0xFF.

Definition rgba_ok (c : rgba) : Prop :=
  is_byte (c_r c) /\ is_byte (c_g c) /\ is_byte (c_b c) /\ is_byte (c_a c).

Lemma four_sum w x y z : is_byte x -> is_byte y -> is_byte z ->
  Z.lor (Z.lor (Z.lor (Z.shiftl w 24) (Z.shiftl x 16)) (Z.shiftl y 8)) z
  = w * 2 ^ 24 + (x * 2 ^ 16 + (y * 2 ^ 8 + z)).
Proof.
  unfold is_byte. intros. rewrite <- !Z.lor_assoc.
  rewrite (lor_shiftl_add y), (lor_shiftl_add x), (lor_shiftl_add w); lia.
Qed.

Lemma three_sum x y z : is_byte y -> is_byte z ->
  Z.lor (Z.lor (Z.shiftl x 16) (Z.shiftl y 8)) z = x * 2 ^ 16 + (y * 2 ^ 8 + z).
Proof.
  unfold is_byte. intros. rewrite <- !Z.lor_assoc.
  rewrite (lor_shiftl_add y), (lor_shiftl_add x); lia.
Qed.

Lemma shiftr_byte v k m : 0 <= k -> m = 2 ^ k -> u8 (Z.shiftr v k) = v / m mod 256.
Proof. intros ? ->. by rewrite shiftr_div. Qed.

Lemma four_split w x y z v :
  is_byte w -> is_byte x -> is_byte y -> is_byte z -> v = w * 2 ^ 24 + (x * 2 ^ 16 + (y * 2 ^ 8 + z)) ->
  u8 (Z.shiftr v 24) = w /\ u8 (Z.shiftr v 16) = x /\ u8 (Z.shiftr v 8) = y
  /\ u8 (Z.shiftr v 0) = z /\ u8 v = z.
Proof.
  unfold is_byte. intros ? ? ? ? ->.
  rewrite (shiftr_byte _ 24 16777216), (shiftr_byte _ 16 65536), (shiftr_byte _ 8 256),
    (shiftr_byte _ 0 1) by (lia || reflexivity). unfold u8.
  repeat split; Z.div_mod_to_equations; lia.
Qed.

(** A pixel that is written and read again has the channels it was made of. *)
Definition comes_back (f : Z) (c : rgba) : Prop :=
  exists px v, FreeRDPWriteColor f (FreeRDPGetColor f c) = Some px
    /\ bytes px /\ zlen px = FreeRDPGetBytesPerPixel f
    /\ (forall rest, FreeRDPReadColor (px ++ rest) f = Some v)
    /\ FreeRDPSplitColor v f None = Some (stored f c).

Lemma bits32_back f c w x y z :
  FreeRDPGetBitsPerPixel f = 32 -> is_byte w -> is_byte x -> is_byte y -> is_byte z ->
  FreeRDPGetColor f c = w * 2 ^ 24 + (x * 2 ^ 16 + (y * 2 ^ 8 + z)) ->
  FreeRDPSplitColor (w * 2 ^ 24 + (x * 2 ^ 16 + (y * 2 ^ 8 + z))) f None = Some (stored f c) ->
  comes_back f c.
Proof.
  intros Hf Hw Hx Hy Hz Hv Hs.
  destruct (four_split w x y z _ Hw Hx Hy Hz Hv) as (E1 & E2 & E3 & _ & E4).
  eexists [w; x; y; z], _. unfold FreeRDPWriteColor, FreeRDPReadColor, FreeRDPGetBytesPerPixel.
  rewrite Hf, E1, E2, E3, E4. split_and!; [done|by repeat apply Forall_cons_2|done| |exact Hs].
  intros. simpl. by rewrite four_sum by done.
Qed.

Lemma bits24_back f c x y z :
  FreeRDPGetBitsPerPixel f = 24 -> is_byte x -> is_byte y -> is_byte z ->
  FreeRDPGetColor f c = x * 2 ^ 16 + (y * 2 ^ 8 + z) ->
  FreeRDPSplitColor (0 * 2 ^ 24 + (x * 2 ^ 16 + (y * 2 ^ 8 + z))) f None = Some (stored f c) ->
  comes_back f c.
Proof.
  intros Hf Hx Hy Hz Hv Hs.
  destruct (four_split 0 x y z (x * 2 ^ 16 + (y * 2 ^ 8 + z))) as (_ & E2 & E3 & _ & E4);
    try done.
  eexists [x; y; z], _. unfold FreeRDPWriteColor, FreeRDPReadColor, FreeRDPGetBytesPerPixel.
  rewrite Hf, Hv, E2, E3, E4. split_and!; [done|by repeat apply Forall_cons_2|done| |exact Hs].
  intros. simpl. by rewrite three_sum by done.
Qed.

(** The channels of a sum of bytes are its digits. *)
Ltac colour_digits w x y z :=
  let E1 := fresh in let E2 := fresh in let E3 := fresh in let E4 := fresh in
  destruct (four_split w x y z (w * 2 ^ 24 + (x * 2 ^ 16 + (y * 2 ^ 8 + z)))) as (E1 & E2 & E3 & E4 & _);
    [done..|]; unfold FreeRDPSplitColor, split_direct, split_high; cbn [Z.eqb];
  rewrite ?E1, ?E2, ?E3, ?E4.

(** What a high colour becomes when it is split and put together again: a green of six bits from
    32 on is one brighter, but for the brightest. *)
Definition resampled (f v : Z) : Z :=
  if FreeRDPGetBitsPerPixel f =? 15 then Z.land v 0x7FFF
  else if FreeRDPColorHasAlpha f then v
  else
    let g := field v 5 0x3F in
    if (32 <=? g) && (g <? 63) then v + Z.shiftl 1 5 else v.

Lemma field5 v k m : 0 <= k -> m = 2 ^ k -> field v k 0x1F = v / m mod 32.
Proof. intros Hk ->. unfold field. by rewrite shiftr_div, (land_mask _ 5) by (lia || done). Qed.

Lemma field6 v k m : 0 <= k -> m = 2 ^ k -> field v k 0x3F = v / m mod 64.
Proof. intros Hk ->. unfold field. by rewrite shiftr_div, (land_mask _ 6) by (lia || done). Qed.

Lemma five_channel c : 0 <= c < 32 -> field (channel5 c) 3 0x1F = c.
Proof.
  intros Hc. apply Z.eqb_eq. revert c Hc.
  apply (zrange_forall 32 (fun c => field (channel5 c) 3 0x1F =? c)). by vm_compute.
Qed.

Lemma six_channel c : 0 <= c < 64 ->
  field (channel6 c) 2 0x3F = if (32 <=? c) && (c <? 63) then c + 1 else c.
Proof.
  intros Hc. apply Z.eqb_eq. revert c Hc.
  apply (zrange_forall 64 (fun c =>
    field (channel6 c) 2 0x3F =? if (32 <=? c) && (c <? 63) then c + 1 else c)). by vm_compute.
Qed.

Lemma land_8000 v : is_u16 v -> (Z.land v 0x8000 =? 0) = (v <? 32768).
Proof.
  intros. apply Bool.eqb_prop. revert v H.
  apply (zrange_forall 65536 (fun v => Bool.eqb (Z.land v 0x8000 =? 0) (v <? 32768))).
  by vm_compute.
Qed.

Lemma parts565 x y z : 0 <= x < 32 -> 0 <= y < 64 -> 0 <= z < 32 ->
  Z.lor (Z.lor (Z.shiftl x 11) (Z.shiftl y 5)) z = x * 2048 + (y * 32 + z).
Proof. intros. rewrite <- Z.lor_assoc, (lor_shiftl_add y), (lor_shiftl_add x); lia. Qed.

Lemma parts555 x y z : 0 <= x < 32 -> 0 <= y < 32 -> 0 <= z < 32 ->
  Z.lor (Z.lor (Z.shiftl x 10) (Z.shiftl y 5)) z = x * 1024 + (y * 32 + z).
Proof. intros. rewrite <- Z.lor_assoc, (lor_shiftl_add y), (lor_shiftl_add x); lia. Qed.

Lemma high_565 v : is_u16 v ->
  let g := field v 5 0x3F in
  Z.lor (Z.lor (Z.shiftl (field (channel5 (field v 11 0x1F)) 3 0x1F) 11)
           (Z.shiftl (field (channel6 g) 2 0x3F) 5)) (field (channel5 (field v 0 0x1F)) 3 0x1F)
  = if (32 <=? g) && (g <? 63) then v + Z.shiftl 1 5 else v.
Proof.
  intros Hv g. unfold is_u16 in Hv.
  assert (g = v / 32 mod 64) as Hg by by apply field6. clearbody g.
  rewrite (field5 v 11 2048), (field5 v 0 1) by done.
  assert (0 <= v / 2048 mod 32 < 32) by (apply Z.mod_pos_bound; lia).
  assert (0 <= v / 1 mod 32 < 32) by (apply Z.mod_pos_bound; lia).
  assert (0 <= g < 64) by (rewrite Hg; apply Z.mod_pos_bound; lia).
  rewrite !five_channel, six_channel by done. change (Z.shiftl 1 5) with 32.
  rewrite parts565; [|done| |done].
  - zcase; subst g; word_lia.
  - zcase; lia.
Qed.

Lemma high_555 v : is_u16 v ->
  Z.lor (Z.lor (Z.shiftl (field (channel5 (field v 10 0x1F)) 3 0x1F) 10)
           (Z.shiftl (field (channel5 (field v 5 0x1F)) 3 0x1F) 5))
    (field (channel5 (field v 0 0x1F)) 3 0x1F) = Z.land v 0x7FFF.
Proof.
  unfold is_u16. intros Hv.
  rewrite (field5 v 10 1024), (field5 v 5 32), (field5 v 0 1) by done.
  assert (0 <= v / 1024 mod 32 < 32) by (apply Z.mod_pos_bound; lia).
  assert (0 <= v / 32 mod 32 < 32) by (apply Z.mod_pos_bound; lia).
  assert (0 <= v / 1 mod 32 < 32) by (apply Z.mod_pos_bound; lia).
  rewrite !five_channel, parts555, (land_mask _ 15) by done. change (2 ^ 15) with 32768. word_lia.
Qed.

(** The opacity bit of the formats with fifteen bits of colour. *)
Lemma high_alpha v : is_u16 v ->
  Z.lor (Z.land v 0x7FFF)
    (if (if Z.land v 0x8000 =? 0 then 0 else 255) =? 0 then 0 else 0x8000) = v.
Proof.
  unfold is_u16. intros Hv. rewrite land_8000, (land_mask _ 15) by done.
  change (2 ^ 15) with 32768. destruct (Z.ltb_spec v 32768); cbn [Z.eqb].
  - rewrite Z.lor_0_r, Z.mod_small; lia.
  - rewrite lor_8000; word_lia.
Qed.

Lemma high_colour_exact f v : f ∈ high_colour -> is_u16 v ->
  exists c, FreeRDPSplitColor v f None = Some c /\ FreeRDPGetColor f c = resampled f v.
Proof.
  intros Hf Hv. eexists. split.
  { unfold FreeRDPSplitColor. replace (f =? PIXEL_FORMAT_RGB8) with false; [done|].
    unfold high_colour in Hf. repeat (apply elem_of_cons in Hf as [->|Hf]); [done..|].
    by apply elem_of_nil in Hf. }
  unfold high_colour in Hf. repeat (apply elem_of_cons in Hf as [->|Hf]).
  - exact (high_565 v Hv).
  - exact (high_565 v Hv).
  - etransitivity; [|exact (high_alpha v Hv)]. by rewrite <- (high_555 v Hv).
  - etransitivity; [|exact (high_alpha v Hv)]. by rewrite <- (high_555 v Hv).
  - exact (high_555 v Hv).
  - exact (high_555 v Hv).
  - by apply elem_of_nil in Hf.
Qed.

Lemma true_colour_back f c : f ∈ true_colour -> rgba_ok c -> comes_back f c.
Proof.
  destruct c as [r g b a]. unfold rgba_ok; cbn [c_r c_g c_b c_a]. intros Hf (Hr & Hg & Hb & Ha).
  assert (is_byte 0) as H0 by done.
  unfold true_colour in Hf. repeat (apply elem_of_cons in Hf as [->|Hf]).
  - apply (bits32_back _ _ a r g b); [done..| |]; [by apply four_sum|].
    by colour_digits a r g b.
  - apply (bits32_back _ _ 0 r g b); [done..| |]; [by apply three_sum|].
    by colour_digits 0 r g b.
  - apply (bits32_back _ _ a b g r); [done..| |]; [by apply four_sum|].
    by colour_digits a b g r.
  - apply (bits32_back _ _ 0 b g r); [done..| |]; [by apply three_sum|].
    by colour_digits 0 b g r.
  - apply (bits32_back _ _ r g b a); [done..| |]; [by apply four_sum|].
    by colour_digits r g b a.
  - apply (bits32_back _ _ r g b a); [done..| |]; [by apply four_sum|].
    by colour_digits r g b a.
  - apply (bits32_back _ _ b g r a); [done..| |]; [by apply four_sum|].
    by colour_digits b g r a.
  - apply (bits32_back _ _ b g r a); [done..| |]; [by apply four_sum|].
    by colour_digits b g r a.
  - apply (bits24_back _ _ r g b); [done..| |]; [by apply three_sum|].
    by colour_digits 0 r g b.
  - apply (bits24_back _ _ b g r); [done..| |]; [by apply three_sum|].
    by colour_digits 0 b g r.
  - by apply elem_of_nil in Hf.
Qed.

(** C31: a colour of a format with eight bits per channel that is written to memory and read again
    has the channels it had, with full opacity where the format stores none; and a pixel of the
    formats of 15 and 16 bits that is split and put together again is the same, except that in
    the formats with six bits of green the greens from 32 to 62 come out one step brighter. *)
Theorem colour_roundtrip f :
  (f ∈ true_colour -> forall c, rgba_ok c -> comes_back f c)
  /\ (f ∈ high_colour -> forall v, is_u16 v ->
      exists c, FreeRDPSplitColor v f None = Some c /\ FreeRDPGetColor f c = resampled f v).
Proof. split; intros; [by apply true_colour_back|by apply high_colour_exact]. Qed.

Lemma colour_roundtrip_witness :
  comes_back PIXEL_FORMAT_RGBX32 (mkRgba 1 2 3 4)
  /\ exists c, FreeRDPSplitColor (Z.shiftl 32 5) PIXEL_FORMAT_RGB16 None = Some c
        /\ FreeRDPGetColor PIXEL_FORMAT_RGB16 c = Z.shiftl 33 5.
Proof.
  split.
  - apply (proj1 (colour_roundtrip PIXEL_FORMAT_RGBX32)).
    + by apply (bool_decide_unpack _).
    + done.
  - apply (proj2 (colour_roundtrip PIXEL_FORMAT_RGB16)); [|done].
    by apply (bool_decide_unpack _).
Defined.
