(* ===== verification/Image.v ===== *)
(** * Copying and converting images

    Model of the portable primitives of [libfreerdp/primitives]: the copy between images of
    different formats ([prim_copy.c]) and the conversion from the colour space of the planar codec
    ([prim_YCoCg.c]), with the pixel writers of [prim_internal.h].

    An image is a block of bytes, its rows [step] bytes apart.  The destination is the state of a
    computation, the source is an argument: they are separate blocks, as the callers assert. *)

From S2P Require Import Prelude Color.

(** ** Blocks *)

(** [memcpy (&dst[off], bs, ...)] *)
Definition store (off : Z) (bs : list Z) : M (list Z) unit :=
  d ← get; d ← copy_to off bs d; modify (fun _ => d).

(** One byte of a block. *)
Definition byte_at {S} (mem : list Z) (i : Z) : M S Z :=
  if 0 <=? i then
    match mem !! Z.to_nat i with Some b => mret b | None => crash Undefined end
  else crash Undefined.

(** [for (i = lo; i < lo + n; i++) body (i)] *)
Fixpoint for_range {S} (n : nat) (lo : Z) (body : Z -> M S unit) : M S unit :=
  match n with
  | O => mret tt
  | S n' => body lo;; for_range n' (lo + 1) body
  end.

(** [FreeRDPReadColor (&mem[off], format)] *)
Definition read_pixel {S} (mem : list Z) (off format : Z) : M S Z :=
  if (0 <=? off) && (off <=? zlen mem) then
    match FreeRDPReadColor (zdrop off mem) format with
    | Some c => mret c
    | None => crash Undefined
    end
  else crash Undefined.

(** [FreeRDPWriteColor (&dst[off], format, color)], its status dropped *)
Definition write_pixel (off format color : Z) : M (list Z) unit :=
  match FreeRDPWriteColor format color with
  | Some px => store off px
  | None => mret tt
  end.

(** ** The copy *)

(** The rectangle that is copied, its place in both images, and the direction of the source. *)
Record copy_area := mkArea {
  nDstStep : Z; nXDst : Z; nYDst : Z; nWidth : Z; nHeight : Z;
  nSrcStep : Z; nXSrc : Z; nYSrc : Z;
  srcVMultiplier : Z; srcVOffset : Z; dstVMultiplier : Z; dstVOffset : Z
}.

Section Copy.
Variable c : copy_area.

Definition src_line (y : Z) : Z := srcVMultiplier c * (y + nYSrc c) * nSrcStep c + srcVOffset c.
Definition dst_line (y : Z) : Z := dstVMultiplier c * (y + nYDst c) * nDstStep c + dstVOffset c.

Definition rows (body : Z -> M (list Z) unit) : M (list Z) unit := for_range (Z.to_nat (nHeight c)) 0 body.
Definition columns (body : Z -> M (list Z) unit) : M (list Z) unit := for_range (Z.to_nat (nWidth c)) 0 body.

(** Three bytes of each pixel. *)
Definition copy_three (srcByte dstByte : Z) (src : list Z) : M (list Z) unit :=
  rows (fun y => columns (fun x =>
    let s := src_line y + (x + nXSrc c) * srcByte in
    let d := dst_line y + (x + nXDst c) * dstByte in
    v ← byte_at src (s + 0); store (d + 0) [v];;
    v ← byte_at src (s + 1); store (d + 1) [v];;
    v ← byte_at src (s + 2); store (d + 2) [v])).

Definition generic_image_copy_bgr24_bgrx32 (src : list Z) : M (list Z) unit := copy_three 3 4 src.

Definition generic_image_copy_bgrx32_bgrx32 (src : list Z) : M (list Z) unit := copy_three 4 4 src.

Definition generic_image_copy_no_overlap_convert (DstFormat : Z) (src : list Z) (SrcFormat : Z)
    (palette : option gdiPalette) : M (list Z) unit :=
  let srcByte := FreeRDPGetBytesPerPixel SrcFormat in
  let dstByte := FreeRDPGetBytesPerPixel DstFormat in
  rows (fun y => columns (fun x =>
    color ← read_pixel src (src_line y + (x + nXSrc c) * srcByte) SrcFormat;
    match FreeRDPConvertColor color SrcFormat DstFormat palette with
    | Some dstColor => write_pixel (dst_line y + (x + nXDst c) * dstByte) DstFormat dstColor
    | None => crash Undefined
    end)).

Definition generic_image_copy_no_overlap_memcpy (DstFormat : Z) (src : list Z) (SrcFormat : Z)
    : M (list Z) unit :=
  let dstByte := FreeRDPGetBytesPerPixel DstFormat in
  let srcByte := FreeRDPGetBytesPerPixel SrcFormat in
  let copyDstWidth := nWidth c * dstByte in
  let xSrcOffset := nXSrc c * srcByte in
  let xDstOffset := nXDst c * dstByte in
  rows (fun y =>
    n ← asserting_cast usize copyDstWidth;
    bs ← copy_from (src_line y + xSrcOffset) n src;
    store (dst_line y + xDstOffset) bs).

Definition generic_image_copy_no_overlap_dst_alpha (DstFormat : Z) (src : list Z) (SrcFormat : Z)
    (palette : option gdiPalette) : M (list Z) unit :=
  let is_bgr32 f := (f =? PIXEL_FORMAT_BGRX32) || (f =? PIXEL_FORMAT_BGRA32) in
  let is_rgb32 f := (f =? PIXEL_FORMAT_RGBX32) || (f =? PIXEL_FORMAT_RGBA32) in
  if (SrcFormat =? PIXEL_FORMAT_BGR24) && is_bgr32 DstFormat then
    generic_image_copy_bgr24_bgrx32 src
  else if is_bgr32 SrcFormat && is_bgr32 DstFormat then generic_image_copy_bgrx32_bgrx32 src
  else if is_rgb32 SrcFormat && is_rgb32 DstFormat then generic_image_copy_bgrx32_bgrx32 src
  else if is_rgb32 SrcFormat && (DstFormat =? PIXEL_FORMAT_RGB24) then
    generic_image_copy_bgr24_bgrx32 src
  else generic_image_copy_no_overlap_convert DstFormat src SrcFormat palette.

Definition generic_image_copy_no_overlap_no_alpha (DstFormat : Z) (src : list Z) (SrcFormat : Z)
    (palette : option gdiPalette) : M (list Z) unit :=
  if FreeRDPAreColorFormatsEqualNoAlpha SrcFormat DstFormat then
    generic_image_copy_no_overlap_memcpy DstFormat src SrcFormat
  else generic_image_copy_no_overlap_convert DstFormat src SrcFormat palette.
End Copy.

(** A null pointer is [None]; [Fail] is the status -1. *)
Definition generic_image_copy_no_overlap (DstFormat dstStep xDst yDst width height : Z)
    (pSrcData : option (list Z)) (SrcFormat srcStep xSrc ySrc : Z) (palette : option gdiPalette)
    (flags : Z) : M (list Z) unit :=
  if (width =? 0) || (height =? 0) then mret tt
  else if (INT32_MAX <? height) || (INT32_MAX <? width) then failure
  else
    match pSrcData with
    | None => failure
    | Some src =>
        let dstStep := if dstStep =? 0 then u32 (width * FreeRDPGetBytesPerPixel DstFormat) else dstStep in
        let srcStep := if srcStep =? 0 then u32 (width * FreeRDPGetBytesPerPixel SrcFormat) else srcStep in
        let vSrcVFlip := negb (Z.land flags FREERDP_FLIP_VERTICAL =? 0) in
        let c := mkArea dstStep xDst yDst width height srcStep xSrc ySrc
                   (if vSrcVFlip then -1 else 1) (if vSrcVFlip then (height - 1) * srcStep else 0) 1 0 in
        if negb (Z.land flags FREERDP_KEEP_DST_ALPHA =? 0) && FreeRDPColorHasAlpha DstFormat then
          generic_image_copy_no_overlap_dst_alpha c DstFormat src SrcFormat palette
        else generic_image_copy_no_overlap_no_alpha c DstFormat src SrcFormat palette
    end.

Definition freerdp_image_copy_no_overlap := generic_image_copy_no_overlap.

(** ** The conversion from YCoCg *)

Definition s8 (x : Z) : Z := if x mod 256 <? 128 then x mod 256 else x mod 256 - 256.
Definition s16 (x : Z) : Z := if x mod 65536 <? 32768 then x mod 65536 else x mod 65536 - 65536.

(** helper function to convert raw 8 bit values to signed 16bit values *)
Definition convert (raw shift : Z) : Z :=
  let cll := shift - 1 in s16 (s8 (Z.shiftl raw cll)).

Definition CLIP (x : Z) : Z := if 255 <? x then 255 else if x <? 0 then 0 else u8 x.

(** Where in the pixel the bytes are stored, and which; [old] is what is there. *)
Definition pixel_writer : Type := forall (old : list Z) (format : Z) (p : rgba), Z * list Z.

Definition writePixelBGRA : pixel_writer := fun _ _ p => (0, [c_b p; c_g p; c_r p; c_a p]).
Definition writePixelBGRX : pixel_writer := fun _ _ p => (0, [c_b p; c_g p; c_r p]).
Definition writePixelRGBA : pixel_writer := fun _ _ p => (0, [c_r p; c_g p; c_b p; c_a p]).
Definition writePixelRGBX : pixel_writer := fun _ _ p => (0, [c_r p; c_g p; c_b p]).
Definition writePixelABGR : pixel_writer := fun _ _ p => (0, [c_a p; c_b p; c_g p; c_r p]).
Definition writePixelXBGR : pixel_writer := fun _ _ p => (1, [c_b p; c_g p; c_r p]).
Definition writePixelARGB : pixel_writer := fun _ _ p => (0, [c_a p; c_r p; c_g p; c_b p]).
Definition writePixelXRGB : pixel_writer := fun _ _ p => (1, [c_r p; c_g p; c_b p]).
Definition writePixelGenericAlpha : pixel_writer := fun _ format p =>
  (0, default [] (FreeRDPWriteColor format (FreeRDPGetColor format p))).
Definition writePixelGeneric : pixel_writer := fun old format p =>
  (0, default [] (FreeRDPWriteColorIgnoreAlpha old format (FreeRDPGetColor format p))).

Definition getPixelWriteFunction (format : Z) (useAlpha : bool) : pixel_writer :=
  if (format =? PIXEL_FORMAT_ARGB32) || (format =? PIXEL_FORMAT_XRGB32) then
    if useAlpha then writePixelARGB else writePixelXRGB
  else if (format =? PIXEL_FORMAT_ABGR32) || (format =? PIXEL_FORMAT_XBGR32) then
    if useAlpha then writePixelABGR else writePixelXBGR
  else if (format =? PIXEL_FORMAT_RGBA32) || (format =? PIXEL_FORMAT_RGBX32) then
    if useAlpha then writePixelRGBA else writePixelRGBX
  else if (format =? PIXEL_FORMAT_BGRA32) || (format =? PIXEL_FORMAT_BGRX32) then
    if useAlpha then writePixelBGRA else writePixelBGRX
  else if useAlpha then writePixelGenericAlpha else writePixelGeneric.

(** The channels of one pixel from its four bytes. *)
Definition ycocg_pixel (shift : Z) (withAlpha : bool) (b0 b1 b2 b3 : Z) : rgba :=
  let Cg := convert b0 shift in
  let Co := convert b1 shift in
  let Y := b2 in
  let T := s16 (Y - Cg) in
  let B := s16 (T + Co) in
  let G := s16 (Y + Cg) in
  let R := s16 (T - Co) in
  mkRgba (CLIP R) (CLIP G) (CLIP B) (if negb withAlpha then 0xFF else b3).

(** [pDst] is [&dst[dst0]]. *)
Definition general_YCoCgToRGB_8u_AC4R (src : list Z) (srcStep dst0 DstFormat dstStep width height shift : Z)
    (withAlpha : bool) : M (list Z) unit :=
  let formatSize := FreeRDPGetBytesPerPixel DstFormat in
  let writePixel := getPixelWriteFunction DstFormat true in
  for_range (Z.to_nat height) 0 (fun y =>
    srcStep ← asserting_cast u32 srcStep;
    dstStep ← asserting_cast u32 dstStep;
    for_range (Z.to_nat width) 0 (fun x =>
      px ← copy_from (y * srcStep + 4 * x) 4 src;
      match px with
      | [b0; b1; b2; b3] =>
          d ← get;
          let at_ := dst0 + y * dstStep + x * formatSize in
          let '(o, bs) := writePixel (slice at_ formatSize d) DstFormat (ycocg_pixel shift withAlpha b0 b1 b2 b3) in
          store (at_ + o) bs
      | _ => crash Undefined
      end)).

(** ** What a copy leaves in the destination *)

(** The block with rows of bytes put into it, [step] bytes apart. *)
Fixpoint blit_rows (off step : Z) (rs : list (list Z)) (mem : list Z) : list Z :=
  match rs with
  | [] => mem
  | r :: rs' => blit_rows (off + step) step rs' (blit off r mem)
  end.

(** The pixel of [bpp] bytes in column [x] of the row that starts at [off]. *)
Definition pixel_at (bpp off x : Z) (mem : list Z) : list Z := slice (off + x * bpp) bpp mem.

(** The bytes of a pixel in another format. *)
Definition recoded (SrcFormat DstFormat : Z) (palette : option gdiPalette) (px : list Z) : list Z :=
  default [] (color ← FreeRDPReadColor px SrcFormat;
              color ← FreeRDPConvertColor color SrcFormat DstFormat palette;
              FreeRDPWriteColor DstFormat color).

(** Pixels that only differ in the use of the fourth channel are copied as they are. *)
Definition copied (SrcFormat DstFormat : Z) (palette : option gdiPalette) (px : list Z) : list Z :=
  if FreeRDPAreColorFormatsEqualNoAlpha SrcFormat DstFormat then px
  else recoded SrcFormat DstFormat palette px.

(** The [w] pixels that follow [x] in the row at [off], copied. *)
Definition copied_row (SrcFormat DstFormat : Z) (palette : option gdiPalette) (src : list Z)
    (x w off : Z) : list Z :=
  mjoin (map (fun i => copied SrcFormat DstFormat palette
                         (pixel_at (FreeRDPGetBytesPerPixel SrcFormat) off (x + i) src)) (seqZ 0 w)).

Lemma store_blit off bs mem : 0 <= off -> off + zlen bs <= zlen mem ->
  store off bs mem = Ret tt (blit off bs mem).
Proof.
  intros. unfold store. rewrite get_bind, (bind_ret_eq _ _ _ (blit off bs mem) mem); [done|].
  by apply copy_to_ok.
Qed.

Lemma byte_at_ok {S} mem i b (s : S) : 0 <= i -> mem !! Z.to_nat i = Some b -> byte_at mem i s = Ret b s.
Proof. intros Hi Hb. unfold byte_at. replace (0 <=? i) with true by lia. by rewrite Hb. Qed.

(** A loop with an invariant. *)
Lemma for_range_inv {S} (I : Z -> S -> Prop) n lo body s :
  (forall x s, lo <= x < lo + Z.of_nat n -> I x s -> exists s', body x s = Ret tt s' /\ I (x + 1) s') ->
  I lo s -> exists s', for_range n lo body s = Ret tt s' /\ I (lo + Z.of_nat n) s'.
Proof.
  revert lo s. induction n as [|n IH]; intros lo s Hb Hi.
  { exists s. by rewrite Z.add_0_r. }
  destruct (Hb lo s ltac:(lia) Hi) as (s1 & E1 & I1). cbn [for_range].
  destruct (IH (lo + 1) s1) as (s' & E & I'); [|done|].
  { intros x s2 Hx. apply Hb. lia. }
  exists s'. rewrite (bind_ret_eq _ _ _ _ _ E1). split; [done|].
  by replace (lo + Z.of_nat (Datatypes.S n)) with (lo + 1 + Z.of_nat n) by lia.
Qed.

(** A loop whose states are known. *)
Lemma for_range_states {S} n lo body (f : nat -> S) :
  (forall k, (k < n)%nat -> body (lo + Z.of_nat k) (f k) = Ret tt (f (Datatypes.S k))) ->
  for_range n lo body (f O) = Ret tt (f n).
Proof.
  revert lo f. induction n as [|n IH]; intros lo f Hf; [done|]. simpl.
  rewrite (bind_ret_eq _ _ _ tt (f 1%nat)).
  - rewrite (IH (lo + 1) (fun k => f (Datatypes.S k))); [done|].
    intros k Hk. rewrite <- Hf by lia. f_equal. lia.
  - rewrite <- Hf by lia. f_equal. lia.
Qed.

(** ** Formats that are copied *)

Definition supported : list Z := true_colour ++ high_colour.

Lemma supported_bits f : f ∈ supported ->
  (FreeRDPGetBitsPerPixel f = 32 \/ FreeRDPGetBitsPerPixel f = 24
   \/ FreeRDPGetBitsPerPixel f = 16 \/ FreeRDPGetBitsPerPixel f = 15)
  /\ f <> PIXEL_FORMAT_RGB8.
Proof.
  intros Hf.
  assert (forallb (fun f => existsb (Z.eqb (FreeRDPGetBitsPerPixel f)) [32; 24; 16; 15]
                            && negb (f =? PIXEL_FORMAT_RGB8)) supported = true) as Hc by by vm_compute.
  pose proof (proj1 (forallb_forall _ _) Hc f ltac:(by apply list_elem_of_In)) as Hcf.
  apply andb_true_iff in Hcf as [Hb Hn]. apply existsb_exists in Hb as (b & Hin & Hb).
  apply Z.eqb_eq in Hb. split; [|intros ->; done].
  destruct Hin as [<-|[<-|[<-|[<-|[]]]]]; auto.
Qed.

Lemma supported_bytes f : f ∈ supported -> 2 <= FreeRDPGetBytesPerPixel f <= 4.
Proof.
  intros Hf. unfold FreeRDPGetBytesPerPixel.
  destruct (supported_bits f Hf) as [[->|[->|[->| ->]]] _]; by vm_compute.
Qed.

(** A pixel is read from its own bytes. *)
Lemma supported_read f px rest : f ∈ supported -> zlen px = FreeRDPGetBytesPerPixel f ->
  exists v, FreeRDPReadColor px f = Some v /\ FreeRDPReadColor (px ++ rest) f = Some v.
Proof.
  intros Hf. unfold FreeRDPReadColor, FreeRDPGetBytesPerPixel.
  destruct (supported_bits f Hf) as [[->|[->|[->| ->]]] _]; simpl; intros Hl;
    do 5 (try (destruct px as [|? px]; [by vm_compute in Hl|]));
    repeat (rewrite zlen_cons in Hl); try (pose proof (zlen_nonneg px); lia); simpl; eauto.
Qed.

Lemma supported_write f color : f ∈ supported ->
  exists px, FreeRDPWriteColor f color = Some px /\ zlen px = FreeRDPGetBytesPerPixel f.
Proof.
  intros Hf. unfold FreeRDPWriteColor, FreeRDPGetBytesPerPixel.
  destruct (supported_bits f Hf) as [[->|[->|[->| ->]]] _]; eauto.
Qed.

Lemma supported_convert f g color palette : f ∈ supported ->
  exists v, FreeRDPConvertColor color f g palette = Some v.
Proof.
  intros Hf. unfold FreeRDPConvertColor, FreeRDPSplitColor.
  destruct (supported_bits f Hf) as [_ Hn]. rewrite (proj2 (Z.eqb_neq _ _) Hn). simpl. eauto.
Qed.

Lemma recoded_len f g palette px : f ∈ supported -> g ∈ supported ->
  zlen px = FreeRDPGetBytesPerPixel f -> zlen (recoded f g palette px) = FreeRDPGetBytesPerPixel g.
Proof.
  intros Hf Hg Hl. unfold recoded.
  destruct (supported_read f px [] Hf Hl) as (v & -> & _). cbn [mbind option_bind].
  destruct (supported_convert f g v palette Hf) as (v' & ->). cbn [mbind option_bind].
  destruct (supported_write g v' Hg) as (px' & -> & Hpx). done.
Qed.

Lemma slice_first i n (l : list Z) : 0 <= i -> 0 <= n -> i + n <= zlen l ->
  zdrop i l = slice i n l ++ zdrop (i + n) l.
Proof.
  intros. unfold slice. rewrite <- (zdrop_zdrop n i) by lia. by rewrite ztake_zdrop.
Qed.

Lemma zlen_blit_rows off step rs mem n :
  0 <= off -> n <= step -> Forall (fun r => zlen r = n) rs ->
  off + (zlen rs - 1) * step + n <= zlen mem -> zlen (blit_rows off step rs mem) = zlen mem.
Proof.
  revert off mem. induction rs as [|r rs IH]; intros off mem Ho Hn Hr Hm; [done|].
  apply Forall_cons_1 in Hr as [Hr Hrs]. rewrite zlen_cons in Hm.
  pose proof (zlen_nonneg r). pose proof (zlen_nonneg rs). simpl.
  assert (zlen (blit off r mem) = zlen mem) as E by (apply zlen_blit; nia).
  rewrite <- E. apply IH; [lia|lia|done|]. rewrite E. nia.
Qed.

Lemma blit_rows_snoc off step rs r mem :
  blit_rows off step (rs ++ [r]) mem = blit (off + zlen rs * step) r (blit_rows off step rs mem).
Proof.
  revert off mem. induction rs as [|r' rs IH]; intros off mem; simpl.
  - f_equal. change (zlen (@nil (list Z))) with 0. lia.
  - rewrite IH, zlen_cons. f_equal. lia.
Qed.

Lemma seqZ_take_S {A} (f : Z -> A) m n : (m < n)%nat ->
  map f (seqZ 0 (Z.of_nat (S m))) = map f (seqZ 0 (Z.of_nat m)) ++ [f (Z.of_nat m)].
Proof.
  intros. replace (Z.of_nat (S m)) with (Z.of_nat m + 1) by lia.
  rewrite seqZ_app by lia. by rewrite map_app.
Qed.

Lemma mjoin_seqZ_S (f : Z -> list Z) m :
  mjoin (map f (seqZ 0 (Z.of_nat (S m)))) = mjoin (map f (seqZ 0 (Z.of_nat m))) ++ f (Z.of_nat m).
Proof.
  rewrite (seqZ_take_S f m (S m)), join_app by lia. simpl. by rewrite app_nil_r.
Qed.

Lemma mjoin_len (f : Z -> list Z) m n b :
  (forall i, 0 <= i < n -> zlen (f i) = b) -> Z.of_nat m <= n ->
  zlen (mjoin (map f (seqZ 0 (Z.of_nat m)))) = Z.of_nat m * b.
Proof.
  intros Hf Hm. induction m as [|m IH]; [done|].
  rewrite mjoin_seqZ_S, zlen_app, IH, Hf; lia.
Qed.

Section CopyRows.
Variables (c : copy_area) (src : list Z) (SrcFormat DstFormat : Z) (palette : option gdiPalette).
Hypothesis (src_supported : SrcFormat ∈ supported) (dst_supported : DstFormat ∈ supported).
#[local] Abbreviation sb := (FreeRDPGetBytesPerPixel SrcFormat).
#[local] Abbreviation db := (FreeRDPGetBytesPerPixel DstFormat).

Lemma read_pixel_ok {S} off (s : S) : 0 <= off -> off + sb <= zlen src ->
  exists v, FreeRDPReadColor (slice off sb src) SrcFormat = Some v
    /\ read_pixel src off SrcFormat s = Ret v s.
Proof.
  intros. pose proof (supported_bytes SrcFormat src_supported).
  destruct (supported_read SrcFormat (slice off sb src) (zdrop (off + sb) src) src_supported)
    as (v & Hv & Hr); [by apply zlen_slice; lia|].
  exists v. split; [done|]. unfold read_pixel.
  replace ((0 <=? off) && (off <=? zlen src)) with true by lia.
  by rewrite (slice_first off sb), Hr by lia.
Qed.

Lemma convert_columns s0 d0 mem :
  0 <= s0 + nXSrc c * sb -> s0 + (nXSrc c + nWidth c) * sb <= zlen src ->
  0 <= d0 + nXDst c * db -> d0 + (nXDst c + nWidth c) * db <= zlen mem -> 0 <= nWidth c ->
  columns c (fun x =>
    color ← read_pixel src (s0 + (x + nXSrc c) * sb) SrcFormat;
    match FreeRDPConvertColor color SrcFormat DstFormat palette with
    | Some dstColor => write_pixel (d0 + (x + nXDst c) * db) DstFormat dstColor
    | None => crash Undefined
    end) mem
  = Ret tt (blit (d0 + nXDst c * db)
              (mjoin (map (fun i => recoded SrcFormat DstFormat palette (pixel_at sb s0 (nXSrc c + i) src))
                        (seqZ 0 (nWidth c)))) mem).
Proof.
  intros Hs Hse Hd Hde Hw. set (g i := recoded _ _ _ _).
  pose proof (supported_bytes _ src_supported). pose proof (supported_bytes _ dst_supported).
  assert (forall i, 0 <= i < nWidth c -> zlen (g i) = db) as Hg.
  { intros i Hi. apply recoded_len; [done..|].
    assert (0 <= i * sb) by nia. assert (i * sb + sb <= nWidth c * sb) by nia.
    apply zlen_slice; lia. }
  set (f k := blit (d0 + nXDst c * db) (mjoin (map g (seqZ 0 (Z.of_nat k)))) mem).
  unfold columns.
  assert (mem = f O) as E0 by (unfold f; simpl; rewrite blit_nil; [done|];
    assert (0 <= nWidth c * db) by nia; lia).
  rewrite E0 at 1. rewrite (for_range_states _ _ _ f).
  { unfold f. by rewrite Z2Nat.id. }
  intros k Hk. unfold f at 2.
  assert (0 <= Z.of_nat k * sb) by nia. assert (Z.of_nat k * sb + sb <= nWidth c * sb) by nia.
  assert (0 <= Z.of_nat k * db) by nia. assert (Z.of_nat k * db + db <= nWidth c * db) by nia.
  rewrite mjoin_seqZ_S, Z.add_0_l.
  pose proof (mjoin_len g k (nWidth c) db Hg ltac:(lia)) as Hl.
  destruct (read_pixel_ok (s0 + (Z.of_nat k + nXSrc c) * sb) (f k)) as (v & Hv & Hr); [lia..|].
  rewrite (bind_ret_eq _ _ _ _ _ Hr).
  destruct (supported_convert SrcFormat DstFormat v palette src_supported) as (v' & Hv').
  destruct (supported_write DstFormat v' dst_supported) as (px & Hpx & Hlpx).
  assert (g (Z.of_nat k) = px) as Eg.
  { unfold g, recoded, pixel_at. rewrite (Z.add_comm (nXSrc c)), Hv. cbn [mbind option_bind].
    rewrite Hv'. cbn [mbind option_bind]. by rewrite Hpx. }
  rewrite Hv'. unfold write_pixel. rewrite Hpx, Eg, <- blit_blit by (rewrite ?Hl; lia).
  rewrite store_blit.
  - unfold f. f_equal. f_equal. rewrite Hl. lia.
  - lia.
  - unfold f. rewrite zlen_blit; rewrite ?Hl; lia.
Qed.
End CopyRows.

Lemma slice_pixels off b n (l : list Z) : 0 <= off -> 0 <= b -> off + Z.of_nat n * b <= zlen l ->
  mjoin (map (fun i => slice (off + i * b) b l) (seqZ 0 (Z.of_nat n))) = slice off (Z.of_nat n * b) l.
Proof.
  intros Ho Hb Hl. induction n as [|n IH]; [by rewrite slice_zero|].
  rewrite mjoin_seqZ_S, IH by lia.
  replace (Z.of_nat (S n) * b) with (Z.of_nat n * b + b) by lia.
  symmetry. apply slice_split; lia.
Qed.

Lemma equal_formats_bytes f g : f ∈ supported -> g ∈ supported ->
  FreeRDPAreColorFormatsEqualNoAlpha f g = true -> FreeRDPGetBytesPerPixel f = FreeRDPGetBytesPerPixel g.
Proof.
  intros Hf Hg He.
  assert (forallb (fun f => forallb (fun g => implb (FreeRDPAreColorFormatsEqualNoAlpha f g)
    (FreeRDPGetBytesPerPixel f =? FreeRDPGetBytesPerPixel g)) supported) supported = true) as Hc
    by by vm_compute.
  pose proof (proj1 (forallb_forall _ _) Hc f ltac:(by apply list_elem_of_In)) as Hcf.
  pose proof (proj1 (forallb_forall _ _) Hcf g ltac:(by apply list_elem_of_In)) as Hcg.
  cbv beta in Hcg. rewrite He in Hcg. by apply Z.eqb_eq.
Qed.

(** Rows that are written one after the other. *)
Lemma rows_blit c off step n (g : Z -> list Z) body mem :
  0 <= nHeight c -> 0 <= off -> 0 <= n <= step -> off + (nHeight c - 1) * step + n <= zlen mem ->
  (forall y, 0 <= y < nHeight c -> zlen (g y) = n) ->
  (forall y m, 0 <= y < nHeight c -> zlen m = zlen mem -> body y m = Ret tt (blit (off + y * step) (g y) m)) ->
  rows c body mem = Ret tt (blit_rows off step (map g (seqZ 0 (nHeight c))) mem).
Proof.
  intros Hh Ho Hn Hm Hg Hb.
  set (f k := blit_rows off step (map g (seqZ 0 (Z.of_nat k))) mem).
  unfold rows. change mem with (f O) at 1. rewrite (for_range_states _ _ _ f).
  { unfold f. by rewrite Z2Nat.id. }
  intros k Hk. unfold f at 2. rewrite (seqZ_take_S g k (S k)), blit_rows_snoc by lia.
  assert (zlen (map g (seqZ 0 (Z.of_nat k))) = Z.of_nat k) as El.
  { unfold zlen. rewrite length_map, length_seqZ. lia. }
  rewrite El, Z.add_0_l. apply Hb; [lia|].
  unfold f. apply (zlen_blit_rows _ _ _ _ n); [lia|lia| |].
  - apply Forall_forall. intros r Hr. apply in_map_iff in Hr as (y & <- & Hy).
    apply list_elem_of_In, elem_of_seqZ in Hy. apply Hg. lia.
  - rewrite El. assert ((Z.of_nat k - 1) * step <= (nHeight c - 1) * step) by nia. lia.
Qed.

(** A rectangle of [w] by [h] pixels at (x, y) lies in an image. *)
Definition fits (format step x y w h : Z) (mem : list Z) : Prop :=
  0 <= x /\ 0 <= y /\ (x + w) * FreeRDPGetBytesPerPixel format <= step /\ (y + h) * step <= zlen mem.

Lemma copied_row_len f g palette src x w off : f ∈ supported -> g ∈ supported -> 0 <= w -> 0 <= x -> 0 <= off ->
  off + (x + w) * FreeRDPGetBytesPerPixel f <= zlen src ->
  zlen (copied_row f g palette src x w off) = w * FreeRDPGetBytesPerPixel g.
Proof.
  intros Hf Hg Hw Hx Ho Hl. unfold copied_row. rewrite <- (Z2Nat.id w) by lia.
  apply (mjoin_len _ _ w); [|lia]. intros i Hi. pose proof (supported_bytes f Hf).
  set (b := FreeRDPGetBytesPerPixel f) in *.
  assert (0 <= (x + i) * b) by nia. assert ((x + i) * b + b <= (x + w) * b) by nia.
  assert (zlen (pixel_at b off (x + i) src) = b) as E by (apply zlen_slice; lia).
  unfold copied. destruct (FreeRDPAreColorFormatsEqualNoAlpha f g) eqn:Eq.
  - rewrite E. by apply equal_formats_bytes.
  - by apply recoded_len.
Qed.

(** The copy of one row, by bytes or by pixels. *)
Lemma no_alpha_rows c f g palette src mem :
  f ∈ supported -> g ∈ supported ->
  0 <= nWidth c <= INT32_MAX -> 0 <= nHeight c -> dstVMultiplier c = 1 -> dstVOffset c = 0 ->
  fits g (nDstStep c) (nXDst c) (nYDst c) (nWidth c) (nHeight c) mem ->
  0 <= nXSrc c ->
  (forall y, 0 <= y < nHeight c ->
     0 <= src_line c y
     /\ src_line c y + (nXSrc c + nWidth c) * FreeRDPGetBytesPerPixel f <= zlen src) ->
  generic_image_copy_no_overlap_no_alpha c g src f palette mem
  = Ret tt (blit_rows (nYDst c * nDstStep c + nXDst c * FreeRDPGetBytesPerPixel g) (nDstStep c)
              (map (fun y => copied_row f g palette src (nXSrc c) (nWidth c) (src_line c y))
                 (seqZ 0 (nHeight c))) mem).
Proof.
  intros Hf Hg [Hw Hw'] Hh Hm1 Hm2 (Hdx & Hdy & Hdw & Hdh) Hsx Hs.
  pose proof (supported_bytes f Hf). pose proof (supported_bytes g Hg).
  assert (forall y, 0 <= y < nHeight c -> dst_line c y = nYDst c * nDstStep c + y * nDstStep c) as Ed.
  { intros. unfold dst_line. rewrite Hm1, Hm2. lia. }
  set (b := FreeRDPGetBytesPerPixel g) in *. set (a := FreeRDPGetBytesPerPixel f) in *.
  assert (0 <= nWidth c * b) by nia. assert (0 <= nXDst c * b) by nia.
  assert (0 <= nYDst c * nDstStep c) by nia. assert (0 <= nXSrc c * a) by nia.
  assert (0 <= nWidth c * a) by nia.
  assert (forall y, 0 <= y < nHeight c ->
    0 <= y * nDstStep c /\ y * nDstStep c + nDstStep c <= nHeight c * nDstStep c) as Hy.
  { intros. nia. }
  unfold generic_image_copy_no_overlap_no_alpha.
  assert (forall body, (forall y m, 0 <= y < nHeight c -> zlen m = zlen mem ->
    body y m = Ret tt (blit (dst_line c y + nXDst c * b)
                         (copied_row f g palette src (nXSrc c) (nWidth c) (src_line c y)) m)) ->
    rows c body mem = Ret tt (blit_rows (nYDst c * nDstStep c + nXDst c * b) (nDstStep c)
      (map (fun y => copied_row f g palette src (nXSrc c) (nWidth c) (src_line c y))
         (seqZ 0 (nHeight c))) mem)) as Hrows.
  { intros body Hb. apply (rows_blit _ _ _ (nWidth c * b)); [lia|lia|lia| | |].
    - nia.
    - intros y Hy'. destruct (Hs y Hy'). apply copied_row_len; (done || lia).
    - intros y m Hy' Hm. rewrite Hb, Ed by done. do 2 f_equal. lia. }
  destruct (FreeRDPAreColorFormatsEqualNoAlpha f g) eqn:Eq; apply Hrows; intros y m Hyr Hm;
    destruct (Hs y Hyr) as [Hs0 Hs1]; destruct (Hy y Hyr); rewrite Ed by done.
  - assert (a = b) as Eb by by apply equal_formats_bytes.
    assert (nWidth c * b <= 2 ^ 40) by (unfold INT32_MAX in *; nia).
    rewrite (bind_ret_eq _ _ _ (nWidth c * b) m) by (apply asserting_cast_eq; word_lia).
    rewrite (bind_ret_eq _ _ _ (slice (src_line c y + nXSrc c * a) (nWidth c * b) src) m)
      by (apply copy_from_ok; lia).
    assert (copied_row f g palette src (nXSrc c) (nWidth c) (src_line c y)
            = slice (src_line c y + nXSrc c * a) (nWidth c * b) src) as ->.
    { unfold copied_row, copied. rewrite Eq. rewrite <- Eb, <- (Z2Nat.id (nWidth c)) by lia.
      rewrite <- slice_pixels; [|lia|lia|rewrite Z2Nat.id; lia].
      f_equal. apply map_ext. intros i. unfold pixel_at. fold a. f_equal. lia. }
    apply store_blit; [lia|]. rewrite zlen_slice by lia. lia.
  - unfold copied_row, copied. rewrite Eq.
    rewrite (convert_columns c src f g palette Hf Hg); fold a b; [done|lia..].
Qed.

(** A copy, upside down or not, to a format without alpha or without regard to it. *)
Lemma image_copy_rows f g dStep dS xDst yDst w h src sStep xSrc ySrc palette flags flip dst :
  f ∈ supported -> g ∈ supported -> 0 < w <= INT32_MAX -> 0 < h <= INT32_MAX ->
  (if dStep =? 0 then u32 (w * FreeRDPGetBytesPerPixel g) else dStep) = dS ->
  fits g dS xDst yDst w h dst -> fits f sStep xSrc ySrc w h src ->
  negb (Z.land flags FREERDP_KEEP_DST_ALPHA =? 0) && FreeRDPColorHasAlpha g = false ->
  negb (Z.land flags FREERDP_FLIP_VERTICAL =? 0) = flip -> (flip = true -> ySrc = 0) ->
  freerdp_image_copy_no_overlap g dStep xDst yDst w h (Some src) f sStep xSrc ySrc palette flags dst
  = Ret tt (blit_rows (yDst * dS + xDst * FreeRDPGetBytesPerPixel g) dS
              (map (fun y => copied_row f g palette src xSrc w ((if negb flip then ySrc + y else h - 1 - y) * sStep))
                 (seqZ 0 h)) dst).
Proof.
  intros Hf Hg Hw Hh HdS Hd Hs Ha Hfl Hy0.
  pose proof (supported_bytes f Hf). pose proof (supported_bytes g Hg).
  pose proof Hd as (? & ? & ? & ?). destruct Hs as (? & ? & ? & ?).
  assert (0 < dS) by nia. assert (0 < sStep) by nia.
  unfold freerdp_image_copy_no_overlap, generic_image_copy_no_overlap.
  replace ((w =? 0) || (h =? 0)) with false by lia.
  replace ((INT32_MAX <? h) || (INT32_MAX <? w)) with false by lia.
  replace (sStep =? 0) with false by lia. rewrite Ha, Hfl, HdS. set (c := mkArea _ _ _ _ _ _ _ _ _ _ _ _).
  assert (forall y, 0 <= y < h ->
    src_line c y = (if negb flip then ySrc + y else h - 1 - y) * sStep) as El.
  { intros y Hy. unfold src_line, c; cbn [srcVMultiplier nYSrc nSrcStep srcVOffset].
    destruct flip; cbn [negb]; [rewrite Hy0 by done|]; lia. }
  etransitivity; [apply (no_alpha_rows c f g palette src dst); try done|].
  - cbn; lia.
  - cbn; lia.
  - intros y Hy. change (0 <= y < h) in Hy. rewrite El by done.
    change (nXSrc c) with xSrc. change (nWidth c) with w.
    set (r := if negb flip then _ else _).
    assert (0 <= r <= ySrc + h - 1) by (unfold r; destruct flip; cbn [negb]; lia).
    assert (0 <= r * sStep) by nia. assert (r * sStep + sStep <= (ySrc + h) * sStep) by nia. lia.
  - do 2 f_equal. apply map_ext_in. intros y Hy. apply list_elem_of_In, elem_of_seqZ in Hy.
    change (nHeight c) with h in Hy. by rewrite El by lia.
Qed.

(** C30: copying a rectangle between two images that do not overlap, both of formats with 15, 16, 24
    or 32 bits per pixel except the 30 bit ones, without keeping the destination's alpha, leaves in
    row [y] of the destination's rectangle the pixels of row [y] of the source's, each as it is when
    the formats differ in the use of the fourth channel only and otherwise put into the other
    format. With FREERDP_FLIP_VERTICAL, for a source rectangle that starts in row 0, the rows are in
    the opposite order (with another first row the code reads in front of the source,
    image_copy_flip_faults). No byte beside the rectangle changes, and nothing outside the two
    images is read or written. *)
Theorem image_copy_exact f g dStep xDst yDst w h src sStep xSrc ySrc palette flags dst :
  f ∈ supported -> g ∈ supported -> 0 < w <= INT32_MAX -> 0 < h <= INT32_MAX ->
  fits g dStep xDst yDst w h dst -> fits f sStep xSrc ySrc w h src ->
  flags = FREERDP_FLIP_NONE \/ flags = FREERDP_FLIP_VERTICAL /\ ySrc = 0 ->
  freerdp_image_copy_no_overlap g dStep xDst yDst w h (Some src) f sStep xSrc ySrc palette flags dst
  = Ret tt (blit_rows (yDst * dStep + xDst * FreeRDPGetBytesPerPixel g) dStep
              (map (fun y => copied_row f g palette src xSrc w
                      ((if flags =? FREERDP_FLIP_NONE then ySrc + y else h - 1 - y) * sStep))
                 (seqZ 0 h)) dst).
Proof.
  intros Hf Hg Hw Hh Hd Hs Hfl. pose proof (supported_bytes g Hg).
  assert (dStep <> 0) by (destruct Hd as (? & ? & ? & ?); nia).
  rewrite (image_copy_rows f g dStep dStep xDst yDst w h src sStep xSrc ySrc palette flags
    (negb (flags =? FREERDP_FLIP_NONE)) dst); try done.
  - by rewrite Bool.negb_involutive.
  - by rewrite (proj2 (Z.eqb_neq _ _)) by done.
  - by destruct Hfl as [->|[-> _]].
  - by destruct Hfl as [->|[-> _]].
  - by destruct Hfl as [->|[-> ->]].
Qed.

Lemma image_copy_exact_witness :
  freerdp_image_copy_no_overlap PIXEL_FORMAT_RGB24 6 0 0 2 2 (Some [1; 2; 3; 4; 5; 6; 7; 8; 9; 10; 11; 12; 13; 14; 15; 16])
    PIXEL_FORMAT_BGRX32 8 0 0 None FREERDP_FLIP_VERTICAL (zrepeat 12 0)
  = Ret tt [11; 10; 9; 15; 14; 13; 3; 2; 1; 7; 6; 5].
Proof.
  etransitivity; [apply (image_copy_exact PIXEL_FORMAT_BGRX32 PIXEL_FORMAT_RGB24)|by vm_compute].
  - by apply (bool_decide_unpack _).
  - by apply (bool_decide_unpack _).
  - done.
  - done.
  - by repeat split.
  - by repeat split.
  - right. done.
Defined.

(** A loop that goes wrong in one of its turns goes wrong. *)
Lemma for_range_fault {S} (P : S -> Prop) n lo body :
  (forall k s, (k < n)%nat -> P s ->
     body (lo + Z.of_nat k) s = Crash Undefined \/ exists s', body (lo + Z.of_nat k) s = Ret tt s' /\ P s') ->
  (exists k, (k < n)%nat /\ forall s, P s -> body (lo + Z.of_nat k) s = Crash Undefined) ->
  forall s, P s -> for_range n lo body s = Crash Undefined.
Proof.
  revert lo. induction n as [|n IH]; intros lo Hb (k & Hk & Hf) s Hs; [lia|]. simpl.
  destruct (Hb O s ltac:(lia) Hs) as [E|(s' & E & Hs')]; rewrite Z.add_0_r in E.
  { by rewrite (bind_crash_eq _ _ _ _ E). }
  destruct k as [|k].
  { rewrite Z.add_0_r in Hf. rewrite Hf in E by done. done. }
  rewrite (bind_ret_eq _ _ _ _ _ E). apply IH; [|exists k; split; [lia|]|done].
  - intros k' s1 Hk' Hs1. destruct (Hb (Datatypes.S k') s1 ltac:(lia) Hs1) as [E1|E1];
      replace (lo + Z.of_nat (Datatypes.S k')) with (lo + 1 + Z.of_nat k') in E1 by lia; auto.
  - intros s1 Hs1. rewrite <- (Hf s1 Hs1). f_equal. lia.
Qed.

(** a copy upside down from a rectangle that does not start in the first row of the source
    reads in front of the source: the rows are counted from the end of a rectangle at the top. *)
Theorem image_copy_flip_faults g dStep xDst yDst w h src sStep xSrc ySrc palette dst :
  g ∈ supported -> 0 < w <= INT32_MAX -> 0 < h <= INT32_MAX ->
  fits g dStep xDst yDst w h dst -> fits g sStep xSrc ySrc w h src -> 0 < ySrc ->
  freerdp_image_copy_no_overlap g dStep xDst yDst w h (Some src) g sStep xSrc ySrc palette
    FREERDP_FLIP_VERTICAL dst
  = Crash Undefined.
Proof.
  intros Hg Hw Hh (Hdx & Hdy & Hdw & Hdh) (Hsx & Hsy & Hsw & Hsh) Hy0.
  pose proof (supported_bytes g Hg). set (b := FreeRDPGetBytesPerPixel g) in *.
  assert (0 <= w * b) by nia. assert (0 <= xDst * b) by nia. assert (0 <= xSrc * b) by nia.
  assert (0 < w * b) by nia. assert (0 <= yDst * dStep) by nia.
  assert (w * b <= 2 ^ 40) by (unfold INT32_MAX in *; nia).
  unfold freerdp_image_copy_no_overlap, generic_image_copy_no_overlap. fold b.
  replace ((w =? 0) || (h =? 0)) with false by lia.
  replace ((INT32_MAX <? h) || (INT32_MAX <? w)) with false by lia.
  replace (dStep =? 0) with false by lia. replace (sStep =? 0) with false by lia.
  change (negb (Z.land FREERDP_FLIP_VERTICAL FREERDP_KEEP_DST_ALPHA =? 0)) with false.
  change (negb (Z.land FREERDP_FLIP_VERTICAL FREERDP_FLIP_VERTICAL =? 0)) with true.
  cbn [andb]. unfold generic_image_copy_no_overlap_no_alpha.
  replace (FreeRDPAreColorFormatsEqualNoAlpha g g) with true
    by (symmetry; apply Z.eqb_refl).
  unfold generic_image_copy_no_overlap_memcpy, rows. fold b. cbn [nHeight nWidth nXSrc nXDst].
  apply (for_range_fault (fun m => zlen m = zlen dst)); [| |done].
  - intros k m Hk Hm. rewrite Z.add_0_l.
    rewrite (bind_ret_eq _ _ _ (w * b) m) by (apply asserting_cast_eq; word_lia).
    set (off := src_line _ _ + _). set (d := dst_line _ _ + _).
    assert (0 <= d /\ d + w * b <= zlen dst) as [Hd1 Hd2].
    { unfold d, dst_line; cbn [dstVMultiplier nYDst nDstStep dstVOffset].
      assert (0 <= Z.of_nat k * dStep) by nia.
      assert (Z.of_nat k * dStep + dStep <= h * dStep) by nia. lia. }
    destruct ((0 <=? off) && (0 <=? w * b) && (off + w * b <=? zlen src)) eqn:E.
    + right. exists (blit d (slice off (w * b) src) m). split.
      * rewrite (bind_ret_eq _ _ _ (slice off (w * b) src) m) by (apply copy_from_ok; lia).
        apply store_blit; [lia|]. rewrite zlen_slice; lia.
      * rewrite zlen_blit; [done|lia|rewrite zlen_slice; lia].
    + left. apply bind_crash_eq. unfold copy_from. by rewrite E.
  - exists (Z.to_nat (h - 1)). split; [lia|]. intros m Hm.
    rewrite (bind_ret_eq _ _ _ (w * b) m) by (apply asserting_cast_eq; word_lia).
    apply bind_crash_eq. unfold copy_from, src_line; cbn [srcVMultiplier nYSrc nSrcStep srcVOffset].
    rewrite Z.add_0_l, Z2Nat.id by lia. assert (sStep <= ySrc * sStep) by nia.
    match goal with |- context [if ?t then _ else _] => replace t with false by lia end. done.
Qed.

Lemma image_copy_flip_faults_witness :
  freerdp_image_copy_no_overlap PIXEL_FORMAT_BGRX32 4 0 0 1 1 (Some (zrepeat 8 0)) PIXEL_FORMAT_BGRX32 4
    0 1 None FREERDP_FLIP_VERTICAL (zrepeat 4 0) = Crash Undefined.
Proof.
  apply image_copy_flip_faults; try done; try (by repeat split).
  by apply (bool_decide_unpack _).
Defined.
