(* ===== verification/Aligned.v ===== *)
(** * Blocks of the aligned allocator

    Model of the reallocation of [winpr/libwinpr/crt/alignment.c], which the bitmap codecs use for
    the blocks of their contexts. *)

From S2P Require Import Prelude.

(** A pointer to a block: null, to a live block with its contents, or to one that was freed. *)
Inductive block := Null | Live (b : list Z) | Freed.

(** What a pointer to the block gives access to. *)
Definition contents {S} (b : block) : M S (list Z) :=
  match b with
  | Null => mret []
  | Live l => mret l
  | Freed => crash Undefined
  end.

Definition put_back (b : block) (l : list Z) : block :=
  match b with Live _ => Live l | _ => b end.

(** [winpr_aligned_recalloc (memblock, num, size, alignment)] with [n = num * size]: a block that is
    not returned is freed. *)
Definition winpr_aligned_recalloc `{Alloc} (b : block) (n alignment : Z) : block :=
  match b with
  | Null => if (0 <? n) && malloc_ok n then Live (zrepeat n 0) else Null
  | Live old =>
      if n =? 0 then Null
      else if n + alignment <? zlen old then Live old
      else if malloc_ok n then Live (ztake n old ++ zrepeat (n - zlen old) 0)
      else Null
  | Freed => Freed
  end.
