(* ===== verification/Planar.v ===== *)
(** * The planar codec

    Model of [libfreerdp/codec/planar.c]: an image is split into planes of one channel each, rows
    are replaced by their differences to the row above, and runs of equal bytes are coded by
    their lengths.  Planes can also be sent as they are, and in the colour space YCoCg with the
    chroma planes at half resolution.

    Pointers are a block with an index; the blocks of the context are those of [Aligned].  A
    computation that works on one block has the block as its state. *)

From S2P Require Import Prelude Aligned Color Image.

(** ** Data *)

Definition PLANAR_FORMAT_HEADER_CS : Z := 8.
Definition PLANAR_FORMAT_HEADER_RLE : Z := 16.
Definition PLANAR_FORMAT_HEADER_NA : Z := 32.
Definition PLANAR_FORMAT_HEADER_CLL_MASK : Z := 0x07.

Record BITMAP_PLANAR_CONTEXT := mkPlanar {
  maxWidth : Z;
  maxHeight : Z;
  maxPlaneSize : Z;
  AllowSkipAlpha : bool;
  AllowRunLengthEncoding : bool;
  AllowColorSubsampling : bool;
  AllowDynamicColorFidelity : bool;
  ColorLossLevel : Z;
  (** whether [planes] and [deltaPlanes] point into their buffers, [maxPlaneSize] bytes apart *)
  planes_set : bool;
  planesBuffer : block;
  deltaPlanesBuffer : block;
  rlePlanesBuffer : block;
  pTempData : block;
  nTempStep : Z;
  bgr : bool;
  topdown : bool
}.

Implicit Types ctx : BITMAP_PLANAR_CONTEXT.

Definition set_planesBuffer (b : block) ctx : BITMAP_PLANAR_CONTEXT :=
  mkPlanar (maxWidth ctx) (maxHeight ctx) (maxPlaneSize ctx) (AllowSkipAlpha ctx)
    (AllowRunLengthEncoding ctx) (AllowColorSubsampling ctx) (AllowDynamicColorFidelity ctx)
    (ColorLossLevel ctx) (planes_set ctx) b (deltaPlanesBuffer ctx) (rlePlanesBuffer ctx)
    (pTempData ctx) (nTempStep ctx) (bgr ctx) (topdown ctx).

Definition set_deltaPlanesBuffer (b : block) ctx : BITMAP_PLANAR_CONTEXT :=
  mkPlanar (maxWidth ctx) (maxHeight ctx) (maxPlaneSize ctx) (AllowSkipAlpha ctx)
    (AllowRunLengthEncoding ctx) (AllowColorSubsampling ctx) (AllowDynamicColorFidelity ctx)
    (ColorLossLevel ctx) (planes_set ctx) (planesBuffer ctx) b (rlePlanesBuffer ctx)
    (pTempData ctx) (nTempStep ctx) (bgr ctx) (topdown ctx).

Definition set_rlePlanesBuffer (b : block) ctx : BITMAP_PLANAR_CONTEXT :=
  mkPlanar (maxWidth ctx) (maxHeight ctx) (maxPlaneSize ctx) (AllowSkipAlpha ctx)
    (AllowRunLengthEncoding ctx) (AllowColorSubsampling ctx) (AllowDynamicColorFidelity ctx)
    (ColorLossLevel ctx) (planes_set ctx) (planesBuffer ctx) (deltaPlanesBuffer ctx) b
    (pTempData ctx) (nTempStep ctx) (bgr ctx) (topdown ctx).

Definition set_pTempData (b : block) ctx : BITMAP_PLANAR_CONTEXT :=
  mkPlanar (maxWidth ctx) (maxHeight ctx) (maxPlaneSize ctx) (AllowSkipAlpha ctx)
    (AllowRunLengthEncoding ctx) (AllowColorSubsampling ctx) (AllowDynamicColorFidelity ctx)
    (ColorLossLevel ctx) (planes_set ctx) (planesBuffer ctx) (deltaPlanesBuffer ctx)
    (rlePlanesBuffer ctx) b (nTempStep ctx) (bgr ctx) (topdown ctx).

Definition set_limits (w h : Z) ctx : BITMAP_PLANAR_CONTEXT :=
  mkPlanar w h (maxPlaneSize ctx) (AllowSkipAlpha ctx)
    (AllowRunLengthEncoding ctx) (AllowColorSubsampling ctx) (AllowDynamicColorFidelity ctx)
    (ColorLossLevel ctx) (planes_set ctx) (planesBuffer ctx) (deltaPlanesBuffer ctx)
    (rlePlanesBuffer ctx) (pTempData ctx) (nTempStep ctx) false (topdown ctx).

Definition set_sizes (n step : Z) (b : bool) ctx : BITMAP_PLANAR_CONTEXT :=
  mkPlanar (maxWidth ctx) (maxHeight ctx) n (AllowSkipAlpha ctx)
    (AllowRunLengthEncoding ctx) (AllowColorSubsampling ctx) (AllowDynamicColorFidelity ctx)
    (ColorLossLevel ctx) b (planesBuffer ctx) (deltaPlanesBuffer ctx)
    (rlePlanesBuffer ctx) (pTempData ctx) step (bgr ctx) (topdown ctx).

Definition set_bgr (b : bool) ctx : BITMAP_PLANAR_CONTEXT :=
  mkPlanar (maxWidth ctx) (maxHeight ctx) (maxPlaneSize ctx) (AllowSkipAlpha ctx)
    (AllowRunLengthEncoding ctx) (AllowColorSubsampling ctx) (AllowDynamicColorFidelity ctx)
    (ColorLossLevel ctx) (planes_set ctx) (planesBuffer ctx) (deltaPlanesBuffer ctx)
    (rlePlanesBuffer ctx) (pTempData ctx) (nTempStep ctx) b (topdown ctx).

Definition set_topdown (b : bool) ctx : BITMAP_PLANAR_CONTEXT :=
  mkPlanar (maxWidth ctx) (maxHeight ctx) (maxPlaneSize ctx) (AllowSkipAlpha ctx)
    (AllowRunLengthEncoding ctx) (AllowColorSubsampling ctx) (AllowDynamicColorFidelity ctx)
    (ColorLossLevel ctx) (planes_set ctx) (planesBuffer ctx) (deltaPlanesBuffer ctx)
    (rlePlanesBuffer ctx) (pTempData ctx) (nTempStep ctx) (bgr ctx) b.

(** A computation on one block of the context. *)
Definition on_block {A} (sel : BITMAP_PLANAR_CONTEXT -> block)
    (upd : block -> BITMAP_PLANAR_CONTEXT -> BITMAP_PLANAR_CONTEXT) (m : M (list Z) A)
    : M BITMAP_PLANAR_CONTEXT A := fun ctx =>
  match sel ctx with
  | Freed => Crash Undefined
  | b =>
      match m (match b with Live l => l | _ => [] end) with
      | Ret a l => Ret a (upd (put_back b l) ctx)
      | Fail l => Fail (upd (put_back b l) ctx)
      | Crash f => Crash f
      end
  end.

Definition on_planes {A} : M (list Z) A -> M BITMAP_PLANAR_CONTEXT A := on_block planesBuffer set_planesBuffer.
Definition on_delta {A} : M (list Z) A -> M BITMAP_PLANAR_CONTEXT A :=
  on_block deltaPlanesBuffer set_deltaPlanesBuffer.
Definition on_rle {A} : M (list Z) A -> M BITMAP_PLANAR_CONTEXT A := on_block rlePlanesBuffer set_rlePlanesBuffer.
Definition on_temp {A} : M (list Z) A -> M BITMAP_PLANAR_CONTEXT A := on_block pTempData set_pTempData.

(** [&planes[i][0]] and [&deltaPlanes[i][0]] in their buffers *)
Definition plane_start ctx (i : Z) : Z := i * maxPlaneSize ctx.

Definition PLANAR_CONTROL_BYTE {S} (nRunLength cRawBytes : Z) : M S Z :=
  asserting_cast u8 (Z.lor (Z.land nRunLength 0x0F) (Z.shiftl (Z.land cRawBytes 0x0F) 4)).

Definition PLANAR_CONTROL_BYTE_RUN_LENGTH (controlByte : Z) : Z := Z.land controlByte 0x0F.
Definition PLANAR_CONTROL_BYTE_RAW_BYTES (controlByte : Z) : Z := Z.land (Z.shiftr controlByte 4) 0x0F.

(** The lengths a control byte stands for: long runs have no raw bytes. *)
Definition control_lengths (controlByte : Z) : Z * Z :=
  let nRunLength := PLANAR_CONTROL_BYTE_RUN_LENGTH controlByte in
  let cRawBytes := PLANAR_CONTROL_BYTE_RAW_BYTES controlByte in
  if nRunLength =? 1 then (cRawBytes + 16, 0)
  else if nRunLength =? 2 then (cRawBytes + 32, 0)
  else (nRunLength, cRawBytes).

Definition planar_invert_format ctx (alpha : bool) (DstFormat : Z) : Z :=
  if bgr ctx && alpha then
    if DstFormat =? PIXEL_FORMAT_ARGB32 then PIXEL_FORMAT_ABGR32
    else if DstFormat =? PIXEL_FORMAT_XRGB32 then PIXEL_FORMAT_XBGR32
    else if DstFormat =? PIXEL_FORMAT_ABGR32 then PIXEL_FORMAT_ARGB32
    else if DstFormat =? PIXEL_FORMAT_XBGR32 then PIXEL_FORMAT_XRGB32
    else if DstFormat =? PIXEL_FORMAT_BGRA32 then PIXEL_FORMAT_RGBA32
    else if DstFormat =? PIXEL_FORMAT_BGRX32 then PIXEL_FORMAT_RGBX32
    else if DstFormat =? PIXEL_FORMAT_RGBA32 then PIXEL_FORMAT_BGRA32
    else if DstFormat =? PIXEL_FORMAT_RGBX32 then PIXEL_FORMAT_BGRX32
    else if DstFormat =? PIXEL_FORMAT_RGB24 then PIXEL_FORMAT_BGR24
    else if DstFormat =? PIXEL_FORMAT_BGR24 then PIXEL_FORMAT_RGB24
    else if DstFormat =? PIXEL_FORMAT_RGB16 then PIXEL_FORMAT_BGR16
    else if DstFormat =? PIXEL_FORMAT_BGR16 then PIXEL_FORMAT_RGB16
    else if DstFormat =? PIXEL_FORMAT_ARGB15 then PIXEL_FORMAT_ABGR15
    else if DstFormat =? PIXEL_FORMAT_RGB15 then PIXEL_FORMAT_BGR15
    else if DstFormat =? PIXEL_FORMAT_ABGR15 then PIXEL_FORMAT_ARGB15
    else if DstFormat =? PIXEL_FORMAT_BGR15 then PIXEL_FORMAT_RGB15
    else DstFormat
  else DstFormat.

(** ** The encoder: planes *)

(** One pixel into the four planes of the block; [n] is the distance of the planes. *)
Definition split_pixel (n k color format : Z) : M (list Z) unit :=
  match FreeRDPSplitColor color format None with
  | None => crash Undefined
  | Some c =>
      store (1 * n + k) [c_r c];; store (2 * n + k) [c_g c];; store (3 * n + k) [c_b c];;
      store (0 * n + k) [c_a c]
  end.

(** A row of the image from [off] on. *)
Definition split_row (data : list Z) (format width n off k : Z) : M (list Z) unit :=
  for_range (Z.to_nat width) 0 (fun j =>
    color ← read_pixel data (off + j * FreeRDPGetBytesPerPixel format) format;
    split_pixel n (k + j) color format).

Definition freerdp_split_color_planes (data : list Z) (format width height scanline : Z)
    : M BITMAP_PLANAR_CONTEXT unit :=
  ctx ← get;
  guard (negb ((INT32_MAX <? width) || (INT32_MAX <? height) || (INT32_MAX <? scanline)));;
  let scanline := if scanline =? 0 then u32 (width * FreeRDPGetBytesPerPixel format) else scanline in
  (if negb (planes_set ctx) && (0 <? width) && (0 <? height) then crash Undefined else mret tt);;
  on_planes (for_range (Z.to_nat height) 0 (fun k =>
    let i := if topdown ctx then k else height - 1 - k in
    split_row data format width (maxPlaneSize ctx) (scanline * i) (k * width))).

(** ** The encoder: differences *)

(** A difference as a number whose lowest bit is its sign. *)
Definition delta_code (src prev : Z) : Z :=
  let delta := src - prev in
  let s2c1i := if 0 <=? delta then delta else (INT32_MAX + delta) + 1 in
  let s2c1 := s8 s2c1i in
  let s2c := if 0 <=? s2c1 then u32 (Z.shiftl (u32 s2c1) 1)
             else u32 (u32 (Z.shiftl (u32 (Z.lnot s2c1 + 1)) 1) - 1) in
  u8 s2c.

(** The planes are [&inp[base]] and [&out[base]]. *)
Definition freerdp_bitmap_planar_delta_encode_plane (inp : list Z) (base width height : Z)
    : M (list Z) unit :=
  line ← copy_from base width inp;
  store base line;;
  for_range (Z.to_nat (height - 1)) 1 (fun y =>
    let off := width * y in
    for_range (Z.to_nat width) 0 (fun x =>
      s ← byte_at inp (base + off + x);
      p ← byte_at inp (base + (off - width) + x);
      store (base + off + x) [delta_code s p])).

(** The planes of the output are null together with those of the input. *)
Definition freerdp_bitmap_planar_delta_encode_planes (width height : Z) : M BITMAP_PLANAR_CONTEXT unit :=
  ctx ← get;
  if negb (planes_set ctx) then
    if u32 (width * height) =? 0 then failure else crash Undefined
  else
    inp ← contents (planesBuffer ctx);
    on_delta (for_range 4 0 (fun i =>
      freerdp_bitmap_planar_delta_encode_plane inp (plane_start ctx i) width height)).

(** ** The encoder: runs *)

(** The loop on raw bytes: the runs that are left, the output pointer and its room; [None] when
    there is no room. *)
Fixpoint write_raw (fuel : nat) (inp : list Z) (pInput cRawBytes nRunLength pOutput outBufferSize : Z)
    : M (list Z) (option (Z * Z * Z)) :=
  if cRawBytes =? 0 then mret (Some (nRunLength, pOutput, outBufferSize))
  else
    match fuel with
    | O => crash Diverges
    | S fuel' =>
        '(controlByte, nRunLength, cRawBytes) ←
          (if cRawBytes <? 16 then
             if 15 <? nRunLength then
               if nRunLength <? 18 then
                 b ← PLANAR_CONTROL_BYTE 13 cRawBytes; mret (b, nRunLength - 13, 0)
               else b ← PLANAR_CONTROL_BYTE 15 cRawBytes; mret (b, nRunLength - 15, 0)
             else b ← PLANAR_CONTROL_BYTE nRunLength cRawBytes; mret (b, 0, 0)
           else b ← PLANAR_CONTROL_BYTE 0 15; mret (b, nRunLength, cRawBytes - 15));
        if outBufferSize <? 1 then mret None
        else
          let outBufferSize := outBufferSize - 1 in
          store pOutput [controlByte];;
          let pOutput := pOutput + 1 in
          let nBytesToWrite := Z.shiftr controlByte 4 in
          if negb (nBytesToWrite =? 0) then
            if outBufferSize <? nBytesToWrite then mret None
            else
              bs ← copy_from pInput nBytesToWrite inp;
              store pOutput bs;;
              write_raw fuel' inp (pInput + nBytesToWrite) cRawBytes nRunLength
                (pOutput + nBytesToWrite) (outBufferSize - nBytesToWrite)
          else write_raw fuel' inp pInput cRawBytes nRunLength pOutput outBufferSize
    end.

(** The loop on what is left of a run. *)
Fixpoint write_run (fuel : nat) (nRunLength pOutput outBufferSize : Z) : M (list Z) (option Z) :=
  if nRunLength =? 0 then mret (Some pOutput)
  else
    match fuel with
    | O => crash Diverges
    | S fuel' =>
        '(controlByte, nRunLength) ←
          (if 47 <? nRunLength then
             if nRunLength <? 50 then b ← PLANAR_CONTROL_BYTE 2 13; mret (b, nRunLength - 45)
             else b ← PLANAR_CONTROL_BYTE 2 15; mret (b, nRunLength - 47)
           else if 31 <? nRunLength then b ← PLANAR_CONTROL_BYTE 2 (nRunLength - 32); mret (b, 0)
           else if 15 <? nRunLength then b ← PLANAR_CONTROL_BYTE 1 (nRunLength - 16); mret (b, 0)
           else b ← PLANAR_CONTROL_BYTE nRunLength 0; mret (b, 0));
        if outBufferSize <? 1 then mret None
        else
          store pOutput [controlByte];;
          write_run fuel' nRunLength (pOutput + 1) (outBufferSize - 1)
    end.

(** The number of bytes written, 0 when there was no room. *)
Definition freerdp_bitmap_planar_write_rle_bytes (inp : list Z)
    (pInBuffer cRawBytes nRunLength pOutBuffer outBufferSize : Z) : M (list Z) Z :=
  if (cRawBytes =? 0) && (nRunLength =? 0) then mret 0
  else
    let '(cRawBytes, nRunLength) :=
      if nRunLength <? 3 then (u32 (cRawBytes + nRunLength), 0) else (cRawBytes, nRunLength) in
    r ← write_raw (Z.to_nat cRawBytes) inp pInBuffer cRawBytes nRunLength pOutBuffer outBufferSize;
    match r with
    | None => mret 0
    | Some (nRunLength, pOutput, outBufferSize) =>
        r ← write_run (Z.to_nat nRunLength) nRunLength pOutput outBufferSize;
        match r with
        | None => mret 0
        | Some pOutput =>
            let diff := pOutput - pOutBuffer in
            if (diff <? 0) || (UINT32_MAX <? diff) then mret 0 else mret diff
        end
    end.

(** Where the encoder is in a row. *)
Record encoder := mkEncoder {
  e_symbol : Z; e_input : Z; e_left : nat; e_raw : Z; e_run : Z;
  e_output : Z; e_room : Z; e_total : Z
}.

(** The loop of [freerdp_bitmap_planar_encode_rle_bytes]; [None] when it returns early. *)
Fixpoint encode_loop (inp : list Z) (left : nat)
    (symbol pInput cRawBytes nRunLength pOutput outBufferSize total : Z) : M (list Z) (option encoder) :=
  match left with
  | O => mret (Some (mkEncoder symbol pInput O cRawBytes nRunLength pOutput outBufferSize total))
  | S left' =>
      b ← byte_at inp pInput;
      let bSymbolMatch := symbol =? b in
      let pInput := pInput + 1 in
      r ← (if negb (nRunLength =? 0) && negb bSymbolMatch then
             if nRunLength <? 3 then
               mret (Some (cRawBytes + nRunLength, 0, pOutput, outBufferSize, total))
             else
               n ← freerdp_bitmap_planar_write_rle_bytes inp (pInput - (cRawBytes + nRunLength + 1))
                     cRawBytes nRunLength pOutput outBufferSize;
               if (n =? 0) || (outBufferSize <? n) then mret None
               else mret (Some (0, 0, pOutput + n, outBufferSize - n, u32 (total + n)))
           else mret (Some (cRawBytes, nRunLength, pOutput, outBufferSize, total)));
      match r with
      | None => mret None
      | Some (cRawBytes, nRunLength, pOutput, outBufferSize, total) =>
          let nRunLength := u32 (nRunLength + if bSymbolMatch then 1 else 0) in
          let cRawBytes := u32 (cRawBytes + if negb bSymbolMatch then 1 else 0) in
          if outBufferSize =? 0 then
            mret (Some (mkEncoder b pInput left' cRawBytes nRunLength pOutput outBufferSize total))
          else encode_loop inp left' b pInput cRawBytes nRunLength pOutput outBufferSize total
      end
  end.

Definition freerdp_bitmap_planar_encode_rle_bytes (inp : list Z)
    (pInBuffer inBufferSize pOutBuffer outBufferSize : Z) : M (list Z) Z :=
  if outBufferSize =? 0 then mret 0
  else
    r ← encode_loop inp (Z.to_nat inBufferSize) 0 pInBuffer 0 0 pOutBuffer outBufferSize 0;
    match r with
    | None => mret 0
    | Some e =>
        t ← (if negb (e_raw e =? 0) || negb (e_run e =? 0) then
               n ← freerdp_bitmap_planar_write_rle_bytes inp (e_input e - (e_raw e + e_run e))
                     (e_raw e) (e_run e) (e_output e) (e_room e);
               mret (if n =? 0 then None else Some (u32 (e_total e + n)))
             else mret (Some (e_total e)));
        match t with
        | None => mret 0
        | Some total => mret (if negb (Z.of_nat (e_left e) =? 0) then 0 else total)
        end
    end.

(** [while (outBufferSize > 0)]; the total, [None] when a row does not fit *)
Fixpoint compress_rows (fuel : nat) (inp : list Z) (width height index pInput pOutput outBufferSize total : Z)
    : M (list Z) (option Z) :=
  if 0 <? outBufferSize then
    match fuel with
    | O => crash Diverges
    | S fuel' =>
        n ← freerdp_bitmap_planar_encode_rle_bytes inp pInput width pOutput outBufferSize;
        if (n =? 0) || (outBufferSize <? n) then mret None
        else if height <=? index + 1 then mret (Some (u32 (total + n)))
        else compress_rows fuel' inp width height (index + 1) (pInput + width) (pOutput + n)
               (outBufferSize - n) (u32 (total + n))
    end
  else mret (Some total).

(** The size of the code; a plane is [&inp[inPlane]], its code is written from [outPlane] on. *)
Definition freerdp_bitmap_planar_compress_plane_rle (inp : list Z) (inPlane width height outPlane dstSize : Z)
    : M (list Z) (option Z) :=
  compress_rows (Z.to_nat height + 1) inp width height 0 inPlane outPlane dstSize 0.

(** The planes of the list one behind the other; their sizes. *)
Fixpoint compress_planes (inp : list Z) (n width height : Z) (ps : list Z) (outPlanes outPlanesSize : Z)
    : M (list Z) (option (list Z)) :=
  match ps with
  | [] => mret (Some [])
  | i :: ps' =>
      r ← freerdp_bitmap_planar_compress_plane_rle inp (i * n) width height outPlanes outPlanesSize;
      match r with
      | None => mret None
      | Some size =>
          rest ← compress_planes inp n width height ps' (outPlanes + size) (u32 (outPlanesSize - size));
          mret (option_map (cons size) rest)
      end
  end.

(** [dstSizes] *)
Definition freerdp_bitmap_planar_compress_planes_rle (inp : list Z) (n width height : Z) (skipAlpha : bool)
    : M (list Z) (option (list Z)) :=
  let outPlanesSize := u32 (width * height * 4) in
  if skipAlpha then
    r ← compress_planes inp n width height [1; 2; 3] 0 outPlanesSize;
    mret (option_map (cons 0) r)
  else compress_planes inp n width height [0; 1; 2; 3] 0 outPlanesSize.

(** ** Contexts *)

Section Contexts.
Context `{Alloc}.

(** [tmp = winpr_aligned_recalloc (...); if (!tmp) return FALSE;] *)
Definition recalloc (sel : BITMAP_PLANAR_CONTEXT -> block)
    (upd : block -> BITMAP_PLANAR_CONTEXT -> BITMAP_PLANAR_CONTEXT) (n : Z) : M BITMAP_PLANAR_CONTEXT unit :=
  ctx ← get;
  match sel ctx, winpr_aligned_recalloc (sel ctx) n 32 with
  | Freed, _ => crash Undefined
  | _, Live l => modify (upd (Live l))
  | Null, _ => failure
  | Live _, _ => modify (upd Freed);; failure
  end.

Definition PLANAR_ALIGN (val align : Z) : Z :=
  if val mod align =? 0 then val else u32 (val + align - val mod align).

Definition freerdp_bitmap_planar_context_reset (width height : Z) : M BITMAP_PLANAR_CONTEXT unit :=
  modify (set_limits (PLANAR_ALIGN width 4) (PLANAR_ALIGN height 4));;
  ctx ← get;
  let tmp := maxWidth ctx * maxHeight ctx in
  guard (negb (UINT32_MAX <? tmp));;
  modify (set_sizes tmp (nTempStep ctx) (planes_set ctx));;
  guard (negb (UINT32_MAX / 4 <? maxWidth ctx));;
  modify (set_sizes tmp (maxWidth ctx * 4) false);;
  if 0 <? tmp then
    recalloc planesBuffer set_planesBuffer (tmp * 4);;
    recalloc pTempData set_pTempData (tmp * 6);;
    recalloc deltaPlanesBuffer set_deltaPlanesBuffer (tmp * 4);;
    recalloc rlePlanesBuffer set_rlePlanesBuffer (tmp * 4);;
    modify (set_sizes tmp (maxWidth ctx * 4) true)
  else mret tt.

(** Freeing the blocks of a context. *)
Definition freerdp_bitmap_planar_context_free : M BITMAP_PLANAR_CONTEXT unit :=
  ctx ← get;
  let free b : M BITMAP_PLANAR_CONTEXT unit := match b with Freed => crash Undefined | _ => mret tt end in
  free (pTempData ctx);; free (planesBuffer ctx);; free (deltaPlanesBuffer ctx);; free (rlePlanesBuffer ctx).

Definition fresh_context (flags : Z) : BITMAP_PLANAR_CONTEXT :=
  let on b := negb (Z.land flags b =? 0) in
  let cll := Z.land flags PLANAR_FORMAT_HEADER_CLL_MASK in
  mkPlanar 0 0 0 (on PLANAR_FORMAT_HEADER_NA) (on PLANAR_FORMAT_HEADER_RLE) (on PLANAR_FORMAT_HEADER_CS)
    (negb (cll =? 0)) cll false Null Null Null Null 0 false false.

(** [None]: no context. *)
Definition freerdp_bitmap_planar_context_new (flags width height : Z) : option BITMAP_PLANAR_CONTEXT :=
  if malloc_ok 176 then
    match freerdp_bitmap_planar_context_reset width height (fresh_context flags) with
    | Ret _ ctx => Some ctx
    | _ => None
    end
  else None.

(** ** The encoder: images *)

(** The message of the codes in [rlePlanesBuffer]. *)
Definition emit_rle (NA n0 n1 n2 n3 : Z) (dstData : option Z) : M BITMAP_PLANAR_CONTEXT (list Z) :=
  ctx ← get;
  let FormatHeader := Z.lor NA PLANAR_FORMAT_HEADER_RLE in
  let size := u32 (1 + (if AllowSkipAlpha ctx then 0 else n0) + (n1 + n2 + n3)) in
  room ← (match dstData with
          | Some room => mret room
          | None => guard (malloc_ok size);; mret size
          end);
  code ← contents (rlePlanesBuffer ctx);
  a ← (if AllowSkipAlpha ctx then mret [] else copy_from 0 n0 code);
  r ← copy_from n0 n1 code;
  g ← copy_from (n0 + n1) n2 code;
  b ← copy_from (n0 + n1 + n2) n3 code;
  let out := FormatHeader :: a ++ r ++ g ++ b in
  if zlen out <=? room then mret out else crash Undefined.

(** The message of the planes as they are, with a byte of padding. *)
Definition emit_raw (NA planeSize : Z) (dstData : option Z) : M BITMAP_PLANAR_CONTEXT (list Z) :=
  ctx ← get;
  let size := u32 (1 + (if AllowSkipAlpha ctx then 0 else planeSize) + u32 (planeSize * 3) + 1) in
  room ← (match dstData with
          | Some room => mret room
          | None => guard (malloc_ok size);; mret size
          end);
  inp ← contents (planesBuffer ctx);
  let plane i := if planes_set ctx then copy_from (plane_start ctx i) planeSize inp
                 else if planeSize =? 0 then mret [] else crash Undefined in
  a ← (if AllowSkipAlpha ctx then mret [] else plane 0);
  r ← plane 1;
  g ← plane 2;
  b ← plane 3;
  let out := NA :: a ++ r ++ g ++ b ++ [0] in
  if zlen out <=? room then mret out else crash Undefined.

(** The bytes of the message.  [dstData] is the room at the destination the caller gives, or
    [None] for a fresh one. *)
Definition freerdp_bitmap_compress_planar (data : list Z) (format width height scanline : Z)
    (dstData : option Z) : M BITMAP_PLANAR_CONTEXT (list Z) :=
  ctx ← get;
  guard (match rlePlanesBuffer ctx with Null => false | _ => true end);;
  let NA := if AllowSkipAlpha ctx then PLANAR_FORMAT_HEADER_NA else 0 in
  let planeSize := u32 (width * height) in
  let format := if negb (AllowSkipAlpha ctx) then planar_invert_format ctx true format else format in
  freerdp_split_color_planes data format width height scanline;;
  if AllowRunLengthEncoding ctx then
    freerdp_bitmap_planar_delta_encode_planes width height;;
    ctx ← get;
    deltas ← contents (deltaPlanesBuffer ctx);
    r ← on_rle (freerdp_bitmap_planar_compress_planes_rle deltas (maxPlaneSize ctx) width height
                  (AllowSkipAlpha ctx));
    match r with
    | Some [n0; n1; n2; n3] => emit_rle NA n0 n1 n2 n3 dstData
    | _ => failure
    end
  else emit_raw NA planeSize dstData.
End Contexts.

Definition freerdp_planar_switch_bgr (b : bool) ctx : BITMAP_PLANAR_CONTEXT := set_bgr b ctx.

Definition freerdp_planar_topdown_image (b : bool) ctx : BITMAP_PLANAR_CONTEXT := set_topdown b ctx.

(** ** The decoder: runs *)

(** The loop of [planar_skip_plane_rle] on one row: what is used of the source after it. *)
Fixpoint skip_row {S} (fuel : nat) (src : list Z) (pSrcData SrcSize nWidth x used : Z) : M S Z :=
  if x <? nWidth then
    match fuel with
    | O => crash Diverges
    | S fuel' =>
        if SrcSize <=? used then failure
        else
          controlByte ← byte_at src (pSrcData + used);
          let '(nRunLength, cRawBytes) := control_lengths controlByte in
          let used := u32 (u32 (used + 1) + cRawBytes) in
          let x := u32 (u32 (x + cRawBytes) + nRunLength) in
          if nWidth <? x then failure
          else if SrcSize <? used then failure
          else skip_row fuel' src pSrcData SrcSize nWidth x used
    end
  else mret used.

Fixpoint skip_rows {S} (h : nat) (src : list Z) (pSrcData SrcSize nWidth used : Z) : M S Z :=
  match h with
  | O => mret used
  | S h' =>
      used ← skip_row (Z.to_nat SrcSize + 1) src pSrcData SrcSize nWidth 0 used;
      skip_rows h' src pSrcData SrcSize nWidth used
  end.

(** The plane is [&src[pSrcData]]; [Fail] is the status -1. *)
Definition planar_skip_plane_rle {S} (src : list Z) (pSrcData SrcSize nWidth nHeight : Z) : M S Z :=
  used ← skip_rows (Z.to_nat nHeight) src pSrcData SrcSize nWidth 0;
  if INT32_MAX <? used then failure else mret used.

Definition clamp (val : Z) : Z := u8 val.

(** The difference a byte stands for. *)
Definition delta_value {S} (b : Z) : M S Z :=
  if negb (Z.land b 1 =? 0) then asserting_cast s16 (-1 * u8 (Z.shiftr b 1 + 1))
  else asserting_cast s16 (Z.shiftr b 1).

(** One pixel of a row from the value that is carried: in the first row the value itself, below
    it the value added to the pixel above.  [cur] and [prev] are the rows in the block, whose
    pixels are [st] bytes apart; [cast] is the conversion of the first row. *)
Definition put_pixel (cast : Z -> M (list Z) Z) (st cur : Z) (prev : option Z) (x pixel : Z) : M (list Z) unit :=
  match prev with
  | None => v ← cast pixel; store (cur + st * x) [v]
  | Some p =>
      d ← get;
      q ← byte_at d (p + st * x);
      v ← asserting_cast s16 (q + pixel);
      store (cur + st * x) [clamp v]
  end.

Section Rows.
Variables (cast : Z -> M (list Z) Z) (st : Z) (src : list Z) (pSrcData SrcSize nWidth : Z).

(** [while (cRawBytes > 0)]: the source pointer and the value that is carried *)
Fixpoint put_raw (n : nat) (cur : Z) (prev : option Z) (x srcp pixel : Z) : M (list Z) (Z * Z) :=
  match n with
  | O => mret (srcp, pixel)
  | S n' =>
      b ← byte_at src srcp;
      pixel ← (match prev with None => mret b | Some _ => delta_value b end);
      put_pixel cast st cur prev x pixel;;
      put_raw n' cur prev (x + 1) (srcp + 1) pixel
  end.

(** [while (nRunLength > 0)] *)
Fixpoint put_run (n : nat) (cur : Z) (prev : option Z) (x pixel : Z) : M (list Z) unit :=
  match n with
  | O => mret tt
  | S n' => put_pixel cast st cur prev x pixel;; put_run n' cur prev (x + 1) pixel
  end.

(** One row: the source pointer behind it. *)
Fixpoint decode_row (fuel : nat) (cur : Z) (prev : option Z) (x srcp pixel : Z) : M (list Z) Z :=
  if x <? nWidth then
    match fuel with
    | O => crash Diverges
    | S fuel' =>
        controlByte ← byte_at src srcp;
        let srcp := srcp + 1 in
        if SrcSize <? srcp - pSrcData then failure
        else
          let '(nRunLength, cRawBytes) := control_lengths controlByte in
          if nWidth * st <? st * x + (cRawBytes + nRunLength) then failure
          else
            '(srcp, pixel) ← put_raw (Z.to_nat cRawBytes) cur prev x srcp pixel;
            put_run (Z.to_nat nRunLength) cur prev (x + cRawBytes) pixel;;
            decode_row fuel' cur prev (x + cRawBytes + nRunLength) srcp pixel
    end
  else mret srcp.

(** [n] rows; [start k] is the [k]th row in the block. *)
Fixpoint decode_rows (n : nat) (start : Z -> Z) (k : Z) (prev : option Z) (srcp : Z) : M (list Z) Z :=
  match n with
  | O => mret srcp
  | S n' =>
      srcp ← decode_row (Z.to_nat SrcSize + 1) (start k) prev 0 srcp 0;
      decode_rows n' start (k + 1) (Some (start k)) srcp
  end.
End Rows.

(** Into a plane of its own, [&dst[pDstData]]. *)
Definition planar_decompress_plane_rle_only (src : list Z) (pSrcData SrcSize pDstData nWidth nHeight : Z)
    : M (list Z) Z :=
  assert (nHeight <=? INT32_MAX);;
  assert (nWidth <=? INT32_MAX);;
  srcp ← decode_rows (fun v => mret (clamp v)) 1 src pSrcData SrcSize nWidth (Z.to_nat nHeight)
           (fun y => pDstData + y * nWidth) 0 None pSrcData;
  mret (srcp - pSrcData).

(** Where row [y] of one channel starts in an image with four bytes per pixel. *)
Definition channel_row (nDstStep nXDst nYDst nHeight nChannel : Z) (vFlip : bool) (k : Z) : Z :=
  let y := if vFlip then nHeight - 1 - k else k in
  (nYDst + y) * nDstStep + 4 * nXDst + nChannel.

(** Into one channel of an image. *)
Definition planar_decompress_plane_rle (src : list Z)
    (pSrcData SrcSize nDstStep nXDst nYDst nWidth nHeight nChannel : Z) (vFlip : bool) : M (list Z) Z :=
  assert (nHeight <=? INT32_MAX);;
  assert (nWidth <=? INT32_MAX);;
  assert (nDstStep <=? INT32_MAX);;
  srcp ← decode_rows (asserting_cast u8) 4 src pSrcData SrcSize nWidth (Z.to_nat nHeight)
           (channel_row nDstStep nXDst nYDst nHeight nChannel vFlip) 0 None pSrcData;
  mret (srcp - pSrcData).

Definition planar_set_plane (bValue nDstStep nXDst nYDst nWidth nHeight nChannel : Z) (vFlip : bool)
    : M (list Z) unit :=
  assert (nHeight <=? INT32_MAX);;
  assert (nWidth <=? INT32_MAX);;
  assert (nDstStep <=? INT32_MAX);;
  for_range (Z.to_nat nHeight) 0 (fun k =>
    for_range (Z.to_nat nWidth) 0 (fun x =>
      store (channel_row nDstStep nXDst nYDst nHeight nChannel vFlip k + 4 * x) [bValue])).

(** ** The decoder: plain planes *)

(** A plane: a block and an index, or a null pointer. *)
Definition plane_ptr : Type := option (list Z * Z).

Definition plane_byte {S} (p : plane_ptr) (i : Z) : M S Z :=
  match p with
  | None => crash Undefined
  | Some (mem, off) => byte_at mem (off + i)
  end.

(** Pixels [i], [i + 1], ... of the planes as one line of the image at [off]. *)
Definition writeLine (off DstFormat width : Z) (pR pG pB pA : plane_ptr) (i : Z) : M (list Z) unit :=
  for_range (Z.to_nat width) 0 (fun x =>
    let k := i + x in
    if DstFormat =? PIXEL_FORMAT_BGRA32 then
      b ← plane_byte pB k; g ← plane_byte pG k; r ← plane_byte pR k; a ← plane_byte pA k;
      store (off + 4 * x) [b; g; r; a]
    else if DstFormat =? PIXEL_FORMAT_BGRX32 then
      b ← plane_byte pB k; g ← plane_byte pG k; r ← plane_byte pR k;
      store (off + 4 * x) [b; g; r; 0xFF]
    else
      a ← plane_byte pA k; r ← plane_byte pR k; g ← plane_byte pG k; b ← plane_byte pB k;
      write_pixel (off + x * FreeRDPGetBytesPerPixel DstFormat) DstFormat
        (FreeRDPGetColor DstFormat (mkRgba r g b a))).

Definition planar_decompress_planes_raw (pR pG pB pA : plane_ptr)
    (DstFormat nDstStep nXDst nYDst nWidth nHeight : Z) (vFlip : bool) (totalHeight : Z) : M (list Z) unit :=
  let bpp := FreeRDPGetBytesPerPixel DstFormat in
  (if vFlip then asserting_cast s32 (u32 (nHeight - 1)) else asserting_cast s32 nHeight);;
  guard (negb (totalHeight <? u32 (nYDst + nHeight)));;
  guard (negb (nDstStep <? u32 (u32 (nXDst + nWidth) * bpp)));;
  for_range (Z.to_nat nHeight) 0 (fun k =>
    let y := if vFlip then nHeight - 1 - k else k in
    guard (negb (nHeight <? y));;
    writeLine ((nYDst + y) * nDstStep + nXDst * bpp) DstFormat nWidth pR pG pB pA (k * nWidth)).

(** A chroma plane at full resolution, into [&delta[deltaPlane]]. *)
Definition planar_subsample_expand (plane : plane_ptr) (nWidth nHeight nPlaneWidth nPlaneHeight deltaPlane : Z)
    : M (list Z) unit :=
  guard (negb (u32 (nPlaneWidth * 2) <? nWidth));;
  guard (negb (u32 (nPlaneHeight * 2) <? nHeight));;
  for_range (Z.to_nat nHeight) 0 (fun y =>
    for_range (Z.to_nat nWidth) 0 (fun x =>
      v ← plane_byte plane (y / 2 * nPlaneWidth + x / 2);
      store (deltaPlane + (y * nWidth + x)) [v])).

(** ** The decoder: images *)

(** The context and the destination. *)
Abbreviation canvas := (BITMAP_PLANAR_CONTEXT * list Z)%type.

Definition on_ctx {A} (m : M BITMAP_PLANAR_CONTEXT A) : M canvas A := fun s =>
  match m s.1 with
  | Ret a ctx => Ret a (ctx, s.2)
  | Fail ctx => Fail (ctx, s.2)
  | Crash f => Crash f
  end.

Definition on_dst {A} (m : M (list Z) A) : M canvas A := fun s =>
  match m s.2 with
  | Ret a d => Ret a (s.1, d)
  | Fail d => Fail (s.1, d)
  | Crash f => Crash f
  end.

(** The image that is drawn to: the destination or the scratch image of the context. *)
Definition on_target {A} (temp : bool) (m : M (list Z) A) : M canvas A :=
  if temp then on_ctx (on_temp m) else on_dst m.

(** Where the planes start in the source, and the size of their codes. *)
Record layout := mkLayout { l_planes : list Z; l_sizes : list Z }.

Definition raw_layout (SrcSize planeSize subSize : Z) (cs alpha : bool) : M canvas layout :=
  let base := if cs then u32 (planeSize + planeSize / 2) else u32 (planeSize * 3) in
  let chroma := if cs then subSize else planeSize in
  let diff := 1 in
  let first := if alpha then diff + planeSize else diff in
  guard (negb (SrcSize - diff <? if alpha then u32 (planeSize + base) else base));;
  guard (negb (SrcSize <? first + planeSize + chroma + chroma));;
  mret (mkLayout [first; first + planeSize; first + planeSize + chroma; diff]
          [planeSize; chroma; chroma; planeSize]).

Definition rle_layout (src : list Z) (SrcSize nSrcWidth nSrcHeight subWidth subHeight : Z) (cs alpha : bool)
    : M canvas layout :=
  let cw := if cs then subWidth else nSrcWidth in
  let ch := if cs then subHeight else nSrcHeight in
  let diff := 1 in
  sA ← (if alpha then planar_skip_plane_rle src diff (SrcSize - diff) nSrcWidth nSrcHeight else mret 0);
  let p0 := diff + sA in
  guard (negb (SrcSize <? p0));;
  s0 ← planar_skip_plane_rle src p0 (SrcSize - p0) nSrcWidth nSrcHeight;
  let p1 := p0 + s0 in
  guard (negb (SrcSize <? p1));;
  s1 ← planar_skip_plane_rle src p1 (SrcSize - p1) cw ch;
  guard (negb (s1 <? 1));;
  let p2 := p1 + s1 in
  guard (negb (SrcSize <? p2));;
  s2 ← planar_skip_plane_rle src p2 (SrcSize - p2) cw ch;
  guard (negb (s2 <? 1));;
  mret (mkLayout [p0; p1; p2; diff] [s0; s1; s2; sA]).

(** The planes of an image in RGB. *)
Definition draw_rgb (src : list Z) (l : layout) (temp rle alpha useAlpha : bool)
    (TempFormat nTempStep nTotalHeight nXDst nYDst nSrcWidth nSrcHeight : Z) (vFlip : bool) : M canvas unit :=
  let p i := nth i (l_planes l) 0 in
  let n i := nth i (l_sizes l) 0 in
  if rle then
    let draw i ch := on_target temp (planar_decompress_plane_rle src (p i) (n i) nTempStep nXDst nYDst
                                       nSrcWidth nSrcHeight ch vFlip) in
    draw 0%nat 2;; draw 1%nat 1;; draw 2%nat 0;;
    (if useAlpha then draw 3%nat 3;; mret tt
     else on_target temp (planar_set_plane 0xFF nTempStep nXDst nYDst nSrcWidth nSrcHeight 3 vFlip))
  else
    on_target temp (planar_decompress_planes_raw (Some (src, p 0%nat)) (Some (src, p 1%nat))
                      (Some (src, p 2%nat)) (if alpha then Some (src, p 3%nat) else None)
                      TempFormat nTempStep nXDst nYDst nSrcWidth nSrcHeight vFlip nTotalHeight).

(** The planes of an image in YCoCg, on the scratch image. *)
Definition draw_ycocg (src : list Z) (l : layout) (cs rle alpha useAlpha : bool)
    (TempFormat planeSize subWidth subHeight nXDst nYDst nSrcWidth nSrcHeight : Z) (vFlip : bool)
    : M BITMAP_PLANAR_CONTEXT unit :=
  ctx ← get;
  let p i := nth i (l_planes l) 0 in
  let n i := nth i (l_sizes l) 0 in
  let cw := if cs then subWidth else nSrcWidth in
  let ch := if cs then subHeight else nSrcHeight in
  '(pR, pG, pB, pA) ←
    (if rle then
       guard (match rlePlanesBuffer ctx with Null => false | _ => true end);;
       (if useAlpha then
          on_rle (planar_decompress_plane_rle_only src (p 3%nat) (n 3%nat) 0 nSrcWidth nSrcHeight);; mret tt
        else mret tt);;
       on_rle (planar_decompress_plane_rle_only src (p 0%nat) (n 0%nat) planeSize nSrcWidth nSrcHeight);;
       on_rle (planar_decompress_plane_rle_only src (p 1%nat) (n 1%nat) (2 * planeSize) cw ch);;
       on_rle (planar_decompress_plane_rle_only src (p 2%nat) (n 2%nat) (3 * planeSize) cw ch);;
       ctx ← get;
       b ← contents (rlePlanesBuffer ctx);
       mret (Some (b, planeSize), Some (b, 2 * planeSize), Some (b, 3 * planeSize), Some (b, 0))
     else
       mret (Some (src, p 0%nat), Some (src, p 1%nat), Some (src, p 2%nat),
             if alpha then Some (src, p 3%nat) else None));
  '(pG, pB) ←
    (if cs then
       (if negb (planes_set ctx) then crash AssertFailed else mret tt);;
       on_delta (planar_subsample_expand pG nSrcWidth nSrcHeight cw ch (plane_start ctx 0));;
       on_delta (planar_subsample_expand pB nSrcWidth nSrcHeight cw ch (plane_start ctx 1));;
       ctx ← get;
       d ← contents (deltaPlanesBuffer ctx);
       mret (Some (d, plane_start ctx 0), Some (d, plane_start ctx 1))
     else mret (pG, pB));
  on_temp (planar_decompress_planes_raw pR pG pB pA TempFormat (nTempStep ctx) nXDst nYDst nSrcWidth
             nSrcHeight vFlip (maxHeight ctx)).

(** [src] is [pSrcData] with its [SrcSize] bytes. *)
Definition freerdp_bitmap_decompress_planar (src : list Z) (nSrcWidth nSrcHeight DstFormat nDstStep
    nXDst nYDst nDstWidth nDstHeight : Z) (vFlip : bool) : M canvas unit :=
  '(ctx, _) ← get;
  let SrcSize := zlen src in
  let w := Z.min nSrcWidth nDstWidth in
  let h := Z.min nSrcHeight nDstHeight in
  let nDstStep := if nDstStep <=? 0 then u32 (nDstWidth * FreeRDPGetBytesPerPixel DstFormat) else nDstStep in
  FormatHeader ← byte_at src 0;
  let cll := Z.land FormatHeader PLANAR_FORMAT_HEADER_CLL_MASK in
  let cs := negb (Z.land FormatHeader PLANAR_FORMAT_HEADER_CS =? 0) in
  let rle := negb (Z.land FormatHeader PLANAR_FORMAT_HEADER_RLE =? 0) in
  let alpha := Z.land FormatHeader PLANAR_FORMAT_HEADER_NA =? 0 in
  let DstFormat := planar_invert_format ctx alpha DstFormat in
  let useAlpha := alpha && FreeRDPColorHasAlpha DstFormat in
  guard (negb ((cll =? 0) && cs));;
  let subWidth := nSrcWidth / 2 + nSrcWidth mod 2 in
  let subHeight := nSrcHeight / 2 + nSrcHeight mod 2 in
  let planeSize := u32 (nSrcWidth * nSrcHeight) in
  let subSize := u32 (subWidth * subHeight) in
  l ← (if rle then rle_layout src SrcSize nSrcWidth nSrcHeight subWidth subHeight cs alpha
       else raw_layout SrcSize planeSize subSize cs alpha);
  let TempFormat := if useAlpha then PIXEL_FORMAT_BGRA32 else PIXEL_FORMAT_BGRX32 in
  if cll =? 0 then
    let TempFormat := planar_invert_format ctx alpha TempFormat in
    let temp := negb (TempFormat =? DstFormat) || negb (nSrcWidth =? nDstWidth)
                || negb (nSrcHeight =? nDstHeight) in
    let step := if temp then nTempStep ctx else nDstStep in
    let nTotalHeight := if temp then maxHeight ctx else u32 (nYDst + nDstHeight) in
    draw_rgb src l temp rle alpha useAlpha TempFormat step nTotalHeight nXDst nYDst nSrcWidth nSrcHeight vFlip;;
    if temp then
      '(ctx, _) ← get;
      pSrc ← (match pTempData ctx with
              | Null => mret None
              | Live b => mret (Some b)
              | Freed => crash Undefined
              end);
      on_dst (freerdp_image_copy_no_overlap DstFormat nDstStep nXDst nYDst w h pSrc TempFormat step
                nXDst nYDst None FREERDP_FLIP_NONE)
    else mret tt
  else
    let dst := u32 (u32 (nXDst * FreeRDPGetBytesPerPixel DstFormat) + u32 (nYDst * nDstStep)) in
    guard (match pTempData ctx with Null => false | _ => true end);;
    on_ctx (draw_ycocg src l cs rle alpha useAlpha TempFormat planeSize subWidth subHeight nXDst nYDst
              nSrcWidth nSrcHeight vFlip);;
    '(ctx, _) ← get;
    tmp ← contents (pTempData ctx);
    srcStep ← asserting_cast s32 (nTempStep ctx);
    dstStep ← asserting_cast s32 nDstStep;
    on_dst (general_YCoCgToRGB_8u_AC4R tmp srcStep dst DstFormat dstStep w h cll useAlpha).
