(* ===== verification/PlanarRle.v ===== *)
(** * Run lengths and differences in the planar codec

    What the codes of [Planar] mean, independently of how they are written and read: [rle_codes]
    relates the code of a row to its bytes, [seg_code] and [row_code] are the code the encoder
    chooses, [undelta] takes a difference back.  Theorems on single planes. *)

From S2P Require Import Prelude Aligned Color Image Planar.

(** ** The code of a row *)

(** The byte a run repeats: the last one before it. *)
Definition carry (s : Z) (raws : list Z) : Z := List.last raws s.

(** [rle_codes s code line s']: behind the byte [s], the code stands for [line], whose last byte is
    [s']. *)
Inductive rle_codes : Z -> list Z -> list Z -> Z -> Prop :=
| rle_nil s : rle_codes s [] [] s
| rle_seg s c raws run code line s' :
    is_byte c -> control_lengths c = (run, zlen raws) -> 0 < zlen raws + run + zlen line ->
    rle_codes (carry s raws) code line s' ->
    rle_codes s (c :: raws ++ code) (raws ++ zrepeat run (carry s raws) ++ line) s'.

Lemma carry_app s a b : carry s (a ++ b) = carry (carry s a) b.
Proof.
  unfold carry. destruct b as [|x b] using rev_ind; [by rewrite app_nil_r|].
  by rewrite app_assoc, !List.last_last.
Qed.

Lemma carry_repeat n s : 0 <= n -> carry s (zrepeat n s) = s.
Proof.
  intros. unfold zrepeat. induction (Z.to_nat n) as [|m IH]; [done|].
  change (carry s ([s] ++ replicate m s) = s). by rewrite carry_app.
Qed.

Lemma rle_app s c1 l1 s1 c2 l2 s2 :
  rle_codes s c1 l1 s1 -> rle_codes s1 c2 l2 s2 -> rle_codes s (c1 ++ c2) (l1 ++ l2) s2.
Proof.
  induction 1 as [s|s c raws run code line s' Hc Hl Hp H1 IH]; intros H2; [done|].
  simpl. rewrite <- !app_assoc. constructor; [done|done| |auto].
  rewrite zlen_app. pose proof (zlen_nonneg l2). lia.
Qed.

(** ** The control byte *)

Definition ctl (run raw : Z) : Z := run + 16 * raw.

Lemma ctl_ok {S} run raw (s : S) : 0 <= run < 16 -> 0 <= raw < 16 ->
  PLANAR_CONTROL_BYTE run raw s = Ret (ctl run raw) s.
Proof.
  intros. unfold PLANAR_CONTROL_BYTE.
  rewrite !(land_mask _ 4) by (lia || done). change (2 ^ 4) with 16. rewrite !Z.mod_small by lia.
  rewrite Z.lor_comm, lor_shiftl_add by lia.
  rewrite asserting_cast_eq by word_lia. f_equal. unfold ctl. lia.
Qed.

Lemma ctl_lengths run raw : 0 <= run < 16 -> 0 <= raw < 16 ->
  control_lengths (ctl run raw)
  = if run =? 1 then (raw + 16, 0) else if run =? 2 then (raw + 32, 0) else (run, raw).
Proof.
  intros. unfold control_lengths, PLANAR_CONTROL_BYTE_RUN_LENGTH, PLANAR_CONTROL_BYTE_RAW_BYTES, ctl.
  rewrite shiftr_div, !(land_mask _ 4) by (lia || done). change (2 ^ 4) with 16.
  replace ((run + 16 * raw) mod 16) with run by (Z.div_mod_to_equations; lia).
  replace ((run + 16 * raw) / 16 mod 16) with raw by (Z.div_mod_to_equations; lia). done.
Qed.

Lemma ctl_byte run raw : 0 <= run < 16 -> 0 <= raw < 16 -> is_byte (ctl run raw).
Proof. unfold is_byte, ctl. lia. Qed.

Lemma ctl_shift run raw : 0 <= run < 16 -> Z.shiftr (ctl run raw) 4 = raw.
Proof. intros. rewrite shiftr_div by lia. unfold ctl. change (2 ^ 4) with 16. Z.div_mod_to_equations; lia. Qed.

Lemma control_lengths_range c run raw : is_byte c -> control_lengths c = (run, raw) ->
  0 <= run <= 47 /\ 0 <= raw <= 15.
Proof.
  unfold is_byte. intros Hc. unfold control_lengths, PLANAR_CONTROL_BYTE_RUN_LENGTH, PLANAR_CONTROL_BYTE_RAW_BYTES.
  rewrite shiftr_div, !(land_mask _ 4) by (lia || done). change (2 ^ 4) with 16.
  pose proof (Z.mod_pos_bound c 16 ltac:(lia)). pose proof (Z.mod_pos_bound (c / 16) 16 ltac:(lia)).
  repeat zcase; intros [= <- <-]; lia.
Qed.

(** ** The code that is chosen *)

(** Raw bytes, with as much of the run as their last control byte holds. *)
Fixpoint raw_code (fuel : nat) (raws : list Z) (run : Z) : list Z * Z :=
  match raws, fuel with
  | [], _ => ([], run)
  | _, O => ([], run)
  | _, S fuel' =>
      if zlen raws <? 16 then
        let r := if 15 <? run then if run <? 18 then 13 else 15 else run in
        (ctl r (zlen raws) :: raws, run - r)
      else
        let '(c, r) := raw_code fuel' (zdrop 15 raws) run in
        (ctl 0 15 :: ztake 15 raws ++ c, r)
  end.

(** A run alone. *)
Fixpoint run_code (fuel : nat) (run : Z) : list Z :=
  match fuel with
  | O => []
  | S fuel' =>
      if run =? 0 then []
      else if 47 <? run then
        if run <? 50 then ctl 2 13 :: run_code fuel' (run - 45) else ctl 2 15 :: run_code fuel' (run - 47)
      else if 31 <? run then [ctl 2 (run - 32)]
      else if 15 <? run then [ctl 1 (run - 16)]
      else [ctl run 0]
  end.

Definition two_code (raws : list Z) (run : Z) : list Z :=
  let '(c, r) := raw_code (length raws) raws run in c ++ run_code (Z.to_nat r) r.

(** Raw bytes and a run of [s]; a run of less than three bytes is raw. *)
Definition seg_code (raws : list Z) (run s : Z) : list Z :=
  if run <? 3 then two_code (raws ++ zrepeat run s) 0 else two_code raws run.

(** A row; [pend] and [run] times [s] are read and not yet coded. *)
Fixpoint row_loop (s : Z) (pend : list Z) (run : Z) (line : list Z) : list Z :=
  match line with
  | [] => seg_code pend run s
  | b :: rest =>
      if s =? b then row_loop s pend (run + 1) rest
      else if run <? 3 then row_loop b (pend ++ zrepeat run s ++ [b]) 0 rest
      else seg_code pend run s ++ row_loop b [b] 0 rest
  end.

Definition row_code (line : list Z) : list Z := row_loop 0 [] 0 line.

(** Runs that one control byte can hold, or that are gone. *)
Definition codable (run : Z) : Prop := run = 0 \/ 3 <= run.

Lemma zrepeat_0 {A} (x : A) : zrepeat 0 x = [].
Proof. done. Qed.

Lemma zrepeat_add {A} n m (x : A) : 0 <= n -> 0 <= m -> zrepeat (n + m) x = zrepeat n x ++ zrepeat m x.
Proof. intros. unfold zrepeat. rewrite Z2Nat.inj_add by lia. by rewrite replicate_add. Qed.

(** One control byte. *)
Lemma rle_one s c raws run : is_byte c -> control_lengths c = (run, zlen raws) -> 0 < zlen raws + run ->
  rle_codes s (c :: raws) (raws ++ zrepeat run (carry s raws)) (carry s raws).
Proof.
  intros Hc Hl Hp. pose proof (rle_seg s c raws run [] [] (carry s raws) Hc Hl) as Hs.
  rewrite !app_nil_r in Hs. apply Hs; [change (zlen (@nil Z)) with 0; lia|constructor].
Qed.

Lemma run_code_codes fuel s run : codable run -> (Z.to_nat run <= fuel)%nat ->
  rle_codes s (run_code fuel run) (zrepeat run s) s /\ 15 * zlen (run_code fuel run) <= 16 * run
  /\ (0 < run -> 0 < zlen (run_code fuel run)).
Proof.
  intros Hc Hf. revert run Hc Hf. induction fuel as [|fuel IH]; intros run Hc Hf.
  { assert (run = 0) as -> by (unfold codable in Hc; lia).
    split_and!; [constructor|by vm_compute|lia]. }
  assert (forall r w, 0 <= r < 16 -> 0 <= w < 16 -> control_lengths (ctl r w) = (run, 0) -> 3 <= run ->
    rle_codes s [ctl r w] (zrepeat run s) s) as Hone.
  { intros r w Hr Hw Hl Hrun. apply (rle_one s (ctl r w) []); [by apply ctl_byte|done|].
    change (zlen (@nil Z)) with 0. lia. }
  assert (forall w, 13 <= w <= 15 -> codable (run - 32 - w) -> 0 < run - 32 - w ->
    rle_codes s (ctl 2 w :: run_code fuel (run - (w + 32))) (zrepeat run s) s
    /\ 15 * zlen (ctl 2 w :: run_code fuel (run - (w + 32))) <= 16 * run
    /\ (0 < run -> 0 < zlen (ctl 2 w :: run_code fuel (run - (w + 32))))) as Hlong.
  { intros w Hw Hcod Hpos.
    destruct (IH (run - (w + 32))) as (I1 & I2 & _); [by replace (run - (w + 32)) with (run - 32 - w) by lia|lia|].
    rewrite zlen_cons. pose proof (zlen_nonneg (run_code fuel (run - (w + 32)))).
    split_and!; [|lia|lia].
    replace run with (w + 32 + (run - (w + 32))) at 2 by lia. rewrite zrepeat_add by lia.
    apply (rle_app s [ctl 2 w] _ s); [|done].
    apply (rle_one s (ctl 2 w) []); [apply ctl_byte; lia| |change (zlen (@nil Z)) with 0; lia].
    by rewrite ctl_lengths by lia. }
  unfold codable in *. simpl.
  destruct (Z.eqb_spec run 0) as [->|Hne]; [split_and!; [constructor|by vm_compute|lia]|].
  destruct (Z.ltb_spec 47 run); [destruct (Z.ltb_spec run 50)|].
  - apply (Hlong 13); lia.
  - apply (Hlong 15); lia.
  - change (zlen [?c]) with 1.
    destruct (Z.ltb_spec 31 run); [|destruct (Z.ltb_spec 15 run)];
      (split_and!; [apply Hone|change (zlen [ctl _ _]) with 1; lia|by vm_compute]); try lia;
      rewrite ctl_lengths by lia; repeat zcase; f_equal; lia.
Qed.

Lemma raw_code_codes fuel s raws run c r : codable run -> (length raws <= fuel)%nat ->
  raw_code fuel raws run = (c, r) ->
  codable r /\ r <= run
  /\ rle_codes s c (raws ++ zrepeat (run - r) (carry s raws)) (carry s raws)
  /\ 15 * zlen c <= 16 * zlen raws + (if zlen raws =? 0 then 0 else 14)
  /\ zlen raws <= zlen c /\ (zlen raws = 0 -> r = run)
  /\ (run = 0 \/ zlen raws = 0 \/ 3 <= run - r).
Proof.
  intros Hc. revert s raws c r. induction fuel as [|fuel IH]; intros s raws c r Hf He.
  { destruct raws; [|simpl in Hf; lia]. injection He as <- <-. rewrite Z.sub_diag.
    split_and!; try done; try lia; [constructor|by right; left]. }
  destruct raws as [|x raws].
  { injection He as <- <-. rewrite Z.sub_diag. split_and!; try done; try lia; [constructor|by right; left]. }
  cbn [raw_code] in He. set (l := x :: raws) in *.
  assert (0 < zlen l) by (unfold l; rewrite zlen_cons; pose proof (zlen_nonneg raws); lia).
  unfold codable in *. clearbody l. destruct (Z.ltb_spec (zlen l) 16).
  - set (k := if 15 <? run then if run <? 18 then 13 else 15 else run) in *. injection He as <- <-.
    assert (0 <= k <= 15 /\ k <= run /\ k <> 1 /\ k <> 2 /\ (run - k = 0 \/ 3 <= run - k) /\ (run = 0 \/ 3 <= k)) as
      (? & ? & ? & ? & ? & ?) by (unfold k; repeat zcase; lia).
    rewrite zlen_cons. replace (zlen l =? 0) with false by lia.
    split_and!; try lia. replace (run - (run - k)) with k by lia.
    apply rle_one; [apply ctl_byte; lia| |lia].
    rewrite ctl_lengths by lia. repeat zcase; (done || lia).
  - destruct (raw_code fuel (zdrop 15 l) run) as [c' r'] eqn:E. injection He as <- <-.
    assert (zlen (zdrop 15 l) = zlen l - 15) as El by (apply zlen_zdrop; lia).
    assert (zlen (ztake 15 l) = 15) as Et by (apply zlen_ztake; lia).
    destruct (IH (carry s (ztake 15 l)) (zdrop 15 l) c' r') as (I1 & I2 & I3 & I4 & I5 & I6 & I7); [|done|].
    { unfold zlen in El. lia. }
    rewrite zlen_cons, zlen_app, Et. replace (zlen l =? 0) with false by lia.
    replace (zlen (zdrop 15 l) =? 0) with false in I4 by lia.
    split_and!; try lia.
    rewrite <- carry_app, ztake_zdrop in I3.
    rewrite <- (ztake_zdrop 15 l) at 2. rewrite <- app_assoc.
    apply (rle_app s (ctl 0 15 :: ztake 15 l) (ztake 15 l) (carry s (ztake 15 l))); [|done].
    pose proof (rle_one s (ctl 0 15) (ztake 15 l) 0) as Ho. rewrite zrepeat_0, app_nil_r in Ho.
    apply Ho; [by apply ctl_byte|by rewrite Et|lia].
Qed.

Lemma two_code_codes s raws run : codable run ->
  rle_codes s (two_code raws run) (raws ++ zrepeat run (carry s raws)) (carry s raws)
  /\ 15 * zlen (two_code raws run) <= 16 * (zlen raws + run) + (if run =? 0 then 14 else 0)
  /\ (0 < zlen raws + run -> 0 < zlen (two_code raws run)).
Proof.
  intros Hc. unfold two_code. destruct (raw_code (length raws) raws run) as [c r] eqn:E.
  destruct (raw_code_codes _ s _ _ _ _ Hc (le_n _) E) as (H1 & H2 & H3 & H4 & H5 & H6 & H7).
  destruct (run_code_codes (Z.to_nat r) (carry s raws) r H1 (le_n _)) as (R1 & R2 & R3).
  pose proof (zlen_nonneg raws). pose proof (zlen_nonneg (run_code (Z.to_nat r) r)).
  rewrite zlen_app. unfold codable in *. split_and!.
  - replace run with (run - r + r) at 1 by lia. rewrite zrepeat_add, app_assoc by lia.
    by apply (rle_app s c _ (carry s raws)).
  - revert H4. repeat zcase; lia.
  - lia.
Qed.

(** A segment stands for its bytes, in at most a sixteenth more room, but for a start. *)
Lemma seg_code_codes s0 raws run s : carry s0 raws = s -> 0 <= run ->
  rle_codes s0 (seg_code raws run s) (raws ++ zrepeat run s) s
  /\ 15 * zlen (seg_code raws run s) <= 16 * (zlen raws + run) + (if run <? 3 then 14 else 0)
  /\ (0 < zlen raws + run -> 0 < zlen (seg_code raws run s)).
Proof.
  intros Hs Hr. unfold seg_code. destruct (Z.ltb_spec run 3).
  - destruct (two_code_codes s0 (raws ++ zrepeat run s) 0) as (H1 & H2 & H3); [by left|].
    rewrite zrepeat_0, app_nil_r, carry_app, Hs, carry_repeat in H1 by done.
    rewrite zlen_app, zlen_zrepeat in H2, H3 by done. split_and!; [done|simpl in H2; lia|lia].
  - destruct (two_code_codes s0 raws run) as (H1 & H2 & H3); [by right|].
    rewrite Hs in H1. replace (run =? 0) with false in H2 by lia. done.
Qed.

Lemma row_loop_codes s0 s pend run line : carry s0 pend = s -> 0 <= run ->
  rle_codes s0 (row_loop s pend run line) (pend ++ zrepeat run s ++ line) (carry s line)
  /\ 15 * zlen (row_loop s pend run line) <= 16 * (zlen pend + run + zlen line) + 14
  /\ (0 < zlen pend + run + zlen line -> 0 < zlen (row_loop s pend run line)).
Proof.
  revert s0 s pend run. induction line as [|b line IH]; intros s0 s pend run Hs Hr.
  { destruct (seg_code_codes s0 pend run s Hs Hr) as (H1 & H2 & H3).
    rewrite app_nil_r. change (zlen (@nil Z)) with 0. simpl.
    split_and!; [done|revert H2; zcase; lia|rewrite Z.add_0_r; done]. }
  cbn [row_loop]. rewrite zlen_cons. change (carry s (b :: line)) with (carry s ([b] ++ line)).
  rewrite carry_app. change (carry s [b]) with b.
  destruct (Z.eqb_spec s b) as [<-|Hne].
  - destruct (IH s0 s pend (run + 1)) as (H1 & H2 & H3); [done|lia|].
    split_and!; [|lia|intros; apply H3; lia].
    rewrite zrepeat_add, <- app_assoc in H1 by lia. exact H1.
  - destruct (Z.ltb_spec run 3).
    + destruct (IH s0 b (pend ++ zrepeat run s ++ [b]) 0) as (H1 & H2 & H3); [|lia|].
      { by rewrite app_assoc, carry_app. }
      rewrite !zlen_app, zlen_zrepeat in H2, H3 by lia. change (zlen [b]) with 1 in *.
      split_and!; [|lia|intros; apply H3; lia].
      rewrite zrepeat_0 in H1. by rewrite <- !app_assoc in H1.
    + destruct (seg_code_codes s0 pend run s Hs Hr) as (G1 & G2 & G3).
      destruct (IH s b [b] 0) as (H1 & H2 & H3); [done|lia|].
      change (zlen [b]) with 1 in *. rewrite zlen_app.
      pose proof (zlen_nonneg (row_loop b [b] 0 line)). replace (run <? 3) with false in G2 by lia.
      split_and!; [|lia|pose proof (zlen_nonneg pend); lia].
      rewrite zrepeat_0 in H1. rewrite app_assoc. by apply (rle_app s0 _ _ s).
Qed.

(** The code of a row stands for it. *)
Lemma row_code_codes line : rle_codes 0 (row_code line) line (carry 0 line).
Proof.
  destruct (row_loop_codes 0 0 [] 0 line) as (H1 & _); [done|lia|].
  by rewrite zrepeat_0 in H1.
Qed.

(** It is at most a fifteenth longer. *)
Lemma row_code_len line : 15 * zlen (row_code line) <= 16 * zlen line + 14.
Proof. destruct (row_loop_codes 0 0 [] 0 line) as (_ & H2 & _); [done|lia|]. exact H2. Qed.

Lemma row_code_pos line : 0 < zlen line -> 0 < zlen (row_code line).
Proof.
  destruct (row_loop_codes 0 0 [] 0 line) as (_ & _ & H3); [done|lia|]. intros. apply H3.
  change (zlen (@nil Z)) with 0. lia.
Qed.

(** ** The encoder writes that code *)

(** [code] is written where there is room for it; otherwise only the block's contents change. *)
Definition wrote {A} (res : outcome (list Z) A) (pOut room : Z) (code : list Z) (done_ none : A)
    (mem : list Z) : Prop :=
  if zlen code <=? room then res = Ret done_ (blit pOut code mem)
  else exists mem', res = Ret none mem' /\ zlen mem' = zlen mem.

Lemma wrote_fail {A} (res : outcome (list Z) A) pOut room code d n mem mem' :
  room < zlen code -> res = Ret n mem' -> zlen mem' = zlen mem -> wrote res pOut room code d n mem.
Proof. intros. unfold wrote. replace (zlen code <=? room) with false by lia. eauto. Qed.

Lemma wrote_ok {A} (res : outcome (list Z) A) pOut room code d n mem :
  zlen code <= room -> res = Ret d (blit pOut code mem) -> wrote res pOut room code d n mem.
Proof. intros. unfold wrote. replace (zlen code <=? room) with true by lia. done. Qed.

(** What follows a first part that was written. *)
Lemma wrote_app {A} (res : outcome (list Z) A) pOut room c1 c2 d n mem :
  0 <= pOut -> pOut + room <= zlen mem -> zlen c1 <= room ->
  wrote res (pOut + zlen c1) (room - zlen c1) c2 d n (blit pOut c1 mem) ->
  wrote res pOut room (c1 ++ c2) d n mem.
Proof.
  intros Hp Hm Hr Hw. pose proof (zlen_nonneg c1). pose proof (zlen_nonneg c2).
  unfold wrote in *. rewrite zlen_app.
  destruct (Z.leb_spec (zlen c2) (room - zlen c1)).
  - replace (zlen c1 + zlen c2 <=? room) with true by lia. rewrite blit_blit in Hw by lia. done.
  - replace (zlen c1 + zlen c2 <=? room) with false by lia.
    destruct Hw as (mem' & He & Hl). exists mem'. split; [done|]. rewrite Hl. apply zlen_blit; lia.
Qed.

Lemma write_run_exact fuel run pOut room mem :
  0 <= run -> (Z.to_nat run <= fuel)%nat -> 0 <= pOut -> 0 <= room -> pOut + room <= zlen mem ->
  wrote (write_run fuel run pOut room mem) pOut room (run_code fuel run)
    (Some (pOut + zlen (run_code fuel run))) None mem.
Proof.
  revert run pOut room mem. induction fuel as [|fuel IH]; intros run pOut room mem Hr Hf Hp Hroom Hm.
  { assert (run = 0) as -> by lia. apply wrote_ok; [done|]. simpl.
    change (zlen (@nil Z)) with 0. by rewrite Z.add_0_r, blit_nil by lia. }
  cbn [write_run run_code]. destruct (Z.eqb_spec run 0) as [->|Hne].
  { apply wrote_ok; [done|]. change (zlen (@nil Z)) with 0. by rewrite Z.add_0_r, blit_nil by lia. }
  (* one control byte, then the rest *)
  assert (forall c run' m, m mem = Ret (c, run') mem -> 0 <= run' < run ->
    wrote ((m ≫= (fun x => let '(controlByte, nRunLength) := x in
             if room <? 1 then mret None
             else store pOut [controlByte];; write_run fuel nRunLength (pOut + 1) (room - 1))) mem)
      pOut room (c :: run_code fuel run') (Some (pOut + zlen (c :: run_code fuel run'))) None mem) as Hone.
  { intros c run' m Em Hr'. rewrite (bind_ret_eq _ _ _ _ _ Em).
    pose proof (zlen_nonneg (run_code fuel run')).
    destruct (Z.ltb_spec room 1).
    - apply (wrote_fail _ _ _ _ _ _ _ mem); [rewrite zlen_cons; lia|done|done].
    - rewrite (bind_ret_eq _ _ _ tt (blit pOut [c] mem)) by (apply store_blit; [lia|change (zlen [c]) with 1; lia]).
      apply (wrote_app _ _ _ [c]); [lia|lia|change (zlen [c]) with 1; lia|].
      change (zlen [c]) with 1. replace (zlen (c :: run_code fuel run')) with (1 + zlen (run_code fuel run'))
        by (rewrite zlen_cons; lia). rewrite Z.add_assoc. apply IH; [lia|lia|lia|lia|].
      rewrite zlen_blit; [lia|lia|change (zlen [c]) with 1; lia]. }
  assert (forall c, [c] = c :: run_code fuel 0) as Ec by (intros; by destruct fuel).
  destruct (Z.ltb_spec 47 run); [destruct (Z.ltb_spec run 50)|].
  - apply Hone; [|lia]. by rewrite (bind_ret_eq _ _ _ _ _ (ctl_ok 2 13 mem ltac:(lia) ltac:(lia))).
  - apply Hone; [|lia]. by rewrite (bind_ret_eq _ _ _ _ _ (ctl_ok 2 15 mem ltac:(lia) ltac:(lia))).
  - destruct (Z.ltb_spec 31 run); [|destruct (Z.ltb_spec 15 run)]; rewrite Ec; apply Hone; try lia.
    + by rewrite (bind_ret_eq _ _ _ _ _ (ctl_ok 2 (run - 32) mem ltac:(lia) ltac:(lia))).
    + by rewrite (bind_ret_eq _ _ _ _ _ (ctl_ok 1 (run - 16) mem ltac:(lia) ltac:(lia))).
    + by rewrite (bind_ret_eq _ _ _ _ _ (ctl_ok run 0 mem ltac:(lia) ltac:(lia))).
Qed.

(** One control byte with its raw bytes, then the rest. *)
Lemma write_raw_step fuel inp pIn k r run' cRaw' pOut room mem code d :
  0 <= r < 16 -> 0 < k < 16 -> 0 <= pIn -> pIn + k <= zlen inp -> 0 <= pOut -> 0 <= room ->
  pOut + room <= zlen mem ->
  (1 + k <= room ->
   wrote (write_raw fuel inp (pIn + k) cRaw' run' (pOut + (1 + k)) (room - (1 + k))
            (blit pOut (ctl r k :: slice pIn k inp) mem))
     (pOut + (1 + k)) (room - (1 + k)) code d None (blit pOut (ctl r k :: slice pIn k inp) mem)) ->
  forall m, m mem = Ret (ctl r k, run', cRaw') mem ->
  wrote ((m ≫= (fun x => let '(controlByte, nRunLength, cRawBytes) := x in
           if room <? 1 then mret None
           else
             let outBufferSize := room - 1 in
             store pOut [controlByte];;
             let pOutput := pOut + 1 in
             let nBytesToWrite := Z.shiftr controlByte 4 in
             if negb (nBytesToWrite =? 0) then
               if outBufferSize <? nBytesToWrite then mret None
               else
                 bs ← copy_from pIn nBytesToWrite inp;
                 store pOutput bs;;
                 write_raw fuel inp (pIn + nBytesToWrite) cRawBytes nRunLength
                   (pOutput + nBytesToWrite) (outBufferSize - nBytesToWrite)
             else write_raw fuel inp pIn cRawBytes nRunLength pOutput outBufferSize)) mem)
    pOut room ((ctl r k :: slice pIn k inp) ++ code) d None mem.
Proof.
  intros Hr Hk Hi Hi' Hp Hroom Hm Hrest m Em. rewrite (bind_ret_eq _ _ _ _ _ Em).
  pose proof (zlen_nonneg code).
  assert (zlen (slice pIn k inp) = k) as Es by (apply zlen_slice; lia).
  assert (zlen (ctl r k :: slice pIn k inp) = 1 + k) as Ec by (rewrite zlen_cons; lia).
  rewrite ctl_shift by lia. cbv zeta. replace (k =? 0) with false by lia. cbn [negb].
  destruct (Z.ltb_spec room 1).
  { apply (wrote_fail _ _ _ _ _ _ _ mem); [rewrite zlen_app; lia|done|done]. }
  rewrite (bind_ret_eq _ _ _ tt (blit pOut [ctl r k] mem))
    by (apply store_blit; [lia|change (zlen [ctl r k]) with 1; lia]).
  assert (zlen (blit pOut [ctl r k] mem) = zlen mem) as Eb
    by (apply zlen_blit; [lia|change (zlen [ctl r k]) with 1; lia]).
  destruct (Z.ltb_spec (room - 1) k).
  { apply (wrote_fail _ _ _ _ _ _ _ (blit pOut [ctl r k] mem)); [rewrite zlen_app; lia|done|done]. }
  rewrite (bind_ret_eq _ _ _ (slice pIn k inp) (blit pOut [ctl r k] mem)) by (apply copy_from_ok; lia).
  rewrite (bind_ret_eq _ _ _ tt (blit pOut (ctl r k :: slice pIn k inp) mem)).
  - apply wrote_app; [lia|lia|lia|]. rewrite Ec.
    replace (pOut + 1 + k) with (pOut + (1 + k)) by lia.
    replace (room - 1 - k) with (room - (1 + k)) by lia. apply Hrest. lia.
  - rewrite store_blit by lia. f_equal.
    change (pOut + 1) with (pOut + zlen [ctl r k]).
    rewrite (blit_blit pOut [ctl r k]); [done|lia|]. change (zlen [ctl r k]) with 1. lia.
Qed.

Lemma slice_zdrop k i n (l : list Z) : 0 <= i -> 0 <= k <= n -> i + n <= zlen l ->
  zdrop k (slice i n l) = slice (i + k) (n - k) l.
Proof.
  intros. unfold slice. rewrite zdrop_ztake, zdrop_zdrop by lia. done.
Qed.

Lemma write_raw_exact fuel inp pIn raws run pOut room mem c r :
  raws = slice pIn (zlen raws) inp -> 0 <= pIn -> pIn + zlen raws <= zlen inp ->
  0 <= run -> (length raws <= fuel)%nat -> 0 <= pOut -> 0 <= room -> pOut + room <= zlen mem ->
  raw_code fuel raws run = (c, r) ->
  wrote (write_raw fuel inp pIn (zlen raws) run pOut room mem) pOut room c
    (Some (r, pOut + zlen c, room - zlen c)) None mem.
Proof.
  revert pIn raws run pOut room mem c r. induction fuel as [|fuel IH];
    intros pIn raws run pOut room mem c r Hraws Hi Hi' Hr Hf Hp Hroom Hm He.
  { destruct raws; [|simpl in Hf; lia]. injection He as <- <-. apply wrote_ok; [done|]. simpl.
    change (zlen (@nil Z)) with 0. by rewrite Z.add_0_r, Z.sub_0_r, blit_nil by lia. }
  destruct raws as [|x raws].
  { injection He as <- <-. apply wrote_ok; [done|]. simpl.
    change (zlen (@nil Z)) with 0. by rewrite Z.add_0_r, Z.sub_0_r, blit_nil by lia. }
  assert (0 < zlen (x :: raws)) as Hpos by (rewrite zlen_cons; pose proof (zlen_nonneg raws); lia).
  cbn [raw_code write_raw] in *. set (l := x :: raws) in *. clearbody l.
  replace (zlen l =? 0) with false by lia.
  destruct (Z.ltb_spec (zlen l) 16) as [Hlt|Hge].
  - set (k := if 15 <? run then if run <? 18 then 13 else 15 else run) in *. injection He as <- <-.
    assert (0 <= k < 16 /\ k <= run) as [Hk Hk'] by (unfold k; repeat zcase; lia).
    assert (ctl k (zlen l) :: l = (ctl k (zlen l) :: slice pIn (zlen l) inp) ++ []) as Ecode
      by by rewrite app_nil_r, <- Hraws.
    rewrite Ecode. apply (write_raw_step fuel inp pIn (zlen l) k (run - k) 0); [lia..| |].
    + intros Hroom'. rewrite app_nil_r, <- Hraws, zlen_cons.
      rewrite (Z.add_comm (zlen l)). apply wrote_ok; [change (zlen (@nil Z)) with 0; lia|].
      assert (zlen (blit pOut (ctl k (zlen l) :: l) mem) = zlen mem) as Eb
        by (apply zlen_blit; rewrite ?zlen_cons; lia).
      destruct fuel; rewrite blit_nil by lia; done.
    + unfold k. repeat zcase; (erewrite bind_ret_eq; [|apply ctl_ok; lia]); rewrite ?Z.sub_diag; done.
  - destruct (raw_code fuel (zdrop 15 l) run) as [c' r'] eqn:E. injection He as <- <-.
    assert (zlen (zdrop 15 l) = zlen l - 15) as El by (apply zlen_zdrop; lia).
    assert (slice pIn 15 inp = ztake 15 l) as Et.
    { rewrite Hraws. unfold slice. rewrite ztake_ztake by lia. f_equal. lia. }
    assert (zlen (ztake 15 l) = 15) as Et' by (apply zlen_ztake; lia).
    rewrite app_comm_cons, <- Et.
    apply (write_raw_step fuel inp pIn 15 0 run (zlen l - 15)); [lia..| |].
    + intros Hroom'. rewrite Et. rewrite zlen_app, zlen_cons, Et'. rewrite <- El.
      assert (zlen (blit pOut (ctl 0 15 :: ztake 15 l) mem) = zlen mem) as Eb
        by (apply zlen_blit; rewrite ?zlen_cons; lia).
      replace (pOut + (15 + 1 + zlen c')) with (pOut + (1 + 15) + zlen c') by lia.
      replace (room - (15 + 1 + zlen c')) with (room - (1 + 15) - zlen c') by lia.
      apply IH; try lia; [|unfold zlen in El; lia|done].
      rewrite El. rewrite Hraws at 1. by rewrite slice_zdrop by lia.
    + by rewrite (bind_ret_eq _ _ _ _ _ (ctl_ok 0 15 mem ltac:(lia) ltac:(lia))).
Qed.

(** The part of [freerdp_bitmap_planar_write_rle_bytes] behind the choice of raw bytes and run. *)
Lemma write_two_exact inp pIn raws run pOut room mem :
  raws = slice pIn (zlen raws) inp -> 0 <= pIn -> pIn + zlen raws <= zlen inp -> codable run ->
  0 <= pOut -> 0 <= room <= UINT32_MAX -> pOut + room <= zlen mem ->
  wrote ((r ← write_raw (Z.to_nat (zlen raws)) inp pIn (zlen raws) run pOut room;
          match r with
          | None => mret 0
          | Some (nRunLength, pOutput, outBufferSize) =>
              r ← write_run (Z.to_nat nRunLength) nRunLength pOutput outBufferSize;
              match r with
              | None => mret 0
              | Some pOutput =>
                  let diff := pOutput - pOut in
                  if (diff <? 0) || (UINT32_MAX <? diff) then mret 0 else mret diff
              end
          end) mem) pOut room (two_code raws run) (zlen (two_code raws run)) 0 mem.
Proof.
  intros Hraws Hi Hi' Hc Hp Hroom Hm. unfold two_code.
  replace (Z.to_nat (zlen raws)) with (length raws) by (unfold zlen; lia).
  destruct (raw_code (length raws) raws run) as [c r] eqn:E.
  destruct (raw_code_codes _ 0 _ _ _ _ Hc (le_n _) E) as (Hr & Hr' & _).
  assert (0 <= r /\ 0 <= run) as [? ?] by (unfold codable in *; lia).
  pose proof (write_raw_exact (length raws) inp pIn raws run pOut room mem c r) as Hw.
  specialize (Hw Hraws Hi Hi' ltac:(lia) (le_n _) Hp ltac:(lia) Hm E).
  pose proof (zlen_nonneg c). set (c2 := run_code (Z.to_nat r) r). pose proof (zlen_nonneg c2).
  unfold wrote in Hw. destruct (Z.leb_spec (zlen c) room) as [Hfit|Hfit].
  - rewrite (bind_ret_eq _ _ _ _ _ Hw). apply wrote_app; [lia..|].
    assert (zlen (blit pOut c mem) = zlen mem) as Eb by (apply zlen_blit; lia).
    pose proof (write_run_exact (Z.to_nat r) r (pOut + zlen c) (room - zlen c) (blit pOut c mem)) as Hw2.
    specialize (Hw2 ltac:(lia) (le_n _) ltac:(lia) ltac:(lia) ltac:(lia)). fold c2 in Hw2.
    unfold wrote in Hw2. destruct (Z.leb_spec (zlen c2) (room - zlen c)).
    + rewrite (bind_ret_eq _ _ _ _ _ Hw2). cbv zeta.
      replace (pOut + zlen c + zlen c2 - pOut) with (zlen c + zlen c2) by lia.
      replace ((zlen c + zlen c2 <? 0) || (UINT32_MAX <? zlen c + zlen c2)) with false by lia.
      rewrite zlen_app. by apply wrote_ok.
    + destruct Hw2 as (mem' & Hw2 & Hl). rewrite (bind_ret_eq _ _ _ _ _ Hw2).
      by apply (wrote_fail _ _ _ _ _ _ _ mem').
  - destruct Hw as (mem' & Hw & Hl). rewrite (bind_ret_eq _ _ _ _ _ Hw).
    apply (wrote_fail _ _ _ _ _ _ _ mem'); [rewrite zlen_app; lia|done|done].
Qed.

Lemma write_rle_exact inp pIn raws run s pOut room mem :
  slice pIn (zlen raws + run) inp = raws ++ zrepeat run s -> 0 <= pIn ->
  pIn + zlen raws + run <= zlen inp -> 0 <= run -> 0 < zlen raws + run <= UINT32_MAX ->
  0 <= pOut -> 0 <= room <= UINT32_MAX -> pOut + room <= zlen mem ->
  wrote (freerdp_bitmap_planar_write_rle_bytes inp pIn (zlen raws) run pOut room mem) pOut room
    (seg_code raws run s) (zlen (seg_code raws run s)) 0 mem.
Proof.
  intros Hs Hi Hi' Hr Hpos Hp Hroom Hm. pose proof (zlen_nonneg raws).
  unfold freerdp_bitmap_planar_write_rle_bytes, seg_code.
  replace ((zlen raws =? 0) && (run =? 0)) with false by lia.
  destruct (Z.ltb_spec run 3).
  - assert (u32 (zlen raws + run) = zlen (raws ++ zrepeat run s)) as ->
      by (rewrite zlen_app, zlen_zrepeat by lia; word_lia).
    apply write_two_exact; try done; try lia; [| |by left];
      rewrite zlen_app, zlen_zrepeat by lia; [by rewrite Hs|lia].
  - apply write_two_exact; try done; try lia; [|by right].
    transitivity (ztake (zlen raws) (slice pIn (zlen raws + run) inp)).
    + by rewrite Hs, ztake_app_le, ztake_all by lia.
    + unfold slice. rewrite ztake_ztake by lia. f_equal. lia.
Qed.

(** What [freerdp_bitmap_planar_encode_rle_bytes] does behind its loop. *)
Definition encode_tail (inp : list Z) (r : option encoder) : M (list Z) Z :=
  match r with
  | None => mret 0
  | Some e =>
      t ← (if negb (e_raw e =? 0) || negb (e_run e =? 0) then
             n ← freerdp_bitmap_planar_write_rle_bytes inp (e_input e - (e_raw e + e_run e))
                   (e_raw e) (e_run e) (e_output e) (e_room e);
             mret (if n =? 0 then None else Some (u32 (e_total e + n)))
           else mret (Some (e_total e)));
      match t with
      | None => mret 0
      | Some total => mret (if negb (Z.of_nat (e_left e) =? 0) then 0 else total)
      end
  end.

Lemma slice_cons_inv i n b rest (l : list Z) : 0 <= i -> slice i n l = b :: rest ->
  l !! Z.to_nat i = Some b /\ slice (i + 1) (n - 1) l = rest.
Proof.
  unfold slice, ztake, zdrop. intros Hi Hs.
  destruct (Z.to_nat n) as [|m] eqn:En; [done|].
  destruct (drop (Z.to_nat i) l) as [|x t] eqn:Ed; [done|]. injection Hs as -> <-.
  split.
  - by rewrite <- (Nat.add_0_r (Z.to_nat i)), <- lookup_drop, Ed.
  - replace (Z.to_nat (n - 1)) with m by lia. replace (Z.to_nat (i + 1)) with (Z.to_nat i + 1)%nat by lia.
    by rewrite <- drop_drop, Ed.
Qed.

Lemma slice_snoc i n b (l : list Z) : 0 <= i -> 0 <= n -> l !! Z.to_nat (i + n) = Some b ->
  slice i (n + 1) l = slice i n l ++ [b].
Proof.
  intros Hi Hn Hb. unfold slice, ztake, zdrop. rewrite Z2Nat.inj_add by lia.
  rewrite <- take_take_drop. f_equal. change (Z.to_nat 1) with 1%nat.
  rewrite drop_drop, <- Z2Nat.inj_add by lia.
  by rewrite (drop_S _ b) by done.
Qed.

(** What is pending, written behind the loop. *)
Lemma encode_tail_exact inp left s0 s pend run pIn pOut room total mem :
  carry s0 pend = s -> slice (pIn - (zlen pend + run)) (zlen pend + run) inp = pend ++ zrepeat run s ->
  0 <= pIn - (zlen pend + run) -> pIn <= zlen inp -> 0 <= run -> zlen pend + run <= UINT32_MAX ->
  0 <= pOut -> 0 <= room -> 0 <= total -> total + room <= UINT32_MAX -> pOut + room <= zlen mem ->
  (left <> O -> room = 0 /\ 0 < zlen pend + run) ->
  wrote (encode_tail inp (Some (mkEncoder s pIn left (zlen pend) run pOut room total)) mem) pOut room
    (seg_code pend run s) (total + zlen (seg_code pend run s)) 0 mem.
Proof.
  intros Hcar Hs Hi Hi' Hr Hlen Hp Hroom Ht Hsum Hm Hleft. pose proof (zlen_nonneg pend).
  destruct (seg_code_codes s0 pend run s Hcar Hr) as (_ & _ & Hpos).
  unfold encode_tail. cbn [e_raw e_run e_input e_output e_room e_total e_left].
  destruct (Z.eq_dec (zlen pend + run) 0) as [E0|Hne].
  - assert (run = 0) as -> by lia.
    assert (pend = []) as -> by (apply zlen_zero_inv; lia). cbn [negb orb Z.eqb].
    destruct left; [|destruct Hleft; lia]. simpl. apply wrote_ok; [done|].
    change (seg_code [] 0 s) with (@nil Z). rewrite blit_nil by lia.
    change (zlen (@nil Z)) with 0. by rewrite Z.add_0_r.
  - replace (negb (zlen pend =? 0) || negb (run =? 0)) with true by lia.
    pose proof (write_rle_exact inp (pIn - (zlen pend + run)) pend run s pOut room mem) as Hw.
    specialize (Hw Hs ltac:(lia) ltac:(lia) Hr ltac:(lia) Hp ltac:(lia) Hm).
    unfold wrote in Hw. destruct (Z.leb_spec (zlen (seg_code pend run s)) room).
    + rewrite (bind_ret_eq _ _ _ (Some (u32 (total + zlen (seg_code pend run s))))
                 (blit pOut (seg_code pend run s) mem)).
      * destruct left; [|destruct Hleft; lia]. apply wrote_ok; [done|].
        cbn [negb]. change (Z.of_nat 0 =? 0) with true. cbn [negb].
        replace (u32 (total + zlen (seg_code pend run s))) with (total + zlen (seg_code pend run s))
          by (specialize (Hpos ltac:(lia)); word_lia). done.
      * rewrite (bind_ret_eq _ _ _ _ _ Hw). specialize (Hpos ltac:(lia)).
        by replace (zlen (seg_code pend run s) =? 0) with false by lia.
    + destruct Hw as (mem' & Hw & Hl).
      rewrite (bind_ret_eq _ _ _ None mem'); [by apply (wrote_fail _ _ _ _ _ _ _ mem')|].
      by rewrite (bind_ret_eq _ _ _ _ _ Hw).
Qed.

(** A short run joins the raw bytes. *)
Lemma merge_run {A S} a run x y z (k : option (Z * Z * Z * Z * Z) -> M S A) s :
  ((if negb (run =? 0) then mret (Some (a + run, 0, x, y, z)) else mret (Some (a, run, x, y, z))) ≫= k) s
  = k (Some (a + run, 0, x, y, z)) s.
Proof. destruct (Z.eqb_spec run 0) as [->|]; [|done]. by rewrite Z.add_0_r. Qed.

Lemma encode_loop_exact inp line s0 s pend run pIn pOut room total mem :
  carry s0 pend = s -> slice (pIn - (zlen pend + run)) (zlen pend + run) inp = pend ++ zrepeat run s ->
  slice pIn (zlen line) inp = line -> 0 <= pIn - (zlen pend + run) -> pIn + zlen line <= zlen inp ->
  0 <= run -> zlen pend + run + zlen line <= UINT32_MAX ->
  0 <= pOut -> 0 < room -> 0 <= total -> total + room <= UINT32_MAX -> pOut + room <= zlen mem ->
  wrote ((encode_loop inp (length line) s pIn (zlen pend) run pOut room total ≫= encode_tail inp) mem)
    pOut room (row_loop s pend run line) (total + zlen (row_loop s pend run line)) 0 mem.
Proof.
  revert s0 s pend run pIn pOut room total mem. induction line as [|b rest IH];
    intros s0 s pend run pIn pOut room total mem Hcar Hs Hline Hi Hi' Hr Hlen Hp Hroom Ht Hsum Hm.
  { change (zlen (@nil Z)) with 0 in *. apply (encode_tail_exact inp O s0); (done || lia). }
  rewrite zlen_cons in *. pose proof (zlen_nonneg rest). pose proof (zlen_nonneg pend).
  destruct (slice_cons_inv pIn (zlen rest + 1) b rest inp ltac:(lia) Hline) as [Hb Hrest].
  replace (zlen rest + 1 - 1) with (zlen rest) in Hrest by lia.
  assert (slice (pIn + 1 - (zlen pend + run + 1)) (zlen pend + run + 1) inp = pend ++ zrepeat run s ++ [b]) as Hext.
  { replace (pIn + 1 - (zlen pend + run + 1)) with (pIn - (zlen pend + run)) by lia.
    rewrite (slice_snoc _ _ b) by (lia || by replace (pIn - (zlen pend + run) + (zlen pend + run)) with pIn by lia).
    by rewrite Hs, app_assoc. }
  cbn [length encode_loop row_loop]. rewrite bind_assoc.
  rewrite (bind_ret_eq _ _ _ b mem) by (apply byte_at_ok; [lia|done]). cbv zeta.
  destruct (Z.eqb_spec s b) as [<-|Hne]; cbn [negb].
  - rewrite andb_false_r, bind_assoc, ret_bind. replace (room =? 0) with false by lia.
    replace (u32 (run + 1)) with (run + 1) by word_lia.
    replace (u32 (zlen pend + 0)) with (zlen pend) by word_lia.
    apply (IH s0); try done; try lia.
    rewrite zrepeat_add by lia. change (zrepeat 1 s) with [s]. rewrite <- Hext. f_equal; lia.
  - rewrite andb_true_r. destruct (Z.ltb_spec run 3) as [H3|H3].
    + rewrite bind_assoc, merge_run. replace (room =? 0) with false by lia.
      change (u32 (0 + 0)) with 0. replace (u32 (zlen pend + run + 1)) with (zlen (pend ++ zrepeat run s ++ [b])).
      * apply (IH s0); try done; try lia; rewrite ?zlen_app, ?zlen_zrepeat by lia; change (zlen [b]) with 1; try lia.
        -- by rewrite app_assoc, carry_app.
        -- rewrite zrepeat_0, app_nil_r, <- Hext. f_equal; lia.
      * rewrite !zlen_app, zlen_zrepeat by lia. change (zlen [b]) with 1. word_lia.
    + replace (run =? 0) with false by lia. cbn [negb]. rewrite !bind_assoc.
      destruct (seg_code_codes s0 pend run s Hcar Hr) as (_ & _ & Hpos). specialize (Hpos ltac:(lia)).
      set (c1 := seg_code pend run s) in *.
      pose proof (write_rle_exact inp (pIn + 1 - (zlen pend + run + 1)) pend run s pOut room mem) as Hw.
      replace (pIn + 1 - (zlen pend + run + 1)) with (pIn - (zlen pend + run)) in * by lia.
      specialize (Hw Hs ltac:(lia) ltac:(lia) Hr ltac:(lia) Hp ltac:(lia) Hm). fold c1 in Hw.
      destruct (row_loop_codes s b [b] 0 rest) as (_ & _ & Hpos2); [done|lia|].
      change (zlen [b]) with 1 in Hpos2. specialize (Hpos2 ltac:(lia)).
      unfold wrote in Hw. destruct (Z.leb_spec (zlen c1) room) as [Hfit|Hfit].
      * rewrite (bind_ret_eq _ _ _ _ _ Hw). replace ((zlen c1 =? 0) || (room <? zlen c1)) with false by lia.
        rewrite ret_bind. change (u32 (0 + 0)) with 0. change (u32 (0 + 1)) with (zlen [b]).
        replace (u32 (total + zlen c1)) with (total + zlen c1) by word_lia.
        assert (zlen (blit pOut c1 mem) = zlen mem) as Eb by (apply zlen_blit; lia).
        apply wrote_app; [lia..|].
        replace (total + zlen (c1 ++ row_loop b [b] 0 rest))
          with (total + zlen c1 + zlen (row_loop b [b] 0 rest)) by (rewrite zlen_app; lia).
        assert (slice (pIn + 1 - (zlen [b] + 0)) (zlen [b] + 0) inp = [b] ++ zrepeat 0 b) as Hone.
        { change (zlen [b]) with 1. replace (pIn + 1 - (1 + 0)) with pIn by lia.
          rewrite (slice_snoc pIn 0 b) by (rewrite ?Z.add_0_r; (lia || done)). by rewrite slice_zero. }
        destruct (Z.eqb_spec (room - zlen c1) 0) as [E0|E0].
        -- rewrite ret_bind, E0.
           pose proof (encode_tail_exact inp (length rest) b b [b] 0 (pIn + 1) (pOut + zlen c1) 0
                         (total + zlen c1) (blit pOut c1 mem)) as Hend.
           specialize (Hend ltac:(done) Hone). change (zlen [b]) with 1 in *.
           specialize (Hend ltac:(lia) ltac:(lia) ltac:(lia) ltac:(lia) ltac:(lia) ltac:(lia)
             ltac:(lia) ltac:(lia) ltac:(lia) ltac:(lia)).
           unfold wrote in *. destruct (seg_code_codes b [b] 0 b) as (_ & _ & Hp1); [done|lia|].
           change (zlen [b]) with 1 in Hp1. specialize (Hp1 ltac:(lia)).
           replace (zlen (seg_code [b] 0 b) <=? 0) with false in Hend by lia.
           replace (zlen (row_loop b [b] 0 rest) <=? 0) with false by lia. exact Hend.
        -- apply (IH b); try done; change (zlen [b]) with 1; lia.
      * destruct Hw as (mem' & Hw & Hl). rewrite (bind_ret_eq _ _ _ _ _ Hw).
        apply (wrote_fail _ _ _ _ _ _ _ mem'); [rewrite zlen_app; lia|done|done].
Qed.

Lemma encode_row_exact inp line pIn pOut room mem :
  slice pIn (zlen line) inp = line -> 0 <= pIn -> pIn + zlen line <= zlen inp -> zlen line <= UINT32_MAX ->
  0 <= pOut -> 0 < room <= UINT32_MAX -> pOut + room <= zlen mem ->
  wrote (freerdp_bitmap_planar_encode_rle_bytes inp pIn (zlen line) pOut room mem) pOut room
    (row_code line) (zlen (row_code line)) 0 mem.
Proof.
  intros Hl Hi Hi' Hlen Hp Hroom Hm. pose proof (zlen_nonneg line).
  unfold freerdp_bitmap_planar_encode_rle_bytes. replace (room =? 0) with false by lia.
  pose proof (encode_loop_exact inp line 0 0 [] 0 pIn pOut room 0 mem) as He.
  change (zlen (@nil Z)) with 0 in He. rewrite Z.add_0_l in He.
  replace (Z.to_nat (zlen line)) with (length line) by (unfold zlen; lia).
  apply He; try done; try lia.
Qed.

Definition plane_code (lines : list (list Z)) : list Z := mjoin (map row_code lines).

Lemma plane_code_cons l ls : plane_code (l :: ls) = row_code l ++ plane_code ls.
Proof. done. Qed.

(** The rows of a plane in its block. *)
Fixpoint rows_at (inp : list Z) (p w : Z) (lines : list (list Z)) : Prop :=
  match lines with
  | [] => True
  | l :: ls => zlen l = w /\ slice p w inp = l /\ 0 <= p /\ p + w <= zlen inp /\ rows_at inp (p + w) w ls
  end.

(** All rows are coded when there is room for them; when there is not, the plane is refused or
    the room is used up. *)
Definition coded (res : outcome (list Z) (option Z)) (pOut room : Z) (code : list Z) (total : Z)
    (mem : list Z) : Prop :=
  (zlen code <= room /\ res = Ret (Some (total + zlen code)) (blit pOut code mem))
  \/ (room < zlen code /\ exists mem', zlen mem' = zlen mem
      /\ (res = Ret None mem' \/ res = Ret (Some (total + room)) mem')).

Lemma compress_rows_exact fuel inp lines w h index pIn pOut room total mem :
  lines <> [] -> h - index = zlen lines -> (length lines <= fuel)%nat -> 0 < w <= UINT32_MAX ->
  rows_at inp pIn w lines -> 0 <= pOut -> 0 <= room -> 0 <= total -> total + room <= UINT32_MAX ->
  pOut + room <= zlen mem ->
  coded (compress_rows fuel inp w h index pIn pOut room total mem) pOut room (plane_code lines) total mem.
Proof.
  revert lines index pIn pOut room total mem. induction fuel as [|fuel IH];
    intros lines index pIn pOut room total mem Hne Hh Hf Hw Hrows Hp Hroom Ht Hsum Hm.
  { destruct lines; [done|simpl in Hf; lia]. }
  destruct lines as [|l ls]; [done|]. destruct Hrows as (Hl & Hsl & Hi & Hi' & Hrows).
  pose proof (row_code_pos l ltac:(lia)). rewrite zlen_cons in Hh. pose proof (zlen_nonneg ls).
  rewrite plane_code_cons. set (c1 := row_code l) in *. set (c2 := plane_code ls).
  pose proof (zlen_nonneg c2). cbn [compress_rows].
  destruct (Z.ltb_spec 0 room) as [Hpos|Hz].
  2:{ right. split; [rewrite zlen_app; lia|]. exists mem. split; [done|]. right. do 2 f_equal. lia. }
  pose proof (encode_row_exact inp l pIn pOut room mem) as He. rewrite Hl in He. fold c1 in He.
  specialize (He Hsl Hi Hi' ltac:(lia) Hp ltac:(lia) Hm). unfold wrote in He.
  destruct (Z.leb_spec (zlen c1) room) as [Hfit|Hfit].
  - rewrite (bind_ret_eq _ _ _ _ _ He). replace ((zlen c1 =? 0) || (room <? zlen c1)) with false by lia.
    replace (u32 (total + zlen c1)) with (total + zlen c1) by word_lia.
    assert (zlen (blit pOut c1 mem) = zlen mem) as Eb by (apply zlen_blit; lia).
    destruct (Z.leb_spec h (index + 1)).
    + assert (ls = []) as -> by (apply zlen_zero_inv; lia). left. change c2 with (@nil Z).
      rewrite app_nil_r. done.
    + assert (coded (compress_rows fuel inp w h (index + 1) (pIn + w) (pOut + zlen c1) (room - zlen c1)
                (total + zlen c1) (blit pOut c1 mem)) (pOut + zlen c1) (room - zlen c1) c2 (total + zlen c1)
                (blit pOut c1 mem)) as Hrest.
      { apply IH; try lia; [intros ->; change (zlen (@nil (list Z))) with 0 in *; lia|simpl in Hf; lia|done]. }
      destruct Hrest as [[Hfit2 Hr]|[Hfit2 (mem' & Hl' & Hr)]].
      * left. rewrite zlen_app. split; [lia|]. rewrite Hr, blit_blit, Z.add_assoc by lia. done.
      * right. rewrite zlen_app. split; [lia|]. exists mem'. split; [lia|].
        destruct Hr as [Hr|Hr]; [by left|right]. rewrite Hr. do 2 f_equal. lia.
  - destruct He as (mem' & He & Hl'). rewrite (bind_ret_eq _ _ _ _ _ He).
    right. rewrite zlen_app. split; [lia|]. exists mem'. split; [done|]. by left.
Qed.

(** ** Several planes *)

Definition planes_code (lss : list (list (list Z))) : list Z := mjoin (map plane_code lss).

Definition sizes_sum (l : list Z) : Z := foldr Z.add 0 l.

(** The planes of the list are in the block, [h] rows each. *)
Definition planes_at (inp : list Z) (n w h : Z) : list Z -> list (list (list Z)) -> Prop :=
  Forall2 (fun i lines => zlen lines = h /\ rows_at inp (i * n) w lines).

Lemma compress_planes_exact inp n w h ps lss pOut room mem :
  planes_at inp n w h ps lss -> 0 < w <= UINT32_MAX -> 0 < h ->
  0 <= pOut -> 0 <= room <= UINT32_MAX -> pOut + room <= zlen mem ->
  (zlen (planes_code lss) <= room
   /\ compress_planes inp n w h ps pOut room mem
      = Ret (Some (map (fun ls => zlen (plane_code ls)) lss)) (blit pOut (planes_code lss) mem))
  \/ (room < zlen (planes_code lss) /\ exists mem', zlen mem' = zlen mem
      /\ (compress_planes inp n w h ps pOut room mem = Ret None mem'
          \/ exists szs, compress_planes inp n w h ps pOut room mem = Ret (Some szs) mem'
             /\ sizes_sum szs = room /\ length szs = length ps /\ Forall (fun z => 0 <= z) szs)).
Proof.
  intros Hps Hw Hh. revert pOut room mem. induction Hps as [|i lines ps lss (Hl & Hrows) Hps IH];
    intros pOut room mem Hp Hroom Hm.
  { left. split; [change (zlen (planes_code [])) with 0; lia|]. change (planes_code []) with (@nil Z). by rewrite blit_nil by lia. }
  cbn [compress_planes map]. change (planes_code (lines :: lss)) with (plane_code lines ++ planes_code lss).
  set (c1 := plane_code lines). set (c2 := planes_code lss) in *.
  pose proof (zlen_nonneg c1). pose proof (zlen_nonneg c2).
  destruct (compress_rows_exact (Z.to_nat h + 1) inp lines w h 0 (i * n) pOut room 0 mem)
    as [[Hfit He]|[Hfit (mem' & Hl' & He)]]; try done; try lia.
  { intros ->. change (zlen (@nil (list Z))) with 0 in *. lia. }
  { unfold zlen in Hl. lia. }
  - fold c1 in Hfit, He. rewrite Z.add_0_l in He.
    unfold freerdp_bitmap_planar_compress_plane_rle. rewrite (bind_ret_eq _ _ _ _ _ He).
    replace (u32 (room - zlen c1)) with (room - zlen c1) by word_lia.
    assert (zlen (blit pOut c1 mem) = zlen mem) as Eb by (apply zlen_blit; lia).
    rewrite zlen_app.
    destruct (IH (pOut + zlen c1) (room - zlen c1) (blit pOut c1 mem)) as [[Hf2 E2]|[Hf2 (mem' & Hm' & E2)]];
      try lia.
    + left. split; [lia|]. rewrite (bind_ret_eq _ _ _ _ _ E2), blit_blit by lia. done.
    + right. split; [lia|]. exists mem'. split; [lia|].
      destruct E2 as [E2|(szs & E2 & Hsum & Hlen & Hpos)]; rewrite (bind_ret_eq _ _ _ _ _ E2); [by left|right].
      exists (zlen c1 :: szs). split_and!; [done|simpl; lia|simpl; lia|by constructor].
  - fold c1 in Hfit. rewrite Z.add_0_l in He.
    unfold freerdp_bitmap_planar_compress_plane_rle. right. rewrite zlen_app. split; [lia|].
    destruct He as [He|He]; rewrite (bind_ret_eq _ _ _ _ _ He).
    { exists mem'. split; [done|]. by left. }
    replace (u32 (room - room)) with 0 by (rewrite Z.sub_diag; done).
    destruct (IH (pOut + room) 0 mem') as [[Hf2 E2]|[Hf2 (mem2 & Hm2 & E2)]]; try lia.
    + exists (blit (pOut + room) c2 mem'). split; [rewrite zlen_blit; lia|]. right.
      rewrite (bind_ret_eq _ _ _ _ _ E2). eexists. split; [done|].
      split_and!; [|simpl; rewrite length_map; f_equal; symmetry; by apply (Forall2_length Hps)|].
      2:{ constructor; [lia|]. apply Forall_forall. intros z Hz. apply in_map_iff in Hz as (ls & <- & _).
          apply zlen_nonneg. }
      simpl. assert (forall l : list (list (list Z)), zlen (planes_code l) <= 0 ->
        sizes_sum (map (fun ls => zlen (plane_code ls)) l) = 0) as Hz.
      { intros l. induction l as [|x l IHl]; [done|]. change (planes_code (x :: l)) with (plane_code x ++ planes_code l).
        rewrite zlen_app. pose proof (zlen_nonneg (plane_code x)). pose proof (zlen_nonneg (planes_code l)).
        intros. simpl. rewrite IHl by lia. lia. }
      fold (sizes_sum (map (fun ls => zlen (plane_code ls)) lss)). rewrite Hz by done. lia.
    + exists mem2. split; [lia|]. destruct E2 as [E2|(szs & E2 & Hsum & Hlen & Hpos)];
        rewrite (bind_ret_eq _ _ _ _ _ E2); [by left|right].
      exists (room :: szs). split_and!; [done| |simpl; lia|by constructor; [lia|]].
      simpl. fold (sizes_sum szs). lia.
Qed.
