(* ===== verification/PlanarDecode.v ===== *)
(** * Decoding planes

    The decoder of [Planar] on single planes: a code that [planar_skip_plane_rle] accepts stands
    for rows of bytes, and the decoder puts these rows, with the differences taken back, into the
    image and changes nothing else. *)

From S2P Require Import Prelude Aligned Color Image Planar PlanarRle.

(** ** Rows in an image *)

(** The block with bytes put into it, [st] apart. *)
Fixpoint scatter (off st : Z) (vs : list Z) (mem : list Z) : list Z :=
  match vs with
  | [] => mem
  | v :: vs' => scatter (off + st) st vs' (<[Z.to_nat off := v]> mem)
  end.

Lemma store_byte i v mem : 0 <= i < zlen mem -> store i [v] mem = Ret tt (<[Z.to_nat i := v]> mem).
Proof.
  intros Hi. rewrite store_blit by (lia || (change (zlen [v]) with 1; lia)). f_equal.
  unfold blit, ztake, zdrop. change (zlen [v]) with 1.
  rewrite insert_take_drop by (unfold zlen in Hi; lia).
  simpl. do 3 f_equal. lia.
Qed.

Lemma zlen_scatter off st vs mem : zlen (scatter off st vs mem) = zlen mem.
Proof.
  revert off mem. induction vs as [|v vs IH]; intros off mem; [done|]. simpl.
  by rewrite IH, zlen_insert.
Qed.

Lemma scatter_app off st a b mem :
  scatter off st (a ++ b) mem = scatter (off + st * zlen a) st b (scatter off st a mem).
Proof.
  revert off mem. induction a as [|v a IH]; intros off mem; simpl.
  - f_equal. change (zlen (@nil Z)) with 0. lia.
  - rewrite IH, zlen_cons. f_equal. lia.
Qed.

Lemma scatter_other off st vs mem i :
  (forall k, 0 <= k < zlen vs -> i <> Z.to_nat (off + st * k)) -> scatter off st vs mem !! i = mem !! i.
Proof.
  revert off mem. induction vs as [|v vs IH]; intros off mem Hk; [done|]. simpl.
  rewrite zlen_cons in Hk. pose proof (zlen_nonneg vs). rewrite IH.
  - apply list_lookup_insert_ne. intros E. apply (Hk 0); [lia|]. rewrite <- E. f_equal. lia.
  - intros k Hr E. apply (Hk (k + 1)); [lia|]. rewrite E. f_equal. lia.
Qed.

Lemma scatter_at off st vs mem k v :
  0 <= off -> 0 < st -> vs !! k = Some v -> off + st * Z.of_nat k < zlen mem ->
  scatter off st vs mem !! Z.to_nat (off + st * Z.of_nat k) = Some v.
Proof.
  revert off mem k. induction vs as [|x vs IH]; intros off mem k Ho Hst Hk Hm; [done|]. simpl.
  destruct k as [|k].
  - injection Hk as ->. replace (off + st * Z.of_nat 0) with off in * by lia.
    rewrite scatter_other by (intros j Hj; assert (0 <= st * j) by nia; lia).
    apply list_lookup_insert_eq. unfold zlen in Hm. lia.
  - simpl in Hk. replace (off + st * Z.of_nat (S k)) with (off + st + st * Z.of_nat k) by lia.
    apply IH; [lia|done|done|]. rewrite zlen_insert. lia.
Qed.

Lemma lookup_nth (l : list Z) i : (i < length l)%nat -> l !! i = Some (nth i l 0).
Proof. intros Hi. destruct (lookup_lt_is_Some_2 l i Hi) as [x Hx]. by rewrite nth_lookup, Hx. Qed.

(** ** What the bytes of a row stand for *)

(** The difference a byte stands for. *)
Definition undelta (d : Z) : Z := if Z.odd d then - (d / 2 + 1) else d / 2.

Lemma undelta_range d : is_byte d -> -128 <= undelta d <= 127.
Proof. unfold is_byte, undelta. intros. destruct (Z.odd d); Z.div_mod_to_equations; lia. Qed.

Lemma delta_value_ok {S} d (s : S) : is_byte d -> delta_value d s = Ret (undelta d) s.
Proof.
  intros Hd. pose proof (undelta_range d Hd) as Hu. unfold delta_value, undelta in *.
  unfold is_byte in Hd. rewrite (land_mask _ 1) by done. change (2 ^ 1) with 2.
  rewrite Zmod_odd, shiftr_div by lia. change (2 ^ 1) with 2.
  destruct (Z.odd d); cbn [negb Z.eqb].
  - replace (u8 (d / 2 + 1)) with (d / 2 + 1) by (unfold u8; Z.div_mod_to_equations; lia).
    rewrite asserting_cast_eq; [f_equal; lia|]. unfold s16. zcase; Z.div_mod_to_equations; lia.
  - apply asserting_cast_eq. unfold s16. zcase; Z.div_mod_to_equations; lia.
Qed.

(** The byte in column [x], given the row above. *)
Definition px_value (pr : option (list Z)) (x d : Z) : Z :=
  match pr with
  | None => d
  | Some q => u8 (nth (Z.to_nat x) q 0 + undelta d)
  end.

(** What is carried along a row. *)
Definition px_carried (pr : option (list Z)) (d : Z) : Z :=
  match pr with None => d | Some _ => undelta d end.

Fixpoint row_values (pr : option (list Z)) (x : Z) (line : list Z) : list Z :=
  match line with
  | [] => []
  | d :: line' => px_value pr x d :: row_values pr (x + 1) line'
  end.

Lemma row_values_app pr x a b :
  row_values pr x (a ++ b) = row_values pr x a ++ row_values pr (x + zlen a) b.
Proof.
  revert x. induction a as [|d a IH]; intros x; simpl.
  - change (zlen (@nil Z)) with 0. by rewrite Z.add_0_r.
  - rewrite IH, zlen_cons. do 3 f_equal. lia.
Qed.

Lemma zlen_row_values pr x line : zlen (row_values pr x line) = zlen line.
Proof.
  revert x. induction line as [|d line IH]; intros x; [done|]. simpl. by rewrite !zlen_cons, IH.
Qed.

Lemma row_values_bytes pr x line : bytes line -> bytes (row_values pr x line).
Proof.
  revert x. induction line as [|d line IH]; intros x Hb; [done|]. simpl.
  apply Forall_cons_1 in Hb as [Hd Hb]. apply Forall_cons_2; [|by apply IH].
  destruct pr; simpl; [unfold is_byte, u8; apply Z.mod_pos_bound; lia|done].
Qed.

(** The rows of a plane from their differences. *)
Fixpoint undelta_rows (pr : option (list Z)) (lines : list (list Z)) : list (list Z) :=
  match lines with
  | [] => []
  | l :: ls => let v := row_values pr 0 l in v :: undelta_rows (Some v) ls
  end.

(** ** One row *)

Section Row.
Variables (cast : Z -> M (list Z) Z) (st w : Z).
Hypothesis cast_ok : forall v s, is_byte v -> cast v s = Ret v s.
Hypothesis st_pos : 0 < st.

(** The row above is in the block where the decoder looks for it, apart from the current one. *)
Definition above (pr : option (list Z)) (prev : option Z) (cur : Z) (mem : list Z) : Prop :=
  match prev, pr with
  | None, None => True
  | Some p, Some q =>
      zlen q = w /\ bytes q /\ 0 <= p /\ (cur + st * w <= p \/ p + st * w <= cur)
      /\ forall i, 0 <= i < w -> mem !! Z.to_nat (p + st * i) = Some (nth (Z.to_nat i) q 0)
  | _, _ => False
  end.

(** The current row is in the block. *)
Definition row_in (cur : Z) (mem : list Z) : Prop := 0 <= cur /\ cur + st * (w - 1) < zlen mem.

Lemma above_insert pr prev cur mem x v : 0 <= x < w -> 0 <= cur ->
  above pr prev cur mem -> above pr prev cur (<[Z.to_nat (cur + st * x) := v]> mem).
Proof.
  intros Hx Hc. destruct prev as [p|], pr as [q|]; try done. intros (H1 & H2 & H3 & H4 & H5).
  split_and!; try done. intros i Hi. rewrite list_lookup_insert_ne; [by apply H5|].
  assert (0 <= st * i < st * w) by nia. assert (0 <= st * x < st * w) by nia. lia.
Qed.

Lemma above_scatter pr prev cur mem x vs : 0 <= x -> x + zlen vs <= w -> 0 <= cur ->
  above pr prev cur mem -> above pr prev cur (scatter (cur + st * x) st vs mem).
Proof.
  revert x mem. induction vs as [|v vs IH]; intros x mem Hx Hw Hc Ha; [done|].
  rewrite zlen_cons in Hw. pose proof (zlen_nonneg vs). simpl.
  replace (cur + st * x + st) with (cur + st * (x + 1)) by lia.
  apply IH; [lia|lia|done|]. by apply above_insert; [lia|lia|].
Qed.

Lemma put_pixel_ok pr prev cur mem x d : above pr prev cur mem -> row_in cur mem -> 0 <= x < w -> is_byte d ->
  put_pixel cast st cur prev x (px_carried pr d) mem
  = Ret tt (<[Z.to_nat (cur + st * x) := px_value pr x d]> mem).
Proof.
  intros Ha [Hc Hin] Hx Hd. assert (0 <= st * x <= st * (w - 1)) by nia.
  unfold put_pixel. destruct prev as [p|], pr as [q|]; try done; simpl.
  - destruct Ha as (Hq & Hqb & Hp & _ & Hm). rewrite get_bind.
    rewrite (bind_ret_eq _ _ _ (nth (Z.to_nat x) q 0) mem) by (apply byte_at_ok; [lia|by apply Hm]).
    assert (is_byte (nth (Z.to_nat x) q 0)) as Hb.
    { eapply Forall_nth; [done|]. unfold zlen in Hq. lia. }
    pose proof (undelta_range d Hd). unfold is_byte in Hb.
    rewrite (bind_ret_eq _ _ _ (nth (Z.to_nat x) q 0 + undelta d) mem)
      by (apply asserting_cast_eq; unfold s16; zcase; Z.div_mod_to_equations; lia).
    rewrite store_byte by lia. done.
  - rewrite (bind_ret_eq _ _ _ d mem) by by apply cast_ok. by rewrite store_byte by lia.
Qed.

Lemma row_in_len cur mem mem' : zlen mem' = zlen mem -> row_in cur mem -> row_in cur mem'.
Proof. unfold row_in. intros ->. done. Qed.

Lemma put_run_ok n pr prev cur mem x d : above pr prev cur mem -> row_in cur mem -> 0 <= x ->
  x + Z.of_nat n <= w -> is_byte d ->
  put_run cast st n cur prev x (px_carried pr d) mem
  = Ret tt (scatter (cur + st * x) st (row_values pr x (replicate n d)) mem).
Proof.
  revert x mem. induction n as [|n IH]; intros x mem Ha Hin Hx Hw Hd; [done|]. simpl.
  rewrite (bind_ret_eq _ _ _ _ _ (put_pixel_ok pr prev cur mem x d Ha Hin ltac:(lia) Hd)).
  destruct Hin as [Hc Hin].
  rewrite IH; [|apply above_insert; try done; lia|by apply (row_in_len _ mem); [apply zlen_insert|]|lia|lia|done].
  do 2 f_equal. lia.
Qed.

Variables (src : list Z) (pSrcData SrcSize : Z).

Lemma put_raw_ok raws pr prev cur mem x srcp d : above pr prev cur mem -> row_in cur mem -> 0 <= x ->
  x + zlen raws <= w -> bytes raws -> 0 <= srcp -> slice srcp (zlen raws) src = raws ->
  put_raw cast st src (length raws) cur prev x srcp (px_carried pr d) mem
  = Ret (srcp + zlen raws, px_carried pr (carry d raws))
      (scatter (cur + st * x) st (row_values pr x raws) mem).
Proof.
  revert x srcp d mem. induction raws as [|b raws IH]; intros x srcp d mem Ha Hin Hx Hw Hb Hs Hsl.
  { simpl. change (zlen (@nil Z)) with 0. by rewrite Z.add_0_r. }
  apply Forall_cons_1 in Hb as [Hbb Hb]. rewrite zlen_cons in *. pose proof (zlen_nonneg raws).
  destruct (slice_cons_inv _ _ _ _ _ Hs Hsl) as [Hl Hsl'].
  replace (zlen raws + 1 - 1) with (zlen raws) in Hsl' by lia. cbn [length put_raw].
  rewrite (bind_ret_eq _ _ _ b mem) by by apply byte_at_ok.
  rewrite (bind_ret_eq _ _ _ (px_carried pr b) mem).
  2:{ destruct prev, pr; try done. by apply delta_value_ok. }
  rewrite (bind_ret_eq _ _ _ _ _ (put_pixel_ok pr prev cur mem x b Ha Hin ltac:(lia) Hbb)).
  rewrite IH; try done; try lia.
  - change (b :: raws) with ([b] ++ raws). rewrite carry_app. cbn [app row_values scatter].
    replace (srcp + 1 + zlen raws) with (srcp + (zlen raws + 1)) by lia.
    replace (cur + st * (x + 1)) with (cur + st * x + st) by lia. done.
  - apply above_insert; [lia|apply Hin|done].
  - by apply (row_in_len _ mem); [apply zlen_insert|].
Qed.
End Row.

Lemma slice_app_inv i a b (l : list Z) n : 0 <= i -> slice i n l = a ++ b -> n = zlen a + zlen b ->
  slice i (zlen a) l = a /\ slice (i + zlen a) (zlen b) l = b.
Proof.
  intros Hi Hs ->. pose proof (zlen_nonneg a). pose proof (zlen_nonneg b).
  assert (i + (zlen a + zlen b) <= zlen l \/ zlen a + zlen b = 0) as [Hl|Hz].
  { destruct (Z.eq_dec (zlen a + zlen b) 0); [by right|left].
    assert (zlen (slice i (zlen a + zlen b) l) = zlen a + zlen b) as E by by rewrite Hs, zlen_app.
    unfold slice, ztake, zdrop, zlen in *. rewrite length_take, length_drop in E. lia. }
  - rewrite slice_split in Hs by lia. apply app_inj_1 in Hs; [done|].
    pose proof (zlen_slice i (zlen a) l) as E. unfold zlen in *. lia.
  - assert (a = []) as -> by (apply zlen_zero_inv; lia). assert (b = []) as -> by (apply zlen_zero_inv; lia).
    change (zlen (@nil Z)) with 0. by rewrite !slice_zero.
Qed.

Lemma bytes_app (a b : list Z) : bytes (a ++ b) -> bytes a /\ bytes b.
Proof. apply Forall_app. Qed.

Lemma carry_byte s raws : is_byte s -> bytes raws -> is_byte (carry s raws).
Proof.
  intros Hs Hb. destruct raws as [|x raws] using rev_ind; [done|].
  unfold carry. rewrite List.last_last. apply bytes_app in Hb as [_ Hb]. by apply Forall_cons_1 in Hb as [? _].
Qed.

Lemma rle_line_bytes s code line s' : rle_codes s code line s' -> is_byte s -> bytes code -> bytes line.
Proof.
  induction 1 as [s|s c raws run code line s' Hc Hl Hp H1 IH]; intros Hs Hb; [done|].
  apply Forall_cons_1 in Hb as [_ Hb]. apply bytes_app in Hb as [Hr Hb].
  pose proof (carry_byte s raws Hs Hr).
  apply Forall_app_2; [done|]. apply Forall_app_2; [by apply Forall_zrepeat|by apply IH].
Qed.

Section DecodeRow.
Variables (cast : Z -> M (list Z) Z) (st w : Z).
Hypothesis cast_ok : forall v s, is_byte v -> cast v s = Ret v s.
Hypothesis st_pos : 0 < st.
Variables (src : list Z) (pSrcData SrcSize : Z).

Lemma decode_row_ok s code line s' : rle_codes s code line s' ->
  forall fuel pr prev cur mem x srcp,
  is_byte s -> bytes code -> above st w pr prev cur mem -> row_in st w cur mem -> 0 <= x -> x + zlen line = w ->
  0 <= srcp -> slice srcp (zlen code) src = code -> srcp + zlen code - pSrcData <= SrcSize ->
  (length code < fuel)%nat ->
  decode_row cast st src pSrcData SrcSize w fuel cur prev x srcp (px_carried pr s) mem
  = Ret (srcp + zlen code) (scatter (cur + st * x) st (row_values pr x line) mem).
Proof.
  induction 1 as [s|s c raws run code line s' Hc Hl Hp H1 IH];
    intros fuel pr prev cur mem x srcp Hs Hb Ha Hin Hx Hw Hsp Hsl Hsz Hf.
  { change (zlen (@nil Z)) with 0 in *. destruct fuel; simpl; replace (x <? w) with false by lia;
      by rewrite Z.add_0_r. }
  destruct fuel as [|fuel]; [simpl in Hf; lia|]. apply Forall_cons_1 in Hb as [_ Hb].
  apply bytes_app in Hb as [Hbr Hbc]. destruct (control_lengths_range _ _ _ Hc Hl) as [Hrun _].
  pose proof (zlen_nonneg raws). pose proof (zlen_nonneg code). pose proof (zlen_nonneg line).
  rewrite zlen_cons, zlen_app in *. rewrite zlen_app, zlen_zrepeat in Hw by lia.
  destruct (slice_cons_inv _ _ _ _ _ Hsp Hsl) as [Hl0 Hsl'].
  destruct (slice_app_inv (srcp + 1) raws code src _ ltac:(lia) Hsl' ltac:(lia)) as [Hsr Hsc].
  cbn [decode_row]. replace (x <? w) with true by lia.
  rewrite (bind_ret_eq _ _ _ c mem) by by apply byte_at_ok. cbv zeta.
  replace (SrcSize <? srcp + 1 - pSrcData) with false by lia. rewrite Hl.
  assert (st * x + (zlen raws + run) <= w * st) by nia.
  replace (w * st <? st * x + (zlen raws + run)) with false by lia.
  replace (Z.to_nat (zlen raws)) with (length raws) by (unfold zlen; lia).
  rewrite (bind_ret_eq _ _ _ _ _ (put_raw_ok cast st w cast_ok st_pos src raws pr prev cur mem x (srcp + 1) s
             Ha Hin Hx ltac:(lia) Hbr ltac:(lia) Hsr)).
  set (m1 := scatter _ _ (row_values pr x raws) mem).
  assert (zlen (row_values pr x raws) = zlen raws) as Er by apply zlen_row_values.
  assert (above st w pr prev cur m1) as Ha1 by (apply above_scatter; [done|lia|lia|apply Hin|done]).
  assert (row_in st w cur m1) as Hin1 by (apply (row_in_len st w cur mem); [apply zlen_scatter|done]).
  pose proof (carry_byte s raws Hs Hbr) as Hcb.
  rewrite (bind_ret_eq _ _ _ _ _ (put_run_ok cast st w cast_ok st_pos (Z.to_nat run) pr prev cur m1 (x + zlen raws)
             (carry s raws) Ha1 Hin1 ltac:(lia) ltac:(lia) Hcb)).
  rewrite IH; try done; try lia.
  - f_equal; [lia|]. rewrite !row_values_app, !scatter_app, !zlen_row_values, zlen_zrepeat by lia.
    unfold m1, zrepeat. f_equal; [lia|f_equal; lia].
  - apply above_scatter; [done|lia| |apply Hin|done].
    rewrite zlen_row_values. fold (zrepeat run (carry s raws)). rewrite zlen_zrepeat; lia.
  - apply (row_in_len st w cur m1); [apply zlen_scatter|done].
  - simpl in Hf. rewrite length_app in Hf. lia.
Qed.
End DecodeRow.

(** ** Planes *)

(** The code of rows of [w] bytes. *)
Inductive plane_codes (w : Z) : list Z -> list (list Z) -> Prop :=
| plane_nil : plane_codes w [] []
| plane_row c l s code ls :
    rle_codes 0 c l s -> zlen l = w -> plane_codes w code ls -> plane_codes w (c ++ code) (l :: ls).

(** The image with rows put into it. *)
Fixpoint paint (start : Z -> Z) (st k : Z) (rs : list (list Z)) (mem : list Z) : list Z :=
  match rs with
  | [] => mem
  | r :: rs' => paint start st (k + 1) rs' (scatter (start k) st r mem)
  end.

(** [n] rows from the [k]th on lie in the image and do not overlap. *)
Definition rows_fit (start : Z -> Z) (st w n : Z) (mem : list Z) : Prop :=
  (forall k, 0 <= k < n -> 0 <= start k /\ start k + st * (w - 1) < zlen mem)
  /\ (forall i j, 0 <= i < n -> 0 <= j < n -> i <> j ->
      start i + st * w <= start j \/ start j + st * w <= start i).

Lemma zlen_paint start st k rs mem : zlen (paint start st k rs mem) = zlen mem.
Proof.
  revert k mem. induction rs as [|r rs IH]; intros k mem; [done|]. simpl. by rewrite IH, zlen_scatter.
Qed.

Section DecodeRows.
Variables (cast : Z -> M (list Z) Z) (st w : Z).
Hypothesis cast_ok : forall v s, is_byte v -> cast v s = Ret v s.
Hypothesis st_pos : 0 < st.
Variables (src : list Z) (pSrcData SrcSize : Z) (start : Z -> Z) (n : Z).

Lemma decode_rows_ok code lines : plane_codes w code lines -> bytes code ->
  forall pr prev k mem srcp,
  rows_fit start st w n mem -> 0 <= k -> k + zlen lines <= n ->
  (lines <> [] -> above st w pr prev (start k) mem) ->
  0 <= pSrcData <= srcp -> slice srcp (zlen code) src = code -> srcp + zlen code - pSrcData <= SrcSize ->
  decode_rows cast st src pSrcData SrcSize w (length lines) start k prev srcp mem
  = Ret (srcp + zlen code) (paint start st k (undelta_rows pr lines) mem).
Proof.
  induction 1 as [|c l s code ls Hr Hl Hp IH]; intros Hb pr prev k mem srcp Hfit Hk Hn Ha Hsp Hsl Hsz.
  { change (zlen (@nil Z)) with 0. simpl. by rewrite Z.add_0_r. }
  apply bytes_app in Hb as [Hbc Hb]. rewrite zlen_app, zlen_cons in *.
  pose proof (zlen_nonneg c). pose proof (zlen_nonneg code). pose proof (zlen_nonneg ls).
  destruct (slice_app_inv srcp c code src _ ltac:(lia) Hsl eq_refl) as [Hsc Hscode].
  destruct (proj1 Hfit k ltac:(lia)) as [Hs0 Hs1].
  assert (px_carried pr 0 = 0) as E0 by by destruct pr.
  cbn [length decode_rows].
  pose proof (decode_row_ok cast st w cast_ok st_pos src pSrcData SrcSize 0 c l s Hr (Z.to_nat SrcSize + 1) pr prev
    (start k) mem 0 srcp ltac:(done) Hbc (Ha ltac:(done)) ltac:(split; lia) ltac:(lia) ltac:(lia) ltac:(lia) Hsc
    ltac:(lia) ltac:(unfold zlen in *; lia)) as Hd.
  rewrite E0, Z.mul_0_r, Z.add_0_r in Hd.
  rewrite (bind_ret_eq _ _ _ _ _ Hd). set (v := row_values pr 0 l). set (m1 := scatter (start k) st v mem).
  assert (zlen v = w) as Hv by (unfold v; rewrite zlen_row_values; done).
  assert (zlen m1 = zlen mem) as Hm1 by apply zlen_scatter.
  rewrite (IH Hb (Some v)); try lia; try done.
  - f_equal. lia.
  - unfold rows_fit in *. by rewrite Hm1.
  - intros Hne. assert (0 < zlen ls) by (destruct ls; [done|rewrite zlen_cons; pose proof (zlen_nonneg ls); lia]).
    split_and!; [done| |done| |].
    + apply row_values_bytes. by apply (rle_line_bytes 0 c l s).
    + destruct (proj2 Hfit k (k + 1)) as [?|?]; lia.
    + intros i Hi. unfold m1. pose proof (scatter_at (start k) st v mem (Z.to_nat i) (nth (Z.to_nat i) v 0)) as Hsa.
      rewrite Z2Nat.id in Hsa by lia. apply Hsa; [done|done| |].
      * apply lookup_nth. unfold zlen in Hv. lia.
      * assert (st * i <= st * (w - 1)) by nia. lia.
Qed.
End DecodeRows.

(** ** Codes that are accepted *)

(** The code of one row of [n] bytes, behind any byte. *)
Definition row_accepted (code : list Z) (n : Z) : Prop :=
  forall s0, exists line s1, rle_codes s0 code line s1 /\ zlen line = n.

Lemma row_accepted_seg c raws run code n : is_byte c -> control_lengths c = (run, zlen raws) ->
  0 <= run -> 0 < zlen raws + run + n -> row_accepted code n ->
  row_accepted (c :: raws ++ code) (zlen raws + run + n).
Proof.
  intros Hc Hl Hr Hp Ha s0. destruct (Ha (carry s0 raws)) as (line & s1 & Hcode & Hlen).
  eexists _, s1. split; [apply (rle_seg s0 c raws run code line s1); [done|exact Hl|lia|exact Hcode]|].
  rewrite !zlen_app, zlen_zrepeat by lia. lia.
Qed.

Section Skip.
Variables (src : list Z) (p SrcSize w : Z).
Hypothesis src_bytes : bytes src.
Hypothesis (p_in : 0 <= p) (src_in : p + SrcSize <= zlen src) (size_max : SrcSize <= INT32_MAX).
Hypothesis w_range : 0 <= w <= INT32_MAX.

Lemma skip_row_total {S} fuel x used (s : S) :
  0 <= x <= w -> 0 <= used <= SrcSize -> (Z.to_nat (SrcSize - used) < fuel)%nat ->
  wp (skip_row fuel src p SrcSize w x used)
    (fun used' s' => s' = s /\ exists code, slice (p + used) (zlen code) src = code
       /\ used' = used + zlen code /\ used' <= SrcSize /\ row_accepted code (w - x))
    (fun s' => s' = s) s.
Proof.
  unfold INT32_MAX in *.
  revert x used. induction fuel as [|fuel IH]; intros x used Hx Hu Hf; [lia|]. cbn [skip_row].
  destruct (Z.ltb_spec x w).
  2:{ apply wp_ret. split; [done|]. exists []. change (zlen (@nil Z)) with 0. rewrite slice_zero.
      split_and!; [done|lia|lia|]. intros s0. exists [], s0. split; [constructor|].
      change (zlen (@nil Z)) with 0. lia. }
  destruct (Z.leb_spec SrcSize used); [by apply wp_failure|].
  destruct (lookup_lt_is_Some_2 src (Z.to_nat (p + used))) as [c Hc]; [unfold zlen in *; lia|].
  apply wp_bind. unfold wp at 1. rewrite (byte_at_ok src (p + used) c s) by (done || lia).
  assert (is_byte c) as Hcb by (eapply Forall_lookup_1; [exact src_bytes|done]).
  destruct (control_lengths c) as [run raw] eqn:El.
  destruct (control_lengths_range _ _ _ Hcb El) as [Hrun Hraw]. cbv zeta.
  replace (u32 (u32 (used + 1) + raw)) with (used + 1 + raw) by word_lia.
  replace (u32 (u32 (x + raw) + run)) with (x + raw + run) by word_lia.
  destruct (Z.ltb_spec w (x + raw + run)); [by apply wp_failure|].
  destruct (Z.ltb_spec SrcSize (used + 1 + raw)); [by apply wp_failure|].
  eapply wp_mono; [apply IH; lia| |done]. intros used' s' (-> & code & Hsl & -> & Hle & Hacc).
  split; [done|]. set (raws := slice (p + used + 1) raw src).
  assert (zlen raws = raw) as Er by (apply zlen_slice; lia).
  exists (c :: raws ++ code). rewrite zlen_cons, zlen_app, Er. pose proof (zlen_nonneg code).
  split_and!; [|lia|lia|].
  - replace (raw + zlen code + 1) with (1 + (raw + zlen code)) by lia.
    rewrite slice_split by lia. change 1 with (0 + 1) at 1. rewrite (slice_snoc _ 0 c), slice_zero by (rewrite ?Z.add_0_r; (lia || done)).
    simpl. f_equal. rewrite slice_split by lia. f_equal.
    transitivity (slice (p + (used + 1 + raw)) (zlen code) src); [f_equal; lia|done].
  - replace (w - x) with (zlen raws + run + (w - (x + raw + run))) by lia.
    apply row_accepted_seg; [done|by rewrite Er|lia|lia|done].
Qed.

(** A row that was coded is passed over. *)
Lemma skip_row_ok {S} s0 code line s1 : rle_codes s0 code line s1 ->
  forall fuel x used (s : S),
  0 <= x -> x + zlen line = w -> 0 <= used -> slice (p + used) (zlen code) src = code ->
  used + zlen code <= SrcSize -> (length code < fuel)%nat ->
  skip_row fuel src p SrcSize w x used s = Ret (used + zlen code) s.
Proof.
  unfold INT32_MAX in *.
  induction 1 as [s0|s0 c raws run code line s1 Hc Hl Hp H1 IH]; intros fuel x used s Hx Hw Hu Hsl Hsz Hf.
  { change (zlen (@nil Z)) with 0 in *. destruct fuel; simpl; replace (x <? w) with false by lia;
      by rewrite Z.add_0_r. }
  destruct fuel as [|fuel]; [simpl in Hf; lia|].
  destruct (control_lengths_range _ _ _ Hc Hl) as [Hrun Hraw].
  pose proof (zlen_nonneg raws). pose proof (zlen_nonneg code). pose proof (zlen_nonneg line).
  rewrite zlen_cons, zlen_app in *. rewrite zlen_app, zlen_zrepeat in Hw by lia.
  destruct (slice_cons_inv (p + used) _ _ _ _ ltac:(lia) Hsl) as [Hl0 Hsl'].
  destruct (slice_app_inv (p + used + 1) raws code src _ ltac:(lia) Hsl' ltac:(lia)) as [_ Hsc].
  cbn [skip_row]. replace (x <? w) with true by lia. replace (SrcSize <=? used) with false by lia.
  rewrite (bind_ret_eq _ _ _ c s) by (apply byte_at_ok; [lia|done]). rewrite Hl. cbv zeta.
  replace (u32 (u32 (used + 1) + zlen raws)) with (used + 1 + zlen raws) by word_lia.
  replace (u32 (u32 (x + zlen raws) + run)) with (x + zlen raws + run) by word_lia.
  replace (w <? x + zlen raws + run) with false by lia.
  replace (SrcSize <? used + 1 + zlen raws) with false by lia.
  rewrite IH; try lia.
  - f_equal. lia.
  - by replace (p + (used + 1 + zlen raws)) with (p + used + 1 + zlen raws) by lia.
  - simpl in Hf. rewrite length_app in Hf. lia.
Qed.
End Skip.

Section SkipPlane.
Variables (src : list Z) (p SrcSize w : Z).
Hypothesis src_bytes : bytes src.
Hypothesis (p_in : 0 <= p) (src_in : p + SrcSize <= zlen src) (size_range : 0 <= SrcSize <= INT32_MAX).
Hypothesis w_range : 0 <= w <= INT32_MAX.

Lemma skip_rows_total {S} h used (s : S) : 0 <= used <= SrcSize ->
  wp (skip_rows h src p SrcSize w used)
    (fun used' s' => s' = s /\ exists code lines, slice (p + used) (zlen code) src = code
       /\ used' = used + zlen code /\ used' <= SrcSize /\ plane_codes w code lines /\ length lines = h)
    (fun s' => s' = s) s.
Proof.
  revert used. induction h as [|h IH]; intros used Hu; cbn [skip_rows].
  { apply wp_ret. split; [done|]. exists [], []. change (zlen (@nil Z)) with 0. rewrite slice_zero.
    split_and!; [done|lia|lia|constructor|done]. }
  apply wp_bind. eapply wp_mono; [apply skip_row_total; try done; lia| |done].
  intros used1 s' (-> & c & Hsc & -> & Hle & Hacc). pose proof (zlen_nonneg c).
  eapply wp_mono; [apply IH; lia| |done].
  intros used2 s' (-> & code & lines & Hsl & -> & Hle2 & Hpl & Hlen). pose proof (zlen_nonneg code).
  split; [done|]. destruct (Hacc 0) as (l & s1 & Hl & Hlw).
  exists (c ++ code), (l :: lines). rewrite zlen_app. split_and!; [|lia|lia| |simpl; lia].
  - rewrite slice_split by lia. f_equal; [done|]. by rewrite <- Z.add_assoc.
  - by apply (plane_row w c l s1); [|lia|].
Qed.

Lemma skip_plane_total {S} h (s : S) : 0 <= h ->
  wp (planar_skip_plane_rle src p SrcSize w h)
    (fun n s' => s' = s /\ 0 <= n <= SrcSize
       /\ exists lines, plane_codes w (slice p n src) lines /\ zlen lines = h)
    (fun s' => s' = s) s.
Proof.
  intros Hh. unfold planar_skip_plane_rle. apply wp_bind.
  eapply wp_mono; [apply skip_rows_total; lia| |done].
  intros used s' (-> & code & lines & Hsl & -> & Hle & Hpl & Hlen). rewrite !Z.add_0_r, !Z.add_0_l in *.
  destruct (Z.ltb_spec INT32_MAX (zlen code)); [lia|]. apply wp_ret. pose proof (zlen_nonneg code).
  split_and!; [done|lia|lia|]. exists lines. rewrite Hsl. split; [done|]. unfold zlen. lia.
Qed.

Lemma skip_rows_ok {S} code lines : plane_codes w code lines -> forall used (s : S),
  0 <= used -> slice (p + used) (zlen code) src = code -> used + zlen code <= SrcSize ->
  skip_rows (length lines) src p SrcSize w used s = Ret (used + zlen code) s.
Proof.
  induction 1 as [|c l s1 code ls Hr Hl Hp IH]; intros used s Hu Hsl Hsz.
  { change (zlen (@nil Z)) with 0. simpl. by rewrite Z.add_0_r. }
  rewrite zlen_app in *. pose proof (zlen_nonneg c). pose proof (zlen_nonneg code).
  destruct (slice_app_inv (p + used) c code src _ ltac:(lia) Hsl eq_refl) as [Hsc Hscode].
  cbn [length skip_rows].
  rewrite (bind_ret_eq _ _ _ (used + zlen c) s).
  2:{ apply (skip_row_ok src p SrcSize w p_in ltac:(lia) w_range 0 c l s1 Hr); try done; try lia. unfold zlen in *. lia. }
  rewrite IH; [f_equal; lia|lia| |lia]. by rewrite Z.add_assoc.
Qed.

Lemma skip_plane_ok {S} code lines h (s : S) : plane_codes w code lines -> zlen lines = h ->
  slice p (zlen code) src = code -> zlen code <= SrcSize ->
  planar_skip_plane_rle src p SrcSize w h s = Ret (zlen code) s.
Proof.
  intros Hp Hh Hsl Hsz. unfold planar_skip_plane_rle. rewrite <- Hh.
  replace (Z.to_nat (zlen lines)) with (length lines) by (unfold zlen; lia).
  rewrite (bind_ret_eq _ _ _ _ _ (skip_rows_ok code lines Hp 0 s ltac:(lia) ltac:(by rewrite Z.add_0_r) ltac:(lia))).
  rewrite Z.add_0_l. by replace (INT32_MAX <? zlen code) with false by lia.
Qed.
End SkipPlane.

(** ** The decoder on one plane *)

Lemma clamp_cast v (s : list Z) : is_byte v -> (mret (clamp v) : M (list Z) Z) s = Ret v s.
Proof. intros Hv. unfold clamp. replace (u8 v) with v by (unfold is_byte in Hv; word_lia). done. Qed.

Lemma byte_cast v (s : list Z) : is_byte v -> asserting_cast u8 v s = Ret v s.
Proof. intros Hv. apply asserting_cast_eq. unfold is_byte in Hv. word_lia. Qed.

Lemma decode_plane_ok cast st src p n w h start lines mem :
  (forall v s, is_byte v -> cast v s = Ret v s) -> 0 < st -> 0 <= w -> 0 <= p -> 0 <= n ->
  p + n <= zlen src -> bytes src -> plane_codes w (slice p n src) lines -> zlen lines = h ->
  rows_fit start st w h mem ->
  decode_rows cast st src p n w (Z.to_nat h) start 0 None p mem
  = Ret (p + n) (paint start st 0 (undelta_rows None lines) mem).
Proof.
  intros Hcast Hst Hw Hp Hn Hsz Hb Hc Hh Hfit.
  assert (zlen (slice p n src) = n) as El by (apply zlen_slice; lia).
  replace (Z.to_nat h) with (length lines) by (unfold zlen in Hh; lia).
  rewrite (decode_rows_ok cast st w Hcast Hst src p n start h (slice p n src) lines Hc
             ltac:(by apply Forall_slice) None); rewrite ?El; try done; lia.
Qed.

Lemma plane_rle_ok src p n step x y w h ch flip lines mem :
  0 <= w <= INT32_MAX -> 0 <= h <= INT32_MAX -> step <= INT32_MAX -> 0 <= p -> 0 <= n ->
  p + n <= zlen src -> bytes src -> plane_codes w (slice p n src) lines -> zlen lines = h ->
  rows_fit (channel_row step x y h ch flip) 4 w h mem ->
  planar_decompress_plane_rle src p n step x y w h ch flip mem
  = Ret n (paint (channel_row step x y h ch flip) 4 0 (undelta_rows None lines) mem).
Proof.
  intros. unfold planar_decompress_plane_rle. asserts_hold.
  erewrite bind_ret_eq; [|eapply decode_plane_ok; try done; try lia; apply byte_cast].
  unfold mret, M_ret. f_equal. lia.
Qed.

Lemma plane_rle_only_ok src p n d w h lines mem :
  0 <= w <= INT32_MAX -> 0 <= h <= INT32_MAX -> 0 <= p -> 0 <= n ->
  p + n <= zlen src -> bytes src -> plane_codes w (slice p n src) lines -> zlen lines = h ->
  rows_fit (fun k => d + k * w) 1 w h mem ->
  planar_decompress_plane_rle_only src p n d w h mem
  = Ret n (paint (fun k => d + k * w) 1 0 (undelta_rows None lines) mem).
Proof.
  intros. unfold planar_decompress_plane_rle_only. asserts_hold.
  erewrite bind_ret_eq; [|eapply decode_plane_ok; try done; try lia; apply clamp_cast].
  unfold mret, M_ret. f_equal. lia.
Qed.

(** The rows of a channel of a rectangle that lies in the image. *)
Lemma channel_rows_fit step x y w h ch flip mem :
  0 <= w -> 0 <= h -> 0 <= x -> 0 <= y -> (x + w) * 4 <= step -> (y + h) * step <= zlen mem -> 0 <= ch < 4 ->
  rows_fit (channel_row step x y h ch flip) 4 w h mem.
Proof.
  intros Hw Hh Hx Hy Hs Hm Hch. unfold channel_row. split.
  - intros k Hk. set (r := if flip then h - 1 - k else k).
    assert (0 <= r <= h - 1) by (unfold r; destruct flip; lia).
    assert (0 <= (y + r) * step) by nia. assert ((y + r) * step + step <= (y + h) * step) by nia. lia.
  - intros i j Hi Hj Hij. set (ri := if flip then h - 1 - i else i). set (rj := if flip then h - 1 - j else j).
    assert (ri < rj \/ rj < ri) as [Hlt|Hlt] by (unfold ri, rj; destruct flip; lia).
    + left. assert ((y + ri) * step + step <= (y + rj) * step) by nia. lia.
    + right. assert ((y + rj) * step + step <= (y + ri) * step) by nia. lia.
Qed.

Lemma plane_rows_fit d w h mem : 0 < w -> 0 <= d -> d + h * w <= zlen mem ->
  rows_fit (fun k => d + k * w) 1 w h mem.
Proof.
  intros Hw Hd Hm. split.
  - intros k Hk. assert (0 <= k * w) by nia. assert (k * w + w <= h * w) by nia. lia.
  - intros i j Hi Hj Hij. assert (i < j \/ j < i) as [Hlt|Hlt] by lia.
    + left. assert (i * w + w <= j * w) by nia. lia.
    + right. assert (j * w + w <= i * w) by nia. lia.
Qed.

(** ** What is in the image *)

Lemma paint_other start st w k rs mem i : Forall (fun r => zlen r = w) rs ->
  (forall j x, 0 <= j < zlen rs -> 0 <= x < w -> i <> Z.to_nat (start (k + j) + st * x)) ->
  paint start st k rs mem !! i = mem !! i.
Proof.
  revert k mem. induction rs as [|r rs IH]; intros k mem Hr Hi; [done|].
  apply Forall_cons_1 in Hr as [Hr Hrs]. rewrite zlen_cons in Hi. pose proof (zlen_nonneg rs). simpl.
  rewrite IH; [|done|].
  - apply scatter_other. intros x Hx E. apply (Hi 0 x); [lia|lia|]. by rewrite Z.add_0_r.
  - intros j x Hj Hx E. apply (Hi (j + 1) x); [lia|lia|].
    by replace (k + (j + 1)) with (k + 1 + j) by lia.
Qed.

Lemma paint_at start st w n k rs mem j x r v : 0 < st -> 0 <= k -> k + zlen rs <= n ->
  rows_fit start st w n mem -> Forall (fun r => zlen r = w) rs ->
  rs !! j = Some r -> r !! x = Some v ->
  paint start st k rs mem !! Z.to_nat (start (k + Z.of_nat j) + st * Z.of_nat x) = Some v.
Proof.
  revert k mem j. induction rs as [|r0 rs IH]; intros k mem j Hst Hk Hn Hfit Hr Hj Hx; [done|].
  apply Forall_cons_1 in Hr as [Hr0 Hrs]. rewrite zlen_cons in Hn. pose proof (zlen_nonneg rs). simpl.
  destruct j as [|j].
  - injection Hj as ->. rewrite Z.add_0_r. apply lookup_lt_Some in Hx as Hlt.
    assert (0 <= Z.of_nat x < w) as Hxw by (unfold zlen in Hr0; lia).
    destruct (proj1 Hfit k ltac:(lia)) as [H0 H1].
    assert (0 <= st * Z.of_nat x <= st * (w - 1)) by nia.
    rewrite (paint_other _ _ w); [by apply scatter_at; [lia|lia|done|lia]|done|].
    intros j' x' Hj' Hx'. assert (0 <= st * x' <= st * (w - 1)) by nia.
    destruct (proj2 Hfit k (k + 1 + j') ltac:(lia) ltac:(lia) ltac:(lia));
      destruct (proj1 Hfit (k + 1 + j') ltac:(lia)); lia.
  - replace (k + Z.of_nat (S j)) with (k + 1 + Z.of_nat j) by lia.
    apply IH; try done; try lia. unfold rows_fit in *. by rewrite zlen_scatter.
Qed.
