(* ===== verification/PlanarEncode.v ===== *)
(** * Images through the encoder of the planar codec

    The planes the encoder of [Planar] makes of an image, their differences, and the message it
    makes of them; how large that message can be. *)

From S2P Require Import Prelude Aligned Color Image Planar PlanarRle PlanarDecode.

(** ** Differences *)

Definition delta_row (q r : list Z) : list Z := zip_with delta_code r q.

Fixpoint delta_rows (pr : option (list Z)) (rs : list (list Z)) : list (list Z) :=
  match rs with
  | [] => []
  | r :: rs' => match pr with None => r | Some q => delta_row q r end :: delta_rows (Some r) rs'
  end.

(** The difference a pixel is coded by, as a number of eight bits with a sign. *)
Lemma delta_code_undelta s p : is_byte s -> is_byte p ->
  is_byte (delta_code s p) /\ u8 (p + undelta (delta_code s p)) = s.
Proof.
  unfold is_byte. intros Hs Hp. unfold delta_code. set (i := if 0 <=? s - p then _ else _).
  assert (i mod 256 = (s - p) mod 256) as Ei.
  { unfold i, INT32_MAX. zcase; [done|]. replace (2147483647 + (s - p) + 1) with (s - p + 8388608 * 256) by lia.
    apply Z.mod_add. lia. }
  unfold s8. rewrite Ei. set (e := if (s - p) mod 256 <? 128 then _ else _).
  assert (-128 <= e < 128 /\ (e = s - p \/ e = s - p + 256 \/ e = s - p - 256)) as [He Hmod].
  { unfold e. zcase; Z.div_mod_to_equations; lia. }
  clearbody e. clear i Ei. rewrite !Z.shiftl_mul_pow2 by lia. change (2 ^ 1) with 2. unfold Z.lnot.
  destruct (Z.leb_spec 0 e).
  - replace (u8 (u32 (u32 e * 2))) with (2 * e) by word_lia.
    split; [lia|]. unfold undelta. rewrite Z.odd_mul. change (Z.odd 2) with false. cbn [andb].
    unfold u8. Z.div_mod_to_equations; lia.
  - replace (u8 (u32 (u32 (u32 (Z.pred (- e) + 1) * 2) - 1))) with (2 * (- e - 1) + 1) by word_lia.
    split; [lia|]. unfold undelta. rewrite Z.odd_add, Z.odd_mul. change (Z.odd 2) with false.
    change (Z.odd 1) with true. cbn [andb xorb]. unfold u8. Z.div_mod_to_equations; lia.
Qed.

Lemma row_values_delta q r x : bytes q -> bytes r -> 0 <= x -> x + zlen r = zlen q ->
  row_values (Some q) x (zip_with delta_code r (drop (Z.to_nat x) q)) = r.
Proof.
  revert x. induction r as [|b r IH]; intros x Hq Hr Hx Hl; [done|].
  apply Forall_cons_1 in Hr as [Hb Hr]. rewrite zlen_cons in Hl. pose proof (zlen_nonneg r).
  assert (Z.to_nat x < length q)%nat as Hlt by (unfold zlen in *; lia).
  rewrite (drop_S q (nth (Z.to_nat x) q 0)) by by apply lookup_nth. simpl. f_equal.
  - apply delta_code_undelta; [done|]. by apply (Forall_nth _ q).
  - replace (S (Z.to_nat x)) with (Z.to_nat (x + 1)) by lia. apply IH; (done || lia).
Qed.

Definition rows_ok (w : Z) (rs : list (list Z)) : Prop := Forall (fun r => zlen r = w /\ bytes r) rs.

(** Taking the differences back gives the rows. *)
Lemma undelta_delta pr w rs : match pr with Some q => zlen q = w /\ bytes q | None => True end ->
  rows_ok w rs -> undelta_rows pr (delta_rows pr rs) = rs.
Proof.
  revert pr. induction rs as [|r rs IH]; intros pr Hpr Hrs; [done|].
  apply Forall_cons_1 in Hrs as [[Hw Hb] Hrs].
  assert (row_values pr 0 (match pr with None => r | Some q => delta_row q r end) = r) as E.
  { destruct pr as [q|].
    - apply (row_values_delta q r 0); [apply Hpr|done|lia|]. destruct Hpr. lia.
    - clear. generalize 0. induction r as [|b r IHr]; intros x; [done|]. simpl. by rewrite IHr. }
  cbn [delta_rows undelta_rows]. rewrite E. f_equal. by apply IH.
Qed.

Lemma delta_row_ok w q r : zlen q = w -> bytes q -> zlen r = w -> bytes r ->
  zlen (delta_row q r) = w /\ bytes (delta_row q r).
Proof.
  intros Hq Hqb Hr Hrb. split.
  - unfold delta_row, zlen in *. rewrite length_zip_with. lia.
  - unfold delta_row. clear w Hq Hr. revert q Hqb. induction Hrb as [|b r Hb _ IH]; intros q Hqb; [constructor|].
    destruct Hqb as [|a q Ha Hqb]; [constructor|]. simpl. constructor; [by apply delta_code_undelta|by apply IH].
Qed.

Lemma delta_rows_ok pr w rs : match pr with Some q => zlen q = w /\ bytes q | None => True end ->
  rows_ok w rs -> rows_ok w (delta_rows pr rs) /\ zlen (delta_rows pr rs) = zlen rs.
Proof.
  revert pr. induction rs as [|r rs IH]; intros pr Hpr Hrs; [done|].
  apply Forall_cons_1 in Hrs as [[Hw Hb] Hrs]. simpl.
  destruct (IH (Some r) (conj Hw Hb) Hrs) as [H1 H2]. rewrite !zlen_cons, H2. split; [|done].
  constructor; [|done]. destruct pr as [q|]; [|done]. destruct Hpr; by apply delta_row_ok.
Qed.

Lemma rows_at_lookup inp p w rs k r : 0 <= w -> rows_at inp p w rs -> rs !! k = Some r ->
  zlen r = w /\ 0 <= p + Z.of_nat k * w /\ p + Z.of_nat k * w + w <= zlen inp
  /\ slice (p + Z.of_nat k * w) w inp = r.
Proof.
  intros Hw. revert p k. induction rs as [|r0 rs IH]; intros p k Hrs Hk; [done|].
  destruct Hrs as (Hl & Hsl & Hp & Hpw & Hrs). destruct k as [|k].
  - injection Hk as <-. replace (p + Z.of_nat 0 * w) with p by lia. done.
  - destruct (IH (p + w) k Hrs Hk) as (H1 & H2 & H3 & H4).
    replace (p + Z.of_nat (S k) * w) with (p + w + Z.of_nat k * w) by lia. done.
Qed.

Lemma slice_lookup p w (l : list Z) x : 0 <= p -> 0 <= x < w -> p + w <= zlen l ->
  l !! Z.to_nat (p + x) = Some (nth (Z.to_nat x) (slice p w l) 0).
Proof.
  intros Hp Hx Hl. unfold slice, ztake, zdrop. rewrite nth_lookup, lookup_take_lt by lia.
  rewrite lookup_drop, <- Z2Nat.inj_add by lia.
  rewrite (lookup_nth l (Z.to_nat (p + x))) by (unfold zlen in Hl; lia). done.
Qed.

(** A loop that stores a line, byte by byte. *)
Lemma for_stores n off (line : list Z) body mem :
  zlen line = n -> 0 <= off -> off + n <= zlen mem ->
  (forall x m, 0 <= x < n -> zlen m = zlen mem -> body x m = store (off + x) [nth (Z.to_nat x) line 0] m) ->
  for_range (Z.to_nat n) 0 body mem = Ret tt (blit off line mem).
Proof.
  intros Hn Ho Hm Hb. pose proof (zlen_nonneg line).
  set (f k := blit off (take k line) mem).
  assert (mem = f O) as E0 by (change (mem = blit off [] mem); rewrite blit_nil; [done|lia]).
  rewrite E0 at 1. rewrite (for_range_states _ _ _ f).
  { unfold f. rewrite take_ge; [done|]. unfold zlen in Hn. lia. }
  intros k Hk. assert (k < length line)%nat as Hkl by (unfold zlen in Hn; lia).
  assert (zlen (take k line) = Z.of_nat k) as El by (unfold zlen; rewrite length_take; lia).
  assert (zlen (f k) = zlen mem) as Ef by (apply zlen_blit; lia).
  rewrite Z.add_0_l, Hb, store_blit by (done || (change (zlen [?v]) with 1; lia)).
  unfold f. rewrite (take_S_r _ _ (nth k line 0)) by by apply lookup_nth.
  rewrite <- blit_blit by (rewrite ?El; change (zlen [nth k line 0]) with 1; lia).
  rewrite El, Nat2Z.id. done.
Qed.

Lemma delta_rows_lookup pr rs k r q : rs !! S k = Some r -> rs !! k = Some q ->
  delta_rows pr rs !! S k = Some (delta_row q r).
Proof.
  revert pr k. induction rs as [|r0 rs IH]; intros pr k Hr Hq; [done|]. simpl in Hr. simpl.
  destruct k as [|k].
  - injection Hq as ->. destruct rs as [|r1 rs]; [done|]. injection Hr as ->. done.
  - by apply IH.
Qed.

Lemma nth_zip_delta q r x : zlen q = zlen r -> 0 <= x < zlen r ->
  nth (Z.to_nat x) (delta_row q r) 0 = delta_code (nth (Z.to_nat x) r 0) (nth (Z.to_nat x) q 0).
Proof.
  intros Hl Hx. unfold delta_row. rewrite nth_lookup, lookup_zip_with.
  rewrite (lookup_nth r), (lookup_nth q) by (unfold zlen in *; lia). done.
Qed.

Lemma mjoin_take_S {A} (ls : list (list A)) k l : ls !! k = Some l ->
  mjoin (take (S k) ls) = mjoin (take k ls) ++ l.
Proof. intros Hk. rewrite (take_S_r _ _ l Hk), join_app. simpl. by rewrite app_nil_r. Qed.

Lemma mjoin_rows_len w (ls : list (list Z)) : Forall (fun l => zlen l = w) ls ->
  zlen (mjoin ls) = zlen ls * w.
Proof.
  induction 1 as [|l ls Hl _ IH]; [done|]. simpl. rewrite zlen_app, zlen_cons, IH, Hl. lia.
Qed.

Lemma rows_ok_len w rs : rows_ok w rs -> Forall (fun l => zlen l = w) rs.
Proof. apply Forall_impl. by intros l [? ?]. Qed.

(** The encoder puts the differences of a plane's rows in its place. *)
Lemma delta_plane_exact inp base w h rs out :
  0 < w -> 0 < h -> zlen rs = h -> rows_at inp base w rs -> rows_ok w rs ->
  0 <= base -> base + h * w <= zlen out ->
  freerdp_bitmap_planar_delta_encode_plane inp base w h out
  = Ret tt (blit base (mjoin (delta_rows None rs)) out).
Proof.
  intros Hw Hh Hl Hat Hok Hb Hout. unfold freerdp_bitmap_planar_delta_encode_plane.
  destruct rs as [|r0 rs0] eqn:Ers; [change (zlen (@nil (list Z))) with 0 in Hl; lia|]. rewrite <- Ers in *.
  destruct (rows_at_lookup inp base w rs 0 r0 ltac:(lia) Hat ltac:(by rewrite Ers)) as (H1 & H2 & H3 & H4).
  replace (base + Z.of_nat 0 * w) with base in * by lia.
  rewrite (bind_ret_eq _ _ _ r0 out) by (rewrite copy_from_ok by lia; by rewrite H4).
  destruct (delta_rows_ok None w rs I Hok) as [Hdok Hdl].
  pose proof (rows_ok_len _ _ Hdok) as Hdw. set (ds := delta_rows None rs) in *.
  assert (forall k, (k <= length ds)%nat -> zlen (mjoin (take k ds)) = Z.of_nat k * w) as Hjl.
  { intros k Hk. rewrite (mjoin_rows_len w) by by apply Forall_take. unfold zlen. rewrite length_take. f_equal. lia. }
  set (f k := blit base (mjoin (take (S k) ds)) out).
  assert (blit base r0 out = f O) as E0 by (unfold f, ds; rewrite Ers; simpl; by rewrite app_nil_r).
  assert (h * w <= zlen out) by lia. assert (w <= h * w) by nia.
  rewrite (bind_ret_eq _ _ _ tt (f O)) by (rewrite store_blit by lia; by rewrite E0).
  rewrite (for_range_states _ _ _ f).
  { unfold f. rewrite take_ge; [done|]. unfold zlen in *. lia. }
  intros k Hk. assert (S k < length rs)%nat as HSk by (unfold zlen in Hl; lia).
  destruct (lookup_lt_is_Some_2 rs (S k) HSk) as [r Hr].
  destruct (lookup_lt_is_Some_2 rs k ltac:(lia)) as [q Hq].
  destruct (rows_at_lookup inp base w rs (S k) r ltac:(lia) Hat Hr) as (R1 & R2 & R3 & R4).
  destruct (rows_at_lookup inp base w rs k q ltac:(lia) Hat Hq) as (Q1 & Q2 & Q3 & Q4).
  assert (length ds = length rs) as Hdl' by (unfold zlen in Hdl; lia).
  pose proof (Hjl (S k) ltac:(lia)) as Hjk.
  assert (Z.of_nat (S k) * w + w <= h * w) by (unfold zlen in Hl; nia).
  assert (0 <= Z.of_nat (S k) * w) by nia.
  assert (zlen (f k) = zlen out) as Ef by (unfold f; apply zlen_blit; lia).
  rewrite (for_stores w (base + w * (1 + Z.of_nat k)) (delta_row q r)).
  - unfold f. rewrite (mjoin_take_S ds (S k) (delta_row q r)) by by apply delta_rows_lookup.
    assert (zlen (delta_row q r) = w) by (unfold delta_row, zlen in *; rewrite length_zip_with; lia).
    rewrite <- blit_blit by lia. do 2 f_equal. rewrite Hjk. lia.
  - unfold delta_row, zlen in *. rewrite length_zip_with. lia.
  - lia.
  - lia.
  - intros x m Hx Hm. replace (base + w * (1 + Z.of_nat k) + x) with (base + Z.of_nat (S k) * w + x) by lia.
    replace (base + (w * (1 + Z.of_nat k) - w) + x) with (base + Z.of_nat k * w + x) by lia.
    rewrite (bind_ret_eq _ _ _ (nth (Z.to_nat x) r 0) m)
      by (apply byte_at_ok; [lia|]; rewrite <- R4; apply slice_lookup; lia).
    rewrite (bind_ret_eq _ _ _ (nth (Z.to_nat x) q 0) m)
      by (apply byte_at_ok; [lia|]; rewrite <- Q4; apply slice_lookup; lia).
    rewrite nth_zip_delta by lia. done.
Qed.

Lemma slice_blit_at i n l (mem : list Z) : zlen l = n -> 0 <= i -> i + n <= zlen mem ->
  slice i n (blit i l mem) = l.
Proof.
  intros <- Hi Hm. pose proof (slice_blit_extend i 0 l mem) as E. rewrite Z.add_0_r, Z.add_0_l in E.
  rewrite E by lia. by rewrite slice_zero.
Qed.

Lemma slice_blit_apart j n i l (mem : list Z) : 0 <= i -> i + zlen l <= zlen mem -> 0 <= j -> 0 <= n ->
  j + n <= i \/ i + zlen l <= j -> slice j n (blit i l mem) = slice j n mem.
Proof.
  intros Hi Hm Hj Hn [Hd|Hd]; unfold slice; pose proof (zlen_nonneg l).
  - rewrite zdrop_blit_before, ztake_blit_before; [done|lia|rewrite zlen_zdrop; lia|lia|lia].
  - by rewrite zdrop_blit_after by lia.
Qed.

(** Rows that are one behind the other. *)
Lemma rows_at_slice mem p w rs : 0 <= p -> 0 <= w -> Forall (fun r => zlen r = w) rs ->
  p + zlen rs * w <= zlen mem -> slice p (zlen rs * w) mem = mjoin rs -> rows_at mem p w rs.
Proof.
  intros Hp Hw Hr. revert p Hp. induction Hr as [|r rs Hr Hrs IH]; intros p Hp Hm Hs; [done|].
  rewrite zlen_cons in *. pose proof (zlen_nonneg rs). assert (0 <= zlen rs * w) by nia.
  assert (zlen (mjoin rs) = zlen rs * w) as Hj by by apply mjoin_rows_len.
  destruct (slice_app_inv p r (mjoin rs) mem ((zlen rs + 1) * w) Hp) as [S1 S2]; [exact Hs|lia|].
  rewrite Hr, Hj in *. simpl. split_and!; try done; try lia. apply IH; (done || lia).
Qed.

Lemma rows_at_join mem p w rs : 0 <= w -> rows_at mem p w rs -> 0 <= p -> p + zlen rs * w <= zlen mem ->
  slice p (zlen rs * w) mem = mjoin rs.
Proof.
  intros Hw. revert p. induction rs as [|r rs IH]; intros p Hat Hp Hm; [by rewrite slice_zero|].
  destruct Hat as (H1 & H2 & _ & _ & H3). rewrite zlen_cons in *. pose proof (zlen_nonneg rs).
  assert (0 <= zlen rs * w) by nia.
  replace ((zlen rs + 1) * w) with (w + zlen rs * w) by lia.
  rewrite slice_split by lia. simpl. f_equal; [done|]. apply IH; (done || lia).
Qed.

(** Four planes in a block, [n] bytes apart. *)
Definition four_planes (mem : list Z) (n w h : Z) (pl : Z -> list (list Z)) : Prop :=
  forall i, 0 <= i < 4 -> zlen (pl i) = h /\ rows_ok w (pl i) /\ rows_at mem (i * n) w (pl i).

Lemma delta_planes_exact inp n w h pl out :
  0 < w -> 0 < h -> h * w <= n -> four_planes inp n w h pl -> 4 * n <= zlen out ->
  exists out', zlen out' = zlen out
    /\ for_range 4 0 (fun i => freerdp_bitmap_planar_delta_encode_plane inp (i * n) w h) out = Ret tt out'
    /\ four_planes out' n w h (fun i => delta_rows None (pl i)).
Proof.
  intros Hw Hh Hn Hpl Hout.
  set (code i := mjoin (delta_rows None (pl i))).
  assert (forall i, 0 <= i < 4 -> zlen (code i) = h * w /\ rows_ok w (delta_rows None (pl i))
    /\ zlen (delta_rows None (pl i)) = h) as Hcode.
  { intros i Hi. destruct (Hpl i Hi) as (H1 & H2 & _). destruct (delta_rows_ok None w (pl i) I H2) as [H3 H4].
    split; [|split; [done|lia]]. unfold code. rewrite (mjoin_rows_len w) by by apply rows_ok_len. lia. }
  assert (forall i m, 0 <= i < 4 -> zlen m = zlen out ->
    freerdp_bitmap_planar_delta_encode_plane inp (i * n) w h m = Ret tt (blit (i * n) (code i) m)
    /\ zlen (blit (i * n) (code i) m) = zlen out) as Hstep.
  { intros i m Hi Hm. destruct (Hpl i Hi) as (H1 & H2 & H3). destruct (Hcode i Hi) as (H4 & _).
    assert (0 <= i * n) by nia. assert (i * n + n <= 4 * n) by nia.
    split; [apply delta_plane_exact; (done || lia)|]. rewrite zlen_blit; lia. }
  destruct (Hstep 0 out ltac:(lia) eq_refl) as [E0 L0]. destruct (Hstep 1 _ ltac:(lia) L0) as [E1 L1].
  destruct (Hstep 2 _ ltac:(lia) L1) as [E2 L2]. destruct (Hstep 3 _ ltac:(lia) L2) as [E3 L3].
  eexists. split; [exact L3|]. split.
  { cbn [for_range Z.add]. rewrite (bind_ret_eq _ _ _ _ _ E0). change (0 + 1) with 1.
    rewrite (bind_ret_eq _ _ _ _ _ E1). change (1 + 1) with 2. rewrite (bind_ret_eq _ _ _ _ _ E2).
    change (2 + 1) with 3. by rewrite (bind_ret_eq _ _ _ _ _ E3). }
  intros i Hi. destruct (Hcode i Hi) as (C1 & C2 & C3). split_and!; [done|done|].
  apply rows_at_slice; [nia|lia|by apply rows_ok_len|rewrite C3, L3; nia|].
  fold (code i). rewrite C3.
  destruct (Hcode 0 ltac:(lia)) as [Z0 _]. destruct (Hcode 1 ltac:(lia)) as [Z1 _].
  destruct (Hcode 2 ltac:(lia)) as [Z2 _]. destruct (Hcode 3 ltac:(lia)) as [Z3 _].
  assert (i = 0 \/ i = 1 \/ i = 2 \/ i = 3) as [->|[->|[->| ->]]] by lia;
    repeat (rewrite slice_blit_apart by lia); apply slice_blit_at; lia.
Qed.

(** ** Planes of an image *)

Definition image_pixel (data : list Z) (format scan x y : Z) : rgba :=
  let bpp := FreeRDPGetBytesPerPixel format in
  match FreeRDPReadColor (slice (scan * y + x * bpp) bpp data) format with
  | Some v => split_direct v format
  | None => grey 0
  end.

(** The channel of a plane. *)
Definition channel (i : Z) (c : rgba) : Z :=
  if i =? 0 then c_a c else if i =? 1 then c_r c else if i =? 2 then c_g c else c_b c.

(** The row of the image that comes as the [k]th. *)
Definition image_row (topdown : bool) (h k : Z) : Z := if topdown then k else h - 1 - k.

Definition image_plane (data : list Z) (format scan w h : Z) (topdown : bool) (i : Z) : list (list Z) :=
  map (fun k => map (fun x => channel i (image_pixel data format scan x (image_row topdown h k))) (seqZ 0 w))
    (seqZ 0 h).

Lemma channel5_byte c : is_byte (channel5 c).
Proof. unfold channel5, is_byte, u8. apply Z.mod_pos_bound. lia. Qed.

Lemma channel6_byte c : is_byte (channel6 c).
Proof. unfold channel6, is_byte, u8. apply Z.mod_pos_bound. lia. Qed.

Lemma split_direct_ok v f : rgba_ok (split_direct v f).
Proof.
  assert (forall k, is_byte (u8 (Z.shiftr v k))) as Hu by (intros; apply Z.mod_pos_bound; lia).
  unfold split_direct, split_high, rgba_ok, grey.
  repeat match goal with |- context [f =? ?b] => destruct (f =? b) end;
    cbn [c_r c_g c_b c_a]; split_and!;
    first [apply Hu | apply channel5_byte | apply channel6_byte | zcase; done | done].
Qed.

Lemma channel_byte i c : rgba_ok c -> is_byte (channel i c).
Proof. intros (? & ? & ? & ?). unfold channel. by repeat zcase. Qed.

Lemma image_pixel_ok data format scan x y : rgba_ok (image_pixel data format scan x y).
Proof.
  unfold image_pixel. destruct (FreeRDPReadColor _ _); [apply split_direct_ok|done].
Qed.

Lemma zlen_map_seqZ {A} (f : Z -> A) n : 0 <= n -> zlen (map f (seqZ 0 n)) = n.
Proof. intros. unfold zlen. rewrite length_map, length_seqZ. lia. Qed.

Lemma lookup_map_seqZ {A} (f : Z -> A) n k : 0 <= k < n -> map f (seqZ 0 n) !! Z.to_nat k = Some (f k).
Proof.
  intros Hk. change (map f (seqZ 0 n)) with (f <$> seqZ 0 n).
  rewrite list_lookup_fmap, lookup_seqZ_lt by lia. simpl. do 2 f_equal. lia.
Qed.

Lemma image_plane_ok data format scan w h td i : 0 <= w -> 0 <= h ->
  zlen (image_plane data format scan w h td i) = h /\ rows_ok w (image_plane data format scan w h td i).
Proof.
  intros Hw Hh. split; [by apply zlen_map_seqZ|]. apply Forall_forall. intros r Hr.
  apply in_map_iff in Hr as (k & <- & _). split; [by apply zlen_map_seqZ|].
  apply Forall_forall. intros b Hb. apply in_map_iff in Hb as (x & <- & _).
  apply channel_byte, image_pixel_ok.
Qed.

(** The pixels up to the [k]th are in the four planes. *)
Definition split_upto (n L : Z) (pix : Z -> rgba) (k : Z) (mem : list Z) : Prop :=
  zlen mem = L
  /\ forall i j, 0 <= i < 4 -> 0 <= j < k -> mem !! Z.to_nat (i * n + j) = Some (channel i (pix j)).

Lemma split_pixel_step n L pix k color format m :
  0 <= k < n -> 4 * n <= L -> FreeRDPSplitColor color format None = Some (pix k) ->
  split_upto n L pix k m -> exists m', split_pixel n k color format m = Ret tt m' /\ split_upto n L pix (k + 1) m'.
Proof.
  intros Hk HL Hc [Hlen Hin]. unfold split_pixel. rewrite Hc. rewrite <- Hlen in HL.
  rewrite (bind_ret_eq _ _ _ tt (<[Z.to_nat (1 * n + k) := c_r (pix k)]> m)) by (apply store_byte; lia).
  erewrite bind_ret_eq; [|apply store_byte; rewrite zlen_insert; lia].
  erewrite bind_ret_eq; [|apply store_byte; rewrite !zlen_insert; lia].
  eexists. split; [apply store_byte; rewrite !zlen_insert; lia|].
  split; [by rewrite !zlen_insert|]. intros i j Hi Hj.
  assert (Z.to_nat (3 * n + k) < length m)%nat by (unfold zlen in HL; lia).
  assert (i = 0 \/ i = 1 \/ i = 2 \/ i = 3) as Hi4 by lia.
  destruct (Z.eq_dec j k) as [->|Hjk].
  - destruct Hi4 as [->|[->|[->| ->]]];
      repeat (first [rewrite list_lookup_insert_eq by (rewrite ?length_insert; lia)
                    | rewrite list_lookup_insert_ne by lia]); done.
  - destruct Hi4 as [->|[->|[->| ->]]]; rewrite !list_lookup_insert_ne by lia; apply Hin; lia.
Qed.

(** The pixel that comes as the [j]th. *)
Definition nth_pixel (data : list Z) (format scan w h : Z) (td : bool) (j : Z) : rgba :=
  image_pixel data format scan (j mod w) (image_row td h (j / w)).

Lemma nth_pixel_at data format scan w h td k x : 0 <= x < w ->
  nth_pixel data format scan w h td (k * w + x) = image_pixel data format scan x (image_row td h k).
Proof.
  intros Hx. unfold nth_pixel. rewrite Z.add_comm, Z.mod_add, Z.div_add by lia.
  by rewrite Z.mod_small, Z.div_small by lia.
Qed.

Lemma image_plane_lookup data format scan w h td i j : 0 < w -> 0 <= h -> 0 <= j < h * w ->
  mjoin (image_plane data format scan w h td i) !! Z.to_nat j
  = Some (channel i (nth_pixel data format scan w h td j)).
Proof.
  intros Hw Hh Hj. destruct (image_plane_ok data format scan w h td i) as [_ Hok]; [lia..|].
  assert (Hdiv : 0 <= j / w < h) by (split; [apply Z.div_pos; lia|apply Z.div_lt_upper_bound; lia]).
  pose proof (Z.mod_pos_bound j w Hw). pose proof (Z.div_mod j w ltac:(lia)).
  apply join_lookup_Some_same_length with (n := Z.to_nat w).
  - eapply Forall_impl; [|exact (rows_ok_len _ _ Hok)]. intros r Hr. unfold zlen in Hr. lia.
  - eexists (Z.to_nat (j / w)), _, (Z.to_nat (j mod w)).
    split_and!; [unfold image_plane; by rewrite (lookup_map_seqZ _ h) by done
                |by rewrite (lookup_map_seqZ _ w) by done|].
    apply Nat2Z.inj. rewrite Nat2Z.inj_add, Nat2Z.inj_mul, !Z2Nat.id by lia. lia.
Qed.

Lemma split_upto_planes data format scan w h td n L mem : 0 < w -> 0 < h -> h * w <= n -> 4 * n <= L ->
  split_upto n L (nth_pixel data format scan w h td) (h * w) mem ->
  four_planes mem n w h (image_plane data format scan w h td).
Proof.
  intros Hw Hh Hn HL [Hlen Hin] i Hi. destruct (image_plane_ok data format scan w h td i) as [H1 H2]; [lia..|].
  split_and!; [done|done|]. assert (0 <= i * n) by nia. assert (i * n + n <= 4 * n) by nia.
  apply rows_at_slice; [lia|lia|by apply rows_ok_len|lia|]. rewrite H1.
  pose proof (rows_ok_len _ _ H2) as Hl. pose proof (mjoin_rows_len w _ Hl) as Hj. rewrite H1 in Hj.
  apply list_eq_same_length with (n := Z.to_nat (h * w)).
  { unfold zlen in Hj. lia. }
  { pose proof (zlen_slice (i * n) (h * w) mem) as E. unfold zlen in *. lia. }
  intros j a b Hj' Ha Hb.
  assert (0 <= Z.of_nat j < h * w) as Hjr by lia.
  pose proof (slice_lookup (i * n) (h * w) mem (Z.of_nat j) ltac:(lia) Hjr ltac:(lia)) as E.
  rewrite Hin in E by lia. rewrite Nat2Z.id in E. rewrite nth_lookup, Ha in E. injection E as <-.
  pose proof (image_plane_lookup data format scan w h td i (Z.of_nat j) Hw ltac:(lia) Hjr) as Hlook.
  rewrite Nat2Z.id in Hlook. congruence.
Qed.

(** The encoder splits an image into its planes. *)
Lemma split_image_exact data format scan w h (td : bool) n mem :
  format ∈ supported -> 0 < w -> 0 < h -> fits format scan 0 0 w h data ->
  h * w <= n -> 4 * n <= zlen mem ->
  exists mem', zlen mem' = zlen mem
    /\ for_range (Z.to_nat h) 0 (fun k =>
         split_row data format w n (scan * (if td then k else h - 1 - k)) (k * w)) mem = Ret tt mem'
    /\ four_planes mem' n w h (image_plane data format scan w h td).
Proof.
  intros Hf Hw Hh (_ & _ & Hfx & Hfy) Hn Hm. rewrite !Z.add_0_l in *.
  pose proof (supported_bytes format Hf). destruct (supported_bits format Hf) as [_ Hn8].
  set (bpp := FreeRDPGetBytesPerPixel format) in *.
  set (pix := nth_pixel data format scan w h td).
  destruct (for_range_inv (fun k m => split_upto n (zlen mem) pix (k * w) m) (Z.to_nat h) 0
    (fun k => split_row data format w n (scan * (if td then k else h - 1 - k)) (k * w)) mem) as (mem' & E & HI).
  - intros k m Hk Hk'. rewrite Z2Nat.id in Hk by lia. fold (image_row td h k). set (y := image_row td h k).
    assert (0 <= y < h) by (unfold y, image_row; destruct td; lia).
    assert (0 <= scan * y) by nia. assert (scan * y + scan <= h * scan) by nia.
    assert (k * w + w <= h * w) by nia. assert (0 <= k * w) by nia.
    destruct (for_range_inv (fun x m => split_upto n (zlen mem) pix (k * w + x) m) (Z.to_nat w) 0
      (fun j => color ← read_pixel data (scan * y + j * bpp) format; split_pixel n (k * w + j) color format) m)
      as (m' & E & HI).
    + intros x m1 Hx HI. rewrite Z2Nat.id in Hx by lia.
      assert (0 <= x * bpp) by nia. assert (x * bpp + bpp <= w * bpp) by nia.
      destruct (read_pixel_ok data format Hf (scan * y + x * bpp) m1) as (v & Hv & Hr); [lia|fold bpp; lia|].
      rewrite (bind_ret_eq _ _ _ _ _ Hr). rewrite Z.add_assoc. apply split_pixel_step; [lia|lia| |done].
      unfold FreeRDPSplitColor. rewrite (proj2 (Z.eqb_neq _ _) Hn8). unfold pix.
      rewrite nth_pixel_at by lia. fold y. unfold image_pixel. fold bpp in Hv |- *. by rewrite Hv.
    + by rewrite Z.add_0_r.
    + exists m'. split; [exact E|]. rewrite Z2Nat.id in HI by lia.
      by replace ((k + 1) * w) with (k * w + (0 + w)) by lia.
  - split; [done|]. intros i j _ Hj. lia.
  - rewrite Z2Nat.id, Z.add_0_l in HI by lia. exists mem'. split; [apply HI|]. split; [done|].
    by apply (split_upto_planes _ _ _ _ _ _ n (zlen mem)).
Qed.

(** ** The encoder on images *)

(** The blocks of the context hold four planes of an image of this size. *)
Record ready (w h : Z) (ctx : BITMAP_PLANAR_CONTEXT) : Prop := mkReady {
  ready_w : 0 < w;
  ready_h : 0 < h;
  ready_max : 4 * (w * h) <= INT32_MAX;
  ready_set : planes_set ctx = true;
  ready_plane : h * w <= maxPlaneSize ctx;
  ready_planes : exists b, planesBuffer ctx = Live b /\ 4 * maxPlaneSize ctx <= zlen b;
  ready_delta : exists b, deltaPlanesBuffer ctx = Live b /\ 4 * maxPlaneSize ctx <= zlen b;
  ready_rle : exists b, rlePlanesBuffer ctx = Live b /\ 4 * maxPlaneSize ctx <= zlen b
}.

Lemma on_block_ret {A} sel upd (m : M (list Z) A) ctx l a l' : sel ctx = Live l -> m l = Ret a l' ->
  on_block sel upd m ctx = Ret a (upd (Live l') ctx).
Proof. intros Hs Hm. unfold on_block. by rewrite Hs, Hm. Qed.

(** A context after work on its blocks: room and options are as before. *)
Record kept (ctx ctx' : BITMAP_PLANAR_CONTEXT) : Prop := mkKept {
  kept_ready : forall w h, ready w h ctx -> ready w h ctx';
  kept_skip : AllowSkipAlpha ctx' = AllowSkipAlpha ctx;
  kept_run : AllowRunLengthEncoding ctx' = AllowRunLengthEncoding ctx;
  kept_bgr : bgr ctx' = bgr ctx;
  kept_topdown : topdown ctx' = topdown ctx
}.

#[global] Instance kept_refl : Reflexive kept.
Proof. by intros ctx. Qed.

#[global] Instance kept_trans : Transitive kept.
Proof. intros c1 c2 c3 [] []. split; [auto|congruence..]. Qed.

(** A block that is replaced by one of the same size. *)
Lemma kept_planes ctx b b' : planesBuffer ctx = Live b -> zlen b' = zlen b -> kept ctx (set_planesBuffer (Live b') ctx).
Proof.
  intros Hb Hl. split; [|done..]. intros w h [? ? ? ? ? (c & Hc & Hcl) ? ?]. split; try done.
  exists b'. split; [done|]. assert (c = b) as -> by congruence. change (4 * maxPlaneSize ctx <= zlen b'). lia.
Qed.

Lemma kept_delta ctx b b' : deltaPlanesBuffer ctx = Live b -> zlen b' = zlen b ->
  kept ctx (set_deltaPlanesBuffer (Live b') ctx).
Proof.
  intros Hb Hl. split; [|done..]. intros w h [? ? ? ? ? ? (c & Hc & Hcl) ?]. split; try done.
  exists b'. split; [done|]. assert (c = b) as -> by congruence. change (4 * maxPlaneSize ctx <= zlen b'). lia.
Qed.

Lemma kept_rle ctx b b' : rlePlanesBuffer ctx = Live b -> zlen b' = zlen b ->
  kept ctx (set_rlePlanesBuffer (Live b') ctx).
Proof.
  intros Hb Hl. split; [|done..]. intros w h [? ? ? ? ? ? ? (c & Hc & Hcl)]. split; try done.
  exists b'. split; [done|]. assert (c = b) as -> by congruence. change (4 * maxPlaneSize ctx <= zlen b'). lia.
Qed.

(** The planes that are sent. *)
Definition sent_planes (skip : bool) : list Z := if skip then [1; 2; 3] else [0; 1; 2; 3].

(** The code of an image. *)
Definition image_code (data : list Z) (format scan w h : Z) (td skip : bool) : list Z :=
  planes_code (map (fun i => delta_rows None (image_plane data format scan w h td i)) (sent_planes skip)).

Definition rle_header (skip : bool) : Z :=
  Z.lor (if skip then PLANAR_FORMAT_HEADER_NA else 0) PLANAR_FORMAT_HEADER_RLE.

(** The image is split and its differences are taken. *)
Lemma split_and_delta data format w h scan ctx :
  ready w h ctx -> format ∈ supported -> fits format scan 0 0 w h data -> scan <= INT32_MAX ->
  exists ctx1 db, freerdp_split_color_planes data format w h scan ctx = Ret tt ctx1
    /\ (exists b, planesBuffer ctx1 = Live b /\ four_planes b (maxPlaneSize ctx) w h (image_plane data format scan w h (topdown ctx)))
    /\ (exists b, ctx1 = set_planesBuffer (Live b) ctx)
    /\ kept ctx ctx1 /\ kept ctx (set_deltaPlanesBuffer (Live db) ctx1)
    /\ freerdp_bitmap_planar_delta_encode_planes w h ctx1 = Ret tt (set_deltaPlanesBuffer (Live db) ctx1)
    /\ four_planes db (maxPlaneSize ctx) w h
         (fun i => delta_rows None (image_plane data format scan w h (topdown ctx) i)).
Proof.
  intros [Hw Hh Hmax Hset Hpl (pb & Hpb & Hpbl) (db & Hdb & Hdbl) _] Hf Hfit Hscan.
  pose proof (supported_bytes format Hf). pose proof Hfit as (_ & _ & Hfx & _). rewrite Z.add_0_l in Hfx.
  unfold INT32_MAX in *. assert (w <= w * h) by nia. assert (h <= w * h) by nia. assert (0 < scan) by nia.
  destruct (split_image_exact data format scan w h (topdown ctx) (maxPlaneSize ctx) pb Hf Hw Hh Hfit Hpl Hpbl)
    as (pb' & Hpb' & Esplit & Hfour).
  destruct (delta_planes_exact pb' (maxPlaneSize ctx) w h _ db Hw Hh Hpl Hfour Hdbl) as (db' & Hdb' & Edelta & Hfour').
  exists (set_planesBuffer (Live pb') ctx), db'. split_and!; [|by exists pb'|by exists pb'| | | |done].
  - unfold freerdp_split_color_planes. rewrite get_bind, guard_bind by (unfold INT32_MAX; lia). cbv zeta.
    replace (scan =? 0) with false by lia. rewrite Hset. cbn [negb andb]. rewrite ret_bind.
    apply (on_block_ret _ _ _ _ pb); [done|exact Esplit].
  - by apply (kept_planes _ pb).
  - transitivity (set_planesBuffer (Live pb') ctx); [by apply (kept_planes _ pb)|by apply (kept_delta _ db)].
  - unfold freerdp_bitmap_planar_delta_encode_planes. rewrite get_bind.
    change (planes_set (set_planesBuffer (Live pb') ctx)) with (planes_set ctx). rewrite Hset. cbn [negb].
    change (planesBuffer (set_planesBuffer (Live pb') ctx)) with (Live pb'). cbn [contents]. rewrite ret_bind.
    apply (on_block_ret _ _ _ _ db); [done|exact Edelta].
Qed.

Lemma four_planes_at mem n w h pl skip : four_planes mem n w h pl ->
  planes_at mem n w h (sent_planes skip) (map pl (sent_planes skip)).
Proof.
  intros Hf. assert (forall i, 0 <= i < 4 -> zlen (pl i) = h /\ rows_at mem (i * n) w (pl i)) as Hi.
  { intros i Hi. destruct (Hf i Hi) as (? & _ & ?). done. }
  destruct skip; repeat (constructor; [apply Hi; lia|]); constructor.
Qed.

(** The sizes the encoder works with: those of the planes that are sent, and 0 for one that is not. *)
Definition all_sizes (skip : bool) (szs : list Z) : list Z := if skip then 0 :: szs else szs.

Lemma compress_planes_rle_cases inp n w h pl skip mem :
  four_planes inp n w h pl -> 0 < w -> 0 < h -> 4 * (w * h) <= INT32_MAX -> 4 * (w * h) <= zlen mem ->
  let code := planes_code (map pl (sent_planes skip)) in
  (zlen code <= 4 * (w * h)
   /\ freerdp_bitmap_planar_compress_planes_rle inp n w h skip mem
      = Ret (Some (all_sizes skip (map (fun ls => zlen (plane_code ls)) (map pl (sent_planes skip)))))
          (blit 0 code mem))
  \/ (4 * (w * h) < zlen code /\ exists mem', zlen mem' = zlen mem
      /\ (freerdp_bitmap_planar_compress_planes_rle inp n w h skip mem = Ret None mem'
          \/ exists szs, freerdp_bitmap_planar_compress_planes_rle inp n w h skip mem
                         = Ret (Some (all_sizes skip szs)) mem'
             /\ sizes_sum szs = 4 * (w * h) /\ length szs = length (sent_planes skip)
             /\ Forall (fun z => 0 <= z) szs)).
Proof.
  intros Hf Hw Hh Hmax Hm code. unfold INT32_MAX in Hmax.
  assert (w <= w * h) by nia.
  unfold freerdp_bitmap_planar_compress_planes_rle.
  replace (u32 (w * h * 4)) with (4 * (w * h)) by word_lia.
  pose proof (compress_planes_exact inp n w h (sent_planes skip) (map pl (sent_planes skip)) 0 (4 * (w * h)) mem
    (four_planes_at _ _ _ _ _ skip Hf) ltac:(unfold UINT32_MAX; lia) Hh ltac:(lia) ltac:(unfold UINT32_MAX; lia)
    ltac:(lia)) as Hc.
  fold code in Hc. destruct Hc as [[H1 E]|[H1 (mem' & Hl & E)]]; [left|right]; (split; [done|]).
  - destruct skip; [|exact E]. cbn [sent_planes] in E. by rewrite (bind_ret_eq _ _ _ _ _ E).
  - exists mem'. split; [done|]. destruct E as [E|(szs & E & Hs)].
    + left. destruct skip; [|exact E]. cbn [sent_planes] in E. by rewrite (bind_ret_eq _ _ _ _ _ E).
    + right. exists szs. split; [|exact Hs]. destruct skip; [|exact E]. cbn [sent_planes] in E.
      by rewrite (bind_ret_eq _ _ _ _ _ E).
Qed.

(** The slices of a block one behind the other. *)
Fixpoint pieces (mem : list Z) (p : Z) (szs : list Z) : list Z :=
  match szs with
  | [] => []
  | n :: szs' => slice p n mem ++ pieces mem (p + n) szs'
  end.

Lemma pieces_slice mem p szs : Forall (fun z => 0 <= z) szs -> 0 <= p -> p + sizes_sum szs <= zlen mem ->
  pieces mem p szs = slice p (sizes_sum szs) mem.
Proof.
  intros Hz. revert p. induction Hz as [|n szs Hn Hz IH]; intros p Hp Hm; [by rewrite slice_zero|].
  assert (0 <= sizes_sum szs) by (clear IH Hm; induction Hz; simpl; [lia|unfold sizes_sum in *; lia]).
  simpl in *. fold (sizes_sum szs) in *. rewrite IH by lia. symmetry. apply slice_split; lia.
Qed.

Lemma sizes_planes_code lss :
  sizes_sum (map (fun ls => zlen (plane_code ls)) lss) = zlen (planes_code lss).
Proof.
  induction lss as [|ls lss IH]; [done|].
  change (planes_code (ls :: lss)) with (plane_code ls ++ planes_code lss). rewrite zlen_app, <- IH. done.
Qed.

Section Compress.
Context `{Alloc}.

(** The message made of pieces of the block with the codes. *)
Lemma emit_rle_ok ctx szs mem n0 n1 n2 n3 :
  rlePlanesBuffer ctx = Live mem -> all_sizes (AllowSkipAlpha ctx) szs = [n0; n1; n2; n3] ->
  Forall (fun z => 0 <= z) szs -> sizes_sum szs <= zlen mem -> sizes_sum szs < INT32_MAX ->
  emit_rle (if AllowSkipAlpha ctx then PLANAR_FORMAT_HEADER_NA else 0) n0 n1 n2 n3 None ctx
  = if malloc_ok (1 + sizes_sum szs) then Ret (rle_header (AllowSkipAlpha ctx) :: slice 0 (sizes_sum szs) mem) ctx
    else Fail ctx.
Proof.
  intros Hb Hs Hz Hm Hmax. unfold INT32_MAX in Hmax.
  rewrite <- pieces_slice by (done || lia).
  unfold emit_rle. rewrite get_bind. cbv zeta. rewrite Hb.
  assert (0 <= n0 /\ 0 <= n1 /\ 0 <= n2 /\ 0 <= n3 /\ n0 + n1 + n2 + n3 = sizes_sum szs
          /\ pieces mem 0 szs = (if AllowSkipAlpha ctx then [] else slice 0 n0 mem) ++ slice n0 n1 mem
                                ++ slice (n0 + n1) n2 mem ++ slice (n0 + n1 + n2) n3 mem
          /\ (AllowSkipAlpha ctx = true -> n0 = 0)) as (P0 & P1 & P2 & P3 & Psum & Ppc & Pskip).
  { destruct (AllowSkipAlpha ctx); cbn [all_sizes] in Hs; [injection Hs as <- ->|subst szs];
      repeat (apply Forall_cons_1 in Hz as [? Hz]); simpl; rewrite ?app_nil_r;
      split_and!; try done; try lia. }
  replace (u32 (1 + (if AllowSkipAlpha ctx then 0 else n0) + (n1 + n2 + n3))) with (1 + sizes_sum szs).
  2:{ destruct (AllowSkipAlpha ctx); [specialize (Pskip eq_refl)|]; word_lia. }
  destruct (malloc_ok (1 + sizes_sum szs)); cbn [guard]; [|done].
  assert (forall S (s : S), (if AllowSkipAlpha ctx then mret [] else copy_from 0 n0 mem) s
    = Ret (if AllowSkipAlpha ctx then [] else slice 0 n0 mem) s) as Ea.
  { intros. destruct (AllowSkipAlpha ctx); [done|]. apply copy_from_ok; lia. }
  rewrite (bind_ret_eq _ _ _ (1 + sizes_sum szs) ctx) by done. cbn [contents]. rewrite ret_bind.
  rewrite (bind_ret_eq _ _ _ _ _ (Ea _ ctx)).
  rewrite (bind_ret_eq _ _ _ (slice n0 n1 mem) ctx) by (apply copy_from_ok; lia).
  rewrite (bind_ret_eq _ _ _ (slice (n0 + n1) n2 mem) ctx) by (apply copy_from_ok; lia).
  rewrite (bind_ret_eq _ _ _ (slice (n0 + n1 + n2) n3 mem) ctx) by (apply copy_from_ok; lia).
  cbv zeta. rewrite <- Ppc, zlen_cons, pieces_slice, zlen_slice by (done || lia).
  replace (sizes_sum szs + 1 <=? 1 + sizes_sum szs) with true by lia. done.
Qed.

(** The message of an image: its code, when that is not longer than the four planes; otherwise the
    image is refused, or the message is cut off there. *)
Lemma compress_rle_cases data format w h scan ctx :
  ready w h ctx -> format ∈ supported -> fits format scan 0 0 w h data -> scan <= INT32_MAX ->
  AllowRunLengthEncoding ctx = true -> bgr ctx = false ->
  let code := image_code data format scan w h (topdown ctx) (AllowSkipAlpha ctx) in
  exists ctx', kept ctx ctx' /\ (
    (zlen code <= 4 * (w * h)
     /\ freerdp_bitmap_compress_planar data format w h scan None ctx
        = if malloc_ok (1 + zlen code) then Ret (rle_header (AllowSkipAlpha ctx) :: code) ctx' else Fail ctx')
    \/ (4 * (w * h) < zlen code
        /\ (freerdp_bitmap_compress_planar data format w h scan None ctx = Fail ctx'
            \/ exists out, freerdp_bitmap_compress_planar data format w h scan None ctx = Ret out ctx'
                 /\ zlen out = 1 + 4 * (w * h)))).
Proof.
  intros Hr Hf Hfit Hscan Hrle Hbgr code.
  destruct (split_and_delta data format w h scan ctx Hr Hf Hfit Hscan)
    as (ctx1 & db & Esplit & _ & (pb & Hc1) & _ & Hk & Edelta & Hfour).
  destruct Hr as [Hw Hh Hmax Hset Hpl _ _ (rb & Hrb & Hrbl)]. unfold INT32_MAX in Hmax.
  assert (0 < w * h) by nia.
  set (ctx2 := set_deltaPlanesBuffer (Live db) ctx1) in *.
  assert (rlePlanesBuffer ctx2 = Live rb) as Hrb2 by (unfold ctx2; by rewrite Hc1).
  assert (forall m, zlen m = zlen rb -> kept ctx (set_rlePlanesBuffer (Live m) ctx2)) as Hkept.
  { intros m Hm. transitivity ctx2; [exact Hk|]. by apply (kept_rle _ rb). }
  assert (AllowSkipAlpha ctx2 = AllowSkipAlpha ctx) as Hsk by (unfold ctx2; by rewrite Hc1).
  assert (forall r, freerdp_bitmap_planar_compress_planes_rle db (maxPlaneSize ctx) w h (AllowSkipAlpha ctx) rb = r ->
    freerdp_bitmap_compress_planar data format w h scan None ctx =
    match r with
    | Ret (Some [n0; n1; n2; n3]) l =>
        emit_rle (if AllowSkipAlpha ctx then PLANAR_FORMAT_HEADER_NA else 0) n0 n1 n2 n3 None
          (set_rlePlanesBuffer (Live l) ctx2)
    | Ret _ l => Fail (set_rlePlanesBuffer (Live l) ctx2)
    | Fail l => Fail (set_rlePlanesBuffer (Live l) ctx2)
    | Crash f => Crash f
    end) as Hmain.
  { intros r Er. unfold freerdp_bitmap_compress_planar. rewrite get_bind, guard_bind by by rewrite Hrb. cbv zeta.
    replace (if negb (AllowSkipAlpha ctx) then planar_invert_format ctx true format else format) with format
      by (unfold planar_invert_format; rewrite Hbgr; by destruct (AllowSkipAlpha ctx)).
    rewrite (bind_ret_eq _ _ _ _ _ Esplit). rewrite Hrle. rewrite (bind_ret_eq _ _ _ _ _ Edelta).
    rewrite get_bind. change (deltaPlanesBuffer ctx2) with (Live db). cbn [contents]. rewrite ret_bind.
    change (maxPlaneSize ctx2) with (maxPlaneSize ctx1). replace (maxPlaneSize ctx1) with (maxPlaneSize ctx) by by rewrite Hc1.
    rewrite Hsk. unfold mbind at 1, M_bind, on_rle, on_block. rewrite Hrb2, Er.
    destruct r as [[[|? [|? [|? [|? [|]]]]]|] l|l|f]; done. }
  destruct (compress_planes_rle_cases db (maxPlaneSize ctx) w h _ (AllowSkipAlpha ctx) rb Hfour Hw Hh
    ltac:(unfold INT32_MAX; lia) ltac:(nia)) as [[Hlen E]|[Hlen (mem' & Hl & E)]].
  - change (planes_code (map (fun i => delta_rows None (image_plane data format scan w h (topdown ctx) i))
      (sent_planes (AllowSkipAlpha ctx)))) with code in *.
    assert (zlen (blit 0 code rb) = zlen rb) as Hm' by (apply zlen_blit; [lia|nia]).
    apply Hmain in E. set (szs := map (fun ls => zlen (plane_code ls)) _) in E.
    set (mem' := blit 0 _ rb) in E. change (zlen mem' = zlen rb) in Hm'. exists (set_rlePlanesBuffer (Live mem') ctx2).
    split; [by apply Hkept|]. left. split; [done|].
    assert (exists n0 n1 n2 n3, all_sizes (AllowSkipAlpha ctx) szs = [n0; n1; n2; n3]) as (n0 & n1 & n2 & n3 & Es)
      by (unfold szs; destruct (AllowSkipAlpha ctx); eexists _, _, _, _; reflexivity).
    rewrite Es in E. rewrite E.
    pose proof (emit_rle_ok (set_rlePlanesBuffer (Live mem') ctx2) szs mem' n0 n1 n2 n3) as Hem.
    change (AllowSkipAlpha (set_rlePlanesBuffer (Live mem') ctx2)) with (AllowSkipAlpha ctx2) in Hem.
    rewrite Hsk in Hem. assert (sizes_sum szs = zlen code) as Hsum by (unfold szs; rewrite sizes_planes_code; done).
    rewrite Hem; [|done|done| | |].
    + rewrite Hsum. replace (slice 0 (zlen code) mem') with code; [done|]. symmetry. apply slice_blit_at; [done|lia|].
      lia.
    + apply Forall_forall. intros z Hz. apply in_map_iff in Hz as (ls & <- & _). apply zlen_nonneg.
    + rewrite Hsum, Hm'. nia.
    + unfold INT32_MAX. lia.
  - change (planes_code (map (fun i => delta_rows None (image_plane data format scan w h (topdown ctx) i))
      (sent_planes (AllowSkipAlpha ctx)))) with code in *.
    destruct E as [E|(szs & E & Hsum & Hl4 & Hz)]; apply Hmain in E.
    + exists (set_rlePlanesBuffer (Live mem') ctx2). split; [by apply Hkept|]. right. split; [done|]. by left.
    + exists (set_rlePlanesBuffer (Live mem') ctx2). split; [by apply Hkept|]. right. split; [done|].
      assert (exists n0 n1 n2 n3, all_sizes (AllowSkipAlpha ctx) szs = [n0; n1; n2; n3]) as (n0 & n1 & n2 & n3 & Es).
      { destruct (AllowSkipAlpha ctx); simpl in Hl4;
          destruct szs as [|? [|? [|? [|? [|]]]]]; simpl in Hl4; try lia; eexists _, _, _, _; reflexivity. }
      pose proof (emit_rle_ok (set_rlePlanesBuffer (Live mem') ctx2) szs mem' n0 n1 n2 n3) as Hem.
      change (AllowSkipAlpha (set_rlePlanesBuffer (Live mem') ctx2)) with (AllowSkipAlpha ctx2) in Hem.
      rewrite Hsk in Hem. rewrite Es in E. rewrite E, Hem; [|done|done|done| |].
      * destruct (malloc_ok _); [right|by left]. eexists. split; [done|].
        rewrite zlen_cons, zlen_slice; [lia|lia|lia|nia].
      * rewrite Hsum, Hl. nia.
      * unfold INT32_MAX. lia.
Qed.
End Compress.

(** ** The size of a message *)

Lemma plane_code_len w lines : Forall (fun l => zlen l = w) lines ->
  15 * zlen (plane_code lines) <= zlen lines * (16 * w + 14).
Proof.
  induction 1 as [|l ls Hl _ IH]; [done|]. rewrite plane_code_cons, zlen_app, zlen_cons.
  pose proof (row_code_len l). rewrite Hl in *. lia.
Qed.

Lemma delta_plane_ok data format scan w h td i : 0 <= w -> 0 <= h ->
  let ds := delta_rows None (image_plane data format scan w h td i) in rows_ok w ds /\ zlen ds = h.
Proof.
  intros Hw Hh ds. destruct (image_plane_ok data format scan w h td i Hw Hh) as [H1 H2].
  destruct (delta_rows_ok None w _ I H2) as [H3 H4]. unfold ds. by rewrite H4.
Qed.

(** Three planes of rows of four bytes or more are never longer as a code than four plain ones. *)
Lemma image_code_len data format scan w h td skip : 0 <= w -> 0 <= h ->
  15 * zlen (image_code data format scan w h td skip) <= (if skip then 3 else 4) * (h * (16 * w + 14)).
Proof.
  intros Hw Hh. unfold image_code.
  assert (forall i, 15 * zlen (plane_code (delta_rows None (image_plane data format scan w h td i)))
                    <= h * (16 * w + 14)) as Hi.
  { intros i. destruct (delta_plane_ok data format scan w h td i Hw Hh) as [H1 H2].
    rewrite <- H2 at 2. apply plane_code_len. by apply rows_ok_len. }
  pose proof (Hi 0). pose proof (Hi 1). pose proof (Hi 2). pose proof (Hi 3).
  destruct skip; unfold planes_code; cbn [sent_planes map mjoin list_join];
    rewrite !zlen_app; change (zlen (@nil Z)) with 0; lia.
Qed.
