(* ===== verification/PlanarDraw.v ===== *)
(** * Images through the decoder of the planar codec

    The decoder of [Planar] on planes it is given as they are and as codes, and on the code the
    encoder makes of an image: every pixel of the image is drawn, and nothing else. *)

From S2P Require Import Prelude Aligned Color Image Planar PlanarRle PlanarDecode PlanarEncode.

(** ** Pixels that are drawn *)

(** The place of a pixel of four bytes. *)
Definition pixel_pos (step x y i j : Z) : Z := (y + j) * step + 4 * (x + i).

(** The rectangle of [w] by [h] pixels at (x, y) holds the pixels [px], and nothing else changed. *)
Definition drawn (step x y w h : Z) (px : Z -> Z -> list Z) (mem mem' : list Z) : Prop :=
  zlen mem' = zlen mem
  /\ (forall i j, 0 <= i < w -> 0 <= j < h -> slice (pixel_pos step x y i j) 4 mem' = px i j)
  /\ (forall p, 0 <= p ->
      (forall i j, 0 <= i < w -> 0 <= j < h ->
         p < pixel_pos step x y i j \/ pixel_pos step x y i j + 4 <= p) ->
      mem' !! Z.to_nat p = mem !! Z.to_nat p).

Lemma slice_four p b0 b1 b2 b3 (mem : list Z) : 0 <= p ->
  mem !! Z.to_nat (p + 0) = Some b0 -> mem !! Z.to_nat (p + 1) = Some b1 ->
  mem !! Z.to_nat (p + 2) = Some b2 -> mem !! Z.to_nat (p + 3) = Some b3 ->
  slice p 4 mem = [b0; b1; b2; b3].
Proof.
  intros Hp H0 H1 H2 H3. change 4 with (0 + 1 + 1 + 1 + 1).
  by rewrite (slice_snoc p (0 + 1 + 1 + 1) b3), (slice_snoc p (0 + 1 + 1) b2), (slice_snoc p (0 + 1) b1),
    (slice_snoc p 0 b0), slice_zero by (done || lia).
Qed.

(** A row of a channel, by the row of the image it is. *)
Lemma channel_row_pos step x y h ch td k i :
  channel_row step x y h ch (negb td) k + 4 * i = pixel_pos step x y i (image_row td h k) + ch.
Proof. unfold channel_row, pixel_pos, image_row. destruct td; cbn [negb]; lia. Qed.

Lemma image_row_inv td h k : image_row td h (image_row td h k) = k.
Proof. unfold image_row. destruct td; lia. Qed.

Lemma image_row_range td h k : 0 <= k < h -> 0 <= image_row td h k < h.
Proof. unfold image_row. destruct td; lia. Qed.

(** Different pixels, and different channels, have different places. *)
Lemma pixel_pos_apart step x y w h i j i' j' : (x + w) * 4 <= step -> 0 <= x ->
  0 <= i < w -> 0 <= j < h -> 0 <= i' < w -> 0 <= j' < h -> (i, j) <> (i', j') ->
  pixel_pos step x y i j + 4 <= pixel_pos step x y i' j' \/ pixel_pos step x y i' j' + 4 <= pixel_pos step x y i j.
Proof.
  intros Hs Hx Hi Hj Hi' Hj' Hne. unfold pixel_pos.
  assert (j = j' \/ j < j' \/ j' < j) as [->|[Hlt|Hlt]] by lia.
  - assert (i <> i') by congruence. lia.
  - left. assert ((y + j) * step + step <= (y + j') * step) by nia. lia.
  - right. assert ((y + j') * step + step <= (y + j) * step) by nia. lia.
Qed.

(** A channel that is painted: its bytes, and those that stay. *)
Definition channel_drawn (step x y w h ch : Z) (v : Z -> Z -> Z) (mem mem' : list Z) : Prop :=
  zlen mem' = zlen mem
  /\ (forall i j, 0 <= i < w -> 0 <= j < h -> mem' !! Z.to_nat (pixel_pos step x y i j + ch) = Some (v i j))
  /\ (forall p, 0 <= p -> (forall i j, 0 <= i < w -> 0 <= j < h -> p <> pixel_pos step x y i j + ch) ->
      mem' !! Z.to_nat p = mem !! Z.to_nat p).

(** The image has room for the rectangle. *)
Definition fits4 (step x y w h : Z) (mem : list Z) : Prop :=
  0 <= x /\ 0 <= y /\ (x + w) * 4 <= step /\ (y + h) * step <= zlen mem.

Lemma pixel_pos_range step x y w h i j mem : fits4 step x y w h mem -> 0 <= i < w -> 0 <= j < h ->
  0 <= pixel_pos step x y i j /\ pixel_pos step x y i j + 4 <= zlen mem.
Proof.
  intros (Hx & Hy & Hs & Hm) Hi Hj. unfold pixel_pos.
  assert (0 <= (y + j) * step) by nia. assert ((y + j) * step + step <= (y + h) * step) by nia. lia.
Qed.

Lemma paint_channel step x y w h ch td (pl : list (list Z)) mem :
  0 <= w -> 0 <= h -> fits4 step x y w h mem -> 0 <= ch < 4 -> zlen pl = h -> Forall (fun r => zlen r = w) pl ->
  channel_drawn step x y w h ch
    (fun i j => nth (Z.to_nat i) (nth (Z.to_nat (image_row td h j)) pl []) 0) mem
    (paint (channel_row step x y h ch (negb td)) 4 0 pl mem).
Proof.
  intros Hw Hh Hfit Hch Hl Hr. pose proof Hfit as (Hx & Hy & Hs & Hm).
  split_and!; [apply zlen_paint| |].
  - intros i j Hi Hj. set (k := image_row td h j). pose proof (image_row_range td h j Hj) as Hk.
    destruct (lookup_lt_is_Some_2 pl (Z.to_nat k)) as [r Hrow]; [unfold zlen, k in *; lia|].
    assert (zlen r = w) as Hrw by (eapply Forall_lookup_1 in Hrow; [exact Hrow|exact Hr]).
    rewrite (nth_lookup pl), Hrow. cbn [default].
    pose proof (paint_at (channel_row step x y h ch (negb td)) 4 w h 0 pl mem (Z.to_nat k) (Z.to_nat i) r
      (nth (Z.to_nat i) r 0)) as Hp.
    rewrite !Z2Nat.id, !Z.add_0_l, channel_row_pos in Hp by lia. unfold k in Hp. rewrite image_row_inv in Hp.
    apply Hp; try lia; [by apply channel_rows_fit|done|exact Hrow|]. apply lookup_nth. unfold zlen in Hrw. lia.
  - intros p Hp Hne. apply (paint_other _ _ w); [done|]. intros k i Hk Hi E.
    rewrite Z.add_0_l, channel_row_pos in E. rewrite Hl in Hk.
    pose proof (image_row_range td h k Hk) as Hj.
    destruct (pixel_pos_range step x y w h i (image_row td h k) mem Hfit Hi Hj).
    apply (Hne i (image_row td h k)); [done|done|lia].
Qed.

(** Four channels that are painted one after the other draw the pixels. *)
Lemma channels_drawn step x y w h v0 v1 v2 v3 mem m1 m2 m3 m4 :
  fits4 step x y w h mem ->
  channel_drawn step x y w h 2 v2 mem m1 -> channel_drawn step x y w h 1 v1 m1 m2 ->
  channel_drawn step x y w h 0 v0 m2 m3 -> channel_drawn step x y w h 3 v3 m3 m4 ->
  drawn step x y w h (fun i j => [v0 i j; v1 i j; v2 i j; v3 i j]) mem m4.
Proof.
  intros Hfit (L1 & A1 & O1) (L2 & A2 & O2) (L3 & A3 & O3) (L4 & A4 & O4).
  pose proof Hfit as (Hx & Hy & Hs & Hm). split_and!; [lia| |].
  - intros i j Hi Hj. destruct (pixel_pos_range step x y w h i j mem Hfit Hi Hj) as [P0 P1].
    set (p := pixel_pos step x y i j) in *.
    assert (forall c c' i' j', 0 <= c < 4 -> 0 <= c' < 4 -> c <> c' -> 0 <= i' < w -> 0 <= j' < h ->
      p + c <> pixel_pos step x y i' j' + c') as Hne.
    { intros c c' i' j' Hc Hc' Hcc Hi' Hj'. unfold p.
      destruct (decide ((i, j) = (i', j'))) as [[= -> ->]|Hd]; [lia|].
      destruct (pixel_pos_apart step x y w h i j i' j' Hs Hx Hi Hj Hi' Hj' Hd); lia. }
    apply slice_four; [done| | | |].
    + rewrite O4 by (try lia; intros; apply Hne; lia). by apply A3.
    + rewrite O4, O3 by (try lia; intros; apply Hne; lia). by apply A2.
    + rewrite O4, O3, O2 by (try lia; intros; apply Hne; lia). by apply A1.
    + by apply A4.
  - intros p Hp Hout.
    rewrite O4, O3, O2, O1; [done|done| |done| |done| |done|]; intros i j Hi Hj; specialize (Hout i j Hi Hj); lia.
Qed.

(** ** The decoder on images in RGB *)

Lemma set_row_ok n off v lo mem : 0 <= off + 4 * lo -> off + 4 * (lo + Z.of_nat n - 1) < zlen mem ->
  for_range n lo (fun x => store (off + 4 * x) [v]) mem
  = Ret tt (scatter (off + 4 * lo) 4 (replicate n v) mem).
Proof.
  revert lo mem. induction n as [|n IH]; intros lo mem Ho Hm; [done|]. cbn [for_range replicate scatter].
  rewrite (bind_ret_eq _ _ _ tt (<[Z.to_nat (off + 4 * lo) := v]> mem)) by (apply store_byte; lia).
  rewrite IH by (rewrite ?zlen_insert; lia). do 2 f_equal. lia.
Qed.

Lemma set_rows_ok w n v start k mem : 0 <= w ->
  (forall j, k <= j < k + Z.of_nat n -> 0 <= start j /\ start j + 4 * (w - 1) < zlen mem) ->
  for_range n k (fun k => for_range (Z.to_nat w) 0 (fun x => store (start k + 4 * x) [v])) mem
  = Ret tt (paint start 4 k (replicate n (replicate (Z.to_nat w) v)) mem).
Proof.
  intros Hw. revert k mem. induction n as [|n IH]; intros k mem Hs; [done|]. cbn [for_range replicate paint].
  destruct (Hs k ltac:(lia)) as [H0 H1].
  rewrite (bind_ret_eq _ _ _ tt (scatter (start k) 4 (replicate (Z.to_nat w) v) mem)).
  - apply IH. intros j Hj. rewrite zlen_scatter. apply Hs. lia.
  - rewrite set_row_ok by lia. by rewrite Z.mul_0_r, Z.add_0_r.
Qed.

Lemma set_plane_ok v step x y w h ch td mem : 0 <= w <= INT32_MAX -> 0 <= h <= INT32_MAX -> step <= INT32_MAX ->
  fits4 step x y w h mem -> 0 <= ch < 4 ->
  exists mem', planar_set_plane v step x y w h ch (negb td) mem = Ret tt mem'
    /\ channel_drawn step x y w h ch (fun _ _ => v) mem mem'.
Proof.
  intros Hw Hh Hst Hfit Hch. pose proof Hfit as (Hx & Hy & Hs & Hm).
  pose proof (channel_rows_fit step x y w h ch (negb td) mem ltac:(lia) ltac:(lia) Hx Hy Hs Hm Hch) as [Hrows _].
  set (pl := replicate (Z.to_nat h) (replicate (Z.to_nat w) v)).
  exists (paint (channel_row step x y h ch (negb td)) 4 0 pl mem). split.
  { unfold planar_set_plane. asserts_hold. apply set_rows_ok; [lia|]. intros j Hj. apply Hrows. lia. }
  assert (zlen pl = h) as Hl by (unfold pl, zlen; rewrite length_replicate; lia).
  assert (Forall (fun r => zlen r = w) pl) as Hr.
  { apply Forall_replicate. unfold zlen. rewrite length_replicate. lia. }
  destruct (paint_channel step x y w h ch td pl mem ltac:(lia) ltac:(lia) Hfit Hch Hl Hr) as (H1 & H2 & H3).
  split_and!; [done| |done]. intros i j Hi Hj. rewrite H2 by done. f_equal.
  pose proof (image_row_range td h j Hj).
  unfold pl. rewrite !nth_lookup, lookup_replicate_2 by lia. cbn [default].
  unfold id. rewrite lookup_replicate_2 by lia. done.
Qed.

(** A plane whose code is in the source. *)
Definition plane_in (src : list Z) (w h p n : Z) (pl : list (list Z)) : Prop :=
  exists lines, 0 <= p /\ 0 <= n /\ p + n <= zlen src /\ plane_codes w (slice p n src) lines /\ zlen lines = h
    /\ undelta_rows None lines = pl.

Lemma plane_codes_rows w code lines : plane_codes w code lines -> Forall (fun l => zlen l = w) lines.
Proof. induction 1; by constructor. Qed.

Lemma undelta_rows_len pr w lines : Forall (fun l => zlen l = w) lines ->
  Forall (fun l => zlen l = w) (undelta_rows pr lines) /\ zlen (undelta_rows pr lines) = zlen lines.
Proof.
  intros Hl. revert pr. induction Hl as [|l ls Hl _ IH]; intros pr; [done|]. simpl.
  destruct (IH (Some (row_values pr 0 l))) as [H1 H2]. rewrite !zlen_cons, H2. split; [|done].
  constructor; [by rewrite zlen_row_values|done].
Qed.

(** The bytes of a plane by place in the image. *)
Definition plane_px (td : bool) (h : Z) (pl : list (list Z)) (i j : Z) : Z :=
  nth (Z.to_nat i) (nth (Z.to_nat (image_row td h j)) pl []) 0.

Lemma draw_plane_ok src p n step x y w h ch td pl mem :
  0 <= w <= INT32_MAX -> 0 <= h <= INT32_MAX -> step <= INT32_MAX -> fits4 step x y w h mem -> 0 <= ch < 4 ->
  bytes src -> plane_in src w h p n pl ->
  exists mem', planar_decompress_plane_rle src p n step x y w h ch (negb td) mem = Ret n mem'
    /\ channel_drawn step x y w h ch (plane_px td h pl) mem mem'.
Proof.
  intros Hw Hh Hst Hfit Hch Hb (lines & Hp & Hn & Hsz & Hc & Hl & <-). pose proof Hfit as (Hx & Hy & Hs & Hm).
  destruct (undelta_rows_len None w lines (plane_codes_rows _ _ _ Hc)) as [H1 H2].
  eexists. split.
  - apply plane_rle_ok; try done. apply channel_rows_fit; (done || lia).
  - apply paint_channel; (done || lia).
Qed.

(** The image that is drawn to. *)
Definition target_of (temp : bool) (s : canvas) : list Z :=
  if temp then match pTempData s.1 with Live b => b | _ => [] end else s.2.

Definition put_target (temp : bool) (t : list Z) (s : canvas) : canvas :=
  if temp then (set_pTempData (Live t) s.1, s.2) else (s.1, t).

Definition target_live (temp : bool) (s : canvas) : Prop :=
  temp = true -> exists b, pTempData s.1 = Live b.

Lemma target_put temp t s : target_of temp (put_target temp t s) = t.
Proof. by destruct temp. Qed.

Lemma put_target_put temp t t' s : put_target temp t' (put_target temp t s) = put_target temp t' s.
Proof. by destruct temp. Qed.

Lemma target_live_put temp t s : target_live temp (put_target temp t s).
Proof. intros ->. by exists t. Qed.

Lemma on_target_ret {A} temp (m : M (list Z) A) s a t' : target_live temp s ->
  m (target_of temp s) = Ret a t' -> on_target temp m s = Ret a (put_target temp t' s).
Proof.
  intros Hl Hm. destruct s as [ctx d]. unfold on_target, target_of, put_target in *. destruct temp.
  - destruct (Hl eq_refl) as [b Hb]. cbn [fst] in *. rewrite Hb in Hm.
    unfold on_ctx, on_temp, on_block. cbn [fst snd]. by rewrite Hb, Hm.
  - unfold on_dst. cbn [fst snd] in *. by rewrite Hm.
Qed.

(** The bytes of a pixel whose fourth channel is [a]. *)
Definition px4 (td : bool) (h : Z) (pr pg pb : list (list Z)) (a : Z -> Z -> Z) (i j : Z) : list Z :=
  [plane_px td h pb i j; plane_px td h pg i j; plane_px td h pr i j; a i j].

(** The planes of an image that is coded in RGB are drawn. *)
Lemma draw_rgb_rle_ok src l temp alpha useAlpha tf step total x y w h td s pr pg pb pa :
  0 <= w <= INT32_MAX -> 0 <= h <= INT32_MAX -> step <= INT32_MAX -> target_live temp s ->
  fits4 step x y w h (target_of temp s) -> bytes src ->
  plane_in src w h (nth 0 (l_planes l) 0) (nth 0 (l_sizes l) 0) pr ->
  plane_in src w h (nth 1 (l_planes l) 0) (nth 1 (l_sizes l) 0) pg ->
  plane_in src w h (nth 2 (l_planes l) 0) (nth 2 (l_sizes l) 0) pb ->
  (useAlpha = true -> plane_in src w h (nth 3 (l_planes l) 0) (nth 3 (l_sizes l) 0) pa) ->
  exists t, draw_rgb src l temp true alpha useAlpha tf step total x y w h (negb td) s
            = Ret tt (put_target temp t s)
    /\ drawn step x y w h (px4 td h pr pg pb (fun i j => if useAlpha then plane_px td h pa i j else 0xFF))
         (target_of temp s) t.
Proof.
  intros Hw Hh Hst Hlive Hfit Hb Hr Hg Hbl Ha. unfold draw_rgb. cbv zeta.
  destruct (draw_plane_ok src _ _ step x y w h 2 td pr _ Hw Hh Hst Hfit ltac:(lia) Hb Hr) as (m1 & E1 & D1).
  assert (fits4 step x y w h m1) as F1 by (unfold fits4; by rewrite (proj1 D1)).
  destruct (draw_plane_ok src _ _ step x y w h 1 td pg _ Hw Hh Hst F1 ltac:(lia) Hb Hg) as (m2 & E2 & D2).
  assert (fits4 step x y w h m2) as F2 by (unfold fits4; by rewrite (proj1 D2)).
  destruct (draw_plane_ok src _ _ step x y w h 0 td pb _ Hw Hh Hst F2 ltac:(lia) Hb Hbl) as (m3 & E3 & D3).
  assert (fits4 step x y w h m3) as F3 by (unfold fits4; by rewrite (proj1 D3)).
  rewrite (bind_ret_eq _ _ _ _ _ (on_target_ret temp _ s _ m1 Hlive E1)).
  erewrite bind_ret_eq; [|apply on_target_ret; [apply target_live_put|rewrite target_put; exact E2]].
  rewrite put_target_put.
  erewrite bind_ret_eq; [|apply on_target_ret; [apply target_live_put|rewrite target_put; exact E3]].
  rewrite put_target_put. destruct useAlpha.
  - destruct (draw_plane_ok src _ _ step x y w h 3 td pa _ Hw Hh Hst F3 ltac:(lia) Hb (Ha eq_refl)) as (m4 & E4 & D4).
    exists m4. erewrite bind_ret_eq; [|apply on_target_ret; [apply target_live_put|rewrite target_put; exact E4]].
    rewrite put_target_put. split; [done|]. by apply (channels_drawn _ _ _ _ _ _ _ _ _ _ m1 m2 m3).
  - destruct (set_plane_ok 0xFF step x y w h 3 td m3 Hw Hh Hst F3 ltac:(lia)) as (m4 & E4 & D4).
    exists m4. erewrite on_target_ret; [|apply target_live_put|rewrite target_put; exact E4].
    rewrite put_target_put. split; [done|]. by apply (channels_drawn _ _ _ _ _ _ _ _ _ _ m1 m2 m3).
Qed.

(** ** The decoder on plain planes *)

(** The pixels up to the [n]th are drawn. *)
Definition drawn_upto (step x y w h : Z) (td : bool) (px : Z -> Z -> list Z) (mem : list Z) (n : Z)
    (mem' : list Z) : Prop :=
  zlen mem' = zlen mem
  /\ (forall i j, 0 <= i < w -> 0 <= j < h -> image_row td h j * w + i < n ->
      slice (pixel_pos step x y i j) 4 mem' = px i j)
  /\ (forall p, 0 <= p ->
      (forall i j, 0 <= i < w -> 0 <= j < h ->
         p < pixel_pos step x y i j \/ pixel_pos step x y i j + 4 <= p) ->
      mem' !! Z.to_nat p = mem !! Z.to_nat p).

Lemma lookup_blit_apart i l (mem : list Z) p : 0 <= i -> i + zlen l <= zlen mem -> 0 <= p ->
  p < i \/ i + zlen l <= p -> blit i l mem !! Z.to_nat p = mem !! Z.to_nat p.
Proof.
  intros Hi Hm Hp Hd. unfold blit, ztake, zdrop.
  assert (length (take (Z.to_nat i) mem) = Z.to_nat i) as Ht by (rewrite length_take; unfold zlen in *; lia).
  destruct Hd as [Hd|Hd].
  - rewrite lookup_app_l, lookup_take_lt by lia. done.
  - rewrite lookup_app_r by (unfold zlen in *; lia). rewrite lookup_app_r by (unfold zlen in *; lia).
    rewrite lookup_drop. f_equal. unfold zlen in *. lia.
Qed.

Lemma drawn_step step x y w h td px mem m k i bs :
  fits4 step x y w h mem -> 0 <= k < h -> 0 <= i < w -> zlen bs = 4 -> px i (image_row td h k) = bs ->
  drawn_upto step x y w h td px mem (k * w + i) m ->
  exists m', store (pixel_pos step x y i (image_row td h k)) bs m = Ret tt m'
    /\ drawn_upto step x y w h td px mem (k * w + i + 1) m'.
Proof.
  intros Hfit Hk Hi Hbs Hpx (L & A & O). pose proof (image_row_range td h k Hk) as Hr.
  set (j := image_row td h k) in *. pose proof Hfit as (Hx & Hy & Hs & Hm).
  destruct (pixel_pos_range step x y w h i j mem Hfit Hi Hr) as [P0 P1].
  eexists. split; [apply store_blit; lia|]. split_and!.
  - rewrite zlen_blit; lia.
  - intros i' j' Hi' Hj' Hn. pose proof (image_row_range td h j' Hj') as Hr'.
    destruct (decide ((i, j) = (i', j'))) as [[= <- <-]|Hd].
    + rewrite Hpx. apply slice_blit_at; lia.
    + assert (image_row td h j' * w + i' < k * w + i) as Hlt.
      { assert (image_row td h j' = k -> i' = i -> False).
        { intros E1 E2. apply Hd. unfold j. rewrite <- E1, image_row_inv. congruence. }
        assert (image_row td h j' < k \/ image_row td h j' = k \/ k < image_row td h j') as [?|[?|?]] by lia; nia. }
      destruct (pixel_pos_range step x y w h i' j' mem Hfit Hi' Hj').
      rewrite slice_blit_apart; [by apply A|lia|lia|lia|lia|].
      destruct (pixel_pos_apart step x y w h i j i' j' Hs Hx Hi Hr Hi' Hj' Hd); lia.
  - intros p Hp Hout. rewrite lookup_blit_apart; [by apply O|lia|lia|lia|].
    rewrite Hbs. destruct (Hout i j Hi Hr); lia.
Qed.

(** The bytes of a pixel from its channels. *)
Definition raw_px (format r g b a : Z) : list Z :=
  if format =? PIXEL_FORMAT_BGRA32 then [b; g; r; a]
  else if format =? PIXEL_FORMAT_BGRX32 then [b; g; r; 0xFF]
  else default [] (FreeRDPWriteColor format (FreeRDPGetColor format (mkRgba r g b a))).

(** A plane whose bytes are [v]. *)
Definition plane_is (p : plane_ptr) (n : Z) (v : Z -> Z) : Prop :=
  forall S (s : S) k, 0 <= k < n -> plane_byte p k s = Ret (v k) s.

Lemma raw_planes_ok pR pG pB pA format step x y w h td total mem vr vg vb va :
  format ∈ supported -> FreeRDPGetBytesPerPixel format = 4 ->
  0 < w <= INT32_MAX -> 0 < h <= INT32_MAX -> fits4 step x y w h mem -> step <= INT32_MAX ->
  y + h <= total -> y + h <= UINT32_MAX ->
  plane_is pR (h * w) vr -> plane_is pG (h * w) vg -> plane_is pB (h * w) vb ->
  (format <> PIXEL_FORMAT_BGRX32 -> plane_is pA (h * w) va) ->
  exists mem', planar_decompress_planes_raw pR pG pB pA format step x y w h (negb td) total mem = Ret tt mem'
    /\ drawn step x y w h (fun i j => let k := image_row td h j * w + i in
         raw_px format (vr k) (vg k) (vb k) (va k)) mem mem'.
Proof.
  intros Hf Hbpp Hw Hh Hfit Hst Htot Hy32 HR HG HB HA. pose proof Hfit as (Hx & Hy & Hs & Hm).
  set (px i j := let k := image_row td h j * w + i in raw_px format (vr k) (vg k) (vb k) (va k)).
  unfold planar_decompress_planes_raw. rewrite Hbpp. cbv zeta. unfold INT32_MAX, UINT32_MAX in *.
  assert (exists v, (if negb td then asserting_cast s32 (u32 (h - 1)) else asserting_cast s32 h) mem = Ret v mem) as [v Ev].
  { destruct td; cbn [negb]; eexists; apply asserting_cast_eq.
    - unfold s32. zcase; Z.div_mod_to_equations; lia.
    - replace (u32 (h - 1)) with (h - 1) by word_lia. unfold s32. zcase; Z.div_mod_to_equations; lia. }
  rewrite (bind_ret_eq _ _ _ _ _ Ev).
  replace (u32 (y + h)) with (y + h) by word_lia.
  replace (u32 (x + w)) with (x + w) by word_lia.
  replace (u32 ((x + w) * 4)) with ((x + w) * 4) by word_lia.
  rewrite !guard_bind by lia.
  assert (forall k i, 0 <= k < h -> 0 <= i < w -> 0 <= k * w + i < h * w) as Hidx.
  { intros k i Hk Hi. assert (k * w + w <= h * w) by nia. nia. }
  destruct (for_range_inv (fun k m => drawn_upto step x y w h td px mem (k * w) m) (Z.to_nat h) 0
    (fun k => guard (negb (h <? (if negb td then h - 1 - k else k)));;
       writeLine ((y + (if negb td then h - 1 - k else k)) * step + x * 4) format w pR pG pB pA (k * w)) mem)
    as (mem' & E & HI).
  - intros k m Hk HI. rewrite Z2Nat.id in Hk by lia.
    assert ((if negb td then h - 1 - k else k) = image_row td h k) as -> by (unfold image_row; by destruct td).
    pose proof (image_row_range td h k Hk). rewrite guard_bind by lia. unfold writeLine.
    destruct (for_range_inv (fun i m => drawn_upto step x y w h td px mem (k * w + i) m) (Z.to_nat w) 0
      (fun i => let n := k * w + i in
        if format =? PIXEL_FORMAT_BGRA32 then
          b ← plane_byte pB n; g ← plane_byte pG n; r ← plane_byte pR n; a ← plane_byte pA n;
          store ((y + image_row td h k) * step + x * 4 + 4 * i) [b; g; r; a]
        else if format =? PIXEL_FORMAT_BGRX32 then
          b ← plane_byte pB n; g ← plane_byte pG n; r ← plane_byte pR n;
          store ((y + image_row td h k) * step + x * 4 + 4 * i) [b; g; r; 0xFF]
        else
          a ← plane_byte pA n; r ← plane_byte pR n; g ← plane_byte pG n; b ← plane_byte pB n;
          write_pixel ((y + image_row td h k) * step + x * 4 + i * FreeRDPGetBytesPerPixel format) format
            (FreeRDPGetColor format (mkRgba r g b a))) m) as (m' & E & HI').
    + intros i m1 Hi HI1. rewrite Z2Nat.id in Hi by lia. cbv zeta.
      specialize (Hidx k i ltac:(lia) ltac:(lia)). set (n := k * w + i) in *.
      replace ((y + image_row td h k) * step + x * 4 + 4 * i) with (pixel_pos step x y i (image_row td h k))
        by (unfold pixel_pos; lia).
      rewrite Hbpp. replace ((y + image_row td h k) * step + x * 4 + i * 4)
        with (pixel_pos step x y i (image_row td h k)) by (unfold pixel_pos; lia).
      assert (px i (image_row td h k) = raw_px format (vr n) (vg n) (vb n) (va n)) as Epx
        by (unfold px; by rewrite image_row_inv).
      rewrite Z.add_assoc. unfold raw_px in Epx.
      destruct (Z.eqb_spec format PIXEL_FORMAT_BGRA32) as [EA|NA].
      { rewrite (bind_ret_eq _ _ _ _ _ (HB _ m1 n Hidx)), (bind_ret_eq _ _ _ _ _ (HG _ m1 n Hidx)),
          (bind_ret_eq _ _ _ _ _ (HR _ m1 n Hidx)), (bind_ret_eq _ _ _ _ _ (HA ltac:(by rewrite EA) _ m1 n Hidx)).
        by apply drawn_step. }
      destruct (Z.eqb_spec format PIXEL_FORMAT_BGRX32) as [EX|NX].
      { rewrite (bind_ret_eq _ _ _ _ _ (HB _ m1 n Hidx)), (bind_ret_eq _ _ _ _ _ (HG _ m1 n Hidx)),
          (bind_ret_eq _ _ _ _ _ (HR _ m1 n Hidx)). by apply drawn_step. }
      rewrite (bind_ret_eq _ _ _ _ _ (HA NX _ m1 n Hidx)), (bind_ret_eq _ _ _ _ _ (HR _ m1 n Hidx)),
        (bind_ret_eq _ _ _ _ _ (HG _ m1 n Hidx)), (bind_ret_eq _ _ _ _ _ (HB _ m1 n Hidx)).
      destruct (supported_write format (FreeRDPGetColor format (mkRgba (vr n) (vg n) (vb n) (va n))) Hf)
        as (bs & Ebs & Hbs). unfold write_pixel. rewrite Ebs in Epx |- *.
      apply drawn_step; (done || lia).
    + by rewrite Z.add_0_r.
    + exists m'. split; [exact E|]. rewrite Z2Nat.id in HI' by lia.
      by replace ((k + 1) * w) with (k * w + (0 + w)) by lia.
  - split_and!; [done| |done]. intros i j Hi Hj Hlt. pose proof (image_row_range td h j Hj). nia.
  - exists mem'. split; [exact E|]. destruct HI as (L & A & O). split_and!; [done| |done].
    intros i j Hi Hj. apply A; [done|done|]. rewrite Z2Nat.id by lia.
    apply Hidx; [by apply image_row_range|done].
Qed.

(** ** Messages *)

Lemma slice_mid (l1 c l2 : list Z) p : p = zlen l1 -> slice p (zlen c) (l1 ++ c ++ l2) = c.
Proof.
  intros ->. pose proof (zlen_nonneg c). unfold slice. rewrite zdrop_app_ge, Z.sub_diag, zdrop_0 by lia.
  by rewrite ztake_app_le, ztake_all by lia.
Qed.

Lemma plane_code_codes w lines : Forall (fun l => zlen l = w) lines -> plane_codes w (plane_code lines) lines.
Proof.
  induction 1 as [|l ls Hl _ IH]; [constructor|]. rewrite plane_code_cons.
  apply (plane_row w (row_code l) l (carry 0 l)); [apply row_code_codes|done|done].
Qed.

(** One plane of a message. *)
Lemma message_plane src l1 lines l2 w h : src = l1 ++ plane_code lines ++ l2 ->
  Forall (fun l => zlen l = w) lines -> zlen lines = h ->
  plane_in src w h (zlen l1) (zlen (plane_code lines)) (undelta_rows None lines).
Proof.
  intros -> Hl Hh. exists lines. pose proof (zlen_nonneg l1). pose proof (zlen_nonneg l2).
  pose proof (zlen_nonneg (plane_code lines)). rewrite !zlen_app, slice_mid by done.
  split_and!; try done; try lia. by apply plane_code_codes.
Qed.

Lemma skip_message {S} src l1 lines l2 w h n (s : S) : src = l1 ++ plane_code lines ++ l2 ->
  Forall (fun l => zlen l = w) lines -> zlen lines = h -> zlen src <= INT32_MAX -> 0 <= w <= INT32_MAX ->
  n = zlen src - zlen l1 -> planar_skip_plane_rle src (zlen l1) n w h s = Ret (zlen (plane_code lines)) s.
Proof.
  intros -> Hl Hh Hmax Hw ->. pose proof (zlen_nonneg l1). pose proof (zlen_nonneg l2).
  pose proof (zlen_nonneg (plane_code lines)). rewrite !zlen_app in *.
  apply (skip_plane_ok _ _ _ _) with (lines := lines); try done; try lia; [by apply plane_code_codes|].
  by rewrite slice_mid.
Qed.

(** The layout of a message with three or four coded planes. *)
Lemma rle_layout_ok hd la lr lg lb w h sw sh (alpha : bool) s :
  let a := if alpha then plane_code la else [] in
  let src := hd :: a ++ plane_code lr ++ plane_code lg ++ plane_code lb in
  0 < w <= INT32_MAX -> 0 < h -> zlen src <= INT32_MAX ->
  (forall l, l = la \/ l = lr \/ l = lg \/ l = lb -> Forall (fun r => zlen r = w) l /\ zlen l = h) ->
  rle_layout src (zlen src) w h sw sh false alpha s
  = Ret (mkLayout [1 + zlen a; 1 + zlen a + zlen (plane_code lr);
                   1 + zlen a + zlen (plane_code lr) + zlen (plane_code lg); 1]
           [zlen (plane_code lr); zlen (plane_code lg); zlen (plane_code lb); zlen a]) s.
Proof.
  intros a src Hw Hh Hmax Hl.
  assert (forall l, l = la \/ l = lr \/ l = lg \/ l = lb -> 0 < zlen (plane_code l)) as Hpos.
  { intros l Hin. destruct (Hl l Hin) as [H1 H2]. destruct l as [|r l]; [change (zlen (@nil (list Z))) with 0 in H2; lia|].
    rewrite plane_code_cons, zlen_app. pose proof (zlen_nonneg (plane_code l)).
    apply Forall_cons_1 in H1 as [H1 _]. pose proof (row_code_pos r ltac:(lia)). lia. }
  destruct (Hl la) as [A1 A2]; [tauto|]. destruct (Hl lr) as [R1 R2]; [tauto|].
  destruct (Hl lg) as [G1 G2]; [tauto|]. destruct (Hl lb) as [B1 B2]; [tauto|].
  pose proof (Hpos lr ltac:(tauto)). pose proof (Hpos lg ltac:(tauto)). pose proof (Hpos lb ltac:(tauto)).
  pose proof (zlen_nonneg a).
  assert (zlen src = 1 + zlen a + zlen (plane_code lr) + zlen (plane_code lg) + zlen (plane_code lb)) as Es
    by (unfold src; rewrite zlen_cons, !zlen_app; lia).
  unfold rle_layout. cbv zeta.
  assert ((if alpha then planar_skip_plane_rle src 1 (zlen src - 1) w h else mret 0) s = Ret (zlen a) s) as Ea.
  { unfold a. destruct alpha; [|done]. eapply (skip_message src [hd] la); try done; lia. }
  rewrite (bind_ret_eq _ _ _ _ _ Ea), guard_bind by lia.
  assert (zlen (hd :: a) = 1 + zlen a) as L0 by (rewrite zlen_cons; lia).
  assert (zlen ((hd :: a) ++ plane_code lr) = 1 + zlen a + zlen (plane_code lr)) as L1 by (rewrite zlen_app; lia).
  assert (zlen (((hd :: a) ++ plane_code lr) ++ plane_code lg)
          = 1 + zlen a + zlen (plane_code lr) + zlen (plane_code lg)) as L2 by (rewrite zlen_app; lia).
  rewrite (bind_ret_eq _ _ _ (zlen (plane_code lr)) s).
  2:{ rewrite <- L0. eapply (skip_message src (hd :: a) lr); [reflexivity|done|done|done|lia|lia]. }
  rewrite guard_bind by lia.
  rewrite (bind_ret_eq _ _ _ (zlen (plane_code lg)) s).
  2:{ rewrite <- L1. apply (skip_message src ((hd :: a) ++ plane_code lr) lg (plane_code lb)); try done; try lia.
      unfold src. by rewrite <- app_assoc. }
  rewrite !guard_bind by lia.
  rewrite (bind_ret_eq _ _ _ (zlen (plane_code lb)) s).
  2:{ rewrite <- L2. apply (skip_message src (((hd :: a) ++ plane_code lr) ++ plane_code lg) lb []); try done; try lia.
      unfold src. by rewrite <- !app_assoc, app_nil_r. }
  by rewrite guard_bind by lia.
Qed.

(** An image in RGB that has the format and the size of the destination is drawn on it. *)
Lemma decompress_rgb src w h g step x y flip ctx d hd (rle alpha : bool) :
  src !! O = Some hd -> Z.land hd PLANAR_FORMAT_HEADER_CLL_MASK = 0 -> Z.land hd PLANAR_FORMAT_HEADER_CS = 0 ->
  negb (Z.land hd PLANAR_FORMAT_HEADER_RLE =? 0) = rle -> (Z.land hd PLANAR_FORMAT_HEADER_NA =? 0) = alpha ->
  bgr ctx = false -> 0 < step ->
  (if alpha && FreeRDPColorHasAlpha g then PIXEL_FORMAT_BGRA32 else PIXEL_FORMAT_BGRX32) = g ->
  freerdp_bitmap_decompress_planar src w h g step x y w h flip (ctx, d)
  = (l ← (if rle then rle_layout src (zlen src) w h (w / 2 + w mod 2) (h / 2 + h mod 2) false alpha
          else raw_layout (zlen src) (u32 (w * h)) (u32 ((w / 2 + w mod 2) * (h / 2 + h mod 2))) false alpha);
     draw_rgb src l false rle alpha (alpha && FreeRDPColorHasAlpha g) g step (u32 (y + h)) x y w h flip) (ctx, d).
Proof.
  intros Hhd Hcll Hcs Hrle Halpha Hbgr Hstep Hg.
  unfold freerdp_bitmap_decompress_planar. rewrite get_bind. cbv zeta.
  assert (forall a f, planar_invert_format ctx a f = f) as Hinv by (intros; unfold planar_invert_format; by rewrite Hbgr).
  rewrite (bind_ret_eq _ _ _ hd (ctx, d)) by by apply byte_at_ok.
  rewrite Hcll, Hcs, Hrle, Halpha, !Hinv. cbn [Z.eqb negb andb]. rewrite guard_bind by done.
  replace (step <=? 0) with false by lia. rewrite Hg, !Z.eqb_refl. cbn [negb orb].
  set (lay := if rle then _ else _). unfold mbind, M_bind. destruct (lay (ctx, d)) as [l s|s|f]; [|done|done].
  by destruct (draw_rgb _ _ _ _ _ _ _ _ _ _ _ _ _ _ _) as [[] ?|?|?].
Qed.

(** What is shown of a pixel of the image. *)
Definition shown (alpha : bool) (c : rgba) : list Z :=
  [c_b c; c_g c; c_r c; if alpha then c_a c else 0xFF].

Lemma plane_px_image data format scan w h td n i j : 0 <= i < w -> 0 <= j < h ->
  plane_px td h (image_plane data format scan w h td n) i j = channel n (image_pixel data format scan i j).
Proof.
  intros Hi Hj. unfold plane_px, image_plane. pose proof (image_row_range td h j Hj) as Hr.
  rewrite !nth_lookup, (lookup_map_seqZ _ h) by done. cbn [default]. unfold id.
  by rewrite (lookup_map_seqZ _ w), image_row_inv by done.
Qed.

Lemma drawn_ext step x y w h px px' mem mem' :
  (forall i j, 0 <= i < w -> 0 <= j < h -> px i j = px' i j) ->
  drawn step x y w h px mem mem' -> drawn step x y w h px' mem mem'.
Proof. intros He (H1 & H2 & H3). split_and!; [done| |done]. intros i j Hi Hj. rewrite H2; auto. Qed.

(** The code of an image, drawn. *)
Lemma decompress_image_code data format scan w h td skip g step x y ctx d :
  let src := rle_header skip :: image_code data format scan w h td skip in
  0 < w <= INT32_MAX -> 0 < h <= INT32_MAX -> zlen src <= INT32_MAX -> bytes src -> bgr ctx = false ->
  g = PIXEL_FORMAT_BGRX32 \/ g = PIXEL_FORMAT_BGRA32 /\ skip = false ->
  fits4 step x y w h d -> step <= INT32_MAX ->
  exists d', freerdp_bitmap_decompress_planar src w h g step x y w h (negb td) (ctx, d) = Ret tt (ctx, d')
    /\ drawn step x y w h (fun i j => shown (g =? PIXEL_FORMAT_BGRA32) (image_pixel data format scan i j)) d d'.
Proof.
  intros src Hw Hh Hmax Hb Hbgr Hg Hfit Hst. pose proof Hfit as (Hx & Hy & Hs & _).
  set (ls i := delta_rows None (image_plane data format scan w h td i)).
  assert (forall i, Forall (fun r => zlen r = w) (ls i) /\ zlen (ls i) = h) as Hls.
  { intros i. destruct (delta_plane_ok data format scan w h td i) as [H1 H2]; [lia..|]. split; [by apply rows_ok_len|done]. }
  assert (forall i, undelta_rows None (ls i) = image_plane data format scan w h td i) as Hun.
  { intros i. apply (undelta_delta None w); [done|]. by apply image_plane_ok; lia. }
  set (alpha := negb skip). set (a := if alpha then plane_code (ls 0) else []).
  assert (src = rle_header skip :: a ++ plane_code (ls 1) ++ plane_code (ls 2) ++ plane_code (ls 3)) as Esrc.
  { unfold src, a, alpha, image_code, planes_code. destruct skip; cbn [negb sent_planes map mjoin list_join];
      by rewrite app_nil_r. }
  pose proof (rle_layout_ok (rle_header skip) (ls 0) (ls 1) (ls 2) (ls 3) w h (w / 2 + w mod 2) (h / 2 + h mod 2)
    alpha (ctx, d)) as Hlay. cbv zeta in Hlay. fold a in Hlay. rewrite <- Esrc in Hlay.
  specialize (Hlay Hw ltac:(lia) Hmax ltac:(intros l [->|[->|[->| ->]]]; apply Hls)).
  rewrite (decompress_rgb src w h g step x y (negb td) ctx d (rle_header skip) true alpha).
  2: done. 2,3,4,5: by destruct skip. 2: done. 2: lia.
  2:{ unfold alpha. destruct Hg as [->|[-> ->]]; [by destruct skip|done]. }
  rewrite (bind_ret_eq _ _ _ _ _ Hlay).
  pose proof (draw_rgb_rle_ok src (mkLayout [1 + zlen a; 1 + zlen a + zlen (plane_code (ls 1));
      1 + zlen a + zlen (plane_code (ls 1)) + zlen (plane_code (ls 2)); 1]
      [zlen (plane_code (ls 1)); zlen (plane_code (ls 2)); zlen (plane_code (ls 3)); zlen a]) false alpha
    (alpha && FreeRDPColorHasAlpha g) g step (u32 (y + h)) x y w h td (ctx, d)
    (image_plane data format scan w h td 1) (image_plane data format scan w h td 2)
    (image_plane data format scan w h td 3) (image_plane data format scan w h td 0)) as Hd.
  cbn [nth l_planes l_sizes] in Hd.
  destruct Hd as (t & E & D); try done; try lia.
  - rewrite <- (Hun 1), Esrc. replace (1 + zlen a) with (zlen (rle_header skip :: a)) by (rewrite zlen_cons; lia).
    eapply message_plane; [reflexivity|apply Hls..].
  - rewrite <- (Hun 2), Esrc.
    replace (1 + zlen a + zlen (plane_code (ls 1))) with (zlen ((rle_header skip :: a) ++ plane_code (ls 1)))
      by (rewrite zlen_app, zlen_cons; lia).
    eapply message_plane; [by rewrite <- app_assoc|apply Hls..].
  - rewrite <- (Hun 3), Esrc.
    replace (1 + zlen a + zlen (plane_code (ls 1)) + zlen (plane_code (ls 2)))
      with (zlen (((rle_header skip :: a) ++ plane_code (ls 1)) ++ plane_code (ls 2)))
      by (rewrite !zlen_app, zlen_cons; lia).
    eapply (message_plane _ _ _ []); [by rewrite <- !app_assoc, app_nil_r|apply Hls..].
  - intros Hua. rewrite <- (Hun 0), Esrc. apply andb_true_iff in Hua as [Ha _]. unfold a. rewrite Ha.
    change 1 with (zlen [rle_header skip]). eapply message_plane; [reflexivity|apply Hls..].
  - exists t. split; [exact E|]. revert D. apply drawn_ext. intros i j Hi Hj. unfold px4, shown.
    rewrite !plane_px_image by done. unfold channel. cbn [Z.eqb].
    unfold alpha. destruct Hg as [->|[-> ->]]; [by destruct skip|done].
Qed.
