(* ===== verification/PlanarRoundtrip.v ===== *)
(** * Images through the planar codec

    An image that is compressed and decompressed again is drawn pixel by pixel, with run lengths or
    without; which images are compressed, and how long their messages are. *)

From S2P Require Import Prelude Aligned Color Image Planar PlanarRle PlanarDecode PlanarEncode PlanarDraw.

(** ** The bytes of a code *)

Lemma rle_bytes s code line s' : rle_codes s code line s' -> bytes line -> bytes code.
Proof.
  induction 1 as [|s c raws run code line s' Hc Hl Hp H1 IH]; [done|]. intros Hb.
  apply Forall_app in Hb as [Hr Hb]. apply Forall_app in Hb as [_ Hb].
  constructor; [done|]. apply Forall_app. auto.
Qed.

Lemma plane_code_bytes w lines : rows_ok w lines -> bytes (plane_code lines).
Proof.
  induction 1 as [|l ls [_ Hl] _ IH]; [constructor|]. rewrite plane_code_cons.
  apply Forall_app. split; [exact (rle_bytes _ _ _ _ (row_code_codes l) Hl)|done].
Qed.

Lemma image_code_bytes data format scan w h td skip : 0 <= w -> 0 <= h ->
  bytes (image_code data format scan w h td skip).
Proof.
  intros Hw Hh. unfold image_code, planes_code.
  assert (forall i, bytes (plane_code (delta_rows None (image_plane data format scan w h td i)))) as Hi.
  { intros i. apply (plane_code_bytes w), delta_plane_ok; done. }
  destruct skip; cbn [sent_planes map mjoin list_join]; repeat (apply Forall_app; split; [apply Hi|]); constructor.
Qed.

Lemma rle_header_byte skip : is_byte (rle_header skip).
Proof. by destruct skip. Qed.

(** ** Images without run lengths *)

Definition raw_header (skip : bool) : Z := if skip then PLANAR_FORMAT_HEADER_NA else 0.

(** The planes of an image one behind the other, and a byte of padding. *)
Definition raw_message (data : list Z) (format scan w h : Z) (td skip : bool) : list Z :=
  raw_header skip
  :: mjoin (map (fun i => mjoin (image_plane data format scan w h td i)) (sent_planes skip)) ++ [0].

Lemma image_plane_len data format scan w h td i : 0 <= w -> 0 <= h ->
  zlen (mjoin (image_plane data format scan w h td i)) = h * w.
Proof.
  intros Hw Hh. destruct (image_plane_ok data format scan w h td i Hw Hh) as [H1 H2].
  rewrite (mjoin_rows_len w) by by apply rows_ok_len. by rewrite H1.
Qed.

Lemma raw_message_len data format scan w h td skip : 0 <= w -> 0 <= h ->
  zlen (raw_message data format scan w h td skip) = 2 + (if skip then 3 else 4) * (h * w).
Proof.
  intros Hw Hh. unfold raw_message. rewrite zlen_cons, zlen_app.
  destruct skip; cbn [sent_planes map mjoin list_join];
    rewrite !zlen_app, !image_plane_len by done; change (zlen [0]) with 1; change (zlen (@nil Z)) with 0; lia.
Qed.

Lemma rows_at_fits mem p w rs : rs <> [] -> rows_at mem p w rs -> 0 <= p /\ p + zlen rs * w <= zlen mem.
Proof.
  revert p. induction rs as [|r rs IH]; intros p Hne Hat; [done|]. destruct Hat as (H1 & H2 & H3 & H4 & H5).
  split; [done|]. rewrite zlen_cons. destruct rs as [|r' rs]; [rewrite zlen_nil; lia|].
  destruct (IH (p + w)) as [_ Hle]; [done..|]. lia.
Qed.

Lemma plane_at_slice mem n w h pl i : 0 < w -> 0 < h -> four_planes mem n w h pl -> 0 <= i < 4 ->
  0 <= i * n /\ i * n + h * w <= zlen mem /\ slice (i * n) (h * w) mem = mjoin (pl i).
Proof.
  intros Hw Hh Hfour Hi. destruct (Hfour i Hi) as (H1 & H2 & H3).
  assert (pl i <> []) as Hne by (intros E; rewrite E, zlen_nil in H1; lia).
  destruct (rows_at_fits _ _ _ _ Hne H3) as [Hp Hl]. rewrite H1 in Hl. split_and!; [done|done|].
  rewrite <- H1. apply rows_at_join; rewrite ?H1; (done || lia).
Qed.

Section Raw.
Context `{Alloc}.

(** The planes as they are make the message. *)
Lemma compress_raw_exact data format w h scan ctx :
  ready w h ctx -> format ∈ supported -> fits format scan 0 0 w h data -> scan <= INT32_MAX ->
  AllowRunLengthEncoding ctx = false -> bgr ctx = false ->
  let out := raw_message data format scan w h (topdown ctx) (AllowSkipAlpha ctx) in
  exists ctx', kept ctx ctx' /\ freerdp_bitmap_compress_planar data format w h scan None ctx
               = if malloc_ok (zlen out) then Ret out ctx' else Fail ctx'.
Proof.
  intros Hr Hf Hfit Hscan Hrle Hbgr out.
  destruct (split_and_delta data format w h scan ctx Hr Hf Hfit Hscan)
    as (ctx1 & db & Esplit & (b & Hb & Hfour) & (b' & Hc1) & Hk & _).
  assert (b' = b) as -> by (rewrite Hc1 in Hb; cbn in Hb; congruence).
  destruct Hr as [Hw Hh Hmax Hset Hpl _ _ (rb & Hrb & _)]. unfold INT32_MAX in Hmax.
  assert (0 < w * h) by nia.
  unfold freerdp_bitmap_compress_planar. rewrite get_bind, guard_bind by by rewrite Hrb. cbv zeta.
  replace (if negb (AllowSkipAlpha ctx) then planar_invert_format ctx true format else format) with format
    by (unfold planar_invert_format; rewrite Hbgr; by destruct (AllowSkipAlpha ctx)).
  rewrite (bind_ret_eq _ _ _ _ _ Esplit), Hrle. exists ctx1. split; [exact Hk|].
  assert (AllowSkipAlpha ctx1 = AllowSkipAlpha ctx) as Hsk by by rewrite Hc1.
  assert (planes_set ctx1 = true) as Hset1 by by rewrite Hc1.
  assert (zlen out = 2 + (if AllowSkipAlpha ctx then 3 else 4) * (h * w)) as Hlen
    by (apply raw_message_len; lia).
  unfold emit_raw. rewrite get_bind. cbv zeta. rewrite Hsk, Hset1, Hb.
  replace (u32 (w * h)) with (h * w) by word_lia.
  replace (u32 (1 + (if AllowSkipAlpha ctx then 0 else h * w) + u32 (h * w * 3) + 1)) with (zlen out)
    by (rewrite Hlen; destruct (AllowSkipAlpha ctx); word_lia).
  destruct (malloc_ok (zlen out)) eqn:Em; [|done].
  rewrite (bind_ret_eq _ _ _ (zlen out) ctx1) by done. cbn [contents]. rewrite ret_bind.
  assert (forall i, 0 <= i < 4 -> copy_from (plane_start ctx1 i) (h * w) b ctx1
    = Ret (mjoin (image_plane data format scan w h (topdown ctx) i)) ctx1) as Hplane.
  { intros i Hi. destruct (plane_at_slice _ _ _ _ _ _ Hw Hh Hfour Hi) as (Hp & Hl & <-).
    replace (plane_start ctx1 i) with (i * maxPlaneSize ctx) by (unfold plane_start; by rewrite Hc1).
    apply copy_from_ok; [done|nia|done]. }
  assert ((if AllowSkipAlpha ctx then mret [] else copy_from (plane_start ctx1 0) (h * w) b) ctx1
    = Ret (if AllowSkipAlpha ctx then [] else mjoin (image_plane data format scan w h (topdown ctx) 0)) ctx1) as E0
    by (destruct (AllowSkipAlpha ctx); [done|by apply Hplane]).
  rewrite (bind_ret_eq _ _ _ _ _ E0), (bind_ret_eq _ _ _ _ _ (Hplane 1 ltac:(lia))),
    (bind_ret_eq _ _ _ _ _ (Hplane 2 ltac:(lia))), (bind_ret_eq _ _ _ _ _ (Hplane 3 ltac:(lia))).
  fold (raw_header (AllowSkipAlpha ctx)).
  assert (raw_header (AllowSkipAlpha ctx) :: (if AllowSkipAlpha ctx then []
      else mjoin (image_plane data format scan w h (topdown ctx) 0))
    ++ mjoin (image_plane data format scan w h (topdown ctx) 1)
    ++ mjoin (image_plane data format scan w h (topdown ctx) 2)
    ++ mjoin (image_plane data format scan w h (topdown ctx) 3) ++ [0] = out) as ->.
  { unfold out, raw_message. f_equal. destruct (AllowSkipAlpha ctx); cbn [sent_planes map mjoin list_join];
      rewrite ?app_nil_r, <- ?app_assoc; done. }
  by rewrite Z.leb_refl.
Qed.
End Raw.

(** A plane of an image inside a message. *)
Lemma message_raw_plane src l1 l2 data format scan w h td i p : 0 < w -> 0 <= h ->
  src = l1 ++ mjoin (image_plane data format scan w h td i) ++ l2 -> p = zlen l1 ->
  plane_is (Some (src, p)) (h * w) (fun k => channel i (nth_pixel data format scan w h td k)).
Proof.
  intros Hw Hh -> -> S s k Hk. pose proof (zlen_nonneg l1).
  unfold plane_byte. apply byte_at_ok; [lia|].
  pose proof (image_plane_len data format scan w h td i ltac:(lia) Hh) as Hlen. unfold zlen in *.
  rewrite lookup_app_r by lia. rewrite lookup_app_l by lia.
  rewrite <- (image_plane_lookup data format scan w h td i k Hw Hh Hk). f_equal. lia.
Qed.

Lemma decompress_raw_message data format scan w h td skip g step x y ctx d :
  let src := raw_message data format scan w h td skip in
  0 < w -> 0 < h -> 4 * (w * h) <= INT32_MAX -> bgr ctx = false ->
  g = PIXEL_FORMAT_BGRX32 \/ g = PIXEL_FORMAT_BGRA32 /\ skip = false ->
  fits4 step x y w h d -> step <= INT32_MAX -> y + h <= UINT32_MAX ->
  exists d', freerdp_bitmap_decompress_planar src w h g step x y w h (negb td) (ctx, d) = Ret tt (ctx, d')
    /\ drawn step x y w h (fun i j => shown (g =? PIXEL_FORMAT_BGRA32) (image_pixel data format scan i j)) d d'.
Proof.
  intros src Hw Hh Hmax Hbgr Hg Hfit Hst Hy. pose proof Hfit as (Hx0 & Hy0 & Hs & _).
  assert (w <= w * h) by nia. assert (h <= w * h) by nia. unfold INT32_MAX, UINT32_MAX in *.
  set (pl i := mjoin (image_plane data format scan w h td i)).
  set (a := if skip then [] else pl 0).
  assert (src = raw_header skip :: a ++ pl 1 ++ pl 2 ++ pl 3 ++ [0]) as Esrc.
  { unfold src, raw_message, a, pl. f_equal. destruct skip; cbn [sent_planes map mjoin list_join];
      rewrite ?app_nil_r, <- ?app_assoc; done. }
  assert (forall i, zlen (pl i) = h * w) as Hpl by (intros; apply image_plane_len; lia).
  assert (zlen a = if skip then 0 else h * w) as Ha by (unfold a; destruct skip; [done|apply Hpl]).
  pose proof (raw_message_len data format scan w h td skip ltac:(lia) ltac:(lia)) as Hlen. fold src in Hlen.
  set (first := 1 + zlen a).
  rewrite (decompress_rgb src w h g step x y (negb td) ctx d (raw_header skip) false (negb skip)).
  2: done. 2,3,4,5: by destruct skip. 2: done. 2: lia.
  2:{ destruct Hg as [->|[-> ->]]; [by destruct skip|done]. }
  rewrite (bind_ret_eq _ _ _
    (mkLayout [first; first + h * w; first + h * w + h * w; 1] [h * w; h * w; h * w; h * w]) (ctx, d)).
  2:{ unfold raw_layout. cbv zeta. replace (u32 (w * h)) with (h * w) by word_lia.
      unfold first. rewrite Ha.
      rewrite !guard_bind by (rewrite Hlen; destruct skip; cbn [negb]; word_lia).
      by destruct skip. }
  assert (g ∈ supported) as Hsup by (destruct Hg as [->|[-> _]]; by apply (bool_decide_unpack _)).
  assert (FreeRDPGetBytesPerPixel g = 4) as Hbpp by (destruct Hg as [->|[-> _]]; done).
  destruct (raw_planes_ok (Some (src, first)) (Some (src, first + h * w)) (Some (src, first + h * w + h * w))
    (if negb skip then Some (src, 1) else None) g step x y w h td (y + h) d
    (fun k => channel 1 (nth_pixel data format scan w h td k))
    (fun k => channel 2 (nth_pixel data format scan w h td k))
    (fun k => channel 3 (nth_pixel data format scan w h td k))
    (fun k => channel 0 (nth_pixel data format scan w h td k))) as (d' & E & D);
    unfold INT32_MAX, UINT32_MAX; try done; try lia.
  - apply (message_raw_plane src (raw_header skip :: a) (pl 2 ++ pl 3 ++ [0])); [done|lia|done|].
    rewrite zlen_cons. unfold first. lia.
  - apply (message_raw_plane src ((raw_header skip :: a) ++ pl 1) (pl 3 ++ [0])); [done|lia| |].
    + by rewrite Esrc, <- app_assoc.
    + rewrite zlen_app, zlen_cons, Hpl. unfold first. lia.
  - apply (message_raw_plane src (((raw_header skip :: a) ++ pl 1) ++ pl 2) [0]); [done|lia| |].
    + by rewrite Esrc, <- !app_assoc.
    + rewrite !zlen_app, zlen_cons, !Hpl. unfold first. lia.
  - intros Hne. destruct Hg as [->|[-> ->]]; [done|]. cbn [negb].
    apply (message_raw_plane src [raw_header false] (pl 1 ++ pl 2 ++ pl 3 ++ [0])); [done|lia|done|done].
  - exists d'. split.
    + unfold draw_rgb. cbn [nth l_planes]. unfold on_target, on_dst. cbn [fst snd].
      replace (u32 (y + h)) with (y + h) by word_lia. by rewrite E.
    + revert D. apply drawn_ext. intros i j Hi Hj. cbv zeta. rewrite !nth_pixel_at by done.
      rewrite image_row_inv by done. unfold raw_px, shown, channel.
      destruct Hg as [->|[-> _]]; done.
Qed.

(** ** Through the codec *)

Section Session.
Context `{Alloc}.

(** A null block is allocated. *)
Lemma recalloc_fresh `{!AllocOk} sel upd n ctx : sel ctx = Null -> 0 < n < 2 ^ 62 ->
  recalloc sel upd n ctx = Ret tt (upd (Live (zrepeat n 0)) ctx).
Proof.
  intros Hs Hn. unfold recalloc. rewrite get_bind, Hs. unfold winpr_aligned_recalloc.
  rewrite alloc_ok by lia. by replace (0 <? n) with true by lia.
Qed.

Lemma PLANAR_ALIGN_range v : 0 < v -> v + 3 <= UINT32_MAX -> v <= PLANAR_ALIGN v 4 <= v + 3.
Proof.
  intros Hv Hm. unfold PLANAR_ALIGN, UINT32_MAX in *. pose proof (Z.mod_pos_bound v 4 ltac:(lia)).
  destruct (Z.eqb_spec (v mod 4) 0); [lia|]. replace (u32 (v + 4 - v mod 4)) with (v + 4 - v mod 4) by word_lia. lia.
Qed.

(** A new context has room for every image within its size, takes images from the bottom up and in
    the usual order of the channels, and has the options its flags ask for. *)
Lemma planar_context_new_ready `{!AllocOk} flags width height :
  0 < width -> 0 < height -> width + 3 <= UINT32_MAX / 4 -> (width + 3) * (height + 3) <= UINT32_MAX ->
  exists ctx, freerdp_bitmap_planar_context_new flags width height = Some ctx
    /\ (forall w h, 0 < w <= width -> 0 < h <= height -> 4 * (w * h) <= INT32_MAX -> ready w h ctx)
    /\ bgr ctx = false /\ topdown ctx = false
    /\ AllowSkipAlpha ctx = negb (Z.land flags PLANAR_FORMAT_HEADER_NA =? 0)
    /\ AllowRunLengthEncoding ctx = negb (Z.land flags PLANAR_FORMAT_HEADER_RLE =? 0).
Proof.
  intros Hw Hh Hw4 Hwh. unfold UINT32_MAX in *. change (4294967295 / 4) with 1073741823 in Hw4.
  assert (height + 3 <= (width + 3) * (height + 3)) by nia.
  destruct (PLANAR_ALIGN_range width) as [Ww Ww']; [lia|unfold UINT32_MAX; lia|].
  destruct (PLANAR_ALIGN_range height) as [Hh' Hh'']; [lia|unfold UINT32_MAX; lia|].
  set (mw := PLANAR_ALIGN width 4) in *. set (mh := PLANAR_ALIGN height 4) in *.
  assert (0 < mw * mh <= 4294967295) as Hmm by nia.
  unfold freerdp_bitmap_planar_context_new. rewrite alloc_ok by lia.
  unfold freerdp_bitmap_planar_context_reset. fold mw mh.
  eexists. split; [|split_and!].
  - erewrite bind_ret_eq by reflexivity. rewrite get_bind. cbv zeta. cbn [maxWidth maxHeight set_limits].
    rewrite guard_bind by (unfold UINT32_MAX; lia). erewrite bind_ret_eq by reflexivity.
    rewrite guard_bind by (unfold UINT32_MAX; change (4294967295 / 4) with 1073741823; lia).
    erewrite bind_ret_eq by reflexivity. replace (0 <? mw * mh) with true by lia.
    repeat (erewrite bind_ret_eq; [|apply recalloc_fresh; [done|lia]]). reflexivity.
  - intros w h Hw' Hh3 Hmax. split; cbn; try done; try lia.
    + nia.
    + eexists. split; [done|]. rewrite zlen_zrepeat; lia.
    + eexists. split; [done|]. rewrite zlen_zrepeat; lia.
    + eexists. split; [done|]. rewrite zlen_zrepeat; lia.
  - done.
  - done.
  - done.
  - done.
Qed.

(** A message of the encoder, which is the code of the image unless it is longer than the four
    planes, or the planes as they are. *)
Lemma compress_message data format w h scan ctx out ctx' :
  ready w h ctx -> format ∈ supported -> fits format scan 0 0 w h data -> scan <= INT32_MAX ->
  bgr ctx = false -> freerdp_bitmap_compress_planar data format w h scan None ctx = Ret out ctx' ->
  (AllowRunLengthEncoding ctx = true -> zlen out <= 4 * (w * h)) ->
  kept ctx ctx'
  /\ out = if AllowRunLengthEncoding ctx
        then rle_header (AllowSkipAlpha ctx)
             :: image_code data format scan w h (topdown ctx) (AllowSkipAlpha ctx)
        else raw_message data format scan w h (topdown ctx) (AllowSkipAlpha ctx).
Proof.
  intros Hr Hf Hfit Hscan Hbgr Hc Hsize. destruct (AllowRunLengthEncoding ctx) eqn:Erle.
  - specialize (Hsize eq_refl).
    destruct (compress_rle_cases data format w h scan ctx Hr Hf Hfit Hscan Erle Hbgr)
      as (c & Hk & [[Hle E]|[Hlt [E|(o & E & Hlo)]]]); rewrite E in Hc.
    + destruct (malloc_ok _); by simplify_eq.
    + done.
    + simplify_eq. lia.
  - destruct (compress_raw_exact data format w h scan ctx Hr Hf Hfit Hscan Erle Hbgr) as (c & Hk & E).
    rewrite E in Hc. by destruct (malloc_ok _); simplify_eq.
Qed.

(** An image of the format that lies in its data and within a size. *)
Record image_within (width height : Z) (data : list Z) (format w h scan : Z) : Prop := mkWithin {
  within_w : 0 < w <= width;
  within_h : 0 < h <= height;
  within_max : 4 * (w * h) <= INT32_MAX;
  within_data : fits format scan 0 0 w h data;
  within_scan : scan <= INT32_MAX
}.

(** The contexts of an encoder: a new one, one whose images come in another order of rows, and one
    that was given an image, which it took or refused. *)
Inductive encoder_state (flags width height : Z) : BITMAP_PLANAR_CONTEXT -> Prop :=
| encoder_new ctx : freerdp_bitmap_planar_context_new flags width height = Some ctx ->
    encoder_state flags width height ctx
| encoder_topdown ctx b : encoder_state flags width height ctx ->
    encoder_state flags width height (freerdp_planar_topdown_image b ctx)
| encoder_sent ctx data format w h scan out ctx' : encoder_state flags width height ctx ->
    format ∈ supported -> image_within width height data format w h scan ->
    freerdp_bitmap_compress_planar data format w h scan None ctx = Ret out ctx' ->
    encoder_state flags width height ctx'
| encoder_refused ctx data format w h scan ctx' : encoder_state flags width height ctx ->
    format ∈ supported -> image_within width height data format w h scan ->
    freerdp_bitmap_compress_planar data format w h scan None ctx = Fail ctx' ->
    encoder_state flags width height ctx'.

Lemma compress_kept data format w h scan ctx :
  ready w h ctx -> format ∈ supported -> fits format scan 0 0 w h data -> scan <= INT32_MAX -> bgr ctx = false ->
  exists ctx', kept ctx ctx'
    /\ (freerdp_bitmap_compress_planar data format w h scan None ctx = Fail ctx'
        \/ exists out, freerdp_bitmap_compress_planar data format w h scan None ctx = Ret out ctx').
Proof.
  intros Hr Hf Hfit Hscan Hbgr. destruct (AllowRunLengthEncoding ctx) eqn:Erle.
  - destruct (compress_rle_cases data format w h scan ctx Hr Hf Hfit Hscan Erle Hbgr)
      as (c & Hk & [[_ E]|[_ [E|(o & E & _)]]]); exists c; (split; [exact Hk|]); rewrite E; [|by left|eauto].
    destruct (malloc_ok _); eauto.
  - destruct (compress_raw_exact data format w h scan ctx Hr Hf Hfit Hscan Erle Hbgr) as (c & Hk & E).
    exists c. split; [exact Hk|]. rewrite E. destruct (malloc_ok _); eauto.
Qed.

Lemma encoder_state_ready `{!AllocOk} flags width height ctx :
  0 < width -> 0 < height -> width + 3 <= UINT32_MAX / 4 -> (width + 3) * (height + 3) <= UINT32_MAX ->
  encoder_state flags width height ctx ->
  bgr ctx = false
  /\ forall w h, 0 < w <= width -> 0 < h <= height -> 4 * (w * h) <= INT32_MAX -> ready w h ctx.
Proof.
  intros Hw Hh Hw4 Hwh. induction 1 as [ctx E|ctx b _ [Hb Hr]|ctx data f w h scan out c _ [Hb Hr] Hf Hi E
    |ctx data f w h scan c _ [Hb Hr] Hf Hi E].
  - destruct (planar_context_new_ready flags width height Hw Hh Hw4 Hwh) as (c & E' & Hr & Hb & _).
    assert (c = ctx) as -> by congruence. done.
  - split; [done|]. intros w h H1 H2 H3. destruct (Hr w h H1 H2 H3). by split.
  - destruct Hi as [H1 H2 H3 H4 H5].
    destruct (compress_kept data f w h scan ctx (Hr w h H1 H2 H3) Hf H4 H5 Hb) as (c' & [K _ _ Kb _] & [E'|[o E']]);
      [congruence|].
    assert (c' = c) as -> by congruence. split; [congruence|]. auto.
  - destruct Hi as [H1 H2 H3 H4 H5].
    destruct (compress_kept data f w h scan ctx (Hr w h H1 H2 H3) Hf H4 H5 Hb) as (c' & [K _ _ Kb _] & [E'|[o E']]);
      [|congruence].
    assert (c' = c) as -> by congruence. split; [congruence|]. auto.
Qed.


(** C6: an image that freerdp_bitmap_compress_planar turns into a message, with run lengths or
    without, with the alpha plane or without, from any 15, 16, 24 or 32 bit format but the 30 bit ones, and from
    the top or from the bottom, is drawn by freerdp_bitmap_decompress_planar of the same message
    into a destination of the format BGRX32, or BGRA32 when the alpha plane was kept, that has a
    rectangle of the image's size: every pixel of the rectangle has the channels of the image's
    pixel at its place (opaque in BGRX32), and no other byte of the destination is touched. The
    encoder keeps its room and its options, so the next image goes through the same way. Both
    contexts have the order RGB (bgr off), the encoder was made for images of this size, and with
    run lengths the message must be no longer than the four planes; a longer one is cut off. *)
Theorem planar_roundtrip data format w h scan ctx out ctx' dec d g step x y :
  ready w h ctx -> format ∈ supported -> fits format scan 0 0 w h data -> scan <= INT32_MAX ->
  bgr ctx = false -> freerdp_bitmap_compress_planar data format w h scan None ctx = Ret out ctx' ->
  (AllowRunLengthEncoding ctx = true -> zlen out <= 4 * (w * h)) ->
  bgr dec = false -> g = PIXEL_FORMAT_BGRX32 \/ g = PIXEL_FORMAT_BGRA32 /\ AllowSkipAlpha ctx = false ->
  fits4 step x y w h d -> step <= INT32_MAX -> y + h <= UINT32_MAX ->
  kept ctx ctx' /\ exists d',
    freerdp_bitmap_decompress_planar out w h g step x y w h (negb (topdown ctx)) (dec, d) = Ret tt (dec, d')
    /\ drawn step x y w h (fun i j => shown (g =? PIXEL_FORMAT_BGRA32) (image_pixel data format scan i j)) d d'.
Proof.
  intros Hr Hf Hfit Hscan Hbgr Hc Hsize Hdec Hg Hfit4 Hst Hy.
  pose proof (compress_message _ _ _ _ _ _ _ _ Hr Hf Hfit Hscan Hbgr Hc Hsize) as [Hk Hout].
  destruct Hr as [Hw Hh Hmax _ _ _ _ _]. assert (w <= w * h) by nia. assert (h <= w * h) by nia.
  unfold INT32_MAX in Hmax. split; [exact Hk|]. destruct (AllowRunLengthEncoding ctx); rewrite Hout.
  - specialize (Hsize eq_refl). rewrite Hout in Hsize.
    apply decompress_image_code; unfold INT32_MAX; try done; try lia.
    constructor; [apply rle_header_byte|]. apply image_code_bytes; lia.
  - by apply decompress_raw_message.
Qed.

End Session.

(** ** Two rows of four pixels *)

#[local] Definition small_image : list Z :=
  [10; 20; 30; 0; 10; 20; 30; 0; 10; 20; 30; 0; 10; 20; 30; 0;
   11; 22; 33; 0; 10; 20; 30; 0; 10; 20; 30; 0; 12; 20; 30; 0].

#[local] Definition small_context : BITMAP_PLANAR_CONTEXT :=
  default (fresh_context 0)
    (@freerdp_bitmap_planar_context_new alloc_always
       (Z.lor PLANAR_FORMAT_HEADER_NA PLANAR_FORMAT_HEADER_RLE) 4 2).

Lemma small_ready : ready 4 2 small_context.
Proof. split; try done; exists (zrepeat 64 0); split; by vm_compute. Qed.


Lemma planar_roundtrip_witness : exists out ctx' d',
  @freerdp_bitmap_compress_planar alloc_always small_image PIXEL_FORMAT_BGRX32 4 2 16 None small_context
  = Ret out ctx'
  /\ freerdp_bitmap_decompress_planar out 4 2 PIXEL_FORMAT_BGRX32 20 1 1 4 2 true (fresh_context 0, zrepeat 60 7)
     = Ret tt (fresh_context 0, d')
  /\ slice 24 16 d' = [10; 20; 30; 255; 10; 20; 30; 255; 10; 20; 30; 255; 10; 20; 30; 255].
Proof.
  let r := eval vm_compute in
    (@freerdp_bitmap_compress_planar alloc_always small_image PIXEL_FORMAT_BGRX32 4 2 16 None small_context) in
  match r with
  | Ret ?o ?c =>
      destruct (@planar_roundtrip alloc_always small_image PIXEL_FORMAT_BGRX32 4 2 16 small_context o c
                  (fresh_context 0) (zrepeat 60 7) PIXEL_FORMAT_BGRX32 20 1 1) as (_ & d' & E & D);
      [exact small_ready|by apply (bool_decide_unpack _)|by repeat split|done|done|by vm_compute|by vm_compute
      |done|by left|by repeat split|done|done|exists o, c, d']
  end.
  split; [by vm_compute|]. split; [exact E|]. clear D. vm_compute in E. by injection E as <-.
Defined.


(** ** Where messages are cut off *)

(** An image that is one pixel wide, with alpha: the codes of the first two planes fill the room, the
    other planes are left out without a word, and the decoder refuses the message. *)
Lemma narrow_image_cut_off :
  let ctx := default (fresh_context 0)
               (@freerdp_bitmap_planar_context_new alloc_always PLANAR_FORMAT_HEADER_RLE 1 1) in
  exists ctx',
    @freerdp_bitmap_compress_planar alloc_always [1; 2; 3; 4] PIXEL_FORMAT_BGRA32 1 1 4 None ctx
    = Ret [PLANAR_FORMAT_HEADER_RLE; 0x10; 4; 0x10; 3] ctx'
    /\ freerdp_bitmap_decompress_planar [PLANAR_FORMAT_HEADER_RLE; 0x10; 4; 0x10; 3] 1 1 PIXEL_FORMAT_BGRA32 4 0 0
         1 1 true (fresh_context 0, zrepeat 4 0) = Fail (fresh_context 0, zrepeat 4 0).
Proof.
  let r := eval vm_compute in
    (@freerdp_bitmap_compress_planar alloc_always [1; 2; 3; 4] PIXEL_FORMAT_BGRA32 1 1 4 None
       (default (fresh_context 0)
          (@freerdp_bitmap_planar_context_new alloc_always PLANAR_FORMAT_HEADER_RLE 1 1))) in
  match r with Ret _ ?c => exists c end.
  split; vm_compute; reflexivity.
Qed.

(** A context that cannot grow its first block keeps the pointer to it after it was freed. *)
Lemma failed_reset_frees_twice :
  let small : Alloc := fun n => n <? 1000 in
  exists ctx ctx', @freerdp_bitmap_planar_context_new small 0 4 4 = Some ctx
    /\ @freerdp_bitmap_planar_context_reset small 64 64 ctx = Fail ctx'
    /\ freerdp_bitmap_planar_context_free ctx' = Crash Undefined.
Proof.
  eexists _, _. split; [vm_compute; reflexivity|]. split; vm_compute; reflexivity.
Qed.
