(* ===== verification/PlanarSafe.v ===== *)
(** * Any message at the decoder of the planar codec

    Whatever the bytes of a message in RGB: the decoder refuses it and leaves the image alone, or
    draws every pixel of its rectangle and nothing else.  New contexts have room for the images they
    are made for. *)

From S2P Require Import Prelude Aligned Color Image Planar PlanarRle PlanarDecode PlanarEncode PlanarDraw.

(** ** The planes of a message *)

Lemma skip_plane_in {S} src p w h (s : S) : bytes src -> 0 <= p <= zlen src -> zlen src <= INT32_MAX ->
  0 <= w <= INT32_MAX -> 0 <= h ->
  wp (planar_skip_plane_rle src p (zlen src - p) w h)
    (fun n s' => s' = s /\ exists pl, plane_in src w h p n pl) (fun s' => s' = s) s.
Proof.
  intros Hb Hp Hmax Hw Hh. eapply wp_mono; [apply skip_plane_total; (done || lia)| |done].
  intros n s' (-> & Hn & lines & Hc & Hl). split; [done|]. exists (undelta_rows None lines), lines.
  split_and!; (done || lia).
Qed.

Lemma rle_layout_safe src w h sw sh (alpha : bool) s : bytes src -> 1 <= zlen src <= INT32_MAX ->
  0 <= w <= INT32_MAX -> 0 <= h ->
  wp (rle_layout src (zlen src) w h sw sh false alpha)
    (fun l s' => s' = s
       /\ exists pr pg pb pa,
            plane_in src w h (nth 0 (l_planes l) 0) (nth 0 (l_sizes l) 0) pr
            /\ plane_in src w h (nth 1 (l_planes l) 0) (nth 1 (l_sizes l) 0) pg
            /\ plane_in src w h (nth 2 (l_planes l) 0) (nth 2 (l_sizes l) 0) pb
            /\ (alpha = true -> plane_in src w h (nth 3 (l_planes l) 0) (nth 3 (l_sizes l) 0) pa))
    (fun s' => s' = s) s.
Proof.
  intros Hb Hlen Hw Hh. unfold rle_layout. cbv zeta. apply wp_bind.
  assert (wp (if alpha then planar_skip_plane_rle src 1 (zlen src - 1) w h else mret 0)
    (fun n s' => s' = s /\ 0 <= n /\ exists pa, alpha = true -> plane_in src w h 1 n pa) (fun s' => s' = s) s) as HA.
  { destruct alpha; [|apply wp_ret; split_and!; [done|lia|by exists []]].
    eapply wp_mono; [apply skip_plane_in; (done || lia)| |done]. intros n s' (-> & pl & Hpl).
    split_and!; [done|by destruct Hpl as (? & ? & ? & ?)|by exists pl]. }
  eapply wp_mono; [exact HA| |done]. intros nA s1 (-> & HnA & pa & Ha). clear HA.
  assert (forall p n pl, plane_in src w h p n pl -> 0 <= n /\ p + n <= zlen src) as Hin
    by (intros p n pl (? & ? & ? & ? & _); lia).
  apply wp_bind, wp_guard; [|done]. intros G0.
  apply wp_bind. eapply wp_mono; [apply skip_plane_in; (done || lia)| |done].
  intros n0 s1 (-> & pr & Hr). pose proof (Hin _ _ _ Hr).
  apply wp_bind, wp_guard; [|done]. intros G1.
  apply wp_bind. eapply wp_mono; [apply skip_plane_in; (done || lia)| |done].
  intros n1 s1 (-> & pg & Hg). pose proof (Hin _ _ _ Hg).
  apply wp_bind, wp_guard; [|done]. intros G2.
  apply wp_bind, wp_guard; [|done]. intros G3.
  apply wp_bind. eapply wp_mono; [apply skip_plane_in; (done || lia)| |done].
  intros n2 s1 (-> & pb & Hbl).
  apply wp_bind, wp_guard; [|done]. intros G4.
  apply wp_ret. split; [done|]. by exists pr, pg, pb, pa.
Qed.

Lemma plane_is_within (src : list Z) p n : 0 <= p -> p + n <= zlen src ->
  plane_is (Some (src, p)) n (fun k => nth (Z.to_nat (p + k)) src 0).
Proof.
  intros Hp Hn S s k Hk. unfold plane_byte. apply byte_at_ok; [lia|].
  destruct (src !! Z.to_nat (p + k)) as [b|] eqn:E.
  - by rewrite nth_lookup, E.
  - apply lookup_ge_None in E. unfold zlen in Hn. lia.
Qed.

Lemma raw_layout_safe (src : list Z) n sub (alpha : bool) (s : canvas) : 0 <= n ->
  wp (raw_layout (zlen src) n sub false alpha)
    (fun l s' => s' = s /\ (forall i, (i < 3)%nat ->
                              0 <= nth i (l_planes l) 0 /\ nth i (l_planes l) 0 + n <= zlen src)
       /\ (alpha = true -> nth 3 (l_planes l) 0 = 1 /\ 1 + n <= zlen src))
    (fun s' => s' = s) s.
Proof.
  intros Hn. unfold raw_layout. cbv zeta.
  apply wp_bind, wp_guard; [|done]. intros _. apply wp_bind, wp_guard; [|done]. intros G. apply wp_ret.
  assert ((if alpha then 1 + n else 1) + n + n + n <= zlen src) by lia.
  cbn [l_planes]. split_and!; [done| |].
  - intros i Hi. destruct i as [|[|[|]]]; [..|lia]; cbn [nth]; destruct alpha; lia.
  - intros ->. cbn [nth]. lia.
Qed.

(** The pixels of a rectangle are drawn with three channels, and opaque or with a fourth one. *)
Definition pixels_drawn (g step x y w h : Z) (d d' : list Z) : Prop :=
  exists px, drawn step x y w h px d d'
    /\ forall i j, exists r gr b a, px i j = [b; gr; r; a] /\ (g = PIXEL_FORMAT_BGRX32 -> a = 0xFF).

Lemma draw_raw_safe src l g step x y w h td (alpha : bool) ctx d :
  g = PIXEL_FORMAT_BGRX32 \/ g = PIXEL_FORMAT_BGRA32 /\ alpha = true ->
  0 < w <= INT32_MAX -> 0 < h <= INT32_MAX -> fits4 step x y w h d -> step <= INT32_MAX -> y + h <= UINT32_MAX ->
  (forall i, (i < 3)%nat -> 0 <= nth i (l_planes l) 0 /\ nth i (l_planes l) 0 + h * w <= zlen src) ->
  (alpha = true -> nth 3 (l_planes l) 0 = 1 /\ 1 + h * w <= zlen src) ->
  exists d', draw_rgb src l false false alpha (alpha && FreeRDPColorHasAlpha g) g step (u32 (y + h)) x y w h
               (negb td) (ctx, d) = Ret tt (ctx, d')
    /\ pixels_drawn g step x y w h d d'.
Proof.
  intros Hg Hw Hh Hfit Hst Hy Hl Ha. pose proof Hfit as (Hx0 & Hy0 & _).
  assert (g ∈ supported) as Hsup by (destruct Hg as [->|[-> _]]; by apply (bool_decide_unpack _)).
  assert (FreeRDPGetBytesPerPixel g = 4) as Hbpp by (destruct Hg as [->|[-> _]]; done).
  destruct (Hl 0%nat ltac:(lia)) as [R1 R2]. destruct (Hl 1%nat ltac:(lia)) as [G1 G2].
  destruct (Hl 2%nat ltac:(lia)) as [B1 B2].
  destruct (raw_planes_ok _ _ _ (if alpha then Some (src, nth 3 (l_planes l) 0) else None) g step x y w h td
    (y + h) d _ _ _ (fun k => nth (Z.to_nat (1 + k)) src 0) Hsup Hbpp Hw Hh Hfit Hst ltac:(lia) Hy
    (plane_is_within _ _ _ R1 R2) (plane_is_within _ _ _ G1 G2) (plane_is_within _ _ _ B1 B2)) as (d' & E & D).
  { intros Hne. destruct Hg as [->|[-> ->]]; [done|]. destruct (Ha eq_refl) as [-> Hle].
    by apply plane_is_within. }
  exists d'. split.
  - unfold draw_rgb, on_target, on_dst. cbn [fst snd].
    replace (u32 (y + h)) with (y + h) by (unfold UINT32_MAX in Hy; word_lia). by rewrite E.
  - eexists. split; [exact D|]. intros i j. unfold raw_px.
    destruct Hg as [->|[-> _]]; eexists _, _, _, _; split; done.
Qed.

Lemma draw_rle_safe src l g step x y w h td (alpha : bool) ctx d pr pg pb pa :
  bytes src -> 0 < w <= INT32_MAX -> 0 < h <= INT32_MAX -> fits4 step x y w h d -> step <= INT32_MAX ->
  g = PIXEL_FORMAT_BGRX32 \/ g = PIXEL_FORMAT_BGRA32 /\ alpha = true ->
  plane_in src w h (nth 0 (l_planes l) 0) (nth 0 (l_sizes l) 0) pr ->
  plane_in src w h (nth 1 (l_planes l) 0) (nth 1 (l_sizes l) 0) pg ->
  plane_in src w h (nth 2 (l_planes l) 0) (nth 2 (l_sizes l) 0) pb ->
  (alpha = true -> plane_in src w h (nth 3 (l_planes l) 0) (nth 3 (l_sizes l) 0) pa) ->
  exists d', draw_rgb src l false true alpha (alpha && FreeRDPColorHasAlpha g) g step (u32 (y + h)) x y w h
               (negb td) (ctx, d) = Ret tt (ctx, d')
    /\ pixels_drawn g step x y w h d d'.
Proof.
  intros Hb Hw Hh Hfit Hst Hg Hr Hgr Hbl Ha.
  destruct (draw_rgb_rle_ok src l false alpha (alpha && FreeRDPColorHasAlpha g) g step (u32 (y + h)) x y w h td
    (ctx, d) pr pg pb pa) as (t & E & D); try done; try lia.
  { intros Hu. apply Ha. by apply andb_true_iff in Hu as [? _]. }
  exists t. split; [exact E|]. eexists. split; [exact D|]. intros i j. unfold px4.
  eexists _, _, _, _. split; [done|]. intros ->. by rewrite andb_false_r.
Qed.

(** C7: freerdp_bitmap_decompress_planar takes any message of at least one byte whose header selects
    RGB, its own or an attacker's, with run lengths or without. Drawing an image into a rectangle of
    its own size that lies in a destination of the format BGRX32, or BGRA32 when the header has the
    alpha plane, with a context in the order RGB, it does not read outside the message or write
    outside the rectangle; a message it refuses leaves the image as it was, and one it accepts draws
    every pixel of the rectangle. Not covered are the empty message, whose header is read outside,
    the YCoCg and subsampled messages and the other formats, which go through the scratch image,
    where a rectangle outside of it is written behind the block. *)
Theorem planar_decompress_safe src hd w h g step x y vFlip ctx d :
  bytes src -> src !! O = Some hd -> zlen src <= INT32_MAX -> Z.land hd PLANAR_FORMAT_HEADER_CLL_MASK = 0 ->
  0 < w -> 0 < h -> w * h <= INT32_MAX -> bgr ctx = false ->
  g = PIXEL_FORMAT_BGRX32 \/ g = PIXEL_FORMAT_BGRA32 /\ Z.land hd PLANAR_FORMAT_HEADER_NA = 0 ->
  fits4 step x y w h d -> step <= INT32_MAX -> y + h <= UINT32_MAX ->
  match freerdp_bitmap_decompress_planar src w h g step x y w h vFlip (ctx, d) with
  | Ret _ (ctx', d') => ctx' = ctx /\ pixels_drawn g step x y w h d d'
  | Fail s => s = (ctx, d)
  | Crash _ => False
  end.
Proof.
  intros Hb Hhd Hmax Hcll Hw Hh Hwh Hbgr Hg Hfit Hst Hy. pose proof Hfit as (Hx0 & Hy0 & Hs & _).
  assert (w <= w * h) by nia. assert (h <= w * h) by nia.
  assert (1 <= zlen src) by (destruct src; [done|rewrite zlen_cons; pose proof (zlen_nonneg src); lia]).
  destruct (Z.eqb_spec (Z.land hd PLANAR_FORMAT_HEADER_CS) 0) as [Hcs|Hcs].
  2:{ unfold freerdp_bitmap_decompress_planar. rewrite get_bind. cbv zeta.
      rewrite (bind_ret_eq _ _ _ hd (ctx, d)) by by apply byte_at_ok.
      rewrite Hcll. by rewrite (proj2 (Z.eqb_neq _ 0) Hcs). }
  set (alpha := Z.land hd PLANAR_FORMAT_HEADER_NA =? 0).
  assert (g = PIXEL_FORMAT_BGRX32 \/ g = PIXEL_FORMAT_BGRA32 /\ alpha = true) as Hg'
    by (unfold alpha; destruct Hg as [?|[? ->]]; auto).
  rewrite <- (negb_involutive vFlip).
  rewrite (decompress_rgb src w h g step x y (negb (negb vFlip)) ctx d hd
    (negb (Z.land hd PLANAR_FORMAT_HEADER_RLE =? 0)) alpha);
    [|done|done|done|done|done|done|lia|destruct Hg' as [->|[-> ->]]; [by rewrite andb_false_r|done]].
  destruct (Z.land hd PLANAR_FORMAT_HEADER_RLE =? 0); cbn [negb].
  - replace (u32 (w * h)) with (h * w) by (unfold INT32_MAX in *; word_lia).
    edestruct (wp_elim _ _ _ _ (raw_layout_safe src (h * w) (u32 ((w / 2 + w mod 2) * (h / 2 + h mod 2))) alpha
      (ctx, d) ltac:(nia))) as [(l & s & E & -> & Hl & Ha)|(s & E & ->)].
    + rewrite (bind_ret_eq _ _ _ _ _ E).
      destruct (draw_raw_safe src l g step x y w h (negb vFlip) alpha ctx d Hg') as (d' & -> & D);
        unfold INT32_MAX in *; try done; try lia.
    + unfold mbind, M_bind. by rewrite E.
  - edestruct (wp_elim _ _ _ _ (rle_layout_safe src w h (w / 2 + w mod 2) (h / 2 + h mod 2) alpha (ctx, d) Hb
      ltac:(lia) ltac:(unfold INT32_MAX in *; lia) ltac:(lia)))
      as [(l & s & E & -> & pr & pg & pb & pa & Hr & Hgr & Hbl & Ha)|(s & E & ->)].
    + rewrite (bind_ret_eq _ _ _ _ _ E).
      destruct (draw_rle_safe src l g step x y w h (negb vFlip) alpha ctx d pr pg pb pa Hb) as (d' & -> & D);
        unfold INT32_MAX in *; try done; try lia.
    + unfold mbind, M_bind. by rewrite E.
Qed.

Lemma planar_decompress_safe_witness :
  match freerdp_bitmap_decompress_planar [0x30; 0x52; 1; 2; 3; 4; 5] 3 1 PIXEL_FORMAT_BGRX32 12 0 0 3 1 false
          (fresh_context 0, zrepeat 12 0) with
  | Ret _ (ctx', d') => ctx' = fresh_context 0 /\ pixels_drawn PIXEL_FORMAT_BGRX32 12 0 0 3 1 (zrepeat 12 0) d'
  | Fail s => s = (fresh_context 0, zrepeat 12 0)
  | Crash _ => False
  end.
Proof.
  apply (planar_decompress_safe _ 0x30); try done; [by apply bytes_check|by left].
Defined.
