(* ===== verification/RleBitmap.v ===== *)
(** * The decoder of the interleaved codec

    Model of the decoder of [libfreerdp/codec/interleaved.c]: a bitmap is a sequence of orders,
    runs and small images of pixels, that refer to the row of the bitmap above them.  The routines
    of [libfreerdp/codec/include/bitmap.h], which the C file includes once per depth, are written
    once over the record [depth].

    The destination is the state of a computation; pointers into the source and the destination
    are indices. *)

From S2P Require Import Prelude Aligned Color Image.

(** ** Orders *)

Definition REGULAR_BG_RUN : Z := 0x00.
Definition MEGA_MEGA_BG_RUN : Z := 0xF0.
Definition REGULAR_FG_RUN : Z := 0x01.
Definition MEGA_MEGA_FG_RUN : Z := 0xF1.
Definition LITE_SET_FG_FG_RUN : Z := 0x0C.
Definition MEGA_MEGA_SET_FG_RUN : Z := 0xF6.
Definition LITE_DITHERED_RUN : Z := 0x0E.
Definition MEGA_MEGA_DITHERED_RUN : Z := 0xF8.
Definition REGULAR_COLOR_RUN : Z := 0x03.
Definition MEGA_MEGA_COLOR_RUN : Z := 0xF3.
Definition REGULAR_FGBG_IMAGE : Z := 0x02.
Definition MEGA_MEGA_FGBG_IMAGE : Z := 0xF2.
Definition LITE_SET_FG_FGBG_IMAGE : Z := 0x0D.
Definition MEGA_MEGA_SET_FGBG_IMAGE : Z := 0xF7.
Definition REGULAR_COLOR_IMAGE : Z := 0x04.
Definition MEGA_MEGA_COLOR_IMAGE : Z := 0xF4.
Definition SPECIAL_FGBG_1 : Z := 0xF9.
Definition SPECIAL_FGBG_2 : Z := 0xFA.
Definition SPECIAL_WHITE : Z := 0xFD.
Definition SPECIAL_BLACK : Z := 0xFE.

Definition BLACK_PIXEL : Z := 0x000000.

Definition g_MaskSpecialFgBg1 : Z := 0x03.
Definition g_MaskSpecialFgBg2 : Z := 0x05.
Definition g_MaskRegularRunLength : Z := 0x1F.
Definition g_MaskLiteRunLength : Z := 0x0F.

(** [buffer_within_range (pbSrc, size, pbEnd)] *)
Definition buffer_within_range (pbSrc size pbEnd : Z) : bool := negb (pbEnd <? pbSrc + size).

Definition ExtractCodeId (bOrderHdr : Z) : Z :=
  if negb (Z.land bOrderHdr 0xC0 =? 0xC0) then Z.shiftr bOrderHdr 5
  else if Z.land bOrderHdr 0xF0 =? 0xF0 then bOrderHdr
  else Z.shiftr bOrderHdr 4.

(** The run length of an order and the bytes it takes, none when it is cut off. *)
Section RunLength.
Context {S : Type}.
Variables (src : list Z) (pbOrderHdr pbEnd : Z).

(** A length in the low bits of the header, or in the next byte when these are zero. *)
Definition short_length (mask bias scale : Z) : M S (Z * Z) :=
  b ← byte_at src pbOrderHdr;
  let runLength := Z.land b mask in
  if runLength =? 0 then
    if negb (buffer_within_range pbOrderHdr 2 pbEnd) then mret (0, 0)
    else n ← byte_at src (pbOrderHdr + 1); mret (n + bias, 2)
  else mret (runLength * scale, 1).

Definition ExtractRunLengthRegularFgBg : M S (Z * Z) := short_length g_MaskRegularRunLength 1 8.
Definition ExtractRunLengthLiteFgBg : M S (Z * Z) := short_length g_MaskLiteRunLength 1 8.
Definition ExtractRunLengthRegular : M S (Z * Z) := short_length g_MaskRegularRunLength 32 1.
Definition ExtractRunLengthLite : M S (Z * Z) := short_length g_MaskLiteRunLength 16 1.

Definition ExtractRunLengthMegaMega : M S (Z * Z) :=
  if negb (buffer_within_range pbOrderHdr 3 pbEnd) then mret (0, 0)
  else
    lo ← byte_at src (pbOrderHdr + 1);
    hi ← byte_at src (pbOrderHdr + 2);
    mret (Z.lor lo (Z.land (Z.shiftl hi 8) 0xFF00), 3).

Definition ExtractRunLength (code : Z) : M S (Z * Z) :=
  if negb (buffer_within_range pbOrderHdr 0 pbEnd) then mret (0, 0)
  else
    let among := existsb (Z.eqb code) in
    if among [REGULAR_FGBG_IMAGE] then ExtractRunLengthRegularFgBg
    else if among [LITE_SET_FG_FGBG_IMAGE] then ExtractRunLengthLiteFgBg
    else if among [REGULAR_BG_RUN; REGULAR_FG_RUN; REGULAR_COLOR_RUN; REGULAR_COLOR_IMAGE] then
      ExtractRunLengthRegular
    else if among [LITE_SET_FG_FG_RUN; LITE_DITHERED_RUN] then ExtractRunLengthLite
    else if among [MEGA_MEGA_BG_RUN; MEGA_MEGA_FG_RUN; MEGA_MEGA_SET_FG_RUN; MEGA_MEGA_DITHERED_RUN;
                MEGA_MEGA_COLOR_RUN; MEGA_MEGA_FGBG_IMAGE; MEGA_MEGA_SET_FGBG_IMAGE;
                MEGA_MEGA_COLOR_IMAGE] then ExtractRunLengthMegaMega
    else mret (0, 0).
End RunLength.

(** ** Pixels *)

Definition ensure_capacity (start end_ size base : Z) : bool :=
  let available := usize (end_ - start) in
  (usize (size * base) <=? available) && (start <=? end_).

Definition write_pixel_8 (pix : Z) : list Z := [u8 pix].
Definition write_pixel_24 (pix : Z) : list Z := [u8 pix; u8 (Z.shiftr pix 8); u8 (Z.shiftr pix 16)].
Definition write_pixel_16 (pix : Z) : list Z := [Z.land pix 0xFF; Z.land (Z.shiftr pix 8) 0xFF].

Definition read_pixel_8 (b : list Z) : Z := nth 0 b 0.
Definition read_pixel_16 (b : list Z) : Z := Z.lor (nth 0 b 0) (Z.land (Z.shiftl (nth 1 b 0) 8) 0xFF00).
Definition read_pixel_24 (b : list Z) : Z :=
  Z.lor (Z.lor (nth 0 b 0) (Z.land (Z.shiftl (nth 1 b 0) 8) 0xFF00))
    (Z.land (Z.shiftl (nth 2 b 0) 16) 0xFF0000).

(** What [bitmap.h] is included with: the size of a pixel, white, and a pixel as bytes. *)
Record depth := mkDepth {
  PIXEL_SIZE : Z;
  WHITE_PIXEL : Z;
  to_bytes : Z -> list Z;
  of_bytes : list Z -> Z
}.

Definition depth8 : depth := mkDepth 1 0xFF write_pixel_8 read_pixel_8.
Definition depth16 : depth := mkDepth 2 0xFFFF write_pixel_16 read_pixel_16.
Definition depth24 : depth := mkDepth 3 0xffffff write_pixel_24 read_pixel_24.

Section Rle.
Variable d : depth.
#[local] Abbreviation size := (PIXEL_SIZE d).

Definition DESTWRITEPIXEL (p pix : Z) : M (list Z) unit := store p (to_bytes d pix).

Definition DESTREADPIXEL (p : Z) : M (list Z) Z :=
  mem ← get; px ← copy_from p size mem; mret (of_bytes d px).

Definition SRCREADPIXEL (src : list Z) (p : Z) : M (list Z) Z :=
  px ← copy_from p size src; mret (of_bytes d px).

Definition ENSURE_CAPACITY (start end_ n : Z) : bool := ensure_capacity start end_ n size.

(** [UNROLL (n, body)], the body at the places of the pixels from [p] on *)
Definition unroll (n p : Z) (body : Z -> M (list Z) unit) : M (list Z) unit :=
  for_range (Z.to_nat n) 0 (fun x => body (p + x * size)).

(** [Fail] is the return of [NULL]. *)
Definition WriteFgBgImage (pbDest pbDestEnd rowDelta bitmask fgPel cBits : Z) : M (list Z) Z :=
  guard (negb (8 <? cBits));;
  guard (ENSURE_CAPACITY pbDest pbDestEnd cBits);;
  for_range (Z.to_nat cBits) 0 (fun x =>
    let p := pbDest + x * size in
    let mask := Z.land (Z.shiftl 1 x) 0xFF in
    xorPixel ← DESTREADPIXEL (p - rowDelta);
    DESTWRITEPIXEL p (if negb (Z.land bitmask mask =? 0) then Z.lxor xorPixel fgPel else xorPixel));;
  mret (pbDest + cBits * size).

Definition WriteFirstLineFgBgImage (pbDest pbDestEnd bitmask fgPel cBits : Z) : M (list Z) Z :=
  guard (negb (8 <? cBits));;
  guard (ENSURE_CAPACITY pbDest pbDestEnd cBits);;
  for_range (Z.to_nat cBits) 0 (fun x =>
    let p := pbDest + x * size in
    let mask := Z.land (Z.shiftl 1 x) 0xFF in
    DESTWRITEPIXEL p (if negb (Z.land bitmask mask =? 0) then fgPel else BLACK_PIXEL));;
  mret (pbDest + cBits * size).

(** ** The decoder *)

Record decoder := mkDecoder {
  pbSrc : Z;
  pbDest : Z;
  fgPel : Z;
  fInsertFgPel : bool;
  fFirstLine : bool
}.

Section Orders.
Variables (src : list Z) (pbEnd pbDestEnd rowDelta : Z).

(** [runLength = ExtractRunLength (...); if (advance == 0) return FALSE; pbSrc = pbSrc + advance;] *)
Definition run_length (code p : Z) : M (list Z) (Z * Z) :=
  '(n, advance) ← ExtractRunLength src p pbEnd code;
  guard (negb (advance =? 0));;
  mret (n, p + advance).

(** [if (!buffer_within_range (pbSrc, PIXEL_SIZE, pbEnd)) return FALSE; SRCREADPIXEL (..., pbSrc);] *)
Definition take_pixel (p : Z) : M (list Z) (Z * Z) :=
  guard (buffer_within_range p size pbEnd);;
  pix ← SRCREADPIXEL src p;
  mret (pix, p + size).

(** The bits of a foreground/background image. *)
Definition write_bits (first : bool) (pbDest bitmask fgPel cBits : Z) : M (list Z) Z :=
  if first then WriteFirstLineFgBgImage pbDest pbDestEnd bitmask fgPel cBits
  else WriteFgBgImage pbDest pbDestEnd rowDelta bitmask fgPel cBits.

(** [while (runLength > 8)] and the bits that are left *)
Fixpoint fgbg_loop (fuel : nat) (first : bool) (p pbDest fgPel runLength : Z) : M (list Z) (Z * Z) :=
  if 8 <? runLength then
    match fuel with
    | O => crash Diverges
    | S fuel' =>
        bitmask ← byte_at src p;
        dst ← write_bits first pbDest bitmask fgPel 8;
        fgbg_loop fuel' first (p + 1) dst fgPel (runLength - 8)
    end
  else if 0 <? runLength then
    guard (buffer_within_range p 1 pbEnd);;
    bitmask ← byte_at src p;
    dst ← write_bits first pbDest bitmask fgPel runLength;
    mret (p + 1, dst)
  else mret (p, pbDest).

Definition bg_run (code : Z) (st : decoder) : M (list Z) decoder :=
  '(runLength, p) ← run_length code (pbSrc st);
  let above q := if fFirstLine st then mret BLACK_PIXEL else DESTREADPIXEL (q - rowDelta) in
  '(runLength, dst) ←
    (if fInsertFgPel st then
       temp ← above (pbDest st);
       guard (ENSURE_CAPACITY (pbDest st) pbDestEnd 1);;
       DESTWRITEPIXEL (pbDest st) (if fFirstLine st then fgPel st else Z.lxor temp (fgPel st));;
       mret (u32 (runLength - 1), pbDest st + size)
     else mret (runLength, pbDest st));
  guard (ENSURE_CAPACITY dst pbDestEnd runLength);;
  unroll runLength dst (fun q => temp ← above q; DESTWRITEPIXEL q temp);;
  mret (mkDecoder p (dst + runLength * size) (fgPel st) true (fFirstLine st)).

Definition fg_run (code : Z) (st : decoder) : M (list Z) decoder :=
  '(runLength, p) ← run_length code (pbSrc st);
  '(fg, p) ← (if (code =? LITE_SET_FG_FG_RUN) || (code =? MEGA_MEGA_SET_FG_RUN) then take_pixel p
              else mret (fgPel st, p));
  guard (ENSURE_CAPACITY (pbDest st) pbDestEnd runLength);;
  unroll runLength (pbDest st) (fun q =>
    if fFirstLine st then DESTWRITEPIXEL q fg
    else temp ← DESTREADPIXEL (q - rowDelta); DESTWRITEPIXEL q (Z.lxor temp fg));;
  mret (mkDecoder p (pbDest st + runLength * size) fg false (fFirstLine st)).

Definition dithered_run (code : Z) (st : decoder) : M (list Z) decoder :=
  '(runLength, p) ← run_length code (pbSrc st);
  '(pixelA, p) ← take_pixel p;
  '(pixelB, p) ← take_pixel p;
  guard (ENSURE_CAPACITY (pbDest st) pbDestEnd (u32 (runLength * 2)));;
  for_range (Z.to_nat runLength) 0 (fun x =>
    DESTWRITEPIXEL (pbDest st + 2 * x * size) pixelA;;
    DESTWRITEPIXEL (pbDest st + (2 * x + 1) * size) pixelB);;
  mret (mkDecoder p (pbDest st + 2 * runLength * size) (fgPel st) false (fFirstLine st)).

Definition color_run (code : Z) (st : decoder) : M (list Z) decoder :=
  '(runLength, p) ← run_length code (pbSrc st);
  '(pixelA, p) ← take_pixel p;
  guard (ENSURE_CAPACITY (pbDest st) pbDestEnd runLength);;
  unroll runLength (pbDest st) (fun q => DESTWRITEPIXEL q pixelA);;
  mret (mkDecoder p (pbDest st + runLength * size) (fgPel st) false (fFirstLine st)).

Definition fgbg_image (code : Z) (st : decoder) : M (list Z) decoder :=
  '(runLength, p) ← run_length code (pbSrc st);
  '(fg, p) ← (if (code =? LITE_SET_FG_FGBG_IMAGE) || (code =? MEGA_MEGA_SET_FGBG_IMAGE) then take_pixel p
              else mret (fgPel st, p));
  guard (buffer_within_range p (runLength / 8) pbEnd);;
  '(p, dst) ← fgbg_loop (Z.to_nat runLength) (fFirstLine st) p (pbDest st) fg runLength;
  mret (mkDecoder p dst fg false (fFirstLine st)).

Definition color_image (code : Z) (st : decoder) : M (list Z) decoder :=
  '(runLength, p) ← run_length code (pbSrc st);
  guard (ENSURE_CAPACITY (pbDest st) pbDestEnd runLength);;
  guard (ENSURE_CAPACITY p pbEnd runLength);;
  for_range (Z.to_nat runLength) 0 (fun x =>
    temp ← SRCREADPIXEL src (p + x * size);
    DESTWRITEPIXEL (pbDest st + x * size) temp);;
  mret (mkDecoder (p + runLength * size) (pbDest st + runLength * size) (fgPel st) false (fFirstLine st)).

Definition special_fgbg (mask : Z) (st : decoder) : M (list Z) decoder :=
  guard (buffer_within_range (pbSrc st) 1 pbEnd);;
  dst ← write_bits (fFirstLine st) (pbDest st) mask (fgPel st) 8;
  mret (mkDecoder (pbSrc st + 1) dst (fgPel st) false (fFirstLine st)).

Definition special_pixel (pix : Z) (st : decoder) : M (list Z) decoder :=
  guard (buffer_within_range (pbSrc st) 1 pbEnd);;
  guard (ENSURE_CAPACITY (pbDest st) pbDestEnd 1);;
  DESTWRITEPIXEL (pbDest st) pix;;
  mret (mkDecoder (pbSrc st + 1) (pbDest st + size) (fgPel st) false (fFirstLine st)).

(** One turn of [while (pbSrc < pbEnd)]. *)
Definition rle_order (st : decoder) : M (list Z) decoder :=
  let ends := fFirstLine st && (rowDelta <=? u32 (pbDest st)) in
  let st := if ends then mkDecoder (pbSrc st) (pbDest st) (fgPel st) false false else st in
  b ← byte_at src (pbSrc st);
  let code := ExtractCodeId b in
  let among := existsb (Z.eqb code) in
  if among [REGULAR_BG_RUN; MEGA_MEGA_BG_RUN] then bg_run code st
  else if among [REGULAR_FG_RUN; MEGA_MEGA_FG_RUN; LITE_SET_FG_FG_RUN; MEGA_MEGA_SET_FG_RUN] then fg_run code st
  else if among [LITE_DITHERED_RUN; MEGA_MEGA_DITHERED_RUN] then dithered_run code st
  else if among [REGULAR_COLOR_RUN; MEGA_MEGA_COLOR_RUN] then color_run code st
  else if among [REGULAR_FGBG_IMAGE; MEGA_MEGA_FGBG_IMAGE; LITE_SET_FG_FGBG_IMAGE;
              MEGA_MEGA_SET_FGBG_IMAGE] then fgbg_image code st
  else if among [REGULAR_COLOR_IMAGE; MEGA_MEGA_COLOR_IMAGE] then color_image code st
  else if among [SPECIAL_FGBG_1] then special_fgbg g_MaskSpecialFgBg1 st
  else if among [SPECIAL_FGBG_2] then special_fgbg g_MaskSpecialFgBg2 st
  else if among [SPECIAL_WHITE] then special_pixel (WHITE_PIXEL d) st
  else if among [SPECIAL_BLACK] then special_pixel BLACK_PIXEL st
  else failure.

Fixpoint rle_loop (fuel : nat) (st : decoder) : M (list Z) unit :=
  if pbSrc st <? pbEnd then
    match fuel with
    | O => crash Diverges
    | S fuel' => st ← rle_order st; rle_loop fuel' st
    end
  else mret tt.
End Orders.

(** [RleDecompress8to8], [RleDecompress16to16] and [RleDecompress24to24] *)
Definition RleDecompress (src : list Z) (rowDelta width height : Z) : M (list Z) unit :=
  guard (negb ((rowDelta =? 0) || (rowDelta <? width)));;
  rle_loop src (zlen src) (rowDelta * height) rowDelta (Z.to_nat (zlen src))
    (mkDecoder 0 0 (WHITE_PIXEL d) false true).
End Rle.
