(* ===== verification/Bitmap.v ===== *)
(** * The encoder of the interleaved codec

    Model of [libfreerdp/codec/bitmap.c].  The rows of a bitmap are read from the bottom up; pixels
    wait in a stream of their own until a run of one of five kinds ends that is worth an order.

    The functions for two and for three bytes a pixel are the same but for the names in the record
    [encoding], and are written once over it. *)

From S2P Require Import Prelude Stream Color Image.

(** ** Data *)

(** [struct count] *)
Record struct_count := mkCount {
  bicolor_count : Z;
  fill_count : Z;
  color_count : Z;
  mix_count : Z;
  fom_count : Z;
  fom_mask_len : Z;
  bicolor_spin : bool
}.

Definition reset_counts : struct_count := mkCount 0 0 0 0 0 0 false.

(** The variables of the encoder; [waiting] is [count]. *)
Record compressor := mkCompressor {
  out : wStream;
  temp : wStream;
  counts : struct_count;
  fom_mask : list Z;
  waiting : Z;
  last_pixel : Z;
  last_ypixel : Z;
  bicolor1 : Z;
  bicolor2 : Z
}.

Definition set_out (s : wStream) (c : compressor) : compressor :=
  mkCompressor s (temp c) (counts c) (fom_mask c) (waiting c) (last_pixel c) (last_ypixel c) (bicolor1 c) (bicolor2 c).
Definition set_temp (s : wStream) (c : compressor) : compressor :=
  mkCompressor (out c) s (counts c) (fom_mask c) (waiting c) (last_pixel c) (last_ypixel c) (bicolor1 c) (bicolor2 c).
Definition set_counts (k : struct_count) (c : compressor) : compressor :=
  mkCompressor (out c) (temp c) k (fom_mask c) (waiting c) (last_pixel c) (last_ypixel c) (bicolor1 c) (bicolor2 c).
Definition set_mask (m : list Z) (c : compressor) : compressor :=
  mkCompressor (out c) (temp c) (counts c) m (waiting c) (last_pixel c) (last_ypixel c) (bicolor1 c) (bicolor2 c).
Definition set_waiting (n : Z) (c : compressor) : compressor :=
  mkCompressor (out c) (temp c) (counts c) (fom_mask c) n (last_pixel c) (last_ypixel c) (bicolor1 c) (bicolor2 c).
Definition set_last (p y : Z) (c : compressor) : compressor :=
  mkCompressor (out c) (temp c) (counts c) (fom_mask c) (waiting c) p y (bicolor1 c) (bicolor2 c).
Definition set_bicolors (a b : Z) (c : compressor) : compressor :=
  mkCompressor (out c) (temp c) (counts c) (fom_mask c) (waiting c) (last_pixel c) (last_ypixel c) a b.

Definition set_fill (n : Z) (k : struct_count) : struct_count :=
  mkCount (bicolor_count k) n (color_count k) (mix_count k) (fom_count k) (fom_mask_len k) (bicolor_spin k).
Definition set_mix (n : Z) (k : struct_count) : struct_count :=
  mkCount (bicolor_count k) (fill_count k) (color_count k) n (fom_count k) (fom_mask_len k) (bicolor_spin k).
Definition set_color (n : Z) (k : struct_count) : struct_count :=
  mkCount (bicolor_count k) (fill_count k) n (mix_count k) (fom_count k) (fom_mask_len k) (bicolor_spin k).
Definition set_bicolor (n : Z) (spin : bool) (k : struct_count) : struct_count :=
  mkCount n (fill_count k) (color_count k) (mix_count k) (fom_count k) (fom_mask_len k) spin.
Definition set_fom (n len : Z) (k : struct_count) : struct_count :=
  mkCount (bicolor_count k) (fill_count k) (color_count k) (mix_count k) n len (bicolor_spin k).

Definition on_out {A} (m : M wStream A) : M compressor A := fun c =>
  match m (out c) with
  | Ret a s => Ret a (set_out s c)
  | Fail s => Fail (set_out s c)
  | Crash f => Crash f
  end.

Definition on_temp_s {A} (m : M wStream A) : M compressor A := fun c =>
  match m (temp c) with
  | Ret a s => Ret a (set_temp s c)
  | Fail s => Fail (set_temp s c)
  | Crash f => Crash f
  end.

Definition count_with (f : struct_count -> struct_count) : M compressor unit :=
  modify (fun c => set_counts (f (counts c)) c).

(** ** Pixels *)

Definition GETPIXEL16 (src : list Z) : Z := Z.lor (Z.shiftl (nth 1 src 0) 8) (nth 0 src 0).

Definition GETPIXEL32 (src : list Z) : Z :=
  Z.lor (Z.lor (Z.lor (Z.shiftl (nth 3 src 0) 24) (Z.shiftl (nth 2 src 0) 16)) (Z.shiftl (nth 1 src 0) 8))
    (Z.land (nth 0 src 0) 0xFF).

(** What differs between the two functions: the bytes of a pixel in the message and in the bitmap,
    the pixel a mix flips with, and where waiting pixels are copied from. *)
Record encoding := mkEncoding {
  e_size : Z;
  e_step : Z;
  e_pixel : list Z -> Z;
  e_mix : Z;
  e_write : Z -> M wStream unit;
  e_from : wStream -> Z
}.

(** [freerdp_bitmap_compress_16]: the waiting pixels are at [Stream_Buffer (temp_s)]. *)
Definition encoding16 (bpp : Z) : encoding :=
  mkEncoding 2 2 GETPIXEL16 (if bpp =? 15 then 0xBA1F else 0xFFFF) Stream_Write_UINT16 (fun _ => 0).

(** [freerdp_bitmap_compress_24]: they are copied from [Stream_Pointer (temp_s)]. *)
Definition encoding24 : encoding :=
  mkEncoding 3 4 GETPIXEL32 0xFFFFFF
    (fun v => Stream_Write_UINT8 (Z.land v 0xFF);; Stream_Write_UINT8 (Z.land (Z.shiftr v 8) 0xFF);;
              Stream_Write_UINT8 (Z.land (Z.shiftr v 16) 0xFF))
    pointer.

Section Encoder.
Variable e : encoding.

(** [IN_PIXEL16] and [IN_PIXEL32] with [in_y] zero; no line is a null pointer *)
Definition IN_PIXEL {S} (data : list Z) (line : option Z) (x w last : Z) : M S Z :=
  match line with
  | None => mret 0
  | Some off =>
      if x <? w then px ← copy_from (off + x * e_step e) (e_step e) data; mret (e_pixel e px)
      else mret last
  end.

(** ** Orders *)

(** A count in the header byte, in one more byte, or in two bytes behind another header. *)
Definition out_header (base limit mega in_count : Z) : M wStream unit :=
  if in_count <? limit then Stream_Write_UINT8 (Z.land (Z.lor base in_count) 0xFF)
  else if in_count <? 256 + limit then
    Stream_Write_UINT8 base;; Stream_Write_UINT8 (Z.land (in_count - limit) 0xFF)
  else Stream_Write_UINT8 mega;; Stream_Write_UINT16 in_count.

Definition out_color_count (in_count in_data : Z) : M wStream unit :=
  if 0 <? in_count then out_header 0x60 32 0xf3 in_count;; e_write e in_data else mret tt.

Definition out_bicolor_count (in_count in_color1 in_color2 : Z) : M wStream unit :=
  if 0 <? in_count then
    out_header 0xe0 16 0xf8 (in_count / 2);; e_write e in_color1;; e_write e in_color2
  else mret tt.

Definition out_fill_count (in_count : Z) : M wStream unit :=
  if 0 <? in_count then out_header 0x00 32 0xf0 in_count else mret tt.

Definition out_counts_mix_count (in_count : Z) : M wStream unit :=
  if 0 <? in_count then out_header 0x20 32 0xf1 in_count else mret tt.

Definition out_from_count (in_count : Z) (in_mask : list Z) (in_mask_len : Z) : M wStream unit :=
  if 0 <? in_count then
    (if (in_count mod 8 =? 0) && (in_count <? 249) then
       Stream_Write_UINT8 (Z.land (Z.lor 0x40 (in_count / 8)) 0xFF)
     else if in_count <? 256 then
       Stream_Write_UINT8 0x40;; Stream_Write_UINT8 (Z.land (in_count - 1) 0xFF)
     else Stream_Write_UINT8 0xf2;; Stream_Write_UINT16 in_count);;
    mask ← copy_from 0 in_mask_len in_mask;
    Stream_Write mask
  else mret tt.

(** [count = out_copy_count (count, s, temp_s)] *)
Definition out_copy_count : M compressor unit :=
  c ← get;
  (if 0 <? waiting c then
     on_out (out_header 0x80 32 0xf4 (waiting c));;
     px ← copy_from (e_from e (temp c)) (e_size e * waiting c) (buffer (temp c));
     on_out (Stream_Write px)
   else mret tt);;
  attempt (on_temp_s (Stream_SetPosition 0));;
  modify (set_waiting 0).

(** ** Runs *)

(** [x > 3 && x >= ...] over all counts *)
Definition dominant (x : Z) (k : struct_count) : bool :=
  (3 <? x) && forallb (fun y => y <=? x) [fill_count k; color_count k; mix_count k; bicolor_count k; fom_count k].

(** The pixels in front of a run of [x] pixels, then the order of the run. *)
Definition put_run (x : Z) (order : M compressor unit) : M compressor unit :=
  c ← get;
  guard (negb (waiting c <? x));;
  modify (set_waiting (waiting c - x));;
  out_copy_count;;
  order;;
  count_with (fun _ => reset_counts).

Definition flush_fill : M compressor unit :=
  c ← get; let x := fill_count (counts c) in
  if dominant x (counts c) then put_run x (on_out (out_fill_count x)) else mret tt.

Definition flush_mix : M compressor unit :=
  c ← get; let x := mix_count (counts c) in
  if dominant x (counts c) then put_run x (on_out (out_counts_mix_count x)) else mret tt.

Definition flush_color : M compressor unit :=
  c ← get; let x := color_count (counts c) in
  if dominant x (counts c) then put_run x (on_out (out_color_count x (last_pixel c))) else mret tt.

Definition flush_bicolor : M compressor unit :=
  c ← get; let x := bicolor_count (counts c) in
  if dominant x (counts c) then
    let x := if negb (x mod 2 =? 0) then x - 1 else x in
    put_run x (on_out (out_bicolor_count x (bicolor2 c) (bicolor1 c)))
  else mret tt.

Definition flush_fom : M compressor unit :=
  c ← get; let x := fom_count (counts c) in
  if dominant x (counts c) then
    put_run x (on_out (out_from_count x (fom_mask c) (fom_mask_len (counts c))))
  else mret tt.

(** [first] is [last_line == 0]. *)
Definition TEST_FILL (first : bool) (pixel ypixel : Z) : bool :=
  if first then pixel =? 0 else pixel =? ypixel.
Definition TEST_MIX (first : bool) (pixel ypixel : Z) : bool :=
  if first then pixel =? e_mix e else pixel =? Z.lxor ypixel (e_mix e).
Definition TEST_FOM (first : bool) (pixel ypixel : Z) : bool :=
  TEST_FILL first pixel ypixel || TEST_MIX first pixel ypixel.

Definition test_bicolor (pixel : Z) (c : compressor) : bool :=
  let k := counts c in
  negb (pixel =? last_pixel c)
  && (negb (bicolor_spin k) && (pixel =? bicolor1 c) && (last_pixel c =? bicolor2 c)
      || bicolor_spin k && (pixel =? bicolor2 c) && (last_pixel c =? bicolor1 c)).

Definition unless (b : bool) (m : M compressor unit) : M compressor unit := if b then mret tt else m.

(** The runs that a pixel ends. *)
Definition end_runs (first : bool) (pixel ypixel : Z) : M compressor unit :=
  unless (TEST_FILL first pixel ypixel) (flush_fill;; count_with (set_fill 0));;
  unless (TEST_MIX first pixel ypixel) (flush_mix;; count_with (set_mix 0));;
  c ← get;
  unless (pixel =? last_pixel c) (flush_color;; count_with (set_color 0));;
  c ← get;
  unless (test_bicolor pixel c)
    (flush_bicolor;; count_with (set_bicolor 0 false);; modify (set_bicolors (last_pixel c) pixel));;
  unless (TEST_FOM first pixel ypixel) (flush_fom;; count_with (set_fom 0 0)).

(** [fom_mask[i] = v] *)
Definition mask_put (i v : Z) : M compressor unit :=
  c ← get;
  if (0 <=? i) && (i <? zlen (fom_mask c)) then modify (set_mask (<[Z.to_nat i := v]> (fom_mask c)))
  else crash Undefined.

(** The runs that a pixel goes on with. *)
Definition extend_runs (first : bool) (pixel ypixel : Z) : M compressor unit :=
  unless (negb (TEST_FILL first pixel ypixel)) (count_with (fun k => set_fill (u16 (fill_count k + 1)) k));;
  unless (negb (TEST_MIX first pixel ypixel)) (count_with (fun k => set_mix (u16 (mix_count k + 1)) k));;
  c ← get;
  unless (negb (pixel =? last_pixel c)) (count_with (fun k => set_color (u16 (color_count k + 1)) k));;
  c ← get;
  unless (negb (test_bicolor pixel c))
    (count_with (fun k => set_bicolor (u16 (bicolor_count k + 1)) (negb (bicolor_spin k)) k));;
  unless (negb (TEST_FOM first pixel ypixel))
    (c ← get;
     let k := counts c in
     (if fom_count k mod 8 =? 0 then
        mask_put (fom_mask_len k) 0;;
        count_with (fun k => set_fom (fom_count k) (fom_mask_len k + 1) k)
      else mret tt);;
     (if pixel =? Z.lxor ypixel (e_mix e) then
        c ← get;
        let i := fom_mask_len (counts c) - 1 in
        v ← byte_at (fom_mask c) i;
        mask_put i (Z.lor v (Z.land (Z.shiftl 1 (fom_count (counts c) mod 8)) 0xFF))
      else mret tt);;
     count_with (fun k => set_fom (u16 (fom_count k + 1)) (fom_mask_len k) k)).

Definition compress_pixel (first : bool) (pixel ypixel : Z) : M compressor unit :=
  end_runs first pixel ypixel;;
  extend_runs first pixel ypixel;;
  on_temp_s (e_write e pixel);;
  modify (fun c => set_waiting (u16 (waiting c + 1)) c);;
  modify (set_last pixel ypixel).

(** ** Rows *)

Definition compress_row (data : list Z) (width end_ : Z) (line : Z) (last_line : option Z) : M compressor unit :=
  for_range (Z.to_nat end_) 0 (fun j =>
    c ← get;
    pixel ← IN_PIXEL data (Some line) j width (last_pixel c);
    ypixel ← IN_PIXEL data last_line j width (last_ypixel c);
    compress_pixel (match last_line with None => true | Some _ => false end) pixel ypixel).

(** [if (last_line == 0)] *)
Definition end_first_line : M compressor unit :=
  flush_fill;; count_with (set_fill 0);;
  flush_mix;; count_with (set_mix 0);;
  flush_fom;; count_with (set_fom 0 0).

(** The message is full, whichever run comes next. *)
Definition full (byte_limit : Z) (c : compressor) : bool :=
  let i := usize (pointer (out c) + e_size e * waiting c) in
  let k := counts c in
  forallb (fun n => byte_limit <=? usize (i - e_size e * n))
    [color_count k; bicolor_count k; fill_count k; mix_count k; fom_count k].

(** [while ((line >= start) && (out_count < 32768))]; the lines that are sent *)
Fixpoint compress_rows (fuel : nat) (data : list Z) (width end_ byte_limit line : Z) (last_line : option Z)
    (out_count lines_sent : Z) : M compressor Z :=
  if (0 <=? line) && (out_count <? 32768) then
    match fuel with
    | O => crash Diverges
    | S fuel' =>
        c ← get;
        assert (0 <=? pointer (out c));;
        if full byte_limit c then mret lines_sent
        else
          compress_row data width end_ line last_line;;
          (match last_line with None => end_first_line | Some _ => mret tt end);;
          compress_rows fuel' data width end_ byte_limit (line - e_step e * width) (Some line)
            (u32 (out_count + u32 (end_ * e_size e))) (lines_sent + 1)
    end
  else mret lines_sent.

(** The run at the end, or the pixels that are left. *)
Definition finish : M compressor unit :=
  attempt (on_temp_s (Stream_SetPosition 0));;
  c ← get;
  let k := counts c in
  if dominant (fill_count k) k then put_run (fill_count k) (on_out (out_fill_count (fill_count k)))
  else if dominant (mix_count k) k then put_run (mix_count k) (on_out (out_counts_mix_count (mix_count k)))
  else if dominant (color_count k) k then
    put_run (color_count k) (on_out (out_color_count (color_count k) (last_pixel c)))
  else if dominant (bicolor_count k) k then
    let x := if negb (bicolor_count k mod 2 =? 0) then bicolor_count k - 1 else bicolor_count k in
    put_run x (on_out (out_bicolor_count x (bicolor2 c) (bicolor1 c)));;
    put_run 0 (on_out (out_bicolor_count 0 (bicolor1 c) (bicolor2 c)))
  else if dominant (fom_count k) k then
    put_run (fom_count k) (on_out (out_from_count (fom_count k) (fom_mask c) (fom_mask_len k)))
  else out_copy_count.

(** A bitmap without columns has no last line; then it is [out_count] that ends the loop. *)
Definition row_fuel : Z := 32770.

(** [freerdp_bitmap_compress_16] and [freerdp_bitmap_compress_24]: the lines that are sent; [Fail] is
    the status -1.  The state is the message and the scratch stream. *)
Definition compress_bitmap (data : list Z) (width byte_limit start_line extra : Z) (s temp_s : wStream)
    : outcome compressor Z :=
  let end_ := u32 (width + extra) in
  let c := mkCompressor s temp_s reset_counts (zrepeat 8192 0) 0 0 0 0 0 in
  (n ← compress_rows (Z.to_nat (start_line + row_fuel)) data width end_ byte_limit (e_step e * width * start_line) None
         (u32 (end_ * e_size e)) 0;
   finish;;
   mret n) c.
End Encoder.

Definition freerdp_bitmap_compress (data : list Z) (width bpp byte_limit start_line extra : Z)
    (s temp_s : wStream) : outcome compressor Z :=
  match Stream_SetPosition 0 temp_s with
  | Crash f => Crash f
  | Ret _ temp_s | Fail temp_s =>
      if (bpp =? 15) || (bpp =? 16) then
        compress_bitmap (encoding16 bpp) data width byte_limit start_line extra s temp_s
      else if bpp =? 24 then compress_bitmap encoding24 data width byte_limit start_line extra s temp_s
      else Fail (mkCompressor s temp_s reset_counts [] 0 0 0 0 0)
  end.
