(* ===== verification/Interleaved.v ===== *)
(** * The interleaved codec

    Model of the contexts and the two entry points of [libfreerdp/codec/interleaved.c], on top of
    the decoder of [RleBitmap] and the encoder of [Bitmap]. *)

From S2P Require Import Prelude Stream Aligned Color Image RleBitmap Bitmap.

(** [S_BITMAP_INTERLEAVED_CONTEXT]; [Compressor] is never read. *)
Record BITMAP_INTERLEAVED_CONTEXT := mkInterleaved {
  TempSize : Z;
  TempBuffer : block;
  bts : wStream
}.

Definition set_TempBuffer (b : block) (c : BITMAP_INTERLEAVED_CONTEXT) : BITMAP_INTERLEAVED_CONTEXT :=
  mkInterleaved (TempSize c) b (bts c).
Definition set_bts (s : wStream) (c : BITMAP_INTERLEAVED_CONTEXT) : BITMAP_INTERLEAVED_CONTEXT :=
  mkInterleaved (TempSize c) (TempBuffer c) s.

Section Interleaved.
Context `{Alloc}.

(** The block behind [TempBuffer] as the destination of a routine; a null pointer is refused. *)
Definition on_TempBuffer {A} (m : M (list Z) A) : M BITMAP_INTERLEAVED_CONTEXT A := fun c =>
  match TempBuffer c with
  | Live b =>
      match m b with
      | Ret a b' => Ret a (set_TempBuffer (Live b') c)
      | Fail b' => Fail (set_TempBuffer (Live b') c)
      | Crash f => Crash f
      end
  | Null => Fail c
  | Freed => Crash Undefined
  end.

(** ** Decoding *)

(** The step between two lines, the format and the routine of a color depth. *)
Definition source_layout (nSrcWidth bpp : Z) : option (Z * Z * depth) :=
  if bpp =? 24 then Some (u32 (nSrcWidth * 3), PIXEL_FORMAT_BGR24, depth24)
  else if bpp =? 16 then Some (u32 (nSrcWidth * 2), PIXEL_FORMAT_RGB16, depth16)
  else if bpp =? 15 then Some (u32 (nSrcWidth * 2), PIXEL_FORMAT_RGB15, depth16)
  else if bpp =? 8 then Some (nSrcWidth, PIXEL_FORMAT_RGB8, depth8)
  else None.

(** [if (BufferSize > interleaved->TempSize)] and the test for a null pointer *)
Definition grow_temp (BufferSize : Z) : M BITMAP_INTERLEAVED_CONTEXT unit :=
  c ← get;
  (if TempSize c <? BufferSize then
     modify (fun c => mkInterleaved BufferSize (winpr_aligned_recalloc (TempBuffer c) BufferSize 16) (bts c))
   else mret tt);;
  on_TempBuffer (mret tt).

(** The state is the context and the destination. *)
Definition on_context {A} (m : M BITMAP_INTERLEAVED_CONTEXT A) : M (BITMAP_INTERLEAVED_CONTEXT * list Z) A :=
  fun '(c, d) =>
  match m c with
  | Ret a c => Ret a (c, d)
  | Fail c => Fail (c, d)
  | Crash f => Crash f
  end.

Definition on_destination {A} (m : M (list Z) A) : M (BITMAP_INTERLEAVED_CONTEXT * list Z) A :=
  fun '(c, d) =>
  match m d with
  | Ret a d => Ret a (c, d)
  | Fail d => Fail (c, d)
  | Crash f => Crash f
  end.

Definition interleaved_decompress (pSrcData : option (list Z)) (nSrcWidth nSrcHeight bpp : Z)
    (DstFormat nDstStep nXDst nYDst nDstWidth nDstHeight : Z) (palette : option gdiPalette)
    : M (BITMAP_INTERLEAVED_CONTEXT * list Z) unit :=
  match pSrcData, source_layout nSrcWidth bpp with
  | Some src, Some (scanline, SrcFormat, d) =>
      let BufferSize := u32 (scanline * nSrcHeight) in
      on_context (grow_temp BufferSize);;
      on_context (on_TempBuffer (RleDecompress d src scanline nSrcWidth nSrcHeight));;
      temp ← on_context (on_TempBuffer get);
      on_destination
        (freerdp_image_copy_no_overlap DstFormat nDstStep nXDst nYDst nDstWidth nDstHeight (Some temp)
           SrcFormat scanline 0 0 palette (Z.lor FREERDP_FLIP_VERTICAL FREERDP_KEEP_DST_ALPHA))
  | _, _ => failure
  end.

(** ** Encoding *)

Definition encoding_format (bpp : Z) : option Z :=
  if bpp =? 24 then Some PIXEL_FORMAT_BGRX32
  else if bpp =? 16 then Some PIXEL_FORMAT_RGB16
  else if bpp =? 15 then Some PIXEL_FORMAT_RGB15
  else None.

Definition maxSize : Z := 64 * 64 * 4.

(** The status, the destination and [*pDstSize]; [Fail] is an early return. *)
Definition interleaved_compress (pDstData : list Z) (DstSize nWidth nHeight : Z)
    (pSrcData : option (list Z)) (SrcFormat nSrcStep nXSrc nYSrc : Z) (palette : option gdiPalette)
    (bpp : Z) : M BITMAP_INTERLEAVED_CONTEXT (bool * list Z * Z) :=
  match pSrcData with
  | None => failure
  | Some _ =>
      guard (negb ((nWidth =? 0) || (nHeight =? 0)));;
      guard (nWidth mod 4 =? 0);;
      guard (negb ((64 <? nWidth) || (64 <? nHeight)));;
      match encoding_format bpp with
      | None => failure
      | Some DstFormat =>
          on_TempBuffer
            (freerdp_image_copy_no_overlap DstFormat 0 0 0 nWidth nHeight pSrcData SrcFormat nSrcStep
               nXSrc nYSrc palette FREERDP_KEEP_DST_ALPHA);;
          match Stream_New (Some pDstData) [] DstSize with
          | None => failure
          | Some s =>
              data ← on_TempBuffer get;
              c ← get;
              '(status, e) ←
                (match Stream_SetPosition 0 (bts c) with
                 | Crash f => crash f
                 | Ret _ temp_s | Fail temp_s =>
                     match freerdp_bitmap_compress data nWidth bpp maxSize (nHeight - 1) 0 s temp_s with
                     | Ret _ e => mret (true, e)
                     | Fail e => mret (false, e)
                     | Crash f => crash f
                     end
                 end);
              modify (set_bts (temp e));;
              match Stream_SealLength (out e) with
              | Ret _ s | Fail s => mret (status, buffer s, u32 (len s))
              | Crash f => crash f
              end
          end
      end
  end.

(** ** Contexts *)

(** [if (!interleaved) return FALSE;] *)
Definition bitmap_interleaved_context_reset (interleaved : option BITMAP_INTERLEAVED_CONTEXT) : bool :=
  match interleaved with None => false | Some _ => true end.

(** [junk] is what the allocated stream holds. *)
Definition bitmap_interleaved_context_new (junk : list Z) : option BITMAP_INTERLEAVED_CONTEXT :=
  if malloc_ok 24 then
    let size := 64 * 64 * 4 in
    match winpr_aligned_recalloc Null size 16, Stream_New None junk size with
    | Live b, Some s => Some (mkInterleaved size (Live b) s)
    | _, _ => None
    end
  else None.

(** Freeing the blocks of a context. *)
Definition bitmap_interleaved_context_free : M BITMAP_INTERLEAVED_CONTEXT unit :=
  c ← get;
  match TempBuffer c with Freed => crash Undefined | _ => mret tt end.
End Interleaved.
