(* ===== verification/RleSpec.v ===== *)
(** * What the orders of the interleaved codec mean

    The orders of a bitmap and the pixels they draw, defined on lists without the decoder, and what
    the depths promise about pixels and their bytes. *)

From S2P Require Import Prelude Color Image RleBitmap.

(** ** Orders and their pixels *)

Inductive order :=
| Bg (n : Z)
| Fg (set : option Z) (n : Z)
| Dithered (a b n : Z)
| Color (v n : Z)
| FgBg (set : option Z) (n : Z) (mask : list Z)
| Pixels (vs : list Z)
| Dot (v : Z).

(** What a pixel does with the one above it. *)
Inductive dot := Keep | Flip (v : Z) | Put (v : Z).

Definition ink (above : Z) (t : dot) : Z :=
  match t with Keep => above | Flip v => Z.lxor above v | Put v => v end.

(** The first [n] bits of the masks, the low bits of a byte first. *)
Definition mask_bit (mask : list Z) (i : Z) : bool := Z.testbit (nth (Z.to_nat (i / 8)) mask 0) (i mod 8).

Definition fgbg_dot (fg : Z) (b : bool) : dot := if b then Flip fg else Keep.

(** A bitmap that is drawn: the pixels so far, the foreground, whether the next background run
    starts with a foreground pixel, and whether the first row is under way. *)
Record picture := mkPicture { px : list Z; fg : Z; ins : bool; first : bool }.

Definition order_dots (fg : Z) (ins : bool) (o : order) : option (list dot) :=
  match o with
  | Bg n =>
      if ins then if n =? 0 then None else Some (Flip fg :: replicate (Z.to_nat (n - 1)) Keep)
      else Some (replicate (Z.to_nat n) Keep)
  | Fg s n => Some (replicate (Z.to_nat n) (Flip (default fg s)))
  | Dithered a b n => Some (mjoin (replicate (Z.to_nat n) [Put a; Put b]))
  | Color v n => Some (replicate (Z.to_nat n) (Put v))
  | FgBg s n mask => Some (map (fun i => fgbg_dot (default fg s) (mask_bit mask i)) (seqZ 0 n))
  | Pixels vs => Some (map Put vs)
  | Dot v => Some [Put v]
  end.

Definition order_fg (fg : Z) (o : order) : Z :=
  match o with Fg s _ | FgBg s _ _ => default fg s | _ => fg end.

Definition is_bg (o : order) : bool := match o with Bg _ => true | _ => false end.

Section Draw.
Variable w : Z.

(** The pixel above the next one; black in the first row. *)
Definition above (first : bool) (ps : list Z) : Z :=
  if first then 0 else nth (Z.to_nat (zlen ps - w)) ps 0.

Fixpoint draw (first : bool) (ts : list dot) (ps : list Z) : list Z :=
  match ts with
  | [] => ps
  | t :: ts => draw first ts (ps ++ [ink (above first ps) t])
  end.

(** The first row ends where the next order begins. *)
Definition next_row (p : picture) : picture :=
  if first p && (w <=? zlen (px p)) then mkPicture (px p) (fg p) false false else p.

Definition draw_order (o : order) (p : picture) : option picture :=
  let p := next_row p in
  match order_dots (fg p) (ins p) o with
  | Some ts => Some (mkPicture (draw (first p) ts (px p)) (order_fg (fg p) o) (is_bg o) (first p))
  | None => None
  end.
End Draw.

(** ** Orders as bytes *)

Section Parse.
Variable d : depth.
#[local] Abbreviation size := (PIXEL_SIZE d).

(** A pixel in front of a message. *)
Definition parse_pixel (l : list Z) : option (Z * list Z) :=
  if size <=? zlen l then Some (of_bytes d (ztake size l), zdrop size l) else None.

(** A length from the low bits of the header, or from the next byte. *)
Definition parse_short (low bias scale : Z) (l : list Z) : option (Z * list Z) :=
  if low =? 0 then match l with n :: l => Some (n + bias, l) | [] => None end
  else Some (low * scale, l).

(** A length of two bytes. *)
Definition parse_long (l : list Z) : option (Z * list Z) :=
  match l with lo :: hi :: l => Some (lo + 256 * hi, l) | _ => None end.

Definition parse_set (set : bool) (l : list Z) : option (option Z * list Z) :=
  if set then '(v, l) ← parse_pixel l; Some (Some v, l) else Some (None, l).

Definition parse_bg (n : Z) (l : list Z) : option (order * list Z) := Some (Bg n, l).

Definition parse_fg (set : bool) (n : Z) (l : list Z) : option (order * list Z) :=
  '(s, l) ← parse_set set l; Some (Fg s n, l).

Definition parse_fgbg (set : bool) (n : Z) (l : list Z) : option (order * list Z) :=
  '(s, l) ← parse_set set l;
  let k := (n + 7) / 8 in
  if k <=? zlen l then Some (FgBg s n (ztake k l), zdrop k l) else None.

Definition parse_color (n : Z) (l : list Z) : option (order * list Z) :=
  '(v, l) ← parse_pixel l; Some (Color v n, l).

Definition parse_dithered (n : Z) (l : list Z) : option (order * list Z) :=
  '(a, l) ← parse_pixel l; '(b, l) ← parse_pixel l; Some (Dithered a b n, l).

Definition parse_image (n : Z) (l : list Z) : option (order * list Z) :=
  if n * size <=? zlen l then
    Some (Pixels (map (fun x => of_bytes d (slice (x * size) size l)) (seqZ 0 n)), zdrop (n * size) l)
  else None.

(** The order in front of a message, and the rest of the message. *)
Definition parse_order (l : list Z) : option (order * list Z) :=
  match l with
  | [] => None
  | b :: l =>
      let regular bias scale (k : Z -> list Z -> option (order * list Z)) :=
        '(n, l) ← parse_short (b mod 32) bias scale l; k n l in
      let lite bias scale (k : Z -> list Z -> option (order * list Z)) :=
        '(n, l) ← parse_short (b mod 16) bias scale l; k n l in
      let mega (k : Z -> list Z -> option (order * list Z)) := '(n, l) ← parse_long l; k n l in
      if b <? 0x20 then regular 32 1 parse_bg
      else if b <? 0x40 then regular 32 1 (parse_fg false)
      else if b <? 0x60 then regular 1 8 (parse_fgbg false)
      else if b <? 0x80 then regular 32 1 parse_color
      else if b <? 0xA0 then regular 32 1 parse_image
      else if b <? 0xC0 then None
      else if b <? 0xD0 then lite 16 1 (parse_fg true)
      else if b <? 0xE0 then lite 1 8 (parse_fgbg true)
      else if b <? 0xF0 then lite 16 1 parse_dithered
      else if b =? 0xF0 then mega parse_bg
      else if b =? 0xF1 then mega (parse_fg false)
      else if b =? 0xF2 then mega (parse_fgbg false)
      else if b =? 0xF3 then mega parse_color
      else if b =? 0xF4 then mega parse_image
      else if b =? 0xF6 then mega (parse_fg true)
      else if b =? 0xF7 then mega (parse_fgbg true)
      else if b =? 0xF8 then mega parse_dithered
      else if b =? 0xF9 then Some (FgBg None 8 [0x03], l)
      else if b =? 0xFA then Some (FgBg None 8 [0x05], l)
      else if b =? 0xFD then Some (Dot (WHITE_PIXEL d), l)
      else if b =? 0xFE then Some (Dot 0, l)
      else None
  end.

(** The picture of a message, when all of its orders are complete and fit into [room] pixels. *)
Fixpoint render (fuel : nat) (w room : Z) (l : list Z) (p : picture) : option picture :=
  match l, fuel with
  | [], _ => Some p
  | _, O => None
  | _, S fuel =>
      '(o, l) ← parse_order l;
      p ← draw_order w o p;
      if zlen (px p) <=? room then render fuel w room l p else None
  end.

Definition blank : picture := mkPicture [] (WHITE_PIXEL d) false true.
End Parse.

(** ** Pixels as bytes *)

Definition pixel_ok (d : depth) (v : Z) : Prop := 0 <= v < 2 ^ (8 * PIXEL_SIZE d).

Class DepthLaws (d : depth) := {
  size_range : 1 <= PIXEL_SIZE d <= 3;
  to_bytes_len v : zlen (to_bytes d v) = PIXEL_SIZE d;
  of_to_bytes v : pixel_ok d v -> of_bytes d (to_bytes d v) = v;
  of_bytes_ok l : bytes l -> zlen l = PIXEL_SIZE d -> pixel_ok d (of_bytes d l);
  white_ok : pixel_ok d (WHITE_PIXEL d)
}.

Lemma land_FF00 x : 0 <= x < 256 -> Z.land (Z.shiftl x 8) 0xFF00 = 256 * x.
Proof.
  intros Hx. change 0xFF00 with (Z.shiftl 255 8). rewrite <- Z.shiftl_land, (land_mask _ 8) by (lia || done).
  change (2 ^ 8) with 256. rewrite Z.mod_small, Z.shiftl_mul_pow2 by lia. lia.
Qed.

Lemma land_FF0000 x : 0 <= x < 256 -> Z.land (Z.shiftl x 16) 0xFF0000 = 65536 * x.
Proof.
  intros Hx. change 0xFF0000 with (Z.shiftl 255 16). rewrite <- Z.shiftl_land, (land_mask _ 8) by (lia || done).
  change (2 ^ 8) with 256. rewrite Z.mod_small, Z.shiftl_mul_pow2 by lia. lia.
Qed.

Lemma read_16_eq a b : 0 <= a < 256 -> 0 <= b < 256 -> read_pixel_16 [a; b] = a + 256 * b.
Proof.
  intros. unfold read_pixel_16. cbn [nth]. rewrite land_FF00 by lia.
  replace (256 * b) with (Z.shiftl b 8) by (rewrite Z.shiftl_mul_pow2; lia).
  rewrite Z.lor_comm, lor_shiftl_add by lia.
  rewrite Z.shiftl_mul_pow2 by lia. lia.
Qed.

Lemma read_24_eq a b c : 0 <= a < 256 -> 0 <= b < 256 -> 0 <= c < 256 ->
  read_pixel_24 [a; b; c] = a + 256 * b + 65536 * c.
Proof.
  intros. unfold read_pixel_24. cbn [nth].
  pose proof (read_16_eq a b ltac:(lia) ltac:(lia)) as E. unfold read_pixel_16 in E. cbn [nth] in E. rewrite E.
  rewrite land_FF0000 by lia.
  replace (65536 * c) with (Z.shiftl c 16) by (rewrite Z.shiftl_mul_pow2; lia).
  rewrite Z.lor_comm, lor_shiftl_add by lia. rewrite Z.shiftl_mul_pow2 by lia. lia.
Qed.

#[export] Instance depth8_laws : DepthLaws depth8.
Proof.
  split; [done|done|..|done]; unfold pixel_ok; cbn; change (2 ^ 8) with 256.
  - intros v Hv. unfold read_pixel_8, write_pixel_8. cbn. word_lia.
  - intros [|a []] Hb Hl; unfold zlen in Hl; cbn in Hl; try lia. by apply Forall_cons_1 in Hb as [Hb _].
Qed.

#[export] Instance depth16_laws : DepthLaws depth16.
Proof.
  split; [done|done|..|done]; unfold pixel_ok; cbn; change (2 ^ 16) with 65536.
  - intros v Hv. unfold write_pixel_16. rewrite shiftr_div, !(land_mask _ 8) by (lia || done).
    change (2 ^ 8) with 256. rewrite read_16_eq by word_lia. word_lia.
  - intros [|a [|b []]] Hb Hl; unfold zlen in Hl; cbn in Hl; try lia. apply Forall_cons_1 in Hb as [Ha Hb]. apply Forall_cons_1 in Hb as [Hb _].
    unfold is_byte in *. rewrite read_16_eq; lia.
Qed.

#[export] Instance depth24_laws : DepthLaws depth24.
Proof.
  split; [done|done|..|done]; unfold pixel_ok; cbn; change (2 ^ 24) with 16777216.
  - intros v Hv. unfold write_pixel_24. rewrite !shiftr_div by done. change (2 ^ 8) with 256.
    change (2 ^ 16) with 65536. rewrite read_24_eq by word_lia. word_lia.
  - intros [|a [|b [|c []]]] Hb Hl; unfold zlen in Hl; cbn in Hl; try lia. apply Forall_cons_1 in Hb as [Ha Hb].
    apply Forall_cons_1 in Hb as [Hb Hc]. apply Forall_cons_1 in Hc as [Hc _].
    unfold is_byte in *. rewrite read_24_eq; lia.
Qed.

Lemma lxor_range n a b : 0 <= n -> 0 <= a < 2 ^ n -> 0 <= b < 2 ^ n -> 0 <= Z.lxor a b < 2 ^ n.
Proof.
  intros Hn Ha Hb. assert (0 <= Z.lxor a b) by (apply Z.lxor_nonneg; lia). split; [done|].
  destruct (Z.eq_dec (Z.lxor a b) 0) as [->|Hne]; [lia|].
  apply Z.log2_lt_pow2; [lia|]. pose proof (Z.log2_lxor a b ltac:(lia) ltac:(lia)).
  assert (forall x, 0 <= x < 2 ^ n -> x = 0 \/ Z.log2 x < n) as Hl
    by (intros x Hx; destruct (Z.eq_dec x 0); [by left|right; apply Z.log2_lt_pow2; lia]).
  destruct (Hl a Ha) as [->|?], (Hl b Hb) as [->|?]; rewrite ?Z.lxor_0_l, ?Z.lxor_0_r in *; try lia; done.
Qed.
