(* ===== verification/RleExact.v ===== *)
(** * The decoder of the interleaved codec draws what its orders mean

    Every turn of the decoder of [RleBitmap] against the orders of [RleSpec]; from this, what the
    decoder does with any message. *)

From S2P Require Import Prelude Color Image RleBitmap RleSpec.

Section Exact.
Context (d : depth) `{!DepthLaws d}.
Variables (w h : Z) (mem0 src : list Z).
#[local] Abbreviation size := (PIXEL_SIZE d).
#[local] Abbreviation room := (w * h).
#[local] Abbreviation row := (w * size).
#[local] Abbreviation bottom := (w * size * h).

Hypothesis w_pos : 0 < w.
Hypothesis h_pos : 0 <= h.
Hypothesis small : bottom < UINT32_MAX.
Hypothesis fits_mem : bottom <= zlen mem0.
Hypothesis src_bytes : bytes src.
Hypothesis src_small : zlen src <= UINT32_MAX.

(** ** Pixels in the block *)

Definition bytes_px (ps : list Z) : list Z := mjoin (map (to_bytes d) ps).

Lemma bytes_px_len ps : zlen (bytes_px ps) = zlen ps * size.
Proof.
  induction ps as [|v ps IH]; [done|]. change (bytes_px (v :: ps)) with (to_bytes d v ++ bytes_px ps).
  rewrite zlen_app, zlen_cons, to_bytes_len, IH. lia.
Qed.

Lemma bytes_px_app a b : bytes_px (a ++ b) = bytes_px a ++ bytes_px b.
Proof. unfold bytes_px. by rewrite map_app, join_app. Qed.

(** The block when these pixels are drawn. *)
Definition mem_of (ps : list Z) : list Z := blit 0 (bytes_px ps) mem0.

Lemma fits_px (ps : list Z) n : zlen ps + n <= room -> (zlen ps + n) * size <= zlen mem0.
Proof. pose proof size_range. intros Hle. assert ((zlen ps + n) * size <= room * size) by nia. lia. Qed.

Lemma mem_of_len ps : zlen ps <= room -> zlen (mem_of ps) = zlen mem0.
Proof.
  intros Hle. apply zlen_blit; [lia|]. rewrite bytes_px_len. pose proof (fits_px ps 0). lia.
Qed.

Lemma dest_write ps v : zlen ps + 1 <= room ->
  DESTWRITEPIXEL d (zlen ps * size) v (mem_of ps) = Ret tt (mem_of (ps ++ [v])).
Proof.
  intros Hle. pose proof (fits_px ps 1 Hle). pose proof (zlen_nonneg ps). pose proof size_range.
  unfold DESTWRITEPIXEL. rewrite store_blit; [|nia|rewrite to_bytes_len, mem_of_len; lia].
  f_equal. unfold mem_of. rewrite bytes_px_app. change (bytes_px [v]) with (to_bytes d v ++ []).
  pose proof (blit_blit 0 (bytes_px ps) (to_bytes d v) mem0) as E.
  rewrite Z.add_0_l, bytes_px_len, to_bytes_len in E. by rewrite app_nil_r, E by lia.
Qed.

Lemma px_slice ps k : 0 <= k < zlen ps -> zlen ps <= room ->
  slice (k * size) size (mem_of ps) = to_bytes d (nth (Z.to_nat k) ps 0).
Proof.
  intros Hk Hr. pose proof size_range. pose proof (fits_px ps 0). pose proof (bytes_px_len ps) as Hl.
  assert (k * size + size <= zlen ps * size) by nia.
  unfold mem_of, blit. rewrite Z.add_0_l. change (ztake 0 mem0) with (@nil Z). cbn [app].
  destruct (lookup_lt_is_Some_2 ps (Z.to_nat k)) as [v Hv]; [unfold zlen in Hk; lia|].
  rewrite nth_lookup, Hv. cbn [default]. unfold id.
  rewrite <- (take_drop_middle ps _ _ Hv). set (a := take _ ps). set (b := drop _ ps).
  assert (zlen a = k) as Ha by (unfold a, zlen in *; rewrite length_take; lia).
  rewrite bytes_px_app. change (v :: b) with ([v] ++ b). rewrite bytes_px_app.
  change (bytes_px [v]) with (to_bytes d v ++ []). rewrite app_nil_r, <- !app_assoc.
  unfold slice. rewrite zdrop_app_ge by (rewrite bytes_px_len; lia).
  rewrite bytes_px_len, Ha, Z.sub_diag, zdrop_0, ztake_app_le, ztake_all by (rewrite ?to_bytes_len; lia). done.
Qed.

Lemma dest_read ps k : Forall (pixel_ok d) ps -> 0 <= k < zlen ps -> zlen ps <= room ->
  DESTREADPIXEL d (k * size) (mem_of ps) = Ret (nth (Z.to_nat k) ps 0) (mem_of ps).
Proof.
  intros Hv Hk Hr. pose proof size_range. pose proof (fits_px ps 0). assert (k * size + size <= zlen ps * size) by nia.
  unfold DESTREADPIXEL. rewrite get_bind.
  rewrite (bind_ret_eq _ _ _ (slice (k * size) size (mem_of ps)) (mem_of ps))
    by (apply copy_from_ok; rewrite ?mem_of_len by lia; nia).
  rewrite px_slice by done. unfold mret, M_ret. f_equal. apply of_to_bytes.
  rewrite Forall_forall in Hv. apply Hv. rewrite nth_lookup.
  destruct (lookup_lt_is_Some_2 ps (Z.to_nat k)) as [v E]; [unfold zlen in Hk; lia|]. rewrite E.
  cbn. unfold id. by eapply list_elem_of_In, list_elem_of_lookup_2.
Qed.

Lemma capacity_px (ps : list Z) n : zlen ps <= room -> 0 <= n <= UINT32_MAX ->
  ENSURE_CAPACITY d (zlen ps * size) bottom n = (zlen ps + n <=? room).
Proof.
  intros Hr Hn. pose proof size_range. pose proof (zlen_nonneg ps). unfold UINT32_MAX in *.
  assert (zlen ps * size <= room * size) by nia. assert (0 <= n * size <= 4294967295 * 3) by nia.
  unfold ENSURE_CAPACITY, ensure_capacity. rewrite !usize_id by nia.
  apply eq_true_iff_eq. rewrite andb_true_iff, !Z.leb_le. split; [intros [? _]; nia|intros; nia].
Qed.

(** ** Dots *)

Definition dot_ok (t : dot) : Prop := match t with Keep => True | Flip v | Put v => pixel_ok d v end.

(** The row above is drawn, but in the first row. *)
Definition row_above (first : bool) (ps : list Z) : Prop := first = false -> w <= zlen ps.

Lemma above_ok first ps : row_above first ps -> Forall (pixel_ok d) ps -> pixel_ok d (above w first ps).
Proof.
  pose proof size_range. intros Hw Hps. unfold above. destruct first.
  - split; [done|]. apply Z.pow_pos_nonneg; lia.
  - specialize (Hw eq_refl). rewrite nth_lookup.
    destruct (lookup_lt_is_Some_2 ps (Z.to_nat (zlen ps - w))) as [v E]; [unfold zlen in *; lia|]. rewrite E.
    cbn. unfold id. rewrite Forall_forall in Hps. by eapply Hps, list_elem_of_In, list_elem_of_lookup_2.
Qed.

Lemma ink_ok a t : pixel_ok d a -> dot_ok t -> pixel_ok d (ink a t).
Proof.
  intros Ha Ht. destruct t; [done| |done]. pose proof size_range. apply lxor_range; (done || lia).
Qed.

Lemma draw_len b ts ps : zlen (draw w b ts ps) = zlen ps + zlen ts.
Proof.
  revert ps. induction ts as [|t ts IH]; intros ps; cbn [draw]; [rewrite zlen_nil; lia|].
  rewrite IH, zlen_app, !zlen_cons, zlen_nil. lia.
Qed.

Lemma draw_ok b ts ps : row_above b ps -> Forall (pixel_ok d) ps -> Forall dot_ok ts ->
  Forall (pixel_ok d) (draw w b ts ps).
Proof.
  intros Hw Hps Hts. revert ps Hw Hps. induction Hts as [|t ts Ht _ IH]; intros ps Hw Hps; [done|]. cbn [draw].
  apply IH.
  - intros E. specialize (Hw E). rewrite zlen_app. change (zlen [ink (above w b ps) t]) with 1. lia.
  - apply Forall_app. split; [done|]. constructor; [|done]. by apply ink_ok; [apply above_ok|].
Qed.

Lemma write_ink b t ps q : row_above b ps -> Forall (pixel_ok d) ps -> zlen ps + 1 <= room -> q = zlen ps * size ->
  (if b then DESTWRITEPIXEL d q (ink 0 t)
   else temp ← DESTREADPIXEL d (q - row); DESTWRITEPIXEL d q (ink temp t)) (mem_of ps)
  = Ret tt (mem_of (ps ++ [ink (above w b ps) t])).
Proof.
  intros Hw Hps Hr ->. unfold above. destruct b; [by apply dest_write|]. specialize (Hw eq_refl).
  replace (zlen ps * size - row) with ((zlen ps - w) * size) by lia.
  rewrite (bind_ret_eq _ _ _ _ _ (dest_read ps (zlen ps - w) Hps ltac:(lia) ltac:(lia))). by apply dest_write.
Qed.

(** A loop that draws one dot a turn. *)
Lemma dots_loop b ts body ps lo :
  row_above b ps -> Forall (pixel_ok d) ps -> Forall dot_ok ts -> zlen ps + zlen ts <= room ->
  (forall k t ps', ts !! k = Some t -> zlen ps' = zlen ps + Z.of_nat k -> row_above b ps' ->
     Forall (pixel_ok d) ps' ->
     body (lo + Z.of_nat k) (mem_of ps') = Ret tt (mem_of (ps' ++ [ink (above w b ps') t]))) ->
  for_range (length ts) lo body (mem_of ps) = Ret tt (mem_of (draw w b ts ps)).
Proof.
  intros Hw Hps Hts. revert ps lo Hw Hps. induction Hts as [|t ts Ht _ IH]; intros ps lo Hw Hps Hr Hb; [done|].
  rewrite zlen_cons in Hr. pose proof (zlen_nonneg ts). cbn [length for_range draw].
  pose proof (Hb O t ps eq_refl ltac:(lia) Hw Hps) as E. rewrite Z.add_0_r in E.
  rewrite (bind_ret_eq _ _ _ _ _ E).
  assert (forall v : Z, zlen (ps ++ [v]) = zlen ps + 1) as Hl by (intros; by rewrite zlen_app).
  apply IH.
  - intros E'. specialize (Hw E'). rewrite Hl. lia.
  - apply Forall_app. split; [done|]. constructor; [|done]. by apply ink_ok; [apply above_ok|].
  - rewrite Hl. lia.
  - intros k t' ps' Hk Hl' Hw' Hps'. rewrite Hl in Hl'.
    replace (lo + 1 + Z.of_nat k) with (lo + Z.of_nat (Datatypes.S k)) by lia. apply Hb; (done || lia).
Qed.

Lemma zlen_replicate {A} n (x : A) : 0 <= n -> zlen (replicate (Z.to_nat n) x) = n.
Proof. intros. unfold zlen. rewrite length_replicate. lia. Qed.

Lemma unroll_dots b n t body ps :
  0 <= n -> row_above b ps -> Forall (pixel_ok d) ps -> dot_ok t -> zlen ps + n <= room ->
  (forall ps' q, row_above b ps' -> Forall (pixel_ok d) ps' -> zlen ps' + 1 <= room -> q = zlen ps' * size ->
     body q (mem_of ps') = Ret tt (mem_of (ps' ++ [ink (above w b ps') t]))) ->
  unroll d n (zlen ps * size) body (mem_of ps) = Ret tt (mem_of (draw w b (replicate (Z.to_nat n) t) ps)).
Proof.
  intros Hn Hw Hps Ht Hr Hb. unfold unroll. rewrite <- (length_replicate (Z.to_nat n) t) at 1.
  apply dots_loop; [done|done|by apply Forall_replicate|rewrite zlen_replicate; lia|].
  intros k t' ps' Hk Hl Hw' Hps'. apply lookup_replicate in Hk as [-> Hk].
  apply Hb; [done|done|lia|rewrite Hl; lia].
Qed.

(** ** Bytes of the message *)

Lemma src_at {S} q (s : S) : 0 <= q < zlen src ->
  exists b, zdrop q src = b :: zdrop (q + 1) src /\ byte_at src q s = Ret b s /\ is_byte b.
Proof.
  intros Hq. destruct (lookup_lt_is_Some_2 src (Z.to_nat q)) as [b Hb]; [unfold zlen in Hq; lia|].
  exists b. split_and!.
  - unfold zdrop. rewrite (drop_S _ _ _ Hb). do 2 f_equal. lia.
  - by apply byte_at_ok; [lia|].
  - eapply Forall_lookup_1; [exact src_bytes|exact Hb].
Qed.

(** A length is found, or it is cut off. *)
Definition length_is (code q : Z) (r : option (Z * list Z)) : Prop :=
  match r with
  | Some (n, l) => exists q', l = zdrop q' src /\ q < q' <= zlen src /\ 0 <= n <= 65535
      /\ forall m, run_length src (zlen src) code q m = Ret (n, q') m
  | None => forall m, run_length src (zlen src) code q m = Fail m
  end.

Lemma length_is_intro code q r : 0 <= q < zlen src ->
  (forall m : list Z, match r with
     | Some (n, l) => exists a, l = zdrop (q + a) src /\ 0 < a /\ q + a <= zlen src /\ 0 <= n <= 65535
         /\ ExtractRunLength src q (zlen src) code m = Ret (n, a) m
     | None => ExtractRunLength src q (zlen src) code m = Ret (0, 0) m
     end) -> length_is code q r.
Proof.
  intros Hq Hr. unfold length_is. destruct r as [[n l]|].
  - destruct (Hr []) as (a & Hl & Ha & Hle & Hn & _). exists (q + a). split_and!; try done; try lia.
    intros m. destruct (Hr m) as (a' & Hl' & Ha' & Hle' & _ & E).
    assert (a' = a) as ->.
    { apply (f_equal zlen) in Hl. apply (f_equal zlen) in Hl'. rewrite zlen_zdrop in Hl, Hl' by lia. lia. }
    unfold run_length. rewrite (bind_ret_eq _ _ _ _ _ E). by rewrite guard_bind by lia.
  - intros m. unfold run_length. rewrite (bind_ret_eq _ _ _ _ _ (Hr m)). done.
Qed.

Lemma short_length_spec mask k bias scale q b (m : list Z) : 0 <= q < zlen src -> byte_at src q m = Ret b m ->
  is_byte b -> 0 <= k <= 5 -> mask = 2 ^ k - 1 -> 0 <= bias <= 32 -> 0 < scale <= 8 ->
  match parse_short (b mod 2 ^ k) bias scale (zdrop (q + 1) src) with
  | Some (n, l) => exists a, l = zdrop (q + a) src /\ 0 < a /\ q + a <= zlen src /\ 0 <= n <= 65535
      /\ short_length src q (zlen src) mask bias scale m = Ret (n, a) m
  | None => short_length src q (zlen src) mask bias scale m = Ret (0, 0) m
  end.
Proof.
  intros Hq Hb Hbyte Hk Hm Hbias Hscale. unfold short_length, parse_short.
  rewrite (bind_ret_eq _ _ _ _ _ Hb), (land_mask b k) by (done || lia). cbv zeta.
  assert (0 < 2 ^ k <= 32) by (split; [apply Z.pow_pos_nonneg; lia|apply (Z.pow_le_mono_r 2 k 5); lia]).
  pose proof (Z.mod_pos_bound b (2 ^ k) ltac:(lia)).
  destruct (Z.eqb_spec (b mod 2 ^ k) 0) as [E|E].
  - unfold buffer_within_range. destruct (Z.ltb_spec (zlen src) (q + 2)).
    + rewrite zdrop_all by lia. done.
    + destruct (src_at (q + 1) m ltac:(lia)) as (n & -> & Hn & Hnb). cbn [negb].
      exists 2. rewrite (bind_ret_eq _ _ _ _ _ Hn). unfold is_byte in Hnb. rewrite <- Z.add_assoc.
      split_and!; (done || lia).
  - exists 1. split_and!; try done; try lia. nia.
Qed.

Lemma mega_length_spec q (m : list Z) : 0 <= q < zlen src ->
  match parse_long (zdrop (q + 1) src) with
  | Some (n, l) => exists a, l = zdrop (q + a) src /\ 0 < a /\ q + a <= zlen src /\ 0 <= n <= 65535
      /\ ExtractRunLengthMegaMega src q (zlen src) m = Ret (n, a) m
  | None => ExtractRunLengthMegaMega src q (zlen src) m = Ret (0, 0) m
  end.
Proof.
  intros Hq. unfold ExtractRunLengthMegaMega, buffer_within_range, parse_long.
  destruct (Z.ltb_spec (zlen src) (q + 3)) as [Hs|Hs]; cbn [negb].
  - destruct (zdrop (q + 1) src) as [|a [|b l]] eqn:E; [done|done|].
    apply (f_equal zlen) in E. rewrite zlen_zdrop, !zlen_cons in E by lia. pose proof (zlen_nonneg l). lia.
  - destruct (src_at (q + 1) m ltac:(lia)) as (a & -> & Ha & Hab).
    replace (q + 1 + 1) with (q + 2) by lia.
    destruct (src_at (q + 2) m ltac:(lia)) as (b & -> & Hb & Hbb). unfold is_byte in *.
    exists 3. rewrite (bind_ret_eq _ _ _ _ _ Ha), (bind_ret_eq _ _ _ _ _ Hb).
    replace (q + 2 + 1) with (q + 3) by lia. split_and!; try done; try lia.
    pose proof (read_16_eq a b ltac:(lia) ltac:(lia)) as E. unfold read_pixel_16 in E. cbn [nth] in E. by rewrite E.
Qed.

Lemma pixel_taken q (m : list Z) : 0 <= q <= zlen src ->
  match parse_pixel d (zdrop q src) with
  | Some (v, l) => l = zdrop (q + size) src /\ q + size <= zlen src /\ pixel_ok d v
      /\ take_pixel d src (zlen src) q m = Ret (v, q + size) m
  | None => take_pixel d src (zlen src) q m = Fail m
  end.
Proof.
  intros Hq. pose proof size_range. unfold parse_pixel, take_pixel, buffer_within_range.
  rewrite zlen_zdrop by lia.
  destruct (Z.leb_spec size (zlen src - q)) as [Hs|Hs].
  - rewrite guard_bind by lia. unfold SRCREADPIXEL.
    rewrite bind_assoc, (bind_ret_eq _ _ _ (slice q size src) m) by (apply copy_from_ok; lia).
    split_and!; [rewrite zdrop_zdrop by lia; f_equal; lia|lia| |done].
    apply of_bytes_ok; [by apply Forall_ztake, Forall_zdrop|].
    rewrite zlen_ztake; rewrite ?zlen_zdrop; lia.
  - replace (negb (zlen src <? q + size)) with false by lia. done.
Qed.

(** ** Orders *)

Record picture_ok (p : picture) : Prop := mkOk {
  ok_px : Forall (pixel_ok d) (px p);
  ok_fg : pixel_ok d (fg p);
  ok_row : row_above (first p) (px p);
  ok_room : zlen (px p) <= room
}.

Definition state_of (q : Z) (p : picture) : decoder :=
  mkDecoder q (zlen (px p) * size) (fg p) (ins p) (first p).

Definition failed {A} (res : outcome (list Z) A) : Prop := exists m, res = Fail m /\ zlen m = zlen mem0.

Lemma failed_here {A} ps : zlen ps <= room -> failed (A := A) (Fail (mem_of ps)).
Proof. intros Hr. exists (mem_of ps). split; [done|]. by apply mem_of_len. Qed.

Definition order_ok (o : order) : Prop :=
  match o with
  | Bg n => 0 <= n
  | Fg s n | FgBg s n _ => 0 <= n /\ match s with Some v => pixel_ok d v | None => True end
  | Dithered a b n => 0 <= n /\ pixel_ok d a /\ pixel_ok d b
  | Color v n => 0 <= n /\ pixel_ok d v
  | Pixels vs => Forall (pixel_ok d) vs
  | Dot v => pixel_ok d v
  end.

(** What the decoder does with an order that ends at [q]: it is drawn when there is room. *)
Definition drawn_as (p : picture) (o : order) (q : Z) (res : outcome (list Z) decoder) : Prop :=
  match order_dots (fg p) (ins p) o with
  | Some ts =>
      if zlen (px p) + zlen ts <=? room then
        res = Ret (state_of q (mkPicture (draw w (first p) ts (px p)) (order_fg (fg p) o) (is_bg o) (first p)))
                (mem_of (draw w (first p) ts (px p)))
      else failed res
  | None => failed res
  end.

(** What it does with the bytes in front of it. *)
Definition agrees (q0 : Z) (p : picture) (r : option (order * list Z)) (res : outcome (list Z) decoder) : Prop :=
  match r with
  | Some (o, l) => exists q, l = zdrop q src /\ q0 < q <= zlen src /\ order_ok o /\ drawn_as p o q res
  | None => failed res
  end.

Lemma drawn_end p ts : zlen (draw w (first p) ts (px p)) * size = zlen (px p) * size + zlen ts * size.
Proof. rewrite draw_len. lia. Qed.

(** A pixel to set the foreground with, or none. *)
Lemma set_taken set fg q (m : list Z) : 0 <= q <= zlen src -> pixel_ok d fg ->
  match parse_set d set (zdrop q src) with
  | Some (s, l) => exists q', l = zdrop q' src /\ q <= q' <= zlen src
      /\ match s with Some v => pixel_ok d v | None => True end
      /\ pixel_ok d (default fg s)
      /\ (if set : bool then take_pixel d src (zlen src) q else mret (fg, q)) m = Ret (default fg s, q') m
  | None => (if set then take_pixel d src (zlen src) q else mret (fg, q)) m = Fail m
  end.
Proof.
  intros Hq Hfg. pose proof size_range. unfold parse_set. destruct set; [|by exists q; split_and!; (done || lia)].
  pose proof (pixel_taken q m Hq) as Hp. destruct (parse_pixel d (zdrop q src)) as [[v l]|]; [|done].
  cbn. destruct Hp as (-> & Hle & Hv & E). exists (q + size). split_and!; (done || lia).
Qed.

Lemma fg_agrees code set q0 n q p : picture_ok p -> 0 <= q0 -> q0 < q <= zlen src -> 0 <= n <= 65535 ->
  (forall m, run_length src (zlen src) code q0 m = Ret (n, q) m) ->
  (code =? LITE_SET_FG_FG_RUN) || (code =? MEGA_MEGA_SET_FG_RUN) = set ->
  agrees q0 p (parse_fg d set n (zdrop q src))
    (fg_run d src (zlen src) bottom row code (state_of q0 p) (mem_of (px p))).
Proof.
  intros [Hps Hfg Hw Hr] Hq0 Hq Hn Hlen Hset. unfold parse_fg, fg_run. cbn [state_of pbSrc].
  rewrite (bind_ret_eq _ _ _ _ _ (Hlen _)), Hset. cbn [state_of fgPel pbDest fFirstLine].
  pose proof (set_taken set (fg p) q (mem_of (px p)) ltac:(lia) Hfg) as Hs.
  destruct (parse_set d set (zdrop q src)) as [[s l]|]; cbn.
  2:{ unfold mbind, M_bind. rewrite Hs. by apply failed_here. }
  destruct Hs as (q' & -> & Hq' & Hsv & Hv & E). exists q'. split_and!; [done|lia|lia|lia|done|].
  rewrite (bind_ret_eq _ _ _ _ _ E). unfold drawn_as. cbn [order_dots].
  rewrite capacity_px, zlen_replicate by (unfold UINT32_MAX; lia).
  destruct (Z.leb_spec (zlen (px p) + n) room) as [Hc|Hc]; [|by apply failed_here].
  rewrite guard_bind by done.
  erewrite bind_ret_eq.
  2:{ apply (unroll_dots (first p) n (Flip (default (fg p) s))); [lia|done|done|done|done|].
      intros ps' x Hw' Hps' Hr' ->. pose proof (write_ink (first p) (Flip (default (fg p) s)) ps' _ Hw' Hps' Hr' eq_refl) as Ew.
      destruct (first p); [|exact Ew]. cbn [ink] in Ew. by rewrite Z.lxor_0_l in Ew. }
  unfold state_of. cbn [px fg ins first order_fg is_bg]. rewrite drawn_end, zlen_replicate by lia. done.
Qed.

Lemma color_agrees code q0 n q p : picture_ok p -> 0 <= q0 -> q0 < q <= zlen src -> 0 <= n <= 65535 ->
  (forall m, run_length src (zlen src) code q0 m = Ret (n, q) m) ->
  agrees q0 p (parse_color d n (zdrop q src))
    (color_run d src (zlen src) bottom code (state_of q0 p) (mem_of (px p))).
Proof.
  intros [Hps Hfg Hw Hr] Hq0 Hq Hn Hlen. pose proof size_range. unfold parse_color, color_run. cbn [state_of pbSrc].
  rewrite (bind_ret_eq _ _ _ _ _ (Hlen _)). cbn [state_of fgPel pbDest fFirstLine].
  pose proof (pixel_taken q (mem_of (px p)) ltac:(lia)) as Hp.
  destruct (parse_pixel d (zdrop q src)) as [[v l]|]; cbn.
  2:{ unfold mbind, M_bind. rewrite Hp. by apply failed_here. }
  destruct Hp as (-> & Hle & Hv & E). exists (q + size). split_and!; [done|lia|lia|lia|done|].
  rewrite (bind_ret_eq _ _ _ _ _ E). unfold drawn_as. cbn [order_dots].
  rewrite capacity_px, zlen_replicate by (unfold UINT32_MAX; lia).
  destruct (Z.leb_spec (zlen (px p) + n) room) as [Hc|Hc]; [|by apply failed_here].
  rewrite guard_bind by done. erewrite bind_ret_eq.
  2:{ apply (unroll_dots (first p) n (Put v)); [lia|done|done|done|done|].
      intros ps' x Hw' Hps' Hr' ->. by apply dest_write. }
  unfold state_of. cbn [px fg ins first order_fg is_bg]. rewrite drawn_end, zlen_replicate by lia. done.
Qed.

Lemma dest_write_last ps v q : zlen ps + 1 <= room -> q = zlen ps * size ->
  DESTWRITEPIXEL d q v (mem_of ps) = Ret tt (mem_of (ps ++ [v])).
Proof. intros Hr ->. by apply dest_write. Qed.

(** Background runs, which may start with a foreground pixel. *)
Lemma bg_agrees code q0 n q p : picture_ok p -> 0 <= q0 -> q0 < q <= zlen src -> 0 <= n <= 65535 ->
  (forall m, run_length src (zlen src) code q0 m = Ret (n, q) m) ->
  agrees q0 p (parse_bg n (zdrop q src))
    (bg_run d src (zlen src) bottom row code (state_of q0 p) (mem_of (px p))).
Proof.
  intros [Hps Hfg Hw Hr] Hq0 Hq Hn Hlen. pose proof size_range. unfold parse_bg, bg_run. cbn [state_of pbSrc].
  rewrite (bind_ret_eq _ _ _ _ _ (Hlen _)). cbn [state_of fgPel pbDest fFirstLine fInsertFgPel]. cbv zeta.
  exists q. split_and!; [done|lia|lia|cbn; lia|]. unfold drawn_as. cbn [order_dots].
  assert (forall b ps x, row_above b ps -> Forall (pixel_ok d) ps -> zlen ps + 1 <= room -> x = zlen ps * size ->
    (temp ← (if b then mret BLACK_PIXEL else DESTREADPIXEL d (x - row)); DESTWRITEPIXEL d x temp) (mem_of ps)
    = Ret tt (mem_of (ps ++ [ink (above w b ps) Keep]))) as Hkeep.
  { intros b ps x Hw' Hps' Hr' ->. pose proof (write_ink b Keep ps _ Hw' Hps' Hr' eq_refl) as Ew.
    by destruct b. }
  destruct (ins p).
  - assert (exists t, (if first p then mret BLACK_PIXEL else DESTREADPIXEL d (zlen (px p) * size - row)) (mem_of (px p))
        = Ret t (mem_of (px p)) /\ (if first p then fg p else Z.lxor t (fg p)) = ink (above w (first p) (px p)) (Flip (fg p)))
      as (t & Et & Hink).
    { unfold above. unfold row_above in Hw. destruct (first p); [exists 0; cbn; by rewrite Z.lxor_0_l|].
      specialize (Hw eq_refl). eexists. split; [|reflexivity].
      replace (zlen (px p) * size - row) with ((zlen (px p) - w) * size) by lia. apply dest_read; (done || lia). }
    rewrite bind_assoc, (bind_ret_eq _ _ _ _ _ Et), bind_assoc, capacity_px by (unfold UINT32_MAX; lia).
    destruct (Z.leb_spec (zlen (px p) + 1) room) as [H1|H1].
    2:{ replace (failed _) with (failed (A := decoder) (Fail (mem_of (px p)))) by done.
        pose proof (failed_here (A := decoder) (px p) Hr). destruct (Z.eqb_spec n 0); [done|].
        rewrite zlen_cons, zlen_replicate by lia. by replace (zlen (px p) + (n - 1 + 1) <=? room) with false by lia. }
    rewrite guard_bind by done. rewrite Hink.
    rewrite bind_assoc, (bind_ret_eq _ _ _ _ _ (dest_write (px p) _ H1)), ret_bind.
    set (v := ink _ _). set (ps1 := px p ++ [v]). assert (zlen ps1 = zlen (px p) + 1) as Hl1 by (unfold ps1; by rewrite zlen_app).
    assert (row_above (first p) ps1) as Hw1 by (intros E; specialize (Hw E); lia).
    assert (Forall (pixel_ok d) ps1) as Hps1.
    { apply Forall_app. split; [done|]. constructor; [|done]. by apply ink_ok; [apply above_ok|]. }
    replace (zlen (px p) * size + size) with (zlen ps1 * size) by (rewrite Hl1; lia).
    destruct (Z.eqb_spec n 0) as [->|Hn0].
    + change (u32 (0 - 1)) with 4294967295. rewrite capacity_px by (unfold UINT32_MAX; lia).
      assert (room <= bottom) by nia. unfold UINT32_MAX in small. pose proof (zlen_nonneg ps1).
      replace (zlen ps1 + 4294967295 <=? room) with false by lia. apply (failed_here ps1). lia.
    + replace (u32 (n - 1)) with (n - 1) by word_lia.
      rewrite capacity_px by (unfold UINT32_MAX; lia). rewrite zlen_cons, zlen_replicate by lia.
      replace (zlen (px p) + (n - 1 + 1)) with (zlen ps1 + (n - 1)) by lia.
      destruct (Z.leb_spec (zlen ps1 + (n - 1)) room) as [Hc|Hc]; [|apply (failed_here ps1); lia].
      rewrite guard_bind by done. erewrite bind_ret_eq.
      2:{ apply (unroll_dots (first p) (n - 1) Keep); [lia|done|done|done|done|]. intros. by apply Hkeep. }
      cbn [draw]. fold v. fold ps1. unfold state_of. cbn [px fg ins first order_fg is_bg].
      rewrite draw_len, zlen_replicate by lia. rewrite Z.mul_add_distr_r. done.
  - rewrite ret_bind. rewrite capacity_px, zlen_replicate by (unfold UINT32_MAX; lia).
    destruct (Z.leb_spec (zlen (px p) + n) room) as [Hc|Hc]; [|by apply failed_here].
    rewrite guard_bind by done. erewrite bind_ret_eq.
    2:{ apply (unroll_dots (first p) n Keep); [lia|done|done|done|done|]. intros. by apply Hkeep. }
    unfold state_of. cbn [px fg ins first order_fg is_bg]. rewrite drawn_end, zlen_replicate by lia. done.
Qed.

Lemma dither_loop a b k lo base ps : pixel_ok d a -> pixel_ok d b -> Forall (pixel_ok d) ps ->
  base + 2 * lo * size = zlen ps * size -> zlen ps + 2 * Z.of_nat k <= room ->
  for_range k lo (fun x => DESTWRITEPIXEL d (base + 2 * x * size) a;; DESTWRITEPIXEL d (base + (2 * x + 1) * size) b)
    (mem_of ps) = Ret tt (mem_of (ps ++ mjoin (replicate k [a; b]))).
Proof.
  intros Ha Hb. revert lo ps. induction k as [|k IH]; intros lo ps Hps Hbase Hr; cbn [for_range].
  { cbn. by rewrite app_nil_r. }
  assert (forall v : Z, zlen (ps ++ [v]) = zlen ps + 1) as Hl by (intros; by rewrite zlen_app).
  rewrite bind_assoc, (bind_ret_eq _ _ _ _ _ (dest_write_last ps a _ ltac:(lia) Hbase)).
  rewrite (bind_ret_eq _ _ _ tt (mem_of ((ps ++ [a]) ++ [b]))).
  2:{ apply dest_write_last; rewrite Hl; [lia|]. rewrite Z.mul_add_distr_r. lia. }
  rewrite IH.
  - do 2 f_equal. rewrite <- !app_assoc. done.
  - rewrite <- app_assoc. apply Forall_app. split; [done|].
    apply (Forall_cons_2 _ a [b]); [done|]. by apply Forall_cons_2.
  - rewrite zlen_app, Hl. change (zlen [b]) with 1. lia.
  - rewrite zlen_app, Hl. change (zlen [b]) with 1. lia.
Qed.

(** Pixels that do not look at the row above. *)
Lemma draw_put first vs ps : draw w first (map Put vs) ps = ps ++ vs.
Proof.
  revert ps. induction vs as [|v vs IH]; intros ps; cbn [map draw]; [by rewrite app_nil_r|].
  rewrite IH, <- app_assoc. done.
Qed.

Lemma dithers_put n a b : mjoin (replicate n [Put a; Put b]) = map Put (mjoin (replicate n [a; b])).
Proof.
  induction n as [|n IH]; [done|].
  change (Put a :: Put b :: mjoin (replicate n [Put a; Put b]) = Put a :: Put b :: map Put (mjoin (replicate n [a; b]))).
  by rewrite IH.
Qed.

Lemma dithers_len {A} n (a b : A) : 0 <= n -> zlen (mjoin (replicate (Z.to_nat n) [a; b])) = 2 * n.
Proof.
  intros Hn. unfold zlen. rewrite length_join, fmap_replicate, sum_list_replicate. cbn [length]. lia.
Qed.

Lemma dithered_agrees code q0 n q p : picture_ok p -> 0 <= q0 -> q0 < q <= zlen src -> 0 <= n <= 65535 ->
  (forall m, run_length src (zlen src) code q0 m = Ret (n, q) m) ->
  agrees q0 p (parse_dithered d n (zdrop q src))
    (dithered_run d src (zlen src) bottom code (state_of q0 p) (mem_of (px p))).
Proof.
  intros [Hps Hfg Hw Hr] Hq0 Hq Hn Hlen. pose proof size_range. unfold parse_dithered, dithered_run. cbn [state_of pbSrc].
  rewrite (bind_ret_eq _ _ _ _ _ (Hlen _)). cbn [state_of fgPel pbDest fFirstLine].
  pose proof (pixel_taken q (mem_of (px p)) ltac:(lia)) as Hp.
  destruct (parse_pixel d (zdrop q src)) as [[a l]|]; cbn.
  2:{ unfold mbind, M_bind. rewrite Hp. by apply failed_here. }
  destruct Hp as (-> & Hle & Ha & E). rewrite (bind_ret_eq _ _ _ _ _ E).
  pose proof (pixel_taken (q + size) (mem_of (px p)) ltac:(lia)) as Hp.
  destruct (parse_pixel d (zdrop (q + size) src)) as [[b l]|]; cbn.
  2:{ unfold mbind, M_bind. rewrite Hp. by apply failed_here. }
  destruct Hp as (-> & Hle' & Hb & E'). rewrite (bind_ret_eq _ _ _ _ _ E').
  exists (q + size + size). split_and!; [done|lia|lia|lia|done|done|]. unfold drawn_as. cbn [order_dots].
  replace (u32 (n * 2)) with (2 * n) by word_lia.
  rewrite capacity_px, dithers_len by (unfold UINT32_MAX; lia).
  destruct (Z.leb_spec (zlen (px p) + 2 * n) room) as [Hc|Hc]; [|by apply failed_here].
  rewrite guard_bind by done. erewrite bind_ret_eq.
  2:{ apply dither_loop; [done|done|done|lia|lia]. }
  rewrite dithers_put, draw_put. unfold state_of. cbn [px fg ins first order_fg is_bg].
  rewrite zlen_app, dithers_len by lia. rewrite (Z.mul_add_distr_r _ _ size). done.
Qed.

Lemma image_agrees code q0 n q p : picture_ok p -> 0 <= q0 -> q0 < q <= zlen src -> 0 <= n <= 65535 ->
  (forall m, run_length src (zlen src) code q0 m = Ret (n, q) m) ->
  agrees q0 p (parse_image d n (zdrop q src))
    (color_image d src (zlen src) bottom code (state_of q0 p) (mem_of (px p))).
Proof.
  intros [Hps Hfg Hw Hr] Hq0 Hq Hn Hlen. pose proof size_range. unfold parse_image, color_image. cbn [state_of pbSrc].
  rewrite (bind_ret_eq _ _ _ _ _ (Hlen _)). cbn [state_of fgPel pbDest fFirstLine].
  rewrite capacity_px, zlen_zdrop by (unfold UINT32_MAX; lia).
  assert (0 <= n * size) by nia. set (vs := map _ (seqZ 0 n)).
  assert (zlen vs = n) as Hvs by (unfold vs, zlen; rewrite length_map, length_seqZ; lia).
  assert (ENSURE_CAPACITY d q (zlen src) n = (n * size <=? zlen src - q)) as Es.
  { unfold UINT32_MAX in src_small. assert (n * size <= 65535 * 3) by nia.
    unfold ENSURE_CAPACITY, ensure_capacity. rewrite !usize_id by lia.
    by replace (q <=? zlen src) with true by lia; rewrite andb_true_r. }
  destruct (Z.leb_spec (n * size) (zlen src - q)) as [Hs|Hs].
  2:{ cbn. destruct (zlen (px p) + n <=? room); [|by apply failed_here]. rewrite guard_bind by done.
      rewrite Es. by apply failed_here. }
  assert (forall x, 0 <= x < n -> slice (x * size) size (zdrop q src) = slice (q + x * size) size src) as Hsl.
  { intros x Hx. unfold slice. rewrite zdrop_zdrop by nia. done. }
  assert (Forall (pixel_ok d) vs) as Hok.
  { unfold vs. apply Forall_forall. intros v Hv. apply in_map_iff in Hv as (x & <- & Hx).
    apply list_elem_of_In, elem_of_seqZ in Hx. rewrite Hsl by lia.
    assert (x * size + size <= n * size) by nia.
    apply of_bytes_ok; [by apply Forall_ztake, Forall_zdrop|apply zlen_slice; nia]. }
  exists (q + n * size). split_and!; [rewrite zdrop_zdrop by lia; f_equal; lia|nia|lia|done|].
  unfold drawn_as. cbn [order_dots]. unfold zlen at 2. rewrite length_map. fold (zlen vs). rewrite Hvs.
  destruct (Z.leb_spec (zlen (px p) + n) room) as [Hc|Hc]; [|by apply failed_here].
  rewrite guard_bind, Es, guard_bind by done. erewrite bind_ret_eq.
  2:{ replace (Z.to_nat n) with (length (map Put vs)) by (rewrite length_map; unfold zlen in Hvs; lia).
      apply (dots_loop (first p)); [done|done| | |].
      - apply Forall_map. exact Hok.
      - unfold zlen at 2. rewrite length_map. fold (zlen vs). lia.
      - intros k t ps' Hk Hl' _ _. rewrite list_lookup_fmap in Hk.
        destruct (vs !! k) as [v|] eqn:Ev; [|done]. cbn in Hk. injection Hk as <-.
        pose proof (lookup_lt_Some _ _ _ Ev) as Hk. unfold zlen in Hvs.
        unfold vs in Ev. rewrite list_lookup_fmap, lookup_seqZ_lt in Ev by lia. cbn in Ev. injection Ev as <-.
        rewrite Hsl, Z.add_0_l by lia. assert (Z.of_nat k * size + size <= n * size) by nia.
        unfold SRCREADPIXEL. rewrite bind_assoc.
        rewrite (bind_ret_eq _ _ _ (slice (q + Z.of_nat k * size) size src) (mem_of ps')) by (apply copy_from_ok; nia).
        rewrite ret_bind. apply dest_write_last; rewrite Hl'; lia. }
  rewrite draw_put. unfold state_of. cbn [px fg ins first order_fg is_bg].
  rewrite zlen_app, Hvs, (Z.mul_add_distr_r _ _ size). done.
Qed.

(** ** Images of foreground and background *)

Lemma land_pow2 b x : 0 <= x -> Z.land b (2 ^ x) = if Z.testbit b x then 2 ^ x else 0.
Proof.
  intros Hx. apply Z.bits_inj'. intros i Hi. rewrite Z.land_spec, Z.pow2_bits_eqb by done.
  destruct (Z.eqb_spec x i) as [->|Hne]; [|rewrite andb_false_r; destruct (Z.testbit b x)].
  - rewrite andb_true_r. destruct (Z.testbit b i); [by rewrite Z.pow2_bits_eqb, Z.eqb_refl|by rewrite Z.bits_0].
  - by rewrite Z.pow2_bits_eqb, (proj2 (Z.eqb_neq _ _) Hne).
  - by rewrite Z.bits_0.
Qed.

Lemma mask_test b x : 0 <= x < 8 -> negb (Z.land b (Z.land (Z.shiftl 1 x) 0xFF) =? 0) = Z.testbit b x.
Proof.
  intros Hx. rewrite Z.shiftl_mul_pow2, Z.mul_1_l, (land_mask (2 ^ x) 8) by (lia || done).
  rewrite Z.mod_small by (split; [apply Z.pow_nonneg; lia|apply Z.pow_lt_mono_r; lia]).
  rewrite land_pow2 by lia. destruct (Z.testbit b x); [|done].
  pose proof (Z.pow_pos_nonneg 2 x ltac:(lia) ltac:(lia)). by replace (2 ^ x =? 0) with false by lia.
Qed.

(** The dots of the low bits of a mask. *)
Definition bit_dots (fg b n : Z) : list dot := map (fun i => fgbg_dot fg (Z.testbit b i)) (seqZ 0 n).

Lemma bit_dots_ok fg b n : pixel_ok d fg -> Forall dot_ok (bit_dots fg b n).
Proof.
  intros Hfg. apply Forall_forall. intros t Ht. apply in_map_iff in Ht as (i & <- & _).
  unfold fgbg_dot. by destruct (Z.testbit b i).
Qed.

Lemma bit_dots_len fg b n : 0 <= n -> zlen (bit_dots fg b n) = n.
Proof. intros. unfold bit_dots, zlen. rewrite length_map, length_seqZ. lia. Qed.

Lemma write_bits_ok b first fg n ps : 0 <= n <= 8 -> row_above first ps -> Forall (pixel_ok d) ps -> pixel_ok d fg ->
  zlen ps <= room ->
  write_bits d bottom row first (zlen ps * size) b fg n (mem_of ps)
  = if zlen ps + n <=? room then Ret ((zlen ps + n) * size) (mem_of (draw w first (bit_dots fg b n) ps))
    else Fail (mem_of ps).
Proof.
  intros Hn Hw Hps Hfg Hr. pose proof (bit_dots_len fg b n ltac:(lia)) as Hl.
  assert (forall body, (forall k t ps', bit_dots fg b n !! k = Some t -> zlen ps' = zlen ps + Z.of_nat k ->
      row_above first ps' -> Forall (pixel_ok d) ps' ->
      body (0 + Z.of_nat k) (mem_of ps') = Ret tt (mem_of (ps' ++ [ink (above w first ps') t]))) ->
    zlen ps + n <= room ->
    (for_range (Z.to_nat n) 0 body;; mret (zlen ps * size + n * size)) (mem_of ps)
    = Ret ((zlen ps + n) * size) (mem_of (draw w first (bit_dots fg b n) ps))) as Hloop.
  { intros body Hb Hc. replace (Z.to_nat n) with (length (bit_dots fg b n)) by (unfold zlen in Hl; lia).
    erewrite bind_ret_eq; [|apply (dots_loop first); [done|done|by apply bit_dots_ok|lia|exact Hb]].
    unfold mret, M_ret. f_equal. lia. }
  assert (forall k t, bit_dots fg b n !! k = Some t ->
    0 <= Z.of_nat k < n /\ t = fgbg_dot fg (Z.testbit b (Z.of_nat k))) as Hdot.
  { intros k t Hk. pose proof (lookup_lt_Some _ _ _ Hk) as Hlt. unfold zlen in Hl. unfold bit_dots in Hk.
    rewrite list_lookup_fmap, lookup_seqZ_lt in Hk by lia. cbn in Hk. injection Hk as <-. split; [lia|done]. }
  unfold write_bits, WriteFirstLineFgBgImage, WriteFgBgImage.
  destruct first; rewrite guard_bind by lia; rewrite capacity_px by (unfold UINT32_MAX; lia);
    (destruct (Z.leb_spec (zlen ps + n) room) as [Hc|Hc]; [|done]); rewrite guard_bind by done;
    apply Hloop; try done; intros k t ps' Hk Hl' Hw' Hps'; destruct (Hdot k t Hk) as [Hkn ->];
    rewrite Z.add_0_l, mask_test by lia.
  - assert (zlen ps' + 1 <= room) as Hr' by lia.
    pose proof (write_ink true (fgbg_dot fg (Z.testbit b (Z.of_nat k))) ps' (zlen ps * size + Z.of_nat k * size)
      Hw' Hps' Hr' ltac:(rewrite Hl'; lia)) as Ew. unfold fgbg_dot in *.
    destruct (Z.testbit b (Z.of_nat k)); cbn [ink] in Ew; rewrite ?Z.lxor_0_l in Ew; exact Ew.
  - assert (zlen ps' + 1 <= room) as Hr' by lia.
    pose proof (write_ink false (fgbg_dot fg (Z.testbit b (Z.of_nat k))) ps' (zlen ps * size + Z.of_nat k * size)
      Hw' Hps' Hr' ltac:(rewrite Hl'; lia)) as Ew. unfold fgbg_dot in *.
    destruct (Z.testbit b (Z.of_nat k)); exact Ew.
Qed.

(** The dots of the masks from [q] on. *)
Definition mask_dots (fg : Z) (mask : list Z) (n : Z) : list dot :=
  map (fun i => fgbg_dot fg (mask_bit mask i)) (seqZ 0 n).

Lemma mask_dots_len fg mask n : 0 <= n -> zlen (mask_dots fg mask n) = n.
Proof. intros. unfold mask_dots, zlen. rewrite length_map, length_seqZ. lia. Qed.

Lemma mask_dots_one fg b mask n : n <= 8 -> mask_dots fg (b :: mask) n = bit_dots fg b n.
Proof.
  intros Hn. apply map_ext_in. intros i Hi. apply list_elem_of_In, elem_of_seqZ in Hi. unfold mask_bit.
  by rewrite Z.div_small, Z.mod_small by lia.
Qed.

Lemma mask_dots_cons fg b mask n : 8 <= n ->
  mask_dots fg (b :: mask) n = bit_dots fg b 8 ++ mask_dots fg mask (n - 8).
Proof.
  intros Hn. rewrite <- (mask_dots_one fg b mask 8) by lia. unfold mask_dots.
  replace n with (8 + (n - 8)) at 1 by lia. rewrite seqZ_app, map_app by lia. f_equal.
  change (0 + 8) with (8 + 0). rewrite <- (fmap_add_seqZ 8 0).
  change (Z.add 8 <$> seqZ 0 (n - 8)) with (map (Z.add 8) (seqZ 0 (n - 8))). rewrite map_map. apply map_ext_in.
  intros i Hi. apply list_elem_of_In, elem_of_seqZ in Hi. unfold mask_bit. do 2 f_equal.
  - replace (8 + i) with (i + 1 * 8) by lia. rewrite Z.div_add by lia.
    replace (Z.to_nat (i / 8 + 1)) with (S (Z.to_nat (i / 8))) by (pose proof (Z.div_pos i 8); lia). done.
  - replace (8 + i) with (i + 1 * 8) by lia. by rewrite Z.mod_add by lia.
Qed.

Lemma draw_app first a b ps : draw w first (a ++ b) ps = draw w first b (draw w first a ps).
Proof. revert ps. induction a as [|t a IH]; intros ps; [done|]. cbn [app draw]. apply IH. Qed.

Lemma fgbg_loop_ok fuel first q fg n ps : 0 <= n <= Z.of_nat fuel -> 0 <= q -> q + n / 8 <= zlen src ->
  row_above first ps -> Forall (pixel_ok d) ps -> pixel_ok d fg -> zlen ps <= room ->
  let res := fgbg_loop d src (zlen src) bottom row fuel first q (zlen ps * size) fg n (mem_of ps) in
  if (q + (n + 7) / 8 <=? zlen src) && (zlen ps + n <=? room)
  then res = Ret (q + (n + 7) / 8, (zlen ps + n) * size) (mem_of (draw w first (mask_dots fg (zdrop q src) n) ps))
  else failed res.
Proof.
  revert q n ps. induction fuel as [|fuel IH]; intros q n ps Hn Hq Hs Hw Hps Hfg Hr.
  - assert (n = 0) as -> by lia. cbn [fgbg_loop Z.ltb Z.compare]. change ((0 + 7) / 8) with 0.
    replace (q + 0 <=? zlen src) with true by (change (0 / 8) with 0 in Hs; lia).
    replace (zlen ps + 0 <=? room) with true by lia. cbn. rewrite !Z.add_0_r. done.
  - cbn [fgbg_loop]. destruct (Z.ltb_spec 8 n) as [H8|H8].
    + pose proof (Z.div_mod n 8 ltac:(lia)). pose proof (Z.mod_pos_bound n 8 ltac:(lia)).
      destruct (src_at q (mem_of ps) ltac:(lia)) as (b & Hb & Eb & _).
      rewrite (bind_ret_eq _ _ _ _ _ Eb). pose proof (write_bits_ok b first fg 8 ps ltac:(lia) Hw Hps Hfg Hr) as Ew.
      destruct (Z.leb_spec (zlen ps + 8) room) as [Hc|Hc].
      * rewrite (bind_ret_eq _ _ _ _ _ Ew). rewrite Hb, mask_dots_cons, draw_app by lia.
        set (ps1 := draw w first (bit_dots fg b 8) ps).
        assert (zlen ps1 = zlen ps + 8) as Hl by (unfold ps1; rewrite draw_len, bit_dots_len; lia).
        specialize (IH (q + 1) (n - 8) ps1). rewrite Hl in IH. cbv zeta in IH.
        replace (q + 1 + (n - 8 + 7) / 8) with (q + (n + 7) / 8) in IH
          by (replace (n + 7) with (n - 8 + 7 + 1 * 8) by lia; rewrite Z.div_add by lia; lia).
        replace (zlen ps + 8 + (n - 8)) with (zlen ps + n) in IH by lia.
        apply IH; [lia|lia| | | |done|lia].
        -- replace n with (n - 8 + 1 * 8) in Hs by lia. rewrite Z.div_add in Hs by lia. lia.
        -- intros E. specialize (Hw E). lia.
        -- apply draw_ok; [done|done|by apply bit_dots_ok].
      * replace (zlen ps + n <=? room) with false by lia. rewrite andb_false_r.
        unfold mbind, M_bind. rewrite Ew. by apply failed_here.
    + destruct (Z.ltb_spec 0 n) as [H0|H0].
      * replace ((n + 7) / 8) with 1 by (Z.div_mod_to_equations; lia). unfold buffer_within_range.
        destruct (Z.leb_spec (q + 1) (zlen src)) as [Hl|Hl].
        2:{ replace (negb (zlen src <? q + 1)) with false by lia. by apply failed_here. }
        rewrite guard_bind by lia. destruct (src_at q (mem_of ps) ltac:(lia)) as (b & Hb & Eb & _).
        rewrite (bind_ret_eq _ _ _ _ _ Eb). pose proof (write_bits_ok b first fg n ps ltac:(lia) Hw Hps Hfg Hr) as Ew.
        rewrite Hb, mask_dots_one by lia. cbn [andb].
        destruct (Z.leb_spec (zlen ps + n) room) as [Hc|Hc].
        -- by rewrite (bind_ret_eq _ _ _ _ _ Ew).
        -- unfold mbind, M_bind. rewrite Ew. by apply failed_here.
      * assert (n = 0) as -> by lia. change ((0 + 7) / 8) with 0.
        replace (q + 0 <=? zlen src) with true by (change (0 / 8) with 0 in Hs; lia).
        replace (zlen ps + 0 <=? room) with true by lia. cbn. rewrite !Z.add_0_r. done.
Qed.

Lemma mask_bit_take mask k i : 0 <= i < 8 * k -> mask_bit (ztake k mask) i = mask_bit mask i.
Proof.
  intros Hi. unfold mask_bit. f_equal. rewrite !nth_lookup. f_equal. unfold ztake.
  apply lookup_take_lt. assert (i / 8 < k) by (apply Z.div_lt_upper_bound; lia). pose proof (Z.div_pos i 8). lia.
Qed.

Lemma fgbg_agrees code set q0 n q p : picture_ok p -> 0 <= q0 -> q0 < q <= zlen src -> 0 <= n <= 65535 ->
  (forall m, run_length src (zlen src) code q0 m = Ret (n, q) m) ->
  (code =? LITE_SET_FG_FGBG_IMAGE) || (code =? MEGA_MEGA_SET_FGBG_IMAGE) = set ->
  agrees q0 p (parse_fgbg d set n (zdrop q src))
    (fgbg_image d src (zlen src) bottom row code (state_of q0 p) (mem_of (px p))).
Proof.
  intros [Hps Hfg Hw Hr] Hq0 Hq Hn Hlen Hset. unfold parse_fgbg, fgbg_image. cbn [state_of pbSrc].
  rewrite (bind_ret_eq _ _ _ _ _ (Hlen _)), Hset. cbn [state_of fgPel pbDest fFirstLine].
  pose proof (set_taken set (fg p) q (mem_of (px p)) ltac:(lia) Hfg) as Hs.
  destruct (parse_set d set (zdrop q src)) as [[s l]|]; cbn.
  2:{ unfold mbind, M_bind. rewrite Hs. by apply failed_here. }
  destruct Hs as (q' & -> & Hq' & Hsv & Hv & E). rewrite (bind_ret_eq _ _ _ _ _ E). unfold buffer_within_range.
  rewrite zlen_zdrop by lia. set (k := (n + 7) / 8). assert (n / 8 <= k <= n / 8 + 1 /\ n <= 8 * k) as [Hk Hnk]
    by (unfold k; Z.div_mod_to_equations; lia). pose proof (Z.div_pos n 8 ltac:(lia) ltac:(lia)).
  destruct (Z.ltb_spec (zlen src) (q' + n / 8)) as [Hb|Hb].
  { replace (k <=? zlen src - q') with false by lia. by apply failed_here. }
  cbn [negb]. rewrite guard_bind by done.
  pose proof (fgbg_loop_ok (Z.to_nat n) (first p) q' (default (fg p) s) n (px p) ltac:(lia) ltac:(lia) ltac:(lia)
    Hw Hps Hv Hr) as Hl. cbv zeta in Hl. fold k in Hl.
  destruct (Z.leb_spec k (zlen src - q')) as [Hk'|Hk'].
  - replace (q' + k <=? zlen src) with true in Hl by lia. cbn [andb] in Hl.
    exists (q' + k). split_and!; [rewrite zdrop_zdrop by lia; f_equal; lia|lia|lia|split; [lia|done]|].
    unfold drawn_as. cbn [order_dots].
    assert (map (fun i => fgbg_dot (default (fg p) s) (mask_bit (ztake k (zdrop q' src)) i)) (seqZ 0 n)
            = mask_dots (default (fg p) s) (zdrop q' src) n) as ->.
    { apply map_ext_in. intros i Hi. apply list_elem_of_In, elem_of_seqZ in Hi. by rewrite mask_bit_take by lia. }
    rewrite mask_dots_len by lia. destruct (Z.leb_spec (zlen (px p) + n) room).
    + rewrite (bind_ret_eq _ _ _ _ _ Hl). unfold state_of. cbn [px fg ins first order_fg is_bg].
      by rewrite draw_len, mask_dots_len by lia.
    + destruct Hl as (m & Em & Hm). exists m. unfold mbind, M_bind. by rewrite Em.
  - replace (q' + k <=? zlen src) with false in Hl by lia. destruct Hl as (m & Em & Hm). exists m.
    unfold mbind, M_bind. by rewrite Em.
Qed.

Lemma special_fgbg_agrees mask q0 p : picture_ok p -> 0 <= q0 < zlen src ->
  agrees q0 p (Some (FgBg None 8 [mask], zdrop (q0 + 1) src))
    (special_fgbg d (zlen src) bottom row mask (state_of q0 p) (mem_of (px p))).
Proof.
  intros [Hps Hfg Hw Hr] Hq. exists (q0 + 1). split_and!; [done|lia|lia|split; [lia|done]|].
  unfold special_fgbg, buffer_within_range. cbn [state_of pbSrc pbDest fgPel fFirstLine].
  rewrite guard_bind by lia. pose proof (write_bits_ok mask (first p) (fg p) 8 (px p) ltac:(lia) Hw Hps Hfg Hr) as Ew.
  unfold drawn_as. cbn [order_dots default].
  fold (mask_dots (fg p) [mask] 8). rewrite mask_dots_one, bit_dots_len by lia.
  destruct (Z.leb_spec (zlen (px p) + 8) room).
  - rewrite (bind_ret_eq _ _ _ _ _ Ew). unfold state_of. cbn [px fg ins first order_fg is_bg default].
    by rewrite draw_len, bit_dots_len by lia.
  - unfold mbind, M_bind. rewrite Ew. by apply failed_here.
Qed.

Lemma special_pixel_agrees v q0 p : picture_ok p -> 0 <= q0 < zlen src -> pixel_ok d v ->
  agrees q0 p (Some (Dot v, zdrop (q0 + 1) src))
    (special_pixel d (zlen src) bottom v (state_of q0 p) (mem_of (px p))).
Proof.
  intros [Hps Hfg Hw Hr] Hq Hv. exists (q0 + 1). split_and!; [done|lia|lia|done|].
  unfold special_pixel, buffer_within_range. cbn [state_of pbSrc pbDest fgPel fFirstLine].
  rewrite guard_bind by lia. rewrite capacity_px by (unfold UINT32_MAX; lia).
  unfold drawn_as. cbn [order_dots]. change (zlen [Put v]) with 1.
  destruct (Z.leb_spec (zlen (px p) + 1) room) as [Hc|Hc]; [|by apply failed_here].
  rewrite guard_bind by done. rewrite (bind_ret_eq _ _ _ _ _ (dest_write (px p) v Hc)).
  unfold state_of. cbn [px fg ins first order_fg is_bg draw ink]. rewrite zlen_app. change (zlen [v]) with 1.
  by rewrite Z.mul_add_distr_r, Z.mul_1_l.
Qed.

(** ** One turn of the decoder *)

Lemma extract_eq code q (m : list Z) : 0 <= q < zlen src ->
  ExtractRunLength src q (zlen src) code m
  = (let among := existsb (Z.eqb code) in
     if among [REGULAR_FGBG_IMAGE] then ExtractRunLengthRegularFgBg src q (zlen src)
     else if among [LITE_SET_FG_FGBG_IMAGE] then ExtractRunLengthLiteFgBg src q (zlen src)
     else if among [REGULAR_BG_RUN; REGULAR_FG_RUN; REGULAR_COLOR_RUN; REGULAR_COLOR_IMAGE] then
       ExtractRunLengthRegular src q (zlen src)
     else if among [LITE_SET_FG_FG_RUN; LITE_DITHERED_RUN] then ExtractRunLengthLite src q (zlen src)
     else if among [MEGA_MEGA_BG_RUN; MEGA_MEGA_FG_RUN; MEGA_MEGA_SET_FG_RUN; MEGA_MEGA_DITHERED_RUN;
                 MEGA_MEGA_COLOR_RUN; MEGA_MEGA_FGBG_IMAGE; MEGA_MEGA_SET_FGBG_IMAGE;
                 MEGA_MEGA_COLOR_IMAGE] then ExtractRunLengthMegaMega src q (zlen src)
     else mret (0, 0)) m.
Proof.
  intros Hq. unfold ExtractRunLength, buffer_within_range.
  by replace (negb (zlen src <? q + 0)) with true by lia.
Qed.

Lemma short_is code q b l mask k bias scale : 0 <= q < zlen src -> zdrop q src = b :: l ->
  (forall m : list Z, ExtractRunLength src q (zlen src) code m = short_length src q (zlen src) mask bias scale m) ->
  0 <= k <= 5 -> mask = 2 ^ k - 1 -> 0 <= bias <= 32 -> 0 < scale <= 8 ->
  length_is code q (parse_short (b mod 2 ^ k) bias scale l).
Proof.
  intros Hq Hd He Hk Hm Hb Hs. apply length_is_intro; [done|]. intros m. rewrite He.
  destruct (src_at q m Hq) as (b' & Hd' & Hb' & Hbyte). rewrite Hd in Hd'. injection Hd' as <- ->.
  by apply short_length_spec.
Qed.

Lemma mega_is code q b l : 0 <= q < zlen src -> zdrop q src = b :: l ->
  (forall m : list Z, ExtractRunLength src q (zlen src) code m = ExtractRunLengthMegaMega src q (zlen src) m) ->
  length_is code q (parse_long l).
Proof.
  intros Hq Hd He. apply length_is_intro; [done|]. intros m. rewrite He.
  destruct (src_at q m Hq) as (b' & Hd' & _). rewrite Hd in Hd'. injection Hd' as <- ->.
  by apply mega_length_spec.
Qed.

(** An order whose length comes first. *)
Lemma by_length code q r k f p : picture_ok p -> length_is code q r ->
  (forall n q', q < q' <= zlen src -> 0 <= n <= 65535 ->
     (forall m, run_length src (zlen src) code q m = Ret (n, q') m) ->
     agrees q p (k n (zdrop q' src)) ((run_length src (zlen src) code q ≫= f) (mem_of (px p)))) ->
  agrees q p ('(n, l) ← r; k n l) ((run_length src (zlen src) code q ≫= f) (mem_of (px p))).
Proof.
  intros Hp Hl Hk. unfold length_is in Hl. destruct r as [[n l]|]; cbn.
  - destruct Hl as (q' & -> & Hq' & Hn & Hr). by apply Hk.
  - unfold mbind, M_bind. rewrite Hl. apply failed_here, Hp.
Qed.

Lemma code_id b : is_byte b ->
  ExtractCodeId b = if b <? 0xC0 then b / 32 else if b <? 0xF0 then b / 16 else b.
Proof.
  intros Hb. apply Z.eqb_eq. revert b Hb.
  apply (zrange_forall 256 (fun b => ExtractCodeId b =? (if b <? 0xC0 then b / 32 else if b <? 0xF0 then b / 16 else b))).
  by vm_compute.
Qed.

Lemma next_row_ok p : picture_ok p -> picture_ok (next_row w p).
Proof.
  intros [Hps Hfg Hw Hr]. unfold next_row. destruct (first p && (w <=? zlen (px p))) eqn:E; [|by split].
  apply andb_true_iff in E as [_ E]. split; try done. intros _. cbn. lia.
Qed.

Lemma next_row_state q p : picture_ok p ->
  (if fFirstLine (state_of q p) && (row <=? u32 (pbDest (state_of q p)))
   then mkDecoder (pbSrc (state_of q p)) (pbDest (state_of q p)) (fgPel (state_of q p)) false false
   else state_of q p) = state_of q (next_row w p) /\ px (next_row w p) = px p.
Proof.
  intros [Hps Hfg Hw Hr]. pose proof size_range. pose proof (zlen_nonneg (px p)). unfold next_row, state_of.
  cbn [fFirstLine pbDest pbSrc fgPel]. unfold UINT32_MAX in small.
  assert (zlen (px p) * size <= room * size) by nia.
  replace (u32 (zlen (px p) * size)) with (zlen (px p) * size) by word_lia.
  replace (row <=? zlen (px p) * size) with (w <=? zlen (px p)).
  - by destruct (first p && (w <=? zlen (px p))).
  - apply eq_true_iff_eq. rewrite !Z.leb_le. split; intros; nia.
Qed.

(** Picks the branch of an order whose code is known. *)
#[local] Ltac pick :=
  cbv [existsb orb Z.eqb Pos.eqb REGULAR_BG_RUN MEGA_MEGA_BG_RUN REGULAR_FG_RUN MEGA_MEGA_FG_RUN LITE_SET_FG_FG_RUN
    MEGA_MEGA_SET_FG_RUN LITE_DITHERED_RUN MEGA_MEGA_DITHERED_RUN REGULAR_COLOR_RUN MEGA_MEGA_COLOR_RUN
    REGULAR_FGBG_IMAGE MEGA_MEGA_FGBG_IMAGE LITE_SET_FG_FGBG_IMAGE MEGA_MEGA_SET_FGBG_IMAGE REGULAR_COLOR_IMAGE
    MEGA_MEGA_COLOR_IMAGE SPECIAL_FGBG_1 SPECIAL_FGBG_2 SPECIAL_WHITE SPECIAL_BLACK].

(** The length of an order whose code is known. *)
#[local] Ltac length_known Hq Hd :=
  first [ change 32 with (2 ^ 5); eapply (short_is _ _ _ _ _ 5 _ _ Hq Hd)
        | change 16 with (2 ^ 4); eapply (short_is _ _ _ _ _ 4 _ _ Hq Hd)
        | eapply (mega_is _ _ _ _ Hq Hd) ];
  [intros m; rewrite extract_eq by exact Hq; reflexivity|try lia; try reflexivity..].

Lemma rle_order_agrees q p : picture_ok p -> 0 <= q < zlen src ->
  agrees q (next_row w p) (parse_order d (zdrop q src))
    (rle_order d src (zlen src) bottom row (state_of q p) (mem_of (px p))).
Proof.
  intros Hp Hq. destruct (next_row_state q p Hp) as [Es Ep]. unfold rle_order. cbv zeta. rewrite Es, <- Ep.
  pose proof (next_row_ok p Hp) as Hn. set (p' := next_row w p) in *.
  destruct (src_at q (mem_of (px p')) Hq) as (b & Hd & Hb & Hbyte). change (pbSrc (state_of q p')) with q.
  rewrite (bind_ret_eq _ _ _ _ _ Hb), Hd. unfold parse_order. rewrite (code_id b Hbyte). unfold is_byte in Hbyte.
  destruct (Z.ltb_spec b 0x20).
  { replace (b <? 192) with true by lia. replace (b / 32) with 0 by (Z.div_mod_to_equations; lia). pick.
    apply by_length; [done|length_known Hq Hd|]. intros. apply bg_agrees; (done || lia). }
  destruct (Z.ltb_spec b 0x40).
  { replace (b <? 192) with true by lia. replace (b / 32) with 1 by (Z.div_mod_to_equations; lia). pick.
    apply by_length; [done|length_known Hq Hd|]. intros. apply fg_agrees; (done || lia). }
  destruct (Z.ltb_spec b 0x60).
  { replace (b <? 192) with true by lia. replace (b / 32) with 2 by (Z.div_mod_to_equations; lia). pick.
    apply by_length; [done|length_known Hq Hd|]. intros. apply fgbg_agrees; (done || lia). }
  destruct (Z.ltb_spec b 0x80).
  { replace (b <? 192) with true by lia. replace (b / 32) with 3 by (Z.div_mod_to_equations; lia). pick.
    apply by_length; [done|length_known Hq Hd|]. intros. apply color_agrees; (done || lia). }
  destruct (Z.ltb_spec b 0xa0).
  { replace (b <? 192) with true by lia. replace (b / 32) with 4 by (Z.div_mod_to_equations; lia). pick.
    apply by_length; [done|length_known Hq Hd|]. intros. apply image_agrees; (done || lia). }
  destruct (Z.ltb_spec b 0xC0).
  { replace (b / 32) with 5 by (Z.div_mod_to_equations; lia). pick. apply failed_here, Hn. }
  destruct (Z.ltb_spec b 0xd0).
  { replace (b <? 240) with true by lia. replace (b / 16) with 12 by (Z.div_mod_to_equations; lia). pick.
    apply by_length; [done|length_known Hq Hd|]. intros. apply fg_agrees; (done || lia). }
  destruct (Z.ltb_spec b 0xe0).
  { replace (b <? 240) with true by lia. replace (b / 16) with 13 by (Z.div_mod_to_equations; lia). pick.
    apply by_length; [done|length_known Hq Hd|]. intros. apply fgbg_agrees; (done || lia). }
  destruct (Z.ltb_spec b 0xf0).
  { replace (b / 16) with 14 by (Z.div_mod_to_equations; lia). pick.
    apply by_length; [done|length_known Hq Hd|]. intros. apply dithered_agrees; (done || lia). }
  destruct (Z.eqb_spec b 0xf0) as [->|].
  { pick. apply by_length; [done|length_known Hq Hd|]. intros. apply bg_agrees; (done || lia). }
  destruct (Z.eqb_spec b 0xf1) as [->|].
  { pick. apply by_length; [done|length_known Hq Hd|]. intros. apply fg_agrees; (done || lia). }
  destruct (Z.eqb_spec b 0xf2) as [->|].
  { pick. apply by_length; [done|length_known Hq Hd|]. intros. apply fgbg_agrees; (done || lia). }
  destruct (Z.eqb_spec b 0xf3) as [->|].
  { pick. apply by_length; [done|length_known Hq Hd|]. intros. apply color_agrees; (done || lia). }
  destruct (Z.eqb_spec b 0xf4) as [->|].
  { pick. apply by_length; [done|length_known Hq Hd|]. intros. apply image_agrees; (done || lia). }
  destruct (Z.eqb_spec b 0xf6) as [->|].
  { pick. apply by_length; [done|length_known Hq Hd|]. intros. apply fg_agrees; (done || lia). }
  destruct (Z.eqb_spec b 0xf7) as [->|].
  { pick. apply by_length; [done|length_known Hq Hd|]. intros. apply fgbg_agrees; (done || lia). }
  destruct (Z.eqb_spec b 0xf8) as [->|].
  { pick. apply by_length; [done|length_known Hq Hd|]. intros. apply dithered_agrees; (done || lia). }
  destruct (Z.eqb_spec b 0xF9) as [->|]; [pick; by apply special_fgbg_agrees|].
  destruct (Z.eqb_spec b 0xFA) as [->|]; [pick; by apply special_fgbg_agrees|].
  destruct (Z.eqb_spec b 0xFD) as [->|]; [pick; apply special_pixel_agrees; [done|done|apply white_ok]|].
  destruct (Z.eqb_spec b 0xFE) as [->|].
  { pick. apply special_pixel_agrees; [done|done|]. pose proof size_range. split; [done|]. apply Z.pow_pos_nonneg; lia. }
  assert (b = 0xF5 \/ b = 0xFB \/ b = 0xFC \/ b = 0xFF) as Hr by lia.
  destruct Hr as [->|[->|[->| ->]]]; pick; apply failed_here, Hn.
Qed.

(** ** Messages *)

Lemma order_dots_ok o fg ins ts : order_ok o -> pixel_ok d fg -> order_dots fg ins o = Some ts -> Forall dot_ok ts.
Proof.
  intros Ho Hfg E. assert (forall s, match s with Some v => pixel_ok d v | None => True end -> pixel_ok d (default fg s)) as Hs
    by (by intros []).
  destruct o as [n|s n|a b n|v n|s n mask|vs|v]; cbn in E, Ho.
  - destruct ins; [|injection E as <-; by apply Forall_replicate].
    destruct (n =? 0); [done|]. injection E as <-. constructor; [done|by apply Forall_replicate].
  - injection E as <-. apply Forall_replicate. apply (Hs s), Ho.
  - injection E as <-. rewrite dithers_put. apply Forall_map, Forall_join, Forall_replicate.
    destruct Ho as (_ & Ha & Hb). apply Forall_cons_2; [done|by apply Forall_cons_2].
  - injection E as <-. apply Forall_replicate, Ho.
  - injection E as <-. apply Forall_forall. intros t Ht. apply in_map_iff in Ht as (i & <- & _).
    unfold fgbg_dot. destruct (mask_bit mask i); [apply (Hs s), Ho|done].
  - injection E as <-. by apply Forall_map.
  - injection E as <-. by apply Forall_cons_2.
Qed.

Lemma draw_order_ok o p p' : picture_ok p -> order_ok o -> draw_order w o p = Some p' -> zlen (px p') <= room ->
  picture_ok p'.
Proof.
  intros Hp Ho E Hr. pose proof (next_row_ok p Hp) as [Hps Hfg Hw _]. unfold draw_order in E.
  destruct (order_dots _ _ o) as [ts|] eqn:Et; [|done]. injection E as <-. cbn in Hr |- *.
  pose proof (order_dots_ok _ _ _ _ Ho Hfg Et) as Hts. split; cbn; [by apply draw_ok| | |done].
  - destruct o as [| [v|] | | |[v|] n mask| |]; cbn in Ho |- *; try done; apply Ho.
  - intros Ef. specialize (Hw Ef). rewrite draw_len. pose proof (zlen_nonneg ts). lia.
Qed.

Lemma rle_loop_exact fuel q p : picture_ok p -> 0 <= q <= zlen src -> zlen src - q <= Z.of_nat fuel ->
  match render d fuel w room (zdrop q src) p with
  | Some p' => rle_loop d src (zlen src) bottom row fuel (state_of q p) (mem_of (px p)) = Ret tt (mem_of (px p'))
      /\ picture_ok p'
  | None => failed (rle_loop d src (zlen src) bottom row fuel (state_of q p) (mem_of (px p)))
  end.
Proof.
  revert q p. induction fuel as [|fuel IH]; intros q p Hp Hq Hf.
  { rewrite zdrop_all by lia. cbn. replace (q <? zlen src) with false by lia. done. }
  destruct (Z.eq_dec q (zlen src)) as [->|Hne].
  { rewrite zdrop_all by lia. cbn. by rewrite Z.ltb_irrefl. }
  pose proof (rle_order_agrees q p Hp ltac:(lia)) as Ha. cbn [rle_loop]. change (pbSrc (state_of q p)) with q.
  replace (q <? zlen src) with true by lia.
  destruct (src_at q (@nil Z) ltac:(lia)) as (b & Hd & _). rewrite Hd. cbn [render]. rewrite <- Hd.
  unfold agrees in Ha. destruct (parse_order d (zdrop q src)) as [[o l]|]; cbn.
  2:{ destruct Ha as (m & Em & Hm). exists m. unfold mbind, M_bind. by rewrite Em. }
  destruct Ha as (q' & -> & Hq' & Ho & Hdr).
  destruct (draw_order w o p) as [p1|] eqn:Ed; cbn; pose proof Ed as Ed'; unfold drawn_as in Hdr; unfold draw_order in Ed';
    (destruct (order_dots _ _ o) as [ts|]; [|first [done|destruct Hdr as (m & Em & Hm); exists m; unfold mbind, M_bind; by rewrite Em]]);
    [|done].
  injection Ed' as <-. cbn [px] in *. rewrite draw_len.
  destruct (Z.leb_spec (zlen (px (next_row w p)) + zlen ts) room) as [Hc|Hc].
  - rewrite (bind_ret_eq _ _ _ _ _ Hdr). apply (IH q' (mkPicture _ _ _ _)); [|lia|lia].
    eapply draw_order_ok; [exact Hp|exact Ho|exact Ed|]. cbn. by rewrite draw_len.
  - destruct Hdr as (m & Em & Hm). exists m. unfold mbind, M_bind. by rewrite Em.
Qed.
End Exact.

(** The decoder of the interleaved codec, at any of its depths, does with any bytes what their
    orders mean: when every order is complete and there is room for its pixels, exactly these pixels
    are in the block, row after row, and the rest of the block is as it was; any other message is
    refused.  It never reads outside the message or the block, and never writes outside the block. *)
Lemma rle_decompress_render d `{!DepthLaws d} w h src mem :
  0 < w -> 0 <= h -> w * PIXEL_SIZE d * h < UINT32_MAX -> w * PIXEL_SIZE d * h <= zlen mem ->
  bytes src -> zlen src <= UINT32_MAX ->
  match render d (Z.to_nat (zlen src)) w (w * h) src (blank d) with
  | Some p => RleDecompress d src (w * PIXEL_SIZE d) w h mem = Ret tt (blit 0 (bytes_px d (px p)) mem)
      /\ zlen (px p) <= w * h
  | None => exists m, RleDecompress d src (w * PIXEL_SIZE d) w h mem = Fail m /\ zlen m = zlen mem
  end.
Proof.
  intros Hw Hh Hs Hm Hb Hsrc. pose proof size_range.
  assert (picture_ok d w h (blank d)) as Hp.
  { split; cbn; [constructor|apply white_ok|done|]. change (zlen (@nil Z)) with 0. nia. }
  pose proof (rle_loop_exact d w h mem src Hw Hh Hs Hm Hb Hsrc (Z.to_nat (zlen src)) 0 (blank d) Hp
    ltac:(pose proof (zlen_nonneg src); lia) ltac:(pose proof (zlen_nonneg src); lia)) as He.
  rewrite zdrop_0 in He. unfold RleDecompress.
  assert (mem_of d mem (px (blank d)) = mem) as E0 by (unfold mem_of; cbn; apply blit_nil; pose proof (zlen_nonneg mem); lia).
  rewrite E0 in He. unfold state_of in He. change (zlen (px (blank d)) * PIXEL_SIZE d) with 0 in He.
  rewrite guard_bind by nia. destruct (render _ _ _ _ _ _) as [p|]; [|exact He].
  destruct He as [E Hok]. split; [exact E|apply Hok].
Qed.
