(* ===== verification/RleEmit.v ===== *)
(** * Orders that are written one after the other

    What the pieces of a message that the encoder of [Bitmap] writes mean to a reader: each order as
    bytes is read back as the order, and a message that is put together from such pieces draws what
    the orders draw one after the other. *)

From S2P Require Import Prelude Stream Color Image RleBitmap RleSpec RleExact.

(** ** Orders as bytes *)

(** The header of a run: a count in the low bits, in one more byte, or in two. *)
Definition head (base limit mega n : Z) : list Z :=
  if n <? limit then [base + n]
  else if n <? 256 + limit then [base; n - limit]
  else mega :: write_pixel_16 n.

(** The header of a foreground/background image. *)
Definition fom_head (n : Z) : list Z :=
  if (n mod 8 =? 0) && (n <? 249) then [0x40 + n / 8]
  else if n <? 256 then [0x40; n - 1]
  else 0xf2 :: write_pixel_16 n.

(** The bytes that are read as an order, whatever follows. *)
Definition reads_as (d : depth) (bs : list Z) (o : order) : Prop :=
  bs <> [] /\ forall rest, parse_order d (bs ++ rest) = Some (o, rest).

Ltac decide_tests :=
  repeat match goal with
  | |- context [?a <? ?b] =>
      first [rewrite (proj2 (Z.ltb_lt a b)) by lia | rewrite (proj2 (Z.ltb_ge a b)) by lia]
  | |- context [?a =? ?b] =>
      first [rewrite (proj2 (Z.eqb_eq a b)) by lia | rewrite (proj2 (Z.eqb_neq a b)) by lia]
  end.

(** A length in the byte behind the header. *)
Ltac short_head :=
  decide_tests; unfold parse_short;
  match goal with |- context [if ?b =? 0 then _ else _] => change b with 0 end;
  cbn [Z.eqb mbind option_bind].

Lemma parse_long_16 n rest : 0 <= n < 65536 -> parse_long (write_pixel_16 n ++ rest) = Some (n, rest).
Proof.
  intros Hn. unfold write_pixel_16. cbn [app parse_long]. rewrite shiftr_div, !land_FF by lia.
  change (2 ^ 8) with 256. do 2 f_equal. word_lia.
Qed.

Section Headers.
Variables (d : depth) (rest : list Z).

Lemma parse_bg_head n : 0 < n < 65536 -> parse_order d (head 0x00 32 0xf0 n ++ rest) = Some (Bg n, rest).
Proof.
  intros Hn. unfold head. zcase; [|zcase]; cbn [app parse_order].
  - decide_tests. unfold parse_short. rewrite Z.add_0_l, Z.mod_small by lia. decide_tests.
    cbn [mbind option_bind]. by rewrite Z.mul_1_r.
  - short_head. by rewrite Z.sub_add.
  - by rewrite parse_long_16 by lia.
Qed.

Lemma parse_fg_head n : 0 < n < 65536 -> parse_order d (head 0x20 32 0xf1 n ++ rest) = Some (Fg None n, rest).
Proof.
  intros Hn. unfold head. zcase; [|zcase]; cbn [app parse_order].
  - decide_tests. unfold parse_short.
    replace ((32 + n) mod 32) with n by (rewrite Z.add_comm; change 32 with (1 * 32) at 1; rewrite Z.mod_add, Z.mod_small; lia).
    decide_tests. cbn [mbind option_bind parse_fg parse_set]. by rewrite Z.mul_1_r.
  - short_head. by rewrite Z.sub_add.
  - cbn [mbind option_bind]. decide_tests. by rewrite parse_long_16 by lia.
Qed.

Lemma parse_color_head n : 0 < n < 65536 -> parse_order d (head 0x60 32 0xf3 n ++ rest) = parse_color d n rest.
Proof.
  intros Hn. unfold head. zcase; [|zcase]; cbn [app parse_order].
  - decide_tests. unfold parse_short.
    replace ((96 + n) mod 32) with n by (rewrite Z.add_comm; change 96 with (3 * 32); rewrite Z.mod_add, Z.mod_small; lia).
    decide_tests. cbn [mbind option_bind]. by rewrite Z.mul_1_r.
  - short_head. by rewrite Z.sub_add.
  - decide_tests. rewrite parse_long_16 by lia. done.
Qed.

Lemma parse_image_head n : 0 < n < 65536 -> parse_order d (head 0x80 32 0xf4 n ++ rest) = parse_image d n rest.
Proof.
  intros Hn. unfold head. zcase; [|zcase]; cbn [app parse_order].
  - decide_tests. unfold parse_short.
    replace ((128 + n) mod 32) with n by (rewrite Z.add_comm; change 128 with (4 * 32); rewrite Z.mod_add, Z.mod_small; lia).
    decide_tests. cbn [mbind option_bind]. by rewrite Z.mul_1_r.
  - short_head. by rewrite Z.sub_add.
  - decide_tests. rewrite parse_long_16 by lia. done.
Qed.

Lemma parse_fom_head n : 0 < n < 65536 -> parse_order d (fom_head n ++ rest) = parse_fgbg d false n rest.
Proof.
  intros Hn. unfold fom_head. destruct ((n mod 8 =? 0) && (n <? 249)) eqn:E; [|zcase]; cbn [app parse_order].
  - apply andb_true_iff in E as [E1 E2]. assert (n = 8 * (n / 8)) as En by word_lia.
    set (q := n / 8) in *. decide_tests. unfold parse_short.
    replace ((64 + q) mod 32) with q by (rewrite Z.add_comm; change 64 with (2 * 32); rewrite Z.mod_add, Z.mod_small; lia).
    decide_tests. cbn [mbind option_bind]. by rewrite (Z.mul_comm q), <- En.
  - short_head. by rewrite Z.sub_add.
  - decide_tests. rewrite parse_long_16 by lia. done.
Qed.
End Headers.

Section Pieces.
Variable d : depth.
Context `{!DepthLaws d}.
#[local] Abbreviation size := (PIXEL_SIZE d).

Lemma parse_pixel_bytes v rest : pixel_ok d v -> parse_pixel d (to_bytes d v ++ rest) = Some (v, rest).
Proof.
  intros Hv. unfold parse_pixel. pose proof (to_bytes_len v) as Hl. pose proof (zlen_nonneg rest). pose proof size_range.
  rewrite zlen_app, Hl. decide_tests. rewrite (proj2 (Z.leb_le _ _)) by lia.
  rewrite <- Hl, ztake_app_le, ztake_all, zdrop_app_ge, Z.sub_diag, zdrop_0 by lia.
  by rewrite of_to_bytes.
Qed.

Lemma bytes_px_slice vs rest k : 0 <= k < zlen vs ->
  slice (k * size) size (bytes_px d vs ++ rest) = to_bytes d (nth (Z.to_nat k) vs 0).
Proof.
  pose proof size_range. revert k. induction vs as [|v vs IH]; intros k Hk.
  { change (zlen (@nil Z)) with 0 in Hk. lia. }
  rewrite zlen_cons in Hk. change (bytes_px d (v :: vs)) with (to_bytes d v ++ bytes_px d vs).
  pose proof (to_bytes_len v) as Hl. rewrite <- app_assoc. unfold slice. destruct (Z.eq_dec k 0) as [->|Hne].
  - rewrite Z.mul_0_l, zdrop_0, ztake_app_le, ztake_all by lia. done.
  - rewrite zdrop_app_ge by nia. replace (k * size - zlen (to_bytes d v)) with ((k - 1) * size) by nia.
    change (slice ((k - 1) * size) size (bytes_px d vs ++ rest) = to_bytes d (nth (Z.to_nat k) (v :: vs) 0)).
    rewrite IH by lia. by replace (Z.to_nat k) with (S (Z.to_nat (k - 1))) by lia.
Qed.

Lemma nth_seqZ (vs : list Z) : map (fun k => nth (Z.to_nat k) vs 0) (seqZ 0 (zlen vs)) = vs.
Proof.
  apply list_eq_same_length with (length vs).
  - done.
  - rewrite length_map, length_seqZ. unfold zlen. lia.
  - intros i x y Hi Hx Hy. rewrite list_lookup_fmap in Hx.
    rewrite lookup_seqZ_lt in Hx by (unfold zlen; lia). injection Hx as <-.
    rewrite Z.add_0_l, Nat2Z.id. by apply nth_lookup_Some.
Qed.

Lemma parse_image_bytes vs rest : Forall (pixel_ok d) vs ->
  parse_image d (zlen vs) (bytes_px d vs ++ rest) = Some (Pixels vs, rest).
Proof.
  intros Hv. unfold parse_image. pose proof (zlen_nonneg rest). pose proof (bytes_px_len d vs) as Hl.
  rewrite zlen_app, Hl, (proj2 (Z.leb_le _ _)) by lia.
  rewrite (zdrop_app_ge (zlen vs * size) (bytes_px d vs) rest), Hl, Z.sub_diag, zdrop_0 by lia.
  do 3 f_equal. etransitivity; [|apply nth_seqZ].
  apply map_ext_in. intros k Hk. apply list_elem_of_In, elem_of_seqZ in Hk.
  rewrite bytes_px_slice by lia. apply of_to_bytes.
  apply (Forall_lookup_1 _ _ (Z.to_nat k) _ Hv).
  destruct (nth_lookup_or_length vs (Z.to_nat k) 0) as [E|E]; [exact E|unfold zlen in Hk; lia].
Qed.

(** Orders as the encoder writes them. *)
Lemma reads_bg n : 0 < n < 65536 -> reads_as d (head 0x00 32 0xf0 n) (Bg n).
Proof. intros Hn. split; [unfold head; by repeat case_match|]. intros rest. by apply parse_bg_head. Qed.

Lemma reads_fg n : 0 < n < 65536 -> reads_as d (head 0x20 32 0xf1 n) (Fg None n).
Proof. intros Hn. split; [unfold head; by repeat case_match|]. intros rest. by apply parse_fg_head. Qed.

Lemma reads_color n v : 0 < n < 65536 -> pixel_ok d v ->
  reads_as d (head 0x60 32 0xf3 n ++ to_bytes d v) (Color v n).
Proof.
  intros Hn Hv. split; [unfold head; by repeat case_match|]. intros rest.
  rewrite <- app_assoc, parse_color_head by done. unfold parse_color. by rewrite parse_pixel_bytes.
Qed.

Lemma reads_pixels vs : 0 < zlen vs < 65536 -> Forall (pixel_ok d) vs ->
  reads_as d (head 0x80 32 0xf4 (zlen vs) ++ bytes_px d vs) (Pixels vs).
Proof.
  intros Hn Hv. split; [unfold head; by repeat case_match|]. intros rest.
  rewrite <- app_assoc, parse_image_head by done. by apply parse_image_bytes.
Qed.

Lemma reads_fom n mask : 0 < n < 65536 -> zlen mask = (n + 7) / 8 ->
  reads_as d (fom_head n ++ mask) (FgBg None n mask).
Proof.
  intros Hn Hm. split; [unfold fom_head; by repeat case_match|]. intros rest.
  rewrite <- app_assoc, parse_fom_head by done. unfold parse_fgbg. cbn [parse_set mbind option_bind].
  pose proof (zlen_nonneg rest). pose proof (zlen_nonneg mask).
  rewrite zlen_app, (proj2 (Z.leb_le _ _)), <- Hm by lia.
  by rewrite ztake_app_le, ztake_all, zdrop_app_ge, Z.sub_diag, zdrop_0 by lia.
Qed.

(** ** Messages *)

(** The bytes are orders that make of one picture another. *)
Inductive drawing (w : Z) : list Z -> picture -> picture -> Prop :=
| drawing_nil p : drawing w [] p p
| drawing_snoc l bs o p q r :
    drawing w l p q -> reads_as d bs o -> draw_order w o q = Some r -> drawing w (l ++ bs) p r.

Lemma draw_order_grows w o p q : draw_order w o p = Some q -> zlen (px p) <= zlen (px q).
Proof.
  unfold draw_order. destruct (order_dots _ _ _) as [ts|]; [|done]. intros [= <-]. cbn [px].
  rewrite draw_len. replace (px (next_row w p)) with (px p) by (unfold next_row; by destruct (_ && _)).
  pose proof (zlen_nonneg ts). lia.
Qed.

Lemma drawing_render w l p q room : drawing w l p q -> zlen (px q) <= room ->
  forall fuel rest, (length l <= fuel)%nat ->
  exists fuel', (fuel - length l <= fuel')%nat /\ render d fuel w room (l ++ rest) p = render d fuel' w room rest q.
Proof.
  induction 1 as [p|l bs o p q r Hd IH [Hne Hr] Ho]; intros Hroom fuel rest Hf.
  { exists fuel. split; [simpl; lia|done]. }
  pose proof (draw_order_grows w o q r Ho). rewrite length_app in *.
  destruct (IH ltac:(lia) fuel (bs ++ rest) ltac:(lia)) as (fuel' & Hf' & E).
  destruct bs as [|b bs]; [done|]. cbn [length] in *.
  destruct fuel' as [|fuel']; [lia|]. exists fuel'. split; [lia|].
  rewrite <- app_assoc, E. cbn [app render]. pose proof (Hr rest) as Hp. cbn [app] in Hp. rewrite Hp.
  cbn [mbind option_bind]. rewrite Ho. cbn [mbind option_bind]. by rewrite (proj2 (Z.leb_le _ _)) by lia.
Qed.

Lemma drawing_message w l p q room : drawing w l p q -> zlen (px q) <= room ->
  render d (Z.to_nat (zlen l)) w room l p = Some q.
Proof.
  intros Hd Hr. destruct (drawing_render w l p q room Hd Hr (Z.to_nat (zlen l)) []) as (f & _ & E).
  { unfold zlen. lia. }
  rewrite app_nil_r in E. rewrite E. by destruct f.
Qed.
End Pieces.
