(* ===== verification/BitmapRoundtrip.v ===== *)
(** * The encoder of the interleaved codec against its decoder

    The messages of [freerdp_bitmap_compress] at 16 bits per pixel draw the bitmap they were made
    of.  The proof follows the encoder pixel by pixel: the orders written so far draw the pixels in
    front of those that wait, and each count is the length of a run at the end of these. *)

From S2P Require Import Prelude Stream Color Image RleBitmap Bitmap RleSpec RleExact RleEmit.

#[local] Abbreviation e16 := (encoding16 16).
#[local] Abbreviation white := 0xFFFF.

(** ** Orders that are written *)

Lemma writes_header k base mega n : base = k * 2 ^ 5 -> 0 <= k <= 4 -> 0xf0 <= mega < 256 -> 0 < n < 65536 ->
  writes (out_header base 32 mega n) (head base 32 mega n).
Proof.
  intros -> Hk Hm Hn. unfold out_header, head. zcase; [|zcase].
  - rewrite lor_shift_add, land_FF, Z.mod_small by lia. apply writes_u8. unfold is_byte. lia.
  - rewrite land_FF, Z.mod_small by lia.
    apply writes_u8_seq; [unfold is_byte; lia|]. apply writes_u8. unfold is_byte. lia.
  - apply writes_u8_seq; [unfold is_byte; lia|]. apply writes_u16; autounfold with words in *; lia.
Qed.

Lemma head_len base mega n : 1 <= zlen (head base 32 mega n) <= 3
  /\ (n < 32 -> zlen (head base 32 mega n) = 1) /\ (n < 288 -> zlen (head base 32 mega n) <= 2).
Proof. unfold head, zlen. zcase; [|zcase]; cbn [length write_pixel_16]; lia. Qed.

Lemma writes_fill n : 0 < n < 65536 -> writes (out_fill_count n) (head 0x00 32 0xf0 n).
Proof.
  intros Hn. unfold out_fill_count. rewrite (proj2 (Z.ltb_lt _ _)) by lia. by apply (writes_header 0).
Qed.

Lemma writes_mix n : 0 < n < 65536 -> writes (out_counts_mix_count n) (head 0x20 32 0xf1 n).
Proof.
  intros Hn. unfold out_counts_mix_count. rewrite (proj2 (Z.ltb_lt _ _)) by lia. by apply (writes_header 1).
Qed.

Lemma writes_color n v : 0 < n < 65536 -> is_u16 v ->
  writes (out_color_count e16 n v) (head 0x60 32 0xf3 n ++ write_pixel_16 v).
Proof.
  intros Hn Hv. unfold out_color_count. rewrite (proj2 (Z.ltb_lt _ _)) by lia.
  apply writes_seq; [by apply (writes_header 3)|]. apply writes_u16; autounfold with words in *; lia.
Qed.

Lemma fom_head_len n : 1 <= zlen (fom_head n) <= 3 /\ (n < 256 -> zlen (fom_head n) <= 2).
Proof. unfold fom_head, zlen. destruct (_ && _); [|zcase]; cbn [length write_pixel_16]; lia. Qed.

Lemma writes_fom n mask k : 0 < n < 65536 -> bytes mask -> 0 <= k <= zlen mask ->
  writes (out_from_count n mask k) (fom_head n ++ ztake k mask).
Proof.
  intros Hn Hb Hk. unfold out_from_count. rewrite (proj2 (Z.ltb_lt _ _)) by lia.
  apply writes_seq.
  - unfold fom_head. destruct (_ && _) eqn:E; [|zcase].
    + apply andb_true_iff in E as [_ E]. apply Z.ltb_lt in E. assert (0 <= n / 8 < 32) by word_lia.
      pose proof (lor_shift_add 2 (n / 8) 5 ltac:(lia) ltac:(lia)) as El. change (2 * 2 ^ 5) with 0x40 in El.
      rewrite El, land_FF, Z.mod_small by lia. apply writes_u8. unfold is_byte. lia.
    + rewrite land_FF, Z.mod_small by lia.
      apply writes_u8_seq; [done|]. apply writes_u8. unfold is_byte. lia.
    + apply writes_u8_seq; [done|]. apply writes_u16; autounfold with words in *; lia.
  - split; [by apply Forall_ztake|]. intros s Hs Hc.
    rewrite (bind_ret_eq _ _ _ (slice 0 k mask) s) by (apply copy_from_ok; lia).
    rewrite slice_0. apply writes_bytes; [by apply Forall_ztake|done..].
Qed.

Lemma on_out_writes m bs c : writes m bs -> wf (out c) -> pointer (out c) + zlen bs <= capacity (out c) ->
  on_out m c = Ret tt (set_out (put bs (out c)) c).
Proof. intros [_ Hm] Hs Hc. unfold on_out. by rewrite Hm. Qed.

Lemma set_position_0 c : wf (temp c) ->
  attempt (on_temp_s (Stream_SetPosition 0)) c = Ret (Some tt) (set_temp (set_pointer 0 (temp c)) c).
Proof. intros []. unfold attempt, on_temp_s. by rewrite set_position_eq by lia. Qed.

(** The pixels that wait, as an order. *)
Definition image_bytes (vs : list Z) : list Z :=
  match vs with [] => [] | _ => head 0x80 32 0xf4 (zlen vs) ++ bytes_px depth16 vs end.

Lemma image_bytes_len vs : zlen (image_bytes vs) <= 2 * zlen vs + 3.
Proof.
  destruct vs as [|v vs]; [by unfold zlen; cbn|]. unfold image_bytes. rewrite zlen_app.
  rewrite (bytes_px_len depth16). destruct (head_len 0x80 0xf4 (zlen (v :: vs))) as [? _].
  change (PIXEL_SIZE depth16) with 2. lia.
Qed.

Lemma bytes_px_bytes vs : bytes (bytes_px depth16 vs).
Proof.
  induction vs as [|v vs IH]; [constructor|]. change (bytes (write_pixel_16 v ++ bytes_px depth16 vs)).
  apply Forall_app. split; [|done]. apply bytes_Write_UINT16.
Qed.

Lemma image_bytes_bytes vs : zlen vs < 65536 -> bytes (image_bytes vs).
Proof.
  destruct vs as [|v vs]; [constructor|]. intros Hl. rewrite zlen_cons in Hl. pose proof (zlen_nonneg vs).
  unfold image_bytes. apply Forall_app. split; [|apply bytes_px_bytes].
  apply (writes_header 4 0x80 0xf4); rewrite ?zlen_cons; lia || done.
Qed.

Lemma image_bytes_some vs : 0 < zlen vs ->
  image_bytes vs = head 0x80 32 0xf4 (zlen vs) ++ bytes_px depth16 vs.
Proof. by destruct vs. Qed.

Lemma copy_ok c vs : waiting c = zlen vs -> zlen vs < 65536 ->
  wf (out c) -> pointer (out c) + zlen (image_bytes vs) <= capacity (out c) ->
  wf (temp c) -> 2 * zlen vs <= capacity (temp c) ->
  ztake (2 * zlen vs) (buffer (temp c)) = bytes_px depth16 vs ->
  out_copy_count e16 c
  = Ret tt (set_waiting 0 (set_temp (set_pointer 0 (temp c)) (set_out (put (image_bytes vs) (out c)) c))).
Proof.
  intros Hw Hs Ho Hr Ht Htr Hb. unfold out_copy_count. rewrite get_bind, Hw. pose proof (zlen_nonneg vs).
  set (c1 := set_out (put (image_bytes vs) (out c)) c).
  rewrite (bind_ret_eq _ _ c tt c1).
  { rewrite (bind_ret_eq _ _ c1 _ _ (set_position_0 c1 Ht)). done. }
  unfold c1. destruct vs as [|v vs]; [cbn; rewrite put_nil by done; by destruct c|].
  pose proof (zlen_nonneg vs). rewrite zlen_cons in *. rewrite (proj2 (Z.ltb_lt _ _)) by lia.
  unfold image_bytes in *. rewrite zlen_app, zlen_cons in *.
  pose proof (zlen_nonneg (bytes_px depth16 (v :: vs))).
  assert (writes (out_header 0x80 32 0xf4 (zlen vs + 1)) (head 0x80 32 0xf4 (zlen vs + 1))) as Hh
    by (apply (writes_header 4); done || lia).
  rewrite (bind_ret_eq _ _ _ _ _ (on_out_writes _ _ _ Hh Ho ltac:(lia))).
  pose proof (zlen_nonneg (head 128 32 244 (zlen vs + 1))).
  destruct Ht as [Hst _ _ _ _].
  rewrite (bind_ret_eq _ _ _ (bytes_px depth16 (v :: vs)) (set_out (put (head 0x80 32 0xf4 (zlen vs + 1)) (out c)) c)).
  2: { rewrite <- Hb, <- slice_0. cbn [e_from e_size encoding16]. apply copy_from_ok; lia. }
  rewrite (on_out_writes (Stream_Write _) _ _ (writes_bytes _ (bytes_px_bytes (v :: vs)))).
  2: { apply wf_put; [done|apply Hh|]. lia. }
  2: { change (pointer (out c) + zlen (head 0x80 32 0xf4 (zlen vs + 1)) + zlen (bytes_px depth16 (v :: vs)) <= capacity (out c)). lia. }
  cbn [out set_out]. rewrite put_app by (done || lia). done.
Qed.

(** ** The mask of a foreground/background image *)

Lemma lor_byte a b : is_byte a -> is_byte b -> is_byte (Z.lor a b).
Proof.
  unfold is_byte. intros Ha Hb. assert (Z.lor a b = Z.lor a b mod 256) as ->; [|word_lia].
  rewrite <- land_FF, Z.land_lor_distr_l, !land_FF, !Z.mod_small by lia. done.
Qed.

Lemma mask_bit_insert mask j v k : 0 <= j < zlen mask -> 0 <= k ->
  mask_bit (<[Z.to_nat j := v]> mask) k = if k / 8 =? j then Z.testbit v (k mod 8) else mask_bit mask k.
Proof.
  intros Hj Hk. unfold mask_bit. pose proof (Z.div_pos k 8). rewrite !nth_lookup.
  destruct (Z.eqb_spec (k / 8) j) as [->|Hne].
  - rewrite list_lookup_insert_eq by (unfold zlen in Hj; lia). done.
  - rewrite list_lookup_insert_ne by lia. done.
Qed.

Lemma mask_put_ok j v c : 0 <= j < zlen (fom_mask c) ->
  mask_put j v c = Ret tt (set_mask (<[Z.to_nat j := v]> (fom_mask c)) c).
Proof. intros Hj. unfold mask_put. rewrite get_bind. by replace ((0 <=? j) && _) with true by lia. Qed.

(** Bit [n] of the mask is set to [b]; those above it in its byte are clear. *)
Definition marked (mask mask' : list Z) (n : Z) (b : bool) : Prop :=
  zlen mask' = zlen mask /\ bytes mask'
  /\ forall k, 0 <= k < 8 * (n / 8 + 1) ->
       mask_bit mask' k = if k <? n then mask_bit mask k else (k =? n) && b.

Lemma testbit_mark v (b : bool) n k : 0 <= n -> 0 <= k -> k / 8 = n / 8 ->
  Z.testbit (if b then Z.lor v (Z.land (Z.shiftl 1 (n mod 8)) 0xFF) else v) (k mod 8)
  = Z.testbit v (k mod 8) || b && (k =? n).
Proof.
  intros Hn Hk E. destruct b; [|by rewrite orb_false_r].
  pose proof (Z.mod_pos_bound n 8 ltac:(lia)). pose proof (Z.mod_pos_bound k 8 ltac:(lia)).
  assert (0 < 2 ^ (n mod 8)) by (apply Z.pow_pos_nonneg; lia).
  assert (2 ^ (n mod 8) < 2 ^ 8) as Hlt by (apply Z.pow_lt_mono_r; lia). change (2 ^ 8) with 256 in Hlt.
  rewrite Z.lor_spec, land_FF, Z.shiftl_mul_pow2, Z.mul_1_l, (Z.mod_small (2 ^ (n mod 8))), Z.pow2_bits_eqb by lia.
  f_equal. cbn [andb]. apply Bool.eq_true_iff_eq. rewrite !Z.eqb_eq. word_lia.
Qed.

Lemma fom_mark (mix : bool) c : let n := fom_count (counts c) in
  0 <= n < 65535 -> zlen (fom_mask c) = 8192 -> bytes (fom_mask c) -> fom_mask_len (counts c) = (n + 7) / 8 ->
  (forall k, n <= k < 8 * fom_mask_len (counts c) -> mask_bit (fom_mask c) k = false) ->
  exists mask',
    (c ← get;
     let k := counts c in
     (if fom_count k mod 8 =? 0 then
        mask_put (fom_mask_len k) 0;;
        count_with (fun k => set_fom (fom_count k) (fom_mask_len k + 1) k)
      else mret tt);;
     (if mix then
        c ← get;
        let i := fom_mask_len (counts c) - 1 in
        v ← byte_at (fom_mask c) i;
        mask_put i (Z.lor v (Z.land (Z.shiftl 1 (fom_count (counts c) mod 8)) 0xFF))
      else mret tt);;
     count_with (fun k => set_fom (u16 (fom_count k + 1)) (fom_mask_len k) k)) c
    = Ret tt (set_mask mask' (set_counts (set_fom (n + 1) (n / 8 + 1) (counts c)) c))
    /\ marked (fom_mask c) mask' n mix.
Proof.
  intros n Hn Hm Hb Hl Hz. rewrite get_bind. cbv zeta. fold n.
  set (fresh := n mod 8 =? 0).
  set (m1 := if fresh then <[Z.to_nat (n / 8) := 0]> (fom_mask c) else fom_mask c).
  assert (zlen m1 = 8192) as Hm1 by (unfold m1; destruct fresh; by rewrite ?zlen_insert).
  assert (bytes m1) as Hb1 by (unfold m1; destruct fresh; [by apply Forall_insert|done]).
  assert (0 <= n / 8 < 8192) as Hd by word_lia.
  set (c1 := set_mask m1 (set_counts (set_fom n (n / 8 + 1) (counts c)) c)).
  rewrite (bind_ret_eq _ _ _ tt c1).
  2: { unfold c1, m1, fresh. destruct (Z.eqb_spec (n mod 8) 0).
       - replace (fom_mask_len (counts c)) with (n / 8) by word_lia.
         rewrite (bind_ret_eq _ _ _ _ _ (mask_put_ok (n / 8) 0 c ltac:(lia))).
         unfold count_with, modify. cbn. f_equal. unfold set_counts, set_mask. cbn. f_equal. f_equal. word_lia.
       - replace (n / 8 + 1) with (fom_mask_len (counts c)) by word_lia. unfold n. by destruct c as [? ? [] ? ? ? ? ? ?]. }
  destruct (lookup_lt_is_Some_2 m1 (Z.to_nat (n / 8))) as [v Hv]; [unfold zlen in Hm1; lia|].
  set (v' := if mix then Z.lor v (Z.land (Z.shiftl 1 (n mod 8)) 0xFF) else v).
  exists (<[Z.to_nat (n / 8) := v']> m1). split.
  - rewrite (bind_ret_eq _ _ _ tt (set_mask (<[Z.to_nat (n / 8) := v']> m1) c1)).
    { unfold count_with, modify. cbn. f_equal. unfold set_counts, set_mask. cbn. f_equal.
      unfold set_fom. cbn. f_equal. word_lia. }
    unfold v'. destruct mix.
    + rewrite get_bind. cbv zeta. change (fom_mask_len (counts c1) - 1) with (n / 8 + 1 - 1). rewrite Z.add_simpl_r.
      rewrite (bind_ret_eq _ _ _ v c1) by (apply byte_at_ok; [lia|exact Hv]).
      rewrite mask_put_ok by (change (fom_mask c1) with m1; lia). done.
    + rewrite list_insert_id by done. done.
  - assert (is_byte v) as Hvb by (by apply (Forall_lookup_1 _ _ _ _ Hb1) in Hv).
    split; [by rewrite zlen_insert, Hm1, Hm|]. split.
    { apply Forall_insert; [done|]. unfold v'. destruct mix; [|done]. apply lor_byte; [done|].
      rewrite land_FF. unfold is_byte. word_lia. }
    intros k Hk. rewrite mask_bit_insert by lia.
    assert (k / 8 = n / 8 -> Z.testbit v (k mod 8) = (k <? n) && mask_bit (fom_mask c) k) as Hbit.
    { intros E. assert (mask_bit m1 k = Z.testbit v (k mod 8)) as <-
        by (unfold mask_bit; rewrite E, nth_lookup, Hv; done).
      unfold m1, fresh. destruct (Z.eqb_spec (n mod 8) 0).
      - rewrite mask_bit_insert, E, Z.eqb_refl, Z.testbit_0_l by lia.
        rewrite (proj2 (Z.ltb_ge _ _)) by word_lia. done.
      - destruct (Z.ltb_spec k n); [done|]. apply Hz. word_lia. }
    destruct (Z.eqb_spec (k / 8) (n / 8)) as [E|E].
    + unfold v'. rewrite testbit_mark, Hbit by (lia || done).
      destruct (Z.ltb_spec k n), (Z.eqb_spec k n); try lia; cbn [andb orb]; by rewrite ?andb_false_r, ?orb_false_r, ?andb_true_r.
    + assert (k < n) by word_lia. rewrite (proj2 (Z.ltb_lt _ _)) by lia.
      unfold m1. destruct fresh; [|done]. rewrite mask_bit_insert by lia. by rewrite (proj2 (Z.eqb_neq _ _)) by done.
Qed.

(** ** Pixels and runs *)

(** Five pixels in a row that take turns between two colors. *)
Fixpoint alternates (l : list Z) : bool :=
  match l with
  | a :: ((b :: c :: d :: e :: _) as l') =>
      negb (e =? d) && (e =? c) && (d =? b) && (c =? a) || alternates l'
  | _ => false
  end.

Lemma alternates_nth l j : alternates l = false -> (j + 4 < length l)%nat ->
  let at_ k := nth (j + k) l 0 in
  at_ 4%nat <> at_ 3%nat -> at_ 4%nat = at_ 2%nat -> at_ 3%nat = at_ 1%nat -> at_ 2%nat = at_ 0%nat -> False.
Proof.
  revert j. induction l as [|a l IH]; intros j Ha Hj at_; [simpl in Hj; lia|].
  destruct l as [|b [|c [|d [|e l]]]]; try (simpl in Hj; lia).
  cbn [alternates] in Ha. apply orb_false_iff in Ha as [Ha Hl]. destruct j as [|j].
  - unfold at_. cbn [nth Nat.add]. intros. lia.
  - apply (IH j Hl). cbn [length] in *. lia.
Qed.

Section Encoded.
Variables (w : Z) (P : list Z) (ocap tcap : Z).
Hypothesis w_pos : 0 < w.
Hypothesis P_u16 : Forall is_u16 P.
Hypothesis P_small : 2 * zlen P < 32768.
Hypothesis calm : alternates (0 :: P) = false.
#[local] Abbreviation N := (zlen P).
Hypothesis ocap_ok : 2 * N + 3 <= ocap.
Hypothesis tcap_ok : 2 * N <= tcap.

(** The pixel at a place, and the one above it; black in front of the bitmap. *)
Definition pel (i : Z) : Z := if i <? 0 then 0 else nth (Z.to_nat i) P 0.
Definition up (i : Z) : Z := if i <? w then 0 else pel (i - w).

Definition fillp (i : Z) : bool := (i <? N) && (pel i =? up i).
Definition mixp (i : Z) : bool := (i <? N) && (pel i =? Z.lxor (up i) white).
Definition fomp (i : Z) : bool := fillp i || mixp i.
Definition samep (i : Z) : bool := pel i =? pel (i - 1).

Lemma pel_u16 i : is_u16 (pel i).
Proof.
  unfold pel. zcase; [done|]. destruct (nth_lookup_or_length P (Z.to_nat i) 0) as [E|E].
  - by apply (Forall_lookup_1 _ _ _ _ P_u16) in E.
  - by rewrite nth_overflow.
Qed.

Lemma calm_at i : 3 <= i < N -> pel i <> pel (i - 1) -> pel i = pel (i - 2) -> pel (i - 1) = pel (i - 3) ->
  pel (i - 2) = pel (i - 4) -> False.
Proof.
  intros Hi. assert (forall k, -1 <= k -> pel k = nth (Z.to_nat (k + 1)) (0 :: P) 0) as E.
  { intros k Hk. unfold pel. zcase.
    - by replace k with (-1) by lia.
    - by replace (Z.to_nat (k + 1)) with (S (Z.to_nat k)) by lia. }
  rewrite !E by lia. intros.
  apply (alternates_nth (0 :: P) (Z.to_nat (i - 3)) calm); cbn [length]; unfold zlen in *; try lia.
  all: replace (Z.to_nat (i - 3) + 4)%nat with (Z.to_nat (i + 1)) by lia;
    replace (Z.to_nat (i - 3) + 3)%nat with (Z.to_nat (i - 1 + 1)) by lia;
    replace (Z.to_nat (i - 3) + 2)%nat with (Z.to_nat (i - 2 + 1)) by lia;
    replace (Z.to_nat (i - 3) + 1)%nat with (Z.to_nat (i - 3 + 1)) by lia;
    replace (Z.to_nat (i - 3) + 0)%nat with (Z.to_nat (i - 4 + 1)) by lia; done.
Qed.

Lemma ztake_pel m : 0 <= m < N -> ztake (m + 1) P = ztake m P ++ [pel m].
Proof.
  intros Hm. rewrite <- (ztake_slice m 1 P) by lia. f_equal. unfold pel, slice.
  replace (m <? 0) with false by lia. apply list_eq. intros i. unfold ztake, zdrop.
  change (Z.to_nat 1) with 1%nat. destruct i as [|i].
  - rewrite lookup_take_lt, lookup_drop, Nat.add_0_r by lia. cbn.
    destruct (nth_lookup_or_length P (Z.to_nat m) 0) as [E|E]; [exact E|unfold zlen in Hm; lia].
  - by rewrite lookup_take_ge by lia.
Qed.

Lemma above_up (b : bool) m : 0 <= m <= N -> (if b then m < w else w <= m) -> above w b (ztake m P) = up m.
Proof.
  intros Hm Hb. unfold above, up. destruct b.
  - by replace (m <? w) with true by lia.
  - replace (m <? w) with false by lia. rewrite zlen_ztake by lia. unfold pel.
    replace (m - w <? 0) with false by lia. unfold ztake. rewrite !nth_lookup, lookup_take_lt by lia. done.
Qed.

(** ** Drawing the next pixels *)

Lemma draw_prefix (b : bool) ts m : 0 <= m -> m + zlen ts <= N ->
  (forall k t, ts !! k = Some t ->
     ink (above w b (ztake (m + Z.of_nat k) P)) t = pel (m + Z.of_nat k)) ->
  draw w b ts (ztake m P) = ztake (m + zlen ts) P.
Proof.
  revert m. induction ts as [|t ts IH]; intros m Hm Hl Hk; [by rewrite Z.add_0_r|].
  rewrite zlen_cons in *. pose proof (zlen_nonneg ts). cbn [draw].
  pose proof (Hk O t eq_refl) as H0. rewrite Z.add_0_r in H0. rewrite H0, <- ztake_pel by lia.
  rewrite IH; [f_equal; lia|lia|lia|]. intros k t' Ht'.
  replace (m + 1 + Z.of_nat k) with (m + Z.of_nat (S k)) by lia. by apply Hk.
Qed.

(** The picture of the first [m] pixels. *)
Record sound (p : picture) (m : Z) : Prop := mkSound {
  sound_px : px p = ztake m P;
  sound_fg : fg p = white;
  sound_first : first (next_row w p) = (m <? w);
  sound_ins : ins (next_row w p) = true -> fillp m = false
}.

Lemma sound_blank : sound (blank depth16) 0.
Proof.
  assert (next_row w (blank depth16) = blank depth16) as E
    by (unfold next_row; change (zlen (px (blank depth16))) with 0; rewrite (proj2 (Z.leb_gt w 0)) by lia; done).
  split; rewrite ?E; cbn; [done|done|lia|done].
Qed.

Lemma next_row_px p : px (next_row w p) = px p /\ fg (next_row w p) = fg p.
Proof. unfold next_row. by destruct (_ && _). Qed.

Lemma sound_step p m n o ts : sound p m -> 0 <= m -> 0 < n -> m + n <= N ->
  order_dots white (ins (next_row w p)) o = Some ts -> zlen ts = n -> order_fg white o = white ->
  (forall k t, ts !! k = Some t ->
     ink (above w (m <? w) (ztake (m + Z.of_nat k) P)) t = pel (m + Z.of_nat k)) ->
  (is_bg o = true -> fillp (m + n) = false \/ m < w /\ m + n = w) ->
  exists p', draw_order w o p = Some p' /\ sound p' (m + n).
Proof.
  intros [Hp Hf H1 Hi] Hm Hn Hmn Ho Hl Hfg Hd Hbg. destruct (next_row_px p) as [Epx Efg].
  unfold draw_order. rewrite Efg, Hf, Ho, Epx, Hp, H1, Hfg, (draw_prefix _ ts m), Hl by (done || lia).
  eexists. split; [done|]. set (p' := mkPicture _ _ _ _).
  assert (zlen (px p') = m + n) as Ez by (cbn; rewrite zlen_ztake; lia).
  assert (next_row w p' = if (m <? w) && (w <=? m + n) then mkPicture (px p') white false false else p') as En
    by (unfold next_row; rewrite Ez; done).
  split; [done|done|rewrite En|rewrite En]; destruct (Z.ltb_spec m w), (Z.leb_spec w (m + n)); cbn; try lia; try done.
  - intros E. destruct (Hbg E) as [?|[? ?]]; [done|lia].
  - intros E. destruct (Hbg E) as [?|[? ?]]; [done|lia].
Qed.

(** A run of pixels with a property, in the first row or behind it. *)
Definition regime (fl : bool) (i n : Z) : Prop := if fl then i <= w else w <= i - n.

Lemma same_row fl i n t : regime fl i n -> i - n <= t < i -> if i - n <? w then t < w else w <= t.
Proof. unfold regime. intros Hr Ht. destruct fl; destruct (Z.ltb_spec (i - n) w); lia. Qed.

Lemma draws_fill fl i n p : sound p (i - n) -> 0 < n <= i -> i <= N -> regime fl i n ->
  (forall t, i - n <= t < i -> fillp t = true) -> fillp i = false \/ fl = true /\ i = w ->
  exists p', draw_order w (Bg n) p = Some p' /\ sound p' i.
Proof.
  intros Hp Hn Hi Hr Hq Hnext.
  assert (ins (next_row w p) = false) as Hins.
  { destruct (ins (next_row w p)) eqn:E; [|done]. pose proof (sound_ins _ _ Hp E) as Hx.
    by rewrite Hq in Hx by lia. }
  assert (i = i - n + n) as Ei by lia. rewrite Ei.
  eapply (sound_step p (i - n) n); [done|lia|lia|lia|cbn; rewrite Hins; done|apply zlen_replicate; lia|done| |].
  - intros k t Hk. apply lookup_replicate in Hk as [-> Hk]. cbn [ink].
    rewrite above_up by first [lia | apply (same_row fl i n); [done|lia]].
    pose proof (Hq (i - n + Z.of_nat k) ltac:(lia)) as Hf. unfold fillp in Hf. lia.
  - intros _. rewrite <- Ei. destruct Hnext as [?|[-> ?]]; [by left|right]. cbn in Hr. lia.
Qed.

Lemma draws_mix fl i n p : sound p (i - n) -> 0 < n <= i -> i <= N -> regime fl i n ->
  (forall t, i - n <= t < i -> mixp t = true) ->
  exists p', draw_order w (Fg None n) p = Some p' /\ sound p' i.
Proof.
  intros Hp Hn Hi Hr Hq. assert (i = i - n + n) as Ei by lia. rewrite Ei.
  eapply (sound_step p (i - n) n); [done|lia|lia|lia|done|apply zlen_replicate; lia|done| |done].
  intros k t Hk. apply lookup_replicate in Hk as [-> Hk]. cbn [ink default].
  rewrite above_up by first [lia | apply (same_row fl i n); [done|lia]].
  pose proof (Hq (i - n + Z.of_nat k) ltac:(lia)) as Hf. unfold mixp in Hf. cbn. lia.
Qed.

Lemma draws_color i n p : sound p (i - n) -> 0 < n <= i -> i <= N ->
  (forall t, i - n <= t < i -> pel t = pel (i - 1)) ->
  exists p', draw_order w (RleSpec.Color (pel (i - 1)) n) p = Some p' /\ sound p' i.
Proof.
  intros Hp Hn Hi Hq. assert (i = i - n + n) as Ei by lia. set (v := pel (i - 1)) in *. clearbody v. rewrite Ei.
  eapply (sound_step p (i - n) n); [done|lia|lia|lia|done|apply zlen_replicate; lia|done| |done].
  intros k t Hk. apply lookup_replicate in Hk as [-> Hk]. cbn [ink]. symmetry. apply Hq. lia.
Qed.

Lemma draws_pixels m n p : sound p m -> 0 <= m -> 0 < n -> m + n <= N ->
  exists p', draw_order w (Pixels (slice m n P)) p = Some p' /\ sound p' (m + n).
Proof.
  intros Hp Hm Hn Hi.
  eapply (sound_step p m n); [done|lia|lia|lia|done| |done| |done].
  - unfold zlen. rewrite length_map. apply zlen_slice; lia.
  - intros k t Hk. rewrite list_lookup_fmap in Hk. destruct (slice m n P !! k) as [v|] eqn:E; [|done].
    injection Hk as <-. cbn [ink]. unfold slice, ztake, zdrop in E.
    pose proof (lookup_lt_Some _ _ _ E) as Hlt. rewrite length_take in Hlt.
    rewrite lookup_take_lt, lookup_drop in E by lia. unfold pel.
    replace (m + Z.of_nat k <? 0) with false by lia. symmetry. apply nth_lookup_Some.
    by replace (Z.to_nat (m + Z.of_nat k)) with (Z.to_nat m + k)%nat by lia.
Qed.

Lemma draws_fom fl i n mask p : sound p (i - n) -> 0 < n <= i -> i <= N -> regime fl i n ->
  (forall k, 0 <= k < n -> fomp (i - n + k) = true /\ mask_bit mask k = mixp (i - n + k)) ->
  exists p', draw_order w (FgBg None n mask) p = Some p' /\ sound p' i.
Proof.
  intros Hp Hn Hi Hr Hq. assert (i = i - n + n) as Ei by lia. rewrite Ei.
  eapply (sound_step p (i - n) n); [done|lia|lia|lia|done| |done| |done].
  - unfold zlen. rewrite length_map, length_seqZ. lia.
  - intros k t Hk. rewrite list_lookup_fmap in Hk.
    destruct (seqZ 0 n !! k) as [v|] eqn:E; [|done]. apply lookup_seqZ in E as [-> Hk']. injection Hk as <-.
    destruct (Hq (0 + Z.of_nat k) ltac:(lia)) as [Hf ->]. rewrite Z.add_0_l in *. cbn [default].
    rewrite above_up by first [lia | apply (same_row fl i n); [done|lia]].
    unfold fomp in Hf. destruct (mixp _) eqn:Em; cbn [fgbg_dot ink].
    + unfold mixp in Em. cbn. lia.
    + rewrite orb_false_r in Hf. unfold fillp in Hf. lia.
Qed.

(** ** The state of the encoder *)

(** The orders so far, and the pixels that wait; [i] pixels were read. *)
Record core (i : Z) (c : compressor) : Prop := mkCore {
  core_i : 0 <= i <= N;
  core_waiting : 0 <= waiting c <= i;
  core_out : wf (out c) /\ capacity (out c) = ocap;
  core_temp : wf (temp c) /\ capacity (temp c) = tcap;
  core_drawn : exists p, drawing depth16 w (written (out c)) (blank depth16) p /\ sound p (i - waiting c);
  core_len : pointer (out c) <= 2 * (i - waiting c);
  core_px : ztake (2 * waiting c) (buffer (temp c)) = bytes_px depth16 (slice (i - waiting c) (waiting c) P);
  core_last : last_pixel c = pel (i - 1)
}.

Definition run (Q : Z -> bool) (fl : bool) (i n : Z) (c : compressor) : Prop :=
  0 <= n <= waiting c /\ regime fl i n /\ forall t, i - n <= t < i -> Q t = true.

(** What the counts say of the last pixels. *)
Record runs (fl : bool) (i : Z) (c : compressor) : Prop := mkRuns {
  runs_fill : run fillp fl i (fill_count (counts c)) c;
  runs_mix : run mixp fl i (mix_count (counts c)) c;
  runs_color : 0 <= color_count (counts c) <= waiting c
    /\ forall t, i - color_count (counts c) <= t < i -> samep t = true;
  runs_bicolor : let k := bicolor_count (counts c) in
    let b := bicolor_spin (counts c) in
    0 <= k <= 3 /\ k <= i
    /\ (0 < k -> pel (i - 1) <> pel (i - 2)
                 /\ pel (i - 1) = (if b then bicolor1 c else bicolor2 c)
                 /\ pel (i - 2) = (if b then bicolor2 c else bicolor1 c)
                 /\ forall t, i - k < t < i -> pel t = pel (t - 2));
  runs_fom : run fomp fl i (fom_count (counts c)) c;
  runs_bits : fom_mask_len (counts c) = (fom_count (counts c) + 7) / 8
    /\ forall k, 0 <= k < 8 * fom_mask_len (counts c) ->
         mask_bit (fom_mask c) k = (k <? fom_count (counts c)) && mixp (i - fom_count (counts c) + k);
  runs_mask : zlen (fom_mask c) = 8192 /\ bytes (fom_mask c)
}.

Record encodes (fl : bool) (i : Z) (c : compressor) : Prop := mkEncodes {
  encodes_core : core i c;
  encodes_runs : runs fl i c;
  encodes_row : regime fl i 0;
  encodes_temp : pointer (temp c) = 2 * waiting c
}.

Lemma run_none Q fl i c : 0 <= waiting c -> regime fl i 0 -> run Q fl i 0 c.
Proof. intros. split; [lia|]. split; [done|]. intros. lia. Qed.

Lemma runs_none fl i c : core i c -> regime fl i 0 -> counts c = reset_counts ->
  zlen (fom_mask c) = 8192 -> bytes (fom_mask c) -> runs fl i c.
Proof.
  intros Hc Hr E Hm Hb. pose proof (core_waiting _ _ Hc). pose proof (core_i _ _ Hc). assert (0 <= waiting c) by lia.
  split; rewrite ?E; cbn [reset_counts fill_count mix_count color_count bicolor_count fom_count fom_mask_len].
  - by apply run_none.
  - by apply run_none.
  - split; [lia|]. intros. lia.
  - repeat split; lia.
  - by apply run_none.
  - split; [done|]. intros. lia.
  - done.
Qed.

(** Everything that waits before the last [x] pixels is written as it is. *)
Lemma core_copy i c x : core i c -> 0 <= x <= waiting c ->
  exists c', out_copy_count e16 (set_waiting (waiting c - x) c) = Ret tt c'
    /\ c' = mkCompressor (out c') (set_pointer 0 (temp c)) (counts c) (fom_mask c) 0 (last_pixel c)
              (last_ypixel c) (bicolor1 c) (bicolor2 c)
    /\ wf (out c') /\ capacity (out c') = capacity (out c)
    /\ pointer (out c') <= 2 * (i - x) + 3
    /\ (exists p, drawing depth16 w (written (out c')) (blank depth16) p /\ sound p (i - x)).
Proof.
  intros [Hi Hw [Ho Hoc] [Ht Htc] (p & Hd & Hp) Hl Hpx Hlast] Hx.
  set (m := i - waiting c) in *. set (vs := slice m (waiting c - x) P).
  assert (zlen vs = waiting c - x) as Hvs by (apply zlen_slice; lia).
  pose proof (image_bytes_len vs) as Hib.
  assert (Forall (pixel_ok depth16) vs) as Hv by (apply Forall_slice; exact P_u16).
  assert (bytes (image_bytes vs)) as Hbb by (apply image_bytes_bytes; lia).
  rewrite (copy_ok _ vs); cbn [waiting out temp set_waiting]; try done; try lia.
  2: { rewrite Hvs. replace (2 * (waiting c - x)) with (Z.min (2 * (waiting c - x)) (2 * waiting c)) by lia.
       rewrite <- ztake_ztake, Hpx by lia. unfold vs.
       replace (waiting c) with (waiting c - x + x) at 2 by lia. rewrite (slice_split m), (bytes_px_app depth16) by lia.
       pose proof (bytes_px_len depth16 (slice m (waiting c - x) P)) as Hbl. fold vs in Hbl. rewrite Hvs in Hbl.
       change (PIXEL_SIZE depth16) with 2 in Hbl. fold vs.
       rewrite ztake_app_le, ztake_all by lia. done. }
  eexists. split; [done|]. cbn [out set_waiting set_temp set_out]. split; [done|].
  assert (pointer (out c) + zlen (image_bytes vs) <= capacity (out c)) as Hroom by lia.
  split; [by apply wf_put|]. split; [done|]. split; [cbn; lia|].
  destruct (appended_put _ _ Ho Hbb Hroom) as (_ & -> & _).
  destruct (Z.eq_dec x (waiting c)) as [->|Hne].
  - replace vs with (@nil Z) by (symmetry; apply zlen_zero_inv; lia). cbn [image_bytes]. rewrite app_nil_r.
    exists p. split; [done|]. exact Hp.
  - destruct (draws_pixels m (waiting c - x) p Hp) as (p' & Hp1 & Hp2); [lia..|].
    exists p'. replace (i - x) with (m + (waiting c - x)) by lia. split; [|done].
    eapply drawing_snoc; [done| |exact Hp1]. fold vs.
    rewrite image_bytes_some by lia. apply (reads_pixels depth16); [lia|done].
Qed.

(** [m] writes an order that draws the last [x] pixels. *)
Definition writes_run (i x : Z) (m : M wStream unit) : Prop :=
  exists bs o, writes m bs /\ zlen bs <= 2 * x - 3 /\ reads_as depth16 bs o
    /\ forall p, sound p (i - x) -> exists p', draw_order w o p = Some p' /\ sound p' i.

Lemma put_run_draws i c x m : core i c -> 4 <= x <= waiting c -> writes_run i x m ->
  exists c', put_run e16 x (on_out m) c = Ret tt c' /\ core i c' /\ counts c' = reset_counts
    /\ fom_mask c' = fom_mask c /\ waiting c' = 0 /\ pointer (temp c') = 0.
Proof.
  intros Hc Hx (bs & o & Hm & Hbs & Hr & Hd). unfold put_run. rewrite get_bind, guard_bind, modify_bind by lia.
  destruct (core_copy i c x Hc ltac:(lia)) as (c1 & E & Ec1 & Ho & Hcap & Hl & (p & Hdr & Hp)).
  rewrite (bind_ret_eq _ _ _ _ _ E). destruct Hc as [Hi Hw [_ Hoc] [Ht Htc] _ _ _ Hlast].
  assert (pointer (out c1) + zlen bs <= capacity (out c1)) as Hroom by lia.
  rewrite (bind_ret_eq _ _ _ _ _ (on_out_writes _ _ _ Hm Ho Hroom)).
  eexists. split; [done|]. rewrite Ec1. cbn [set_counts set_out counts fom_mask waiting temp pointer set_pointer].
  split; [|done]. destruct (Hd p Hp) as (p' & Hp1 & Hp2). destruct (appended_put _ _ Ho (proj1 Hm) Hroom) as (? & Hwr & Hpt).
  split; cbn [out temp waiting last_pixel set_counts set_out].
  - done.
  - lia.
  - split; [done|]. cbn. lia.
  - split; [|done]. destruct Ht. split; cbn; lia || done.
  - exists p'. rewrite Hwr, Z.sub_0_r. split; [|done]. by eapply drawing_snoc.
  - rewrite Hpt. lia.
  - by rewrite Z.mul_0_r, Z.sub_0_r, slice_zero.
  - done.
Qed.

(** ** Runs that end *)

Lemma dominant_gt x k : dominant x k = true -> 4 <= x.
Proof. unfold dominant. intros [H _]%andb_true_iff. lia. Qed.

Definition flushed (fl : bool) (i : Z) (c c' : compressor) : Prop :=
  encodes fl i c' /\ (c' = c \/ counts c' = reset_counts).

Lemma encodes_reset fl i c c' : encodes fl i c -> core i c' -> counts c' = reset_counts ->
  fom_mask c' = fom_mask c -> waiting c' = 0 -> pointer (temp c') = 0 -> flushed fl i c c'.
Proof.
  intros [Hc Hr Hrow Ht] Hc' Ek Em Ew Et. destruct (runs_mask _ _ _ Hr) as [Hm Hb].
  split; [|by right]. split; [done| |done|lia]. apply runs_none; try done; by rewrite Em.
Qed.

Lemma flush_ok fl i c x m : encodes fl i c -> x <= waiting c /\ (4 <= x -> writes_run i x m) ->
  exists c', (if dominant x (counts c) then put_run e16 x (on_out m) else mret tt) c = Ret tt c' /\ flushed fl i c c'.
Proof.
  intros He [Hx Hd]. destruct (dominant x (counts c)) eqn:E.
  - apply dominant_gt in E.
    destruct (put_run_draws i c x m) as (c' & E' & Hc' & Hk & Hm' & Hw & Ht); [apply He|lia|auto|].
    exists c'. split; [done|]. by apply encodes_reset.
  - exists c. split; [done|]. split; [done|by left].
Qed.

Lemma encodes_range fl i c : encodes fl i c -> 0 <= waiting c <= i /\ 0 <= i <= N /\ N < 16384.
Proof. intros [[] _ _ _]. lia. Qed.

Lemma fill_order fl i c : encodes fl i c -> fillp i = false \/ fl = true /\ i = w ->
  fill_count (counts c) <= waiting c
  /\ (4 <= fill_count (counts c) -> writes_run i (fill_count (counts c)) (out_fill_count (fill_count (counts c)))).
Proof.
  intros He Hn. pose proof (encodes_range _ _ _ He).
  destruct (runs_fill _ _ _ (encodes_runs _ _ _ He)) as ([? ?] & Hr & Hq). set (n := fill_count (counts c)) in *.
  split; [done|]. intros Hx. exists (head 0x00 32 0xf0 n), (Bg n). split; [apply writes_fill; lia|].
  split; [pose proof (head_len 0x00 0xf0 n); lia|].
  split; [apply reads_bg; lia|]. intros p Hp. by apply (draws_fill fl); try done; lia.
Qed.

Lemma mix_order fl i c : encodes fl i c -> mix_count (counts c) <= waiting c
  /\ (4 <= mix_count (counts c) -> writes_run i (mix_count (counts c)) (out_counts_mix_count (mix_count (counts c)))).
Proof.
  intros He. pose proof (encodes_range _ _ _ He).
  destruct (runs_mix _ _ _ (encodes_runs _ _ _ He)) as ([? ?] & Hr & Hq). set (n := mix_count (counts c)) in *.
  split; [done|]. intros Hx. exists (head 0x20 32 0xf1 n), (Fg None n). split; [apply writes_mix; lia|].
  split; [pose proof (head_len 0x20 0xf1 n); lia|].
  split; [apply reads_fg; lia|]. intros p Hp. by apply (draws_mix fl); try done; lia.
Qed.

(** Pixels that are each like the one in front of them are all alike. *)
Lemma same_run i n : (forall t, i - n <= t < i -> samep t = true) ->
  forall t, i - n <= t < i -> pel t = pel (i - 1).
Proof.
  intros Hs t Ht. remember (Z.to_nat (i - 1 - t)) as k eqn:Ek. revert t Ht Ek.
  induction k as [|k IH]; intros t Ht Ek; [f_equal; lia|].
  rewrite <- (IH (t + 1)) by lia. pose proof (Hs (t + 1) ltac:(lia)) as E. unfold samep in E.
  replace (t + 1 - 1) with t in E by lia. lia.
Qed.

Lemma color_order fl i c : encodes fl i c -> color_count (counts c) <= waiting c
  /\ (4 <= color_count (counts c) ->
      writes_run i (color_count (counts c)) (out_color_count e16 (color_count (counts c)) (last_pixel c))).
Proof.
  intros He. pose proof (encodes_range _ _ _ He).
  destruct (runs_color _ _ _ (encodes_runs _ _ _ He)) as ([? ?] & Hq).
  rewrite (core_last _ _ (encodes_core _ _ _ He)). set (n := color_count (counts c)) in *.
  split; [done|]. intros Hx. exists (head 0x60 32 0xf3 n ++ write_pixel_16 (pel (i - 1))), (RleSpec.Color (pel (i - 1)) n).
  split; [apply writes_color; [lia|apply pel_u16]|].
  split; [rewrite zlen_app; change (zlen (write_pixel_16 _)) with 2; pose proof (head_len 0x60 0xf3 n); lia|].
  split; [apply (reads_color depth16); [lia|apply pel_u16]|].
  intros p Hp. apply draws_color; try done; try lia. by apply same_run.
Qed.

Lemma fom_order fl i c : encodes fl i c -> fom_count (counts c) <= waiting c
  /\ (4 <= fom_count (counts c) ->
      writes_run i (fom_count (counts c)) (out_from_count (fom_count (counts c)) (fom_mask c) (fom_mask_len (counts c)))).
Proof.
  intros He. pose proof (encodes_range _ _ _ He).
  destruct (runs_fom _ _ _ (encodes_runs _ _ _ He)) as ([? ?] & Hr & Hq).
  destruct (runs_bits _ _ _ (encodes_runs _ _ _ He)) as (El & Hbits).
  destruct (runs_mask _ _ _ (encodes_runs _ _ _ He)) as (Hm & Hb). rewrite El in *.
  set (n := fom_count (counts c)) in *. assert (0 <= (n + 7) / 8 <= 8192) by word_lia.
  set (mask := ztake ((n + 7) / 8) (fom_mask c)).
  assert (zlen mask = (n + 7) / 8) as Hl by (apply zlen_ztake; lia).
  split; [done|]. intros Hx. exists (fom_head n ++ mask), (FgBg None n mask).
  split; [apply writes_fom; [lia|done|lia]|].
  split; [rewrite zlen_app, Hl; pose proof (fom_head_len n); word_lia|].
  split; [apply reads_fom; [lia|done]|].
  intros p Hp. apply (draws_fom fl); try done; try lia. intros k Hk. split; [apply Hq; lia|].
  unfold mask. rewrite mask_bit_take, Hbits by word_lia. by rewrite (proj2 (Z.ltb_lt _ _)) by lia.
Qed.

Lemma flush_fill_ok fl i c : encodes fl i c -> fillp i = false \/ fl = true /\ i = w ->
  exists c', flush_fill e16 c = Ret tt c' /\ flushed fl i c c'.
Proof. intros He Hn. apply flush_ok; [done|by apply (fill_order fl)]. Qed.

Lemma flush_mix_ok fl i c : encodes fl i c -> exists c', flush_mix e16 c = Ret tt c' /\ flushed fl i c c'.
Proof. intros He. apply flush_ok; [done|by apply (mix_order fl)]. Qed.

Lemma flush_color_ok fl i c : encodes fl i c -> exists c', flush_color e16 c = Ret tt c' /\ flushed fl i c c'.
Proof. intros He. apply flush_ok; [done|by apply (color_order fl)]. Qed.

Lemma flush_fom_ok fl i c : encodes fl i c -> exists c', flush_fom e16 c = Ret tt c' /\ flushed fl i c c'.
Proof. intros He. apply (flush_ok fl i c); [done|by apply (fom_order fl)]. Qed.

Lemma flush_bicolor_ok fl i c : encodes fl i c -> flush_bicolor e16 c = Ret tt c.
Proof.
  intros He. destruct (runs_bicolor _ _ _ (encodes_runs _ _ _ He)) as (Hk & _).
  unfold flush_bicolor. rewrite get_bind. unfold dominant.
  by replace (3 <? bicolor_count (counts c)) with false by lia.
Qed.

(** ** Counts that are set back *)

Lemma core_counts i c k : core i c -> core i (set_counts k c).
Proof. intros []. by split. Qed.

Lemma encodes_fill_0 fl i c : encodes fl i c -> encodes fl i (set_counts (set_fill 0 (counts c)) c).
Proof.
  intros He. pose proof (encodes_range _ _ _ He) as [[? _] _]. destruct He as [Hc [] Hr Ht].
  split; [by apply core_counts| |done..]. split; cbn; try done. by apply run_none.
Qed.

Lemma encodes_mix_0 fl i c : encodes fl i c -> encodes fl i (set_counts (set_mix 0 (counts c)) c).
Proof.
  intros He. pose proof (encodes_range _ _ _ He) as [[? _] _]. destruct He as [Hc [] Hr Ht].
  split; [by apply core_counts| |done..]. split; cbn; try done. by apply run_none.
Qed.

Lemma encodes_color_0 fl i c : encodes fl i c -> encodes fl i (set_counts (set_color 0 (counts c)) c).
Proof.
  intros He. pose proof (encodes_range _ _ _ He) as [[? _] _]. destruct He as [Hc [] Hr Ht].
  split; [by apply core_counts| |done..]. split; cbn; try done. split; [lia|]. intros. lia.
Qed.

Lemma encodes_fom_0 fl i c : encodes fl i c -> encodes fl i (set_counts (set_fom 0 0 (counts c)) c).
Proof.
  intros He. pose proof (encodes_range _ _ _ He) as [[? _] _]. destruct He as [Hc [] Hr Ht].
  split; [by apply core_counts| |done..]. split; cbn; try done; [by apply run_none|].
  split; [done|]. intros. lia.
Qed.

Lemma encodes_bicolor_0 fl i c a b : encodes fl i c ->
  encodes fl i (set_bicolors a b (set_counts (set_bicolor 0 false (counts c)) c)).
Proof.
  intros He. pose proof (encodes_range _ _ _ He) as [[? ?] [? _]]. destruct He as [[] [] Hr Ht].
  split; [by split| |done..]. split; cbn; try done. repeat split; lia.
Qed.

(** Nothing that ended starts again before the next pixel. *)
Record settles (c c' : compressor) : Prop := mkSettles {
  settles_fill : fill_count (counts c) = 0 -> fill_count (counts c') = 0;
  settles_mix : mix_count (counts c) = 0 -> mix_count (counts c') = 0;
  settles_color : color_count (counts c) = 0 -> color_count (counts c') = 0;
  settles_fom : fom_count (counts c) = 0 -> fom_count (counts c') = 0;
  settles_bicolor : bicolor_count (counts c') = 0
    \/ bicolor_count (counts c') = bicolor_count (counts c)
       /\ forall v, test_bicolor v c' = test_bicolor v c
}.

#[local] Instance settles_preorder : PreOrder settles.
Proof.
  split.
  - intros c. split; auto.
  - intros a b c [] []. split; auto. destruct settles_bicolor1 as [?|[E Ht]]; [by left|].
    destruct settles_bicolor0 as [?|[E' Ht']]; [left; lia|right]. split; [lia|].
    intros v. by rewrite Ht, Ht'.
Qed.

Lemma settles_same c k : bicolor_spin k = bicolor_spin (counts c) -> bicolor_count k = bicolor_count (counts c) ->
  (fill_count (counts c) = 0 -> fill_count k = 0) -> (mix_count (counts c) = 0 -> mix_count k = 0) ->
  (color_count (counts c) = 0 -> color_count k = 0) -> (fom_count (counts c) = 0 -> fom_count k = 0) ->
  settles c (set_counts k c).
Proof.
  intros Hs Hb. split; cbn; auto. right. split; [done|]. intros v. unfold test_bicolor. cbn. by rewrite Hs.
Qed.

Lemma settles_flushed fl i c c' : flushed fl i c c' -> settles c c'.
Proof. intros [_ [->|E]]; [done|]. split; rewrite ?E; auto. Qed.

(** One of the runs that a pixel may end. *)
Lemma stage_ok (b : bool) flush f fl i c : encodes fl i c ->
  (b = false -> exists c1, flush c = Ret tt c1 /\ flushed fl i c c1) ->
  (forall c1, encodes fl i c1 -> encodes fl i (set_counts (f (counts c1)) c1) /\ settles c1 (set_counts (f (counts c1)) c1)) ->
  exists c', unless b (flush;; count_with f) c = Ret tt c' /\ encodes fl i c' /\ settles c c'
    /\ (b = false -> exists c1, c' = set_counts (f (counts c1)) c1).
Proof.
  intros He Hf Hk. destruct b; cbn [unless]; [by exists c|].
  destruct (Hf eq_refl) as (c1 & E & Hfl). pose proof (settles_flushed _ _ _ _ Hfl).
  destruct Hfl as [He1 _]. destruct (Hk c1 He1). rewrite (bind_ret_eq _ _ _ _ _ E).
  eexists. split; [done|]. split; [done|]. split; [by transitivity c1|]. eauto.
Qed.

Section Pixel.
Variables (fl : bool) (i : Z).
Hypothesis i_range : 0 <= i < N.
Hypothesis i_row : fl = (i <? w).

Lemma test_fill : TEST_FILL fl (pel i) (up i) = fillp i.
Proof. unfold TEST_FILL, fillp, up. rewrite i_row. by destruct (Z.ltb_spec i w), (Z.ltb_spec i N); lia. Qed.

Lemma test_mix : TEST_MIX e16 fl (pel i) (up i) = mixp i.
Proof.
  unfold TEST_MIX, mixp, up. rewrite i_row. change (e_mix e16) with white.
  by destruct (Z.ltb_spec i w), (Z.ltb_spec i N); rewrite ?Z.lxor_0_l; lia.
Qed.

Lemma test_fom : TEST_FOM e16 fl (pel i) (up i) = fomp i.
Proof. unfold TEST_FOM. by rewrite test_fill, test_mix. Qed.

(** The runs that end at a pixel are written. *)
Record ready (c : compressor) : Prop := mkReady {
  ready_encodes : encodes fl i c;
  ready_fill : fillp i = false -> fill_count (counts c) = 0;
  ready_mix : mixp i = false -> mix_count (counts c) = 0;
  ready_color : samep i = false -> color_count (counts c) = 0;
  ready_bicolor : test_bicolor (pel i) c = false -> bicolor_count (counts c) = 0;
  ready_fom : fomp i = false -> fom_count (counts c) = 0
}.

Lemma bicolor_stage c : encodes fl i c ->
  exists c', unless (test_bicolor (pel i) c)
      (flush_bicolor e16;; count_with (set_bicolor 0 false);; modify (set_bicolors (last_pixel c) (pel i))) c = Ret tt c'
    /\ encodes fl i c' /\ settles c c' /\ (test_bicolor (pel i) c' = false -> bicolor_count (counts c') = 0).
Proof.
  intros He. destruct (test_bicolor (pel i) c) eqn:E; cbn [unless].
  { exists c. by rewrite E. }
  rewrite (bind_ret_eq _ _ _ _ _ (flush_bicolor_ok fl i c He)).
  eexists. split; [done|]. split; [by apply encodes_bicolor_0|]. split; [|done].
  split; cbn; auto.
Qed.

Lemma end_runs_ok c : encodes fl i c ->
  exists c', end_runs e16 fl (pel i) (up i) c = Ret tt c' /\ ready c'.
Proof.
  intros He. unfold end_runs. rewrite test_fill, test_mix, test_fom.
  destruct (stage_ok (fillp i) (flush_fill e16) (set_fill 0) fl i c He) as (c1 & E1 & He1 & Hs1 & Hz1).
  { intros Hf. apply flush_fill_ok; auto. }
  { intros c0 H0. split; [by apply encodes_fill_0|by apply settles_same]. }
  rewrite (bind_ret_eq _ _ _ _ _ E1). clear E1.
  destruct (stage_ok (mixp i) (flush_mix e16) (set_mix 0) fl i c1 He1) as (c2 & E2 & He2 & Hs2 & Hz2).
  { intros _. by apply flush_mix_ok. }
  { intros c0 H0. split; [by apply encodes_mix_0|by apply settles_same]. }
  rewrite (bind_ret_eq _ _ _ _ _ E2), get_bind. clear E2. rewrite (core_last _ _ (encodes_core _ _ _ He2)).
  change (pel i =? pel (i - 1)) with (samep i).
  destruct (stage_ok (samep i) (flush_color e16) (set_color 0) fl i c2 He2) as (c3 & E3 & He3 & Hs3 & Hz3).
  { intros _. by apply flush_color_ok. }
  { intros c0 H0. split; [by apply encodes_color_0|by apply settles_same]. }
  rewrite (bind_ret_eq _ _ _ _ _ E3), get_bind. clear E3.
  destruct (bicolor_stage c3 He3) as (c4 & E4 & He4 & Hs4 & Hz4).
  rewrite (bind_ret_eq _ _ _ _ _ E4). clear E4.
  destruct (stage_ok (fomp i) (flush_fom e16) (set_fom 0 0) fl i c4 He4) as (c5 & E5 & He5 & Hs5 & Hz5).
  { intros _. by apply flush_fom_ok. }
  { intros c0 H0. split; [by apply encodes_fom_0|by apply settles_same]. }
  exists c5. split; [exact E5|]. assert (settles c3 c5) as H35 by by transitivity c4.
  assert (settles c2 c5) as H25 by by transitivity c3. assert (settles c1 c5) as H15 by by transitivity c2.
  split; [done|..].
  - intros H. destruct (Hz1 H) as (c0 & E). apply H15. by rewrite E.
  - intros H. destruct (Hz2 H) as (c0 & E). apply H25. by rewrite E.
  - intros H. destruct (Hz3 H) as (c0 & E). apply H35. by rewrite E.
  - intros H. destruct (settles_bicolor _ _ Hs5) as [?|[E Ht]]; [done|]. rewrite E. apply Hz4. by rewrite <- Ht.
  - intros H. destruct (Hz5 H) as (c0 & ->). done.
Qed.

(** ** Runs that go on *)

Lemma mix_bit : (pel i =? Z.lxor (up i) (e_mix e16)) = mixp i.
Proof. unfold mixp. by rewrite (proj2 (Z.ltb_lt i N)) by lia. Qed.

Lemma unless_count (b : bool) f c :
  unless (negb b) (count_with f) c = Ret tt (set_counts (if b then f (counts c) else counts c) c).
Proof. destruct b; cbn; [done|]. by destruct c. Qed.

(** The counts behind the pixel. *)
Definition counted (tb : bool) (k : struct_count) : struct_count :=
  let inc (b : bool) n := if b then n + 1 else n in
  mkCount (inc tb (bicolor_count k)) (inc (fillp i) (fill_count k)) (inc (samep i) (color_count k))
    (inc (mixp i) (mix_count k)) (inc (fomp i) (fom_count k))
    (if fomp i then fom_count k / 8 + 1 else fom_mask_len k) (if tb then negb (bicolor_spin k) else bicolor_spin k).

Lemma extend_runs_ok c : ready c ->
  exists mask', extend_runs e16 fl (pel i) (up i) c
    = Ret tt (set_mask mask' (set_counts (counted (test_bicolor (pel i) c) (counts c)) c))
    /\ if fomp i then marked (fom_mask c) mask' (fom_count (counts c)) (mixp i) else mask' = fom_mask c.
Proof.
  intros [He _ _ _ _ _]. pose proof (encodes_range _ _ _ He). pose proof (core_last _ _ (encodes_core _ _ _ He)) as Hlast.
  destruct (encodes_runs _ _ _ He) as [[? _] [? _] [? _] (? & _) [? _] [Hlen Hbits] [Hm Hb]].
  unfold extend_runs. rewrite test_fill, test_mix, test_fom, mix_bit.
  rewrite (bind_ret_eq _ _ _ _ _ (unless_count (fillp i) _ _)).
  rewrite (bind_ret_eq _ _ _ _ _ (unless_count (mixp i) _ _)), get_bind. cbn [last_pixel set_counts].
  rewrite Hlast. change (pel i =? pel (i - 1)) with (samep i).
  rewrite (bind_ret_eq _ _ _ _ _ (unless_count (samep i) _ _)), get_bind.
  set (c3 := set_counts _ _). assert (test_bicolor (pel i) c3 = test_bicolor (pel i) c) as ->.
  { unfold test_bicolor, c3. destruct (fillp i), (mixp i), (samep i); done. }
  rewrite (bind_ret_eq _ _ _ _ _ (unless_count (test_bicolor (pel i) c) _ _)).
  set (tb := test_bicolor (pel i) c). set (c4 := set_counts _ _).
  assert (c4 = set_counts (mkCount (bicolor_count (counted tb (counts c))) (fill_count (counted tb (counts c)))
     (color_count (counted tb (counts c))) (mix_count (counted tb (counts c))) (fom_count (counts c))
     (fom_mask_len (counts c)) (bicolor_spin (counted tb (counts c)))) c) as ->.
  { unfold c4, c3, counted. destruct (fillp i), (mixp i), (samep i), tb; destruct c as [? ? [] ? ? ? ? ? ?]; cbn in *;
      unfold set_counts, set_fill, set_mix, set_color, set_bicolor; cbn; repeat f_equal; word_lia. }
  set (c5 := set_counts _ _). destruct (fomp i) eqn:Ef; cbn [negb unless].
  - destruct (fom_mark (mixp i) c5) as (mask' & E & Hmk); cbn [counts fom_mask set_counts c5 fom_count fom_mask_len];
      try done; [lia| |].
    { intros k Hk. rewrite Hbits by lia. by rewrite (proj2 (Z.ltb_ge _ _)) by lia. }
    exists mask'. split; [|exact Hmk]. etransitivity; [exact E|]. unfold c5, counted. rewrite Ef. done.
  - exists (fom_mask c). split; [|done]. unfold c5, counted. rewrite Ef. by destruct c as [? ? [] ? ? ? ? ? ?].
Qed.

Lemma run_next Q n (b : bool) c c' : run Q fl i n c -> waiting c' = waiting c + 1 -> Q i = b ->
  (b = false -> n = 0) -> run Q fl (i + 1) (if b then n + 1 else n) c'.
Proof.
  intros (Hn & Hr & Hq) Hw Hb Hz. unfold run, regime in *. rewrite i_row in *.
  destruct b; (split; [lia|]; split; [destruct (Z.ltb_spec i w); try lia|]).
  - intros t Ht. destruct (Z.eq_dec t i) as [->|]; [done|]. apply Hq. lia.
  - rewrite Hz by done. intros. lia.
Qed.

Lemma core_next c k mask : encodes fl i c ->
  core (i + 1) (mkCompressor (out c) (put (write_pixel_16 (pel i)) (temp c)) k mask (waiting c + 1) (pel i) (up i)
    (bicolor1 c) (bicolor2 c)).
Proof.
  intros [[Hi Hw Ho [Ht Htc] Hd Hl Hpx Hlast] _ _ Hp].
  assert (pointer (temp c) + zlen (write_pixel_16 (pel i)) <= capacity (temp c)) as Hroom
    by (change (zlen (write_pixel_16 _)) with 2; lia).
  destruct (appended_put _ _ Ht (bytes_Write_UINT16 (pel i)) Hroom) as (Hwf & Hwr & Hpt).
  change (winpr_Data_Write_UINT16 (pel i)) with (write_pixel_16 (pel i)) in *.
  split; cbn [out temp waiting last_pixel].
  - lia.
  - lia.
  - done.
  - split; [done|]. cbn. lia.
  - by replace (i + 1 - (waiting c + 1)) with (i - waiting c) by lia.
  - lia.
  - replace (i + 1 - (waiting c + 1)) with (i - waiting c) by lia.
    rewrite slice_split by lia. replace (i - waiting c + waiting c) with i by lia.
    assert (slice i 1 P = [pel i]) as ->.
    { pose proof (ztake_slice i 1 P ltac:(lia) ltac:(lia)) as E. rewrite ztake_pel in E by lia.
      by apply app_inv_head in E. }
    rewrite (bytes_px_app depth16), <- Hpx.
    change (bytes_px depth16 [pel i]) with (write_pixel_16 (pel i) ++ []). rewrite app_nil_r.
    replace (2 * (waiting c + 1)) with (pointer (put (write_pixel_16 (pel i)) (temp c)))
      by (rewrite Hpt, Hp; change (zlen (write_pixel_16 _)) with 2; lia).
    unfold written in Hwr. by rewrite Hwr, Hp.
  - f_equal. lia.
Qed.

(** The bicolor count behind the pixel. *)
Lemma bicolor_next c c' : encodes fl i c -> ready c -> counts c' = counted (test_bicolor (pel i) c) (counts c) ->
  bicolor1 c' = bicolor1 c -> bicolor2 c' = bicolor2 c ->
  let k := bicolor_count (counts c') in
  let b := bicolor_spin (counts c') in
  0 <= k <= 3 /\ k <= i + 1
  /\ (0 < k -> pel (i + 1 - 1) <> pel (i + 1 - 2)
               /\ pel (i + 1 - 1) = (if b then bicolor1 c' else bicolor2 c')
               /\ pel (i + 1 - 2) = (if b then bicolor2 c' else bicolor1 c')
               /\ forall t, i + 1 - k < t < i + 1 -> pel t = pel (t - 2)).
Proof.
  intros He Hr Ek E1 E2. destruct (runs_bicolor _ _ _ (encodes_runs _ _ _ He)) as (Hk & Hki & Hq).
  pose proof (core_last _ _ (encodes_core _ _ _ He)) as Hlast. pose proof (ready_bicolor _ Hr) as Hz.
  rewrite Ek, E1, E2. unfold counted. cbn [bicolor_count bicolor_spin].
  replace (i + 1 - 1) with i by lia. replace (i + 1 - 2) with (i - 1) by lia.
  destruct (test_bicolor (pel i) c) eqn:Et; [|rewrite Hz by done; repeat split; lia].
  unfold test_bicolor in Et. rewrite Hlast in Et. set (n := bicolor_count (counts c)) in *.
  assert (pel i <> pel (i - 1)) as Hne by lia.
  assert (pel i = (if negb (bicolor_spin (counts c)) then bicolor1 c else bicolor2 c)
    /\ pel (i - 1) = (if negb (bicolor_spin (counts c)) then bicolor2 c else bicolor1 c)) as [Ea Eb]
    by (destruct (bicolor_spin (counts c)); cbn [negb andb orb] in *; lia).
  assert (forall t, i - n < t < i + 1 -> pel t = pel (t - 2)) as Hall.
  { intros t Ht. destruct (Z.eq_dec t i) as [->|]; [|apply Hq; lia].
    destruct (Hq ltac:(lia)) as (_ & _ & E & _). rewrite Ea, E. by destruct (bicolor_spin (counts c)). }
  assert (n < 3) as Hn3.
  { destruct (Z.lt_ge_cases n 3); [done|]. exfalso. apply (calm_at i); [lia|done|apply Hall; lia| |].
    - rewrite (Hall (i - 1)) by lia. f_equal. lia.
    - rewrite (Hall (i - 2)) by lia. f_equal. lia. }
  split; [lia|]. split; [lia|]. intros _. split; [done|]. split; [done|]. split; [done|].
  intros t Ht. apply Hall. lia.
Qed.

Lemma runs_next c c' : encodes fl i c -> ready c -> core (i + 1) c' ->
  counts c' = counted (test_bicolor (pel i) c) (counts c) -> waiting c' = waiting c + 1 ->
  bicolor1 c' = bicolor1 c -> bicolor2 c' = bicolor2 c ->
  (if fomp i then marked (fom_mask c) (fom_mask c') (fom_count (counts c)) (mixp i) else fom_mask c' = fom_mask c) ->
  runs fl (i + 1) c'.
Proof.
  intros He Hr Hc Ek Ew E1 E2 Hmk. pose proof (encodes_runs _ _ _ He) as Hru.
  destruct (runs_bits _ _ _ Hru) as [Hlen Hbits]. destruct (runs_mask _ _ _ Hru) as [Hm Hb].
  destruct (runs_fom _ _ _ Hru) as ([Hn0 _] & _). pose proof (ready_fom _ Hr) as Hfz.
  split.
  - rewrite Ek. apply (run_next _ _ _ c); [apply Hru|done|done|apply Hr].
  - rewrite Ek. apply (run_next _ _ _ c); [apply Hru|done|done|apply Hr].
  - rewrite Ek. unfold counted. cbn [color_count]. destruct (runs_color _ _ _ Hru) as [? Hq].
    pose proof (ready_color _ Hr) as Hz. destruct (samep i) eqn:Es.
    + split; [lia|]. intros t Ht. destruct (Z.eq_dec t i) as [->|]; [done|]. apply Hq. lia.
    + rewrite Hz by done. split; [lia|]. intros. lia.
  - by apply (bicolor_next c c').
  - rewrite Ek. apply (run_next _ _ _ c); [apply Hru|done|done|done].
  - rewrite Ek. unfold counted. cbn [fom_count fom_mask_len]. set (n := fom_count (counts c)) in *.
    destruct (fomp i).
    + split; [word_lia|]. destruct Hmk as (_ & _ & Hmk). intros k Hk. rewrite Hmk by lia.
      replace (i + 1 - (n + 1) + k) with (i - n + k) by lia.
      destruct (Z.ltb_spec k n).
      * rewrite Hbits by word_lia. replace (k <? n) with true by lia. by replace (k <? n + 1) with true by lia.
      * destruct (Z.eqb_spec k n) as [->|]; [|by replace (k <? n + 1) with false by lia].
        replace (n <? n + 1) with true by lia. cbn [andb]. f_equal. lia.
    + split; [done|]. rewrite Hlen, Hfz by done. intros k Hk. change ((0 + 7) / 8) with 0 in Hk. lia.
  - destruct (fomp i); [|by rewrite Hmk]. destruct Hmk as (-> & ? & _). done.
Qed.

Lemma compress_pixel_ok c : encodes fl i c ->
  exists c', compress_pixel e16 fl (pel i) (up i) c = Ret tt c' /\ encodes fl (i + 1) c'
    /\ last_ypixel c' = up i.
Proof.
  intros He0. unfold compress_pixel.
  destruct (end_runs_ok c He0) as (c1 & E1 & Hr). rewrite (bind_ret_eq _ _ _ _ _ E1). clear c He0 E1.
  destruct (extend_runs_ok c1 Hr) as (mask' & E2 & Hmk). rewrite (bind_ret_eq _ _ _ _ _ E2). clear E2.
  pose proof (ready_encodes _ Hr) as He. pose proof (encodes_range _ _ _ He).
  set (k := counted _ _) in *. pose proof (core_next c1 k mask' He) as Hcore.
  destruct (core_temp _ _ (encodes_core _ _ _ He)) as [Ht Htc]. pose proof (encodes_temp _ _ _ He) as Hp.
  set (c2 := set_mask mask' (set_counts k c1)).
  assert (on_temp_s (e_write e16 (pel i)) c2 = Ret tt (set_temp (put (write_pixel_16 (pel i)) (temp c1)) c2)) as E3.
  { unfold on_temp_s. destruct (writes_u16 (pel i) (pel_u16 i)) as [_ Hwr].
    change (e_write e16 (pel i)) with (Stream_Write_UINT16 (pel i)). change (temp c2) with (temp c1).
    rewrite Hwr; [done|done|]. change (zlen _) with 2. lia. }
  rewrite (bind_ret_eq _ _ _ _ _ E3), modify_bind. clear E3. cbn [modify].
  eexists. split; [done|]. split; [|done].
  assert (u16 (waiting (set_temp (put (write_pixel_16 (pel i)) (temp c1)) c2) + 1) = waiting c1 + 1) as Ew
    by (cbn; word_lia).
  rewrite Ew. split; [exact Hcore|by apply (runs_next c1)| |].
  - unfold regime. rewrite i_row. destruct (Z.ltb_spec i w); lia.
  - change (pointer (temp c1) + 2 = 2 * (waiting c1 + 1)). lia.
Qed.
End Pixel.

(** ** Rows *)

Section Rows.
Variables (h byte_limit : Z) (data : list Z).
Hypothesis h_pos : 0 < h.
Hypothesis N_eq : N = w * h.
Hypothesis limit_ok : 2 * N < byte_limit.
Hypothesis data_len : 2 * N <= zlen data.
Hypothesis data_px : forall r j, 0 <= r < h -> 0 <= j < w ->
  GETPIXEL16 (slice (2 * w * (h - 1 - r) + j * 2) 2 data) = pel (r * w + j).

(** Where row [r], counted from the bottom, starts. *)
Definition line_of (r : Z) : Z := 2 * w * (h - 1 - r).
Definition last_line_of (r : Z) : option Z := if r =? 0 then None else Some (line_of (r - 1)).

Lemma in_pixel {S} r j last (s : S) : 0 <= r < h -> 0 <= j < w ->
  IN_PIXEL e16 data (Some (line_of r)) j w last s = Ret (pel (r * w + j)) s.
Proof.
  intros Hr Hj. unfold IN_PIXEL. rewrite (proj2 (Z.ltb_lt _ _)) by lia. change (e_step e16) with 2.
  assert (0 <= line_of r) by (unfold line_of; nia).
  assert (line_of r + j * 2 + 2 <= 2 * N) by (unfold line_of; rewrite N_eq; nia).
  rewrite (bind_ret_eq _ _ _ (slice (line_of r + j * 2) 2 data) s) by (apply copy_from_ok; lia).
  change (Ret (GETPIXEL16 (slice (line_of r + j * 2) 2 data)) s = Ret (pel (r * w + j)) s).
  unfold line_of. by rewrite data_px.
Qed.

Lemma in_pixel_above {S} r j last (s : S) : 0 <= r < h -> 0 <= j < w ->
  IN_PIXEL e16 data (last_line_of r) j w last s = Ret (up (r * w + j)) s.
Proof.
  intros Hr Hj. unfold last_line_of, up. destruct (Z.eqb_spec r 0) as [->|Hne].
  - by rewrite (proj2 (Z.ltb_lt _ _)) by lia.
  - rewrite (proj2 (Z.ltb_ge _ _)) by nia. rewrite in_pixel by lia. do 2 f_equal. lia.
Qed.

Lemma compress_row_ok r c : 0 <= r < h -> encodes (r =? 0) (r * w) c ->
  exists c', compress_row e16 data w w (line_of r) (last_line_of r) c = Ret tt c' /\ encodes (r =? 0) (r * w + w) c'.
Proof.
  intros Hr He. unfold compress_row.
  destruct (for_range_inv (fun x c => encodes (r =? 0) (r * w + x) c) (Z.to_nat w) 0
    (fun j => c ← get;
       pixel ← IN_PIXEL e16 data (Some (line_of r)) j w (last_pixel c);
       ypixel ← IN_PIXEL e16 data (last_line_of r) j w (last_ypixel c);
       compress_pixel e16 (match last_line_of r with None => true | Some _ => false end) pixel ypixel) c) as (c' & E & He').
  - intros j s Hj Hs. rewrite get_bind.
    rewrite (bind_ret_eq _ _ _ _ _ (in_pixel r j _ s Hr ltac:(lia))).
    rewrite (bind_ret_eq _ _ _ _ _ (in_pixel_above r j _ s Hr ltac:(lia))).
    assert (match last_line_of r with None => true | Some _ => false end = (r =? 0)) as ->
      by (unfold last_line_of; by destruct (r =? 0)).
    destruct (compress_pixel_ok (r =? 0) (r * w + j)) with (c := s) as (s' & E & He' & _); [..|done|].
    + rewrite N_eq. nia.
    + destruct (Z.eqb_spec r 0); destruct (Z.ltb_spec (r * w + j) w); try nia; done.
    + exists s'. by rewrite <- Z.add_assoc in He'.
  - by rewrite Z.add_0_r.
  - exists c'. split; [done|]. by rewrite Z.add_0_l, Z2Nat.id in He' by lia.
Qed.

(** Behind the first row no run goes on that refers to the row above. *)
Lemma end_first_line_ok c : encodes true w c -> exists c', end_first_line e16 c = Ret tt c' /\ encodes false w c'.
Proof.
  intros He. unfold end_first_line.
  destruct (stage_ok false (flush_fill e16) (set_fill 0) true w c He) as (c1 & E1 & He1 & Hs1 & Hz1).
  { intros _. apply flush_fill_ok; auto. }
  { intros c0 H0. split; [by apply encodes_fill_0|by apply settles_same]. }
  destruct (stage_ok false (flush_mix e16) (set_mix 0) true w c1 He1) as (c2 & E2 & He2 & Hs2 & Hz2).
  { intros _. by apply flush_mix_ok. }
  { intros c0 H0. split; [by apply encodes_mix_0|by apply settles_same]. }
  destruct (stage_ok false (flush_fom e16) (set_fom 0 0) true w c2 He2) as (c3 & E3 & He3 & Hs3 & Hz3).
  { intros _. by apply flush_fom_ok. }
  { intros c0 H0. split; [by apply encodes_fom_0|by apply settles_same]. }
  exists c3. split.
  { cbn [unless] in E1, E2, E3.
    rewrite <- (bind_assoc (flush_fill e16) (fun _ => count_with (set_fill 0))), (bind_ret_eq _ _ _ _ _ E1).
    rewrite <- (bind_assoc (flush_mix e16) (fun _ => count_with (set_mix 0))), (bind_ret_eq _ _ _ _ _ E2).
    exact E3. }
  assert (fill_count (counts c3) = 0) as Ef by (apply Hs3, Hs2; destruct (Hz1 eq_refl) as (c0 & ->); done).
  assert (mix_count (counts c3) = 0) as Em by (apply Hs3; destruct (Hz2 eq_refl) as (c0 & ->); done).
  assert (fom_count (counts c3) = 0) as Eo by (destruct (Hz3 eq_refl) as (c0 & ->); done).
  pose proof (encodes_range _ _ _ He3) as [[Hw0 _] _]. destruct He3 as [Hc Hru Hr Ht].
  destruct Hru. split; [done| |unfold regime; lia|done].
  split; rewrite ?Ef, ?Em, ?Eo; try done; try (apply run_none; [done|unfold regime; lia]).
  by rewrite Eo in runs_bits0.
Qed.

Lemma not_full fl i c : encodes fl i c -> full e16 byte_limit c = false.
Proof.
  intros He. pose proof (encodes_range _ _ _ He). destruct He as [Hc Hr _ _].
  destruct (runs_color _ _ _ Hr) as [? _]. pose proof (core_len _ _ Hc).
  destruct (core_out _ _ Hc) as [[_ ? _ _ _] _].
  unfold full. change (e_size e16) with 2. cbn [forallb].
  rewrite (usize_id (pointer (out c) + _)), (usize_id (_ - 2 * color_count _)) by lia.
  by rewrite (proj2 (Z.leb_gt _ _)) by lia.
Qed.

Lemma compress_rows_ok fuel r c : 0 <= r <= h -> h - r <= Z.of_nat fuel -> encodes (r =? 0) (r * w) c ->
  exists c', compress_rows e16 fuel data w w byte_limit (line_of r) (last_line_of r) (2 * w * (r + 1)) r c = Ret h c'
    /\ encodes false N c'.
Proof.
  revert r c. induction fuel as [|fuel IH]; intros r c Hr Hf He; cbn [compress_rows].
  - assert (r = h) as -> by lia. replace (0 <=? line_of h) with false by (unfold line_of; nia).
    exists c. split; [done|]. rewrite N_eq, (Z.mul_comm w). by replace (h =? 0) with false in He by lia.
  - destruct (Z.eq_dec r h) as [->|Hne].
    { replace (0 <=? line_of h) with false by (unfold line_of; nia).
      exists c. split; [done|]. rewrite N_eq, (Z.mul_comm w). by replace (h =? 0) with false in He by lia. }
    replace (0 <=? line_of r) with true by (unfold line_of; nia).
    assert (2 * w * (r + 1) <= 2 * N) by (rewrite N_eq; nia).
    rewrite (proj2 (Z.ltb_lt _ _)) by lia. cbn [andb]. rewrite get_bind.
    destruct (core_out _ _ (encodes_core _ _ _ He)) as [[_ ? _ _ _] _].
    rewrite assert_bind, (not_full _ _ _ He) by lia.
    destruct (compress_row_ok r c ltac:(lia) He) as (c1 & E1 & He1). rewrite (bind_ret_eq _ _ _ _ _ E1).
    assert (exists c2, (match last_line_of r with None => end_first_line e16 | Some _ => mret tt end) c1 = Ret tt c2
      /\ encodes false ((r + 1) * w) c2) as (c2 & E2 & He2).
    { unfold last_line_of. destruct (Z.eqb_spec r 0) as [->|].
      - rewrite Z.add_0_l in *. rewrite Z.mul_1_l. by apply end_first_line_ok.
      - exists c1. split; [done|]. by replace ((r + 1) * w) with (r * w + w) by lia. }
    rewrite (bind_ret_eq _ _ _ _ _ E2).
    replace (line_of r - e_step e16 * w) with (line_of (r + 1)) by (unfold line_of; change (e_step e16) with 2; lia).
    replace (u32 (2 * w * (r + 1) + u32 (w * e_size e16))) with (2 * w * (r + 1 + 1))
      by (change (e_size e16) with 2; unfold u32; rewrite N_eq in *; rewrite (Z.mod_small (w * 2)), Z.mod_small; nia).
    replace (Some (line_of r)) with (last_line_of (r + 1))
      by (unfold last_line_of; rewrite (proj2 (Z.eqb_neq _ _)) by lia; do 2 f_equal; lia).
    apply IH; [lia|lia|]. by replace (r + 1 =? 0) with false by lia.
Qed.

(** ** The end of a message *)

(** The message draws all pixels, and the streams are still those of the caller. *)
Definition complete (c : compressor) : Prop :=
  wf (out c) /\ capacity (out c) = ocap /\ pointer (out c) <= 2 * N + 3
  /\ wf (temp c) /\ capacity (temp c) = tcap
  /\ exists p, drawing depth16 w (written (out c)) (blank depth16) p /\ px p = P.

Lemma complete_core c : core N c -> waiting c = 0 -> complete c.
Proof.
  intros [] Hw. rewrite Hw, Z.sub_0_r in *. destruct core_drawn0 as (p & Hd & Hp).
  destruct core_out0, core_temp0. split_and!; [done|done|lia|done|done|]. exists p. split; [done|].
  by rewrite (sound_px _ _ Hp), ztake_all by lia.
Qed.

Lemma finish_run c x m : core N c -> x <= waiting c /\ (4 <= x -> writes_run N x m) -> dominant x (counts c) = true ->
  exists c', put_run e16 x (on_out m) c = Ret tt c' /\ complete c'.
Proof.
  intros Hc [Hx Hm] Hd. apply dominant_gt in Hd.
  destruct (put_run_draws N c x m Hc ltac:(lia) (Hm ltac:(lia))) as (c' & E & Hc' & _ & _ & Hw & _).
  exists c'. split; [done|]. by apply complete_core.
Qed.

Lemma finish_ok c : encodes false N c -> exists c', finish e16 c = Ret tt c' /\ complete c'.
Proof.
  intros He. pose proof (encodes_core _ _ _ He) as Hc. destruct (core_temp _ _ Hc) as [Ht Htc].
  unfold finish. rewrite (bind_ret_eq _ _ _ _ _ (set_position_0 c Ht)), get_bind.
  set (c1 := set_temp _ c).
  assert (wf (set_pointer 0 (temp c))) as Ht0 by (destruct Ht; split; cbn; lia || done).
  assert (core N c1) as Hc1 by (by destruct Hc; split).
  destruct (runs_bicolor _ _ _ (encodes_runs _ _ _ He)) as (Hk & _).
  change (counts c1) with (counts c). change (last_pixel c1) with (last_pixel c). change (fom_mask c1) with (fom_mask c).
  assert (fillp N = false) as HN by (unfold fillp; by rewrite Z.ltb_irrefl).
  destruct (dominant (fill_count _) _) eqn:E1; [apply finish_run; [done|exact (fill_order false N c He (or_introl HN))|done]|].
  destruct (dominant (mix_count _) _) eqn:E2; [apply finish_run; [done|exact (mix_order false N c He)|done]|].
  destruct (dominant (color_count _) _) eqn:E3; [apply finish_run; [done|exact (color_order false N c He)|done]|].
  destruct (dominant (bicolor_count _) _) eqn:E4; [apply dominant_gt in E4; lia|].
  destruct (dominant (fom_count _) _) eqn:E5; [apply finish_run; [done|exact (fom_order false N c He)|done]|].
  pose proof (core_waiting _ _ Hc1). destruct (core_out _ _ Hc1) as [_ Hoc].
  destruct (core_copy N c1 0 Hc1 ltac:(lia)) as (c' & E & Ec & Hwf & Hcap & Hl & (p & Hd & Hp)).
  rewrite Z.sub_0_r in *. replace (set_waiting (waiting c1) c1) with c1 in E by (by destruct c1).
  exists c'. split; [done|]. split_and!; [done|by rewrite Hcap|done|by rewrite Ec|by rewrite Ec|].
  exists p. split; [done|]. by rewrite (sound_px _ _ Hp), ztake_all by lia.
Qed.

Lemma encodes_start s temp_s : wf s -> capacity s = ocap -> pointer s = 0 ->
  wf temp_s -> capacity temp_s = tcap -> pointer temp_s = 0 ->
  encodes true 0 (mkCompressor s temp_s reset_counts (zrepeat 8192 0) 0 0 0 0 0).
Proof.
  intros Hs Hc Hp Ht Htc Htp. pose proof (zlen_nonneg P).
  assert (core 0 (mkCompressor s temp_s reset_counts (zrepeat 8192 0) 0 0 0 0 0)) as Hcore.
  { split; cbn [out temp waiting last_pixel]; try done; try lia.
    exists (blank depth16). unfold written. rewrite Hp. split; [constructor|apply sound_blank]. }
  split; [done| |cbn; lia|done]. apply runs_none; [done|cbn; lia|done|exact (zlen_zrepeat 8192 0 ltac:(lia))|].
  apply Forall_zrepeat. done.
Qed.

Lemma compress_bitmap_ok s temp_s : wf s -> capacity s = ocap -> pointer s = 0 ->
  wf temp_s -> capacity temp_s = tcap -> pointer temp_s = 0 ->
  exists c', compress_bitmap e16 data w byte_limit (h - 1) 0 s temp_s = Ret h c' /\ complete c'.
Proof.
  intros. unfold compress_bitmap. rewrite Z.add_0_r.
  assert (w * h < 16384) by lia. assert (w <= w * h) by nia.
  replace (u32 w) with w by word_lia. change (e_size e16) with 2. change (e_step e16) with 2.
  replace (u32 (w * 2)) with (2 * w * (0 + 1)) by word_lia.
  replace (2 * w * (h - 1)) with (line_of 0) by (unfold line_of; lia). change None with (last_line_of 0).
  destruct (compress_rows_ok (Z.to_nat (h - 1 + row_fuel)) 0 (mkCompressor s temp_s reset_counts (zrepeat 8192 0) 0 0 0 0 0))
    as (c1 & E1 & He1); [lia|unfold row_fuel; lia|by apply encodes_start|].
  rewrite (bind_ret_eq _ _ _ _ _ E1). destruct (finish_ok c1 He1) as (c2 & E2 & Hc2).
  rewrite (bind_ret_eq _ _ _ _ _ E2). by exists c2.
Qed.
End Rows.
End Encoded.
