(* ===== verification/InterleavedRoundtrip.v ===== *)
(** * The interleaved codec from image to image

    Both entry points of [Interleaved] against what the orders of a message mean, the invariant of
    their contexts, and the round trip of an image at 16 bits per pixel. *)

From S2P Require Import Prelude Stream Aligned Color Image RleBitmap Bitmap Interleaved RleSpec RleExact RleEmit.
From S2P Require Import BitmapRoundtrip.

(** ** Contexts *)

(** The blocks have the sizes that the context names, and room for an image of the encoder. *)
Definition context_ok (c : BITMAP_INTERLEAVED_CONTEXT) : Prop :=
  (exists b, TempBuffer c = Live b /\ zlen b = TempSize c) /\ maxSize <= TempSize c < 2 ^ 32
  /\ wf (bts c) /\ maxSize <= capacity (bts c).

Section Codec.
Context `{AllocOk}.

Lemma context_new_ok junk : bytes junk -> zlen junk = maxSize ->
  exists c, bitmap_interleaved_context_new junk = Some c /\ context_ok c.
Proof.
  intros Hb Hl. unfold bitmap_interleaved_context_new, Stream_New, winpr_aligned_recalloc.
  rewrite !alloc_ok by lia. eexists. split; [done|]. split; [eexists; split; [done|]; by rewrite zlen_zrepeat|].
  split; [done|]. split; [|done]. split; cbn; done.
Qed.

Lemma grow_temp_ok n c : context_ok c -> 0 <= n < 2 ^ 32 ->
  exists c' b, grow_temp n c = Ret tt c' /\ context_ok c' /\ TempBuffer c' = Live b /\ n <= zlen b.
Proof.
  intros ((b & Eb & Hb) & Hs & Hw & Hc) Hn. unfold grow_temp. rewrite get_bind.
  destruct (Z.ltb_spec (TempSize c) n) as [Hlt|Hge].
  - rewrite modify_bind, Eb. cbn [winpr_aligned_recalloc]. unfold maxSize in *.
    rewrite (proj2 (Z.eqb_neq n 0)), (proj2 (Z.ltb_ge (n + 16) (zlen b))), alloc_ok by lia.
    assert (zlen (ztake n b ++ zrepeat (n - zlen b) 0) = n) as El
      by (rewrite zlen_app, ztake_all, zlen_zrepeat; lia).
    eexists _, _. split; [done|]. split; [|split; [done|lia]].
    split; [eexists; split; [done|exact El]|].
    cbn [TempSize bts set_TempBuffer]. unfold maxSize. split; [lia|done].
  - rewrite ret_bind. exists c, b. unfold on_TempBuffer. rewrite Eb. destruct c as [sz tb st]; cbn in *. subst tb.
    split; [done|]. split; [|split; [done|lia]]. split; [eauto|]. cbn. auto.
Qed.

Lemma on_TempBuffer_live {A} (m : M (list Z) A) c b : TempBuffer c = Live b ->
  on_TempBuffer m c = match m b with
                      | Ret a b' => Ret a (set_TempBuffer (Live b') c)
                      | Fail b' => Fail (set_TempBuffer (Live b') c)
                      | Crash f => Crash f
                      end.
Proof. unfold on_TempBuffer. by intros ->. Qed.

Lemma context_ok_buffer c b b' : context_ok c -> TempBuffer c = Live b -> zlen b' = zlen b ->
  context_ok (set_TempBuffer (Live b') c).
Proof.
  intros ((b0 & Eb & Hb) & Hc) E Hl. assert (b0 = b) as -> by congruence.
  split; [exists b'; split; [done|cbn; lia]|exact Hc].
Qed.

(** ** Decoding *)

(** The depths of true and high color: how a message is read and the format of its pixels. *)
Inductive color_depth : Z -> depth -> Z -> Prop :=
| depth_24 : color_depth 24 depth24 PIXEL_FORMAT_BGR24
| depth_16 : color_depth 16 depth16 PIXEL_FORMAT_RGB16
| depth_15 : color_depth 15 depth16 PIXEL_FORMAT_RGB15.

Lemma color_depth_facts bpp d f : color_depth bpp d f ->
  DepthLaws d /\ f ∈ supported /\ FreeRDPGetBytesPerPixel f = PIXEL_SIZE d
  /\ forall w, source_layout w bpp = Some (u32 (w * PIXEL_SIZE d), f, d).
Proof.
  intros []; (split; [apply _|]; split; [by apply (bool_decide_unpack _)|]; split; [done|]); done.
Qed.

(** The rows of the destination's rectangle from the bottom up. *)
Definition shown (f g : Z) (palette : option gdiPalette) (temp : list Z) (step dw dh : Z) : list (list Z) :=
  map (fun y => copied_row f g palette temp 0 dw ((dh - 1 - y) * step)) (seqZ 0 dh).

Section Decode.
Variables (bpp : Z) (d : depth) (f w h g dStep xDst yDst dw dh : Z) (palette : option gdiPalette).
Variables (src dst : list Z) (c : BITMAP_INTERLEAVED_CONTEXT).
Hypothesis the_depth : color_depth bpp d f.
Hypothesis ctx_ok : context_ok c.
Hypothesis w_pos : 0 < w.
Hypothesis h_pos : 0 < h.
Hypothesis sizes : w * PIXEL_SIZE d * h < UINT32_MAX.
Hypothesis src_bytes : bytes src.
Hypothesis src_len : zlen src <= UINT32_MAX.
Hypothesis g_supported : g ∈ supported.
Hypothesis g_opaque : FreeRDPColorHasAlpha g = false.
Hypothesis dw_range : 0 < dw <= Z.min w INT32_MAX.
Hypothesis dh_range : 0 < dh <= Z.min h INT32_MAX.
Hypothesis dst_fits : fits g dStep xDst yDst dw dh dst.

Lemma decompress_render :
  let run := interleaved_decompress (Some src) w h bpp g dStep xDst yDst dw dh palette (c, dst) in
  match render d (Z.to_nat (zlen src)) w (w * h) src (blank d) with
  | Some p => exists c' b, let temp := blit 0 (bytes_px d (px p)) b in
      run = Ret tt (c', blit_rows (yDst * dStep + xDst * FreeRDPGetBytesPerPixel g) dStep
                          (shown f g palette temp (w * PIXEL_SIZE d) dw dh) dst)
      /\ context_ok c' /\ zlen (px p) <= w * h /\ w * PIXEL_SIZE d * h <= zlen b
  | None => exists c', run = Fail (c', dst) /\ context_ok c'
  end.
Proof.
  cbv zeta. destruct (color_depth_facts bpp d f the_depth) as (Hd & Hf & Hbytes & Hlay).
  pose proof (@size_range d Hd). assert (w * PIXEL_SIZE d <= w * PIXEL_SIZE d * h) by nia.
  unfold interleaved_decompress. rewrite Hlay.
  assert (u32 (w * PIXEL_SIZE d) = w * PIXEL_SIZE d) as -> by word_lia.
  replace (u32 (w * PIXEL_SIZE d * h)) with (w * PIXEL_SIZE d * h) by word_lia.
  destruct (grow_temp_ok (w * PIXEL_SIZE d * h) c ctx_ok ltac:(word_lia)) as (c1 & b & E1 & Hc1 & Eb & Hlb).
  assert (on_context (grow_temp (w * PIXEL_SIZE d * h)) (c, dst) = Ret tt (c1, dst)) as E1'
    by (unfold on_context; by rewrite E1).
  rewrite (bind_ret_eq _ _ _ _ _ E1'). clear E1 E1'.
  pose proof (rle_decompress_render d w h src b w_pos ltac:(lia) sizes Hlb src_bytes src_len) as Hr.
  destruct (render _ _ _ _ _ _) as [p|].
  - destruct Hr as [E2 Hp]. set (temp := blit 0 (bytes_px d (px p)) b) in *. set (c2 := set_TempBuffer (Live temp) c1).
    assert (zlen temp = zlen b) as Ht.
    { apply zlen_blit; [lia|]. rewrite (bytes_px_len d). nia. }
    assert (on_context (on_TempBuffer (RleDecompress d src (w * PIXEL_SIZE d) w h)) (c1, dst) = Ret tt (c2, dst)) as E2'
      by (unfold on_context; by rewrite (on_TempBuffer_live _ _ _ Eb), E2).
    rewrite (bind_ret_eq _ _ _ _ _ E2').
    assert (on_context (on_TempBuffer get) (c2, dst) = Ret temp (c2, dst)) as E3 by done.
    rewrite (bind_ret_eq _ _ _ _ _ E3). exists c2, b. split; [|split; [by apply (context_ok_buffer c1 b)|done]].
    unfold on_destination.
    rewrite (image_copy_rows f g dStep dStep xDst yDst dw dh temp (w * PIXEL_SIZE d) 0 0 palette _ true dst);
      [done|done|done|lia|lia| |done| |by rewrite g_opaque, andb_false_r|done|done].
    + rewrite (proj2 (Z.eqb_neq _ _)); [done|]. pose proof (supported_bytes g g_supported).
      destruct dst_fits as (? & ? & ? & ?). nia.
    + split; [lia|]. split; [lia|]. rewrite Hbytes, Ht. split; [nia|]. nia.
  - destruct Hr as (m & E2 & Hm).
    assert (on_context (on_TempBuffer (RleDecompress d src (w * PIXEL_SIZE d) w h)) (c1, dst)
      = Fail (set_TempBuffer (Live m) c1, dst)) as E2'
      by (unfold on_context; by rewrite (on_TempBuffer_live _ _ _ Eb), E2).
    rewrite (bind_fail_eq _ _ _ _ E2'). eexists. split; [done|]. by apply (context_ok_buffer c1 b).
Qed.
End Decode.

(** ** Encoding *)

(** The bytes of a rectangle at 16 bits per pixel, its rows one behind the other. *)
Definition high_image (f : Z) (palette : option gdiPalette) (src : list Z) (sStep x y w h : Z) : list Z :=
  mjoin (map (fun r => copied_row f PIXEL_FORMAT_RGB16 palette src x w ((y + r) * sStep)) (seqZ 0 h)).

(** Its pixels in the order of a message: the rows from the bottom up. *)
Definition scan (w h : Z) (img : list Z) : list Z :=
  map (fun i => GETPIXEL16 (slice (2 * w * (h - 1 - i / w) + i mod w * 2) 2 img)) (seqZ 0 (w * h)).

Lemma bytes_mjoin (ls : list (list Z)) : Forall bytes ls -> bytes (mjoin ls).
Proof. induction 1 as [|l ls Hl _ IH]; [constructor|]. change (bytes (l ++ mjoin ls)). by apply Forall_app. Qed.

Lemma write_color_bytes g color px : g ∈ supported -> FreeRDPWriteColor g color = Some px -> bytes px.
Proof.
  intros Hg. unfold FreeRDPWriteColor. destruct (supported_bits g Hg) as [[->|[->|[->| ->]]] _]; intros [= <-];
    repeat (apply Forall_cons_2; [unfold is_byte; word_lia|]); constructor.
Qed.

Lemma copied_row_bytes f g palette src x w off : f ∈ supported -> g ∈ supported -> bytes src ->
  bytes (copied_row f g palette src x w off).
Proof.
  intros Hf Hg Hs. unfold copied_row. apply bytes_mjoin, Forall_map, Forall_true. intros i.
  unfold copied. destruct (FreeRDPAreColorFormatsEqualNoAlpha f g); [by apply Forall_slice|].
  unfold recoded. destruct (FreeRDPReadColor _ _) as [v|]; cbn [mbind option_bind default]; [|constructor].
  destruct (FreeRDPConvertColor _ _ _ _) as [v'|]; cbn [mbind option_bind default]; [|constructor].
  destruct (FreeRDPWriteColor g v') as [px|] eqn:E; cbn [default]; [|constructor]. by apply (write_color_bytes g v').
Qed.

(** Rows that fill a block from its start. *)
Lemma blit_rows_front n rs mem : 0 <= n -> Forall (fun r => zlen r = n) rs -> n * zlen rs <= zlen mem ->
  blit_rows 0 n rs mem = mjoin rs ++ zdrop (n * zlen rs) mem.
Proof.
  intros Hn Hr Hm. induction rs as [|r rs IH] using rev_ind.
  { change (zlen (@nil (list Z))) with 0. by rewrite Z.mul_0_r, zdrop_0. }
  apply Forall_app in Hr as [Hrs Hr]. apply Forall_cons_1 in Hr as [Hr _]. pose proof (zlen_nonneg rs).
  rewrite zlen_app in *. change (zlen [r]) with 1 in *.
  rewrite blit_rows_snoc, IH, Z.add_0_l, join_app by (done || lia).
  assert (zlen (mjoin rs) = n * zlen rs) as El.
  { clear -Hrs. induction Hrs as [|l rs Hl _ IH]; [by rewrite Z.mul_0_r|].
    change (zlen (l ++ mjoin rs) = n * zlen (l :: rs)). rewrite zlen_app, zlen_cons, IH. lia. }
  change (mjoin [r]) with (r ++ []). rewrite app_nil_r. unfold blit.
  rewrite ztake_app_le, ztake_all, zdrop_app_ge, El, zdrop_zdrop, <- app_assoc by (rewrite ?El; lia).
  do 3 f_equal. lia.
Qed.

Section Encode.
Variables (f w h sStep x y : Z) (palette : option gdiPalette) (src buf : list Z).
Hypothesis f_supported : f ∈ supported.
Hypothesis w_range : 0 < w <= 64.
Hypothesis w_four : w mod 4 = 0.
Hypothesis h_range : 0 < h <= 64.
Hypothesis src_fits : fits f sStep x y w h src.
Hypothesis src_bytes : bytes src.
Hypothesis buf_bytes : bytes buf.
Hypothesis buf_len : 2 * (w * h) + 3 <= zlen buf < 2 ^ 32.
#[local] Abbreviation img := (high_image f palette src sStep x y w h).
Hypothesis calm : alternates (0 :: scan w h img) = false.

Lemma rgb16_supported : PIXEL_FORMAT_RGB16 ∈ supported.
Proof. by apply (bool_decide_unpack _). Qed.

Lemma img_rows : Forall (fun r => zlen r = 2 * w)
  (map (fun r => copied_row f PIXEL_FORMAT_RGB16 palette src x w ((y + r) * sStep)) (seqZ 0 h)).
Proof.
  pose proof (supported_bytes f f_supported). destruct src_fits as (? & ? & ? & ?).
  apply Forall_map, Forall_forall. intros r Hr. apply list_elem_of_In, elem_of_seqZ in Hr. cbn.
  rewrite (copied_row_len f PIXEL_FORMAT_RGB16);
    [change (FreeRDPGetBytesPerPixel PIXEL_FORMAT_RGB16) with 2; lia|done|apply rgb16_supported|lia|lia| |].
  - assert (0 < sStep) by nia. nia.
  - assert (0 < sStep) by nia. assert ((y + r) * sStep + sStep <= (y + h) * sStep) by nia. lia.
Qed.

Lemma img_bytes : bytes img.
Proof.
  apply bytes_mjoin, Forall_map, Forall_true. intros r. by apply copied_row_bytes, src_bytes; [|apply rgb16_supported].
Qed.

Lemma rows_len (f0 : Z -> list Z) : zlen (map f0 (seqZ 0 h)) = h.
Proof. unfold zlen. rewrite length_map, length_seqZ. lia. Qed.

Lemma img_front mem : 2 * (w * h) <= zlen mem ->
  blit_rows 0 (2 * w) (map (fun r => copied_row f PIXEL_FORMAT_RGB16 palette src x w ((y + r) * sStep)) (seqZ 0 h)) mem
  = img ++ zdrop (2 * (w * h)) mem.
Proof.
  intros Hm. rewrite (blit_rows_front (2 * w)); [|lia|apply img_rows|rewrite rows_len; lia].
  rewrite rows_len. do 2 f_equal. lia.
Qed.

Lemma img_len : zlen img = 2 * (w * h).
Proof.
  pose proof (img_front (zrepeat (2 * (w * h)) 0) ltac:(rewrite zlen_zrepeat; nia)) as E.
  apply (f_equal zlen) in E. rewrite zlen_app, (zlen_zdrop (2 * (w * h))) in E by (rewrite zlen_zrepeat; nia).
  rewrite (zlen_blit_rows 0 (2 * w) _ _ (2 * w)), zlen_zrepeat in E; [lia|nia|lia|lia|apply img_rows|].
  rewrite rows_len, zlen_zrepeat; nia.
Qed.

Lemma get_pixel_u16 l : bytes l -> zlen l = 2 -> is_u16 (GETPIXEL16 l) /\ write_pixel_16 (GETPIXEL16 l) = l.
Proof.
  intros Hb Hl. destruct l as [|a [|b []]]; unfold zlen in Hl; cbn in Hl; try lia.
  apply Forall_cons_1 in Hb as [Ha Hb]. apply Forall_cons_1 in Hb as [Hb _]. unfold is_byte in *.
  unfold GETPIXEL16, write_pixel_16. cbn [nth]. rewrite lor_shiftl_add by lia. change (2 ^ 8) with 256.
  rewrite shiftr_div, !land_FF by lia. change (2 ^ 8) with 256. unfold is_u16. split; [lia|]. list_eq; word_lia.
Qed.

Lemma scan_len : zlen (scan w h img) = w * h.
Proof. unfold zlen, scan. rewrite length_map, length_seqZ. nia. Qed.

Lemma scan_slice r j : 0 <= r < h -> 0 <= j < w ->
  zlen (slice (2 * w * (h - 1 - r) + j * 2) 2 img) = 2.
Proof. intros. apply zlen_slice; [nia|lia|]. rewrite img_len. nia. Qed.

Lemma scan_u16 : Forall is_u16 (scan w h img).
Proof.
  apply Forall_map, Forall_forall. intros i Hi. apply list_elem_of_In, elem_of_seqZ in Hi. cbn.
  apply get_pixel_u16; [apply Forall_slice, img_bytes|]. apply scan_slice.
  - split; [apply Z.div_pos; lia|apply Z.div_lt_upper_bound; lia].
  - apply Z.mod_pos_bound. lia.
Qed.

Lemma scan_nth r j : 0 <= r < h -> 0 <= j < w ->
  nth (Z.to_nat (r * w + j)) (scan w h img) 0 = GETPIXEL16 (slice (2 * w * (h - 1 - r) + j * 2) 2 img).
Proof.
  intros Hr Hj. apply nth_lookup_Some. unfold scan. rewrite list_lookup_fmap.
  rewrite lookup_seqZ_lt by nia. cbn [fmap option_fmap option_map]. rewrite Z.add_0_l, Z2Nat.id by nia.
  rewrite Z.div_add_l, (Z.div_small j), Z.add_0_r, (Z.add_comm (r * w)), Z.mod_add, Z.mod_small by lia. done.
Qed.

(** The encoder returns a message that draws the image. *)
Lemma compress_draws c : context_ok c ->
  exists c' buf' n p, interleaved_compress buf (zlen buf) w h (Some src) f sStep x y palette 16 c = Ret (true, buf', n) c'
    /\ context_ok c' /\ 0 <= n <= 2 * (w * h) + 3 /\ bytes buf' /\ zlen buf' = zlen buf
    /\ render depth16 (Z.to_nat n) w (w * h) (ztake n buf') (blank depth16) = Some p /\ px p = scan w h img.
Proof.
  intros Hc. pose proof Hc as ((b & Eb & Hb) & Hsz & Hbw & Hbc).
  assert (0 < w * h <= 4096) as Hwh by nia. pose proof img_len as Hil. pose proof scan_len as Hsl.
  unfold interleaved_compress. rewrite !guard_bind by lia. change (encoding_format 16) with (Some PIXEL_FORMAT_RGB16).
  cbv iota beta. unfold maxSize in *. set (data := img ++ zdrop (2 * (w * h)) b).
  assert (zlen data = zlen b) as Hdl by (unfold data; rewrite zlen_app, Hil, zlen_zdrop; lia).
  set (c1 := set_TempBuffer (Live data) c). assert (context_ok c1) as Hc1 by by apply (context_ok_buffer c b).
  rewrite (bind_ret_eq _ _ _ tt c1).
  2: { rewrite (on_TempBuffer_live _ _ _ Eb).
       rewrite (image_copy_rows f PIXEL_FORMAT_RGB16 0 (2 * w) 0 0 w h src sStep x y palette _ false b);
         [|done|apply rgb16_supported|unfold INT32_MAX; lia|unfold INT32_MAX; lia| | |done|done|done|done].
       - cbn [negb]. rewrite Z.mul_0_l. cbn [Z.add]. rewrite img_front by lia. done.
       - change (FreeRDPGetBytesPerPixel PIXEL_FORMAT_RGB16) with 2. cbn [Z.eqb]. word_lia.
       - split; [lia|]. split; [lia|]. change (FreeRDPGetBytesPerPixel PIXEL_FORMAT_RGB16) with 2. split; [lia|]. nia. }
  cbn [Stream_New]. set (s := mkStream buf 0 (zlen buf) (zlen buf) 1 true true).
  assert (on_TempBuffer get c1 = Ret data c1) as E2 by done.
  rewrite (bind_ret_eq _ _ _ _ _ E2), get_bind. clear E2. change (bts c1) with (bts c).
  rewrite set_position_eq by (destruct Hbw; lia). set (temp_s := set_pointer 0 (bts c)).
  pose proof (zlen_nonneg buf). assert (wf s) as Hs by (unfold s; split; cbn [buffer capacity pointer len]; lia || done).
  assert (wf temp_s) as Ht by (destruct Hbw; unfold temp_s, set_pointer; split; cbn [buffer capacity pointer len]; lia || done).
  destruct (compress_bitmap_ok w (scan w h img) (zlen buf) (capacity (bts c)) ltac:(lia) scan_u16 ltac:(lia) calm
    ltac:(lia) ltac:(lia) h (64 * 64 * 4) data ltac:(lia) ltac:(lia) ltac:(lia) ltac:(lia)) with (s := s) (temp_s := temp_s)
    as (e & Ee & Ho & Hoc & Hop & Hte & Htc & (p & Hd & Hp)); try done.
  { intros r j Hr Hj. unfold pel. rewrite (proj2 (Z.ltb_ge _ _)), scan_nth by nia. f_equal.
    apply slice_app_l; [nia|lia|]. rewrite Hil. nia. }
  unfold freerdp_bitmap_compress. rewrite set_position_eq by (destruct Ht; lia). change (set_pointer 0 temp_s) with temp_s.
  cbn [Z.eqb orb Pos.eqb]. rewrite Ee. rewrite ret_bind. cbv iota beta. rewrite modify_bind.
  destruct Ho as [Hbl Hbp Hln Hlim Hbb]. unfold Stream_SealLength. rewrite get_bind, !assert_bind by lia.
  replace (pointer (out e) <=? capacity (out e)) with true by lia. cbn [modify].
  assert (u32 (pointer (out e)) = pointer (out e)) as Eu by word_lia.
  eexists _, (buffer (out e)), (pointer (out e)), p. split.
  { change (len (set_len (pointer (out e)) (out e))) with (pointer (out e)). by rewrite Eu. }
  split. { destruct Hc1 as (Hx & Hy & _). split; [exact Hx|]. split; [exact Hy|]. split; [exact Hte|]. cbn. unfold maxSize. lia. }
  split; [lia|]. split; [done|]. split; [lia|]. split; [|exact Hp].
  unfold written in Hd. rewrite <- (drawing_message depth16 w _ _ _ (w * h) Hd); [|rewrite Hp; lia].
  by rewrite zlen_ztake by lia.
Qed.

(** The rows of the message, upside down, are the rows of the image. *)
Lemma shown_back g palette' b :
  shown PIXEL_FORMAT_RGB16 g palette' (blit 0 (bytes_px depth16 (scan w h img)) b) (w * 2) w h
  = map (fun r => copied_row PIXEL_FORMAT_RGB16 g palette' img 0 w ((0 + r) * (2 * w))) (seqZ 0 h).
Proof.
  apply map_ext_in. intros r Hr. apply list_elem_of_In, elem_of_seqZ in Hr. unfold copied_row. f_equal.
  apply map_ext_in. intros j Hj. apply list_elem_of_In, elem_of_seqZ in Hj. f_equal.
  change (FreeRDPGetBytesPerPixel PIXEL_FORMAT_RGB16) with 2. unfold pixel_at, blit. cbn [app]. rewrite ztake_0. cbn [app].
  replace ((h - 1 - r) * (w * 2) + (0 + j) * 2) with (((h - 1 - r) * w + j) * 2) by lia.
  pose proof scan_len as Hsl.
  pose proof (bytes_px_slice depth16 (scan w h img) (zdrop (0 + zlen (bytes_px depth16 (scan w h img))) b)
    ((h - 1 - r) * w + j) ltac:(nia)) as E. change (PIXEL_SIZE depth16) with 2 in E. rewrite E, scan_nth by lia.
  replace (2 * w * (h - 1 - (h - 1 - r)) + j * 2) with ((0 + r) * (2 * w) + (0 + j) * 2) by lia.
  apply get_pixel_u16; [apply Forall_slice, img_bytes|].
  replace ((0 + r) * (2 * w) + (0 + j) * 2) with (2 * w * (h - 1 - (h - 1 - r)) + j * 2) by lia.
  apply scan_slice; lia.
Qed.
End Encode.

(** C9: the decoder of the interleaved codec does with any bytes, at 15, 16 and 24 bits per pixel,
    what their orders mean, for a destination rectangle no larger than the image of the message, in
    a destination of a 15, 16, 24 or 32 bit format without alpha (the 30 bit ones excepted), an
    image of less than 2^32 - 1 bytes and memory that is not refused: when every order is
    complete and there is room for its pixels, the rectangle shows the pixels that the orders draw,
    the last row drawn on top (pixels the orders leave out are those of the scratch image), and
    beside it the destination is as it was; any other message is refused and leaves the destination
    alone. In both cases the context keeps its invariant, and nothing is read or written outside the
    message, the scratch image or the destination. A larger rectangle is filled from behind the
    image (taller_destination_faults). *)
Theorem interleaved_decompress_exact bpp d f w h g dStep xDst yDst dw dh palette src dst c :
  color_depth bpp d f -> context_ok c -> 0 < w -> 0 < h -> w * PIXEL_SIZE d * h < UINT32_MAX ->
  bytes src -> zlen src <= UINT32_MAX -> g ∈ supported -> FreeRDPColorHasAlpha g = false ->
  0 < dw <= Z.min w INT32_MAX -> 0 < dh <= Z.min h INT32_MAX -> fits g dStep xDst yDst dw dh dst ->
  let run := interleaved_decompress (Some src) w h bpp g dStep xDst yDst dw dh palette (c, dst) in
  match render d (Z.to_nat (zlen src)) w (w * h) src (blank d) with
  | Some p => exists c' temp,
      run = Ret tt (c', blit_rows (yDst * dStep + xDst * FreeRDPGetBytesPerPixel g) dStep
                          (shown f g palette temp (w * PIXEL_SIZE d) dw dh) dst)
      /\ ztake (zlen (px p) * PIXEL_SIZE d) temp = bytes_px d (px p) /\ context_ok c'
  | None => exists c', run = Fail (c', dst) /\ context_ok c'
  end.
Proof.
  intros Hd Hc Hw Hh Hs Hb Hl Hg Ha Hdw Hdh Hf run. destruct (color_depth_facts bpp d f Hd) as (Hdl & _).
  pose proof (decompress_render bpp d f w h g dStep xDst yDst dw dh palette src dst c Hd Hc Hw Hh Hs Hb Hl Hg Ha Hdw Hdh Hf) as Hr.
  cbv zeta in Hr. fold run in Hr. destruct (render _ _ _ _ _ _) as [p|]; [|done].
  destruct Hr as (c' & b & E & Hc' & _). exists c', (blit 0 (bytes_px d (px p)) b).
  split; [done|]. split; [|done]. pose proof (bytes_px_len d (px p)) as El. unfold blit. rewrite ztake_0. cbn [app].
  rewrite <- El, ztake_app_le, ztake_all by (pose proof (zlen_nonneg (bytes_px d (px p))); lia). done.
Qed.

(** C8: an image of up to 64 times 64 pixels with a width that is a multiple of four is encoded at
    16 bits per pixel and decoded again, from any 15, 16, 24 or 32 bit format into one without alpha
    (the 30 bit ones excepted), with a buffer of at least two bytes for each pixel and three more
    and memory that is not refused: it is shown as if its pixels
    at 16 bits had been copied to the destination directly, and the message takes at most two bytes
    for each pixel and three more, whatever the contexts were used for before. Excluded are images
    in which, in the order of the message and with a black pixel put in front of the first one, five
    pixels in a row take turns between two colors, so also those that start with v, 0, v, 0: of such
    runs the encoder swaps the colors when their length is even (bicolor_run_swapped). *)
Theorem interleaved_roundtrip f w h sStep x y palette src buf c g dStep xDst yDst palette' dst dc :
  f ∈ supported -> 0 < w <= 64 -> w mod 4 = 0 -> 0 < h <= 64 -> fits f sStep x y w h src -> bytes src ->
  bytes buf -> 2 * (w * h) + 3 <= zlen buf < 2 ^ 32 -> context_ok c ->
  g ∈ supported -> FreeRDPColorHasAlpha g = false -> fits g dStep xDst yDst w h dst -> context_ok dc ->
  let img := high_image f palette src sStep x y w h in
  alternates (0 :: scan w h img) = false ->
  exists c' buf' n dc' dst',
    interleaved_compress buf (zlen buf) w h (Some src) f sStep x y palette 16 c = Ret (true, buf', n) c'
    /\ 0 <= n <= 2 * (w * h) + 3 /\ context_ok c'
    /\ interleaved_decompress (Some (ztake n buf')) w h 16 g dStep xDst yDst w h palette' (dc, dst) = Ret tt (dc', dst')
    /\ context_ok dc'
    /\ freerdp_image_copy_no_overlap g dStep xDst yDst w h (Some img) PIXEL_FORMAT_RGB16 (2 * w) 0 0 palette'
         FREERDP_FLIP_NONE dst = Ret tt dst'.
Proof.
  intros Hf Hw Hw4 Hh Hsf Hsb Hbb Hbl Hc Hg Ha Hdf Hdc img Hcalm. assert (0 < w * h <= 4096) by nia.
  destruct (compress_draws f w h sStep x y palette src buf Hf Hw Hw4 Hh Hsf Hsb Hbb Hbl Hcalm c Hc)
    as (c' & buf' & n & p & E & Hc' & Hn & Hb' & Hl' & Hr & Hp).
  assert (zlen (ztake n buf') = n) as Hzn by (apply zlen_ztake; lia).
  pose proof (decompress_render 16 depth16 PIXEL_FORMAT_RGB16 w h g dStep xDst yDst w h palette' (ztake n buf') dst dc
    depth_16 Hdc ltac:(lia) ltac:(lia)) as Hd. cbv zeta in Hd. rewrite Hzn, Hr in Hd.
  change (PIXEL_SIZE depth16) with 2 in Hd.
  destruct Hd as (dc' & b & Ed & Hdc' & _);
    [word_lia|by apply Forall_ztake|word_lia|done|done|unfold INT32_MAX; lia|unfold INT32_MAX; lia|done|].
  rewrite Hp in Ed. eexists c', buf', n, dc', _. split; [exact E|]. split; [done|]. split; [done|].
  split; [exact Ed|]. split; [done|].
  rewrite (image_copy_rows PIXEL_FORMAT_RGB16 g dStep dStep xDst yDst w h img (2 * w) 0 0 palette' _ false dst);
    [|apply rgb16_supported|done|unfold INT32_MAX; lia|unfold INT32_MAX; lia| |done| |done|done|done].
  - unfold img. rewrite (shown_back f w h sStep x y palette src buf) by done. done.
  - rewrite (proj2 (Z.eqb_neq _ _)); [done|]. pose proof (supported_bytes g Hg). destruct Hdf as (? & ? & ? & ?). nia.
  - split; [lia|]. split; [lia|]. change (FreeRDPGetBytesPerPixel PIXEL_FORMAT_RGB16) with 2. split; [lia|].
    unfold img. rewrite (img_len f w h sStep x y palette src) by done. lia.
Qed.
End Codec.

Lemma fresh_interleaved : exists c, @bitmap_interleaved_context_new alloc_always (zrepeat maxSize 0) = Some c /\ context_ok c.
Proof.
  apply (@context_new_ok alloc_always alloc_always_ok); [by apply Forall_zrepeat|by rewrite zlen_zrepeat].
Qed.

Lemma interleaved_decompress_exact_witness :
  exists c c' temp, context_ok c
    /\ @interleaved_decompress alloc_always (Some [0x04; 0x64; 1; 2; 0x03; 0x82; 5; 6; 7; 8; 0xFD]) 4 4 16
         PIXEL_FORMAT_RGB16 8 0 0 4 4 None (c, zrepeat 32 0)
       = Ret tt (c', blit_rows 0 8 (shown PIXEL_FORMAT_RGB16 PIXEL_FORMAT_RGB16 None temp 8 4 4) (zrepeat 32 0))
    /\ ztake 28 temp = [0; 0; 0; 0; 0; 0; 0; 0; 1; 2; 1; 2; 1; 2; 1; 2; 1; 2; 1; 2; 1; 2; 5; 6; 7; 8; 255; 255].
Proof.
  destruct fresh_interleaved as (c & _ & Hc).
  pose proof (@interleaved_decompress_exact alloc_always alloc_always_ok 16 depth16 PIXEL_FORMAT_RGB16 4 4 PIXEL_FORMAT_RGB16
    8 0 0 4 4 None [0x04; 0x64; 1; 2; 0x03; 0x82; 5; 6; 7; 8; 0xFD] (zrepeat 32 0) c depth_16 Hc ltac:(lia) ltac:(lia)
    ltac:(done) ltac:(by apply bytes_check) ltac:(done) rgb16_supported ltac:(done) ltac:(done) ltac:(done)
    ltac:(by repeat split)) as Hr.
  cbv zeta in Hr.
  set (p := default (blank depth16) (render depth16 11 4 16 [0x04; 0x64; 1; 2; 0x03; 0x82; 5; 6; 7; 8; 0xFD] (blank depth16))).
  assert (render depth16 (Z.to_nat (zlen [0x04; 0x64; 1; 2; 0x03; 0x82; 5; 6; 7; 8; 0xFD])) 4 (4 * 4)
            [0x04; 0x64; 1; 2; 0x03; 0x82; 5; 6; 7; 8; 0xFD] (blank depth16) = Some p) as E by (vm_compute; reflexivity).
  rewrite E in Hr. destruct Hr as (c' & temp & Er & Et & _). exists c, c', temp.
  split; [done|]. split; [exact Er|]. exact Et.
Defined.

(** Two rows of four pixels, the lower one like the upper one but for its last pixel. *)
Lemma interleaved_roundtrip_witness :
  let image := [1; 2; 1; 2; 1; 2; 1; 2; 1; 2; 1; 2; 1; 2; 5; 6] in
  exists c c' buf' n dc' dst',
    @interleaved_compress alloc_always (zrepeat 32 0) 32 4 2 (Some image) PIXEL_FORMAT_RGB16 8 0 0 None 16 c
      = Ret (true, buf', n) c'
    /\ 0 <= n <= 19
    /\ @interleaved_decompress alloc_always (Some (ztake n buf')) 4 2 16 PIXEL_FORMAT_RGB16 8 0 0 4 2 None (c, zrepeat 16 0)
       = Ret tt (dc', dst')
    /\ dst' = image.
Proof.
  intros image. destruct fresh_interleaved as (c & _ & Hc).
  destruct (@interleaved_roundtrip alloc_always alloc_always_ok PIXEL_FORMAT_RGB16 4 2 8 0 0 None image (zrepeat 32 0) c
    PIXEL_FORMAT_RGB16 8 0 0 None (zrepeat 16 0) c) as (c' & buf' & n & dc' & dst' & E1 & Hn & _ & E2 & _ & E3).
  - apply rgb16_supported.
  - done.
  - done.
  - done.
  - by repeat split.
  - by apply bytes_check.
  - by apply bytes_check.
  - done.
  - done.
  - apply rgb16_supported.
  - done.
  - by repeat split.
  - done.
  - by vm_compute.
  - exists c, c', buf', n, dc', dst'. split; [exact E1|]. split; [exact Hn|]. split; [exact E2|].
    vm_compute in E3. by injection E3 as <-.
Defined.

(** ** Where the encoder and the decoder disagree *)

(** The pixels of the message for an image of 16-bit values, rows from the top. *)
Definition sent_back (bpp w h : Z) (pixels : list Z) : option (list Z) :=
  match freerdp_bitmap_compress (bytes_px depth16 pixels) w bpp maxSize (h - 1) 0 (fresh 256) (fresh 256) with
  | Ret _ c => option_map px (render depth16 (length (written (out c))) w (w * h) (written (out c)) (blank depth16))
  | _ => None
  end.

(** Six pixels that take turns are sent in the wrong order: a run of even length ends with the
    second color, but is written as if it ended with the first. *)
Lemma bicolor_run_swapped :
  sent_back 16 8 2 [1; 2; 1; 2; 1; 2; 9; 9; 3; 3; 3; 3; 3; 3; 3; 9]
  = Some [3; 3; 3; 3; 3; 3; 3; 9; 1; 2; 2; 1; 2; 1; 9; 9].
Proof. vm_compute. reflexivity. Qed.

(** At 15 bits per pixel a run of 0xBA1F is sent as a foreground run, and read as white. *)
Lemma mix_of_15_bits_white : sent_back 15 4 1 [0xBA1F; 0xBA1F; 0xBA1F; 0xBA1F] = Some [0xFFFF; 0xFFFF; 0xFFFF; 0xFFFF].
Proof. vm_compute. reflexivity. Qed.

(** At 24 bits per pixel the pixels in front of a run are taken from behind the place where they
    were stored: the message has what the scratch stream held before. *)
Lemma copy_of_24_bits_stale :
  match freerdp_bitmap_compress (mjoin (map (fun v => [v; 0; 0; 0]) [1; 2; 3; 3; 3; 3; 3; 1])) 8 24 maxSize 0 0
          (fresh 256) (mkStream (zrepeat 256 77) 0 256 256 1 true true) with
  | Ret n c => n = 1 /\ written (out c) = [131; 77; 77; 77; 77; 77; 77; 77; 77; 77; 100; 3; 0; 0; 129; 1; 0; 0]
  | _ => False
  end.
Proof. vm_compute. split; reflexivity. Qed.

(** A destination with more rows than the message has is filled from behind the scratch image. *)
Lemma taller_destination_faults :
  match @bitmap_interleaved_context_new alloc_always (zrepeat maxSize 0) with
  | Some c => @interleaved_decompress alloc_always (Some [0x61; 1; 2]) 4 4 16 PIXEL_FORMAT_BGRX32 4 0 0 1 2100 None
                (c, zrepeat 8400 0) = Crash Undefined
  | None => False
  end.
Proof. vm_compute. reflexivity. Qed.
